(* ===== verification/_CoqProject ===== *)
-Q . S2P
Prelude.v
MathUtils.v
FreeQueue.v
Request.v
BlockHash.v
BlockPool.v
KVSpec.v
SingleType.v
Accounting.v
Coordinator.v
CoordinatorInv.v
Window.v
HybridHit.v
KVCacheManager.v
KVManagerInv.v
Limits.v
SchedUtils.v
HeapQ.v
RequestQueue.v
EncoderCache.v
Scheduler.v
SchedulerInv.v
SchedulerKV.v
SchedulerLife.v
SchedulerStep.v
EngineCore.v
EngineSafety.v
EngineLimits.v
Outcome.v
KVPlan.v
KVPlanInv.v
KVPlanLimits.v
NGram.v
Offload.v
OffloadPolicy.v
OffloadInv.v
OffloadReuse.v
NumPy.v
Detok.v
DetokInv.v
OutputProcessor.v
OutputInv.v
BlockTable.v
BlockTableInv.v
BatchUpdate.v
LogitsProcs.v
InputBatch.v
BatchRows.v
InputBatchInv.v
InputBatchStep.v
LogitsProcsInv.v
