(* ===== verification/Prelude.v ===== *)
(** * vLLM (2080 Ti Definitive edition): a verification development

    vLLM serves language models.  Requests enter the engine core
    ([vllm/v1/engine/core.py]); at every step the scheduler
    ([vllm/v1/core/sched/]) decides how many tokens of which request the model
    runs next, the KV-cache manager ([vllm/v1/core/kv_cache_manager.py] and the
    files it uses) gives the requests blocks of GPU memory and lets them share
    the blocks of common prefixes, the encoder cache
    ([vllm/v1/core/encoder_cache_manager.py]) does the same for the outputs of
    multi-modal encoders, the executor runs the model, and the sampled tokens
    come back to the scheduler.  The worker keeps the running requests as rows of
    arrays ([vllm/v1/worker/gpu_input_batch.py], [block_table.py]), and the front
    end turns the sampled tokens into text ([vllm/v1/engine/detokenizer.py],
    [output_processor.py]).  This library models that control plane, the part of
    the program that keeps state and can corrupt it, and proves it correct.  Paths are relative to [src/].

    ** Method.  Python methods are functions of a state-and-exception monad
    ([M S A], below): the state reached is kept when an exception is raised,
    assertions are [assert_], dictionary misses are [KeyError].  Code without state
    of its own ([KVPlan]) is in the exception monad [res] alone.  Objects that
    are shared and mutated (blocks, requests) live in a store and are passed by
    identity.  Python integers are unbounded, so they are [Z]; [//] and [%]
    are floor division and modulo; bytes are lists of [Z].  Dictionaries whose
    order matters are association lists, the others [gmap]s.  Code outside the
    repository, and the parts of it that only compute tensors, are parameters:
    the hash function and SHA-256, the executor, the KV connector, the grammar
    of structured output, the tokenizer and its decode stream, the order in which
    Python iterates over a set.  A Python string that is searched or cut is its
    list of code points.  Arrays of [numpy] and [torch] on the CPU are lists, an
    index out of range is an [IndexError]; their floats are values of a type [F]
    without NaN ([PyFloat]), since the code modelled only stores and compares
    them.

    ** Files, the code they model, and what they show.
    - [Prelude]: the monad with its rules, Python's slices, indexing and
      floor division, tactics and hints.
    - [MathUtils] ([vllm/utils/math_utils.py]): rounding helpers compute the
      integers they name.
    - [FreeQueue] ([kv_cache_utils.py], [FreeKVCacheBlockQueue]): the doubly
      linked list over block objects refines a list, call by call.
    - [Request] ([vllm/v1/request.py] and the parameter records): the request
      and its operations.
    - [BlockHash] ([kv_cache_utils.py]): the chained block hashes are the
      reference chain; for requests made and grown by the engine's calls equal
      hashes mean equal prefixes, extra keys included.
    - [BlockPool] ([block_pool.py]): queue, reference counts and hash table
      stay consistent; cached blocks are found; eviction takes the oldest.
    - [KVSpec] ([kv_cache_interface.py]): cache specs, page sizes, merging and
      admission caps.
    - [SingleType], [Accounting], [Window] ([single_type_kv_cache_manager.py]):
      one manager per kind of attention; hits are the longest possible; through
      the life of a request (the relation [window_life]) a plain sliding window
      stays within its cap.
    - [Coordinator], [CoordinatorInv], [HybridHit] ([kv_cache_coordinator.py]):
      several groups; the fixed-point search for a common hit ends and is sound:
      every group gets rows of one length whose needed blocks are cached hits
      ([usable_row]), if at most the first attention group is full attention and
      the managers honour [CacheHitLaws].
    - [KVCacheManager], [KVManagerInv] ([kv_cache_manager.py]): [allocate_slots]
      never raises, refuses exactly when blocks are missing and otherwise gives
      every group its blocks; reference counts are exact; no block leaks.  All of
      it for attention groups (full, sliding-window, chunked local) without
      external tokens.
    - [Limits]: concrete runs of the KV-cache code that break its promises.
    - [SchedUtils] ([sched/utils.py]): stop conditions are exact, with the status
      and the stop reason they leave; the sampled tokens are cut at the first that
      stops the request.
    - [HeapQ], [RequestQueue] ([sched/request_queue.py]): both queues, with the
      sift loops of [heapq]; the priority queue refines a bag.
    - [EncoderCache] ([encoder_cache_manager.py] and the scheduler's encoder
      planning): slots are counted exactly; scheduled inputs are reserved.
    - [Scheduler] ([sched/scheduler.py], [async_scheduler.py], [output.py]): the
      scheduler, every call that changes its state.
    - [SchedulerInv]: the laws [KVLaws] and [EncLaws] the scheduler needs of its
      managers, and, against them, [schedule_spec]: a step returns, keeps budget
      and limits and the invariant [sched_inv].
    - [SchedulerKV]: the KV-cache manager and the encoder cache satisfy the laws.
    - [SchedulerLife], [SchedulerStep]: adding and aborting requests, resetting the
      prefix cache, which preempts all running requests, and taking the model's
      output keep the invariant.
    - [EngineCore] ([vllm/v1/engine/core.py]): the calls of the engine core as
      sequences of steps.
    - [EngineSafety]: everything together; no call of a synchronous engine on a
      full-attention model ever raises, with or without prefix caching, and with
      pauses that clear the caches or leave them.  Its calls add generation
      requests that fit the model ([generates], [new_req]); pooling and resumable
      requests, LoRA adapters and a KV connector are outside it.
    - [EngineLimits]: concrete runs outside the hypotheses of these theorems: a
      failed assertion, a stalled request, a lost request.

    - [Outcome]: the exception monad [res] for code without state.
    - [KVPlan], [KVPlanInv] ([kv_cache_utils.py], from the specs of the layers to
      [get_kv_cache_configs]): how the layers of a model are split into groups,
      and how many blocks and which tensors each worker gets.  The groups
      hold no layer twice and, but for the DeepseekV4 grouping, every layer; the
      search for the model length ends with the longest that fits, all workers
      agree on the number of blocks; the tensors hold each layer once when the
      page sizes are those of the layout, within the memory when the number of
      blocks is not overridden; and one request fits when each group has one
      spec.
    - [KVPlanLimits]: concrete plans that break the planner's promises.
    - [NGram] ([vllm/v1/spec_decode/ngram_proposer.py]): speculative tokens from
      earlier occurrences of the last tokens; the search with a truncated failure
      function equals a direct search, and the buffers a batch reuses leak nothing
      from one request into another.
    - [Offload] ([vllm/v1/kv_offload]): the manager of the blocks copied to CPU
      memory, the cache policies LRU and ARC (whose target size is an IEEE
      binary64 float) and the reuse filter.  [OffloadPolicy]: the contract of a
      policy, and both satisfy it.  [OffloadInv]: no block is lost or used twice,
      a store never raises and evicts only idle entries, what is being read
      stays, completed stores are found.  [OffloadReuse]: the tracker of the
      filter, the keys, and when ARC refuses.
    - [NumPy]: cells, rows and slices of arrays.
    - [Detok] ([vllm/v1/engine/detokenizer.py], [detokenizer_utils.py]): tokens to
      text, one at a time, and stop strings.  [DetokInv]: the search, which looks
      only where new characters can matter, is exact, and a single stop string that
      is to be excluded is never in the output when no minimum of tokens is
      asked for.
    - [OutputProcessor] ([output_processor.py], [parallel_sampling.py],
      [vllm/outputs.py]): what clients get, whole, cumulatively or in deltas, for
      one sample or several.  [OutputInv]: the deltas make up the output, the
      collector of a client that wants deltas loses nothing, all samples come
      back together; a parent that an abort leaves behind.
    - [BlockTable] ([vllm/v1/worker/block_table.py]): the worker's tables of blocks
      and the slots of a step's tokens.  [BlockTableInv]: every token has a slot of
      its own, and it is the one the KV-cache manager's blocks give it.
    - [BatchUpdate], [LogitsProcs] ([vllm/v1/sample/logits_processor/]): the record
      of a step's changes, and what the built-in logits processors keep.
    - [InputBatch] ([gpu_input_batch.py]): the persistent batch, every operation.
      [BatchRows] (its arrays, row by row), [InputBatchInv] (its invariant and its
      operations), [InputBatchStep]: a step of the batch refines a change of a map
      of requests; without swaps every request keeps its own mask of allowed
      tokens; masks and flags that stay behind otherwise.  [LogitsProcsInv]: the
      processors, which hear of the batch only through the updates, follow it.

    ** Interfaces.  Components are proved against classes that say what one
    promises to the other: [CacheHitLaws] (managers to coordinators), [KVManager]
    with [KVLaws] and [EncoderManager] with [EncLaws] (managers to the scheduler),
    [AppendLaws] and [HasherLaws] (the block hasher to the scheduler), [PolicyLaws] (cache policies
    to the offloading manager), [DecoderLaws] (decoders to the detokenizer),
    [Observer] (the input batch to whoever follows its updates); the instances are
    the theorems of the implementing files.

    ** Fuel.  Loops that are not structural take fuel and raise [OutOfFuel] when
    it runs out.  Their callers pass a bound on the number of turns: the number
    of queued blocks for walks over the free list, the number of tokens for the
    hashing loop, the number of running requests plus one for the loops of the
    running phase (every turn either advances or preempts a request), the number
    of waiting requests plus one for the waiting phase (every turn pops one), the
    hit length plus one for the fixed-point search (every further turn shortens
    the hit), two plus the logarithm of the model length for the binary search
    (every turn halves the interval), twice the number of tokens plus one for the
    n-gram search (every turn lowers twice the tokens left plus the prefix
    matched), the number of removed rows plus one for [condense] (every turn fills
    one), the depth of the abort of a parent (its children have no children).  The
    theorems state [Ok], so the fuel is shown to be enough.

    ** Not modelled.  Log messages, metrics and statistics that are only
    reported (the prefix-cache counters are modelled), log-probabilities, routed
    experts, tracing, KV-event publishing beyond the event list; the batch queue,
    sockets, threads and data-parallel coordination of the engine core; the
    model runner but for its batch, attention backends, sampler, models, compilation, distributed
    communication, front ends, parsers and tokenizers: tensor code, I/O or glue.
    Of the worker's batch: the device copies of its arrays, the thinking budget;
    of the output processor: pooling outputs and streaming input.
    For the KV connector (remote KV transfer) the scheduler's code is modelled
    with the connector as a parameter, but the safety theorems are for engines
    without one; likewise [update_from_output] of the asynchronous scheduler is
    modelled, and its safety is proved for [schedule] only.

    ** Next.  The safety of [update_from_output] with placeholders
    ([AsyncScheduler]) and of the batch queue, the connector's paths (among them
    the scheduler side of the offloading connector), and the model runner's
    [_update_states], which turns the scheduler's output into the steps of the
    input batch. *)

From stdpp Require Export base tactics numbers strings sets gmap list.

(* ===================================================================== *)
(** ** Exceptions and the state-and-exception monad                       *)
(* ===================================================================== *)

(** The Python exception classes that the modelled code raises. *)
Inductive exc : Type :=
  | AssertionError
  | ValueError
  | RuntimeError
  | KeyError
  | IndexError
  | TypeError
  | OverflowError
  | NotImplementedError
  | StopIteration
  | AttributeError
  | ZeroDivisionError
  | OutOfFuel.

#[export] Instance exc_eq_dec : EqDecision exc.
Proof. solve_decision. Defined.

(** The outcome of a Python call: a value or a raised exception. *)
Inductive res (A : Type) : Type :=
  | Ok (a : A)
  | Raise (e : exc).
Arguments Ok {A} a.
Arguments Raise {A} e.

#[export] Instance res_eq_dec {A} `{EqDecision A} : EqDecision (res A).
Proof. solve_decision. Defined.
#[export] Instance Ok_inj {A} : Inj (=) (=) (@Ok A).
Proof. by intros x y [=]. Qed.

(** A method of an object whose state is [S]: the state reached is kept when
    an exception is raised, as it is in Python. *)
Definition M (S A : Type) : Type := S → res A * S.

Definition ret {S A} (a : A) : M S A := λ s, (Ok a, s).
Definition raise {S A} (e : exc) : M S A := λ s, (Raise e, s).
Definition bind {S A B} (m : M S A) (k : A → M S B) : M S B := λ s,
  match m s with
  | (Ok a, s') => k a s'
  | (Raise e, s') => (Raise e, s')
  end.
Definition get {S} : M S S := λ s, (Ok s, s).
Definition gets {S A} (f : S → A) : M S A := λ s, (Ok (f s), s).
Definition put {S} (s' : S) : M S unit := λ _, (Ok tt, s').
Definition modify {S} (f : S → S) : M S unit := λ s, (Ok tt, f s).
Definition assert_ {S} (b : bool) : M S unit :=
  if b then ret tt else raise AssertionError.
Definition of_res {S A} (r : res A) : M S A := λ s, (r, s).

(** Run a method of a component [T] held in a field of [S]. *)
Definition zoom {S T A} (gt : S → T) (st : T → S → S) (m : M T A) : M S A :=
  λ s, let '(r, t) := m (gt s) in (r, st t s).

Declare Scope py_scope.
Delimit Scope py_scope with py.
Notation "x '<-' m ';;' k" := (bind m (λ x, k))
  (at level 100, m at next level, k at level 200, right associativity) : py_scope.
Notation "m ';;' k" := (bind m (λ _, k))
  (at level 100, k at level 200, right associativity) : py_scope.
Notation "'when' b 'do' m" := (if b then m else ret tt)
  (at level 99, b at level 9, m at level 99) : py_scope.
#[global] Open Scope py_scope.

(** [for x in l: f x]. *)
Fixpoint for_ {S A} (l : list A) (f : A → M S unit) : M S unit :=
  match l with
  | [] => ret tt
  | x :: l' => f x ;; for_ l' f
  end.

(** [[f x for x in l]], evaluated left to right. *)
Fixpoint map_m {S A B} (f : A → M S B) (l : list A) : M S (list B) :=
  match l with
  | [] => ret []
  | x :: l' => y <- f x ;; ys <- map_m f l' ;; ret (y :: ys)
  end.

(** Total-correctness triples: from a state satisfying [P] the method returns
    a value, raising nothing, and [Q] relates value and final state. *)
Definition triple {S A} (P : S → Prop) (m : M S A) (Q : A → S → Prop) : Prop :=
  ∀ s, P s → ∃ a s', m s = (Ok a, s') ∧ Q a s'.

(* ===================================================================== *)
(** ** Attribute assignment on records                                    *)
(* ===================================================================== *)

(** A record with the eta-expansion of its constructor. *)
Class Eta (R : Type) := eta : R → R.
(** [setter proj f r] is [r] with the field [proj] mapped through [f]. *)
Class Setter {R T : Type} (proj : R → T) := setter : (T → T) → R → R.
Arguments setter {R T} proj {_} f r.

(** Build the setter of a field from the eta-expansion of the record. *)
Ltac build_setter :=
  lazymatch goal with
  | |- @Setter ?R ?T ?proj =>
      let inst := constr:(_ : Eta R) in
      unfold Setter; let f := fresh "f" in let r := fresh "r" in intros f r;
      let e := eval hnf in (inst r) in
      let e := eval pattern (proj r) in e in
      lazymatch e with
      | ?g _ => let t := eval cbv beta in (g (f (proj r))) in exact t
      end
  end.

Notation "r <| f := v |>" := (setter f (λ _, v) r)
  (at level 12, left associativity, f at level 9, v at level 99) : py_scope.
Notation "r <| f ::= g |>" := (setter f g r)
  (at level 12, left associativity, f at level 9, g at level 99) : py_scope.

(* ===================================================================== *)
(** ** Python integers and slices                                         *)
(* ===================================================================== *)

(** [len(l)]. *)
Definition len {A} (l : list A) : Z := Z.of_nat (length l).

(** The normalisation of one bound of a slice of a sequence of length [n]. *)
Definition slice_bound (n i : Z) : nat :=
  Z.to_nat (if (i <? 0)%Z then Z.max 0 (i + n) else Z.min i n)%Z.

(** [l[a:b]], [l[a:]] and [l[:b]]. *)
Definition slice {A} (l : list A) (a b : Z) : list A :=
  let a' := slice_bound (len l) a in
  let b' := slice_bound (len l) b in
  take (b' - a') (drop a' l).
Definition slice_from {A} (l : list A) (a : Z) : list A :=
  drop (slice_bound (len l) a) l.
Definition slice_to {A} (l : list A) (b : Z) : list A :=
  take (slice_bound (len l) b) l.

(** [l[i]], with a negative index counted from the end; [None] stands for
    [IndexError]. *)
Definition py_nth {A} (l : list A) (i : Z) : option A :=
  let j := (if i <? 0 then i + len l else i)%Z in
  if (j <? 0)%Z then None else l !! Z.to_nat j.

Definition of_option {S A} (e : exc) (o : option A) : M S A :=
  match o with Some a => ret a | None => raise e end.

(** [l[i] = x] for an index known to be in range. *)
Definition py_set {A} (l : list A) (i : Z) (x : A) : list A := <[Z.to_nat i := x]> l.

(** [[x] * n]. *)
Definition py_replicate {A} (n : Z) (x : A) : list A := replicate (Z.to_nat n) x.

Definition is_some {A} (o : option A) : bool :=
  match o with Some _ => true | None => false end.
Definition is_none {A} (o : option A) : bool := negb (is_some o).

(** A Python [bytes] value: a list of integers between 0 and 255. *)
Abbreviation bytes := (list Z).
Definition bytes_ok (b : bytes) : Prop := Forall (λ x, 0 ≤ x < 256)%Z b.

(* ===================================================================== *)
(** ** Rules of the triples                                               *)
(* ===================================================================== *)

Section triples.
Context {S : Type}.
Implicit Types P : S → Prop.

Lemma triple_ret {A} P (a : A) (Q : A → S → Prop) :
  (∀ s, P s → Q a s) → triple P (ret a) Q.
Proof. intros H s Hs. exists a, s. split; [done|by apply H]. Qed.

Lemma triple_bind {A B} P (R : A → S → Prop) (Q : B → S → Prop) (m : M S A) (k : A → M S B) :
  triple P m R → (∀ a, triple (R a) (k a) Q) → triple P (bind m k) Q.
Proof.
  intros Hm Hk s Hs. destruct (Hm s Hs) as (a & s' & Heq & HR).
  destruct (Hk a s' HR) as (b & s'' & Heq' & HQ).
  exists b, s''. unfold bind. rewrite Heq. done.
Qed.

Lemma triple_conseq {A} P P' (m : M S A) (Q Q' : A → S → Prop) :
  triple P' m Q' → (∀ s, P s → P' s) → (∀ a s, Q' a s → Q a s) → triple P m Q.
Proof. intros Hm HP HQ s Hs. destruct (Hm s (HP s Hs)) as (a & s' & ? & ?). eauto. Qed.

Lemma triple_gets {A} P (f : S → A) (Q : A → S → Prop) :
  (∀ s, P s → Q (f s) s) → triple P (gets f) Q.
Proof. intros H s Hs. unfold gets. eauto. Qed.

Lemma triple_modify P (f : S → S) (Q : unit → S → Prop) :
  (∀ s, P s → Q tt (f s)) → triple P (modify f) Q.
Proof. intros H s Hs. unfold modify. eauto. Qed.

Lemma triple_assert P (b : bool) (Q : unit → S → Prop) :
  (∀ s, P s → b = true ∧ Q tt s) → triple P (assert_ b) Q.
Proof.
  intros H s Hs. destruct (H s Hs) as [-> HQ]. exists tt, s. done.
Qed.

(** A loop: the invariant is indexed by the elements done and to do. *)
Lemma triple_for {A} (I : list A → list A → S → Prop) (f : A → M S unit) (l : list A) :
  (∀ done x todo, triple (I done (x :: todo)) (f x) (λ _, I (done ++ [x]) todo)) →
  triple (I [] l) (for_ l f) (λ _, I l []).
Proof.
  intros Hf.
  cut (∀ dn, triple (I dn l) (for_ l f) (λ _, I (dn ++ l) [])).
  { intros H. apply (H []). }
  induction l as [|x l IH]; intros dn; simpl.
  - apply triple_ret. intros s. by rewrite app_nil_r.
  - eapply triple_bind; [apply Hf|]. intros [].
    eapply triple_conseq; [apply (IH (dn ++ [x]))|done|].
    intros ? s. by rewrite <-app_assoc.
Qed.

End triples.

Lemma triple_zoom {S T A} (gt : S → T) (st : T → S → S) (P : T → Prop) (m : M T A) (Q : A → T → Prop) (s0 : S) :
  triple P m Q → P (gt s0) →
  ∃ a t, zoom gt st m s0 = (Ok a, st t s0) ∧ Q a t ∧ m (gt s0) = (Ok a, t).
Proof.
  intros Hm HP. destruct (Hm _ HP) as (a & t & Heq & HQ).
  exists a, t. unfold zoom. by rewrite Heq.
Qed.

Lemma for_ext {S A} (f g : A → M S unit) (l : list A) s :
  (∀ x s, x ∈ l → f x s = g x s) → for_ l f s = for_ l g s.
Proof.
  revert s. induction l as [|x l IH]; intros s Hfg; simpl; [done|]. unfold bind.
  rewrite Hfg by (by left). destruct (g x s) as [[|] ?]; [|done]. apply IH. intros y s' Hy. apply Hfg. by right.
Qed.

(** Computation rules of the monad on a known step. *)
Lemma bind_ok {S A B} (m : M S A) (k : A → M S B) s a s' :
  m s = (Ok a, s') → bind m k s = k a s'.
Proof. intros H. unfold bind. by rewrite H. Qed.
Lemma bind_raise {S A B} (m : M S A) (k : A → M S B) s e s' :
  m s = (Raise e, s') → bind m k s = (Raise e, s').
Proof. intros H. unfold bind. by rewrite H. Qed.
Lemma bind_assoc {S A B C} (m : M S A) (k : A → M S B) (k' : B → M S C) s :
  bind (bind m k) k' s = bind m (λ a, bind (k a) k') s.
Proof. unfold bind. by destruct (m s) as [[|] ?]. Qed.

Lemma run_ret {S A B} (a : A) (k : A → M S B) s : bind (ret a) k s = k a s.
Proof. done. Qed.
Lemma run_get {S B} (k : S → M S B) s : bind get k s = k s s.
Proof. done. Qed.
Lemma run_gets {S A B} (f : S → A) (k : A → M S B) s : bind (gets f) k s = k (f s) s.
Proof. done. Qed.
Lemma run_put {S B} s' (k : unit → M S B) s : bind (put s') k s = k tt s'.
Proof. done. Qed.
Lemma run_modify {S B} (f : S → S) (k : unit → M S B) s : bind (modify f) k s = k tt (f s).
Proof. done. Qed.
Lemma run_raise {S A B} e (k : A → M S B) s : bind (raise e) k s = (Raise e, s).
Proof. done. Qed.
Lemma run_assert {S B} (b : bool) (k : unit → M S B) s :
  bind (assert_ b) k s = if b then k tt s else (Raise AssertionError, s).
Proof. by destruct b. Qed.
Lemma run_assert_end {S} (b : bool) (s : S) :
  assert_ b s = if b then (Ok tt, s) else (Raise AssertionError, s).
Proof. by destruct b. Qed.
Lemma run_of_res {S A B} (r : res A) (k : A → M S B) s :
  bind (of_res r) k s = match r with Ok a => k a s | Raise e => (Raise e, s) end.
Proof. by destruct r. Qed.
Lemma run_of_option {S A B} e (o : option A) (k : A → M S B) s :
  bind (of_option e o) k s = match o with Some a => k a s | None => (Raise e, s) end.
Proof. by destruct o. Qed.

Create Rewrite HintDb run.
#[export] Hint Rewrite @run_ret @run_get @run_gets @run_put @run_modify @run_raise
  @run_assert @run_of_res @run_of_option @bind_assoc : run.

(* ===================================================================== *)
(** ** Generic lemmas on lists and slices                                 *)
(* ===================================================================== *)

Lemma len_nonneg {A} (l : list A) : (0 ≤ len l)%Z.
Proof. unfold len. lia. Qed.
Lemma len_app {A} (l k : list A) : len (l ++ k) = (len l + len k)%Z.
Proof. unfold len. rewrite length_app. lia. Qed.
Lemma len_cons {A} (x : A) l : len (x :: l) = (1 + len l)%Z.
Proof. unfold len. simpl. lia. Qed.
Lemma len_nil {A} : len (@nil A) = 0%Z.
Proof. done. Qed.
Lemma len_replicate {A} n (x : A) : len (replicate n x) = Z.of_nat n.
Proof. unfold len. by rewrite length_replicate. Qed.

Create Rewrite HintDb pylen.
#[export] Hint Rewrite @len_app @len_cons @len_nil @len_replicate : pylen.

Lemma slice_spec {A} (l : list A) a b :
  (0 ≤ a)%Z → (0 ≤ b)%Z →
  slice l a b = take (Z.to_nat (Z.min b (len l)) - Z.to_nat a) (drop (Z.to_nat a) l).
Proof.
  intros Ha Hb. unfold slice, slice_bound.
  rewrite (proj2 (Z.ltb_ge a 0)) by lia. rewrite (proj2 (Z.ltb_ge b 0)) by lia.
  unfold len. destruct (decide (a ≤ Z.of_nat (length l))%Z).
  - rewrite (Z.min_l a) by lia. done.
  - rewrite (Z.min_r a), Nat2Z.id by lia. rewrite !drop_ge by lia. by rewrite !take_nil.
Qed.

Lemma slice_in_range {A} (l : list A) a b :
  (0 ≤ a ≤ b)%Z → (b ≤ len l)%Z →
  slice l a b = take (Z.to_nat (b - a)) (drop (Z.to_nat a) l).
Proof. intros. rewrite slice_spec by lia. f_equal. lia. Qed.

Lemma length_slice {A} (l : list A) a b :
  (0 ≤ a ≤ b)%Z → (b ≤ len l)%Z → len (slice l a b) = (b - a)%Z.
Proof.
  intros. rewrite slice_in_range by lia. unfold len in *.
  rewrite length_take, length_drop. lia.
Qed.

Lemma slice_from_nonneg {A} (l : list A) a :
  (0 ≤ a)%Z → slice_from l a = drop (Z.to_nat a) l.
Proof.
  intros Ha. unfold slice_from, slice_bound.
  rewrite (proj2 (Z.ltb_ge a 0)) by lia. unfold len.
  destruct (decide (a ≤ Z.of_nat (length l))%Z).
  - by rewrite Z.min_l by lia.
  - rewrite Z.min_r, Nat2Z.id by lia. rewrite !drop_ge by lia. done.
Qed.

Lemma py_nth_nonneg {A} (l : list A) i :
  (0 ≤ i)%Z → py_nth l i = l !! Z.to_nat i.
Proof.
  intros Hi. unfold py_nth.
  rewrite (proj2 (Z.ltb_ge i 0)) by lia. cbv zeta.
  by rewrite (proj2 (Z.ltb_ge i 0)) by lia.
Qed.

Lemma py_nth_last {A} (l : list A) x : py_nth (l ++ [x]) (-1) = Some x.
Proof.
  unfold py_nth. simpl. rewrite len_app. unfold len. simpl.
  rewrite (proj2 (Z.ltb_ge _ 0)) by lia.
  rewrite lookup_app_r by lia.
  by replace (Z.to_nat _ - length l) with 0 by lia.
Qed.

Lemma NoDup_app_remove_mid {A} (l1 l2 : list A) x :
  NoDup (l1 ++ x :: l2) → NoDup (l1 ++ l2) ∧ x ∉ l1 ++ l2.
Proof.
  intros H. rewrite <-Permutation_middle in H. by apply NoDup_cons in H as [? ?].
Qed.

Lemma filter_all {A} (P : A → Prop) `{!∀ x, Decision (P x)} (l : list A) :
  (∀ x, x ∈ l → P x) → filter P l = l.
Proof.
  induction l as [|x l IH]; intros HP; [done|].
  rewrite filter_cons_True by (apply HP; by left).
  f_equal. apply IH. intros y Hy. apply HP. by right.
Qed.

Lemma filter_ext_in {A} (P Q : A → Prop)
  `{!∀ x, Decision (P x), !∀ x, Decision (Q x)} (l : list A) :
  (∀ x, x ∈ l → P x ↔ Q x) → filter P l = filter Q l.
Proof.
  induction l as [|x l IH]; intros HPQ; [done|].
  assert (IHl : filter P l = filter Q l) by (apply IH; intros y Hy; apply HPQ; by right).
  assert (Hx : P x ↔ Q x) by (apply HPQ; by left).
  destruct (decide (P x)) as [HP|HP].
  - rewrite !filter_cons_True by tauto. by f_equal.
  - rewrite !filter_cons_False by tauto. done.
Qed.

(** Split the membership of a list around its occurrence. *)
Lemma elem_of_split {A} (x : A) l : x ∈ l → ∃ l1 l2, l = l1 ++ x :: l2.
Proof. apply list_elem_of_split. Qed.

(** Case on the boolean test that blocks a goal. *)
Ltac case_bool :=
  match goal with
  | |- context [if ?b then _ else _] => let E := fresh "E" in destruct b eqn:E
  end.
Ltac bool_to_prop :=
  repeat match goal with
  | H : (_ && _)%bool = true |- _ => apply andb_true_iff in H as [? ?]
  | H : (_ || _)%bool = false |- _ => apply orb_false_iff in H as [? ?]
  | H : negb _ = true |- _ => apply negb_true_iff in H
  | H : negb _ = false |- _ => apply negb_false_iff in H
  | H : Z.ltb _ _ = true |- _ => apply Z.ltb_lt in H
  | H : Z.ltb _ _ = false |- _ => apply Z.ltb_ge in H
  | H : Z.leb _ _ = true |- _ => apply Z.leb_le in H
  | H : Z.leb _ _ = false |- _ => apply Z.leb_gt in H
  | H : Z.eqb _ _ = true |- _ => apply Z.eqb_eq in H
  | H : Z.eqb _ _ = false |- _ => apply Z.eqb_neq in H
  | H : bool_decide _ = true |- _ => apply bool_decide_eq_true in H
  | H : bool_decide _ = false |- _ => apply bool_decide_eq_false in H
  end.
(** One symbolic step of a method run on a known state. *)
Ltac mstep H := rewrite (bind_ok _ _ _ _ _ H).
