(* ===== verification/MathUtils.v ===== *)
(** * Integer utilities ([src/vllm/utils/math_utils.py])

    Python's [//] is floor division, which [Z.div] is as well.  The divisors
    of the modelled callers are positive, so that [ZeroDivisionError] does not
    arise. *)
From S2P Require Import Prelude.
Local Open Scope Z_scope.

(** [cdiv]: [-(a // -b)]. *)
Definition cdiv (a b : Z) : Z := - (a / - b).

(** [int.bit_length] of a non-negative integer. *)
Definition bit_length (n : Z) : Z := if n =? 0 then 0 else Z.log2 n + 1.

Definition next_power_of_2 (n : Z) : Z :=
  if n <? 1 then 1 else Z.shiftl 1 (bit_length (n - 1)).
Definition round_up (x y : Z) : Z := (x + y - 1) / y * y.
Definition round_down (x y : Z) : Z := x / y * y.
Definition largest_power_of_2_divisor (n : Z) : Z := Z.land n (- n).

(* ===================================================================== *)
(** ** Ceiling division                                                   *)
(* ===================================================================== *)

(** [cdiv a b] is the least number of blocks of size [b] that hold [a]. *)
Lemma cdiv_le a b k : 0 < b → cdiv a b ≤ k ↔ a ≤ k * b.
Proof.
  intros Hb. unfold cdiv. pose proof (Z.div_mod a (- b) ltac:(lia)) as Hd.
  pose proof (Z.mod_neg_bound a (- b) ltac:(lia)) as Hm. nia.
Qed.
Lemma cdiv_gt a b k : 0 < b → k < cdiv a b ↔ k * b < a.
Proof. intros Hb. pose proof (cdiv_le a b k Hb). lia. Qed.
Lemma cdiv_bounds a b : 0 < b → a ≤ cdiv a b * b < a + b.
Proof.
  intros Hb. split; [by apply cdiv_le|].
  pose proof (proj1 (cdiv_gt a b (cdiv a b - 1) Hb) ltac:(lia)). lia.
Qed.
Lemma cdiv_nonneg a b : 0 < b → 0 ≤ a → 0 ≤ cdiv a b.
Proof. intros Hb Ha. pose proof (cdiv_bounds a b Hb). nia. Qed.
Lemma cdiv_mono a a' b : 0 < b → a ≤ a' → cdiv a b ≤ cdiv a' b.
Proof. intros Hb Ha. apply cdiv_le; [done|]. pose proof (cdiv_bounds a' b Hb). lia. Qed.
Lemma cdiv_mul k b : 0 < b → cdiv (k * b) b = k.
Proof. intros Hb. pose proof (cdiv_bounds (k * b) b Hb). nia. Qed.
Lemma cdiv_sub_mul a k b : 0 < b → cdiv a b - k = cdiv (a - k * b) b.
Proof.
  intros Hb. pose proof (cdiv_bounds a b Hb). pose proof (cdiv_bounds (a - k * b) b Hb). nia.
Qed.
Lemma div_le_cdiv a b : 0 < b → a / b ≤ cdiv a b.
Proof.
  intros Hb. pose proof (cdiv_bounds a b Hb). pose proof (Z.mul_div_le a b Hb). nia.
Qed.
Lemma cdiv_le_div a b : 0 < b → cdiv a b ≤ a / b + 1.
Proof.
  intros Hb. apply cdiv_le; [done|]. pose proof (Z.mul_succ_div_gt a b Hb). lia.
Qed.

(* ===================================================================== *)
(** ** Powers of two and rounding                                         *)
(* ===================================================================== *)

Lemma round_up_spec x y : 0 < y →
  (y | round_up x y) ∧ x ≤ round_up x y < x + y.
Proof.
  intros Hy. unfold round_up. split; [apply Z.divide_factor_r|].
  pose proof (Z.mul_div_le (x + y - 1) y Hy). pose proof (Z.mul_succ_div_gt (x + y - 1) y Hy). lia.
Qed.
Lemma round_down_spec x y : 0 < y →
  (y | round_down x y) ∧ x - y < round_down x y ≤ x.
Proof.
  intros Hy. unfold round_down. split; [apply Z.divide_factor_r|].
  pose proof (Z.mul_div_le x y Hy). pose proof (Z.mul_succ_div_gt x y Hy). lia.
Qed.

(** [-n] flips the bits above the lowest set bit of [n]. *)
Lemma land_opp_odd m : Z.odd m = true → Z.land m (- m) = 1.
Proof.
  intros Hm. apply Z.bits_inj'. intros i Hi. rewrite Z.land_spec.
  replace (- m) with (Z.lnot (m - 1)) by (unfold Z.lnot; lia).
  rewrite Z.lnot_spec by done. destruct (decide (i = 0)) as [->|Hi0].
  - rewrite !Z.bit0_odd, Hm, Z.odd_sub, Hm. done.
  - assert (Z.testbit (m - 1) i = Z.testbit m i) as ->.
    { replace i with (Z.succ (i - 1)) by lia.
      rewrite (Zdiv2_odd_eqn m) at 1 2. rewrite Hm.
      replace (2 * Z.div2 m + 1 - 1) with (2 * Z.div2 m) by lia.
      rewrite Z.testbit_odd_succ, Z.testbit_even_succ by lia. done. }
    rewrite andb_negb_r. symmetry. apply Z.bits_above_log2; simpl; lia.
Qed.

Lemma lowest_bit n : n ≠ 0 → ∃ k m, 0 ≤ k ∧ n = 2 ^ k * m ∧ Z.odd m = true.
Proof.
  remember (Z.abs_nat n) as z eqn:Hz. revert n Hz.
  induction z as [z IH] using lt_wf_ind. intros n Hz Hn.
  destruct (Z.odd n) eqn:Ho; [exists 0, n; split; [lia|split; [lia|done]]|].
  pose proof (Zdiv2_odd_eqn n) as Hd. rewrite Ho in Hd.
  destruct (IH (Z.abs_nat (Z.div2 n)) ltac:(lia) (Z.div2 n) eq_refl ltac:(lia)) as (k & m & Hk & Hm & Hodd).
  exists (Z.succ k), m. split; [lia|]. split; [|done]. rewrite Z.pow_succ_r by done. lia.
Qed.

Lemma largest_power_of_2_divisor_pow k m :
  0 ≤ k → Z.odd m = true → largest_power_of_2_divisor (2 ^ k * m) = 2 ^ k.
Proof.
  intros Hk Hm. unfold largest_power_of_2_divisor.
  replace (- (2 ^ k * m)) with (2 ^ k * - m) by lia.
  rewrite !(Z.mul_comm (2 ^ k)), <-!Z.shiftl_mul_pow2, <-Z.shiftl_land by done.
  rewrite land_opp_odd, Z.shiftl_mul_pow2 by done. lia.
Qed.

(** The integer utilities compute what they name: [cdiv] is the least
    number of blocks of size [b] holding [a], [round_up]/[round_down] the nearest
    multiples, [next_power_of_2] the least power of two above [n], and
    [largest_power_of_2_divisor] a power of two dividing [n] with an odd
    quotient. *)
Theorem math_utils_compute_their_names a b n :
  0 < b → 0 < n →
  (∀ k, cdiv a b ≤ k ↔ a ≤ k * b) ∧
  ((b | round_up a b) ∧ a ≤ round_up a b < a + b) ∧
  ((b | round_down a b) ∧ a - b < round_down a b ≤ a) ∧
  (∃ k, 0 ≤ k ∧ next_power_of_2 n = 2 ^ k ∧ n ≤ 2 ^ k ∧ ∀ j, 0 ≤ j → n ≤ 2 ^ j → k ≤ j) ∧
  (∃ k m, 0 ≤ k ∧ largest_power_of_2_divisor n = 2 ^ k ∧ n = 2 ^ k * m ∧ Z.odd m = true).
Proof.
  intros Hb Hn. split; [intros k; by apply cdiv_le|].
  split; [by apply round_up_spec|]. split; [by apply round_down_spec|]. split.
  - unfold next_power_of_2, bit_length. rewrite (proj2 (Z.ltb_ge _ _)) by lia.
    destruct (Z.eqb_spec (n - 1) 0) as [E|E].
    + exists 0. split_and!; [lia|done|lia|intros; lia].
    + pose proof (Z.log2_nonneg (n - 1)). pose proof (Z.log2_spec (n - 1) ltac:(lia)) as [Hlo Hhi].
      exists (Z.log2 (n - 1) + 1). split_and!; [lia|by rewrite Z.shiftl_1_l|rewrite Z.add_1_r; lia|].
      intros j Hj Hnj. assert (Z.log2 (n - 1) < j); [|lia]. apply Z.log2_lt_pow2; lia.
  - destruct (lowest_bit n ltac:(lia)) as (k & m & Hk & -> & Hm). exists k, m.
    by rewrite largest_power_of_2_divisor_pow.
Qed.

Lemma math_utils_compute_their_names_witness :
  cdiv 33 16 = 3 ∧ next_power_of_2 33 = 64 ∧ largest_power_of_2_divisor 24 = 8 ∧
  (∀ k, cdiv 33 16 ≤ k ↔ 33 ≤ k * 16).
Proof.
  split_and!; [reflexivity..|].
  apply (math_utils_compute_their_names 33 16 24); lia.
Defined.
