(* ===== verification/FreeQueue.v ===== *)
(** * The free-block queue ([src/vllm/v1/core/kv_cache_utils.py])

    [KVCacheBlock] objects live in a heap [gmap ref KVCacheBlock]: block [i] of
    the pool is the object at address [i], the two sentinels of
    [FreeKVCacheBlockQueue] are the objects at [fake_free_list_head] and
    [fake_free_list_tail].  Every method of the queue is translated pointer
    write by pointer write; [queue_rep q l] says that the links spell the list
    [l], and the refinement lemmas show that each method acts on [l] as the
    deque operation it implements. *)
From S2P Require Import Prelude.
Local Open Scope Z_scope.

(* ===================================================================== *)
(** ** Data                                                               *)
(* ===================================================================== *)

(** An object reference. *)
Abbreviation ref := Z.

Record KVCacheBlock := mkKVCacheBlock {
  block_id : Z;
  ref_cnt : Z;
  _block_hash : option bytes;
  prev_free_block : option ref;
  next_free_block : option ref;
  is_null : bool;
}.

(** [KVCacheBlock(idx)] with the dataclass defaults. *)
Definition new_KVCacheBlock (idx : Z) : KVCacheBlock :=
  mkKVCacheBlock idx 0 None None None false.

#[export] Instance KVCacheBlock_inhabited : Inhabited KVCacheBlock :=
  populate (new_KVCacheBlock (-1)).

Abbreviation heap := (gmap ref KVCacheBlock).

(** The sentinels, [KVCacheBlock(block_id=-1)] both, are two objects. *)
Definition fake_free_list_head : ref := -1.
Definition fake_free_list_tail : ref := -2.

Definition nxt (h : heap) (r : ref) : option ref := next_free_block (h !!! r).
Definition prv (h : heap) (r : ref) : option ref := prev_free_block (h !!! r).

(** Attribute assignments on the object at [r]. *)
Definition upd (r : ref) (f : KVCacheBlock → KVCacheBlock) (h : heap) : heap :=
  <[r := f (h !!! r)]> h.
Definition set_next (r : ref) (v : option ref) : heap → heap :=
  upd r (λ b, mkKVCacheBlock (block_id b) (ref_cnt b) (_block_hash b)
                (prev_free_block b) v (is_null b)).
Definition set_prev (r : ref) (v : option ref) : heap → heap :=
  upd r (λ b, mkKVCacheBlock (block_id b) (ref_cnt b) (_block_hash b)
                v (next_free_block b) (is_null b)).
Definition set_ref_cnt (r : ref) (v : Z) : heap → heap :=
  upd r (λ b, mkKVCacheBlock (block_id b) v (_block_hash b)
                (prev_free_block b) (next_free_block b) (is_null b)).
Definition set_hash (r : ref) (v : option bytes) : heap → heap :=
  upd r (λ b, mkKVCacheBlock (block_id b) (ref_cnt b) v
                (prev_free_block b) (next_free_block b) (is_null b)).
Definition set_is_null (r : ref) (v : bool) : heap → heap :=
  upd r (λ b, mkKVCacheBlock (block_id b) (ref_cnt b) (_block_hash b)
                (prev_free_block b) (next_free_block b) v).

(** The queue object: its counter, and the heap of the blocks it links. *)
Record FreeKVCacheBlockQueue := mkQueue {
  num_free_blocks : Z;
  qheap : heap;
}.

(* ===================================================================== *)
(** ** Operations                                                         *)
(* ===================================================================== *)

Section operations.
Abbreviation Q := (M FreeKVCacheBlockQueue).

Definition hmod (f : heap → heap) : Q unit :=
  modify (λ q, mkQueue (num_free_blocks q) (f (qheap q))).
Definition add_free (d : Z) : Q unit :=
  modify (λ q, mkQueue (num_free_blocks q + d) (qheap q)).

(** One iteration of the loop of [__init__] that links [blocks[i]]. *)
Definition init_link (blocks : list ref) (n : Z) (i : Z) : Q unit :=
  b <- of_option IndexError (py_nth blocks i) ;;
  (when (0 <? i) do
    (p <- of_option IndexError (py_nth blocks (i - 1)) ;; hmod (set_prev b (Some p)))) ;;
  (when (i <? n - 1) do
    (x <- of_option IndexError (py_nth blocks (i + 1)) ;; hmod (set_next b (Some x)))).

(** [__init__]; the sentinels are created unlinked. *)
Definition FreeKVCacheBlockQueue_init (blocks : list ref) : Q unit :=
  let n := len blocks in
  modify (λ q, mkQueue n (qheap q)) ;;
  for_ (seqZ 0 n) (init_link blocks n) ;;
  hmod (λ h, <[fake_free_list_head := new_KVCacheBlock (-1)]> h) ;;
  hmod (λ h, <[fake_free_list_tail := new_KVCacheBlock (-1)]> h) ;;
  if 0 <? n then
    first <- of_option IndexError (py_nth blocks 0) ;;
    last <- of_option IndexError (py_nth blocks (-1)) ;;
    hmod (set_next fake_free_list_head (Some first)) ;;
    hmod (set_prev first (Some fake_free_list_head)) ;;
    hmod (set_prev fake_free_list_tail (Some last)) ;;
    hmod (set_next last (Some fake_free_list_tail))
  else
    hmod (set_next fake_free_list_head (Some fake_free_list_tail)) ;;
    hmod (set_prev fake_free_list_tail (Some fake_free_list_head)).

Definition popleft : Q ref :=
  q <- get ;;
  match nxt (qheap q) fake_free_list_head with
  | None => assert_ (num_free_blocks q =? 0) ;; raise ValueError
  | Some first_block =>
      if first_block =? fake_free_list_tail then
        assert_ (num_free_blocks q =? 0) ;; raise ValueError
      else
        match nxt (qheap q) first_block with
        | None => raise RuntimeError
        | Some second =>
            hmod (set_next fake_free_list_head (Some second)) ;;
            hmod (set_prev second (Some fake_free_list_head)) ;;
            hmod (set_prev first_block None) ;;
            hmod (set_next first_block None) ;;
            add_free (-1) ;;
            ret first_block
        end
  end.

(** The loop of [popleft_n]: [k] iterations from [curr_block]; returns the
    blocks popped and the block reached. *)
Fixpoint popleft_loop (k : nat) (curr_block : option ref) : Q (list ref * option ref) :=
  match k with
  | O => ret ([], curr_block)
  | S k' =>
      match curr_block with
      | None => raise AssertionError
      | Some last_block =>
          curr <- gets (λ q, nxt (qheap q) last_block) ;;
          hmod (set_prev last_block None) ;;
          hmod (set_next last_block None) ;;
          r <- popleft_loop k' curr ;;
          ret (last_block :: r.1, r.2)
      end
  end.

Definition popleft_n (n : Z) : Q (list ref) :=
  if n =? 0 then ret []
  else
    free <- gets num_free_blocks ;;
    assert_ (n <=? free) ;;
    add_free (- n) ;;
    curr <- gets (λ q, nxt (qheap q) fake_free_list_head) ;;
    r <- popleft_loop (Z.to_nat n) curr ;;
    match r.2 with
    | Some curr_block =>
        hmod (set_next fake_free_list_head (Some curr_block)) ;;
        hmod (set_prev curr_block (Some fake_free_list_head))
    | None => ret tt
    end ;;
    ret r.1.

Definition remove (block : ref) : Q unit :=
  q <- get ;;
  match prv (qheap q) block, nxt (qheap q) block with
  | Some p, Some n =>
      hmod (set_next p (Some n)) ;;
      hmod (set_prev n (Some p)) ;;
      hmod (set_prev block None) ;;
      hmod (set_next block None) ;;
      add_free (-1)
  | _, _ => raise RuntimeError
  end.

Definition append (block : ref) : Q unit :=
  q <- get ;;
  match prv (qheap q) fake_free_list_tail with
  | None => raise RuntimeError
  | Some last_block =>
      hmod (set_next last_block (Some block)) ;;
      hmod (set_prev block (Some last_block)) ;;
      hmod (set_next block (Some fake_free_list_tail)) ;;
      hmod (set_prev fake_free_list_tail (Some block)) ;;
      add_free 1
  end.

(** The loop of [append_n]; returns the last block linked. *)
Fixpoint append_loop (blocks : list ref) (last_block : ref) : Q ref :=
  match blocks with
  | [] => ret last_block
  | block :: rest =>
      hmod (set_prev block (Some last_block)) ;;
      hmod (set_next last_block (Some block)) ;;
      append_loop rest block
  end.

Definition append_n (blocks : list ref) : Q unit :=
  if len blocks =? 0 then ret tt
  else
    q <- get ;;
    match prv (qheap q) fake_free_list_tail with
    | None => raise AssertionError
    | Some last_block =>
        last <- append_loop blocks last_block ;;
        hmod (set_next last (Some fake_free_list_tail)) ;;
        hmod (set_prev fake_free_list_tail (Some last)) ;;
        add_free (len blocks)
    end.

(** The [while] loop of [get_all_free_blocks], with fuel. *)
Fixpoint walk (fuel : nat) (h : heap) (curr_block : ref) : res (list ref) :=
  match fuel with
  | O => Raise OutOfFuel
  | S fuel' =>
      match nxt h curr_block with
      | None => Ok []
      | Some n =>
          match walk fuel' h n with
          | Ok l => Ok (curr_block :: l)
          | Raise e => Raise e
          end
      end
  end.

Definition get_all_free_blocks (fuel : nat) : Q (list ref) :=
  q <- get ;;
  match nxt (qheap q) fake_free_list_head with
  | None => raise RuntimeError
  | Some curr_block => of_res (walk fuel (qheap q) curr_block)
  end.

End operations.

Lemma run_hmod {B} f (k : unit → M FreeKVCacheBlockQueue B) q :
  bind (hmod f) k q = k tt (mkQueue (num_free_blocks q) (f (qheap q))).
Proof. done. Qed.
Lemma run_add_free {B} d (k : unit → M FreeKVCacheBlockQueue B) q :
  bind (add_free d) k q = k tt (mkQueue (num_free_blocks q + d) (qheap q)).
Proof. done. Qed.
#[export] Hint Rewrite @run_hmod @run_add_free : run.

(* ===================================================================== *)
(** ** Heap lemmas                                                        *)
(* ===================================================================== *)

(** What the queue does not own of a block. *)
Definition payload (b : KVCacheBlock) : Z * Z * option bytes * bool :=
  (block_id b, ref_cnt b, _block_hash b, is_null b).

(** Heaps that agree up to the links of the free list. *)
Definition heap_agree (h h' : heap) : Prop :=
  ∀ r, 0 ≤ r → payload (h' !!! r) = payload (h !!! r).

#[export] Instance heap_agree_equiv : Equivalence heap_agree.
Proof.
  split.
  - intros h r Hr. done.
  - intros h h' H r Hr. by rewrite H.
  - intros h h' h'' H H' r Hr. by rewrite H', H.
Qed.

Lemma upd_same r f h : upd r f h !!! r = f (h !!! r).
Proof. unfold upd. by rewrite lookup_total_insert_eq. Qed.
Lemma upd_other r r' f h : r ≠ r' → upd r f h !!! r' = h !!! r'.
Proof. intros. unfold upd. by rewrite lookup_total_insert_ne. Qed.

Lemma nxt_set_next r v h r' :
  nxt (set_next r v h) r' = if decide (r = r') then v else nxt h r'.
Proof.
  unfold nxt, set_next. case_decide; subst; [by rewrite upd_same|by rewrite upd_other].
Qed.
Lemma nxt_set_prev r v h r' : nxt (set_prev r v h) r' = nxt h r'.
Proof.
  unfold nxt, set_prev. destruct (decide (r = r')); subst;
    [by rewrite upd_same|by rewrite upd_other].
Qed.
Lemma prv_set_prev r v h r' :
  prv (set_prev r v h) r' = if decide (r = r') then v else prv h r'.
Proof.
  unfold prv, set_prev. case_decide; subst; [by rewrite upd_same|by rewrite upd_other].
Qed.
Lemma prv_set_next r v h r' : prv (set_next r v h) r' = prv h r'.
Proof.
  unfold prv, set_next. destruct (decide (r = r')); subst;
    [by rewrite upd_same|by rewrite upd_other].
Qed.

Lemma agree_set_next r v h h' : heap_agree h h' → heap_agree h (set_next r v h').
Proof.
  intros H x Hx. rewrite <-H by done. unfold set_next. destruct (decide (r = x)); subst;
    [by rewrite upd_same|by rewrite upd_other].
Qed.
Lemma agree_set_prev r v h h' : heap_agree h h' → heap_agree h (set_prev r v h').
Proof.
  intros H x Hx. rewrite <-H by done. unfold set_prev. destruct (decide (r = x)); subst;
    [by rewrite upd_same|by rewrite upd_other].
Qed.

Create Rewrite HintDb links.
#[export] Hint Rewrite nxt_set_next nxt_set_prev prv_set_prev prv_set_next : links.
Create HintDb agree.
#[export] Hint Resolve agree_set_next agree_set_prev : agree.
#[export] Hint Extern 1 (heap_agree ?h ?h) => reflexivity : agree.

(** Evaluate the links of an updated heap, splitting on address equalities. *)
Ltac links_solve :=
  autorewrite with links in *;
  repeat (case_decide; simplify_eq; autorewrite with links in *);
  try done.

(* ===================================================================== *)
(** ** Linked segments                                                    *)
(* ===================================================================== *)

(** [seg h a l]: from [a] the links run, both ways, through [l] in order. *)
Fixpoint seg (h : heap) (a : ref) (l : list ref) : Prop :=
  match l with
  | [] => True
  | x :: l' => nxt h a = Some x ∧ prv h x = Some a ∧ seg h x l'
  end.

(** The last node of the segment. *)
Definition lastof (a : ref) (l : list ref) : ref := default a (last l).

Lemma lastof_snoc a l x : lastof a (l ++ [x]) = x.
Proof. unfold lastof. by rewrite last_snoc. Qed.
Lemma lastof_cons a x l : lastof a (x :: l) = lastof x l.
Proof. unfold lastof. rewrite last_cons. by destruct (last l). Qed.
Lemma lastof_elem a l : lastof a l ∈ a :: l.
Proof.
  revert a. induction l as [|x l IH]; intros a; [by left|].
  rewrite lastof_cons. right. apply IH.
Qed.
Lemma lastof_app a l1 l2 : lastof a (l1 ++ l2) = lastof (lastof a l1) l2.
Proof. revert a. induction l1 as [|x l1 IH]; intros a; [done|]. simpl. by rewrite !lastof_cons. Qed.

Lemma seg_app h a l1 l2 : seg h a (l1 ++ l2) ↔ seg h a l1 ∧ seg h (lastof a l1) l2.
Proof.
  revert a. induction l1 as [|x l1 IH]; intros a; simpl; [unfold lastof; simpl; tauto|].
  rewrite IH, lastof_cons. tauto.
Qed.

(** Only the links of the nodes before the last matter. *)
Lemma seg_frame h h' a l :
  NoDup (a :: l) →
  (∀ x, x ∈ a :: l → x ≠ lastof a l → nxt h' x = nxt h x) →
  (∀ x, x ∈ l → prv h' x = prv h x) →
  seg h a l → seg h' a l.
Proof.
  revert a. induction l as [|x l IH]; intros a Hnd Hn Hp; simpl; [done|].
  intros (H1 & H2 & H3). apply NoDup_cons in Hnd as [Ha Hnd].
  rewrite Hn, Hp; [|set_solver..|].
  - split_and!; [done..|]. apply IH; [done| |set_solver|done].
    intros y Hy Hl. apply Hn; [set_solver|]. by rewrite lastof_cons.
  - rewrite lastof_cons. intros ->. destruct Ha. apply lastof_elem.
Qed.

(** The links of a node inside a segment. *)
Lemma seg_inner h a l1 x y l2 :
  seg h a (l1 ++ x :: y :: l2) →
  prv h x = Some (lastof a l1) ∧ nxt h x = Some y.
Proof. rewrite seg_app. simpl. naive_solver. Qed.

(** Cutting one node out of a segment. *)
Lemma seg_cut h h' a l1 x y l2 :
  NoDup (a :: l1 ++ x :: y :: l2) →
  seg h a (l1 ++ x :: y :: l2) →
  nxt h' (lastof a l1) = Some y → prv h' y = Some (lastof a l1) →
  (∀ z, z ∈ a :: l1 ++ y :: l2 → z ≠ lastof a l1 → nxt h' z = nxt h z) →
  (∀ z, z ∈ l1 ++ l2 → prv h' z = prv h z) →
  seg h' a (l1 ++ y :: l2).
Proof.
  intros Hnd Hs Hny Hpy Hn Hp. apply seg_app in Hs as [Hs1 Hs2]. simpl in Hs2.
  apply seg_app. split; [|simpl; split_and!; [done..|]].
  - apply (seg_frame h); [|set_solver..|done].
    apply NoDup_cons in Hnd as [? Hnd]. apply NoDup_app in Hnd. apply NoDup_cons. set_solver.
  - assert (lastof a l1 ∉ y :: l2).
    { intros Hin. pose proof (lastof_elem a l1) as Hl.
      apply NoDup_cons in Hnd as [? Hnd]. apply NoDup_app in Hnd as (? & Hd & ?).
      apply list_elem_of_In in Hl. destruct Hl as [Hl|Hl].
      - rewrite <-Hl in Hin. set_solver.
      - apply list_elem_of_In in Hl. specialize (Hd _ Hl). set_solver. }
    apply (seg_frame h); [|set_solver..|tauto].
    apply NoDup_cons in Hnd as [? Hnd]. apply NoDup_app in Hnd as (? & ? & Hnd).
    by apply NoDup_cons in Hnd as [? ?].
Qed.

(* ===================================================================== *)
(** ** Refinement: the queue represents a list                            *)
(* ===================================================================== *)

(** [queue_rep q l]: the free list of [q] is [l], front first.  Blocks of the
    pool that are not free carry no links. *)
Record queue_rep (q : FreeKVCacheBlockQueue) (l : list ref) : Prop := {
  rep_nodup : NoDup l;
  rep_real : Forall (λ r, 0 ≤ r) l;
  rep_seg : seg (qheap q) fake_free_list_head (l ++ [fake_free_list_tail]);
  rep_tail : nxt (qheap q) fake_free_list_tail = None;
  rep_count : num_free_blocks q = len l;
  rep_off : ∀ r, 0 ≤ r → r ∉ l → nxt (qheap q) r = None ∧ prv (qheap q) r = None;
}.

Lemma rep_nodup_all q l :
  queue_rep q l → NoDup (fake_free_list_head :: l ++ [fake_free_list_tail]).
Proof.
  intros [Hnd Hr _ _ _ _]. rewrite Forall_forall in Hr.
  apply NoDup_cons. split.
  - rewrite elem_of_app, list_elem_of_singleton. intros [H|H]; [|done].
    apply Hr in H. unfold fake_free_list_head in H. lia.
  - apply NoDup_app. split_and!; [done| |apply NoDup_singleton].
    intros x Hx ->%list_elem_of_singleton. apply Hr in Hx.
    unfold fake_free_list_tail in Hx. lia.
Qed.

Lemma nonneg_not_sentinel r :
  0 ≤ r → r ≠ fake_free_list_head ∧ r ≠ fake_free_list_tail.
Proof. unfold fake_free_list_head, fake_free_list_tail. lia. Qed.

Lemma rep_elem_nonneg q l r : queue_rep q l → r ∈ l → 0 ≤ r.
Proof. intros H Hr. pose proof (rep_real _ _ H) as Hf. rewrite Forall_forall in Hf. auto. Qed.

(** The node after a prefix of the list, the tail sentinel at its end. *)
Definition first_or_tail (l : list ref) : ref :=
  match l with [] => fake_free_list_tail | x :: _ => x end.

Lemma app_tail_first (l : list ref) :
  ∃ r, l ++ [fake_free_list_tail] = first_or_tail l :: r.
Proof. destruct l; simpl; eauto. Qed.

(** Unlinking the free block [x] between [l1] and [l2]. *)
Lemma rep_unlink q l1 x l2 h' :
  queue_rep q (l1 ++ x :: l2) →
  let p := lastof fake_free_list_head l1 in
  let n := first_or_tail l2 in
  h' = set_next x None (set_prev x None (set_prev n (Some p) (set_next p (Some n) (qheap q)))) →
  queue_rep (mkQueue (num_free_blocks q - 1) h') (l1 ++ l2).
Proof.
  intros Hrep p n ->. pose proof (rep_nodup_all _ _ Hrep) as Hnd.
  destruct (NoDup_app_remove_mid _ _ _ (rep_nodup _ _ Hrep)) as [Hnd' Hx].
  pose proof (rep_elem_nonneg _ _ x Hrep ltac:(set_solver)) as Hx0.
  destruct (app_tail_first l2) as [r Hr].
  assert (Hseg := rep_seg _ _ Hrep).
  rewrite <-!app_assoc in Hseg, Hnd. simpl in Hseg, Hnd. rewrite Hr in Hseg, Hnd. fold n in Hseg, Hnd.
  assert (Hpx : p ≠ x).
  { intros Hpx. pose proof (lastof_elem fake_free_list_head l1) as Hl. fold p in Hl.
    rewrite Hpx in Hl. destruct (nonneg_not_sentinel x Hx0). set_solver. }
  assert (Hpt : lastof fake_free_list_head l1 ≠ fake_free_list_tail).
  { intros Ht. pose proof (lastof_elem fake_free_list_head l1) as Hl. rewrite Ht in Hl.
    apply list_elem_of_In in Hl as [Hl|Hl]; [done|]. apply list_elem_of_In in Hl.
    pose proof (rep_elem_nonneg _ _ fake_free_list_tail Hrep ltac:(set_solver)).
    unfold fake_free_list_tail in *. lia. }
  assert (Hpl : ∀ y, lastof fake_free_list_head l1 = y → y = fake_free_list_head ∨ y ∈ l1).
  { intros y <-. pose proof (lastof_elem fake_free_list_head l1). set_solver. }
  assert (Hnl : ∀ y, n = y → y = fake_free_list_tail ∨ y ∈ l2).
  { intros y <-. unfold n. destruct l2; simpl; set_solver. }
  assert (Hnx : n ≠ x).
  { intros Hnx. apply NoDup_cons in Hnd as [_ Hnd]. apply NoDup_app in Hnd as (_ & _ & Hnd).
    apply NoDup_cons in Hnd as [Hn _]. rewrite Hnx in Hn. set_solver. }
  assert (Hnr : n ∉ l1 ++ r).
  { apply NoDup_cons in Hnd as [_ Hnd]. rewrite <-Permutation_middle in Hnd.
    apply NoDup_cons in Hnd as [_ Hnd]. by apply NoDup_app_remove_mid in Hnd as [_ ?]. }
  assert (Hxr : x ∉ l1 ++ n :: r).
  { apply NoDup_cons in Hnd as [_ Hnd]. by apply NoDup_app_remove_mid in Hnd as [_ ?]. }
  split; simpl.
  - done.
  - pose proof (rep_real _ _ Hrep) as Hf. rewrite Forall_forall in *. set_solver.
  - rewrite <-app_assoc, Hr.
    apply (seg_cut (qheap q) _ _ _ x); [done|done|fold p; links_solve..| |].
    + intros z Hz Hzp. fold p in Hzp. links_solve.
      destruct (nonneg_not_sentinel z Hx0). set_solver.
    + intros z Hz. links_solve; set_solver.
  - pose proof (rep_tail _ _ Hrep). links_solve; congruence.
  - rewrite (rep_count _ _ Hrep). autorewrite with pylen. lia.
  - intros y Hy Hyl. destruct (nonneg_not_sentinel y Hy).
    pose proof (rep_off _ _ Hrep y Hy) as Hoff. links_solve; set_solver.
Qed.

Lemma popleft_rep q x l :
  queue_rep q (x :: l) →
  ∃ q', popleft q = (Ok x, q') ∧ queue_rep q' l ∧ heap_agree (qheap q) (qheap q').
Proof.
  intros Hrep. pose proof (rep_seg _ _ Hrep) as Hs. simpl in Hs. destruct Hs as (Hh & _ & Hs).
  destruct (nonneg_not_sentinel x) as [_ Hxt]; [eapply rep_elem_nonneg; [done|by left]|].
  destruct (app_tail_first l) as [r Hr]. rewrite Hr in Hs. destruct Hs as [Hn _].
  eexists. split; [|split].
  - unfold popleft. unfold bind at 1, get. rewrite Hh.
    rewrite (proj2 (Z.eqb_neq _ _) Hxt), Hn. reflexivity.
  - apply (rep_unlink q [] x l _ Hrep). reflexivity.
  - simpl. auto 10 with agree.
Qed.

Lemma popleft_empty q :
  queue_rep q [] → popleft q = (Raise ValueError, q).
Proof.
  intros Hrep. pose proof (rep_seg _ _ Hrep) as Hs. simpl in Hs. destruct Hs as (Hh & _ & _).
  unfold popleft, bind, get. rewrite Hh, Z.eqb_refl.
  rewrite (rep_count _ _ Hrep). done.
Qed.

Lemma remove_rep q l1 x l2 :
  queue_rep q (l1 ++ x :: l2) →
  ∃ q', remove x q = (Ok tt, q') ∧ queue_rep q' (l1 ++ l2) ∧ heap_agree (qheap q) (qheap q').
Proof.
  intros Hrep. pose proof (rep_seg _ _ Hrep) as Hs. rewrite <-app_assoc in Hs. simpl in Hs.
  destruct (app_tail_first l2) as [r Hr]. rewrite Hr in Hs. apply seg_inner in Hs as [Hp Hn].
  eexists. split; [|split].
  - unfold remove. unfold bind at 1, get. rewrite Hp, Hn. reflexivity.
  - apply (rep_unlink q l1 x l2 _ Hrep). reflexivity.
  - simpl. auto 10 with agree.
Qed.

Lemma remove_absent q l x :
  queue_rep q l → 0 ≤ x → x ∉ l → remove x q = (Raise RuntimeError, q).
Proof.
  intros Hrep Hx Hxl. destruct (rep_off _ _ Hrep x Hx Hxl) as [Hn Hp].
  unfold remove, bind, get. by rewrite Hp.
Qed.

(** The loop of [popleft_n] hands out a prefix and clears its links. *)
Lemma popleft_loop_spec k q x l :
  (k ≤ length l)%nat → NoDup (x :: l) → seg (qheap q) x l →
  ∃ q', popleft_loop k (Some x) q =
          (Ok (take k (x :: l), Some (default x ((x :: l) !! k))), q') ∧
    num_free_blocks q' = num_free_blocks q ∧
    heap_agree (qheap q) (qheap q') ∧
    (∀ y, nxt (qheap q') y = if decide (y ∈ take k (x :: l)) then None else nxt (qheap q) y) ∧
    (∀ y, prv (qheap q') y = if decide (y ∈ take k (x :: l)) then None else prv (qheap q) y).
Proof.
  revert q x l. induction k as [|k IH]; intros q x l Hk Hnd Hs.
  { exists q. split_and!; [done..|intros y; by rewrite decide_False by set_solver|
      intros y; by rewrite decide_False by set_solver]. }
  destruct l as [|y l]; simpl in Hk; [lia|].
  apply NoDup_cons in Hnd as [Hx Hnd]. destruct Hs as (Hn & Hp & Hs).
  set (q1 := mkQueue (num_free_blocks q) (set_next x None (set_prev x None (qheap q)))).
  destruct (IH q1 y l) as (q' & He & Hc & Ha & Hn' & Hp'); [lia|done| |].
  { apply (seg_frame (qheap q)); [done|..|done]; intros z Hz; [intros _|]; unfold q1; simpl;
      links_solve; set_solver. }
  exists q'. split_and!.
  - simpl. unfold bind at 1, gets. rewrite Hn.
    rewrite (bind_ok _ _ _ tt (mkQueue (num_free_blocks q) (set_prev x None (qheap q)))) by done.
    rewrite (bind_ok _ _ _ tt q1) by done.
    rewrite (bind_ok _ _ _ _ _ He). unfold ret. do 4 f_equal.
    simpl. destruct ((y :: l) !! k) eqn:E; [done|].
    apply lookup_ge_None in E. simpl in E. lia.
  - done.
  - transitivity (qheap q1); [simpl; auto with agree|done].
  - intros z. rewrite Hn'. unfold q1; simpl. links_solve; set_solver.
  - intros z. rewrite Hp'. unfold q1; simpl. links_solve; set_solver.
Qed.

Lemma popleft_n_rep q l n :
  queue_rep q l → 0 ≤ n ≤ len l →
  ∃ q', popleft_n n q = (Ok (take (Z.to_nat n) l), q') ∧
    queue_rep q' (drop (Z.to_nat n) l) ∧ heap_agree (qheap q) (qheap q').
Proof.
  intros Hrep Hn. unfold popleft_n. destruct (Z.eqb_spec n 0) as [->|Hn0].
  { exists q. simpl. by rewrite drop_0. }
  set (k := Z.to_nat n). assert (Hk : (0 < k ≤ length l)%nat) by (unfold len, k in *; lia).
  destruct l as [|x l]; [simpl in *; lia|].
  pose proof (rep_nodup_all _ _ Hrep) as Hnd. pose proof (rep_seg _ _ Hrep) as Hs0.
  pose proof Hs0 as Hs. simpl in Hs. destruct Hs as (Hh & _ & Hs).
  set (q1 := mkQueue (num_free_blocks q + - n) (qheap q)).
  destruct (popleft_loop_spec k q1 x (l ++ [fake_free_list_tail]))
    as (q2 & He & Hc & Ha & Hn2 & Hp2);
    [rewrite length_app; simpl in *; lia|by apply NoDup_cons in Hnd as [_ ?]|done|].
  change (x :: l ++ [fake_free_list_tail]) with ((x :: l) ++ [fake_free_list_tail]) in *.
  rewrite !take_app_le in He, Hn2, Hp2 by (simpl in *; lia).
  assert (Hs' : default x (((x :: l) ++ [fake_free_list_tail]) !! k) = first_or_tail (drop k (x :: l))).
  { destruct (decide (k = length (x :: l))) as [->|].
    - rewrite drop_all, lookup_app_r, Nat.sub_diag by done. done.
    - destruct (lookup_lt_is_Some_2 (x :: l) k) as [y Hy]; [simpl in *; lia|].
      rewrite lookup_app_l by (simpl in *; lia). rewrite Hy. by rewrite (drop_S _ _ _ Hy). }
  rewrite Hs' in He. set (s := first_or_tail (drop k (x :: l))) in *.
  eexists. split; [|split].
  - rewrite run_gets, (rep_count _ _ Hrep), run_assert.
    rewrite (proj2 (Z.leb_le _ _)) by lia.
    rewrite run_add_free, run_gets. fold q1. simpl qheap. rewrite Hh.
    rewrite (bind_ok _ _ _ _ _ He). reflexivity.
  - set (l' := x :: l) in *. rewrite <-(take_drop k l') in Hnd, Hs0, Hrep.
    pose proof (rep_nodup _ _ Hrep) as Hndl. apply NoDup_app in Hndl as (Hnd1 & Hdis & Hnd2).
    rewrite <-app_assoc in Hnd, Hs0. apply seg_app in Hs0 as [_ Hs0].
    destruct (app_tail_first (drop k l')) as [r Hr]. fold s in Hr. rewrite Hr in Hs0, Hnd.
    destruct Hs0 as (_ & _ & Hs0).
    apply NoDup_cons in Hnd as [HH Hnd]. apply NoDup_app in Hnd as (_ & Hdis' & Hnd).
    split; simpl.
    + done.
    + pose proof (rep_real _ _ Hrep) as Hf. by apply Forall_app in Hf as [_ ?].
    + rewrite Hr. simpl. split_and!; [by links_solve..|].
      apply (seg_frame (qheap q)); [done| |..|done].
      * intros z Hz _. links_solve; [set_solver|]. rewrite Hn2. rewrite decide_False; [done|].
           intros Hz'. by apply (Hdis' z).
      * intros z Hz. apply NoDup_cons in Hnd. links_solve; [set_solver|].
           rewrite Hp2, decide_False; [done|]. intros Hz'. apply (Hdis' z); set_solver.
    + links_solve. rewrite Hn2. case_decide; [done|]. apply (rep_tail _ _ Hrep).
    + rewrite Hc. unfold q1; simpl. rewrite (rep_count _ _ Hrep). rewrite len_app.
      unfold len. rewrite length_take. lia.
    + intros y Hy Hyd. destruct (nonneg_not_sentinel y Hy).
      assert (s ≠ y). { unfold s. clear -Hyd H0. destruct (drop k l'); simpl; set_solver. }
      links_solve. rewrite Hn2, Hp2. case_decide; [done|].
      apply (rep_off _ _ Hrep); [done|]. set_solver.
  - simpl. transitivity (qheap q1); [done|]. etrans; [exact Ha|]. auto 10 with agree.
Qed.

Lemma popleft_n_short q n :
  n ≠ 0 → num_free_blocks q < n → popleft_n n q = (Raise AssertionError, q).
Proof.
  intros Hn0 Hn. unfold popleft_n. rewrite (proj2 (Z.eqb_neq _ _)) by done.
  rewrite run_gets, run_assert. by rewrite (proj2 (Z.leb_gt _ _)) by lia.
Qed.

(** The loop of [append_n] extends an open segment. *)
Lemma append_loop_spec a q l bs :
  NoDup (a :: l ++ bs) → seg (qheap q) a l →
  ∃ q', append_loop bs (lastof a l) q = (Ok (lastof a (l ++ bs)), q') ∧
    num_free_blocks q' = num_free_blocks q ∧ heap_agree (qheap q) (qheap q') ∧
    seg (qheap q') a (l ++ bs) ∧
    (∀ y, y ∉ a :: l ++ bs → nxt (qheap q') y = nxt (qheap q) y) ∧
    (∀ y, y ∉ l ++ bs → prv (qheap q') y = prv (qheap q) y).
Proof.
  revert q l. induction bs as [|b bs IH]; intros q l Hnd Hs.
  { exists q. rewrite app_nil_r. done. }
  set (q1 := mkQueue (num_free_blocks q)
        (set_next (lastof a l) (Some b) (set_prev b (Some (lastof a l)) (qheap q)))).
  assert (Hb : b ∉ a :: l).
  { rewrite app_comm_cons in Hnd. apply NoDup_app in Hnd as (_ & Hd & _).
    intros Hb. apply (Hd b Hb). by left. }
  destruct (IH q1 (l ++ [b])) as (q' & He & Hc & Ha & Hs' & Hn & Hp).
  { by rewrite <-app_assoc. }
  { apply seg_app. split; [|by unfold q1; simpl; split_and!; [links_solve..|]].
    apply (seg_frame (qheap q)); [| | |done].
    - rewrite app_comm_cons in Hnd. by apply NoDup_app in Hnd as (? & _ & _).
    - intros x Hx Hxl. unfold q1; simpl. by links_solve.
    - intros x Hx. unfold q1; simpl. links_solve. set_solver. }
  rewrite lastof_snoc, <-app_assoc in *. simpl in *.
  exists q'. split_and!; [|done| |done|..].
  - rewrite !run_hmod. exact He.
  - etrans; [|exact Ha]. unfold q1; simpl; auto with agree.
  - intros y Hy. rewrite Hn by done. unfold q1; simpl. pose proof (lastof_elem a l).
    links_solve. set_solver.
  - intros y Hy. rewrite Hp by done. unfold q1; simpl. links_solve. set_solver.
Qed.

Lemma append_n_rep q l bs :
  queue_rep q l → NoDup bs → Forall (λ r, 0 ≤ r) bs → (∀ b, b ∈ bs → b ∉ l) →
  ∃ q', append_n bs q = (Ok tt, q') ∧ queue_rep q' (l ++ bs) ∧
    heap_agree (qheap q) (qheap q').
Proof.
  intros Hrep Hndb Hrb Hdis. unfold append_n.
  destruct (Z.eqb_spec (len bs) 0) as [Hz|Hz].
  { exists q. destruct bs; [by rewrite app_nil_r|unfold len in Hz; simpl in Hz; lia]. }
  pose proof (rep_seg _ _ Hrep) as Hs. apply seg_app in Hs as [Hs Ht]. simpl in Ht.
  destruct Ht as (Hnt & Hpt & _). rewrite run_get, Hpt.
  assert (Hall : NoDup (fake_free_list_head :: l ++ bs) ∧ fake_free_list_tail ∉ l ++ bs).
  { rewrite Forall_forall in Hrb. rewrite NoDup_cons, NoDup_app.
    assert (∀ y, y ∈ l ++ bs → 0 ≤ y).
    { intros y [Hy|Hy]%elem_of_app; [by eapply rep_elem_nonneg|auto]. }
    split_and!; [|by apply (rep_nodup _ _ Hrep)|set_solver|done|];
      intros Hy%H; [unfold fake_free_list_head in Hy|unfold fake_free_list_tail in Hy]; lia. }
  destruct Hall as [Hnd Htl].
  destruct (append_loop_spec _ q l bs Hnd Hs) as (q' & He & Hc & Ha & Hs' & Hn & Hp).
  rewrite (bind_ok _ _ _ _ _ He), !run_hmod.
  eexists. split; [reflexivity|split].
  - split; simpl.
    + by apply NoDup_cons in Hnd as [_ ?].
    + apply Forall_app. split; [apply (rep_real _ _ Hrep)|done].
    + apply seg_app. split; [|by simpl; split_and!; [links_solve..|]].
      apply (seg_frame (qheap q')); [done| | |done].
      * intros x Hx Hxl. by links_solve.
      * intros x Hx. links_solve.
    + links_solve.
      * exfalso. pose proof (lastof_elem fake_free_list_head (l ++ bs)) as Hl.
        rewrite H in Hl. set_solver.
      * rewrite Hn; [apply (rep_tail _ _ Hrep)|]. set_solver.
    + rewrite Hc, (rep_count _ _ Hrep), len_app. done.
    + intros y Hy Hyl. destruct (nonneg_not_sentinel y Hy).
      pose proof (lastof_elem fake_free_list_head (l ++ bs)) as Hl.
      links_solve; [set_solver|]. rewrite Hn, Hp by set_solver.
      apply (rep_off _ _ Hrep); [done|set_solver].
  - simpl. etrans; [exact Ha|]. auto with agree.
Qed.

Lemma set_next_prev_comm r v r' v' h :
  set_next r v (set_prev r' v' h) = set_prev r' v' (set_next r v h).
Proof.
  unfold set_next, set_prev, upd. destruct (decide (r = r')) as [->|Hne].
  - rewrite !lookup_total_insert_eq, !insert_insert_eq. done.
  - rewrite !lookup_total_insert_ne by done. by apply insert_insert_ne.
Qed.

(** [append(b)] is [append_n([b])] on a linked queue. *)
Lemma append_as_append_n q b :
  is_Some (prv (qheap q) fake_free_list_tail) → append b q = append_n [b] q.
Proof.
  intros [p Hp]. unfold append, append_n. simpl. rewrite !run_get, Hp.
  autorewrite with run. simpl. by rewrite (set_next_prev_comm p).
Qed.

Lemma append_rep q l b :
  queue_rep q l → 0 ≤ b → b ∉ l →
  ∃ q', append b q = (Ok tt, q') ∧ queue_rep q' (l ++ [b]) ∧
    heap_agree (qheap q) (qheap q').
Proof.
  intros Hrep Hb Hbl. rewrite append_as_append_n.
  - apply append_n_rep; [done|apply NoDup_singleton|by constructor|set_solver].
  - pose proof (rep_seg _ _ Hrep) as Hs. apply seg_app in Hs as [_ (_ & Hp & _)]. eauto.
Qed.

(** [get_all_free_blocks] terminates within [S (length l)] steps of the loop. *)
Lemma walk_spec h a l t fuel :
  seg h a (l ++ [t]) → nxt h t = None → (length l < fuel)%nat →
  ∃ b, nxt h a = Some b ∧ walk fuel h b = Ok l.
Proof.
  revert a fuel. induction l as [|x l IH]; intros a fuel Hs Ht Hf;
    destruct fuel as [|fuel]; simpl in *; [lia| |lia|].
  - destruct Hs as [Hn _]. exists t. by rewrite Ht.
  - destruct Hs as (Hn & _ & Hs). exists x. split; [done|].
    destruct (IH x fuel Hs Ht ltac:(lia)) as (b & -> & ->). done.
Qed.

Lemma get_all_free_blocks_rep q l fuel :
  queue_rep q l → (length l < fuel)%nat → get_all_free_blocks fuel q = (Ok l, q).
Proof.
  intros Hrep Hf. unfold get_all_free_blocks. rewrite run_get.
  destruct (walk_spec _ _ _ _ fuel (rep_seg _ _ Hrep) (rep_tail _ _ Hrep) Hf) as (b & -> & Hw).
  unfold of_res. by rewrite Hw.
Qed.

(** The queue does not look at what it does not own. *)
Lemma rep_payload_irrel q l h :
  queue_rep q l → (∀ r, nxt h r = nxt (qheap q) r) → (∀ r, prv h r = prv (qheap q) r) →
  queue_rep (mkQueue (num_free_blocks q) h) l.
Proof.
  intros Hrep Hn Hp. destruct Hrep as [Hnd Hr Hs Ht Hc Ho] eqn:E. split; simpl; try done.
  - apply (seg_frame (qheap q)); auto. by apply (rep_nodup_all q).
  - by rewrite Hn.
  - intros. rewrite Hn, Hp. auto.
Qed.

Lemma last_py_nth (l : list ref) a :
  l ≠ [] → py_nth l (-1) = Some (lastof a l).
Proof.
  intros Hne. destruct (exists_last Hne) as (l' & x & ->).
  by rewrite py_nth_last, lastof_snoc.
Qed.

(** Segments from pointwise links. *)
Lemma seg_pointwise h a l :
  (∀ i x y, (a :: l) !! i = Some x → l !! i = Some y → nxt h x = Some y ∧ prv h y = Some x) →
  seg h a l.
Proof.
  revert a. induction l as [|x l IH]; intros a H; simpl; [done|].
  destruct (H 0%nat a x); [done..|]. split_and!; [done..|].
  apply IH. intros i. apply (H (S i)).
Qed.

(** What the linking loop of [__init__] has established for [blocks[j]]. *)
Definition linked (blocks : list ref) (h : heap) (j : nat) : Prop :=
  ∀ b, blocks !! j = Some b →
    nxt h b = blocks !! S j ∧
    prv h b = match j with O => None | S j' => blocks !! j' end.

Lemma init_link_spec blocks q (i : nat) b :
  NoDup blocks → blocks !! i = Some b → nxt (qheap q) b = None → prv (qheap q) b = None →
  ∃ q', init_link blocks (len blocks) (Z.of_nat i) q = (Ok tt, q') ∧
    num_free_blocks q' = num_free_blocks q ∧ heap_agree (qheap q) (qheap q') ∧
    linked blocks (qheap q') i ∧
    (∀ r, r ≠ b → nxt (qheap q') r = nxt (qheap q) r ∧ prv (qheap q') r = prv (qheap q) r).
Proof.
  intros Hnd Hb Hn Hp. unfold init_link.
  assert (Hi : (i < length blocks)%nat) by (by eapply lookup_lt_Some).
  rewrite run_of_option, py_nth_nonneg, Nat2Z.id, Hb by lia.
  set (h1 := match i with O => qheap q | S j => set_prev b (blocks !! j) (qheap q) end).
  set (h2 := match blocks !! S i with None => h1 | Some x => set_next b (Some x) h1 end).
  exists (mkQueue (num_free_blocks q) h2).
  assert (Hrun1 : (when (0 <? Z.of_nat i) do
     (p <- of_option IndexError (py_nth blocks (Z.of_nat i - 1)) ;; hmod (set_prev b (Some p)))) q
     = (Ok tt, mkQueue (num_free_blocks q) h1)).
  { destruct i as [|j]; [by destruct q|]. rewrite (proj2 (Z.ltb_lt _ _)) by lia.
    rewrite run_of_option, py_nth_nonneg by lia.
    replace (Z.to_nat (Z.of_nat (S j) - 1)) with j by lia.
    destruct (blocks !! j) eqn:E; [done|]. apply lookup_ge_None in E. lia. }
  split.
  { rewrite (bind_ok _ _ _ _ _ Hrun1). unfold h2. destruct (blocks !! S i) as [x|] eqn:E.
    - apply lookup_lt_Some in E as E'. rewrite (proj2 (Z.ltb_lt _ _)) by (unfold len; lia).
      rewrite run_of_option, py_nth_nonneg by lia.
      replace (Z.to_nat (Z.of_nat i + 1)) with (S i) by lia. by rewrite E.
    - apply lookup_ge_None in E. by rewrite (proj2 (Z.ltb_ge _ _)) by (unfold len; lia). }
  simpl. split_and!; [done| | |].
  - unfold h2, h1. destruct (blocks !! S i), i; auto with agree.
  - intros b' Hb'. simplify_eq. unfold h2, h1.
    destruct (blocks !! S i), i; links_solve.
  - intros r Hr. unfold h2, h1. destruct (blocks !! S i), i; links_solve.
Qed.

(** The state of the linking loop after [k] iterations. *)
Definition init_inv (blocks : list ref) (h0 : heap) (k : nat) (s : FreeKVCacheBlockQueue) : Prop :=
  (∀ j, (j < k)%nat → linked blocks (qheap s) j) ∧
  (∀ r, (∀ j, (j < k)%nat → blocks !! j ≠ Some r) →
        nxt (qheap s) r = None ∧ prv (qheap s) r = None) ∧
  num_free_blocks s = len blocks ∧ heap_agree h0 (qheap s).

Lemma init_inv_step blocks h0 k s :
  NoDup blocks → (k < length blocks)%nat → init_inv blocks h0 k s →
  ∃ s', init_link blocks (len blocks) (Z.of_nat k) s = (Ok tt, s') ∧ init_inv blocks h0 (S k) s'.
Proof.
  intros Hnd Hk (Hlk & Hoff & Hc & Ha).
  destruct (lookup_lt_is_Some_2 blocks k Hk) as [b Hb].
  destruct (Hoff b) as [Hn Hp].
  { intros j Hj Hj'. pose proof (NoDup_lookup _ _ _ _ Hnd Hb Hj'). lia. }
  destruct (init_link_spec blocks s k b) as (s' & He & Hc' & Ha' & Hl & Ho); [done..|].
  exists s'. split; [done|]. split_and!; [| |congruence|by etrans].
  - intros j Hj. destruct (decide (j = k)) as [->|Hjk]; [done|].
    intros b' Hb'. destruct (Ho b') as [-> ->];
      [intros ->; pose proof (NoDup_lookup _ _ _ _ Hnd Hb Hb'); lia|].
    apply Hlk; [lia|done].
  - intros r Hrj. destruct (Ho r) as [-> ->]; [intros ->; apply (Hrj k); [lia|done]|].
    apply Hoff. intros j Hj. apply Hrj. lia.
Qed.

Lemma init_loop_spec blocks h0 n k s :
  NoDup blocks → (k + n = length blocks)%nat → init_inv blocks h0 k s →
  ∃ s', for_ (seqZ (Z.of_nat k) (Z.of_nat n)) (init_link blocks (len blocks)) s = (Ok tt, s') ∧
        init_inv blocks h0 (length blocks) s'.
Proof.
  intros Hnd. revert k s. induction n as [|n IH]; intros k s Hk Hi.
  - exists s. replace (length blocks) with k by lia. done.
  - destruct (init_inv_step blocks h0 k s) as (s1 & He & Hi1); [done|lia|done|].
    destruct (IH (S k) s1) as (s' & He' & Hi'); [lia|done|].
    exists s'. split; [|done]. rewrite seqZ_cons by lia. simpl.
    rewrite (bind_ok _ _ _ _ _ He). rewrite <-He'. f_equal. f_equal; lia.
Qed.

(** Linking the sentinels to the ends of the chain [blocks]. *)
Lemma init_sentinels blocks h1 :
  NoDup blocks → Forall (λ r, 0 ≤ r) blocks → blocks ≠ [] →
  (∀ j, (j < length blocks)%nat → linked blocks h1 j) →
  (∀ r, r ∉ blocks → nxt h1 r = None ∧ prv h1 r = None) →
  let first := default 0 (head blocks) in
  let last := lastof fake_free_list_head blocks in
  let h2 := set_next last (Some fake_free_list_tail)
     (set_prev fake_free_list_tail (Some last)
     (set_prev first (Some fake_free_list_head)
     (set_next fake_free_list_head (Some first) h1))) in
  queue_rep (mkQueue (len blocks) h2) blocks.
Proof.
  intros Hnd Hr Hne Hlk Hoff first last h2. rewrite Forall_forall in Hr.
  assert (Hl : last ∈ blocks).
  { unfold last. destruct blocks as [|x l]; [done|]. rewrite lastof_cons. apply lastof_elem. }
  assert (Hf : first ∈ blocks) by (unfold first; destruct blocks; [done|by left]).
  destruct (nonneg_not_sentinel last (Hr _ Hl)). destruct (nonneg_not_sentinel first (Hr _ Hf)).
  assert (Hin : ∀ i b, blocks !! i = Some b → nxt h1 b = blocks !! S i ∧
     prv h1 b = match i with O => None | S j => blocks !! j end ∧ 0 ≤ b ∧
     (b = first → i = 0%nat) ∧ (b = last → S i = length blocks)).
  { intros i b Hb. apply lookup_lt_Some in Hb as Hib. split_and!; [by apply Hlk..|by eapply Hr, list_elem_of_lookup_2| |].
    - intros ->. destruct blocks as [|x l]; [done|]. by apply (NoDup_lookup _ _ 0%nat) in Hb.
    - intros ->. unfold last, lastof in Hb. destruct (list.last blocks) as [z|] eqn:E;
        [|by apply last_None in E]. rewrite last_lookup in E. simpl in Hb.
      pose proof (NoDup_lookup _ _ _ _ Hnd Hb E). lia. }
  split; simpl.
  - done.
  - by apply Forall_forall.
  - apply seg_app. split; [|by unfold h2; simpl; fold last; split_and!; [links_solve..|]].
    apply seg_pointwise. intros i x y Hx Hy.
    destruct (Hin _ _ Hy) as (Hny & Hpy & Hy0 & Hyf & Hyl).
    destruct (nonneg_not_sentinel y Hy0). unfold h2. destruct i as [|i]; simpl in Hx.
    + assert (first = y) by (unfold first; destruct blocks; [done|by injection Hy]).
      clearbody first. simplify_eq. split; links_solve.
    + destruct (Hin _ _ Hx) as (Hnx & Hpx & Hx0 & Hxf & Hxl).
      destruct (nonneg_not_sentinel x Hx0). apply lookup_lt_Some in Hy as Hlt.
      assert (last ≠ x) by (intros Hl'; specialize (Hxl (eq_sym Hl')); lia).
      assert (first ≠ y) by (intros Hf'; specialize (Hyf (eq_sym Hf')); lia).
      clearbody first last. split; links_solve; congruence.
  - unfold h2. links_solve. apply Hoff. intros Ht%Hr. unfold fake_free_list_tail in Ht. lia.
  - done.
  - intros r Hr0 Hrb. destruct (nonneg_not_sentinel r Hr0). unfold h2. links_solve. auto.
Qed.

(** [__init__] on freshly created blocks builds the queue holding them all. *)
Lemma FreeKVCacheBlockQueue_init_rep blocks q :
  NoDup blocks → Forall (λ r, 0 ≤ r) blocks →
  (∀ r, nxt (qheap q) r = None ∧ prv (qheap q) r = None) →
  ∃ q', FreeKVCacheBlockQueue_init blocks q = (Ok tt, q') ∧ queue_rep q' blocks ∧
    heap_agree (qheap q) (qheap q').
Proof.
  intros Hnd Hr Hfresh. unfold FreeKVCacheBlockQueue_init. rewrite run_modify.
  destruct (init_loop_spec blocks (qheap q) (length blocks) 0 (mkQueue (len blocks) (qheap q)))
    as (q1 & He & Hlk & Hoff & Hc & Ha); [done|lia|by split_and!; [lia|..]|].
  rewrite (bind_ok _ _ _ _ _ He), !run_hmod. clear He.
  set (h2 := <[fake_free_list_tail:=new_KVCacheBlock (-1)]> _).
  assert (Hn2 : ∀ r, 0 ≤ r → h2 !!! r = qheap q1 !!! r).
  { intros r Hr0. destruct (nonneg_not_sentinel r Hr0). unfold h2; simpl.
    by rewrite !lookup_total_insert_ne. }
  assert (Hs2 : ∀ r, r < 0 → nxt h2 r = None ∧ prv h2 r = None).
  { intros r Hr0. unfold nxt, prv, h2; simpl. destruct (decide (r = fake_free_list_tail)) as [->|];
      [by rewrite lookup_total_insert_eq|]. rewrite lookup_total_insert_ne by done.
    destruct (decide (r = fake_free_list_head)) as [->|]; [by rewrite lookup_total_insert_eq|].
    rewrite lookup_total_insert_ne by done. apply Hoff. intros j _ Hj%list_elem_of_lookup_2.
    rewrite Forall_forall in Hr. apply Hr in Hj. lia. }
  assert (Ha2 : heap_agree (qheap q) h2).
  { intros r Hr0. rewrite Hn2 by done. by apply Ha. }
  simpl. rewrite Hc. destruct (decide (blocks = [])) as [->|Hne].
  - eexists. split; [reflexivity|]. split; [|by simpl; auto with agree].
    assert (∀ r, nxt h2 r = None ∧ prv h2 r = None).
    { intros r. destruct (decide (r < 0)); [auto|]. unfold nxt, prv. rewrite Hn2 by lia.
      apply Hoff. simpl. lia. }
    split; simpl; [apply NoDup_nil_2|done| |by links_solve; apply H|done|].
    + split_and!; [links_solve..|done].
    + intros r Hr0 _. destruct (nonneg_not_sentinel r Hr0). by links_solve.
  - assert (Hlen : 0 < len blocks) by (unfold len; destruct blocks; simpl; [done|lia]).
    rewrite (proj2 (Z.ltb_lt _ _)) by lia.
    assert (Hh : blocks !! 0%nat = Some (default 0 (head blocks))) by (by destruct blocks).
    rewrite run_of_option, py_nth_nonneg by lia. change (Z.to_nat 0) with 0%nat. rewrite Hh.
    rewrite run_of_option. rewrite (last_py_nth blocks fake_free_list_head) by done.
    rewrite !run_hmod. simpl.
    eexists. split; [reflexivity|]. split; [|by simpl; auto 10 with agree].
    apply init_sentinels; try done.
    + intros j Hj b Hb. unfold nxt, prv. rewrite Hn2; [by apply Hlk|].
      rewrite Forall_forall in Hr. by eapply Hr, list_elem_of_lookup_2.
    + intros r Hrb. destruct (decide (r < 0)); [auto|]. unfold nxt, prv. rewrite Hn2 by lia.
      apply Hoff. by intros j _ Hj%list_elem_of_lookup_2.
Qed.

(* ===================================================================== *)
(** ** The abstract deque and the refinement theorem                      *)
(* ===================================================================== *)

(** The calls a client of the queue makes. *)
Inductive qop : Type :=
  | OpPopleft
  | OpPopleftN (n : Z)
  | OpRemove (b : ref)
  | OpAppend (b : ref)
  | OpAppendN (bs : list ref).

(** A call on the linked queue; the value is the list of blocks returned. *)
Definition run_op (o : qop) : M FreeKVCacheBlockQueue (list ref) :=
  match o with
  | OpPopleft => b <- popleft ;; ret [b]
  | OpPopleftN n => popleft_n n
  | OpRemove b => remove b ;; ret []
  | OpAppend b => append b ;; ret []
  | OpAppendN bs => append_n bs ;; ret []
  end.

(** Blocks that may be appended to the deque [l]. *)
Definition appendable (l bs : list ref) : bool :=
  bool_decide (NoDup bs) && forallb (λ b, 0 <=? b) bs &&
  forallb (λ b, bool_decide (b ∉ l)) bs.

(** The same call on a plain list; [None] where the caller breaks the
    contract: appending a block that is already free, or a negative count. *)
Definition spec_op (o : qop) (l : list ref) : option (res (list ref) * list ref) :=
  match o with
  | OpPopleft =>
      match l with [] => Some (Raise ValueError, l) | x :: l' => Some (Ok [x], l') end
  | OpPopleftN n =>
      if n <? 0 then None
      else if n <=? len l then Some (Ok (take (Z.to_nat n) l), drop (Z.to_nat n) l)
      else Some (Raise AssertionError, l)
  | OpRemove b =>
      if b <? 0 then None
      else if bool_decide (b ∈ l) then Some (Ok [], filter (λ x, x ≠ b) l)
      else Some (Raise RuntimeError, l)
  | OpAppend b => if appendable l [b] then Some (Ok [], l ++ [b]) else None
  | OpAppendN bs => if appendable l bs then Some (Ok [], l ++ bs) else None
  end.

(** Sequences of calls, each caught by its caller. *)
Fixpoint run_ops (os : list qop) (q : FreeKVCacheBlockQueue) :
    list (res (list ref)) * FreeKVCacheBlockQueue :=
  match os with
  | [] => ([], q)
  | o :: os' => let '(r, q') := run_op o q in
                let '(rs, q'') := run_ops os' q' in (r :: rs, q'')
  end.
Fixpoint spec_ops (os : list qop) (l : list ref) :
    option (list (res (list ref)) * list ref) :=
  match os with
  | [] => Some ([], l)
  | o :: os' =>
      '(r, l') ← spec_op o l; '(rs, l'') ← spec_ops os' l'; Some (r :: rs, l'')
  end.

Lemma appendable_spec l bs :
  appendable l bs = true →
  NoDup bs ∧ Forall (λ r, 0 ≤ r) bs ∧ (∀ b, b ∈ bs → b ∉ l).
Proof.
  unfold appendable. intros [[H1 H2]%andb_true_iff H3]%andb_true_iff.
  rewrite bool_decide_eq_true in H1. rewrite forallb_forall in H2, H3.
  split_and!; [done| |].
  - apply Forall_forall. intros b Hb%list_elem_of_In. apply H2 in Hb. by bool_to_prop.
  - intros b Hb%list_elem_of_In. apply H3 in Hb. by bool_to_prop.
Qed.

Lemma filter_ne_notin (b : ref) (l : list ref) : b ∉ l → filter (λ x, x ≠ b) l = l.
Proof.
  induction l as [|x l IH]; intros Hb; [done|].
  rewrite filter_cons_True by set_solver. f_equal. set_solver.
Qed.

Lemma filter_ne_mid (b : ref) (l1 l2 : list ref) :
  NoDup (l1 ++ b :: l2) → filter (λ x, x ≠ b) (l1 ++ b :: l2) = l1 ++ l2.
Proof.
  intros [_ Hb]%NoDup_app_remove_mid.
  rewrite filter_app, filter_cons_False by naive_solver.
  rewrite !filter_ne_notin by set_solver. done.
Qed.

Lemma run_op_refines o q l r l' :
  queue_rep q l → spec_op o l = Some (r, l') →
  ∃ q', run_op o q = (r, q') ∧ queue_rep q' l' ∧ heap_agree (qheap q) (qheap q').
Proof.
  intros Hrep Hs. destruct o as [|n|b|b|bs]; simpl in *.
  - destruct l as [|x l]; simplify_eq.
    + exists q. by rewrite (bind_raise _ _ _ _ _ (popleft_empty q Hrep)).
    + destruct (popleft_rep q x l' Hrep) as (q' & He & ? & ?).
      exists q'. by rewrite (bind_ok _ _ _ _ _ He).
  - repeat case_match; bool_to_prop; simplify_eq.
    + destruct (popleft_n_rep q l n Hrep) as (q' & ? & ? & ?); eauto with lia.
    + exists q. rewrite popleft_n_short; [done|pose proof (len_nonneg l'); lia|].
      by rewrite (rep_count _ _ Hrep).
  - repeat case_match; bool_to_prop; simplify_eq.
    + destruct (elem_of_split b l) as (l1 & l2 & ->); [done|].
      destruct (remove_rep q l1 b l2 Hrep) as (q' & He & ? & ?).
      exists q'. rewrite (bind_ok _ _ _ _ _ He), filter_ne_mid; [done|apply (rep_nodup _ _ Hrep)].
    + exists q. by rewrite (bind_raise _ _ _ _ _ (remove_absent q l' b Hrep ltac:(lia) ltac:(done))).
  - case_match eqn:E; simplify_eq. apply appendable_spec in E as (_ & H1 & H2).
    destruct (append_rep q l b) as (q' & He & ? & ?);
      [done|by inversion H1|set_solver|].
    exists q'. by rewrite (bind_ok _ _ _ _ _ He).
  - case_match eqn:E; simplify_eq. apply appendable_spec in E as (H0 & H1 & H2).
    destruct (append_n_rep q l bs) as (q' & He & ? & ?); [done..|].
    exists q'. by rewrite (bind_ok _ _ _ _ _ He).
Qed.

(** C31.  The linked free-block queue is a refinement of a plain list: started
    on freshly created blocks, every sequence of [popleft], [popleft_n],
    [remove], [append] and [append_n] calls within the contract returns, call
    by call, exactly what the list operation returns (the raised exception
    included), the links keep spelling the abstract list, [num_free_blocks] is
    its length, and no other attribute of any block changes. *)
Theorem free_queue_refines_list blocks q os rs l :
  NoDup blocks → Forall (λ r, 0 ≤ r) blocks →
  (∀ r, nxt (qheap q) r = None ∧ prv (qheap q) r = None) →
  spec_ops os blocks = Some (rs, l) →
  ∃ q0 q', FreeKVCacheBlockQueue_init blocks q = (Ok tt, q0) ∧
    run_ops os q0 = (rs, q') ∧ queue_rep q' l ∧ heap_agree (qheap q) (qheap q').
Proof.
  intros Hnd Hr Hf Hs.
  destruct (FreeKVCacheBlockQueue_init_rep blocks q Hnd Hr Hf) as (q0 & He & Hrep & Ha).
  cut (∃ q', run_ops os q0 = (rs, q') ∧ queue_rep q' l ∧ heap_agree (qheap q0) (qheap q')).
  { intros (q' & ? & ? & ?). exists q0, q'. split_and!; [done..|by etrans]. }
  clear Hnd Hr Hf He Ha. revert q0 blocks rs Hrep Hs.
  induction os as [|o os IH]; intros q0 l0 rs Hrep Hs; simpl in *.
  - simplify_eq. by exists q0.
  - apply bind_Some in Hs as ([r l1] & Ho & Hs). apply bind_Some in Hs as ([rs' l2] & Hos & Hs).
    simplify_eq. destruct (run_op_refines o q0 l0 r l1 Hrep Ho) as (q1 & -> & Hrep1 & Ha1).
    destruct (IH q1 l1 rs' Hrep1 Hos) as (q' & -> & Hrep' & Ha').
    exists q'. split_and!; [done..|by etrans].
Qed.

(** The hypotheses of the refinement hold for a pool of four fresh blocks and a sequence
    that pops, re-appends, removes from the middle and fails. *)
Lemma free_queue_refines_list_witness :
  ∃ q0 q', FreeKVCacheBlockQueue_init [0; 1; 2; 3] (mkQueue 0 ∅) = (Ok tt, q0) ∧
    run_ops [OpPopleft; OpPopleftN 1; OpAppend 0; OpRemove 3; OpRemove 3; OpPopleftN 9] q0
      = ([Ok [0]; Ok [1]; Ok []; Ok []; Raise RuntimeError; Raise AssertionError], q') ∧
    queue_rep q' [2; 0] ∧ heap_agree ∅ (qheap q').
Proof.
  apply (free_queue_refines_list [0; 1; 2; 3] (mkQueue 0 ∅)).
  - apply (bool_decide_unpack _). vm_compute. exact I.
  - repeat constructor; lia.
  - intros r. unfold nxt, prv. simpl. rewrite lookup_total_empty. split; reflexivity.
  - vm_compute. reflexivity.
Defined.

(** [get_all_free_blocks] terminates on every represented queue, within
    one loop turn per free block, and returns the free list in order. *)
Theorem get_all_free_blocks_correct q l fuel :
  queue_rep q l → (length l < fuel)%nat → get_all_free_blocks fuel q = (Ok l, q).
Proof. apply get_all_free_blocks_rep. Qed.

Lemma get_all_free_blocks_correct_witness :
  get_all_free_blocks 5 (FreeKVCacheBlockQueue_init [0; 1; 2] (mkQueue 0 ∅)).2 =
    (Ok [0; 1; 2], (FreeKVCacheBlockQueue_init [0; 1; 2] (mkQueue 0 ∅)).2).
Proof.
  apply (get_all_free_blocks_correct _ [0; 1; 2] 5); [|simpl; lia].
  destruct (FreeKVCacheBlockQueue_init_rep [0; 1; 2] (mkQueue 0 ∅)) as (q & He & Hq & _).
  - apply (bool_decide_unpack _). vm_compute. exact I.
  - repeat constructor; lia.
  - intros r. unfold nxt, prv. simpl. rewrite lookup_total_empty. split; reflexivity.
  - rewrite He. exact Hq.
Defined.
