(* ===== verification/Request.v ===== *)
(** * Requests ([src/vllm/v1/request.py] and the data it carries)

    The [Request] object, its status machine and its methods.  The block
    hasher of a request is a method argument here ([_block_hasher] is stored
    on the object in the code); timestamps are integers, only compared.  Left
    out of the record are attributes no modelled operation reads
    ([trace_headers], [prefill_stats], the reasoning-parser arguments). *)
From S2P Require Import Prelude.
Local Open Scope Z_scope.

(* ===================================================================== *)
(** ** Data carried by a request                                          *)
(* ===================================================================== *)

(** [PlaceholderRange] ([vllm/multimodal/inputs.py]). *)
Record PlaceholderRange := mkPlaceholderRange {
  offset : Z;
  length_ : Z;
  is_embed : option (list bool);
}.

(** [MultiModalFeatureSpec]: the identifier and position of one item. *)
Record MultiModalFeatureSpec := mkMMFeature {
  identifier : option string;
  mm_position : PlaceholderRange;
}.

Record LoRARequest := mkLoRARequest {
  lora_name : string;
  lora_int_id : Z;
}.

Record RepetitionDetectionParams := mkRepetitionDetectionParams {
  max_pattern_size : Z;
  min_pattern_size : Z;
  min_count : Z;
}.

(** The structured-output constraints, as far as their presence goes. *)
Record StructuredOutputsParams := mkStructuredOutputsParams {
  so_constraints : list (option string);
}.

Record SamplingParams := mkSamplingParams {
  sp_max_tokens : option Z;
  min_tokens : Z;
  eos_token_id : option Z;
  stop_token_ids : option (list Z);
  repetition_detection : option RepetitionDetectionParams;
  structured_outputs : option StructuredOutputsParams;
  sp_skip_reading_prefix_cache : option bool;
  extra_args : option (gmap string (gmap string string));
}.

Record PoolingParams := mkPoolingParams {
  pp_skip_reading_prefix_cache : option bool;
}.

(** [RequestStatus], in the order of [enum.auto()]. *)
Inductive RequestStatus : Type :=
  | WAITING
  | WAITING_FOR_STRUCTURED_OUTPUT_GRAMMAR
  | WAITING_FOR_REMOTE_KVS
  | WAITING_FOR_STREAMING_REQ
  | RUNNING
  | PREEMPTED
  | FINISHED_STOPPED
  | FINISHED_LENGTH_CAPPED
  | FINISHED_ABORTED
  | FINISHED_IGNORED
  | FINISHED_ERROR
  | FINISHED_REPETITION.
#[export] Instance RequestStatus_eq_dec : EqDecision RequestStatus.
Proof. solve_decision. Defined.

(** The integer value of the enum member. *)
Definition status_value (s : RequestStatus) : Z :=
  match s with
  | WAITING => 1
  | WAITING_FOR_STRUCTURED_OUTPUT_GRAMMAR => 2
  | WAITING_FOR_REMOTE_KVS => 3
  | WAITING_FOR_STREAMING_REQ => 4
  | RUNNING => 5
  | PREEMPTED => 6
  | FINISHED_STOPPED => 7
  | FINISHED_LENGTH_CAPPED => 8
  | FINISHED_ABORTED => 9
  | FINISHED_IGNORED => 10
  | FINISHED_ERROR => 11
  | FINISHED_REPETITION => 12
  end.

(** [RequestStatus.is_finished]. *)
Definition status_is_finished (s : RequestStatus) : bool :=
  status_value PREEMPTED <? status_value s.

Inductive FinishReason : Type :=
  | STOP | LENGTH | ABORT | ERROR | REPETITION.
#[export] Instance FinishReason_eq_dec : EqDecision FinishReason.
Proof. solve_decision. Defined.

(** [_FINISHED_REASON_MAP.get]. *)
Definition get_finished_reason (s : RequestStatus) : option FinishReason :=
  match s with
  | FINISHED_STOPPED => Some STOP
  | FINISHED_LENGTH_CAPPED => Some LENGTH
  | FINISHED_ABORTED => Some ABORT
  | FINISHED_IGNORED => Some LENGTH
  | FINISHED_ERROR => Some ERROR
  | WAITING_FOR_STREAMING_REQ => Some STOP
  | FINISHED_REPETITION => Some REPETITION
  | _ => None
  end.

(** [stop_reason: int | str | None]. *)
Inductive StopReason : Type := StopToken (t : Z) | StopText (s : string).

Inductive EngineCoreEventType : Type := EvQueued | EvScheduled | EvPreempted.

(** [StreamingUpdate]. *)
Record StreamingUpdate := mkStreamingUpdate {
  su_mm_features : option (list MultiModalFeatureSpec);
  su_prompt_token_ids : option (list Z);
  su_max_tokens : Z;
  su_arrival_time : Z;
  su_sampling_params : option SamplingParams;
}.

(* ===================================================================== *)
(** ** The request object                                                 *)
(* ===================================================================== *)

Record Request := mkRequest {
  request_id : string;
  py_id : Z;
  client_index : Z;
  priority : Z;
  sampling_params : option SamplingParams;
  pooling_params : option PoolingParams;
  lora_request : option LoRARequest;
  structured_output_request : option StructuredOutputsParams;
  arrival_time : Z;
  status : RequestStatus;
  events : list (EngineCoreEventType * Z);
  stop_reason : option StopReason;
  kv_transfer_params : option (gmap string string);
  max_tokens : Z;
  prompt_token_ids : option (list Z);
  prompt_embeds : option (list bytes);
  _prompt_embeds_per_block_hashes : gmap (Z * Z) bytes;
  num_prompt_tokens : Z;
  _output_token_ids : list Z;
  _all_token_ids : list Z;
  num_output_placeholders : Z;
  discard_latest_async_tokens : bool;
  spec_token_ids : list Z;
  num_computed_tokens : Z;
  cache_salt : option string;
  mm_features : list MultiModalFeatureSpec;
  is_prefill_chunk : bool;
  num_nans_in_logits : Z;
  num_preemptions : Z;
  block_hashes : list bytes;
  skip_reading_prefix_cache : bool;
  resumable : bool;
  streaming_queue : option (list (option StreamingUpdate));
  abort_immediately : bool;
}.

#[export] Instance eta_Request : Eta Request := λ r,
  mkRequest (request_id r) (py_id r) (client_index r) (priority r) (sampling_params r)
    (pooling_params r) (lora_request r) (structured_output_request r) (arrival_time r)
    (status r) (events r) (stop_reason r) (kv_transfer_params r) (max_tokens r)
    (prompt_token_ids r) (prompt_embeds r) (_prompt_embeds_per_block_hashes r)
    (num_prompt_tokens r) (_output_token_ids r) (_all_token_ids r)
    (num_output_placeholders r) (discard_latest_async_tokens r) (spec_token_ids r)
    (num_computed_tokens r) (cache_salt r) (mm_features r) (is_prefill_chunk r)
    (num_nans_in_logits r) (num_preemptions r) (block_hashes r)
    (skip_reading_prefix_cache r) (resumable r) (streaming_queue r) (abort_immediately r).

#[export] Instance set_status : Setter status.
Proof. build_setter. Defined.
#[export] Instance set_events : Setter events.
Proof. build_setter. Defined.
#[export] Instance set_stop_reason : Setter stop_reason.
Proof. build_setter. Defined.
#[export] Instance set_prompt_embeds_hashes : Setter _prompt_embeds_per_block_hashes.
Proof. build_setter. Defined.
#[export] Instance set_output_token_ids : Setter _output_token_ids.
Proof. build_setter. Defined.
#[export] Instance set_all_token_ids : Setter _all_token_ids.
Proof. build_setter. Defined.
#[export] Instance set_num_output_placeholders : Setter num_output_placeholders.
Proof. build_setter. Defined.
#[export] Instance set_discard_latest : Setter discard_latest_async_tokens.
Proof. build_setter. Defined.
#[export] Instance set_spec_token_ids : Setter spec_token_ids.
Proof. build_setter. Defined.
#[export] Instance set_num_computed_tokens : Setter num_computed_tokens.
Proof. build_setter. Defined.
#[export] Instance set_is_prefill_chunk : Setter is_prefill_chunk.
Proof. build_setter. Defined.
#[export] Instance set_num_preemptions : Setter num_preemptions.
Proof. build_setter. Defined.
#[export] Instance set_block_hashes : Setter block_hashes.
Proof. build_setter. Defined.
#[export] Instance set_skip_reading : Setter skip_reading_prefix_cache.
Proof. build_setter. Defined.
#[export] Instance set_mm_features : Setter mm_features.
Proof. build_setter. Defined.
#[export] Instance set_prompt_token_ids : Setter prompt_token_ids.
Proof. build_setter. Defined.
#[export] Instance set_num_prompt_tokens : Setter num_prompt_tokens.
Proof. build_setter. Defined.
#[export] Instance set_arrival_time : Setter arrival_time.
Proof. build_setter. Defined.
#[export] Instance set_sampling_params : Setter sampling_params.
Proof. build_setter. Defined.
#[export] Instance set_streaming_queue : Setter streaming_queue.
Proof. build_setter. Defined.
#[export] Instance set_resumable : Setter resumable.
Proof. build_setter. Defined.
#[export] Instance set_num_nans : Setter num_nans_in_logits.
Proof. build_setter. Defined.

(** [num_tokens], [num_tokens_with_spec], [num_output_tokens]. *)
Definition num_tokens (r : Request) : Z := len (_all_token_ids r).
Definition num_tokens_with_spec (r : Request) : Z :=
  len (_all_token_ids r) + len (spec_token_ids r).
Definition num_output_tokens (r : Request) : Z := len (_output_token_ids r).
Definition num_encoder_inputs (r : Request) : Z := len (mm_features r).
Definition has_encoder_inputs (r : Request) : bool := 0 <? num_encoder_inputs r.
Definition use_structured_output (r : Request) : bool := is_some (structured_output_request r).
Definition is_finished (r : Request) : bool := status_is_finished (status r).
Definition request_finished_reason (r : Request) : option FinishReason :=
  get_finished_reason (status r).

(** [length_from_prompt_token_ids_or_embeds] ([vllm/utils/__init__.py]). *)
Definition length_from_prompt_token_ids_or_embeds
    (ids : option (list Z)) (embeds : option (list bytes)) : res Z :=
  match ids with
  | None =>
      match embeds with
      | None => Raise ValueError
      | Some e => Ok (len e)
      end
  | Some t =>
      match embeds with
      | Some e => if len e =? len t then Ok (len t) else Raise ValueError
      | None => Ok (len t)
      end
  end.

(** [StructuredOutputRequest.from_sampling_params]. *)
Definition from_sampling_params (sp : option SamplingParams) : option StructuredOutputsParams :=
  match sp with
  | None => None
  | Some p =>
      match structured_outputs p with
      | None => None
      | Some so => if forallb is_none (so_constraints so) then None else Some so
      end
  end.

Definition get_skip_reading_prefix_cache
    (sp : option SamplingParams) (pp : option PoolingParams) : bool :=
  match sp ≫= sp_skip_reading_prefix_cache with
  | Some b => b
  | None =>
      match pp ≫= pp_skip_reading_prefix_cache with
      | Some b => b
      | None => false
      end
  end.

(** The arguments of [Request.__init__]. *)
Record RequestArgs := mkRequestArgs {
  a_request_id : string;
  a_py_id : Z;
  a_prompt_token_ids : option (list Z);
  a_sampling_params : option SamplingParams;
  a_pooling_params : option PoolingParams;
  a_client_index : Z;
  a_arrival_time : Z;
  a_prompt_embeds : option (list bytes);
  a_mm_features : option (list MultiModalFeatureSpec);
  a_lora_request : option LoRARequest;
  a_cache_salt : option string;
  a_priority : Z;
  a_resumable : bool;
  a_abort_immediately : bool;
}.

(** A block hasher computes the hashes of the full blocks not hashed yet; it
    may fill the request's memo of prompt-embedding hashes. *)
Definition BlockHasher := M Request (list bytes).

(** [update_block_hashes]. *)
Definition update_block_hashes (hasher : option BlockHasher) : M Request unit :=
  match hasher with
  | Some h => new <- h ;; modify (λ r, r <| block_hashes ::= λ l, l ++ new |>)
  | None => ret tt
  end.

(** The status, [max_tokens] and [kv_transfer_params] set by [__init__]. *)
Definition init_max_tokens (a : RequestArgs) :
    res (Z * RequestStatus * option (gmap string string)) :=
  match a_pooling_params a with
  | Some _ => Ok (1, WAITING, None)
  | None =>
      match a_sampling_params a with
      | Some sp =>
          match sp_max_tokens sp with
          | None => Raise AssertionError
          | Some mt =>
              Ok (mt,
                  (if is_some (from_sampling_params (Some sp))
                   then WAITING_FOR_STRUCTURED_OUTPUT_GRAMMAR else WAITING),
                  extra_args sp ≫= λ e, e !! "kv_transfer_params"%string)
          end
      | None => Raise ValueError
      end
  end.

(** [Request.__init__]. *)
Definition new_Request (hasher : option BlockHasher) (a : RequestArgs) : res Request :=
  match init_max_tokens a with
  | Raise e => Raise e
  | Ok (mt, st, kvp) =>
      match length_from_prompt_token_ids_or_embeds (a_prompt_token_ids a) (a_prompt_embeds a) with
      | Raise e => Raise e
      | Ok npt =>
          let all := match a_prompt_token_ids a with
                     | Some t => t
                     | None => py_replicate npt 0
                     end in
          let r0 := mkRequest (a_request_id a) (a_py_id a) (a_client_index a) (a_priority a)
            (a_sampling_params a) (a_pooling_params a) (a_lora_request a)
            (from_sampling_params (a_sampling_params a)) (a_arrival_time a) st [] None kvp mt
            (a_prompt_token_ids a) (a_prompt_embeds a) ∅ npt [] all 0 false [] 0
            (a_cache_salt a) (default [] (a_mm_features a)) false 0 0 [] false
            (a_resumable a) None (a_abort_immediately a) in
          match update_block_hashes hasher r0 with
          | (Raise e, _) => Raise e
          | (Ok _, r1) =>
              Ok (r1 <| skip_reading_prefix_cache :=
                         get_skip_reading_prefix_cache (a_sampling_params a) (a_pooling_params a) |>)
          end
      end
  end.

(** [append_output_token_ids]. *)
Definition append_output_token_ids (hasher : option BlockHasher) (ts : list Z) : M Request unit :=
  modify (λ r, r <| _output_token_ids ::= λ l, l ++ ts |> <| _all_token_ids ::= λ l, l ++ ts |>) ;;
  update_block_hashes hasher.

(** [PlaceholderRange.embeds_cumsum], [get_num_embeds] and
    [get_embeds_indices_in_range]. *)
Fixpoint cumsum (acc : Z) (l : list bool) : list Z :=
  match l with
  | [] => []
  | b :: l' => let acc' := acc + (if b then 1 else 0) in acc' :: cumsum acc' l'
  end.
Definition embeds_cumsum (p : PlaceholderRange) : option (list Z) := cumsum 0 <$> is_embed p.
Definition get_num_embeds (p : PlaceholderRange) : Z :=
  match embeds_cumsum p with
  | None => length_ p
  | Some l => match py_nth l (-1) with Some n => n | None => 0 end
  end.
Definition get_embeds_indices_in_range (p : PlaceholderRange) (start_idx end_idx : Z) : res (Z * Z) :=
  match embeds_cumsum p with
  | None => Ok (start_idx, end_idx)
  | Some l =>
      let at_ i := if 0 <? i then py_nth l (i - 1) else Some 0 in
      match at_ start_idx, at_ end_idx with
      | Some s, Some e => Ok (s, e)
      | _, _ => Raise IndexError
      end
  end.

(** [Request.get_num_encoder_embeds]. *)
Definition get_num_encoder_embeds (r : Request) (input_id : Z) : res Z :=
  if input_id <? len (mm_features r) then
    match py_nth (mm_features r) input_id with
    | Some f => Ok (get_num_embeds (mm_position f))
    | None => Raise IndexError
    end
  else Raise AssertionError.

(** [record_event] and [take_events]. *)
Definition record_event (e : EngineCoreEventType) (timestamp : Z) : M Request unit :=
  modify (λ r, r <| events ::= λ l, l ++ [(e, timestamp)] |>).
Definition take_events : M Request (option (list (EngineCoreEventType * Z))) :=
  r <- get ;;
  match events r with
  | [] => ret None
  | evs => put (r <| events := [] |>) ;; ret (Some evs)
  end.

(** [StreamingUpdate.from_request]. *)
Definition from_request (r : Request) : option StreamingUpdate :=
  if resumable r then
    Some (mkStreamingUpdate (Some (mm_features r)) (prompt_token_ids r) (max_tokens r)
            (arrival_time r) (sampling_params r))
  else None.

(** [Request.__lt__]: priority, arrival time, request id, identity. *)
Definition request_lt (a b : Request) : bool :=
  if negb (priority a =? priority b) then priority a <? priority b
  else if negb (arrival_time a =? arrival_time b) then arrival_time a <? arrival_time b
  else if bool_decide (request_id a ≠ request_id b)
  then match String.compare (request_id a) (request_id b) with Lt => true | _ => false end
  else py_id a <? py_id b.
