(* ===== verification/BlockHash.v ===== *)
(** * Block hashing ([src/vllm/v1/core/kv_cache_utils.py])

    Keys of the prefix cache: the packing of a block hash with its group id,
    the extra keys of a block (LoRA name, multi-modal items, cache salt, prompt
    embeddings), the chained hash of a request's full blocks, computed
    incrementally as tokens arrive, and the view of the hashes at a coarser
    block size.  The hash functions ([sha256], the caching hash function) and
    the seed [NONE_HASH] are parameters.  For the requests that the engine makes
    and grows ([made_by]) equal hashes mean equal prefixes. *)
From S2P Require Import Prelude Request.
Local Open Scope Z_scope.

(* ===================================================================== *)
(** ** Packing of hashes and group ids                                    *)
(* ===================================================================== *)

(** [int.to_bytes(n, "big")] and [int.from_bytes(_, "big")], unsigned. *)
Fixpoint to_bytes_be (n : nat) (x : Z) : bytes :=
  match n with
  | O => []
  | S n' => to_bytes_be n' (x / 256) ++ [x mod 256]
  end.
Definition from_bytes_be (b : bytes) : Z := foldl (λ acc x, acc * 256 + x) 0 b.

Definition make_block_hash_with_group_id (block_hash : bytes) (group_id : Z) : res bytes :=
  if (0 <=? group_id) && (group_id <? 2 ^ 32)
  then Ok (block_hash ++ to_bytes_be 4 group_id)
  else Raise OverflowError.

(** [key[:-4]] and [key[-4:]]. *)
Definition get_block_hash (key : bytes) : bytes := slice_to key (-4).
Definition get_group_id (key : bytes) : Z := from_bytes_be (slice_from key (-4)).

(** [ExternalBlockHash: bytes | int]. *)
Inductive ExternalBlockHash : Type := EBytes (b : bytes) | EInt (n : Z).

(** [use_int] is [envs.VLLM_KV_EVENTS_USE_INT_BLOCK_HASHES]. *)
Definition maybe_convert_block_hash (use_int : bool) (hash_bytes : bytes) : ExternalBlockHash :=
  if negb use_int then EBytes hash_bytes
  else EInt (Z.land (from_bytes_be hash_bytes) (Z.shiftl 1 64 - 1)).

(* ===================================================================== *)
(** ** Extra keys of a block                                              *)
(* ===================================================================== *)

(** One component of the [extra_keys] tuple: a string, the pair
    [(identifier, offset - start)] of a multi-modal item, or a digest. *)
Inductive extra_key : Type :=
  | KStr (s : string)
  | KMM (id : string) (off : Z)
  | KBytes (b : bytes).
#[export] Instance extra_key_eq_dec : EqDecision extra_key.
Proof. solve_decision. Defined.

Definition need_extra_keys (r : Request) : bool :=
  negb (bool_decide (len (mm_features r) = 0)) || is_some (lora_request r) || is_some (cache_salt r).

(** The [while] loop of [_gen_mm_extra_hash_keys] over the features from
    index [curr_mm_idx] on. *)
Fixpoint mm_loop (fs : list MultiModalFeatureSpec) (start_token_idx end_token_idx curr_mm_idx : Z) :
    res (list extra_key * Z) :=
  match fs with
  | [] => Ok ([], curr_mm_idx)
  | f :: fs' =>
      match identifier f with
      | None => Raise AssertionError
      | Some id =>
          let off := offset (mm_position f) in
          let ln := length_ (mm_position f) in
          if off <? end_token_idx then
            if off + ln <=? start_token_idx then
              mm_loop fs' start_token_idx end_token_idx (curr_mm_idx + 1)
            else
              let key := KMM id (off - start_token_idx) in
              if off + ln <=? end_token_idx then
                match mm_loop fs' start_token_idx end_token_idx (curr_mm_idx + 1) with
                | Ok (ks, i) => Ok (key :: ks, i)
                | Raise e => Raise e
                end
              else Ok ([key], curr_mm_idx)
          else Ok ([], curr_mm_idx)
      end
  end.

Definition _gen_mm_extra_hash_keys (mm : list MultiModalFeatureSpec)
    (start_token_idx end_token_idx start_mm_idx : Z) : res (list extra_key * Z) :=
  match last mm with
  | None => Ok ([], start_mm_idx)
  | Some l =>
      let last_pos := mm_position l in
      if offset last_pos + length_ last_pos <=? start_token_idx then Ok ([], start_mm_idx)
      else if start_mm_idx <? 0 then
        if - start_mm_idx <=? len mm then
          let i := len mm + start_mm_idx in
          mm_loop (drop (Z.to_nat i) mm) start_token_idx end_token_idx i
        else Raise AssertionError
      else mm_loop (drop (Z.to_nat start_mm_idx) mm) start_token_idx end_token_idx start_mm_idx
  end.

Definition _gen_lora_extra_hash_keys (r : Request) : list extra_key :=
  match lora_request r with
  | None => []
  | Some l => [KStr (lora_name l)]
  end.

Section hashing.
(** [hashlib.sha256(_).digest()]. *)
Variable sha256 : bytes → bytes.
(** The caching hash function applied to [(parent, tokens, extra_keys)]. *)
Variable hash_function : bytes * list Z * option (list extra_key) → bytes.
(** The hash seed of the first block. *)
Variable NONE_HASH : bytes.

(** The memo is keyed by the token range; rows of the tensor are byte strings
    and [tensor_data] lays them out one after the other. *)
Definition _gen_prompt_embeds_extra_hash_keys (start_token_idx end_token_idx : Z) :
    M Request (list extra_key) :=
  r <- get ;;
  match prompt_embeds r with
  | None => ret []
  | Some embeds =>
      let block_range := (start_token_idx, end_token_idx) in
      match _prompt_embeds_per_block_hashes r !! block_range with
      | Some h => ret [KBytes h]
      | None =>
          let h := sha256 (concat (slice embeds start_token_idx end_token_idx)) in
          put (r <| _prompt_embeds_per_block_hashes ::= insert block_range h |>) ;;
          ret [KBytes h]
      end
  end.

(** [[request.cache_salt] if (start_token_idx == 0 and request.cache_salt)]:
    the empty salt is falsy. *)
Definition cache_salt_keys (r : Request) (start_token_idx : Z) : list extra_key :=
  match cache_salt r with
  | Some s => if (start_token_idx =? 0) && negb (bool_decide (s = ""%string)) then [KStr s] else []
  | None => []
  end.

Definition generate_block_hash_extra_keys (start_token_idx end_token_idx start_mm_idx : Z) :
    M Request (option (list extra_key) * Z) :=
  r <- get ;;
  mm <- of_res (_gen_mm_extra_hash_keys (mm_features r) start_token_idx end_token_idx start_mm_idx) ;;
  let lora_extra_keys := _gen_lora_extra_hash_keys r in
  let salt := cache_salt_keys r start_token_idx in
  prompt_embeds_keys <- _gen_prompt_embeds_extra_hash_keys start_token_idx end_token_idx ;;
  let extra_keys := lora_extra_keys ++ mm.1 ++ salt ++ prompt_embeds_keys in
  ret (if bool_decide (extra_keys = []) then None else Some extra_keys, mm.2).

(** An absent or empty parent hash is replaced by the seed. *)
Definition hash_block_tokens (parent_block_hash : option bytes) (curr_block_token_ids : list Z)
    (extra_keys : option (list extra_key)) : bytes :=
  let parent := match parent_block_hash with
                | None => NONE_HASH
                | Some p => if bool_decide (p = []) then NONE_HASH else p
                end in
  hash_function (parent, curr_block_token_ids, extra_keys).

(** The [while True] loop of [request_block_hasher]. *)
Fixpoint hasher_loop (fuel : nat) (block_size num_tokens start_token_idx curr_mm_idx : Z)
    (prev : option bytes) : M Request (list bytes) :=
  match fuel with
  | O => raise OutOfFuel
  | S fuel' =>
      let end_token_idx := start_token_idx + block_size in
      if num_tokens <? end_token_idx then ret []
      else
        ek <- generate_block_hash_extra_keys start_token_idx end_token_idx curr_mm_idx ;;
        r <- get ;;
        let block_tokens := slice (_all_token_ids r) start_token_idx end_token_idx in
        let block_hash := hash_block_tokens prev block_tokens ek.1 in
        rest <- hasher_loop fuel' block_size num_tokens (start_token_idx + block_size) ek.2
                  (Some block_hash) ;;
        ret (block_hash :: rest)
  end.

Definition request_block_hasher (block_size : Z) : M Request (list bytes) :=
  r <- get ;;
  let start_token_idx := len (block_hashes r) * block_size in
  if num_tokens r <? start_token_idx + block_size then ret []
  else
    let curr_mm_idx := if 0 <? start_token_idx then -1 else 0 in
    hasher_loop (S (Z.to_nat (num_tokens r))) block_size (num_tokens r) start_token_idx
      curr_mm_idx (last (block_hashes r)).

(** [init_none_hash]: [urandom] is the value [os.urandom(32)] returns,
    [seed_hash] the hash of the [PYTHONHASHSEED] string. *)
Definition init_none_hash (hash_seed : option string) (urandom : bytes)
    (seed_hash : string → bytes) : bytes :=
  match hash_seed with
  | None => urandom
  | Some s => seed_hash s
  end.
End hashing.

(* ===================================================================== *)
(** ** Hashes at a coarser granularity                                    *)
(* ===================================================================== *)

(** [BlockHashListWithBlockSize]. *)
Record BlockHashListWithBlockSize := mkBHL {
  bhl_block_hashes : list bytes;
  scale_factor : Z;
}.

Definition BlockHashListWithBlockSize_init (bh : list bytes) (hash_block_size target_block_size : Z) :
    res BlockHashListWithBlockSize :=
  if target_block_size mod hash_block_size =? 0
  then Ok (mkBHL bh (target_block_size / hash_block_size))
  else Raise AssertionError.

Definition bhl_len (b : BlockHashListWithBlockSize) : Z :=
  len (bhl_block_hashes b) / scale_factor b.

(** [_get_value_at]. *)
Definition _get_value_at (b : BlockHashListWithBlockSize) (idx : Z) : bytes :=
  let base := idx * scale_factor b in
  concat (slice (bhl_block_hashes b) base (base + scale_factor b)).

(** [__iter__], and [__getitem__] on a slice [start:]. *)
Definition bhl_iter (b : BlockHashListWithBlockSize) : list bytes :=
  _get_value_at b <$> seqZ 0 (bhl_len b).
Definition bhl_slice_from (b : BlockHashListWithBlockSize) (start : Z) : list bytes :=
  let s := Z.of_nat (slice_bound (bhl_len b) start) in
  _get_value_at b <$> seqZ s (bhl_len b - s).

(** [BlockHashList = list[BlockHash] | BlockHashListWithBlockSize], indexed,
    sliced from [start] on, and [itertools.islice]d. *)
Inductive BlockHashList : Type :=
  | PlainHashes (l : list bytes)
  | CoarseHashes (b : BlockHashListWithBlockSize).
Definition bh_at (h : BlockHashList) (i : Z) : res bytes :=
  match h with
  | PlainHashes l => match py_nth l i with Some x => Ok x | None => Raise IndexError end
  | CoarseHashes b => Ok (_get_value_at b i)
  end.
Definition bh_slice_from (h : BlockHashList) (start : Z) : list bytes :=
  match h with
  | PlainHashes l => slice_from l start
  | CoarseHashes b => bhl_slice_from b start
  end.
Definition bh_list (h : BlockHashList) : list bytes :=
  match h with
  | PlainHashes l => l
  | CoarseHashes b => bhl_iter b
  end.
Definition bh_islice (h : BlockHashList) (n : Z) : res (list bytes) :=
  if n <? 0 then Raise ValueError else Ok (take (Z.to_nat n) (bh_list h)).

(* ===================================================================== *)
(** ** Packing is a bijection onto its image                              *)
(* ===================================================================== *)

Lemma length_to_bytes_be n x : length (to_bytes_be n x) = n.
Proof. revert x. induction n as [|n IH]; intros x; simpl; [done|]. rewrite length_app, IH. simpl. lia. Qed.

Lemma from_to_bytes_be n x : 0 ≤ x < 256 ^ Z.of_nat n → from_bytes_be (to_bytes_be n x) = x.
Proof.
  revert x. induction n as [|n IH]; intros x Hx; simpl.
  - unfold from_bytes_be. simpl. rewrite Z.pow_0_r in Hx. lia.
  - unfold from_bytes_be in *. rewrite foldl_app. simpl. rewrite IH.
    + pose proof (Z.div_mod x 256 ltac:(lia)). lia.
    + rewrite Nat2Z.inj_succ, Z.pow_succ_r in Hx by lia.
      split; [apply Z.div_pos; lia|apply Z.div_lt_upper_bound; lia].
Qed.

Lemma slice_minus_4 (h t : bytes) :
  length t = 4%nat → slice_to (h ++ t) (-4) = h ∧ slice_from (h ++ t) (-4) = t.
Proof.
  intros Ht. unfold slice_to, slice_from, slice_bound. rewrite len_app. unfold len. rewrite Ht.
  change (-4 <? 0) with true. cbv iota.
  replace (Z.to_nat (Z.max 0 (-4 + (Z.of_nat (length h) + Z.of_nat 4)))) with (length h) by lia.
  split; [apply take_app_length|apply drop_app_length].
Qed.

Lemma make_block_hash_unpack h g k :
  make_block_hash_with_group_id h g = Ok k → get_block_hash k = h ∧ get_group_id k = g.
Proof.
  unfold make_block_hash_with_group_id. case_match eqn:E; intros Hk; [|done]. bool_to_prop.
  assert (k = h ++ to_bytes_be 4 g) as -> by congruence.
  destruct (slice_minus_4 h (to_bytes_be 4 g) (length_to_bytes_be 4 g)) as [H1 H2].
  unfold get_block_hash, get_group_id. rewrite H1, H2. split; [done|].
  apply from_to_bytes_be. lia.
Qed.

Lemma make_block_hash_ok h g :
  0 ≤ g < 2 ^ 32 → ∃ k, make_block_hash_with_group_id h g = Ok k.
Proof.
  intros Hg. unfold make_block_hash_with_group_id.
  rewrite (proj2 (Z.leb_le _ _)), (proj2 (Z.ltb_lt _ _)) by lia. eauto.
Qed.

(* ===================================================================== *)
(** ** Reference for the multi-modal keys                                 *)
(* ===================================================================== *)

Definition mm_end (f : MultiModalFeatureSpec) : Z :=
  offset (mm_position f) + length_ (mm_position f).

(** Items have identifiers and are sorted by position without overlap. *)
Fixpoint mm_wf (fs : list MultiModalFeatureSpec) : Prop :=
  match fs with
  | [] => True
  | f :: fs' =>
      is_Some (identifier f) ∧ 0 ≤ length_ (mm_position f) ∧
      Forall (λ g, mm_end f ≤ offset (mm_position g)) fs' ∧ mm_wf fs'
  end.

(** The key of an item in the block [[s, e)] if the item reaches into it. *)
Definition ref_mm_key (s e : Z) (f : MultiModalFeatureSpec) : option extra_key :=
  if (offset (mm_position f) <? e) && (s <? mm_end f)
  then id ← identifier f; Some (KMM id (offset (mm_position f) - s)) else None.
Definition ref_mm_keys (fs : list MultiModalFeatureSpec) (s e : Z) : list extra_key :=
  omap (ref_mm_key s e) fs.

(** Every item before the index has ended by [s]. *)
Definition mm_done (fs : list MultiModalFeatureSpec) (s : Z) : Prop := Forall (λ f, mm_end f ≤ s) fs.

(** [i] is an index from which the scan of a block starting at [s] may start:
    every item before it has ended; [-1] is the last item. *)
Definition mm_idx_ok (mm : list MultiModalFeatureSpec) (i s : Z) : Prop :=
  -1 ≤ i ∧ mm_done (take (Z.to_nat (if i <? 0 then len mm + i else i)) mm) s.

Lemma ref_mm_keys_app fs gs s e :
  ref_mm_keys (fs ++ gs) s e = ref_mm_keys fs s e ++ ref_mm_keys gs s e.
Proof. apply omap_app. Qed.

Lemma ref_mm_keys_beyond fs s e :
  Forall (λ g, e ≤ offset (mm_position g)) fs → ref_mm_keys fs s e = [].
Proof.
  induction 1 as [|f fs Hf _ IH]; [done|]. unfold ref_mm_keys in *. simpl.
  unfold ref_mm_key at 1. by rewrite (proj2 (Z.ltb_ge _ _)) by lia.
Qed.

Lemma ref_mm_keys_done fs s e : mm_done fs s → ref_mm_keys fs s e = [].
Proof.
  induction 1 as [|f fs Hf _ IH]; [done|]. unfold ref_mm_keys in *. simpl.
  unfold ref_mm_key at 1. rewrite (proj2 (Z.ltb_ge s _)) by lia. by rewrite andb_false_r.
Qed.

Lemma ref_mm_keys_cons f fs s e id :
  identifier f = Some id →
  ref_mm_keys (f :: fs) s e =
    if (offset (mm_position f) <? e) && (s <? mm_end f)
    then KMM id (offset (mm_position f) - s) :: ref_mm_keys fs s e else ref_mm_keys fs s e.
Proof.
  intros Hid. unfold ref_mm_keys at 1. simpl. unfold ref_mm_key at 1. rewrite Hid.
  by case_bool.
Qed.

Lemma mm_loop_spec fs s e i :
  mm_wf fs → s ≤ e →
  ∃ n, mm_loop fs s e i = Ok (ref_mm_keys fs s e, i + Z.of_nat n) ∧ mm_done (take n fs) e.
Proof.
  intros Hwf Hse. revert i Hwf. induction fs as [|f fs IH]; intros i Hwf.
  { exists 0%nat. rewrite Z.add_0_r. split; [done|constructor]. }
  destruct Hwf as ([id Hid] & Hl & Hso & Hwf). rewrite (ref_mm_keys_cons f fs s e id Hid). simpl. rewrite Hid.
  change (offset (mm_position f) + length_ (mm_position f)) with (mm_end f).
  assert (Hrest : e ≤ mm_end f → ref_mm_keys fs s e = []).
  { intros. apply ref_mm_keys_beyond. eapply Forall_impl; [done|]. simpl. lia. }
  destruct (Z.ltb_spec (offset (mm_position f)) e) as [Ho|Ho]; simpl.
  - destruct (Z.leb_spec (mm_end f) s) as [Hs|Hs].
    + rewrite (proj2 (Z.ltb_ge s (mm_end f))) by lia. destruct (IH (i + 1) Hwf) as (n & -> & Hn).
      exists (S n). split; [do 2 f_equal; lia|]. constructor; [lia|done].
    + rewrite (proj2 (Z.ltb_lt s (mm_end f))) by lia. destruct (Z.leb_spec (mm_end f) e) as [He|He].
      * destruct (IH (i + 1) Hwf) as (n & -> & Hn).
        exists (S n). split; [do 2 f_equal; lia|]. constructor; [lia|done].
      * exists 0%nat. rewrite Hrest by lia. split; [do 2 f_equal; lia|constructor].
  - exists 0%nat. rewrite Hrest by (unfold mm_end; lia). split; [do 2 f_equal; lia|constructor].
Qed.

Lemma mm_done_mono fs s e : s ≤ e → mm_done fs s → mm_done fs e.
Proof. intros Hse H. eapply Forall_impl; [exact H|]. simpl. lia. Qed.

Lemma mm_wf_drop n fs : mm_wf fs → mm_wf (drop n fs).
Proof.
  revert n. induction fs as [|f fs IH]; intros [|n] H; simpl in *; [done..|]. apply IH. naive_solver.
Qed.

Lemma mm_wf_last_done fs l s :
  mm_wf fs → last fs = Some l → mm_end l ≤ s → mm_done fs s.
Proof.
  induction fs as [|f fs IH]; intros Hwf Hl Hs; [done|].
  destruct Hwf as (_ & _ & Hso & Hwf). rewrite last_cons in Hl. destruct (last fs) as [l'|] eqn:E.
  - simplify_eq. specialize (IH Hwf eq_refl Hs). constructor; [|done].
    apply last_Some_elem_of in E. rewrite Forall_forall in Hso. specialize (Hso _ E).
    clear -Hwf E Hso Hs. assert (0 ≤ length_ (mm_position l)).
    { clear Hso. induction fs as [|g fs IH]; [by apply not_elem_of_nil in E|].
      destruct Hwf as (_ & ? & _ & ?). apply elem_of_cons in E as [->|]; auto. }
    unfold mm_end in *. lia.
  - simplify_eq. apply last_None in E as ->. by repeat constructor.
Qed.

Lemma gen_mm_spec mm s e i :
  mm_wf mm → s ≤ e → mm_idx_ok mm i s →
  ∃ j, _gen_mm_extra_hash_keys mm s e i = Ok (ref_mm_keys mm s e, j) ∧ mm_idx_ok mm j e.
Proof.
  intros Hwf Hse [Hi Hdone]. unfold _gen_mm_extra_hash_keys.
  assert (Hok : mm_idx_ok mm i e) by (split; [done|by eapply mm_done_mono]).
  destruct (last mm) as [l|] eqn:El.
  2:{ apply last_None in El as ->. by exists i. }
  fold (mm_end l). destruct (Z.leb_spec (mm_end l) s) as [Hl|Hl].
  { exists i. rewrite ref_mm_keys_done by (by eapply mm_wf_last_done). done. }
  assert (Hlen : 0 < len mm) by (destruct mm; [done|rewrite len_cons; pose proof (len_nonneg mm); lia]).
  set (i' := if i <? 0 then len mm + i else i) in *.
  assert (Hi' : 0 ≤ i') by (unfold i'; case_bool; bool_to_prop; lia).
  destruct (mm_loop_spec (drop (Z.to_nat i') mm) s e i') as (n & Hrun' & Hn);
    [by apply mm_wf_drop|done|].
  exists (i' + Z.of_nat n).
  assert (Href : ref_mm_keys (drop (Z.to_nat i') mm) s e = ref_mm_keys mm s e).
  { rewrite <-(take_drop (Z.to_nat i') mm) at 2.
    by rewrite ref_mm_keys_app, (ref_mm_keys_done (take (Z.to_nat i') mm)). }
  rewrite Href in Hrun'. split.
  - destruct (i <? 0) eqn:E; bool_to_prop; [|done].
    rewrite (proj2 (Z.leb_le _ _)) by lia. done.
  - split; [lia|]. rewrite (proj2 (Z.ltb_ge _ _)) by lia.
    replace (Z.to_nat (i' + Z.of_nat n)) with (Z.to_nat i' + n)%nat by lia.
    rewrite <-take_take_drop. apply Forall_app. split; [by eapply mm_done_mono|done].
Qed.

(* ===================================================================== *)
(** ** Reference for the hashes of a request                              *)
(* ===================================================================== *)

Section reference.
Variable sha256 : bytes → bytes.
Variable hash_function : bytes * list Z * option (list extra_key) → bytes.
Variable NONE_HASH : bytes.
Variable bs : Z.
Hypothesis bs_pos : 0 < bs.

Definition ref_embeds_keys (r : Request) (s e : Z) : list extra_key :=
  match prompt_embeds r with
  | None => []
  | Some em => [KBytes (sha256 (concat (slice em s e)))]
  end.

(** The extra keys of the block [[s, e)], stated from the request's contents. *)
Definition ref_extra (r : Request) (s e : Z) : option (list extra_key) :=
  let ks := _gen_lora_extra_hash_keys r ++ ref_mm_keys (mm_features r) s e
            ++ cache_salt_keys r s ++ ref_embeds_keys r s e in
  if bool_decide (ks = []) then None else Some ks.

(** The chained hashes of blocks [k], ..., [k + n - 1] after [prev]. *)
Fixpoint ref_hashes (r : Request) (k n : nat) (prev : option bytes) : list bytes :=
  match n with
  | O => []
  | S n' =>
      let s := Z.of_nat k * bs in
      let h := hash_block_tokens hash_function NONE_HASH prev
                 (slice (_all_token_ids r) s (s + bs)) (ref_extra r s (s + bs)) in
      h :: ref_hashes r (S k) n' (Some h)
  end.

(** The memo of prompt-embedding hashes holds only true hashes. *)
Definition memo_ok (r : Request) : Prop :=
  ∀ s e h, _prompt_embeds_per_block_hashes r !! (s, e) = Some h →
    ∃ em, prompt_embeds r = Some em ∧ h = sha256 (concat (slice em s e)).

Definition with_memo (r : Request) (m : gmap (Z * Z) bytes) : Request :=
  r <| _prompt_embeds_per_block_hashes := m |>.

Lemma with_memo_same r : with_memo r (_prompt_embeds_per_block_hashes r) = r.
Proof. by destruct r. Qed.
Lemma with_memo_twice r m m' : with_memo (with_memo r m) m' = with_memo r m'.
Proof. done. Qed.
Lemma ref_hashes_ext r r' k n prev :
  _all_token_ids r' = _all_token_ids r → (∀ s e, ref_extra r' s e = ref_extra r s e) →
  ref_hashes r' k n prev = ref_hashes r k n prev.
Proof.
  intros Ht He. revert k prev. induction n as [|n IH]; intros k prev; simpl; [done|].
  by rewrite Ht, He, IH.
Qed.

Lemma gen_embeds_spec r s e :
  memo_ok r →
  ∃ m, _gen_prompt_embeds_extra_hash_keys sha256 s e r = (Ok (ref_embeds_keys r s e), with_memo r m) ∧
    memo_ok (with_memo r m).
Proof.
  intros Hm. unfold _gen_prompt_embeds_extra_hash_keys, ref_embeds_keys. rewrite run_get.
  destruct (prompt_embeds r) as [em|] eqn:Ee.
  2:{ exists (_prompt_embeds_per_block_hashes r). by rewrite with_memo_same. }
  destruct (_prompt_embeds_per_block_hashes r !! (s, e)) as [h|] eqn:El.
  - exists (_prompt_embeds_per_block_hashes r). rewrite with_memo_same. split; [|done].
    destruct (Hm _ _ _ El) as (em' & ? & ->). by simplify_eq.
  - eexists. split; [reflexivity|]. intros s' e' h. simpl.
    rewrite lookup_insert. case_decide; [|apply Hm]. intros ?. simplify_eq. eauto.
Qed.

Lemma generate_extra_spec r s e i :
  mm_wf (mm_features r) → memo_ok r → s ≤ e → mm_idx_ok (mm_features r) i s →
  ∃ j m, generate_block_hash_extra_keys sha256 s e i r = (Ok (ref_extra r s e, j), with_memo r m) ∧
    memo_ok (with_memo r m) ∧ mm_idx_ok (mm_features r) j e.
Proof.
  intros Hwf Hm Hse Hi. unfold generate_block_hash_extra_keys. rewrite run_get, run_of_res.
  destruct (gen_mm_spec _ s e i Hwf Hse Hi) as (j & -> & Hj).
  destruct (gen_embeds_spec r s e Hm) as (m & He & Hm').
  rewrite (bind_ok _ _ _ _ _ He). exists j, m. done.
Qed.

Lemma hasher_loop_spec n fuel r k i prev :
  mm_wf (mm_features r) → memo_ok r → mm_idx_ok (mm_features r) i (Z.of_nat k * bs) →
  (Z.of_nat k + Z.of_nat n) * bs ≤ num_tokens r < (Z.of_nat k + Z.of_nat n + 1) * bs →
  (n < fuel)%nat →
  ∃ m, hasher_loop sha256 hash_function NONE_HASH fuel bs (num_tokens r) (Z.of_nat k * bs) i prev r
         = (Ok (ref_hashes r k n prev), with_memo r m) ∧ memo_ok (with_memo r m).
Proof.
  intros Hwf. revert fuel r Hwf k i prev.
  induction n as [|n IH]; intros fuel r Hwf k i prev Hm Hi Hnt Hf;
    destruct fuel as [|fuel]; [lia| |lia|]; simpl hasher_loop.
  - rewrite (proj2 (Z.ltb_lt _ _)) by lia.
    exists (_prompt_embeds_per_block_hashes r). by rewrite with_memo_same.
  - rewrite (proj2 (Z.ltb_ge _ _)) by nia.
    destruct (generate_extra_spec r (Z.of_nat k * bs) (Z.of_nat k * bs + bs) i)
      as (j & m & He & Hm' & Hj); [done..|lia|done|].
    rewrite (bind_ok _ _ _ _ _ He), run_get. simpl.
    set (h := hash_block_tokens _ _ _ _ _).
    destruct (IH fuel (with_memo r m) Hwf (S k) j (Some h)) as (m' & He' & Hm'');
      [done| |unfold num_tokens in *; simpl; nia|lia|].
    { replace (Z.of_nat (S k) * bs) with (Z.of_nat k * bs + bs) by lia. done. }
    replace (Z.of_nat k * bs + bs) with (Z.of_nat (S k) * bs) by lia.
    rewrite (bind_ok _ _ _ _ _ He'). exists m'. rewrite with_memo_twice in *.
    split; [|done]. rewrite (ref_hashes_ext r (with_memo r m)) by done. done.
Qed.

(** The state every request is kept in: the hashes of all full blocks. *)
Definition hashed (r : Request) (k : nat) : Prop :=
  block_hashes r = ref_hashes r 0 k None ∧ Z.of_nat k * bs ≤ num_tokens r ∧ memo_ok r.

Definition full_blocks (r : Request) : nat := Z.to_nat (num_tokens r / bs).

Lemma length_ref_hashes r k n prev : length (ref_hashes r k n prev) = n.
Proof. revert k prev. induction n as [|n IH]; intros k prev; simpl; [done|]. by rewrite IH. Qed.

Lemma ref_hashes_app r k n m prev :
  ref_hashes r k (n + m) prev =
  ref_hashes r k n prev ++
  ref_hashes r (k + n) m (match last (ref_hashes r k n prev) with Some h => Some h | None => prev end).
Proof.
  revert k prev. induction n as [|n IH]; intros k prev; simpl.
  - by rewrite Nat.add_0_r.
  - rewrite IH. f_equal. f_equal. rewrite last_cons.
    replace (S k + n)%nat with (k + S n)%nat by lia.
    by destruct (last (ref_hashes r (S k) n _)).
Qed.

Lemma request_block_hasher_spec r k :
  mm_wf (mm_features r) → hashed r k →
  (k = 0%nat ∨ mm_idx_ok (mm_features r) (-1) (Z.of_nat k * bs)) →
  ∃ m, update_block_hashes (Some (request_block_hasher sha256 hash_function NONE_HASH bs)) r
         = (Ok tt, with_memo r m <| block_hashes := ref_hashes r 0 (full_blocks r) None |>) ∧
       memo_ok (with_memo r m).
Proof.
  intros Hwf (Hbh & Hk & Hm) Hidx. unfold update_block_hashes, request_block_hasher.
  assert (Hlen : len (block_hashes r) = Z.of_nat k) by (unfold len; by rewrite Hbh, length_ref_hashes).
  set (n := (full_blocks r - k)%nat).
  assert (Hdiv : bs * (num_tokens r / bs) ≤ num_tokens r < bs * (num_tokens r / bs) + bs).
  { pose proof (Z.div_mod (num_tokens r) bs ltac:(lia)).
    pose proof (Z.mod_pos_bound (num_tokens r) bs ltac:(lia)). lia. }
  assert (Hge : Z.of_nat k ≤ num_tokens r / bs) by (apply Z.div_le_lower_bound; lia).
  assert (Hn : full_blocks r = (k + n)%nat) by (unfold n, full_blocks; lia).
  assert (Hnt : (Z.of_nat k + Z.of_nat n) * bs ≤ num_tokens r < (Z.of_nat k + Z.of_nat n + 1) * bs).
  { assert (Z.of_nat k + Z.of_nat n = num_tokens r / bs) as -> by (unfold full_blocks in Hn; lia). lia. }
  rewrite bind_assoc, run_get, Hlen.
  assert (Hfin : block_hashes r ++ ref_hashes r k n (last (block_hashes r))
                 = ref_hashes r 0 (full_blocks r) None).
  { rewrite Hn, ref_hashes_app, <-Hbh. by destruct (last (block_hashes r)). }
  case_bool; bool_to_prop.
  - assert (n = 0%nat) as Hn0 by nia.
    exists (_prompt_embeds_per_block_hashes r). rewrite with_memo_same. split; [|done].
    rewrite run_ret. unfold modify. rewrite <-Hfin, Hn0. simpl. by destruct r.
  - destruct (hasher_loop_spec n (S (Z.to_nat (num_tokens r))) r k
       (if 0 <? Z.of_nat k * bs then -1 else 0) (last (block_hashes r))) as (m & He & Hm');
      [done|done| |done|nia|].
    { destruct Hidx as [->|Hidx]; [split; [done|constructor]|].
      case_bool; [done|]. split; [lia|constructor]. }
    exists m. split; [|done]. rewrite (bind_ok _ _ _ _ _ He). unfold modify. f_equal.
    rewrite <-Hfin. done.
Qed.
End reference.

(* ===================================================================== *)
(** ** What the hash of a block says about the request                    *)
(* ===================================================================== *)

Section soundness.
Variable sha256 : bytes → bytes.
Variable hash_function : bytes * list Z * option (list extra_key) → bytes.
Variable NONE_HASH : bytes.
Variable bs : Z.
Hypothesis bs_pos : 0 < bs.

Abbreviation hasher := (request_block_hasher sha256 hash_function NONE_HASH bs).
Abbreviation ref_hashes' := (ref_hashes sha256 hash_function NONE_HASH bs).
Abbreviation hashed' := (hashed sha256 hash_function NONE_HASH bs).

Lemma slice_app_prefix {A} (l k : list A) a b :
  0 ≤ a → 0 ≤ b ≤ len l → slice (l ++ k) a b = slice l a b.
Proof.
  intros Ha Hb. pose proof (len_nonneg k). rewrite !slice_spec by lia. rewrite len_app.
  rewrite !Z.min_l by lia. destruct (decide (a ≤ b)).
  - unfold len in *. rewrite drop_app_le, take_app_le by (rewrite ?length_drop; lia). done.
  - by replace (Z.to_nat b - Z.to_nat a)%nat with 0%nat by lia.
Qed.

(** Appending tokens does not change the hashes of the blocks already full. *)
Lemma ref_hashes_prefix r r' ts k n prev :
  _all_token_ids r' = _all_token_ids r ++ ts →
  (∀ s e, ref_extra sha256 r' s e = ref_extra sha256 r s e) →
  (Z.of_nat k + Z.of_nat n) * bs ≤ num_tokens r →
  ref_hashes' r' k n prev = ref_hashes' r k n prev.
Proof.
  intros Ht He. revert k prev. induction n as [|n IH]; intros k prev Hn; simpl; [done|].
  rewrite He, Ht, slice_app_prefix by (unfold num_tokens in *; nia).
  f_equal. apply IH. lia.
Qed.

(** The hash of block [i]. *)
Fixpoint hash_at (r : Request) (i : nat) : bytes :=
  let s := Z.of_nat i * bs in
  hash_block_tokens hash_function NONE_HASH
    (match i with O => None | S i' => Some (hash_at r i') end)
    (slice (_all_token_ids r) s (s + bs)) (ref_extra sha256 r s (s + bs)).

Lemma ref_hashes_lookup r n i : (i < n)%nat → ref_hashes' r 0 n None !! i = Some (hash_at r i).
Proof.
  intros Hi.
  assert (Hgen : ∀ n i k prev, (i < n)%nat →
     prev = match k with O => None | S k' => Some (hash_at r k') end →
     ref_hashes' r k n prev !! i = Some (hash_at r (k + i))).
  { clear. induction n as [|n IH]; intros i k prev Hi Hp; [lia|]. destruct i as [|i]; simpl.
    - rewrite Nat.add_0_r, Hp. by destruct k.
    - rewrite IH; [f_equal; f_equal; lia|lia|]. rewrite Hp. by destruct k. }
  rewrite (Hgen n i 0%nat None); done.
Qed.

Lemma take_blocks (t1 t2 : list Z) (i : nat) :
  Z.of_nat i * bs ≤ len t1 → Z.of_nat i * bs ≤ len t2 →
  (∀ k, (k < i)%nat → slice t1 (Z.of_nat k * bs) (Z.of_nat k * bs + bs)
                       = slice t2 (Z.of_nat k * bs) (Z.of_nat k * bs + bs)) →
  take (Z.to_nat (Z.of_nat i * bs)) t1 = take (Z.to_nat (Z.of_nat i * bs)) t2.
Proof.
  induction i as [|i IH]; intros H1 H2 Hs; [done|].
  replace (Z.to_nat (Z.of_nat (S i) * bs)) with (Z.to_nat (Z.of_nat i * bs) + Z.to_nat bs)%nat by lia.
  rewrite <-!take_take_drop. rewrite IH by (first [nia|intros; apply Hs; lia]). f_equal.
  specialize (Hs i ltac:(lia)). rewrite !slice_in_range in Hs by nia.
  by replace (Z.of_nat i * bs + bs - Z.of_nat i * bs) with bs in Hs by lia.
Qed.

(** The contents of a request that its first [i] blocks hash. *)
Definition same_prefix (r1 r2 : Request) (i : nat) : Prop :=
  take (Z.to_nat (Z.of_nat i * bs)) (_all_token_ids r1)
  = take (Z.to_nat (Z.of_nat i * bs)) (_all_token_ids r2) ∧
  ∀ k, (k < i)%nat →
    ref_extra sha256 r1 (Z.of_nat k * bs) (Z.of_nat k * bs + bs)
    = ref_extra sha256 r2 (Z.of_nat k * bs) (Z.of_nat k * bs + bs).

Section injective.
Hypothesis hash_inj : ∀ x y, hash_function x = hash_function y → x = y.
Hypothesis hash_nonempty : ∀ x, hash_function x ≠ [].
Hypothesis hash_not_seed : ∀ x, hash_function x ≠ NONE_HASH.

Lemma hash_at_inj r1 r2 i j :
  hash_at r1 i = hash_at r2 j →
  i = j ∧ ∀ k, (k ≤ i)%nat →
    slice (_all_token_ids r1) (Z.of_nat k * bs) (Z.of_nat k * bs + bs)
    = slice (_all_token_ids r2) (Z.of_nat k * bs) (Z.of_nat k * bs + bs) ∧
    ref_extra sha256 r1 (Z.of_nat k * bs) (Z.of_nat k * bs + bs)
    = ref_extra sha256 r2 (Z.of_nat k * bs) (Z.of_nat k * bs + bs).
Proof.
  assert (Hne : ∀ r i, bool_decide (hash_at r i = []) = false).
  { intros r i'. apply bool_decide_eq_false. destruct i'; simpl; apply hash_nonempty. }
  assert (Hns : ∀ r i, hash_at r i ≠ NONE_HASH).
  { intros r i'. destruct i'; simpl; apply hash_not_seed. }
  revert j. induction i as [|i IH]; intros [|j] Heq; simpl in Heq; unfold hash_block_tokens in Heq;
    rewrite ?Hne in Heq; apply hash_inj in Heq;
    apply pair_eq in Heq as [[Hp Ht]%pair_eq He].
  - split; [done|]. intros k Hk. assert (k = 0%nat) as -> by lia. done.
  - by destruct (Hns r2 j).
  - by destruct (Hns r1 i).
  - destruct (IH j Hp) as [-> Hall]. split; [done|]. intros k Hk.
    destruct (decide (k = S j)) as [->|]; [done|apply Hall; lia].
Qed.

Lemma hashed_lookup r k i h :
  hashed' r k → block_hashes r !! i = Some h →
  h = hash_at r i ∧ Z.of_nat (S i) * bs ≤ num_tokens r.
Proof.
  intros (Hb & Hk & _) Hi. rewrite Hb in Hi. apply lookup_lt_Some in Hi as Hlt.
  rewrite length_ref_hashes in Hlt. rewrite ref_hashes_lookup in Hi by done.
  simplify_eq. split; [done|]. nia.
Qed.

(** Requests with the same tokens and extra keys up to the end of a block have
    the same hash there. *)
Lemma hash_at_ext r1 r2 i :
  Z.of_nat (S i) * bs ≤ num_tokens r1 → Z.of_nat (S i) * bs ≤ num_tokens r2 → same_prefix r1 r2 (S i) → hash_at r1 i = hash_at r2 i.
Proof.
  intros H1 H2 [Ht He].
  assert (Hs : ∀ k, (k ≤ i)%nat → slice (_all_token_ids r1) (Z.of_nat k * bs) (Z.of_nat k * bs + bs)
    = slice (_all_token_ids r2) (Z.of_nat k * bs) (Z.of_nat k * bs + bs)).
  { intros k Hk. set (n := Z.to_nat (Z.of_nat (S i) * bs)) in *. unfold num_tokens in *.
    assert (Hcut : ∀ l : list Z, Z.of_nat (S i) * bs ≤ len l → slice l (Z.of_nat k * bs) (Z.of_nat k * bs + bs) =
      slice (take n l) (Z.of_nat k * bs) (Z.of_nat k * bs + bs)).
    { intros l Hl. rewrite <-(take_drop n l) at 1. apply slice_app_prefix; [nia|]. unfold len in *. rewrite length_take. unfold n. nia. }
    rewrite (Hcut (_all_token_ids r1)), (Hcut (_all_token_ids r2)), Ht by done. done. }
  clear H1 H2 Ht. induction i as [|i IH]; simpl; f_equal; try (apply (Hs _ (le_n _))); try (apply He; lia).
  f_equal. apply IH; [intros k Hk; apply He; lia|intros k Hk; apply Hs; lia].
Qed.
End injective.

(** Appending generated tokens keeps the hashes complete and equal to the
    reference chain over the longer token list, provided every multi-modal
    item but the last has ended before the first block not hashed yet. *)
Theorem append_output_keeps_hashes r ts :
  mm_wf (mm_features r) → hashed' r (full_blocks bs r) →
  (full_blocks bs r = 0%nat ∨
   mm_idx_ok (mm_features r) (-1) (Z.of_nat (full_blocks bs r) * bs)) →
  ∃ r', append_output_token_ids (Some hasher) ts r = (Ok tt, r') ∧
    hashed' r' (full_blocks bs r') ∧
    _all_token_ids r' = _all_token_ids r ++ ts ∧ _output_token_ids r' = _output_token_ids r ++ ts ∧ mm_features r' = mm_features r.
Proof.
  intros Hwf (Hb & Hk & Hm) Hidx. unfold append_output_token_ids. rewrite run_modify.
  set (r1 := setter _all_token_ids _ _).
  destruct (request_block_hasher_spec sha256 hash_function NONE_HASH bs bs_pos r1 (full_blocks bs r))
    as (m & He & Hm'); [done| |done|].
  { split_and!.
    - simpl. rewrite Hb. symmetry. apply (ref_hashes_prefix r r1 ts); [done..|lia].
    - unfold num_tokens in *. simpl. rewrite len_app. pose proof (len_nonneg ts). lia.
    - intros s e h. apply Hm. }
  eexists. split; [exact He|]. split; [|done]. split_and!.
  - symmetry. by apply ref_hashes_ext.
  - unfold full_blocks. set (nt := num_tokens _). assert (0 ≤ nt) by apply len_nonneg.
    rewrite Z2Nat.id by (apply Z.div_pos; lia). rewrite Z.mul_comm. by apply Z.mul_div_le.
  - intros s e h. apply Hm'.
Qed.
End soundness.

(** A request that is created with a block hasher carries the chained
    hash of every full block of its tokens, at any block size: the hashes are
    the reference chain over tokens and extra keys, their number is
    [num_tokens // block_size], and the loop always ends. *)
Theorem new_request_is_hashed sha256 hash_function NONE_HASH bs a r :
  0 < bs → mm_wf (default [] (a_mm_features a)) →
  new_Request (Some (request_block_hasher sha256 hash_function NONE_HASH bs)) a = Ok r →
  hashed sha256 hash_function NONE_HASH bs r (full_blocks bs r) ∧
  len (block_hashes r) = num_tokens r / bs ∧ mm_features r = default [] (a_mm_features a).
Proof.
  intros Hbs Hwf Hr. unfold new_Request in Hr.
  destruct (init_max_tokens a) as [[[mt st] kvp]|]; [|done].
  destruct (length_from_prompt_token_ids_or_embeds _ _) as [npt|]; [|done].
  set (r0 := mkRequest _ _ _ _ _ _ _ _ _ _ _ _ _ _ _ _ _ _ _ _ _ _ _ _ _ _ _ _ _ _ _ _ _ _) in Hr.
  destruct (request_block_hasher_spec sha256 hash_function NONE_HASH bs Hbs r0 0)
    as (m & He & Hm); [done| |by left|].
  { split_and!; [done|apply len_nonneg|]. intros s e h. simpl. by rewrite lookup_empty. }
  rewrite He in Hr. simplify_eq. clear He. set (r := setter skip_reading_prefix_cache _ _).
  assert (0 ≤ num_tokens r / bs) by (apply Z.div_pos; [apply len_nonneg|done]).
  split.
  - split_and!.
    + symmetry. by apply ref_hashes_ext.
    + unfold full_blocks. rewrite Z2Nat.id by done. rewrite Z.mul_comm. by apply Z.mul_div_le.
    + intros s e h. apply Hm.
  - split; [|done]. unfold len. simpl. rewrite length_ref_hashes. unfold full_blocks. by rewrite Z2Nat.id.
Qed.

(** ** Requests that the engine hashes

    A request is created with the hasher and then grows by its output tokens;
    in between, whatever its hashes do not depend on may change. *)
Definition hash_view (r : Request) :=
  (_all_token_ids r, block_hashes r, _prompt_embeds_per_block_hashes r, (mm_features r, lora_request r, cache_salt r, prompt_embeds r)).
(** Every multi-modal item but the last has ended where the hashing of the next
    output goes on. *)
Definition items_ended (bs : Z) (r : Request) : Prop :=
  full_blocks bs r = 0%nat ∨ mm_idx_ok (mm_features r) (-1) (Z.of_nat (full_blocks bs r) * bs).
Inductive made_by (hasher : BlockHasher) (bs : Z) : Request → Prop :=
  | made_new a r :
      mm_wf (default [] (a_mm_features a)) → new_Request (Some hasher) a = Ok r → made_by hasher bs r
  | made_append r ts r' :
      made_by hasher bs r → items_ended bs r → append_output_token_ids (Some hasher) ts r = (Ok tt, r') → made_by hasher bs r'
  | made_other r r' :
      made_by hasher bs r → hash_view r' = hash_view r → made_by hasher bs r'.

Section made.
Variable sha256 : bytes → bytes.
Variable hash_function : bytes * list Z * option (list extra_key) → bytes.
Variable NONE_HASH : bytes.
Variable bs : Z.
Hypothesis bs_pos : 0 < bs.
Abbreviation hasher := (request_block_hasher sha256 hash_function NONE_HASH bs).
Abbreviation hashed' := (hashed sha256 hash_function NONE_HASH bs).

Lemma hashed_view r r' :
  hash_view r' = hash_view r → hashed' r (full_blocks bs r) → hashed' r' (full_blocks bs r').
Proof.
  intros Hv (H1 & H2 & H3). unfold hash_view in Hv. injection Hv as Ht Hb Hm Hmm Hlo Hsa Hem.
  assert (Hn : num_tokens r' = num_tokens r) by (unfold num_tokens; by rewrite Ht).
  unfold hashed, full_blocks in *. rewrite Hn, Hb, H1. split_and!; [|done|intros s e h; rewrite Hm, Hem; apply H3].
  symmetry. apply ref_hashes_ext; [done|]. intros s e.
  unfold ref_extra, _gen_lora_extra_hash_keys, cache_salt_keys, ref_embeds_keys. by rewrite Hlo, Hmm, Hsa, Hem.
Qed.
Lemma made_hashed r : made_by hasher bs r → mm_wf (mm_features r) ∧ hashed' r (full_blocks bs r).
Proof.
  induction 1 as [a r Hwf Hr|r ts r' _ [Hwf Hh] Hend Hr|r r' _ [Hwf Hh] Hv].
  - by destruct (new_request_is_hashed sha256 hash_function NONE_HASH bs a r bs_pos Hwf Hr) as (Hh & _ & ->).
  - destruct (append_output_keeps_hashes sha256 hash_function NONE_HASH bs bs_pos r ts Hwf Hh Hend) as (r2 & Hr2 & Hh2 & _ & _ & Hm).
    pose proof (eq_trans (eq_sym Hr) Hr2) as [= <-]. by rewrite Hm.
  - split; [|by apply (hashed_view r)]. unfold hash_view in Hv. injection Hv as _ _ _ -> _ _ _. done.
Qed.
(** Each full block has a hash. *)
Lemma made_lookup r i h : made_by hasher bs r → block_hashes r !! i = Some h →
  h = hash_at sha256 hash_function NONE_HASH bs r i ∧ Z.of_nat (S i) * bs ≤ num_tokens r.
Proof. intros [_ Hh]%made_hashed. by apply (hashed_lookup sha256 hash_function NONE_HASH bs bs_pos r (full_blocks bs r)). Qed.
Lemma made_length r : made_by hasher bs r → len (block_hashes r) = num_tokens r / bs.
Proof.
  intros [_ (Hb & _)]%made_hashed. unfold len. rewrite Hb, length_ref_hashes. unfold full_blocks.
  rewrite Z2Nat.id; [done|]. apply Z.div_pos; [apply len_nonneg|done].
Qed.

(** A request with at most one multi-modal item and the hashes of all its full
    blocks keeps them when a token is appended. *)
Definition singly_hashed (r : Request) : Prop :=
  (length (mm_features r) ≤ 1)%nat ∧ mm_wf (mm_features r) ∧ hashed' r (full_blocks bs r).
Lemma singly_hashed_append r t :
  singly_hashed r → ∃ hs memo, let r' := r <| _output_token_ids ::= λ l, l ++ [t] |> <| _all_token_ids ::= λ l, l ++ [t] |>
    <| block_hashes := hs |> <| _prompt_embeds_per_block_hashes := memo |> in
    append_output_token_ids (Some hasher) [t] r = (Ok tt, r') ∧ singly_hashed r'.
Proof.
  intros (H1 & H2 & H3 & H4 & H5). unfold append_output_token_ids. rewrite run_modify. set (r1 := setter _all_token_ids _ _).
  destruct (request_block_hasher_spec sha256 hash_function NONE_HASH bs bs_pos r1 (full_blocks bs r)) as (m & He & Hm); [done| | |].
  { split_and!; [|unfold num_tokens in *; simpl; rewrite len_app; pose proof (len_nonneg [t]); lia|exact H5].
    change (block_hashes r1) with (block_hashes r). rewrite H3. symmetry.
    apply (ref_hashes_prefix sha256 hash_function NONE_HASH bs bs_pos r r1 [t]); [done..|lia]. }
  { right. split; [lia|]. change (mm_features r1) with (mm_features r). unfold len. simpl.
    destruct (mm_features r) as [|f [|g fs]]; simpl in *; [apply Forall_nil_2..|lia]. }
  exists (ref_hashes sha256 hash_function NONE_HASH bs r1 0 (full_blocks bs r1) None), m. split; [exact He|].
  split; [done|]. split; [done|]. unfold hashed. split_and!; try done.
  - symmetry. by apply ref_hashes_ext.
  - unfold full_blocks. set (nt := num_tokens _). assert (0 ≤ nt) by apply len_nonneg.
    rewrite Z2Nat.id by (apply Z.div_pos; lia). rewrite Z.mul_comm. by apply Z.mul_div_le.
Qed.

(** C30.  What the block hashes of requests say, for requests made by
    [new_Request] with the block hasher and grown by
    [append_output_token_ids], with a collision-free hash function whose values
    are neither empty nor the seed: every full block has a hash, equal hashes
    of two requests sit at the same position, and the hashes at a position are
    equal exactly when the requests agree on every token up to the end of that
    block and on the extra keys (LoRA name, multi-modal items, cache salt,
    prompt embeddings) of every block up to it: a prefix-cache hit is a true
    prefix match.  When output is appended, every multi-modal item but the last
    must have ended before the first block without a hash (see
    [decode_drops_mm_keys]). *)
Theorem block_hash_identifies_prefix r1 r2 :
  (∀ x y, hash_function x = hash_function y → x = y) → (∀ x, hash_function x ≠ []) → (∀ x, hash_function x ≠ NONE_HASH) →
  made_by hasher bs r1 → made_by hasher bs r2 →
  len (block_hashes r1) = num_tokens r1 / bs ∧
  (∀ i j h, block_hashes r1 !! i = Some h → block_hashes r2 !! j = Some h → i = j) ∧
  (∀ i h1 h2, block_hashes r1 !! i = Some h1 → block_hashes r2 !! i = Some h2 → h1 = h2 ↔ same_prefix sha256 bs r1 r2 (S i)).
Proof.
  intros Hinj Hne Hns M1 M2.
  pose proof (hash_at_inj sha256 hash_function NONE_HASH bs Hinj Hne Hns r1 r2) as Hat. split; [by apply made_length|]. split.
  - intros i j h Hi Hj. destruct (made_lookup _ _ _ M1 Hi) as [-> _]. destruct (made_lookup _ _ _ M2 Hj) as [Heq _]. by destruct (Hat i j Heq).
  - intros i h1 h2 Hi Hj. destruct (made_lookup _ _ _ M1 Hi) as [-> H1]. destruct (made_lookup _ _ _ M2 Hj) as [-> H2]. split.
    + intros Heq. destruct (Hat i i Heq) as [_ Hall]. split; [|intros k Hk; apply Hall; lia].
      apply take_blocks; [done..|]. intros k Hk. apply Hall. lia.
    + by apply hash_at_ext.
Qed.
End made.

(* ===================================================================== *)
(** ** Concrete requests                                                  *)
(* ===================================================================== *)

(** A collision-free hash function: the integer that encodes the input. *)
#[export] Instance extra_key_countable : Countable extra_key.
Proof.
  refine (inj_countable'
    (λ k, match k with
          | KStr s => inl s | KMM i o => inr (inl (i, o)) | KBytes b => inr (inr b) end)
    (λ x, match x with
          | inl s => KStr s | inr (inl (i, o)) => KMM i o | inr (inr b) => KBytes b end) _).
  by intros [].
Defined.
Definition enc_hash (x : bytes * list Z * option (list extra_key)) : bytes :=
  [1; Z.pos (encode x)].

Lemma enc_hash_inj x y : enc_hash x = enc_hash y → x = y.
Proof. unfold enc_hash. intros [= H]. by apply encode_inj in H. Qed.

Definition sampling (mt : Z) : SamplingParams :=
  mkSamplingParams (Some mt) 0 None None None None None None.
Definition args (id : string) (toks : list Z) (mm : list MultiModalFeatureSpec)
    (lora : option LoRARequest) (salt : option string) : RequestArgs :=
  mkRequestArgs id 0 (Some toks) (Some (sampling 16)) None 0 0 None (Some mm) lora salt 0 false false.
Definition image (id : string) (off ln : Z) : MultiModalFeatureSpec :=
  mkMMFeature (Some id) (mkPlaceholderRange off ln None).

Lemma new_request_is_hashed_witness :
  ∃ r, new_Request (Some (request_block_hasher (λ b, b) enc_hash [0] 2))
         (args "r" [5; 6; 7; 8; 9] [image "A" 1 2] None None) = Ok r ∧
       hashed (λ b, b) enc_hash [0] 2 r (full_blocks 2 r) ∧ len (block_hashes r) = num_tokens r / 2 ∧
       mm_features r = [image "A" 1 2].
Proof.
  eexists. split; [vm_compute; reflexivity|].
  eapply (new_request_is_hashed _ _ _ _ (args "r" [5; 6; 7; 8; 9] [image "A" 1 2] None None));
    [lia|repeat constructor; simpl; try lia; eauto|vm_compute; reflexivity].
Defined.

(** The extra keys of a block do not tell a LoRA name from a cache salt:
    for every hash function, a base-model request with cache salt [adapter]
    and a request for the LoRA adapter of that name, on the same tokens, get
    the same hash for the first block. *)
Theorem lora_and_salt_collide sha256 hash_function NONE_HASH :
  ∃ r1 r2,
    new_Request (Some (request_block_hasher sha256 hash_function NONE_HASH 2))
      (args "base" [5; 6] [] None (Some "adapter"%string)) = Ok r1 ∧
    new_Request (Some (request_block_hasher sha256 hash_function NONE_HASH 2))
      (args "lora" [5; 6] [] (Some (mkLoRARequest "adapter" 1)) None) = Ok r2 ∧
    lora_request r1 = None ∧ is_Some (lora_request r2) ∧
    ∃ h, block_hashes r1 = [h] ∧ block_hashes r2 = [h].
Proof.
  do 2 eexists.
  repeat (split; [vm_compute; reflexivity|]). split; [by eexists|].
  eexists. split; vm_compute; reflexivity.
Qed.

(** When the block that holds the end of the prompt is completed by
    generated tokens, only the last multi-modal item is hashed into it: for
    every hash function, two requests that differ in an earlier image of that
    block end up with the same block hashes. *)
Theorem decode_drops_mm_keys sha256 hash_function NONE_HASH :
  let hasher := request_block_hasher sha256 hash_function NONE_HASH 4 in
  let two_images a := args "r" [1; 2; 3; 4; 9; 9; 5] [image a 4 1; image "B" 5 1] None None in
  ∃ r1 r2 r1' r2',
    new_Request (Some hasher) (two_images "A"%string) = Ok r1 ∧
    new_Request (Some hasher) (two_images "C"%string) = Ok r2 ∧
    append_output_token_ids (Some hasher) [7] r1 = (Ok tt, r1') ∧
    append_output_token_ids (Some hasher) [7] r2 = (Ok tt, r2') ∧
    block_hashes r1' = block_hashes r2' ∧ len (block_hashes r1') = 2 ∧
    ref_extra sha256 r1' 4 8 ≠ ref_extra sha256 r2' 4 8.
Proof.
  do 4 eexists.
  repeat (split; [vm_compute; reflexivity|]). vm_compute. congruence.
Qed.

(** Two requests that agree on their first block only. *)
Definition hashed_request (toks : list Z) : Request :=
  match new_Request (Some (request_block_hasher (λ b, b) enc_hash [0] 2))
          (args "r" toks [image "A" 1 2] None None) with
  | Ok r => r
  | Raise _ => mkRequest "" 0 0 0 None None None None 0 WAITING [] None None 0 None None ∅ 0
                 [] [] 0 false [] 0 None [] false 0 0 [] false false None false
  end.

Lemma memo_empty sha256 r : _prompt_embeds_per_block_hashes r = ∅ → memo_ok sha256 r.
Proof. intros Hr s e h. by rewrite Hr, lookup_empty. Qed.

(** Two requests that share their first block; the first one has generated two
    tokens. *)
Definition grown_request : Request :=
  (append_output_token_ids (Some (request_block_hasher (λ b, b) enc_hash [0] 2)) [3; 4] (hashed_request [5; 6; 7; 8; 9])).2.
Lemma block_hash_identifies_prefix_witness :
  let r1 := grown_request in let r2 := hashed_request [5; 6; 7; 1] in
  len (block_hashes r1) = 3 ∧ len (block_hashes r2) = 2 ∧ same_prefix (λ b, b) 2 r1 r2 1 ∧ ~ same_prefix (λ b, b) 2 r1 r2 2.
Proof.
  intros r1 r2.
  assert (Hmade : ∀ toks, toks = [5; 6; 7; 8; 9] ∨ toks = [5; 6; 7; 1] → made_by (request_block_hasher (λ b, b) enc_hash [0] 2) 2 (hashed_request toks)).
  { intros toks Ht. apply (made_new _ _ (args "r" toks [image "A" 1 2] None None)); [repeat constructor; simpl; try lia; eauto|].
    destruct Ht as [-> | ->]; vm_compute; reflexivity. }
  destruct (block_hash_identifies_prefix (λ b, b) enc_hash [0] 2 ltac:(lia) r1 r2 enc_hash_inj ltac:(done) ltac:(done)) as (H1 & _ & H3).
  - apply (made_append _ _ (hashed_request [5; 6; 7; 8; 9]) [3; 4]); [apply Hmade; by left| |vm_compute; reflexivity].
    right. split; [lia|]. vm_compute. constructor.
  - apply Hmade. by right.
  - split; [exact H1|]. split; [vm_compute; reflexivity|]. split.
    + apply (H3 0%nat _ _ eq_refl eq_refl). vm_compute. reflexivity.
    + intros Hs. apply (H3 1%nat _ _ eq_refl eq_refl) in Hs. vm_compute in Hs. discriminate.
Defined.

Lemma append_output_keeps_hashes_witness :
  ∃ r', append_output_token_ids (Some (request_block_hasher (λ b, b) enc_hash [0] 2)) [3; 4]
          (hashed_request [5; 6; 7; 8; 9]) = (Ok tt, r') ∧
    hashed (λ b, b) enc_hash [0] 2 r' (full_blocks 2 r') ∧
    _all_token_ids r' = [5; 6; 7; 8; 9] ++ [3; 4] ∧ _output_token_ids r' = [] ++ [3; 4] ∧
    mm_features r' = mm_features (hashed_request [5; 6; 7; 8; 9]).
Proof.
  apply (append_output_keeps_hashes (λ b, b) enc_hash [0] 2 ltac:(lia)).
  - vm_compute. split_and!; [eauto|discriminate|constructor|exact I].
  - split_and!; [vm_compute; reflexivity|vm_compute; discriminate|apply memo_empty; vm_compute; reflexivity].
  - right. split; [lia|]. vm_compute. constructor.
Defined.

(** A block hash packed with a group id below [2^32] unpacks to the same
    hash and group id, and no other pair packs to the same key. *)
Theorem block_hash_with_group_id_roundtrip h g h' g' :
  0 ≤ g < 2 ^ 32 →
  ∃ k, make_block_hash_with_group_id h g = Ok k ∧
    get_block_hash k = h ∧ get_group_id k = g ∧
    (make_block_hash_with_group_id h' g' = Ok k → h' = h ∧ g' = g).
Proof.
  intros Hg. destruct (make_block_hash_ok h g Hg) as [k Hk].
  destruct (make_block_hash_unpack _ _ _ Hk) as [H1 H2]. exists k. split_and!; [done..|].
  intros Hk'. destruct (make_block_hash_unpack _ _ _ Hk') as [H1' H2']. by subst.
Qed.

Lemma block_hash_with_group_id_roundtrip_witness :
  ∃ k, make_block_hash_with_group_id [1; 2] 258 = Ok k ∧
    get_block_hash k = [1; 2] ∧ get_group_id k = 258 ∧
    (make_block_hash_with_group_id [1; 2; 0] 2 = Ok k → [1; 2; 0] = [1; 2] ∧ 2 = 258).
Proof. apply (block_hash_with_group_id_roundtrip [1; 2] 258). lia. Defined.

(** On items sorted by position without overlap, the scan from any index
    before which all items have ended yields exactly the items that reach into
    the block, with their offsets from its start, and returns an index from
    which the next block may be scanned. *)
Theorem mm_extra_keys_are_the_items_in_the_block mm s e i :
  mm_wf mm → s ≤ e → mm_idx_ok mm i s →
  ∃ j, _gen_mm_extra_hash_keys mm s e i = Ok (ref_mm_keys mm s e, j) ∧ mm_idx_ok mm j e.
Proof. apply gen_mm_spec. Qed.

Lemma mm_extra_keys_are_the_items_in_the_block_witness :
  ∃ j, _gen_mm_extra_hash_keys [image "A" 1 4; image "B" 6 1; image "C" 9 3] 4 8 0
         = Ok ([KMM "A" (-3); KMM "B" 2], j) ∧
       mm_idx_ok [image "A" 1 4; image "B" 6 1; image "C" 9 3] j 8.
Proof.
  apply (mm_extra_keys_are_the_items_in_the_block [image "A" 1 4; image "B" 6 1; image "C" 9 3]).
  - simpl. unfold mm_end. simpl. split_and!; try done; try lia; eauto; repeat constructor; simpl; lia.
  - lia.
  - split; [lia|constructor].
Defined.

(* ===================================================================== *)
(** ** Coarser hashes                                                     *)
(* ===================================================================== *)

Lemma concat_same_length_inj {A} (L : nat) (l1 l2 : list (list A)) :
  (0 < L)%nat → Forall (λ x, length x = L) l1 → Forall (λ x, length x = L) l2 →
  concat l1 = concat l2 → l1 = l2.
Proof.
  intros HL H1. revert l2. induction H1 as [|x l1 Hx _ IH]; intros l2 H2 Heq.
  - destruct H2 as [|y l2 Hy _]; [done|]. destruct y; simpl in *; [lia|done].
  - destruct H2 as [|y l2 Hy H2]; simpl in Heq.
    + destruct x; simpl in *; [lia|done].
    + apply app_inj_1 in Heq as [-> Heq]; [|congruence]. f_equal. by apply IH.
Qed.

(** At a block size that is a multiple of the hash granularity, two
    coarse hashes are equal exactly when all the fine hashes they concatenate
    are equal (hashes have one fixed length). *)
Theorem coarse_hash_identifies_fine_hashes bh1 bh2 hbs tbs b1 b2 L i j :
  0 < hbs → (0 < L)%nat → Forall (λ h, length h = L) bh1 → Forall (λ h, length h = L) bh2 →
  BlockHashListWithBlockSize_init bh1 hbs tbs = Ok b1 →
  BlockHashListWithBlockSize_init bh2 hbs tbs = Ok b2 →
  _get_value_at b1 i = _get_value_at b2 j ↔
  slice bh1 (i * (tbs / hbs)) ((i + 1) * (tbs / hbs)) = slice bh2 (j * (tbs / hbs)) ((j + 1) * (tbs / hbs)).
Proof.
  intros Hh HL H1 H2 Hb1 Hb2. unfold BlockHashListWithBlockSize_init in *.
  case_match eqn:E; simplify_eq. unfold _get_value_at. simpl. rewrite !Z.mul_add_distr_r, !Z.mul_1_l.
  assert (Hall : ∀ bh a b, Forall (λ h : bytes, length h = L) bh →
    Forall (λ h, length h = L) (slice bh a b)).
  { intros bh a b Hf. unfold slice. by apply Forall_take, Forall_drop. }
  split; [|by intros ->]. apply (concat_same_length_inj L); auto.
Qed.

Lemma coarse_hash_identifies_fine_hashes_witness :
  _get_value_at (mkBHL [[1]; [2]; [3]; [4]] 2) 1 = _get_value_at (mkBHL [[3]; [4]] 2) 0 ↔
  slice [[1]; [2]; [3]; [4]] (1 * (32 / 16)) ((1 + 1) * (32 / 16))
  = slice [[3]; [4]] (0 * (32 / 16)) ((0 + 1) * (32 / 16)).
Proof.
  apply (coarse_hash_identifies_fine_hashes _ _ 16 32 _ _ 1);
    [lia|lia|repeat constructor|repeat constructor|reflexivity|reflexivity].
Defined.
