(* ===== verification/BlockPool.v ===== *)
(** * The block pool ([src/vllm/v1/core/block_pool.py])

    [BlockHashToBlockMap] (the prefix-cache table) and [BlockPool]: allocation,
    reference counts, caching and eviction of KV-cache blocks, over the linked
    free queue of [FreeQueue.v].  The pool's [blocks] list is the heap of the
    queue: [self.blocks[i]] is the object at address [i].  The optional metrics
    collector only observes and is left out. *)
From S2P Require Import Prelude Request BlockHash FreeQueue.
Local Open Scope Z_scope.

(* ===================================================================== *)
(** ** BlockHashToBlockMap                                                *)
(* ===================================================================== *)

(** [KVCacheBlock | dict[int, KVCacheBlock]]; a dict keeps insertion order. *)
Inductive cached_blocks : Type :=
  | OneBlock (b : ref)
  | ManyBlocks (d : list (Z * ref)).

Abbreviation BlockHashToBlockMap := (gmap bytes cached_blocks).

(** [d[k] = v] and [d.pop(k, None)] on an insertion-ordered dict. *)
Fixpoint dict_set (k : Z) (v : ref) (d : list (Z * ref)) : list (Z * ref) :=
  match d with
  | [] => [(k, v)]
  | (k', v') :: d' => if k =? k' then (k, v) :: d' else (k', v') :: dict_set k v d'
  end.
Fixpoint dict_get (k : Z) (d : list (Z * ref)) : option ref :=
  match d with
  | [] => None
  | (k', v') :: d' => if k =? k' then Some v' else dict_get k d'
  end.
Fixpoint dict_del (k : Z) (d : list (Z * ref)) : list (Z * ref) :=
  match d with
  | [] => []
  | (k', v') :: d' => if k =? k' then d' else (k', v') :: dict_del k d'
  end.

Definition get_one_block (cache : BlockHashToBlockMap) (key : bytes) : res (option ref) :=
  match cache !! key with
  | None => Ok None
  | Some (OneBlock b) => Ok (Some b)
  | Some (ManyBlocks d) =>
      match d with
      | [] => Raise StopIteration
      | (_, b) :: _ => Ok (Some b)
      end
  end.

(** [insert]; [ids] gives the [block_id] of a block object. *)
Definition cache_insert (ids : ref → Z) (cache : BlockHashToBlockMap) (key : bytes) (block : ref) :
    BlockHashToBlockMap :=
  match cache !! key with
  | None => <[key := OneBlock block]> cache
  | Some (OneBlock b) =>
      <[key := ManyBlocks (dict_set (ids block) block (dict_set (ids b) b []))]> cache
  | Some (ManyBlocks d) => <[key := ManyBlocks (dict_set (ids block) block d)]> cache
  end.

Definition cache_pop (ids : ref → Z) (cache : BlockHashToBlockMap) (key : bytes) (block_id : Z) :
    option ref * BlockHashToBlockMap :=
  match cache !! key with
  | None => (None, cache)
  | Some (OneBlock b) =>
      if ids b =? block_id then (Some b, delete key cache)
      else (None, <[key := OneBlock b]> (delete key cache))
  | Some (ManyBlocks d) =>
      let d' := dict_del block_id d in
      (dict_get block_id d,
       if 0 <? len d' then <[key := ManyBlocks d']> (delete key cache) else delete key cache)
  end.

(* ===================================================================== *)
(** ** BlockPool                                                          *)
(* ===================================================================== *)

(** The environment of the pool: the digest of prompt embeddings and the
    switch for integer event hashes. *)
Class KVEnv := {
  env_sha256 : bytes → bytes;
  env_use_int_hashes : bool;
}.

Record BlockStored := mkBlockStored {
  bs_block_hashes : list ExternalBlockHash;
  bs_parent_block_hash : option ExternalBlockHash;
  bs_token_ids : list Z;
  bs_block_size : Z;
  bs_lora_id : option Z;
  bs_lora_name : option string;
  bs_extra_keys : option (list (option (list extra_key)));
  bs_group_idx : Z;
}.

Inductive KVCacheEvent : Type :=
  | EvBlockStored (e : BlockStored)
  | EvBlockRemoved (block_hashes : list ExternalBlockHash) (group_idx : Z)
  | EvAllBlocksCleared.

Record BlockPool := mkBlockPool {
  num_gpu_blocks : Z;
  enable_caching : bool;
  hash_block_size : Z;
  free_block_queue : FreeKVCacheBlockQueue;
  cached_block_hash_to_block : BlockHashToBlockMap;
  null_block : ref;
  enable_kv_cache_events : bool;
  kv_event_queue : list KVCacheEvent;
}.
#[export] Instance eta_BlockPool : Eta BlockPool := λ p,
  mkBlockPool (num_gpu_blocks p) (enable_caching p) (hash_block_size p) (free_block_queue p)
    (cached_block_hash_to_block p) (null_block p) (enable_kv_cache_events p) (kv_event_queue p).
#[export] Instance set_free_block_queue : Setter free_block_queue.
Proof. build_setter. Defined.
#[export] Instance set_cached_map : Setter cached_block_hash_to_block.
Proof. build_setter. Defined.
#[export] Instance set_kv_event_queue : Setter kv_event_queue.
Proof. build_setter. Defined.

(** The block object at a reference, and its attributes. *)
Definition blk (p : BlockPool) (b : ref) : KVCacheBlock := qheap (free_block_queue p) !!! b.
Definition blk_id (p : BlockPool) (b : ref) : Z := block_id (blk p b).
Definition rc (p : BlockPool) (b : ref) : Z := ref_cnt (blk p b).
Definition bhash (p : BlockPool) (b : ref) : option bytes := _block_hash (blk p b).
Definition isnull (p : BlockPool) (b : ref) : bool := is_null (blk p b).

Section pool.
Context `{env : KVEnv}.
Abbreviation P := (M BlockPool).

(** Calls on the queue, and attribute writes on blocks. *)
Definition queue {A} (m : M FreeKVCacheBlockQueue A) : P A :=
  zoom free_block_queue (λ q p, p <| free_block_queue := q |>) m.
Definition hwrite (f : heap → heap) : P unit :=
  modify (λ p, p <| free_block_queue ::= λ q, mkQueue (num_free_blocks q) (f (qheap q)) |>).

(** [__init__]: fresh blocks, the queue over them, the null block popped. *)
Definition new_blocks (n : Z) : heap :=
  list_to_map ((λ i, (i, new_KVCacheBlock i)) <$> seqZ 0 n).
Definition BlockPool_init (num_gpu_blocks : Z) (enable_caching : bool) (hash_block_size : Z)
    (enable_kv_cache_events : bool) : res BlockPool :=
  if 0 <? num_gpu_blocks then
    match FreeKVCacheBlockQueue_init (seqZ 0 num_gpu_blocks) (mkQueue 0 (new_blocks num_gpu_blocks)) with
    | (Raise e, _) => Raise e
    | (Ok _, q) =>
        match popleft q with
        | (Raise e, _) => Raise e
        | (Ok null, q') =>
            Ok (mkBlockPool num_gpu_blocks enable_caching hash_block_size
                  (mkQueue (num_free_blocks q') (set_is_null null true (qheap q')))
                  ∅ null enable_kv_cache_events [])
        end
    end
  else Raise AssertionError.

Definition get_num_free_blocks (p : BlockPool) : Z := num_free_blocks (free_block_queue p).

(** [get_cached_block]: [None] when any group misses. *)
Fixpoint get_cached_block (p : BlockPool) (block_hash : bytes) (kv_cache_group_ids : list Z) :
    res (option (list ref)) :=
  match kv_cache_group_ids with
  | [] => Ok (Some [])
  | g :: gs =>
      match make_block_hash_with_group_id block_hash g with
      | Raise e => Raise e
      | Ok key =>
          match get_one_block (cached_block_hash_to_block p) key with
          | Raise e => Raise e
          | Ok None => Ok None
          | Ok (Some b) =>
              match get_cached_block p block_hash gs with
              | Ok (Some bs) => Ok (Some (b :: bs))
              | r => r
              end
          end
      end
  end.

(** The setter of [KVCacheBlock.block_hash], which asserts it is unset. *)
Definition set_block_hash (b : ref) (h : bytes) : P unit :=
  p <- get ;;
  assert_ (is_none (bhash p b)) ;;
  hwrite (set_hash b (Some h)).

(** The block hashes at granularity [block_size]: from the request, or the
    coarser view of them. *)
Definition hashes_at (hash_block_size : Z) (block_hashes : list bytes) (block_size : Z) :
    res BlockHashList :=
  if block_size =? hash_block_size then Ok (PlainHashes block_hashes)
  else
    match BlockHashListWithBlockSize_init block_hashes hash_block_size block_size with
    | Ok b => Ok (CoarseHashes b)
    | Raise e => Raise e
    end.

(** The loop of [cache_full_blocks] over the new full blocks, numbered from
    [i]; returns the external hashes of the blocks cached. *)
Fixpoint cache_loop (new_block_hashes : list bytes) (kv_cache_group_id i : Z) (blocks : list ref) :
    P (list ExternalBlockHash) :=
  match blocks with
  | [] => ret []
  | b :: bs =>
      p <- get ;;
      if isnull p b then cache_loop new_block_hashes kv_cache_group_id (i + 1) bs
      else
        assert_ (is_none (bhash p b)) ;;
        block_hash <- of_option IndexError (py_nth new_block_hashes i) ;;
        key <- of_res (make_block_hash_with_group_id block_hash kv_cache_group_id) ;;
        set_block_hash b key ;;
        modify (λ p, p <| cached_block_hash_to_block ::= λ c, cache_insert (blk_id p) c key b |>) ;;
        rest <- cache_loop new_block_hashes kv_cache_group_id (i + 1) bs ;;
        ret (maybe_convert_block_hash env_use_int_hashes block_hash :: rest)
  end.

(** The extra keys of the blocks [i, ..., n - 1], for the event.  The request's
    memo of embedding hashes is not carried along: it never changes a hash
    ([generate_extra_spec]). *)
Fixpoint event_extra_keys (fuel : nat) (request : Request) (blocks : list ref) (p : BlockPool)
    (block_size i n curr_mm_idx : Z) : res (list (option (list extra_key))) :=
  match fuel with
  | O => Ok []
  | S fuel' =>
      if n <=? i then Ok []
      else
        match py_nth blocks i with
        | None => Raise IndexError
        | Some b =>
            if isnull p b then event_extra_keys fuel' request blocks p block_size (i + 1) n curr_mm_idx
            else
              match (generate_block_hash_extra_keys env_sha256 (i * block_size)
                       (i * block_size + block_size) curr_mm_idx request).1 with
              | Raise e => Raise e
              | Ok (ek, idx) =>
                  match event_extra_keys fuel' request blocks p block_size (i + 1) n idx with
                  | Raise e => Raise e
                  | Ok rest => Ok (ek :: rest)
                  end
              end
        end
  end.

Definition cache_full_blocks (request : Request) (blocks : list ref)
    (num_cached_blocks num_full_blocks block_size kv_cache_group_id : Z) : P unit :=
  if num_full_blocks <=? num_cached_blocks then ret tt
  else
    let new_full_blocks := slice blocks num_cached_blocks num_full_blocks in
    assert_ (num_full_blocks <=? len (block_hashes request)) ;;
    p <- get ;;
    hashes <- of_res (hashes_at (hash_block_size p) (block_hashes request) block_size) ;;
    let new_block_hashes := bh_slice_from hashes num_cached_blocks in
    new_hashes <- cache_loop new_block_hashes kv_cache_group_id 0 new_full_blocks ;;
    p <- get ;;
    when (enable_kv_cache_events p) do (
      parent <- (if num_cached_blocks =? 0 then ret None
                 else h <- of_res (bh_at hashes (num_cached_blocks - 1)) ;;
                      ret (Some (maybe_convert_block_hash env_use_int_hashes h))) ;;
      let start_token_idx := num_cached_blocks * block_size in
      let end_token_idx := num_full_blocks * block_size in
      eks <- of_res (event_extra_keys (Z.to_nat (num_full_blocks - num_cached_blocks)) request
                       blocks p block_size num_cached_blocks num_full_blocks 0) ;;
      modify (λ p, p <| kv_event_queue ::= λ q, q ++
        [EvBlockStored (mkBlockStored new_hashes parent
           (slice (_all_token_ids request) start_token_idx end_token_idx) block_size
           (lora_int_id <$> lora_request request) (lora_name <$> lora_request request)
           (if bool_decide (eks = []) then None else Some eks) kv_cache_group_id)] |>)).

Definition _maybe_evict_cached_block (b : ref) : P bool :=
  p <- get ;;
  match bhash p b with
  | None => ret false
  | Some block_hash =>
      let '(popped, cache') := cache_pop (blk_id p) (cached_block_hash_to_block p) block_hash (blk_id p b) in
      put (p <| cached_block_hash_to_block := cache' |>) ;;
      match popped with
      | None => ret false
      | Some _ =>
          hwrite (set_hash b None) ;;
          (when (enable_kv_cache_events p) do
             modify (λ p, p <| kv_event_queue ::= λ q, q ++
               [EvBlockRemoved [maybe_convert_block_hash env_use_int_hashes (get_block_hash block_hash)]
                  (get_group_id block_hash)] |>)) ;;
          ret true
      end
  end.

(** [block.ref_cnt += d]. *)
Definition add_ref (b : ref) (d : Z) : P unit :=
  p <- get ;; hwrite (set_ref_cnt b (rc p b + d)).

(** One iteration of the loop of [get_new_blocks]. *)
Definition take_block (b : ref) : P unit :=
  p <- get ;;
  (if enable_caching p then _maybe_evict_cached_block b ;; ret tt else ret tt) ;;
  p <- get ;;
  assert_ (rc p b =? 0) ;;
  add_ref b 1.

Definition get_new_blocks (num_blocks : Z) : P (list ref) :=
  p <- get ;;
  if get_num_free_blocks p <? num_blocks then raise ValueError
  else
    r <- queue (popleft_n num_blocks) ;;
    for_ r take_block ;;
    ret r.

Definition touch_one (b : ref) : P unit :=
  p <- get ;;
  (when ((rc p b =? 0) && negb (isnull p b)) do queue (remove b)) ;;
  add_ref b 1.

Definition touch (blocks : list ref) : P unit := for_ blocks touch_one.

Definition free_blocks (ordered_blocks : list ref) : P unit :=
  for_ ordered_blocks (λ b, add_ref b (-1)) ;;
  p <- get ;;
  queue (append_n (filter (λ b, (rc p b =? 0) && negb (isnull p b)) ordered_blocks)).

Definition evict_blocks (block_ids : list Z) : P unit :=
  for_ block_ids (λ block_id,
    p <- get ;;
    assert_ (block_id <? num_gpu_blocks p) ;;
    b <- of_option IndexError (py_nth (seqZ 0 (num_gpu_blocks p)) block_id) ;;
    _maybe_evict_cached_block b ;; ret tt).

Definition reset_prefix_cache : P bool :=
  p <- get ;;
  let num_used_blocks := num_gpu_blocks p - get_num_free_blocks p in
  if negb (num_used_blocks =? 1) then ret false
  else
    put (p <| cached_block_hash_to_block := ∅ |>) ;;
    for_ (seqZ 0 (num_gpu_blocks p)) (λ b, hwrite (set_hash b None)) ;;
    (when (enable_kv_cache_events p) do
       modify (λ p, p <| kv_event_queue ::= λ q, q ++ [EvAllBlocksCleared] |>)) ;;
    ret true.

(** [get_usage], as the fraction [used / total] of non-null blocks. *)
Definition get_usage (p : BlockPool) : Z * Z :=
  let total_gpu_blocks := num_gpu_blocks p - 1 in
  if total_gpu_blocks =? 0 then (0, 1)
  else (total_gpu_blocks - get_num_free_blocks p, total_gpu_blocks).

Definition take_kv_events : P (list KVCacheEvent) :=
  p <- get ;;
  if enable_kv_cache_events p then
    put (p <| kv_event_queue := [] |>) ;; ret (kv_event_queue p)
  else ret [].
End pool.

(* ===================================================================== *)
(** ** The prefix-cache table as a map to lists of blocks                 *)
(* ===================================================================== *)

(** The blocks cached under a key, first inserted first. *)
Definition cached_under (c : BlockHashToBlockMap) (key : bytes) : list ref :=
  match c !! key with
  | None => []
  | Some (OneBlock b) => [b]
  | Some (ManyBlocks d) => d.*2
  end.

(** Dicts are non-empty, and keyed by the blocks' own ids. *)
Definition cache_wf (c : BlockHashToBlockMap) : Prop :=
  ∀ key d, c !! key = Some (ManyBlocks d) → d ≠ [] ∧ NoDup d.*2 ∧ Forall (λ kv, kv.1 = kv.2) d.

Lemma cache_wf_empty : cache_wf ∅.
Proof. intros key d. by rewrite lookup_empty. Qed.

Lemma dict_set_fresh k v d : k ∉ d.*1 → dict_set k v d = d ++ [(k, v)].
Proof.
  induction d as [|[k' v'] d IH]; intros Hk; simpl in *; [done|].
  rewrite (proj2 (Z.eqb_neq _ _)) by set_solver. f_equal. set_solver.
Qed.

Lemma dict_keys_values (d : list (Z * ref)) : Forall (λ kv, kv.1 = kv.2) d → d.*1 = d.*2.
Proof. induction 1 as [|[k v] d Hkv _ IH]; [done|]. rewrite !fmap_cons. by f_equal. Qed.

Lemma dict_get_present b (d : list (Z * ref)) :
  Forall (λ kv, kv.1 = kv.2) d → b ∈ d.*2 → dict_get b d = Some b.
Proof.
  induction 1 as [|[k v] d Hkv _ IH]; simpl in *; [by intros ?%not_elem_of_nil|]. subst k.
  intros [->|Hb]%elem_of_cons; [by rewrite Z.eqb_refl|].
  destruct (Z.eqb_spec b v) as [->|]; [done|auto].
Qed.
Lemma dict_get_absent b (d : list (Z * ref)) :
  Forall (λ kv, kv.1 = kv.2) d → b ∉ d.*2 → dict_get b d = None.
Proof.
  induction 1 as [|[k v] d Hkv _ IH]; simpl in *; [done|]. subst k. intros Hb.
  rewrite (proj2 (Z.eqb_neq _ _)) by set_solver. set_solver.
Qed.

Lemma dict_del_values b (d : list (Z * ref)) :
  Forall (λ kv, kv.1 = kv.2) d → NoDup d.*2 →
  (dict_del b d).*2 = filter (λ x, x ≠ b) d.*2 ∧ Forall (λ kv, kv.1 = kv.2) (dict_del b d).
Proof.
  induction 1 as [|[k v] d Hkv Hd IH]; [done|]. simpl in Hkv. subst k.
  rewrite fmap_cons. simpl. intros [Hv Hnd]%NoDup_cons. destruct (Z.eqb_spec b v) as [->|Hne].
  - rewrite filter_cons_False by naive_solver. by rewrite filter_ne_notin.
  - destruct (IH Hnd) as [IH1 IH2]. rewrite filter_cons_True by done.
    rewrite fmap_cons, IH1. split; [done|]. by constructor.
Qed.

Lemma cache_insert_spec ids c key b :
  cache_wf c → (∀ x, x ∈ b :: cached_under c key → ids x = x) → b ∉ cached_under c key →
  cache_wf (cache_insert ids c key b) ∧
  ∀ key', cached_under (cache_insert ids c key b) key' =
          if decide (key' = key) then cached_under c key ++ [b] else cached_under c key'.
Proof.
  intros Hwf Hids Hb. unfold cache_insert. unfold cached_under in Hids, Hb.
  destruct (c !! key) as [[b0|d]|] eqn:E.
  - rewrite dict_set_fresh by (simpl; rewrite !Hids by set_solver; set_solver).
    simpl. rewrite !Hids by set_solver. split.
    + intros key' d. rewrite lookup_insert. case_decide; [|apply Hwf]. intros. simplify_eq. simpl.
      split_and!; [done| |by repeat constructor].
      apply NoDup_cons. split; [set_solver|apply NoDup_singleton].
    + intros key'. unfold cached_under. rewrite lookup_insert.
      repeat case_decide; simplify_eq; [by rewrite E|done].
  - destruct (Hwf _ _ E) as (Hne & Hnd & Hd).
    rewrite dict_set_fresh by (rewrite dict_keys_values, Hids by set_solver; set_solver).
    rewrite Hids by set_solver. split.
    + intros key' d'. rewrite lookup_insert. case_decide; [|apply Hwf]. intros. simplify_eq.
      rewrite fmap_app. split_and!; [by destruct d| |].
      * apply NoDup_app. split_and!; [done|set_solver|apply NoDup_singleton].
      * apply Forall_app. split; [done|by repeat constructor].
    + intros key'. unfold cached_under. rewrite lookup_insert.
      repeat case_decide; simplify_eq; [by rewrite E, fmap_app|done].
  - split.
    + intros key' d. rewrite lookup_insert. case_decide; [done|apply Hwf].
    + intros key'. unfold cached_under. rewrite lookup_insert.
      repeat case_decide; simplify_eq; [by rewrite E|done].
Qed.

Lemma cache_pop_present ids c key b :
  cache_wf c → ids b = b → b ∈ cached_under c key →
  ∃ c', cache_pop ids c key b = (Some b, c') ∧ cache_wf c' ∧
    ∀ key', cached_under c' key' =
            if decide (key' = key) then filter (λ x, x ≠ b) (cached_under c key)
            else cached_under c key'.
Proof.
  intros Hwf Hids Hb. unfold cache_pop. unfold cached_under in Hb.
  assert (Hdel : cache_wf (delete key c)).
  { intros key' d Hl. rewrite lookup_delete_Some in Hl. apply (Hwf key'); naive_solver. }
  destruct (c !! key) as [[b0|d]|] eqn:E; [| |by apply not_elem_of_nil in Hb].
  - apply list_elem_of_singleton in Hb as ->. rewrite Hids, Z.eqb_refl.
    eexists. split_and!; [done..|]. intros key'. unfold cached_under.
    rewrite lookup_delete. repeat case_decide; simplify_eq; [|done].
    by rewrite E, filter_cons_False by naive_solver.
  - destruct (Hwf _ _ E) as (Hne & Hnd & Hd).
    destruct (dict_del_values b d Hd Hnd) as [Hv Hd']. rewrite dict_get_present by done.
    eexists. split; [reflexivity|]. destruct (Z.ltb_spec 0 (len (dict_del b d))) as [Hl|Hl].
    + split.
      * intros key' d'. rewrite lookup_insert. case_decide; [|apply Hdel]. intros. simplify_eq.
        split_and!; [by destruct (dict_del b d)| |done]. rewrite Hv. by apply NoDup_filter.
      * intros key'. unfold cached_under. rewrite lookup_insert, lookup_delete.
        repeat case_decide; simplify_eq; [by rewrite E|done].
    + split; [done|]. intros key'. unfold cached_under. rewrite lookup_delete.
      repeat case_decide; simplify_eq; [|done]. rewrite E, <-Hv.
      destruct (dict_del b d); [done|]. unfold len in Hl. simpl in Hl. lia.
Qed.

Lemma get_one_block_spec c key :
  cache_wf c → get_one_block c key = Ok (head (cached_under c key)).
Proof.
  intros Hwf. unfold get_one_block, cached_under. destruct (c !! key) as [[b|d]|] eqn:E; [done| |done].
  destruct (Hwf _ _ E) as (Hne & _). by destruct d as [|[]].
Qed.

(* ===================================================================== *)
(** ** The pool invariant                                                 *)
(* ===================================================================== *)

(** [pool_core p free zero]: the queue holds [free] and the blocks with no
    reference are those of [zero] (they differ only in the middle of an
    allocation); the table and the blocks' hashes agree. *)
Record pool_core (p : BlockPool) (free zero : list ref) : Prop := {
  pi_rep : queue_rep (free_block_queue p) free;
  pi_num : 0 < num_gpu_blocks p;
  pi_null : null_block p = 0;
  pi_free : ∀ b, b ∈ free → 1 ≤ b < num_gpu_blocks p;
  pi_id : ∀ b, 0 ≤ b < num_gpu_blocks p → blk_id p b = b;
  pi_isnull : ∀ b, 0 ≤ b < num_gpu_blocks p → isnull p b = bool_decide (b = 0);
  pi_rc : ∀ b, 1 ≤ b < num_gpu_blocks p → 0 ≤ rc p b ∧ (b ∈ zero ↔ rc p b = 0);
  pi_cwf : cache_wf (cached_block_hash_to_block p);
  pi_cached : ∀ key b, b ∈ cached_under (cached_block_hash_to_block p) key ↔
                       1 ≤ b < num_gpu_blocks p ∧ bhash p b = Some key;
  pi_null_hash : bhash p 0 = None;
}.
(** The invariant between calls. *)
Definition pool_inv (p : BlockPool) (free : list ref) : Prop := pool_core p free free.

(** The part of the pool that no operation changes. *)
Definition pool_cfg (p : BlockPool) : Z * bool * Z * ref * bool :=
  (num_gpu_blocks p, enable_caching p, hash_block_size p, null_block p, enable_kv_cache_events p).

(** Attribute writes: what they change and what they leave. *)
Section writes.
Implicit Types (p : BlockPool) (b x : ref).

Definition written (f : heap → heap) (p : BlockPool) : BlockPool :=
  p <| free_block_queue ::= λ q, mkQueue (num_free_blocks q) (f (qheap q)) |>.

Lemma run_hwrite {B} f (k : unit → M BlockPool B) p : bind (hwrite f) k p = k tt (written f p).
Proof. done. Qed.

Lemma blk_written_upd b g p x :
  blk (written (upd b g) p) x = if decide (b = x) then g (blk p x) else blk p x.
Proof. unfold blk. simpl. case_decide; subst; [apply upd_same|by apply upd_other]. Qed.

Lemma written_rep (f : heap → heap) p free :
  (∀ h r, nxt (f h) r = nxt h r) → (∀ h r, prv (f h) r = prv h r) →
  queue_rep (free_block_queue p) free → queue_rep (free_block_queue (written f p)) free.
Proof. intros Hn Hp Hrep. by apply rep_payload_irrel. Qed.

Lemma links_set_ref_cnt b v h r : nxt (set_ref_cnt b v h) r = nxt h r ∧ prv (set_ref_cnt b v h) r = prv h r.
Proof.
  unfold nxt, prv, set_ref_cnt. destruct (decide (b = r)) as [->|];
    [by rewrite upd_same|by rewrite upd_other].
Qed.
Lemma links_set_hash b v h r : nxt (set_hash b v h) r = nxt h r ∧ prv (set_hash b v h) r = prv h r.
Proof.
  unfold nxt, prv, set_hash. destruct (decide (b = r)) as [->|];
    [by rewrite upd_same|by rewrite upd_other].
Qed.

Lemma rc_set_ref_cnt b v p x :
  rc (written (set_ref_cnt b v) p) x = if decide (b = x) then v else rc p x.
Proof. unfold rc, set_ref_cnt. rewrite blk_written_upd. by case_decide. Qed.
Lemma bhash_set_ref_cnt b v p x : bhash (written (set_ref_cnt b v) p) x = bhash p x.
Proof. unfold bhash, set_ref_cnt. rewrite blk_written_upd. by case_decide. Qed.
Lemma isnull_set_ref_cnt b v p x : isnull (written (set_ref_cnt b v) p) x = isnull p x.
Proof. unfold isnull, set_ref_cnt. rewrite blk_written_upd. by case_decide. Qed.
Lemma id_set_ref_cnt b v p x : blk_id (written (set_ref_cnt b v) p) x = blk_id p x.
Proof. unfold blk_id, set_ref_cnt. rewrite blk_written_upd. by case_decide. Qed.
Lemma rc_set_hash b v p x : rc (written (set_hash b v) p) x = rc p x.
Proof. unfold rc, set_hash. rewrite blk_written_upd. by case_decide. Qed.
Lemma bhash_set_hash b v p x :
  bhash (written (set_hash b v) p) x = if decide (b = x) then v else bhash p x.
Proof. unfold bhash, set_hash. rewrite blk_written_upd. by case_decide. Qed.
Lemma isnull_set_hash b v p x : isnull (written (set_hash b v) p) x = isnull p x.
Proof. unfold isnull, set_hash. rewrite blk_written_upd. by case_decide. Qed.
Lemma id_set_hash b v p x : blk_id (written (set_hash b v) p) x = blk_id p x.
Proof. unfold blk_id, set_hash. rewrite blk_written_upd. by case_decide. Qed.
End writes.

Create Rewrite HintDb attrs.
#[export] Hint Rewrite rc_set_ref_cnt bhash_set_ref_cnt isnull_set_ref_cnt id_set_ref_cnt
  rc_set_hash bhash_set_hash isnull_set_hash id_set_hash : attrs.
#[export] Hint Rewrite @run_hwrite : run.

(** A queue call leaves every attribute of every real block alone. *)
Lemma attrs_after_queue p q' x :
  heap_agree (qheap (free_block_queue p)) (qheap q') → 0 ≤ x →
  let p' := p <| free_block_queue := q' |> in
  rc p' x = rc p x ∧ bhash p' x = bhash p x ∧ isnull p' x = isnull p x ∧ blk_id p' x = blk_id p x.
Proof.
  intros Ha Hx. specialize (Ha x Hx). unfold payload in Ha.
  unfold rc, bhash, isnull, blk_id, blk. simpl. injection Ha as -> -> -> ->. done.
Qed.

(** Moving to another queue over the same attributes. *)
Lemma pool_core_queue p free zero q' free' :
  pool_core p free zero → queue_rep q' free' →
  heap_agree (qheap (free_block_queue p)) (qheap q') →
  (∀ b, b ∈ free' → 1 ≤ b < num_gpu_blocks p) →
  pool_core (p <| free_block_queue := q' |>) free' zero.
Proof.
  intros Hp Hq Ha Hf.
  assert (Hat : ∀ x, 0 ≤ x → _) by (intros x; apply (attrs_after_queue p q' x Ha)).
  destruct Hp as [H1 H2 H3 H4 H5 H6 H7 H8 H9 H10].
  split; try done.
  - intros b Hb. destruct (Hat b) as (_ & _ & _ & ->); [lia|]. auto.
  - intros b Hb. destruct (Hat b) as (_ & _ & -> & _); [lia|]. auto.
  - intros b Hb. destruct (Hat b) as (-> & _); [simpl in *; lia|]. auto.
  - intros key b. rewrite H9. simpl. split; intros [Hb ?]; (split; [done|]);
      destruct (Hat b) as (_ & Hh & _); [lia|congruence|lia|congruence].
  - destruct (Hat 0) as (_ & -> & _); [lia|done].
Qed.

(** Updating one reference count. *)
Lemma pool_core_ref p free zero b v zero' :
  pool_core p free zero → 0 ≤ b < num_gpu_blocks p →
  (b ≠ 0 → 0 ≤ v ∧ (b ∈ zero' ↔ v = 0)) →
  (∀ x, 1 ≤ x < num_gpu_blocks p → x ≠ b → x ∈ zero' ↔ x ∈ zero) →
  pool_core (written (set_ref_cnt b v) p) free zero'.
Proof.
  intros [H1 H2 H3 H4 H5 H6 H7 H8 H9 H10] Hb Hv Hz.
  split; try done.
  - apply written_rep; [intros; apply links_set_ref_cnt..|done].
  - intros x. autorewrite with attrs. apply H5.
  - intros x. autorewrite with attrs. apply H6.
  - intros x Hx. autorewrite with attrs. case_decide; [subst; apply Hv; lia|].
    rewrite Hz by done. by apply H7.
  - intros key x. autorewrite with attrs. apply H9.
  - autorewrite with attrs. done.
Qed.

Section operations_keep_the_invariant.
Context `{env : KVEnv}.

(** Hashes and table after the eviction of [b]. *)
Lemma pool_core_evict p free zero b key c' :
  pool_core p free zero → 1 ≤ b < num_gpu_blocks p → bhash p b = Some key → cache_wf c' →
  (∀ k, cached_under c' k = if decide (k = key)
                            then filter (λ x, x ≠ b) (cached_under (cached_block_hash_to_block p) key)
                            else cached_under (cached_block_hash_to_block p) k) →
  pool_core (written (set_hash b None) (p <| cached_block_hash_to_block := c' |>)) free zero.
Proof.
  intros [H1 H2 H3 H4 H5 H6 H7 H8 H9 H10] Hb Hh Hwf Hc.
  split; try done.
  - apply written_rep; [intros; apply links_set_hash..|done].
  - intros x. autorewrite with attrs. apply H5.
  - intros x. autorewrite with attrs. apply H6.
  - intros x. autorewrite with attrs. apply H7.
  - intros k x. autorewrite with attrs. simpl. rewrite Hc. repeat case_decide; subst.
    + rewrite list_elem_of_filter. naive_solver.
    + rewrite list_elem_of_filter, H9. naive_solver.
    + rewrite H9. change (bhash (p <| cached_block_hash_to_block := c' |>) x) with (bhash p x).
      naive_solver.
    + rewrite H9. done.
  - autorewrite with attrs. case_decide; [lia|done].
Qed.

Lemma evict_spec p free zero b :
  pool_core p free zero → 0 ≤ b < num_gpu_blocks p →
  ∃ p', _maybe_evict_cached_block b p = (Ok (is_some (bhash p b)), p') ∧
    pool_core p' free zero ∧ pool_cfg p' = pool_cfg p ∧
    (∀ x, rc p' x = rc p x) ∧ (∀ x, bhash p' x = if decide (b = x) then None else bhash p x).
Proof.
  intros Hp Hb. unfold _maybe_evict_cached_block. rewrite run_get.
  destruct (bhash p b) as [key|] eqn:Hh.
  2:{ exists p. split_and!; try done. intros x. by case_decide; subst. }
  assert (b ≠ 0). { intros ->. rewrite (pi_null_hash _ _ _ Hp) in Hh. done. }
  rewrite (pi_id _ _ _ Hp) by lia.
  destruct (cache_pop_present (blk_id p) (cached_block_hash_to_block p) key b)
    as (c' & -> & Hwf & Hc); [apply (pi_cwf _ _ _ Hp)|by apply (pi_id _ _ _ Hp)|
      apply (pi_cached _ _ _ Hp); split; [lia|done]|].
  rewrite run_put, run_hwrite.
  assert (Hcore : pool_core (written (set_hash b None) (p <| cached_block_hash_to_block := c' |>)) free zero)
    by (eapply pool_core_evict; eauto; lia).
  assert (Hev : ∀ p1 : BlockPool, ∃ p2,
    ((when (enable_kv_cache_events p) do
        modify (λ p, p <| kv_event_queue ::= λ q, q ++
          [EvBlockRemoved [maybe_convert_block_hash env_use_int_hashes (get_block_hash key)]
             (get_group_id key)] |>)) ;; ret true) p1 = (Ok true, p2) ∧
    p2 <| kv_event_queue := [] |> = p1 <| kv_event_queue := [] |>).
  { intros p1. destruct (enable_kv_cache_events p); eexists; (split; [reflexivity|done]). }
  destruct (Hev (written (set_hash b None) (p <| cached_block_hash_to_block := c' |>))) as (p2 & -> & He).
  exists p2. clear Hev. destruct p2. unfold pool_cfg in *. simpl in He. simplify_eq.
  split_and!; try done.
  - destruct Hcore. by split.
  - intros x. apply (rc_set_hash b None p x).
  - intros x. apply (bhash_set_hash b None p x).
Qed.

Lemma add_ref_spec b d p : add_ref b d p = (Ok tt, written (set_ref_cnt b (rc p b + d)) p).
Proof. done. Qed.

Lemma take_block_spec p free zero b :
  pool_core p free zero → b ∈ zero → 1 ≤ b < num_gpu_blocks p →
  ∃ p', take_block b p = (Ok tt, p') ∧ pool_core p' free (filter (λ x, x ≠ b) zero) ∧
    pool_cfg p' = pool_cfg p ∧
    (∀ x, rc p' x = if decide (b = x) then 1 else rc p x) ∧
    (∀ x, bhash p' x = if decide (b = x) then (if enable_caching p then None else bhash p x)
                       else bhash p x).
Proof.
  intros Hp Hbz Hb. unfold take_block. rewrite run_get.
  assert (Hev : ∃ p1, (if enable_caching p then _maybe_evict_cached_block b ;; ret tt else ret tt) p = (Ok tt, p1)
    ∧ pool_core p1 free zero ∧ pool_cfg p1 = pool_cfg p ∧ (∀ x, rc p1 x = rc p x) ∧
    (∀ x, bhash p1 x = if decide (b = x) then (if enable_caching p then None else bhash p x)
                       else bhash p x)).
  { destruct (enable_caching p) eqn:Hc.
    - destruct (evict_spec p free zero b) as (p1 & He & ? & ? & ? & ?); [done|lia|].
      exists p1. rewrite (bind_ok _ _ _ _ _ He). done.
    - exists p. split_and!; try done. intros x. by case_decide. }
  destruct Hev as (p1 & He & Hp1 & Hcfg & Hrc & Hh).
  rewrite (bind_ok _ _ _ _ _ He), run_get, run_assert, Hrc.
  destruct (pi_rc _ _ _ Hp b) as [_ Hz]; [lia|]. rewrite (proj1 Hz Hbz), Z.eqb_refl.
  rewrite add_ref_spec, Hrc, (proj1 Hz Hbz).
  eexists. split; [reflexivity|]. assert (num_gpu_blocks p1 = num_gpu_blocks p) by (unfold pool_cfg in Hcfg; by simplify_eq).
  split_and!; try done.
  - eapply pool_core_ref; [done|lia| |].
    + intros _. rewrite list_elem_of_filter. split; [lia|naive_solver].
    + intros x Hx Hne. rewrite list_elem_of_filter. naive_solver.
  - intros x. autorewrite with attrs. case_decide; [done|]. apply Hrc.
  - intros x. autorewrite with attrs. apply Hh.
Qed.

(** The loop of [get_new_blocks] over the popped blocks. *)
Lemma take_blocks_spec bs p free :
  pool_core p free (bs ++ free) → NoDup (bs ++ free) → (∀ b, b ∈ bs → 1 ≤ b < num_gpu_blocks p) →
  ∃ p', for_ bs take_block p = (Ok tt, p') ∧ pool_inv p' free ∧ pool_cfg p' = pool_cfg p ∧
    (∀ x, rc p' x = if decide (x ∈ bs) then 1 else rc p x) ∧
    (∀ x, bhash p' x = if decide (x ∈ bs) then (if enable_caching p then None else bhash p x)
                       else bhash p x).
Proof.
  revert p. induction bs as [|b bs IH]; intros p Hp Hnd Hr; simpl.
  { exists p. split_and!; try done; intros x; by rewrite decide_False by set_solver. }
  apply NoDup_cons in Hnd as [Hb Hnd].
  destruct (take_block_spec p free _ b Hp) as (p1 & He & Hp1 & Hcfg & Hrc & Hh);
    [by left|apply Hr; by left|].
  simpl in Hp1. rewrite filter_cons_False, filter_ne_notin in Hp1 by naive_solver.
  assert (num_gpu_blocks p1 = num_gpu_blocks p ∧ enable_caching p1 = enable_caching p) as [Hn Hc]
    by (unfold pool_cfg in Hcfg; by simplify_eq).
  destruct (IH p1 Hp1 Hnd) as (p' & He' & Hp' & Hcfg' & Hrc' & Hh').
  { intros x Hx. rewrite Hn. apply Hr. by right. }
  exists p'. rewrite (bind_ok _ _ _ _ _ He). split_and!; [done..|congruence| |].
  - intros x. rewrite Hrc', Hrc. repeat case_decide; set_solver.
  - intros x. rewrite Hh', Hh, Hc. repeat case_decide; set_solver.
Qed.

Lemma get_new_blocks_spec p free n :
  pool_inv p free → 0 ≤ n ≤ len free →
  ∃ p', get_new_blocks n p = (Ok (take (Z.to_nat n) free), p') ∧
    pool_inv p' (drop (Z.to_nat n) free) ∧ pool_cfg p' = pool_cfg p ∧
    (∀ x, 0 ≤ x → rc p' x = if decide (x ∈ take (Z.to_nat n) free) then 1 else rc p x) ∧
    (∀ x, 0 ≤ x → bhash p' x = if decide (x ∈ take (Z.to_nat n) free)
                               then (if enable_caching p then None else bhash p x) else bhash p x).
Proof.
  intros Hp Hn. unfold get_new_blocks. rewrite run_get. unfold get_num_free_blocks.
  rewrite (rep_count _ _ (pi_rep _ _ _ Hp)), (proj2 (Z.ltb_ge _ _)) by lia.
  destruct (popleft_n_rep _ _ n (pi_rep _ _ _ Hp) Hn) as (q' & He & Hrep & Ha).
  set (k := Z.to_nat n) in *.
  assert (Hq : queue (popleft_n n) p = (Ok (take k free), p <| free_block_queue := q' |>))
    by (unfold queue, zoom; by rewrite He).
  rewrite (bind_ok _ _ _ _ _ Hq).
  pose proof (rep_nodup _ _ (pi_rep _ _ _ Hp)) as Hnd.
  destruct (take_blocks_spec (take k free) (p <| free_block_queue := q' |>) (drop k free))
    as (p' & He' & Hp' & Hcfg & Hrc & Hh).
  - rewrite take_drop. eapply pool_core_queue; [done..|].
    intros b Hb. apply (pi_free _ _ _ Hp). rewrite <-(take_drop k free). set_solver.
  - by rewrite take_drop.
  - intros b Hb. apply (pi_free _ _ _ Hp). rewrite <-(take_drop k free). set_solver.
  - exists p'. rewrite (bind_ok _ _ _ _ _ He'). split_and!; [done..| |]; intros x Hx;
      destruct (attrs_after_queue p q' x Ha Hx) as (Hr & Hb & _); simpl in Hr, Hb;
      [rewrite Hrc, Hr|rewrite Hh, Hb]; done.
Qed.

Lemma get_new_blocks_short p free n :
  pool_inv p free → len free < n → get_new_blocks n p = (Raise ValueError, p).
Proof.
  intros Hp Hn. unfold get_new_blocks. rewrite run_get. unfold get_num_free_blocks.
  by rewrite (rep_count _ _ (pi_rep _ _ _ Hp)), (proj2 (Z.ltb_lt _ _)) by lia.
Qed.
End operations_keep_the_invariant.

(** Taking and dropping references. *)
Section reference_counts.
Context `{env : KVEnv}.

(** How often a block occurs in a list. *)
Fixpoint count (b : ref) (l : list ref) : Z :=
  match l with
  | [] => 0
  | x :: l' => (if x =? b then 1 else 0) + count b l'
  end.

Lemma count_nonneg b l : 0 ≤ count b l.
Proof. induction l; simpl; [lia|]. case_match; lia. Qed.
Lemma count_pos b l : 0 < count b l ↔ b ∈ l.
Proof.
  induction l as [|x l IH]; simpl; [split; [lia|by intros ?%not_elem_of_nil]|].
  rewrite elem_of_cons. pose proof (count_nonneg b l).
  destruct (Z.eqb_spec x b) as [->|]; [split; [by left|lia]|]. rewrite Z.add_0_l, IH. naive_solver.
Qed.
Lemma count_app b l k : count b (l ++ k) = count b l + count b k.
Proof. induction l as [|x l IH]; simpl; [done|]. rewrite IH. lia. Qed.
Lemma count_not_in b l : b ∉ l → count b l = 0.
Proof. intros H. pose proof (count_nonneg b l). rewrite <-count_pos in H. lia. Qed.
Lemma count_nodup b l : NoDup l → b ∈ l → count b l = 1.
Proof.
  induction l as [|x l IH]; simpl; [by intros _ ?%not_elem_of_nil|].
  intros [Hx Hnd]%NoDup_cons [->|Hb]%elem_of_cons.
  - rewrite Z.eqb_refl, count_not_in by done. lia.
  - rewrite (proj2 (Z.eqb_neq x b)) by set_solver. rewrite IH by done. lia.
Qed.

Lemma touch_one_spec p free b :
  pool_inv p free → 0 ≤ b < num_gpu_blocks p →
  ∃ p', touch_one b p = (Ok tt, p') ∧ pool_inv p' (filter (λ x, x ≠ b) free) ∧
    pool_cfg p' = pool_cfg p ∧ cached_block_hash_to_block p' = cached_block_hash_to_block p ∧
    (∀ x, 0 ≤ x → rc p' x = rc p x + if b =? x then 1 else 0) ∧
    (∀ x, 0 ≤ x → bhash p' x = bhash p x).
Proof.
  intros Hp Hb. unfold touch_one. rewrite run_get, (pi_isnull _ _ _ Hp) by done.
  destruct ((rc p b =? 0) && negb (bool_decide (b = 0))) eqn:E.
  - bool_to_prop. destruct (pi_rc _ _ _ Hp b) as [_ Hz]; [lia|].
    destruct (elem_of_split b free) as (l1 & l2 & ->); [by apply Hz|].
    pose proof (rep_nodup _ _ (pi_rep _ _ _ Hp)) as Hnd.
    destruct (remove_rep _ _ _ _ (pi_rep _ _ _ Hp)) as (q' & He & Hrep & Ha).
    assert (Hq : queue (remove b) p = (Ok tt, p <| free_block_queue := q' |>))
      by (unfold queue, zoom; by rewrite He).
    rewrite (bind_ok _ _ _ _ _ Hq), add_ref_spec. eexists. split; [reflexivity|].
    rewrite filter_ne_mid by done. destruct (NoDup_app_remove_mid _ _ _ Hnd) as [_ Hbn].
    assert (Hat := attrs_after_queue p q'). specialize (Hat b Ha ltac:(lia)) as Hb'.
    simpl in Hb'. destruct Hb' as (Hrb & _). split_and!; try done.
    + eapply pool_core_ref; [eapply pool_core_queue; [done..|]|done| |].
      * intros x Hx. apply (pi_free _ _ _ Hp). set_solver.
      * intros _. rewrite Hrb. split; [lia|]. split; [set_solver|lia].
      * intros x _ Hx. set_solver.
    + intros x Hx. autorewrite with attrs. destruct (Hat x Ha Hx) as (Hrx & _). simpl in Hrx.
      rewrite Hrx, Hrb. destruct (Z.eqb_spec b x); case_decide; simplify_eq; lia.
    + intros x Hx. autorewrite with attrs. by destruct (Hat x Ha Hx) as (_ & ? & _).
  - assert (Hbf : b ∉ free).
    { intros Hbf. pose proof (pi_free _ _ _ Hp b Hbf). destruct (pi_rc _ _ _ Hp b) as [_ Hz]; [lia|].
      apply Hz in Hbf. rewrite Hbf in E. rewrite bool_decide_eq_false_2 in E by lia. done. }
    rewrite run_ret, add_ref_spec. eexists. split; [reflexivity|]. rewrite filter_ne_notin by done.
    split_and!; try done.
    + eapply pool_core_ref; [done|done| |done]. intros Hb0.
      destruct (pi_rc _ _ _ Hp b) as [? Hz]; [lia|]. split; [lia|]. split; [done|lia].
    + intros x Hx. clear E. autorewrite with attrs. destruct (Z.eqb_spec b x); case_decide; simplify_eq; lia.
    + intros x Hx. autorewrite with attrs. done.
Qed.

Lemma touch_spec bs p free :
  pool_inv p free → (∀ b, b ∈ bs → 0 ≤ b < num_gpu_blocks p) →
  ∃ p', touch bs p = (Ok tt, p') ∧ pool_inv p' (filter (λ x, x ∉ bs) free) ∧
    pool_cfg p' = pool_cfg p ∧ cached_block_hash_to_block p' = cached_block_hash_to_block p ∧
    (∀ x, 0 ≤ x → rc p' x = rc p x + count x bs) ∧
    (∀ x, 0 ≤ x → bhash p' x = bhash p x).
Proof.
  unfold touch. revert p free. induction bs as [|b bs IH]; intros p free Hp Hr; simpl.
  { exists p. split_and!; try done; [|intros; lia].
    rewrite filter_all; [done|]. intros x _ Hx. by apply not_elem_of_nil in Hx. }
  destruct (touch_one_spec p free b) as (p1 & He & Hp1 & Hcfg & Hc & Hrc & Hh); [done|apply Hr; by left|].
  assert (num_gpu_blocks p1 = num_gpu_blocks p) as Hn by (unfold pool_cfg in Hcfg; by simplify_eq).
  destruct (IH p1 _ Hp1) as (p' & He' & Hp' & Hcfg' & Hc' & Hrc' & Hh').
  { intros x Hx. rewrite Hn. apply Hr. by right. }
  exists p'. rewrite (bind_ok _ _ _ _ _ He). split_and!; [done| |congruence|congruence| |].
  - rewrite list_filter_filter in Hp'. erewrite list_filter_iff; [exact Hp'|]. set_solver.
  - intros x Hx. rewrite Hrc', Hrc by done. lia.
  - intros x Hx. rewrite Hh', Hh by done. done.
Qed.

(** The decrement loop of [free_blocks]. *)
Lemma decref_loop bs p :
  for_ bs (λ b, add_ref b (-1)) p =
  (Ok tt, foldl (λ p b, written (set_ref_cnt b (rc p b - 1)) p) p bs).
Proof.
  revert p. induction bs as [|b bs IH]; intros p; simpl; [done|].
  rewrite (bind_ok _ _ _ _ _ (add_ref_spec b (-1) p)). rewrite IH. done.
Qed.

Lemma decref_core bs p free zero :
  pool_core p free zero → (∀ b, b ∈ bs → 0 ≤ b < num_gpu_blocks p) →
  NoDup (filter (λ b, b ≠ 0) bs) → (∀ b, b ∈ bs → b ≠ 0 → 1 ≤ rc p b) →
  let p' := foldl (λ p b, written (set_ref_cnt b (rc p b - 1)) p) p bs in
  pool_core p' free (zero ++ filter (λ b, b ≠ 0 ∧ rc p b = 1) bs) ∧
  pool_cfg p' = pool_cfg p ∧ cached_block_hash_to_block p' = cached_block_hash_to_block p ∧
  (∀ x, rc p' x = rc p x - count x bs) ∧ (∀ x, bhash p' x = bhash p x) ∧
  (∀ x, isnull p' x = isnull p x).
Proof.
  revert p zero. induction bs as [|b bs IH]; intros p zero Hp Hr Hnd Hrc; simpl.
  { rewrite app_nil_r. split_and!; try done. intros x. lia. }
  set (p1 := written (set_ref_cnt b (rc p b - 1)) p).
  set (zero1 := if decide (b ≠ 0 ∧ rc p b = 1) then zero ++ [b] else zero).
  assert (Hrb := Hr b ltac:(by left)).
  assert (Hp1 : pool_core p1 free zero1).
  { eapply pool_core_ref; [done|done| |].
    - intros Hb0. specialize (Hrc b (ltac:(by left)) Hb0). destruct (pi_rc _ _ _ Hp b) as [? Hz]; [lia|].
      split; [lia|]. unfold zero1. case_decide; [split; [lia|set_solver]|].
      split; [intros ?%Hz; lia|intros; naive_solver lia].
    - intros x _ Hx. unfold zero1. case_decide; set_solver. }
  assert (Hne : b ≠ 0 → (b ∉ bs) ∧ NoDup (filter (λ x, x ≠ 0) bs)).
  { intros Hb0. rewrite filter_cons_True in Hnd by done. apply NoDup_cons in Hnd as [Hb Hnd].
    split; [|done]. intros Hbs. apply Hb. by apply list_elem_of_filter. }
  assert (Hnd' : NoDup (filter (λ x, x ≠ 0) bs)).
  { destruct (decide (b = 0)) as [->|]; [|by apply Hne]. by rewrite filter_cons_False in Hnd by naive_solver. }
  assert (Hrc1 : ∀ x, x ≠ b → rc p1 x = rc p x).
  { intros x Hx. unfold p1. autorewrite with attrs. by rewrite decide_False. }
  destruct (IH p1 zero1 Hp1) as (Hc & Hcfg & Hca & Hrc' & Hh & Hi); [intros; apply Hr; by right|done| |].
  { intros x Hx Hx0. rewrite Hrc1; [apply Hrc; [by right|done]|]. intros ->. by destruct (Hne Hx0). }
  split_and!; [|done..| | |].
  - assert (Heq : zero1 ++ filter (λ x, x ≠ 0 ∧ rc p1 x = 1) bs
                  = zero ++ filter (λ x, x ≠ 0 ∧ rc p x = 1) (b :: bs)).
    { rewrite (filter_ext_in _ (λ x, x ≠ 0 ∧ rc p x = 1) bs).
      2:{ intros x Hx. split; intros [Hx0 Hx1]; (split; [done|]);
            (rewrite Hrc1 in * by (intros ->; by destruct (Hne Hx0))); done. }
      unfold zero1. case_decide.
      - rewrite filter_cons_True by done. by rewrite <-app_assoc.
      - by rewrite filter_cons_False by done. }
    rewrite <-Heq. exact Hc.
  - intros x. rewrite Hrc'. unfold p1. autorewrite with attrs.
    destruct (Z.eqb_spec b x); case_decide; simplify_eq; lia.
  - intros x. rewrite Hh. unfold p1. by autorewrite with attrs.
  - intros x. rewrite Hi. unfold p1. by autorewrite with attrs.
Qed.

Lemma free_blocks_spec bs p free :
  pool_inv p free → (∀ b, b ∈ bs → 0 ≤ b < num_gpu_blocks p) →
  NoDup (filter (λ b, b ≠ 0) bs) → (∀ b, b ∈ bs → b ≠ 0 → 1 ≤ rc p b) →
  ∃ p', free_blocks bs p = (Ok tt, p') ∧
    pool_inv p' (free ++ filter (λ b, b ≠ 0 ∧ rc p b = 1) bs) ∧
    pool_cfg p' = pool_cfg p ∧ cached_block_hash_to_block p' = cached_block_hash_to_block p ∧
    (∀ x, 0 ≤ x → rc p' x = rc p x - count x bs) ∧ (∀ x, 0 ≤ x → bhash p' x = bhash p x).
Proof.
  intros Hp Hr Hnd Hrc. unfold free_blocks. rewrite (bind_ok _ _ _ _ _ (decref_loop bs p)), run_get.
  destruct (decref_core bs p free free Hp Hr Hnd Hrc) as (Hc & Hcfg & Hca & Hrc' & Hh & Hi).
  set (p1 := foldl _ p bs) in *. cbv zeta in Hc.
  set (fr := filter (λ b, b ≠ 0 ∧ rc p b = 1) bs) in *.
  assert (Hcnt : ∀ b, b ∈ bs → b ≠ 0 → count b bs = 1).
  { intros b Hb Hb0. clear -Hnd Hb Hb0. induction bs as [|x bs IH]; [by apply not_elem_of_nil in Hb|].
    simpl. destruct (Z.eqb_spec x b) as [->|Hx].
    - rewrite filter_cons_True in Hnd by done. apply NoDup_cons in Hnd as [Hn _].
      rewrite count_not_in; [lia|]. intros Hb'. apply Hn. by apply list_elem_of_filter.
    - rewrite IH; [lia| |set_solver]. destruct (decide (x = 0)) as [->|].
      + by rewrite filter_cons_False in Hnd by naive_solver.
      + rewrite filter_cons_True in Hnd by done. by apply NoDup_cons in Hnd as [_ ?]. }
  assert (Hfr : filter (λ b, (rc p1 b =? 0) && negb (isnull p1 b)) bs = fr).
  { apply filter_ext_in. intros b Hb. rewrite Is_true_true, andb_true_iff, Z.eqb_eq, Hi, Hrc'.
    rewrite (pi_isnull _ _ _ Hp), negb_true_iff, bool_decide_eq_false by auto.
    destruct (decide (b = 0)); [naive_solver|]. rewrite Hcnt by done. naive_solver lia. }
  rewrite Hfr.
  destruct (append_n_rep (free_block_queue p1) free fr) as (q' & He & Hrep & Ha).
  - apply (pi_rep _ _ _ Hc).
  - unfold fr. rewrite <-(list_filter_filter_l _ (λ b, b ≠ 0)) by naive_solver. by apply NoDup_filter.
  - apply Forall_forall. intros b [_ Hb]%list_elem_of_filter. specialize (Hr b Hb). lia.
  - intros b [[Hb0 Hb1] Hb]%list_elem_of_filter Hbf. pose proof (pi_free _ _ _ Hp b Hbf).
    destruct (pi_rc _ _ _ Hp b) as [_ Hz]; [lia|]. apply Hz in Hbf. lia.
  - assert (Hnum : num_gpu_blocks p1 = num_gpu_blocks p) by (unfold pool_cfg in Hcfg; by simplify_eq).
    exists (p1 <| free_block_queue := q' |>). split; [unfold queue, zoom; by rewrite He|].
    split_and!; [|done..| |].
    + eapply pool_core_queue; [done..|]. intros b [Hb|Hb]%elem_of_app; rewrite Hnum.
      * by apply (pi_free _ _ _ Hp).
      * apply list_elem_of_filter in Hb as [[? _] Hb]. specialize (Hr b Hb). lia.
    + intros x Hx. destruct (attrs_after_queue p1 q' x Ha Hx) as (Hx1 & _). simpl in Hx1.
      rewrite Hx1. apply Hrc'.
    + intros x Hx. destruct (attrs_after_queue p1 q' x Ha Hx) as (_ & Hx1 & _). simpl in Hx1.
      rewrite Hx1. apply Hh.
Qed.
End reference_counts.
(** Caching, eviction and reset. *)
Section caching.
Context `{env : KVEnv}.

Lemma pool_cfg_num p p' : pool_cfg p' = pool_cfg p → num_gpu_blocks p' = num_gpu_blocks p.
Proof. unfold pool_cfg. by intros; simplify_eq. Qed.

(** Giving an unhashed block the key it is cached under. *)
Lemma pool_core_cache p free zero b key :
  pool_core p free zero → 1 ≤ b < num_gpu_blocks p → bhash p b = None →
  pool_core (written (set_hash b (Some key)) p <| cached_block_hash_to_block ::= λ c,
               cache_insert (blk_id (written (set_hash b (Some key)) p)) c key b |>) free zero.
Proof.
  intros [H1 H2 H3 H4 H5 H6 H7 H8 H9 H10] Hb Hh.
  destruct (cache_insert_spec (blk_id (written (set_hash b (Some key)) p))
              (cached_block_hash_to_block p) key b) as [Hwf Hc]; [done| | |].
  { intros x [->|Hx]%elem_of_cons; autorewrite with attrs; apply H5; [lia|].
    apply H9 in Hx. lia. }
  { intros [_ Hx]%H9. congruence. }
  split; try done.
  - apply (written_rep (set_hash b (Some key)) p); [intros; apply links_set_hash..|done].
  - intros x Hx. etrans; [apply (id_set_hash b (Some key))|by apply H5].
  - intros x Hx. etrans; [apply (isnull_set_hash b (Some key))|by apply H6].
  - intros x Hx. change (rc _ x) with (rc (written (set_hash b (Some key)) p) x).
    autorewrite with attrs. by apply H7.
  - intros k x. change (bhash _ x) with (bhash (written (set_hash b (Some key)) p) x).
    autorewrite with attrs. simpl cached_block_hash_to_block. rewrite Hc.
    repeat case_decide; subst; rewrite ?elem_of_app, ?list_elem_of_singleton, ?H9; simpl; naive_solver lia.
  - change (bhash _ 0) with (bhash (written (set_hash b (Some key)) p) 0).
    autorewrite with attrs. rewrite decide_False by lia. done.
Qed.

Lemma make_block_hash_eq h g :
  0 ≤ g < 2 ^ 32 → make_block_hash_with_group_id h g = Ok (h ++ to_bytes_be 4 g).
Proof.
  intros Hg. unfold make_block_hash_with_group_id.
  by rewrite (proj2 (Z.leb_le _ _)), (proj2 (Z.ltb_lt _ _)) by lia.
Qed.

Lemma cache_loop_spec hs g bs p free zero i :
  pool_core p free zero → 0 ≤ g < 2 ^ 32 → 0 ≤ i → i + len bs ≤ len hs →
  (∀ b, b ∈ bs → 0 ≤ b < num_gpu_blocks p) → NoDup (filter (λ b, b ≠ 0) bs) →
  (∀ b, b ∈ bs → bhash p b = None) →
  ∃ ext p', cache_loop hs g i bs p = (Ok ext, p') ∧ pool_core p' free zero ∧
    pool_cfg p' = pool_cfg p ∧ kv_event_queue p' = kv_event_queue p ∧
    (∀ x, rc p' x = rc p x) ∧ (∀ x, isnull p' x = isnull p x) ∧
    (∀ j b, bs !! j = Some b → b ≠ 0 →
       ∃ h, hs !! (Z.to_nat i + j)%nat = Some h ∧ bhash p' b = Some (h ++ to_bytes_be 4 g)) ∧
    (∀ x, x ∉ bs ∨ x = 0 → bhash p' x = bhash p x).
Proof.
  intros Hp Hg. revert p Hp i. induction bs as [|b bs IH]; intros p Hp i Hi Hl Hr Hnd Hh.
  { exists [], p. simpl. split_and!; try done. }
  simpl. rewrite run_get, (pi_isnull _ _ _ Hp) by (apply Hr; by left).
  rewrite len_cons in Hl. assert (Hrb := Hr b ltac:(by left)).
  destruct (decide (b = 0)) as [->|Hb0].
  - rewrite bool_decide_eq_true_2 by done. rewrite filter_cons_False in Hnd by naive_solver.
    destruct (IH p Hp (i + 1)) as (ext & p' & He & Hp' & Hcfg & Hev & Hrc & Hnu & Hj & Hx); [lia|lia|set_solver|done|set_solver|].
    exists ext, p'. split_and!; try done.
    + intros [|j] b Hb Hb0; simpl in Hb; [congruence|].
      replace (Z.to_nat i + S j)%nat with (Z.to_nat (i + 1) + j)%nat by lia. eauto.
    + intros x Hx'. apply Hx. set_solver.
  - rewrite bool_decide_eq_false_2 by done. rewrite filter_cons_True in Hnd by done.
    apply NoDup_cons in Hnd as [Hb Hnd].
    assert (Hbs : b ∉ bs) by (intros ?; apply Hb; by apply list_elem_of_filter).
    assert (Hbn := Hh b ltac:(by left)). rewrite run_assert, Hbn. simpl is_none. cbv iota.
    rewrite run_of_option, py_nth_nonneg by lia.
    destruct (hs !! Z.to_nat i) as [h|] eqn:Eh.
    2:{ apply lookup_ge_None in Eh. pose proof (len_nonneg bs). unfold len in *. lia. }
    rewrite run_of_res, make_block_hash_eq by done. unfold set_block_hash.
    rewrite bind_assoc, run_get, bind_assoc, run_assert, Hbn. simpl is_none. cbv iota.
    rewrite run_hwrite, run_modify. set (key := h ++ to_bytes_be 4 g).
    match goal with |- context [bind (cache_loop _ _ _ _) _ ?q] => set (p1 := q) end.
    assert (Hp1 : pool_core p1 free zero) by (apply pool_core_cache; [done|lia|done]).
    assert (Hh1 : ∀ x, bhash p1 x = if decide (b = x) then Some key else bhash p x)
      by (intros x; apply (bhash_set_hash b (Some key) p x)).
    destruct (IH p1 Hp1 (i + 1)) as (ext & p' & He & Hp' & Hcfg & Hev & Hrc & Hnu & Hj & Hx);
      [lia|lia|intros x Hx; change (num_gpu_blocks p1) with (num_gpu_blocks p); apply Hr; by right|done| |].
    { intros x Hx. rewrite Hh1. case_decide; [congruence|]. apply Hh. by right. }
    rewrite (bind_ok _ _ _ _ _ He). eexists _, p'. split; [reflexivity|]. split_and!; try done.
    + intros x. rewrite Hrc. apply (rc_set_hash b (Some key) p x).
    + intros x. rewrite Hnu. apply (isnull_set_hash b (Some key) p x).
    + intros [|j] b' Hb' Hb'0; simpl in Hb'.
      * simplify_eq. exists h. rewrite Nat.add_0_r. split; [done|].
        rewrite Hx, Hh1 by (by left). by rewrite decide_True.
      * replace (Z.to_nat i + S j)%nat with (Z.to_nat (i + 1) + j)%nat by lia. eauto.
    + intros x Hx'. rewrite Hx, Hh1 by set_solver. rewrite decide_False by set_solver. done.
Qed.

Lemma bh_slice_from_list H n : 0 ≤ n → bh_slice_from H n = drop (Z.to_nat n) (bh_list H).
Proof.
  intros Hn. destruct H as [l|b]; simpl; [by apply slice_from_nonneg|].
  unfold bhl_slice_from, bhl_iter, slice_bound. rewrite (proj2 (Z.ltb_ge n 0)) by lia.
  rewrite <-fmap_drop. f_equal. destruct (decide (bhl_len b ≤ 0)).
  - rewrite !seqZ_nil by lia. by rewrite drop_nil.
  - destruct (decide (n ≤ bhl_len b)).
    + rewrite Z.min_l, Z2Nat.id by lia.
      apply list_eq. intros i. rewrite lookup_drop. apply option_eq. intros x.
      rewrite !lookup_seqZ. lia.
    + rewrite Z.min_r, Z2Nat.id, Z.sub_diag by lia. rewrite drop_ge; [done|].
      rewrite length_seqZ. lia.
Qed.

Lemma bh_at_in_range H i : 0 ≤ i < len (bh_list H) → ∃ h, bh_at H i = Ok h.
Proof.
  destruct H as [l|b]; simpl; [|eauto]. intros Hi. rewrite py_nth_nonneg by lia.
  destruct (l !! Z.to_nat i) eqn:E; [eauto|]. apply lookup_ge_None in E. unfold len in *. lia.
Qed.

(** The extra keys for the event are computed without error. *)
Lemma event_extra_keys_ok fuel r blocks p bs i n idx :
  mm_wf (mm_features r) → memo_ok env_sha256 r → 0 < bs → 0 ≤ i → n ≤ len blocks →
  mm_idx_ok (mm_features r) idx (i * bs) →
  ∃ eks, event_extra_keys fuel r blocks p bs i n idx = Ok eks.
Proof.
  intros Hwf Hm Hbs. revert i idx. induction fuel as [|fuel IH]; intros i idx Hi Hn Hidx; simpl; [eauto|].
  case_bool; bool_to_prop; [eauto|]. rewrite py_nth_nonneg by lia.
  destruct (blocks !! Z.to_nat i) as [b|] eqn:Eb.
  2:{ apply lookup_ge_None in Eb. unfold len in *. lia. }
  assert (Hmono : ∀ j, mm_idx_ok (mm_features r) j (i * bs) → mm_idx_ok (mm_features r) j ((i + 1) * bs)).
  { intros j [Hj Hd]. split; [done|]. eapply mm_done_mono; [|exact Hd]. lia. }
  destruct (isnull p b); [apply IH; [lia|lia|by apply Hmono]|].
  destruct (generate_extra_spec env_sha256 r (i * bs) (i * bs + bs) idx) as (j & m & -> & _ & Hj);
    [done..|lia|done|]. simpl.
  destruct (IH (i + 1) j) as (rest & ->); [lia|lia| |eauto].
  by replace ((i + 1) * bs) with (i * bs + bs) by lia.
Qed.

(** What caching the blocks [nc, ..., nf - 1] needs of its caller. *)
Record cacheable (p : BlockPool) (r : Request) (blocks : list ref) (nc nf bs : Z) (H : BlockHashList) : Prop := {
  ca_range : 0 ≤ nc ∧ nf ≤ len blocks;
  ca_hashes : hashes_at (hash_block_size p) (block_hashes r) bs = Ok H;
  ca_enough : nf ≤ len (bh_list H) ∧ nf ≤ len (block_hashes r);
  ca_bs : 0 < bs;
  ca_mm : mm_wf (mm_features r);
  ca_memo : memo_ok env_sha256 r;
  ca_blocks : ∀ b, b ∈ slice blocks nc nf → 0 ≤ b < num_gpu_blocks p;
  ca_nodup : NoDup (filter (λ b, b ≠ 0) (slice blocks nc nf));
  ca_unhashed : ∀ b, b ∈ slice blocks nc nf → bhash p b = None;
}.

Lemma cache_full_blocks_spec p free r blocks nc nf bs g H :
  pool_inv p free → 0 ≤ g < 2 ^ 32 → cacheable p r blocks nc nf bs H →
  ∃ p', cache_full_blocks r blocks nc nf bs g p = (Ok tt, p') ∧ pool_inv p' free ∧
    pool_cfg p' = pool_cfg p ∧ (∀ x, rc p' x = rc p x) ∧
    (∀ j b, nc ≤ Z.of_nat j < nf → blocks !! j = Some b → b ≠ 0 →
       ∃ h, bh_list H !! j = Some h ∧ bhash p' b = Some (h ++ to_bytes_be 4 g)) ∧
    (∀ x, x ∉ slice blocks nc nf ∨ x = 0 → bhash p' x = bhash p x).
Proof.
  intros Hp Hg [[Hnc Hnf] HH [Hen Hen'] Hbs Hmm Hmemo Hr Hnd Hh]. unfold cache_full_blocks.
  destruct (Z.leb_spec nf nc) as [Hle|Hlt].
  { exists p. split_and!; try done. intros; lia. }
  rewrite run_assert, (proj2 (Z.leb_le _ _)) by done. rewrite run_get, run_of_res, HH.
  rewrite bh_slice_from_list by done.
  destruct (cache_loop_spec (drop (Z.to_nat nc) (bh_list H)) g (slice blocks nc nf) p free free 0)
    as (ext & p1 & He & Hp1 & Hcfg & Hevq & Hrc & Hnu & Hj & Hx); [done|done|lia| |done..|].
  { rewrite length_slice by lia. unfold len in *. rewrite length_drop. lia. }
  rewrite (bind_ok _ _ _ _ _ He), run_get.
  match goal with |- ∃ p', ?m p1 = _ ∧ _ => assert (Hev : ∃ q, m p1 = (Ok tt, p1 <| kv_event_queue := q |>)) end.
  { destruct (enable_kv_cache_events p1) eqn:Een.
    2:{ exists (kv_event_queue p1). by destruct p1. }
    destruct (event_extra_keys_ok (Z.to_nat (nf - nc)) r blocks p1 bs nc nf 0) as (eks & Hek);
      [done..|split; [lia|by constructor]|].
    destruct (Z.eqb_spec nc 0) as [->|Hn0].
    - rewrite run_ret, run_of_res, Hek. eexists. reflexivity.
    - destruct (bh_at_in_range H (nc - 1)) as (h & Hat); [lia|].
      rewrite bind_assoc, run_of_res, Hat, run_ret, run_of_res, Hek. eexists. reflexivity. }
  destruct Hev as (q & ->). eexists. split; [reflexivity|]. split_and!; try done.
  - destruct Hp1. by split.
  - intros j b Hjr Hb Hb0. destruct (Hj (j - Z.to_nat nc)%nat b) as (h & Hl & Hbh); [|done|].
    + rewrite slice_in_range by lia. rewrite lookup_take, lookup_drop. case_decide; [|lia].
      rewrite <-Hb. f_equal. lia.
    + exists h. rewrite lookup_drop in Hl. split; [rewrite <-Hl; f_equal; lia|done].
Qed.

Lemma evict_blocks_spec ids p free :
  pool_inv p free → (∀ i, i ∈ ids → 0 ≤ i < num_gpu_blocks p) →
  ∃ p', evict_blocks ids p = (Ok tt, p') ∧ pool_inv p' free ∧ pool_cfg p' = pool_cfg p ∧
    (∀ x, rc p' x = rc p x) ∧ (∀ x, bhash p' x = if decide (x ∈ ids) then None else bhash p x).
Proof.
  unfold evict_blocks. revert p. induction ids as [|i ids IH]; intros p Hp Hr; simpl.
  { exists p. split_and!; done. }
  assert (Hi := Hr i ltac:(by left)).
  rewrite !bind_assoc, run_get, !bind_assoc, run_assert, (proj2 (Z.ltb_lt _ _)) by lia.
  rewrite bind_assoc, run_of_option, py_nth_nonneg by lia.
  assert (seqZ 0 (num_gpu_blocks p) !! Z.to_nat i = Some i) as ->
    by (apply lookup_seqZ; lia).
  destruct (evict_spec p free free i Hp Hi) as (p1 & He & Hp1 & Hcfg & Hrc & Hh).
  rewrite bind_assoc, (bind_ok _ _ _ _ _ He), run_ret.
  destruct (IH p1 Hp1) as (p' & He' & Hp' & Hcfg' & Hrc' & Hh').
  { intros x Hx. rewrite (pool_cfg_num _ _ Hcfg). apply Hr. by right. }
  exists p'. split_and!; [done|done|congruence| |].
  - intros x. by rewrite Hrc', Hrc.
  - intros x. rewrite Hh', Hh. repeat case_decide; set_solver.
Qed.

Lemma clear_hashes l p :
  ∃ p', for_ l (λ b, hwrite (set_hash b None)) p = (Ok tt, p') ∧ pool_cfg p' = pool_cfg p ∧
    cached_block_hash_to_block p' = cached_block_hash_to_block p ∧
    kv_event_queue p' = kv_event_queue p ∧
    (∀ x, bhash p' x = if decide (x ∈ l) then None else bhash p x) ∧
    (∀ x, rc p' x = rc p x) ∧ (∀ x, isnull p' x = isnull p x) ∧ (∀ x, blk_id p' x = blk_id p x) ∧
    (∀ free, queue_rep (free_block_queue p) free → queue_rep (free_block_queue p') free).
Proof.
  revert p. induction l as [|b l IH]; intros p; simpl.
  { exists p. split_and!; done. }
  rewrite run_hwrite. destruct (IH (written (set_hash b None) p))
    as (p' & He & Hcfg & Hc & Hq & Hh & Hrc & Hnu & Hid & Hrep).
  exists p'. split_and!; try done.
  - intros x. rewrite Hh. autorewrite with attrs. repeat case_decide; set_solver.
  - intros x. rewrite Hrc. by autorewrite with attrs.
  - intros x. rewrite Hnu. by autorewrite with attrs.
  - intros x. rewrite Hid. by autorewrite with attrs.
  - intros free Hf. apply Hrep. apply written_rep; [intros; apply links_set_hash..|done].
Qed.

(** The number of blocks in use, the null block included. *)
Lemma used_blocks p free :
  pool_inv p free → num_gpu_blocks p - get_num_free_blocks p = 1 ↔
  ∀ b, 1 ≤ b < num_gpu_blocks p → rc p b = 0.
Proof.
  intros Hp. unfold get_num_free_blocks. rewrite (rep_count _ _ (pi_rep _ _ _ Hp)).
  pose proof (rep_nodup _ _ (pi_rep _ _ _ Hp)) as Hnd. pose proof (pi_num _ _ _ Hp).
  assert (Hsub : free ⊆+ seqZ 1 (num_gpu_blocks p - 1)).
  { apply NoDup_submseteq; [done|]. intros b Hb%(pi_free _ _ _ Hp). apply elem_of_seqZ. lia. }
  split.
  - intros Hl b Hb. apply (pi_rc _ _ _ Hp b Hb).
    assert (Hperm : free ≡ₚ seqZ 1 (num_gpu_blocks p - 1)).
    { apply submseteq_length_Permutation; [done|]. rewrite length_seqZ. unfold len in Hl. lia. }
    rewrite Hperm, elem_of_seqZ. lia.
  - intros Hz. assert (Hsub' : seqZ 1 (num_gpu_blocks p - 1) ⊆+ free).
    { apply NoDup_submseteq; [apply NoDup_seqZ|]. intros b Hb%elem_of_seqZ.
      apply (pi_rc _ _ _ Hp b); [lia|]. apply Hz. lia. }
    apply submseteq_length in Hsub, Hsub'. rewrite length_seqZ in *. unfold len. lia.
Qed.

Lemma reset_prefix_cache_spec p free :
  pool_inv p free →
  (∃ p', reset_prefix_cache p = (Ok true, p') ∧ pool_inv p' free ∧ pool_cfg p' = pool_cfg p ∧
    cached_block_hash_to_block p' = ∅ ∧ (∀ x, rc p' x = rc p x) ∧
    (∀ b, 0 ≤ b < num_gpu_blocks p → rc p b = 0 ∨ b = 0) ∧
    (∀ b, 0 ≤ b < num_gpu_blocks p → bhash p' b = None)) ∨
  (reset_prefix_cache p = (Ok false, p) ∧ ∃ b, 1 ≤ b < num_gpu_blocks p ∧ rc p b ≠ 0).
Proof.
  intros Hp. unfold reset_prefix_cache. rewrite run_get. cbv zeta.
  pose proof (used_blocks p free Hp) as Hu.
  destruct (Z.eqb_spec (num_gpu_blocks p - get_num_free_blocks p) 1) as [E|E]; cbn [negb].
  - left. rewrite run_put.
    destruct (clear_hashes (seqZ 0 (num_gpu_blocks p)) (p <| cached_block_hash_to_block := ∅ |>))
      as (p1 & He & Hcfg & Hc & Hq & Hh & Hrc & Hnu & Hid & Hrep).
    rewrite (bind_ok _ _ _ _ _ He).
    assert (Hall : ∀ b, 0 ≤ b < num_gpu_blocks p → bhash p1 b = None).
    { intros b Hb. rewrite Hh, decide_True; [done|]. apply elem_of_seqZ. lia. }
    assert (Hn : num_gpu_blocks p1 = num_gpu_blocks p) by (by rewrite (pool_cfg_num _ _ Hcfg)).
    assert (Hp1 : pool_inv p1 free).
    { destruct Hp as [H1 H2 H3 H4 H5 H6 H7 H8 H9 H10]. split.
      - by apply Hrep.
      - lia.
      - unfold pool_cfg in Hcfg. simpl in Hcfg. congruence.
      - intros b Hb. rewrite Hn. auto.
      - intros b Hb. rewrite Hid. apply H5. lia.
      - intros b Hb. rewrite Hnu. apply H6. lia.
      - intros b Hb. rewrite Hrc. apply H7. lia.
      - rewrite Hc. apply cache_wf_empty.
      - intros key b. rewrite Hc. simpl. unfold cached_under. rewrite lookup_empty. split.
        + by intros ?%not_elem_of_nil.
        + intros [Hb Hbh]. rewrite Hall in Hbh by lia. done.
      - apply Hall. lia. }
    assert (Hzero : ∀ b, 0 ≤ b < num_gpu_blocks p → rc p b = 0 ∨ b = 0).
    { intros b Hb. destruct (decide (b = 0)); [by right|left]. apply Hu; [done|lia]. }
    destruct (enable_kv_cache_events p);
      (eexists; split; [reflexivity|]); (split_and!; [by destruct Hp1|done..]).
  - right. split; [done|]. destruct (decide (Exists (λ b, rc p b ≠ 0) (seqZ 1 (num_gpu_blocks p - 1)))) as [Hex|Hex].
    + apply Exists_exists in Hex as (b & Hb%elem_of_seqZ & ?). exists b. split; [lia|done].
    + destruct E. apply Hu. intros b Hb. destruct (decide (rc p b = 0)); [done|]. destruct Hex.
      apply Exists_exists. exists b. split; [apply elem_of_seqZ; lia|done].
Qed.

(** A new pool holds every block but the null block, in order. *)
Lemma BlockPool_init_spec n caching hbs ev :
  0 < n → ∃ p, BlockPool_init n caching hbs ev = Ok p ∧ pool_inv p (seqZ 1 (n - 1)) ∧
    pool_cfg p = (n, caching, hbs, 0, ev) ∧ cached_block_hash_to_block p = ∅.
Proof.
  intros Hn. unfold BlockPool_init. rewrite (proj2 (Z.ltb_lt _ _)) by done.
  assert (Hlk : ∀ r, new_blocks n !!! r = if decide (0 ≤ r < n) then new_KVCacheBlock r else inhabitant).
  { intros r. unfold new_blocks. rewrite lookup_total_alt. case_decide as Hr.
    - erewrite elem_of_list_to_map_1; [done| |].
      + rewrite <-list_fmap_compose. simpl. rewrite list_fmap_id. apply NoDup_seqZ.
      + apply list_elem_of_fmap. exists r. split; [done|]. apply elem_of_seqZ. lia.
    - rewrite not_elem_of_list_to_map_1; [done|]. rewrite <-list_fmap_compose. simpl.
      rewrite list_fmap_id, elem_of_seqZ. lia. }
  destruct (FreeKVCacheBlockQueue_init_rep (seqZ 0 n) (mkQueue 0 (new_blocks n))) as (q & -> & Hq & Ha).
  { apply NoDup_seqZ. }
  { apply Forall_forall. intros x Hx%elem_of_seqZ. lia. }
  { intros r. unfold nxt, prv. simpl. rewrite Hlk. by case_decide. }
  rewrite seqZ_cons in Hq by lia. destruct (popleft_rep _ _ _ Hq) as (q' & -> & Hq' & Ha').
  assert (Hat : ∀ x, 0 ≤ x < n → payload (qheap q' !!! x) = payload (new_KVCacheBlock x)).
  { intros x Hx. rewrite (Ha' x), (Ha x) by lia. simpl. rewrite Hlk, decide_True by lia. done. }
  eexists. split; [reflexivity|]. split; [|done].
  assert (Hb : ∀ x, 0 ≤ x < n → set_is_null 0 true (qheap q') !!! x =
            mkKVCacheBlock x 0 None (prv (qheap q') x) (nxt (qheap q') x) (bool_decide (x = 0))).
  { intros x Hx. specialize (Hat x Hx). unfold payload in Hat. unfold set_is_null.
    destruct (qheap q' !!! x) as [] eqn:E. simpl in Hat. simplify_eq.
    destruct (decide (x = 0)) as [->|].
    - rewrite upd_same. unfold prv, nxt. by rewrite E.
    - rewrite upd_other, bool_decide_eq_false_2 by done. unfold prv, nxt. by rewrite E. }
  split; simpl; try done.
  - apply (rep_payload_irrel q'); [exact Hq'|..]; intros r; unfold nxt, prv, set_is_null; simpl;
      (destruct (decide (0 = r)) as [<-|]; [by rewrite upd_same|by rewrite upd_other]).
  - intros b Hb'%elem_of_seqZ. lia.
  - intros b Hr. unfold blk_id, blk. simpl. by rewrite Hb.
  - intros b Hr. unfold isnull, blk. simpl. by rewrite Hb.
  - intros b Hr. unfold rc, blk. simpl. rewrite Hb by lia. simpl. rewrite elem_of_seqZ. lia.
  - intros key b. unfold cached_under. rewrite lookup_empty. unfold bhash, blk. simpl. split.
    + by intros ?%not_elem_of_nil.
    + intros [Hr Hh]. by rewrite Hb in Hh by lia.
  - unfold bhash, blk. simpl. by rewrite Hb by lia.
Qed.

(** Lookup, group by group, finds blocks that carry the hash. *)
Lemma get_cached_block_spec p free h gs :
  pool_inv p free → Forall (λ g, 0 ≤ g < 2 ^ 32) gs →
  (∃ bs, get_cached_block p h gs = Ok (Some bs) ∧
     Forall2 (λ g b, 1 ≤ b < num_gpu_blocks p ∧ bhash p b = Some (h ++ to_bytes_be 4 g)) gs bs) ∨
  (get_cached_block p h gs = Ok None ∧
     ∃ g, g ∈ gs ∧ ∀ b, 1 ≤ b < num_gpu_blocks p → bhash p b ≠ Some (h ++ to_bytes_be 4 g)).
Proof.
  intros Hp. induction 1 as [|g gs Hg _ IH]; simpl; [left; by exists []|].
  rewrite make_block_hash_eq, get_one_block_spec by (done || apply (pi_cwf _ _ _ Hp)).
  destruct (cached_under _ _) as [|b l] eqn:E; simpl.
  - right. split; [done|]. exists g. split; [by left|]. intros b Hb Hh.
    assert (b ∈ cached_under (cached_block_hash_to_block p) (h ++ to_bytes_be 4 g)) as Hin
      by (by apply (pi_cached _ _ _ Hp)).
    rewrite E in Hin. by apply not_elem_of_nil in Hin.
  - assert (Hin : b ∈ cached_under (cached_block_hash_to_block p) (h ++ to_bytes_be 4 g))
      by (rewrite E; by left).
    apply (pi_cached _ _ _ Hp) in Hin. destruct IH as [(bs & -> & HF)|(-> & g' & ? & ?)].
    + left. exists (b :: bs). split; [done|]. by constructor.
    + right. split; [done|]. exists g'. split; [by right|done].
Qed.
End caching.
(* ===================================================================== *)
(** ** Sequences of calls on the pool                                     *)
(* ===================================================================== *)

(** The calls that change a pool. *)
Inductive pool_call : Type :=
  | CallGetNewBlocks (n : Z)
  | CallTouch (blocks : list ref)
  | CallFreeBlocks (blocks : list ref)
  | CallCacheFullBlocks (r : Request) (blocks : list ref) (nc nf bs g : Z)
  | CallEvictBlocks (ids : list Z)
  | CallResetPrefixCache
  | CallTakeEvents.

Section reachability.
Context `{env : KVEnv}.

Definition run_call (c : pool_call) : M BlockPool unit :=
  match c with
  | CallGetNewBlocks n => get_new_blocks n ;; ret tt
  | CallTouch bs => touch bs
  | CallFreeBlocks bs => free_blocks bs
  | CallCacheFullBlocks r blocks nc nf bs g => cache_full_blocks r blocks nc nf bs g
  | CallEvictBlocks ids => evict_blocks ids
  | CallResetPrefixCache => reset_prefix_cache ;; ret tt
  | CallTakeEvents => take_kv_events ;; ret tt
  end.

(** The callers' side of the contract: blocks of this pool, no block freed
    twice or without a reference, no block cached twice. *)
Definition call_ok (p : BlockPool) (c : pool_call) : Prop :=
  let valid bs := ∀ b, b ∈ bs → 0 ≤ b < num_gpu_blocks p in
  match c with
  | CallGetNewBlocks n => 0 ≤ n
  | CallTouch bs => valid bs
  | CallFreeBlocks bs => valid bs ∧ NoDup (filter (λ b, b ≠ 0) bs) ∧ (∀ b, b ∈ bs → b ≠ 0 → 1 ≤ rc p b)
  | CallCacheFullBlocks r blocks nc nf bs g => 0 ≤ g < 2 ^ 32 ∧ ∃ H, cacheable p r blocks nc nf bs H
  | CallEvictBlocks ids => valid ids
  | CallResetPrefixCache | CallTakeEvents => True
  end.

(** The pools reached from a new one; a failed allocation is a step too. *)
Inductive reachable (n : Z) (caching : bool) (hbs : Z) (ev : bool) : BlockPool → Prop :=
  | reach_init p : BlockPool_init n caching hbs ev = Ok p → reachable n caching hbs ev p
  | reach_step p c : reachable n caching hbs ev p → call_ok p c →
      reachable n caching hbs ev (run_call c p).2.

Lemma call_keeps_inv p free c :
  pool_inv p free → call_ok p c →
  ∃ free', pool_inv (run_call c p).2 free' ∧ pool_cfg (run_call c p).2 = pool_cfg p.
Proof.
  intros Hp Hc. destruct c; simpl in *.
  - destruct (decide (n ≤ len free)).
    + destruct (get_new_blocks_spec p free n) as (p' & He & ? & ? & _); [done|done|].
      rewrite (bind_ok _ _ _ _ _ He). eexists. done.
    + rewrite (bind_raise _ _ _ _ _ (get_new_blocks_short p free n Hp (ltac:(lia)))). by exists free.
  - destruct (touch_spec blocks p free) as (p' & -> & ? & ? & _); [done|done|]. by eexists.
  - destruct Hc as (? & ? & ?).
    destruct (free_blocks_spec blocks p free) as (p' & -> & ? & ? & _); [done..|]. by eexists.
  - destruct Hc as (? & H & ?).
    destruct (cache_full_blocks_spec p free r blocks nc nf bs g H) as (p' & -> & ? & ? & _); [done..|].
    by exists free.
  - destruct (evict_blocks_spec ids p free) as (p' & -> & ? & ? & _); [done..|]. by exists free.
  - destruct (reset_prefix_cache_spec p free Hp) as [(p' & He & ? & ? & _)|[He _]];
      rewrite (bind_ok _ _ _ _ _ He); by exists free.
  - unfold take_kv_events. rewrite bind_assoc, run_get. exists free. case_bool; [|done].
    rewrite bind_assoc, run_put. simpl. split; [|done]. by destruct Hp.
Qed.

(** C32.  Every pool reached from a new pool of [n] blocks by in-contract calls,
    failed allocations included, is consistent: the linked queue spells a list
    of distinct blocks that are exactly the non-null blocks with reference count
    zero, the null block stays out of the queue and unhashed, and a block is
    listed in the prefix-cache table under a key exactly when the key is the
    hash it carries. *)
Theorem reachable_pool_is_consistent n caching hbs ev p :
  0 < n → reachable n caching hbs ev p →
  ∃ free, pool_inv p free ∧ pool_cfg p = (n, caching, hbs, 0, ev).
Proof.
  intros Hn. induction 1 as [p Hi|p c Hr IH Hc].
  - destruct (BlockPool_init_spec n caching hbs ev Hn) as (p' & Hi' & Hinv & Hcfg & _).
    rewrite Hi in Hi'. simplify_eq. eauto.
  - destruct IH as (free & Hp & Hcfg). destruct (call_keeps_inv p free c Hp Hc) as (free' & Hp' & Hcfg').
    exists free'. split; [done|congruence].
Qed.

(** Allocation takes the [k] least recently freed blocks, in queue order,
    each leaving with one reference, and (when caching) without a hash, so that
    no lookup can return it; every other block keeps its count and hash.  When
    fewer than [k] blocks are free the call raises [ValueError] and changes
    nothing. *)
Theorem get_new_blocks_takes_the_oldest p free k :
  pool_inv p free → 0 ≤ k →
  if k <=? len free then
    ∃ p', get_new_blocks k p = (Ok (take (Z.to_nat k) free), p') ∧
      pool_inv p' (drop (Z.to_nat k) free) ∧ get_num_free_blocks p' = get_num_free_blocks p - k ∧
      (∀ b, b ∈ take (Z.to_nat k) free → rc p' b = 1 ∧
         (enable_caching p = true → bhash p' b = None ∧
            ∀ key, b ∉ cached_under (cached_block_hash_to_block p') key)) ∧
      (∀ b, 0 ≤ b → b ∉ take (Z.to_nat k) free → rc p' b = rc p b ∧ bhash p' b = bhash p b)
  else get_new_blocks k p = (Raise ValueError, p).
Proof.
  intros Hp Hk. destruct (Z.leb_spec k (len free)) as [Hle|Hlt].
  2:{ by apply (get_new_blocks_short p free). }
  destruct (get_new_blocks_spec p free k) as (p' & He & Hp' & Hcfg & Hrc & Hh); [done|lia|].
  assert (Hin : ∀ b, b ∈ take (Z.to_nat k) free → 1 ≤ b < num_gpu_blocks p).
  { intros b Hb. apply (pi_free _ _ _ Hp). rewrite <-(take_drop (Z.to_nat k) free). set_solver. }
  exists p'. split_and!; [done|done| | |].
  - unfold get_num_free_blocks. rewrite (rep_count _ _ (pi_rep _ _ _ Hp')), (rep_count _ _ (pi_rep _ _ _ Hp)).
    unfold len in *. rewrite length_drop. lia.
  - intros b Hb. specialize (Hin b Hb). rewrite Hrc, Hh, !decide_True by (done || lia).
    split; [done|]. intros Hca. rewrite Hca. split; [done|].
    intros key [_ Hc]%(pi_cached _ _ _ Hp'). rewrite Hh, decide_True, Hca in Hc by (done || lia). done.
  - intros b Hb0 Hb. rewrite Hrc, Hh, !decide_False by done. done.
Qed.

(** Touching distinct blocks (a prefix-cache hit) and freeing them again
    restores every reference count and hash and the table, and leaves the
    queue with the hit blocks that were free moved to its tail, in the order
    they were freed: the queue is ordered by last use. *)
Theorem touch_then_free_moves_to_the_tail p free bs :
  pool_inv p free → (∀ b, b ∈ bs → 1 ≤ b < num_gpu_blocks p) → NoDup bs →
  ∃ p1 p2, touch bs p = (Ok tt, p1) ∧ free_blocks bs p1 = (Ok tt, p2) ∧
    (∀ b, b ∈ bs → 1 ≤ rc p1 b) ∧
    pool_inv p2 (filter (λ b, b ∉ bs) free ++ filter (λ b, b ∈ free) bs) ∧
    cached_block_hash_to_block p2 = cached_block_hash_to_block p ∧
    (∀ x, 0 ≤ x → rc p2 x = rc p x ∧ bhash p2 x = bhash p x).
Proof.
  intros Hp Hr Hnd. destruct (touch_spec bs p free) as (p1 & He1 & Hp1 & Hcfg1 & Hc1 & Hrc1 & Hh1);
    [done|intros b Hb; specialize (Hr b Hb); lia|].
  assert (Hone : ∀ b, b ∈ bs → 1 ≤ rc p1 b).
  { intros b Hb. specialize (Hr b Hb). rewrite Hrc1, count_nodup by (done || lia).
    destruct (pi_rc _ _ _ Hp b Hr). lia. }
  destruct (free_blocks_spec bs p1 _ Hp1) as (p2 & He2 & Hp2 & Hcfg2 & Hc2 & Hrc2 & Hh2).
  { intros b Hb. rewrite (pool_cfg_num _ _ Hcfg1). specialize (Hr b Hb). lia. }
  { by apply NoDup_filter. }
  { auto. }
  exists p1, p2. split_and!; try done; [|congruence|].
  - rewrite (filter_ext_in _ (λ b, b ∈ free) bs) in Hp2; [done|]. intros b Hb. specialize (Hr b Hb).
    rewrite Hrc1, count_nodup by (done || lia). destruct (pi_rc _ _ _ Hp b Hr) as [_ Hz]. rewrite Hz. lia.
  - intros x Hx. rewrite Hrc2, Hrc1, Hh2, Hh1 by done. split; [lia|done].
Qed.

(** After the full blocks [nc, ..., nf - 1] of a request have been cached,
    looking up the hash of any of them that is not the null block succeeds for
    the group and returns a block that carries that hash. *)
Theorem cached_blocks_are_found p free r blocks nc nf bs g H j b :
  pool_inv p free → 0 ≤ g < 2 ^ 32 → cacheable p r blocks nc nf bs H →
  nc ≤ Z.of_nat j < nf → blocks !! j = Some b → b ≠ 0 →
  ∃ p' h b', cache_full_blocks r blocks nc nf bs g p = (Ok tt, p') ∧ bh_list H !! j = Some h ∧
    get_cached_block p' h [g] = Ok (Some [b']) ∧ bhash p' b' = Some (h ++ to_bytes_be 4 g) ∧
    bhash p' b = bhash p' b'.
Proof.
  intros Hp Hg Hc Hj Hb Hb0.
  destruct (cache_full_blocks_spec p free r blocks nc nf bs g H Hp Hg Hc)
    as (p' & He & Hp' & Hcfg & _ & Hin & _).
  destruct (Hin j b Hj Hb Hb0) as (h & Hh & Hbh).
  assert (Hr : 1 ≤ b < num_gpu_blocks p').
  { rewrite (pool_cfg_num _ _ Hcfg).
    assert (0 ≤ b < num_gpu_blocks p); [|lia]. apply (ca_blocks _ _ _ _ _ _ _ Hc).
    destruct (ca_range _ _ _ _ _ _ _ Hc). rewrite slice_in_range by lia.
    apply list_elem_of_lookup. exists (j - Z.to_nat nc)%nat. rewrite lookup_take, lookup_drop.
    rewrite decide_True by lia. rewrite <-Hb. f_equal. lia. }
  destruct (get_cached_block_spec p' free h [g] Hp') as [(bs' & Hl & HF)|(_ & g' & Hg' & Hno)].
  { by constructor. }
  - inversion HF as [|? b' ? l' [? Hb'] HF']; subst. inversion HF'; subst.
    exists p', h, b'. by rewrite Hb', Hbh.
  - apply list_elem_of_singleton in Hg' as ->. by destruct (Hno b Hr).
Qed.

(** [reset_prefix_cache] succeeds exactly when no block but the null block
    is referenced; then the table is empty and no block carries a hash, so that
    every later lookup misses; otherwise it changes nothing. *)
Theorem reset_prefix_cache_clears_or_refuses p free :
  pool_inv p free →
  (∃ p', reset_prefix_cache p = (Ok true, p') ∧ pool_inv p' free ∧
     (∀ b, 1 ≤ b < num_gpu_blocks p → rc p b = 0) ∧
     (∀ h g, 0 ≤ g < 2 ^ 32 → get_cached_block p' h [g] = Ok None)) ∨
  (reset_prefix_cache p = (Ok false, p) ∧ ∃ b, 1 ≤ b < num_gpu_blocks p ∧ rc p b ≠ 0).
Proof.
  intros Hp. destruct (reset_prefix_cache_spec p free Hp) as [(p' & He & Hp' & Hcfg & Hc & _ & Hz & Hh)|?];
    [left|by right].
  exists p'. split_and!; try done.
  - intros b Hb. destruct (Hz b); lia.
  - intros h g Hg. destruct (get_cached_block_spec p' free h [g] Hp') as [(bs & _ & HF)|[-> _]];
      [by constructor| |done].
    inversion HF as [|? b ? ? [Hb Hbh] _]; subst. rewrite (pool_cfg_num _ _ Hcfg) in Hb.
    rewrite Hh in Hbh by lia. done.
Qed.
End reachability.
(* ===================================================================== *)
(** ** Witnesses                                                          *)
(* ===================================================================== *)

Definition test_env : KVEnv := {| env_sha256 := λ b, b; env_use_int_hashes := false |}.
(** A pool of three blocks and the null block, with block size 2. *)
Definition test_pool : BlockPool :=
  match BlockPool_init 4 true 2 true with
  | Ok p => p
  | Raise _ => mkBlockPool 0 false 0 (mkQueue 0 ∅) ∅ 0 false []
  end.

Lemma test_pool_inv : pool_inv test_pool [1; 2; 3].
Proof.
  destruct (BlockPool_init_spec 4 true 2 true) as (p & He & Hp & _); [lia|].
  unfold test_pool. rewrite He. exact Hp.
Qed.

(** Blocks 1 and 2 allocated; 2 freed; the hit on 2 and 3 freed again. *)
Lemma reachable_pool_is_consistent_witness :
  let p := (@run_call test_env (CallFreeBlocks [2]) (@run_call test_env (CallGetNewBlocks 2) test_pool).2).2 in
  (rc p 1 = 1 ∧ rc p 2 = 0) ∧
  ∃ free, pool_inv p free ∧ pool_cfg p = (4, true, 2, 0, true).
Proof.
  intros p. split; [vm_compute; split; reflexivity|].
  apply (@reachable_pool_is_consistent test_env 4 true 2 true); [lia|].
  apply reach_step; [apply reach_step; [apply reach_init; vm_compute; reflexivity|simpl; lia]|].
  split_and!.
  - intros b ->%list_elem_of_singleton. vm_compute. split; congruence.
  - rewrite filter_cons_True by lia. apply NoDup_singleton.
  - intros b ->%list_elem_of_singleton _. vm_compute. congruence.
Defined.

Lemma get_new_blocks_takes_the_oldest_witness :
  ∃ p', @get_new_blocks test_env 2 test_pool = (Ok [1; 2], p') ∧ rc p' 1 = 1 ∧ rc p' 3 = 0.
Proof.
  assert (Hn : 3 ∉ [1; 2]) by set_solver.
  pose proof (@get_new_blocks_takes_the_oldest test_env test_pool [1; 2; 3] 2 test_pool_inv) as H.
  change (2 <=? len [1; 2; 3]) with true in H. change (take (Z.to_nat 2) [1; 2; 3]) with [1; 2] in H.
  destruct H as (p' & He & _ & _ & H1 & H2); [lia|].
  exists p'. split; [exact He|]. split; [apply H1; by left|].
  rewrite (proj1 (H2 3 (proj1 (Z.leb_le 0 3) eq_refl) Hn)). vm_compute. reflexivity.
Defined.

Lemma touch_then_free_moves_to_the_tail_witness :
  ∃ p1 p2, touch [1] test_pool = (Ok tt, p1) ∧ free_blocks [1] p1 = (Ok tt, p2) ∧
    pool_inv p2 [2; 3; 1].
Proof.
  destruct (touch_then_free_moves_to_the_tail test_pool [1; 2; 3] [1] test_pool_inv)
    as (p1 & p2 & H1 & H2 & _ & H3 & _).
  - intros b ->%list_elem_of_singleton. vm_compute. split; congruence.
  - apply NoDup_singleton.
  - exists p1, p2. split_and!; [exact H1|exact H2|]. exact H3.
Defined.

(** A request of two full blocks, to be cached in blocks 1 and 2. *)
Lemma test_cacheable :
  let r := hashed_request [5; 6; 7; 8; 9] in
  @cacheable test_env test_pool r [1; 2] 0 2 2 (PlainHashes (block_hashes r)).
Proof.
  split.
  - vm_compute. split; congruence.
  - vm_compute. reflexivity.
  - vm_compute. split; congruence.
  - lia.
  - vm_compute. split_and!; [eauto|discriminate|constructor|exact I].
  - apply memo_empty. vm_compute. reflexivity.
  - change (∀ b, b ∈ [1; 2] → 0 ≤ b < 4). set_solver by lia.
  - change (NoDup [1; 2]). by apply NoDup_cons; split; [set_solver|apply NoDup_singleton].
  - change (∀ b, b ∈ [1; 2] → bhash test_pool b = None).
    intros b [->|[->|[]%not_elem_of_nil]%elem_of_cons]%elem_of_cons; vm_compute; reflexivity.
Qed.

Lemma cached_blocks_are_found_witness :
  let r := hashed_request [5; 6; 7; 8; 9] in
  ∃ p' h b', @cache_full_blocks test_env r [1; 2] 0 2 2 0 test_pool = (Ok tt, p') ∧
    block_hashes r !! 1%nat = Some h ∧ get_cached_block p' h [0] = Ok (Some [b']) ∧
    bhash p' b' = Some (h ++ to_bytes_be 4 0) ∧ bhash p' 2 = bhash p' b'.
Proof.
  intros r.
  apply (@cached_blocks_are_found test_env test_pool [1; 2; 3] r [1; 2] 0 2 2 0
           (PlainHashes (block_hashes r)) 1 2 test_pool_inv); [lia|exact test_cacheable|lia|done|lia].
Defined.

(** The pool after that. *)
Definition test_cached_pool : BlockPool :=
  (@cache_full_blocks test_env (hashed_request [5; 6; 7; 8; 9]) [1; 2] 0 2 2 0 test_pool).2.
Lemma test_cached_pool_inv : pool_inv test_cached_pool [1; 2; 3].
Proof.
  destruct (@cache_full_blocks_spec test_env test_pool [1; 2; 3] (hashed_request [5; 6; 7; 8; 9]) [1; 2] 0 2 2 0 _
              test_pool_inv ltac:(lia) test_cacheable) as (p' & He & Hp' & _).
  unfold test_cached_pool. by rewrite He.
Qed.

Lemma reset_prefix_cache_clears_or_refuses_witness :
  (∃ p', reset_prefix_cache test_pool = (Ok true, p') ∧ pool_inv p' [1; 2; 3] ∧
     (∀ b, 1 ≤ b < num_gpu_blocks test_pool → rc test_pool b = 0) ∧
     (∀ h g, 0 ≤ g < 2 ^ 32 → get_cached_block p' h [g] = Ok None)) ∨
  (reset_prefix_cache test_pool = (Ok false, test_pool) ∧
   ∃ b, 1 ≤ b < num_gpu_blocks test_pool ∧ rc test_pool b ≠ 0).
Proof. exact (reset_prefix_cache_clears_or_refuses test_pool [1; 2; 3] test_pool_inv). Defined.
