(* ===== verification/KVSpec.v ===== *)
(** * KV-cache specs ([src/vllm/v1/kv_cache_interface.py])

    The class hierarchy of [KVCacheSpec] as an inductive type with one
    constructor per concrete class, after [__post_init__]; [isinstance] tests
    are boolean functions that follow the subclassing.  A torch dtype is its
    name; [element_size] (torch) gives its size in bytes.  Page sizes, memory
    bounds, admission caps and the merging of layer specs are translated from
    the properties and class methods. *)
From S2P Require Import Prelude MathUtils.
Local Open Scope Z_scope.

(* ===================================================================== *)
(** ** Data                                                               *)
(* ===================================================================== *)

Inductive KVQuantMode : Type :=
  | KV_NONE | FP8_PER_TENSOR | INT8_PER_TOKEN_HEAD | FP8_PER_TOKEN_HEAD | NVFP4.
#[export] Instance KVQuantMode_eq_dec : EqDecision KVQuantMode.
Proof. solve_decision. Defined.

Definition is_per_token_head (m : KVQuantMode) : bool :=
  match m with INT8_PER_TOKEN_HEAD | FP8_PER_TOKEN_HEAD => true | _ => false end.
Definition is_nvfp4 (m : KVQuantMode) : bool := bool_decide (m = NVFP4).

Definition get_kv_quant_mode (kv_cache_dtype : string) : KVQuantMode :=
  if bool_decide (kv_cache_dtype = "int8_per_token_head"%string) then INT8_PER_TOKEN_HEAD
  else if bool_decide (kv_cache_dtype = "fp8_per_token_head"%string) then FP8_PER_TOKEN_HEAD
  else if bool_decide (kv_cache_dtype = "nvfp4"%string) then NVFP4
  else if String.prefix "fp8" kv_cache_dtype then FP8_PER_TENSOR
  else KV_NONE.
Definition is_quantized_kv_cache (kv_cache_dtype : string) : bool :=
  negb (bool_decide (get_kv_quant_mode kv_cache_dtype = KV_NONE)).
Definition kv_cache_uses_per_token_head_scales (kv_cache_dtype : string) : bool :=
  is_per_token_head (get_kv_quant_mode kv_cache_dtype).

(** The fields of [AttentionSpec]. *)
Record AttentionSpec := mkAttentionSpec {
  a_block_size : Z;
  num_kv_heads : Z;
  head_size : Z;
  a_dtype : string;
  kv_quant_mode : KVQuantMode;
  page_size_padded : option Z;
}.
#[export] Instance AttentionSpec_eq_dec : EqDecision AttentionSpec.
Proof. solve_decision. Defined.
#[export] Instance eta_AttentionSpec : Eta AttentionSpec := λ a,
  mkAttentionSpec (a_block_size a) (num_kv_heads a) (head_size a) (a_dtype a) (kv_quant_mode a)
    (page_size_padded a).
#[export] Instance set_a_block_size : Setter a_block_size.
Proof. build_setter. Defined.
#[export] Instance set_page_size_padded : Setter page_size_padded.
Proof. build_setter. Defined.

(** The extra fields of the MLA specs. *)
Record MLAFields := mkMLAFields {
  cache_dtype_str : option string;
  alignment : option Z;
  compress_ratio : Z;
  model_version : option string;
}.
#[export] Instance MLAFields_eq_dec : EqDecision MLAFields.
Proof. solve_decision. Defined.

(** The extra fields of [MambaSpec]. *)
Record MambaFields := mkMambaFields {
  m_block_size : Z;
  shapes : list (list Z);
  dtypes : list string;
  m_page_size_padded : option Z;
  mamba_type : string;
  mamba_cache_mode : string;
  num_speculative_blocks : Z;
}.
#[export] Instance MambaFields_eq_dec : EqDecision MambaFields.
Proof. solve_decision. Defined.

(** The concrete classes.  [head_size_v] of a [SlidingWindowMLASpec] stays
    [None], since its [__post_init__] does not call the parent's. *)
Inductive KVCacheSpec : Type :=
  | FullAttentionSpec (a : AttentionSpec) (head_size_v : Z) (sliding_window attention_chunk_size : option Z)
  | TQFullAttentionSpec (a : AttentionSpec) (head_size_v : Z) (sliding_window attention_chunk_size : option Z)
      (tq_slot_size : Z)
  | MLAAttentionSpec (a : AttentionSpec) (head_size_v : Z) (sliding_window attention_chunk_size : option Z)
      (m : MLAFields)
  | SinkFullAttentionSpec (a : AttentionSpec) (head_size_v : Z) (sliding_window attention_chunk_size : option Z)
      (sink_len : option Z)
  | ChunkedLocalAttentionSpec (a : AttentionSpec) (attention_chunk_size : Z)
  | SlidingWindowSpec (a : AttentionSpec) (sliding_window : Z) (head_size_v : Z)
  | SlidingWindowMLASpec (a : AttentionSpec) (sliding_window : Z) (head_size_v : option Z) (m : MLAFields)
  | MambaSpec (m : MambaFields)
  | EncoderOnlyAttentionSpec (a : AttentionSpec)
  | CrossAttentionSpec (a : AttentionSpec).
#[export] Instance KVCacheSpec_eq_dec : EqDecision KVCacheSpec.
Proof. solve_decision. Defined.

(** The [AttentionSpec] part of a spec, if it is one. *)
Definition attention_part (s : KVCacheSpec) : option AttentionSpec :=
  match s with
  | FullAttentionSpec a _ _ _ | TQFullAttentionSpec a _ _ _ _ | MLAAttentionSpec a _ _ _ _
  | SinkFullAttentionSpec a _ _ _ _ | ChunkedLocalAttentionSpec a _ | SlidingWindowSpec a _ _
  | SlidingWindowMLASpec a _ _ _ | EncoderOnlyAttentionSpec a | CrossAttentionSpec a => Some a
  | MambaSpec _ => None
  end.
Definition block_size (s : KVCacheSpec) : Z :=
  match s with
  | FullAttentionSpec a _ _ _ | TQFullAttentionSpec a _ _ _ _ | MLAAttentionSpec a _ _ _ _
  | SinkFullAttentionSpec a _ _ _ _ | ChunkedLocalAttentionSpec a _ | SlidingWindowSpec a _ _
  | SlidingWindowMLASpec a _ _ _ | EncoderOnlyAttentionSpec a | CrossAttentionSpec a => a_block_size a
  | MambaSpec m => m_block_size m
  end.

(** [isinstance] along the subclass relation. *)
Definition isa_FullAttentionSpec (s : KVCacheSpec) : bool :=
  match s with
  | FullAttentionSpec _ _ _ _ | TQFullAttentionSpec _ _ _ _ _ | MLAAttentionSpec _ _ _ _ _
  | SinkFullAttentionSpec _ _ _ _ _ => true
  | _ => false
  end.
Definition isa_MLAAttentionSpec (s : KVCacheSpec) : bool :=
  match s with MLAAttentionSpec _ _ _ _ _ => true | _ => false end.
Definition isa_SlidingWindowSpec (s : KVCacheSpec) : bool :=
  match s with SlidingWindowSpec _ _ _ | SlidingWindowMLASpec _ _ _ _ => true | _ => false end.
Definition isa_SlidingWindowMLASpec (s : KVCacheSpec) : bool :=
  match s with SlidingWindowMLASpec _ _ _ _ => true | _ => false end.
Definition isa_ChunkedLocalAttentionSpec (s : KVCacheSpec) : bool :=
  match s with ChunkedLocalAttentionSpec _ _ => true | _ => false end.
Definition isa_MambaSpec (s : KVCacheSpec) : bool :=
  match s with MambaSpec _ => true | _ => false end.
Definition isa_CrossAttentionSpec (s : KVCacheSpec) : bool :=
  match s with CrossAttentionSpec _ => true | _ => false end.

(** The configuration values read here. *)
Record VllmConfig := mkVllmConfig {
  max_model_len : Z;
  decode_context_parallel_size : Z;
  prefill_context_parallel_size : Z;
  max_num_batched_tokens : Z;
  max_num_encoder_input_tokens : Z;
  cfg_mamba_cache_mode : string;
}.

(* ===================================================================== *)
(** ** Page sizes                                                         *)
(* ===================================================================== *)

Definition nvfp4_kv_cache_full_dim (head_size : Z) : Z := head_size / 2 + head_size / 16.

Section sizes.
(** torch: [torch.tensor([], dtype=dtype).element_size()]. *)
Variable element_size : string → Z.
(** [_INT8KV_ALIGNED_HEAD_STRIDE]. *)
Variable int8kv_aligned_head_stride : bool.

Definition get_dtype_size (dtype : string) : Z := element_size dtype.

(** [AttentionSpec.real_page_size_bytes]. *)
Definition attention_real_page_size (a : AttentionSpec) : Z :=
  if is_nvfp4 (kv_quant_mode a) then
    2 * a_block_size a * num_kv_heads a * nvfp4_kv_cache_full_dim (head_size a) * get_dtype_size (a_dtype a)
  else 2 * a_block_size a * num_kv_heads a * head_size a * get_dtype_size (a_dtype a).

(** [FullAttentionSpec.real_page_size_bytes], and [SlidingWindowSpec]'s. *)
Definition full_real_page_size (a : AttentionSpec) (head_size_v : Z) : Z :=
  if is_nvfp4 (kv_quant_mode a) then
    let last_dim := nvfp4_kv_cache_full_dim (head_size a) + nvfp4_kv_cache_full_dim head_size_v in
    a_block_size a * num_kv_heads a * last_dim * get_dtype_size (a_dtype a)
  else a_block_size a * num_kv_heads a * (head_size a + head_size_v) * get_dtype_size (a_dtype a).

(** [storage_block_size]. *)
Definition storage_block_size (s : KVCacheSpec) : Z :=
  match s with
  | MLAAttentionSpec a _ _ _ m | SlidingWindowMLASpec a _ _ m => a_block_size a / compress_ratio m
  | _ => block_size s
  end.

(** [MLAAttentionSpec.real_page_size_bytes]. *)
Definition mla_real_page_size (a : AttentionSpec) (m : MLAFields) : Z :=
  let sbs := a_block_size a / compress_ratio m in
  if bool_decide (cache_dtype_str m = Some "fp8_ds_mla"%string) then
    if bool_decide (model_version m = Some "deepseek_v4"%string) then sbs * 584
    else a_block_size a * 656
  else sbs * num_kv_heads a * head_size a * get_dtype_size (a_dtype a).

(** [SlidingWindowMLASpec.real_page_size_bytes]. *)
Definition swa_mla_real_page_size (a : AttentionSpec) (m : MLAFields) : res Z :=
  let sbs := a_block_size a / compress_ratio m in
  if bool_decide (model_version m = Some "deepseek_v4"%string) then Ok (sbs * 584)
  else if bool_decide (model_version m = None)
  then Ok (sbs * num_kv_heads a * head_size a * get_dtype_size (a_dtype a))
  else Raise AssertionError.

(** [real_page_size_bytes], dispatched on the class. *)
Definition real_page_size_bytes (s : KVCacheSpec) : res Z :=
  match s with
  | FullAttentionSpec a v _ _ | SinkFullAttentionSpec a v _ _ _ | SlidingWindowSpec a _ v =>
      Ok (full_real_page_size a v)
  | TQFullAttentionSpec a v _ _ slot =>
      Ok (if 0 <? slot then a_block_size a * num_kv_heads a * slot else full_real_page_size a v)
  | MLAAttentionSpec a _ _ _ m => Ok (mla_real_page_size a m)
  | SlidingWindowMLASpec a _ _ m => swa_mla_real_page_size a m
  | ChunkedLocalAttentionSpec a _ | EncoderOnlyAttentionSpec a | CrossAttentionSpec a =>
      Ok (attention_real_page_size a)
  | MambaSpec _ => Raise AttributeError
  end.

(** The padded size, when one is set. *)
Definition padded_or (padded : option Z) (page_size : Z) : res Z :=
  match padded with
  | None => Ok page_size
  | Some p => if page_size <=? p then Ok p else Raise AssertionError
  end.

(** [AttentionSpec.page_size_bytes], given the class's real page size. *)
Definition attention_page_size (a : AttentionSpec) (real_page_size : Z) : res Z :=
  let scale_pad := get_dtype_size "torch.float32" / get_dtype_size (a_dtype a) in
  let padded_head_size := round_up (head_size a + scale_pad) 16 in
  if is_per_token_head (kv_quant_mode a) then
    if bool_decide (kv_quant_mode a = INT8_PER_TOKEN_HEAD) && int8kv_aligned_head_stride then
      padded_or (page_size_padded a)
        (2 * a_block_size a * num_kv_heads a * padded_head_size * get_dtype_size (a_dtype a))
    else if bool_decide (a_dtype a = "torch.int8"%string) then
      padded_or (page_size_padded a)
        (real_page_size + 2 * a_block_size a * num_kv_heads a * (padded_head_size - head_size a)
                          * get_dtype_size (a_dtype a))
    else
      padded_or (page_size_padded a)
        (real_page_size + 2 * a_block_size a * num_kv_heads a * get_dtype_size "torch.float32")
  else padded_or (page_size_padded a) real_page_size.

(** [MambaSpec.page_size_bytes]. *)
Definition mamba_page_size (m : MambaFields) : res Z :=
  let page_size :=
    foldr Z.add 0 (zip_with (λ shape dtype, foldr Z.mul 1 shape * get_dtype_size dtype)
                     (shapes m) (dtypes m)) in
  padded_or (m_page_size_padded m) page_size.

Definition page_size_bytes (s : KVCacheSpec) : res Z :=
  match s with
  | MambaSpec m => mamba_page_size m
  | _ =>
      match attention_part s, real_page_size_bytes s with
      | Some a, Ok r => attention_page_size a r
      | _, Raise e => Raise e
      | None, _ => Raise NotImplementedError
      end
  end.

(** [_apply_alignment_padding], as the new value of [page_size_padded]. *)
Definition _apply_alignment_padding (a : AttentionSpec) (m : MLAFields) (actual_page_size : Z) :
    AttentionSpec :=
  match alignment m with
  | None => a
  | Some al =>
      let padded_page_size := round_up actual_page_size al in
      if padded_page_size =? actual_page_size then a
      else a <| page_size_padded := Some padded_page_size |>
  end.

(** The constructors with [__post_init__]. *)
Definition new_FullAttentionSpec (a : AttentionSpec) (head_size_v sw chunk : option Z) : KVCacheSpec :=
  FullAttentionSpec a (default (head_size a) head_size_v) sw chunk.
Definition new_SlidingWindowSpec (a : AttentionSpec) (sw : Z) (head_size_v : option Z) : KVCacheSpec :=
  SlidingWindowSpec a sw (default (head_size a) head_size_v).
Definition new_MLAAttentionSpec (a : AttentionSpec) (head_size_v sw chunk : option Z) (m : MLAFields) : KVCacheSpec :=
  MLAAttentionSpec (_apply_alignment_padding a m (mla_real_page_size a m))
    (default (head_size a) head_size_v) sw chunk m.
Definition new_SlidingWindowMLASpec (a : AttentionSpec) (sw : Z) (head_size_v : option Z) (m : MLAFields) :
    res KVCacheSpec :=
  match alignment m with
  | None => Ok (SlidingWindowMLASpec a sw head_size_v m)
  | Some _ =>
      match swa_mla_real_page_size a m with
      | Raise e => Raise e
      | Ok r => Ok (SlidingWindowMLASpec (_apply_alignment_padding a m r) sw head_size_v m)
      end
  end.

(* ===================================================================== *)
(** ** Admission caps and memory bounds                                   *)
(* ===================================================================== *)

(** [SlidingWindowSpec.max_admission_blocks_per_request]. *)
Definition swa_max_admission_blocks (sliding_window block_size max_num_batched_tokens max_model_len : Z) : Z :=
  let num_tokens := Z.min (sliding_window - 1 + max_num_batched_tokens) max_model_len in
  cdiv num_tokens block_size + 1.

(** [ChunkedLocalAttentionSpec.max_admission_blocks_per_request]. *)
Definition chunked_max_admission_blocks (attention_chunk_size block_size max_num_batched_tokens max_model_len : Z) : Z :=
  let num_tokens := Z.min (attention_chunk_size + max_num_batched_tokens) max_model_len in
  cdiv num_tokens block_size.

Definition max_admission_blocks_per_request (s : KVCacheSpec) (max_num_batched_tokens max_model_len : Z) : option Z :=
  match s with
  | SlidingWindowSpec a sw _ | SlidingWindowMLASpec a sw _ _ =>
      Some (swa_max_admission_blocks sw (a_block_size a) max_num_batched_tokens max_model_len)
  | ChunkedLocalAttentionSpec a c =>
      Some (chunked_max_admission_blocks c (a_block_size a) max_num_batched_tokens max_model_len)
  | _ => None
  end.

(** The number of pages a request may need, [None] for encoder-only layers. *)
Definition max_pages (s : KVCacheSpec) (c : VllmConfig) : res (option Z) :=
  match s with
  | FullAttentionSpec a _ _ _ | TQFullAttentionSpec a _ _ _ _ | MLAAttentionSpec a _ _ _ _
  | SinkFullAttentionSpec a _ _ _ _ =>
      let world := decode_context_parallel_size c * prefill_context_parallel_size c in
      let len := if 1 <? world then cdiv (max_model_len c) world else max_model_len c in
      Ok (Some (cdiv len (a_block_size a)))
  | ChunkedLocalAttentionSpec a ch =>
      Ok (Some (chunked_max_admission_blocks ch (a_block_size a) (max_num_batched_tokens c) (max_model_len c)))
  | SlidingWindowSpec a sw _ | SlidingWindowMLASpec a sw _ _ =>
      if decode_context_parallel_size c =? 1
      then Ok (Some (swa_max_admission_blocks sw (a_block_size a) (max_num_batched_tokens c) (max_model_len c)))
      else Raise AssertionError
  | MambaSpec m =>
      Ok (Some (if bool_decide (cfg_mamba_cache_mode c = "all"%string)
                then cdiv (max_model_len c) (m_block_size m)
                else if bool_decide (cfg_mamba_cache_mode c = "align"%string)
                then 2 + num_speculative_blocks m
                else 1 + num_speculative_blocks m))
  | EncoderOnlyAttentionSpec _ => Ok None
  | CrossAttentionSpec a => Ok (Some (cdiv (max_num_encoder_input_tokens c) (a_block_size a)))
  end.

Definition max_memory_usage_bytes (s : KVCacheSpec) (c : VllmConfig) : res Z :=
  match max_pages s c with
  | Raise e => Raise e
  | Ok None => Ok 0
  | Ok (Some n) =>
      match page_size_bytes s with
      | Raise e => Raise e
      | Ok p => Ok (n * p)
      end
  end.
End sizes.

(* ===================================================================== *)
(** ** Merging the specs of the layers of a group                         *)
(* ===================================================================== *)

(** The number of distinct values is decided on the list without duplicates,
    as [len(set(...))] does. *)
Definition merge_window_sizes (window_sizes : list Z) : res (option Z) :=
  match remove_dups window_sizes with
  | [] => Ok None
  | [w] => Ok (Some w)
  | _ => Raise ValueError
  end.

(** The window fields of the full-attention classes. *)
Definition full_fields (s : KVCacheSpec) : option (AttentionSpec * Z * option Z * option Z) :=
  match s with
  | FullAttentionSpec a v sw ch | TQFullAttentionSpec a v sw ch _ | MLAAttentionSpec a v sw ch _
  | SinkFullAttentionSpec a v sw ch _ => Some (a, v, sw, ch)
  | _ => None
  end.

(** The common body of [FullAttentionSpec.merge] and [SinkFullAttentionSpec.merge];
    [mk] is the class's constructor. *)
Definition merge_full (mk : AttentionSpec → Z → option Z → option Z → KVCacheSpec)
    (specs : list KVCacheSpec) : res KVCacheSpec :=
  match specs with
  | [] => Raise IndexError
  | s0 :: _ =>
      if negb (forallb isa_FullAttentionSpec specs) then Raise AssertionError
      else if existsb isa_MLAAttentionSpec specs then Raise AssertionError
      else
        let fs := omap full_fields specs in
        match full_fields s0,
              merge_window_sizes (omap (λ f, f.1.2) fs), merge_window_sizes (omap snd fs) with
        | Some (a0, v0, _, _), Ok sw, Ok ch =>
            if forallb (λ f, bool_decide (f.1.1.1 = a0)) fs then
              if is_some sw && is_some ch then Raise AssertionError else Ok (mk a0 v0 sw ch)
            else Raise AssertionError
        | _, Raise e, _ | _, _, Raise e => Raise e
        | None, _, _ => Raise AssertionError
        end
  end.

Definition tq_slot_of (s : KVCacheSpec) : option Z :=
  match s with TQFullAttentionSpec _ _ _ _ t => Some t | _ => None end.

(** [all(s.tq_slot_size == specs[0].tq_slot_size for s in specs)], stopping at
    the first difference. *)
Fixpoint all_slots (t0 : Z) (specs : list KVCacheSpec) : res bool :=
  match specs with
  | [] => Ok true
  | s :: ss =>
      match tq_slot_of s with
      | None => Raise AttributeError
      | Some t => if t =? t0 then all_slots t0 ss else Ok false
      end
  end.

(** [TQFullAttentionSpec.merge]. *)
Definition merge_tq (specs : list KVCacheSpec) : res KVCacheSpec :=
  match merge_full (λ a v sw ch, TQFullAttentionSpec a v sw ch 0) specs with
  | Raise e => Raise e
  | Ok merged =>
      match specs with
      | TQFullAttentionSpec _ _ _ _ t0 :: _ =>
          match all_slots t0 specs with
          | Raise e => Raise e
          | Ok false => Raise AssertionError
          | Ok true =>
              match merged with
              | TQFullAttentionSpec a v sw ch _ => Ok (TQFullAttentionSpec a v sw ch t0)
              | s => Ok s
              end
          end
      | _ => Raise AttributeError
      end
  end.

Definition mla_fields (s : KVCacheSpec) : option (AttentionSpec * MLAFields) :=
  match s with MLAAttentionSpec a _ _ _ m => Some (a, m) | _ => None end.
Definition swa_mla_fields (s : KVCacheSpec) : option (AttentionSpec * Z * MLAFields) :=
  match s with SlidingWindowMLASpec a sw _ m => Some (a, sw, m) | _ => None end.

(** The three fields that MLA layers of a group must share. *)
Definition mla_key (m : MLAFields) : option string * Z * option string :=
  (cache_dtype_str m, compress_ratio m, model_version m).

(** [MLAAttentionSpec.merge]: the merged spec has no alignment, windows unset,
    and [head_size_v] defaulted. *)
Definition merge_mla (specs : list KVCacheSpec) : res KVCacheSpec :=
  match mapM mla_fields specs with
  | None => Raise AssertionError
  | Some [] => Raise AssertionError
  | Some (((a0, m0) :: _) as fs) =>
      if forallb (λ f, bool_decide (mla_key f.2 = mla_key m0)) fs
      then Ok (MLAAttentionSpec a0 (head_size a0) None None
                 (mkMLAFields (cache_dtype_str m0) None (compress_ratio m0) (model_version m0)))
      else Raise AssertionError
  end.

(** [SlidingWindowMLASpec.merge]: [kv_quant_mode] is not passed on either. *)
Definition merge_swa_mla (specs : list KVCacheSpec) : res KVCacheSpec :=
  match mapM swa_mla_fields specs with
  | None => Raise AssertionError
  | Some [] => Raise AssertionError
  | Some (((a0, sw0, m0) :: _) as fs) =>
      if forallb (λ f, bool_decide (mla_key f.2 = mla_key m0) && (f.1.2 =? sw0)) fs
      then Ok (SlidingWindowMLASpec
                 (mkAttentionSpec (a_block_size a0) (num_kv_heads a0) (head_size a0) (a_dtype a0)
                    KV_NONE (page_size_padded a0)) sw0 None
                 (mkMLAFields (cache_dtype_str m0) None (compress_ratio m0) (model_version m0)))
      else Raise AssertionError
  end.

(** [specs[0].merge(specs)]: the class method of the first spec's class. *)
Definition merge (specs : list KVCacheSpec) : res KVCacheSpec :=
  match specs with
  | [] => Raise IndexError
  | s0 :: ss =>
      match s0 with
      | FullAttentionSpec _ _ _ _ => merge_full FullAttentionSpec specs
      | TQFullAttentionSpec _ _ _ _ _ => merge_tq specs
      | MLAAttentionSpec _ _ _ _ _ => merge_mla specs
      | SinkFullAttentionSpec _ _ _ _ sink =>
          merge_full (λ a v sw ch, SinkFullAttentionSpec a v sw ch sink) specs
      | SlidingWindowMLASpec _ _ _ _ => merge_swa_mla specs
      | _ => if forallb (λ s, bool_decide (s = s0)) ss then Ok s0 else Raise AssertionError
      end
  end.

(* ===================================================================== *)
(** ** Groups of layers with one type of attention                        *)
(* ===================================================================== *)

(** [UniformTypeKVCacheSpecs]; dicts keep insertion order. *)
Record UniformTypeKVCacheSpecs := mkUniform {
  u_block_size : Z;
  kv_cache_specs : list (string * KVCacheSpec);
}.

(** The branch of [is_uniform_type] for the class of [one_spec]; [None] when
    no branch exists. *)
Definition same_type_as (one_spec : KVCacheSpec) : option (KVCacheSpec → bool) :=
  match one_spec with
  | SlidingWindowMLASpec _ sw _ _ =>
      Some (λ s, match s with SlidingWindowMLASpec _ sw' _ _ => sw' =? sw | _ => false end)
  | FullAttentionSpec _ _ _ _ | TQFullAttentionSpec _ _ _ _ _ | MLAAttentionSpec _ _ _ _ _
  | SinkFullAttentionSpec _ _ _ _ _ => Some isa_FullAttentionSpec
  | CrossAttentionSpec _ => Some isa_CrossAttentionSpec
  | SlidingWindowSpec _ sw _ =>
      Some (λ s, match s with
                 | SlidingWindowSpec _ sw' _ | SlidingWindowMLASpec _ sw' _ _ => sw' =? sw
                 | _ => false end)
  | ChunkedLocalAttentionSpec _ c =>
      Some (λ s, match s with ChunkedLocalAttentionSpec _ c' => c' =? c | _ => false end)
  | MambaSpec m =>
      Some (λ s, match s with
                 | MambaSpec m' => num_speculative_blocks m' =? num_speculative_blocks m
                 | _ => false end)
  | EncoderOnlyAttentionSpec _ => None
  end.

Definition is_uniform_type (specs : list (string * KVCacheSpec)) : res bool :=
  match specs with
  | [] => Raise StopIteration
  | (_, one_spec) :: _ =>
      if negb (forallb (λ s, block_size s.2 =? block_size one_spec) specs) then Ok false
      else
        match same_type_as one_spec with
        | None => Raise NotImplementedError
        | Some f => Ok (forallb (λ s, f s.2) specs)
        end
  end.

Definition from_specs (specs : list (string * KVCacheSpec)) : res (option UniformTypeKVCacheSpecs) :=
  match is_uniform_type specs with
  | Raise e => Raise e
  | Ok false => Ok None
  | Ok true =>
      match specs with
      | [] => Raise StopIteration
      | (_, s) :: _ => Ok (Some (mkUniform (block_size s) specs))
      end
  end.

Section uniform_sizes.
Variable element_size : string → Z.
Variable int8kv_aligned_head_stride : bool.

(** [[f(s) for s in specs.values()]]. *)
Fixpoint map_specs {A} (f : KVCacheSpec → res A) (specs : list (string * KVCacheSpec)) : res (list A) :=
  match specs with
  | [] => Ok []
  | (_, s) :: ss =>
      match f s with
      | Raise e => Raise e
      | Ok x => match map_specs f ss with Raise e => Raise e | Ok xs => Ok (x :: xs) end
      end
  end.

Definition uniform_page_size_bytes (u : UniformTypeKVCacheSpecs) : res Z :=
  match map_specs (page_size_bytes element_size int8kv_aligned_head_stride) (kv_cache_specs u) with
  | Raise e => Raise e
  | Ok ps => Ok (foldr Z.add 0 ps)
  end.

(** [max_memory_usage_pages]: [max] of an empty sequence is a [ValueError]. *)
Definition max_memory_usage_pages (u : UniformTypeKVCacheSpecs) (c : VllmConfig) : res Z :=
  match map_specs (λ s, match max_memory_usage_bytes element_size int8kv_aligned_head_stride s c,
                              page_size_bytes element_size int8kv_aligned_head_stride s with
                        | Ok m, Ok p => if p =? 0 then Raise ZeroDivisionError else Ok (cdiv m p)
                        | Raise e, _ | _, Raise e => Raise e
                        end) (kv_cache_specs u) with
  | Raise e => Raise e
  | Ok [] => Raise ValueError
  | Ok (p :: ps) => Ok (foldl Z.max p ps)
  end.

Definition uniform_max_memory_usage_bytes (u : UniformTypeKVCacheSpecs) (c : VllmConfig) : res Z :=
  match max_memory_usage_pages u c with
  | Raise e => Raise e
  | Ok n => match uniform_page_size_bytes u with Raise e => Raise e | Ok p => Ok (n * p) end
  end.
End uniform_sizes.

(** The spec of a group: of one layer, or of layers of one type. *)
Inductive GroupSpec : Type :=
  | LayerSpec (s : KVCacheSpec)
  | UniformSpec (u : UniformTypeKVCacheSpecs).
Definition group_block_size (g : GroupSpec) : Z :=
  match g with LayerSpec s => block_size s | UniformSpec u => u_block_size u end.

Record KVCacheTensor := mkKVCacheTensor { t_size : Z; shared_by : list string }.
Record KVCacheGroupSpec := mkKVCacheGroupSpec {
  layer_names : list string;
  kv_cache_spec : GroupSpec;
  is_eagle_group : bool;
}.
Record KVCacheConfig := mkKVCacheConfig {
  num_blocks : Z;
  kv_cache_tensors : list KVCacheTensor;
  kv_cache_groups : list KVCacheGroupSpec;
}.
Definition has_mamba_layers (c : KVCacheConfig) : bool :=
  existsb (λ g, match kv_cache_spec g with LayerSpec s => isa_MambaSpec s | _ => false end)
    (kv_cache_groups c).
Definition needs_kv_cache_zeroing (c : KVCacheConfig) : bool := has_mamba_layers c.

(* ===================================================================== *)
(** ** Merging is sound                                                   *)
(* ===================================================================== *)

(** The classes whose [merge] compares every attention field. *)
Definition checks_fields (s : KVCacheSpec) : bool :=
  negb (isa_MLAAttentionSpec s) && negb (isa_SlidingWindowMLASpec s).

Lemma forallb_In {A} (f : A → bool) l x : forallb f l = true → x ∈ l → f x = true.
Proof. rewrite forallb_forall. intros H Hx. apply H. by apply list_elem_of_In. Qed.

Lemma full_fields_attention s a v sw ch : full_fields s = Some (a, v, sw, ch) → attention_part s = Some a.
Proof. destruct s; simpl; congruence. Qed.
Lemma isa_full_fields s : isa_FullAttentionSpec s = true → is_Some (full_fields s).
Proof. destruct s; simpl; eauto; done. Qed.

Lemma merge_full_ok mk specs m :
  merge_full mk specs = Ok m →
  ∃ a v sw ch, m = mk a v sw ch ∧ (sw = None ∨ ch = None) ∧
    ∀ s, s ∈ specs → attention_part s = Some a.
Proof.
  unfold merge_full. destruct specs as [|s0 ss]; [done|].
  destruct (forallb isa_FullAttentionSpec (s0 :: ss)) eqn:Hall; simpl negb; cbv iota; [|done].
  destruct (existsb _ _); [done|]. cbv zeta.
  destruct (full_fields s0) as [[[[a0 v0] sw0] ch0]|] eqn:E0; [|by repeat case_match].
  do 2 (case_match; [|done]). destruct (forallb _ (omap full_fields (s0 :: ss))) eqn:Hf; [|done].
  case_match eqn:Hsc; [done|]. intros [= <-]. do 4 eexists. split; [done|]. split.
  { by destruct a, a1; auto. }
  intros s Hs. pose proof (forallb_In _ _ _ Hall Hs) as Hi.
  apply isa_full_fields in Hi as [[[[a' v'] sw'] ch'] Hs'].
  assert (Hin : (a', v', sw', ch') ∈ omap full_fields (s0 :: ss)) by (apply list_elem_of_omap; eauto).
  pose proof (forallb_In _ _ _ Hf Hin) as Ha. apply bool_decide_eq_true in Ha. simpl in Ha. subst.
  by eapply full_fields_attention.
Qed.

(** When the specs of the layers of a group merge and the merged class is
    not an MLA one, every layer has the attention fields of the merged spec:
    block size, heads, head size, dtype, quantization mode and padded page
    size; and the merged spec does not carry both a sliding window and a chunk
    size. *)
Theorem merged_group_shares_attention_fields specs m s :
  merge specs = Ok m → checks_fields m = true → s ∈ specs →
  attention_part s = attention_part m ∧ block_size s = block_size m ∧
  match full_fields m with Some (_, _, sw, ch) => sw = None ∨ ch = None | None => s = m end.
Proof.
  intros Hm Hc Hs. destruct specs as [|s0 ss]; [by apply not_elem_of_nil in Hs|].
  assert (Hpart : ∀ x y a, attention_part x = Some a → attention_part y = Some a → block_size x = block_size y).
  { intros x y a Hx Hy. destruct x, y; simpl in *; congruence. }
  assert (Heq : ∀ x, forallb (λ s, bool_decide (s = s0)) ss = true → s0 = x → s = x).
  { intros x Hf <-. apply elem_of_cons in Hs as [->|Hs]; [done|].
    pose proof (forallb_In _ _ _ Hf Hs) as He. by apply bool_decide_eq_true in He. }
  unfold merge in Hm.
  destruct s0;
    try (destruct (forallb _ ss); [|done]; injection Hm as Hm;
         specialize (Heq _ eq_refl Hm); subst m; subst s; simpl; done).
  - destruct (merge_full_ok _ _ _ Hm) as (a' & v & sw & ch & -> & Hsc & Hall).
    rewrite (Hall s Hs). split; [done|]. split; [by eapply Hpart; [apply Hall|]|done].
  - unfold merge_tq in Hm. destruct (merge_full _ _) as [mm|] eqn:Hmf; [|done].
    destruct (merge_full_ok _ _ _ Hmf) as (a' & v & sw & ch & -> & Hsc & Hall).
    destruct (all_slots _ _) as [[]|]; [|done..]. injection Hm as <-.
    rewrite (Hall s Hs). split; [done|]. split; [by eapply Hpart; [apply Hall|]|done].
  - unfold merge_mla in Hm. repeat case_match; simplify_eq; discriminate Hc.
  - destruct (merge_full_ok _ _ _ Hm) as (a' & v & sw & ch & -> & Hsc & Hall).
    rewrite (Hall s Hs). split; [done|]. split; [by eapply Hpart; [apply Hall|]|done].
  - unfold merge_swa_mla in Hm. repeat case_match; simplify_eq; discriminate Hc.
Qed.

Definition test_attention (bs : Z) : AttentionSpec := mkAttentionSpec bs 8 128 "torch.float16" KV_NONE None.
Lemma merged_group_shares_attention_fields_witness :
  let s1 := FullAttentionSpec (test_attention 16) 128 None None in
  let s2 := FullAttentionSpec (test_attention 16) 128 (Some 4096) None in
  merge [s1; s2] = Ok s2 ∧ attention_part s1 = attention_part s2.
Proof.
  split; [vm_compute; reflexivity|].
  apply (merged_group_shares_attention_fields
           [FullAttentionSpec (test_attention 16) 128 None None;
            FullAttentionSpec (test_attention 16) 128 (Some 4096) None]);
    [vm_compute; reflexivity|reflexivity|by left].
Defined.
