(* ===== verification/SingleType.v ===== *)
(** * Managers of one attention type ([src/vllm/v1/core/single_type_kv_cache_manager.py])

    One [Manager] keeps the block tables of the requests for one KV-cache
    group; its methods run on the pair of the shared block pool and the
    manager.  The subclasses are the constructors of [manager_class], and the
    overridden methods dispatch on it.  [req_to_blocks] is a [defaultdict]:
    subscripting it creates the entry ([get_req_blocks]), which
    [get_num_common_prefix_blocks] observes through [len(self.req_to_blocks)].
    Two [KVCacheBlock]s are equal exactly when they are the same block, their
    ids being unique. *)
From S2P Require Import Prelude MathUtils FreeQueue Request BlockHash BlockPool KVSpec.
Local Open Scope Z_scope.

(* ===================================================================== *)
(** ** State                                                              *)
(* ===================================================================== *)

Inductive manager_class : Type :=
  | FullAttentionManager
  | SlidingWindowManager
  | ChunkedLocalAttentionManager
  | MambaManager
  | CrossAttentionManager
  | SinkFullAttentionManager.
#[export] Instance manager_class_eq_dec : EqDecision manager_class.
Proof. solve_decision. Defined.

(** [spec_manager_map[type(kv_cache_spec)]]; encoder-only layers have none. *)
Definition spec_manager_map (s : KVCacheSpec) : res manager_class :=
  match s with
  | FullAttentionSpec _ _ _ _ | TQFullAttentionSpec _ _ _ _ _ | MLAAttentionSpec _ _ _ _ _ =>
      Ok FullAttentionManager
  | SlidingWindowSpec _ _ _ | SlidingWindowMLASpec _ _ _ _ => Ok SlidingWindowManager
  | ChunkedLocalAttentionSpec _ _ => Ok ChunkedLocalAttentionManager
  | MambaSpec _ => Ok MambaManager
  | CrossAttentionSpec _ => Ok CrossAttentionManager
  | SinkFullAttentionSpec _ _ _ _ _ => Ok SinkFullAttentionManager
  | EncoderOnlyAttentionSpec _ => Raise KeyError
  end.

Record Manager := mkManager {
  cls : manager_class;
  spec : KVCacheSpec;
  m_bs : Z;                                   (* self.block_size *)
  m_enable_caching : bool;
  _max_admission_blocks_per_request : option Z;
  new_block_ids : list Z;
  req_to_blocks : gmap string (list ref);
  num_cached_block : gmap string Z;
  kv_cache_group_id : Z;
  _null_block : ref;
  cached_blocks_this_step : gset bytes;       (* Mamba *)
  last_state_block_idx : gmap string Z;       (* Mamba, align mode *)
  _allocated_block_reqs : gset string;        (* Mamba, align mode *)
  sink_blocks : list ref;                     (* SinkFullAttention *)
}.
#[export] Instance eta_Manager : Eta Manager := λ m,
  mkManager (cls m) (spec m) (m_bs m) (m_enable_caching m) (_max_admission_blocks_per_request m)
    (new_block_ids m) (req_to_blocks m) (num_cached_block m) (kv_cache_group_id m) (_null_block m)
    (cached_blocks_this_step m) (last_state_block_idx m) (_allocated_block_reqs m) (sink_blocks m).
#[export] Instance set_new_block_ids : Setter new_block_ids.
Proof. build_setter. Defined.
#[export] Instance set_req_to_blocks : Setter req_to_blocks.
Proof. build_setter. Defined.
#[export] Instance set_num_cached_block : Setter num_cached_block.
Proof. build_setter. Defined.
#[export] Instance set_cached_blocks_this_step : Setter cached_blocks_this_step.
Proof. build_setter. Defined.
#[export] Instance set_last_state_block_idx : Setter last_state_block_idx.
Proof. build_setter. Defined.
#[export] Instance set_allocated_block_reqs : Setter _allocated_block_reqs.
Proof. build_setter. Defined.
#[export] Instance set_sink_blocks : Setter sink_blocks.
Proof. build_setter. Defined.

(** A manager together with the pool it shares. *)
Abbreviation MS := (BlockPool * Manager)%type.

Definition on_pool {A} (f : M BlockPool A) : M MS A := zoom fst (λ p s, (p, s.2)) f.
Definition mget : M MS Manager := gets snd.
Definition pget : M MS BlockPool := gets fst.
Definition mmod (f : Manager → Manager) : M MS unit := modify (λ s, (s.1, f s.2)).

(** The blocks of a request, [[]] if it has none. *)
Definition blocks_of (m : Manager) (request_id : string) : list ref :=
  default [] (req_to_blocks m !! request_id).

(** [self.req_to_blocks[request_id]], which creates the entry. *)
Definition get_req_blocks (request_id : string) : M MS (list ref) :=
  m <- mget ;;
  mmod (λ m, m <| req_to_blocks := <[request_id := blocks_of m request_id]> (req_to_blocks m) |>) ;;
  ret (blocks_of m request_id).
(** The list object of the request after in-place changes. *)
Definition set_req_blocks (request_id : string) (l : list ref) : M MS unit :=
  mmod (λ m, m <| req_to_blocks ::= insert request_id l |>).

(** Exact-class test [type(spec) in (FullAttentionSpec, TQFullAttentionSpec)]. *)
Definition zeroed_spec (s : KVCacheSpec) : bool :=
  match s with FullAttentionSpec _ _ _ _ | TQFullAttentionSpec _ _ _ _ _ => true | _ => false end.

Definition spec_speculative_blocks (s : KVCacheSpec) : Z :=
  match s with MambaSpec f => num_speculative_blocks f | _ => 0 end.
Definition align_mode (m : Manager) : bool :=
  match spec m with MambaSpec f => bool_decide (mamba_cache_mode f = "align"%string) | _ => false end.

(** [__init__] of the base class. *)
Definition SingleTypeKVCacheManager_init (c : manager_class) (s : KVCacheSpec) (pool : BlockPool)
    (caching : bool) (group_id dcp_world_size pcp_world_size : Z) (cap : option Z) : Manager :=
  let world := dcp_world_size * pcp_world_size in
  mkManager c s (if 1 <? world then block_size s * world else block_size s) caching cap [] ∅ ∅
    group_id (null_block pool) ∅ ∅ ∅ [].

(** [SinkFullAttentionManager.__init__] takes its blocks straight from the
    free queue. *)
Definition sink_init (sink_len : option Z) : M MS unit :=
  m <- mget ;;
  match sink_len with
  | None => raise AssertionError
  | Some n =>
      assert_ ((0 <? n) && (n mod m_bs m =? 0)) ;;
      bs <- on_pool (queue (popleft_n (n / m_bs m))) ;;
      mmod (λ m, m <| sink_blocks := bs |>)
  end.

(** [get_manager_for_kv_cache_spec]. *)
Definition get_manager_for_kv_cache_spec (s : KVCacheSpec) (max_num_batched_tokens max_model_len : Z)
    (caching : bool) (group_id dcp_world_size pcp_world_size : Z) : M BlockPool Manager := λ pool,
  match spec_manager_map s with
  | Raise e => (Raise e, pool)
  | Ok c =>
      let cap := max_admission_blocks_per_request s max_num_batched_tokens max_model_len in
      let m := SingleTypeKVCacheManager_init c s pool caching group_id dcp_world_size pcp_world_size cap in
      match s with
      | SinkFullAttentionSpec _ _ _ _ sink_len =>
          match sink_init sink_len (pool, m) with
          | (Ok _, (pool', m')) => (Ok m', pool')
          | (Raise e, (pool', _)) => (Raise e, pool')
          end
      | _ => (Ok m, pool)
      end
  end.

(* ===================================================================== *)
(** ** Operations                                                         *)
(* ===================================================================== *)

(** [get_num_skipped_tokens], per class. *)
Definition get_num_skipped_tokens (m : Manager) (num_computed_tokens : Z) : Z :=
  match cls m with
  | SlidingWindowManager =>
      match spec m with
      | SlidingWindowSpec _ sw _ | SlidingWindowMLASpec _ sw _ _ => Z.max 0 (num_computed_tokens - sw + 1)
      | _ => 0
      end
  | ChunkedLocalAttentionManager =>
      match spec m with
      | ChunkedLocalAttentionSpec _ c => num_computed_tokens / c * c
      | _ => 0
      end
  | MambaManager => num_computed_tokens - 1
  | _ => 0
  end.

Definition _get_num_evictable_blocks (p : BlockPool) (blocks : list ref) : Z :=
  len (filter (λ b, (rc p b =? 0) && negb (isnull p b)) blocks).

Section operations.
Context `{env : KVEnv}.
Implicit Types (request_id : string).

(** [SingleTypeKVCacheManager.get_num_blocks_to_allocate]. *)
Definition base_num_blocks_to_allocate (p : BlockPool) (m : Manager) request_id (num_tokens : Z)
    (new_computed_blocks : list ref) (total_computed_tokens : Z) (apply_admission_cap : bool) : res Z :=
  let num_required_blocks := cdiv num_tokens (m_bs m) in
  let num_required_blocks :=
    match _max_admission_blocks_per_request m with
    | Some cap => if apply_admission_cap then Z.min num_required_blocks cap else num_required_blocks
    | None => num_required_blocks
    end in
  let num_req_blocks := len (blocks_of m request_id) in
  match num_cached_block m !! request_id with
  | Some _ =>
      if len new_computed_blocks =? 0 then Ok (Z.max (num_required_blocks - num_req_blocks) 0)
      else Raise AssertionError
  | None =>
      let num_skipped_tokens := get_num_skipped_tokens m total_computed_tokens in
      let num_local_computed_blocks := len new_computed_blocks + num_req_blocks in
      let num_skipped_blocks := num_skipped_tokens / m_bs m in
      let num_new_blocks :=
        Z.max (num_required_blocks - Z.max num_skipped_blocks num_local_computed_blocks) 0 in
      let num_skipped_new_computed_blocks := Z.max 0 (num_skipped_blocks - num_req_blocks) in
      let num_evictable_blocks :=
        _get_num_evictable_blocks p (slice_from new_computed_blocks num_skipped_new_computed_blocks) in
      Ok (num_new_blocks + num_evictable_blocks)
  end.

(** [MambaManager.get_num_blocks_to_allocate]. *)
Definition mamba_num_blocks_to_allocate request_id (num_tokens : Z) (new_computed_blocks : list ref)
    (total_computed_tokens num_tokens_main_model : Z) (apply_admission_cap : bool) : M MS Z :=
  m <- mget ;;
  p <- pget ;;
  let nspec := spec_speculative_blocks (spec m) in
  if match last new_computed_blocks with
     | Some b => match bhash p b with Some h => bool_decide (h ∈ cached_blocks_this_step m) | None => false end
     | None => false
     end
  then ret (num_gpu_blocks p + 1)
  else if negb (align_mode m) then
    let num_tokens := if 0 <? nspec then num_tokens + block_size (spec m) * nspec else num_tokens in
    of_res (base_num_blocks_to_allocate p m request_id num_tokens new_computed_blocks
              total_computed_tokens apply_admission_cap)
  else
    let num_required_blocks := cdiv num_tokens_main_model (m_bs m) + nspec in
    req_blocks <- get_req_blocks request_id ;;
    let num_new_blocks := num_required_blocks - len new_computed_blocks - len req_blocks in
    let num_new_blocks :=
      if 0 <? num_new_blocks then
        if bool_decide (request_id ∈ _allocated_block_reqs m) then 1 else 1 + nspec
      else num_new_blocks in
    ret (num_new_blocks + _get_num_evictable_blocks p new_computed_blocks).

Definition get_num_blocks_to_allocate request_id (num_tokens : Z) (new_computed_blocks : list ref)
    (total_computed_tokens num_tokens_main_model : Z) (apply_admission_cap : bool) : M MS Z :=
  m <- mget ;;
  match cls m with
  | MambaManager => mamba_num_blocks_to_allocate request_id num_tokens new_computed_blocks
                      total_computed_tokens num_tokens_main_model apply_admission_cap
  | _ => p <- pget ;;
         of_res (base_num_blocks_to_allocate p m request_id num_tokens new_computed_blocks
                   total_computed_tokens apply_admission_cap)
  end.

(** [allocate_new_computed_blocks] of the base class. *)
Definition base_allocate_new_computed_blocks request_id (new_computed_blocks : list ref)
    (num_local_computed_tokens num_external_computed_tokens : Z) : M MS unit :=
  m <- mget ;;
  match num_cached_block m !! request_id with
  | Some _ => assert_ (len new_computed_blocks =? 0)
  | None =>
      req_blocks <- get_req_blocks request_id ;;
      assert_ (len req_blocks =? 0) ;;
      let num_total_computed_tokens := num_local_computed_tokens + num_external_computed_tokens in
      let num_skipped_tokens := get_num_skipped_tokens m num_total_computed_tokens in
      let num_skipped_blocks := num_skipped_tokens / m_bs m in
      let new_computed_blocks :=
        if 0 <? num_skipped_blocks then slice_from new_computed_blocks num_skipped_blocks
        else new_computed_blocks in
      let num_external_computed_tokens :=
        if 0 <? num_skipped_blocks
        then Z.min (num_total_computed_tokens - num_skipped_tokens) num_external_computed_tokens
        else num_external_computed_tokens in
      (if m_enable_caching m then on_pool (touch new_computed_blocks)
       else assert_ (len new_computed_blocks =? 0)) ;;
      let req_blocks := req_blocks ++ py_replicate num_skipped_blocks (_null_block m) ++ new_computed_blocks in
      set_req_blocks request_id req_blocks ;;
      mmod (λ m, m <| num_cached_block ::= insert request_id (len req_blocks) |>) ;;
      when (0 <? num_external_computed_tokens) do (
        allocated_blocks <- on_pool (get_new_blocks (cdiv num_total_computed_tokens (m_bs m) - len req_blocks)) ;;
        set_req_blocks request_id (req_blocks ++ allocated_blocks) ;;
        p <- pget ;;
        when (zeroed_spec (spec m)) do
          mmod (λ m, m <| new_block_ids ::= λ l, l ++ map (blk_id p) allocated_blocks |>))
  end.

Definition allocate_new_computed_blocks request_id (new_computed_blocks : list ref)
    (num_local_computed_tokens num_external_computed_tokens : Z) : M MS unit :=
  m <- mget ;;
  match cls m with
  | CrossAttentionManager => assert_ (len new_computed_blocks =? 0)
  | _ => base_allocate_new_computed_blocks request_id new_computed_blocks num_local_computed_tokens
           num_external_computed_tokens
  end.

(** [allocate_new_blocks] of the base class. *)
Definition base_allocate_new_blocks request_id (num_tokens : Z) : M MS (list ref) :=
  m <- mget ;;
  req_blocks <- get_req_blocks request_id ;;
  let num_required_blocks := cdiv num_tokens (m_bs m) in
  let num_new_blocks := num_required_blocks - len req_blocks in
  if num_new_blocks <=? 0 then ret []
  else
    new_blocks <- on_pool (get_new_blocks num_new_blocks) ;;
    set_req_blocks request_id (req_blocks ++ new_blocks) ;;
    p <- pget ;;
    (when (zeroed_spec (spec m)) do
      mmod (λ m, m <| new_block_ids ::= λ l, l ++ map (blk_id p) new_blocks |>)) ;;
    ret new_blocks.

(** The loop that moves the speculative blocks of the previous step behind the
    null padding. *)
Fixpoint reuse_speculative (null : ref) (num_skipped_blocks : Z) (idxs : list Z) (req_blocks : list ref) :
    res (list ref) :=
  match idxs with
  | [] => Ok req_blocks
  | block_idx :: idxs' =>
      if block_idx <? num_skipped_blocks then
        match py_nth req_blocks block_idx with
        | None => Raise IndexError
        | Some b =>
            let j := if block_idx <? 0 then block_idx + len req_blocks + 1 else block_idx in
            reuse_speculative null num_skipped_blocks idxs' (py_set (req_blocks ++ [b]) j null)
        end
      else Ok req_blocks
  end.

(** [MambaManager.allocate_new_blocks]. *)
Definition mamba_allocate_new_blocks request_id (num_tokens num_tokens_main_model : Z) : M MS (list ref) :=
  m <- mget ;;
  let nspec := spec_speculative_blocks (spec m) in
  if negb (align_mode m) then
    base_allocate_new_blocks request_id (if 0 <? nspec then num_tokens + m_bs m * nspec else num_tokens)
  else
    req_blocks <- get_req_blocks request_id ;;
    let num_required_blocks := cdiv num_tokens_main_model (m_bs m) + nspec in
    if num_required_blocks =? len req_blocks then ret []
    else
      assert_ (len req_blocks <? num_required_blocks) ;;
      let prev_block_len := len req_blocks in
      let blocks_allocated := bool_decide (request_id ∈ _allocated_block_reqs m) in
      (if blocks_allocated then
         mmod (λ m, m <| last_state_block_idx ::= insert request_id (prev_block_len - 1 - nspec) |>)
       else when (0 <? prev_block_len) do
         mmod (λ m, m <| last_state_block_idx ::= insert request_id (prev_block_len - 1) |>)) ;;
      let num_skipped_blocks := num_required_blocks - nspec - 1 in
      let req_blocks :=
        if prev_block_len <? num_skipped_blocks
        then req_blocks ++ py_replicate (num_skipped_blocks - prev_block_len) (_null_block m)
        else req_blocks in
      set_req_blocks request_id req_blocks ;;
      req_blocks <- (if blocks_allocated
                     then of_res (reuse_speculative (_null_block m) num_skipped_blocks
                                    (seqZ (prev_block_len - nspec) nspec) req_blocks)
                     else ret req_blocks) ;;
      set_req_blocks request_id req_blocks ;;
      let num_new_blocks := num_required_blocks - len req_blocks in
      assert_ (num_new_blocks <=? (if blocks_allocated then 1 else nspec + 1)) ;;
      new_blocks <- on_pool (get_new_blocks num_new_blocks) ;;
      set_req_blocks request_id (req_blocks ++ new_blocks) ;;
      mmod (λ m, m <| _allocated_block_reqs ::= λ s, {[request_id]} ∪ s |>) ;;
      ret (slice_from (req_blocks ++ new_blocks) prev_block_len).

Definition allocate_new_blocks request_id (num_tokens num_tokens_main_model : Z) : M MS (list ref) :=
  m <- mget ;;
  match cls m with
  | MambaManager => mamba_allocate_new_blocks request_id num_tokens num_tokens_main_model
  | _ => base_allocate_new_blocks request_id num_tokens
  end.

Definition take_new_block_ids : M MS (list Z) :=
  m <- mget ;;
  mmod (λ m, m <| new_block_ids := [] |>) ;;
  ret (new_block_ids m).

(** [cache_blocks] of the base class. *)
Definition base_cache_blocks (request : Request) (num_tokens : Z) : M MS unit :=
  m <- mget ;;
  let num_cached_blocks := default 0 (num_cached_block m !! Request.request_id request) in
  let num_full_blocks := num_tokens / m_bs m in
  if num_full_blocks <=? num_cached_blocks then ret tt
  else
    blocks <- get_req_blocks (Request.request_id request) ;;
    on_pool (cache_full_blocks request blocks num_cached_blocks num_full_blocks (m_bs m)
               (kv_cache_group_id m)) ;;
    mmod (λ m, m <| num_cached_block ::= insert (Request.request_id request) num_full_blocks |>).

(** [MambaManager.cache_blocks] remembers the hashes cached in this step. *)
Definition mamba_cache_blocks (request : Request) (num_tokens : Z) : M MS unit :=
  m <- mget ;;
  let before := default 0 (num_cached_block m !! Request.request_id request) in
  base_cache_blocks request num_tokens ;;
  m <- mget ;;
  let after := default 0 (num_cached_block m !! Request.request_id request) in
  when (before <? after) do (
    blocks <- get_req_blocks (Request.request_id request) ;;
    for_ (slice blocks before after) (λ b,
      p <- pget ;;
      if isnull p b then ret tt
      else
        h <- of_option AssertionError (bhash p b) ;;
        mmod (λ m, m <| cached_blocks_this_step ::= λ s, {[h]} ∪ s |>))).

Definition cache_blocks (request : Request) (num_tokens : Z) : M MS unit :=
  m <- mget ;;
  match cls m with
  | CrossAttentionManager => raise ValueError
  | MambaManager => mamba_cache_blocks request num_tokens
  | _ => base_cache_blocks request num_tokens
  end.

(** [free]: the blocks of the request go back in reverse order. *)
Definition base_free request_id : M MS unit :=
  m <- mget ;;
  let req_blocks := blocks_of m request_id in
  mmod (λ m, m <| req_to_blocks ::= delete request_id |>) ;;
  on_pool (free_blocks (reverse req_blocks)) ;;
  mmod (λ m, m <| num_cached_block ::= delete request_id |>).

Definition free request_id : M MS unit :=
  m <- mget ;;
  (when (bool_decide (cls m = MambaManager) && align_mode m) do
     mmod (λ m, m <| _allocated_block_reqs ::= λ s, s ∖ {[request_id]} |>
                  <| last_state_block_idx ::= delete request_id |>)) ;;
  base_free request_id.

(** The loop of [remove_skipped_blocks] over the indices [n - 1, ..., 0];
    returns the removed blocks and the table. *)
Fixpoint skip_loop (null : ref) (n : nat) (blocks : list ref) : list ref * list ref :=
  match n with
  | O => ([], blocks)
  | S i =>
      match blocks !! i with
      | None => ([], blocks)
      | Some b =>
          if b =? null then ([], blocks)
          else let '(removed, blocks') := skip_loop null i (<[i := null]> blocks) in (b :: removed, blocks')
      end
  end.

(** [remove_skipped_blocks] of the base class. *)
Definition base_remove_skipped_blocks request_id (total_computed_tokens : Z) : M MS unit :=
  m <- mget ;;
  let num_skipped_tokens := get_num_skipped_tokens m total_computed_tokens in
  if num_skipped_tokens <=? 0 then ret tt
  else
    blocks <- get_req_blocks request_id ;;
    let num_skipped_blocks := Z.min (num_skipped_tokens / m_bs m) (len blocks) in
    let '(removed_blocks, blocks') := skip_loop (_null_block m) (Z.to_nat num_skipped_blocks) blocks in
    set_req_blocks request_id blocks' ;;
    on_pool (free_blocks removed_blocks).

(** [MambaManager.remove_skipped_blocks]. *)
Definition mamba_remove_skipped_blocks request_id (num_computed_tokens : Z) : M MS unit :=
  m <- mget ;;
  let num_computed_tokens := Z.max 0 (num_computed_tokens - spec_speculative_blocks (spec m)) in
  base_remove_skipped_blocks request_id num_computed_tokens ;;
  when (align_mode m) do
    match last_state_block_idx m !! request_id with
    | None => ret tt
    | Some idx =>
        when (idx <? cdiv num_computed_tokens (m_bs m) - 1) do (
          blocks <- get_req_blocks request_id ;;
          b <- of_option IndexError (py_nth blocks idx) ;;
          when (negb (b =? _null_block m)) do (
            on_pool (free_blocks [b]) ;;
            set_req_blocks request_id
              (py_set blocks (if idx <? 0 then idx + len blocks else idx) (_null_block m))))
    end.

Definition remove_skipped_blocks request_id (total_computed_tokens : Z) : M MS unit :=
  m <- mget ;;
  match cls m with
  | MambaManager => mamba_remove_skipped_blocks request_id total_computed_tokens
  | _ => base_remove_skipped_blocks request_id total_computed_tokens
  end.

(** The leading blocks that every request with an entry holds. *)
Fixpoint common_prefix (p : BlockPool) (n : Z) (blocks : list ref) : Z :=
  match blocks with
  | [] => 0
  | b :: bs => if rc p b =? n then 1 + common_prefix p n bs else 0
  end.

Definition get_num_common_prefix_blocks request_id : M MS Z :=
  m <- mget ;;
  match cls m with
  | FullAttentionManager | SinkFullAttentionManager =>
      blocks <- get_req_blocks request_id ;;
      m <- mget ;;
      p <- pget ;;
      ret (common_prefix p (Z.of_nat (size (req_to_blocks m))) blocks)
  | _ => ret 0
  end.

Definition new_step_starts : M MS unit :=
  m <- mget ;;
  when (bool_decide (cls m = MambaManager)) do mmod (λ m, m <| cached_blocks_this_step := ∅ |>).
End operations.

(* ===================================================================== *)
(** ** Prefix-cache hits                                                  *)
(* ===================================================================== *)

(** [block_pool.get_cached_block(...)] under the walrus: a hit is a non-empty
    list of one block per group. *)
Definition lookup_hit (p : BlockPool) (h : bytes) (group_ids : list Z) : res (option (list ref)) :=
  match get_cached_block p h group_ids with
  | Ok (Some []) => Ok None
  | r => r
  end.

(** [for computed, cached in zip(computed_blocks, cached_block): computed.append(cached)]. *)
Definition append_each (computed : list (list ref)) (cached : list ref) : list (list ref) :=
  zip_with (λ c b, c ++ [b]) computed cached.
(** [for computed in computed_blocks: computed.pop()]. *)
Definition pop_each (computed : list (list ref)) : list (list ref) :=
  map (λ c, take (length c - 1) c) computed.
(** [len(computed_blocks[0])]; the groups of a call are not empty. *)
Definition hit_blocks (computed : list (list ref)) : Z :=
  match computed with [] => 0 | c :: _ => len c end.

(** [while block_size != alignment_tokens and len(...) * block_size % alignment_tokens != 0: pop]. *)
Fixpoint align_loop (fuel : nat) (block_size alignment_tokens : Z) (computed : list (list ref)) :
    list (list ref) :=
  match fuel with
  | O => computed
  | S fuel' =>
      if negb (block_size =? alignment_tokens) &&
         negb ((hit_blocks computed * block_size) mod alignment_tokens =? 0)
      then align_loop fuel' block_size alignment_tokens (pop_each computed)
      else computed
  end.
(** The loop ends at the latest when the lists are empty. *)
Definition align_down (block_size alignment_tokens : Z) (computed : list (list ref)) : list (list ref) :=
  align_loop (S (Z.to_nat (hit_blocks computed))) block_size alignment_tokens computed.

(** The left-to-right scan shared by full attention and chunked local
    attention. *)
Fixpoint scan_hits (p : BlockPool) (group_ids : list Z) (hashes : list bytes) (computed : list (list ref)) :
    res (list (list ref)) :=
  match hashes with
  | [] => Ok computed
  | h :: hs =>
      match lookup_hit p h group_ids with
      | Raise e => Raise e
      | Ok None => Ok computed
      | Ok (Some cached) => scan_hits p group_ids hs (append_each computed cached)
      end
  end.

(** [FullAttentionManager.find_longest_cache_hit]. *)
Definition full_find_longest_cache_hit (block_hashes : BlockHashList) (max_length : Z) (group_ids : list Z)
    (p : BlockPool) (s : KVCacheSpec) (use_eagle : bool) (alignment_tokens dcp_world_size pcp_world_size : Z) :
    res (list (list ref)) :=
  if negb (isa_FullAttentionSpec s || isa_ChunkedLocalAttentionSpec s) then Raise AssertionError
  else
    let world := dcp_world_size * pcp_world_size in
    let bs := if 1 <? world then block_size s * world else block_size s in
    let max_num_blocks := max_length / bs in
    match bh_islice block_hashes max_num_blocks with
    | Raise e => Raise e
    | Ok hs =>
        match scan_hits p group_ids hs (map (λ _, []) group_ids) with
        | Raise e => Raise e
        | Ok computed =>
            let computed := if use_eagle && (0 <? hit_blocks computed) then pop_each computed else computed in
            Ok (align_down bs alignment_tokens computed)
        end
    end.

(** The right-to-left search of [SlidingWindowManager.find_longest_cache_hit]
    over the indices [n - 1, ..., 0]: the lists, the length of the current run
    of cached blocks, and whether the window was found. *)
Fixpoint swa_loop (p : BlockPool) (group_ids : list Z) (block_hashes : BlockHashList)
    (bs alignment_tokens need : Z) (use_eagle : bool) (n : nat) (computed : list (list ref)) (run : Z) :
    res (list (list ref) * Z * bool) :=
  match n with
  | O => Ok (computed, run, false)
  | S i =>
      match bh_at block_hashes (Z.of_nat i) with
      | Raise e => Raise e
      | Ok h =>
          match lookup_hit p h group_ids with
          | Raise e => Raise e
          | Ok None => swa_loop p group_ids block_hashes bs alignment_tokens need use_eagle i computed 0
          | Ok (Some cached) =>
              let post_pop_blocks := if use_eagle then Z.of_nat i else Z.of_nat i + 1 in
              if (run =? 0) && negb (bs =? alignment_tokens) &&
                 negb ((post_pop_blocks * bs) mod alignment_tokens =? 0)
              then swa_loop p group_ids block_hashes bs alignment_tokens need use_eagle i computed run
              else
                let computed := zip_with (λ c b, <[i := b]> c) computed cached in
                let run := run + 1 in
                if need <=? run
                then Ok (map (take (i + Z.to_nat run)) computed, run, true)
                else swa_loop p group_ids block_hashes bs alignment_tokens need use_eagle i computed run
          end
      end
  end.

(** [SlidingWindowManager.find_longest_cache_hit]. *)
Definition swa_find_longest_cache_hit (block_hashes : BlockHashList) (max_length : Z) (group_ids : list Z)
    (p : BlockPool) (s : KVCacheSpec) (use_eagle : bool) (alignment_tokens dcp_world_size pcp_world_size : Z) :
    res (list (list ref)) :=
  match s with
  | SlidingWindowSpec a sw _ | SlidingWindowMLASpec a sw _ _ =>
      if negb ((dcp_world_size =? 1) && (pcp_world_size =? 1)) then Raise AssertionError
      else
        let bs := a_block_size a in
        let need := cdiv (sw - 1) bs + (if use_eagle then 1 else 0) in
        let max_num_blocks := max_length / bs in
        let computed := map (λ _, py_replicate max_num_blocks (null_block p)) group_ids in
        match swa_loop p group_ids block_hashes bs alignment_tokens need use_eagle
                (Z.to_nat max_num_blocks) computed 0 with
        | Raise e => Raise e
        | Ok (computed, run, match_found) =>
            let computed :=
              if match_found then computed
              else align_down bs alignment_tokens (map (take (Z.to_nat run)) computed) in
            Ok (if use_eagle && (0 <? hit_blocks computed)
                then align_down bs alignment_tokens (pop_each computed) else computed)
        end
  | _ => Raise AssertionError
  end.

(** The hashes at the indices [i, ..., i + n - 1]. *)
Fixpoint hashes_from (block_hashes : BlockHashList) (i : Z) (n : nat) : list (res bytes) :=
  match n with
  | O => []
  | S n' => bh_at block_hashes i :: hashes_from block_hashes (i + 1) n'
  end.
Fixpoint scan_hits_at (p : BlockPool) (group_ids : list Z) (hashes : list (res bytes)) (computed : list (list ref)) :
    res (list (list ref)) :=
  match hashes with
  | [] => Ok computed
  | Raise e :: _ => Raise e
  | Ok h :: hs =>
      match lookup_hit p h group_ids with
      | Raise e => Raise e
      | Ok None => Ok computed
      | Ok (Some cached) => scan_hits_at p group_ids hs (append_each computed cached)
      end
  end.

(** [ChunkedLocalAttentionManager.find_longest_cache_hit]. *)
Definition chunked_find_longest_cache_hit (block_hashes : BlockHashList) (max_length : Z) (group_ids : list Z)
    (p : BlockPool) (s : KVCacheSpec) (use_eagle : bool) (alignment_tokens dcp_world_size pcp_world_size : Z) :
    res (list (list ref)) :=
  match s with
  | ChunkedLocalAttentionSpec a chunk =>
      if use_eagle || negb ((dcp_world_size =? 1) && (pcp_world_size =? 1)) ||
         negb (a_block_size a =? alignment_tokens)
      then Raise AssertionError
      else
        let bs := a_block_size a in
        let max_num_blocks := max_length / bs in
        let local_attention_start_idx := if 0 <? max_length then max_length / chunk * chunk else 0 in
        let start := local_attention_start_idx / bs in
        let computed := map (λ _, py_replicate start (null_block p)) group_ids in
        scan_hits_at p group_ids (hashes_from block_hashes start (Z.to_nat (max_num_blocks - start))) computed
  | _ => Raise AssertionError
  end.

(** The right-to-left search of [MambaManager.find_longest_cache_hit]. *)
Fixpoint mamba_loop (p : BlockPool) (group_ids : list Z) (block_hashes : BlockHashList)
    (bs alignment_tokens : Z) (n : nat) : res (list (list ref)) :=
  match n with
  | O => Ok (map (λ _, []) group_ids)
  | S i =>
      match bh_at block_hashes (Z.of_nat i) with
      | Raise e => Raise e
      | Ok h =>
          match lookup_hit p h group_ids with
          | Raise e => Raise e
          | Ok None => mamba_loop p group_ids block_hashes bs alignment_tokens i
          | Ok (Some cached) =>
              if negb (bs =? alignment_tokens) &&
                 negb (((Z.of_nat i + 1) * bs) mod alignment_tokens =? 0)
              then mamba_loop p group_ids block_hashes bs alignment_tokens i
              else Ok (zip_with (λ _ b, replicate i (null_block p) ++ [b]) group_ids cached)
          end
      end
  end.

(** [MambaManager.find_longest_cache_hit]. *)
Definition mamba_find_longest_cache_hit (block_hashes : BlockHashList) (max_length : Z) (group_ids : list Z)
    (p : BlockPool) (s : KVCacheSpec) (use_eagle : bool) (alignment_tokens dcp_world_size pcp_world_size : Z) :
    res (list (list ref)) :=
  match s with
  | MambaSpec f =>
      if negb ((dcp_world_size =? 1) && (pcp_world_size =? 1)) then Raise AssertionError
      else mamba_loop p group_ids block_hashes (m_block_size f) alignment_tokens
             (Z.to_nat (max_length / m_block_size f))
  | _ => Raise AssertionError
  end.

(** [manager_cls.find_longest_cache_hit]. *)
Definition find_longest_cache_hit (c : manager_class) (block_hashes : BlockHashList) (max_length : Z)
    (group_ids : list Z) (p : BlockPool) (s : KVCacheSpec) (use_eagle : bool)
    (alignment_tokens dcp_world_size pcp_world_size : Z) : res (list (list ref)) :=
  match c with
  | FullAttentionManager | SinkFullAttentionManager =>
      full_find_longest_cache_hit block_hashes max_length group_ids p s use_eagle alignment_tokens
        dcp_world_size pcp_world_size
  | SlidingWindowManager =>
      swa_find_longest_cache_hit block_hashes max_length group_ids p s use_eagle alignment_tokens
        dcp_world_size pcp_world_size
  | ChunkedLocalAttentionManager =>
      chunked_find_longest_cache_hit block_hashes max_length group_ids p s use_eagle alignment_tokens
        dcp_world_size pcp_world_size
  | MambaManager =>
      mamba_find_longest_cache_hit block_hashes max_length group_ids p s use_eagle alignment_tokens
        dcp_world_size pcp_world_size
  | CrossAttentionManager =>
      if isa_CrossAttentionSpec s then Raise NotImplementedError else Raise AssertionError
  end.

(* ===================================================================== *)
(** ** What a prefix-cache hit guarantees                                 *)
(* ===================================================================== *)

Section hits.
Variables (p : BlockPool) (free : list ref) (gs : list Z).
Hypothesis Hp : pool_inv p free.
Hypothesis Hgs : Forall (λ g, 0 ≤ g < 2 ^ 32) gs.
Hypothesis Hne : gs ≠ [].

(** Block [b] holds, for group [g], the tokens hashed to [h]. *)
Definition hit_at (q : BlockPool) (g : Z) (h : bytes) (b : ref) : Prop :=
  1 ≤ b < num_gpu_blocks q ∧ bhash q b = Some (h ++ to_bytes_be 4 g).

(** Some group has no block for [h]. *)
Definition missed (q : BlockPool) (groups : list Z) (h : bytes) : Prop :=
  ∃ g, g ∈ groups ∧ ∀ b, ¬ hit_at q g h b.

Lemma lookup_hit_spec h :
  (∃ bs, lookup_hit p h gs = Ok (Some bs) ∧ Forall2 (λ g b, hit_at p g h b) gs bs) ∨
  (lookup_hit p h gs = Ok None ∧ missed p gs h).
Proof.
  unfold lookup_hit. destruct (get_cached_block_spec p free h gs Hp Hgs) as [(bs & -> & HF)|(-> & g & Hg & Hno)].
  - destruct bs as [|b bs]; [by inversion HF; subst|]. left. eauto.
  - right. split; [done|]. exists g. split; [done|]. intros b [? ?]. by eapply Hno.
Qed.

(** One row of blocks per group, all of length [n]. *)
Definition rows_of (n : nat) (computed : list (list ref)) : Prop :=
  computed ≠ [] ∧ Forall (λ c, length c = n) computed.

Lemma rows_hit_blocks n computed : rows_of n computed → hit_blocks computed = Z.of_nat n.
Proof. intros [Hne' HF]. destruct HF as [|c cs Hc]; [done|]. simpl. unfold len. by rewrite Hc. Qed.
Lemma rows_take n m computed : rows_of n computed → (m ≤ n)%nat → rows_of m (map (take m) computed).
Proof.
  intros [Hne' HF] Hm. split; [by destruct computed|]. apply Forall_map. eapply Forall_impl; [exact HF|].
  simpl. intros c Hc. rewrite length_take. lia.
Qed.
Lemma rows_take_all n computed : rows_of n computed → map (take n) computed = computed.
Proof.
  intros [_ HF]. induction HF as [|c cs Hc _ IH]; simpl; [done|]. rewrite IH. by rewrite take_ge by lia.
Qed.
Lemma rows_pop n computed : rows_of n computed → pop_each computed = map (take (n - 1)) computed.
Proof. intros [_ HF]. unfold pop_each. induction HF as [|c cs Hc _ IH]; simpl; [done|]. by rewrite IH, Hc. Qed.
Lemma map_take_take (a b : nat) (l : list (list ref)) : (a ≤ b)%nat → map (take a) (map (take b) l) = map (take a) l.
Proof. intros Hab. rewrite map_map. apply map_ext. intros c. rewrite take_take. f_equal. lia. Qed.

(** The number of blocks the alignment loop leaves of [n]. *)
Fixpoint aligned_blocks (bs al : Z) (n : nat) : nat :=
  match n with
  | O => O
  | S n' => if (bs =? al) || ((Z.of_nat n * bs) mod al =? 0) then n else aligned_blocks bs al n'
  end.

Lemma aligned_blocks_le bs al n : (aligned_blocks bs al n ≤ n)%nat.
Proof. induction n as [|n IH]; [done|]. cbn [aligned_blocks]. case_match; lia. Qed.

(** It is the largest multiple of the alignment. *)
Lemma aligned_blocks_spec bs al n :
  0 < al → (Z.of_nat (aligned_blocks bs al n) * bs) mod al = 0 ∧
  ∀ m, (aligned_blocks bs al n < m ≤ n)%nat → (Z.of_nat m * bs) mod al ≠ 0.
Proof.
  intros Hal. induction n as [|n [IH1 IH2]]; [split; [by rewrite Z.mod_0_l by lia|lia]|].
  cbn [aligned_blocks]. destruct (_ || _) eqn:E.
  - split; [|lia]. apply orb_true_iff in E as [E|E]; bool_to_prop; [|done].
    subst. by rewrite Z_mod_mult.
  - split; [done|]. intros m Hm. bool_to_prop. destruct (decide (m = S n)) as [->|]; [done|]. apply IH2. lia.
Qed.
Lemma aligned_blocks_id bs al n :
  (bs =? al) = true ∨ (Z.of_nat n * bs) mod al = 0 → aligned_blocks bs al n = n.
Proof.
  intros H. destruct n as [|n]; [done|]. cbn [aligned_blocks].
  destruct H as [->|H]; [done|]. by rewrite H, orb_true_r.
Qed.

Lemma align_loop_spec bs al n computed fuel :
  0 < al → rows_of n computed → (n < fuel)%nat →
  align_loop fuel bs al computed = map (take (aligned_blocks bs al n)) computed.
Proof.
  intros Hal. revert fuel computed. induction n as [|n IH]; intros fuel computed Hr Hf.
  - destruct fuel as [|fuel]; [lia|]. simpl. rewrite (rows_hit_blocks 0) by done.
    rewrite Z.mul_0_l, Z.mod_0_l, andb_false_r by lia. by rewrite (rows_take_all 0).
  - destruct fuel as [|fuel]; [lia|]. cbn [align_loop aligned_blocks]. rewrite (rows_hit_blocks (S n)) by done.
    rewrite <-negb_orb. destruct (_ || _); cbn [negb]; [by rewrite (rows_take_all (S n))|].
    rewrite (rows_pop (S n)) by done. replace (S n - 1)%nat with n by lia.
    rewrite IH; [|apply (rows_take (S n)); [done|lia]|lia].
    apply map_take_take. apply aligned_blocks_le.
Qed.

Lemma align_down_spec bs al n computed :
  0 < al → rows_of n computed →
  align_down bs al computed = map (take (aligned_blocks bs al n)) computed.
Proof.
  intros Hal Hr. unfold align_down. apply align_loop_spec; [done..|].
  rewrite (rows_hit_blocks n) by done. lia.
Qed.

(** A row whose blocks hold, in order, the hashes [hs]. *)
Definition row_hits (g : Z) (hs : list bytes) (c : list ref) : Prop := Forall2 (hit_at p g) hs c.

Lemma Forall2_map_take (P Q : Z → list ref → Prop) n rows :
  (∀ g c, P g c → Q g (take n c)) → Forall2 P gs rows → Forall2 Q gs (map (take n) rows).
Proof. intros HPQ HF. clear Hgs Hne. induction HF; simpl; constructor; auto. Qed.

Lemma Forall2_rows hs rows : Forall2 (λ g c, row_hits g hs c) gs rows → rows_of (length hs) rows.
Proof.
  intros HF. split; [by destruct HF|]. clear Hgs Hne. induction HF as [|g c gs' rows Hc _ IH]; constructor; [|done].
  symmetry. by eapply Forall2_length.
Qed.

Lemma scan_hits_spec hs done rows :
  Forall2 (λ g c, row_hits g done c) gs rows →
  ∃ k rows', (k ≤ length hs)%nat ∧ scan_hits p gs hs rows = Ok rows' ∧
    Forall2 (λ g c, row_hits g (done ++ take k hs) c) gs rows' ∧
    (k = length hs ∨ ∃ h, hs !! k = Some h ∧ missed p gs h).
Proof.
  revert done rows. induction hs as [|h hs IH]; intros done rows HF; simpl.
  { exists 0%nat, rows. rewrite app_nil_r. split; [lia|]. auto. }
  destruct (lookup_hit_spec h) as [(bs & -> & Hbs)|[-> Hm]].
  - destruct (IH (done ++ [h]) (append_each rows bs)) as (k & rows' & Hk & He & HF' & Hmax).
    { clear IH Hgs Hne. unfold append_each. revert bs Hbs.
      induction HF as [|g c gs' rows Hc _ IH]; intros bs Hbs; inversion Hbs; subst; simpl; constructor; [|auto].
      apply Forall2_app; [done|]. by constructor. }
    exists (S k), rows'. split_and!; [lia|done|by rewrite <-app_assoc in HF'|].
    destruct Hmax as [->|(h' & ? & ?)]; [by left|right; by exists h'].
  - exists 0%nat, rows. simpl. rewrite app_nil_r. split_and!; [lia|done|done|]. right. eauto.
Qed.

Lemma row_hits_take g hs c n : row_hits g hs c → row_hits g (take n hs) (take n c).
Proof. apply Forall2_take. Qed.

Lemma rows_not_missed hs rows h :
  Forall2 (λ g c, row_hits g hs c) gs rows → h ∈ hs → ¬ missed p gs h.
Proof.
  intros HF Hh (g & Hg & Hno). apply list_elem_of_lookup in Hg as [i Hi].
  destruct (Forall2_lookup_l _ _ _ _ _ HF Hi) as (c & _ & Hc).
  apply list_elem_of_lookup in Hh as [j Hj].
  destruct (Forall2_lookup_l _ _ _ _ _ Hc Hj) as (b & _ & Hb). by apply (Hno b).
Qed.

Lemma full_hit_spec H max_length s use_eagle al dcp pcp :
  let bs := if 1 <? dcp * pcp then block_size s * (dcp * pcp) else block_size s in
  isa_FullAttentionSpec s = true → 0 < bs → 0 ≤ max_length → 0 < al →
  let hs := take (Z.to_nat (max_length / bs)) (bh_list H) in
  ∃ k n rows, full_find_longest_cache_hit H max_length gs p s use_eagle al dcp pcp = Ok rows ∧
    (k ≤ length hs)%nat ∧ (∀ h, h ∈ take k hs → ¬ missed p gs h) ∧
    (k = length hs ∨ ∃ h, hs !! k = Some h ∧ missed p gs h) ∧
    Forall2 (λ g c, row_hits g (take n hs) c) gs rows ∧
    (n ≤ k - if use_eagle then 1 else 0)%nat ∧ (Z.of_nat n * bs) mod al = 0 ∧ Z.of_nat n * bs ≤ max_length ∧
    (∀ m, (n < m ≤ k - if use_eagle then 1 else 0)%nat → (Z.of_nat m * bs) mod al ≠ 0).
Proof.
  intros bs Hs Hbs Hml Hal hs. unfold full_find_longest_cache_hit. rewrite Hs. cbn [orb negb]. fold bs.
  unfold bh_islice. pose proof (Z.div_pos max_length bs Hml Hbs) as Hq.
  rewrite (proj2 (Z.ltb_ge _ _)) by lia. fold hs.
  destruct (scan_hits_spec hs [] (map (λ _, []) gs)) as (k & rows & Hk & -> & HF & Hmax).
  { clear Hgs Hne. induction gs; simpl; constructor; [by constructor|done]. }
  rewrite app_nil_l in HF. pose proof (Forall2_rows _ _ HF) as Hr. rewrite length_take_le in Hr by done.
  set (e := if use_eagle then 1%nat else 0%nat).
  set (rows1 := if use_eagle && (0 <? hit_blocks rows) then pop_each rows else rows).
  assert (Hr1 : rows1 = map (take (k - e)) rows).
  { unfold rows1, e. rewrite (rows_hit_blocks _ _ Hr). destruct use_eagle; cbn [andb].
    - destruct (Z.ltb_spec 0 (Z.of_nat k)); [by apply rows_pop|].
      replace k with 0%nat in * by lia. by rewrite (rows_take_all 0).
    - rewrite Nat.sub_0_r. by rewrite (rows_take_all k). }
  rewrite (align_down_spec bs al (k - e)); [|done|rewrite Hr1; apply (rows_take k); [done|lia]].
  set (n := aligned_blocks bs al (k - e)). pose proof (aligned_blocks_le bs al (k - e)) as Hn.
  destruct (aligned_blocks_spec bs al (k - e) Hal) as [Ha1 Ha2].
  exists k, n, (map (take n) rows1).
  split_and!; try done.
  - intros h Hh. by eapply rows_not_missed.
  - rewrite Hr1, map_take_take by done. eapply Forall2_map_take; [|exact HF].
    intros g c Hc%(row_hits_take _ _ _ n). by rewrite take_take, Nat.min_l in Hc by lia.
  - assert (Z.of_nat n ≤ max_length / bs).
    { unfold hs in Hk. rewrite length_take in Hk. lia. }
    pose proof (Z.mul_div_le max_length bs Hbs). nia.
Qed.
(** C37.  Full attention: the hit is the longest one.  With [k] the length of the
    longest prefix of the request's block hashes, within [max_length], that is
    cached for all groups, the call returns for each group the blocks of the
    first [n] hashes, where [n] is the largest number of blocks, at most [k] (at
    most [k - 1] under EAGLE), whose tokens are a multiple of the alignment. *)
Theorem full_attention_hit_is_the_longest H max_length s use_eagle al dcp pcp :
  let bs := if 1 <? dcp * pcp then block_size s * (dcp * pcp) else block_size s in
  isa_FullAttentionSpec s = true → 0 < bs → 0 ≤ max_length → 0 < al →
  let hs := take (Z.to_nat (max_length / bs)) (bh_list H) in
  ∃ k n rows, full_find_longest_cache_hit H max_length gs p s use_eagle al dcp pcp = Ok rows ∧
    (k ≤ length hs)%nat ∧ (∀ h, h ∈ take k hs → ¬ missed p gs h) ∧
    (k = length hs ∨ ∃ h, hs !! k = Some h ∧ missed p gs h) ∧
    Forall2 (λ g c, row_hits g (take n hs) c) gs rows ∧
    (n ≤ k - if use_eagle then 1 else 0)%nat ∧ (Z.of_nat n * bs) mod al = 0 ∧ Z.of_nat n * bs ≤ max_length ∧
    (∀ m, (n < m ≤ k - if use_eagle then 1 else 0)%nat → (Z.of_nat m * bs) mod al ≠ 0).
Proof. apply full_hit_spec. Qed.
End hits.

(** ** Sliding window and Mamba hits *)
Section window_hits.
Variables (p : BlockPool) (free : list ref) (gs : list Z).
Hypothesis Hp : pool_inv p free.
Hypothesis Hgs : Forall (λ g, 0 ≤ g < 2 ^ 32) gs.
Hypothesis Hne : gs ≠ [].
Variables (H : BlockHashList) (bs al need : Z) (use_eagle : bool) (N : nat).
Hypothesis Hbs : 0 < bs.
Hypothesis Hal : 0 < al.
Hypothesis HN : Z.of_nat N ≤ len (bh_list H).

(** Entry [j] of a row holds the block of hash [j]. *)
Definition hit_in (q : BlockPool) (G : BlockHashList) (g : Z) (c : list ref) (j : nat) : Prop :=
  ∃ h b, bh_at G (Z.of_nat j) = Ok h ∧ c !! j = Some b ∧ hit_at q g h b.

(** A row of length [n], null before [i] and hit from [i] to [e]. *)
Definition window_row (n i e : nat) (g : Z) (c : list ref) : Prop :=
  length c = n ∧ (∀ j, (j < i)%nat → c !! j = Some (null_block p)) ∧
  (∀ j, (i ≤ j < e)%nat → hit_in p H g c j).

(** The search may start at the block that ends before [e]. *)
Definition start_ok (e : nat) : Prop :=
  (bs =? al) = true ∨ (Z.of_nat (if use_eagle then e - 1 else e) * bs) mod al = 0.

Lemma window_row_set n i r g c b h :
  window_row n (S i) (S i + r) g c → (i < n)%nat → bh_at H (Z.of_nat i) = Ok h → hit_at p g h b →
  window_row n i (i + S r) g (<[i := b]> c).
Proof.
  clear HN Hbs Hal Hgs Hne. intros (Hl & Hnull & Hhit) Hi Hh Hb. split_and!.
  - by rewrite length_insert.
  - intros j Hj. rewrite list_lookup_insert_ne by lia. apply Hnull. lia.
  - intros j Hj. destruct (decide (i = j)) as [<-|Hij].
    + exists h, b. by rewrite list_lookup_insert_eq by lia.
    + destruct (Hhit j) as (h' & b' & ? & ? & ?); [lia|]. exists h', b'.
      by rewrite list_lookup_insert_ne by lia.
Qed.

Lemma window_row_take n i e m g c :
  window_row n i e g c → (i ≤ m)%nat → (m ≤ e)%nat → (e ≤ n)%nat → window_row m i m g (take m c).
Proof.
  clear HN Hbs Hal Hgs Hne. intros (Hl & Hnull & Hhit) Him Hme Hen. split_and!.
  - rewrite length_take. lia.
  - intros j Hj. rewrite lookup_take_lt by lia. auto.
  - intros j Hj. destruct (Hhit j) as (h & b & ? & ? & ?); [lia|]. exists h, b.
    by rewrite lookup_take_lt by lia.
Qed.

Lemma Forall2_rows_set n i r h rows bs' :
  Forall2 (window_row n (S i) (S i + r)) gs rows → Forall2 (λ g b, hit_at p g h b) gs bs' →
  (i < n)%nat → bh_at H (Z.of_nat i) = Ok h →
  Forall2 (window_row n i (i + S r)) gs (zip_with (λ c b, <[i := b]> c) rows bs').
Proof.
  intros HF Hb Hi Hh. clear Hgs Hne. revert bs' Hb.
  induction HF as [|g c gs' rows Hc _ IH]; intros bs' Hb; inversion Hb; subst; simpl; constructor; [|auto].
  by eapply window_row_set.
Qed.

Lemma Forall2_take_rows (P Q : Z → list ref → Prop) m rows :
  (∀ g c, P g c → Q g (take m c)) → Forall2 P gs rows → Forall2 Q gs (map (take m) rows).
Proof. by apply Forall2_map_take. Qed.

(** The search, from a run of [r] cached blocks that begins at [n]. *)
Lemma swa_loop_spec n r rows :
  Forall2 (window_row N n (n + r)) gs rows → (n + r ≤ N)%nat → (r = 0%nat ∨ Z.of_nat r < need) →
  (r ≠ 0%nat → start_ok (n + r)) →
  ∃ rows' r' (found : bool), swa_loop p gs H bs al need use_eagle n rows (Z.of_nat r) = Ok (rows', Z.of_nat r', found) ∧
    if found then ∃ i, need ≤ Z.of_nat r' ∧ r' ≠ 0%nat ∧ (i + r' ≤ N)%nat ∧ start_ok (i + r') ∧
                       Forall2 (window_row (i + r') i (i + r')) gs rows'
    else (r' ≤ N)%nat ∧ Forall2 (window_row N 0 r') gs rows'.
Proof.
  revert r rows. induction n as [|i IH]; intros r rows HF Hle Hr Hst; simpl.
  { exists rows, r, false. split; [done|]. split; [lia|done]. }
  destruct (bh_at_in_range H (Z.of_nat i)) as (h & Hh); [lia|]. rewrite Hh.
  assert (Hdrop : ∀ g c, window_row N (S i) (S i + r) g c → window_row N i (i + 0) g c).
  { intros g c (Hl & Hn & _). split_and!; [done|intros j Hj; apply Hn; lia|intros j Hj; lia]. }
  destruct (lookup_hit_spec p free gs Hp Hgs Hne h) as [(bs' & -> & Hb)|[-> _]].
  2:{ apply (IH 0%nat); [|lia|by left|done]. eapply Forall2_impl; [exact HF|done]. }
  destruct ((Z.of_nat r =? 0) && negb (bs =? al) && _) eqn:Eskip.
  - apply andb_true_iff in Eskip as [Eskip _]. apply andb_true_iff in Eskip as [Eskip _]. bool_to_prop.
    assert (r = 0%nat) as -> by lia. apply (IH 0%nat); [|lia|by left|done].
    eapply Forall2_impl; [exact HF|done].
  - assert (Hst' : start_ok (i + S r)).
    { destruct (decide (r = 0%nat)) as [->|Hr0].
      - unfold start_ok. replace (Z.of_nat 0 =? 0) with true in Eskip by done. cbn [andb] in Eskip.
        apply andb_false_iff in Eskip as [E|E]; bool_to_prop; [left; by apply Z.eqb_eq|right].
        destruct use_eagle; [by replace (i + 1 - 1)%nat with i by lia|].
        by replace (Z.of_nat (i + 1)) with (Z.of_nat i + 1) by lia.
      - replace (i + S r)%nat with (S i + r)%nat by lia. by apply Hst. }
    assert (HF' := Forall2_rows_set N i r h rows bs' HF Hb ltac:(lia) Hh).
    replace (Z.of_nat r + 1) with (Z.of_nat (S r)) by lia.
    destruct (Z.leb_spec need (Z.of_nat (S r))).
    + eexists _, (S r), true. split; [reflexivity|]. exists i. rewrite Nat2Z.id.
      split_and!; [done|done|lia|done|].
      eapply Forall2_take_rows; [|exact HF']. intros g c Hc. by eapply window_row_take; [done|lia..].
    + apply IH; [done|lia|by right|done].
Qed.
End window_hits.

(** The window of a sliding-window spec. *)
Definition window_of (s : KVCacheSpec) : option (AttentionSpec * Z) :=
  match s with
  | SlidingWindowSpec a sw _ | SlidingWindowMLASpec a sw _ _ => Some (a, sw)
  | _ => None
  end.

Section window_theorems.
Variables (p : BlockPool) (free : list ref) (gs : list Z).
Hypothesis Hp : pool_inv p free.
Hypothesis Hgs : Forall (λ g, 0 ≤ g < 2 ^ 32) gs.
Hypothesis Hne : gs ≠ [].

Lemma rows_of_Forall2 (P : Z → list ref → Prop) n rows :
  (∀ g c, P g c → length c = n) → Forall2 P gs rows → rows_of n rows.
Proof.
  intros Hl HF. split; [by destruct HF|]. clear Hgs Hne.
  induction HF; constructor; eauto.
Qed.

(** The rows that the search for a window of [w] blocks returns. *)
Lemma swa_rows H (bs al w : Z) (use_eagle : bool) (N : nat) :
  0 < bs → 0 < al → Z.of_nat N ≤ len (bh_list H) → 0 ≤ w →
  ∃ rows1 run found rows n i,
    swa_loop p gs H bs al (w + if use_eagle then 1 else 0) use_eagle N
      (map (λ _, replicate N (null_block p)) gs) 0 = Ok (rows1, run, found) ∧
    (let c := if found then rows1 else align_down bs al (map (take (Z.to_nat run)) rows1) in
     if use_eagle && (0 <? hit_blocks c) then align_down bs al (pop_each c) else c) = rows ∧
    Forall2 (window_row p H n i n) gs rows ∧ (n ≤ N)%nat ∧ (Z.of_nat n * bs) mod al = 0 ∧
    (i = 0%nat ∨ Z.of_nat i + w ≤ Z.of_nat n) ∧ (use_eagle = true → n = 0%nat ∨ (n < N)%nat).
Proof.
  intros Hbs Hal HN Hw. set (e := if use_eagle then 1 else 0).
  destruct (swa_loop_spec p free gs Hp Hgs Hne H bs al (w + e) use_eagle N HN N 0
              (map (λ _, replicate N (null_block p)) gs)) as (rows1 & run & found & Hloop & Hres);
    [|lia|by left|done|].
  { clear Hgs Hne. induction gs as [|g gs' IH]; simpl; constructor; [|done]. split_and!.
    - apply length_replicate.
    - intros j Hj. by apply lookup_replicate_2.
    - intros j Hj. lia. }
  assert (Hwl : ∀ n i e' g c, window_row p H n i e' g c → length c = n) by (by intros n i e' g c (? & _)).
  destruct found.
  - destruct Hres as (i & Hneed & Hr0 & Hle & Hst & HF).
    pose proof (rows_of_Forall2 _ _ _ (Hwl _ _ _) HF) as Hr.
    destruct use_eagle; unfold e in *; cbn [andb].
    + set (n := (i + run - 1)%nat). exists rows1, (Z.of_nat run), true, (map (take n) rows1), n, i.
      split; [done|]. split.
      { cbv zeta. rewrite (rows_hit_blocks _ _ Hr), (proj2 (Z.ltb_lt _ _)) by lia.
        rewrite (rows_pop _ _ Hr). fold n.
        rewrite (align_down_spec bs al n); [|done|apply (rows_take (i + run)); [done|lia]].
        rewrite aligned_blocks_id by (by destruct Hst as [?|?]; [left|right]).
        by rewrite map_take_take by lia. }
      split_and!; [|lia| |right; lia|right; lia].
      * eapply Forall2_map_take; [|exact HF]. intros g c Hc.
        eapply window_row_take; [exact Hc|lia..].
      * destruct Hst as [Hb%Z.eqb_eq|?]; [|done]. subst al. apply Z_mod_mult.
    + exists rows1, (Z.of_nat run), true, rows1, (i + run)%nat, i.
      split_and!; [done|done|done|lia| |right; lia|done].
      destruct Hst as [Hb%Z.eqb_eq|?]; [|done]. subst al. apply Z_mod_mult.
  - destruct Hres as [Hle HF].
    assert (HF0 : ∀ m, (m ≤ run)%nat → Forall2 (window_row p H m 0 m) gs (map (take m) rows1)).
    { intros m Hm. eapply Forall2_map_take; [|exact HF]. intros g c Hc.
      eapply window_row_take; [exact Hc|lia..]. }
    assert (Hrows : ∀ m, (m ≤ run)%nat → rows_of m (map (take m) rows1))
      by (intros m Hm; eapply rows_of_Forall2; [apply Hwl|by apply HF0]).
    set (n1 := aligned_blocks bs al run). pose proof (aligned_blocks_le bs al run) as Hn1.
    assert (Hd : align_down bs al (map (take (Z.to_nat (Z.of_nat run))) rows1) = map (take n1) rows1).
    { rewrite Nat2Z.id, (align_down_spec bs al run) by auto. by rewrite map_take_take by done. }
    destruct (use_eagle && (0 <? Z.of_nat n1)) eqn:Eeg.
    + set (n := aligned_blocks bs al (n1 - 1)). pose proof (aligned_blocks_le bs al (n1 - 1)) as Hn.
      exists rows1, (Z.of_nat run), false, (map (take n) rows1), n, 0%nat. split; [done|].
      cbv zeta. rewrite Hd, (rows_hit_blocks n1) by auto. rewrite Eeg. split.
      { rewrite (rows_pop n1) by auto. rewrite map_take_take by lia.
        rewrite (align_down_spec bs al (n1 - 1)) by (try apply Hrows; try done; lia).
        by rewrite map_take_take by done. }
      apply andb_true_iff in Eeg as [_ Eeg%Z.ltb_lt].
      split_and!; [apply HF0; lia|lia|by apply aligned_blocks_spec|by left|right; lia].
    + exists rows1, (Z.of_nat run), false, (map (take n1) rows1), n1, 0%nat. split; [done|].
      cbv zeta. rewrite Hd, (rows_hit_blocks n1) by auto. rewrite Eeg.
      split_and!; [done|apply HF0; lia|lia|by apply aligned_blocks_spec|by left|].
      intros ->. cbn [andb] in Eeg. apply Z.ltb_ge in Eeg. left. lia.
Qed.

Lemma swa_find_spec H max_length s a sw use_eagle al :
  window_of s = Some (a, sw) → 0 < a_block_size a → 1 ≤ sw → 0 ≤ max_length → 0 < al →
  max_length / a_block_size a ≤ len (bh_list H) →
  ∃ n i rows, swa_find_longest_cache_hit H max_length gs p s use_eagle al 1 1 = Ok rows ∧
    Forall2 (window_row p H n i n) gs rows ∧ Z.of_nat n ≤ max_length / a_block_size a ∧
    (Z.of_nat n * a_block_size a) mod al = 0 ∧
    (i = 0%nat ∨ Z.of_nat i + cdiv (sw - 1) (a_block_size a) ≤ Z.of_nat n) ∧
    (use_eagle = true → n = 0%nat ∨ Z.of_nat n + 1 ≤ max_length / a_block_size a).
Proof.
  intros Hs Hbs Hsw Hml Hal Hlen. set (bs := a_block_size a) in *.
  pose proof (Z.div_pos max_length bs Hml Hbs) as Hq. set (N := Z.to_nat (max_length / bs)).
  set (w := cdiv (sw - 1) bs). pose proof (cdiv_nonneg (sw - 1) bs Hbs ltac:(lia)) as Hw. fold w in Hw.
  destruct (swa_rows H bs al w use_eagle N)
    as (rows1 & run & found & rows & n & i & Hloop & Hrows & HF & HnN & Hmod & Hi & He); [done|done|lia|done|].
  exists n, i, rows. unfold N in HnN, He.
  split_and!; [|done|lia|done|done|intros Hue; destruct (He Hue); [by left|right; lia]].
  assert (Hbody : swa_find_longest_cache_hit H max_length gs p s use_eagle al 1 1 =
    match swa_loop p gs H bs al (w + if use_eagle then 1 else 0) use_eagle N
            (map (λ _, py_replicate (max_length / bs) (null_block p)) gs) 0 with
    | Raise e => Raise e
    | Ok (computed, run, match_found) =>
        let computed := if match_found then computed
                        else align_down bs al (map (take (Z.to_nat run)) computed) in
        Ok (if use_eagle && (0 <? hit_blocks computed)
            then align_down bs al (pop_each computed) else computed)
    end).
  { unfold w, N, bs. clear -Hs. destruct s; simpl in Hs; simplify_eq; reflexivity. }
  rewrite Hbody. unfold py_replicate. fold N. rewrite Hloop. cbv zeta in Hrows |- *. by rewrite Hrows.
Qed.

(** Sliding window: the hit can be resumed from.  Whatever number [n] of
    blocks is returned, it is aligned and within [max_length], every entry of
    every group's list is the null block or the cached block of that hash, and
    each token that the next token [n * block_size] attends to (the
    [sliding_window - 1] tokens before it) lies in a cached block. *)
Theorem sliding_window_hit_covers_the_window H max_length s a sw use_eagle al :
  window_of s = Some (a, sw) → 0 < a_block_size a → 1 ≤ sw → 0 ≤ max_length → 0 < al →
  max_length / a_block_size a ≤ len (bh_list H) →
  ∃ n rows, swa_find_longest_cache_hit H max_length gs p s use_eagle al 1 1 = Ok rows ∧
    Z.of_nat n * a_block_size a ≤ max_length ∧ (Z.of_nat n * a_block_size a) mod al = 0 ∧
    Forall2 (λ g c, length c = n ∧
      (∀ j, (j < n)%nat → c !! j = Some (null_block p) ∨ hit_in p H g c j) ∧
      (∀ t, 0 ≤ t → Z.of_nat n * a_block_size a - (sw - 1) ≤ t < Z.of_nat n * a_block_size a →
         hit_in p H g c (Z.to_nat (t / a_block_size a)))) gs rows.
Proof.
  intros Hs Hbs Hsw Hml Hal Hlen. set (bs := a_block_size a) in *.
  destruct (swa_find_spec H max_length s a sw use_eagle al) as (n & i & rows & He & HF & Hn & Hmod & Hi & _); try done.
  fold bs in Hn, Hmod, Hi. pose proof (cdiv_bounds (sw - 1) bs Hbs) as Hwb.
  exists n, rows. split_and!; [done|pose proof (Z.mul_div_le max_length bs Hbs); nia|done|].
  eapply Forall2_impl; [exact HF|]. intros g c (Hl & Hnull & Hhit). split_and!; [done| |].
  - intros j Hj. destruct (decide (j < i)%nat); [left; auto|right; apply Hhit; lia].
  - intros t Ht0 Ht. apply Hhit. pose proof (Z.div_pos t bs Ht0 Hbs).
    pose proof (Z.mul_div_le t bs Hbs). pose proof (Z.mul_succ_div_gt t bs Hbs).
    split; [destruct Hi as [->|Hi]; [lia|]|]; nia.
Qed.
End window_theorems.

Section mamba_hits.
Variables (p : BlockPool) (free : list ref) (gs : list Z).
Hypothesis Hp : pool_inv p free.
Hypothesis Hgs : Forall (λ g, 0 ≤ g < 2 ^ 32) gs.
Hypothesis Hne : gs ≠ [].

(** The state after block [j] may be resumed from. *)
Definition resumable (q : BlockPool) (groups : list Z) (G : BlockHashList) (bs al : Z) (j : nat) : Prop :=
  ((Z.of_nat j + 1) * bs) mod al = 0 ∧ ∃ h, bh_at G (Z.of_nat j) = Ok h ∧ ¬ missed q groups h.

Lemma mamba_loop_spec H bs al n :
  0 < al → Z.of_nat n ≤ len (bh_list H) →
  (∃ i rows, (i < n)%nat ∧ mamba_loop p gs H bs al n = Ok rows ∧ resumable p gs H bs al i ∧
     (∀ j, (i < j < n)%nat → ¬ resumable p gs H bs al j) ∧
     Forall2 (λ g c, length c = S i ∧ hit_in p H g c i ∧ ∀ j, (j < i)%nat → c !! j = Some (null_block p)) gs rows) ∨
  (mamba_loop p gs H bs al n = Ok (map (λ _, []) gs) ∧ ∀ j, (j < n)%nat → ¬ resumable p gs H bs al j).
Proof.
  intros Hal. induction n as [|i IH]; intros Hn; simpl; [right; split; [done|lia]|].
  destruct (bh_at_in_range H (Z.of_nat i)) as (h & Hh); [lia|]. rewrite Hh.
  assert (Hskip : ¬ resumable p gs H bs al i → 
    (∃ i0 rows, (i0 < S i)%nat ∧ mamba_loop p gs H bs al i = Ok rows ∧ resumable p gs H bs al i0 ∧
     (∀ j, (i0 < j < S i)%nat → ¬ resumable p gs H bs al j) ∧
     Forall2 (λ g c, length c = S i0 ∧ hit_in p H g c i0 ∧ ∀ j, (j < i0)%nat → c !! j = Some (null_block p)) gs rows) ∨
    (mamba_loop p gs H bs al i = Ok (map (λ _, []) gs) ∧ ∀ j, (j < S i)%nat → ¬ resumable p gs H bs al j)).
  { intros Hi. destruct IH as [(i0 & rows & ? & ? & ? & Hj & ?)|[? Hj]]; [lia| |].
    - left. exists i0, rows. split_and!; [lia|done|done| |done].
      intros j Hji. destruct (decide (j = i)) as [->|]; [done|]. apply Hj. lia.
    - right. split; [done|]. intros j Hji. destruct (decide (j = i)) as [->|]; [done|]. apply Hj. lia. }
  destruct (lookup_hit_spec p free gs Hp Hgs Hne h) as [(bs' & -> & Hb)|[-> Hm]].
  2:{ apply Hskip. intros [_ (h' & Hh' & Hnm)]. rewrite Hh in Hh'. by injection Hh' as <-. }
  destruct (negb (bs =? al) && _) eqn:Eskip.
  - apply Hskip. intros [Hmod _]. apply andb_true_iff in Eskip as [_ E]. bool_to_prop. done.
  - left. eexists i, _. split_and!; [lia|reflexivity| |intros; lia|].
    + split.
      * apply andb_false_iff in Eskip as [E|E]; bool_to_prop; [|done]. subst al. apply Z_mod_mult.
      * exists h. split; [done|]. intros (g & Hg & Hno). apply list_elem_of_lookup in Hg as [k Hk].
        destruct (Forall2_lookup_l _ _ _ _ _ Hb Hk) as (b & _ & ?). by apply (Hno b).
    + clear -Hb Hh. induction Hb as [|g b gs' bs' Hgb _ IHb]; simpl; constructor; [|done].
      split_and!.
      * rewrite length_app, length_replicate. simpl. lia.
      * exists h, b. split_and!; [done| |done].
        rewrite lookup_app_r, length_replicate, Nat.sub_diag by (rewrite length_replicate; lia). done.
      * intros j Hj. rewrite lookup_app_l by (rewrite length_replicate; lia). by apply lookup_replicate_2.
Qed.

(** Mamba: the hit ends at the last cached state.  The call returns no block
    when no aligned block within [max_length] is cached for all groups, and
    otherwise, with [i] the last such block, null blocks up to [i] and the
    cached block of hash [i]. *)
Theorem mamba_hit_is_the_last_state H max_length f use_eagle al :
  0 < m_block_size f → 0 ≤ max_length → 0 < al → max_length / m_block_size f ≤ len (bh_list H) →
  let bs := m_block_size f in let n := Z.to_nat (max_length / bs) in
  (∃ i rows, (i < n)%nat ∧ mamba_find_longest_cache_hit H max_length gs p (MambaSpec f) use_eagle al 1 1 = Ok rows ∧
     resumable p gs H bs al i ∧ (∀ j, (i < j < n)%nat → ¬ resumable p gs H bs al j) ∧
     Forall2 (λ g c, length c = S i ∧ hit_in p H g c i ∧ ∀ j, (j < i)%nat → c !! j = Some (null_block p)) gs rows) ∨
  (mamba_find_longest_cache_hit H max_length gs p (MambaSpec f) use_eagle al 1 1 = Ok (map (λ _, []) gs) ∧
   ∀ j, (j < n)%nat → ¬ resumable p gs H bs al j).
Proof.
  intros Hbs Hml Hal Hlen bs n. pose proof (Z.div_pos max_length bs Hml Hbs).
  apply mamba_loop_spec; [done|]. unfold n, bs in *. lia.
Qed.
End mamba_hits.

(** A pool that holds the two full blocks of a request, and one that holds the
    second of them only. *)
Definition test_hashes : BlockHashList := PlainHashes (block_hashes (hashed_request [5; 6; 7; 8; 9])).
Definition test_window_spec : KVCacheSpec := SlidingWindowSpec (test_attention 2) 3 128.
Definition test_mamba_fields : MambaFields :=
  mkMambaFields 2 [[4; 4]] ["torch.float32"%string] None "mamba2" "align" 0.

Lemma test_groups_ok : Forall (λ g : Z, 0 ≤ g < 2 ^ 32) [0] ∧ [0] ≠ [].
Proof. split; [by repeat constructor|done]. Qed.

Lemma full_attention_hit_is_the_longest_witness :
  ∃ k n rows, full_find_longest_cache_hit test_hashes 4 [0] test_cached_pool
    (FullAttentionSpec (test_attention 2) 128 None None) false 2 1 1 = Ok rows ∧
    (n ≤ k)%nat ∧ rows = [[1; 2]].
Proof.
  destruct (full_attention_hit_is_the_longest test_cached_pool [1; 2; 3] [0] test_cached_pool_inv
    (proj1 test_groups_ok) (proj2 test_groups_ok) test_hashes 4
    (FullAttentionSpec (test_attention 2) 128 None None) false 2 1 1) as (k & n & rows & He & _ & _ & _ & _ & Hn & _);
    [reflexivity|reflexivity|lia|lia|].
  exists k, n, rows. split; [exact He|]. split; [lia|].
  assert (Ok rows = Ok [[1; 2]]) as Heq by (rewrite <-He; vm_compute; reflexivity). congruence.
Defined.

Lemma sliding_window_hit_covers_the_window_witness :
  ∃ n rows, swa_find_longest_cache_hit test_hashes 5 [0] test_cached_pool test_window_spec false 2 1 1 = Ok rows ∧
    Z.of_nat n * 2 ≤ 5 ∧ rows = [[0; 2]].
Proof.
  destruct (sliding_window_hit_covers_the_window test_cached_pool [1; 2; 3] [0] test_cached_pool_inv
    (proj1 test_groups_ok) (proj2 test_groups_ok) test_hashes 5 test_window_spec (test_attention 2) 3 false 2)
    as (n & rows & He & Hn & _); [reflexivity|reflexivity|lia|lia|lia|vm_compute; discriminate|].
  exists n, rows. split; [exact He|]. split; [exact Hn|].
  assert (Ok rows = Ok [[0; 2]]) as Heq by (rewrite <-He; vm_compute; reflexivity). congruence.
Defined.

Lemma mamba_hit_is_the_last_state_witness :
  let hit := mamba_find_longest_cache_hit test_hashes 5 [0] test_cached_pool (MambaSpec test_mamba_fields) false 2 1 1 in
  hit = Ok [[0; 2]] ∧
  ((∃ i rows, (i < 2)%nat ∧ hit = Ok rows ∧ resumable test_cached_pool [0] test_hashes 2 2 i ∧
     (∀ j, (i < j < 2)%nat → ¬ resumable test_cached_pool [0] test_hashes 2 2 j) ∧
     Forall2 (λ g c, length c = S i ∧ hit_in test_cached_pool test_hashes g c i ∧
                     ∀ j, (j < i)%nat → c !! j = Some (null_block test_cached_pool)) [0] rows) ∨
   (hit = Ok (map (λ _, []) [0]) ∧ ∀ j, (j < 2)%nat → ¬ resumable test_cached_pool [0] test_hashes 2 2 j)).
Proof.
  split; [vm_compute; reflexivity|].
  apply (mamba_hit_is_the_last_state test_cached_pool [1; 2; 3] [0] test_cached_pool_inv
    (proj1 test_groups_ok) (proj2 test_groups_ok) test_hashes 5 test_mamba_fields false 2);
    [reflexivity|lia|lia|vm_compute; discriminate].
Defined.
