(* ===== verification/Accounting.v ===== *)
(** * Block accounting of one manager

    The reference counts of the pool are exactly the block tables: the count of
    a block is the number of its occurrences in the tables of this manager plus
    the references [ext] held elsewhere (by the other managers of the
    coordinator).  Blocks of a request beyond its cached ones are unshared and
    unhashed; [extU] are the blocks of that kind held elsewhere.  Every
    operation of an attention manager keeps [group_inv], for any [ext] and
    [extU], which is what lets the coordinator compose them. *)
From S2P Require Import Prelude MathUtils FreeQueue Request BlockHash BlockPool KVSpec SingleType.
Local Open Scope Z_scope.

(* ===================================================================== *)
(** ** Occurrences of a block in a block table                            *)
(* ===================================================================== *)

Definition held (R : gmap string (list ref)) (b : ref) : Z :=
  map_fold (λ _ l acc, count b l + acc) 0 R.

Lemma held_empty b : held ∅ b = 0.
Proof. unfold held. by rewrite map_fold_empty. Qed.

Lemma held_insert_fresh R id l b : R !! id = None → held (<[id := l]> R) b = count b l + held R b.
Proof. intros Hid. unfold held. rewrite map_fold_insert_L; [done| |done]. intros. lia. Qed.

Lemma held_delete R id b : held (delete id R) b = held R b - count b (default [] (R !! id)).
Proof.
  destruct (R !! id) as [l|] eqn:E; simpl.
  - rewrite <-(insert_delete_id R id l E) at 2. rewrite held_insert_fresh by apply lookup_delete_eq. lia.
  - rewrite delete_id by done. lia.
Qed.

Lemma held_insert R id l b :
  held (<[id := l]> R) b = held R b - count b (default [] (R !! id)) + count b l.
Proof.
  rewrite <-insert_delete_eq, held_insert_fresh, held_delete by apply lookup_delete_eq. lia.
Qed.

Lemma held_nonneg R b : 0 ≤ held R b.
Proof.
  induction R as [|id l R Hid IH] using map_ind; [by rewrite held_empty|].
  rewrite held_insert_fresh by done. pose proof (count_nonneg b l). lia.
Qed.

Lemma held_ge R id l b : R !! id = Some l → count b l ≤ held R b.
Proof.
  intros E. pose proof (held_delete R id b) as Hd. rewrite E in Hd. simpl in Hd.
  pose proof (held_nonneg (delete id R) b). lia.
Qed.

Lemma held_ge_two R id1 id2 l1 l2 b :
  id1 ≠ id2 → R !! id1 = Some l1 → R !! id2 = Some l2 → count b l1 + count b l2 ≤ held R b.
Proof.
  intros Hne E1 E2. pose proof (held_delete R id1 b) as Hd. rewrite E1 in Hd. simpl in Hd.
  assert (E2' : delete id1 R !! id2 = Some l2) by (by rewrite lookup_delete_ne).
  pose proof (held_ge _ _ _ b E2'). lia.
Qed.

Lemma count_reverse b l : count b (reverse l) = count b l.
Proof.
  induction l as [|x l IH]; [done|]. rewrite reverse_cons, count_app, IH. simpl. lia.
Qed.
Lemma count_replicate_ne b n x : x ≠ b → count b (replicate n x) = 0.
Proof. intros Hx. apply count_not_in. intros [? _]%elem_of_replicate. done. Qed.
Lemma count_take_drop b n l : count b l = count b (take n l) + count b (drop n l).
Proof. rewrite <-count_app. by rewrite take_drop. Qed.
Lemma count_insert b l i x y :
  l !! i = Some x → count b (<[i := y]> l) = count b l - (if x =? b then 1 else 0) + (if y =? b then 1 else 0).
Proof.
  intros Hi. rewrite (insert_take_drop l i y) by (by eapply lookup_lt_Some).
  rewrite <-(take_drop_middle l i x Hi) at 3. rewrite !count_app. simpl. lia.
Qed.

(* ===================================================================== *)
(** ** The invariant                                                      *)
(* ===================================================================== *)

(** How many leading blocks of a request are cached. *)
Definition cached_count (m : Manager) (id : string) : Z := default 0 (num_cached_block m !! id).

Record group_inv (ext : ref → Z) (extU : ref → Prop) (p : BlockPool) (free : list ref) (m : Manager) : Prop := {
  gi_pool : pool_inv p free;
  gi_null : _null_block m = 0;
  gi_bs : 0 < m_bs m;
  gi_gid : 0 ≤ kv_cache_group_id m < 2 ^ 32;
  gi_cc : ∀ id, 0 ≤ cached_count m id;
  gi_caching : m_enable_caching m = enable_caching p;
  gi_nohash : enable_caching p = false → ∀ b, 0 ≤ b < num_gpu_blocks p → bhash p b = None;
  gi_ext : ∀ b, 0 ≤ ext b;
  gi_rc : ∀ b, 1 ≤ b < num_gpu_blocks p → rc p b = ext b + held (req_to_blocks m) b;
  gi_range : ∀ id l b, req_to_blocks m !! id = Some l → b ∈ l → 0 ≤ b < num_gpu_blocks p;
  gi_nodup : ∀ id l, req_to_blocks m !! id = Some l → NoDup (filter (λ b, b ≠ 0) l);
  gi_own : ∀ id l j b, req_to_blocks m !! id = Some l → l !! j = Some b → b ≠ 0 →
             cached_count m id ≤ Z.of_nat j → rc p b = 1 ∧ bhash p b = None;
  gi_extU : ∀ b, extU b → 1 ≤ b < num_gpu_blocks p ∧ rc p b = 1 ∧ ext b = 1 ∧ bhash p b = None;
}.

(** What the operations never change of a manager. *)
Definition mgr_cfg (m : Manager) : manager_class * KVCacheSpec * Z * bool * option Z * Z * ref :=
  (cls m, spec m, m_bs m, m_enable_caching m, _max_admission_blocks_per_request m, kv_cache_group_id m,
   _null_block m).

(** The managers whose methods are the base class's. *)
Definition attention_manager (m : Manager) : Prop :=
  cls m = FullAttentionManager ∨ cls m = SlidingWindowManager ∨ cls m = ChunkedLocalAttentionManager.

(** The tables of the other requests are left alone. *)
Definition others_kept (id : string) (m m' : Manager) : Prop :=
  (∀ id', id' ≠ id → req_to_blocks m' !! id' = req_to_blocks m !! id') ∧
  (∀ id', id' ≠ id → num_cached_block m' !! id' = num_cached_block m !! id').

Lemma others_kept_refl id m : others_kept id m m.
Proof. done. Qed.
Lemma others_kept_trans id m1 m2 m3 : others_kept id m1 m2 → others_kept id m2 m3 → others_kept id m1 m3.
Proof. intros [A B] [C D]. split; intros id' Hne; [rewrite C, A|rewrite D, B]; done. Qed.

Section group.
Context `{env : KVEnv}.
Variables (ext : ref → Z) (extU : ref → Prop).

(** The blocks of one request, whether or not it has an entry. *)
Lemma gi_blocks p free m id :
  group_inv ext extU p free m →
  (∀ b, b ∈ blocks_of m id → 0 ≤ b < num_gpu_blocks p) ∧ NoDup (filter (λ b, b ≠ 0) (blocks_of m id)) ∧
  (∀ b, count b (blocks_of m id) ≤ held (req_to_blocks m) b).
Proof.
  intros Hg. unfold blocks_of. destruct (req_to_blocks m !! id) as [l|] eqn:E; simpl.
  - split_and!; [intros b Hb; exact (gi_range _ _ _ _ _ Hg id l b E Hb)|by eapply gi_nodup|].
    intros b. by eapply held_ge.
  - split_and!; [by intros b ?%not_elem_of_nil|constructor|]. intros b. apply held_nonneg.
Qed.

(** A block that is free is in no table. *)
Lemma free_not_held p free m b :
  group_inv ext extU p free m → b ∈ free → 1 ≤ b < num_gpu_blocks p ∧ ext b = 0 ∧ held (req_to_blocks m) b = 0.
Proof.
  intros Hg Hb. pose proof (pi_free _ _ _ (gi_pool _ _ _ _ _ Hg) b Hb) as Hr.
  destruct (pi_rc _ _ _ (gi_pool _ _ _ _ _ Hg) b Hr) as [_ Hz]. apply Hz in Hb.
  rewrite (gi_rc _ _ _ _ _ Hg) in Hb by done. pose proof (gi_ext _ _ _ _ _ Hg b).
  pose proof (held_nonneg (req_to_blocks m) b). split; [done|lia].
Qed.

(** Creating the empty entry of a request changes no table. *)
Definition touch_entry (id : string) (m : Manager) : Manager :=
  m <| req_to_blocks := <[id := blocks_of m id]> (req_to_blocks m) |>.

Lemma run_get_req_blocks {B} id (k : list ref → M MS B) p m :
  bind (get_req_blocks id) k (p, m) = k (blocks_of m id) (p, touch_entry id m).
Proof. done. Qed.

Lemma touch_entry_blocks id m : blocks_of (touch_entry id m) id = blocks_of m id.
Proof. unfold blocks_of at 1, touch_entry. simpl. by rewrite lookup_insert_eq. Qed.

Lemma touch_entry_kept id m : others_kept id m (touch_entry id m).
Proof. split; [|done]. intros id' Hne. unfold touch_entry. simpl. by rewrite lookup_insert_ne. Qed.

(** Giving a request a new table [l]: the pool must account for the change, the
    blocks that are new in [l] were free or hashed, and blocks outside [l] that
    have no hash do not get one. *)
Lemma group_inv_set p free m id l p' free' m' :
  group_inv ext extU p free m → pool_inv p' free' → pool_cfg p' = pool_cfg p → mgr_cfg m' = mgr_cfg m →
  (req_to_blocks m' = <[id := l]> (req_to_blocks m) ∨
   l = [] ∧ req_to_blocks m' = delete id (req_to_blocks m)) →
  (∀ id', id' ≠ id → num_cached_block m' !! id' = num_cached_block m !! id') → 0 ≤ cached_count m' id →
  (∀ b, 1 ≤ b < num_gpu_blocks p → rc p' b = rc p b - count b (blocks_of m id) + count b l) →
  (∀ b, 1 ≤ b < num_gpu_blocks p → b ∉ l → bhash p b = None → bhash p' b = None) →
  (enable_caching p = false → ∀ b, 0 ≤ b < num_gpu_blocks p → bhash p' b = None) →
  (∀ b, b ∈ l → 0 ≤ b < num_gpu_blocks p) → NoDup (filter (λ b, b ≠ 0) l) →
  (∀ j b, l !! j = Some b → b ≠ 0 → cached_count m' id ≤ Z.of_nat j → rc p' b = 1 ∧ bhash p' b = None) →
  (∀ b, b ∈ l → b ≠ 0 → b ∈ blocks_of m id ∨ rc p b = 0 ∨ bhash p b ≠ None) →
  group_inv ext extU p' free' m'.
Proof.
  intros Hg Hp' Hcfg Hmcfg Ht Hnc Hcc Hrc Hh Hnh Hr Hnd Hown Hfresh.
  assert (Hn : num_gpu_blocks p' = num_gpu_blocks p) by (by apply pool_cfg_num).
  assert (Hca : enable_caching p' = enable_caching p) by (unfold pool_cfg in Hcfg; congruence).
  unfold mgr_cfg in Hmcfg.
  assert (Hheld : ∀ b, held (req_to_blocks m') b = held (req_to_blocks m) b - count b (blocks_of m id) + count b l).
  { intros b. destruct Ht as [->|[-> ->]]; [apply held_insert|]. rewrite held_delete. simpl. unfold blocks_of. lia. }
  assert (Hlk : ∀ id' l', req_to_blocks m' !! id' = Some l' →
                  (id' = id ∧ l' = l) ∨ (id' ≠ id ∧ req_to_blocks m !! id' = Some l')).
  { intros id' l'. destruct Ht as [->|[_ ->]].
    - rewrite lookup_insert. case_decide; naive_solver.
    - rewrite lookup_delete. case_decide; naive_solver. }
  (* a block owned elsewhere is neither in the old nor in the new table *)
  assert (Helse : ∀ b, 1 ≤ b < num_gpu_blocks p → rc p b = 1 → bhash p b = None →
                    count b (blocks_of m id) = 0 → rc p' b = 1 ∧ bhash p' b = None).
  { intros b Hb H1 H2 H3.
    assert (Hbl : b ∉ l).
    { intros Hbl. destruct (Hfresh b Hbl) as [Hin|[?|?]]; [lia| |lia|done].
      apply count_pos in Hin. lia. }
    rewrite Hrc, H1, H3, count_not_in by done. split; [lia|by apply Hh]. }
  split.
  - done.
  - rewrite <-(gi_null _ _ _ _ _ Hg). congruence.
  - pose proof (gi_bs _ _ _ _ _ Hg). congruence.
  - pose proof (gi_gid _ _ _ _ _ Hg). congruence.
  - intros id'. destruct (decide (id' = id)) as [->|Hne]; [done|]. unfold cached_count. rewrite Hnc by done.
    apply (gi_cc _ _ _ _ _ Hg).
  - pose proof (gi_caching _ _ _ _ _ Hg). congruence.
  - rewrite Hca, Hn. apply Hnh.
  - apply (gi_ext _ _ _ _ _ Hg).
  - intros b Hb. rewrite Hn in Hb. rewrite Hheld, Hrc, (gi_rc _ _ _ _ _ Hg) by done. lia.
  - intros id' l' b Hl Hb. rewrite Hn. apply Hlk in Hl as [[-> ->]|[_ Hl]]; [by apply Hr|].
    exact (gi_range _ _ _ _ _ Hg _ _ _ Hl Hb).
  - intros id' l' Hl. apply Hlk in Hl as [[-> ->]|[_ Hl]]; [done|]. exact (gi_nodup _ _ _ _ _ Hg _ _ Hl).
  - intros id' l' j b Hl Hj Hb0 Hc. apply Hlk in Hl as [[-> ->]|[Hne Hl]]; [by eapply Hown|].
    assert (Hc' : cached_count m id' ≤ Z.of_nat j) by (unfold cached_count in *; by rewrite <-Hnc).
    destruct (gi_own _ _ _ _ _ Hg _ _ _ _ Hl Hj Hb0 Hc') as [H1 H2].
    assert (Hin : b ∈ l') by (apply list_elem_of_lookup; eauto).
    pose proof (gi_range _ _ _ _ _ Hg _ _ _ Hl Hin) as Hbr.
    apply Helse; [lia|done|done|].
    pose proof (gi_rc _ _ _ _ _ Hg b ltac:(lia)) as Hrb. pose proof (gi_ext _ _ _ _ _ Hg b).
    pose proof (proj2 (count_pos b l') Hin). pose proof (count_nonneg b (blocks_of m id)).
    unfold blocks_of in *. destruct (req_to_blocks m !! id) as [l0|] eqn:E; simpl in *; [|done].
    pose proof (held_ge_two _ _ _ _ _ b Hne Hl E). lia.
  - intros b Hb. destruct (gi_extU _ _ _ _ _ Hg b Hb) as (Hbr & H1 & H2 & H3).
    destruct (gi_blocks _ _ _ id Hg) as (_ & _ & Hge). specialize (Hge b).
    pose proof (gi_rc _ _ _ _ _ Hg b Hbr) as Hrb. pose proof (count_nonneg b (blocks_of m id)).
    destruct (Helse b Hbr H1 H3) as [? ?]; [lia|]. rewrite Hn. done.
Qed.

Lemma on_pool_ok {A} (f : M BlockPool A) p m a p' :
  f p = (Ok a, p') → on_pool f (p, m) = (Ok a, (p', m)).
Proof. intros Hf. unfold on_pool, zoom. simpl. by rewrite Hf. Qed.
Lemma on_pool_raise {A} (f : M BlockPool A) p m e p' :
  f p = (Raise e, p') → on_pool f (p, m) = (Raise e, (p', m)).
Proof. intros Hf. unfold on_pool, zoom. simpl. by rewrite Hf. Qed.

(** The own blocks of a request, whether or not it has an entry. *)
Lemma gi_own_blocks p free m id j b :
  group_inv ext extU p free m → blocks_of m id !! j = Some b → b ≠ 0 → cached_count m id ≤ Z.of_nat j →
  rc p b = 1 ∧ bhash p b = None.
Proof.
  intros Hg. unfold blocks_of. destruct (req_to_blocks m !! id) as [l|] eqn:E; simpl; [|by rewrite lookup_nil].
  intros. by eapply (gi_own _ _ _ _ _ Hg).
Qed.

Lemma group_inv_touch_entry p free m id :
  group_inv ext extU p free m → group_inv ext extU p free (touch_entry id m).
Proof.
  intros Hg. destruct (gi_blocks _ _ _ id Hg) as (Hr & Hnd & _).
  eapply (group_inv_set p free m id (blocks_of m id)); try done.
  - apply (gi_pool _ _ _ _ _ Hg).
  - by left.
  - apply (gi_cc _ _ _ _ _ Hg).
  - intros. lia.
  - apply (gi_nohash _ _ _ _ _ Hg).
  - intros j b Hj Hb0 Hc. by eapply gi_own_blocks.
  - auto.
Qed.

(** Freeing a request. *)
Lemma base_free_spec p free m id :
  group_inv ext extU p free m →
  ∃ p' m', base_free id (p, m) = (Ok tt, (p', m')) ∧
    group_inv ext extU p' (free ++ filter (λ b, b ≠ 0 ∧ rc p b = 1) (reverse (blocks_of m id))) m' ∧
    pool_cfg p' = pool_cfg p ∧ mgr_cfg m' = mgr_cfg m ∧ others_kept id m m' ∧
    req_to_blocks m' = delete id (req_to_blocks m) ∧ num_cached_block m' !! id = None ∧
    (∀ x, 0 ≤ x → bhash p' x = bhash p x).
Proof.
  intros Hg. destruct (gi_blocks _ _ _ id Hg) as (Hr & Hnd & Hge).
  destruct (free_blocks_spec (reverse (blocks_of m id)) p free (gi_pool _ _ _ _ _ Hg))
    as (p' & He & Hp' & Hcfg & _ & Hrc & Hh).
  { intros b Hb. rewrite elem_of_reverse in Hb. auto. }
  { by rewrite reverse_Permutation. }
  { intros b Hb Hb0. rewrite elem_of_reverse in Hb. pose proof (proj2 (count_pos b _) Hb).
    rewrite (gi_rc _ _ _ _ _ Hg) by (specialize (Hr b Hb); lia).
    pose proof (gi_ext _ _ _ _ _ Hg b). specialize (Hge b). lia. }
  unfold base_free. unfold mget, mmod. rewrite run_gets, run_modify. simpl.
  rewrite (bind_ok _ _ _ _ _ (on_pool_ok _ _ _ _ _ He)).
  eexists p', _. split; [reflexivity|]. split.
  - eapply (group_inv_set p free m id []); simpl; try done.
    + right. done.
    + intros id' Hne. by rewrite lookup_delete_ne.
    + unfold cached_count. simpl. by rewrite lookup_delete_eq.
    + intros b Hb. rewrite Hrc, count_reverse by lia. lia.
    + intros b Hb _ Hbh. rewrite Hh by lia. done.
    + intros Hc b Hb. rewrite Hh by lia. by apply (gi_nohash _ _ _ _ _ Hg).
    + by intros b ?%not_elem_of_nil.
    + constructor.
    + by intros b ?%not_elem_of_nil.
  - split_and!; try done.
    + split; intros id' Hne; simpl; by rewrite lookup_delete_ne.
    + simpl. apply lookup_delete_eq.
Qed.

(** The pool after [k] new blocks were taken, and the request's table extended
    by them. *)
Lemma group_inv_extend p free m id k p' m' :
  group_inv ext extU p free m → 0 ≤ k ≤ len free →
  get_new_blocks k p = (Ok (take (Z.to_nat k) free), p') →
  mgr_cfg m' = mgr_cfg m → num_cached_block m' = num_cached_block m →
  req_to_blocks m' = <[id := blocks_of m id ++ take (Z.to_nat k) free]> (req_to_blocks m) →
  group_inv ext extU p' (drop (Z.to_nat k) free) m' ∧ pool_cfg p' = pool_cfg p ∧
  (∀ x, 0 ≤ x → x ∉ take (Z.to_nat k) free → rc p' x = rc p x ∧ bhash p' x = bhash p x).
Proof.
  intros Hg Hk He Hmc Hnc Hreq. set (new := take (Z.to_nat k) free) in *.
  destruct (get_new_blocks_spec p free k (gi_pool _ _ _ _ _ Hg) Hk) as (p'' & He' & Hp' & Hcfg & Hrc & Hh).
  rewrite He in He'. injection He' as <-. fold new in Hrc, Hh.
  destruct (gi_blocks _ _ _ id Hg) as (Hr & Hnd & Hge).
  assert (Hnew : ∀ b, b ∈ new → 1 ≤ b < num_gpu_blocks p ∧ (b ∉ blocks_of m id) ∧ rc p b = 0).
  { intros b Hb. assert (Hbf : b ∈ free) by (rewrite <-(take_drop (Z.to_nat k) free); set_solver).
    destruct (free_not_held _ _ _ _ Hg Hbf) as (Hbr & Hb0 & Hbh). split_and!; [lia|lia| |].
    - intros Hin. apply count_pos in Hin. specialize (Hge b). lia.
    - rewrite (gi_rc _ _ _ _ _ Hg) by done. lia. }
  assert (Hndn : NoDup new).
  { pose proof (rep_nodup _ _ (pi_rep _ _ _ (gi_pool _ _ _ _ _ Hg))) as Hndf.
    rewrite <-(take_drop (Z.to_nat k) free) in Hndf. by apply NoDup_app in Hndf as (? & _). }
  assert (Hnh : ∀ b, 0 ≤ b < num_gpu_blocks p → enable_caching p = false → bhash p' b = None).
  { intros b Hb Hc. rewrite Hh by lia. rewrite Hc. case_decide; by apply (gi_nohash _ _ _ _ _ Hg). }
  split; [|split; [done|]].
  - eapply (group_inv_set p free m id (blocks_of m id ++ new)); try done.
    + by left.
    + intros id' _. by rewrite Hnc.
    + unfold cached_count. rewrite Hnc. apply (gi_cc _ _ _ _ _ Hg).
    + intros b Hb. rewrite Hrc, count_app by lia. case_decide as Hbn.
      * rewrite (count_nodup b new) by done. destruct (Hnew b Hbn) as (_ & _ & ->). lia.
      * rewrite (count_not_in b new) by done. lia.
    + intros b Hb Hbl Hbh. rewrite Hh by lia. case_decide; [set_solver|done].
    + intros Hc b Hb. by apply Hnh.
    + intros b [Hb|Hb]%elem_of_app; [by apply Hr|]. destruct (Hnew b Hb) as (? & _). lia.
    + rewrite filter_app. apply NoDup_app. split_and!; [done| |by apply NoDup_filter].
      intros b [_ Hb]%list_elem_of_filter [_ Hb']%list_elem_of_filter. by destruct (Hnew b Hb') as (_ & ? & _).
    + intros j b Hj Hb0 Hc. unfold cached_count in Hc. rewrite Hnc in Hc.
      apply lookup_app_Some in Hj as [Hj|[Hjl Hj]].
      * destruct (gi_own_blocks _ _ _ _ _ _ Hg Hj Hb0 Hc) as [H1 H2].
        assert (Hin : b ∈ blocks_of m id) by (apply list_elem_of_lookup; eauto). specialize (Hr b Hin).
        rewrite Hrc, Hh by lia. case_decide as Hbn; [|done]. by destruct (Hnew b Hbn) as (_ & ? & _).
      * assert (Hin : b ∈ new) by (apply list_elem_of_lookup; eauto).
        destruct (Hnew b Hin) as (Hbr & _ & _). rewrite Hrc by lia. rewrite decide_True by done.
        split; [done|]. destruct (enable_caching p) eqn:Ec; [|apply Hnh; lia || done].
        rewrite Hh by lia. by rewrite decide_True.
    + intros b [Hb|Hb]%elem_of_app _; [by left|right; left]. by destruct (Hnew b Hb) as (_ & _ & ?).
  - intros x Hx Hxn. rewrite Hrc, Hh, !decide_False by done. done.
Qed.

(** What an allocation of [k] blocks does to the tables of the managers: the
    request gets them, and [new_block_ids] may record them. *)
Definition extended (id : string) (new : list ref) (m m' : Manager) : Prop :=
  mgr_cfg m' = mgr_cfg m ∧ num_cached_block m' = num_cached_block m ∧
  req_to_blocks m' = <[id := blocks_of m id ++ new]> (req_to_blocks m).

Lemma base_allocate_new_blocks_spec p free m id num_tokens :
  group_inv ext extU p free m →
  let k := cdiv num_tokens (m_bs m) - len (blocks_of m id) in
  let new := take (Z.to_nat k) free in
  (k ≤ len free →
   ∃ p' m', base_allocate_new_blocks id num_tokens (p, m) = (Ok new, (p', m')) ∧
     group_inv ext extU p' (drop (Z.to_nat k) free) m' ∧ pool_cfg p' = pool_cfg p ∧ extended id new m m' ∧
     (∀ x, 0 ≤ x → x ∉ new → rc p' x = rc p x ∧ bhash p' x = bhash p x)) ∧
  (len free < k → base_allocate_new_blocks id num_tokens (p, m) = (Raise ValueError, (p, touch_entry id m))).
Proof.
  intros Hg k new. unfold base_allocate_new_blocks, mget. rewrite !run_gets, !run_get_req_blocks. cbn [snd fst]. cbv zeta.
  fold k. assert (Hg' := group_inv_touch_entry p free m id Hg).
  assert (Hlen := len_nonneg free).
  destruct (Z.leb_spec k 0) as [Hk0|Hk0].
  { split; [|lia]. intros _. exists p, (touch_entry id m).
    assert (new = []) as -> by (unfold new; by replace (Z.to_nat k) with 0%nat by lia).
    replace (Z.to_nat k) with 0%nat by lia. rewrite drop_0. split_and!; try done.
    split; [done|]. split; [done|]. unfold touch_entry. simpl. by rewrite app_nil_r. }
  split; intros Hk.
  2:{ pose proof (get_new_blocks_short p free k (gi_pool _ _ _ _ _ Hg) Hk) as He.
      by rewrite (bind_raise _ _ _ _ _ (on_pool_raise _ _ _ _ _ He)). }
  destruct (get_new_blocks_spec p free k (gi_pool _ _ _ _ _ Hg)) as (p' & He & _); [lia|].
  rewrite (bind_ok _ _ _ _ _ (on_pool_ok _ _ (touch_entry id m) _ _ He)).
  unfold set_req_blocks, mmod, pget. rewrite run_modify, run_gets. simpl.
  match goal with |- ∃ p'0 m'0, ?body _ = _ ∧ _ => assert (Hend : ∃ m', body (p', touch_entry id m <| req_to_blocks ::= insert id (blocks_of m id ++ take (Z.to_nat k) free) |>) = (Ok new, (p', m')) ∧ extended id new m m') end.
  { destruct (zeroed_spec (spec m)); (eexists; split; [reflexivity|]); (split_and!; [done|done|]);
      unfold touch_entry; simpl; by rewrite insert_insert_eq. }
  destruct Hend as (m' & Hend & Hext). exists p', m'. split; [exact Hend|].
  destruct Hext as (Hm1 & Hm2 & Hm3).
  destruct (group_inv_extend p free m id k p' m' Hg ltac:(lia) He Hm1 Hm2 Hm3) as (? & ? & ?).
  done.
Qed.

(** Distinctness of the non-null blocks, by counting. *)
Lemma nodup_count l : NoDup (filter (λ b, b ≠ 0) l) ↔ ∀ b, b ≠ 0 → count b l ≤ 1.
Proof.
  induction l as [|x l IH].
  { split; [simpl; lia|]. constructor. }
  destruct (decide (x = 0)) as [->|Hx].
  - rewrite filter_cons_False by naive_solver. rewrite IH. split; intros HC b Hb; specialize (HC b Hb); cbn [count] in *;
      destruct (Z.eqb_spec 0 b); lia.
  - rewrite filter_cons_True, NoDup_cons, IH by done. split.
    + intros [Hn HC] b Hb. cbn [count]. specialize (HC b Hb). destruct (Z.eqb_spec x b) as [->|]; [|lia].
      rewrite count_not_in; [lia|]. intros Hin. apply Hn. by apply list_elem_of_filter.
    + intros HC. split.
      * intros [_ Hin]%list_elem_of_filter. apply count_pos in Hin. specialize (HC x Hx). cbn [count] in HC.
        rewrite Z.eqb_refl in HC. lia.
      * intros b Hb. specialize (HC b Hb). cbn [count] in HC. destruct (Z.eqb_spec x b); lia.
Qed.

(** The table of a request that starts from a prefix-cache hit. *)
Definition hit_table (m : Manager) (ncb : list ref) (total : Z) : list ref :=
  let sb := get_num_skipped_tokens m total / m_bs m in
  py_replicate sb (_null_block m) ++ (if 0 <? sb then slice_from ncb sb else ncb).
(** The blocks of the hit that are kept. *)
Definition hit_kept (m : Manager) (ncb : list ref) (total : Z) : list ref :=
  let sb := get_num_skipped_tokens m total / m_bs m in
  if 0 <? sb then slice_from ncb sb else ncb.
(** The number of blocks allocated for externally computed tokens. *)
Definition ext_blocks (m : Manager) (ncb : list ref) (local ext_tokens : Z) : Z :=
  let total := local + ext_tokens in
  let s := get_num_skipped_tokens m total in
  let e := if 0 <? s / m_bs m then Z.min (total - s) ext_tokens else ext_tokens in
  if 0 <? e then cdiv total (m_bs m) - len (hit_table m ncb total) else 0.

(** A hit that may be handed to the manager. *)
Record valid_hit (p : BlockPool) (m : Manager) (hit : list ref) : Prop := {
  vh_range : ∀ b, b ∈ hit → 0 ≤ b < num_gpu_blocks p;
  vh_nodup : NoDup (filter (λ b, b ≠ 0) hit);
  vh_hashed : ∀ b, b ∈ hit → b ≠ 0 → bhash p b ≠ None;
  vh_caching : m_enable_caching m = false → hit = [];
}.

(** Touching the kept blocks and entering them in the table. *)
Lemma group_inv_hit p free m id l sb m' :
  group_inv ext extU p free m → blocks_of m id = [] → valid_hit p m l →
  mgr_cfg m' = mgr_cfg m → req_to_blocks m' = <[id := replicate sb 0 ++ l]> (req_to_blocks m) →
  num_cached_block m' = <[id := len (replicate sb 0 ++ l)]> (num_cached_block m) →
  ∃ p', (if m_enable_caching m then touch l else assert_ (len l =? 0)) p = (Ok tt, p') ∧
    group_inv ext extU p' (filter (λ b, b ∉ l) free) m' ∧ pool_cfg p' = pool_cfg p ∧
    (∀ x, 0 ≤ x → rc p' x = rc p x + count x l) ∧ (∀ x, 0 ≤ x → bhash p' x = bhash p x).
Proof.
  intros Hg Hempty [Hr Hnd Hh Hca] Hmc Hreq Hnc.
  assert (Ht : ∃ p', (if m_enable_caching m then touch l else assert_ (len l =? 0)) p = (Ok tt, p') ∧
    pool_inv p' (filter (λ b, b ∉ l) free) ∧ pool_cfg p' = pool_cfg p ∧
    (∀ x, 0 ≤ x → rc p' x = rc p x + count x l) ∧ (∀ x, 0 ≤ x → bhash p' x = bhash p x)).
  { destruct (m_enable_caching m) eqn:Ec.
    - destruct (touch_spec l p free (gi_pool _ _ _ _ _ Hg) Hr) as (p' & ? & ? & ? & _ & ? & ?). eauto 10.
    - rewrite (Hca eq_refl) in *. exists p. split_and!; try done; [|intros; simpl; lia].
      rewrite filter_all by set_solver. apply (gi_pool _ _ _ _ _ Hg). }
  destruct Ht as (p' & He & Hp' & Hcfg & Hrc & Hbh). exists p'. split; [done|].
  split; [|done].
  eapply (group_inv_set p free m id (replicate sb 0 ++ l)); try done.
  - by left.
  - intros id' Hne. by rewrite Hnc, lookup_insert_ne.
  - unfold cached_count. rewrite Hnc, lookup_insert_eq. simpl. apply len_nonneg.
  - intros b Hb. rewrite Hrc, Hempty, count_app, count_replicate_ne by lia. simpl. lia.
  - intros b Hb _ Hn. by rewrite Hbh by lia.
  - intros Hc b Hb. rewrite Hbh by lia. by apply (gi_nohash _ _ _ _ _ Hg).
  - intros b [[-> _]%elem_of_replicate|Hb]%elem_of_app; [|by apply Hr].
    pose proof (pi_num _ _ _ (gi_pool _ _ _ _ _ Hg)). lia.
  - apply nodup_count. intros b Hb. rewrite count_app, count_replicate_ne by done.
    rewrite nodup_count in Hnd. by apply Hnd.
  - intros j b Hj _ Hc. unfold cached_count in Hc. rewrite Hnc, lookup_insert_eq in Hc. simpl in Hc.
    apply lookup_lt_Some in Hj. unfold len in Hc. lia.
  - intros b [[-> _]%elem_of_replicate|Hb]%elem_of_app Hb0; [done|]. right. right. by apply Hh.
Qed.

Lemma base_allocate_new_computed_blocks_spec p free m id ncb local ext_tokens :
  group_inv ext extU p free m → num_cached_block m !! id = None → blocks_of m id = [] →
  let kept := hit_kept m ncb (local + ext_tokens) in
  let k := ext_blocks m ncb local ext_tokens in
  let free1 := filter (λ b, b ∉ kept) free in
  valid_hit p m kept → 0 ≤ k ≤ len free1 →
  ∃ p' m', base_allocate_new_computed_blocks id ncb local ext_tokens (p, m) = (Ok tt, (p', m')) ∧
    group_inv ext extU p' (drop (Z.to_nat k) free1) m' ∧ pool_cfg p' = pool_cfg p ∧ mgr_cfg m' = mgr_cfg m ∧
    others_kept id m m' ∧
    blocks_of m' id = hit_table m ncb (local + ext_tokens) ++ take (Z.to_nat k) free1 ∧
    num_cached_block m' !! id = Some (len (hit_table m ncb (local + ext_tokens))) ∧
    (∀ x, 0 ≤ x → x ∉ take (Z.to_nat k) free1 → rc p x ≤ rc p' x ∧ bhash p' x = bhash p x).
Proof.
  intros Hg Hnc Hempty kept k free1 Hv Hk.
  unfold base_allocate_new_computed_blocks, mget. rewrite run_gets. cbn [snd]. rewrite Hnc.
  rewrite run_get_req_blocks, Hempty, run_assert. replace (len [] =? 0) with true by done. cbv zeta.
  set (total := local + ext_tokens) in *. set (sb := get_num_skipped_tokens m total / m_bs m) in *.
  change (if 0 <? sb then slice_from ncb sb else ncb) with kept.
  set (table := hit_table m ncb total).
  assert (Htab : py_replicate sb (_null_block m) ++ kept = table) by done.
  rewrite app_nil_l, Htab.
  set (m1 := (touch_entry id m) <| req_to_blocks ::= insert id table |>
                                <| num_cached_block ::= insert id (len table) |>).
  assert (Htr : table = replicate (Z.to_nat sb) 0 ++ kept).
  { rewrite <-Htab. unfold py_replicate. by rewrite (gi_null _ _ _ _ _ Hg). }
  destruct (group_inv_hit p free m id kept (Z.to_nat sb) m1) as (p1 & He1 & Hg1 & Hcfg1 & Hrc1 & Hh1); try done.
  { unfold m1, touch_entry. simpl. rewrite insert_insert_eq, Htr. done. }
  { unfold m1. simpl. by rewrite <-Htr. }
  assert (Hstep : (if m_enable_caching m then on_pool (touch kept) else assert_ (len kept =? 0)) (p, touch_entry id m)
                  = (Ok tt, (p1, touch_entry id m))).
  { revert He1. destruct (m_enable_caching m); intros He1; [by apply on_pool_ok|].
    revert He1. destruct (len kept =? 0); intros He1; [|discriminate He1].
    injection He1 as Hpp. by rewrite <-Hpp. }
  rewrite (bind_ok _ _ _ _ _ Hstep). unfold set_req_blocks, mmod. rewrite !run_modify. cbn [fst snd]. fold m1.
  assert (Hb1 : blocks_of m1 id = table) by (unfold blocks_of, m1; simpl; by rewrite lookup_insert_eq).
  assert (Hok1 : others_kept id m m1).
  { split; intros id' Hne; unfold m1, touch_entry; simpl; by rewrite !lookup_insert_ne. }
  assert (Hnc1 : num_cached_block m1 !! id = Some (len table)) by (unfold m1; simpl; apply lookup_insert_eq).
  unfold k, ext_blocks in Hk |- *. cbv zeta in Hk |- *. fold total sb table in Hk |- *.
  destruct (0 <? (if 0 <? sb then Z.min (total - get_num_skipped_tokens m total) ext_tokens else ext_tokens)) eqn:Ee.
  - set (k' := cdiv total (m_bs m) - len table) in *.
    destruct (get_new_blocks_spec p1 free1 k' (gi_pool _ _ _ _ _ Hg1) Hk) as (p' & He & _).
    rewrite (bind_ok _ _ _ _ _ (on_pool_ok _ _ m1 _ _ He)). rewrite run_modify. cbn [fst snd].
    unfold pget. rewrite run_gets. cbn [fst].
    set (m2 := m1 <| req_to_blocks ::= insert id (table ++ take (Z.to_nat k') free1) |>).
    assert (Hend : ∃ m', (when (zeroed_spec (spec m)) do modify (λ s : MS, (s.1,
        s.2 <| new_block_ids ::= λ l, l ++ map (blk_id p') (take (Z.to_nat k') free1) |>))) (p', m2)
      = (Ok tt, (p', m')) ∧ extended id (take (Z.to_nat k') free1) m1 m').
    { destruct (zeroed_spec (spec m)); (eexists; split; [reflexivity|]); (split; [done|split; [done|]]);
        unfold m2; simpl; by rewrite Hb1. }
    destruct Hend as (m' & Hend & (Hm1 & Hm2 & Hm3)). exists p', m'. split; [exact Hend|].
    destruct (group_inv_extend p1 free1 m1 id k' p' m' Hg1 Hk He Hm1 Hm2 Hm3) as (Hg' & Hcfg' & Hrest).
    split_and!; [done|congruence|done| | | |].
    + eapply others_kept_trans; [exact Hok1|]. split; intros id' Hne; [|by rewrite Hm2].
      by rewrite Hm3, lookup_insert_ne.
    + unfold blocks_of. rewrite Hm3, lookup_insert_eq. simpl. by rewrite Hb1.
    + by rewrite Hm2.
    + intros x Hx Hn. destruct (Hrest x Hx Hn) as [-> ->]. rewrite Hrc1, Hh1 by done.
      pose proof (count_nonneg x kept). split; [lia|done].
  - exists p1, m1. change (Z.to_nat 0) with 0%nat. rewrite drop_0. cbn [take]. rewrite app_nil_r. split_and!; try done.
    intros x Hx _. rewrite Hrc1, Hh1 by done. pose proof (count_nonneg x kept). split; [lia|done].
Qed.

(** Removing the blocks before the attention window. *)
Lemma skip_loop_spec n blocks :
  (n ≤ length blocks)%nat →
  let '(removed, blocks') := skip_loop 0 n blocks in
  length blocks' = length blocks ∧
  (∀ j, (n ≤ j)%nat → blocks' !! j = blocks !! j) ∧
  (∀ j b, blocks' !! j = Some b → b ≠ 0 → blocks !! j = Some b) ∧
  (∀ b, b ≠ 0 → count b blocks = count b blocks' + count b removed) ∧
  (∀ b, b ∈ removed → b ≠ 0).
Proof.
  revert blocks. induction n as [|i IH]; intros blocks Hn; simpl.
  { split_and!; try done; [intros; lia|by intros b ?%not_elem_of_nil]. }
  destruct (blocks !! i) as [b|] eqn:Eb.
  2:{ split_and!; try done; [intros; simpl; lia|by intros b ?%not_elem_of_nil]. }
  destruct (Z.eqb_spec b 0) as [->|Hb0].
  { split_and!; try done; [intros; simpl; lia|by intros b ?%not_elem_of_nil]. }
  specialize (IH (<[i := 0]> blocks)). rewrite length_insert in IH.
  destruct (skip_loop 0 i (<[i := 0]> blocks)) as [removed blocks'].
  destruct IH as (Hl & Hj & Hs & Hc & Hr); [lia|]. split_and!.
  - done.
  - intros j Hij. rewrite Hj by lia. by rewrite list_lookup_insert_ne by lia.
  - intros j x Hx Hx0. specialize (Hs j x Hx Hx0). apply list_lookup_insert_Some in Hs as [(? & ? & _)|[_ ?]]; [|done].
    by subst.
  - intros x Hx0. specialize (Hc x Hx0). rewrite (count_insert x blocks i b 0 Eb) in Hc. cbn [count].
    destruct (Z.eqb_spec 0 x); [lia|]. lia.
  - intros x [->|Hx]%elem_of_cons; [done|auto].
Qed.

(** How many blocks of the table precede the window. *)
Definition num_to_skip (m : Manager) (id : string) (total : Z) : nat :=
  Z.to_nat (Z.min (get_num_skipped_tokens m total / m_bs m) (len (blocks_of m id))).

Lemma base_remove_skipped_blocks_spec p free m id total :
  group_inv ext extU p free m →
  ∃ p' m' removed, base_remove_skipped_blocks id total (p, m) = (Ok tt, (p', m')) ∧
    group_inv ext extU p' (free ++ removed) m' ∧ pool_cfg p' = pool_cfg p ∧ mgr_cfg m' = mgr_cfg m ∧
    others_kept id m m' ∧ num_cached_block m' = num_cached_block m ∧
    length (blocks_of m' id) = length (blocks_of m id) ∧
    (∀ x, 0 ≤ x → bhash p' x = bhash p x) ∧
    blocks_of m' id = (skip_loop 0 (num_to_skip m id total) (blocks_of m id)).2.
Proof.
  intros Hg. unfold base_remove_skipped_blocks, mget. rewrite run_gets. cbn [snd]. cbv zeta.
  destruct (Z.leb_spec (get_num_skipped_tokens m total) 0) as [Hs|Hs].
  { exists p, m, []. rewrite app_nil_r. assert (num_to_skip m id total = 0%nat) as ->; [|done].
    unfold num_to_skip. pose proof (gi_bs _ _ _ _ _ Hg). pose proof (Z.div_le_mono _ _ (m_bs m) ltac:(done) Hs) as Hd.
    rewrite Z.div_0_l in Hd by lia. lia. }
  rewrite run_get_req_blocks. destruct (gi_blocks _ _ _ id Hg) as (Hr & Hnd & Hge).
  rewrite (gi_null _ _ _ _ _ Hg). change (Z.to_nat (Z.min _ _)) with (num_to_skip m id total).
  set (n := num_to_skip m id total) in *.
  pose proof (skip_loop_spec n (blocks_of m id)) as Hsk.
  destruct (skip_loop 0 n (blocks_of m id)) as [removed blocks'].
  destruct Hsk as (Hl & Hj & Hsub & Hc & Hrn); [unfold n, num_to_skip, len; lia|].
  unfold set_req_blocks, mmod. rewrite run_modify. cbn [fst snd].
  set (m1 := touch_entry id m <| req_to_blocks ::= insert id blocks' |>).
  assert (Hrin : ∀ b, b ∈ removed → b ∈ blocks_of m id).
  { intros b Hb. apply count_pos. specialize (Hc b (Hrn b Hb)). apply count_pos in Hb.
    pose proof (count_nonneg b blocks'). lia. }
  assert (Hndr : ∀ b, b ≠ 0 → count b removed ≤ 1).
  { intros b Hb. rewrite nodup_count in Hnd. specialize (Hnd b Hb). specialize (Hc b Hb).
    pose proof (count_nonneg b blocks'). lia. }
  destruct (free_blocks_spec removed p free (gi_pool _ _ _ _ _ Hg)) as (p' & He & Hp' & Hcfg & _ & Hrc & Hh).
  { auto. }
  { by apply nodup_count. }
  { intros b Hb Hb0. specialize (Hrin b Hb). apply count_pos in Hrin as Hpos. specialize (Hge b).
    rewrite (gi_rc _ _ _ _ _ Hg) by (specialize (Hr b Hrin); lia). pose proof (gi_ext _ _ _ _ _ Hg b). lia. }
  exists p', m1, (filter (λ b, b ≠ 0 ∧ rc p b = 1) removed). split; [by apply on_pool_ok|].
  assert (Hin' : ∀ j b, blocks' !! j = Some b → b ≠ 0 → b ∈ blocks_of m id).
  { intros j b Hjb Hb0. apply list_elem_of_lookup. exists j. auto. }
  split; [|split_and!; try done].
  - eapply (group_inv_set p free m id blocks'); try done.
    + left. unfold m1, touch_entry. simpl. by rewrite insert_insert_eq.
    + apply (gi_cc _ _ _ _ _ Hg).
    + intros b Hb. rewrite Hrc by lia. specialize (Hc b ltac:(lia)). lia.
    + intros b Hb _ Hbh. by rewrite Hh by lia.
    + intros Hca b Hb. rewrite Hh by lia. by apply (gi_nohash _ _ _ _ _ Hg).
    + intros b Hb. destruct (decide (b = 0)) as [->|Hb0].
      { pose proof (pi_num _ _ _ (gi_pool _ _ _ _ _ Hg)). lia. }
      apply list_elem_of_lookup in Hb as [j Hb]. eauto.
    + apply nodup_count. intros b Hb. rewrite nodup_count in Hnd. specialize (Hnd b Hb). specialize (Hc b Hb).
      pose proof (count_nonneg b removed). lia.
    + intros j b Hjb Hb0 Hcc. change (cached_count m1 id) with (cached_count m id) in Hcc.
      destruct (gi_own_blocks _ _ _ _ _ _ Hg (Hsub _ _ Hjb Hb0) Hb0 Hcc) as [H1 H2].
      assert (Hbin := Hin' _ _ Hjb Hb0). specialize (Hr b Hbin). rewrite Hrc, Hh by lia. split; [|done].
      rewrite nodup_count in Hnd. specialize (Hnd b Hb0). specialize (Hc b Hb0).
      assert (Hpos : 0 < count b blocks') by (apply count_pos, list_elem_of_lookup; eauto).
      pose proof (count_nonneg b removed). lia.
    + intros b Hb Hb0. left. apply list_elem_of_lookup in Hb as [j Hb]. eauto.
  - split; [|done]. intros id' Hne. unfold m1, touch_entry. simpl. by rewrite !lookup_insert_ne.
  - unfold blocks_of at 1, m1. simpl. rewrite lookup_insert_eq. done.
  - unfold blocks_of at 1, m1. simpl. rewrite lookup_insert_eq. done.
Qed.

(** What caching the blocks of a request up to [num_tokens] needs of the
    request. *)
Record hashes_ready (p : BlockPool) (m : Manager) (r : Request) (num_tokens : Z) (H : BlockHashList) : Prop := {
  hr_hashes : hashes_at (hash_block_size p) (block_hashes r) (m_bs m) = Ok H;
  hr_enough : num_tokens / m_bs m ≤ len (bh_list H) ∧ num_tokens / m_bs m ≤ len (block_hashes r);
  hr_mm : mm_wf (mm_features r);
  hr_memo : memo_ok env_sha256 r;
}.

Lemma base_cache_blocks_spec p free m r num_tokens H :
  group_inv ext extU p free m → enable_caching p = true → hashes_ready p m r num_tokens H →
  num_tokens / m_bs m ≤ len (blocks_of m (request_id r)) →
  ∃ p' m', base_cache_blocks r num_tokens (p, m) = (Ok tt, (p', m')) ∧
    group_inv ext extU p' free m' ∧ pool_cfg p' = pool_cfg p ∧ mgr_cfg m' = mgr_cfg m ∧
    others_kept (request_id r) m m' ∧ blocks_of m' (request_id r) = blocks_of m (request_id r) ∧
    (∀ x, rc p' x = rc p x) ∧
    (∀ j b, cached_count m (request_id r) ≤ Z.of_nat j < num_tokens / m_bs m →
       blocks_of m (request_id r) !! j = Some b → b ≠ 0 →
       ∃ h, bh_list H !! j = Some h ∧ bhash p' b = Some (h ++ to_bytes_be 4 (kv_cache_group_id m))).
Proof.
  intros Hg Hca [HH [Hen Hen'] Hmm Hmemo] Hlen. set (id := request_id r) in *.
  unfold base_cache_blocks, mget. rewrite run_gets. cbn [snd]. cbv zeta. fold id.
  change (default 0 (num_cached_block m !! id)) with (cached_count m id).
  set (nc := cached_count m id). set (nf := num_tokens / m_bs m) in *.
  destruct (Z.leb_spec nf nc) as [Hle|Hlt].
  { exists p, m. split_and!; try done. intros; lia. }
  pose proof (gi_cc _ _ _ _ _ Hg id) as Hcc. fold nc in Hcc.
  rewrite run_get_req_blocks. destruct (gi_blocks _ _ _ id Hg) as (Hr & Hnd & Hge).
  assert (Hsl : slice (blocks_of m id) nc nf = take (Z.to_nat (nf - nc)) (drop (Z.to_nat nc) (blocks_of m id)))
    by (apply slice_in_range; lia).
  assert (Hin : ∀ b, b ∈ slice (blocks_of m id) nc nf → ∃ j, nc ≤ Z.of_nat j < nf ∧ blocks_of m id !! j = Some b).
  { intros b Hb. rewrite Hsl in Hb. apply list_elem_of_lookup in Hb as [j Hj].
    apply lookup_take_Some in Hj as [Hj Hjl]. rewrite lookup_drop in Hj.
    exists (Z.to_nat nc + j)%nat. split; [lia|done]. }
  assert (Hcab : cacheable p r (blocks_of m id) nc nf (m_bs m) H).
  { split; try done; [apply (gi_bs _ _ _ _ _ Hg)| | |].
    - intros b (j & _ & Hj)%Hin. apply Hr. apply list_elem_of_lookup. eauto.
    - apply nodup_count. intros b Hb. rewrite nodup_count in Hnd. specialize (Hnd b Hb). rewrite Hsl.
      rewrite (count_take_drop b (Z.to_nat nc)), (count_take_drop b (Z.to_nat (nf - nc)) (drop _ _)) in Hnd.
      pose proof (count_nonneg b (take (Z.to_nat nc) (blocks_of m id))).
      pose proof (count_nonneg b (drop (Z.to_nat (nf - nc)) (drop (Z.to_nat nc) (blocks_of m id)))). lia.
    - intros b (j & Hjr & Hj)%Hin. destruct (decide (b = 0)) as [->|Hb0].
      + apply (pi_null_hash _ _ _ (gi_pool _ _ _ _ _ Hg)).
      + eapply (gi_own_blocks _ _ _ _ j b Hg Hj Hb0). fold nc. lia. }
  destruct (cache_full_blocks_spec p free r (blocks_of m id) nc nf (m_bs m) (kv_cache_group_id m) H
              (gi_pool _ _ _ _ _ Hg) (gi_gid _ _ _ _ _ Hg) Hcab) as (p' & He & Hp' & Hcfg & Hrc & Hnew & Hold).
  rewrite (bind_ok _ _ _ _ _ (on_pool_ok _ _ _ _ _ He)). unfold mmod, modify. cbn [fst snd].
  eexists p', _. split; [reflexivity|].
  assert (Hnc' : ∀ id', id' ≠ id → (<[id := nf]> (num_cached_block m)) !! id' = num_cached_block m !! id')
    by (intros; by apply lookup_insert_ne).
  split; [|split_and!; try done].
  - eapply (group_inv_set p free m id (blocks_of m id)); simpl; try done.
    + by left.
    + unfold cached_count. simpl. rewrite lookup_insert_eq. simpl. lia.
    + intros b Hb. rewrite Hrc. lia.
    + intros b Hb Hbl Hbh. rewrite Hold; [done|]. left. intros (j & _ & Hj)%Hin. apply Hbl, list_elem_of_lookup. eauto.
    + congruence.
    + intros j b Hj Hb0 Hc. unfold cached_count in Hc. simpl in Hc. rewrite lookup_insert_eq in Hc. simpl in Hc.
      destruct (gi_own_blocks _ _ _ _ j b Hg Hj Hb0) as [H1 H2]; [fold nc; lia|]. rewrite Hrc. split; [done|].
      rewrite Hold; [done|]. left. intros (j' & Hjr & Hj')%Hin.
      rewrite nodup_count in Hnd. specialize (Hnd b Hb0).
      rewrite (count_take_drop b j) in Hnd.
      assert (0 < count b (take j (blocks_of m id))).
      { apply count_pos, list_elem_of_lookup. exists j'. by rewrite lookup_take_lt by lia. }
      assert (0 < count b (drop j (blocks_of m id))).
      { apply count_pos, list_elem_of_lookup. exists 0%nat. by rewrite lookup_drop, Nat.add_0_r. }
      lia.
    + auto.
  - split; simpl; [|done]. apply (touch_entry_kept id m).
  - unfold blocks_of at 1. simpl. by rewrite lookup_insert_eq.
Qed.
End group.
