(* ===== verification/Coordinator.v ===== *)
(** * The KV-cache coordinator ([src/vllm/v1/core/kv_cache_coordinator.py])

    A coordinator owns the block pool and one manager per KV-cache group.  The
    three subclasses (no prefix cache, one group, several groups) are the
    constructors of [coordinator_kind]; the shared methods run the method of
    each manager in group order on the shared pool. *)
From S2P Require Import Prelude MathUtils FreeQueue Request BlockHash BlockPool KVSpec SingleType Accounting.
Local Open Scope Z_scope.

(* ===================================================================== *)
(** ** State                                                              *)
(* ===================================================================== *)

(** Groups with equal specs, looked up together. *)
Record attention_group := mkAttentionGroup {
  ag_spec : KVCacheSpec;
  group_ids : list Z;
  manager_cls : manager_class;
}.

Inductive coordinator_kind : Type :=
  | KVCacheCoordinatorNoPrefixCache
  | UnitaryKVCacheCoordinator (unitary_spec : KVCacheSpec) (unitary_block_size dcp_world_size pcp_world_size : Z)
  | HybridKVCacheCoordinator (attention_groups : list attention_group) (lcm_block_size hybrid_hash_block_size : Z)
      (eagle_attn_group_indices : list nat).

Record Coordinator := mkCoordinator {
  co_groups : list KVCacheGroupSpec;          (* kv_cache_config.kv_cache_groups *)
  co_max_model_len : Z;
  co_enable_caching : bool;
  block_pool : BlockPool;
  eagle_group_ids : list Z;
  single_type_managers : list Manager;
  kind : coordinator_kind;
}.
#[export] Instance eta_Coordinator : Eta Coordinator := λ c,
  mkCoordinator (co_groups c) (co_max_model_len c) (co_enable_caching c) (block_pool c)
    (eagle_group_ids c) (single_type_managers c) (kind c).
#[export] Instance set_block_pool : Setter block_pool.
Proof. build_setter. Defined.
#[export] Instance set_single_type_managers : Setter single_type_managers.
Proof. build_setter. Defined.

(** Run a manager's method on the shared pool and manager [i]. *)
Definition on_manager {A} (i : nat) (f : M MS A) : M Coordinator A := λ c,
  match single_type_managers c !! i with
  | None => (Raise IndexError, c)
  | Some m =>
      let '(r, (p', m')) := f (block_pool c, m) in
      (r, c <| block_pool := p' |> <| single_type_managers ::= insert i m' |>)
  end.

(** [for i, manager in enumerate(self.single_type_managers)], collecting the
    results; [isinstance(manager, CrossAttentionManager)] is passed along. *)
Definition each_manager {A} (f : nat → bool → M MS A) : M Coordinator (list A) :=
  c <- get ;;
  map_m (λ i, m <- (c <- get ;; of_option IndexError (single_type_managers c !! i)) ;;
              on_manager i (f i (bool_decide (cls m = CrossAttentionManager))))
        (seq 0 (length (single_type_managers c))).

(* ===================================================================== *)
(** ** Construction                                                       *)
(* ===================================================================== *)

(** The managers, built in group order on the pool. *)
Fixpoint build_managers (groups : list KVCacheGroupSpec) (i : Z) (max_num_batched_tokens max_model_len : Z)
    (caching : bool) (dcp pcp : Z) : M BlockPool (list Manager) :=
  match groups with
  | [] => ret []
  | g :: gs =>
      match kv_cache_spec g with
      | UniformSpec _ => raise KeyError
      | LayerSpec s =>
          m <- get_manager_for_kv_cache_spec s max_num_batched_tokens max_model_len caching i dcp pcp ;;
          ms <- build_managers gs (i + 1) max_num_batched_tokens max_model_len caching dcp pcp ;;
          ret (m :: ms)
      end
  end.

(** The groups that get the EAGLE last-block drop. *)
Definition eagle_groups (groups : list KVCacheGroupSpec) (use_eagle : bool) : list Z :=
  let flagged := omap (λ x : nat * KVCacheGroupSpec, if is_eagle_group x.2 then Some (Z.of_nat x.1) else None)
                   (zip (seq 0 (length groups)) groups) in
  if use_eagle && bool_decide (flagged = []) then seqZ 0 (len groups) else flagged.

(** [verify_and_split_kv_cache_groups]: group equal specs, full attention
    first. *)
Fixpoint add_to_groups (s : KVCacheSpec) (i : Z) (c : manager_class) (ags : list attention_group) :
    res (list attention_group) :=
  match ags with
  | [] => Ok [mkAttentionGroup s [i] c]
  | a :: ags' =>
      if bool_decide (ag_spec a = s) then
        if bool_decide (manager_cls a = c)
        then Ok (mkAttentionGroup (ag_spec a) (group_ids a ++ [i]) (manager_cls a) :: ags')
        else Raise AssertionError
      else match add_to_groups s i c ags' with
           | Ok r => Ok (a :: r)
           | Raise e => Raise e
           end
  end.
Fixpoint split_groups (ms : list Manager) (i : Z) (ags : list attention_group) : res (list attention_group) :=
  match ms with
  | [] => Ok ags
  | m :: ms' =>
      match add_to_groups (spec m) i (cls m) ags with
      | Ok ags' => split_groups ms' (i + 1) ags'
      | Raise e => Raise e
      end
  end.
Definition is_full_group (a : attention_group) : bool := isa_FullAttentionSpec (ag_spec a).
Definition is_eagle_attn_group (ags : list attention_group) (eagle : list Z) (i : nat) : bool :=
  match ags !! i with
  | Some a => existsb (λ g, bool_decide (g ∈ eagle)) (group_ids a)
  | None => false
  end.
Definition verify_and_split_kv_cache_groups (ms : list Manager) (eagle : list Z) (hash_block_size : Z) :
    res coordinator_kind :=
  match split_groups ms 0 [] with
  | Raise e => Raise e
  | Ok ags =>
      if 1 <? len ags then
        let sorted := filter (λ a, is_full_group a) ags ++ filter (λ a, negb (is_full_group a)) ags in
        let lcm_block_size := foldr Z.lcm 1 (map (λ a, block_size (ag_spec a)) ags) in
        let eagle_idx := filter (is_eagle_attn_group sorted eagle) (seq 0 (length sorted)) in
        Ok (HybridKVCacheCoordinator sorted lcm_block_size hash_block_size eagle_idx)
      else Raise AssertionError
  end.

(** The subclass [get_kv_cache_coordinator] picks, with the assertions of its
    [__init__]. *)
Definition choose_kind (groups : list KVCacheGroupSpec) (ms : list Manager) (eagle : list Z)
    (enable_caching : bool) (dcp pcp hash_block_size : Z) : res coordinator_kind :=
  if negb enable_caching then Ok KVCacheCoordinatorNoPrefixCache
  else
    match groups with
    | [g] =>
        match kv_cache_spec g with
        | UniformSpec _ => Raise KeyError
        | LayerSpec s =>
            let bs := block_size s in
            let bs := if 1 <? dcp then bs * dcp else bs in
            let bs := if 1 <? pcp then bs * pcp else bs in
            if hash_block_size =? bs then Ok (UnitaryKVCacheCoordinator s bs dcp pcp)
            else Raise AssertionError
        end
    | _ =>
        if forallb (λ g, group_block_size (kv_cache_spec g) mod hash_block_size =? 0) groups
           && (dcp =? 1) && (pcp =? 1)
        then verify_and_split_kv_cache_groups ms eagle hash_block_size
        else Raise AssertionError
    end.

(** [get_kv_cache_coordinator] and [KVCacheCoordinator.__init__]. *)
Definition get_kv_cache_coordinator (cfg : KVCacheConfig) (max_model_len max_num_batched_tokens : Z)
    (use_eagle enable_caching enable_kv_cache_events : bool) (dcp pcp hash_block_size : Z) : res Coordinator :=
  let groups := kv_cache_groups cfg in
  match BlockPool_init (num_blocks cfg) enable_caching hash_block_size enable_kv_cache_events with
  | Raise e => Raise e
  | Ok p0 =>
      match build_managers groups 0 max_num_batched_tokens max_model_len enable_caching dcp pcp p0 with
      | (Raise e, _) => Raise e
      | (Ok ms, p) =>
          let eagle := eagle_groups groups use_eagle in
          match choose_kind groups ms eagle enable_caching dcp pcp hash_block_size with
          | Raise e => Raise e
          | Ok k => Ok (mkCoordinator groups max_model_len enable_caching p eagle ms k)
          end
      end
  end.

(* ===================================================================== *)
(** ** Operations                                                         *)
(* ===================================================================== *)

Section operations.
Context `{env : KVEnv}.
Implicit Types (request_id : string).

Definition co_get_num_blocks_to_allocate request_id (num_tokens : Z) (new_computed_blocks : list (list ref))
    (num_encoder_tokens total_computed_tokens num_tokens_main_model : Z) (apply_admission_cap : bool) :
    M Coordinator Z :=
  ns <- each_manager (λ i is_cross,
    if is_cross then
      get_num_blocks_to_allocate request_id num_encoder_tokens [] 0 num_encoder_tokens apply_admission_cap
    else
      ncb <- of_option IndexError (new_computed_blocks !! i) ;;
      get_num_blocks_to_allocate request_id num_tokens ncb total_computed_tokens num_tokens_main_model
        apply_admission_cap) ;;
  ret (foldr Z.add 0 ns).

Definition co_allocate_new_computed_blocks request_id (new_computed_blocks : list (list ref))
    (num_local_computed_tokens num_external_computed_tokens : Z) : M Coordinator unit :=
  each_manager (λ i _,
    ncb <- of_option IndexError (new_computed_blocks !! i) ;;
    allocate_new_computed_blocks request_id ncb num_local_computed_tokens num_external_computed_tokens) ;;
  ret tt.

Definition co_allocate_new_blocks request_id (num_tokens num_tokens_main_model num_encoder_tokens : Z) :
    M Coordinator (list (list ref)) :=
  each_manager (λ _ is_cross,
    allocate_new_blocks request_id (if is_cross then num_encoder_tokens else num_tokens) num_tokens_main_model).

Definition co_cache_blocks (request : Request) (num_computed_tokens : Z) : M Coordinator unit :=
  each_manager (λ _ _, cache_blocks request num_computed_tokens) ;; ret tt.

Definition co_free request_id : M Coordinator unit :=
  each_manager (λ _ _, free request_id) ;; ret tt.

Definition co_get_num_common_prefix_blocks request_id : M Coordinator (list Z) :=
  c <- get ;;
  match kind c with
  | KVCacheCoordinatorNoPrefixCache => ret (map (λ _, 0) (single_type_managers c))
  | _ => each_manager (λ _ _, get_num_common_prefix_blocks request_id)
  end.

Definition co_remove_skipped_blocks request_id (total_computed_tokens : Z) : M Coordinator unit :=
  each_manager (λ _ _, remove_skipped_blocks request_id total_computed_tokens) ;; ret tt.

Definition co_get_blocks (c : Coordinator) request_id : list (list ref) :=
  map (λ m, blocks_of m request_id) (single_type_managers c).

Definition co_new_step_starts : M Coordinator unit :=
  each_manager (λ _ _, new_step_starts) ;; ret tt.
End operations.

(* ===================================================================== *)
(** ** The longest hit common to all groups                               *)
(* ===================================================================== *)

(** State of the fixed-point iteration: the candidate length, the blocks found
    per group and the verified EAGLE groups. *)
Record hit_state := mkHitState {
  curr_hit_length : Z;
  hit_blocks_by_group : list (option (list ref));
  eagle_verified : list nat;
}.

(** [for group_id, blocks in zip(group_ids, hit_blocks): hit_blocks_by_group[group_id] = blocks]. *)
Fixpoint store_hits (gids : list Z) (rows : list (list ref)) (hb : list (option (list ref))) :
    list (option (list ref)) :=
  match gids, rows with
  | g :: gs, r :: rs => store_hits gs rs (<[Z.to_nat g := Some r]> hb)
  | _, _ => hb
  end.

Section hybrid.
Variables (p : BlockPool) (block_hashes : list bytes) (max_cache_hit_length : Z).
Variables (lcm_block_size hybrid_hash_block_size : Z) (eagle_idx : list nat).

(** One attention group of the [for] loop. *)
Definition check_group (idx : nat) (a : attention_group) (st : hit_state) : res hit_state :=
  let s := ag_spec a in
  match head (group_ids a) with
  | None => Raise IndexError
  | Some g0 =>
      let cached := hit_blocks_by_group st !!! Z.to_nat g0 in
      if isa_FullAttentionSpec s && is_some cached then
        Ok (mkHitState (curr_hit_length st / block_size s * block_size s) (hit_blocks_by_group st)
              (eagle_verified st))
      else
        let use_eagle := bool_decide (idx ∈ eagle_idx) && negb (bool_decide (idx ∈ eagle_verified st)) in
        let _max_length :=
          if use_eagle then Z.min (curr_hit_length st + block_size s) max_cache_hit_length
          else curr_hit_length st in
        match hashes_at hybrid_hash_block_size block_hashes (block_size s) with
        | Raise e => Raise e
        | Ok hs =>
            match find_longest_cache_hit (manager_cls a) hs _max_length (group_ids a) p s use_eagle
                    lcm_block_size 1 1 with
            | Raise e => Raise e
            | Ok rows =>
                let _new_hit_length := hit_blocks rows * block_size s in
                let ev := if use_eagle then idx :: eagle_verified st
                          else if _new_hit_length <? curr_hit_length st then [] else eagle_verified st in
                Ok (mkHitState _new_hit_length (store_hits (group_ids a) rows (hit_blocks_by_group st)) ev)
            end
        end
  end.

Fixpoint check_groups (idx : nat) (ags : list attention_group) (st : hit_state) : res hit_state :=
  match ags with
  | [] => Ok st
  | a :: ags' =>
      match check_group idx a st with
      | Raise e => Raise e
      | Ok st' => check_groups (S idx) ags' st'
      end
  end.

(** The [while True] loop; the length decreases strictly until it stops. *)
Fixpoint hit_loop (fuel : nat) (ags : list attention_group) (simple : bool) (hit_length : Z)
    (hb : list (option (list ref))) (ev : list nat) : res (Z * list (option (list ref))) :=
  match fuel with
  | O => Raise OutOfFuel
  | S fuel' =>
      match check_groups 0 ags (mkHitState hit_length hb ev) with
      | Raise e => Raise e
      | Ok st =>
          if hit_length <=? curr_hit_length st then Ok (hit_length, hit_blocks_by_group st)
          else if simple then Ok (curr_hit_length st, hit_blocks_by_group st)
          else hit_loop fuel' ags simple (curr_hit_length st) (hit_blocks_by_group st) (eagle_verified st)
      end
  end.

(** Truncate the blocks of the first attention group if it is full attention. *)
Definition truncate_full (ags : list attention_group) (hit_length : Z) (hb : list (option (list ref))) :
    list (option (list ref)) :=
  match ags with
  | a :: _ =>
      if is_full_group a
      then foldl (λ hb g, alter (fmap (λ l, slice_to l (hit_length / block_size (ag_spec a)))) (Z.to_nat g) hb)
             hb (group_ids a)
      else hb
  | [] => hb
  end.

Definition hybrid_find_longest_cache_hit (num_groups : nat) (ags : list attention_group) :
    res (list (list ref) * Z) :=
  let simple := (len ags =? 2) && match ags with a :: _ => is_full_group a | [] => false end in
  match hit_loop (S (S (Z.to_nat max_cache_hit_length))) ags simple max_cache_hit_length
          (replicate num_groups None) [] with
  | Raise e => Raise e
  | Ok (hit_length, hb) =>
      Ok (map (default []) (truncate_full ags hit_length hb), hit_length)
  end.
End hybrid.

(** [find_longest_cache_hit] of the coordinator. *)
Definition co_find_longest_cache_hit (c : Coordinator) (block_hashes : list bytes) (max_cache_hit_length : Z) :
    res (list (list ref) * Z) :=
  match kind c with
  | KVCacheCoordinatorNoPrefixCache => Ok (map (λ _, []) (single_type_managers c), 0)
  | UnitaryKVCacheCoordinator s bs dcp pcp =>
      match single_type_managers c with
      | [] => Raise IndexError
      | m :: _ =>
          match find_longest_cache_hit (cls m) (PlainHashes block_hashes) max_cache_hit_length [0] (block_pool c)
                  s (bool_decide (0 ∈ eagle_group_ids c)) bs dcp pcp with
          | Raise e => Raise e
          | Ok rows => Ok (rows, hit_blocks rows * bs)
          end
      end
  | HybridKVCacheCoordinator ags lcm hbs eagle_idx =>
      hybrid_find_longest_cache_hit (block_pool c) block_hashes max_cache_hit_length lcm hbs eagle_idx
        (length (co_groups c)) ags
  end.
