(* ===== verification/CoordinatorInv.v ===== *)
(** * Block accounting of the coordinator

    [coord_inv]: the reference counts of the pool are the occurrences of the
    blocks in the tables of all managers.  A manager's operation, proved in
    [Accounting.v] for any outside references, is run on one manager of the
    coordinator ([coord_focus], [coord_unfocus]); [each_manager_spec] runs it on
    all of them in order. *)
From S2P Require Import Prelude MathUtils FreeQueue Request BlockHash BlockPool KVSpec SingleType Accounting Coordinator.
Local Open Scope Z_scope.

(* ===================================================================== *)
(** ** References over all managers                                       *)
(* ===================================================================== *)

Fixpoint total (ms : list Manager) (b : ref) : Z :=
  match ms with
  | [] => 0
  | m :: ms' => held (req_to_blocks m) b + total ms' b
  end.

Lemma total_nonneg ms b : 0 ≤ total ms b.
Proof. induction ms as [|m ms IH]; simpl; [lia|]. pose proof (held_nonneg (req_to_blocks m) b). lia. Qed.
Lemma total_ge ms i m b : ms !! i = Some m → held (req_to_blocks m) b ≤ total ms b.
Proof.
  revert i. induction ms as [|x ms IH]; intros [|i] Hi; simpl in *; simplify_eq.
  - pose proof (total_nonneg ms b). lia.
  - pose proof (IH _ Hi). pose proof (held_nonneg (req_to_blocks x) b). lia.
Qed.
Lemma total_ge_two ms i k m m' b :
  i ≠ k → ms !! i = Some m → ms !! k = Some m' →
  held (req_to_blocks m) b + held (req_to_blocks m') b ≤ total ms b.
Proof.
  revert i k. induction ms as [|x ms IH]; intros [|i] [|k] Hne Hi Hk; simpl in *; simplify_eq.
  - pose proof (total_ge _ _ _ b Hk). lia.
  - pose proof (total_ge _ _ _ b Hi). lia.
  - pose proof (IH i k ltac:(lia) Hi Hk). pose proof (held_nonneg (req_to_blocks x) b). lia.
Qed.
Lemma total_insert ms i m m' b :
  ms !! i = Some m →
  total (<[i := m']> ms) b = total ms b - held (req_to_blocks m) b + held (req_to_blocks m') b.
Proof.
  revert i. induction ms as [|x ms IH]; intros [|i] Hi; simpl in *; simplify_eq; [lia|].
  rewrite (IH _ Hi). lia.
Qed.

(** The references outside manager [m], and the unshared blocks outside
    manager [i]. *)
Definition ext_of (ms : list Manager) (m : Manager) (b : ref) : Z := total ms b - held (req_to_blocks m) b.
Definition owned_in (m : Manager) (b : ref) : Prop :=
  ∃ id l j, req_to_blocks m !! id = Some l ∧ l !! j = Some b ∧ b ≠ 0 ∧ cached_count m id ≤ Z.of_nat j.
Definition extU_of (ms : list Manager) (i : nat) (b : ref) : Prop :=
  ∃ k m, k ≠ i ∧ ms !! k = Some m ∧ owned_in m b.

(* ===================================================================== *)
(** ** The invariant                                                      *)
(* ===================================================================== *)

(** One manager, beside the reference counts. *)
Record mgr_inv (p : BlockPool) (m : Manager) : Prop := {
  mi_null : _null_block m = 0;
  mi_bs : 0 < m_bs m;
  mi_gid : 0 ≤ kv_cache_group_id m < 2 ^ 32;
  mi_cc : ∀ id, 0 ≤ cached_count m id;
  mi_caching : m_enable_caching m = enable_caching p;
  mi_range : ∀ id l b, req_to_blocks m !! id = Some l → b ∈ l → 0 ≤ b < num_gpu_blocks p;
  mi_nodup : ∀ id l, req_to_blocks m !! id = Some l → NoDup (filter (λ b, b ≠ 0) l);
  mi_own : ∀ b, owned_in m b → rc p b = 1 ∧ bhash p b = None;
}.

Record coord_inv (p : BlockPool) (free : list ref) (ms : list Manager) : Prop := {
  ci_pool : pool_inv p free;
  ci_nohash : enable_caching p = false → ∀ b, 0 ≤ b < num_gpu_blocks p → bhash p b = None;
  ci_rc : ∀ b, 1 ≤ b < num_gpu_blocks p → rc p b = total ms b;
  ci_mgr : ∀ i m, ms !! i = Some m → mgr_inv p m;
}.

Lemma owned_range p m b : mgr_inv p m → owned_in m b → 1 ≤ b < num_gpu_blocks p ∧ 1 ≤ held (req_to_blocks m) b.
Proof.
  intros Hm (id & l & j & Hl & Hj & Hb0 & _). assert (Hin : b ∈ l) by (apply list_elem_of_lookup; eauto).
  pose proof (mi_range _ _ Hm id l b Hl Hin). pose proof (held_ge _ _ _ b Hl). apply count_pos in Hin. lia.
Qed.

Lemma coord_focus p free ms i m :
  coord_inv p free ms → ms !! i = Some m → group_inv (ext_of ms m) (extU_of ms i) p free m.
Proof.
  intros Hc Hi. pose proof (ci_mgr _ _ _ Hc i m Hi) as Hm. destruct (Hm) as [H1 H2 H3 H4 H5 H6 H7 H8].
  split; try done.
  - apply (ci_pool _ _ _ Hc).
  - apply (ci_nohash _ _ _ Hc).
  - intros b. unfold ext_of. pose proof (total_ge ms i m b Hi). lia.
  - intros b Hb. unfold ext_of. rewrite (ci_rc _ _ _ Hc) by done. lia.
  - intros id l j b Hl Hj Hb0 Hcc. apply H8. exists id, l, j. done.
  - intros b (k & m' & Hki & Hk & Hown). pose proof (ci_mgr _ _ _ Hc k m' Hk) as Hm'.
    destruct (owned_range _ _ _ Hm' Hown) as [Hr Hge]. destruct (mi_own _ _ Hm' b Hown) as [Hrc Hh].
    split_and!; [lia|lia|done| |done]. rewrite (ci_rc _ _ _ Hc) in Hrc by done.
    pose proof (total_ge_two ms k i m' m b Hki Hk Hi). pose proof (held_nonneg (req_to_blocks m) b).
    unfold ext_of. lia.
Qed.

Lemma coord_unfocus p free ms i m p' free' m' :
  coord_inv p free ms → ms !! i = Some m → pool_cfg p' = pool_cfg p →
  group_inv (ext_of ms m) (extU_of ms i) p' free' m' → coord_inv p' free' (<[i := m']> ms).
Proof.
  intros Hc Hi Hcfg Hg. assert (Hn := pool_cfg_num _ _ Hcfg).
  assert (Hca : enable_caching p' = enable_caching p) by (unfold pool_cfg in Hcfg; congruence).
  split.
  - apply (gi_pool _ _ _ _ _ Hg).
  - apply (gi_nohash _ _ _ _ _ Hg).
  - intros b Hb. rewrite (total_insert ms i m m' b Hi), (gi_rc _ _ _ _ _ Hg) by done. unfold ext_of. lia.
  - intros k mk Hk. apply list_lookup_insert_Some in Hk as [(-> & -> & _)|[Hki Hk]].
    + split; [apply Hg..|]. intros b (id & l & j & Hl & Hj & Hb0 & Hcc). by eapply (gi_own _ _ _ _ _ Hg).
    + destruct (ci_mgr _ _ _ Hc k mk Hk) as [H1 H2 H3 H4 H5 H6 H7 H8]. split; try done.
      * congruence.
      * rewrite Hn. done.
      * intros b Hown. destruct (gi_extU _ _ _ _ _ Hg b) as (_ & ? & _ & ?); [|done]. exists k, mk. auto.
Qed.

(* ===================================================================== *)
(** ** Running a method of every manager                                  *)
(* ===================================================================== *)

(** The sum of [need] over the managers [i, ..., i + k - 1]. *)
Fixpoint need_from (need : nat → Z) (i k : nat) : Z :=
  match k with O => 0 | S k' => need i + need_from need (S i) k' end.

Lemma need_from_nonneg need i k : (∀ j, 0 ≤ need j) → 0 ≤ need_from need i k.
Proof. intros Hn. revert i. induction k as [|k IH]; intros i; simpl; [lia|]. specialize (Hn i). specialize (IH (S i)). lia. Qed.

Section each.
Context {A : Type}.
Variables (f : nat → bool → M MS A) (id : string) (need : nat → Z) (stable : BlockPool → Prop).
Variable R : nat → Manager → A → Manager → Prop.

(** What the method does to one manager: it succeeds when [need i] blocks are
    free and takes at most those. *)
Definition step_ok (cfg : Z * bool * Z * ref * bool) (i : nat) (m : Manager) : Prop :=
  ∀ ext extU p free,
    group_inv ext extU p free m → stable p → pool_cfg p = cfg → need i ≤ len free →
    ∃ a p' m' free', f i (bool_decide (cls m = CrossAttentionManager)) (p, m) = (Ok a, (p', m')) ∧
      group_inv ext extU p' free' m' ∧ pool_cfg p' = pool_cfg p ∧ stable p' ∧ mgr_cfg m' = mgr_cfg m ∧
      others_kept id m m' ∧ len free - need i ≤ len free' ∧ R i m a m'.

(** The relation between a manager before and after the call. *)
Definition after (i : nat) (m : Manager) (a : A) (m' : Manager) : Prop :=
  mgr_cfg m' = mgr_cfg m ∧ others_kept id m m' ∧ R i m a m'.

Lemma map_managers_spec k i c free :
  coord_inv (block_pool c) free (single_type_managers c) → stable (block_pool c) →
  (i + k = length (single_type_managers c))%nat → (∀ j, 0 ≤ need j) → need_from need i k ≤ len free →
  (∀ j m, (i ≤ j)%nat → single_type_managers c !! j = Some m → step_ok (pool_cfg (block_pool c)) j m) →
  ∃ rs p' ms' free',
    map_m (λ i, m <- (c <- get ;; of_option IndexError (single_type_managers c !! i)) ;;
                on_manager i (f i (bool_decide (cls m = CrossAttentionManager)))) (seq i k) c
      = (Ok rs, c <| block_pool := p' |> <| single_type_managers := ms' |>) ∧
    coord_inv p' free' ms' ∧ stable p' ∧ pool_cfg p' = pool_cfg (block_pool c) ∧ length rs = k ∧
    length ms' = length (single_type_managers c) ∧
    len free - need_from need i k ≤ len free' ∧
    (∀ j, (j < i)%nat → ms' !! j = single_type_managers c !! j) ∧
    (∀ j m, (i ≤ j)%nat → single_type_managers c !! j = Some m →
       ∃ a m', rs !! (j - i)%nat = Some a ∧ ms' !! j = Some m' ∧ after j m a m').
Proof.
  revert i c free. induction k as [|k IH]; intros i c free Hc Hst Hlen Hpos Hneed Hstep; simpl.
  { exists [], (block_pool c), (single_type_managers c), free. destruct c; simpl in *.
    split_and!; try done; [lia|]. intros j m Hj Hm. apply lookup_lt_Some in Hm. lia. }
  destruct (lookup_lt_is_Some_2 (single_type_managers c) i) as [m Hm]; [lia|].
  rewrite !bind_assoc, run_get, run_of_option, Hm.
  pose proof (need_from_nonneg need (S i) k Hpos) as Hrest. simpl in Hneed.
  destruct (Hstep i m ltac:(lia) Hm _ _ _ _ (coord_focus _ _ _ _ _ Hc Hm) Hst eq_refl ltac:(lia))
    as (a & p1 & m1 & free1 & He & Hg1 & Hcfg1 & Hst1 & Hmc1 & Hok1 & Hfree1 & HR1).
  pose proof (coord_unfocus _ _ _ _ _ _ _ _ Hc Hm Hcfg1 Hg1) as Hc1.
  set (c1 := c <| block_pool := p1 |> <| single_type_managers ::= insert i m1 |>).
  assert (Hon : on_manager i (f i (bool_decide (cls m = CrossAttentionManager))) c = (Ok a, c1))
    by (unfold on_manager; by rewrite Hm, He).
  rewrite (bind_ok _ _ _ _ _ Hon).
  assert (Hl1 : length (single_type_managers c1) = length (single_type_managers c)) by (unfold c1; simpl; apply length_insert).
  destruct (IH (S i) c1 free1) as (rs & p' & ms' & free' & He' & Hc' & Hst' & Hcfg' & Hlr & Hlm & Hfree' & Hlow & Hall);
    [done|done|lia|done|lia| |].
  { intros j mj Hj Hmj. unfold c1 in Hmj. simpl in Hmj. rewrite list_lookup_insert_ne in Hmj by lia.
    change (block_pool c1) with p1. rewrite Hcfg1. apply Hstep; [lia|done]. }
  rewrite (bind_ok _ _ _ _ _ He'). eexists (a :: rs), p', ms', free'. split; [reflexivity|].
  split_and!; try done; simpl; try lia.
  - by rewrite Hcfg'.
  - intros j Hj. rewrite Hlow by lia. unfold c1. simpl. by rewrite list_lookup_insert_ne by lia.
  - intros j mj Hj Hmj. destruct (decide (j = i)) as [->|Hji].
    + rewrite Hm in Hmj. injection Hmj as <-. exists a, m1. rewrite Nat.sub_diag. split; [done|]. split; [|done].
      rewrite Hlow by lia. unfold c1. simpl. apply list_lookup_insert_eq. apply lookup_lt_Some in Hm. lia.
    + destruct (Hall j mj) as (a' & m' & Ha & Hm' & Haft); [lia| |].
      { unfold c1. simpl. by rewrite list_lookup_insert_ne by lia. }
      exists a', m'. split; [|done]. replace (j - i)%nat with (S (j - S i)) by lia. done.
Qed.

Lemma each_manager_spec c free :
  coord_inv (block_pool c) free (single_type_managers c) → stable (block_pool c) → (∀ j, 0 ≤ need j) →
  need_from need 0 (length (single_type_managers c)) ≤ len free →
  (∀ j m, single_type_managers c !! j = Some m → step_ok (pool_cfg (block_pool c)) j m) →
  ∃ rs p' ms' free', each_manager f c = (Ok rs, c <| block_pool := p' |> <| single_type_managers := ms' |>) ∧
    coord_inv p' free' ms' ∧ stable p' ∧ pool_cfg p' = pool_cfg (block_pool c) ∧
    length rs = length (single_type_managers c) ∧ length ms' = length (single_type_managers c) ∧
    len free - need_from need 0 (length (single_type_managers c)) ≤ len free' ∧
    (∀ j m, single_type_managers c !! j = Some m →
       ∃ a m', rs !! j = Some a ∧ ms' !! j = Some m' ∧ after j m a m').
Proof.
  intros Hc Hst Hpos Hneed Hstep. unfold each_manager. rewrite run_get.
  destruct (map_managers_spec (length (single_type_managers c)) 0 c free)
    as (rs & p' & ms' & free' & He & Hc' & Hst' & Hcfg & Hlr & Hlm & Hfree & _ & Hall); try done; [auto|].
  exists rs, p', ms', free'. split_and!; try done. intros j m Hm.
  destruct (Hall j m ltac:(lia) Hm) as (a & m' & Ha & ?). rewrite Nat.sub_0_r in Ha. eauto.
Qed.
End each.

(* ===================================================================== *)
(** ** The coordinator's operations on attention managers                 *)
(* ===================================================================== *)

Lemma attention_cfg m m' : mgr_cfg m' = mgr_cfg m → attention_manager m → attention_manager m'.
Proof. unfold mgr_cfg, attention_manager. intros Hm. assert (cls m' = cls m) as -> by congruence. done. Qed.

Section dispatch.
Context `{env : KVEnv}.

(** The methods of an attention manager are those of the base class. *)
Lemma free_base m p id : attention_manager m → free id (p, m) = base_free id (p, m).
Proof. intros [H|[H|H]]; unfold free, mget; rewrite run_gets; cbn [snd]; by rewrite H. Qed.
Lemma remove_base m p id t : attention_manager m → remove_skipped_blocks id t (p, m) = base_remove_skipped_blocks id t (p, m).
Proof. intros [H|[H|H]]; unfold remove_skipped_blocks, mget; rewrite run_gets; cbn [snd]; by rewrite H. Qed.
Lemma cache_base m p r t : attention_manager m → cache_blocks r t (p, m) = base_cache_blocks r t (p, m).
Proof. intros [H|[H|H]]; unfold cache_blocks, mget; rewrite run_gets; cbn [snd]; by rewrite H. Qed.
Lemma allocate_base m p id n n' : attention_manager m → allocate_new_blocks id n n' (p, m) = base_allocate_new_blocks id n (p, m).
Proof. intros [H|[H|H]]; unfold allocate_new_blocks, mget; rewrite run_gets; cbn [snd]; by rewrite H. Qed.
Lemma computed_base m p id l a b :
  attention_manager m → allocate_new_computed_blocks id l a b (p, m) = base_allocate_new_computed_blocks id l a b (p, m).
Proof. intros [H|[H|H]]; unfold allocate_new_computed_blocks, mget; rewrite run_gets; cbn [snd]; by rewrite H. Qed.
Lemma predict_base m p id n l t n' cap :
  attention_manager m →
  get_num_blocks_to_allocate id n l t n' cap (p, m) = (base_num_blocks_to_allocate p m id n l t cap, (p, m)).
Proof.
  intros [H|[H|H]]; unfold get_num_blocks_to_allocate, mget, pget; rewrite run_gets; cbn [snd]; rewrite H;
    by rewrite run_gets.
Qed.
Lemma not_cross m : attention_manager m → bool_decide (cls m = CrossAttentionManager) = false.
Proof. intros [H|[H|H]]; by rewrite H. Qed.
End dispatch.

(** The managers and pool of a coordinator after a call. *)
Definition co_with (c : Coordinator) (p : BlockPool) (ms : list Manager) : Coordinator :=
  c <| block_pool := p |> <| single_type_managers := ms |>.
Definition all_attention (c : Coordinator) : Prop := ∀ i m, single_type_managers c !! i = Some m → attention_manager m.
Definition co_inv (c : Coordinator) (free : list ref) : Prop := coord_inv (block_pool c) free (single_type_managers c).

(** Every manager is related to its predecessor. *)
Definition managers_rel (Q : nat → Manager → Manager → Prop) (ms ms' : list Manager) : Prop :=
  length ms' = length ms ∧ ∀ i m, ms !! i = Some m → ∃ m', ms' !! i = Some m' ∧ Q i m m'.

Lemma need_from_zero i k : need_from (λ _, 0) i k = 0.
Proof. revert i. induction k; intros i; simpl; [done|]. by rewrite IHk. Qed.
Lemma need_from_add f g i k : need_from (λ j, f j + g j) i k = need_from f i k + need_from g i k.
Proof. revert i. induction k as [|k IH]; intros i; simpl; [done|]. rewrite IH. lia. Qed.
Lemma need_from_le f g i k : (∀ j, (i ≤ j < i + k)%nat → f j ≤ g j) → need_from f i k ≤ need_from g i k.
Proof.
  revert i. induction k as [|k IH]; intros i Hfg; simpl; [done|].
  pose proof (Hfg i ltac:(lia)). pose proof (IH (S i) ltac:(intros; apply Hfg; lia)). lia.
Qed.
Lemma sum_need need i rs :
  (∀ j a, rs !! j = Some a → a = need (i + j)%nat) → foldr Z.add 0 rs = need_from need i (length rs).
Proof.
  revert i. induction rs as [|a rs IH]; intros i Hrs; simpl; [done|].
  rewrite (Hrs 0%nat a eq_refl), Nat.add_0_r. f_equal. apply IH. intros j b Hb.
  rewrite (Hrs (S j) b Hb). f_equal. lia.
Qed.

Section coordinator_operations.
Context `{env : KVEnv}.

Lemma co_free_spec c free0 id :
  co_inv c free0 → all_attention c →
  ∃ p ms free', co_free id c = (Ok tt, co_with c p ms) ∧ coord_inv p free' ms ∧
    pool_cfg p = pool_cfg (block_pool c) ∧ len free0 ≤ len free' ∧
    managers_rel (λ _ m m', mgr_cfg m' = mgr_cfg m ∧ others_kept id m m' ∧
      req_to_blocks m' = delete id (req_to_blocks m) ∧ num_cached_block m' !! id = None) (single_type_managers c) ms.
Proof.
  intros Hc Hall. unfold co_free.
  destruct (each_manager_spec (λ _ _, free id) id (λ _, 0) (λ _, True)
    (λ _ m _ m', req_to_blocks m' = delete id (req_to_blocks m) ∧ num_cached_block m' !! id = None) c free0)
    as (rs & p & ms & free' & He & Hc' & _ & Hcfg & _ & Hl & Hf & Hafter); try done.
  { rewrite need_from_zero. apply len_nonneg. }
  { intros j m Hm ext extU p free Hg _ _ _. rewrite free_base by eauto.
    destruct (base_free_spec ext extU p free m id Hg) as (p' & m' & He & Hg' & Hcfg & Hmc & Hok & Hr & Hn & _).
    eexists tt, p', m', _. split_and!; try done. rewrite len_app. pose proof (len_nonneg (filter (λ b, b ≠ 0 ∧ rc p b = 1) (reverse (blocks_of m id)))). lia. }
  rewrite need_from_zero in Hf. rewrite (bind_ok _ _ _ _ _ He). exists p, ms, free'.
  split_and!; try done; [lia|split; [done|]]. intros i m Hm. destruct (Hafter i m Hm) as (a & m' & _ & ? & ? & ? & ? & ?). eauto 10.
Qed.

Lemma co_remove_skipped_blocks_spec c free0 id t :
  co_inv c free0 → all_attention c →
  ∃ p ms free', co_remove_skipped_blocks id t c = (Ok tt, co_with c p ms) ∧ coord_inv p free' ms ∧
    pool_cfg p = pool_cfg (block_pool c) ∧ len free0 ≤ len free' ∧
    (∀ x, 0 ≤ x → bhash p x = bhash (block_pool c) x) ∧
    managers_rel (λ _ m m', mgr_cfg m' = mgr_cfg m ∧ others_kept id m m' ∧
      num_cached_block m' = num_cached_block m ∧ length (blocks_of m' id) = length (blocks_of m id))
      (single_type_managers c) ms.
Proof.
  intros Hc Hall. unfold co_remove_skipped_blocks.
  destruct (each_manager_spec (λ _ _, remove_skipped_blocks id t) id (λ _, 0)
    (λ p, ∀ x, 0 ≤ x → bhash p x = bhash (block_pool c) x)
    (λ _ m _ m', num_cached_block m' = num_cached_block m ∧ length (blocks_of m' id) = length (blocks_of m id)) c free0)
    as (rs & p & ms & free' & He & Hc' & Hst & Hcfg & _ & Hl & Hf & Hafter); try done.
  { rewrite need_from_zero. apply len_nonneg. }
  { intros j m Hm ext extU p free Hg Hst _ _. rewrite remove_base by eauto.
    destruct (base_remove_skipped_blocks_spec ext extU p free m id t Hg)
      as (p' & m' & removed & He & Hg' & Hcfg & Hmc & Hok & Hnc & Hlen & Hh & _).
    exists tt, p', m', (free ++ removed). split_and!; try done.
    - intros x Hx. rewrite Hh by done. auto.
    - rewrite len_app. pose proof (len_nonneg removed). lia. }
  rewrite need_from_zero in Hf. rewrite (bind_ok _ _ _ _ _ He). exists p, ms, free'.
  split_and!; try done; [lia|split; [done|]]. intros i m Hm. destruct (Hafter i m Hm) as (a & m' & _ & ? & ? & ? & ? & ?). eauto 10.
Qed.

(** The prediction, one number per manager. *)
Lemma co_predict_spec c free0 id n rows enc t n' cap pred :
  co_inv c free0 → all_attention c →
  (∀ i m, single_type_managers c !! i = Some m → ∃ row, rows !! i = Some row ∧
     base_num_blocks_to_allocate (block_pool c) m id n row t cap = Ok (pred i)) →
  co_get_num_blocks_to_allocate id n rows enc t n' cap c =
    (Ok (need_from pred 0 (length (single_type_managers c))), c).
Proof.
  intros Hc Hall Hrows. unfold co_get_num_blocks_to_allocate.
  match goal with |- bind (each_manager ?g) _ _ = _ =>
    destruct (each_manager_spec g id (λ _, 0) (λ p, p = block_pool c) (λ i m a m', m' = m ∧ a = pred i) c free0)
      as (rs & p & ms & free' & He & _ & -> & _ & Hlr & Hl & _ & Hafter) end; try done.
  { rewrite need_from_zero. apply len_nonneg. }
  { intros j m Hm ext extU p free Hg -> _ _. cbv beta. rewrite (not_cross m) by eauto.
    destruct (Hrows j m Hm) as (row & Hrow & Hpred). rewrite Hrow, run_of_option, predict_base, Hpred by eauto.
    exists (pred j), (block_pool c), m, free. split_and!; try done. lia. }
  rewrite (bind_ok _ _ _ _ _ He). unfold ret.
  assert (ms = single_type_managers c) as ->.
  { apply list_eq. intros i. destruct (single_type_managers c !! i) as [m|] eqn:Em.
    - by destruct (Hafter i m Em) as (a & m' & _ & Hm' & _ & _ & -> & _).
    - apply lookup_ge_None in Em. apply lookup_ge_None. lia. }
  rewrite (sum_need pred 0 rs), Hlr; [by destruct c|].
  intros j a Ha. assert (Hj : (j < length (single_type_managers c))%nat) by (rewrite <-Hlr; by eapply lookup_lt_Some).
  destruct (lookup_lt_is_Some_2 _ _ Hj) as [m Hm]. destruct (Hafter j m Hm) as (a' & m' & Ha' & _ & _ & _ & _ & ->).
  simpl. congruence.
Qed.


(** The free blocks that remain when a hit is taken out of the queue. *)
Lemma free_after_hit p0 p free kept :
  pool_inv p free → (∀ x, 0 ≤ x → 0 ≤ rc p0 x → rc p0 x ≤ rc p x) →
  (∀ b, 1 ≤ b < num_gpu_blocks p → 0 ≤ rc p0 b) → (∀ b, 1 ≤ b < num_gpu_blocks p → isnull p0 b = false) →
  len free - _get_num_evictable_blocks p0 kept ≤ len (filter (λ b, b ∉ kept) free).
Proof.
  intros Hp Hmono Hpos Hnull. unfold _get_num_evictable_blocks.
  assert (Hsplit : len free = len (filter (λ b, b ∉ kept) free) + len (filter (λ b, b ∈ kept) free)).
  { clear. induction free as [|x free IH]; [done|]. destruct (decide (x ∈ kept)).
    - rewrite filter_cons_False, filter_cons_True by tauto. rewrite !len_cons. lia.
    - rewrite filter_cons_True, filter_cons_False by tauto. rewrite !len_cons. lia. }
  assert (Hsub : filter (λ b, b ∈ kept) free ⊆+ filter (λ b, (rc p0 b =? 0) && negb (isnull p0 b)) kept).
  { apply NoDup_submseteq.
    - apply NoDup_filter. apply (rep_nodup _ _ (pi_rep _ _ _ Hp)).
    - intros b [Hb Hf]%list_elem_of_filter. apply list_elem_of_filter. split; [|done].
      pose proof (pi_free _ _ _ Hp b Hf) as Hr. destruct (pi_rc _ _ _ Hp b Hr) as [_ Hz]. apply Hz in Hf.
      pose proof (Hpos b Hr). pose proof (Hmono b ltac:(lia) ltac:(lia)). rewrite Hnull by done.
      assert (rc p0 b = 0) as -> by lia. done. }
  apply submseteq_length in Hsub. unfold len in *. lia.
Qed.

(** How a request meets a hit: it runs already and has none, or it is new. *)
Definition running_in (m : Manager) (id : string) : Prop := is_Some (num_cached_block m !! id).
Definition fresh_in (m : Manager) (id : string) : Prop := num_cached_block m !! id = None ∧ blocks_of m id = [].

Lemma ext_blocks_zero m row local : ext_blocks m row local 0 = 0.
Proof.
  unfold ext_blocks. cbv zeta. destruct (0 <? _ / _); [|done].
  destruct (Z.ltb_spec 0 (Z.min (local + 0 - get_num_skipped_tokens m (local + 0)) 0)); [lia|done].
Qed.

Lemma valid_hit_transfer p0 p m l :
  valid_hit p0 m l → (∀ x, 0 ≤ x → bhash p x = bhash p0 x) → num_gpu_blocks p = num_gpu_blocks p0 → valid_hit p m l.
Proof.
  intros [H1 H2 H3 H4] Hh Hn. split; try done; [by rewrite Hn|].
  intros b Hb Hb0. specialize (H1 b Hb). rewrite Hh by lia. by apply H3.
Qed.

Lemma co_computed_spec c free0 id rows local need1 :
  co_inv c free0 → all_attention c → (∀ j, 0 ≤ need1 j) →
  (∀ i m, single_type_managers c !! i = Some m → ∃ row, rows !! i = Some row ∧
     (running_in m id ∧ row = [] ∨
      fresh_in m id ∧ valid_hit (block_pool c) m (hit_kept m row local) ∧
      need1 i = _get_num_evictable_blocks (block_pool c) (hit_kept m row local))) →
  need_from need1 0 (length (single_type_managers c)) ≤ len free0 →
  ∃ p ms free', co_allocate_new_computed_blocks id rows local 0 c = (Ok tt, co_with c p ms) ∧ coord_inv p free' ms ∧
    pool_cfg p = pool_cfg (block_pool c) ∧
    len free0 - need_from need1 0 (length (single_type_managers c)) ≤ len free' ∧
    managers_rel (λ i m m', mgr_cfg m' = mgr_cfg m ∧ others_kept id m m' ∧
      (running_in m id ∧ m' = m ∨
       ∃ row, rows !! i = Some row ∧ fresh_in m id ∧ blocks_of m' id = hit_table m row local ∧ running_in m' id))
      (single_type_managers c) ms.
Proof.
  intros Hc Hall Hpos Hrows Hneed. unfold co_allocate_new_computed_blocks.
  set (p0 := block_pool c) in *.
  set (R := λ (i : nat) (m : Manager) (_ : unit) (m' : Manager), running_in m id ∧ m' = m ∨
       ∃ row, rows !! i = Some row ∧ fresh_in m id ∧ blocks_of m' id = hit_table m row local ∧ running_in m' id).
  set (st := λ p, (∀ x, 0 ≤ x → bhash p x = bhash p0 x) ∧ (∀ x, 0 ≤ x → 0 ≤ rc p0 x → rc p0 x ≤ rc p x)).
  match goal with |- ∃ p ms free', bind (each_manager ?g) _ _ = _ ∧ _ =>
    destruct (each_manager_spec g id need1 st R c free0)
      as (rs & p & ms & free' & He & Hc' & _ & Hcfg & _ & Hl & Hf & Hafter) end; try done.
  { intros j m Hm ext extU p free Hg [Hsth Hstr] Hcfg Hnj. cbv beta.
    destruct (Hrows j m Hm) as (row & Hrow & Hcase). rewrite Hrow, run_of_option, computed_base by eauto.
    assert (Hnum : num_gpu_blocks p = num_gpu_blocks p0) by (by apply pool_cfg_num).
    destruct Hcase as [[Hrun ->]|[[Hnc Hempty] [Hv Hn1]]].
    - destruct Hrun as [n Hn]. unfold base_allocate_new_computed_blocks, mget. rewrite run_gets. cbn [snd]. rewrite Hn.
      exists tt, p, m, free. specialize (Hpos j). split_and!; try done; [lia|]. left. split; [by exists n|done].
    - rewrite <-(Z.add_0_r local) in Hv, Hn1.
      assert (Hv' := valid_hit_transfer _ p _ _ Hv Hsth Hnum).
      destruct (base_allocate_new_computed_blocks_spec ext extU p free m id row local 0 Hg Hnc Hempty Hv')
        as (p' & m' & He & Hg' & Hcfg' & Hmc & Hok & Hbl & Hnc' & Hrest).
      { rewrite ext_blocks_zero. split; [lia|apply len_nonneg]. }
      rewrite ext_blocks_zero in Hg', Hbl, Hrest. change (Z.to_nat 0) with 0%nat in *. rewrite drop_0 in Hg'.
      cbn [take] in Hbl, Hrest. rewrite app_nil_r in Hbl.
      assert (Hsame : ∀ x, 0 ≤ x → rc p x ≤ rc p' x ∧ bhash p' x = bhash p x)
        by (intros x Hx; apply Hrest; [done|apply not_elem_of_nil]).
      eexists tt, p', m', _. split; [exact He|]. split; [exact Hg'|]. split; [done|].
      split; [|split_and!; try done].
      + split; intros x Hx; [|intros H0]; destruct (Hsame x Hx) as [Hr Hh]; [rewrite Hh; auto|].
        specialize (Hstr x Hx H0). lia.
      + rewrite Hn1. apply (free_after_hit p0 p); [apply Hg|done|..]; intros b Hb; rewrite Hnum in Hb.
        * by destruct (pi_rc _ _ _ (ci_pool _ _ _ Hc) b Hb).
        * unfold p0 in *. rewrite (pi_isnull _ _ _ (ci_pool _ _ _ Hc)) by lia. apply bool_decide_eq_false. lia.
      + right. exists row. rewrite Z.add_0_r in Hbl. split_and!; try done. by eexists. }
  rewrite (bind_ok _ _ _ _ _ He). exists p, ms, free'. split_and!; try done. split; [done|].
  intros i m Hm. destruct (Hafter i m Hm) as (a & m' & _ & ? & ? & ? & ?). eauto 10.
Qed.

(** Allocation: each manager's table grows to the blocks of [n] tokens. *)
Definition grown (id : string) (n : Z) (m : Manager) (new : list ref) (m' : Manager) : Prop :=
  blocks_of m' id = blocks_of m id ++ new ∧ num_cached_block m' = num_cached_block m ∧
  len (blocks_of m' id) = Z.max (cdiv n (m_bs m)) (len (blocks_of m id)).

Definition missing (id : string) (n : Z) (ms : list Manager) (i : nat) : Z :=
  match ms !! i with Some m => Z.max (cdiv n (m_bs m) - len (blocks_of m id)) 0 | None => 0 end.

Lemma co_allocate_spec c free0 id n n' enc :
  co_inv c free0 → all_attention c →
  need_from (missing id n (single_type_managers c)) 0 (length (single_type_managers c)) ≤ len free0 →
  ∃ new p ms free', co_allocate_new_blocks id n n' enc c = (Ok new, co_with c p ms) ∧ coord_inv p free' ms ∧
    pool_cfg p = pool_cfg (block_pool c) ∧ length new = length (single_type_managers c) ∧
    managers_rel (λ i m m', mgr_cfg m' = mgr_cfg m ∧ others_kept id m m' ∧
      ∃ l, new !! i = Some l ∧ grown id n m l m') (single_type_managers c) ms.
Proof.
  intros Hc Hall Hneed. unfold co_allocate_new_blocks.
  match goal with |- ∃ new p ms free', each_manager ?g _ = _ ∧ _ =>
    destruct (each_manager_spec g id (missing id n (single_type_managers c)) (λ _, True) (λ _, grown id n) c free0)
      as (rs & p & ms & free' & He & Hc' & _ & Hcfg & Hlr & Hl & Hf & Hafter) end; try done.
  { intros j. unfold missing. destruct (_ !! j); lia. }
  { intros j m Hm ext extU p free Hg _ _ Hnj. cbv beta. rewrite (not_cross m), allocate_base by eauto.
    unfold missing in Hnj |- *. rewrite Hm in Hnj |- *.
    destruct (proj1 (base_allocate_new_blocks_spec ext extU p free m id n Hg)) as (p' & m' & He & Hg' & Hcfg & (Hmc & Hnc & Hr) & _); [lia|].
    eexists _, p', m', _. split; [exact He|]. split; [exact Hg'|].
    assert (Hb : blocks_of m' id = blocks_of m id ++ take (Z.to_nat (cdiv n (m_bs m) - len (blocks_of m id))) free)
      by (unfold blocks_of; by rewrite Hr, lookup_insert_eq).
    split_and!; try done.
    - split; intros id' Hne; [by rewrite Hr, lookup_insert_ne|by rewrite Hnc].
    - unfold len in *. rewrite length_drop. lia.
    - split_and!; try done. rewrite Hb. unfold len in *. rewrite length_app, length_take. lia. }
  exists rs, p, ms, free'. split_and!; try done. split; [done|].
  intros i m Hm. destruct (Hafter i m Hm) as (a & m' & ? & ? & ? & ? & ?). eauto 10.
Qed.

(** Caching: every manager hashes the full blocks of the first [t] tokens. *)
Lemma co_cache_spec c free0 r t :
  co_inv c free0 → all_attention c → enable_caching (block_pool c) = true →
  (∀ i m, single_type_managers c !! i = Some m →
     (∃ H, hashes_ready (block_pool c) m r t H) ∧ t / m_bs m ≤ len (blocks_of m (request_id r))) →
  ∃ p ms free', co_cache_blocks r t c = (Ok tt, co_with c p ms) ∧ coord_inv p free' ms ∧
    pool_cfg p = pool_cfg (block_pool c) ∧
    managers_rel (λ _ m m', mgr_cfg m' = mgr_cfg m ∧ others_kept (request_id r) m m' ∧
      blocks_of m' (request_id r) = blocks_of m (request_id r)) (single_type_managers c) ms.
Proof.
  intros Hc Hall Hen Hready. unfold co_cache_blocks.
  destruct (each_manager_spec (λ _ _, cache_blocks r t) (request_id r) (λ _, 0) (λ _, True)
    (λ _ m _ m', blocks_of m' (request_id r) = blocks_of m (request_id r)) c free0)
    as (rs & p & ms & free' & He & Hc' & _ & Hcfg & _ & Hl & Hf & Hafter); try done.
  { rewrite need_from_zero. apply len_nonneg. }
  { intros j m Hm ext extU p free Hg _ Hcfg _. rewrite cache_base by eauto.
    destruct (Hready j m Hm) as [[H Hr] Hlen].
    destruct (base_cache_blocks_spec ext extU p free m r t H Hg) as (p' & m' & He & Hg' & Hcfg' & Hmc & Hok & Hbl & _); try done.
    - unfold pool_cfg in Hcfg. congruence.
    - destruct Hr. split; try done. unfold pool_cfg in Hcfg.
      assert (hash_block_size p = hash_block_size (block_pool c)) as -> by congruence. done.
    - eexists tt, p', m', free. split_and!; try done. lia. }
  rewrite (bind_ok _ _ _ _ _ He). exists p, ms, free'. split_and!; try done. split; [done|].
  intros i m Hm. destruct (Hafter i m Hm) as (a & m' & _ & ? & ? & ?). eauto 10.
Qed.
End coordinator_operations.
