(* ===== verification/Window.v ===== *)
(** * Blocks held inside an attention window

    ([remove_skipped_blocks] of [src/vllm/v1/core/single_type_kv_cache_manager.py]
    and [max_admission_blocks_per_request] of [src/vllm/v1/kv_cache_interface.py])

    A table of a windowed manager is a run of null blocks followed by real
    blocks ([null_prefix]).  Releasing the blocks before the window and
    allocating the next step's blocks keeps that form, and through the whole life
    of a request ([window_life]) the number of real blocks of a plain sliding
    window is bounded by the admission cap the scheduler reserves. *)
From S2P Require Import Prelude MathUtils FreeQueue Request BlockHash BlockPool KVSpec SingleType Accounting Coordinator CoordinatorInv.
Local Open Scope Z_scope.

Definition null_prefix (l : list ref) (k : nat) : Prop := ∀ j b, l !! j = Some b → b = 0 ↔ (j < k)%nat.
(** The blocks of a table that are not the null block. *)
Definition real_blocks (l : list ref) : Z := len (filter (λ b, b ≠ 0) l).

Lemma skip_loop_fills n N l k :
  (n ≤ N)%nat → (n ≤ length l)%nat → (∀ j b, l !! j = Some b → b = 0 ↔ (j < k ∨ n ≤ j < N)%nat) →
  null_prefix (skip_loop 0 n l).2 (Nat.max k N).
Proof.
  revert l. induction n as [|i IH]; intros l HN Hl Hk; simpl.
  { intros j b Hj. rewrite (Hk j b Hj). lia. }
  destruct (lookup_lt_is_Some_2 l i) as [b Hb]; [lia|]. rewrite Hb.
  destruct (Z.eqb_spec b 0) as [->|Hb0].
  { intros j b Hj. rewrite (Hk j b Hj). pose proof (proj1 (Hk i 0 Hb) eq_refl). lia. }
  specialize (IH (<[i := 0]> l)). destruct (skip_loop 0 i (<[i := 0]> l)) as [rem l']. simpl in *.
  apply IH; [lia|rewrite length_insert; lia|]. intros j x Hj.
  apply list_lookup_insert_Some in Hj as [(-> & <- & _)|[Hji Hj]]; [lia|]. rewrite (Hk j x Hj). lia.
Qed.

Lemma skip_loop_prefix n l k : (n ≤ length l)%nat → null_prefix l k → null_prefix (skip_loop 0 n l).2 (Nat.max k n).
Proof. intros Hl Hk. apply skip_loop_fills; [done|done|]. intros j b Hj. rewrite (Hk j b Hj). lia. Qed.

Lemma null_prefix_real l k : null_prefix l k → real_blocks l ≤ Z.max 0 (len l - Z.of_nat k).
Proof.
  intros Hk. unfold real_blocks. rewrite <-(take_drop k l) at 1. rewrite filter_app.
  assert (filter (λ b, b ≠ 0) (take k l) = []) as ->.
  { apply elem_of_nil_inv. intros b [Hb [j Hj]%list_elem_of_lookup]%list_elem_of_filter.
    apply lookup_take_Some in Hj as [Hj Hlt]. apply Hb. by apply (Hk j b Hj). }
  pose proof (length_filter (λ b, b ≠ 0) (drop k l)) as Hf. rewrite length_drop in Hf. unfold len in *. simpl. lia.
Qed.

Lemma cdiv_split x y b : 0 < b → cdiv (x + y) b ≤ x / b + cdiv y b + 1.
Proof.
  intros Hb. apply (cdiv_le _ _ _ Hb). pose proof (cdiv_bounds y b Hb). pose proof (Z.div_mod x b ltac:(lia)).
  pose proof (Z.mod_pos_bound x b Hb). nia.
Qed.

Section window.
Context `{env : KVEnv}.

(** One step of a request in a windowed manager: release what precedes the
    window of the [c] computed tokens, then allocate for [s] tokens. *)
Definition window_step (id : string) (c s s' : Z) : M MS (list ref) :=
  remove_skipped_blocks id c ;; allocate_new_blocks id s s'.

Lemma null_prefix_app l k new : null_prefix l k → (k ≤ length l)%nat → (∀ b, b ∈ new → b ≠ 0) → null_prefix (l ++ new) k.
Proof.
  intros Hk Hl Hn j b [Hj|[Hge Hj]]%lookup_app_Some; [by apply Hk|].
  assert (b ≠ 0) by (apply Hn, list_elem_of_lookup; eauto). lia.
Qed.

(** Releasing what precedes the window, and then the whole step. *)
Lemma window_release_spec ext extU p free m id c k :
  group_inv ext extU p free m → attention_manager m → null_prefix (blocks_of m id) k →
  let sb := get_num_skipped_tokens m c / m_bs m in 0 ≤ sb ≤ len (blocks_of m id) →
  ∃ p1 m1 free1, remove_skipped_blocks id c (p, m) = (Ok tt, (p1, m1)) ∧ group_inv ext extU p1 free1 m1 ∧ len free ≤ len free1 ∧
    mgr_cfg m1 = mgr_cfg m ∧ null_prefix (blocks_of m1 id) (Nat.max k (Z.to_nat sb)) ∧ len (blocks_of m1 id) = len (blocks_of m id).
Proof.
  intros Hg Ha Hk sb Hsb. destruct (base_remove_skipped_blocks_spec ext extU p free m id c Hg)
    as (p1 & m1 & removed & He1 & Hg1 & _ & Hmc1 & _ & _ & Hl1 & _ & Hb1). rewrite <-(remove_base m p id c Ha) in He1.
  assert (Hn : num_to_skip m id c = Z.to_nat sb) by (unfold num_to_skip; fold sb; f_equal; lia).
  exists p1, m1, (free ++ removed). split_and!; [done|done| |done| |unfold len; by rewrite Hl1].
  - rewrite len_app. pose proof (len_nonneg removed). lia.
  - rewrite Hb1, Hn. apply skip_loop_prefix; [|done]. unfold len in Hsb. lia.
Qed.
Lemma window_extend_spec ext extU p free m id s s' k :
  group_inv ext extU p free m → attention_manager m → null_prefix (blocks_of m id) k → (k ≤ length (blocks_of m id))%nat →
  (cdiv s (m_bs m) - len (blocks_of m id) ≤ len free → ∃ new p' m', allocate_new_blocks id s s' (p, m) = (Ok new, (p', m'))) ∧
  ∀ new p' m', allocate_new_blocks id s s' (p, m) = (Ok new, (p', m')) →
    (∃ free', group_inv ext extU p' free' m') ∧ mgr_cfg m' = mgr_cfg m ∧ null_prefix (blocks_of m' id) k ∧
    len (blocks_of m' id) = Z.max (len (blocks_of m id)) (cdiv s (m_bs m)).
Proof.
  intros Hg Ha Hk Hkl. destruct (base_allocate_new_blocks_spec ext extU p free m id s Hg) as [Hyes Hno]. rewrite (allocate_base m p id s s' Ha).
  destruct (Z.leb_spec (cdiv s (m_bs m) - len (blocks_of m id)) (len free)) as [Hf|Hf]; [|split; [lia|]; intros new p' m'; by rewrite (Hno Hf)].
  destruct (Hyes Hf) as (p2 & m2 & He2 & Hg2 & _ & (Hmc2 & _ & Hr2) & _). split; [by eauto|]. rewrite He2. intros ??? [= <- <- <-].
  set (new := take (Z.to_nat (cdiv s (m_bs m) - len (blocks_of m id))) free) in *.
  assert (Hb2 : blocks_of m2 id = blocks_of m id ++ new) by (unfold blocks_of; by rewrite Hr2, lookup_insert_eq).
  assert (Hnew : len new = Z.max 0 (cdiv s (m_bs m) - len (blocks_of m id))) by (unfold new, len in *; rewrite length_take; lia).
  split; [by eauto|]. split; [done|]. split; [|rewrite Hb2, len_app; lia].
  rewrite Hb2. apply null_prefix_app; [done|done|]. intros b Hb ->.
  assert (Hin : 0 ∈ free) by (eapply elem_of_take in Hb as (i & ? & _); apply list_elem_of_lookup; eauto).
  pose proof (pi_free _ _ _ (gi_pool _ _ _ _ _ Hg) 0 Hin). lia.
Qed.
Lemma window_step_spec ext extU p free m id c s s' k :
  group_inv ext extU p free m → attention_manager m → null_prefix (blocks_of m id) k → (k ≤ length (blocks_of m id))%nat →
  let sb := get_num_skipped_tokens m c / m_bs m in 0 ≤ sb ≤ len (blocks_of m id) →
  (cdiv s (m_bs m) - len (blocks_of m id) ≤ len free → ∃ new p' m', window_step id c s s' (p, m) = (Ok new, (p', m'))) ∧
  ∀ new p' m', window_step id c s s' (p, m) = (Ok new, (p', m')) →
    (∃ free', group_inv ext extU p' free' m') ∧ mgr_cfg m' = mgr_cfg m ∧ null_prefix (blocks_of m' id) (Nat.max k (Z.to_nat sb)) ∧
    len (blocks_of m' id) = Z.max (len (blocks_of m id)) (cdiv s (m_bs m)).
Proof.
  intros Hg Ha Hk Hkl sb Hsb. unfold window_step.
  destruct (window_release_spec ext extU p free m id c k Hg Ha Hk Hsb) as (p1 & m1 & free1 & He1 & Hg1 & Hf1 & Hmc1 & Hk1 & Hll).
  rewrite (bind_ok _ _ _ _ _ He1). assert (Hbs : m_bs m1 = m_bs m) by (unfold mgr_cfg in Hmc1; congruence).
  destruct (window_extend_spec ext extU p1 free1 m1 id s s' (Nat.max k (Z.to_nat sb)) Hg1) as [Hyes Hpost]; [by eapply attention_cfg|done|unfold len in *; lia|].
  rewrite Hbs, Hll in *. split; [intros Hf; apply Hyes; lia|]. intros new p' m' He. destruct (Hpost new p' m' He) as (? & ? & ? & ?).
  split_and!; [done|congruence|done|done].
Qed.

(** A request with [c] computed tokens whose table covers them and at most the
    [s] tokens of the step, [s - c] of them new, with the blocks to extend it. *)
Record step_ready (free : list ref) (m : Manager) (id : string) (k : nat) (c s mb ml : Z) : Prop := {
  sr_prefix : null_prefix (blocks_of m id) k;
  sr_k : (k ≤ length (blocks_of m id))%nat;
  sr_computed : 0 ≤ c ≤ len (blocks_of m id) * m_bs m;
  sr_table : len (blocks_of m id) ≤ cdiv s (m_bs m);
  sr_batch : s - c ≤ mb;
  sr_len : s ≤ ml;
  sr_free : cdiv s (m_bs m) - len (blocks_of m id) ≤ len free;
}.

Section sliding.
Variables (id : string) (a : AttentionSpec) (sw hv mb ml : Z).
Hypothesis window_pos : 1 ≤ sw.
Hypothesis batch_pos : 0 ≤ mb.
Hypothesis len_pos : 0 ≤ ml.
Definition sliding (m : Manager) : Prop :=
  cls m = SlidingWindowManager ∧ spec m = SlidingWindowSpec a sw hv ∧ m_bs m = a_block_size a.
(** The blocks that lie before the window of [c] tokens. *)
Definition before_window (c : Z) : Z := Z.max 0 (c - sw + 1) / a_block_size a.

(** The life of request [id] in a sliding-window manager: [window_life p m c] when
    its table was last brought to [c] computed tokens.  It starts with no table or a
    prefix-cache hit; each step computes at most [mb] tokens beyond those computed,
    within the model's length; a step may be refused after the blocks before the
    window were released; and between the steps anything may happen that leaves the
    request's table and the accounting of the pool in order. *)
Inductive window_life : BlockPool → Manager → Z → Prop :=
  | LifeStart ext extU p free m c k :
      group_inv ext extU p free m → sliding m → null_prefix (blocks_of m id) k → (k ≤ length (blocks_of m id))%nat →
      before_window c ≤ Z.of_nat k → len (blocks_of m id) * a_block_size a = c → c ≤ ml → window_life p m c
  | LifeStep p m c c' s s' new p' m' :
      window_life p m c → c ≤ c' ≤ len (blocks_of m id) * a_block_size a → s - c' ≤ mb → s ≤ ml →
      window_step id c' s s' (p, m) = (Ok new, (p', m')) → window_life p' m' c'
  | LifeRefused p m c c' p' m' :
      window_life p m c → c ≤ c' ≤ len (blocks_of m id) * a_block_size a →
      remove_skipped_blocks id c' (p, m) = (Ok tt, (p', m')) → window_life p' m' c'
  | LifeOther p m c p' m' ext extU free' :
      window_life p m c → group_inv ext extU p' free' m' → sliding m' → blocks_of m' id = blocks_of m id → window_life p' m' c.

Lemma skipped_blocks m c : sliding m → get_num_skipped_tokens m c / m_bs m = before_window c.
Proof. intros (Hcls & Hs & Hbs). unfold get_num_skipped_tokens. by rewrite Hcls, Hs, Hbs. Qed.
Lemma before_window_range c l : 0 < a_block_size a → 0 ≤ l → c ≤ l * a_block_size a → 0 ≤ before_window c ≤ l.
Proof. intros Hb Hl Hc. split; [apply Z.div_pos; lia|]. apply Z.div_le_upper_bound; [done|]. nia. Qed.
Lemma sliding_cfg m m' : mgr_cfg m' = mgr_cfg m → sliding m → sliding m'.
Proof. intros H (H1 & H2 & H3). unfold mgr_cfg in H. unfold sliding. split_and!; congruence. Qed.

(** What holds all along; [k] null blocks lead the table. *)
Record window_state (p : BlockPool) (m : Manager) (c : Z) (k : nat) : Prop := {
  ws_group : ∃ ext extU free, group_inv ext extU p free m;
  ws_sliding : sliding m;
  ws_prefix : null_prefix (blocks_of m id) k;
  ws_k : (k ≤ length (blocks_of m id))%nat;
  ws_window : before_window c ≤ Z.of_nat k;
  ws_table : len (blocks_of m id) ≤ cdiv (Z.min (c + mb) ml) (a_block_size a);
}.
Lemma table_grows c c' l : 0 < a_block_size a → c ≤ c' → l ≤ cdiv (Z.min (c + mb) ml) (a_block_size a) → l ≤ cdiv (Z.min (c' + mb) ml) (a_block_size a).
Proof. intros Hb Hc Hl. etransitivity; [exact Hl|]. apply cdiv_mono; [done|lia]. Qed.
Lemma window_refused_state p m c k c' p' m' : window_state p m c k → c ≤ c' ≤ len (blocks_of m id) * a_block_size a →
  remove_skipped_blocks id c' (p, m) = (Ok tt, (p', m')) → ∃ k', window_state p' m' c' k'.
Proof.
  intros [(e & u & free & Hg) Hs Hk Hkl Hw Ht] Hc He. pose proof (gi_bs _ _ _ _ _ Hg) as Hpos. pose proof Hs as (Hcls & _ & Hbs). rewrite Hbs in Hpos.
  pose proof (before_window_range c' _ Hpos (len_nonneg (blocks_of m id)) (proj2 Hc)) as Hb. pose proof (skipped_blocks m c' Hs) as Hsk.
  destruct (window_release_spec e u p free m id c' k Hg) as (p1 & m1 & free1 & He1 & Hg1 & _ & Hmc & Hk1 & Hl1); [right; by left|done|by rewrite Hsk|].
  rewrite Hsk in Hk1. rewrite He in He1. injection He1 as <- <-. exists (Nat.max k (Z.to_nat (before_window c'))).
  split; [by eauto|by eapply sliding_cfg|done|unfold len in *; lia|lia|]. rewrite Hl1. apply (table_grows c); [done|lia|done].
Qed.
Lemma window_step_state p m c k c' s s' new p' m' : window_state p m c k → c ≤ c' ≤ len (blocks_of m id) * a_block_size a → s - c' ≤ mb → s ≤ ml →
  window_step id c' s s' (p, m) = (Ok new, (p', m')) → ∃ k', window_state p' m' c' k'.
Proof.
  intros [(e & u & free & Hg) Hs Hk Hkl Hw Ht] Hc Hmb Hml He. pose proof (gi_bs _ _ _ _ _ Hg) as Hpos. pose proof Hs as (Hcls & _ & Hbs). rewrite Hbs in Hpos.
  pose proof (before_window_range c' _ Hpos (len_nonneg (blocks_of m id)) (proj2 Hc)) as Hb. pose proof (skipped_blocks m c' Hs) as Hsk.
  destruct (window_step_spec e u p free m id c' s s' k Hg ltac:(right; by left) Hk Hkl) as [_ Hpost]; [by rewrite Hsk|].
  destruct (Hpost new p' m' He) as ((free' & Hg1) & Hmc & Hk1 & Hl1). rewrite Hsk in Hk1. exists (Nat.max k (Z.to_nat (before_window c'))).
  split; [by eauto|by eapply sliding_cfg|done|unfold len in *; lia|lia|]. rewrite Hl1, Hbs. apply Z.max_lub; [apply (table_grows c); [done|lia|done]|].
  apply cdiv_mono; [done|lia].
Qed.
Lemma window_life_state p m c : window_life p m c → ∃ k, window_state p m c k.
Proof.
  induction 1 as [ext extU p free m c k Hg Hs Hk Hkl Hw Hc Hml|p m c c' s s' new p' m' _ [k Hw] Hc Hb Hml He
    |p m c c' p' m' _ [k Hw] Hc He|p m c p' m' ext extU free' _ [k [_ _ Hk Hkl Hw Ht]] Hg' Hs' Heq].
  - exists k. pose proof (gi_bs _ _ _ _ _ Hg) as Hpos. pose proof Hs as (_ & _ & Hbs). rewrite Hbs in Hpos. split; [by eauto|done..|].
    pose proof (cdiv_mono c (Z.min (c + mb) ml) (a_block_size a) Hpos ltac:(lia)) as Hm. subst c. by rewrite cdiv_mul in Hm by done.
  - by eapply window_step_state.
  - by eapply window_refused_state.
  - exists k. rewrite <-Heq in *. split; [by eauto|done..].
Qed.

(** C39.  A plain sliding-window manager never holds more real blocks for a request
    than the admission cap the scheduler reserves for it
    ([max_admission_blocks_per_request]), as long as no step asks for more than
    [max_num_batched_tokens] slots beyond the computed tokens (look-ahead slots
    count) and none beyond the model's length: whatever steps, refused steps and
    other changes make up the life of the request, its table is null blocks followed
    by real ones, at most as many as the cap.  And a step within these limits for
    which enough blocks are free does not fail. *)
Theorem sliding_window_stays_within_its_cap p m c :
  window_life p m c →
  (∃ k cap, null_prefix (blocks_of m id) k ∧ max_admission_blocks_per_request (spec m) mb ml = Some cap ∧ real_blocks (blocks_of m id) ≤ cap) ∧
  ∀ ext extU free c' s s', group_inv ext extU p free m → c ≤ c' ≤ len (blocks_of m id) * a_block_size a →
    cdiv s (m_bs m) - len (blocks_of m id) ≤ len free → ∃ new p' m', window_step id c' s s' (p, m) = (Ok new, (p', m')).
Proof.
  intros [k [(e & u & free0 & Hg0) Hs Hk Hkl Hw Ht]]%window_life_state. pose proof (gi_bs _ _ _ _ _ Hg0) as Hpos. pose proof Hs as (Hcls & Hspec & Hbs).
  rewrite Hbs in Hpos. split.
  - exists k, (swa_max_admission_blocks sw (a_block_size a) mb ml). split; [done|]. split; [by rewrite Hspec|].
    etransitivity; [by eapply null_prefix_real|]. unfold swa_max_admission_blocks. cbv zeta.
    assert (0 ≤ cdiv (Z.min (sw - 1 + mb) ml) (a_block_size a) + 1) by (pose proof (cdiv_nonneg (Z.min (sw - 1 + mb) ml) (a_block_size a) Hpos ltac:(lia)); lia).
    unfold before_window in Hw. set (x := Z.max 0 (c - sw + 1)) in *. pose proof (cdiv_split x (Z.min (c + mb) ml - x) (a_block_size a) Hpos) as Hsplit.
    replace (x + (Z.min (c + mb) ml - x)) with (Z.min (c + mb) ml) in Hsplit by lia.
    pose proof (cdiv_mono (Z.min (c + mb) ml - x) (Z.min (sw - 1 + mb) ml) (a_block_size a) Hpos ltac:(lia)). lia.
  - intros ext extU free c' s s' Hg Hc Hfree. pose proof (before_window_range c' _ Hpos (len_nonneg (blocks_of m id)) (proj2 Hc)) as Hb.
    pose proof (skipped_blocks m c' Hs) as Hsk.
    destruct (window_step_spec ext extU p free m id c' s s' k Hg ltac:(right; by left) Hk Hkl) as [Hyes _]; [by rewrite Hsk|]. by apply Hyes.
Qed.
End sliding.

(** So does a chunked-local-attention manager whose chunk size is a
    multiple of its block size. *)
Theorem chunked_local_stays_within_its_cap ext extU p free m id k c s s' mb ml a ch :
  group_inv ext extU p free m → cls m = ChunkedLocalAttentionManager → spec m = ChunkedLocalAttentionSpec a ch →
  m_bs m = a_block_size a → 0 < ch → (a_block_size a | ch) → step_ready free m id k c s mb ml →
  ∃ new p' m' k' cap, window_step id c s s' (p, m) = (Ok new, (p', m')) ∧
    max_admission_blocks_per_request (spec m) mb ml = Some cap ∧
    null_prefix (blocks_of m' id) k' ∧ real_blocks (blocks_of m' id) ≤ cap.
Proof.
  intros Hg Hcls Hs Hbs Hch [q Hq] [H1 H2 H3 H4 H5 H6 H7]. pose proof (gi_bs _ _ _ _ _ Hg) as Hpos. rewrite <-Hbs in Hq.
  assert (Hsk : get_num_skipped_tokens m c = c / ch * ch) by (unfold get_num_skipped_tokens; by rewrite Hcls, Hs).
  pose proof (Z.div_pos c ch ltac:(lia) Hch) as Hcc. pose proof (Z.div_mod c ch ltac:(lia)) as Hdm.
  pose proof (Z.mod_pos_bound c ch Hch) as Hmod.
  assert (Hsb : c / ch * ch / m_bs m = c / ch * q) by (rewrite Hq, Z.mul_assoc; apply Z.div_mul; lia).
  destruct (window_step_spec ext extU p free m id c s s' k Hg ltac:(right; by right) H1 H2) as [Hyes Hpost].
  { rewrite Hsk. split; [apply Z.div_pos; nia|]. apply Z.div_le_upper_bound; nia. }
  destruct (Hyes H7) as (new & p' & m' & He). destruct (Hpost new p' m' He) as (_ & _ & Hk' & Hl').
  eexists new, p', m', _, (chunked_max_admission_blocks ch (a_block_size a) mb ml). split_and!; [done|by rewrite Hs|exact Hk'|].
  pose proof (null_prefix_real _ _ Hk') as Hr. etransitivity; [exact Hr|]. rewrite Hl', Hsk, Hsb, (Z.max_r (len _) (cdiv _ _)) by done. unfold chunked_max_admission_blocks. cbv zeta. rewrite <-Hbs.
  assert (Hq0 : 0 ≤ c / ch * q) by nia. assert (Hin : c / ch * q ≤ len (blocks_of m id)) by (rewrite <-Hsb; apply Z.div_le_upper_bound; nia).
  rewrite (Z.max_r 0) by (unfold len in *; lia).
  etransitivity; [|apply (cdiv_mono (s - c / ch * q * m_bs m)); [done|]].
  { rewrite <-cdiv_sub_mul by done. lia. }
  assert (c / ch * q * m_bs m = c / ch * ch) by (rewrite Hq; ring). nia.
Qed.
End window.

(* ===================================================================== *)
(** ** Witnesses and the limits of the cap                                *)
(* ===================================================================== *)

Definition test_manager_of (s : KVCacheSpec) (c : manager_class) (mb ml : Z) (p : BlockPool) : Manager :=
  SingleTypeKVCacheManager_init c s p true 0 1 1 (max_admission_blocks_per_request s mb ml).

Lemma new_manager_inv p free s c cap gid :
  pool_inv p free → enable_caching p = true → (∀ b, 1 ≤ b < num_gpu_blocks p → rc p b = 0) → 0 < block_size s → 0 ≤ gid < 2 ^ 32 →
  group_inv (λ _, 0) (λ _, False) p free (SingleTypeKVCacheManager_init c s p true gid 1 1 cap).
Proof.
  intros Hp Hca Hrc Hbs Hg. split; simpl; try done.
  - apply (pi_null _ _ _ Hp).
  - by rewrite Hca.
Qed.

Lemma test_pool_free b : 1 ≤ b < num_gpu_blocks test_pool → rc test_pool b = 0.
Proof. intros Hb. apply (pi_rc _ _ _ test_pool_inv b Hb). change (num_gpu_blocks test_pool) with 4 in Hb. set_solver by lia. Qed.

(** A window of three tokens over blocks of two: four tokens of a new request,
    then two more. *)
Definition test_window_manager : Manager := test_manager_of test_window_spec SlidingWindowManager 4 100 test_pool.

Abbreviation test_life := (@window_life test_env "r" (test_attention 2) 3 128 4 100).
Lemma test_window_group : group_inv (λ _, 0) (λ _, False) test_pool [1; 2; 3] test_window_manager.
Proof. apply new_manager_inv; [exact test_pool_inv|reflexivity|exact test_pool_free|reflexivity|split; [lia|reflexivity]]. Qed.
Lemma test_window_life : test_life test_pool test_window_manager 0.
Proof. apply (LifeStart _ _ _ _ _ _ _ _ _ _ _ _ 0 test_window_group); done. Qed.
Lemma sliding_window_stays_within_its_cap_witness :
  ∃ new p' m' k cap, @window_step test_env "r" 0 4 4 (test_pool, test_window_manager) = (Ok new, (p', m')) ∧
    max_admission_blocks_per_request test_window_spec 4 100 = Some cap ∧
    null_prefix (blocks_of m' "r") k ∧ real_blocks (blocks_of m' "r") ≤ cap.
Proof.
  destruct (@sliding_window_stays_within_its_cap test_env "r" (test_attention 2) 3 128 4 100 ltac:(lia) ltac:(lia) ltac:(lia) _ _ _ test_window_life) as [_ Hstep].
  destruct (Hstep _ _ _ 0 4 4 test_window_group) as (new & p' & m' & He); [vm_compute; split; discriminate|vm_compute; discriminate|].
  assert (Hl : test_life p' m' 0).
  { apply (LifeStep _ _ _ _ _ _ _ _ _ _ _ _ _ _ _ test_window_life) in He; [exact He|vm_compute; split; discriminate|lia|lia]. }
  destruct (@sliding_window_stays_within_its_cap test_env "r" (test_attention 2) 3 128 4 100 ltac:(lia) ltac:(lia) ltac:(lia) _ _ _ Hl) as [(k & cap & Hk & Hcap & Hr) _].
  exists new, p', m', k, cap. split; [exact He|]. split; [|split; [exact Hk|exact Hr]]. assert (Hs : sliding (test_attention 2) 3 128 m').
  { pose proof Hl as Hl'. eapply window_life_state in Hl' as (? & [_ Hs _ _ _ _]); [exact Hs|lia..]. }
  destruct Hs as (_ & Hs & _). rewrite Hs in Hcap. exact Hcap.
Defined.

Definition test_chunked_spec (ch bs : Z) : KVCacheSpec := ChunkedLocalAttentionSpec (test_attention bs) ch.
Definition test_chunked_manager : Manager := test_manager_of (test_chunked_spec 4 2) ChunkedLocalAttentionManager 4 100 test_pool.

Lemma chunked_local_stays_within_its_cap_witness :
  ∃ new p' m' k' cap, @window_step test_env "r" 0 4 4 (test_pool, test_chunked_manager) = (Ok new, (p', m')) ∧
    max_admission_blocks_per_request (test_chunked_spec 4 2) 4 100 = Some cap ∧
    null_prefix (blocks_of m' "r") k' ∧ real_blocks (blocks_of m' "r") ≤ cap.
Proof.
  apply (@chunked_local_stays_within_its_cap test_env (λ _, 0) (λ _, False) test_pool [1; 2; 3] test_chunked_manager "r" 0 0 4 4 4 100
           (test_attention 2) 4).
  - apply new_manager_inv; [exact test_pool_inv|reflexivity|exact test_pool_free|reflexivity|split; [lia|reflexivity]].
  - reflexivity.
  - reflexivity.
  - reflexivity.
  - lia.
  - by exists 2.
  - split; try (vm_compute; split; discriminate || discriminate); try (vm_compute; discriminate); try (vm_compute; lia).
Defined.

(** The steps of one request from a new manager: computed tokens and slots. *)
Fixpoint window_steps `{env : KVEnv} (id : string) (steps : list (Z * Z)) : M MS unit :=
  match steps with
  | [] => ret tt
  | (c, s) :: rest => window_step id c s s ;; window_steps id rest
  end.
Definition held_after (s : KVCacheSpec) (c : manager_class) (mb : Z) (n : Z) (steps : list (Z * Z)) : option Z :=
  match BlockPool_init n true 2 false with
  | Ok p => let '(r, (_, m)) := @window_steps test_env "r" steps (p, test_manager_of s c mb 100 p) in
            match r with Ok _ => Some (real_blocks (blocks_of m "r")) | Raise _ => None end
  | Raise _ => None
  end.

(** The cap of chunked local attention is too small when the chunk size is
    not a multiple of the block size: with chunks of 6 tokens, blocks of 4 and
    steps of at most 2 tokens, a request holds three real blocks at its last
    step although two are reserved for it. *)
Theorem chunked_cap_is_exceeded :
  max_admission_blocks_per_request (test_chunked_spec 6 4) 2 100 = Some 2 ∧
  held_after (test_chunked_spec 6 4) ChunkedLocalAttentionManager 2 10
    [(0, 2); (2, 4); (4, 6); (6, 8); (8, 10); (10, 11); (11, 13)] = Some 3.
Proof. split; vm_compute; reflexivity. Qed.

(** The caps do not count look-ahead slots: with a window of 9 tokens,
    blocks of 4, steps of at most 8 scheduled tokens and 3 look-ahead slots, a
    sliding-window request holds six real blocks although five are reserved. *)
Theorem lookahead_exceeds_the_cap :
  max_admission_blocks_per_request (SlidingWindowSpec (test_attention 4) 9 128) 8 100 = Some 5 ∧
  held_after (SlidingWindowSpec (test_attention 4) 9 128) SlidingWindowManager 8 10 [(0, 3 + 3); (3, 11 + 3); (11, 19 + 3)] = Some 6.
Proof. split; vm_compute; reflexivity. Qed.
