(* ===== verification/HybridHit.v ===== *)
(** * The hit common to all attention groups

    [HybridKVCacheCoordinator.find_longest_cache_hit] iterates over the
    attention groups until no group shortens the candidate.  What it needs of a
    manager class is the interface [CacheHitLaws]; full attention, sliding
    window, chunked local attention and Mamba implement it, and [EagleHitLaws]
    (the last block is dropped) all of them but Mamba and chunked local
    attention.  The theorem on the iteration is proved against the interfaces. *)
From S2P Require Import Prelude MathUtils FreeQueue Request BlockHash BlockPool KVSpec SingleType Accounting Coordinator.
Local Open Scope Z_scope.

(* ===================================================================== *)
(** ** The interface of the managers                                      *)
(* ===================================================================== *)

(** A row of [n] entries, each the null block or the block of its hash. *)
Definition sound_row (p : BlockPool) (H : BlockHashList) (n : nat) (g : Z) (row : list ref) : Prop :=
  length row = n ∧ ∀ j, (j < n)%nat → row !! j = Some (null_block p) ∨ hit_in p H g row j.

(** The first of the [n] blocks of a hit that the next token needs: with full
    attention all of them, with a sliding window those of the window, with chunked
    local attention those of its chunk, and with Mamba the last one. *)
Definition first_needed (s : KVCacheSpec) (n : Z) : Z :=
  if isa_FullAttentionSpec s then 0
  else match s with
       | SlidingWindowSpec a sw _ | SlidingWindowMLASpec a sw _ _ => n - cdiv (sw - 1) (a_block_size a)
       | ChunkedLocalAttentionSpec a ch => n * a_block_size a / ch * ch / a_block_size a
       | MambaSpec _ => n - 1
       | _ => n
       end.
(** A row that can be resumed from: the blocks the next token needs are cached ones. *)
Definition usable_row (s : KVCacheSpec) (p : BlockPool) (H : BlockHashList) (n : nat) (g : Z) (row : list ref) : Prop :=
  sound_row p H n g row ∧ ∀ j, first_needed s (Z.of_nat n) ≤ Z.of_nat j < Z.of_nat n → hit_in p H g row j.

Definition groups_ok (gs : list Z) : Prop := Forall (λ g, 0 ≤ g < 2 ^ 32) gs ∧ gs ≠ [].

(** A lookup returns, for each group, a usable row of the same aligned length
    within [max_length], one block less under EAGLE. *)
Definition hit_law (c : manager_class) (s : KVCacheSpec) (al : Z) (eagle : bool) : Prop :=
  ∀ p free gs H max_length,
    pool_inv p free → groups_ok gs → 0 ≤ max_length → max_length / block_size s ≤ len (bh_list H) →
    ∃ n rows, find_longest_cache_hit c H max_length gs p s eagle al 1 1 = Ok rows ∧
      Forall2 (usable_row s p H n) gs rows ∧ (Z.of_nat n * block_size s) mod al = 0 ∧
      Z.of_nat n ≤ max_length / block_size s ∧
      (eagle = true → n = 0%nat ∨ Z.of_nat n + 1 ≤ max_length / block_size s).

Class CacheHitLaws (c : manager_class) (s : KVCacheSpec) (al : Z) : Prop := {
  chl_block_size : 0 < block_size s;
  chl_find : hit_law c s al false;
}.
Class EagleHitLaws (c : manager_class) (s : KVCacheSpec) (al : Z) : Prop := {
  ehl_base :: CacheHitLaws c s al;
  ehl_find : hit_law c s al true;
}.

Lemma row_hits_usable s p H g row n max :
  row_hits p g (take n (take max (bh_list H))) row → (n ≤ max)%nat → (n ≤ length (bh_list H))%nat →
  usable_row s p H n g row.
Proof.
  intros Hrow Hn Hl. rewrite take_take, Nat.min_l in Hrow by done.
  pose proof (Forall2_length _ _ _ Hrow) as Hlen. rewrite length_take_le in Hlen by done.
  cut (∀ j, (j < n)%nat → hit_in p H g row j). { intros Hall. split; [split; [lia|]|intros; apply Hall; lia]. intros j Hj. right. by apply Hall. }
  intros j Hj.
  destruct (lookup_lt_is_Some_2 (take n (bh_list H)) j) as [h Hh]; [rewrite length_take; lia|].
  destruct (Forall2_lookup_l _ _ _ _ _ Hrow Hh) as (b & Hb & Hhit). exists h, b. split_and!; [|done|done].
  rewrite lookup_take_lt in Hh by lia. destruct H as [l|B]; simpl in *.
  - rewrite py_nth_nonneg, Nat2Z.id by lia. by rewrite Hh.
  - unfold bhl_iter in Hh. apply list_lookup_fmap_Some in Hh as (z & -> & Hz%lookup_seqZ).
    f_equal. f_equal. lia.
Qed.

Lemma full_hit_law s al eagle :
  isa_FullAttentionSpec s = true → 0 < block_size s → 0 < al → hit_law FullAttentionManager s al eagle.
Proof.
  intros Hs Hbs Hal p free gs H max_length Hp [Hgs Hne] Hml Hlen.
  destruct (full_hit_spec p free gs Hp Hgs Hne H max_length s eagle al 1 1)
    as (k & n & rows & He & Hk & _ & _ & HF & Hn & Hmod & _ & _); [done..|].
  simpl in He, Hk, HF, Hmod. rewrite length_take in Hk. unfold len in Hlen.
  assert (Hnk : (n ≤ k)%nat) by (destruct eagle; lia).
  pose proof (Z.div_pos max_length (block_size s) Hml Hbs).
  exists n, rows. split; [exact He|]. split.
  { eapply Forall2_impl; [exact HF|]. intros g row Hrow. eapply row_hits_usable; [exact Hrow|lia..]. }
  split; [done|]. split; [lia|]. intros ->. simpl in Hn. destruct (decide (n = 0%nat)); [by left|right]. lia.
Qed.

#[export] Instance full_laws s al :
  TCEq (isa_FullAttentionSpec s) true → ∀ (Hbs : 0 < block_size s) (Hal : 0 < al),
  EagleHitLaws FullAttentionManager s al.
Proof.
  intros Hs%TCEq_eq Hbs Hal. split; [split; [done|]|]; by apply full_hit_law.
Qed.

Lemma window_block_size s a sw : window_of s = Some (a, sw) → block_size s = a_block_size a.
Proof. destruct s; simpl; congruence. Qed.

Lemma swa_hit_law s a sw al eagle :
  window_of s = Some (a, sw) → 0 < block_size s → 1 ≤ sw → 0 < al → hit_law SlidingWindowManager s al eagle.
Proof.
  intros Hs Hbs Hsw Hal p free gs H max_length Hp [Hgs Hne] Hml Hlen.
  rewrite (window_block_size _ _ _ Hs) in *.
  destruct (swa_find_spec p free gs Hp Hgs Hne H max_length s a sw eagle al)
    as (n & i & rows & He & HF & Hn & Hmod & Hi & Heagle); [done..|].
  exists n, rows. split; [exact He|]. split_and!; try done.
  eapply Forall2_impl; [exact HF|]. intros g row (Hl & Hnull & Hhit). split; [split; [done|]|].
  - intros j Hj. destruct (decide (j < i)%nat); [left; auto|right; apply Hhit; lia].
  - intros j Hj. apply Hhit. assert (Hf : first_needed s (Z.of_nat n) = Z.of_nat n - cdiv (sw - 1) (a_block_size a))
      by (clear -Hs; destruct s; simpl in Hs; by simplify_eq). rewrite Hf in Hj. lia.
Qed.

Lemma swa_laws s a sw al :
  window_of s = Some (a, sw) → 0 < block_size s → 1 ≤ sw → 0 < al → EagleHitLaws SlidingWindowManager s al.
Proof. intros. split; [split; [done|]|]; by eapply swa_hit_law. Qed.

Lemma mamba_laws f al : 0 < m_block_size f → 0 < al → CacheHitLaws MambaManager (MambaSpec f) al.
Proof.
  intros Hbs Hal. split; [done|]. intros p free gs H max_length Hp [Hgs Hne] Hml Hlen. simpl in *.
  pose proof (Z.div_pos max_length (m_block_size f) Hml Hbs) as Hq.
  destruct (mamba_loop_spec p free gs Hp Hgs Hne H (m_block_size f) al (Z.to_nat (max_length / m_block_size f)))
    as [(i & rows & Hi & He & [Hmod _] & _ & HF)|[He _]]; [done|lia| |].
  - exists (S i), rows. split; [exact He|]. split.
    { eapply Forall2_impl; [exact HF|]. intros g row (Hl & Hhit & Hnull). split; [split; [done|]|].
      - intros j Hj. destruct (decide (j = i)) as [->|]; [by right|left; apply Hnull; lia].
      - intros j Hj. unfold first_needed in Hj. simpl in Hj. by assert (j = i) as -> by lia. }
    split; [rewrite <-Hmod; f_equal; lia|]. split; [lia|done].
  - exists 0%nat, (map (λ _, []) gs). split; [exact He|]. split; [|split_and!; [by rewrite Z.mod_0_l by lia|lia|done]].
    clear Hgs Hne He. induction gs; simpl; constructor; [|done]. split; [split; [done|lia]|intros j Hj; lia].
Qed.

Lemma append_sound p H n h g row b :
  sound_row p H n g row → bh_at H (Z.of_nat n) = Ok h → hit_at p g h b → sound_row p H (S n) g (row ++ [b]).
Proof.
  intros [Hl Hs] Hh Hb. split; [rewrite length_app; simpl; lia|]. intros j Hj.
  destruct (decide (j = n)) as [->|Hjn].
  - right. exists h, b. split_and!; [done| |done]. rewrite lookup_app_r by lia. by rewrite Hl, Nat.sub_diag.
  - rewrite lookup_app_l by lia. destruct (Hs j) as [?|(h' & b' & ? & ? & ?)]; [lia|by left|right].
    exists h', b'. by rewrite lookup_app_l by lia.
Qed.

(** A sound row whose blocks from [s] on are hits. *)
Definition row_from (p : BlockPool) (H : BlockHashList) (s n : nat) (g : Z) (row : list ref) : Prop :=
  sound_row p H n g row ∧ ∀ j, (s ≤ j < n)%nat → hit_in p H g row j.
Lemma append_from p H s n h g row b :
  row_from p H s n g row → bh_at H (Z.of_nat n) = Ok h → hit_at p g h b → row_from p H s (S n) g (row ++ [b]).
Proof.
  intros [Hs Hf] Hh Hb. pose proof Hs as [Hl _]. split; [by eapply append_sound|]. intros j Hj. destruct (decide (j = n)) as [->|Hjn].
  - exists h, b. split_and!; [done| |done]. rewrite lookup_app_r by lia. by rewrite Hl, Nat.sub_diag.
  - destruct (Hf j) as (h' & b' & ? & ? & ?); [lia|]. exists h', b'. by rewrite lookup_app_l by lia.
Qed.
Lemma scan_hits_at_spec p free gs H s k m rows :
  pool_inv p free → groups_ok gs → Forall2 (row_from p H s m) gs rows → Z.of_nat m + Z.of_nat k ≤ len (bh_list H) →
  ∃ n rows', scan_hits_at p gs (hashes_from H (Z.of_nat m) k) rows = Ok rows' ∧ (m ≤ n ≤ m + k)%nat ∧
    Forall2 (row_from p H s n) gs rows'.
Proof.
  intros Hp [Hgs Hne]. revert m rows. induction k as [|k IH]; intros m rows HF Hl; simpl.
  { exists m, rows. split; [done|]. split; [lia|done]. }
  destruct (bh_at_in_range H (Z.of_nat m)) as (h & Hh); [lia|]. rewrite Hh.
  destruct (lookup_hit_spec p free gs Hp Hgs Hne h) as [(bs & -> & Hb)|[-> _]].
  2:{ exists m, rows. split; [done|]. split; [lia|done]. }
  replace (Z.of_nat m + 1) with (Z.of_nat (S m)) by lia.
  destruct (IH (S m) (append_each rows bs)) as (n & rows' & He & Hn & HF').
  { clear IH Hgs Hne. unfold append_each. revert bs Hb.
    induction HF as [|g row gs rows Hrow _ IH]; intros bs Hb; inversion Hb; subst; simpl; constructor; [|auto].
    by eapply append_from. }
  { lia. }
  exists n, rows'. split; [done|]. split; [lia|done].
Qed.

Lemma chunked_laws a chunk :
  0 < a_block_size a → 0 < chunk → (a_block_size a | chunk) →
  CacheHitLaws ChunkedLocalAttentionManager (ChunkedLocalAttentionSpec a chunk) (a_block_size a).
Proof.
  intros Hbs Hch [q Hq]. split; [done|]. intros p free gs H max_length Hp Hg Hml Hlen. simpl in *.
  rewrite Z.eqb_refl. cbn [negb orb]. set (bs := a_block_size a) in *.
  set (start := (if 0 <? max_length then max_length / chunk * chunk else 0) / bs).
  assert (Hst : 0 ≤ start ≤ max_length / bs).
  { unfold start. pose proof (Z.mul_div_le max_length chunk Hch). pose proof (Z.div_pos max_length chunk Hml Hch).
    destruct (0 <? max_length); split;
      [apply Z.div_pos; nia|apply Z.div_le_mono; lia|apply Z.div_pos; lia|apply Z.div_le_mono; lia]. }
  destruct (scan_hits_at_spec p free gs H (Z.to_nat start) (Z.to_nat (max_length / bs - start)) (Z.to_nat start)
              (map (λ _, py_replicate start (null_block p)) gs)) as (n & rows & He & Hn & HF); [done|done| |lia|].
  { clear Hg. unfold py_replicate. induction gs; simpl; constructor; [|done]. split; [split; [apply length_replicate|]|intros j Hj; lia].
    intros j Hj. left. by apply lookup_replicate_2. }
  rewrite Z2Nat.id in He by lia. exists n, rows. split; [exact He|]. split_and!; [|apply Z_mod_mult|lia|done].
  eapply Forall2_impl; [exact HF|]. intros g row [Hs Hf]. split; [done|]. intros j Hj. apply Hf. split; [|lia].
  unfold first_needed in Hj. simpl in Hj. fold bs in Hj. assert (Hn0 : start ≤ Z.of_nat n) by lia.
  assert (Hstart : start = max_length / chunk * q).
  { unfold start. destruct (Z.ltb_spec 0 max_length) as [Hpos|Hz]; [by rewrite Hq, Z.mul_assoc, Z.div_mul by lia|].
    assert (max_length = 0) as -> by lia. rewrite (Z.div_0_l chunk) by lia. by rewrite Z.div_0_l by lia. }
  assert (Hch2 : max_length / chunk ≤ Z.of_nat n * bs / chunk) by (apply Z.div_le_lower_bound; nia).
  rewrite Hq, Z.mul_assoc, Z.div_mul in Hj by lia. rewrite <-Hq in Hj. nia.
Qed.

(* ===================================================================== *)
(** ** The iteration                                                      *)
(* ===================================================================== *)

Section iteration.
Variables (p : BlockPool) (free : list ref) (hashes : list bytes) (max lcm hbs : Z) (eagle_idx : list nat).
Variables (ags : list attention_group) (num_groups : nat).
(** The view of the hashes at the block size of each group. *)
Variable view : attention_group → BlockHashList.
Hypothesis Hp : pool_inv p free.
Hypothesis Hmax : 0 ≤ max.
Hypothesis Hlcm : 0 < lcm.

(** What is asked of each attention group. *)
Record group_ok (idx : nat) (a : attention_group) : Prop := {
  go_laws : CacheHitLaws (manager_cls a) (ag_spec a) lcm;
  go_eagle : idx ∈ eagle_idx → EagleHitLaws (manager_cls a) (ag_spec a) lcm;
  go_ids : groups_ok (group_ids a) ∧ NoDup (group_ids a) ∧ ∀ g, g ∈ group_ids a → 0 ≤ g < Z.of_nat num_groups;
  go_lcm : (block_size (ag_spec a) | lcm);
  go_view : hashes_at hbs hashes (block_size (ag_spec a)) = Ok (view a);
  go_enough : max / block_size (ag_spec a) ≤ len (bh_list (view a));
}.

(** The rows of a group in [hb]: usable, and of [n] blocks. *)
Definition stored (a : attention_group) (n : nat) (hb : list (option (list ref))) : Prop :=
  ∀ g, g ∈ group_ids a → ∃ row, hb !! Z.to_nat g = Some (Some row) ∧ usable_row (ag_spec a) p (view a) n g row.

Lemma store_hits_spec (P : Z → list ref → Prop) gids rows hb :
  Forall2 P gids rows → NoDup gids → (∀ x, x ∈ gids → 0 ≤ x < len hb) →
  length (store_hits gids rows hb) = length hb ∧
  (∀ g, g ∈ gids → ∃ row, store_hits gids rows hb !! Z.to_nat g = Some (Some row) ∧ P g row) ∧
  (∀ g, 0 ≤ g → g ∉ gids → store_hits gids rows hb !! Z.to_nat g = hb !! Z.to_nat g).
Proof.
  intros HF. revert hb. induction HF as [|g0 row gids rows Hrow _ IH]; intros hb Hnd Hr; simpl.
  { split_and!; [done|by intros g ?%not_elem_of_nil|done]. }
  apply NoDup_cons in Hnd as [Hg0 Hnd]. pose proof (Hr g0 ltac:(by left)) as Hr0.
  destruct (IH (<[Z.to_nat g0 := Some row]> hb) Hnd) as (Hl & Hin & Hout).
  { intros x Hx. unfold len. rewrite length_insert. apply Hr. by right. }
  rewrite length_insert in Hl. split_and!; [done| |].
  - intros g [->|Hg]%elem_of_cons; [|by apply Hin]. exists row. split; [|done].
    rewrite Hout by (done || lia). apply list_lookup_insert_eq. unfold len in Hr0. lia.
  - intros g Hg Hng. rewrite Hout by set_solver. apply list_lookup_insert_ne.
    intros Heq. apply Hng. assert (g = g0) as -> by lia. by left.
Qed.

(** Before a group is checked: not looked up yet, or stored with enough blocks. *)
Definition ready (a : attention_group) (st : hit_state) : Prop :=
  (∀ g, g ∈ group_ids a → hit_blocks_by_group st !! Z.to_nat g = Some None) ∨
  (lcm | curr_hit_length st) ∧
  ∃ n, stored a n (hit_blocks_by_group st) ∧ curr_hit_length st ≤ Z.of_nat n * block_size (ag_spec a).

Definition state_ok (st : hit_state) : Prop :=
  0 ≤ curr_hit_length st ≤ max ∧ length (hit_blocks_by_group st) = num_groups.

Lemma sound_rows_hit_blocks a n rows :
  groups_ok (group_ids a) → Forall2 (usable_row (ag_spec a) p (view a) n) (group_ids a) rows → hit_blocks rows = Z.of_nat n.
Proof.
  intros [_ Hne] HF. destruct HF as [|g row gs rows [[Hl _] _] _]; [done|]. simpl. unfold len. by rewrite Hl.
Qed.

Lemma lookup_group idx a max_length eagle :
  group_ok idx a → 0 ≤ max_length ≤ max → (eagle = true → idx ∈ eagle_idx) →
  ∃ n rows, find_longest_cache_hit (manager_cls a) (view a) max_length (group_ids a) p (ag_spec a) eagle lcm 1 1 = Ok rows ∧
    Forall2 (usable_row (ag_spec a) p (view a) n) (group_ids a) rows ∧ (lcm | Z.of_nat n * block_size (ag_spec a)) ∧
    Z.of_nat n * block_size (ag_spec a) ≤ max_length ∧
    (eagle = true → n = 0%nat ∨ (Z.of_nat n + 1) * block_size (ag_spec a) ≤ max_length).
Proof.
  intros Hok Hml Hidx. pose proof (chl_block_size (CacheHitLaws := go_laws _ _ Hok)) as Hbs.
  assert (Hlaw : hit_law (manager_cls a) (ag_spec a) lcm eagle).
  { destruct eagle; [apply (go_eagle _ _ Hok); auto|apply (go_laws _ _ Hok)]. }
  destruct (Hlaw p free (group_ids a) (view a) max_length) as (n & rows & He & HF & Hmod & Hn & Heg);
    [done|apply (go_ids _ _ Hok)|lia| |].
  { etrans; [|apply (go_enough _ _ Hok)]. apply Z.div_le_mono; lia. }
  pose proof (Z.mul_div_le max_length _ Hbs).
  exists n, rows. split_and!; [done|done|by apply Z.mod_divide; [lia|]|nia|].
  intros Hue. destruct (Heg Hue); [by left|right; nia].
Qed.

Lemma check_group_spec idx a st :
  group_ok idx a → state_ok st → ready a st →
  ∃ st' n, check_group p hashes max lcm hbs eagle_idx idx a st = Ok st' ∧ state_ok st' ∧
    curr_hit_length st' ≤ curr_hit_length st ∧ (lcm | curr_hit_length st') ∧
    stored a n (hit_blocks_by_group st') ∧ curr_hit_length st' ≤ Z.of_nat n * block_size (ag_spec a) ∧
    (is_full_group a = false → Z.of_nat n * block_size (ag_spec a) = curr_hit_length st') ∧
    (∀ g, 0 ≤ g → g ∉ group_ids a →
       hit_blocks_by_group st' !! Z.to_nat g = hit_blocks_by_group st !! Z.to_nat g).
Proof.
  intros Hok [Hc Hlen] Hready. pose proof (chl_block_size (CacheHitLaws := go_laws _ _ Hok)) as Hbs.
  destruct (go_ids _ _ Hok) as (Hgok & Hnd & Hrange). set (bs := block_size (ag_spec a)) in *.
  unfold check_group. fold bs. cbv zeta.
  destruct (group_ids a) as [|g0 gs] eqn:Eids; [by destruct Hgok|]. cbn [head]. rewrite <-Eids in *.
  assert (Hg0 : g0 ∈ group_ids a) by (rewrite Eids; by left).
  destruct (isa_FullAttentionSpec (ag_spec a) && is_some (hit_blocks_by_group st !!! Z.to_nat g0)) eqn:Efull.
  - apply andb_true_iff in Efull as [Ef Ec].
    destruct Hready as [Hfresh|(Hdiv & n & Hst & Hn)].
    { rewrite (list_lookup_total_correct _ _ _ (Hfresh g0 Hg0)) in Ec. done. }
    eexists _, n. split; [reflexivity|]. unfold state_ok. cbn [curr_hit_length hit_blocks_by_group].
    assert (Hb : (bs | curr_hit_length st)) by (etrans; [apply (go_lcm _ _ Hok)|done]).
    assert (curr_hit_length st / bs * bs = curr_hit_length st) as ->.
    { destruct Hb as [z ->]. by rewrite Z.div_mul by lia. }
    split_and!; try done; lia || (unfold is_full_group; by rewrite Ef).
  - set (ue := bool_decide (idx ∈ eagle_idx) && negb (bool_decide (idx ∈ eagle_verified st))).
    set (ml := if ue then Z.min (curr_hit_length st + bs) max else curr_hit_length st).
    pose proof (go_view _ _ Hok) as Hview. fold bs in Hview. rewrite Hview.
    destruct (lookup_group idx a ml ue Hok) as (n & rows & He & HF & Hdiv & Hn & Heg).
    { unfold ml. destruct ue; lia. }
    { unfold ue. intros [Hi _]%andb_true_iff. by apply bool_decide_eq_true in Hi. }
    rewrite He, (sound_rows_hit_blocks a n) by done. fold bs in Hdiv, Hn, Heg |- *.
    destruct (store_hits_spec _ _ _ (hit_blocks_by_group st) HF Hnd) as (Hl & Hin & Hout).
    { intros x Hx. unfold len. rewrite Hlen. by apply Hrange. }
    eexists _, n. split; [reflexivity|]. unfold state_ok. cbn [curr_hit_length hit_blocks_by_group].
    assert (Hle : Z.of_nat n * bs ≤ curr_hit_length st).
    { unfold ml in Hn, Heg. destruct ue; [|lia]. destruct (Heg eq_refl) as [->|?]; nia. }
    split_and!; try done; nia.
Qed.

(** One pass over the groups [l], numbered from [idx]. *)
Lemma check_groups_spec l idx st :
  (∀ i a, l !! i = Some a → group_ok (idx + i) a) → NoDup (concat (map group_ids l)) → state_ok st →
  (∀ a, a ∈ l → ready a st) →
  ∃ st', check_groups p hashes max lcm hbs eagle_idx idx l st = Ok st' ∧ state_ok st' ∧
    curr_hit_length st' ≤ curr_hit_length st ∧ (l ≠ [] → (lcm | curr_hit_length st')) ∧
    (∀ a, a ∈ l → ∃ n, stored a n (hit_blocks_by_group st') ∧
       curr_hit_length st' ≤ Z.of_nat n * block_size (ag_spec a) ∧
       (is_full_group a = false → curr_hit_length st' = curr_hit_length st ∨ last l = Some a →
        Z.of_nat n * block_size (ag_spec a) = curr_hit_length st')) ∧
    (∀ g, 0 ≤ g → g ∉ concat (map group_ids l) →
       hit_blocks_by_group st' !! Z.to_nat g = hit_blocks_by_group st !! Z.to_nat g).
Proof.
  revert idx st. induction l as [|a l IH]; intros idx st Hok Hnd Hst Hready; simpl.
  { exists st. split_and!; try done; [apply Hst..|by intros a ?%not_elem_of_nil]. }
  simpl in Hnd. apply NoDup_app in Hnd as (Hnda & Hdisj & Hndl).
  destruct (check_group_spec idx a st) as (st1 & n & He & Hst1 & Hle & Hdiv & Hsto & Hn & Hex & Hfr);
    [by rewrite <-(Nat.add_0_r idx); apply Hok|done|apply Hready; by left|].
  rewrite He. destruct (IH (S idx) st1) as (st' & He' & Hst' & Hle' & Hdiv' & Hall & Hfr').
  { intros i b Hb. replace (S idx + i)%nat with (idx + S i)%nat by lia. by apply Hok. }
  { done. }
  { done. }
  { intros b Hb. assert (Hout : ∀ g, g ∈ group_ids b → hit_blocks_by_group st1 !! Z.to_nat g = hit_blocks_by_group st !! Z.to_nat g).
    { intros g Hg. apply list_elem_of_lookup in Hb as [i Hi].
      apply Hfr; [by eapply (go_ids _ _ (Hok (S i) b Hi))|]. intros Hga. apply (Hdisj g Hga).
      apply list_elem_of_In, in_concat. exists (group_ids b). split; [|by apply list_elem_of_In].
      apply in_map, list_elem_of_In, list_elem_of_lookup. eauto. }
    destruct (Hready b) as [Hf|(_ & m & Hm & Hml)]; [by right| |].
    - left. intros g Hg. rewrite Hout by done. by apply Hf.
    - right. split; [done|]. exists m. split; [|lia]. intros g Hg. rewrite Hout by done. by apply Hm. }
  exists st'. split_and!; [done|apply Hst'..|lia| | |].
  - intros _. destruct l as [|b l]; [|by apply Hdiv']. simpl in He'. by injection He' as <-.
  - intros b [->|Hb]%elem_of_cons.
    + exists n. split.
      { intros g Hg. destruct (Hsto g Hg) as (row & Hrow & Hs). exists row. split; [|done]. rewrite Hfr', Hrow; [done| |].
        - eapply (go_ids _ _ (Hok 0%nat a eq_refl)). done.
        - by apply Hdisj. }
      split; [lia|]. intros Hf [Heq|Hlast]; [rewrite Hex by done; lia|].
      destruct l as [|b l]; [simpl in He'; injection He' as <-; by apply Hex|].
      (* the same group cannot occur again *)
      exfalso. rewrite last_cons_cons in Hlast. apply last_Some_elem_of in Hlast.
      destruct (go_ids _ _ (Hok 0%nat a eq_refl)) as ([_ Hne] & _). destruct (group_ids a) as [|g gs] eqn:Eg; [done|].
      apply (Hdisj g); [by left|]. apply list_elem_of_In, in_concat. exists (group_ids a).
      split; [by apply in_map, list_elem_of_In|]. rewrite Eg. by left.
    + destruct (Hall b Hb) as (m & Hm & Hml & Hmx). exists m. split; [done|]. split; [done|].
      intros Hf [Heq|Hlast]; apply Hmx; try done; [left; lia|right].
      destruct l; [by apply not_elem_of_nil in Hb|done].
  - intros g Hg Hng. rewrite Hfr', Hfr by set_solver. done.
Qed.

Lemma truncate_spec (k : Z) (gids : list Z) (hb : list (option (list ref))) :
  NoDup gids → (∀ g, g ∈ gids → 0 ≤ g) →
  let hb' := foldl (λ hb g, alter (fmap (λ l : list ref, slice_to l k)) (Z.to_nat g) hb) hb gids in
  (∀ g, g ∈ gids → hb' !! Z.to_nat g = fmap (λ l, slice_to l k) <$> hb !! Z.to_nat g) ∧
  (∀ g, 0 ≤ g → g ∉ gids → hb' !! Z.to_nat g = hb !! Z.to_nat g).
Proof.
  revert hb. induction gids as [|g0 gids IH]; intros hb Hnd Hpos; simpl.
  { split; [by intros g ?%not_elem_of_nil|done]. }
  apply NoDup_cons in Hnd as [Hg0 Hnd]. assert (Hp0 := Hpos g0 ltac:(by left)).
  assert (Hpos' : ∀ g, g ∈ gids → 0 ≤ g) by (intros g Hg; apply Hpos; by right).
  destruct (IH (alter (fmap (λ l, slice_to l k)) (Z.to_nat g0) hb) Hnd Hpos') as [Hin Hout].
  assert (Hne : ∀ g, 0 ≤ g → g ≠ g0 → alter (fmap (λ l, slice_to l k)) (Z.to_nat g0) hb !! Z.to_nat g = hb !! Z.to_nat g).
  { intros g Hg Hgne. apply list_lookup_alter_ne. lia. }
  split.
  - intros g [->|Hg]%elem_of_cons.
    + rewrite Hout by done. apply list_lookup_alter_eq.
    + rewrite Hin by done. rewrite Hne; [done|auto|]. intros ->. done.
  - intros g Hg Hng. rewrite Hout by set_solver. apply Hne; set_solver.
Qed.

Lemma sound_row_take H n m g row : sound_row p H n g row → (m ≤ n)%nat → sound_row p H m g (take m row).
Proof.
  intros [Hl Hs] Hm. split; [rewrite length_take; lia|]. intros j Hj. rewrite lookup_take_lt by lia.
  destruct (Hs j) as [?|(h & b & ? & ? & ?)]; [lia|by left|right]. exists h, b. by rewrite lookup_take_lt by lia.
Qed.

Lemma usable_row_take s H n m g row : isa_FullAttentionSpec s = true → usable_row s p H n g row → (m ≤ n)%nat → usable_row s p H m g (take m row).
Proof.
  intros Hs [Hr Hf] Hm. split; [by apply (sound_row_take _ n)|]. unfold first_needed in *. rewrite Hs in *. intros j Hj.
  destruct (Hf j) as (h & b & ? & ? & ?); [lia|]. exists h, b. by rewrite lookup_take_lt by lia.
Qed.

Hypothesis Hok : ∀ i a, ags !! i = Some a → group_ok i a.
Hypothesis Hdistinct : NoDup (concat (map group_ids ags)).
Hypothesis Hsome : ags ≠ [].

Lemma hit_loop_spec fuel simple L hb ev :
  (Z.to_nat L < fuel)%nat → (simple = true → ∃ f o, ags = [f; o] ∧ is_full_group f = true) →
  (∀ a, a ∈ ags → ready a (mkHitState L hb ev)) → state_ok (mkHitState L hb ev) →
  ∃ hit hb', hit_loop p hashes max lcm hbs eagle_idx fuel ags simple L hb ev = Ok (hit, hb') ∧
    0 ≤ hit ≤ L ∧ (lcm | hit) ∧ length hb' = num_groups ∧
    ∀ a, a ∈ ags → ∃ n, stored a n hb' ∧ hit ≤ Z.of_nat n * block_size (ag_spec a) ∧
      (is_full_group a = false → Z.of_nat n * block_size (ag_spec a) = hit).
Proof.
  revert L hb ev. induction fuel as [|fuel IH]; intros L hb ev Hfuel Hsimple Hready Hst; [lia|]. simpl.
  destruct (check_groups_spec ags 0 (mkHitState L hb ev)) as (st & He & Hst' & Hle & Hdiv & Hall & _); [done..|].
  rewrite He. specialize (Hdiv Hsome). cbn [curr_hit_length] in Hle, Hall.
  destruct Hst' as [Hc' Hl']. destruct (Z.leb_spec L (curr_hit_length st)) as [Hge|Hlt].
  - assert (curr_hit_length st = L) as Heq by lia. rewrite Heq in *.
    exists L, (hit_blocks_by_group st). split_and!; try done; [lia..|]. intros a Ha.
    destruct (Hall a Ha) as (n & ? & ? & Hex). exists n. split_and!; [done..|]. intros Hf. apply Hex; auto.
  - destruct simple.
    + destruct (Hsimple eq_refl) as (f & o & Hags & Hf). exists (curr_hit_length st), (hit_blocks_by_group st).
      split_and!; try done; [lia..|]. intros a Ha. destruct (Hall a Ha) as (n & ? & ? & Hex). exists n.
      split_and!; [done..|]. intros Hnf. apply Hex; [done|]. right. rewrite Hags in Ha |- *. simpl.
      apply elem_of_cons in Ha as [->|Ha%list_elem_of_singleton]; [congruence|by subst].
    + destruct (IH (curr_hit_length st) (hit_blocks_by_group st) (eagle_verified st)) as (hit & hb' & He' & Hh & ?).
      * lia.
      * done.
      * intros a Ha. destruct (Hall a Ha) as (n & ? & ? & _). right. split; [done|]. exists n. done.
      * done.
      * exists hit, hb'. split; [done|]. split; [lia|done].
Qed.

(** C29.  Hybrid models: where each manager class honours the lookup interface (for
    the groups subject to the EAGLE drop, that it drops, which Mamba and chunked
    local attention do not) and at most the first attention group is full attention,
    the iteration over the attention groups terminates and returns a length that is
    within [max_cache_hit_length], a multiple of the alignment, and shared by all
    groups: every group's list has exactly the blocks of that length, each the null
    block or the cached block of its hash, and the blocks that the next token needs
    (all of them with full attention, those of the window or the chunk, the last
    state with Mamba) are cached ones. *)
Theorem hybrid_hit_is_shared_by_all_groups :
  (∀ i a, ags !! i = Some a → is_full_group a = true → i = 0%nat) →
  ∃ rows hit, hybrid_find_longest_cache_hit p hashes max lcm hbs eagle_idx num_groups ags = Ok (rows, hit) ∧
    0 ≤ hit ≤ max ∧ (lcm | hit) ∧
    ∀ a g, a ∈ ags → g ∈ group_ids a →
      ∃ row, rows !! Z.to_nat g = Some row ∧ len row * block_size (ag_spec a) = hit ∧
        usable_row (ag_spec a) p (view a) (length row) g row.
Proof.
  intros Hfirst. unfold hybrid_find_longest_cache_hit.
  set (simple := (len ags =? 2) && _).
  destruct (hit_loop_spec (S (S (Z.to_nat max))) simple max (replicate num_groups None) [])
    as (hit & hb & -> & Hhit & Hdiv & Hlen & Hall).
  { lia. }
  { unfold simple. intros [Hl Hf]%andb_true_iff. bool_to_prop. unfold len in Hl.
    destruct ags as [|f [|o [|]]]; simpl in Hl; try lia. eauto. }
  { intros a Ha. left. intros g Hg. apply list_elem_of_lookup in Ha as [i Hi].
    apply lookup_replicate_2. destruct (go_ids _ _ (Hok i a Hi)) as (_ & _ & Hr). specialize (Hr g Hg). lia. }
  { split; [done|]. apply length_replicate. }
  eexists _, hit. split; [reflexivity|]. split; [done|]. split; [done|].
  intros a g Ha Hg. destruct (Hall a Ha) as (n & Hst & Hn & Hex). destruct (Hst g Hg) as (row & Hrow & Hs).
  apply list_elem_of_lookup in Ha as [i Hi]. pose proof (Hok i a Hi) as Hgo.
  pose proof (chl_block_size (CacheHitLaws := go_laws _ _ Hgo)) as Hbs. set (bs := block_size (ag_spec a)) in *.
  destruct (go_ids _ _ Hgo) as (_ & Hnd & Hpos).
  assert (Hb : (bs | hit)) by (etrans; [apply (go_lcm _ _ Hgo)|done]). destruct Hb as [k Hk].
  (* the list stored for the group after the truncation *)
  assert (Hrow' : ∃ row', truncate_full ags hit hb !! Z.to_nat g = Some (Some row') ∧ usable_row (ag_spec a) p (view a) (Z.to_nat k) g row').
  { unfold truncate_full. destruct (is_full_group a) eqn:Ef.
    - pose proof (Hfirst i a Hi Ef) as ->. destruct ags as [|a0 ags']; [done|]. simpl in Hi. injection Hi as ->.
      rewrite Ef. destruct (truncate_spec (hit / bs) (group_ids a) hb Hnd) as [Hin _]; [intros x Hx; by apply Hpos|].
      fold bs. rewrite Hin, Hrow by done. simpl. eexists. split; [reflexivity|].
      rewrite Hk, Z.div_mul by lia. unfold slice_to, slice_bound. rewrite (proj2 (Z.ltb_ge _ _)) by nia.
      pose proof Hs as [[Hl _] _]. unfold len. rewrite Hl, Z.min_l by nia. apply (usable_row_take _ _ n); [done|done|nia].
    - assert (Hs' : usable_row (ag_spec a) p (view a) (Z.to_nat k) g row).
      { specialize (Hex eq_refl). replace (Z.to_nat k) with n by nia. done. }
      exists row. split; [|done]. destruct ags as [|a0 ags']; [done|]. destruct (is_full_group a0) eqn:Ef0; [|done].
      destruct i as [|i]; [simpl in Hi; congruence|].
      destruct (truncate_spec (hit / block_size (ag_spec a0)) (group_ids a0) hb) as [_ Hout].
      + apply (go_ids _ _ (Hok 0%nat a0 eq_refl)).
      + intros x Hx. by apply (go_ids _ _ (Hok 0%nat a0 eq_refl)).
      + rewrite Hout; [done|by apply Hpos|]. intros Hga0. simpl in Hdistinct.
        apply NoDup_app in Hdistinct as (_ & Hdisj & _). apply (Hdisj g Hga0).
        apply list_elem_of_In, in_concat. exists (group_ids a). split; [|by apply list_elem_of_In].
        apply in_map, list_elem_of_In, list_elem_of_lookup. by exists i. }
  destruct Hrow' as (row' & Hl' & Hs'). exists row'.
  rewrite (list_lookup_fmap (default [])), Hl'. simpl. pose proof Hs' as [[Hlen' _] _]. unfold len. rewrite Hlen'.
  split_and!; [done|nia|done].
Qed.
End iteration.

(** A pool that also holds the last block of the request for group 1. *)
Definition test_hybrid_pool : BlockPool :=
  (@cache_full_blocks test_env (hashed_request [5; 6; 7; 8; 9]) [0; 3] 0 2 2 1 test_cached_pool).2.
Lemma test_hybrid_pool_inv : pool_inv test_hybrid_pool [1; 2; 3].
Proof.
  assert (Hc : @cacheable test_env test_cached_pool (hashed_request [5; 6; 7; 8; 9]) [0; 3] 0 2 2 test_hashes).
  { split.
    - vm_compute. split; congruence.
    - vm_compute. reflexivity.
    - vm_compute. split; congruence.
    - lia.
    - vm_compute. split_and!; [eauto|discriminate|constructor|exact I].
    - apply memo_empty. vm_compute. reflexivity.
    - change (∀ b, b ∈ [0; 3] → 0 ≤ b < 4). set_solver by lia.
    - change (NoDup [3]). apply NoDup_singleton.
    - change (∀ b, b ∈ [0; 3] → bhash test_cached_pool b = None).
      intros b [->|[->|[]%not_elem_of_nil]%elem_of_cons]%elem_of_cons; vm_compute; reflexivity. }
  destruct (@cache_full_blocks_spec test_env test_cached_pool [1; 2; 3] (hashed_request [5; 6; 7; 8; 9]) [0; 3] 0 2 2 1 _
              test_cached_pool_inv ltac:(lia) Hc) as (p' & He & Hp' & _).
  unfold test_hybrid_pool. by rewrite He.
Qed.

Definition test_full_spec : KVCacheSpec := FullAttentionSpec (test_attention 2) 128 None None.
Definition test_attention_groups : list attention_group :=
  [mkAttentionGroup test_full_spec [0] FullAttentionManager;
   mkAttentionGroup test_window_spec [1] SlidingWindowManager].

Lemma hybrid_hit_is_shared_by_all_groups_witness :
  let hs := block_hashes (hashed_request [5; 6; 7; 8; 9]) in
  hybrid_find_longest_cache_hit test_hybrid_pool hs 5 2 2 [] 2 test_attention_groups = Ok ([[1; 2]; [0; 3]], 4) ∧
  ∃ rows hit, hybrid_find_longest_cache_hit test_hybrid_pool hs 5 2 2 [] 2 test_attention_groups = Ok (rows, hit) ∧
    0 ≤ hit ≤ 5 ∧ (2 | hit) ∧
    ∀ a g, a ∈ test_attention_groups → g ∈ group_ids a →
      ∃ row, rows !! Z.to_nat g = Some row ∧ len row * block_size (ag_spec a) = hit ∧
        usable_row (ag_spec a) test_hybrid_pool (PlainHashes hs) (length row) g row.
Proof.
  intros hs. split; [vm_compute; reflexivity|].
  assert (Hids : ∀ g : Z, 0 ≤ g < 2 → groups_ok [g] ∧ NoDup [g] ∧ ∀ x, x ∈ [g] → 0 ≤ x < Z.of_nat 2).
  { intros g Hg. assert (g < 2 ^ 32) by (change (2 ^ 32) with 4294967296; lia).
    split; [split; [apply Forall_singleton; split; [lia|done]|done]|]. split; [apply NoDup_singleton|].
    intros x ->%list_elem_of_singleton. lia. }
  assert (Hview : hashes_at 2 hs 2 = Ok (PlainHashes hs)) by reflexivity.
  assert (Hen : 5 / 2 ≤ len hs) by (vm_compute; discriminate).
  apply (hybrid_hit_is_shared_by_all_groups test_hybrid_pool [1; 2; 3] hs 5 2 2 [] test_attention_groups 2
           (λ _, PlainHashes hs) test_hybrid_pool_inv); [lia|lia| | |done|].
  - intros [|[|i]] a Ha; [| |done]; simpl in Ha; injection Ha as <-.
    + pose proof (full_laws test_full_spec 2 (TCEq_refl _) ltac:(reflexivity) ltac:(lia)) as Hl.
      split; [apply Hl|done|by apply Hids|by exists 1|exact Hview|exact Hen].
    + pose proof (swa_laws test_window_spec _ _ 2 eq_refl ltac:(reflexivity) ltac:(lia) ltac:(lia)) as Hl.
      split; [apply Hl|done|by apply Hids|by exists 1|exact Hview|exact Hen].
  - change (NoDup [0; 1]). apply NoDup_cons. split; [set_solver|apply NoDup_singleton].
  - intros [|[|i]] a Ha; simpl in Ha; [done|injection Ha as <-; discriminate|done].
Defined.
