(* ===== verification/KVCacheManager.v ===== *)
(** * The KV-cache manager ([src/vllm/v1/core/kv_cache_manager.py])

    [KVCacheManager] is the scheduler's interface to the KV cache: looking up
    prefix-cache hits, allocating slots for a step of a request, caching and
    freeing.  [KVCacheBlocks] distinguishes the pre-constructed empty object of
    the manager, which [allocate_slots] compares by identity, from a new one.
    The prefix-cache statistics ([vllm/v1/metrics/stats.py]) are part of the
    state. *)
From S2P Require Import Prelude MathUtils FreeQueue Request BlockHash BlockPool KVSpec SingleType Accounting Coordinator HybridHit.
Local Open Scope Z_scope.

(* ===================================================================== *)
(** ** Statistics                                                         *)
(* ===================================================================== *)

Record PrefixCacheStats := mkPrefixCacheStats {
  pcs_reset : bool;
  requests : Z;
  queries : Z;
  hits : Z;
  preempted_requests : Z;
  preempted_queries : Z;
  preempted_hits : Z;
}.
Definition new_PrefixCacheStats : PrefixCacheStats := mkPrefixCacheStats false 0 0 0 0 0 0.

Definition record_stats (num_tokens num_hits : Z) (preempted : bool) (s : PrefixCacheStats) : PrefixCacheStats :=
  if preempted then
    mkPrefixCacheStats (pcs_reset s) (requests s) (queries s) (hits s) (preempted_requests s + 1)
      (preempted_queries s + num_tokens) (preempted_hits s + num_hits)
  else
    mkPrefixCacheStats (pcs_reset s) (requests s + 1) (queries s + num_tokens) (hits s + num_hits)
      (preempted_requests s) (preempted_queries s) (preempted_hits s).
Definition reset_stats (s : PrefixCacheStats) : PrefixCacheStats :=
  mkPrefixCacheStats true (requests s) (queries s) (hits s) (preempted_requests s) (preempted_queries s)
    (preempted_hits s).

(* ===================================================================== *)
(** ** KVCacheBlocks                                                      *)
(* ===================================================================== *)

(** The allocation result: the manager's empty object, or a new object. *)
Inductive KVCacheBlocks : Type :=
  | EmptyKVCacheBlocks
  | MkKVCacheBlocks (blocks : list (list ref)).

(** [self.blocks], for a manager of [n] groups. *)
Definition kb_blocks (n : nat) (k : KVCacheBlocks) : list (list ref) :=
  match k with EmptyKVCacheBlocks => replicate n [] | MkKVCacheBlocks bs => bs end.
(** [__add__]. *)
Definition kb_add (n : nat) (k1 k2 : KVCacheBlocks) : KVCacheBlocks :=
  MkKVCacheBlocks (zip_with app (kb_blocks n k1) (kb_blocks n k2)).
(** [get_block_ids]. *)
Definition kb_get_block_ids (p : BlockPool) (n : nat) (allow_none : bool) (k : KVCacheBlocks) :
    option (list (list Z)) :=
  if allow_none && forallb (λ g, len g =? 0) (kb_blocks n k) then None
  else Some (map (map (blk_id p)) (kb_blocks n k)).
(** [get_unhashed_block_ids] and [get_unhashed_block_ids_all_groups]. *)
Definition kb_get_unhashed_block_ids (p : BlockPool) (n : nat) (k : KVCacheBlocks) : res (list Z) :=
  match kb_blocks n k with
  | [g] => Ok (map (blk_id p) (filter (λ b, is_none (bhash p b)) g))
  | _ => Raise AssertionError
  end.
Definition kb_get_unhashed_block_ids_all_groups (p : BlockPool) (n : nat) (k : KVCacheBlocks) : list (list Z) :=
  map (λ g, map (blk_id p) (filter (λ b, is_none (bhash p b) && negb (isnull p b)) g)) (kb_blocks n k).
(** [new_empty]. *)
Definition kb_new_empty (n : nat) (k : KVCacheBlocks) : KVCacheBlocks :=
  MkKVCacheBlocks (map (λ _, []) (kb_blocks n k)).

(* ===================================================================== *)
(** ** KVCacheManager                                                     *)
(* ===================================================================== *)

Record KVCacheManager := mkKVCacheManager {
  km_max_model_len : Z;
  km_enable_caching : bool;
  log_stats : bool;
  prefix_cache_stats : option PrefixCacheStats;
  coordinator : Coordinator;
  num_kv_cache_groups : nat;
}.
#[export] Instance eta_KVCacheManager : Eta KVCacheManager := λ k,
  mkKVCacheManager (km_max_model_len k) (km_enable_caching k) (log_stats k) (prefix_cache_stats k)
    (coordinator k) (num_kv_cache_groups k).
#[export] Instance set_prefix_cache_stats : Setter prefix_cache_stats.
Proof. build_setter. Defined.
#[export] Instance set_coordinator : Setter coordinator.
Proof. build_setter. Defined.

Definition KVCacheManager_init (cfg : KVCacheConfig) (max_model_len hash_block_size : Z)
    (max_num_batched_tokens : option Z) (enable_caching use_eagle log_stats enable_kv_cache_events : bool)
    (dcp pcp : Z) : res KVCacheManager :=
  match get_kv_cache_coordinator cfg max_model_len (default max_model_len max_num_batched_tokens) use_eagle
          enable_caching enable_kv_cache_events dcp pcp hash_block_size with
  | Raise e => Raise e
  | Ok c =>
      Ok (mkKVCacheManager max_model_len enable_caching log_stats
            (if log_stats then Some new_PrefixCacheStats else None) c (length (kv_cache_groups cfg)))
  end.

Section operations.
Context `{env : KVEnv}.
Abbreviation K := (M KVCacheManager).

Definition via_coordinator {A} (f : M Coordinator A) : K A := zoom coordinator (λ c k, k <| coordinator := c |>) f.
Definition via_pool {A} (f : M BlockPool A) : K A :=
  via_coordinator (zoom block_pool (λ p c, c <| block_pool := p |>) f).

Definition usage (k : KVCacheManager) : Z * Z := get_usage (block_pool (coordinator k)).

Definition make_prefix_cache_stats : K (option PrefixCacheStats) :=
  k <- get ;;
  if negb (log_stats k) then ret None
  else put (k <| prefix_cache_stats := Some new_PrefixCacheStats |>) ;; ret (prefix_cache_stats k).

Definition create_kv_cache_blocks (blocks : list (list ref)) : KVCacheBlocks :=
  if existsb (λ g, 0 <? len g) blocks then MkKVCacheBlocks blocks else EmptyKVCacheBlocks.

Definition get_computed_blocks (request : Request) : K (KVCacheBlocks * Z) :=
  k <- get ;;
  if negb (km_enable_caching k) || skip_reading_prefix_cache request then ret (EmptyKVCacheBlocks, 0)
  else
    hit <- of_res (co_find_longest_cache_hit (coordinator k) (block_hashes request) (num_tokens request - 1)) ;;
    (when (log_stats k) do
       match prefix_cache_stats k with
       | None => raise AssertionError
       | Some s => modify (λ k, k <| prefix_cache_stats :=
                     Some (record_stats (num_tokens request) hit.2 (0 <? num_preemptions request) s) |>)
       end) ;;
    ret (create_kv_cache_blocks hit.1, hit.2).

Definition allocate_slots (request : Request) (num_new_tokens num_new_computed_tokens : Z)
    (new_computed_blocks : option KVCacheBlocks) (num_lookahead_tokens num_external_computed_tokens : Z)
    (delay_cache_blocks : bool) (num_encoder_tokens : Z) (full_sequence_must_fit : bool) :
    K (option KVCacheBlocks) :=
  if (num_new_tokens =? 0) && (num_external_computed_tokens =? 0) then raise ValueError
  else
    k <- get ;;
    let id := request_id request in
    let new_computed := default EmptyKVCacheBlocks new_computed_blocks in
    let new_computed_block_list := kb_blocks (num_kv_cache_groups k) new_computed in
    let num_local_computed_tokens := num_computed_tokens request + num_new_computed_tokens in
    let total_computed_tokens :=
      Z.min (num_local_computed_tokens + num_external_computed_tokens) (km_max_model_len k) in
    let full_num_tokens := Z.min (num_tokens request) (km_max_model_len k) in
    fits <- (if full_sequence_must_fit then
               n <- via_coordinator (co_get_num_blocks_to_allocate id full_num_tokens new_computed_block_list
                          num_encoder_tokens total_computed_tokens full_num_tokens true) ;;
               k <- get ;;
               ret (n <=? get_num_free_blocks (block_pool (coordinator k)))
             else ret true) ;;
    if negb fits then ret None
    else
      let num_tokens_main_model := total_computed_tokens + num_new_tokens in
      let num_tokens_need_slot := Z.min (num_tokens_main_model + num_lookahead_tokens) (km_max_model_len k) in
      via_coordinator (co_remove_skipped_blocks id total_computed_tokens) ;;
      num_blocks_to_allocate <-
        via_coordinator (co_get_num_blocks_to_allocate id num_tokens_need_slot new_computed_block_list num_encoder_tokens
              (num_local_computed_tokens + num_external_computed_tokens) num_tokens_main_model false) ;;
      k <- get ;;
      if get_num_free_blocks (block_pool (coordinator k)) <? num_blocks_to_allocate then ret None
      else
        (when (match new_computed with EmptyKVCacheBlocks => false | _ => true end
               || (0 <? num_external_computed_tokens)) do
           via_coordinator (co_allocate_new_computed_blocks id new_computed_block_list num_local_computed_tokens
                 num_external_computed_tokens)) ;;
        new_blocks <- via_coordinator (co_allocate_new_blocks id num_tokens_need_slot num_tokens_main_model num_encoder_tokens) ;;
        if negb (km_enable_caching k) || delay_cache_blocks then ret (Some (create_kv_cache_blocks new_blocks))
        else
          let num_tokens_to_cache := Z.min (total_computed_tokens + num_new_tokens) (num_tokens request) in
          via_coordinator (co_cache_blocks request num_tokens_to_cache) ;;
          ret (Some (create_kv_cache_blocks new_blocks)).

Definition km_free (request : Request) : K unit := via_coordinator (co_free (request_id request)).
Definition km_remove_skipped_blocks (request_id : string) (total_computed_tokens : Z) : K unit :=
  via_coordinator (co_remove_skipped_blocks request_id total_computed_tokens).
Definition km_evict_blocks (block_ids : list Z) : K unit := via_pool (evict_blocks block_ids).

Definition km_reset_prefix_cache : K bool :=
  ok <- via_pool reset_prefix_cache ;;
  if negb ok then ret false
  else
    k <- get ;;
    (when (log_stats k) do
       match prefix_cache_stats k with
       | None => raise AssertionError
       | Some s => modify (λ k, k <| prefix_cache_stats := Some (reset_stats s) |>)
       end) ;;
    ret true.

Definition km_get_num_common_prefix_blocks (running_request_id : string) : K (list Z) :=
  via_coordinator (co_get_num_common_prefix_blocks running_request_id).
Definition km_take_events : K (list KVCacheEvent) := via_pool take_kv_events.
Definition km_get_blocks (k : KVCacheManager) (request_id : string) : KVCacheBlocks :=
  create_kv_cache_blocks (co_get_blocks (coordinator k) request_id).
Definition km_get_block_ids (k : KVCacheManager) (request_id : string) : option (list (list Z)) :=
  kb_get_block_ids (block_pool (coordinator k)) (num_kv_cache_groups k) false (km_get_blocks k request_id).
Definition km_cache_blocks (request : Request) (num_computed_tokens : Z) : K unit :=
  k <- get ;;
  when (km_enable_caching k) do via_coordinator (co_cache_blocks request num_computed_tokens).
Definition km_take_new_block_ids : K (list Z) :=
  ids <- via_coordinator (each_manager (λ _ _, take_new_block_ids)) ;; ret (concat ids).
Definition km_new_step_starts : K unit := via_coordinator co_new_step_starts.
End operations.
