(* ===== verification/KVManagerInv.v ===== *)
(** * Slot allocation is safe ([src/vllm/v1/core/kv_cache_manager.py])

    [allocate_slots] predicts the number of blocks it will take, compares it
    with the free blocks and then takes them, manager by manager.  The lemmas
    below relate the prediction to what is taken, so that no step of
    [allocate_slots] can fail once the check has passed, and carry the
    invariant [coord_inv] through it; [km_free] returns every block.  The groups
    are attention groups, and no tokens are computed externally. *)
From S2P Require Import Prelude MathUtils FreeQueue Request BlockHash BlockPool KVSpec SingleType Accounting Coordinator CoordinatorInv HybridHit KVCacheManager.
Local Open Scope Z_scope.

(** The configuration of a manager is what its predictions depend on. *)
Lemma cfg_fields m m' : mgr_cfg m' = mgr_cfg m →
  cls m' = cls m ∧ spec m' = spec m ∧ m_bs m' = m_bs m ∧ m_enable_caching m' = m_enable_caching m ∧
  _max_admission_blocks_per_request m' = _max_admission_blocks_per_request m ∧ _null_block m' = _null_block m.
Proof. unfold mgr_cfg. intros. split_and!; congruence. Qed.
Lemma cfg_skipped m m' t : mgr_cfg m' = mgr_cfg m → get_num_skipped_tokens m' t = get_num_skipped_tokens m t.
Proof. intros (H1 & H2 & _)%cfg_fields. unfold get_num_skipped_tokens. by rewrite H1, H2. Qed.
Lemma cfg_hit_kept m m' row t : mgr_cfg m' = mgr_cfg m → hit_kept m' row t = hit_kept m row t.
Proof. intros Hm. unfold hit_kept. rewrite (cfg_skipped _ _ _ Hm). destruct (cfg_fields _ _ Hm) as (_ & _ & -> & _). done. Qed.

(** A window or chunk has at least one token. *)
Definition window_ok (m : Manager) : Prop :=
  match spec m with
  | SlidingWindowSpec _ sw _ | SlidingWindowMLASpec _ sw _ _ => 1 ≤ sw
  | ChunkedLocalAttentionSpec _ c => 1 ≤ c
  | _ => True
  end.

Lemma skipped_bounds m t : attention_manager m → window_ok m → 0 ≤ t → 0 ≤ get_num_skipped_tokens m t ≤ t.
Proof.
  unfold window_ok, get_num_skipped_tokens. intros [-> | [-> | ->]] Hw Ht; [lia|destruct (spec m); lia|].
  destruct (spec m); try lia. pose proof (Z.div_mod t attention_chunk_size ltac:(lia)).
  pose proof (Z.mod_pos_bound t attention_chunk_size ltac:(lia)).
  pose proof (Z.div_pos t attention_chunk_size Ht ltac:(lia)). nia.
Qed.

Lemma len_hit_table m row t :
  attention_manager m → window_ok m → 0 < m_bs m → 0 ≤ t →
  len (hit_table m row t) = Z.max (get_num_skipped_tokens m t / m_bs m) (len row).
Proof.
  intros Ha Hw Hbs Ht. pose proof (skipped_bounds m t Ha Hw Ht) as [Hs _].
  pose proof (Z.div_pos _ _ Hs Hbs) as Hsb. unfold hit_table. cbv zeta.
  set (sb := _ / _) in *. rewrite len_app. unfold py_replicate, len. rewrite length_replicate.
  destruct (Z.ltb_spec 0 sb); [rewrite slice_from_nonneg, length_drop by lia|]; lia.
Qed.

Section slots.
Context `{env : KVEnv}.
Variables (r : Request) (local n : Z) (rows : list (list ref)) (called : bool).
Abbreviation id := (request_id r).

(** How the request stands with one manager: it has an entry of cached blocks
    and no new hit; it has no entry (caching is off or delayed) and its table
    holds the computed tokens; or it is new and brings a hit. *)
Definition slot_case (p : BlockPool) (m : Manager) (row : list ref) : Prop :=
  (running_in m id ∧ row = []) ∨
  (called = false ∧ num_cached_block m !! id = None ∧ row = [] ∧ local ≤ len (blocks_of m id) * m_bs m) ∨
  (called = true ∧ fresh_in m id ∧ valid_hit p m (hit_kept m row local)).

Definition slots_ready (p : BlockPool) (ms : list Manager) : Prop :=
  ∀ i m, ms !! i = Some m → window_ok m ∧ ∃ row, rows !! i = Some row ∧ slot_case p m row.

(** The two parts of the prediction: free blocks the hit takes out of the
    queue, and blocks to be allocated. *)
Definition need_hit (p : BlockPool) (m : Manager) (row : list ref) : Z :=
  match num_cached_block m !! id with
  | Some _ => 0
  | None => _get_num_evictable_blocks p (hit_kept m row local)
  end.
Definition need_new (m : Manager) (row : list ref) : Z :=
  Z.max (cdiv n (m_bs m) -
    match num_cached_block m !! id with
    | Some _ => len (blocks_of m id)
    | None => Z.max (get_num_skipped_tokens m local / m_bs m) (len row + len (blocks_of m id))
    end) 0.
Definition per_manager (f : Manager → list ref → Z) (ms : list Manager) (i : nat) : Z :=
  match ms !! i, rows !! i with Some m, Some row => f m row | _, _ => 0 end.

Lemma predict_case p m row :
  attention_manager m → window_ok m → 0 < m_bs m → 0 ≤ local → slot_case p m row →
  base_num_blocks_to_allocate p m id n row local false = Ok (need_hit p m row + need_new m row).
Proof.
  intros Ha Hw Hbs Hl Hcase. pose proof (skipped_bounds m local Ha Hw Hl) as [Hs _].
  pose proof (Z.div_pos _ _ Hs Hbs) as Hsb.
  unfold base_num_blocks_to_allocate, need_hit, need_new, hit_kept. cbv zeta.
  assert ((match _max_admission_blocks_per_request m with Some _ | None => cdiv n (m_bs m) end) = cdiv n (m_bs m)) as ->
    by (by destruct (_max_admission_blocks_per_request m)).
  destruct Hcase as [[[x Hx] ->]|[(_ & Hnc & -> & _)|(_ & [Hnc Hb] & _)]].
  - by rewrite Hx.
  - rewrite Hnc. f_equal. rewrite Z.add_comm. f_equal. f_equal.
    destruct (0 <? _); rewrite ?slice_from_nonneg, ?drop_nil by lia; done.
  - rewrite Hnc, Hb. f_equal. rewrite Z.add_comm. f_equal. f_equal. change (len []) with 0. rewrite Z.sub_0_r.
    set (sb := _ / _) in *. destruct (Z.ltb_spec 0 sb).
    + by rewrite Z.max_r by lia.
    + rewrite Z.max_l by lia. by rewrite slice_from_nonneg.
Qed.

(** Removing the blocks before the window keeps the request ready. *)
Lemma slots_ready_removed p ms p' ms' :
  slots_ready p ms → (∀ x, 0 ≤ x → bhash p' x = bhash p x) → num_gpu_blocks p' = num_gpu_blocks p →
  managers_rel (λ _ m m', mgr_cfg m' = mgr_cfg m ∧ others_kept id m m' ∧
      num_cached_block m' = num_cached_block m ∧ length (blocks_of m' id) = length (blocks_of m id)) ms ms' →
  slots_ready p' ms'.
Proof.
  intros Hr Hh Hn [Hl Hrel] i m' Hm'.
  assert (Hi : (i < length ms)%nat) by (rewrite <-Hl; by eapply lookup_lt_Some).
  destruct (lookup_lt_is_Some_2 _ _ Hi) as [m Hm]. destruct (Hrel i m Hm) as (m2 & Hm2 & Hcfg & _ & Hnc & Hlen).
  assert (m2 = m') as -> by congruence. destruct (Hr i m Hm) as (Hw & row & Hrow & Hcase).
  destruct (cfg_fields _ _ Hcfg) as (_ & Hs & Hbs & Hca & _). split; [unfold window_ok; by rewrite Hs|].
  exists row. split; [done|]. unfold slot_case, running_in, fresh_in in *. rewrite Hnc, Hbs, (cfg_hit_kept _ _ _ _ Hcfg).
  destruct Hcase as [?|[(? & ? & ? & ?)|(? & [? Hb] & Hv)]]; [by left|right; left|right; right].
  - unfold len in *. rewrite Hlen. done.
  - split_and!; try done.
    + rewrite Hb in Hlen. destruct (blocks_of m' id); done.
    + destruct (valid_hit_transfer _ p' _ _ Hv Hh Hn) as [H1 H2 H3 H4]. split; try done. by rewrite Hca.
Qed.

Definition need_of (p : BlockPool) (ms : list Manager) : nat → Z :=
  per_manager (λ m row, need_hit p m row + need_new m row) ms.

Lemma slots_predict c free0 enc n' :
  co_inv c free0 → all_attention c → 0 ≤ local → slots_ready (block_pool c) (single_type_managers c) →
  co_get_num_blocks_to_allocate id n rows enc local n' false c =
    (Ok (need_from (need_of (block_pool c) (single_type_managers c)) 0 (length (single_type_managers c))), c).
Proof.
  intros Hc Hall Hl Hr. eapply co_predict_spec; try done. intros i m Hm. destruct (Hr i m Hm) as (Hw & row & Hrow & Hcase).
  exists row. split; [done|]. unfold need_of, per_manager. rewrite Hm, Hrow. apply predict_case; eauto.
  apply (mi_bs _ _ (ci_mgr _ _ _ Hc i m Hm)).
Qed.

(** With the cap, the prediction is a number as well. *)
Lemma slots_predict_ok c free0 k enc t n' cap :
  co_inv c free0 → all_attention c → slots_ready (block_pool c) (single_type_managers c) →
  ∃ z, co_get_num_blocks_to_allocate id k rows enc t n' cap c = (Ok z, c).
Proof.
  intros Hc Hall Hr. eexists. eapply (co_predict_spec c free0 id k rows enc t n' cap (per_manager (λ m row,
    match base_num_blocks_to_allocate (block_pool c) m id k row t cap with Ok z => z | _ => 0 end) (single_type_managers c)));
    try done.
  intros i m Hm. destruct (Hr i m Hm) as (Hw & row & Hrow & Hcase). exists row. split; [done|].
  unfold per_manager. rewrite Hm, Hrow. unfold base_num_blocks_to_allocate.
  destruct Hcase as [[[x Hx] ->]|[(_ & Hnc & -> & _)|(_ & [Hnc Hb] & _)]]; [by rewrite Hx|by rewrite Hnc..].
Qed.

Lemma need_hit_nonneg p m row : 0 ≤ need_hit p m row.
Proof. unfold need_hit, _get_num_evictable_blocks. destruct (_ !! _); [lia|apply len_nonneg]. Qed.

(** Taking the hit leaves enough free blocks for the rest. *)
Lemma slots_computed c free0 :
  co_inv c free0 → all_attention c → 0 ≤ local → slots_ready (block_pool c) (single_type_managers c) →
  need_from (need_of (block_pool c) (single_type_managers c)) 0 (length (single_type_managers c)) ≤ len free0 →
  ∃ p ms free', (when called do co_allocate_new_computed_blocks id rows local 0) c = (Ok tt, co_with c p ms) ∧
    coord_inv p free' ms ∧ pool_cfg p = pool_cfg (block_pool c) ∧
    managers_rel (λ _ m m', mgr_cfg m' = mgr_cfg m ∧ others_kept id m m') (single_type_managers c) ms ∧
    need_from (missing id n ms) 0 (length ms) ≤ len free'.
Proof.
  intros Hc Hall Hl Hr Hneed. set (ms0 := single_type_managers c) in *. set (p0 := block_pool c) in *.
  assert (Hsplit : need_from (need_of p0 ms0) 0 (length ms0) =
    need_from (per_manager (need_hit p0) ms0) 0 (length ms0) + need_from (per_manager need_new ms0) 0 (length ms0)).
  { rewrite <-need_from_add. apply Z.le_antisymm; apply need_from_le; intros j _; unfold need_of, per_manager;
      destruct (ms0 !! j), (rows !! j); lia. }
  assert (Hpos2 : ∀ j, 0 ≤ per_manager need_new ms0 j)
    by (intros j; unfold per_manager, need_new; destruct (ms0 !! j), (rows !! j); lia).
  assert (Hpos1 : ∀ j, 0 ≤ per_manager (need_hit p0) ms0 j)
    by (intros j; unfold per_manager; destruct (ms0 !! j), (rows !! j); try lia; apply need_hit_nonneg).
  pose proof (need_from_nonneg _ 0 (length ms0) Hpos2) as Hp2.
  pose proof (need_from_nonneg _ 0 (length ms0) Hpos1) as Hp1.
  destruct called eqn:Ecalled.
  - destruct (co_computed_spec c free0 id rows local (per_manager (need_hit p0) ms0))
      as (p & ms & free' & He & Hc' & Hcfg & Hf & [Hlm Hrel]); try done.
    { intros i m Hm. destruct (Hr i m Hm) as (Hw & row & Hrow & Hcase). exists row. split; [done|].
      destruct Hcase as [?|[(? & _)|(_ & Hfr & Hv)]]; [by left|congruence|right]. split_and!; try done.
      unfold per_manager, need_hit. fold ms0 in Hm. rewrite Hm, Hrow. by rewrite (proj1 Hfr). }
    { fold ms0. lia. }
    exists p, ms, free'. split_and!; try done.
    { split; [done|]. intros i m Hm. destruct (Hrel i m Hm) as (m' & ? & ? & ? & _). eauto. }
    fold ms0 in Hf, Hlm, Hrel. rewrite Hlm.
    transitivity (need_from (per_manager need_new ms0) 0 (length ms0)); [|lia].
    apply need_from_le. intros j Hj. destruct (lookup_lt_is_Some_2 ms0 j) as [m Hm]; [lia|].
    destruct (Hr j m Hm) as (Hw & row & Hrow & Hcase). destruct (Hrel j m Hm) as (m' & Hm' & Hcfg' & _ & Hres).
    unfold missing, per_manager, need_new. rewrite Hm', Hm, Hrow.
    destruct (cfg_fields _ _ Hcfg') as (_ & _ & -> & _).
    destruct Hres as [[[x Hx] ->]|(row' & Hrow' & [Hnc Hb] & -> & _)]; [rewrite Hx; lia|].
    assert (row' = row) as -> by congruence. rewrite Hnc, Hb, len_hit_table; try done; [|by eapply Hall|].
    + change (len []) with 0. lia.
    + apply (mi_bs _ _ (ci_mgr _ _ _ Hc j m Hm)).
  - exists p0, ms0, free0. split_and!; try done.
    + by destruct c.
    + split; [done|]. intros i m Hm. exists m. split_and!; try done.
    + transitivity (need_from (per_manager need_new ms0) 0 (length ms0)); [|lia].
      apply need_from_le. intros j Hj. destruct (lookup_lt_is_Some_2 ms0 j) as [m Hm]; [lia|].
      destruct (Hr j m Hm) as (Hw & row & Hrow & Hcase). unfold missing, per_manager, need_new. rewrite Hm, Hrow.
      destruct Hcase as [[[x Hx] _]|[(_ & Hnc & -> & Hlen)|(Hca & _)]]; [rewrite Hx; lia| |congruence].
      rewrite Hnc. pose proof (skipped_bounds m local ltac:(by eapply Hall) Hw Hl) as [_ Hs].
      pose proof (mi_bs _ _ (ci_mgr _ _ _ Hc j m Hm)) as Hbs. change (len []) with 0.
      assert (get_num_skipped_tokens m local / m_bs m ≤ len (blocks_of m id)).
      { apply Z.div_le_upper_bound; [done|]. lia. }
      lia.
Qed.
End slots.

(* ===================================================================== *)
(** ** allocate_slots                                                     *)
(* ===================================================================== *)

Lemma managers_rel_trans (Q1 Q2 Q : nat → Manager → Manager → Prop) ms1 ms2 ms3 :
  managers_rel Q1 ms1 ms2 → managers_rel Q2 ms2 ms3 →
  (∀ i m1 m2 m3, Q1 i m1 m2 → Q2 i m2 m3 → Q i m1 m3) → managers_rel Q ms1 ms3.
Proof.
  intros [Hl1 H1] [Hl2 H2] Htrans. split; [lia|]. intros i m Hm. destruct (H1 i m Hm) as (m2 & Hm2 & HQ1).
  destruct (H2 i m2 Hm2) as (m3 & Hm3 & HQ2). eauto.
Qed.
Lemma managers_rel_weaken (Q1 Q : nat → Manager → Manager → Prop) ms ms' :
  managers_rel Q1 ms ms' → (∀ i m m', Q1 i m m' → Q i m m') → managers_rel Q ms ms'.
Proof. intros [Hl H1] Hw. split; [done|]. intros i m Hm. destruct (H1 i m Hm) as (m' & ? & ?). eauto. Qed.
Lemma managers_rel_inv Q ms ms' i m' : managers_rel Q ms ms' → ms' !! i = Some m' → ∃ m, ms !! i = Some m ∧ Q i m m'.
Proof.
  intros [Hl H] Hm'. assert (Hi : (i < length ms)%nat) by (rewrite <-Hl; by eapply lookup_lt_Some).
  destruct (lookup_lt_is_Some_2 _ _ Hi) as [m Hm]. destruct (H i m Hm) as (m2 & ? & ?). exists m. split; congruence.
Qed.
Lemma all_attention_rel Q c p ms :
  all_attention c → managers_rel Q (single_type_managers c) ms → (∀ i m m', Q i m m' → mgr_cfg m' = mgr_cfg m) →
  all_attention (co_with c p ms).
Proof.
  intros Hall Hrel HQ i m' Hm'. destruct (managers_rel_inv _ _ _ _ _ Hrel Hm') as (m & Hm & HQm).
  eapply attention_cfg; [by eapply HQ|by eapply Hall].
Qed.

(** The invariant of a manager whose groups are attention groups. *)
Record km_inv (k : KVCacheManager) (free : list ref) : Prop := {
  ki_co : co_inv (coordinator k) free;
  ki_attention : all_attention (coordinator k);
  ki_groups : length (single_type_managers (coordinator k)) = num_kv_cache_groups k;
  ki_caching : km_enable_caching k = enable_caching (block_pool (coordinator k));
}.

Section allocate.
Context `{env : KVEnv}.

Lemma via_ok {A} (f : M Coordinator A) k a c' :
  f (coordinator k) = (Ok a, c') → via_coordinator f k = (Ok a, k <| coordinator := c' |>).
Proof. intros H. unfold via_coordinator, zoom. by rewrite H. Qed.

Lemma num_free p free : pool_inv p free → get_num_free_blocks p = len free.
Proof. intros Hp. apply (rep_count _ _ (pi_rep _ _ _ Hp)). Qed.

(** The part of [allocate_slots] after its check. *)
Lemma slots_take r local n rows called c free0 n' enc :
  co_inv c free0 → all_attention c → 0 ≤ local →
  slots_ready r local rows called (block_pool c) (single_type_managers c) →
  need_from (need_of r local n rows (block_pool c) (single_type_managers c)) 0 (length (single_type_managers c)) ≤ len free0 →
  ∃ c1 new p ms free', (when called do co_allocate_new_computed_blocks (request_id r) rows local 0) c = (Ok tt, c1) ∧
    co_allocate_new_blocks (request_id r) n n' enc c1 = (Ok new, co_with c p ms) ∧
    coord_inv p free' ms ∧ pool_cfg p = pool_cfg (block_pool c) ∧ length new = length (single_type_managers c) ∧
    managers_rel (λ i m m', mgr_cfg m' = mgr_cfg m ∧ others_kept (request_id r) m m' ∧
      cdiv n (m_bs m) ≤ len (blocks_of m' (request_id r)) ∧
      ∃ old l, new !! i = Some l ∧ blocks_of m' (request_id r) = old ++ l) (single_type_managers c) ms.
Proof.
  intros Hc Hall Hl Hr Hneed.
  destruct (slots_computed r local n rows called c free0 Hc Hall Hl Hr Hneed)
    as (p1 & ms1 & free1 & He1 & Hc1 & Hcfg1 & Hrel1 & Hneed1).
  assert (Hall1 : all_attention (co_with c p1 ms1)) by (eapply all_attention_rel; [done..|by intros ??? []]).
  destruct (co_allocate_spec (co_with c p1 ms1) free1 (request_id r) n n' enc Hc1 Hall1 Hneed1)
    as (new & p & ms & free' & He2 & Hc2 & Hcfg2 & Hlnew & Hrel2).
  exists (co_with c p1 ms1), new, p, ms, free'. split_and!; try done.
  - by rewrite Hcfg2.
  - rewrite Hlnew. by destruct Hrel1.
  - eapply managers_rel_trans; [exact Hrel1|exact Hrel2|].
    intros i m1 m2 m3 [Hm1 Ho1] (Hm2 & Ho2 & l & Hli & (Hb & _ & Hlen)).
    split_and!; [congruence|by eapply others_kept_trans| |by eexists _, l].
    destruct (cfg_fields _ _ Hm1) as (_ & _ & Hbs & _). rewrite Hbs in Hlen. lia.
Qed.

(** A call of [allocate_slots] without external tokens: its quantities. *)
Definition call_local (r : Request) (num_new_computed : Z) : Z := num_computed_tokens r + num_new_computed.
Definition call_total (k : KVCacheManager) (r : Request) (num_new_computed : Z) : Z :=
  Z.min (call_local r num_new_computed) (km_max_model_len k).
Definition call_slots (k : KVCacheManager) (r : Request) (num_new num_new_computed lookahead : Z) : Z :=
  Z.min (call_total k r num_new_computed + num_new + lookahead) (km_max_model_len k).
Definition call_cached (k : KVCacheManager) (r : Request) (num_new num_new_computed : Z) : Z :=
  Z.min (call_total k r num_new_computed + num_new) (num_tokens r).
Definition call_rows (k : KVCacheManager) (nc : option KVCacheBlocks) : list (list ref) :=
  kb_blocks (num_kv_cache_groups k) (default EmptyKVCacheBlocks nc).
Definition call_hit (nc : option KVCacheBlocks) : bool :=
  match default EmptyKVCacheBlocks nc with EmptyKVCacheBlocks => false | _ => true end.

(** What the scheduler guarantees: the request stands with every manager as in
    [slot_case], its tokens fit the model, and its block hashes are there. *)
Record slots_call (k : KVCacheManager) (r : Request) (num_new num_new_computed : Z) (nc : option KVCacheBlocks)
    (lookahead : Z) (delay : bool) : Prop := {
  sc_new : num_new ≠ 0;
  sc_local : 0 ≤ call_local r num_new_computed;
  sc_lookahead : 0 ≤ lookahead;
  sc_fits : call_cached k r num_new num_new_computed ≤ km_max_model_len k;
  sc_ready : slots_ready r (call_local r num_new_computed) (call_rows k nc) (call_hit nc)
               (block_pool (coordinator k)) (single_type_managers (coordinator k));
  sc_hashes : km_enable_caching k = true → delay = false →
    ∀ i m, single_type_managers (coordinator k) !! i = Some m →
      ∃ H, hashes_ready (block_pool (coordinator k)) m r (call_cached k r num_new num_new_computed) H;
}.

(** What a successful call gives the request. *)
Definition slots_given (r : Request) (slots : Z) (new : list (list ref)) (i : nat) (m m' : Manager) : Prop :=
  cdiv slots (m_bs m) ≤ len (blocks_of m' (request_id r)) ∧
  ∃ old l, new !! i = Some l ∧ blocks_of m' (request_id r) = old ++ l.

(** The blocks the request takes, when the call starts from coordinator [c]. *)
Definition call_need (k : KVCacheManager) (r : Request) (num_new num_new_computed : Z) (nc : option KVCacheBlocks)
    (lookahead : Z) (c : Coordinator) : Z :=
  need_from (need_of r (call_local r num_new_computed) (call_slots k r num_new num_new_computed lookahead)
    (call_rows k nc) (block_pool c) (single_type_managers c)) 0 (length (single_type_managers c)).

Lemma call_cached_blocks k r a b look bs :
  0 < bs → 0 ≤ look → call_cached k r a b ≤ km_max_model_len k →
  call_cached k r a b / bs ≤ cdiv (call_slots k r a b look) bs.
Proof.
  intros Hbs Hl Hle. transitivity (call_slots k r a b look / bs).
  - apply Z.div_le_mono; [done|]. unfold call_slots, call_cached in *. lia.
  - by apply div_le_cdiv.
Qed.

(** What no call changes of a coordinator, beside its managers. *)
Definition co_cfg (c : Coordinator) : list KVCacheGroupSpec * list Z * coordinator_kind * (Z * bool * Z * ref * bool) :=
  (co_groups c, eagle_group_ids c, kind c, pool_cfg (block_pool c)).
Lemma co_cfg_with c p ms : pool_cfg p = pool_cfg (block_pool c) → co_cfg (co_with c p ms) = co_cfg c.
Proof. intros H. unfold co_cfg. simpl. by rewrite H. Qed.
Lemma co_cfg_pool c c' : co_cfg c' = co_cfg c → pool_cfg (block_pool c') = pool_cfg (block_pool c).
Proof. unfold co_cfg. congruence. Qed.

(** Caching after the allocation. *)
Lemma slots_cache c free0 r t :
  co_inv c free0 → all_attention c → enable_caching (block_pool c) = true →
  (∀ i m, single_type_managers c !! i = Some m →
     (∃ H, hashes_ready (block_pool c) m r t H) ∧ t / m_bs m ≤ len (blocks_of m (request_id r))) →
  ∃ c' free', co_cache_blocks r t c = (Ok tt, c') ∧ co_inv c' free' ∧ all_attention c' ∧
    co_cfg c' = co_cfg c ∧
    managers_rel (λ _ m m', mgr_cfg m' = mgr_cfg m ∧ others_kept (request_id r) m m' ∧
      blocks_of m' (request_id r) = blocks_of m (request_id r)) (single_type_managers c) (single_type_managers c').
Proof.
  intros Hc Hall Hen Hready. destruct (co_cache_spec c free0 r t Hc Hall Hen Hready) as (p & ms & free' & He & Hc' & Hcfg & Hrel).
  exists (co_with c p ms), free'. split_and!; try done; [eapply all_attention_rel; [done..|by intros ??? []]|by apply co_cfg_with].
Qed.

Lemma hashes_ready_cfg p p' m m' r t H :
  pool_cfg p' = pool_cfg p → mgr_cfg m' = mgr_cfg m → hashes_ready p m r t H → hashes_ready p' m' r t H.
Proof.
  intros Hp Hm [H1 H2 H3 H4]. destruct (cfg_fields _ _ Hm) as (_ & _ & Hbs & _). unfold pool_cfg in Hp.
  assert (Hh : hash_block_size p' = hash_block_size p) by congruence.
  split; rewrite ?Hbs, ?Hh; done.
Qed.

Lemma create_blocks_rows n new : length new = n → kb_blocks n (create_kv_cache_blocks new) = new.
Proof.
  intros <-. unfold create_kv_cache_blocks. destruct (existsb _ _) eqn:Ex; [done|]. simpl.
  induction new as [|l new IH]; [done|]. simpl in *. apply orb_false_iff in Ex as [El Ex].
  rewrite IH by done. destruct l; [done|]. apply Z.ltb_ge in El. unfold len in El. simpl in El. lia.
Qed.

(** The end of the call, from the state in which the check has passed. *)
Lemma slots_finish k c free0 r num_new num_new_computed nc look delay n' enc :
  co_inv c free0 → all_attention c → pool_cfg (block_pool c) = pool_cfg (block_pool (coordinator k)) →
  km_enable_caching k = enable_caching (block_pool c) →
  slots_call (k <| coordinator := c |>) r num_new num_new_computed nc look delay →
  call_need k r num_new num_new_computed nc look c ≤ len free0 →
  let slots := call_slots k r num_new num_new_computed look in
  ∃ c1 c2 c3 new free', (when (call_hit nc) do
      co_allocate_new_computed_blocks (request_id r) (call_rows k nc) (call_local r num_new_computed) 0) c = (Ok tt, c1) ∧
    co_allocate_new_blocks (request_id r) slots n' enc c1 = (Ok new, c2) ∧
    (if negb (km_enable_caching k) || delay then ret tt
     else co_cache_blocks r (call_cached k r num_new num_new_computed)) c2 = (Ok tt, c3) ∧
    co_inv c3 free' ∧ all_attention c3 ∧ co_cfg c3 = co_cfg c ∧
    length new = length (single_type_managers c) ∧
    managers_rel (λ i m m', mgr_cfg m' = mgr_cfg m ∧ others_kept (request_id r) m m' ∧
      slots_given r slots new i m m') (single_type_managers c) (single_type_managers c3).
Proof.
  intros Hc Hall Hcfg Hen [Hnew Hl Hlook Hfit Hready Hhash] Hneed slots.
  destruct (slots_take r (call_local r num_new_computed) slots (call_rows k nc) (call_hit nc) c free0 n' enc)
    as (c1 & new & p & ms & free' & He1 & He2 & Hc2 & Hcfg2 & Hlnew & Hrel); try done.
  assert (Hall2 : all_attention (co_with c p ms)) by (eapply all_attention_rel; [done..|by intros ??? []]).
  exists c1, (co_with c p ms).
  destruct (negb (km_enable_caching k) || delay) eqn:Ed.
  { exists (co_with c p ms), new, free'. split_and!; try done. by apply co_cfg_with. }
  apply orb_false_iff in Ed as [Eca ->]. apply negb_false_iff in Eca.
  destruct (slots_cache (co_with c p ms) free' r (call_cached k r num_new num_new_computed))
    as (c3 & free3 & He3 & Hc3 & Hall3 & Hcfg3 & Hrel3); try done.
  { simpl. unfold pool_cfg in Hcfg2. congruence. }
  { intros i m' Hm'. destruct (managers_rel_inv _ _ _ _ _ Hrel Hm') as (m & Hm & Hmc & _ & Hlen & _).
    destruct (Hhash Eca eq_refl i m Hm) as [H HH]. split.
    - exists H. eapply hashes_ready_cfg; [exact Hcfg2|exact Hmc|exact HH].
    - etransitivity; [|exact Hlen]. destruct (cfg_fields _ _ Hmc) as (_ & _ & -> & _).
      apply call_cached_blocks; [|done|done]. apply (mi_bs _ _ (ci_mgr _ _ _ Hc i m Hm)). }
  exists c3, new, free3. split_and!; try done; [by rewrite Hcfg3, co_cfg_with|].
  eapply managers_rel_trans; [exact Hrel|exact Hrel3|].
  intros i m1 m2 m3 (? & ? & ? & Hb) (? & ? & Hb3). split_and!; [congruence|by eapply others_kept_trans|].
  split; rewrite Hb3; done.
Qed.

Lemma via_after {A} (f : M Coordinator A) k c a c' :
  f c = (Ok a, c') → via_coordinator f (k <| coordinator := c |>) = (Ok a, k <| coordinator := c' |>).
Proof. intros H. unfold via_coordinator, zoom. simpl. by rewrite H. Qed.

Lemma slots_call_removed k c r num_new num_new_computed nc look delay :
  slots_call k r num_new num_new_computed nc look delay →
  pool_cfg (block_pool c) = pool_cfg (block_pool (coordinator k)) →
  (∀ x, 0 ≤ x → bhash (block_pool c) x = bhash (block_pool (coordinator k)) x) →
  managers_rel (λ _ m m', mgr_cfg m' = mgr_cfg m ∧ others_kept (request_id r) m m' ∧
      num_cached_block m' = num_cached_block m ∧ length (blocks_of m' (request_id r)) = length (blocks_of m (request_id r)))
    (single_type_managers (coordinator k)) (single_type_managers c) →
  slots_call (k <| coordinator := c |>) r num_new num_new_computed nc look delay.
Proof.
  intros [H1 H2 H3 H4 H5 H6] Hcfg Hh Hrel. split; try done.
  - eapply slots_ready_removed; [exact H5|done|by apply pool_cfg_num|done].
  - intros Hca Hd i m' Hm'. destruct (managers_rel_inv _ _ _ _ _ Hrel Hm') as (m & Hm & Hmc & _).
    destruct (H6 Hca Hd i m Hm) as [H HH]. exists H. eapply hashes_ready_cfg; [exact Hcfg|exact Hmc|exact HH].
Qed.

Lemma km_inv_coordinator k free c free' :
  km_inv k free → co_inv c free' → all_attention c → pool_cfg (block_pool c) = pool_cfg (block_pool (coordinator k)) →
  length (single_type_managers c) = length (single_type_managers (coordinator k)) →
  km_inv (k <| coordinator := c |>) free'.
Proof.
  intros [_ _ Hg Hca] Hc Hall Hcfg Hlen. split; simpl; try done; [congruence|]. unfold pool_cfg in Hcfg. congruence.
Qed.

(** How a call leaves one manager: the blocks given, or a refusal, which may
    only have replaced blocks before the window by the null block. *)
Definition slots_outcome (k : KVCacheManager) (r : Request) (slots : Z) (res : option KVCacheBlocks)
    (i : nat) (m m' : Manager) : Prop :=
  mgr_cfg m' = mgr_cfg m ∧ others_kept (request_id r) m m' ∧
  match res with
  | Some new => slots_given r slots (kb_blocks (num_kv_cache_groups k) new) i m m'
  | None => num_cached_block m' = num_cached_block m ∧
            length (blocks_of m' (request_id r)) = length (blocks_of m (request_id r))
  end.

(** The blocks the admission check counts for the full sequence exceed the free
    ones. *)
Definition full_exceeds (k : KVCacheManager) (r : Request) (num_new_computed : Z) (nc : option KVCacheBlocks) (enc : Z) : Prop :=
  ∃ n, co_get_num_blocks_to_allocate (request_id r) (Z.min (num_tokens r) (km_max_model_len k)) (call_rows k nc) enc
    (call_total k r num_new_computed) (Z.min (num_tokens r) (km_max_model_len k)) true (coordinator k) = (Ok n, coordinator k) ∧
    get_num_free_blocks (block_pool (coordinator k)) < n.

(** The admission check over the full sequence only reads. *)
Lemma fits_check k free r a nc (fit : bool) enc :
  km_inv k free → slots_ready r (call_local r a) (call_rows k nc) (call_hit nc) (block_pool (coordinator k)) (single_type_managers (coordinator k)) →
  let full := Z.min (num_tokens r) (km_max_model_len k) in
  ∃ b, (if fit then
      n <- via_coordinator (co_get_num_blocks_to_allocate (request_id r) full (call_rows k nc) enc (call_total k r a) full true) ;;
      k <- get ;; ret (n <=? get_num_free_blocks (block_pool (coordinator k))) else ret true) k = (Ok b, k) ∧
      (b = false ↔ fit = true ∧ full_exceeds k r a nc enc).
Proof.
  intros [Hc Hall _ _] Hready full. destruct fit; [|exists true; split; [done|by split; [|intros []]]].
  destruct (slots_predict_ok r (call_local r a) (call_rows k nc) (call_hit nc) (coordinator k) free full enc (call_total k r a) full true Hc Hall Hready) as [z Hz].
  assert (Hkk : k <| coordinator := coordinator k |> = k) by (by destruct k).
  rewrite (bind_ok _ _ _ _ _ (via_ok _ _ _ _ Hz)), run_get, Hkk. eexists. split; [done|]. rewrite Z.leb_gt. split.
  - intros Hlt. split; [done|]. by exists z.
  - intros (_ & n & Hn & Hlt). unfold full in Hz. rewrite Hn in Hz. by injection Hz as <-.
Qed.

Lemma allocate_slots_spec k free r num_new num_new_computed nc look delay enc fit :
  km_inv k free → slots_call k r num_new num_new_computed nc look delay →
  ∃ res k' free', allocate_slots r num_new num_new_computed nc look 0 delay enc fit k = (Ok res, k') ∧
    k' = k <| coordinator := coordinator k' |> ∧ km_inv k' free' ∧
    managers_rel (slots_outcome k r (call_slots k r num_new num_new_computed look) res)
      (single_type_managers (coordinator k)) (single_type_managers (coordinator k')) ∧
    (∃ c1, co_remove_skipped_blocks (request_id r) (call_total k r num_new_computed) (coordinator k) = (Ok tt, c1) ∧
       (res = None ↔ (fit = true ∧ full_exceeds k r num_new_computed nc enc) ∨
          get_num_free_blocks (block_pool c1) < call_need k r num_new num_new_computed nc look c1)) ∧
    co_cfg (coordinator k') = co_cfg (coordinator k).
Proof.
  intros Hk Hcall. pose proof Hk as [Hc Hall Hgr Hca]. pose proof Hcall as [Hnew Hl Hlook _ Hready _].
  unfold allocate_slots. assert ((num_new =? 0) && (0 =? 0) = false) as -> by (apply andb_false_iff; left; by apply Z.eqb_neq).
  rewrite run_get. cbv zeta. rewrite !Z.add_0_r.
  set (c := coordinator k) in *.
  change (kb_blocks (num_kv_cache_groups k) (default EmptyKVCacheBlocks nc)) with (call_rows k nc).
  change (num_computed_tokens r + num_new_computed) with (call_local r num_new_computed) in *.
  change (Z.min (call_local r num_new_computed) (km_max_model_len k)) with (call_total k r num_new_computed).
  destruct (fits_check k free r num_new_computed nc fit enc Hk Hready) as (b & He0 & Hfit). rewrite (bind_ok _ _ _ _ _ He0).
  destruct (co_remove_skipped_blocks_spec c free (request_id r) (call_total k r num_new_computed) Hc Hall)
    as (p1 & ms1 & free1 & He1 & Hc1 & Hcfg1 & _ & Hh1 & Hrel1).
  set (c1 := co_with c p1 ms1) in *.
  destruct b; cbn [negb]; cycle 1.
  { exists None, k, free. split_and!; try done; [by destruct k| |].
    - split; [done|]. intros i m Hm. exists m. split; [done|]. split; [done|]. split; [apply others_kept_refl|done].
    - exists c1. split; [done|]. split; [intros _; left; by apply Hfit|done]. }
  assert (Hno : ¬ (fit = true ∧ full_exceeds k r num_new_computed nc enc)) by (rewrite <-Hfit; done).
  assert (Hall1 : all_attention c1) by (eapply all_attention_rel; [done..|by intros ??? []]).
  pose proof (slots_call_removed k c1 r _ _ nc look delay Hcall Hcfg1 Hh1 Hrel1) as Hcall1.
  rewrite (bind_ok _ _ _ _ _ (via_ok _ k _ _ He1)).
  change (Z.min (call_total k r num_new_computed + num_new + look) (km_max_model_len k))
    with (call_slots k r num_new num_new_computed look).
  change (Z.min (call_total k r num_new_computed + num_new) (num_tokens r)) with (call_cached k r num_new num_new_computed).
  change (match default EmptyKVCacheBlocks nc with EmptyKVCacheBlocks => false | _ => true end) with (call_hit nc).
  replace (call_hit nc || (0 <? 0)) with (call_hit nc) by (by destruct (call_hit nc)).
  rewrite (bind_ok _ _ _ _ _ (via_after _ k c1 _ _ (slots_predict r (call_local r num_new_computed)
    (call_slots k r num_new num_new_computed look) (call_rows k nc) (call_hit nc) c1 free1 enc _ Hc1 Hall1 Hl (sc_ready _ _ _ _ _ _ _ Hcall1)))).
  rewrite run_get. change (k <| coordinator := c1 |> <| coordinator := c1 |>) with (k <| coordinator := c1 |>).
  change (need_from _ 0 _) with (call_need k r num_new num_new_computed nc look c1).
  change (coordinator (k <| coordinator := c1 |>)) with c1.
  rewrite (num_free (block_pool c1) free1 (ci_pool _ _ _ Hc1)). destruct (Z.ltb_spec (len free1) (call_need k r num_new num_new_computed nc look c1)) as [Hlt|Hge].
  { exists None, (k <| coordinator := c1 |>), free1. split_and!; try done.
    - apply (km_inv_coordinator k free); try done. by destruct Hrel1.
    - exists c1. split; [done|]. rewrite (num_free (block_pool c1) free1 (ci_pool _ _ _ Hc1)). split; [by right|done].
    - by apply co_cfg_with. }
  destruct (slots_finish k c1 free1 r num_new num_new_computed nc look delay (call_total k r num_new_computed + num_new) enc)
    as (c2 & c3 & c4 & new & free' & He2 & He3 & He4 & Hc4 & Hall4 & Hcfg4 & Hlnew & Hrel4); try done.
  { unfold pool_cfg in Hcfg1. unfold c1. simpl. congruence. }
  assert (Hw : (when (call_hit nc) do via_coordinator (co_allocate_new_computed_blocks (request_id r) (call_rows k nc)
      (call_local r num_new_computed) 0)) (k <| coordinator := c1 |>) = (Ok tt, k <| coordinator := c2 |>)).
  { revert He2. destruct (call_hit nc); intros He2; [exact (via_after _ k c1 _ _ He2)|]. by injection He2 as <-. }
  rewrite (bind_ok _ _ _ _ _ Hw), (bind_ok _ _ _ _ _ (via_after _ k c2 _ _ He3)).
  exists (Some (create_kv_cache_blocks new)), (k <| coordinator := c4 |>), free'. split_and!.
  - change (km_enable_caching (k <| coordinator := c1 |>)) with (km_enable_caching k). revert He4.
    destruct (negb (km_enable_caching k) || delay); intros He4; [by injection He4 as <-|].
    by rewrite (bind_ok _ _ _ _ _ (via_after _ k c3 _ _ He4)).
  - done.
  - apply (km_inv_coordinator k free); try done; [by rewrite (co_cfg_pool _ _ Hcfg4)|]. destruct Hrel4 as [-> _]. by destruct Hrel1.
  - eapply managers_rel_trans; [exact Hrel1|exact Hrel4|]. intros i m1 m2 m3 (Hm1 & Ho1 & _) (Hm2 & Ho2 & Hg & Hx).
    split_and!; [congruence|by eapply others_kept_trans|]. unfold slots_outcome, slots_given.
    destruct (cfg_fields _ _ Hm1) as (_ & _ & <- & _). rewrite create_blocks_rows; [done|]. rewrite Hlnew, <-Hgr. by destruct Hrel1.
  - exists c1. split; [done|]. rewrite (num_free (block_pool c1) free1 (ci_pool _ _ _ Hc1)). split; [done|]. intros [?|?]; [done|lia].
  - simpl. rewrite Hcfg4. by apply co_cfg_with.
Qed.

(* ===================================================================== *)
(** ** The other calls                                                    *)
(* ===================================================================== *)

(** A call that only drops hashes. *)
Lemma coord_inv_hashes p free ms p' :
  coord_inv p free ms → pool_inv p' free → pool_cfg p' = pool_cfg p → (∀ x, rc p' x = rc p x) →
  (∀ b, 0 ≤ b < num_gpu_blocks p → bhash p b = None → bhash p' b = None) → coord_inv p' free ms.
Proof.
  intros Hc Hp Hcfg Hrc Hh. assert (Hn := pool_cfg_num _ _ Hcfg).
  assert (Hca : enable_caching p' = enable_caching p) by (unfold pool_cfg in Hcfg; congruence).
  split; [done|..].
  - rewrite Hca, Hn. intros Hf b Hb. apply Hh; [done|]. by apply (ci_nohash _ _ _ Hc).
  - intros b. rewrite Hn, Hrc. apply (ci_rc _ _ _ Hc).
  - intros i m Hm. pose proof (ci_mgr _ _ _ Hc i m Hm) as Hmi. destruct (Hmi) as [H1 H2 H3 H4 H5 H6 H7 H8].
    split; rewrite ?Hca, ?Hn; try done. intros b Hb. rewrite Hrc. destruct (H8 b Hb). split; [done|].
    apply Hh; [|done]. destruct (owned_range _ _ _ Hmi Hb). lia.
Qed.

Lemma via_pool_ok {A} (f : M BlockPool A) k a p :
  f (block_pool (coordinator k)) = (Ok a, p) →
  via_pool f k = (Ok a, k <| coordinator := coordinator k <| block_pool := p |> |>).
Proof. intros H. unfold via_pool, via_coordinator, zoom. by rewrite H. Qed.

Lemma km_inv_pool k free p :
  km_inv k free → pool_inv p free → pool_cfg p = pool_cfg (block_pool (coordinator k)) →
  (∀ x, rc p x = rc (block_pool (coordinator k)) x) →
  (∀ b, 0 ≤ b < num_gpu_blocks (block_pool (coordinator k)) →
     bhash (block_pool (coordinator k)) b = None → bhash p b = None) →
  km_inv (k <| coordinator := coordinator k <| block_pool := p |> |>) free.
Proof.
  intros Hk Hp Hcfg Hrc Hh. apply (km_inv_coordinator k free); try done.
  - by eapply coord_inv_hashes; [apply (ki_co _ _ Hk)|..].
  - apply (ki_attention _ _ Hk).
Qed.

Lemma km_free_spec k free r :
  km_inv k free →
  ∃ k' free', km_free r k = (Ok tt, k') ∧ km_inv k' free' ∧
    managers_rel (λ _ m m', mgr_cfg m' = mgr_cfg m ∧ others_kept (request_id r) m m' ∧
      req_to_blocks m' = delete (request_id r) (req_to_blocks m) ∧ num_cached_block m' !! request_id r = None)
      (single_type_managers (coordinator k)) (single_type_managers (coordinator k')) ∧
    co_cfg (coordinator k') = co_cfg (coordinator k) ∧
    k' = k <| coordinator := coordinator k' |>.
Proof.
  intros Hk. destruct (co_free_spec (coordinator k) free (request_id r) (ki_co _ _ Hk) (ki_attention _ _ Hk))
    as (p & ms & free' & He & Hc & Hcfg & _ & Hrel).
  eexists _, free'. split; [apply (via_ok _ _ _ _ He)|]. split_and!; try done; [|by apply co_cfg_with].
  apply (km_inv_coordinator k free); try done; [|by destruct Hrel].
  eapply all_attention_rel; [apply (ki_attention _ _ Hk)|done|by intros ??? []].
Qed.

Lemma km_remove_skipped_blocks_spec k free id t :
  km_inv k free → ∃ k' free', km_remove_skipped_blocks id t k = (Ok tt, k') ∧
    k' = k <| coordinator := coordinator k' |> ∧ km_inv k' free'.
Proof.
  intros Hk. destruct (co_remove_skipped_blocks_spec (coordinator k) free id t (ki_co _ _ Hk) (ki_attention _ _ Hk))
    as (p & ms & free' & He & Hc & Hcfg & _ & _ & Hrel).
  eexists _, free'. split; [apply (via_ok _ _ _ _ He)|]. split; [done|].
  apply (km_inv_coordinator k free); try done; [|by destruct Hrel].
  eapply all_attention_rel; [apply (ki_attention _ _ Hk)|done|by intros ??? []].
Qed.

Lemma km_evict_blocks_spec k free ids :
  km_inv k free → (∀ i, i ∈ ids → 0 ≤ i < num_gpu_blocks (block_pool (coordinator k))) →
  ∃ k', km_evict_blocks ids k = (Ok tt, k') ∧ k' = k <| coordinator := coordinator k' |> ∧ km_inv k' free.
Proof.
  intros Hk Hids. destruct (evict_blocks_spec ids _ free (ci_pool _ _ _ (ki_co _ _ Hk)) Hids) as (p & He & Hp & Hcfg & Hrc & Hh).
  eexists. split; [apply (via_pool_ok _ _ _ _ He)|]. split; [done|]. apply km_inv_pool; try done.
  intros b _ Hb. rewrite Hh. by case_decide.
Qed.

(** The reset answers whether every block is back, and then forgets all
    hashes. *)
Lemma km_reset_spec k free :
  km_inv k free → (log_stats k = true → is_Some (prefix_cache_stats k)) →
  ∃ b k', km_reset_prefix_cache k = (Ok b, k') ∧ km_inv k' free ∧
    (b = true ↔ ∀ x, 1 ≤ x < num_gpu_blocks (block_pool (coordinator k)) → rc (block_pool (coordinator k)) x = 0) ∧
    (b = true → cached_block_hash_to_block (block_pool (coordinator k')) = ∅) ∧
    (log_stats k' = true → is_Some (prefix_cache_stats k')) ∧
    ∃ p' st, k' = k <| coordinator := coordinator k <| block_pool := p' |> |> <| prefix_cache_stats := st |> ∧
      pool_cfg p' = pool_cfg (block_pool (coordinator k)).
Proof.
  intros Hk Hst. unfold km_reset_prefix_cache. set (p := block_pool (coordinator k)) in *.
  destruct (reset_prefix_cache_spec p free (ci_pool _ _ _ (ki_co _ _ Hk)))
    as [(p' & He & Hp & Hcfg & Hemp & Hrc & Hz & Hh)|[He (b & Hb & Hbz)]];
    rewrite (bind_ok _ _ _ _ _ (via_pool_ok _ _ _ _ He)); cbn [negb].
  - assert (Hk' : km_inv (k <| coordinator := coordinator k <| block_pool := p' |> |>) free)
      by (apply km_inv_pool; auto).
    rewrite run_get. change (log_stats (_ <| coordinator := _ |>)) with (log_stats k).
    change (prefix_cache_stats (_ <| coordinator := _ |>)) with (prefix_cache_stats k).
    exists true. destruct (log_stats k) eqn:El.
    + destruct (Hst eq_refl) as [s Hs]. rewrite Hs, run_modify. eexists. split; [reflexivity|]. split_and!; try done.
      * by destruct Hk'.
      * split; [|done]. intros _ x Hx. destruct (Hz x ltac:(lia)); [done|lia].
      * by exists p', (Some (reset_stats s)).
    + rewrite run_ret. eexists. split; [reflexivity|]. split_and!; try done.
      * split; [|done]. intros _ x Hx. destruct (Hz x ltac:(lia)); [done|lia].
      * simpl. by rewrite El.
      * by exists p', (prefix_cache_stats k).
  - exists false. eexists. split; [reflexivity|]. split_and!; try done.
    + apply km_inv_pool; try done. apply (ci_pool _ _ _ (ki_co _ _ Hk)).
    + split; [done|]. intros Hz. by specialize (Hz b Hb).
    + by exists p, (prefix_cache_stats k).
Qed.
End allocate.

(* ===================================================================== *)
(** ** Construction                                                       *)
(* ===================================================================== *)

(** A group of attention layers with a block size. *)
Definition attention_group_ok (g : KVCacheGroupSpec) : Prop :=
  match kv_cache_spec g with
  | LayerSpec s => match spec_manager_map s with
                   | Ok FullAttentionManager | Ok SlidingWindowManager | Ok ChunkedLocalAttentionManager => 0 < block_size s
                   | _ => False
                   end
  | UniformSpec _ => False
  end.

Definition new_manager_ok (p : BlockPool) (caching : bool) (gid : Z) (m : Manager) : Prop :=
  attention_manager m ∧ 0 < m_bs m ∧ kv_cache_group_id m = gid ∧ req_to_blocks m = ∅ ∧ num_cached_block m = ∅ ∧
  m_enable_caching m = caching ∧ _null_block m = null_block p.

Lemma build_managers_spec groups i mb ml caching dcp pcp p :
  Forall attention_group_ok groups → 0 < dcp → 0 < pcp →
  ∃ ms, build_managers groups i mb ml caching dcp pcp p = (Ok ms, p) ∧ length ms = length groups ∧
    ∀ j m, ms !! j = Some m → new_manager_ok p caching (i + Z.of_nat j) m.
Proof.
  intros Hg Hd Hp. revert i. induction Hg as [|g gs Hg _ IH]; intros i; simpl.
  { exists []. split_and!; try done. }
  unfold attention_group_ok in Hg. destruct (kv_cache_spec g) as [s|]; [|done].
  destruct (spec_manager_map s) as [c|] eqn:Ec; [|done].
  destruct (IH (i + 1)) as (ms & He & Hl & Hms).
  set (m := SingleTypeKVCacheManager_init c s p caching i dcp pcp (max_admission_blocks_per_request s mb ml)).
  assert (Hm : get_manager_for_kv_cache_spec s mb ml caching i dcp pcp p = (Ok m, p) ∧ new_manager_ok p caching i m).
  { assert (Hbs : c = FullAttentionManager ∨ c = SlidingWindowManager ∨ c = ChunkedLocalAttentionManager) by (destruct c; done || auto).
    assert (Hpos : 0 < block_size s) by (destruct Hbs as [-> | [-> | ->]]; done).
    split.
    - unfold get_manager_for_kv_cache_spec. rewrite Ec. destruct s; try done. destruct Hbs as [-> | [-> | ->]]; done.
    - split_and!; try done. unfold m. simpl. destruct (Z.ltb_spec 1 (dcp * pcp)); [nia|done]. }
  destruct Hm as [Hm Hok]. rewrite (bind_ok _ _ _ _ _ Hm), (bind_ok _ _ _ _ _ He). exists (m :: ms).
  split_and!; [done|simpl; lia|]. intros [|j] m' Hj; simpl in Hj.
  - injection Hj as <-. by rewrite Z.add_0_r.
  - replace (i + Z.of_nat (S j)) with (i + 1 + Z.of_nat j) by lia. by apply Hms.
Qed.

(** A new manager: every block but the null block is free. *)
Lemma KVCacheManager_init_inv cfg ml hbs mb caching use_eagle log ev dcp pcp k :
  Forall attention_group_ok (kv_cache_groups cfg) → len (kv_cache_groups cfg) < 2 ^ 32 →
  0 < num_blocks cfg → 0 < dcp → 0 < pcp →
  KVCacheManager_init cfg ml hbs mb caching use_eagle log ev dcp pcp = Ok k →
  km_inv k (seqZ 1 (num_blocks cfg - 1)) ∧ (log_stats k = true → is_Some (prefix_cache_stats k)) ∧
  num_gpu_blocks (block_pool (coordinator k)) = num_blocks cfg ∧
  ∀ i m, single_type_managers (coordinator k) !! i = Some m → req_to_blocks m = ∅.
Proof.
  intros Hg Hlen Hn Hd Hp. unfold KVCacheManager_init, get_kv_cache_coordinator.
  destruct (BlockPool_init_spec (num_blocks cfg) caching hbs ev Hn) as (p & -> & Hinv & Hcfg & Hemp).
  destruct (build_managers_spec (kv_cache_groups cfg) 0 (default ml mb) ml caching dcp pcp p Hg Hd Hp) as (ms & -> & Hl & Hms).
  destruct (choose_kind _ _ _ _ _ _ _) as [kind|]; [|done]. intros [= <-]. simpl.
  unfold pool_cfg in Hcfg. injection Hcfg as Hnum Hca _ Hnull _.
  assert (Hnh : ∀ b, 0 ≤ b < num_gpu_blocks p → bhash p b = None).
  { intros b Hb. destruct (decide (b = 0)) as [->|]; [apply (pi_null_hash _ _ _ Hinv)|].
    destruct (bhash p b) as [key|] eqn:Eb; [|done]. assert (Hin : b ∈ cached_under (cached_block_hash_to_block p) key)
      by (apply (pi_cached _ _ _ Hinv); split; [lia|done]).
    rewrite Hemp in Hin. unfold cached_under in Hin. rewrite lookup_empty in Hin. by apply not_elem_of_nil in Hin. }
  assert (Htot : ∀ b, total ms b = 0).
  { intros b. assert (Hall : Forall (λ m, req_to_blocks m = ∅) ms).
    { apply Forall_lookup. intros j m Hm. by destruct (Hms j m Hm) as (_ & _ & _ & ? & _). }
    clear -Hall. induction Hall as [|m ms Hm _ IH]; simpl; [done|]. rewrite Hm, held_empty, IH. done. }
  split_and!; [|by destruct log|done|].
  - split; simpl; [|intros i m Hm; apply (Hms i m Hm)|done|done]. split; simpl; [done|done| |].
    + intros b Hb. rewrite Htot. apply (pi_rc _ _ _ Hinv b Hb), elem_of_seqZ. lia.
    + intros i m Hm. destruct (Hms i m Hm) as (_ & H1 & H2 & H3 & H4 & H5 & H6).
      assert (Z.of_nat i < len (kv_cache_groups cfg)).
      { unfold len. rewrite <-Hl. apply lookup_lt_Some in Hm. lia. }
      split; try congruence; try done.
      * rewrite H2. lia.
      * intros id. unfold cached_count. rewrite H4, lookup_empty. done.
      * intros id l b. by rewrite H3, lookup_empty.
      * intros id l. by rewrite H3, lookup_empty.
      * intros b (id & l & j & Hl' & _). by rewrite H3, lookup_empty in Hl'.
  - intros i m Hm. by destruct (Hms i m Hm) as (_ & _ & _ & ? & _).
Qed.

(* ===================================================================== *)
(** ** Reachable managers                                                 *)
(* ===================================================================== *)

Section lifecycle.
Context `{env : KVEnv}.
Implicit Types (k : KVCacheManager).

(** The calls of the scheduler, in any order. *)
Inductive km_step k : KVCacheManager → Prop :=
  | StepLookup r : km_step k (get_computed_blocks r k).2
  | StepAllocate r num_new num_new_computed nc look delay enc fit :
      slots_call k r num_new num_new_computed nc look delay →
      km_step k (allocate_slots r num_new num_new_computed nc look 0 delay enc fit k).2
  | StepFree r : km_step k (km_free r k).2
  | StepRemoveSkipped id t : km_step k (km_remove_skipped_blocks id t k).2
  | StepEvict ids :
      (∀ i, i ∈ ids → 0 ≤ i < num_gpu_blocks (block_pool (coordinator k))) → km_step k (km_evict_blocks ids k).2
  | StepReset : km_step k (km_reset_prefix_cache k).2
  | StepTakeNewIds : km_step k (km_take_new_block_ids k).2
  | StepTakeEvents : km_step k (km_take_events k).2
  | StepStats : km_step k (make_prefix_cache_stats k).2.

Definition km_ok k : Prop :=
  (∃ free, km_inv k free) ∧ (log_stats k = true → is_Some (prefix_cache_stats k)).

Lemma km_ok_stats k s : km_ok k → km_ok (k <| prefix_cache_stats := Some s |>).
Proof. intros [[free [H1 H2 H3 H4]] _]. split; [|by eexists]. by exists free. Qed.

Lemma km_ok_coordinator k free c free' :
  km_ok k → km_inv k free → km_inv (k <| coordinator := c |>) free' → km_ok (k <| coordinator := c |>).
Proof. intros [_ Hs] _ Hk. split; [by exists free'|done]. Qed.

Lemma lookup_keeps k r : km_ok k → km_ok (get_computed_blocks r k).2.
Proof.
  intros Hk. unfold get_computed_blocks. rewrite run_get. case_match; [done|]. rewrite run_of_res.
  destruct (co_find_longest_cache_hit _ _ _) as [hit|]; [|done]. destruct (log_stats k) eqn:El; [|done].
  destruct (prefix_cache_stats k) as [s|]; [|done]. rewrite run_modify. by apply km_ok_stats.
Qed.

(** A method that leaves the tables as they are. *)
Definition tables_kept (m m' : Manager) : Prop :=
  mgr_cfg m' = mgr_cfg m ∧ (∀ id, blocks_of m' id = blocks_of m id) ∧ num_cached_block m' = num_cached_block m.
Lemma each_manager_keeps {A} (f : nat → bool → M MS A) id k free :
  km_inv k free →
  (∀ j b m p, attention_manager m → ∃ a m', f j b (p, m) = (Ok a, (p, m')) ∧ tables_kept m m' ∧ others_kept id m m' ∧
     (∀ ext extU fr, group_inv ext extU p fr m → group_inv ext extU p fr m')) →
  ∃ rs c free', via_coordinator (each_manager f) k = (Ok rs, k <| coordinator := c |>) ∧ km_inv (k <| coordinator := c |>) free' ∧
    co_cfg c = co_cfg (coordinator k) ∧
    managers_rel (λ _, tables_kept) (single_type_managers (coordinator k)) (single_type_managers c).
Proof.
  intros Hk Hf. destruct (each_manager_spec f id (λ _, 0) (λ _, True) (λ _ m _ m', tables_kept m m') (coordinator k) free)
    as (rs & p & ms & free' & He & Hc & _ & Hcfg & _ & Hl & _ & Hafter); try done.
  { apply (ki_co _ _ Hk). }
  { rewrite need_from_zero. apply len_nonneg. }
  { intros j m Hm ext extU p fr Hg _ _ _. destruct (Hf j (bool_decide (cls m = CrossAttentionManager)) m p) as (a & m' & He & Ht & Ho & Hg'); [by eapply (ki_attention _ _ Hk)|].
    exists a, p, m', fr. split; [done|]. destruct Ht as (? & ? & ?). split_and!; auto; try done. lia. }
  assert (Hrel : managers_rel (λ _, tables_kept) (single_type_managers (coordinator k)) ms).
  { split; [done|]. intros i m Hm. destruct (Hafter i m Hm) as (a & m' & _ & Hm' & _ & _ & Ht). by exists m'. }
  exists rs, (co_with (coordinator k) p ms), free'. split; [by apply via_ok|]. split_and!; [|by apply co_cfg_with|done].
  apply (km_inv_coordinator k free); try done.
  eapply all_attention_rel; [apply (ki_attention _ _ Hk)|exact Hrel|by intros ??? []].
Qed.
Lemma take_new_ids_keeps k free :
  km_inv k free → ∃ ids c free', km_take_new_block_ids k = (Ok ids, k <| coordinator := c |>) ∧
    km_inv (k <| coordinator := c |>) free' ∧ co_cfg c = co_cfg (coordinator k) ∧
    managers_rel (λ _, tables_kept) (single_type_managers (coordinator k)) (single_type_managers c).
Proof.
  intros Hk. destruct (each_manager_keeps (λ _ _, take_new_block_ids) "" k free Hk) as (rs & c & free' & He & H).
  { intros j b m p _. unfold take_new_block_ids, mget, mmod. rewrite run_gets, run_modify. eexists _, _. split; [reflexivity|].
    split_and!; try done. by intros ? ? ? []. }
  exists (concat rs), c, free'. split; [|done]. unfold km_take_new_block_ids. by rewrite (bind_ok _ _ _ _ _ He).
Qed.
Lemma new_step_keeps k free :
  km_inv k free → ∃ c free', km_new_step_starts k = (Ok tt, k <| coordinator := c |>) ∧
    km_inv (k <| coordinator := c |>) free' ∧ co_cfg c = co_cfg (coordinator k) ∧
    managers_rel (λ _, tables_kept) (single_type_managers (coordinator k)) (single_type_managers c).
Proof.
  intros Hk. destruct (each_manager_keeps (λ _ _, new_step_starts) "" k free Hk) as (rs & c & free' & He & H).
  { intros j b m p Ha. unfold new_step_starts, mget. rewrite run_gets. cbn [snd]. rewrite bool_decide_false by (by destruct Ha as [-> | [-> | ->]]).
    eexists _, _. split; [reflexivity|]. by split_and!. }
  exists c, free'. split; [|done]. unfold km_new_step_starts, via_coordinator, zoom, co_new_step_starts in *.
  destruct (each_manager _ (coordinator k)) as [o c'] eqn:Hm. simpl in He. injection He as -> Hc'. unfold bind. rewrite Hm. simpl. by rewrite Hc'.
Qed.
Lemma common_prefix_keeps k free id :
  km_inv k free → ∃ l c free', km_get_num_common_prefix_blocks id k = (Ok l, k <| coordinator := c |>) ∧
    km_inv (k <| coordinator := c |>) free' ∧ co_cfg c = co_cfg (coordinator k) ∧
    managers_rel (λ _, tables_kept) (single_type_managers (coordinator k)) (single_type_managers c).
Proof.
  intros Hk. destruct (each_manager_keeps (λ _ _, get_num_common_prefix_blocks id) id k free Hk) as (rs & c & free' & He & H).
  { intros j b m p Ha. unfold get_num_common_prefix_blocks, mget, pget. rewrite run_gets. cbn [snd].
    destruct (cls m); try (eexists _, m; split; [reflexivity|]; by split_and!).
    all: rewrite run_get_req_blocks, !run_gets; eexists _, (touch_entry id m); split; [reflexivity|].
    all: split_and!; try done; [|apply touch_entry_kept|intros ? ? ?; apply group_inv_touch_entry].
    all: split; [done|]; split; [|done]; intros i; destruct (decide (i = id)) as [->|Hne]; [apply touch_entry_blocks|]; unfold blocks_of, touch_entry; simpl; by rewrite lookup_insert_ne. }
  unfold km_get_num_common_prefix_blocks, co_get_num_common_prefix_blocks. destruct (kind (coordinator k)) eqn:Hkind.
  { eexists _, (coordinator k), free. split; [unfold via_coordinator, zoom, bind, get; simpl; rewrite Hkind; reflexivity|].
    replace (k <| coordinator := coordinator k |>) with k by (by destruct k). split_and!; try done. split; [done|]. intros i m Hm. by exists m. }
  all: exists rs, c, free'; (split; [|done]); revert He; unfold via_coordinator, zoom, bind, get; simpl; by rewrite Hkind.
Qed.

Lemma km_ok_same k k' free' : km_ok k → k' = k <| coordinator := coordinator k' |> → km_inv k' free' → km_ok k'.
Proof. intros [_ Hs] Heq Hk. split; [by exists free'|]. rewrite Heq. done. Qed.

Lemma step_keeps k k' : km_ok k → km_step k k' → km_ok k'.
Proof.
  intros Hok Hstep. pose proof Hok as [[free Hk] Hst].
  destruct Hstep as [r|r a b nc look delay enc fit Hcall|r|id t|ids Hids| | | |].
  - by apply lookup_keeps.
  - destruct (allocate_slots_spec k free r a b nc look delay enc fit Hk Hcall) as (res & k' & free' & -> & Heq & Hk' & _).
    by eapply km_ok_same.
  - destruct (km_free_spec k free r Hk) as (k' & free' & -> & Hk' & _ & _ & Heq). by eapply km_ok_same.
  - destruct (km_remove_skipped_blocks_spec k free id t Hk) as (k' & free' & -> & Heq & Hk'). by eapply km_ok_same.
  - destruct (km_evict_blocks_spec k free ids Hk Hids) as (k' & -> & Heq & Hk'). by eapply km_ok_same.
  - destruct (km_reset_spec k free Hk Hst) as (b & k' & -> & Hk' & _ & _ & Hst' & _). split; [by exists free|done].
  - destruct (take_new_ids_keeps k free Hk) as (ids & c & free' & -> & Hk' & _). by eapply km_ok_same.
  - unfold km_take_events. set (p := block_pool (coordinator k)).
    assert (He : ∃ l p', take_kv_events p = (Ok l, p') ∧ (p' = p ∨ p' = p <| kv_event_queue := [] |>)).
    { unfold take_kv_events. rewrite run_get. case_match; [rewrite run_put|]; eauto 10. }
    destruct He as (l & p' & He & Hp'). rewrite (via_pool_ok _ _ _ _ He). eapply km_ok_same; [done|done|].
    apply km_inv_pool; [exact Hk|..]; destruct Hp' as [->| ->]; try done; [|destruct (ci_pool _ _ _ (ki_co _ _ Hk)); by split].
    apply (ci_pool _ _ _ (ki_co _ _ Hk)).
  - unfold make_prefix_cache_stats. rewrite run_get. destruct (log_stats k); [|done]. cbn [negb]. rewrite run_put.
    by apply km_ok_stats.
Qed.

(** The managers of a configuration. *)
Inductive km_reachable (cfg : KVCacheConfig) (max_model_len hash_block_size : Z) (max_num_batched_tokens : option Z)
    (caching use_eagle log ev : bool) (dcp pcp : Z) : KVCacheManager → Prop :=
  | KmInit k :
      KVCacheManager_init cfg max_model_len hash_block_size max_num_batched_tokens caching use_eagle log ev dcp pcp = Ok k →
      km_reachable cfg max_model_len hash_block_size max_num_batched_tokens caching use_eagle log ev dcp pcp k
  | KmStep k k' :
      km_reachable cfg max_model_len hash_block_size max_num_batched_tokens caching use_eagle log ev dcp pcp k →
      km_step k k' →
      km_reachable cfg max_model_len hash_block_size max_num_batched_tokens caching use_eagle log ev dcp pcp k'.

(** A configuration of attention groups. *)
Record attention_config (cfg : KVCacheConfig) (dcp pcp : Z) : Prop := {
  ac_groups : Forall attention_group_ok (kv_cache_groups cfg);
  ac_count : len (kv_cache_groups cfg) < 2 ^ 32;
  ac_blocks : 0 < num_blocks cfg;
  ac_dcp : 0 < dcp;
  ac_pcp : 0 < pcp;
}.

Lemma reachable_ok cfg ml hbs mb caching eagle log ev dcp pcp k :
  attention_config cfg dcp pcp → km_reachable cfg ml hbs mb caching eagle log ev dcp pcp k → km_ok k.
Proof.
  intros [H1 H2 H3 H4 H5] Hr. induction Hr as [k Hk|k k' _ IH Hs]; [|by eapply step_keeps].
  destruct (KVCacheManager_init_inv _ _ _ _ _ _ _ _ _ _ _ H1 H2 H3 H4 H5 Hk) as (Hinv & Hst & _). split; [by eexists|done].
Qed.

(** C4.  For a configuration of attention groups (full, sliding-window and
    chunked local attention; no Mamba, cross-attention or sink groups) and calls
    without externally computed tokens: in every state the manager can reach by
    the calls of [km_step] (lookups, allocations of requests that stand as the
    scheduler leaves them, releases, evictions, resets of the cache), the
    reference count of each block is the number of entries of the request
    tables, of all groups, that hold it; the free queue holds exactly the blocks
    no table holds; and a block a request holds beyond its cached prefix is in
    that one entry and carries no hash. *)
Theorem reachable_manager_counts_references cfg ml hbs mb caching eagle log ev dcp pcp k :
  attention_config cfg dcp pcp → km_reachable cfg ml hbs mb caching eagle log ev dcp pcp k →
  let p := block_pool (coordinator k) in let ms := single_type_managers (coordinator k) in
  ∃ free, queue_rep (free_block_queue p) free ∧
    (∀ b, 1 ≤ b < num_gpu_blocks p → rc p b = total ms b ∧ (b ∈ free ↔ total ms b = 0)) ∧
    (∀ i m b, ms !! i = Some m → owned_in m b → total ms b = 1 ∧ bhash p b = None).
Proof.
  intros Hcfg Hr p ms. destruct (reachable_ok _ _ _ _ _ _ _ _ _ _ _ Hcfg Hr) as [[free Hk] _].
  pose proof (ki_co _ _ Hk) as Hc. pose proof (ci_pool _ _ _ Hc) as Hp. exists free. split_and!.
  - apply (pi_rep _ _ _ Hp).
  - intros b Hb. pose proof (ci_rc _ _ _ Hc b Hb) as Hrc. split; [exact Hrc|]. unfold ms. rewrite <-Hrc.
    apply (pi_rc _ _ _ Hp b Hb).
  - intros i m b Hm Ho. pose proof (ci_mgr _ _ _ Hc i m Hm) as Hmi. destruct (owned_range _ _ _ Hmi Ho) as [Hb _].
    destruct (mi_own _ _ Hmi b Ho) as [H1 H2]. unfold ms. rewrite <-(ci_rc _ _ _ Hc b Hb). done.
Qed.

(** C3.  [allocate_slots] without external tokens never fails: from a
    consistent manager of attention groups (full, sliding-window and chunked
    local attention), for a request that stands with every group as the
    scheduler leaves it ([slots_call]: no table and perhaps a prefix-cache hit,
    or a table of its computed tokens; tokens that fit the model; its block
    hashes there when it is to be cached), it either refuses or gives every
    group blocks for all slots asked for (computed, new and look-ahead tokens,
    at most the model length), the new blocks at the end of the table; requests
    other than [r] keep their tables and the manager stays consistent.  It
    refuses exactly when the whole sequence must fit and the blocks counted for
    it, with the admission caps, exceed the free ones, or when the blocks
    needed exceed those free once the blocks before the window are released. *)
Theorem allocate_slots_is_safe k free r num_new num_new_computed nc look delay enc fit :
  km_inv k free → slots_call k r num_new num_new_computed nc look delay →
  ∃ res k' free', allocate_slots r num_new num_new_computed nc look 0 delay enc fit k = (Ok res, k') ∧
    km_inv k' free' ∧
    managers_rel (slots_outcome k r (call_slots k r num_new num_new_computed look) res)
      (single_type_managers (coordinator k)) (single_type_managers (coordinator k')) ∧
    (∃ c1, co_remove_skipped_blocks (request_id r) (call_total k r num_new_computed) (coordinator k) = (Ok tt, c1) ∧
       (res = None ↔ (fit = true ∧ full_exceeds k r num_new_computed nc enc) ∨
          get_num_free_blocks (block_pool c1) < call_need k r num_new num_new_computed nc look c1)).
Proof.
  intros Hk Hcall. destruct (allocate_slots_spec k free r num_new num_new_computed nc look delay enc fit Hk Hcall)
    as (res & k' & free' & ? & _ & ? & ? & ? & _). eauto 10.
Qed.

Lemma total_zero ms : (∀ i m id, ms !! i = Some m → blocks_of m id = []) → ∀ b, total ms b = 0.
Proof.
  intros Hms b. induction ms as [|m ms IH]; [done|]. simpl. rewrite IH by (intros i m' id Hi; by apply (Hms (S i))).
  rewrite Z.add_0_r. assert (Hm : ∀ id l, req_to_blocks m !! id = Some l → l = []).
  { intros id l Hl. specialize (Hms 0%nat m id eq_refl). unfold blocks_of in Hms. by rewrite Hl in Hms. }
  clear -Hm. induction (req_to_blocks m) as [|id l R HR IHR] using map_ind; [apply held_empty|].
  rewrite held_insert_fresh by done. rewrite (Hm id l) by apply lookup_insert_eq. simpl. rewrite IHR; [done|].
  intros id' l' Hl'. apply (Hm id'). rewrite lookup_insert_ne; [done|]. intros <-. congruence.
Qed.

Lemma free_all_spec rs k free :
  km_inv k free →
  ∃ k' free', for_ rs km_free k = (Ok tt, k') ∧ km_inv k' free' ∧
    k' = k <| coordinator := coordinator k' |> ∧
    (∀ i m', single_type_managers (coordinator k') !! i = Some m' →
       ∃ m, single_type_managers (coordinator k) !! i = Some m ∧
         (∀ r, r ∈ rs → blocks_of m' (request_id r) = []) ∧
         (∀ id, blocks_of m' id = blocks_of m id ∨ blocks_of m' id = [])) ∧
    num_gpu_blocks (block_pool (coordinator k')) = num_gpu_blocks (block_pool (coordinator k)).
Proof.
  revert k free. induction rs as [|r rs IH]; intros k free Hk; simpl.
  { exists k, free. split_and!; try done; [by destruct k|]. intros i m Hm. exists m. split_and!; [done| |by left].
    by intros r ?%not_elem_of_nil. }
  destruct (km_free_spec k free r Hk) as (k1 & free1 & He & Hk1 & Hrel & Hcfg & Heq). rewrite (bind_ok _ _ _ _ _ He).
  destruct (IH k1 free1 Hk1) as (k' & free' & He' & Hk' & Heq' & Hm' & Hn).
  exists k', free'. split_and!; try done.
  - rewrite Heq', Heq. done.
  - intros i m' Hi. destruct (Hm' i m' Hi) as (m1 & Hm1 & Hin & Hid).
    destruct (managers_rel_inv _ _ _ _ _ Hrel Hm1) as (m & Hm & _ & [Hok _] & Hreq & _). exists m. split; [done|].
    assert (Hgone : blocks_of m1 (request_id r) = []) by (unfold blocks_of; by rewrite Hreq, lookup_delete_eq).
    split.
    + intros r' [->|Hr']%elem_of_cons; [|by apply Hin]. destruct (Hid (request_id r)) as [->|?]; done.
    + intros id. destruct (Hid id) as [->|?]; [|by right]. destruct (decide (id = request_id r)) as [->|Hne]; [by right|].
      left. unfold blocks_of. by rewrite Hok.
  - rewrite Hn. by apply pool_cfg_num, co_cfg_pool.
Qed.

(** C6.  No block leaks, for a configuration of attention groups (full,
    sliding-window and chunked local attention; no Mamba, cross-attention or
    sink groups) without externally computed tokens: in every state reached by
    the calls of [km_step], freeing all requests that hold blocks, in any order,
    succeeds and leaves every block but the null block free; the prefix cache
    can then be reset. *)
Theorem freeing_all_requests_returns_all_blocks cfg ml hbs mb caching eagle log ev dcp pcp k rs :
  attention_config cfg dcp pcp → km_reachable cfg ml hbs mb caching eagle log ev dcp pcp k →
  (∀ i m id, single_type_managers (coordinator k) !! i = Some m → blocks_of m id ≠ [] →
     ∃ r, r ∈ rs ∧ request_id r = id) →
  ∃ k' k'', for_ rs km_free k = (Ok tt, k') ∧
    get_num_free_blocks (block_pool (coordinator k')) = num_gpu_blocks (block_pool (coordinator k)) - 1 ∧
    km_reset_prefix_cache k' = (Ok true, k'') ∧ cached_block_hash_to_block (block_pool (coordinator k'')) = ∅.
Proof.
  intros Hcfg Hr Hall. destruct (reachable_ok _ _ _ _ _ _ _ _ _ _ _ Hcfg Hr) as [[free Hk] Hst].
  destruct (free_all_spec rs k free Hk) as (k' & free' & He & Hk' & Heq & Hms & Hn).
  pose proof (ki_co _ _ Hk') as Hc. pose proof (ci_pool _ _ _ Hc) as Hp.
  assert (Hz : ∀ b, 1 ≤ b < num_gpu_blocks (block_pool (coordinator k')) → rc (block_pool (coordinator k')) b = 0).
  { intros b Hb. rewrite (ci_rc _ _ _ Hc b Hb). apply total_zero. intros i m' id Hm'.
    destruct (Hms i m' Hm') as (m & Hm & Hin & Hid). destruct (Hid id) as [Heq'|?]; [|done].
    destruct (decide (blocks_of m id = [])) as [He0|He0]; [congruence|]. destruct (Hall i m id Hm He0) as (r & Hrs & <-). by apply Hin. }
  destruct (km_reset_spec k' free' Hk') as (b & k'' & He'' & _ & Hb & Hemp & _); [by rewrite Heq|].
  exists k', k''. split; [done|]. apply (used_blocks _ _ Hp) in Hz as Hu. split; [lia|].
  assert (b = true) as -> by (by apply Hb). auto.
Qed.
End lifecycle.

(* ===================================================================== *)
(** ** Witnesses                                                          *)
(* ===================================================================== *)

(** A full-attention and a sliding-window group over eight blocks. *)
Definition test_config : KVCacheConfig :=
  mkKVCacheConfig 9 [] [mkKVCacheGroupSpec ["a"%string] (LayerSpec test_full_spec) false;
                        mkKVCacheGroupSpec ["b"%string] (LayerSpec test_window_spec) false].
Definition no_manager : KVCacheManager :=
  mkKVCacheManager 0 false false None (mkCoordinator [] 0 false test_pool [] [] KVCacheCoordinatorNoPrefixCache) 0.
Definition test_manager : KVCacheManager :=
  match KVCacheManager_init test_config 100 2 None true false true true 1 1 with Ok k => k | Raise _ => no_manager end.
Definition test_r1 : Request := hashed_request [5; 6; 7; 8; 9].
Definition test_r2 : Request := hashed_request [5; 6; 7; 8; 1].
(** The first request runs and is freed; the second hits its blocks. *)
Definition test_manager1 : KVCacheManager := (@allocate_slots test_env test_r1 5 0 None 0 0 false 0 false test_manager).2.
Definition test_manager2 : KVCacheManager := (km_free test_r1 test_manager1).2.
Definition test_hit : KVCacheBlocks := MkKVCacheBlocks [[1; 2]; [0; 5]].

Lemma test_attention_config : attention_config test_config 1 1.
Proof. split; [repeat constructor|done|done|done|done]. Qed.

Lemma test_hashes_ready k r i m t :
  single_type_managers (coordinator k) !! i = Some m → m_bs m = 2 → hash_block_size (block_pool (coordinator k)) = 2 →
  t = 5 → r = test_r1 ∨ r = test_r2 →
  @hashes_ready test_env (block_pool (coordinator k)) m r t (PlainHashes (block_hashes r)).
Proof.
  intros _ Hbs Hh -> [-> | ->]; (split; rewrite ?Hbs, ?Hh; [reflexivity|vm_compute; split; discriminate| |
    apply memo_empty; vm_compute; reflexivity]); vm_compute; split_and!; [eauto|discriminate|constructor|exact I | eauto|discriminate|constructor|exact I].
Qed.

Lemma test_call1 : @slots_call test_env test_manager test_r1 5 0 None 0 false.
Proof.
  split; [done|by vm_compute|done|vm_compute; discriminate| |].
  - intros [|[|i]] m Hm; vm_compute in Hm; [| |discriminate]; injection Hm as <-;
      (split; [vm_compute; done || discriminate|exists []; split; [reflexivity|right; left]]);
      split_and!; try reflexivity; vm_compute; discriminate.
  - intros _ _ i m Hm. exists (PlainHashes (block_hashes test_r1)). eapply test_hashes_ready; [exact Hm| |reflexivity|reflexivity|by left].
    destruct i as [|[|i]]; vm_compute in Hm; [| |discriminate]; by injection Hm as <-.
Qed.

Lemma test_reachable2 : @km_reachable test_env test_config 100 2 None true false true true 1 1 test_manager2.
Proof.
  unfold test_manager2, test_manager1. eapply KmStep; [|apply StepFree].
  eapply KmStep; [apply KmInit; vm_compute; reflexivity|]. apply (StepAllocate _ test_r1 5 0 None 0 false 0 false).
  apply test_call1.
Qed.

Lemma test_valid_hit p m row :
  m_enable_caching m = true → NoDup (filter (λ b, b ≠ 0) row) →
  forallb (λ b, (0 <=? b) && (b <? num_gpu_blocks p) && ((b =? 0) || is_some (bhash p b))) row = true →
  valid_hit p m row.
Proof.
  intros Hc Hnd Hall. rewrite forallb_forall in Hall.
  assert (H : ∀ b, b ∈ row → (0 ≤ b < num_gpu_blocks p) ∧ (b = 0 ∨ bhash p b ≠ None)).
  { intros b Hb%list_elem_of_In. specialize (Hall b Hb). apply andb_true_iff in Hall as [[?%Z.leb_le ?%Z.ltb_lt]%andb_true_iff Ho].
    split; [lia|]. apply orb_true_iff in Ho as [?%Z.eqb_eq|Hs]; [by left|right]. intros Hn. by rewrite Hn in Hs. }
  split; [|done| |by rewrite Hc].
  - intros b Hb. by apply H.
  - intros b Hb Hb0. by destruct (H b Hb) as [_ [?|?]].
Qed.

Lemma test_call2 : @slots_call test_env test_manager2 test_r2 1 4 (Some test_hit) 0 false.
Proof.
  split; [done|by vm_compute|done|vm_compute; discriminate| |].
  - intros [|[|i]] m Hm; vm_compute in Hm; [| |discriminate]; injection Hm as <-;
      (split; [vm_compute; done || discriminate|]); [exists [1; 2]|exists [0; 5]]; (split; [vm_compute; reflexivity|right; right]);
      (split_and!; [vm_compute; reflexivity|split; vm_compute; reflexivity|]); (apply test_valid_hit; [reflexivity|vm_compute|vm_compute; reflexivity]).
    + apply NoDup_cons. split; [set_solver|apply NoDup_singleton].
    + apply NoDup_singleton.
  - intros _ _ i m Hm. exists (PlainHashes (block_hashes test_r2)). eapply test_hashes_ready; [exact Hm| |reflexivity|reflexivity|by right].
    destruct i as [|[|i]]; vm_compute in Hm; [| |discriminate]; by injection Hm as <-.
Qed.

Lemma allocate_slots_is_safe_witness :
  ∃ res k' free', @allocate_slots test_env test_r2 1 4 (Some test_hit) 0 0 false 0 false test_manager2 = (Ok res, k') ∧
    res = Some (MkKVCacheBlocks [[7]; [8]]) ∧ km_inv k' free' ∧
    managers_rel (slots_outcome test_manager2 test_r2 5 res)
      (single_type_managers (coordinator test_manager2)) (single_type_managers (coordinator k')).
Proof.
  destruct (@reachable_ok test_env _ _ _ _ _ _ _ _ _ _ _ test_attention_config test_reachable2) as [[free Hk] _].
  destruct (@allocate_slots_is_safe test_env test_manager2 free test_r2 1 4 (Some test_hit) 0 false 0 false Hk test_call2)
    as (res & k' & free' & He & Hk' & Hrel & _).
  exists res, k', free'. split; [exact He|]. split; [|split; [exact Hk'|exact Hrel]].
  assert (Hr : (@allocate_slots test_env test_r2 1 4 (Some test_hit) 0 0 false 0 false test_manager2).1
               = Ok (Some (MkKVCacheBlocks [[7]; [8]]))) by (vm_compute; reflexivity).
  rewrite He in Hr. by injection Hr.
Defined.

Lemma reachable_manager_counts_references_witness :
  let p := block_pool (coordinator test_manager2) in let ms := single_type_managers (coordinator test_manager2) in
  ∃ free, queue_rep (free_block_queue p) free ∧
    (∀ b, 1 ≤ b < num_gpu_blocks p → rc p b = total ms b ∧ (b ∈ free ↔ total ms b = 0)) ∧
    (∀ i m b, ms !! i = Some m → owned_in m b → total ms b = 1 ∧ bhash p b = None).
Proof.
  exact (@reachable_manager_counts_references test_env test_config 100 2 None true false true true 1 1 test_manager2
           test_attention_config test_reachable2).
Defined.

Lemma freeing_all_requests_returns_all_blocks_witness :
  ∃ k' k'', for_ [test_r1] km_free test_manager1 = (Ok tt, k') ∧
    get_num_free_blocks (block_pool (coordinator k')) = num_gpu_blocks (block_pool (coordinator test_manager1)) - 1 ∧
    km_reset_prefix_cache k' = (Ok true, k'') ∧ cached_block_hash_to_block (block_pool (coordinator k'')) = ∅.
Proof.
  apply (@freeing_all_requests_returns_all_blocks test_env test_config 100 2 None true false true true 1 1 test_manager1 [test_r1]).
  - exact test_attention_config.
  - unfold test_manager1. eapply KmStep; [apply KmInit; vm_compute; reflexivity|].
    apply (StepAllocate _ test_r1 5 0 None 0 false 0 false). apply test_call1.
  - assert (Hone : ∀ m id, m ∈ single_type_managers (coordinator test_manager1) → blocks_of m id ≠ [] → id = "r"%string).
    { intros m id Hm Hb. unfold blocks_of in Hb. destruct (req_to_blocks m !! id) as [l|] eqn:El; [|done].
      assert (Hd : dom (req_to_blocks m) = {["r"%string]}).
      { apply list_elem_of_lookup in Hm as [[|[|i]] Hm]; vm_compute in Hm; [| |discriminate]; injection Hm as <-; vm_compute; reflexivity. }
      apply elem_of_dom_2 in El. rewrite Hd in El. by apply elem_of_singleton in El. }
    intros i m id Hm Hb. exists test_r1. split; [by left|]. symmetry. apply (Hone m id); [|exact Hb].
    apply list_elem_of_lookup. by exists i.
Defined.
