(* ===== verification/Limits.v ===== *)
(** * Where the guarantees end

    Runs of the KV-cache manager on configurations outside the hypotheses of
    [HybridHit.v] and [KVManagerInv.v], which show that those hypotheses are
    needed: hybrid models with EAGLE look-ahead on state-space layers, several
    full-attention specs beside a windowed one, and external (connector) tokens
    in hybrid models. *)
From S2P Require Import Prelude MathUtils FreeQueue Request BlockHash BlockPool KVSpec SingleType Coordinator HybridHit KVCacheManager KVManagerInv.
Local Open Scope Z_scope.

Definition group_of (name : string) (s : KVCacheSpec) : KVCacheGroupSpec := mkKVCacheGroupSpec [name] (LayerSpec s) false.
Definition manager_of (n : Z) (specs : list KVCacheSpec) (use_eagle : bool) : KVCacheManager :=
  match KVCacheManager_init (mkKVCacheConfig n [] (map (group_of "layers") specs)) 100 2 None true use_eagle false false 1 1 with
  | Ok k => k
  | Raise _ => no_manager
  end.
Definition request_of (id : string) (toks : list Z) : Request :=
  match new_Request (Some (request_block_hasher (λ b, b) enc_hash [0] 2)) (args id toks [] None None) with
  | Ok r => r
  | Raise _ => test_r1
  end.
(** A request that runs its whole prompt; look up; look up and allocate. *)
Definition prefill (r : Request) (k : KVCacheManager) : KVCacheManager :=
  (@allocate_slots test_env r (num_tokens r) 0 None 0 0 false 0 false k).2.
Definition release (r : Request) (k : KVCacheManager) : KVCacheManager := (km_free r k).2.
Definition lookup_rows (r : Request) (k : KVCacheManager) : option (list (list ref) * Z) :=
  match (get_computed_blocks r k).1 with
  | Ok (nc, hit) => Some (kb_blocks (num_kv_cache_groups k) nc, hit)
  | Raise _ => None
  end.
Definition run_with_external (r : Request) (new external : Z) (k : KVCacheManager) : option (list (list ref)) :=
  match get_computed_blocks r k with
  | (Ok (nc, hit), k') =>
      match @allocate_slots test_env r new hit (Some nc) 0 external false 0 false k' with
      | (Ok (Some _), k'') => Some (co_get_blocks (coordinator k'') (request_id r))
      | _ => None
      end
  | _ => None
  end.

Definition test_mamba_spec : KVCacheSpec := MambaSpec test_mamba_fields.
Definition other_full_spec : KVCacheSpec :=
  FullAttentionSpec (mkAttentionSpec 2 4 64 "torch.float16" KV_NONE None) 64 None None.

(** With EAGLE, a hybrid model of full-attention and state-space layers can
    be told a hit its full-attention blocks do not cover: the state-space lookup
    ignores the EAGLE drop the full-attention lookup applied, and the longer
    length wins.  Six tokens are reported as computed, the full-attention row
    holds two blocks of two tokens. *)
Theorem mamba_eagle_hit_exceeds_full_attention :
  let r1 := request_of "a" [5; 6; 7; 8; 9; 10] in let r2 := request_of "b" [5; 6; 7; 8; 9; 10; 11] in
  let k specs eagle := release r1 (prefill r1 (manager_of 20 specs eagle)) in
  lookup_rows r2 (k [test_full_spec; test_mamba_spec] true) = Some ([[1; 2]; [0; 0; 4]], 6) ∧
  lookup_rows r2 (k [test_full_spec; test_mamba_spec] false) = Some ([[1; 2; 3]; [0; 0; 4]], 6).
Proof. split; vm_compute; reflexivity. Qed.

(** External tokens in a hybrid model can put one block into two tables:
    the first group's blocks for the external tokens are taken from the free
    queue before the second group's hit is taken out of it.  Block 5, a hit of
    the second group, becomes the fifth block of the first. *)
Theorem external_tokens_share_a_block :
  let r1 := request_of "a" [5; 6; 7; 8; 9; 10] in let r3 := request_of "c" [1; 1; 1; 1; 1; 1] in
  let r2 := request_of "b" [5; 6; 7; 8; 1; 2; 3; 4; 5; 6; 7] in
  let k := release r3 (release r1 (prefill r3 (prefill r1 (manager_of 13 [test_full_spec; other_full_spec] false)))) in
  lookup_rows r2 k = Some ([[1; 2]; [4; 5]], 4) ∧
  run_with_external r2 1 6 k = Some [[1; 2; 3; 6; 5; 12]; [4; 5; 9; 8; 7; 11]].
Proof. split; vm_compute; reflexivity. Qed.

(** The rows of a hit need not have the length of the hit when two full-
    attention specs stand beside a windowed one: only the first is cut to the
    final length.  Here the hit is two tokens and the second row covers six. *)
Theorem second_full_group_is_not_truncated :
  let r1 := request_of "a" [5; 6; 7; 8; 9; 10] in let r2 := request_of "b" [5; 6; 7; 8; 9; 10; 11] in
  let k := release r1 (prefill r1 (manager_of 20 [test_full_spec; other_full_spec; test_window_spec] false)) in
  lookup_rows r2 k = Some ([[1; 2; 3]; [4; 5; 6]; [0; 0; 9]], 6) ∧
  lookup_rows r2 (@km_evict_blocks test_env [8; 9] k).2 = Some ([[1]; [4; 5; 6]; [7]], 2).
Proof. split; vm_compute; reflexivity. Qed.
