(* ===== verification/SchedUtils.v ===== *)
(** * Stopping and list helpers of the scheduler
    ([src/vllm/v1/core/sched/utils.py])

    [check_stop] decides after each generated token whether a request ends, with
    which status and which stop reason; [_update_request_with_output] appends the
    sampled tokens up to the first that ends it; [check_sequence_repetition] looks for a pattern repeated
    at the end of the output; [remove_all] drops requests from a list. *)
From S2P Require Import Prelude Request BlockHash.
Local Open Scope Z_scope.

(* ===================================================================== *)
(** ** Repetition detection                                               *)
(* ===================================================================== *)

(** The inner loop, [for m in range(1, repetition_min_count)]. *)
Fixpoint repeats_token (token_ids : list Z) (target pattern_len n : Z) (m : Z) (fuel : nat) : res bool :=
  match fuel with
  | O => Ok true
  | S fuel' =>
      match py_nth token_ids (- (pattern_len * m + n)) with
      | None => Raise IndexError
      | Some t => if t =? target then repeats_token token_ids target pattern_len n (m + 1) fuel' else Ok false
      end
  end.
(** The outer loop, [for n in range(1, pattern_len + 1)]. *)
Fixpoint repeats_from (token_ids : list Z) (pattern_len repetition_min_count : Z) (n : Z) (fuel : nat) : res bool :=
  match fuel with
  | O => Ok true
  | S fuel' =>
      match py_nth token_ids (- n) with
      | None => Raise IndexError
      | Some target =>
          match repeats_token token_ids target pattern_len n 1 (Z.to_nat (repetition_min_count - 1)) with
          | Ok true => repeats_from token_ids pattern_len repetition_min_count (n + 1) fuel'
          | r => r
          end
      end
  end.
Definition _has_repeating_pattern (token_ids : list Z) (pattern_len repetition_min_count : Z) : res bool :=
  repeats_from token_ids pattern_len repetition_min_count 1 (Z.to_nat pattern_len).

(** [for pattern_len in range(min_pattern_size, max_pattern_size + 1)]. *)
Fixpoint repetition_loop (token_ids : list Z) (min_count : Z) (pattern_lens : list Z) : res bool :=
  match pattern_lens with
  | [] => Ok false
  | pattern_len :: rest =>
      if len token_ids <? pattern_len * min_count then Ok false
      else match _has_repeating_pattern token_ids pattern_len min_count with
           | Ok false => repetition_loop token_ids min_count rest
           | r => r
           end
  end.
Definition check_sequence_repetition (token_ids : list Z) (params : RepetitionDetectionParams) : res bool :=
  let max_pattern_size := max_pattern_size params in
  let min_pattern_size := if min_pattern_size params <=? 0 then 1 else min_pattern_size params in
  let min_count := min_count params in
  if (max_pattern_size <=? 0) || (min_count <? 2) || (max_pattern_size <? min_pattern_size) then Ok false
  else repetition_loop token_ids min_count (seqZ min_pattern_size (max_pattern_size + 1 - min_pattern_size)).

(* ===================================================================== *)
(** ** Removal                                                            *)
(* ===================================================================== *)

(** [lst.remove(item)] with the [ValueError] suppressed. *)
Fixpoint remove_first {A} `{EqDecision A} (item : A) (lst : list A) : list A :=
  match lst with
  | [] => []
  | x :: lst' => if decide (x = item) then lst' else x :: remove_first item lst'
  end.
(** [remove_all]; the set to remove is listed in its iteration order. *)
Definition remove_all {A} `{EqDecision A} (lst items_to_remove : list A) : list A :=
  match items_to_remove with
  | [] => lst
  | [item] => remove_first item lst
  | _ => filter (λ x, x ∉ items_to_remove) lst
  end.

(* ===================================================================== *)
(** ** Stopping                                                           *)
(* ===================================================================== *)

Definition check_stop (max_model_len : Z) : M Request bool :=
  r <- get ;;
  match pooling_params r, sampling_params r with
  | Some _, _ => raise AssertionError
  | None, None => raise AssertionError
  | None, Some sp =>
      if num_output_tokens r <? min_tokens sp then ret false
      else
        last_token_id <- of_option IndexError (py_nth (_output_token_ids r) (-1)) ;;
        if bool_decide (Some last_token_id = eos_token_id sp) then
          modify (λ r, r <| status := FINISHED_STOPPED |>) ;; ret true
        else if bool_decide (last_token_id ∈ default [] (stop_token_ids sp)) then
          modify (λ r, r <| status := FINISHED_STOPPED |> <| stop_reason := Some (StopToken last_token_id) |>) ;; ret true
        else if (max_model_len <=? num_tokens r) || (max_tokens r <=? num_output_tokens r) then
          modify (λ r, r <| status := FINISHED_LENGTH_CAPPED |>) ;; ret true
        else
          match repetition_detection sp with
          | None => ret false
          | Some params =>
              found <- of_res (check_sequence_repetition (_output_token_ids r) params) ;;
              if (found : bool) then
                modify (λ r, r <| status := FINISHED_REPETITION |>
                               <| stop_reason := Some (StopText "repetition_detected") |>) ;; ret true
              else ret false
          end
  end.

(* ===================================================================== *)
(** ** Repetition: the reference definition                               *)
(* ===================================================================== *)

(** The sequence ends in [c] copies of a pattern of [L] tokens. *)
Definition ends_in_repetition (ids : list Z) (L c : Z) : Prop :=
  ∃ pre w, len w = L ∧ ids = pre ++ concat (replicate (Z.to_nat c) w).

(** Counted from the end, [k >= 1]. *)
Definition from_end (ids : list Z) (k : Z) : option Z := ids !! Z.to_nat (len ids - k).

Lemma py_nth_neg (ids : list Z) k : 1 ≤ k ≤ len ids → py_nth ids (- k) = from_end ids k.
Proof.
  intros Hk. unfold py_nth, from_end. destruct (Z.ltb_spec (- k) 0); [|lia]. cbv zeta.
  destruct (Z.ltb_spec (- k + len ids) 0); [lia|]. do 2 f_equal. lia.
Qed.
Lemma from_end_some (ids : list Z) k : 1 ≤ k ≤ len ids → is_Some (from_end ids k).
Proof. intros Hk. apply lookup_lt_is_Some_2. unfold len in *. lia. Qed.

Lemma length_copies (w : list Z) c : length (concat (replicate c w)) = (c * length w)%nat.
Proof. induction c as [|c IH]; simpl; [done|]. rewrite length_app, IH. done. Qed.
Lemma lookup_copies (w : list Z) c j :
  (j < c * length w)%nat → concat (replicate c w) !! j = w !! (j mod length w)%nat.
Proof.
  revert j. induction c as [|c IH]; intros j Hj; simpl in *; [lia|].
  destruct (decide (j < length w)%nat) as [Hlt|Hge].
  - rewrite lookup_app_l by done. by rewrite Nat.mod_small.
  - rewrite lookup_app_r by lia. rewrite IH by lia. f_equal.
    replace j with ((j - length w) + 1 * length w)%nat at 2 by lia. rewrite Nat.Div0.mod_add. done.
Qed.

(** Every token of the last pattern recurs in the copies before it. *)
Definition periodic (ids : list Z) (L c : Z) : Prop :=
  ∀ n m, 1 ≤ n ≤ L → 1 ≤ m < c → from_end ids (L * m + n) = from_end ids n.

Lemma copies_from_end pre w c n m :
  0 ≤ m < c → 1 ≤ n ≤ len w →
  from_end (pre ++ concat (replicate (Z.to_nat c) w)) (len w * m + n) = w !! Z.to_nat (len w - n).
Proof.
  intros Hm Hn. unfold from_end, len in *. rewrite length_app, length_copies.
  rewrite lookup_app_r by nia. rewrite lookup_copies by nia. f_equal.
  replace (Z.to_nat (Z.of_nat (length pre + Z.to_nat c * length w) - (Z.of_nat (length w) * m + n)) - length pre)%nat
    with (Z.to_nat (Z.of_nat (length w) - n) + Z.to_nat (c - m - 1) * length w)%nat by nia.
  rewrite Nat.Div0.mod_add. apply Nat.mod_small. lia.
Qed.

Lemma periodic_copies ids L c :
  1 ≤ L → 2 ≤ c → L * c ≤ len ids → periodic ids L c ↔ ends_in_repetition ids L c.
Proof.
  intros HL Hc Hlen. split.
  - intros Hp. set (w := drop (Z.to_nat (len ids - L)) ids). set (k := Z.to_nat (len ids - L * c)).
    assert (Hw : len w = L) by (unfold w, len in *; rewrite length_drop; nia).
    assert (Hwl : ∀ t, w !! t = ids !! (Z.to_nat (len ids - L) + t)%nat) by (intros t; apply lookup_drop). clearbody w.
    exists (take k ids), w. split; [done|]. rewrite <-(take_drop k ids) at 1. f_equal.
    assert (HlD : length (drop k ids) = (Z.to_nat c * length w)%nat) by (rewrite length_drop; unfold k, len in *; nia).
    apply list_eq_same_length with (n := (Z.to_nat c * length w)%nat); [by rewrite length_copies|done|].
    intros j x y Hj Hx Hy. rewrite lookup_copies in Hy by done. rewrite lookup_drop in Hx. rewrite Hwl in Hy.
    set (q := (j / length w)%nat). pose proof (Nat.div_mod_eq j (length w)) as Hdm. fold q in Hdm.
    pose proof (Nat.mod_upper_bound j (length w) ltac:(unfold len in *; lia)) as Hmod.
    set (t := (j mod length w)%nat) in *. unfold len in *.
    assert (Hq : (q < Z.to_nat c)%nat) by (apply Nat.Div0.div_lt_upper_bound; unfold len in *; nia).
    assert (HLl : L ≤ Z.of_nat (length ids)) by nia.
    assert (HjZ : Z.of_nat j = L * Z.of_nat q + Z.of_nat t) by lia.
    assert (HkZ : Z.of_nat k = Z.of_nat (length ids) - L * c) by (unfold k; lia).
    destruct (decide (Z.of_nat q = c - 1)) as [Heq|Hne].
    + replace (k + j)%nat with (Z.to_nat (Z.of_nat (length ids) - L) + t)%nat in Hx by (rewrite Heq in HjZ; lia). congruence.
    + specialize (Hp (L - Z.of_nat t) (c - 1 - Z.of_nat q) ltac:(lia) ltac:(lia)). unfold from_end, len in Hp.
      replace (Z.to_nat (Z.of_nat (length ids) - (L * (c - 1 - Z.of_nat q) + (L - Z.of_nat t)))) with (k + j)%nat in Hp by lia.
      replace (Z.to_nat (Z.of_nat (length ids) - (L - Z.of_nat t))) with (Z.to_nat (Z.of_nat (length ids) - L) + t)%nat in Hp by lia.
      congruence.
  - intros (pre & w & Hw & ->) n m Hn Hm. rewrite <-Hw in *.
    rewrite copies_from_end by lia. replace n with (len w * 0 + n) at 2 by lia. by rewrite copies_from_end by lia.
Qed.

Lemma repeats_token_spec ids target L n c m fuel :
  1 ≤ n ≤ L → 1 ≤ m → m + Z.of_nat fuel = c → L * c ≤ len ids → from_end ids n = Some target →
  ∃ b, repeats_token ids target L n m fuel = Ok b ∧
    (b = true ↔ ∀ m', m ≤ m' < c → from_end ids (L * m' + n) = from_end ids n).
Proof.
  revert m. induction fuel as [|fuel IH]; intros m Hn Hm Hf Hlen Ht; simpl.
  { exists true. split; [done|]. split; [|done]. intros _ m' Hm'. lia. }
  rewrite py_nth_neg by nia. destruct (from_end_some ids (L * m + n)) as [t Heq]; [nia|]. rewrite Heq.
  destruct (Z.eqb_spec t target) as [->|Hne].
  - destruct (IH (m + 1)) as (b & -> & Hb); try done; [lia|lia|]. exists b. split; [done|]. rewrite Hb. split.
    + intros H m' Hm'. destruct (decide (m' = m)) as [->|]; [congruence|]. apply H. lia.
    + intros H m' Hm'. apply H. lia.
  - exists false. split; [done|]. split; [done|]. intros H. specialize (H m ltac:(lia)). congruence.
Qed.

Lemma repeats_from_spec ids L c n fuel :
  1 ≤ n → 2 ≤ c → n + Z.of_nat fuel = L + 1 → L * c ≤ len ids →
  ∃ b, repeats_from ids L c n fuel = Ok b ∧
    (b = true ↔ ∀ n' m, n ≤ n' ≤ L → 1 ≤ m < c → from_end ids (L * m + n') = from_end ids n').
Proof.
  revert n. induction fuel as [|fuel IH]; intros n Hn Hc Hf Hlen; simpl.
  { exists true. split; [done|]. split; [|done]. intros _ n' m Hn'. lia. }
  rewrite py_nth_neg by nia. destruct (from_end_some ids n) as [t Ht]; [nia|]. rewrite Ht.
  destruct (repeats_token_spec ids t L n c 1 (Z.to_nat (c - 1))) as (b & -> & Hb); [lia|lia|lia|done|done|].
  destruct b.
  - destruct (IH (n + 1)) as (b' & -> & Hb'); [lia|done|lia|done|]. exists b'. split; [done|]. rewrite Hb'. split.
    + intros H n' m Hn' Hm. destruct (decide (n' = n)) as [->|]; [by apply Hb|]. apply H; lia.
    + intros H n' m Hn' Hm. apply H; lia.
  - exists false. split; [done|]. split; [done|]. intros H. apply Hb. intros m Hm. apply H; lia.
Qed.

Lemma has_repeating_pattern_spec ids L c :
  1 ≤ L → 2 ≤ c → L * c ≤ len ids →
  ∃ b, _has_repeating_pattern ids L c = Ok b ∧ (b = true ↔ ends_in_repetition ids L c).
Proof.
  intros HL Hc Hlen. destruct (repeats_from_spec ids L c 1 (Z.to_nat L)) as (b & He & Hb); [done|done|lia|done|].
  exists b. split; [done|]. rewrite Hb, <-periodic_copies by done. done.
Qed.

Lemma repetition_loop_spec ids c n a :
  1 ≤ a → 2 ≤ c →
  ∃ b, repetition_loop ids c (seqZ a (Z.of_nat n)) = Ok b ∧
    (b = true ↔ ∃ L, a ≤ L < a + Z.of_nat n ∧ L * c ≤ len ids ∧ ends_in_repetition ids L c).
Proof.
  intros Ha Hc. revert a Ha. induction n as [|n IH]; intros a Ha.
  { exists false. split; [done|]. split; [done|]. intros (L & ? & _). lia. }
  rewrite seqZ_cons by lia. simpl. replace (Z.pred (Z.of_nat (S n))) with (Z.of_nat n) by lia.
  destruct (Z.ltb_spec (len ids) (a * c)) as [Hlt|Hge].
  { exists false. split; [done|]. split; [done|]. intros (L & ? & ? & _). nia. }
  destruct (has_repeating_pattern_spec ids a c) as (b & -> & Hb); [done..|].
  destruct b.
  - exists true. split; [done|]. split; [|done]. intros _. exists a. split; [lia|]. split; [done|]. by apply Hb.
  - destruct (IH (Z.succ a)) as (b' & -> & Hb'); [lia|]. exists b'. split; [done|]. rewrite Hb'. split.
    + intros (L & ? & ?). exists L. split; [lia|done].
    + intros (L & HL & Hl & He). exists L. split; [|done]. destruct (decide (L = a)) as [->|]; [|lia].
      exfalso. apply Hb in He. done.
Qed.

Lemma check_sequence_repetition_exact ids params :
  let lo := Z.max 1 (min_pattern_size params) in let c := min_count params in
  ∃ b, check_sequence_repetition ids params = Ok b ∧
    (b = true ↔ 2 ≤ c ∧ ∃ L, lo ≤ L ≤ max_pattern_size params ∧ L * c ≤ len ids ∧ ends_in_repetition ids L c).
Proof.
  intros lo c. unfold check_sequence_repetition. cbv zeta.
  replace (if min_pattern_size params <=? 0 then 1 else min_pattern_size params) with lo
    by (unfold lo; destruct (Z.leb_spec (min_pattern_size params) 0); lia).
  fold c. destruct ((max_pattern_size params <=? 0) || (c <? 2) || (max_pattern_size params <? lo)) eqn:E.
  - exists false. split; [done|]. split; [done|]. intros (Hc & L & HL & _). exfalso.
    apply orb_true_iff in E as [[E|E]%orb_true_iff|E]; bool_to_prop; lia.
  - bool_to_prop. destruct (repetition_loop_spec ids c (Z.to_nat (max_pattern_size params + 1 - lo)) lo)
      as (b & He & Hb); [lia|lia|]. rewrite Z2Nat.id in He, Hb by lia. exists b. split; [done|]. rewrite Hb. split.
    + intros (L & HL & ?). split; [lia|]. exists L. split; [lia|done].
    + intros (_ & L & HL & ?). exists L. split; [lia|done].
Qed.

(** C38.  Repetition detection is exact and never fails: it answers whether the
    output ends in at least [min_count] copies of some pattern whose length is
    between the two sizes (a lower size below one counts as one); with a
    non-positive upper size, a count below two or an empty range it answers no. *)
Theorem check_sequence_repetition_is_exact ids params :
  let lo := Z.max 1 (min_pattern_size params) in let c := min_count params in
  ∃ b, check_sequence_repetition ids params = Ok b ∧
    (b = true ↔ 2 ≤ c ∧ ∃ L, lo ≤ L ≤ max_pattern_size params ∧ L * c ≤ len ids ∧ ends_in_repetition ids L c).
Proof. apply check_sequence_repetition_exact. Qed.

(* ===================================================================== *)
(** ** Stopping and removal                                               *)
(* ===================================================================== *)

(** What ends a request: an EOS or stop token, the length limits, a repetition. *)
Definition hits_stop_token (sp : SamplingParams) (r : Request) : Prop :=
  ∃ t, last (_output_token_ids r) = Some t ∧ (eos_token_id sp = Some t ∨ t ∈ default [] (stop_token_ids sp)).
Definition hits_length (max_model_len : Z) (r : Request) : Prop :=
  max_model_len ≤ num_tokens r ∨ max_tokens r ≤ num_output_tokens r.
Definition hits_repetition (sp : SamplingParams) (r : Request) : Prop :=
  ∃ params, repetition_detection sp = Some params ∧ 2 ≤ min_count params ∧
    ∃ L, Z.max 1 (min_pattern_size params) ≤ L ≤ max_pattern_size params ∧
      L * min_count params ≤ len (_output_token_ids r) ∧ ends_in_repetition (_output_token_ids r) L (min_count params).

(** The first reason that applies, with the status and the stop reason it sets: an
    EOS token and the length limits leave the stop reason as it was. *)
Inductive stops_with (max_model_len : Z) (sp : SamplingParams) (r : Request) : RequestStatus → option StopReason → Prop :=
  | StopAtEos t : last (_output_token_ids r) = Some t → eos_token_id sp = Some t →
      stops_with max_model_len sp r FINISHED_STOPPED (stop_reason r)
  | StopAtToken t : last (_output_token_ids r) = Some t → eos_token_id sp ≠ Some t → t ∈ default [] (stop_token_ids sp) →
      stops_with max_model_len sp r FINISHED_STOPPED (Some (StopToken t))
  | StopAtLength : ~ hits_stop_token sp r → hits_length max_model_len r →
      stops_with max_model_len sp r FINISHED_LENGTH_CAPPED (stop_reason r)
  | StopAtRepetition : ~ hits_stop_token sp r → ~ hits_length max_model_len r → hits_repetition sp r →
      stops_with max_model_len sp r FINISHED_REPETITION (Some (StopText "repetition_detected")).

Lemma py_nth_last_elem (l : list Z) : py_nth l (-1) = last l.
Proof.
  induction l as [|x l _] using rev_ind; [done|]. by rewrite py_nth_last, last_snoc.
Qed.

Lemma check_stop_exact max_model_len r sp :
  pooling_params r = None → sampling_params r = Some sp → _output_token_ids r ≠ [] →
  ∃ b r', check_stop max_model_len r = (Ok b, r') ∧
    (b = true ↔ min_tokens sp ≤ num_output_tokens r ∧
       (hits_stop_token sp r ∨ hits_length max_model_len r ∨ hits_repetition sp r)) ∧
    (b = false → r' = r) ∧
    (b = true → status_is_finished (status r') = true ∧
       r' = r <| status := status r' |> <| stop_reason := stop_reason r' |> ∧
       stops_with max_model_len sp r (status r') (stop_reason r')).
Proof.
  intros Hp Hs Hne. unfold check_stop. rewrite run_get, Hp, Hs. destruct (Z.ltb_spec (num_output_tokens r) (min_tokens sp)) as [Hm|Hm].
  { exists false, r. split_and!; try done. split; [done|]. intros [? _]. lia. }
  rewrite py_nth_last_elem. destruct (last (_output_token_ids r)) as [t|] eqn:El; [|by apply last_None in El].
  rewrite run_of_option.
  assert (Hst : hits_stop_token sp r ↔ eos_token_id sp = Some t ∨ t ∈ default [] (stop_token_ids sp)).
  { unfold hits_stop_token. rewrite El. naive_solver. }
  assert (Hlen : (max_model_len <=? num_tokens r) || (max_tokens r <=? num_output_tokens r) = true ↔ hits_length max_model_len r).
  { unfold hits_length. by rewrite orb_true_iff, !Z.leb_le. }
  case_bool_decide as He.
  { assert (Hyes : hits_stop_token sp r) by (apply Hst; by left). rewrite run_modify. eexists true, _. split; [reflexivity|]. split; [tauto|]. split; [done|]. intros _.
    split; [done|]. split; [done|]. exact (StopAtEos _ _ r t El (eq_sym He)). }
  case_bool_decide as Ht.
  { assert (Hyes : hits_stop_token sp r) by (apply Hst; by right). rewrite run_modify. eexists true, _. split; [reflexivity|]. split; [tauto|]. split; [done|]. intros _.
    split; [done|]. split; [done|]. refine (StopAtToken _ _ r t El _ Ht). congruence. }
  assert (Hno : ¬ hits_stop_token sp r) by (rewrite Hst; intros [?|?]; congruence).
  destruct ((max_model_len <=? num_tokens r) || (max_tokens r <=? num_output_tokens r)).
  { assert (Hyes : hits_length max_model_len r) by (by apply Hlen). rewrite run_modify. eexists true, _. split; [reflexivity|]. split; [tauto|]. split; [done|]. intros _.
    split; [done|]. split; [done|]. exact (StopAtLength _ _ r Hno Hyes). }
  assert (Hnl : ¬ hits_length max_model_len r) by (rewrite <-Hlen; done).
  destruct (repetition_detection sp) as [params|] eqn:Er.
  - destruct (check_sequence_repetition_exact (_output_token_ids r) params) as (b & -> & Hb). rewrite run_of_res.
    assert (Hrep : b = true ↔ hits_repetition sp r) by (rewrite Hb; unfold hits_repetition; rewrite Er; naive_solver).
    destruct b; [rewrite run_modify; eexists true, _|exists false, r]; (split; [reflexivity|]); [|split_and!; try done; naive_solver].
    assert (Hyes : hits_repetition sp r) by (by apply Hrep). split; [tauto|]. split; [done|]. intros _. split; [done|]. split; [done|]. exact (StopAtRepetition _ _ r Hno Hnl Hyes).
  - exists false, r. split_and!; try done. split; [done|]. intros [_ [?|[?|(params & ? & _)]]]; congruence || tauto.
Qed.

(** C36.  [check_stop] is exact.  For a sampling request with output it never
    fails; it answers yes exactly when at least [min_tokens] tokens are there and
    the last token is an EOS or stop token, a length limit is reached, or the
    output ends in a forbidden repetition.  A yes sets the status of the first
    of these reasons that applies, in the order EOS, stop token, length,
    repetition, and the stop reason to the stop token or to the name of the
    repetition, or leaves it for EOS and length; it changes nothing else.  A no
    changes nothing. *)
Theorem check_stop_is_exact max_model_len r sp :
  pooling_params r = None → sampling_params r = Some sp → _output_token_ids r ≠ [] →
  ∃ b r', check_stop max_model_len r = (Ok b, r') ∧
    (b = true ↔ min_tokens sp ≤ num_output_tokens r ∧
       (hits_stop_token sp r ∨ hits_length max_model_len r ∨ hits_repetition sp r)) ∧
    (b = false → r' = r) ∧
    (b = true → status_is_finished (status r') = true ∧
       r' = r <| status := status r' |> <| stop_reason := stop_reason r' |> ∧
       stops_with max_model_len sp r (status r') (stop_reason r')).
Proof. apply check_stop_exact. Qed.

Lemma remove_first_absent {A} `{EqDecision A} (x : A) l : x ∉ l → remove_first x l = l.
Proof.
  induction l as [|y l IH]; intros Hx; simpl; [done|]. rewrite not_elem_of_cons in Hx. destruct Hx as [Hne Hl].
  rewrite decide_False by congruence. by rewrite IH.
Qed.
Lemma remove_first_filter {A} `{EqDecision A} (x : A) l : NoDup l → remove_first x l = filter (λ y, y ∉ [x]) l.
Proof.
  induction 1 as [|y l Hy Hl IH]; simpl; [done|]. destruct (decide (y = x)) as [->|Hne].
  - rewrite filter_cons_False by (intros Hn; apply Hn; by left). symmetry. apply filter_all.
    intros z Hz ->%list_elem_of_singleton. done.
  - rewrite filter_cons_True by (rewrite list_elem_of_singleton; done). by rewrite IH.
Qed.

(** On a list without duplicates the fast path for one item and the general
    path of [remove_all] agree: the result is the list without the items. *)
Lemma remove_all_is_filter {A} `{EqDecision A} (lst items : list A) :
  NoDup lst → remove_all lst items = filter (λ x, x ∉ items) lst.
Proof.
  intros Hl. destruct items as [|x [|y items]]; simpl; [|by apply remove_first_filter|done].
  symmetry. apply filter_all. intros x _. apply not_elem_of_nil.
Qed.

(* ===================================================================== *)
(** ** Appending the sampled tokens                                       *)
(* ===================================================================== *)

(** [Scheduler._update_request_with_output]
    ([src/vllm/v1/core/sched/scheduler.py]): append token by token until one
    stops the request, and cut the rest. *)
Fixpoint update_loop (hasher : option BlockHasher) (max_model_len : Z) (kept todo : list Z) : M Request (list Z * bool) :=
  match todo with
  | [] => ret (kept, false)
  | t :: rest =>
      append_output_token_ids hasher [t] ;;
      stopped <- check_stop max_model_len ;;
      if (stopped : bool) then ret (kept ++ [t], true) else update_loop hasher max_model_len (kept ++ [t]) rest
  end.
Definition _update_request_with_output (hasher : option BlockHasher) (max_model_len : Z) (new_token_ids : list Z) :
    M Request (list Z * bool) := update_loop hasher max_model_len [] new_token_ids.

(** The request with tokens appended, as far as stopping is concerned. *)
Definition appended (r : Request) (ts : list Z) : Request :=
  r <| _output_token_ids ::= λ l, l ++ ts |> <| _all_token_ids ::= λ l, l ++ ts |>.
(** What the scheduler relies on from a block hasher, for the requests [ok] it
    works for: it returns, only changes the hashes, and goes on working. *)
Class HasherLaws (hasher : option BlockHasher) (ok : Request → Prop) := hasher_append : ∀ r t, ok r → ∃ hs memo,
  let r' := appended r [t] <| block_hashes := hs |> <| _prompt_embeds_per_block_hashes := memo |> in
  append_output_token_ids hasher [t] r = (Ok tt, r') ∧ ok r'.
#[export] Instance no_hasher_laws : HasherLaws None (λ _, True).
Proof. intros r t _. by exists (block_hashes r), (_prompt_embeds_per_block_hashes r). Qed.
Lemma block_hasher_laws sha256 hash_function NONE_HASH bs : 0 < bs →
  HasherLaws (Some (request_block_hasher sha256 hash_function NONE_HASH bs)) (singly_hashed sha256 hash_function NONE_HASH bs).
Proof. intros Hbs r t. by apply singly_hashed_append. Qed.

Definition should_stop (max_model_len : Z) (sp : SamplingParams) (r : Request) : Prop :=
  min_tokens sp ≤ num_output_tokens r ∧ (hits_stop_token sp r ∨ hits_length max_model_len r ∨ hits_repetition sp r).

Section update.
Context (hasher : option BlockHasher) (ok : Request → Prop) `{!HasherLaws hasher ok} (max_model_len : Z) (sp : SamplingParams).

Lemma should_stop_same r r' :
  _output_token_ids r' = _output_token_ids r → _all_token_ids r' = _all_token_ids r → max_tokens r' = max_tokens r →
  should_stop max_model_len sp r' ↔ should_stop max_model_len sp r.
Proof.
  intros H1 H2 H3. unfold should_stop, hits_stop_token, hits_length, hits_repetition, num_output_tokens, num_tokens.
  by rewrite H1, H2, H3.
Qed.

Lemma update_loop_spec r0 kept todo r :
  ok r → pooling_params r = None → sampling_params r = Some sp →
  _output_token_ids r = _output_token_ids r0 ++ kept → _all_token_ids r = _all_token_ids r0 ++ kept → max_tokens r = max_tokens r0 →
  ∃ k stopped r', update_loop hasher max_model_len kept todo r = (Ok (kept ++ take k todo, stopped), r') ∧
    _output_token_ids r' = _output_token_ids r0 ++ kept ++ take k todo ∧
    (∀ j, (1 ≤ j < k)%nat → ¬ should_stop max_model_len sp (appended r0 (kept ++ take j todo))) ∧
    (stopped = true → (1 ≤ k ≤ length todo)%nat ∧ should_stop max_model_len sp (appended r0 (kept ++ take k todo)) ∧
       status_is_finished (status r') = true) ∧
    (stopped = false → k = length todo ∧ status r' = status r ∧
       ∀ j, (1 ≤ j ≤ k)%nat → ¬ should_stop max_model_len sp (appended r0 (kept ++ take j todo))).
Proof.
  revert kept r. induction todo as [|t todo IH]; intros kept r Hok Hp Hs Ho Ha Hm; simpl.
  { exists 0%nat, false, r. rewrite app_nil_r. split_and!; try done; [lia|]. intros _. split_and!; try done. lia. }
  destruct (hasher_append r t Hok) as (hs & memo & Hh & Hok1). mstep Hh. set (r1 := setter _ _ _) in *.
  assert (Ho1 : _output_token_ids r1 = _output_token_ids r0 ++ (kept ++ [t])) by (unfold r1; simpl; by rewrite Ho, app_assoc).
  assert (Ha1 : _all_token_ids r1 = _all_token_ids r0 ++ (kept ++ [t])) by (unfold r1; simpl; by rewrite Ha, app_assoc).
  assert (Hss : should_stop max_model_len sp r1 ↔ should_stop max_model_len sp (appended r0 (kept ++ [t])))
    by (apply should_stop_same; done).
  destruct (check_stop_exact max_model_len r1 sp) as (b & r2 & He & Hb & Hf & Ht); [done|done| |].
  { rewrite Ho1, app_assoc. by destruct (_ ++ kept). }
  rewrite (bind_ok _ _ _ _ _ He). destruct b.
  - exists 1%nat, true, r2. destruct (Ht eq_refl) as (Hfin & Hr2 & _). cbn [take]. split; [done|].
    split; [rewrite Hr2; exact Ho1|]. split; [intros j Hj; lia|]. split; [|done]. intros _. split; [simpl; lia|].
    split; [|done]. apply Hss. by apply Hb.
  - rewrite (Hf eq_refl). assert (Hns : ¬ should_stop max_model_len sp (appended r0 (kept ++ [t]))) by (rewrite <-Hss; intros H; by apply Hb in H).
    destruct (IH (kept ++ [t]) r1) as (k & stopped & r' & He' & Ho' & Hj & Hst & Hns'); try done.
    exists (S k), stopped, r'. cbn [take]. rewrite He'. rewrite <-!app_assoc in *. cbn [app] in *.
    split; [done|]. split; [done|]. split; [|split].
    + intros [|[|j]] Hlt; [lia|done|]. specialize (Hj (S j) ltac:(lia)). by rewrite <-app_assoc in Hj.
    + intros Hy. destruct (Hst Hy) as (Hk & Hs' & Hfin). simpl. split; [lia|]. done.
    + intros Hy. destruct (Hns' Hy) as (-> & Hstat & Hall). simpl. split; [done|]. split; [done|].
      intros [|[|j]] Hlt; [lia|done|]. specialize (Hall (S j) ltac:(lia)). by rewrite <-app_assoc in Hall.
Qed.

(** C40.  What a step does with the tokens sampled for a request of a generating
    model, with any block hasher that works for it (none, or the hasher of the
    engine on a request with at most one multi-modal item): it appends them up to
    and including the first that stops the request, drops the rest and never
    fails.  What is returned is what was appended, no shorter run of the new
    tokens stops the request, a stop leaves a finished status, and without a stop
    all tokens are kept and the status is.  Hence a request that has not reached
    its [max_tokens] never exceeds it, as long as [min_tokens] does not. *)
Theorem output_is_cut_at_the_first_stop r new_token_ids :
  ok r → pooling_params r = None → sampling_params r = Some sp →
  ∃ k stopped r', _update_request_with_output hasher max_model_len new_token_ids r = (Ok (take k new_token_ids, stopped), r') ∧
    _output_token_ids r' = _output_token_ids r ++ take k new_token_ids ∧
    (∀ j, (1 ≤ j < k)%nat → ¬ should_stop max_model_len sp (appended r (take j new_token_ids))) ∧
    (if (stopped : bool) then should_stop max_model_len sp (appended r (take k new_token_ids)) ∧ status_is_finished (status r') = true
     else take k new_token_ids = new_token_ids ∧ status r' = status r) ∧
    (min_tokens sp ≤ max_tokens r → num_output_tokens r < max_tokens r → num_output_tokens r' ≤ max_tokens r).
Proof.
  intros Hok Hp Hs. destruct (update_loop_spec r [] new_token_ids r Hok Hp Hs) as (k & stopped & r' & He & Ho & Hj & Hst & Hns);
    [by rewrite app_nil_r|by rewrite app_nil_r|done|]. simpl in *.
  assert (Hup : (∀ j, (1 ≤ j < k)%nat → ¬ should_stop max_model_len sp (appended r (take j new_token_ids))) →
    (k ≤ length new_token_ids)%nat → min_tokens sp ≤ max_tokens r → num_output_tokens r < max_tokens r → num_output_tokens r' ≤ max_tokens r).
  { intros Hall Hk Hmin Hlt. destruct (decide (num_output_tokens r' ≤ max_tokens r)); [done|]. exfalso.
    unfold num_output_tokens, len in *. rewrite Ho, length_app, length_take in *.
    apply (Hall (Z.to_nat (max_tokens r - Z.of_nat (length (_output_token_ids r))))); [lia|].
    assert (num_output_tokens (appended r (take (Z.to_nat (max_tokens r - Z.of_nat (length (_output_token_ids r)))) new_token_ids)) = max_tokens r) as Heq.
    { unfold num_output_tokens, len, appended. simpl. rewrite length_app, length_take. lia. }
    split; [lia|]. right. left. right. rewrite Heq. simpl. lia. }
  exists k, stopped, r'. split; [done|]. split; [done|]. split; [done|]. destruct stopped.
  - destruct (Hst eq_refl) as (? & ? & ?). split; [done|]. apply Hup; [done|lia].
  - destruct (Hns eq_refl) as (-> & ? & ?). rewrite take_ge by done. split; [done|]. by apply Hup.
Qed.
End update.

(* ===================================================================== *)
(** ** Witnesses                                                          *)
(* ===================================================================== *)

(** A request that stops on token 7, at four tokens of output or on three
    copies of a pattern. *)
Definition stop_params : SamplingParams :=
  mkSamplingParams (Some 6) 1 (Some 2) (Some [7]) (Some (mkRepetitionDetectionParams 2 1 3)) None None None.
Definition stop_request (outputs : list Z) : Request :=
  mkRequest "r" 0 0 0 (Some stop_params) None None None 0 RUNNING [] None None 6 (Some [1; 1]) None ∅ 2 outputs ([1; 1] ++ outputs)
    0 false [] 0 None [] false 0 0 [] false false None false.

Example repetition_found : check_sequence_repetition [9; 4; 5; 4; 5; 4; 5] (mkRepetitionDetectionParams 2 1 3) = Ok true.
Proof. vm_compute. reflexivity. Qed.

Lemma check_stop_is_exact_witness :
  ∃ b r', check_stop 100 (stop_request [3; 7]) = (Ok b, r') ∧ b = true ∧ stops_with 100 stop_params (stop_request [3; 7]) (status r') (stop_reason r').
Proof.
  destruct (check_stop_is_exact 100 (stop_request [3; 7]) stop_params eq_refl eq_refl ltac:(discriminate))
    as (b & r' & He & Hb & _ & Ht).
  assert (Hs : hits_stop_token stop_params (stop_request [3; 7])).
  { exists 7. split; [reflexivity|]. right. by left. }
  assert (b = true) as -> by (apply Hb; split; [vm_compute; discriminate|by left]).
  exists true, r'. split; [exact He|]. split; [reflexivity|]. by apply (Ht eq_refl).
Defined.

(** With the block hasher, at a block size of two. *)
Definition hashing_request : Request :=
  match new_Request (Some (request_block_hasher (λ b, b) enc_hash [0] 2))
    (mkRequestArgs "r" 0 (Some [5; 6; 9]) (Some stop_params) None 0 0 None None None None 0 false false) with
  | Ok r => r
  | Raise _ => stop_request []
  end.
Lemma output_is_cut_at_the_first_stop_witness :
  ∃ k stopped r', _update_request_with_output (Some (request_block_hasher (λ b, b) enc_hash [0] 2)) 100 [3; 7; 8] hashing_request
      = (Ok (take k [3; 7; 8], stopped), r') ∧
    _output_token_ids r' = [] ++ take k [3; 7; 8] ∧ num_output_tokens r' ≤ 6.
Proof.
  destruct (@output_is_cut_at_the_first_stop _ _ (block_hasher_laws (λ b, b) enc_hash [0] 2 ltac:(lia)) 100 stop_params hashing_request [3; 7; 8])
    as (k & stopped & r' & He & Ho & _ & _ & Hm).
  - split; [vm_compute; lia|]. split; [exact I|].
    split_and!; [vm_compute; reflexivity|vm_compute; discriminate|apply memo_empty; vm_compute; reflexivity].
  - reflexivity.
  - reflexivity.
  - exists k, stopped, r'. split; [exact He|]. split; [exact Ho|]. apply Hm; vm_compute; [discriminate|reflexivity].
Defined.
