(* ===== verification/HeapQ.v ===== *)
(** * Python's [heapq]

    The functions of the [heapq] module the priority queue uses, with the sift
    loops of the library, and their correctness for any strict weak order. *)
From stdpp Require Import sorting.
From S2P Require Import Prelude.
Local Open Scope nat_scope.

Section heapq.
Context {A : Type} (lt : A → A → bool).

(* ===================================================================== *)
(** ** Definitions                                                        *)
(* ===================================================================== *)

Definition parentpos (pos : nat) : nat := (pos - 1) / 2.

(** [_siftdown]: move [newitem] up from [pos] while it is smaller than its
    parent; the loop returns the list and the final position. *)
Fixpoint siftdown_loop (fuel : nat) (heap : list A) (startpos pos : nat) (newitem : A) : list A * nat :=
  match fuel with
  | O => (heap, pos)
  | S fuel' =>
      if startpos <? pos then
        match heap !! parentpos pos with
        | Some parent =>
            if lt newitem parent
            then siftdown_loop fuel' (<[pos := parent]> heap) startpos (parentpos pos) newitem
            else (heap, pos)
        | None => (heap, pos)
        end
      else (heap, pos)
  end.
Definition _siftdown (heap : list A) (startpos pos : nat) : list A :=
  match heap !! pos with
  | Some newitem => let '(heap', pos') := siftdown_loop pos heap startpos pos newitem in <[pos' := newitem]> heap'
  | None => heap
  end.

(** [_siftup]: pull the smaller child up until the hole is a leaf, put the item
    there and sift it back. *)
Fixpoint siftup_loop (fuel : nat) (heap : list A) (pos : nat) : list A * nat :=
  match fuel with
  | O => (heap, pos)
  | S fuel' =>
      let childpos := 2 * pos + 1 in
      match heap !! childpos with
      | None => (heap, pos)
      | Some lchild =>
          let childpos' := match heap !! (childpos + 1) with
                           | Some rchild => if lt lchild rchild then childpos else childpos + 1
                           | None => childpos
                           end in
          match heap !! childpos' with
          | Some child => siftup_loop fuel' (<[pos := child]> heap) childpos'
          | None => (heap, pos)
          end
      end
  end.
Definition _siftup (heap : list A) (pos : nat) : list A :=
  match heap !! pos with
  | Some newitem =>
      let '(heap', pos') := siftup_loop (length heap) heap pos in
      _siftdown (<[pos' := newitem]> heap') pos pos'
  | None => heap
  end.

Definition heappush (heap : list A) (item : A) : list A := _siftdown (heap ++ [item]) 0 (length heap).

(** [heappop]; [None] for the [IndexError] of an empty heap. *)
Definition heappop (heap : list A) : option (A * list A) :=
  match last heap with
  | None => None
  | Some lastelt =>
      match removelast heap with
      | [] => Some (lastelt, [])
      | (returnitem :: _) as heap' => Some (returnitem, _siftup (<[0 := lastelt]> heap') 0)
      end
  end.

(** [heapify]: sift every inner node, the last first. *)
Fixpoint heapify_loop (n : nat) (heap : list A) : list A :=
  match n with
  | O => heap
  | S i => heapify_loop i (_siftup heap i)
  end.
Definition heapify (heap : list A) : list A := heapify_loop (length heap / 2) heap.

(* ===================================================================== *)
(** ** Heap order                                                         *)
(* ===================================================================== *)

Hypothesis lt_asym : ∀ x y, lt x y = true → lt y x = false.
Hypothesis le_trans : ∀ x y z, lt y x = false → lt z y = false → lt z x = false.

(** [x] may stand above [y]. *)
Definition le (x y : A) : Prop := lt y x = false.
Lemma le_refl x : le x x.
Proof. unfold le. destruct (lt x x) eqn:E; [|done]. by rewrite (lt_asym _ _ E) in E. Qed.
Lemma lt_le x y : lt x y = true → le x y.
Proof. apply lt_asym. Qed.

(** Position [i] holds an item that may stand above the one at [j]. *)
Definition above (v : list A) (i j : nat) : Prop := ∀ x y, v !! i = Some x → v !! j = Some y → le x y.
(** The edges into the nodes whose parent is [s] or later are in order. *)
Definition ordered (s : nat) (v : list A) : Prop := ∀ j, 1 ≤ j → s ≤ parentpos j → above v (parentpos j) j.

(** All but the edge into [pos]; around [pos], grandparent and children. *)
Record up_inv (s pos : nat) (v : list A) : Prop := {
  ui_edges : ∀ j, 1 ≤ j → j ≠ pos → s ≤ parentpos j → above v (parentpos j) j;
  ui_around : ∀ j, 1 ≤ j → 1 ≤ pos → parentpos j = pos → s ≤ parentpos pos → above v (parentpos pos) j;
}.
(** All but the edges at [pos]; around it, grandparent and children. *)
Record down_inv (s pos : nat) (v : list A) : Prop := {
  di_edges : ∀ j, 1 ≤ j → j ≠ pos → parentpos j ≠ pos → s ≤ parentpos j → above v (parentpos j) j;
  di_around : ∀ j, 1 ≤ j → 1 ≤ pos → parentpos j = pos → s ≤ parentpos pos → above v (parentpos pos) j;
}.

Inductive below (s : nat) : nat → Prop :=
  | below_refl : below s s
  | below_child j : 1 ≤ j → below s (parentpos j) → below s j.

Lemma parent_lt j : 1 ≤ j → parentpos j < j.
Proof. intros Hj. unfold parentpos. pose proof (Nat.Div0.div_le_mono (j - 1) (2 * (j - 1)) 2 ltac:(lia)). pose proof (Nat.div_mod_eq (j - 1) 2). lia. Qed.
Lemma parent_children pos j : 1 ≤ j → parentpos j = pos ↔ j = 2 * pos + 1 ∨ j = 2 * pos + 2.
Proof.
  intros Hj. unfold parentpos. pose proof (Nat.div_mod_eq (j - 1) 2) as H. pose proof (Nat.mod_upper_bound (j - 1) 2 ltac:(lia)). lia.
Qed.
Lemma below_le s j : below s j → s ≤ j.
Proof. induction 1 as [|j Hj _ IH]; [done|]. pose proof (parent_lt j Hj). lia. Qed.
Lemma below_parent s j : below s j → j ≠ s → 1 ≤ j ∧ below s (parentpos j).
Proof. by destruct 1. Qed.

(** Exchanging [pos] with its parent, as lookups. *)
Lemma swap_lookup (v : list A) i j x y k :
  v !! i = Some x → v !! j = Some y → i ≠ j →
  <[i := y]> (<[j := x]> v) !! k = if decide (k = i) then Some y else if decide (k = j) then Some x else v !! k.
Proof.
  intros Hi Hj Hne. apply lookup_lt_Some in Hi as Hli. apply lookup_lt_Some in Hj as Hlj.
  destruct (decide (k = i)) as [->|Hki].
  - rewrite list_lookup_insert_eq; [done|]. by rewrite length_insert.
  - rewrite list_lookup_insert_ne by done. destruct (decide (k = j)) as [->|Hkj].
    + by rewrite list_lookup_insert_eq.
    + by rewrite list_lookup_insert_ne.
Qed.

Lemma up_step s pos v x y :
  up_inv s pos v → 1 ≤ pos → s ≤ parentpos pos → v !! parentpos pos = Some x → v !! pos = Some y → lt y x = true →
  up_inv s (parentpos pos) (<[parentpos pos := y]> (<[pos := x]> v)).
Proof.
  intros [He Ha] Hpos Hs Hx Hy Hlt. pose proof (parent_lt pos Hpos) as Hpl. set (p := parentpos pos) in *.
  assert (Hlk : ∀ k, <[p := y]> (<[pos := x]> v) !! k =
    if decide (k = p) then Some y else if decide (k = pos) then Some x else v !! k)
    by (intros k; apply swap_lookup; [done|done|lia]).
  pose proof (lt_le _ _ Hlt) as Hyx. split.
  - intros j Hj Hjp Hsj a b. rewrite !Hlk. rewrite (decide_False (P := j = p)) by done.
    destruct (decide (j = pos)) as [->|Hjpos].
    + rewrite decide_True by done. by intros [= <-] [= <-].
    + destruct (decide (parentpos j = p)) as [Hpj|Hpj].
      * intros [= <-] Hb. specialize (He j Hj Hjpos Hsj x b). rewrite Hpj in He. eapply le_trans; [exact Hyx|]. by apply He.
      * destruct (decide (parentpos j = pos)) as [Hpp|Hpp].
        -- intros [= <-] Hb. by apply (Ha j Hj Hpos Hpp Hs x b).
        -- intros Hxa Hb. by apply (He j Hj Hjpos Hsj a b).
  - intros j Hj Hp1 Hjp Hsp a b. rewrite !Hlk. pose proof (parent_lt p Hp1) as Hpp.
    rewrite (decide_False (P := parentpos p = p)), (decide_False (P := parentpos p = pos)) by lia.
    pose proof (parent_lt j Hj) as Hjl. rewrite (decide_False (P := j = p)) by lia. intros Haa.
    assert (Hax : le a x) by (apply (He p Hp1 ltac:(lia) Hsp a x); done).
    destruct (decide (j = pos)) as [->|Hjpos]; [by intros [= <-]|]. intros Hb.
    eapply le_trans; [exact Hax|]. apply (He j Hj Hjpos ltac:(lia) x b); [by rewrite Hjp|done].
Qed.

Lemma up_done s pos v : up_inv s pos v → (1 ≤ pos → s ≤ parentpos pos → above v (parentpos pos) pos) → ordered s v.
Proof. intros [He _] Hpos j Hj Hs. destruct (decide (j = pos)) as [->|]; auto. Qed.

(** The loop keeps the list with the hole filled in order. *)
Lemma siftdown_loop_spec fuel h s pos new :
  pos ≤ fuel → pos < length h → below s pos → up_inv s pos (<[pos := new]> h) →
  ∃ h' pos', siftdown_loop fuel h s pos new = (h', pos') ∧
    ordered s (<[pos' := new]> h') ∧ <[pos' := new]> h' ≡ₚ <[pos := new]> h ∧ length h' = length h.
Proof.
  revert h pos. induction fuel as [|fuel IH]; intros h pos Hf Hl Hb Hi; simpl.
  { exists h, pos. split_and!; try done. apply (up_done s pos); [done|]. lia. }
  destruct (Nat.ltb_spec s pos) as [Hs|Hs].
  2:{ exists h, pos. split_and!; try done. apply (up_done s pos); [done|]. intros Hp Hsp. pose proof (parent_lt pos Hp). lia. }
  destruct (below_parent s pos Hb ltac:(lia)) as [Hp Hbp]. pose proof (parent_lt pos Hp) as Hpl.
  destruct (lookup_lt_is_Some_2 h (parentpos pos)) as [x Hx]; [lia|]. rewrite Hx.
  assert (Hvx : <[pos := new]> h !! parentpos pos = Some x) by (rewrite list_lookup_insert_ne; [done|lia]).
  assert (Hvy : <[pos := new]> h !! pos = Some new) by (by apply list_lookup_insert_eq).
  destruct (lt new x) eqn:E.
  - pose proof (up_step s pos _ x new Hi Hp (below_le _ _ Hbp) Hvx Hvy E) as Hi'. rewrite list_insert_insert_eq in Hi'.
    destruct (IH (<[pos := x]> h) (parentpos pos)) as (h' & pos' & -> & Ho & Hperm & Hlen); try done; [lia|rewrite length_insert; lia|].
    exists h', pos'. split_and!; try done; [|by rewrite Hlen, length_insert].
    rewrite Hperm. rewrite <-(list_insert_insert_eq h pos x new). by apply Permutation_insert_swap.
  - exists h, pos. split_and!; try done. apply (up_done s pos); [done|]. intros _ _ a b Ha Hb'.
    rewrite Hvx in Ha. rewrite Hvy in Hb'. by simplify_eq.
Qed.

Lemma siftdown_spec h s pos :
  pos < length h → below s pos → up_inv s pos h →
  ordered s (_siftdown h s pos) ∧ _siftdown h s pos ≡ₚ h.
Proof.
  intros Hl Hb Hi. unfold _siftdown. destruct (lookup_lt_is_Some_2 h pos Hl) as [new Hn]. rewrite Hn.
  rewrite <-(list_insert_id h pos new Hn) in Hi.
  destruct (siftdown_loop_spec pos h s pos new) as (h' & pos' & -> & Ho & Hp & _); try done.
  split; [done|]. by rewrite Hp, list_insert_id.
Qed.

Lemma down_step s pos v c x y :
  down_inv s pos v → 1 ≤ c → parentpos c = pos → v !! pos = Some x → v !! c = Some y → s ≤ pos →
  (∀ j z, 1 ≤ j → parentpos j = pos → v !! j = Some z → le y z) →
  down_inv s c (<[c := x]> (<[pos := y]> v)).
Proof.
  intros [He Ha] Hc Hpc Hx Hy Hs Hmin. pose proof (parent_lt c Hc) as Hcl.
  assert (Hlk : ∀ k, <[c := x]> (<[pos := y]> v) !! k =
    if decide (k = c) then Some x else if decide (k = pos) then Some y else v !! k)
    by (intros k; apply swap_lookup; [done|done|lia]).
  split.
  - intros j Hj Hjc Hpjc Hsj a b. rewrite !Hlk. rewrite (decide_False (P := j = c)), (decide_False (P := parentpos j = c)) by done.
    pose proof (parent_lt j Hj) as Hjl. destruct (decide (j = pos)) as [->|Hjp].
    + rewrite decide_False by lia. intros Haa [= <-]. by apply (Ha c Hc Hj Hpc Hsj a y).
    + destruct (decide (parentpos j = pos)) as [Hpp|Hpp].
      * intros [= <-] Hb. by apply (Hmin j b).
      * intros Haa Hb. by apply (He j Hj Hjp Hpp Hsj a b).
  - intros j Hj _ Hjc Hsp a b. rewrite !Hlk, Hpc. pose proof (parent_lt j Hj) as Hjl.
    rewrite (decide_False (P := pos = c)), decide_True, (decide_False (P := j = c)), (decide_False (P := j = pos)) by lia.
    intros [= <-] Hb. apply (He j Hj ltac:(lia) ltac:(lia) ltac:(lia) y b); [by rewrite Hjc|done].
Qed.

(** The child pulled up is the smaller one. *)
Definition smaller_child (heap : list A) (pos : nat) : nat :=
  match heap !! (2 * pos + 1), heap !! (2 * pos + 1 + 1) with
  | Some l, Some r => if lt l r then 2 * pos + 1 else 2 * pos + 1 + 1
  | _, _ => 2 * pos + 1
  end.
Lemma smaller_child_spec h pos :
  2 * pos + 1 < length h →
  ∃ y, h !! smaller_child h pos = Some y ∧ parentpos (smaller_child h pos) = pos ∧ 1 ≤ smaller_child h pos ∧
    (∀ j z, 1 ≤ j → parentpos j = pos → h !! j = Some z → le y z).
Proof.
  intros Hl. unfold smaller_child. destruct (lookup_lt_is_Some_2 h (2 * pos + 1) Hl) as [a Ha]. rewrite Ha.
  destruct (h !! (2 * pos + 1 + 1)) as [b|] eqn:Eb.
  - destruct (lt a b) eqn:E.
    + exists a. split_and!; [done|apply parent_children; lia|lia|]. intros j z Hj Hp Hz.
      rewrite parent_children in Hp by done. destruct Hp as [-> | ->]; [simplify_eq; apply le_refl|].
      replace (2 * pos + 2) with (2 * pos + 1 + 1) in Hz by lia. simplify_eq. by apply lt_le.
    + exists b. split_and!; [done|apply parent_children; lia|lia|]. intros j z Hj Hp Hz.
      rewrite parent_children in Hp by done. destruct Hp as [-> | ->]; [simplify_eq; exact E|].
      replace (2 * pos + 2) with (2 * pos + 1 + 1) in Hz by lia. simplify_eq. apply le_refl.
  - exists a. split_and!; [done|apply parent_children; lia|lia|]. intros j z Hj Hp Hz.
    rewrite parent_children in Hp by done. destruct Hp as [-> | ->]; [simplify_eq; apply le_refl|].
    replace (2 * pos + 2) with (2 * pos + 1 + 1) in Hz by lia. congruence.
Qed.

Lemma siftup_loop_step fuel h pos y :
  2 * pos + 1 < length h → h !! smaller_child h pos = Some y →
  siftup_loop (S fuel) h pos = siftup_loop fuel (<[pos := y]> h) (smaller_child h pos).
Proof.
  intros Hl Hy. cbn [siftup_loop]. unfold smaller_child in *.
  destruct (lookup_lt_is_Some_2 h (2 * pos + 1) Hl) as [a Ha]. rewrite Ha in *.
  destruct (h !! (2 * pos + 1 + 1)) as [b|]; [destruct (lt a b)|]; by rewrite Hy.
Qed.

Lemma siftup_loop_spec fuel h s pos new :
  pos < length h → length h ≤ pos + fuel → s ≤ pos → below s pos → down_inv s pos (<[pos := new]> h) →
  ∃ h' pos', siftup_loop fuel h pos = (h', pos') ∧ pos' < length h' ∧ below s pos' ∧
    up_inv s pos' (<[pos' := new]> h') ∧ <[pos' := new]> h' ≡ₚ <[pos := new]> h.
Proof.
  revert h pos. induction fuel as [|fuel IH]; intros h pos Hl Hf Hs Hb Hi; [lia|].
  destruct (decide (2 * pos + 1 < length h)) as [Hc|Hc].
  - destruct (smaller_child_spec h pos Hc) as (y & Hy & Hpc & Hc1 & Hmin). rewrite (siftup_loop_step fuel h pos y Hc Hy).
    set (c := smaller_child h pos) in *. pose proof (parent_lt c Hc1) as Hcl. apply lookup_lt_Some in Hy as Hyl.
    assert (Hvp : <[pos := new]> h !! pos = Some new) by (by apply list_lookup_insert_eq).
    assert (Hvc : <[pos := new]> h !! c = Some y) by (rewrite list_lookup_insert_ne; [done|lia]).
    assert (Hi' : down_inv s c (<[c := new]> (<[pos := y]> h))).
    { rewrite <-(list_insert_insert_eq h pos y new). apply (down_step s pos); try done.
      intros j z Hj Hp Hz. pose proof (parent_lt j Hj). rewrite list_lookup_insert_ne in Hz by lia. by apply (Hmin j z). }
    destruct (IH (<[pos := y]> h) c) as (h' & pos' & -> & Hl' & Hb' & Hu & Hperm); try done.
    { by rewrite length_insert. }
    { rewrite length_insert. lia. }
    { lia. }
    { apply below_child; [done|]. by rewrite Hpc. }
    exists h', pos'. split_and!; try done. rewrite Hperm.
    rewrite <-(list_insert_insert_eq h pos y new). by apply Permutation_insert_swap.
  - exists h, pos. assert (siftup_loop (S fuel) h pos = (h, pos)) as ->.
    { cbn [siftup_loop]. by rewrite (lookup_ge_None_2 h (2 * pos + 1)) by lia. }
    split_and!; try done. assert (Hleaf : ∀ j, 1 ≤ j → parentpos j = pos → (<[pos := new]> h) !! j = None).
    { intros j Hj Hp%parent_children; [|done]. apply lookup_ge_None. rewrite length_insert. lia. }
    destruct Hi as [He Ha]. split; [|done]. intros j Hj Hjp Hsj. destruct (decide (parentpos j = pos)) as [Hp|Hp]; [|by apply He].
    intros a b _ Hbb. by rewrite Hleaf in Hbb.
Qed.

Lemma siftup_spec h pos :
  pos < length h → ordered (S pos) h → ordered pos (_siftup h pos) ∧ _siftup h pos ≡ₚ h.
Proof.
  intros Hl Ho. unfold _siftup. destruct (lookup_lt_is_Some_2 h pos Hl) as [new Hn]. rewrite Hn.
  destruct (siftup_loop_spec (length h) h pos pos new) as (h' & pos' & -> & Hl' & Hb & Hu & Hp); [done|lia|done|constructor| |].
  { rewrite list_insert_id by done. split.
    - intros j Hj Hjp Hpj Hs. apply Ho; [done|lia].
    - intros j Hj Hp1 Hjp Hs. pose proof (parent_lt pos Hp1). lia. }
  destruct (siftdown_spec (<[pos' := new]> h') pos pos') as [H1 H2]; [by rewrite length_insert|done|done|].
  split; [done|]. by rewrite H2, Hp, list_insert_id.
Qed.

(* ===================================================================== *)
(** ** The module's functions                                             *)
(* ===================================================================== *)

Definition heap_ok (h : list A) : Prop := ordered 0 h.
Definition least (x : A) (h : list A) : Prop := ∀ y, y ∈ h → le x y.

Lemma below_zero n : below 0 n.
Proof.
  induction n as [n IH] using lt_wf_ind. destruct n as [|n]; [constructor|].
  apply below_child; [lia|]. apply IH. apply parent_lt. lia.
Qed.

Lemma heap_ok_nil : heap_ok [].
Proof. intros j Hj _ a b Ha. by rewrite lookup_nil in Ha. Qed.

Lemma heappush_spec h x : heap_ok h → heap_ok (heappush h x) ∧ heappush h x ≡ₚ x :: h.
Proof.
  intros Ho. unfold heappush. destruct (siftdown_spec (h ++ [x]) 0 (length h)) as [H1 H2].
  - rewrite length_app. simpl. lia.
  - apply below_zero.
  - assert (Hout : ∀ j, length h < j → (h ++ [x]) !! j = None) by (intros j Hj; apply lookup_ge_None; rewrite length_app; simpl; lia).
    split.
    + intros j Hj Hjl _ a b Ha Hb. pose proof (parent_lt j Hj). destruct (decide (j < length h)) as [Hlt|Hge].
      * rewrite lookup_app_l in Ha, Hb by lia. by apply (Ho j Hj ltac:(lia) a b).
      * rewrite Hout in Hb by lia. done.
    + intros j Hj _ Hp _ a b _ Hb. pose proof (parent_lt j Hj). rewrite Hout in Hb by lia. done.
  - split; [done|]. rewrite H2. by rewrite Permutation_app_comm.
Qed.

Lemma root_least h x : heap_ok h → h !! 0 = Some x → least x h.
Proof.
  intros Ho Hx y [j Hj]%list_elem_of_lookup. revert y Hj. induction j as [j IH] using lt_wf_ind. intros y Hy.
  destruct (decide (j = 0)) as [->|Hj0]; [simplify_eq; apply le_refl|].
  pose proof (parent_lt j ltac:(lia)) as Hpl. apply lookup_lt_Some in Hy as Hyl.
  destruct (lookup_lt_is_Some_2 h (parentpos j)) as [z Hz]; [lia|].
  eapply le_trans; [by apply (IH (parentpos j))|]. apply (Ho j ltac:(lia) ltac:(lia) z y Hz Hy).
Qed.

Lemma heappop_spec h :
  heap_ok h → h ≠ [] →
  ∃ x h', heappop h = Some (x, h') ∧ h ≡ₚ x :: h' ∧ heap_ok h' ∧ least x h ∧ h !! 0 = Some x.
Proof.
  intros Ho Hne. destruct (exists_last Hne) as (h0 & l & ->). unfold heappop. rewrite last_snoc, removelast_last.
  destruct h0 as [|r t].
  { exists l, []. split_and!; try done; try apply heap_ok_nil; by apply root_least. }
  assert (Hr : least r ((r :: t) ++ [l])) by (by apply root_least).
  destruct (siftup_spec (<[0 := l]> (r :: t)) 0) as [H1 H2].
  { simpl. lia. }
  { intros j Hj Hs a b Ha Hb. pose proof (parent_lt j Hj). rewrite list_lookup_insert_ne in Ha, Hb by lia.
    apply (Ho j Hj ltac:(lia) a b); by apply lookup_app_l_Some. }
  exists r, (_siftup (<[0 := l]> (r :: t)) 0). split_and!; try done. rewrite H2. simpl. rewrite Permutation_app_comm. done.
Qed.

Lemma heappop_nil : heappop [] = None.
Proof. done. Qed.

Lemma heapify_loop_spec n h : n ≤ length h → ordered n h → heap_ok (heapify_loop n h) ∧ heapify_loop n h ≡ₚ h.
Proof.
  revert h. induction n as [|i IH]; intros h Hn Ho; simpl; [done|].
  destruct (siftup_spec h i) as [H1 H2]; [lia|done|].
  destruct (IH (_siftup h i)) as [H3 H4]; [rewrite H2; lia|done|]. split; [done|]. by rewrite H4.
Qed.
Lemma heapify_spec h : heap_ok (heapify h) ∧ heapify h ≡ₚ h.
Proof.
  pose proof (Nat.div_mod_eq (length h) 2) as Hd. pose proof (Nat.mod_upper_bound (length h) 2 ltac:(lia)).
  apply heapify_loop_spec; [lia|]. intros j Hj Hs a b _ Hb. apply lookup_lt_Some in Hb.
  pose proof (proj1 (parent_children (parentpos j) j Hj) eq_refl). lia.
Qed.

(** Popping until the heap is empty. *)
Fixpoint heap_iter (fuel : nat) (h : list A) : list A :=
  match fuel with
  | O => []
  | S fuel' => match heappop h with Some (x, h') => x :: heap_iter fuel' h' | None => [] end
  end.
Lemma heap_iter_spec fuel h :
  heap_ok h → length h ≤ fuel → heap_iter fuel h ≡ₚ h ∧ StronglySorted le (heap_iter fuel h).
Proof.
  revert h. induction fuel as [|fuel IH]; intros h Ho Hl; simpl.
  { destruct h; simpl in *; [|lia]. split; constructor. }
  destruct (decide (h = [])) as [->|Hne]; [split; constructor|].
  destruct (heappop_spec h Ho Hne) as (x & h' & -> & Hp & Ho' & Hmin & _).
  assert (Hl' : length h' ≤ fuel) by (rewrite Hp in Hl; simpl in Hl; lia).
  destruct (IH h' Ho' Hl') as [H1 H2]. split; [by rewrite H1|]. constructor; [done|].
  apply Forall_forall. intros y Hy. apply Hmin. rewrite Hp. right. by rewrite H1 in Hy.
Qed.
End heapq.

(* ===================================================================== *)
(** ** Contents                                                           *)
(* ===================================================================== *)

(** Whatever the order of the items, a heap operation only moves them. *)
Section contents.
Context {A : Type} (lt : A → A → bool).

Lemma insert_move (h : list A) i j x new :
  i < length h → j < length h → i ≠ j → h !! j = Some x → <[j := new]> (<[i := x]> h) ≡ₚ <[i := new]> h.
Proof.
  intros Hi Hj Hne Hx. rewrite <-(list_insert_insert_eq h i x new). apply Permutation_insert_swap.
  - by apply list_lookup_insert_eq.
  - by rewrite list_lookup_insert_ne.
Qed.

Lemma siftdown_loop_perm fuel h s pos new :
  pos < length h →
  let r := siftdown_loop lt fuel h s pos new in <[r.2 := new]> r.1 ≡ₚ <[pos := new]> h ∧ r.2 < length r.1.
Proof.
  revert h pos. induction fuel as [|fuel IH]; intros h pos Hl; simpl; [done|]. destruct (Nat.ltb_spec s pos) as [Hs|]; [|done].
  destruct (h !! parentpos pos) as [x|] eqn:Hx; [|done]. destruct (lt new x); [|done]. pose proof (parent_lt pos ltac:(lia)) as Hp.
  destruct (IH (<[pos := x]> h) (parentpos pos)) as [H1 H2]; [rewrite length_insert; lia|]. simpl in H1, H2. split; [|done].
  rewrite H1. apply insert_move; try done; lia.
Qed.
Lemma siftdown_perm h s pos : _siftdown lt h s pos ≡ₚ h.
Proof.
  unfold _siftdown. destruct (h !! pos) as [new|] eqn:Hn; [|done]. pose proof (lookup_lt_Some _ _ _ Hn) as Hl.
  pose proof (siftdown_loop_perm pos h s pos new Hl) as [H _]. destruct (siftdown_loop lt pos h s pos new) as [h' pos']. simpl in H.
  by rewrite H, list_insert_id.
Qed.
Lemma siftup_loop_perm fuel h pos new :
  pos < length h → let r := siftup_loop lt fuel h pos in <[r.2 := new]> r.1 ≡ₚ <[pos := new]> h ∧ r.2 < length r.1.
Proof.
  revert h pos. induction fuel as [|fuel IH]; intros h pos Hl; [done|]. cbn [siftup_loop]. cbv zeta.
  destruct (h !! (2 * pos + 1)) as [a|] eqn:Ha; [|done].
  set (c := match h !! (2 * pos + 1 + 1) with Some rc => if lt a rc then 2 * pos + 1 else 2 * pos + 1 + 1 | None => 2 * pos + 1 end).
  assert (Hc : pos < c) by (unfold c; repeat case_match; lia). destruct (h !! c) as [x|] eqn:Hx; [|done].
  pose proof (lookup_lt_Some _ _ _ Hx) as Hcl.
  destruct (IH (<[pos := x]> h) c) as [H1 H2]; [by rewrite length_insert|]. split; [|done]. rewrite H1. apply insert_move; try done; lia.
Qed.
Lemma siftup_perm h pos : _siftup lt h pos ≡ₚ h.
Proof.
  unfold _siftup. destruct (h !! pos) as [new|] eqn:Hn; [|done]. pose proof (lookup_lt_Some _ _ _ Hn) as Hl.
  pose proof (siftup_loop_perm (length h) h pos new Hl) as [H _]. destruct (siftup_loop lt (length h) h pos) as [h' pos']. simpl in H.
  by rewrite siftdown_perm, H, list_insert_id.
Qed.
Lemma heappush_perm h x : heappush lt h x ≡ₚ x :: h.
Proof. unfold heappush. rewrite siftdown_perm. symmetry. apply Permutation_cons_append. Qed.
Lemma heappop_perm x h : ∃ h', heappop lt (x :: h) = Some (x, h') ∧ h' ≡ₚ h.
Proof.
  unfold heappop. destruct (exists_last (l := x :: h)) as (h0 & l & Heq); [done|]. rewrite Heq, last_snoc, removelast_last.
  destruct h0 as [|r t]; simplify_eq/=; [by eexists|]. eexists. split; [done|]. rewrite siftup_perm. simpl. rewrite Permutation_app_comm. done.
Qed.
Lemma heapify_perm h : heapify lt h ≡ₚ h.
Proof.
  unfold heapify. generalize (length h / 2). intros n. revert h. induction n as [|n IH]; intros h; simpl; [done|]. by rewrite IH, siftup_perm.
Qed.
Lemma heap_iter_perm fuel h : length h ≤ fuel → heap_iter lt fuel h ≡ₚ h.
Proof.
  revert h. induction fuel as [|fuel IH]; intros h Hl; simpl; [by destruct h; [|simpl in Hl; lia]|]. destruct h as [|x h]; [done|].
  destruct (heappop_perm x h) as (h' & -> & Hp). rewrite IH; [by rewrite Hp|]. apply Permutation_length in Hp. simpl in Hl. lia.
Qed.
End contents.
