(* ===== verification/RequestQueue.v ===== *)
(** * Request queues ([src/vllm/v1/core/sched/request_queue.py])

    The waiting queues of the scheduler: a first-come-first-served deque and a
    priority queue on [heapq] ordered by [Request.__lt__].  Requests are compared
    by identity ([py_id]) when they are removed. *)
From Stdlib Require Import OrdersEx.
From stdpp Require Import sorting.
From S2P Require Import Prelude Request HeapQ.
Local Open Scope Z_scope.

(* ===================================================================== *)
(** ** Definitions                                                        *)
(* ===================================================================== *)

Inductive SchedulingPolicy : Type := FCFS | PRIORITY.
#[export] Instance SchedulingPolicy_eq_dec : EqDecision SchedulingPolicy.
Proof. solve_decision. Defined.

Inductive RequestQueue : Type :=
  | FCFSRequestQueue (requests : list Request)
  | PriorityRequestQueue (_heap : list Request).

Definition create_request_queue (policy : SchedulingPolicy) : RequestQueue :=
  match policy with FCFS => FCFSRequestQueue [] | PRIORITY => PriorityRequestQueue [] end.

(** [a is b]. *)
Definition same (a b : Request) : bool := py_id a =? py_id b.
Definition among (rs : list Request) (r : Request) : bool := existsb (same r) rs.
(** [l.remove(r)]; [None] for the [ValueError]. *)
Fixpoint remove_same (r : Request) (l : list Request) : option (list Request) :=
  match l with
  | [] => None
  | x :: l' => if same x r then Some l' else (λ l'', x :: l'') <$> remove_same r l'
  end.

Definition add_request (request : Request) (q : RequestQueue) : RequestQueue :=
  match q with
  | FCFSRequestQueue l => FCFSRequestQueue (l ++ [request])
  | PriorityRequestQueue h => PriorityRequestQueue (heappush request_lt h request)
  end.
Definition pop_request (q : RequestQueue) : res (Request * RequestQueue) :=
  match q with
  | FCFSRequestQueue [] => Raise IndexError
  | FCFSRequestQueue (x :: l) => Ok (x, FCFSRequestQueue l)
  | PriorityRequestQueue h =>
      match heappop request_lt h with
      | Some (x, h') => Ok (x, PriorityRequestQueue h')
      | None => Raise IndexError
      end
  end.
Definition peek_request (q : RequestQueue) : res Request :=
  match q with
  | FCFSRequestQueue l | PriorityRequestQueue l => match l with x :: _ => Ok x | [] => Raise IndexError end
  end.
Definition prepend_request (request : Request) (q : RequestQueue) : RequestQueue :=
  match q with
  | FCFSRequestQueue l => FCFSRequestQueue (request :: l)
  | PriorityRequestQueue _ => add_request request q
  end.
(** [__iter__]. *)
Definition queue_iter (q : RequestQueue) : list Request :=
  match q with
  | FCFSRequestQueue l => l
  | PriorityRequestQueue h => heap_iter request_lt (length h) h
  end.
(** [prepend_requests]: [deque.extendleft] reverses. *)
Definition prepend_requests (requests q : RequestQueue) : RequestQueue :=
  match q with
  | FCFSRequestQueue l => FCFSRequestQueue (reverse (queue_iter requests) ++ l)
  | PriorityRequestQueue _ => foldl (λ q r, add_request r q) q (queue_iter requests)
  end.
Definition remove_request (request : Request) (q : RequestQueue) : res RequestQueue :=
  match q with
  | FCFSRequestQueue l =>
      match remove_same request l with Some l' => Ok (FCFSRequestQueue l') | None => Raise ValueError end
  | PriorityRequestQueue h =>
      match remove_same request h with
      | Some h' => Ok (PriorityRequestQueue (heapify request_lt h'))
      | None => Raise ValueError
      end
  end.
Definition remove_requests (requests : list Request) (q : RequestQueue) : RequestQueue :=
  match q with
  | FCFSRequestQueue l => FCFSRequestQueue (filter (λ r, negb (among requests r)) l)
  | PriorityRequestQueue h => PriorityRequestQueue (heapify request_lt (filter (λ r, negb (among requests r)) h))
  end.
(** The stored requests, and [__len__] and [__bool__]. *)
Definition content (q : RequestQueue) : list Request :=
  match q with FCFSRequestQueue l | PriorityRequestQueue l => l end.
Definition queue_len (q : RequestQueue) : Z := len (content q).
Definition queue_bool (q : RequestQueue) : bool := 0 <? queue_len q.

(* ===================================================================== *)
(** ** The order of requests                                              *)
(* ===================================================================== *)

(** A three-way comparison that is a weak order. *)
Record good_compare {A} (c : A → A → comparison) : Prop := {
  gc_antisym : ∀ x y, c y x = CompOpp (c x y);
  gc_trans : ∀ x y z, c x y = Lt → c y z = Lt → c x z = Lt;
  gc_eq : ∀ x y z, c x y = Eq → c x z = c y z;
}.
Lemma good_Z : good_compare Z.compare.
Proof.
  split.
  - intros x y. apply Z.compare_antisym.
  - intros x y z. rewrite !Z.compare_lt_iff. lia.
  - by intros x y z ->%Z.compare_eq_iff.
Qed.
Lemma good_string : good_compare String.compare.
Proof.
  split.
  - intros x y. apply String.compare_antisym.
  - intros x y z H1 H2. exact (StrictOrder_Transitive x y z H1 H2 : String_as_OT.lt x z).
  - by intros x y z ->%String.compare_eq_iff.
Qed.
Definition lex {A} (c1 c2 : A → A → comparison) (x y : A) : comparison := match c1 x y with Eq => c2 x y | c => c end.
Lemma good_lex {A} (c1 c2 : A → A → comparison) : good_compare c1 → good_compare c2 → good_compare (lex c1 c2).
Proof.
  intros [A1 T1 E1] [A2 T2 E2]. unfold lex. split.
  - intros x y. rewrite A1, A2. by destruct (c1 x y).
  - intros x y z. destruct (c1 x y) eqn:H1; [|intros _|done].
    + rewrite <-(E1 x y z H1). destruct (c1 x z); eauto.
    + destruct (c1 y z) eqn:H2; [|by rewrite (T1 _ _ _ H1 H2)|done]. intros _.
      pose proof (A1 y z) as H3. rewrite H2 in H3. simpl in H3.
      pose proof (A1 x z) as H4. rewrite (E1 z y x H3), A1, H1 in H4. simpl in H4. destruct (c1 x z); done.
  - intros x y z. destruct (c1 x y) eqn:H1; [|done|done]. intros H2. rewrite (E1 x y z H1). destruct (c1 y z); [|done|done]. by apply E2.
Qed.
Lemma good_comap {A B} (f : B → A) c : good_compare c → good_compare (λ x y, c (f x) (f y)).
Proof. intros [H1 H2 H3]. split; eauto. Qed.

Definition request_compare : Request → Request → comparison :=
  lex (λ a b, Z.compare (priority a) (priority b))
    (lex (λ a b, Z.compare (arrival_time a) (arrival_time b))
      (lex (λ a b, String.compare (request_id a) (request_id b)) (λ a b, Z.compare (py_id a) (py_id b)))).
Lemma good_request : good_compare request_compare.
Proof. repeat apply good_lex; (apply (good_comap _ Z.compare), good_Z || apply (good_comap _ String.compare), good_string). Qed.

Lemma request_lt_compare a b : request_lt a b = match request_compare a b with Lt => true | _ => false end.
Proof.
  unfold request_lt, request_compare, lex, Z.ltb. destruct (Z.eqb_spec (priority a) (priority b)) as [->|Hp]; simpl.
  2:{ destruct (Z.compare_spec (priority a) (priority b)); done. }
  rewrite Z.compare_refl. destruct (Z.eqb_spec (arrival_time a) (arrival_time b)) as [->|Ht]; simpl.
  2:{ destruct (Z.compare_spec (arrival_time a) (arrival_time b)); done. }
  rewrite Z.compare_refl. case_bool_decide as Hi.
  - destruct (String.compare (request_id a) (request_id b)) eqn:E; try done. by apply String.compare_eq_iff in E.
  - rewrite Hi. destruct (String.compare (request_id b) (request_id b)) eqn:E; [done|exfalso..];
      pose proof (String.compare_antisym (request_id b) (request_id b)) as H; rewrite E in H; discriminate H.
Qed.

Lemma request_lt_asym a b : request_lt a b = true → request_lt b a = false.
Proof. rewrite !request_lt_compare, (gc_antisym _ good_request a b). by destruct (request_compare a b). Qed.
Lemma request_le_trans x y z : request_lt y x = false → request_lt z y = false → request_lt z x = false.
Proof.
  rewrite !request_lt_compare. destruct good_request as [Ha Ht He]. intros H1 H2.
  destruct (request_compare z x) eqn:E; try done. exfalso.
  destruct (request_compare y x) eqn:E1; [|done|].
  - pose proof (Ha y x) as H3. rewrite E1 in H3. simpl in H3. pose proof (Ha z x) as H4. rewrite E, (He x y z H3), (Ha z y) in H4.
    destruct (request_compare z y); done.
  - pose proof (Ha y x) as H3. rewrite E1 in H3. simpl in H3. by rewrite (Ht z x y E H3) in H2.
Qed.

(* ===================================================================== *)
(** ** The priority queue as a bag with a least element                   *)
(* ===================================================================== *)

Inductive queue_op : Type :=
  | QAdd (r : Request) | QPop | QPeek | QPrepend (r : Request) | QPrependAll (other : RequestQueue)
  | QRemove (r : Request) | QRemoveAll (rs : list Request).

Definition run_queue_op (o : queue_op) (q : RequestQueue) : res (list Request) * RequestQueue :=
  match o with
  | QAdd r => (Ok [], add_request r q)
  | QPop => match pop_request q with Ok (x, q') => (Ok [x], q') | Raise e => (Raise e, q) end
  | QPeek => match peek_request q with Ok x => (Ok [x], q) | Raise e => (Raise e, q) end
  | QPrepend r => (Ok [], prepend_request r q)
  | QPrependAll other => (Ok [], prepend_requests other q)
  | QRemove r => match remove_request r q with Ok q' => (Ok [], q') | Raise e => (Raise e, q) end
  | QRemoveAll rs => (Ok [], remove_requests rs q)
  end.
Fixpoint run_queue_ops (os : list queue_op) (q : RequestQueue) : list (res (list Request)) * RequestQueue :=
  match os with
  | [] => ([], q)
  | o :: os' => let '(r, q1) := run_queue_op o q in let '(rs, q') := run_queue_ops os' q1 in (r :: rs, q')
  end.

(** No request of the bag comes before [x]. *)
Definition first_of (x : Request) (b : list Request) : Prop := ∀ y, y ∈ b → request_lt y x = false.

Inductive bag_step (b : list Request) : queue_op → res (list Request) → list Request → Prop :=
  | BagAdd r b' : b' ≡ₚ r :: b → bag_step b (QAdd r) (Ok []) b'
  | BagPrepend r b' : b' ≡ₚ r :: b → bag_step b (QPrepend r) (Ok []) b'
  | BagPrependAll other b' : b' ≡ₚ content other ++ b → bag_step b (QPrependAll other) (Ok []) b'
  | BagPop x b' : b ≡ₚ x :: b' → first_of x b → bag_step b QPop (Ok [x]) b'
  | BagPopEmpty : b = [] → bag_step b QPop (Raise IndexError) b
  | BagPeek x : x ∈ b → first_of x b → bag_step b QPeek (Ok [x]) b
  | BagPeekEmpty : b = [] → bag_step b QPeek (Raise IndexError) b
  | BagRemove r x b' : same x r = true → b ≡ₚ x :: b' → bag_step b (QRemove r) (Ok []) b'
  | BagRemoveAbsent r : (∀ x, x ∈ b → same x r = false) → bag_step b (QRemove r) (Raise ValueError) b
  | BagRemoveAll rs b' : b' ≡ₚ filter (λ r, negb (among rs r)) b → bag_step b (QRemoveAll rs) (Ok []) b'.
Inductive bag_steps : list Request → list queue_op → list (res (list Request)) → list Request → Prop :=
  | BagDone b : bag_steps b [] [] b
  | BagMore b o r b1 os rs b' : bag_step b o r b1 → bag_steps b1 os rs b' → bag_steps b (o :: os) (r :: rs) b'.

Abbreviation rheap_ok := (heap_ok request_lt).
(** The heap of a queue is in order. *)
Definition queue_ok (q : RequestQueue) : Prop := match q with PriorityRequestQueue h => rheap_ok h | FCFSRequestQueue _ => True end.

Lemma remove_same_spec r l :
  match remove_same r l with
  | Some l' => ∃ x, same x r = true ∧ l ≡ₚ x :: l'
  | None => ∀ x, x ∈ l → same x r = false
  end.
Proof.
  induction l as [|y l IH]; simpl; [by intros x ?%not_elem_of_nil|]. destruct (same y r) eqn:E; [by exists y|].
  destruct (remove_same r l) as [l'|]; simpl.
  - destruct IH as (x & Hx & Hp). exists x. split; [done|]. rewrite Hp. constructor.
  - intros x [->|Hx]%elem_of_cons; [done|]. by apply IH.
Qed.

Lemma iter_perm q : queue_ok q → queue_iter q ≡ₚ content q.
Proof.
  destruct q as [l|h]; simpl; [done|]. intros Ho. by apply (heap_iter_spec _ request_lt_asym request_le_trans).
Qed.

Lemma add_all_spec rs h :
  rheap_ok h → ∃ h', foldl (λ q r, add_request r q) (PriorityRequestQueue h) rs = PriorityRequestQueue h' ∧
    rheap_ok h' ∧ h' ≡ₚ rs ++ h.
Proof.
  revert h. induction rs as [|r rs IH]; intros h Ho; simpl; [by exists h|].
  destruct (heappush_spec _ request_lt_asym request_le_trans h r Ho) as [H1 H2].
  destruct (IH _ H1) as (h' & -> & H3 & H4). exists h'. split; [done|]. split; [done|].
  rewrite H4, H2. by rewrite Permutation_middle.
Qed.

Lemma run_queue_op_spec o h :
  rheap_ok h → (∀ other, o = QPrependAll other → queue_ok other) →
  ∃ r h', run_queue_op o (PriorityRequestQueue h) = (r, PriorityRequestQueue h') ∧ rheap_ok h' ∧ bag_step h o r h'.
Proof.
  intros Ho Hother. destruct o as [r| | |r|other|r|rs]; simpl.
  - destruct (heappush_spec _ request_lt_asym request_le_trans h r Ho) as [H1 H2]. eexists _, _. split; [done|]. split; [done|by constructor].
  - destruct (decide (h = [])) as [->|Hne].
    { eexists _, _. split; [done|]. split; [done|by constructor]. }
    destruct (heappop_spec _ request_lt_asym request_le_trans h Ho Hne) as (x & h' & -> & Hp & Ho' & Hmin & _).
    eexists _, _. split; [done|]. split; [done|by constructor].
  - destruct h as [|x h]; (eexists _, _; split; [done|]; split; [done|]); constructor; try done; [by left|].
    by apply (root_least _ request_lt_asym request_le_trans (x :: h)).
  - destruct (heappush_spec _ request_lt_asym request_le_trans h r Ho) as [H1 H2]. eexists _, _. split; [done|]. split; [done|by constructor].
  - destruct (add_all_spec (queue_iter other) h Ho) as (h' & -> & Ho' & Hp). eexists _, _. split; [done|]. split; [done|].
    constructor. rewrite Hp. by rewrite iter_perm by auto.
  - pose proof (remove_same_spec r h) as Hr. destruct (remove_same r h) as [h'|].
    + destruct (heapify_spec _ request_lt_asym request_le_trans h') as [H1 H2]. destruct Hr as (x & Hx & Hp).
      eexists _, _. split; [done|]. split; [done|]. apply BagRemove with x; [done|]. by rewrite H2.
    + eexists _, _. split; [done|]. split; [done|by constructor].
  - destruct (heapify_spec _ request_lt_asym request_le_trans (filter (λ r, negb (among rs r)) h)) as [H1 H2].
    eexists _, _. split; [done|]. split; [done|by constructor].
Qed.

(** C35.  The priority queue is a bag that serves its first request: for every
    sequence of calls from an empty queue, the results, exceptions included,
    are those of the bag operations (a pop or peek returns a request that none
    in the queue precedes by priority, arrival time, request id and identity),
    the stored requests are the bag's, and iterating yields them all in that
    order. *)
Theorem priority_queue_refines_bag os :
  Forall (λ o, ∀ other, o = QPrependAll other → queue_ok other) os →
  ∃ rs h, run_queue_ops os (create_request_queue PRIORITY) = (rs, PriorityRequestQueue h) ∧ bag_steps [] os rs h ∧
    queue_iter (PriorityRequestQueue h) ≡ₚ h ∧
    StronglySorted (λ x y, request_lt y x = false) (queue_iter (PriorityRequestQueue h)).
Proof.
  intros Hos. simpl. cut (∀ h0, rheap_ok h0 → ∃ rs h, run_queue_ops os (PriorityRequestQueue h0) = (rs, PriorityRequestQueue h) ∧
    rheap_ok h ∧ bag_steps h0 os rs h).
  { intros H. destruct (H [] (heap_ok_nil _)) as (rs & h & He & Ho & Hb). exists rs, h. split; [done|]. split; [done|].
    by apply (heap_iter_spec _ request_lt_asym request_le_trans). }
  induction Hos as [|o os Ho _ IH]; intros h0 Hh; simpl.
  { eexists [], h0. split_and!; try done. constructor. }
  destruct (run_queue_op_spec o h0 Hh Ho) as (r & h1 & -> & Hh1 & Hs). destruct (IH h1 Hh1) as (rs & h & -> & Hh' & Hb).
  eexists (r :: rs), h. split_and!; try done. by econstructor.
Qed.

Definition queued (id : string) (prio arrival pid : Z) : Request :=
  mkRequest id pid 0 prio None None None None arrival WAITING [] None None 0 None None ∅ 0 [] [] 0 false [] 0 None [] false 0 0
    [] false false None false.

Lemma priority_queue_refines_bag_witness :
  ∃ rs h, run_queue_ops [QAdd (queued "a" 1 5 0); QAdd (queued "b" 0 9 1); QAdd (queued "c" 0 7 2); QPop; QRemove (queued "a" 1 5 0); QPop; QPop]
            (create_request_queue PRIORITY) = (rs, PriorityRequestQueue h) ∧
    rs = [Ok []; Ok []; Ok []; Ok [queued "c" 0 7 2]; Ok []; Ok [queued "b" 0 9 1]; Raise IndexError].
Proof.
  destruct (priority_queue_refines_bag [QAdd (queued "a" 1 5 0); QAdd (queued "b" 0 9 1); QAdd (queued "c" 0 7 2); QPop;
    QRemove (queued "a" 1 5 0); QPop; QPop]) as (rs & h & He & _).
  - repeat (apply Forall_cons; split; [discriminate|]). apply Forall_nil. exact I.
  - exists rs, h. split; [exact He|]. vm_compute in He. by injection He as <-.
Defined.
