(* ===== verification/EncoderCache.v ===== *)
(** * The encoder cache ([src/vllm/v1/core/encoder_cache_manager.py])

    [EncoderCacheManager] keeps the bookkeeping of cached encoder outputs:
    which requests reference each item, which items can be reclaimed (in the
    order they became free) and how many slots are left.
    [EncoderDecoderCacheManager] only counts slots.  The part of the scheduler
    that decides which encoder inputs run in a step
    ([_try_schedule_encoder_inputs], [_free_encoder_inputs] of
    [src/vllm/v1/core/sched/scheduler.py]) is written against the interface of
    the two managers. *)
From Stdlib Require Import Sorted.
From S2P Require Import Prelude Request.
Local Open Scope Z_scope.

(** The hash that identifies an item. *)
Abbreviation mm_hash := (option string).
Definition item_hash (r : Request) (input_id : Z) : res mm_hash :=
  match py_nth (mm_features r) input_id with Some f => Ok (identifier f) | None => Raise IndexError end.

(* ===================================================================== *)
(** ** EncoderCacheManager                                                *)
(* ===================================================================== *)

Record EncoderCacheManager := mkEncoderCacheManager {
  cache_size : Z;
  num_free_slots : Z;
  num_freeable_slots : Z;
  cached : gmap mm_hash (gset string);
  freeable : list (mm_hash * Z);      (* an OrderedDict *)
  freed : list mm_hash;
}.
#[export] Instance eta_EncoderCacheManager : Eta EncoderCacheManager := λ c,
  mkEncoderCacheManager (cache_size c) (num_free_slots c) (num_freeable_slots c) (cached c) (freeable c) (freed c).
#[export] Instance set_num_free_slots : Setter num_free_slots.
Proof. build_setter. Defined.
#[export] Instance set_num_freeable_slots : Setter num_freeable_slots.
Proof. build_setter. Defined.
#[export] Instance set_cached : Setter cached.
Proof. build_setter. Defined.
#[export] Instance set_freeable : Setter freeable.
Proof. build_setter. Defined.
#[export] Instance set_freed : Setter freed.
Proof. build_setter. Defined.

Definition new_EncoderCacheManager (cache_size : Z) : EncoderCacheManager :=
  mkEncoderCacheManager cache_size cache_size cache_size ∅ [] [].
Definition ec_reset : M EncoderCacheManager unit := modify (λ c, new_EncoderCacheManager (cache_size c)).

(** [OrderedDict.pop(h)] and assignment. *)
Fixpoint od_pop (h : mm_hash) (l : list (mm_hash * Z)) : option (Z * list (mm_hash * Z)) :=
  match l with
  | [] => None
  | (k, n) :: l' => if decide (k = h) then Some (n, l') else (λ p, (p.1, (k, n) :: p.2)) <$> od_pop h l'
  end.
Fixpoint od_set (h : mm_hash) (n : Z) (l : list (mm_hash * Z)) : list (mm_hash * Z) :=
  match l with
  | [] => [(h, n)]
  | (k, m) :: l' => if decide (k = h) then (k, n) :: l' else (k, m) :: od_set h n l'
  end.

Definition ec_check_and_update_cache (r : Request) (input_id : Z) : M EncoderCacheManager bool :=
  h <- of_res (item_hash r input_id) ;;
  c <- get ;;
  match cached c !! h with
  | None => ret false
  | Some s =>
      (when (bool_decide (s = ∅)) do
         match od_pop h (freeable c) with
         | None => raise KeyError
         | Some (n, l) => modify (λ c, c <| freeable := l |> <| num_freeable_slots ::= λ x, x - n |>)
         end) ;;
      modify (λ c, c <| cached ::= insert h ({[request_id r]} ∪ s) |>) ;;
      ret true
  end.

(** The eviction loop of [can_allocate]; every turn takes one entry. *)
Fixpoint evict_loop (fuel : nat) (num_embeds : Z) : M EncoderCacheManager unit :=
  match fuel with
  | O => raise OutOfFuel
  | S fuel' =>
      c <- get ;;
      if num_free_slots c <? num_embeds then
        match freeable c with
        | [] => raise KeyError
        | (h, n) :: l =>
            match cached c !! h with
            | None => raise KeyError
            | Some _ =>
                put (c <| freeable := l |> <| cached ::= delete h |> <| freed ::= λ f, f ++ [h] |>
                       <| num_free_slots ::= λ x, x + n |>) ;;
                evict_loop fuel' num_embeds
            end
        end
      else ret tt
  end.
Definition ec_can_allocate (r : Request) (input_id encoder_compute_budget num_embeds_to_schedule : Z) :
    M EncoderCacheManager bool :=
  num_embeds <- of_res (get_num_encoder_embeds r input_id) ;;
  if encoder_compute_budget <? num_embeds then ret false
  else
    let num_embeds := num_embeds + num_embeds_to_schedule in
    c <- get ;;
    if num_embeds <=? num_free_slots c then ret true
    else if num_freeable_slots c <? num_embeds then ret false
    else evict_loop (S (length (freeable c))) num_embeds ;; ret true.

Definition ec_allocate (r : Request) (input_id : Z) : M EncoderCacheManager unit :=
  h <- of_res (item_hash r input_id) ;;
  modify (λ c, match cached c !! h with None => c <| cached ::= insert h ∅ |> | Some _ => c end) ;;
  n <- of_res (get_num_encoder_embeds r input_id) ;;
  c <- get ;;
  assert_ (n <=? num_free_slots c) ;;
  assert_ (n <=? num_freeable_slots c) ;;
  modify (λ c, c <| cached ::= insert h ({[request_id r]} ∪ default ∅ (cached c !! h)) |>
                 <| num_free_slots ::= λ x, x - n |> <| num_freeable_slots ::= λ x, x - n |>).

(** The elements of the set of ids.  The order in which Python iterates over
    a set is a parameter ([set_order], a permutation) of its users. *)
Definition is_cached (c : EncoderCacheManager) (r : Request) (i : Z) : bool :=
  match item_hash r i with Ok h => is_some (cached c !! h) | Raise _ => false end.
Definition ec_get_cached_input_ids (c : EncoderCacheManager) (r : Request) : list Z :=
  filter (λ i, is_cached c r i) (seqZ 0 (len (mm_features r))).

Definition ec_free_encoder_input (r : Request) (input_id : Z) : M EncoderCacheManager unit :=
  h <- of_res (item_hash r input_id) ;;
  c <- get ;;
  match cached c !! h with
  | None => ret tt
  | Some s =>
      if bool_decide (s = ∅) then ret tt
      else
        let s' := s ∖ {[request_id r]} in
        put (c <| cached ::= insert h s' |>) ;;
        when (bool_decide (s' = ∅)) do (
          n <- of_res (get_num_encoder_embeds r input_id) ;;
          modify (λ c, c <| freeable ::= od_set h n |> <| num_freeable_slots ::= λ x, x + n |>))
  end.
Definition ec_free (set_order : list Z → list Z) (r : Request) : M EncoderCacheManager unit :=
  c <- get ;; for_ (set_order (ec_get_cached_input_ids c r)) (ec_free_encoder_input r).
Definition ec_get_freed_mm_hashes : M EncoderCacheManager (list mm_hash) :=
  c <- get ;; put (c <| freed := [] |>) ;; ret (freed c).

(* ===================================================================== *)
(** ** EncoderDecoderCacheManager                                         *)
(* ===================================================================== *)

Record EncoderDecoderCacheManager := mkEncoderDecoderCacheManager {
  ed_cache_size : Z;
  ed_num_free_slots : Z;
  ed_allocated : list mm_hash;
  ed_to_free : list mm_hash;
}.
Definition new_EncoderDecoderCacheManager (cache_size : Z) : EncoderDecoderCacheManager :=
  mkEncoderDecoderCacheManager cache_size cache_size [] [].
Definition ed_reset : M EncoderDecoderCacheManager unit :=
  modify (λ c, new_EncoderDecoderCacheManager (ed_cache_size c)).
Definition ed_check_and_update_cache (r : Request) (input_id : Z) : M EncoderDecoderCacheManager bool := ret false.
Definition ed_can_allocate (r : Request) (input_id encoder_compute_budget num_embeds_to_schedule : Z) :
    M EncoderDecoderCacheManager bool :=
  n <- of_res (get_num_encoder_embeds r input_id) ;;
  if encoder_compute_budget <? n then ret false
  else c <- get ;; ret (n + num_embeds_to_schedule <=? ed_num_free_slots c).
Definition ed_allocate (r : Request) (input_id : Z) : M EncoderDecoderCacheManager unit :=
  n <- of_res (get_num_encoder_embeds r input_id) ;;
  c <- get ;;
  put (mkEncoderDecoderCacheManager (ed_cache_size c) (ed_num_free_slots c - n) (ed_allocated c) (ed_to_free c)) ;;
  h <- of_res (item_hash r input_id) ;;
  c <- get ;;
  put (mkEncoderDecoderCacheManager (ed_cache_size c) (ed_num_free_slots c) (ed_allocated c ++ [h]) (ed_to_free c)).
Definition ed_free_encoder_input (r : Request) (input_id : Z) : M EncoderDecoderCacheManager unit :=
  n <- of_res (get_num_encoder_embeds r input_id) ;;
  modify (λ c, mkEncoderDecoderCacheManager (ed_cache_size c) (ed_num_free_slots c + n) (ed_allocated c) (ed_to_free c)).
Definition ed_free (r : Request) : M EncoderDecoderCacheManager unit :=
  for_ (seqZ 0 (len (mm_features r))) (ed_free_encoder_input r).
Definition ed_get_cached_input_ids (r : Request) : list Z := seqZ 0 (len (mm_features r)).
Definition ed_get_freed_mm_hashes : M EncoderDecoderCacheManager (list mm_hash) :=
  c <- get ;;
  put (mkEncoderDecoderCacheManager (ed_cache_size c) (ed_num_free_slots c) [] (ed_allocated c)) ;; ret (ed_to_free c).

(** [compute_mm_encoder_budget]: compute and cache budget. *)
Record SchedulerConfig := mkSchedulerConfig {
  disable_chunked_mm_input : bool;
  sc_max_num_batched_tokens : Z;
  sc_max_num_encoder_input_tokens : Z;
  encoder_cache_size : Z;
}.
Definition compute_mm_encoder_budget (c : SchedulerConfig) (mm_max_toks_per_item : list Z) : res (Z * Z) :=
  match mm_max_toks_per_item with
  | [] => Ok (0, 0)
  | t :: ts =>
      let max_tokens_per_mm_item := foldl Z.max t ts in
      if disable_chunked_mm_input c && (sc_max_num_batched_tokens c <? max_tokens_per_mm_item) then Raise ValueError
      else Ok (Z.max (sc_max_num_encoder_input_tokens c) max_tokens_per_mm_item,
               Z.max (encoder_cache_size c) max_tokens_per_mm_item)
  end.

(* ===================================================================== *)
(** ** The scheduler's use                                                *)
(* ===================================================================== *)

(** What the scheduler calls on either manager. *)
Class EncoderManager (S : Type) := {
  is_encoder_decoder : bool;
  check_and_update_cache : Request → Z → M S bool;
  can_allocate : Request → Z → Z → Z → M S bool;
  allocate : Request → Z → M S unit;
  get_cached_input_ids : S → Request → list Z;
  free_encoder_input : Request → Z → M S unit;
  enc_free : (list Z → list Z) → Request → M S unit;
  enc_get_freed_mm_hashes : M S (list mm_hash);
  enc_reset : M S unit;
}.
#[export] Instance ec_manager : EncoderManager EncoderCacheManager := {|
  is_encoder_decoder := false;
  check_and_update_cache := ec_check_and_update_cache;
  can_allocate := ec_can_allocate;
  allocate := ec_allocate;
  get_cached_input_ids := ec_get_cached_input_ids;
  free_encoder_input := ec_free_encoder_input;
  enc_free := ec_free;
  enc_get_freed_mm_hashes := ec_get_freed_mm_hashes;
  enc_reset := ec_reset |}.
#[export] Instance ed_manager : EncoderManager EncoderDecoderCacheManager := {|
  is_encoder_decoder := true;
  check_and_update_cache := ed_check_and_update_cache;
  can_allocate := ed_can_allocate;
  allocate := ed_allocate;
  get_cached_input_ids := λ _, ed_get_cached_input_ids;
  free_encoder_input := ed_free_encoder_input;
  enc_free := λ _, ed_free;
  enc_get_freed_mm_hashes := ed_get_freed_mm_hashes;
  enc_reset := ed_reset |}.

Section scheduling.
Context {S : Type} `{!EncoderManager S}.
(** [disable_chunked_mm_input] and [ec_connector.has_cache_item] (absent
    without a connector). *)
Variables (disable_chunked : bool) (has_cache_item : option (mm_hash → bool)).

(** The running values of the loop. *)
Record enc_plan := mkEncPlan {
  ep_inputs : list Z;            (* encoder_inputs_to_schedule *)
  ep_new : Z;                    (* num_new_tokens *)
  ep_budget : Z;                 (* encoder_compute_budget *)
  ep_external : list Z;          (* external_load_encoder_input *)
  ep_hashes : list mm_hash;      (* mm_hashes_to_schedule *)
  ep_embeds : Z;                 (* num_embeds_to_schedule *)
}.

Fixpoint encoder_loop (r : Request) (computed shift : Z) (i : Z) (fs : list MultiModalFeatureSpec) (pl : enc_plan) : M S enc_plan :=
  match fs with
  | [] => ret pl
  | f :: fs' =>
      let next := encoder_loop r computed shift (i + 1) fs' in
      let start_pos := offset (mm_position f) in
      let num_encoder_tokens := length_ (mm_position f) in
      let num_encoder_embeds := get_num_embeds (mm_position f) in
      let h := identifier f in
      if computed + ep_new pl + shift <=? start_pos then ret pl
      else if is_encoder_decoder && (0 <? computed) then assert_ (start_pos =? 0) ;; next pl
      else if start_pos + num_encoder_tokens <=? computed then next pl
      else
        skip <- (if is_encoder_decoder then ret false
                 else if bool_decide (h ∈ ep_hashes pl) then ret true
                 else check_and_update_cache r i) ;;
        if (skip : bool) then next pl
        else if disable_chunked && (computed <? start_pos)
                && (computed + ep_new pl <? start_pos + num_encoder_tokens) then
          ret (mkEncPlan (ep_inputs pl) (Z.max 0 (start_pos - (computed + shift))) (ep_budget pl) (ep_external pl)
                 (ep_hashes pl) (ep_embeds pl))
        else
          ok <- can_allocate r i (ep_budget pl) (ep_embeds pl) ;;
          if negb ok then
            ret (mkEncPlan (ep_inputs pl) (if computed + shift <? start_pos then start_pos - (computed + shift) else 0)
                   (ep_budget pl) (ep_external pl) (ep_hashes pl) (ep_embeds pl))
          else
            let start_idx_rel := Z.max 0 (computed - start_pos) in
            let end_idx_rel := Z.min num_encoder_tokens (computed + ep_new pl - start_pos) in
            range <- of_res (get_embeds_indices_in_range (mm_position f) start_idx_rel end_idx_rel) ;;
            if range.2 - range.1 =? 0 then next pl
            else if (match has_cache_item with Some has => has h | None => false end) then
              next (mkEncPlan (ep_inputs pl) (ep_new pl) (ep_budget pl) (ep_external pl ++ [i]) (h :: ep_hashes pl)
                      (ep_embeds pl + num_encoder_embeds))
            else
              next (mkEncPlan (ep_inputs pl ++ [i]) (ep_new pl) (ep_budget pl - num_encoder_embeds) (ep_external pl)
                      (h :: ep_hashes pl) (ep_embeds pl + num_encoder_embeds))
  end.
Definition _try_schedule_encoder_inputs (r : Request) (num_computed_tokens num_new_tokens encoder_compute_budget shift_computed_tokens : Z) :
    M S (list Z * Z * Z * list Z) :=
  if (num_new_tokens =? 0) || negb (has_encoder_inputs r) then ret ([], num_new_tokens, encoder_compute_budget, [])
  else
    pl <- encoder_loop r num_computed_tokens shift_computed_tokens 0 (mm_features r)
            (mkEncPlan [] num_new_tokens encoder_compute_budget [] [] 0) ;;
    ret (ep_inputs pl, ep_new pl, ep_budget pl, ep_external pl).

(** [_free_encoder_inputs], after a step. *)
Definition _free_encoder_inputs (set_order : list Z → list Z) (r : Request) : M S unit :=
  c <- get ;;
  for_ (set_order (get_cached_input_ids c r)) (λ input_id,
    f <- of_option IndexError (py_nth (mm_features r) input_id) ;;
    when ((is_encoder_decoder && (0 <? num_computed_tokens r))
          || (offset (mm_position f) + length_ (mm_position f) <=? num_computed_tokens r)) do
      free_encoder_input r input_id).
End scheduling.

(* ===================================================================== *)
(** ** Accounting                                                         *)
(* ===================================================================== *)

Section accounting.
(** Every item with a given hash has the same number of embeddings. *)
Variable size : mm_hash → Z.
Hypothesis size_nonneg : ∀ h, 0 ≤ size h.
Implicit Types (c : EncoderCacheManager) (h : mm_hash) (m : gmap mm_hash (gset string)).

(** The sum of [f] over the entries. *)
Definition weight (f : mm_hash → gset string → Z) m : Z := map_fold (λ h s acc, f h s + acc) 0 m.
Lemma weight_empty f : weight f ∅ = 0.
Proof. apply map_fold_empty. Qed.
Lemma weight_fresh f m h s : m !! h = None → weight f (<[h := s]> m) = f h s + weight f m.
Proof. intros Hm. unfold weight. rewrite map_fold_insert_L; [done| |done]. intros; lia. Qed.
Lemma weight_lookup f m h s : m !! h = Some s → weight f m = f h s + weight f (delete h m).
Proof. intros Hm. rewrite <-(insert_delete_id m h s Hm) at 1. apply weight_fresh, lookup_delete_eq. Qed.
Lemma weight_insert f m h s : weight f (<[h := s]> m) = f h s + weight f (delete h m).
Proof. rewrite <-insert_delete_eq. apply weight_fresh, lookup_delete_eq. Qed.
Lemma weight_nonneg f m : (∀ h s, 0 ≤ f h s) → 0 ≤ weight f m.
Proof.
  intros Hf. induction m as [|h s m Hm IH] using map_ind; [by rewrite weight_empty|]. rewrite weight_fresh by done. specialize (Hf h s). lia.
Qed.
Lemma weight_zero f m : (∀ h s, m !! h = Some s → f h s = 0) → weight f m = 0.
Proof.
  induction m as [|h s m Hm IH] using map_ind; intros Hf; [apply weight_empty|]. rewrite weight_fresh by done.
  rewrite (Hf h s) by apply lookup_insert_eq. rewrite IH; [done|]. intros h' s' Hh'. apply (Hf h').
  rewrite lookup_insert_ne; [done|]. intros <-. congruence.
Qed.

(** Slots of all entries, of the referenced entries, and of a reclaim list. *)
Definition used m : Z := weight (λ h _, size h) m.
Definition pin (h : mm_hash) (s : gset string) : Z := if decide (s = ∅) then 0 else size h.
Definition pinned m : Z := weight pin m.
Definition fsum (l : list (mm_hash * Z)) : Z := foldr (λ x acc, x.2 + acc) 0 l.

Record ec_ok c : Prop := {
  eo_free : num_free_slots c = cache_size c - used (cached c);
  eo_freeable : num_freeable_slots c = cache_size c - pinned (cached c);
  eo_sum : num_freeable_slots c = num_free_slots c + fsum (freeable c);
  eo_keys : NoDup (freeable c).*1;
  eo_in : ∀ h n, (h, n) ∈ freeable c ↔ cached c !! h = Some ∅ ∧ n = size h;
  eo_room : 0 ≤ num_free_slots c;
}.

Lemma fsum_app l1 l2 : fsum (l1 ++ l2) = fsum l1 + fsum l2.
Proof. induction l1 as [|[h n] l1 IH]; simpl; [done|]. rewrite IH. lia. Qed.
Lemma fsum_nonneg c l : ec_ok c → (∀ x, x ∈ l → x ∈ freeable c) → 0 ≤ fsum l.
Proof.
  intros Hc. induction l as [|[h n] l IH]; intros Hl; simpl; [done|].
  destruct (proj1 (eo_in _ Hc h n) (Hl _ (list_elem_of_here _ _))) as [_ ->]. specialize (size_nonneg h).
  assert (0 ≤ fsum l) by (apply IH; intros x Hx; apply Hl; by right). lia.
Qed.

Lemma od_pop_spec h n l :
  NoDup l.*1 → (h, n) ∈ l →
  ∃ l', od_pop h l = Some (n, l') ∧ fsum l = n + fsum l' ∧ NoDup l'.*1 ∧ (∀ k x, (k, x) ∈ l' ↔ (k, x) ∈ l ∧ k ≠ h).
Proof.
  induction l as [|[k m] l IH]; intros Hnd Hin; [by apply not_elem_of_nil in Hin|]. rewrite fmap_cons in Hnd. apply NoDup_cons in Hnd as [Hk Hnd]. simpl.
  assert (Hkl : ∀ x, (k, x) ∉ l) by (intros x Hx; apply Hk; apply list_elem_of_fmap; by exists (k, x)).
  case_decide as Hkh.
  - subst k. apply elem_of_cons in Hin as [Heq|Hin]; [|by destruct (Hkl n)]. simplify_eq. exists l. split_and!; try done.
    intros k m'. rewrite elem_of_cons. split; [intros Hkm; split; [by right|intros ->; by eapply Hkl]|].
    intros [[?|?] ?]; [congruence|done].
  - apply elem_of_cons in Hin as [Heq|Hin]; [congruence|]. destruct (IH Hnd Hin) as (l' & -> & Hs & Hnd' & Hl'). simpl.
    exists ((k, m) :: l'). split_and!; [done|simpl; lia| |].
    + rewrite fmap_cons. apply NoDup_cons. split; [|done]. intros ([k' x] & Heq & Hkm)%list_elem_of_fmap. simpl in Heq. subst k'.
      apply Hl' in Hkm as [Hkm _]. by apply (Hkl x).
    + intros k' m'. rewrite !elem_of_cons, Hl'. split; [intros [?|[? ?]]; [split; [by left|congruence]|split; [by right|done]]|].
      intros [[?|?] ?]; [by left|by right].
Qed.

Lemma od_set_fresh h n l : h ∉ l.*1 → od_set h n l = l ++ [(h, n)].
Proof.
  induction l as [|[k m] l IH]; intros Hh; [done|]. rewrite fmap_cons, not_elem_of_cons in Hh. destruct Hh as [Hne Hh]. simpl in Hne |- *.
  rewrite decide_False by congruence. by rewrite IH.
Qed.

(** Requests whose items have the sizes of their hashes. *)
Definition sized (r : Request) : Prop := ∀ f, f ∈ mm_features r → get_num_embeds (mm_position f) = size (identifier f).
Definition input_of (r : Request) (i : Z) : Prop := 0 ≤ i < len (mm_features r).

Lemma sized_item r i :
  sized r → input_of r i → ∃ h, item_hash r i = Ok h ∧ get_num_encoder_embeds r i = Ok (size h).
Proof.
  intros Hs Hi. unfold input_of in Hi. unfold item_hash, get_num_encoder_embeds. rewrite (proj2 (Z.ltb_lt i _)) by lia.
  rewrite py_nth_nonneg by lia. destruct (lookup_lt_is_Some_2 (mm_features r) (Z.to_nat i)) as [f Hf]; [unfold len in *; lia|].
  rewrite Hf. exists (identifier f). split; [done|]. rewrite (Hs f); [done|]. by eapply list_elem_of_lookup_2.
Qed.

Lemma add_nonempty (x : string) (s : gset string) : {[x]} ∪ s ≠ ∅.
Proof. set_solver. Qed.

(** [check_and_update_cache] takes a reference on a cached item. *)
Lemma ec_check_spec c r i :
  ec_ok c → sized r → input_of r i →
  ∃ h b c', item_hash r i = Ok h ∧ ec_check_and_update_cache r i c = (Ok b, c') ∧ ec_ok c' ∧ b = is_some (cached c !! h) ∧
    num_free_slots c' = num_free_slots c ∧ cache_size c' = cache_size c ∧
    cached c' = (if b then <[h := {[request_id r]} ∪ default ∅ (cached c !! h)]> (cached c) else cached c).
Proof.
  intros Hc Hs Hi. destruct (sized_item r i Hs Hi) as (h & Hh & _). unfold ec_check_and_update_cache.
  rewrite run_of_res, Hh, run_get. exists h. destruct (cached c !! h) as [s|] eqn:Hs'; simpl.
  2: { exists false, c. by split_and!. }
  case_bool_decide as He; simpl.
  - subst s. destruct (od_pop_spec h (size h) (freeable c) (eo_keys _ Hc)) as (l & -> & Hsum & Hnd & Hl).
    { by apply (eo_in _ Hc). }
    eexists true, _. split; [done|]. split; [reflexivity|]. split; [|done].
    pose proof (weight_lookup pin _ _ _ Hs') as Hp. pose proof (weight_lookup (λ h _, size h) _ _ _ Hs') as Hu.
    unfold pin in Hp at 2. rewrite decide_True in Hp by done.
    destruct Hc as [H1 H2 H3 H4 H5 H6]; constructor; simpl.
    + unfold used in *. rewrite weight_insert. lia.
    + unfold pinned in *. rewrite weight_insert. unfold pin at 1. rewrite decide_False by apply add_nonempty. lia.
    + lia.
    + done.
    + intros k x. rewrite Hl, H5. destruct (decide (k = h)) as [->|Hk].
      * rewrite lookup_insert_eq. split; [by intros [_ ?]|intros [Heq _]; destruct (add_nonempty _ _ (inj Some _ _ Heq))].
      * rewrite lookup_insert_ne by done. tauto.
    + done.
  - eexists true, _. split; [done|]. split; [reflexivity|]. split; [|done].
    pose proof (weight_lookup pin _ _ _ Hs') as Hp. pose proof (weight_lookup (λ h _, size h) _ _ _ Hs') as Hu.
    unfold pin in Hp at 2. rewrite decide_False in Hp by done.
    destruct Hc as [H1 H2 H3 H4 H5 H6]; constructor; simpl; try done.
    + unfold used in *. rewrite weight_insert. lia.
    + unfold pinned in *. rewrite weight_insert. unfold pin at 1. rewrite decide_False by apply add_nonempty. lia.
    + intros k x. rewrite H5. destruct (decide (k = h)) as [->|Hk].
      * rewrite lookup_insert_eq. split; [intros [? _]; congruence|intros [Heq _]; destruct (add_nonempty _ _ (inj Some _ _ Heq))].
      * by rewrite lookup_insert_ne by done.
Qed.

(** [can_allocate] evicts the oldest unreferenced entries, as few as needed. *)
Definition evicted c c' (ev : list (mm_hash * Z)) : Prop :=
  freeable c = ev ++ freeable c' ∧ freed c' = freed c ++ ev.*1 ∧
  num_free_slots c' = num_free_slots c + fsum ev ∧ num_freeable_slots c' = num_freeable_slots c ∧
  cache_size c' = cache_size c ∧
  (∀ h, cached c' !! h = if decide (h ∈ ev.*1) then None else cached c !! h).
Lemma evicted_refl c : evicted c c [].
Proof. unfold evicted. simpl. rewrite app_nil_r. split_and!; try done; lia. Qed.
Lemma evict_one c h l :
  ec_ok c → freeable c = (h, size h) :: l → cached c !! h = Some ∅ →
  let c' := c <| freeable := l |> <| cached ::= delete h |> <| freed ::= λ f, f ++ [h] |> <| num_free_slots ::= λ x, x + size h |> in
  ec_ok c' ∧ evicted c c' [(h, size h)].
Proof.
  intros Hc Hl Hh c'. pose proof (size_nonneg h) as Hsz.
  pose proof (weight_lookup pin _ _ _ Hh) as Hp. pose proof (weight_lookup (λ h _, size h) _ _ _ Hh) as Hu.
  unfold pin in Hp at 2. rewrite decide_True in Hp by done. destruct Hc as [H1 H2 H3 H4 H5 H6]. rewrite Hl in *. simpl in H3.
  rewrite fmap_cons in H4. apply NoDup_cons in H4 as [H4 H4']. simpl in H4.
  split; [constructor; simpl; unfold used, pinned in *; try lia; [done|]|].
  - intros k x. destruct (decide (k = h)) as [->|Hk].
    + rewrite lookup_delete_eq. split; [|by intros [? _]]. intros Hx. exfalso. apply H4, list_elem_of_fmap. by exists (h, x).
    + rewrite lookup_delete_ne by done. rewrite <-H5, elem_of_cons. split; [by right|]. intros [?|?]; [congruence|done].
  - unfold evicted, c'. simpl. split_and!; try done; [lia|]. intros k. destruct (decide (k = h)) as [->|Hk].
    + rewrite decide_True by (by left). apply lookup_delete_eq.
    + rewrite decide_False by (rewrite list_elem_of_singleton; done). by rewrite lookup_delete_ne by done.
Qed.
Lemma evicted_trans c1 c2 c3 e1 e2 : evicted c1 c2 e1 → evicted c2 c3 e2 → evicted c1 c3 (e1 ++ e2).
Proof.
  intros (F1 & D1 & N1 & A1 & S1 & L1) (F2 & D2 & N2 & A2 & S2 & L2). unfold evicted. rewrite fmap_app, fsum_app.
  rewrite F1, F2, D2, D1, N2, N1, A2, A1, S2, S1, !app_assoc. split_and!; try done; [lia|].
  intros h. rewrite L2, L1. destruct (decide (h ∈ e2.*1)); [by rewrite decide_True by (apply elem_of_app; by right)|].
  destruct (decide (h ∈ e1.*1)); [by rewrite decide_True by (apply elem_of_app; by left)|].
  rewrite decide_False; [done|]. rewrite elem_of_app. tauto.
Qed.

Lemma evict_loop_spec fuel n c :
  ec_ok c → n ≤ num_freeable_slots c → (length (freeable c) < fuel)%nat →
  ∃ c' ev, evict_loop fuel n c = (Ok tt, c') ∧ ec_ok c' ∧ evicted c c' ev ∧ n ≤ num_free_slots c' ∧
    (∀ ev' x, ev = ev' ++ [x] → num_free_slots c + fsum ev' < n).
Proof.
  revert c. induction fuel as [|fuel IH]; intros c Hc Hn Hf; [lia|]. simpl. rewrite run_get. case_bool; bool_to_prop.
  2: { exists c, []. split; [done|]. split; [done|]. split; [apply evicted_refl|]. split; [done|]. intros [|? ?] ? ?; done. }
  destruct (freeable c) as [|[h x] l] eqn:Hl.
  { rewrite (eo_sum _ Hc), Hl in Hn. simpl in Hn. lia. }
  destruct (proj1 (eo_in _ Hc h x)) as [Hh ->]; [rewrite Hl; by left|]. rewrite Hh, run_put.
  destruct (evict_one c h l Hc Hl Hh) as [Hc' He]. simpl in Hc', He. simpl in Hf.
  destruct (IH _ Hc') as (c' & ev & -> & Hok & Hev & Hn' & Hmin); [simpl; done|simpl; lia|].
  exists c', ((h, size h) :: ev). split; [done|]. split; [done|]. split; [by apply (evicted_trans _ _ _ [(h, size h)] ev He)|].
  split; [done|]. intros [|y ev'] z Heq; simplify_eq/=; [lia|]. specialize (Hmin ev' z eq_refl). simpl in Hmin. lia.
Qed.

Lemma ec_can_allocate_spec c r i budget sched h :
  ec_ok c → sized r → input_of r i → item_hash r i = Ok h →
  ∃ b c' ev, ec_can_allocate r i budget sched c = (Ok b, c') ∧ ec_ok c' ∧ evicted c c' ev ∧
    b = ((size h <=? budget) && (size h + sched <=? Z.max (num_free_slots c) (num_freeable_slots c)))%Z ∧
    (if b then size h + sched ≤ num_free_slots c' else ev = []) ∧
    (∀ ev' x, ev = ev' ++ [x] → num_free_slots c + fsum ev' < size h + sched).
Proof.
  intros Hc Hs Hi Hh. destruct (sized_item r i Hs Hi) as (h' & Hh' & Hn). rewrite Hh in Hh'. injection Hh' as <-.
  assert (Hfs : 0 ≤ fsum (freeable c)) by (by apply (fsum_nonneg c)). pose proof (eo_sum _ Hc) as Hsum.
  assert (Hnil : ∀ ev' (x : mm_hash * Z), [] = ev' ++ [x] → num_free_slots c + fsum ev' < size h + sched) by (intros [|? ?] ? ?; done).
  unfold ec_can_allocate. rewrite run_of_res, Hn. case_bool; bool_to_prop.
  { exists false, c, []. split; [done|]. split; [done|]. split; [apply evicted_refl|].
    rewrite (proj2 (Z.leb_gt (size h) budget)) by lia. done. }
  rewrite run_get. rewrite (proj2 (Z.leb_le (size h) budget)) by lia. cbn [andb]. cbv zeta. case_bool; bool_to_prop.
  { exists true, c, []. split; [done|]. split; [done|]. split; [apply evicted_refl|]. rewrite (proj2 (Z.leb_le _ _)) by lia. done. }
  case_bool; bool_to_prop.
  { exists false, c, []. split; [done|]. split; [done|]. split; [apply evicted_refl|]. rewrite (proj2 (Z.leb_gt _ _)) by lia. done. }
  destruct (evict_loop_spec (S (length (freeable c))) (size h + sched) c Hc) as (c' & ev & He & Hok & Hev & Hn' & Hmin); [lia|lia|].
  unfold bind. rewrite He. exists true, c', ev. split; [done|]. split; [done|]. split; [done|]. rewrite (proj2 (Z.leb_le _ _)) by lia. done.
Qed.

(** [allocate] of an item that is not cached and fits. *)
Lemma ec_allocate_spec c r i h :
  ec_ok c → sized r → input_of r i → item_hash r i = Ok h → cached c !! h = None → size h ≤ num_free_slots c →
  ∃ c', ec_allocate r i c = (Ok tt, c') ∧ ec_ok c' ∧ cached c' = <[h := {[request_id r]}]> (cached c) ∧
    num_free_slots c' = num_free_slots c - size h ∧ cache_size c' = cache_size c.
Proof.
  intros Hc Hs Hi Hh Hnone Hfit. destruct (sized_item r i Hs Hi) as (h' & Hh' & Hn). rewrite Hh in Hh'. injection Hh' as <-.
  assert (Hfs : 0 ≤ fsum (freeable c)) by (by apply (fsum_nonneg c)). pose proof (eo_sum _ Hc) as Hsum.
  unfold ec_allocate. rewrite run_of_res, Hh, run_modify, Hnone, run_of_res, Hn, run_get. rewrite !run_assert. simpl.
  rewrite !(proj2 (Z.leb_le _ _)) by lia. eexists. split; [reflexivity|]. simpl.
  rewrite lookup_insert_eq, insert_insert_eq. simpl. rewrite (right_id_L ∅ (∪)). split; [|done].
  destruct Hc as [H1 H2 H3 H4 H5 H6]. constructor; simpl; try lia.
  - unfold used. rewrite insert_insert_eq, (weight_fresh _ (cached c) h _ Hnone). fold (used (cached c)). lia.
  - unfold pinned. rewrite insert_insert_eq, (weight_fresh _ (cached c) h _ Hnone). fold (pinned (cached c)). unfold pin. rewrite decide_False by set_solver. lia.
  - done.
  - intros k x. rewrite ?insert_insert_eq, H5. destruct (decide (k = h)) as [->|Hk]; [|by rewrite lookup_insert_ne by done].
    rewrite lookup_insert_eq, Hnone. split; [by intros [? _]|]. intros [Heq _]. apply (inj Some) in Heq.
    destruct (non_empty_singleton_L (C := gset string) _ Heq).
Qed.

(** [free_encoder_input] drops the request's reference; an entry without
    references goes to the end of the reclaim list. *)
Lemma ec_free_input_spec c r i h :
  ec_ok c → sized r → input_of r i → item_hash r i = Ok h →
  ∃ c', ec_free_encoder_input r i c = (Ok tt, c') ∧ ec_ok c' ∧ num_free_slots c' = num_free_slots c ∧
    cache_size c' = cache_size c ∧ num_freeable_slots c ≤ num_freeable_slots c' ∧
    (∀ k, cached c' !! k = if decide (k = h) then (λ s, s ∖ {[request_id r]}) <$> (cached c !! k) else cached c !! k).
Proof.
  intros Hc Hs Hi Hh. destruct (sized_item r i Hs Hi) as (h' & Hh' & Hn). rewrite Hh in Hh'. injection Hh' as <-.
  unfold ec_free_encoder_input. rewrite run_of_res, Hh, run_get. pose proof (size_nonneg h) as Hsz.
  assert (Hsame : ∀ s, cached c !! h = Some s → s = ∅ → ∀ k, cached c !! k = if decide (k = h) then (λ s, s ∖ {[request_id r]}) <$> (cached c !! k) else cached c !! k).
  { intros s Hs1 -> k. case_decide as Hk; [subst k|done]. rewrite Hs1. simpl. f_equal. set_solver. }
  destruct (cached c !! h) as [s|] eqn:Hs'.
  2: { exists c. split_and!; try done. intros k. case_decide as Hk; [subst k|done]. by rewrite Hs'. }
  case_bool_decide as He.
  { exists c. split_and!; try done. by apply (Hsame s). }
  assert (Hins : ∀ s', cached c !! h = Some s → s' = s ∖ {[request_id r]} → ∀ k, (<[h := s']> (cached c)) !! k = if decide (k = h) then (λ s, s ∖ {[request_id r]}) <$> (cached c !! k) else cached c !! k).
  { intros s' Hs1 -> k. case_decide as Hk; [subst k; rewrite lookup_insert_eq, Hs1; done|by rewrite lookup_insert_ne by done]. }
  pose proof (weight_lookup pin _ _ _ Hs') as Hp. pose proof (weight_lookup (λ h _, size h) _ _ _ Hs') as Hu.
  unfold pin in Hp at 2. rewrite decide_False in Hp by done. destruct Hc as [H1 H2 H3 H4 H5 H6].
  assert (Hnew : h ∉ (freeable c).*1).
  { intros ([k x] & Heq & Hx)%list_elem_of_fmap. simpl in Heq. subst k. apply H5 in Hx as [? _]. congruence. }
  rewrite run_put. case_bool_decide as He'.
  - rewrite run_of_res, Hn. eexists. split; [reflexivity|]. simpl.
    split_and!; [|done|done|lia|by apply Hins].
    constructor; simpl; rewrite ?od_set_fresh by done.
    + unfold used in *. rewrite weight_insert. lia.
    + unfold pinned in *. rewrite weight_insert. unfold pin at 1. rewrite decide_True by done. lia.
    + rewrite fsum_app. simpl. lia.
    + rewrite fmap_app. apply NoDup_app. split_and!; [done| |apply NoDup_singleton]. intros k Hk ->%list_elem_of_singleton. done.
    + intros k x. rewrite elem_of_app, list_elem_of_singleton, H5. destruct (decide (k = h)) as [->|Hk].
      * rewrite lookup_insert_eq, He'. split; [intros [[? _]|[=]]; [congruence|by subst]|]. intros [_ ->]. by right.
      * rewrite lookup_insert_ne by done. split; [intros [?|?]; [done|congruence]|by left].
    + done.
  - eexists. split; [reflexivity|]. simpl. split_and!; [|done|done|lia|by apply Hins].
    constructor; simpl; try done.
    + unfold used in *. rewrite weight_insert. lia.
    + unfold pinned in *. rewrite weight_insert. unfold pin at 1. rewrite decide_False by done. lia.
    + intros k x. rewrite ?insert_insert_eq, H5. destruct (decide (k = h)) as [->|Hk]; [|by rewrite lookup_insert_ne by done].
      rewrite lookup_insert_eq, Hs'. split; intros [Heq _]; apply (inj Some) in Heq; done.
Qed.

(** The request references the entry. *)
Definition holds (r : Request) c h : Prop := ∃ s, cached c !! h = Some s ∧ request_id r ∈ s.

(** Frees of several inputs of a request. *)
Definition dropped (r : Request) (ids : list Z) c c' : Prop :=
  num_free_slots c' = num_free_slots c ∧ cache_size c' = cache_size c ∧
  ∀ k, cached c' !! k = if decide (Ok k ∈ item_hash r <$> ids) then (λ s, s ∖ {[request_id r]}) <$> (cached c !! k) else cached c !! k.
Lemma drop_all r ids c (skip : Z → bool) :
  ec_ok c → sized r → (∀ i, i ∈ ids → input_of r i) →
  ∃ c', for_ ids (λ i, if skip i then ret tt else ec_free_encoder_input r i) c = (Ok tt, c') ∧ ec_ok c' ∧
    dropped r (filter (λ i, skip i = false) ids) c c'.
Proof.
  revert c. induction ids as [|i ids IH]; intros c Hc Hs Hi; simpl.
  { exists c. split; [done|]. split; [done|]. split_and!; done. }
  assert (Hrest : ∀ j, j ∈ ids → input_of r j) by (intros j Hj; apply Hi; by right).
  destruct (skip i) eqn:Hsk.
  { rewrite run_ret, filter_cons_False by congruence. by apply IH. }
  destruct (sized_item r i Hs (Hi i (list_elem_of_here _ _))) as (h & Hh & _).
  destruct (ec_free_input_spec c r i h Hc Hs (Hi i (list_elem_of_here _ _)) Hh) as (c1 & He & Hc1 & Hn1 & Hs1 & _ & Hl1).
  mstep He. destruct (IH c1 Hc1 Hs Hrest) as (c2 & -> & Hc2 & Hn2 & Hs2 & Hl2). exists c2. split; [done|]. split; [done|].
  split_and!; [congruence|congruence|]. intros k. rewrite filter_cons_True by done. rewrite fmap_cons, Hl2, Hl1, Hh.
  destruct (decide (k = h)) as [->|Hk].
  - rewrite (decide_True (P := Ok h ∈ Ok h :: _)) by (by left). case_decide; [|done]. destruct (cached c !! h); simpl; [f_equal; set_solver|done].
  - case_decide as Hin; [by rewrite decide_True by (by right)|]. rewrite decide_False; [done|]. rewrite elem_of_cons. intros [?|?]; congruence.
Qed.

Lemma ids_in_range c r i : i ∈ ec_get_cached_input_ids c r → input_of r i.
Proof. intros [_ Hi]%list_elem_of_filter. apply elem_of_seqZ in Hi. unfold input_of. lia. Qed.

Section set_order.
Variable set_order : list Z → list Z.
Hypothesis set_order_perm : ∀ l, set_order l ≡ₚ l.

Lemma ec_free_spec c r :
  ec_ok c → sized r →
  ∃ c', ec_free set_order r c = (Ok tt, c') ∧ ec_ok c' ∧ num_free_slots c' = num_free_slots c ∧ cache_size c' = cache_size c ∧
    (∀ f s, f ∈ mm_features r → cached c' !! identifier f = Some s → request_id r ∉ s) ∧
    (∀ h, cached c !! h = None → cached c' !! h = None) ∧
    (∀ q h, request_id q ≠ request_id r → holds q c h → holds q c' h).
Proof.
  intros Hc Hs. unfold ec_free. rewrite run_get.
  destruct (drop_all r (set_order (ec_get_cached_input_ids c r)) c (λ _, false) Hc Hs) as (c' & He & Hc' & Hn & Hsz & Hl).
  { intros i. rewrite set_order_perm. apply ids_in_range. }
  exists c'. split; [exact He|]. split; [done|]. split; [done|]. split; [done|]. split_and!.
  2: { intros h Hh. specialize (Hl h). rewrite filter_all in Hl by done. rewrite Hl, Hh. by case_decide. }
  2: { intros q h Hq (s & Hs1 & Hs2). specialize (Hl h). rewrite filter_all in Hl by done. unfold holds. rewrite Hl, Hs1.
       case_decide; [exists (s ∖ {[request_id r]})|by exists s]. split; [done|]. apply elem_of_difference. split; [done|]. by rewrite elem_of_singleton. }
  intros f s Hf Hs'. rewrite Hl in Hs'. rewrite filter_all in Hs' by done. case_decide as Hin.
  - destruct (cached c !! identifier f); simplify_eq/=. set_solver.
  - exfalso. apply Hin. rewrite set_order_perm. apply list_elem_of_lookup in Hf as [j Hj]. apply list_elem_of_fmap.
    pose proof (lookup_lt_Some _ _ _ Hj) as Hlt. exists (Z.of_nat j).
    assert (Hih : item_hash r (Z.of_nat j) = Ok (identifier f)) by (unfold item_hash; rewrite py_nth_nonneg, Nat2Z.id, Hj by lia; done).
    split; [done|]. apply list_elem_of_filter. unfold is_cached. rewrite Hih, Hs'. split; [done|]. apply elem_of_seqZ. unfold len. lia.
Qed.

(** The inputs that a step has written to the KV cache. *)
Definition written (r : Request) (i : Z) : bool :=
  match py_nth (mm_features r) i with
  | Some f => offset (mm_position f) + length_ (mm_position f) <=? num_computed_tokens r
  | None => false
  end.
Lemma ec_free_inputs_spec c r :
  ec_ok c → sized r → ∃ c', _free_encoder_inputs set_order r c = (Ok tt, c') ∧ ec_ok c' ∧
    dropped r (filter (λ i, negb (written r i) = false) (set_order (ec_get_cached_input_ids c r))) c c'.
Proof.
  intros Hc Hs. unfold _free_encoder_inputs. rewrite run_get. simpl.
  assert (Hin : ∀ i, i ∈ set_order (ec_get_cached_input_ids c r) → input_of r i) by (intros i; rewrite set_order_perm; apply ids_in_range).
  destruct (drop_all r _ c (λ i, negb (written r i)) Hc Hs Hin) as (c' & He & Hc' & Hd). exists c'. split; [|done]. rewrite <-He.
  apply for_ext. intros i s Hi. specialize (Hin i Hi). unfold input_of in Hin. unfold written.
  destruct (py_nth (mm_features r) i) as [f|] eqn:Hf.
  - rewrite run_of_option. simpl. by destruct (_ <=? _).
  - rewrite py_nth_nonneg in Hf by lia. apply lookup_ge_None in Hf. unfold len in Hin. lia.
Qed.
End set_order.

(* --------------------------------------------------------------------- *)
(** *** Scheduling encoder inputs                                         *)

(** The number of embeddings among the first [i] tokens of an item. *)
Definition ones (l : list bool) : Z := foldr (λ (b : bool) acc, (if b then 1 else 0) + acc) 0 l.
Definition cnt (p : PlaceholderRange) (i : Z) : Z :=
  match is_embed p with None => i | Some l => ones (take (Z.to_nat i) l) end.
Definition placed (f : MultiModalFeatureSpec) : Prop :=
  0 ≤ length_ (mm_position f) ∧ match is_embed (mm_position f) with Some l => len l = length_ (mm_position f) | None => True end.
(** Some embedding of [f] lies in the tokens [[computed, computed + new)]. *)
Definition needed (computed new : Z) (f : MultiModalFeatureSpec) : Prop :=
  let p := mm_position f in
  cnt p (Z.max 0 (computed - offset p)) < cnt p (Z.min (length_ p) (computed + new - offset p)).

Lemma ones_nonneg l : 0 ≤ ones l.
Proof. induction l as [|[] l IH]; simpl; lia. Qed.
Lemma ones_app l k : ones (l ++ k) = ones l + ones k.
Proof. induction l as [|b l IH]; simpl; [done|]. rewrite IH. lia. Qed.
Lemma cumsum_lookup l acc i : (i < length l)%nat → cumsum acc l !! i = Some (acc + ones (take (S i) l)).
Proof.
  revert acc i. induction l as [|b l IH]; intros acc i Hi; simpl in *; [lia|]. destruct i as [|i]; simpl.
  - destruct b; f_equal; lia.
  - rewrite IH by lia. simpl. f_equal. lia.
Qed.
Lemma cnt_mono p i j : i ≤ j → cnt p i ≤ cnt p j.
Proof.
  intros Hij. unfold cnt. destruct (is_embed p) as [l|]; [|done]. replace (Z.to_nat j) with (Z.to_nat i + (Z.to_nat j - Z.to_nat i))%nat by lia.
  rewrite <-take_take_drop, ones_app. pose proof (ones_nonneg (take (Z.to_nat j - Z.to_nat i) (drop (Z.to_nat i) l))). lia.
Qed.
Lemma range_counts f s e :
  placed f → s ≤ length_ (mm_position f) → e ≤ length_ (mm_position f) →
  get_embeds_indices_in_range (mm_position f) s e = Ok (cnt (mm_position f) s, cnt (mm_position f) e).
Proof.
  intros [Hlen Hp] Hs He. unfold get_embeds_indices_in_range, embeds_cumsum, cnt. destruct (is_embed (mm_position f)) as [l|]; [|done]. simpl.
  assert (Hat : ∀ i, i ≤ length_ (mm_position f) → (if 0 <? i then py_nth (cumsum 0 l) (i - 1) else Some 0) = Some (ones (take (Z.to_nat i) l))).
  { intros i Hi. case_bool; bool_to_prop.
    - rewrite py_nth_nonneg by lia. rewrite cumsum_lookup by (unfold len in Hp; lia). by replace (Z.to_nat i) with (S (Z.to_nat (i - 1))) by lia.
    - replace (Z.to_nat i) with 0%nat by lia. done. }
  by rewrite !Hat.
Qed.
Lemma needed_overlap computed new f :
  needed computed new f → 0 < new ∧ offset (mm_position f) < computed + new ∧ computed < offset (mm_position f) + length_ (mm_position f).
Proof.
  unfold needed. intros H. cut (Z.max 0 (computed - offset (mm_position f)) < Z.min (length_ (mm_position f)) (computed + new - offset (mm_position f))); [lia|].
  apply Z.nle_gt. intros Hle. apply (cnt_mono (mm_position f)) in Hle. lia.
Qed.
Lemma needed_more computed new new' f : new ≤ new' → needed computed new f → needed computed new' f.
Proof.
  unfold needed. intros Hle H. eapply Z.lt_le_trans; [exact H|]. apply cnt_mono. lia.
Qed.

Definition hash_sum (l : list mm_hash) : Z := foldr (λ h acc, size h + acc) 0 l.

(** The plan so far: its inputs have distinct hashes, none is cached, and
    together they fit in the free slots. *)
Record plan_ok (r : Request) c (pl : enc_plan) : Prop := {
  po_ok : ec_ok c;
  po_ids : ∀ i, i ∈ ep_inputs pl ++ ep_external pl → input_of r i;
  po_hashes : item_hash r <$> (ep_inputs pl ++ ep_external pl) ≡ₚ Ok <$> ep_hashes pl;
  po_nodup : NoDup (ep_hashes pl);
  po_absent : ∀ h, h ∈ ep_hashes pl → cached c !! h = None;
  po_embeds : ep_embeds pl = hash_sum (ep_hashes pl);
  po_fits : ep_embeds pl ≤ num_free_slots c;
}.

Lemma plan_evicted r c c' ev pl : plan_ok r c pl → ec_ok c' → evicted c c' ev → plan_ok r c' pl ∧ ∀ h, holds r c h → holds r c' h.
Proof.
  intros [H1 H2 H3 H4 H5 H6 H7] Hc' (Hf & _ & Hn & _ & _ & Hl).
  assert (0 ≤ fsum ev) by (apply (fsum_nonneg c); [done|intros x Hx; rewrite Hf; apply elem_of_app; by left]).
  split; [constructor; try done; [|lia]; intros h Hh; rewrite Hl; case_decide; auto|].
  intros h (s & Hs & Hr). exists s. rewrite Hl. split; [|done]. rewrite decide_False; [done|].
  intros ([k x] & Heq & Hx)%list_elem_of_fmap. simpl in Heq. subst k.
  destruct (proj1 (eo_in _ H1 h x)) as [Hs' _]; [rewrite Hf; apply elem_of_app; by left|].
  rewrite Hs in Hs'. simplify_eq. set_solver.
Qed.
Lemma plan_add r c pl i h (ext : bool) b :
  plan_ok r c pl → sized r → input_of r i → item_hash r i = Ok h → cached c !! h = None → (h ∉ ep_hashes pl) →
  size h + ep_embeds pl ≤ num_free_slots c →
  plan_ok r c (mkEncPlan (if ext then ep_inputs pl else ep_inputs pl ++ [i]) (ep_new pl) b
                 (if ext then ep_external pl ++ [i] else ep_external pl) (h :: ep_hashes pl) (ep_embeds pl + size h)).
Proof.
  intros [H1 H2 H3 H4 H5 H6 H7] Hs Hi Hh Hn Hnew Hfit.
  assert (Hperm : (if ext then ep_inputs pl else ep_inputs pl ++ [i]) ++ (if ext then ep_external pl ++ [i] else ep_external pl)
                  ≡ₚ i :: (ep_inputs pl ++ ep_external pl)).
  { destruct ext; [rewrite app_assoc|rewrite <-app_assoc; simpl]; [apply Permutation_app_comm|symmetry; apply Permutation_middle]. }
  constructor; simpl; try done; try lia.
  - intros j. rewrite Hperm, elem_of_cons. intros [->|Hj]; [done|auto].
  - rewrite Hperm. simpl. by rewrite Hh, H3.
  - by apply NoDup_cons.
  - intros k. rewrite elem_of_cons. intros [->|Hk]; [done|auto].
Qed.

(** What a run of the loop over the inputs [fs] achieves. *)
Record loop_post (r : Request) (computed : Z) (fs : list MultiModalFeatureSpec) (pl : enc_plan) c (pl' : enc_plan) c' : Prop := {
  lp_ok : plan_ok r c' pl';
  lp_new : 0 ≤ ep_new pl' ≤ ep_new pl;
  lp_budget : ep_budget pl' ≤ ep_budget pl ∧ (0 ≤ ep_budget pl → 0 ≤ ep_budget pl');
  lp_hashes : ∀ h, h ∈ ep_hashes pl → h ∈ ep_hashes pl';
  lp_holds : ∀ h, holds r c h → holds r c' h;
  lp_size : cache_size c' = cache_size c;
  lp_avail : ∀ f, f ∈ fs → needed computed (ep_new pl') f → holds r c' (identifier f) ∨ identifier f ∈ ep_hashes pl';
}.
Lemma loop_post_stop r computed fs pl c c' new :
  plan_ok r c' pl → 0 ≤ new ≤ ep_new pl → (∀ h, holds r c h → holds r c' h) → cache_size c' = cache_size c →
  (∀ f, f ∈ fs → ¬ needed computed new f) →
  loop_post r computed fs pl c (mkEncPlan (ep_inputs pl) new (ep_budget pl) (ep_external pl) (ep_hashes pl) (ep_embeds pl)) c'.
Proof.
  intros [] Hn Hh Hsz Hav. constructor; simpl; try done. intros f Hf Hnd. by destruct (Hav f Hf).
Qed.
Lemma loop_post_next r computed f fs pl c pl1 c1 pl' c' :
  loop_post r computed fs pl1 c1 pl' c' → (∀ h, h ∈ ep_hashes pl → h ∈ ep_hashes pl1) → (∀ h, holds r c h → holds r c1 h) →
  ep_new pl1 = ep_new pl → (ep_budget pl1 ≤ ep_budget pl ∧ (0 ≤ ep_budget pl → 0 ≤ ep_budget pl1)) → cache_size c1 = cache_size c →
  (needed computed (ep_new pl) f → holds r c1 (identifier f) ∨ identifier f ∈ ep_hashes pl1) →
  loop_post r computed (f :: fs) pl c pl' c'.
Proof.
  intros [H1 H2 H3 H4 H5 H6 H7] Hh Ho Hn [Hb Hb'] Hsz Hf. constructor; [done|lia|split; [lia|tauto]|auto|auto|congruence|].
  intros f' [->|Hf']%elem_of_cons Hnd; [|by apply H7]. destruct Hf as [Hf|Hf]; [|by left; apply H5|by right; apply H4].
  eapply needed_more; [|exact Hnd]. lia.
Qed.

Lemma holds_check r c c' h s :
  cached c !! h = Some s → cached c' = <[h := {[request_id r]} ∪ s]> (cached c) →
  holds r c' h ∧ (∀ k, holds r c k → holds r c' k).
Proof.
  intros Hs Heq. assert (Hh : holds r c' h) by (eexists; rewrite Heq, lookup_insert_eq; split; [done|set_solver]). split; [done|].
  intros k (sk & Hk & Hr). destruct (decide (k = h)) as [->|Hne]; [done|]. exists sk. by rewrite Heq, lookup_insert_ne by done.
Qed.
Lemma plan_check r c c' pl h :
  plan_ok r c pl → ec_ok c' → num_free_slots c' = num_free_slots c → (h ∉ ep_hashes pl) →
  (∀ k, k ≠ h → cached c' !! k = cached c !! k) → plan_ok r c' pl.
Proof.
  intros [H1 H2 H3 H4 H5 H6 H7] Hc' Hn Hh Hl. constructor; try done; [|lia]. intros k Hk. rewrite Hl; [auto|]. by intros ->.
Qed.
Lemma drop_item r i f fs : 0 ≤ i → drop (Z.to_nat i) (mm_features r) = f :: fs →
  input_of r i ∧ item_hash r i = Ok (identifier f) ∧ f ∈ mm_features r ∧ drop (Z.to_nat (i + 1)) (mm_features r) = fs.
Proof.
  intros Hi Hd. assert (Hl : mm_features r !! Z.to_nat i = Some f) by (rewrite <-(Nat.add_0_r (Z.to_nat i)), <-lookup_drop, Hd; done).
  pose proof (lookup_lt_Some _ _ _ Hl). split; [unfold input_of, len; lia|]. split; [unfold item_hash; by rewrite py_nth_nonneg, Hl by lia|].
  split; [by eapply list_elem_of_lookup_2|]. replace (Z.to_nat (i + 1)) with (Z.to_nat i + 1)%nat by lia. by rewrite <-drop_drop, Hd.
Qed.

Lemma encoder_loop_spec dc hci r computed shift fs i pl c :
  sized r → Forall placed fs → StronglySorted (λ f g, offset (mm_position f) ≤ offset (mm_position g)) fs →
  0 ≤ i → drop (Z.to_nat i) (mm_features r) = fs → 0 ≤ shift → 0 ≤ ep_new pl → plan_ok r c pl →
  ∃ pl' c', encoder_loop dc hci r computed shift i fs pl c = (Ok pl', c') ∧ loop_post r computed fs pl c pl' c'.
Proof.
  intros Hs. revert i pl c. induction fs as [|f fs IH]; intros i pl c Hpl Hsort Hi Hd Hsh Hnew Hok; simpl.
  { exists pl, c. split; [done|]. constructor; try done; try lia. intros f Hf. by apply not_elem_of_nil in Hf. }
  apply Forall_cons in Hpl as [Hp Hpl]. inversion Hsort as [|?? Hsort' Hlater]; subst. rewrite Forall_forall in Hlater.
  destruct (drop_item r i f fs Hi Hd) as (Hin & Hh & Hf & Hd'). pose proof (Hs f Hf) as Hsz.
  assert (Hstop : ∀ new f', new ≤ offset (mm_position f) - computed ∨ new = 0 → f' ∈ f :: fs → ¬ needed computed new f').
  { intros new f' Hn Hf' (Hn1 & Hn2 & Hn3)%needed_overlap. apply elem_of_cons in Hf' as [->|Hf']; [|apply Hlater in Hf']; lia. }
  assert (Hnext : ∀ pl1 c1, plan_ok r c1 pl1 → ep_new pl1 = ep_new pl → ∃ pl' c', encoder_loop dc hci r computed shift (i + 1) fs pl1 c1 = (Ok pl', c') ∧ loop_post r computed fs pl1 c1 pl' c').
  { intros pl1 c1 Hok1 Hn1. apply IH; try done; lia. }
  case_bool; bool_to_prop.
  { destruct pl as [ins new b ext hs em]. eexists _, c. split; [reflexivity|]. apply (loop_post_stop r computed (f :: fs) (mkEncPlan ins new b ext hs em)); simpl in *; try done.
    intros f' Hf'. apply Hstop; [lia|done]. }
  case_bool; bool_to_prop.
  { destruct (Hnext pl c Hok eq_refl) as (pl' & c' & He & Hpost). exists pl', c'. split; [exact He|].
    apply (loop_post_next r computed f fs pl c pl c); try done. intros ?%needed_overlap. lia. }
  case_bool_decide as Hdup.
  { rewrite run_ret. destruct (Hnext pl c Hok eq_refl) as (pl' & c' & He & Hpost). exists pl', c'. split; [exact He|].
    apply (loop_post_next r computed f fs pl c pl c); try done. intros _. by right. }
  destruct (ec_check_spec c r i (po_ok _ _ _ Hok) Hs Hin) as (h & b & c1 & Hh' & He & Hc1 & Hb & Hn1 & Hz1 & Hl1).
  rewrite Hh in Hh'. injection Hh' as <-. mstep He. destruct (cached c !! identifier f) as [s|] eqn:Hcf; simpl in Hb; subst b.
  { destruct (holds_check r c c1 _ s Hcf Hl1) as [Hhold Hkeep]. destruct (Hnext pl c1) as (pl' & c' & He' & Hpost); [|done|].
    { apply (plan_check r c c1 pl (identifier f)); try done. intros k Hk. by rewrite Hl1, lookup_insert_ne by done. }
    exists pl', c'. split; [exact He'|]. apply (loop_post_next r computed f fs pl c pl c1); try done. intros _. by left. }
  assert (Hok1 : plan_ok r c1 pl) by (apply (plan_check r c c1 pl (identifier f)); try done; intros k Hk; by rewrite Hl1).
  assert (Hkeep1 : ∀ h, holds r c h → holds r c1 h) by (intros h (sh & H1 & H2); exists sh; by rewrite Hl1).
  case_bool; bool_to_prop.
  { eexists _, c1. split; [reflexivity|]. apply loop_post_stop; try done; [lia|]. intros f' Hf'. apply Hstop; [lia|done]. }
  destruct (ec_can_allocate_spec c1 r i (ep_budget pl) (ep_embeds pl) _ (po_ok _ _ _ Hok1) Hs Hin Hh) as (b & c2 & ev & He2 & Hc2 & Hev & Hb & Hfit & _).
  mstep He2. destruct (plan_evicted r c1 c2 ev pl Hok1 Hc2 Hev) as [Hok2 Hkeep2]. assert (Hz2 : cache_size c2 = cache_size c) by (destruct Hev; destruct_and!; congruence).
  assert (Hkeep : ∀ h, holds r c h → holds r c2 h) by auto.
  destruct b; simpl.
  2: { eexists _, c2. split; [reflexivity|]. apply loop_post_stop; try done; [case_bool; bool_to_prop; lia|].
       intros f' Hf'. apply Hstop; [case_bool; bool_to_prop; lia|done]. }
  symmetry in Hb. bool_to_prop. pose proof (proj1 Hp) as Hlen. rewrite run_of_res, range_counts by (done || lia). simpl. case_bool; bool_to_prop.
  { destruct (Hnext pl c2 Hok2 eq_refl) as (pl' & c' & He' & Hpost). exists pl', c'. split; [exact He'|].
    apply (loop_post_next r computed f fs pl c pl c2); try done. unfold needed. simpl. lia. }
  assert (Hnone : cached c2 !! identifier f = None).
  { destruct Hev as (_ & _ & _ & _ & _ & Hl2). rewrite Hl2, Hl1, Hcf. by case_decide. }
  rewrite Hsz. case_bool.
  - destruct (Hnext _ c2 (plan_add r c2 pl i _ true (ep_budget pl) Hok2 Hs Hin Hh Hnone Hdup Hfit) eq_refl) as (pl' & c' & He' & Hpost).
    exists pl', c'. split; [exact He'|]. eapply loop_post_next; [exact Hpost|..]; simpl; try done.
    + intros k Hk. by right.
    + intros _. right. by left.
  - destruct (Hnext _ c2 (plan_add r c2 pl i _ false (ep_budget pl - size (identifier f)) Hok2 Hs Hin Hh Hnone Hdup Hfit) eq_refl) as (pl' & c' & He' & Hpost).
    exists pl', c'. split; [exact He'|]. eapply loop_post_next; [exact Hpost|..]; simpl; try done.
    + intros k Hk. by right.
    + pose proof (size_nonneg (identifier f)). lia.
    + intros _. right. by left.
Qed.

Lemma hash_sum_nonneg hs : 0 ≤ hash_sum hs.
Proof. unfold hash_sum. induction hs as [|k hs IH]; simpl; [done|]. specialize (size_nonneg k). lia. Qed.

(** Reserving the planned inputs, as [schedule] does for the inputs to compute
    and then for the inputs to load. *)
Lemma allocate_all r ids hs c :
  ec_ok c → sized r → (∀ i, i ∈ ids → input_of r i) → item_hash r <$> ids = Ok <$> hs → NoDup hs →
  (∀ h, h ∈ hs → cached c !! h = None) → hash_sum hs ≤ num_free_slots c →
  ∃ c', for_ ids (ec_allocate r) c = (Ok tt, c') ∧ ec_ok c' ∧ num_free_slots c' = num_free_slots c - hash_sum hs ∧ cache_size c' = cache_size c ∧
    (∀ h, h ∈ hs ∨ holds r c h → holds r c' h).
Proof.
  revert hs c. induction ids as [|i ids IH]; intros [|h hs] c Hc Hs Hids Hh Hnd Habs Hfit; try discriminate Hh; simpl.
  { exists c. split_and!; try done; [lia|]. intros h [[]%not_elem_of_nil|?]; done. }
  rewrite !fmap_cons in Hh. injection Hh as Hi Hh. apply NoDup_cons in Hnd as [Hnew Hnd]. unfold hash_sum in Hfit; simpl in Hfit; fold (hash_sum hs) in Hfit.
  pose proof (hash_sum_nonneg hs) as Hsum.
  destruct (ec_allocate_spec c r i h Hc Hs (Hids _ (list_elem_of_here _ _)) Hi (Habs _ (list_elem_of_here _ _))) as (c1 & He & Hc1 & Hl & Hn & Hz); [lia|].
  mstep He. destruct (IH hs c1 Hc1 Hs) as (c' & -> & Hc' & Hn' & Hz' & Hho); try done.
  - intros j Hj. apply Hids. by right.
  - intros k Hk. rewrite Hl, lookup_insert_ne; [apply Habs; by right|]. by intros ->.
  - lia.
  - exists c'. split_and!; [done|done|lia|congruence|]. intros k Hk. apply Hho.
    destruct (decide (k = h)) as [->|Hkh]; [right; eexists; rewrite Hl, lookup_insert_eq; split; [done|set_solver]|].
    destruct Hk as [Hk|(s & Hs1 & Hs2)]; [apply elem_of_cons in Hk as [?|?]; [done|by left]|].
    right. exists s. by rewrite Hl, lookup_insert_ne by done.
Qed.

(** The planned inputs can be reserved, and with them every input that the
    scheduled tokens need is available to the request. *)
Definition reservable (r : Request) (ids : list Z) (computed new : Z) c : Prop :=
  (∀ i, i ∈ ids → input_of r i) ∧
  ∃ hs, item_hash r <$> ids = Ok <$> hs ∧ NoDup hs ∧ (∀ h, h ∈ hs → cached c !! h = None) ∧ hash_sum hs ≤ num_free_slots c ∧
    (∀ f, f ∈ mm_features r → needed computed new f → holds r c (identifier f) ∨ identifier f ∈ hs).

(** Items in the order of their positions, with embeddings inside them. *)
Definition inputs_ok (r : Request) : Prop :=
  sized r ∧ Forall placed (mm_features r) ∧
  StronglySorted (λ f g, offset (mm_position f) ≤ offset (mm_position g)) (mm_features r).

Lemma plan_reservable r c pl computed :
  plan_ok r c pl → (∀ f, f ∈ mm_features r → needed computed (ep_new pl) f → holds r c (identifier f) ∨ identifier f ∈ ep_hashes pl) →
  reservable r (ep_inputs pl ++ ep_external pl) computed (ep_new pl) c.
Proof.
  intros [Hc' Hids Hperm Hnd Habs Hem Hfit] Hav. split; [done|]. destruct (Permutation_map_inv _ _ Hperm) as (hs & Hh & Hhs).
  exists hs. split; [done|]. split; [by rewrite <-Hhs|]. split; [intros h; rewrite <-Hhs; apply Habs|]. split.
  - enough (hash_sum hs = hash_sum (ep_hashes pl)) by lia. unfold hash_sum. clear -Hhs. induction Hhs; simpl; lia.
  - intros f Hf Hnf. destruct (Hav f Hf Hnf) as [?|Hin]; [by left|right]. by rewrite <-Hhs.
Qed.

Lemma try_schedule_spec dc hci r computed new budget shift c :
  ec_ok c → inputs_ok r → 0 ≤ new → 0 ≤ shift →
  ∃ ins new' budget' ext c', _try_schedule_encoder_inputs dc hci r computed new budget shift c = (Ok (ins, new', budget', ext), c') ∧
    ec_ok c' ∧ 0 ≤ new' ≤ new ∧ budget' ≤ budget ∧ (0 ≤ budget → 0 ≤ budget') ∧ cache_size c' = cache_size c ∧
    reservable r (ins ++ ext) computed new' c'.
Proof.
  intros Hc (Hs & Hp & Hsort) Hn Hsh. unfold _try_schedule_encoder_inputs. case_bool; bool_to_prop.
  { exists [], new, budget, [], c. split_and!; try done; try lia.
    split; [intros i Hi; by apply not_elem_of_nil in Hi|].
    exists []. split; [done|]. split; [constructor|]. split; [intros h Hh; by apply not_elem_of_nil in Hh|]. split; [apply (eo_room _ Hc)|].
    intros f Hf (H1 & H2 & H3)%needed_overlap. apply orb_true_iff in E as [E|E]; bool_to_prop; [lia|].
    exfalso. unfold has_encoder_inputs, num_encoder_inputs in E. bool_to_prop.
    destruct (mm_features r) as [|? l]; [by apply not_elem_of_nil in Hf|]. rewrite len_cons in E. pose proof (len_nonneg l). lia. }
  destruct (encoder_loop_spec dc hci r computed shift (mm_features r) 0 (mkEncPlan [] new budget [] [] 0) c) as (pl & c' & He & [Ho H1 H2 _ _ Hz Hav]); try done.
  { constructor; simpl; try done; [intros i Hi; by apply not_elem_of_nil in Hi|constructor|intros h Hh; by apply not_elem_of_nil in Hh|apply (eo_room _ Hc)]. }
  mstep He. eexists _, _, _, _, _. split; [reflexivity|]. simpl in H1, H2. split_and!; try done; try lia; try tauto; [apply (po_ok _ _ _ Ho)|].
  by apply plan_reservable.
Qed.

(* --------------------------------------------------------------------- *)
(** *** Sequences of operations                                           *)

Section protocol.
Variables (disable_chunked : bool) (has_cache_item : option (mm_hash → bool)) (set_order : list Z → list Z).
Hypothesis set_order_perm : ∀ l, set_order l ≡ₚ l.

(** One visit of [schedule] to a request: choose its encoder inputs, free the
    inputs of the requests preempted to make room for its blocks, and, when
    the blocks were found, reserve the chosen inputs. *)
Definition visit (r : Request) (computed new budget shift : Z) (preempted : list Request) (scheduled : bool) : M EncoderCacheManager Z :=
  x <- _try_schedule_encoder_inputs disable_chunked has_cache_item r computed new budget shift ;;
  for_ preempted (ec_free set_order) ;;
  (when scheduled do for_ (x.1.1.1 ++ x.2) (ec_allocate r)) ;;
  ret x.1.1.2.

Inductive ec_op :=
  | OpVisit (r : Request) (computed new budget shift : Z) (preempted : list Request) (scheduled : bool)
  | OpFreeInputs (r : Request)
  | OpFree (r : Request)
  | OpFreedHashes
  | OpReset.
Definition run_ec_op (o : ec_op) : M EncoderCacheManager unit :=
  match o with
  | OpVisit r computed new budget shift preempted scheduled => visit r computed new budget shift preempted scheduled ;; ret tt
  | OpFreeInputs r => _free_encoder_inputs set_order r
  | OpFree r => ec_free set_order r
  | OpFreedHashes => ec_get_freed_mm_hashes ;; ret tt
  | OpReset => ec_reset
  end.
Definition op_ok (o : ec_op) : Prop :=
  match o with
  | OpVisit r _ new _ shift preempted _ => inputs_ok r ∧ Forall sized preempted ∧ 0 ≤ new ∧ 0 ≤ shift
  | OpFreeInputs r | OpFree r => sized r
  | OpFreedHashes | OpReset => True
  end.

Lemma free_preempted ps r ids computed new c :
  ec_ok c → Forall sized ps → Forall (λ q, request_id q ≠ request_id r) ps → reservable r ids computed new c →
  ∃ c', for_ ps (ec_free set_order) c = (Ok tt, c') ∧ ec_ok c' ∧ cache_size c' = cache_size c ∧ reservable r ids computed new c'.
Proof.
  intros Hc Hps. revert c Hc. induction Hps as [|q ps Hq _ IH]; intros c Hc Hne Hr; simpl; [by exists c|].
  apply Forall_cons in Hne as [Hqr Hne]. destruct (ec_free_spec set_order set_order_perm c q Hc Hq) as (c1 & He & Hc1 & Hn1 & Hz1 & _ & Habs & Hho).
  mstep He. destruct (IH c1 Hc1 Hne) as (c2 & -> & Hc2 & Hz2 & Hr2); [|exists c2; split; [done|]; split; [done|]; split; [congruence|done]].
  destruct Hr as (Hids & hs & H1 & H2 & H3 & H4 & H5). split; [done|]. exists hs. split_and!; try done; [auto|lia|].
  intros f Hf Hn. destruct (H5 f Hf Hn) as [?|?]; [left; apply Hho; [congruence|done]|by right].
Qed.
Lemma free_requests ps c : ec_ok c → Forall sized ps → ∃ c', for_ ps (ec_free set_order) c = (Ok tt, c') ∧ ec_ok c' ∧ cache_size c' = cache_size c ∧
  num_free_slots c' = num_free_slots c ∧ ∀ h, cached c !! h = None → cached c' !! h = None.
Proof.
  intros Hc Hps. revert c Hc. induction Hps as [|q ps Hq _ IH]; intros c Hc; simpl; [by exists c|].
  destruct (ec_free_spec set_order set_order_perm c q Hc Hq) as (c1 & He & Hc1 & Hn1 & Hz1 & _ & Habs & _).
  mstep He. destruct (IH c1 Hc1) as (c2 & -> & Hc2 & Hz2 & Hn2 & Ha2). exists c2. split_and!; [done|done|congruence|lia|auto].
Qed.

Lemma visit_spec r computed new budget shift preempted scheduled c :
  ec_ok c → inputs_ok r → Forall sized preempted → 0 ≤ new → 0 ≤ shift →
  ∃ new' c', visit r computed new budget shift preempted scheduled c = (Ok new', c') ∧ ec_ok c' ∧ cache_size c' = cache_size c ∧ 0 ≤ new' ≤ new ∧
    (scheduled = true → Forall (λ q, request_id q ≠ request_id r) preempted →
     ∀ f, f ∈ mm_features r → needed computed new' f → holds r c' (identifier f)).
Proof.
  intros Hc Hr Hps Hn Hsh. unfold visit.
  destruct (try_schedule_spec disable_chunked has_cache_item r computed new budget shift c Hc Hr Hn Hsh) as (ins & new' & budget' & ext & c1 & He & Hc1 & Hn' & _ & _ & Hz1 & Hres).
  mstep He. cbn [fst snd]. destruct (free_requests preempted c1 Hc1 Hps) as (c2 & He2 & Hc2 & Hz2 & Hf2 & Ha2). mstep He2.
  destruct scheduled; [|exists new', c2; split_and!; try done; try lia; congruence].
  destruct Hres as (Hids & hs & H1 & H2 & H3 & H4 & H5) eqn:Heq.
  destruct (allocate_all r (ins ++ ext) hs c2) as (c3 & He3 & Hc3 & _ & Hz3 & Hho); try done; [apply Hr|auto|lia|].
  mstep He3. exists new', c3. split; [done|]. split; [done|]. split; [congruence|]. split; [done|]. intros _ Hne f Hf Hnf. apply Hho.
  destruct (free_preempted preempted r (ins ++ ext) computed new' c1 Hc1 Hps Hne Hres) as (c2' & He2' & _ & _ & Hres').
  rewrite He2 in He2'. injection He2' as <-. destruct Hres' as (_ & hs' & H1' & _ & _ & _ & H5').
  rewrite H1 in H1'. apply (inj (fmap Ok)) in H1'. subst hs'. destruct (H5' f Hf Hnf); auto.
Qed.

Lemma new_manager_ok n : 0 ≤ n → ec_ok (new_EncoderCacheManager n).
Proof.
  intros Hn. constructor; simpl; unfold used, pinned; rewrite ?weight_empty; try lia; [constructor|]. intros h x. rewrite lookup_empty.
  split; [intros []%not_elem_of_nil|by intros [? _]].
Qed.
Lemma run_ec_op_spec o c : ec_ok c → op_ok o → ∃ c', run_ec_op o c = (Ok tt, c') ∧ ec_ok c' ∧ cache_size c' = cache_size c.
Proof.
  intros Hc Ho. destruct o as [r computed new budget shift ps scheduled|r|r| |]; simpl in *.
  - destruct Ho as (Hr & Hps & Hn & Hsh). destruct (visit_spec r computed new budget shift ps scheduled c) as (x & c' & He & ? & ? & _); try done.
    exists c'. mstep He. done.
  - destruct (ec_free_inputs_spec set_order set_order_perm c r Hc Ho) as (c' & He & ? & _ & ? & _). by exists c'.
  - destruct (ec_free_spec set_order set_order_perm c r Hc Ho) as (c' & He & ? & _ & ? & _). by exists c'.
  - eexists. split; [reflexivity|]. split; [|done]. destruct Hc. by constructor.
  - eexists. split; [reflexivity|]. split; [|done]. assert (0 ≤ used (cached c)) by (by apply weight_nonneg).
    apply new_manager_ok. destruct Hc. lia.
Qed.

Lemma run_ec_ops_spec os c :
  ec_ok c → Forall op_ok os → ∃ c', for_ os run_ec_op c = (Ok tt, c') ∧ ec_ok c' ∧ cache_size c' = cache_size c.
Proof.
  intros Hc Hos. revert c Hc. induction Hos as [|o os Ho _ IH]; intros c Hc; simpl; [by exists c|].
  destruct (run_ec_op_spec o c Hc Ho) as (c1 & He & Hc1 & Hz). mstep He. destruct (IH c1 Hc1) as (c2 & -> & ? & ?).
  exists c2. split; [done|]. split; [done|congruence].
Qed.
End protocol.
End accounting.

(* ===================================================================== *)
(** ** Theorems                                                           *)
(* ===================================================================== *)

(** The states that sequences of operations reach from an empty cache. *)
Definition ec_reached (size : mm_hash → Z) (dc : bool) (hci : option (mm_hash → bool)) (set_order : list Z → list Z)
    (n : Z) (os : list ec_op) (c : EncoderCacheManager) : Prop :=
  0 ≤ n ∧ (∀ h, 0 ≤ size h) ∧ (∀ l, set_order l ≡ₚ l) ∧ Forall (op_ok size) os ∧
  for_ os (run_ec_op dc hci set_order) (new_EncoderCacheManager n) = (Ok tt, c).

Lemma ec_reached_ok size dc hci set_order n os c :
  ec_reached size dc hci set_order n os c → ec_ok size c ∧ cache_size c = n.
Proof.
  intros (Hn & Hsz & Hord & Hos & He).
  destruct (run_ec_ops_spec size Hsz dc hci set_order Hord os _ (new_manager_ok size n Hn) Hos) as (c' & He' & Hc & Hz).
  rewrite He in He'. by injection He' as <-.
Qed.

(** C34.  The bookkeeping of the encoder cache is exact: no sequence of
    scheduling visits (with preemptions), frees, takes of the freed hashes and
    resets raises, the items that are stored never exceed the cache size,
    [num_free_slots] is the cache size less the items stored,
    [num_freeable_slots] is the cache size less the items some request
    references, and the reclaim list holds exactly the unreferenced items. *)
Theorem encoder_cache_accounting_is_exact size dc hci set_order n os :
  0 ≤ n → (∀ h, 0 ≤ size h) → (∀ l, set_order l ≡ₚ l) → Forall (op_ok size) os →
  ∃ c, for_ os (run_ec_op dc hci set_order) (new_EncoderCacheManager n) = (Ok tt, c) ∧
    0 ≤ num_free_slots c ≤ num_freeable_slots c ∧ num_freeable_slots c ≤ n ∧
    num_free_slots c = n - used size (cached c) ∧ num_freeable_slots c = n - pinned size (cached c) ∧
    NoDup (freeable c).*1 ∧ (∀ h x, (h, x) ∈ freeable c ↔ cached c !! h = Some ∅ ∧ x = size h).
Proof.
  intros Hn Hsz Hord Hos.
  destruct (run_ec_ops_spec size Hsz dc hci set_order Hord os _ (new_manager_ok size n Hn) Hos) as (c & He & Hc & Hz).
  exists c. assert (0 ≤ fsum (freeable c)) by (by apply (fsum_nonneg size Hsz c)).
  assert (0 ≤ pinned size (cached c)) by (apply weight_nonneg; intros h s; unfold pin; case_decide; [done|apply Hsz]).
  split; [done|]. simpl in Hz. rewrite <-Hz. destruct Hc. split_and!; try done; lia.
Qed.

(** C33.  Scheduled tokens have their encoder inputs: when [schedule] visits a
    request in a reachable state, it keeps between none and all of the tokens
    asked for, reserving the chosen inputs never fails an assertion, whoever
    is preempted in between, and afterwards every item with an embedding among
    the tokens kept is in the cache and referenced by the request. *)
Theorem scheduled_encoder_inputs_are_reserved size dc hci set_order n os c r computed new budget shift preempted :
  ec_reached size dc hci set_order n os c → inputs_ok size r → Forall (sized size) preempted →
  Forall (λ q, request_id q ≠ request_id r) preempted → 0 ≤ new → 0 ≤ shift →
  ∃ new' c', visit dc hci set_order r computed new budget shift preempted true c = (Ok new', c') ∧ 0 ≤ new' ≤ new ∧
    (∀ f, f ∈ mm_features r → needed computed new' f → ∃ s, cached c' !! identifier f = Some s ∧ request_id r ∈ s).
Proof.
  intros Hre Hr Hps Hne Hn Hsh. destruct (ec_reached_ok _ _ _ _ _ _ _ Hre) as [Hc _]. destruct Hre as (_ & Hsz & Hord & _).
  destruct (visit_spec size Hsz dc hci set_order Hord r computed new budget shift preempted true c Hc Hr Hps Hn Hsh) as (new' & c' & He & _ & _ & Hn' & Hav).
  exists new', c'. split; [done|]. split; [done|]. intros f. by apply Hav.
Qed.

Lemma can_allocate_refuses r i budget planned c c' : ec_can_allocate r i budget planned c = (Ok false, c') → c' = c.
Proof.
  unfold ec_can_allocate. rewrite run_of_res. destruct (get_num_encoder_embeds r i) as [n|]; [|done].
  case_bool; [by intros [=]|]. rewrite run_get. cbv zeta. case_bool; [by intros [=]|]. case_bool; [by intros [=]|].
  unfold bind. by destruct (evict_loop _ _ c) as [[|] ?].
Qed.

(** [can_allocate] in a reachable state answers whether the item fits the
    compute budget and the reclaimable space next to what is already planned;
    a refusal changes nothing, and for an acceptance it evicts a shortest
    prefix of the reclaim list that leaves enough free slots, unreferenced
    entries only, and reports exactly their hashes as freed. *)
Theorem can_allocate_evicts_the_oldest size dc hci set_order n os c r i h budget planned :
  ec_reached size dc hci set_order n os c → sized size r → input_of r i → item_hash r i = Ok h →
  ∃ b c' ev, ec_can_allocate r i budget planned c = (Ok b, c') ∧
    b = ((size h <=? budget) && (size h + planned <=? num_freeable_slots c)) ∧
    (if b then size h + planned ≤ num_free_slots c' else c' = c) ∧
    freeable c = ev ++ freeable c' ∧ freed c' = freed c ++ ev.*1 ∧
    (∀ k, cached c' !! k = if decide (k ∈ ev.*1) then None else cached c !! k) ∧ (∀ k, k ∈ ev.*1 → cached c !! k = Some ∅) ∧
    (∀ ev' x, ev = ev' ++ [x] → num_free_slots c + fsum ev' < size h + planned).
Proof.
  intros Hre Hs Hi Hh. destruct (ec_reached_ok _ _ _ _ _ _ _ Hre) as [Hc _]. destruct Hre as (_ & Hsz & _).
  destruct (ec_can_allocate_spec size Hsz c r i budget planned h Hc Hs Hi Hh) as (b & c' & ev & He & Hc' & Hev & Hb & Hfit & Hmin).
  assert (0 ≤ fsum (freeable c)) by (by apply (fsum_nonneg size Hsz c)). rewrite Z.max_r in Hb by (rewrite (eo_sum _ _ Hc); lia).
  destruct Hev as (Hf & Hd & _ & _ & _ & Hl). exists b, c', ev. split; [done|]. split; [done|]. split; [|split_and!; try done].
  - destruct b; [done|]. eapply can_allocate_refuses; done.
  - intros k ([k' x] & Heq & Hx)%list_elem_of_fmap. simpl in Heq. subst k'. apply (eo_in _ _ Hc k x). rewrite Hf. apply elem_of_app. by left.
Qed.

(** A request with the given items and computed tokens. *)
Definition mm_request (id : string) (fs : list MultiModalFeatureSpec) (computed : Z) : Request :=
  mkRequest id 0 0 0 None None None None 0 RUNNING [] None None 0 None None ∅ 0 [] [] 0 false [] computed None fs false 0 0
    [] false false None false.
Definition mm_item (h : string) (off n : Z) : MultiModalFeatureSpec := mkMMFeature (Some h) (mkPlaceholderRange off n None).

(** Freeing is not idempotent for encoder-decoder models: from the first
    computed token on, [_free_encoder_inputs] frees every input at every step,
    and [free] once more at the end, so the counter of free slots grows past
    the size of the cache. *)
Theorem encoder_decoder_slots_overflow :
  ∃ c, (ed_allocate (mm_request "r" [mm_item "a" 0 4] 0) 0 ;;
        _free_encoder_inputs id (mm_request "r" [mm_item "a" 0 4] 1) ;;
        _free_encoder_inputs id (mm_request "r" [mm_item "a" 0 4] 2) ;;
        ed_free (mm_request "r" [mm_item "a" 0 4] 2)) (new_EncoderDecoderCacheManager 4) = (Ok tt, c) ∧
    ed_cache_size c = 4 ∧ ed_num_free_slots c = 12.
Proof. eexists. split; [vm_compute; reflexivity|]. by split. Qed.

Definition test_size (h : mm_hash) : Z := match h with Some "a"%string => 2 | Some "b"%string => 3 | _ => 1 end.
Definition test_a : Request := mm_request "ra" [mm_item "a" 0 2] 0.
Definition test_b : Request := mm_request "rb" [mm_item "b" 1 3; mm_item "c" 5 1] 0.
Definition test_ops : list ec_op := [OpVisit test_a 0 2 8 0 [] true; OpFree test_a].
Lemma test_size_nonneg h : 0 ≤ test_size h.
Proof. unfold test_size. repeat case_match; lia. Qed.
Lemma test_inputs_ok r : r = test_a ∨ r = test_b → inputs_ok test_size r.
Proof.
  intros [-> | ->]; (split; [|split]).
  - intros f Hf. repeat (apply elem_of_cons in Hf as [->|Hf]; [done|]). by apply not_elem_of_nil in Hf.
  - repeat (apply Forall_cons; split; [by split|]). apply Forall_nil. done.
  - repeat constructor.
  - intros f Hf. repeat (apply elem_of_cons in Hf as [->|Hf]; [done|]). by apply not_elem_of_nil in Hf.
  - repeat (apply Forall_cons; split; [by split|]). apply Forall_nil. done.
  - repeat constructor; done.
Qed.
Lemma test_ops_ok : Forall (op_ok test_size) test_ops.
Proof.
  repeat (apply Forall_cons; split); try apply Forall_nil; try done; simpl.
  - split_and!; [by apply test_inputs_ok; left|constructor|done|done].
  - apply (test_inputs_ok test_a). by left.
Qed.

Lemma encoder_cache_accounting_is_exact_witness :
  ∃ c, for_ test_ops (run_ec_op false None id) (new_EncoderCacheManager 4) = (Ok tt, c) ∧ num_free_slots c = 4 - used test_size (cached c).
Proof.
  destruct (encoder_cache_accounting_is_exact test_size false None id 4 test_ops) as (c & He & _ & _ & Hf & _).
  - lia.
  - exact test_size_nonneg.
  - reflexivity.
  - exact test_ops_ok.
  - by exists c.
Defined.

Definition test_state : EncoderCacheManager := (for_ test_ops (run_ec_op false None id) (new_EncoderCacheManager 4)).2.
Lemma test_reached : ec_reached test_size false None id 4 test_ops test_state.
Proof. split; [lia|]. split; [exact test_size_nonneg|]. split; [done|]. split; [exact test_ops_ok|]. vm_compute. reflexivity. Qed.

Lemma scheduled_encoder_inputs_are_reserved_witness :
  ∃ new' c', visit false None id test_b 0 6 8 0 [test_a] true test_state = (Ok new', c') ∧ new' = 6 ∧
    (∀ f, f ∈ mm_features test_b → needed 0 new' f → ∃ s, cached c' !! identifier f = Some s ∧ request_id test_b ∈ s).
Proof.
  destruct (scheduled_encoder_inputs_are_reserved test_size false None id 4 test_ops test_state test_b 0 6 8 0 [test_a]) as (n & c' & He & _ & Hav).
  - exact test_reached.
  - by apply test_inputs_ok; right.
  - apply Forall_singleton, (test_inputs_ok test_a). by left.
  - by apply Forall_singleton.
  - lia.
  - lia.
  - exists n, c'. split; [exact He|]. split; [|exact Hav]. vm_compute in He. by injection He as <- _.
Defined.

Lemma can_allocate_evicts_the_oldest_witness :
  ∃ b c' (ev : list (mm_hash * Z)), ec_can_allocate test_b 0 8 0 test_state = (Ok b, c') ∧ freed c' = freed test_state ++ ev.*1 ∧ b = true.
Proof.
  destruct (can_allocate_evicts_the_oldest test_size false None id 4 test_ops test_state test_b 0 (Some "b"%string) 8 0) as (b & c' & ev & He & Hb & _ & _ & Hd & _).
  - exact test_reached.
  - apply (test_inputs_ok test_b). by right.
  - done.
  - reflexivity.
  - exists b, c', ev. split; [exact He|]. split; [exact Hd|]. vm_compute in Hb. exact Hb.
Defined.
