(* ===== verification/Scheduler.v ===== *)
(** * The scheduler's step ([src/vllm/v1/core/sched/scheduler.py])

    [Scheduler.schedule] assigns tokens of the step's budget to the running
    requests, preempting from the end of the running list (or the request of
    lowest priority) when blocks run out, and then admits waiting requests.

    Request objects are shared between the queues, the running list and the
    dictionary of requests: the state keeps one store of objects, by request
    id, and lists of ids; a queue is its list of ids with the objects looked up
    when it is used, so an assignment to an attribute is seen everywhere.  The
    KV-cache manager and the encoder-cache manager are used through the
    operations the scheduler calls ([KVManager], [EncoderManager]); a KV
    connector and an encoder-cache connector are parameters. *)
From S2P Require Import Prelude Request KVSpec Coordinator BlockPool KVCacheManager RequestQueue EncoderCache SchedUtils.
Local Open Scope Z_scope.

(* ===================================================================== *)
(** ** What the scheduler calls                                           *)
(* ===================================================================== *)

Class KVManager (K : Type) := {
  kv_new_step_starts : M K unit;
  kv_get_computed_blocks : Request → M K (KVCacheBlocks * Z);
  kv_allocate_slots : Request → Z → Z → option KVCacheBlocks → Z → Z → bool → Z → bool → M K (option KVCacheBlocks);
  kv_free : Request → M K unit;
  kv_get_blocks : K → string → KVCacheBlocks;
  kv_block_ids : K → bool → KVCacheBlocks → option (list (list Z));
  kv_get_num_common_prefix_blocks : string → M K (list Z);
  kv_take_new_block_ids : M K (list Z);
  kv_cache_blocks : Request → Z → M K unit;
  kv_remove_skipped_blocks : string → Z → M K unit;
  kv_evict_blocks : list Z → M K unit;
  kv_reset_prefix_cache : M K bool;
}.
#[export] Instance km_manager `{KVEnv} : KVManager KVCacheManager := {|
  kv_new_step_starts := km_new_step_starts;
  kv_get_computed_blocks := get_computed_blocks;
  kv_allocate_slots := allocate_slots;
  kv_free := km_free;
  kv_get_blocks := km_get_blocks;
  kv_block_ids := λ k allow_none b, kb_get_block_ids (block_pool (coordinator k)) (num_kv_cache_groups k) allow_none b;
  kv_get_num_common_prefix_blocks := km_get_num_common_prefix_blocks;
  kv_take_new_block_ids := km_take_new_block_ids;
  kv_cache_blocks := km_cache_blocks;
  kv_remove_skipped_blocks := km_remove_skipped_blocks;
  kv_evict_blocks := km_evict_blocks;
  kv_reset_prefix_cache := km_reset_prefix_cache |}.

(** A KV connector with state [C], as far as the scheduler reads its answers. *)
Record KVConnector (C : Type) := mkKVConnector {
  kc_get_num_new_matched_tokens : Request → Z → M C (option Z * bool);
  kc_update_state_after_alloc : Request → KVCacheBlocks → Z → M C unit;
  kc_request_finished : Request → option (list (list Z)) → M C bool;
  kc_reset_cache : M C (option bool);
}.
Arguments kc_get_num_new_matched_tokens {C}.
Arguments kc_update_state_after_alloc {C}.
Arguments kc_request_finished {C}.
Arguments kc_reset_cache {C}.

(* ===================================================================== *)
(** ** State                                                              *)
(* ===================================================================== *)

Inductive PauseState : Type := UNPAUSED | PAUSED_NEW | PAUSED_ALL.
#[export] Instance PauseState_eq_dec : EqDecision PauseState.
Proof. solve_decision. Defined.
#[export] Instance SchedulingPolicy_eq_dec : EqDecision SchedulingPolicy.
Proof. solve_decision. Defined.

(** [PrefillStats]. *)
Record PrefillStats := mkPrefillStats {
  ps_num_prompt_tokens : Z;
  ps_num_computed_tokens : Z;
  ps_num_cached_tokens : Z;
  ps_num_local_cached_tokens : Z;
  ps_num_external_cached_tokens : Z;
}.
Definition new_PrefillStats : PrefillStats := mkPrefillStats 0 0 0 0 0.
Definition PrefillStats_set (num_prompt_tokens num_local num_external : Z) : res PrefillStats :=
  let num_cached := num_local + num_external in
  if num_cached <=? num_prompt_tokens then
    Ok (mkPrefillStats num_prompt_tokens (num_prompt_tokens - num_cached) num_cached num_local num_external)
  else Raise AssertionError.

(** What the scheduler keeps of its configuration. *)
Record Config := mkConfig {
  policy : SchedulingPolicy;
  max_num_running_reqs : Z;
  max_num_scheduled_tokens : Z;
  long_prefill_token_threshold : Z;
  enable_chunked_prefill : bool;
  disable_chunked_mm : bool;
  max_model_len : Z;
  max_loras : option Z;                  (* absent without a LoRA configuration *)
  max_num_encoder_input_tokens : Z;
  use_eagle : bool;
  num_spec_tokens : Z;
  num_lookahead_tokens : Z;
  reserve_full_isl : bool;               (* scheduler_reserve_full_isl *)
  need_mamba_block_aligned_split : bool;
  cache_block_size : Z;                  (* cache_config.block_size *)
  needs_kv_cache_zeroing : bool;
  use_v2_model_runner : bool;
  use_pp : bool;
  async_scheduling : bool;
  sched_log_stats : bool;
  num_groups : nat;
}.

Record Scheduler {K E C : Type} := mkScheduler {
  objs : gmap string Request;                       (* the request objects *)
  s_requests : list string;                         (* the keys of self.requests *)
  waiting : list string;
  skipped_waiting : list string;
  running : list string;
  finished_req_ids : gset string;
  finished_req_ids_dict : option (gmap Z (gset string));
  prev_step_scheduled_req_ids : gset string;
  num_waiting_for_streaming_input : Z;
  finished_recving_kv_req_ids : gset string;
  failed_recving_kv_req_ids : gset string;
  prefill_stats : gmap string PrefillStats;         (* request.prefill_stats where not None *)
  connector_prefix_cache_stats : option PrefixCacheStats;
  pause_state : PauseState;
  kv : K;
  enc : E;
  conn : C;
}.
Arguments Scheduler : clear implicits.
Arguments mkScheduler {K E C}.
#[export] Instance eta_Scheduler {K E C} : Eta (Scheduler K E C) := λ s,
  mkScheduler (objs s) (s_requests s) (waiting s) (skipped_waiting s) (running s) (finished_req_ids s) (finished_req_ids_dict s) (prev_step_scheduled_req_ids s) (num_waiting_for_streaming_input s) (finished_recving_kv_req_ids s) (failed_recving_kv_req_ids s) (prefill_stats s) (connector_prefix_cache_stats s) (pause_state s) (kv s) (enc s) (conn s).
#[export] Instance set_objs {K E C} : Setter (@objs K E C).
Proof. build_setter. Defined.
#[export] Instance set_s_requests {K E C} : Setter (@s_requests K E C).
Proof. build_setter. Defined.
#[export] Instance set_waiting {K E C} : Setter (@waiting K E C).
Proof. build_setter. Defined.
#[export] Instance set_skipped_waiting {K E C} : Setter (@skipped_waiting K E C).
Proof. build_setter. Defined.
#[export] Instance set_running {K E C} : Setter (@running K E C).
Proof. build_setter. Defined.
#[export] Instance set_finished_req_ids {K E C} : Setter (@finished_req_ids K E C).
Proof. build_setter. Defined.
#[export] Instance set_finished_req_ids_dict {K E C} : Setter (@finished_req_ids_dict K E C).
Proof. build_setter. Defined.
#[export] Instance set_prev_step_scheduled_req_ids {K E C} : Setter (@prev_step_scheduled_req_ids K E C).
Proof. build_setter. Defined.
#[export] Instance set_num_waiting_for_streaming_input {K E C} : Setter (@num_waiting_for_streaming_input K E C).
Proof. build_setter. Defined.
#[export] Instance set_finished_recving_kv_req_ids {K E C} : Setter (@finished_recving_kv_req_ids K E C).
Proof. build_setter. Defined.
#[export] Instance set_failed_recving_kv_req_ids {K E C} : Setter (@failed_recving_kv_req_ids K E C).
Proof. build_setter. Defined.
#[export] Instance set_prefill_stats {K E C} : Setter (@prefill_stats K E C).
Proof. build_setter. Defined.
#[export] Instance set_connector_prefix_cache_stats {K E C} : Setter (@connector_prefix_cache_stats K E C).
Proof. build_setter. Defined.
#[export] Instance set_pause_state {K E C} : Setter (@pause_state K E C).
Proof. build_setter. Defined.
#[export] Instance set_kv {K E C} : Setter (@kv K E C).
Proof. build_setter. Defined.
#[export] Instance set_enc {K E C} : Setter (@enc K E C).
Proof. build_setter. Defined.
#[export] Instance set_conn {K E C} : Setter (@conn K E C).
Proof. build_setter. Defined.

(* ===================================================================== *)
(** ** One step                                                           *)
(* ===================================================================== *)

(** The local variables of [schedule]. *)
Record Step := mkStep {
  scheduled_new_reqs : list string;
  scheduled_resumed_reqs : list string;
  scheduled_running_reqs : list string;
  preempted_reqs : list string;
  req_to_new_blocks : list (string * KVCacheBlocks);
  num_scheduled_tokens : list (string * Z);
  token_budget : Z;
  scheduled_encoder_inputs : list (string * list Z);
  encoder_compute_budget : Z;
  scheduled_spec_decode_tokens : list (string * list Z);
  req_index : Z;
}.
#[export] Instance eta_Step : Eta Step := λ t,
  mkStep (scheduled_new_reqs t) (scheduled_resumed_reqs t) (scheduled_running_reqs t) (preempted_reqs t) (req_to_new_blocks t)
    (num_scheduled_tokens t) (token_budget t) (scheduled_encoder_inputs t) (encoder_compute_budget t)
    (scheduled_spec_decode_tokens t) (req_index t).
#[export] Instance set_scheduled_new_reqs : Setter scheduled_new_reqs.
Proof. build_setter. Defined.
#[export] Instance set_scheduled_resumed_reqs : Setter scheduled_resumed_reqs.
Proof. build_setter. Defined.
#[export] Instance set_scheduled_running_reqs : Setter scheduled_running_reqs.
Proof. build_setter. Defined.
#[export] Instance set_preempted_reqs : Setter preempted_reqs.
Proof. build_setter. Defined.
#[export] Instance set_req_to_new_blocks : Setter req_to_new_blocks.
Proof. build_setter. Defined.
#[export] Instance set_num_scheduled_tokens : Setter num_scheduled_tokens.
Proof. build_setter. Defined.
#[export] Instance set_token_budget : Setter token_budget.
Proof. build_setter. Defined.
#[export] Instance set_scheduled_encoder_inputs : Setter scheduled_encoder_inputs.
Proof. build_setter. Defined.
#[export] Instance set_encoder_compute_budget : Setter encoder_compute_budget.
Proof. build_setter. Defined.
#[export] Instance set_scheduled_spec_decode_tokens : Setter scheduled_spec_decode_tokens.
Proof. build_setter. Defined.
#[export] Instance set_req_index : Setter req_index.
Proof. build_setter. Defined.

(** Dictionaries by request id in insertion order: [d.pop(k, None)], [d[k]]
    and assignment. *)
Fixpoint dict_pop {A} (k : string) (d : list (string * A)) : option A * list (string * A) :=
  match d with
  | [] => (None, [])
  | (k', v) :: d' => if decide (k' = k) then (Some v, d') else let '(o, d'') := dict_pop k d' in (o, (k', v) :: d'')
  end.
Fixpoint dict_get {A} (k : string) (d : list (string * A)) : option A :=
  match d with
  | [] => None
  | (k', v) :: d' => if decide (k' = k) then Some v else dict_get k d'
  end.
Fixpoint dict_set {A} (k : string) (v : A) (d : list (string * A)) : list (string * A) :=
  match d with
  | [] => [(k, v)]
  | (k', v') :: d' => if decide (k' = k) then (k', v) :: d' else (k', v') :: dict_set k v d'
  end.
Definition dict_sum (d : list (string * Z)) : Z := foldr (λ x acc, x.2 + acc) 0 d.

(** [max(l, key=...)]: the first element with the greatest key. *)
Fixpoint max_by {A} (less : A → A → bool) (x : A) (l : list A) : A :=
  match l with
  | [] => x
  | y :: l' => max_by less (if less x y then y else x) l'
  end.

(** [_mamba_block_aligned_split]. *)
Definition _mamba_block_aligned_split (cfg : Config) (request : Request)
    (num_new_tokens num_new_local_computed_tokens num_external_computed_tokens : Z) : res Z :=
  if negb (num_external_computed_tokens =? 0) then Raise AssertionError
  else
    let num_computed := num_computed_tokens request + num_new_local_computed_tokens + num_external_computed_tokens in
    if num_computed <? Z.max (num_prompt_tokens request) (num_tokens request - 1) then
      let bs := cache_block_size cfg in
      let last_cache_position := num_tokens request - num_tokens request mod bs in
      let last_cache_position := if use_eagle cfg then Z.max (last_cache_position - bs) 0 else last_cache_position in
      let after := num_computed + num_new_tokens in
      if after <? last_cache_position then Ok (num_new_tokens / bs * bs)
      else if (num_computed <? last_cache_position) && (last_cache_position <? after) then Ok (last_cache_position - num_computed)
      else Ok num_new_tokens
    else Ok num_new_tokens.

Definition _is_blocked_waiting_status (s : RequestStatus) : bool :=
  match s with
  | WAITING_FOR_STRUCTURED_OUTPUT_GRAMMAR | WAITING_FOR_REMOTE_KVS | WAITING_FOR_STREAMING_REQ => true
  | _ => false
  end.

Section scheduler.
Context {K E C : Type} `{!KVManager K} `{!EncoderManager E}.
Variables (cfg : Config) (connector : option (KVConnector C)) (has_cache_item : option (mm_hash → bool))
  (grammar_ready : Request → bool) (set_order : list Z → list Z).
Abbreviation S := (M (Scheduler K E C)).

(** Attribute access on a request object. *)
Definition obj (id : string) : S Request := s <- get ;; of_option KeyError (objs s !! id).
Definition upd (id : string) (f : Request → Request) : S unit := modify (λ s, s <| objs ::= alter f id |>).
Definition on_kv {A} (m : M K A) : S A := zoom kv (λ k s, s <| kv := k |>) m.
Definition on_enc {A} (m : M E A) : S A := zoom enc (λ e s, s <| enc := e |>) m.
Definition on_conn {A} (m : M C A) : S A := zoom conn (λ c s, s <| conn := c |>) m.

(** A queue: its ids, with the objects they refer to now. *)
Definition q_of (s : Scheduler K E C) (ids : list string) : RequestQueue :=
  let l := omap (λ i, objs s !! i) ids in
  match policy cfg with FCFS => FCFSRequestQueue l | PRIORITY => PriorityRequestQueue l end.
Definition q_ids (q : RequestQueue) : list string := request_id <$> content q.

(** [_preempt_request]. *)
Definition _preempt_request (id : string) (timestamp : Z) : S unit :=
  r <- obj id ;;
  assert_ (bool_decide (status r = RUNNING)) ;;
  on_kv (kv_free r) ;;
  on_enc (enc_free set_order r) ;;
  upd id (λ r, r <| status := PREEMPTED |> <| num_computed_tokens := 0 |> <| spec_token_ids := [] |>
                 <| num_preemptions ::= Z.add 1 |>) ;;
  (when (sched_log_stats cfg) do upd id (λ r, r <| events ::= λ l, l ++ [(EvPreempted, timestamp)] |>)) ;;
  r <- obj id ;;
  modify (λ s, s <| waiting := q_ids (prepend_request r (q_of s (waiting s))) |>).

(** The request of lowest priority among the running ones. *)
Definition lower_priority (s : Scheduler K E C) (a b : string) : bool :=
  match objs s !! a, objs s !! b with
  | Some ra, Some rb =>
      (priority ra <? priority rb) || ((priority ra =? priority rb) && (arrival_time ra <? arrival_time rb))
  | _, _ => false
  end.
(** Undo what the step scheduled for a preempted request. *)
Definition unschedule (p : string) (t : Step) : S Step :=
  match dict_pop p (num_scheduled_tokens t), dict_pop p (req_to_new_blocks t) with
  | (Some n, ns), (Some _, nb) =>
      let '(ei, es) := dict_pop p (scheduled_encoder_inputs t) in
      restored <- (match ei with
                   | Some ids =>
                       r <- obj p ;;
                       es <- map_m (λ i, of_res (get_num_encoder_embeds r i)) ids ;; ret (foldr Z.add 0 es)
                   | None => ret 0
                   end) ;;
      ret (t <| scheduled_running_reqs ::= remove_first p |> <| num_scheduled_tokens := ns |> <| req_to_new_blocks := nb |>
             <| token_budget ::= Z.add n |> <| scheduled_spec_decode_tokens ::= λ d, (dict_pop p d).2 |>
             <| scheduled_encoder_inputs := es |> <| encoder_compute_budget ::= Z.add restored |>
             <| req_index ::= λ i, i - 1 |>)
  | _, _ => raise KeyError
  end.

(** Take the request to preempt out of the running list. *)
Definition pick_victim (t : Step) : S (string * Step) :=
  s <- get ;;
  match policy cfg with
  | PRIORITY =>
      match running s with
      | [] => raise ValueError
      | x :: l =>
          let p := max_by (lower_priority s) x l in
          put (s <| running := remove_first p (running s) |>) ;;
          t <- (if bool_decide (p ∈ scheduled_running_reqs t) then unschedule p t else ret t) ;;
          ret (p, t)
      end
  | FCFS =>
      match last (running s) with
      | None => raise IndexError
      | Some p => put (s <| running := take (length (running s) - 1) (running s) |>) ;; ret (p, t)
      end
  end.

(** The [while True] loop around [allocate_slots]; every turn but the last
    preempts a running request. *)
Fixpoint allocate_loop (fuel : nat) (id : string) (num_new_tokens timestamp : Z) (t : Step) :
    S (option KVCacheBlocks * Step) :=
  match fuel with
  | O => raise OutOfFuel
  | Datatypes.S fuel' =>
      r <- obj id ;;
      new_blocks <- on_kv (kv_allocate_slots r num_new_tokens 0 None (num_lookahead_tokens cfg) 0 false 0 false) ;;
      match new_blocks with
      | Some b => ret (Some b, t)
      | None =>
          pt <- pick_victim t ;;
          let '(p, t) := pt in
          _preempt_request p timestamp ;;
          let t := t <| preempted_reqs ::= λ l, l ++ [p] |> in
          if decide (p = id) then ret (None, t) else allocate_loop fuel' id num_new_tokens timestamp t
      end
  end.

(** Reserving the encoder inputs chosen for a request. *)
Definition reserve_encoder_inputs (id : string) (inputs external : list Z) : S unit :=
  r <- obj id ;;
  on_enc (for_ inputs (allocate r)) ;;
  on_enc (for_ external (allocate r)).

(** The number of tokens a running request could take. *)
Definition running_num_new_tokens (r : Request) (budget : Z) : Z :=
  let n := num_tokens_with_spec r + num_output_placeholders r - num_computed_tokens r in
  let n := if (0 <? long_prefill_token_threshold cfg) && (long_prefill_token_threshold cfg <? n)
           then long_prefill_token_threshold cfg else n in
  Z.min (Z.min n budget) (max_model_len cfg - 1 - num_computed_tokens r).
(** The last token is already on its way. *)
Definition awaits_last_token (r : Request) : bool :=
  (0 <? num_output_placeholders r)
  && (num_prompt_tokens r + max_tokens r <=? num_computed_tokens r + 2 - num_output_placeholders r).

(** Encoder inputs for a request: the inputs, the tokens kept, the budget left
    and the inputs to load. *)
Definition choose_encoder_inputs (r : Request) (num_computed num_new budget : Z) : S (list Z * Z * Z * list Z) :=
  if has_encoder_inputs r then
    on_enc (_try_schedule_encoder_inputs (disable_chunked_mm cfg) has_cache_item r num_computed num_new budget
              (if use_eagle cfg then 1 else 0))
  else ret ([], num_new, budget, []).
Definition aligned_split (r : Request) (num_new num_local num_external : Z) : S Z :=
  if need_mamba_block_aligned_split cfg then of_res (_mamba_block_aligned_split cfg r num_new num_local num_external)
  else ret num_new.

(** A running request has its blocks: record it in the step. *)
Definition schedule_running_request (id : string) (num_new_tokens : Z) (new_blocks : KVCacheBlocks) (inputs : list Z)
    (budget : Z) (external : list Z) (t : Step) : S Step :=
  r <- obj id ;;
  let t := t <| scheduled_running_reqs ::= λ l, l ++ [id] |> <| req_to_new_blocks ::= dict_set id new_blocks |>
             <| num_scheduled_tokens ::= dict_set id num_new_tokens |> <| token_budget ::= λ b, b - num_new_tokens |>
             <| req_index ::= Z.add 1 |> in
  let num_spec := num_new_tokens + num_computed_tokens r - num_tokens r - num_output_placeholders r in
  let t := if (0 <? len (spec_token_ids r)) && (0 <? num_spec) then
             t <| scheduled_spec_decode_tokens ::= dict_set id (if num_spec <? len (spec_token_ids r)
                    then slice_to (spec_token_ids r) num_spec else spec_token_ids r) |>
           else t in
  upd id (λ r, r <| spec_token_ids := [] |>) ;;
  reserve_encoder_inputs id inputs external ;;
  ret (match inputs with
       | [] => t
       | _ => t <| scheduled_encoder_inputs ::= dict_set id inputs |> <| encoder_compute_budget := budget |>
       end).

(** The loop over the running requests. *)
Fixpoint running_loop (fuel : nat) (timestamp : Z) (t : Step) : S Step :=
  match fuel with
  | O => raise OutOfFuel
  | Datatypes.S fuel' =>
      s <- get ;;
      if (req_index t <? len (running s)) && (0 <? token_budget t) then
        id <- of_option IndexError (py_nth (running s) (req_index t)) ;;
        r <- obj id ;;
        if awaits_last_token r then running_loop fuel' timestamp (t <| req_index ::= Z.add 1 |>)
        else
          x <- choose_encoder_inputs r (num_computed_tokens r) (running_num_new_tokens r (token_budget t))
                 (encoder_compute_budget t) ;;
          let '(inputs, num_new_tokens, budget, external) := x in
          num_new_tokens <- aligned_split r num_new_tokens 0 0 ;;
          if num_new_tokens =? 0 then running_loop fuel' timestamp (t <| req_index ::= Z.add 1 |>)
          else
            s <- get ;;
            y <- allocate_loop (Datatypes.S (length (running s))) id num_new_tokens timestamp t ;;
            let '(new_blocks, t) := y in
            match new_blocks with
            | None => ret t
            | Some b =>
                t <- schedule_running_request id num_new_tokens b inputs budget external t ;;
                running_loop fuel' timestamp t
            end
      else ret t
  end.

(* --------------------------------------------------------------------- *)
(** *** Waiting requests                                                  *)

(** [_update_waiting_for_remote_kv]. *)
Definition _update_waiting_for_remote_kv (id : string) : S unit :=
  assert_ (is_some connector) ;;
  s <- get ;;
  r <- obj id ;;
  (if bool_decide (id ∈ failed_recving_kv_req_ids s) then
     (if negb (num_computed_tokens r =? 0) then on_kv (kv_cache_blocks r (num_computed_tokens r)) else on_kv (kv_free r)) ;;
     modify (λ s, s <| failed_recving_kv_req_ids ::= λ x, x ∖ {[id]} |>)
   else
     on_kv (kv_cache_blocks r (num_computed_tokens r)) ;;
     when (num_computed_tokens r =? num_tokens r) do
       upd id (λ r, r <| num_computed_tokens := num_tokens r - 1 |>)) ;;
  s <- get ;;
  if bool_decide (id ∈ finished_recving_kv_req_ids s)
  then put (s <| finished_recving_kv_req_ids ::= λ x, x ∖ {[id]} |>)
  else raise KeyError.

(** [_try_promote_blocked_waiting_request]. *)
Definition _try_promote_blocked_waiting_request (id : string) : S bool :=
  s <- get ;;
  r <- obj id ;;
  match status r with
  | WAITING_FOR_REMOTE_KVS =>
      if bool_decide (id ∉ finished_recving_kv_req_ids s) then ret false
      else
        _update_waiting_for_remote_kv id ;;
        upd id (λ r, r <| status := if negb (num_preemptions r =? 0) then PREEMPTED else WAITING |>) ;;
        ret true
  | WAITING_FOR_STRUCTURED_OUTPUT_GRAMMAR =>
      if negb (use_structured_output r && grammar_ready r) then ret false
      else upd id (λ r, r <| status := WAITING |>) ;; ret true
  | WAITING_FOR_STREAMING_REQ =>
      assert_ (match streaming_queue r with Some (_ :: _) => false | _ => true end) ;; ret false
  | _ => raise AssertionError
  end.

(** The two queues of waiting requests. *)
Inductive which_queue := QWaiting | QSkipped.
Definition ids_of (w : which_queue) (s : Scheduler K E C) : list string :=
  match w with QWaiting => waiting s | QSkipped => skipped_waiting s end.
Definition set_ids (w : which_queue) (ids : list string) (s : Scheduler K E C) : Scheduler K E C :=
  match w with QWaiting => s <| waiting := ids |> | QSkipped => s <| skipped_waiting := ids |> end.

(** [_select_waiting_queue_for_scheduling]. *)
Definition _select_waiting_queue_for_scheduling (s : Scheduler K E C) : res (option which_queue) :=
  match policy cfg with
  | FCFS => Ok (match skipped_waiting s, waiting s with
                | _ :: _, _ => Some QSkipped
                | [], _ :: _ => Some QWaiting
                | [], [] => None
                end)
  | PRIORITY =>
      match waiting s, skipped_waiting s with
      | _ :: _, _ :: _ =>
          match peek_request (q_of s (waiting s)), peek_request (q_of s (skipped_waiting s)) with
          | Ok w, Ok k => Ok (Some (if request_lt w k then QWaiting else QSkipped))
          | Raise e, _ => Raise e
          | _, Raise e => Raise e
          end
      | _ :: _, [] => Ok (Some QWaiting)
      | [], _ :: _ => Ok (Some QSkipped)
      | [], [] => Ok None
      end
  end.
Definition queue_peek (w : which_queue) : S string :=
  s <- get ;; r <- of_res (peek_request (q_of s (ids_of w s))) ;; ret (request_id r).
Definition queue_pop (w : which_queue) : S string :=
  s <- get ;;
  x <- of_res (pop_request (q_of s (ids_of w s))) ;;
  put (set_ids w (q_ids x.2) s) ;; ret (request_id x.1).

(** The local variables of the second loop, beside those of the step. *)
Record Admission := mkAdmission {
  a_step : Step;
  scheduled_loras : gset Z;
  step_skipped_waiting : list string;
}.
(** [request_queue.pop_request(); step_skipped_waiting.prepend_request(request)]. *)
Definition skip_request (w : which_queue) (id : string) (a : Admission) : S Admission :=
  queue_pop w ;;
  s <- get ;;
  r <- obj id ;;
  ret (mkAdmission (a_step a) (scheduled_loras a) (q_ids (prepend_request r (q_of s (step_skipped_waiting a))))).

Definition exceeds_max_loras (r : Request) (loras : gset Z) : bool :=
  match max_loras cfg, lora_request r with
  | Some m, Some l => (Z.of_nat (base.size loras) =? m) && bool_decide (lora_int_id l ∉ loras)
  | _, _ => false
  end.

(** The tokens already in the cache: the blocks and number of tokens found
    locally, the number the connector has, whether it loads them later and how
    many tokens that makes; [None] when the connector cannot tell yet. *)
Record Hit := mkHit { h_blocks : KVCacheBlocks; h_local : Z; h_external : Z; h_async : bool; h_computed : Z; h_queries : Z }.
Definition lookup_computed (id : string) : S (option Hit) :=
  r <- obj id ;;
  if num_computed_tokens r =? 0 then
    hit <- on_kv (kv_get_computed_blocks r) ;;
    let '(new_computed_blocks, num_local) := hit in
    ext <- (match connector with
            | None => ret (Some (0, false, 0))
            | Some c =>
                x <- on_conn (kc_get_num_new_matched_tokens c r num_local) ;;
                ret (match x.1 with Some n => Some (n, x.2, num_tokens r - num_local) | None => None end)
            end) ;;
    match ext with
    | None => ret None
    | Some (num_external, load_async, queries) =>
        assert_ (num_local + num_external <=? num_tokens r) ;;
        s <- get ;;
        (match prefill_stats s !! id with
         | Some _ =>
             assert_ (num_local + num_external <=? num_prompt_tokens r) ;;
             ps <- of_res (PrefillStats_set (num_prompt_tokens r) num_local num_external) ;;
             put (s <| prefill_stats ::= insert id ps |>)
         | None => ret tt
         end) ;;
        ret (Some (mkHit new_computed_blocks num_local num_external load_async (num_local + num_external) queries))
    end
  else ret (Some (mkHit EmptyKVCacheBlocks 0 0 false (num_computed_tokens r) 0)).

(** The number of new tokens of a waiting request; [None] ends the loop. *)
Definition waiting_num_new_tokens (r : Request) (num_computed budget : Z) : S (option Z) :=
  let n := num_tokens r - num_computed in
  let threshold := long_prefill_token_threshold cfg in
  let n := if (0 <? threshold) && (threshold <? n) then threshold else n in
  if negb (enable_chunked_prefill cfg) && (budget <? n) then ret None
  else assert_ (0 <? Z.min n budget) ;; ret (Some (Z.min n budget)).

(** The new tokens and encoder inputs of a waiting request. *)
Definition plan_waiting (r : Request) (h : Hit) (t : Step) : S (option (list Z * Z * Z * list Z)) :=
  x <- (if h_async h then assert_ (0 <? h_external h) ;; ret (Some ([], 0, encoder_compute_budget t, []))
        else
          n <- waiting_num_new_tokens r (h_computed h) (token_budget t) ;;
          match n with
          | None => ret None
          | Some n =>
              x <- choose_encoder_inputs r (h_computed h) n (encoder_compute_budget t) ;;
              if has_encoder_inputs r && (x.1.1.2 =? 0) then ret None else ret (Some x)
          end) ;;
  match x with
  | None => ret None
  | Some (inputs, n, budget, external) =>
      n <- aligned_split r n (h_local h) (h_external h) ;;
      if need_mamba_block_aligned_split cfg && (n =? 0) then ret None else ret (Some (inputs, n, budget, external))
  end.

Definition connector_after_alloc (id : string) (h : Hit) : S unit :=
  match connector with
  | None => ret tt
  | Some c =>
      s <- get ;;
      r <- obj id ;;
      on_conn (kc_update_state_after_alloc c r (kv_get_blocks (kv s) id) (h_external h)) ;;
      modify (λ s, match connector_prefix_cache_stats s with
                   | Some st => if h_queries h =? 0 then s
                                else s <| connector_prefix_cache_stats :=
                                       Some (record_stats (h_queries h) (h_external h) (0 <? num_preemptions r) st) |>
                   | None => s
                   end)
  end.

(** Move a waiting request that has its blocks to the running list. *)
Definition start_request (id : string) (timestamp : Z) (h : Hit) (plan : list Z * Z * Z * list Z) (a : Admission) : S Admission :=
  let '(inputs, num_new_tokens, budget, external) := plan in
  modify (λ s, s <| running ::= λ l, l ++ [id] |>) ;;
  (when (sched_log_stats cfg) do upd id (λ r, r <| events ::= λ l, l ++ [(EvScheduled, timestamp)] |>)) ;;
  r <- obj id ;;
  let t := a_step a in
  t <- (match status r with
        | WAITING => ret (t <| scheduled_new_reqs ::= λ l, l ++ [id] |>)
        | PREEMPTED => ret (t <| scheduled_resumed_reqs ::= λ l, l ++ [id] |>)
        | _ => raise RuntimeError
        end) ;;
  let loras := match max_loras cfg, lora_request r with
               | Some _, Some l => {[lora_int_id l]} ∪ scheduled_loras a
               | _, _ => scheduled_loras a
               end in
  s <- get ;;
  let t := t <| req_to_new_blocks ::= dict_set id (kv_get_blocks (kv s) id) |>
             <| num_scheduled_tokens ::= dict_set id num_new_tokens |> <| token_budget ::= λ b, b - num_new_tokens |> in
  upd id (λ r, r <| status := RUNNING |> <| num_computed_tokens := h_computed h |>) ;;
  reserve_encoder_inputs id inputs external ;;
  ret (mkAdmission (match inputs with
                    | [] => t
                    | _ => t <| scheduled_encoder_inputs ::= dict_set id inputs |> <| encoder_compute_budget := budget |>
                    end) loras (step_skipped_waiting a)).

Definition sum_embeds (r : Request) (inputs : list Z) : S Z :=
  es <- map_m (λ i, of_res (get_num_encoder_embeds r i)) inputs ;; ret (foldr Z.add 0 es).

(** Give a waiting request its blocks and start it, or park it until its
    remote blocks have arrived; [false] ends the loop. *)
Definition admit_request (w : which_queue) (id : string) (timestamp : Z) (h : Hit) (plan : list Z * Z * Z * list Z) (a : Admission) :
    S (Admission * bool) :=
  let '(inputs, num_new_tokens, budget, external) := plan in
  r <- obj id ;;
  let lookahead := if num_computed_tokens r =? 0 then 0 else num_lookahead_tokens cfg in
  num_encoder_tokens <- (if is_encoder_decoder && has_encoder_inputs r then sum_embeds r inputs else ret 0) ;;
  new_blocks <- on_kv (kv_allocate_slots r num_new_tokens (h_local h) (Some (h_blocks h)) lookahead (h_external h)
                         (h_async h) num_encoder_tokens (reserve_full_isl cfg)) ;;
  match new_blocks with
  | None => (when (has_encoder_inputs r) do on_enc (enc_free set_order r)) ;; ret (a, false)
  | Some _ =>
      connector_after_alloc id h ;;
      id <- queue_pop w ;;
      if h_async h then
        upd id (λ r, r <| status := WAITING_FOR_REMOTE_KVS |>) ;;
        s <- get ;;
        r <- obj id ;;
        upd id (λ r, r <| num_computed_tokens := h_computed h |>) ;;
        ret (mkAdmission (a_step a) (scheduled_loras a) (q_ids (prepend_request r (q_of s (step_skipped_waiting a)))), true)
      else a <- start_request id timestamp h plan a ;; ret (a, true)
  end.

(** The loop over the waiting requests; every turn takes one out of a queue. *)
Fixpoint waiting_loop (fuel : nat) (timestamp : Z) (a : Admission) : S Admission :=
  match fuel with
  | O => raise OutOfFuel
  | Datatypes.S fuel' =>
      s <- get ;;
      if ((0 <? len (waiting s)) || (0 <? len (skipped_waiting s))) && (0 <? token_budget (a_step a)) then
        if len (running s) =? max_num_running_reqs cfg then ret a
        else
          ow <- of_res (_select_waiting_queue_for_scheduling s) ;;
          w <- of_option AssertionError ow ;;
          id <- queue_peek w ;;
          r <- obj id ;;
          blocked <- (if _is_blocked_waiting_status (status r)
                      then ok <- _try_promote_blocked_waiting_request id ;; ret (negb ok) else ret false) ;;
          if (blocked : bool) then a <- skip_request w id a ;; waiting_loop fuel' timestamp a
          else if exceeds_max_loras r (scheduled_loras a) then a <- skip_request w id a ;; waiting_loop fuel' timestamp a
          else
            oh <- lookup_computed id ;;
            match oh with
            | None => a <- skip_request w id a ;; waiting_loop fuel' timestamp a
            | Some h =>
                r <- obj id ;;
                plan <- plan_waiting r h (a_step a) ;;
                match plan with
                | None => ret a
                | Some plan =>
                    x <- admit_request w id timestamp h plan a ;;
                    if x.2 then waiting_loop fuel' timestamp x.1 else ret x.1
                end
            end
      else ret a
  end.

(* --------------------------------------------------------------------- *)
(** *** The output of a step                                              *)

Record NewRequestData := mkNewRequestData {
  nr_req_id : string;
  nr_prompt_token_ids : option (list Z);
  nr_mm_features : list MultiModalFeatureSpec;
  nr_sampling_params : option SamplingParams;
  nr_pooling_params : option PoolingParams;
  nr_block_ids : list (list Z);
  nr_num_computed_tokens : Z;
  nr_lora_request : option LoRARequest;
  nr_prompt_embeds : option (list bytes);
  nr_prefill_token_ids : option (list Z);
}.
Definition NewRequestData_from_request (r : Request) (block_ids : list (list Z)) (prefill : option (list Z)) : NewRequestData :=
  mkNewRequestData (request_id r) (prompt_token_ids r) (mm_features r) (sampling_params r) (pooling_params r) block_ids
    (num_computed_tokens r) (lora_request r) (prompt_embeds r) prefill.

Record CachedRequestData := mkCachedRequestData {
  cr_req_ids : list string;
  cr_resumed_req_ids : gset string;
  cr_new_token_ids : list (list Z);
  cr_all_token_ids : list (string * list Z);
  cr_new_block_ids : list (option (list (list Z)));
  cr_num_computed_tokens : list Z;
  cr_num_output_tokens : list Z;
}.

Record SchedulerOutput := mkSchedulerOutput {
  so_new_reqs : list NewRequestData;
  so_cached_reqs : CachedRequestData;
  so_num_scheduled_tokens : list (string * Z);
  so_total_num_scheduled_tokens : Z;
  so_spec_decode_tokens : list (string * list Z);
  so_encoder_inputs : list (string * list Z);
  so_num_common_prefix_blocks : list Z;
  so_preempted_req_ids : gset string;
  so_finished_req_ids : gset string;
  so_free_encoder_mm_hashes : list mm_hash;
  so_new_block_ids_to_zero : option (list Z);
  so_has_structured_output_requests : bool;
  so_pending_structured_output_tokens : bool;
}.

Definition new_request_data (t : Step) (prefill : bool) (id : string) : S NewRequestData :=
  s <- get ;;
  r <- obj id ;;
  b <- of_option KeyError (dict_get id (req_to_new_blocks t)) ;;
  ids <- of_option TypeError (kv_block_ids (kv s) false b) ;;
  ret (NewRequestData_from_request r ids (if prefill then Some (_all_token_ids r) else None)).

(** One turn of the loop of [_make_cached_request_data]. *)
Definition cached_request_row (t : Step) (resumed : bool) (id : string) (d : CachedRequestData) : S CachedRequestData :=
  s <- get ;;
  r <- obj id ;;
  tok <- (if use_pp cfg && negb (async_scheduling cfg) then
            n <- of_option KeyError (dict_get id (num_scheduled_tokens t)) ;;
            let n := n - len (default [] (dict_get id (scheduled_spec_decode_tokens t))) in
            ret [slice (_all_token_ids r) (num_computed_tokens r) (num_computed_tokens r + n)]
          else ret []) ;;
  let in_prev := bool_decide (id ∈ prev_step_scheduled_req_ids s) in
  (when resumed do assert_ (negb in_prev)) ;;
  b <- of_option KeyError (dict_get id (req_to_new_blocks t)) ;;
  ret (mkCachedRequestData (cr_req_ids d ++ [id])
         (if resumed then {[id]} ∪ cr_resumed_req_ids d else cr_resumed_req_ids d)
         (cr_new_token_ids d ++ tok)
         (if in_prev then cr_all_token_ids d else dict_set id (_all_token_ids r) (cr_all_token_ids d))
         (cr_new_block_ids d ++ [kv_block_ids (kv s) true b])
         (cr_num_computed_tokens d ++ [num_computed_tokens r])
         (cr_num_output_tokens d ++ [num_output_tokens r + num_output_placeholders r])).
Fixpoint cached_request_loop (t : Step) (resumed : bool) (ids : list string) (d : CachedRequestData) : S CachedRequestData :=
  match ids with
  | [] => ret d
  | id :: ids' => d <- cached_request_row t resumed id d ;; cached_request_loop t resumed ids' d
  end.
Definition _make_cached_request_data (t : Step) (running_reqs resumed_reqs : list string) : S CachedRequestData :=
  d <- cached_request_loop t false running_reqs (mkCachedRequestData [] ∅ [] [] [] [] []) ;;
  cached_request_loop t true resumed_reqs d.

(** [_update_after_schedule] of [Scheduler]: advance the computed tokens. *)
Fixpoint advance_loop (ns : list (string * Z)) (structured : bool) : S bool :=
  match ns with
  | [] => ret structured
  | (id, n) :: ns' =>
      s <- get ;;
      (if bool_decide (id ∈ s_requests s) then ret tt else raise KeyError) ;;
      upd id (λ r, r <| num_computed_tokens ::= λ c, c + n |>) ;;
      upd id (λ r, r <| is_prefill_chunk := num_computed_tokens r <? num_tokens r + num_output_placeholders r |>) ;;
      r <- obj id ;;
      advance_loop ns' (structured || (use_structured_output r && negb (is_prefill_chunk r)))
  end.
(** [AsyncScheduler._update_after_schedule]: reserve placeholders for the
    tokens the step will produce. *)
Fixpoint placeholder_loop (specs : list (string * list Z)) (ns : list (string * Z)) (pending : bool) : S bool :=
  match ns with
  | [] => ret pending
  | (id, _) :: ns' =>
      r <- obj id ;;
      if is_prefill_chunk r then placeholder_loop specs ns' pending
      else
        let pending := pending || (use_structured_output r && (0 <? num_output_placeholders r)) in
        upd id (λ r, r <| num_output_placeholders ::= λ p, p + 1 + len (default [] (dict_get id specs)) |>
                       <| spec_token_ids := py_replicate (num_spec_tokens cfg) (-1) |>) ;;
        placeholder_loop specs ns' pending
  end.
Definition _update_after_schedule (o : SchedulerOutput) : S SchedulerOutput :=
  structured <- advance_loop (so_num_scheduled_tokens o) (so_has_structured_output_requests o) ;;
  modify (λ s, s <| finished_req_ids := ∅ |>) ;;
  pending <- (if async_scheduling cfg then
                placeholder_loop (so_spec_decode_tokens o) (so_num_scheduled_tokens o) (so_pending_structured_output_tokens o)
              else ret (so_pending_structured_output_tokens o)) ;;
  ret (mkSchedulerOutput (so_new_reqs o) (so_cached_reqs o) (so_num_scheduled_tokens o) (so_total_num_scheduled_tokens o)
         (so_spec_decode_tokens o) (so_encoder_inputs o) (so_num_common_prefix_blocks o) (so_preempted_req_ids o)
         (so_finished_req_ids o) (so_free_encoder_mm_hashes o) (so_new_block_ids_to_zero o) structured pending).

(** The LoRA adapters of the running requests of the step. *)
Fixpoint running_loras (ids : list string) : S (gset Z) :=
  match ids with
  | [] => ret ∅
  | id :: ids' =>
      r <- obj id ;;
      rest <- running_loras ids' ;;
      ret (match lora_request r with
           | Some l => if 0 <? lora_int_id l then {[lora_int_id l]} ∪ rest else rest
           | None => rest
           end)
  end.

(** The second half of the scheduling pass. *)
Definition schedule_waiting (timestamp : Z) (t : Step) : S Step :=
  loras <- (match max_loras cfg with
            | Some m =>
                l <- running_loras (scheduled_running_reqs t) ;;
                assert_ (Z.of_nat (base.size l) <=? m) ;; ret l
            | None => ret ∅
            end) ;;
  s <- get ;;
  match preempted_reqs t, pause_state s with
  | [], UNPAUSED =>
      a <- waiting_loop (Datatypes.S (length (waiting s) + length (skipped_waiting s))) timestamp (mkAdmission t loras []) ;;
      (match step_skipped_waiting a with
       | [] => ret tt
       | _ => modify (λ s, s <| skipped_waiting :=
                q_ids (prepend_requests (q_of s (step_skipped_waiting a)) (q_of s (skipped_waiting s))) |>)
       end) ;;
      ret (a_step a)
  | _, _ => ret t
  end.

(** The checks at the end of the pass and the construction of the output. *)
Definition make_output (t : Step) : S SchedulerOutput :=
  s <- get ;;
  let total := dict_sum (num_scheduled_tokens t) in
  assert_ (total <=? max_num_scheduled_tokens cfg) ;;
  assert_ (0 <=? token_budget t) ;;
  assert_ (len (running s) <=? max_num_running_reqs cfg) ;;
  assert_ (len (scheduled_new_reqs t) + len (scheduled_resumed_reqs t) + len (scheduled_running_reqs t) <=? len (running s)) ;;
  common <- (match running s with
             | [] => ret (replicate (num_groups cfg) 0)
             | any :: _ => on_kv (kv_get_num_common_prefix_blocks any)
             end) ;;
  let '(new_reqs, resumed_reqs) :=
    if use_v2_model_runner cfg then (scheduled_new_reqs t ++ scheduled_resumed_reqs t, [])
    else (scheduled_new_reqs t, scheduled_resumed_reqs t) in
  new_data <- map_m (new_request_data t (use_v2_model_runner cfg)) new_reqs ;;
  cached_data <- _make_cached_request_data t (scheduled_running_reqs t) resumed_reqs ;;
  modify (λ s, s <| prev_step_scheduled_req_ids := list_to_set (num_scheduled_tokens t).*1 |>) ;;
  zero <- (if needs_kv_cache_zeroing cfg then
             ids <- on_kv kv_take_new_block_ids ;; ret (match ids with [] => None | _ => Some ids end)
           else ret None) ;;
  freed <- on_enc enc_get_freed_mm_hashes ;;
  s <- get ;;
  ret (mkSchedulerOutput new_data cached_data (num_scheduled_tokens t) total (scheduled_spec_decode_tokens t)
         (scheduled_encoder_inputs t) common (list_to_set (preempted_reqs t)) (finished_req_ids s) freed zero false false).

(** [schedule]. *)
Definition schedule (timestamp : Z) : S SchedulerOutput :=
  s <- get ;;
  let budget := match pause_state s with PAUSED_ALL => 0 | _ => max_num_scheduled_tokens cfg end in
  on_kv kv_new_step_starts ;;
  t <- running_loop (Datatypes.S (length (running s))) timestamp
         (mkStep [] [] [] [] [] [] budget [] (max_num_encoder_input_tokens cfg) [] 0) ;;
  t <- schedule_waiting timestamp t ;;
  o <- make_output t ;;
  _update_after_schedule o.

(* --------------------------------------------------------------------- *)
(** *** Adding and finishing requests                                     *)

(** The block hasher of the requests. *)
Variable hasher : option BlockHasher.

(** Run a method of a request object. *)
Definition on_obj {A} (id : string) (m : M Request A) : S A :=
  r <- obj id ;;
  match m r with
  | (Ok a, r') => upd id (λ _, r') ;; ret a
  | (Raise e, r') => upd id (λ _, r') ;; raise e
  end.

(** [_enqueue_waiting_request]. *)
Definition _enqueue_waiting_request (id : string) : S unit :=
  s <- get ;;
  r <- obj id ;;
  if _is_blocked_waiting_status (status r)
  then put (s <| skipped_waiting := q_ids (add_request r (q_of s (skipped_waiting s))) |>)
  else put (s <| waiting := q_ids (add_request r (q_of s (waiting s))) |>).

(** [_update_request_as_session]: continue a streaming session with its next
    input; the last sampled token is dropped. *)
Definition session_update (u : StreamingUpdate) : M Request unit :=
  r <- get ;;
  let kept := slice (_all_token_ids r) (num_prompt_tokens r) (num_computed_tokens r) in
  modify (λ r, r <| _all_token_ids := slice_to (_all_token_ids r) (num_computed_tokens r) |> <| _output_token_ids := [] |>) ;;
  prompt <- of_option AssertionError (prompt_token_ids r) ;;
  let new_prompt := default [] (su_prompt_token_ids u) in
  modify (λ r, r <| prompt_token_ids := Some (prompt ++ kept) |>
    <| mm_features ::= λ fs, fs ++ map (λ f, mkMMFeature (identifier f)
         (mkPlaceholderRange (offset (mm_position f) + num_tokens r) (length_ (mm_position f)) (is_embed (mm_position f))))
         (default [] (su_mm_features u)) |>) ;;
  modify (λ r, r <| _all_token_ids ::= λ l, l ++ new_prompt |> <| prompt_token_ids := Some (prompt ++ kept ++ new_prompt) |>) ;;
  update_block_hashes hasher ;;
  modify (λ r, r <| num_prompt_tokens := len (prompt ++ kept ++ new_prompt) |> <| arrival_time := su_arrival_time u |>
                 <| sampling_params := su_sampling_params u |>).
Definition _update_request_as_session (id : string) (u : StreamingUpdate) (timestamp : Z) : S unit :=
  on_obj id (session_update u) ;;
  r <- obj id ;;
  (when (bool_decide (status r = WAITING_FOR_STREAMING_REQ)) do
     modify (λ s, s <| num_waiting_for_streaming_input ::= λ n, n - 1 |>)) ;;
  upd id (λ r, r <| status := WAITING |>) ;;
  when (sched_log_stats cfg) do upd id (λ r, r <| events ::= λ l, l ++ [(EvQueued, timestamp)] |>).

(** [_connector_finished]. *)
Definition _connector_finished (r : Request) : S bool :=
  match connector with
  | None => ret false
  | Some c =>
      on_kv (kv_remove_skipped_blocks (request_id r) (num_computed_tokens r)) ;;
      s <- get ;;
      on_conn (kc_request_finished c r (kv_block_ids (kv s) false (kv_get_blocks (kv s) (request_id r))))
  end.
(** [_free_blocks]. *)
Definition _free_blocks (id : string) : S unit :=
  r <- obj id ;;
  assert_ (is_finished r) ;;
  on_kv (kv_free r) ;;
  s <- get ;;
  if bool_decide (id ∈ s_requests s) then put (s <| s_requests ::= filter (λ i, i ≠ id) |>) else raise KeyError.
(** [_free_request]. *)
Definition _free_request (id : string) (delay_free_blocks : bool) : S unit :=
  r <- obj id ;;
  assert_ (is_finished r) ;;
  delay <- _connector_finished r ;;
  on_enc (enc_free set_order r) ;;
  modify (λ s, s <| finished_req_ids ::= union {[id]} |>
    <| finished_req_ids_dict ::= fmap (λ d, <[client_index r := {[id]} ∪ default ∅ (d !! client_index r)]> d) |>) ;;
  when (negb (delay_free_blocks || delay)) do _free_blocks id.

(** [finish_requests]: the first pass collects the requests that are known and
    not finished. *)
Definition live_requests (s : Scheduler K E C) (ids : list string) : list Request :=
  omap (λ id, if bool_decide (id ∈ s_requests s)
              then match objs s !! id with Some r => if is_finished r then None else Some r | None => None end
              else None) ids.
Definition finish_one (finished_status : RequestStatus) (id : string) : S unit :=
  r <- obj id ;;
  s <- get ;;
  delay <- (if bool_decide (status r = WAITING_FOR_REMOTE_KVS) then
              put (s <| finished_recving_kv_req_ids ::= λ x, x ∖ {[id]} |> <| failed_recving_kv_req_ids ::= λ x, x ∖ {[id]} |>) ;;
              ret (bool_decide (id ∉ finished_recving_kv_req_ids s))
            else ret false) ;;
  upd id (λ r, r <| status := finished_status |>) ;;
  _free_request id delay.
Definition finish_requests (request_ids : list string) (finished_status : RequestStatus) : S (list (string * Z)) :=
  assert_ (status_is_finished finished_status) ;;
  s <- get ;;
  let valid := live_requests s request_ids in
  let in_running := filter (λ r, status r = RUNNING) valid in
  let in_waiting := filter (λ r, status r ≠ RUNNING) valid in
  put (s <| num_waiting_for_streaming_input ::=
              λ n, n - len (filter (λ r, status r = WAITING_FOR_STREAMING_REQ) in_waiting) |>
         <| running ::= λ l, remove_all l (request_id <$> in_running) |>
         <| waiting ::= λ l, match in_waiting with [] => l | _ => q_ids (remove_requests in_waiting (q_of s l)) end |>
         <| skipped_waiting ::= λ l, match in_waiting with [] => l | _ => q_ids (remove_requests in_waiting (q_of s l)) end |>) ;;
  for_ (request_id <$> valid) (finish_one finished_status) ;;
  ret (map (λ r, (request_id r, client_index r)) valid).

(** [add_request]. *)
Definition sched_add_request (request : Request) (timestamp : Z) : S unit :=
  let id := request_id request in
  s <- get ;;
  if bool_decide (id ∈ s_requests s) then
    existing <- obj id ;;
    let update := from_request request in
    if negb (bool_decide (status existing = WAITING_FOR_STREAMING_REQ)) then
      q <- of_option AssertionError (streaming_queue existing) ;;
      upd id (λ r, r <| streaming_queue := Some (q ++ [update]) |>)
    else match update with
         | Some u => _update_request_as_session id u timestamp
         | None => finish_requests [id] FINISHED_ABORTED ;; ret tt
         end
  else
    let request := if resumable request then request <| streaming_queue := Some [] |> else request in
    modify (λ s, s <| objs ::= insert id request |> <| prefill_stats ::= insert id new_PrefillStats |>) ;;
    _enqueue_waiting_request id ;;
    modify (λ s, s <| s_requests ::= λ l, l ++ [id] |>) ;;
    when (sched_log_stats cfg) do upd id (λ r, r <| events ::= λ l, l ++ [(EvQueued, timestamp)] |>).

(** [reset_prefix_cache]. *)
Fixpoint preempt_all (fuel : nat) (timestamp : Z) : S unit :=
  match fuel with
  | O => raise OutOfFuel
  | Datatypes.S fuel' =>
      s <- get ;;
      match last (running s) with
      | None => ret tt
      | Some id =>
          put (s <| running := take (length (running s) - 1) (running s) |>) ;;
          _preempt_request id timestamp ;;
          upd id (λ r, r <| num_output_placeholders := 0 |> <| discard_latest_async_tokens := true |>) ;;
          preempt_all fuel' timestamp
      end
  end.
Definition reset_connector_cache : S bool :=
  match connector with
  | None => ret false
  | Some c =>
      ok <- on_conn (kc_reset_cache c) ;;
      if bool_decide (ok = Some false) then ret false
      else
        (when (sched_log_stats cfg) do (
           s <- get ;;
           match connector_prefix_cache_stats s with
           | None => raise AssertionError
           | Some st => put (s <| connector_prefix_cache_stats := Some (reset_stats st) |>)
           end)) ;;
        ret true
  end.
Definition sched_reset_prefix_cache (timestamp : Z) (reset_running_requests reset_connector : bool) : S bool :=
  (when reset_running_requests do (
     s <- get ;;
     preempt_all (Datatypes.S (length (running s))) timestamp ;;
     modify (λ s, s <| prev_step_scheduled_req_ids := ∅ |>))) ;;
  ok <- on_kv kv_reset_prefix_cache ;;
  (when (reset_running_requests && negb ok) do raise RuntimeError) ;;
  if reset_connector then b <- reset_connector_cache ;; ret (b && ok) else ret ok.
Definition reset_encoder_cache : S unit := on_enc enc_reset.

(** [set_pause_state], [get_request_counts], [get_num_unfinished_requests],
    [has_finished_requests]. *)
Definition set_pause (p : PauseState) : S unit := modify (λ s, s <| pause_state := p |>).
Definition get_request_counts (s : Scheduler K E C) : Z * Z := (len (running s), len (waiting s) + len (skipped_waiting s)).
Definition get_num_unfinished_requests (s : Scheduler K E C) : Z :=
  match pause_state s with
  | PAUSED_ALL => 0
  | PAUSED_NEW => len (running s)
  | UNPAUSED => len (waiting s) + len (skipped_waiting s) - num_waiting_for_streaming_input s + len (running s)
  end.
Definition has_finished_requests (s : Scheduler K E C) : bool := negb (bool_decide (finished_req_ids s = ∅)).

(* --------------------------------------------------------------------- *)
(** *** Processing the output of the model                                *)

(** The structured-output manager: whether the grammar of a request advances,
    whether it accepts tokens, and the prefix of draft tokens it accepts. *)
Variables (should_advance : Request → bool) (accept_tokens : string → list Z → bool)
  (validate_tokens : string → list Z → list Z).

(** What the model runner returns, by request: the sampled tokens, whether
    there is a pooling output and the number of NaNs; and the reports of the
    KV connector. *)
Record ModelRunnerOutput := mkModelRunnerOutput {
  mo_sampled_token_ids : list (string * list Z);
  mo_pooler_output : list string;
  mo_num_nans_in_logits : list (string * Z);
  mo_invalid_block_ids : list Z;
  mo_finished_recving : list string;
  mo_finished_sending : list string;
}.
Record EngineCoreOutput := mkEngineCoreOutput {
  eo_client_index : Z;
  eo_request_id : string;
  eo_new_token_ids : list Z;
  eo_finish_reason : option FinishReason;
  eo_stop_reason : option StopReason;
  eo_events : option (list (EngineCoreEventType * Z));
  eo_prefill_stats : option PrefillStats;
  eo_num_nans_in_logits : Z;
}.

(** [_handle_stopped_request]. *)
Definition _handle_stopped_request (id : string) (timestamp : Z) : S bool :=
  r <- obj id ;;
  if negb (resumable r) then ret true
  else
    match streaming_queue r with
    | Some (update :: q) =>
        upd id (λ r, r <| streaming_queue := Some q |>) ;;
        match update with
        | None => ret true
        | Some u => _update_request_as_session id u timestamp ;; _enqueue_waiting_request id ;; ret false
        end
    | _ =>
        upd id (λ r, r <| status := WAITING_FOR_STREAMING_REQ |>) ;;
        modify (λ s, s <| num_waiting_for_streaming_input ::= λ n, n + 1 |>) ;;
        _enqueue_waiting_request id ;; ret false
    end.

(** [_update_request_with_output] of the scheduler in use: [AsyncScheduler]
    settles the placeholders and caches the new tokens. *)
Definition update_request (id : string) (new_token_ids : list Z) : S (list Z * bool) :=
  r <- obj id ;;
  if async_scheduling cfg then
    if discard_latest_async_tokens r then upd id (λ r, r <| discard_latest_async_tokens := false |>) ;; ret ([], false)
    else
      let status_before_update := status r in
      x <- on_obj id (_update_request_with_output hasher (max_model_len cfg) new_token_ids) ;;
      upd id (λ r, r <| num_output_placeholders ::= λ p, p - len x.1 |>) ;;
      r <- obj id ;;
      assert_ (0 <=? num_output_placeholders r) ;;
      (when (bool_decide (status_before_update = RUNNING)) do
         on_kv (kv_cache_blocks r (num_computed_tokens r - num_output_placeholders r))) ;;
      ret x
  else on_obj id (_update_request_with_output hasher (max_model_len cfg) new_token_ids).

(** Give back the computed tokens of rejected draft tokens. *)
Definition settle_drafts (id : string) (drafts generated : list Z) : S unit :=
  match drafts, generated with
  | _ :: _, _ :: _ =>
      let num_rejected := len drafts - (len generated - 1) in
      upd id (λ r, if 0 <? num_computed_tokens r then r <| num_computed_tokens ::= λ n, n - num_rejected |> else r) ;;
      upd id (λ r, if 0 <? num_output_placeholders r then r <| num_output_placeholders ::= λ n, n - num_rejected |> else r)
  | _, _ => ret tt
  end.

(** The running values of the loop of [update_from_output]. *)
Record Update := mkUpdate {
  u_outputs : list EngineCoreOutput;
  stopped_running_reqs : list string;
  stopped_preempted_reqs : list string;
}.

(** Handle the end of a request; tells whether it produces an output. *)
Definition end_request (id : string) (timestamp : Z) (status_before_stop : RequestStatus) (u : Update) : S (option FinishReason * Update) :=
  r <- obj id ;;
  let finish_reason := request_finished_reason r in
  finished <- _handle_stopped_request id timestamp ;;
  (when finished do _free_request id false) ;;
  ret (finish_reason,
       if decide (status_before_stop = RUNNING)
       then mkUpdate (u_outputs u) (id :: stopped_running_reqs u) (stopped_preempted_reqs u)
       else mkUpdate (u_outputs u) (stopped_running_reqs u) (id :: stopped_preempted_reqs u)).

(** Append the output of a request and take its events and statistics. *)
Definition emit (mo : ModelRunnerOutput) (id : string) (new_token_ids : list Z) (finish_reason : option FinishReason) (u : Update) : S Update :=
  r <- obj id ;;
  events <- on_obj id take_events ;;
  s <- get ;;
  put (s <| prefill_stats ::= delete id |>) ;;
  ret (mkUpdate (u_outputs u ++ [mkEngineCoreOutput (client_index r) id new_token_ids finish_reason (stop_reason r) events
                                   (prefill_stats s !! id) (num_nans_in_logits r)])
         (stopped_running_reqs u) (stopped_preempted_reqs u)).

(** One turn of the loop over the scheduled requests. *)
Definition update_one (o : SchedulerOutput) (mo : ModelRunnerOutput) (failed : list string) (timestamp : Z)
    (id : string) (num_tokens_scheduled : Z) (u : Update) : S Update :=
  assert_ (0 <? num_tokens_scheduled) ;;
  s <- get ;;
  if bool_decide (id ∈ failed) then ret u
  else if negb (bool_decide (id ∈ s_requests s)) then ret u
  else
    r <- obj id ;;
    if is_finished r then ret u
    else
      generated <- of_option KeyError (dict_get id (mo_sampled_token_ids mo)) ;;
      settle_drafts id (default [] (dict_get id (so_spec_decode_tokens o))) generated ;;
      r <- obj id ;;
      (when (has_encoder_inputs r) do on_enc (_free_encoder_inputs set_order r)) ;;
      let pooled := bool_decide (id ∈ mo_pooler_output mo) in
      let status_before_stop := status r in
      x <- (match generated with
            | _ :: _ => update_request id generated
            | [] => if is_some (pooling_params r) && pooled
                    then upd id (λ r, r <| status := FINISHED_STOPPED |>) ;; ret ([], true)
                    else ret ([], false)
            end) ;;
      let '(new_token_ids, stopped) := x in
      r <- obj id ;;
      stopped <- (if (0 <? len new_token_ids) && should_advance r then
                    assert_ (is_some (structured_output_request r)) ;;
                    if accept_tokens id new_token_ids then ret stopped
                    else upd id (λ r, r <| status := FINISHED_ERROR |> <| resumable := false |>) ;; ret true
                  else ret stopped) ;;
      y <- (if (stopped : bool) then end_request id timestamp status_before_stop u else ret (None, u)) ;;
      let '(finish_reason, u) := y in
      (match dict_get id (mo_num_nans_in_logits mo) with
       | Some n => upd id (λ r, r <| num_nans_in_logits := n |>)
       | None => ret tt
       end) ;;
      if (0 <? len new_token_ids) || pooled || stopped then emit mo id new_token_ids finish_reason u else ret u.
Fixpoint update_outputs (o : SchedulerOutput) (mo : ModelRunnerOutput) (failed : list string) (timestamp : Z)
    (ns : list (string * Z)) (u : Update) : S Update :=
  match ns with
  | [] => ret u
  | (id, n) :: ns' => u <- update_one o mo failed timestamp id n u ;; update_outputs o mo failed timestamp ns' u
  end.

(** [_update_from_kv_xfer_finished]. *)
Definition _update_from_kv_xfer_finished (recving sending : list string) : S unit :=
  for_ recving (λ id,
    s <- get ;;
    assert_ (bool_decide (id ∈ s_requests s)) ;;
    r <- obj id ;;
    if decide (status r = WAITING_FOR_REMOTE_KVS) then put (s <| finished_recving_kv_req_ids ::= union {[id]} |>)
    else assert_ (is_finished r) ;; _free_blocks id) ;;
  for_ sending (λ id, s <- get ;; assert_ (bool_decide (id ∈ s_requests s)) ;; _free_blocks id).

(** The running values of [_update_requests_with_invalid_blocks]. *)
Record Invalid := mkInvalid {
  affected_req_ids : list string;
  total_affected_tokens : Z;
  blocks_to_evict : list Z;
  marked_invalid_block_ids : list Z;
}.
Record InvalidReq := mkInvalidReq { is_affected : bool; marked_invalid_block : bool; iv : Invalid }.
(** The loop over the blocks of one request that may hold loaded tokens. *)
Fixpoint invalid_blocks_loop (block_size : Z) (evict : bool) (invalid : list Z) (id : string) (computed : Z) (all_ids : list Z)
    (l : list (Z * Z)) (v : InvalidReq) : S InvalidReq :=
  match l with
  | [] => ret v
  | (idx, block_id) :: l' =>
      let next := invalid_blocks_loop block_size evict invalid id computed all_ids l' in
      if negb (bool_decide (block_id ∈ invalid)) then next v
      else if bool_decide (block_id ∈ marked_invalid_block_ids (iv v)) then next (mkInvalidReq true (marked_invalid_block v) (iv v))
      else
        let w := mkInvalid (affected_req_ids (iv v)) (total_affected_tokens (iv v)) (blocks_to_evict (iv v))
                   (marked_invalid_block_ids (iv v) ++ [block_id]) in
        if marked_invalid_block v then next (mkInvalidReq true true w)
        else
          upd id (λ r, r <| num_computed_tokens := idx * block_size |>) ;;
          next (mkInvalidReq true true
                  (mkInvalid (affected_req_ids w) (total_affected_tokens w + (computed - idx * block_size))
                     (if evict then blocks_to_evict w ++ slice_from all_ids idx else blocks_to_evict w)
                     (marked_invalid_block_ids w)))
  end.
Fixpoint _update_requests_with_invalid_blocks (block_size : Z) (evict : bool) (invalid : list Z) (scheduled : list (string * Z))
    (ids : list string) (v : Invalid) : S Invalid :=
  match ids with
  | [] => ret v
  | id :: ids' =>
      r <- obj id ;;
      s <- get ;;
      match kv_block_ids (kv s) false (kv_get_blocks (kv s) id) with
      | Some [req_block_ids] =>
          let computed := num_computed_tokens r - default 0 (dict_get id scheduled) in
          let num_blocks := (computed + block_size - 1) / block_size in
          w <- invalid_blocks_loop block_size evict invalid id computed req_block_ids
                 (zip (seqZ 0 num_blocks) req_block_ids) (mkInvalidReq false false v) ;;
          v <- (if is_affected w then
                  r <- obj id ;;
                  let u := iv w in
                  if marked_invalid_block w then
                    ret (mkInvalid (affected_req_ids u ++ [id]) (total_affected_tokens u) (blocks_to_evict u) (marked_invalid_block_ids u))
                  else
                    upd id (λ r, r <| num_computed_tokens := computed |>) ;;
                    ret (mkInvalid (affected_req_ids u ++ [id]) (total_affected_tokens u + (num_computed_tokens r - computed))
                           (blocks_to_evict u) (marked_invalid_block_ids u))
                else ret (iv w)) ;;
          _update_requests_with_invalid_blocks block_size evict invalid scheduled ids' v
      | _ => raise ValueError
      end
  end.
(** [_handle_invalid_blocks]; [recompute] is the policy for failed loads. *)
Definition _handle_invalid_blocks (block_size : Z) (recompute : bool) (invalid : list Z) (scheduled : list (string * Z)) : S (list string) :=
  s <- get ;;
  let loading := request_id <$> filter (λ r, status r = WAITING_FOR_REMOTE_KVS) (queue_iter (q_of s (skipped_waiting s))) in
  a <- _update_requests_with_invalid_blocks block_size false invalid scheduled loading (mkInvalid [] 0 [] []) ;;
  s <- get ;;
  b <- _update_requests_with_invalid_blocks block_size true invalid scheduled (running s) (mkInvalid [] 0 [] []) ;;
  match affected_req_ids a ++ affected_req_ids b with
  | [] => ret []
  | _ =>
      (when (negb recompute && (0 <? len (blocks_to_evict b))) do on_kv (kv_evict_blocks (remove_dups (blocks_to_evict b)))) ;;
      if negb recompute then ret (affected_req_ids a ++ affected_req_ids b)
      else
        modify (λ s, s <| failed_recving_kv_req_ids ::= union (list_to_set (affected_req_ids a)) |>) ;;
        ret (affected_req_ids b)
  end.

(** [update_from_output]: the outputs, in the order they are appended. *)
Definition update_from_output (block_size : Z) (recompute : bool) (o : SchedulerOutput) (mo : ModelRunnerOutput) (timestamp : Z) :
    S (list EngineCoreOutput) :=
  failed <- (match mo_invalid_block_ids mo with
             | [] => ret []
             | ids => _handle_invalid_blocks block_size recompute ids (so_num_scheduled_tokens o)
             end) ;;
  u <- update_outputs o mo failed timestamp (so_num_scheduled_tokens o) (mkUpdate [] [] []) ;;
  s <- get ;;
  put (s <| running ::= λ l, remove_all l (stopped_running_reqs u) |>) ;;
  s <- get ;;
  (match stopped_preempted_reqs u with
   | [] => ret tt
   | ids => put (s <| waiting ::= λ l, q_ids (remove_requests (omap (λ i, objs s !! i) ids) (q_of s l)) |>)
   end) ;;
  outs <- (match failed with
           | [] => ret (u_outputs u)
           | _ =>
               if recompute then ret (u_outputs u)
               else
                 s <- get ;;
                 (if forallb (λ id, bool_decide (id ∈ s_requests s)) failed then ret tt else raise KeyError) ;;
                 finish_requests failed FINISHED_ERROR ;;
                 more <- map_m (λ id, r <- obj id ;; events <- on_obj id take_events ;;
                           ret (mkEngineCoreOutput (client_index r) id [] (request_finished_reason r) None events None 0)) failed ;;
                 ret (u_outputs u ++ more)
           end) ;;
  _update_from_kv_xfer_finished (mo_finished_recving mo) (mo_finished_sending mo) ;;
  modify (λ s, s <| finished_req_ids_dict ::= fmap (λ _, ∅) |>) ;;
  ret outs.

(** [update_draft_token_ids]. *)
Definition update_draft_token_ids (drafts : list (string * list Z)) : S unit :=
  for_ drafts (λ d,
    let '(id, spec_ids) := d in
    s <- get ;;
    if negb (bool_decide (id ∈ s_requests s)) then ret tt
    else
      r <- obj id ;;
      if is_finished r then ret tt
      else if is_prefill_chunk r then upd id (λ r, r <| spec_token_ids := [] |>)
      else upd id (λ r, r <| spec_token_ids := if should_advance r then validate_tokens id spec_ids else spec_ids |>)).
(** [update_draft_token_ids_in_output]: the scheduled draft tokens and the
    number of padded ones per request. *)
Fixpoint drafts_in_output (s : Scheduler K E C) (drafts : list (string * list Z)) (sched : list (string * list Z))
    (invalid : list (string * Z)) : list (string * list Z) * list (string * Z) :=
  match drafts with
  | [] => (sched, invalid)
  | (id, spec_ids) :: drafts' =>
      match (if bool_decide (id ∈ s_requests s) then objs s !! id else None), dict_get id sched with
      | Some r, Some ((_ :: _) as placeholders) =>
          if is_finished r then drafts_in_output s drafts' sched invalid
          else
            let ids := slice_to spec_ids (len placeholders) in
            let ids := if should_advance r then validate_tokens id ids else ids in
            let n := len placeholders - len ids in
            drafts_in_output s drafts' (dict_set id (ids ++ py_replicate n (-1)) sched)
              (if n =? 0 then invalid else dict_set id n invalid)
      | _, _ => drafts_in_output s drafts' sched invalid
      end
  end.
Definition update_draft_token_ids_in_output (s : Scheduler K E C) (drafts : list (string * list Z)) (o : SchedulerOutput) :
    list (string * list Z) * list (string * Z) :=
  drafts_in_output s drafts (so_spec_decode_tokens o) [].
End scheduler.
