(* ===== verification/SchedulerInv.v ===== *)
(** * The scheduler's step is safe ([src/vllm/v1/core/sched/scheduler.py])

    What [schedule] needs from the two managers it drives is stated as laws of
    their interfaces ([KVLaws], [EncLaws]); against these laws [schedule] is
    shown to return, whatever it preempts, admits or skips: its loops end, none
    of its assertions fails, the token budget and the limit on running requests
    are kept, and every request stays in exactly one of the running list and
    the two queues, with the blocks of its computed and scheduled tokens. *)
From S2P Require Import Prelude Request BlockPool KVCacheManager HeapQ RequestQueue EncoderCache SchedUtils Scheduler.
Local Open Scope Z_scope.

(* ===================================================================== *)
(** ** What a step does not change of a request                           *)
(* ===================================================================== *)

(** The request without the attributes that [schedule] and the end of a request
    assign. *)
Definition erase (r : Request) : Request :=
  r <| status := WAITING |> <| num_computed_tokens := 0 |> <| spec_token_ids := [] |> <| num_preemptions := 0 |>
    <| events := [] |> <| num_output_placeholders := 0 |> <| is_prefill_chunk := false |> <| stop_reason := None |>
    <| num_nans_in_logits := 0 |> <| discard_latest_async_tokens := false |>.
Definition same_static (r r' : Request) : Prop := erase r' = erase r.
#[export] Instance same_static_equiv : Equivalence same_static.
Proof. unfold same_static. split; [intros r; done|intros r r' H; done|intros a b c H1 H2; congruence]. Qed.

Lemma static_id r r' : same_static r r' → request_id r' = request_id r.
Proof. intros H. apply (f_equal request_id) in H. exact H. Qed.
Lemma static_tokens r r' : same_static r r' → num_tokens r' = num_tokens r.
Proof. intros H. apply (f_equal num_tokens) in H. exact H. Qed.
Lemma static_prompt r r' : same_static r r' → num_prompt_tokens r' = num_prompt_tokens r.
Proof. intros H. apply (f_equal num_prompt_tokens) in H. exact H. Qed.
Lemma static_streaming r r' : same_static r r' → streaming_queue r' = streaming_queue r.
Proof. intros H. apply (f_equal streaming_queue) in H. exact H. Qed.
Lemma static_embeds r r' i : same_static r r' → get_num_encoder_embeds r' i = get_num_encoder_embeds r i.
Proof.
  intros H. apply (f_equal mm_features) in H. change (mm_features r' = mm_features r) in H. unfold get_num_encoder_embeds. by rewrite H.
Qed.
Lemma static_inputs r r' : same_static r r' → has_encoder_inputs r' = has_encoder_inputs r.
Proof. intros H. apply (f_equal has_encoder_inputs) in H. exact H. Qed.

(* ===================================================================== *)
(** ** Laws of the managers                                               *)
(* ===================================================================== *)

(** The KV-cache manager.  [kl_covers k id n]: the tables of request [id] hold
    [n] tokens ([0]: it has no table); [kl_hit k r b n]: [b] is a hit of [n]
    tokens for [r]; [kl_parked n]: a waiting request may keep the blocks of [n]
    computed tokens. *)
Class KVLaws (K : Type) `{!KVManager K} (max_len : Z) := {
  kl_inv : K → Prop;
  kl_ok : Request → Prop;
  kl_covers : K → string → Z → Prop;
  kl_hit : K → Request → KVCacheBlocks → Z → Prop;
  kl_parked : Z → Prop;
  kl_parked_none : kl_parked 0;
  kl_ok_static : ∀ r r', same_static r r' → kl_ok r → kl_ok r';
  kl_mono : ∀ k id n m, kl_covers k id n → 0 < m ≤ n → kl_covers k id m;
  kl_new_step : ∀ k, kl_inv k → ∃ k', kv_new_step_starts k = (Ok tt, k') ∧ kl_inv k' ∧
    (∀ id n, kl_covers k id n → kl_covers k' id n);
  kl_lookup : ∀ k r, kl_inv k → kl_ok r → num_computed_tokens r = 0 → kl_covers k (request_id r) 0 → 0 < num_tokens r →
    ∃ b n k', kv_get_computed_blocks r k = (Ok (b, n), k') ∧ kl_inv k' ∧ 0 ≤ n < num_tokens r ∧ kl_hit k' r b n ∧
      (∀ id n, kl_covers k id n → kl_covers k' id n);
  kl_alloc_more : ∀ k r n nb look e fit, kl_inv k → kl_ok r → 0 < num_computed_tokens r →
    kl_covers k (request_id r) (num_computed_tokens r) → 0 < n → num_computed_tokens r + n ≤ max_len → 0 ≤ look →
    nb = None ∨ nb = Some EmptyKVCacheBlocks →
    ∃ o k', kv_allocate_slots r n 0 nb look 0 false e fit k = (Ok o, k') ∧ kl_inv k' ∧
      (∀ id n, id ≠ request_id r → kl_covers k id n → kl_covers k' id n) ∧
      kl_covers k' (request_id r) (match o with Some _ => num_computed_tokens r + n | None => num_computed_tokens r end);
  kl_alloc_hit : ∀ k r n b h look e fit, kl_inv k → kl_ok r → num_computed_tokens r = 0 →
    kl_covers k (request_id r) 0 → kl_hit k r b h → 0 ≤ h → 0 < n → h + n ≤ max_len → 0 ≤ look →
    ∃ o k', kv_allocate_slots r n h (Some b) look 0 false e fit k = (Ok o, k') ∧ kl_inv k' ∧
      (∀ id n, id ≠ request_id r → kl_covers k id n → kl_covers k' id n) ∧
      kl_covers k' (request_id r) (match o with Some _ => h + n | None => 0 end);
  kl_free : ∀ k r, kl_inv k → ∃ k', kv_free r k = (Ok tt, k') ∧ kl_inv k' ∧ kl_covers k' (request_id r) 0 ∧
    (∀ id n, id ≠ request_id r → kl_covers k id n → kl_covers k' id n);
  kl_common : ∀ k id n, kl_inv k → kl_covers k id n → 0 < n → ∃ l k', kv_get_num_common_prefix_blocks id k = (Ok l, k') ∧ kl_inv k' ∧
    (∀ id n, kl_covers k id n → kl_covers k' id n);
  kl_take : ∀ k, kl_inv k → ∃ l k', kv_take_new_block_ids k = (Ok l, k') ∧ kl_inv k' ∧
    (∀ id n, kl_covers k id n → kl_covers k' id n);
  kl_ids : ∀ k b, kv_block_ids k false b ≠ None;
  kl_reset : ∀ k, kl_inv k → (∀ id, kl_covers k id 0) → ∃ k', kv_reset_prefix_cache k = (Ok true, k') ∧ kl_inv k' ∧
    (∀ id n, kl_covers k id n → kl_covers k' id n);
}.

(** The encoder-cache manager.  [el_resv e r a b]: the inputs [a] to compute and
    [b] to load can be reserved for [r]. *)
Class EncLaws (E : Type) `{!EncoderManager E} (set_order : list Z → list Z) (dc : bool) (hci : option (mm_hash → bool)) := {
  el_inv : E → Prop;
  el_ok : Request → Prop;
  el_resv : E → Request → list Z → list Z → Prop;
  el_ok_static : ∀ r r', same_static r r' → el_ok r → el_ok r';
  el_resv_static : ∀ e r r' a b, same_static r r' → el_resv e r a b → el_resv e r' a b;
  el_try : ∀ e r computed new budget shift, el_inv e → el_ok r → 0 ≤ new → 0 ≤ shift →
    ∃ a new' budget' b e', _try_schedule_encoder_inputs dc hci r computed new budget shift e = (Ok (a, new', budget', b), e') ∧
      el_inv e' ∧ 0 ≤ new' ≤ new ∧ el_resv e' r a b;
  el_valid : ∀ e r a b i, el_resv e r a b → i ∈ a → ∃ n, get_num_encoder_embeds r i = Ok n;
  el_alloc : ∀ e r a b, el_inv e → el_resv e r a b →
    ∃ e1 e', for_ a (allocate r) e = (Ok tt, e1) ∧ for_ b (allocate r) e1 = (Ok tt, e') ∧ el_inv e';
  el_free : ∀ e q, el_inv e → el_ok q → ∃ e', enc_free set_order q e = (Ok tt, e') ∧ el_inv e' ∧
    (∀ r a b, el_resv e r a b → el_resv e' r a b);
  el_free_inputs : ∀ e r, el_inv e → el_ok r → ∃ e', _free_encoder_inputs set_order r e = (Ok tt, e') ∧ el_inv e';
  el_reset : ∀ e, el_inv e → ∃ e', enc_reset e = (Ok tt, e') ∧ el_inv e';
  el_freed : ∀ e, el_inv e → ∃ l e', enc_get_freed_mm_hashes e = (Ok l, e') ∧ el_inv e';
}.

(* ===================================================================== *)
(** ** Dictionaries and lists                                             *)
(* ===================================================================== *)

Lemma dict_get_in {A} k (d : list (string * A)) : is_Some (dict_get k d) ↔ k ∈ d.*1.
Proof.
  induction d as [|[k' v] d IH]; simpl; [split; [by intros []|by intros ?%not_elem_of_nil]|].
  rewrite elem_of_cons. case_decide as Hk; [split; [by left|by eexists]|]. rewrite IH. split; [by right|intros [?|?]; [congruence|done]].
Qed.
Lemma dict_get_none {A} k (d : list (string * A)) : dict_get k d = None ↔ (k ∉ d.*1).
Proof. rewrite <-dict_get_in, <-eq_None_not_Some. done. Qed.
Lemma dict_set_new {A} k (v : A) d : (k ∉ d.*1) → dict_set k v d = d ++ [(k, v)].
Proof.
  induction d as [|[k' v'] d IH]; intros Hk; simpl; [done|]. rewrite fmap_cons, not_elem_of_cons in Hk. destruct Hk as [Hne Hk]. simpl in Hne.
  rewrite decide_False by congruence. by rewrite IH.
Qed.
Lemma dict_get_set {A} k k' (v : A) d : dict_get k (dict_set k' v d) = if decide (k = k') then Some v else dict_get k d.
Proof.
  induction d as [|[k1 v1] d IH]; simpl; [case_decide; case_decide; congruence|].
  destruct (decide (k1 = k')) as [->|Hk1]; simpl; [destruct (decide (k' = k)) as [->|]; case_decide; congruence|].
  rewrite IH. destruct (decide (k1 = k)) as [->|]; [|done]. by rewrite decide_False.
Qed.
Lemma dict_pop_spec {A} k (d : list (string * A)) :
  (dict_pop k d).1 = dict_get k d ∧ (∀ k', k' ≠ k → dict_get k' (dict_pop k d).2 = dict_get k' d).
Proof.
  induction d as [|[k1 v1] d [IH1 IH2]]; simpl; [done|]. destruct (decide (k1 = k)) as [->|Hk]; simpl.
  - split; [done|]. intros k' Hk'. by rewrite decide_False.
  - destruct (dict_pop k d) as [o d']. simpl in *. split; [done|]. intros k' Hk'. by rewrite IH2.
Qed.
Lemma dict_pop_keys {A} k v (d : list (string * A)) :
  NoDup d.*1 → dict_get k d = Some v → d ≡ₚ (k, v) :: (dict_pop k d).2 ∧ NoDup (dict_pop k d).2.*1 ∧ (k ∉ (dict_pop k d).2.*1).
Proof.
  intros Hnd Hk. assert (Hp : d ≡ₚ (k, v) :: (dict_pop k d).2).
  { clear Hnd. induction d as [|[k1 v1] d IH]; simpl in *; [done|]. case_decide; simplify_eq/=; [done|].
    destruct (dict_pop k d) as [o d']. simpl in *. rewrite IH at 1 by done. apply Permutation_swap. }
  split; [done|]. rewrite Hp, fmap_cons in Hnd. apply NoDup_cons in Hnd as [? ?]. done.
Qed.
Lemma dict_pop_nodup {A} k (d : list (string * A)) :
  NoDup d.*1 → NoDup (dict_pop k d).2.*1 ∧ (k ∉ (dict_pop k d).2.*1) ∧ (∀ k', k' ∈ (dict_pop k d).2.*1 → k' ∈ d.*1).
Proof.
  intros Hnd. destruct (dict_get k d) as [v|] eqn:Hk.
  - destruct (dict_pop_keys k v d Hnd Hk) as (Hp & H1 & H2). split_and!; try done. intros k' Hk'. rewrite Hp, fmap_cons. by right.
  - assert (Hd : (dict_pop k d).2 = d).
    { clear Hnd. induction d as [|[k1 v1] d IH]; simpl in *; [done|]. case_decide; [done|]. destruct (dict_pop k d) as [o d']. simpl in *. by rewrite IH. }
    rewrite Hd. split_and!; try done. by apply dict_get_none.
Qed.
Lemma dict_set_keys {A} k (v : A) d : NoDup d.*1 → NoDup (dict_set k v d).*1 ∧ (∀ k', k' ∈ (dict_set k v d).*1 ↔ k' = k ∨ k' ∈ d.*1).
Proof.
  induction d as [|[k1 v1] d IH]; simpl; intros Hnd.
  - split; [apply NoDup_singleton|]. intros k'. rewrite list_elem_of_singleton. split; [by left|by intros [?|?%not_elem_of_nil]].
  - apply NoDup_cons in Hnd as [H1 H2]. destruct (IH H2) as [IH1 IH2]. case_decide as Hk; simpl.
    + subst k1. split; [by apply NoDup_cons|]. intros k'. rewrite elem_of_cons. naive_solver.
    + split; [apply NoDup_cons; split; [rewrite IH2; naive_solver|done]|]. intros k'. rewrite !elem_of_cons, IH2. naive_solver.
Qed.
Lemma dict_sum_perm d d' : d ≡ₚ d' → dict_sum d = dict_sum d'.
Proof. unfold dict_sum. induction 1; simpl; lia. Qed.
Lemma dict_sum_app d d' : dict_sum (d ++ d') = dict_sum d + dict_sum d'.
Proof. unfold dict_sum. induction d; simpl; lia. Qed.

Lemma remove_first_perm (x : string) l : x ∈ l → l ≡ₚ x :: remove_first x l.
Proof.
  induction l as [|y l IH]; intros Hx; [by apply not_elem_of_nil in Hx|]. simpl. case_decide as Hy; [by subst|].
  apply elem_of_cons in Hx as [?|Hx]; [congruence|]. rewrite (IH Hx) at 1. apply Permutation_swap.
Qed.
Lemma max_by_in {A} (less : A → A → bool) x l : max_by less x l ∈ x :: l.
Proof.
  revert x. induction l as [|y l IH]; intros x; simpl; [by left|]. specialize (IH (if less x y then y else x)).
  apply elem_of_cons in IH as [->|IH]; [destruct (less x y); [right; by left|by left]|right; by right].
Qed.
Lemma take_remove_after (x p : string) n l : x ≠ p → x ∈ take n l → x ∈ take n (remove_first p l).
Proof.
  intros Hne. revert n. induction l as [|y l IH]; intros [|n] Hx; simpl in *; try done. apply elem_of_cons in Hx as [->|Hx].
  - rewrite decide_False by done. by left.
  - case_decide as Hy; [|right; by apply IH]. clear -Hx. revert n Hx. induction l as [|z l IH]; intros [|n] Hx; simpl in *; try done.
    + by apply not_elem_of_nil in Hx.
    + apply elem_of_cons in Hx as [->|Hx]; [by left|]. right. by apply IH.
Qed.
Lemma take_remove_before (x p : string) n l : x ≠ p → p ∈ take (S n) l → x ∈ take (S n) l → x ∈ take n (remove_first p l).
Proof.
  intros Hne. revert n. induction l as [|y l IH]; intros n Hp Hx; simpl in *; [by apply not_elem_of_nil in Hx|].
  case_decide as Hy; [apply elem_of_cons in Hx as [?|Hx]; [congruence|done]|]. apply elem_of_cons in Hp as [?|Hp]; [congruence|].
  destruct n as [|n]; simpl in *; [by apply not_elem_of_nil in Hp|].
  apply elem_of_cons in Hx as [->|Hx]; [by left|]. right. by apply IH.
Qed.
Lemma take_le_in {A} (x : A) n m l : (n ≤ m)%nat → x ∈ take n l → x ∈ take m l.
Proof.
  revert m l. induction n as [|n IH]; intros m l Hn Hx; [by apply not_elem_of_nil in Hx|]. destruct l as [|y l]; [by apply not_elem_of_nil in Hx|].
  destruct m as [|m]; [lia|]. simpl in *. apply elem_of_cons in Hx as [->|Hx]; [by left|]. right. apply IH; [lia|done].
Qed.
Lemma last_take {A} (l : list A) x : last l = Some x → l = take (length l - 1) l ++ [x].
Proof.
  intros H. destruct (exists_last (l := l)) as (l0 & y & ->); [by intros ->|]. rewrite last_snoc in H. simplify_eq.
  rewrite length_app. simpl. replace (length l0 + 1 - 1)%nat with (length l0) by lia. by rewrite take_app_length.
Qed.

(* ===================================================================== *)
(** ** The invariant                                                      *)
(* ===================================================================== *)

Section invariant.
Context {K E : Type} `{!KVManager K} `{!EncoderManager E}.
Variables (cfg : Config) (hci : option (mm_hash → bool)) (grammar_ready : Request → bool) (set_order : list Z → list Z).
Context `{!KVLaws K (max_model_len cfg)} `{!EncLaws E set_order (disable_chunked_mm cfg) hci}.
Abbreviation ST := (Scheduler K E unit).
Abbreviation no_connector := (None : option (KVConnector unit)).
Implicit Types (s : ST) (id : string) (ns : list (string * Z)).

(** Only the asynchronous scheduler reserves placeholders. *)
Definition placeholders_ok (r : Request) : Prop :=
  0 ≤ num_output_placeholders r ∧ (async_scheduling cfg = false → num_output_placeholders r = 0).
(** What a request in the scheduler's lists has, whatever its state. *)
Record req_ok s id (r : Request) : Prop := {
  ro_obj : objs s !! id = Some r;
  ro_id : request_id r = id;
  ro_known : id ∈ s_requests s;
  ro_kv : kl_ok r;
  ro_enc : el_ok r;
  ro_tokens : 0 < num_tokens r < max_model_len cfg;
  ro_placeholders : placeholders_ok r;
  ro_prefill : is_Some (prefill_stats s !! id) → num_tokens r ≤ num_prompt_tokens r;
}.
Definition sched_of ns id : Z := default 0 (dict_get id ns).
(** A running request: its blocks hold its computed tokens and those scheduled
    in this step ([ns]); before it is scheduled it is not ahead of its tokens. *)
Definition run_ok s ns id : Prop := ∃ r, req_ok s id r ∧ status r = RUNNING ∧ 0 ≤ num_computed_tokens r ∧
  0 < num_computed_tokens r + sched_of ns id ≤ max_model_len cfg - 1 ∧
  kl_covers (kv s) id (num_computed_tokens r + sched_of ns id) ∧
  (dict_get id ns = None → num_computed_tokens r ≤ num_tokens r + num_output_placeholders r).
Definition waiting_status (r : Request) : Prop :=
  match status r with
  | WAITING | PREEMPTED | WAITING_FOR_STRUCTURED_OUTPUT_GRAMMAR => True
  | WAITING_FOR_STREAMING_REQ => match streaming_queue r with Some (_ :: _) => False | _ => True end
  | _ => False
  end.
Definition wait_ok s id : Prop := ∃ r, req_ok s id r ∧ waiting_status r ∧
  0 ≤ num_computed_tokens r < num_tokens r ∧ kl_covers (kv s) id (num_computed_tokens r) ∧ kl_parked (num_computed_tokens r).

(** The requests at the start of the step. *)
Variable all_ids : list string.
(** The state during a step; [extra] are the requests skipped in it. *)
Record core s ns (extra : list string) : Prop := {
  co_all : running s ++ waiting s ++ skipped_waiting s ++ extra ≡ₚ all_ids;
  co_nodup : NoDup (running s ++ waiting s ++ skipped_waiting s ++ extra);
  co_run : ∀ id, id ∈ running s → run_ok s ns id;
  co_wait : ∀ id, id ∈ waiting s ++ skipped_waiting s ++ extra → wait_ok s id;
  co_kv : kl_inv (kv s);
  co_enc : el_inv (enc s);
  co_count : len (running s) ≤ max_num_running_reqs cfg;
  co_unknown : ∀ id, (id ∉ s_requests s) → kl_covers (kv s) id 0;
}.

(** Only request [p] changes, besides the queues. *)
Record only p s s' : Prop := {
  on_objs : ∀ id, id ≠ p → objs s' !! id = objs s !! id;
  on_known : s_requests s' = s_requests s;
  on_prefill : ∀ id, id ≠ p → prefill_stats s' !! id = prefill_stats s !! id;
  on_covers : ∀ id n, id ≠ p → kl_covers (kv s) id n → kl_covers (kv s') id n;
}.
Lemma only_req p s s' id r : only p s s' → id ≠ p → req_ok s id r → req_ok s' id r.
Proof.
  intros [H1 H2 H3 _] Hne [R1 R2 R3 R4 R5 R6 R7 R8]. constructor; try done; [by rewrite H1|by rewrite H2|]. by rewrite H3.
Qed.
Lemma only_run p s s' ns ns' id :
  only p s s' → id ≠ p → dict_get id ns' = dict_get id ns → run_ok s ns id → run_ok s' ns' id.
Proof.
  intros Ho Hne Hns (r & Hr & H1 & H2 & H3 & H4 & H5). exists r. unfold sched_of in *. rewrite Hns. split_and!; try done; try lia.
  - by eapply only_req.
  - by apply (on_covers _ _ _ Ho).
Qed.
Lemma only_wait p s s' id : only p s s' → id ≠ p → wait_ok s id → wait_ok s' id.
Proof.
  intros Ho Hne (r & Hr & H1 & H2 & H3 & H4). exists r. split_and!; try done; try lia; [by eapply only_req|]. by apply (on_covers _ _ _ Ho).
Qed.
Lemma only_unknown p s s' : only p s s' → p ∈ s_requests s →
  (∀ id, (id ∉ s_requests s) → kl_covers (kv s) id 0) → ∀ id, (id ∉ s_requests s') → kl_covers (kv s') id 0.
Proof. intros [_ H2 _ H4] Hp Hu id. rewrite H2. intros Hid. apply H4; [by intros ->|auto]. Qed.
(** Nothing that the requests' state depends on changes. *)
Definition same_view s s' : Prop :=
  objs s' = objs s ∧ s_requests s' = s_requests s ∧ prefill_stats s' = prefill_stats s ∧ kv s' = kv s.
Lemma view_run s s' ns id : same_view s s' → run_ok s ns id → run_ok s' ns id.
Proof.
  intros (V1 & V2 & V3 & V4) (r & [] & H). exists r. rewrite V4. split; [|done]. constructor; rewrite ?V1, ?V2, ?V3; done.
Qed.
Lemma view_wait s s' id : same_view s s' → wait_ok s id → wait_ok s' id.
Proof.
  intros (V1 & V2 & V3 & V4) (r & [] & H). exists r. rewrite V4. split; [|done]. constructor; rewrite ?V1, ?V2, ?V3; done.
Qed.
Lemma req_static s s' id r r' :
  req_ok s id r → same_static r r' → objs s' !! id = Some r' → s_requests s' = s_requests s → placeholders_ok r' →
  prefill_stats s' !! id = prefill_stats s !! id → req_ok s' id r'.
Proof.
  intros [R1 R2 R3 R4 R5 R6 R7 R8] Hs Ho Hk Hp Hpre. constructor; try done.
  - by rewrite (static_id r r').
  - by rewrite Hk.
  - by eapply kl_ok_static.
  - by eapply el_ok_static.
  - by rewrite (static_tokens r r').
  - rewrite Hpre, (static_tokens r r'), (static_prompt r r') by done. done.
Qed.

(* --------------------------------------------------------------------- *)
(** *** Components and queues                                             *)

Lemma on_kv_ok {A} (m : M K A) s a k : m (kv s) = (Ok a, k) → on_kv (C := unit) (E := E) m s = (Ok a, s <| kv := k |>).
Proof. intros H. unfold on_kv, zoom. by rewrite H. Qed.
Lemma on_enc_ok {A} (m : M E A) s a e : m (enc s) = (Ok a, e) → on_enc (C := unit) (K := K) m s = (Ok a, s <| enc := e |>).
Proof. intros H. unfold on_enc, zoom. by rewrite H. Qed.
Lemma obj_ok s id r : objs s !! id = Some r → obj id s = (Ok r, s).
Proof. intros H. unfold obj. rewrite run_get. by rewrite H. Qed.

Definition known s (ids : list string) : Prop := ∀ id, id ∈ ids → ∃ r, objs s !! id = Some r ∧ request_id r = id.
Lemma deref_ids s ids : known s ids → request_id <$> omap (λ i, objs s !! i) ids = ids.
Proof.
  induction ids as [|id ids IH]; intros Hk; simpl; [done|]. destruct (Hk id) as (r & Hr & Hid); [by left|]. rewrite Hr. simpl.
  rewrite Hid. f_equal. apply IH. intros i Hi. apply Hk. by right.
Qed.
Lemma deref_cons s id ids : known s (id :: ids) →
  ∃ r l, omap (λ i, objs s !! i) (id :: ids) = r :: l ∧ request_id r = id ∧ objs s !! id = Some r ∧ request_id <$> l = ids.
Proof.
  intros Hk. destruct (Hk id) as (r & Hr & Hid); [by left|]. eexists r, _. simpl. rewrite Hr. split_and!; try done.
  apply deref_ids. intros i Hi. apply Hk. by right.
Qed.
Lemma q_prepend_perm s ids r : known s ids → q_ids (prepend_request r (q_of cfg s ids)) ≡ₚ request_id r :: ids.
Proof.
  intros Hk. unfold q_of, q_ids. destruct (policy cfg); simpl; [by rewrite deref_ids|]. rewrite heappush_perm. simpl. by rewrite deref_ids.
Qed.
Lemma q_add_all_perm l q : content (foldl (λ q r, add_request r q) q l) ≡ₚ l ++ content q.
Proof.
  revert q. induction l as [|r l IH]; intros q; simpl; [done|]. rewrite IH.
  assert (Hc : content (add_request r q) ≡ₚ r :: content q).
  { destruct q; simpl; [by rewrite <-Permutation_cons_append|apply heappush_perm]. }
  rewrite Hc. apply Permutation_sym, Permutation_middle.
Qed.
Lemma q_prepend_all_perm s ids ids' : known s ids → known s ids' →
  q_ids (prepend_requests (q_of cfg s ids) (q_of cfg s ids')) ≡ₚ ids ++ ids'.
Proof.
  intros H1 H2. unfold q_of, q_ids. destruct (policy cfg); simpl.
  - rewrite fmap_app, fmap_reverse, !deref_ids by done. by rewrite reverse_Permutation.
  - rewrite q_add_all_perm, heap_iter_perm by done. simpl. by rewrite fmap_app, !deref_ids.
Qed.
Lemma q_pop s id ids : known s (id :: ids) →
  ∃ r q, pop_request (q_of cfg s (id :: ids)) = Ok (r, q) ∧ request_id r = id ∧ q_ids q ≡ₚ ids ∧
    peek_request (q_of cfg s (id :: ids)) = Ok r ∧ objs s !! id = Some r.
Proof.
  intros Hk. destruct (deref_cons s id ids Hk) as (r & l & Hd & Hid & Hr & Hl). unfold q_of. rewrite Hd. destruct (policy cfg); simpl.
  - eexists r, _. split; [done|]. unfold q_ids. simpl. by rewrite Hl.
  - destruct (heappop_perm request_lt r l) as (h & -> & Hp). eexists r, _. split; [done|]. unfold q_ids. simpl. by rewrite Hp, Hl.
Qed.

(** What the loops leave alone. *)
Definition rest s : gset string * gset string * list string := (finished_req_ids s, prev_step_scheduled_req_ids s, s_requests s).
(** Objects keep their fixed attributes. *)
Definition keeps_static s s' : Prop := ∀ id, option_Forall2 same_static (objs s !! id) (objs s' !! id).
#[local] Instance keeps_static_equiv : Equivalence keeps_static.
Proof.
  unfold keeps_static. split.
  - intros s id. destruct (objs s !! id); by constructor.
  - intros s s' H id. destruct (H id); constructor; by symmetry.
  - intros s1 s2 s3 H1 H2 id. specialize (H1 id). specialize (H2 id). destruct H1 as [r r' Hr|]; inversion H2; subst; constructor. by transitivity r'.
Qed.
Lemma keeps_static_obj s s' id r : keeps_static s s' → objs s !! id = Some r → ∃ r', objs s' !! id = Some r' ∧ same_static r r'.
Proof. intros H Hr. specialize (H id). rewrite Hr in H. inversion H; subst. eauto. Qed.
Lemma only_static p s s' r r' : only p s s' → objs s !! p = Some r → objs s' !! p = Some r' → same_static r r' → keeps_static s s'.
Proof.
  intros Ho Hr Hr' Hs id. destruct (decide (id = p)) as [->|Hne]; [rewrite Hr, Hr'; by constructor|].
  rewrite (on_objs _ _ _ Ho) by done. destruct (objs s !! id); by constructor.
Qed.

Lemma wait_known s ids : (∀ id, id ∈ ids → wait_ok s id) → known s ids.
Proof. intros H id Hid. destruct (H id Hid) as (r & Hr & _). exists r. split; [apply (ro_obj _ _ _ Hr)|apply (ro_id _ _ _ Hr)]. Qed.

Lemma alter_twice (f g : Request → Request) id (m : gmap string Request) : alter f id (alter g id m) = alter (λ r, f (g r)) id m.
Proof.
  apply map_eq. intros j. destruct (decide (j = id)) as [->|Hj]; [|by rewrite !lookup_alter_ne].
  rewrite !lookup_alter_eq. by destruct (m !! id).
Qed.

(** One step of a run that calls a component or reads an object. *)
Ltac kstep H := erewrite bind_ok; [|apply on_kv_ok; exact H].
Ltac estep H := erewrite bind_ok; [|apply on_enc_ok; exact H].
Ltac ostep H := erewrite bind_ok; [|apply obj_ok; exact H].

(** [_preempt_request] moves a request taken from the running list to the queue
    of waiting requests. *)
Lemma preempt_spec s ns ns' extra p ts :
  p :: running s ++ waiting s ++ skipped_waiting s ++ extra ≡ₚ all_ids →
  NoDup (p :: running s ++ waiting s ++ skipped_waiting s ++ extra) → run_ok s ns p →
  (∀ id, id ∈ running s → run_ok s ns id) → (∀ id, id ∈ waiting s ++ skipped_waiting s ++ extra → wait_ok s id) →
  kl_inv (kv s) → el_inv (enc s) → len (running s) ≤ max_num_running_reqs cfg →
  (∀ id, (id ∉ s_requests s) → kl_covers (kv s) id 0) →
  (∀ id, id ≠ p → dict_get id ns' = dict_get id ns) →
  ∃ s', _preempt_request cfg set_order p ts s = (Ok tt, s') ∧ core s' ns' extra ∧ running s' = running s ∧
    keeps_static s s' ∧ pause_state s' = pause_state s ∧ rest s' = rest s ∧
    (∀ id, id ≠ p → objs s' !! id = objs s !! id) ∧ (∀ r a b, el_resv (enc s) r a b → el_resv (enc s') r a b).
Proof.
  intros Hall Hnd (r & Hr & Hst & Hc0 & Hc1 & _) Hrun Hwait Hkv Henc Hcnt Hunk Hns.
  destruct (kl_free (kv s) r Hkv) as (k1 & Hk & Hkv1 & Hcov & Hoth). pose proof (ro_id _ _ _ Hr) as Hid.
  destruct (el_free (enc s) r Henc (ro_enc _ _ _ Hr)) as (e1 & He & Henc1 & Hres).
  set (f := λ r : Request, r <| status := PREEMPTED |> <| num_computed_tokens := 0 |> <| spec_token_ids := [] |> <| num_preemptions ::= Z.add 1 |>).
  set (g := λ r : Request, if sched_log_stats cfg then f r <| events ::= λ l, l ++ [(EvPreempted, ts)] |> else f r).
  set (s1 := s <| kv := k1 |> <| enc := e1 |> <| objs ::= alter g p |>).
  set (s2 := s1 <| waiting := q_ids (prepend_request (g r) (q_of cfg s1 (waiting s1))) |>).
  assert (Hgr : same_static r (g r)) by (unfold g; by destruct (sched_log_stats cfg)).
  assert (Hobj : objs s1 !! p = Some (g r)) by (unfold s1; simpl; rewrite lookup_alter_eq, (ro_obj _ _ _ Hr); done).
  assert (Hrun' : _preempt_request cfg set_order p ts s = (Ok tt, s2)).
  { unfold _preempt_request. ostep (ro_obj _ _ _ Hr). rewrite run_assert, bool_decide_true by done. kstep Hk. estep He.
    unfold upd. rewrite run_modify. destruct (sched_log_stats cfg) eqn:Hl.
    - rewrite run_modify. unfold g in *. rewrite ?Hl in *.
      match goal with |- bind _ _ ?x = _ => replace x with s1 by (unfold s1; cbv [setter set_objs]; simpl; f_equal; symmetry; apply alter_twice) end.
      ostep Hobj. done.
    - rewrite run_ret. unfold g in *. rewrite ?Hl in *. ostep Hobj. done. }
  exists s2. split; [done|].
  assert (Ho : only p s s2).
  { constructor; try done; simpl; [intros id Hne; by rewrite lookup_alter_ne|]. intros id n Hne. apply Hoth. by rewrite Hid. }
  assert (Hperm : waiting s2 ≡ₚ p :: waiting s).
  { unfold s2. simpl. rewrite q_prepend_perm; [by rewrite (static_id r (g r)), Hid|]. intros id Hin.
    destruct (Hwait id) as (q & Hq & _); [apply elem_of_app; by left|]. assert (id ≠ p) as Hne by (intros ->; apply NoDup_cons in Hnd as [[] _]; rewrite !elem_of_app; tauto).
    exists q. simpl. rewrite lookup_alter_ne by done. split; [apply (ro_obj _ _ _ Hq)|apply (ro_id _ _ _ Hq)]. }
  apply NoDup_cons in Hnd as [Hp Hnd]. rewrite !elem_of_app in Hp.
  split_and!; try done; [|by apply (only_static p s s2 r (g r)); [|apply (ro_obj _ _ _ Hr)|..]|apply (on_objs _ _ _ Ho)].
  constructor; try done.
  - change (running s2) with (running s). change (skipped_waiting s2) with (skipped_waiting s). rewrite Hperm. simpl.
    by rewrite <-Permutation_middle.
  - change (running s2) with (running s). change (skipped_waiting s2) with (skipped_waiting s). rewrite Hperm. simpl.
    rewrite <-Permutation_middle. apply NoDup_cons. split; [rewrite !elem_of_app; tauto|done].
  - intros id Hin. change (running s2) with (running s) in Hin. assert (id ≠ p) by (intros ->; tauto).
    apply (only_run p s s2 ns); auto.
  - intros id. change (skipped_waiting s2) with (skipped_waiting s). rewrite Hperm. simpl. intros [->|Hin]%elem_of_cons.
    + exists (g r). assert (Hg : status (g r) = PREEMPTED ∧ num_computed_tokens (g r) = 0 ∧ num_output_placeholders (g r) = num_output_placeholders r) by (unfold g; by destruct (sched_log_stats cfg)).
      destruct Hg as (Hg1 & Hg2 & Hg3). rewrite Hg2. pose proof (ro_tokens _ _ _ Hr). split_and!; try done.
      * apply (req_static s s2 p r); try done. unfold placeholders_ok. rewrite Hg3. apply (ro_placeholders _ _ _ Hr).
      * unfold waiting_status. by rewrite Hg1.
      * rewrite (static_tokens r (g r)) by done. lia.
      * rewrite <-Hid. exact Hcov.
      * apply kl_parked_none.
    + apply (only_wait p s s2); [done| |by apply Hwait]. intros ->. rewrite !elem_of_app in Hin. tauto.
  - apply (only_unknown p s s2); try done. apply (ro_known _ _ _ Hr).
Qed.

(* --------------------------------------------------------------------- *)
(** *** The loop over the running requests                                *)

(** How far a request is ahead of its tokens once [n] tokens are scheduled: up
    to its placeholders, and exactly by its draft tokens when it has any. *)
Definition ahead (specs : list (string * list Z)) id (n : Z) (r : Request) : Prop :=
  match dict_get id specs with
  | Some d => num_computed_tokens r + n = num_tokens r + num_output_placeholders r + len d
  | None => num_computed_tokens r + n ≤ num_tokens r + num_output_placeholders r
  end.
(** The local variables of a step that may use [B] tokens. *)
Record step_ok s (t : Step) (B : Z) : Prop := {
  tk_keys : NoDup (num_scheduled_tokens t).*1;
  tk_sched : (num_scheduled_tokens t).*1 ≡ₚ scheduled_running_reqs t ++ scheduled_new_reqs t ++ scheduled_resumed_reqs t;
  tk_in : ∀ id, id ∈ (num_scheduled_tokens t).*1 → id ∈ running s;
  tk_pos : ∀ id n, (id, n) ∈ num_scheduled_tokens t → 0 < n;
  tk_sum : dict_sum (num_scheduled_tokens t) + token_budget t = B;
  tk_budget : 0 ≤ token_budget t;
  tk_blocks : ∀ id, id ∈ (num_scheduled_tokens t).*1 → is_Some (dict_get id (req_to_new_blocks t));
  tk_enc : ∀ id ids r i, (id, ids) ∈ scheduled_encoder_inputs t → objs s !! id = Some r → i ∈ ids →
    ∃ n, get_num_encoder_embeds r i = Ok n;
  tk_ahead : ∀ id n r, (id, n) ∈ num_scheduled_tokens t → objs s !! id = Some r → ahead (scheduled_spec_decode_tokens t) id n r;
  tk_specs : NoDup (scheduled_spec_decode_tokens t).*1 ∧ ∀ id, id ∈ (scheduled_spec_decode_tokens t).*1 → id ∈ (num_scheduled_tokens t).*1;
  tk_index : len (scheduled_running_reqs t) ≤ req_index t;
  tk_front : ∀ id, id ∈ scheduled_running_reqs t → id ∈ take (Z.to_nat (req_index t)) (running s);
}.
(** In the first loop no waiting request has been admitted yet. *)
Definition first_phase (t : Step) : Prop := scheduled_new_reqs t = [] ∧ scheduled_resumed_reqs t = [].
(** A part of the loop that preempts nothing leaves the queues alone. *)
Definition quiet s (t : Step) s' (t' : Step) : Prop :=
  (∀ id, id ∈ running s' → id ∈ running s) ∧
  (preempted_reqs t' = [] → preempted_reqs t = [] ∧ waiting s' = waiting s ∧ skipped_waiting s' = skipped_waiting s ∧
     (∀ id, (id ∉ running s) → objs s' !! id = objs s !! id)).
Lemma quiet_trans s t s1 t1 s' t' : quiet s t s1 t1 → quiet s1 t1 s' t' → quiet s t s' t'.
Proof.
  intros [A1 A2] [B1 B2]. split; [auto|]. intros H. destruct (B2 H) as (H1 & -> & -> & H2). destruct (A2 H1) as (H3 & -> & -> & H4).
  split_and!; try done. intros id Hid. rewrite H2 by auto. auto.
Qed.
Lemma quiet_same s t s' t' : running s' = running s → waiting s' = waiting s → skipped_waiting s' = skipped_waiting s →
  (∀ id, (id ∉ running s) → objs s' !! id = objs s !! id) → preempted_reqs t' = preempted_reqs t → quiet s t s' t'.
Proof. intros H1 H2 H3 H4 H5. split; [intros id; by rewrite H1|]. intros H. split_and!; try done. congruence. Qed.

Lemma dict_pop_sub {A} k (d : list (string * A)) :
  (∀ v, (dict_pop k d).1 = Some v → (k, v) ∈ d) ∧ (∀ x, x ∈ (dict_pop k d).2 → x ∈ d).
Proof.
  induction d as [|[k1 v1] d [IH1 IH2]]; simpl; [done|]. destruct (decide (k1 = k)) as [->|Hk]; simpl.
  - split; [intros v [= ->]; by left|by right].
  - destruct (dict_pop k d) as [o d']. simpl in *. split; [intros v Hv; right; auto|]. intros x. rewrite !elem_of_cons. naive_solver.
Qed.
Lemma dict_set_sub {A} k v (d : list (string * A)) x : x ∈ dict_set k v d → x = (k, v) ∨ x ∈ d.
Proof.
  induction d as [|[k1 v1] d IH]; simpl; [rewrite list_elem_of_singleton; by left|].
  destruct (decide (k1 = k)) as [->|]; rewrite !elem_of_cons; naive_solver.
Qed.

Lemma map_m_embeds r ids s :
  (∀ i, i ∈ ids → ∃ n, get_num_encoder_embeds r i = Ok n) →
  ∃ l, map_m (λ i, of_res (get_num_encoder_embeds r i)) ids s = (Ok l, s).
Proof.
  induction ids as [|i ids IH]; intros Hi; simpl; [by exists []|]. destruct (Hi i) as [n Hn]; [by left|]. rewrite run_of_res, Hn.
  destruct IH as [l Hl]; [intros j Hj; apply Hi; by right|]. exists (n :: l). by mstep Hl.
Qed.

Lemma step_static s s' t B : step_ok s t B → running s' = running s → keeps_static s' s →
  (∀ id, id ∈ (num_scheduled_tokens t).*1 → objs s' !! id = objs s !! id) → step_ok s' t B.
Proof.
  intros [] Hr Hs Hob. constructor; rewrite ?Hr; try done.
  2: { intros id n r Hn. rewrite Hob; [by apply tk_ahead0|]. by apply (list_elem_of_fmap_2 fst _ (id, n)). } intros id ids r i Hd Ho Hi. destruct (keeps_static_obj _ _ id r Hs Ho) as (r' & Ho' & Hst).
  destruct (tk_enc0 id ids r' i Hd Ho' Hi) as [n Hn]. exists n. by rewrite <-Hn, (static_embeds r r').
Qed.
Lemma unschedule_spec s s1 t B p :
  step_ok s t B → first_phase t → p ∈ scheduled_running_reqs t → objs s1 = objs s → is_Some (objs s !! p) →
  running s1 = remove_first p (running s) →
  ∃ t', unschedule p t s1 = (Ok t', s1) ∧ step_ok s1 t' B ∧ first_phase t' ∧
    (∀ id, id ≠ p → dict_get id (num_scheduled_tokens t') = dict_get id (num_scheduled_tokens t)) ∧
    (p ∉ (num_scheduled_tokens t').*1) ∧ preempted_reqs t' = preempted_reqs t ∧ req_index t' = req_index t - 1 ∧
    token_budget t ≤ token_budget t' ∧
    (∀ id, id ≠ p → id ∈ take (S (Z.to_nat (req_index t))) (running s) → id ∈ take (S (Z.to_nat (req_index t'))) (running s1)).
Proof.
  intros [T1 T2 T3 T4 T5 T6 T7 T8 TA TS T9 T10] [P1 P2] Hp Hobj [r Hr] Hrun.
  assert (Hlen1 : 1 ≤ len (scheduled_running_reqs t)).
  { pose proof (Permutation_length (remove_first_perm p _ Hp)) as Hlen. simpl in Hlen. unfold len. lia. }
  assert (Hk : p ∈ (num_scheduled_tokens t).*1) by (rewrite T2; apply elem_of_app; by left).
  destruct (proj2 (dict_get_in _ _) Hk) as [n Hn]. destruct (T7 p Hk) as [b Hb].
  unfold unschedule. pose proof (dict_pop_spec p (num_scheduled_tokens t)) as [Hn1 Hn2]. pose proof (dict_pop_spec p (req_to_new_blocks t)) as [Hb1 Hb2].
  pose proof (dict_pop_sub p (scheduled_encoder_inputs t)) as [Hsub1 Hsub2].
  destruct (dict_pop_keys p n _ T1 Hn) as (Hperm & Hnd & Hnot).
  destruct (dict_pop p (num_scheduled_tokens t)) as [on ns] eqn:En. destruct (dict_pop p (req_to_new_blocks t)) as [ob nb] eqn:Eb.
  destruct (dict_pop p (scheduled_encoder_inputs t)) as [oe es] eqn:Ee. simpl in *. rewrite Hn1, Hn, Hb1, Hb.
  assert (Hres : ∃ z, (match oe with
     | Some ids => r <- obj p ;; es <- map_m (λ i, of_res (get_num_encoder_embeds r i)) ids ;; ret (foldr Z.add 0 es)
     | None => ret 0 end) s1 = (Ok z, s1)).
  { destruct oe as [ids|]; [|by eexists]. rewrite <-Hobj in Hr. ostep Hr. destruct (map_m_embeds r ids s1) as [l Hl].
    - intros i Hi. rewrite Hobj in Hr. apply (T8 p ids r i); [|done|done]. by apply Hsub1.
    - mstep Hl. by eexists. }
  destruct Hres as [z Hz]. mstep Hz. eexists. split; [reflexivity|]. unfold first_phase. simpl.
  assert (Hns : (num_scheduled_tokens t).*1 ≡ₚ p :: ns.*1) by (by rewrite Hperm).
  pose proof (T4 p n ltac:(rewrite Hperm; by left)) as Hpos. pose proof (dict_sum_perm _ _ Hperm) as Hsum. simpl in Hsum.
  split_and!; try done; [|lia|].
  2: { intros id Hne Hid. rewrite Hrun. replace (S (Z.to_nat (req_index t - 1))) with (Z.to_nat (req_index t)) by lia.
       apply take_remove_before; try done. apply (take_le_in p (Z.to_nat (req_index t))); [lia|by apply T10]. }
  constructor; simpl; try done; try lia.
  - rewrite Hns, (remove_first_perm p (scheduled_running_reqs t) Hp) in T2. simpl in T2. by apply Permutation_cons_inv in T2.
  - intros id Hid. assert (Hid' : id ∈ running s) by (apply T3; rewrite Hns; by right). rewrite Hrun.
    rewrite (remove_first_perm p (running s)) in Hid' by (by apply T3). apply elem_of_cons in Hid' as [->|?]; done.
  - intros id m Hm. apply (T4 id). rewrite Hperm. by right.
  - intros id Hid. rewrite Hb2 by (by intros ->). apply T7. rewrite Hns. by right.
  - intros id ids q i Hd Hq. rewrite Hobj in Hq. by apply (T8 id ids q i); [apply Hsub2|].
  - intros id m q Hm Hq. rewrite Hobj in Hq. pose proof (dict_pop_spec p (scheduled_spec_decode_tokens t)) as [_ Hsp]. unfold ahead.
    rewrite Hsp; [apply (TA id m q); [rewrite Hperm; by right|done]|]. intros ->. apply Hnot. by apply (list_elem_of_fmap_2 fst _ (p, m)).
  - destruct TS as [TS1 TS2]. destruct (dict_pop_nodup p _ TS1) as (N1 & N2 & N3). split; [done|]. intros id Hid. specialize (TS2 id (N3 id Hid)).
    rewrite Hns in TS2. apply elem_of_cons in TS2 as [->|?]; done.
  - pose proof (Permutation_length (remove_first_perm p _ Hp)) as Hlen. simpl in Hlen. unfold len in *. lia.
  - intros id Hid. assert (Hne : id ≠ p).
    { intros ->. rewrite T2, P1, P2, app_nil_r, (remove_first_perm p _ Hp) in Hns. apply Permutation_cons_inv in Hns. rewrite Hns in Hid. done. }
    rewrite Hrun. replace (Z.to_nat (req_index t - 1)) with (Z.to_nat (req_index t) - 1)%nat by lia.
    destruct (Z.to_nat (req_index t)) as [|x] eqn:Hx; [lia|]. simpl. rewrite Nat.sub_0_r. apply take_remove_before; [done|by apply T10|].
    apply T10. rewrite (remove_first_perm p _ Hp). by right.
Qed.

Lemma core_run_obj s ns extra id : core s ns extra → id ∈ running s → ∃ r, objs s !! id = Some r ∧ request_id r = id.
Proof. intros Hc Hid. destruct (co_run _ _ _ Hc id Hid) as (r & Hr & _). exists r. split; [apply (ro_obj _ _ _ Hr)|apply (ro_id _ _ _ Hr)]. Qed.

(** Taking a request out of the running list and preempting it. *)
Lemma take_and_preempt s t B extra p run' t' ts :
  core s (num_scheduled_tokens t) extra → running s ≡ₚ p :: run' →
  (∀ id, id ≠ p → dict_get id (num_scheduled_tokens t') = dict_get id (num_scheduled_tokens t)) →
  step_ok (s <| running := run' |>) t' B →
  ∃ s', _preempt_request cfg set_order p ts (s <| running := run' |>) = (Ok tt, s') ∧
    core s' (num_scheduled_tokens t') extra ∧ step_ok s' t' B ∧ running s' = run' ∧ keeps_static s s' ∧
    pause_state s' = pause_state s ∧ rest s' = rest s ∧
    (∀ id, id ∈ run' → objs s' !! id = objs s !! id) ∧
    (∀ r a b, el_resv (enc s) r a b → el_resv (enc s') r a b).
Proof.
  intros Hc Hperm Hns Ht. pose proof Hc as [C0 C1 C2 C3 C4 C5 C6 C7]. assert (Hsub : ∀ id, id ∈ p :: run' → id ∈ running s) by (intros id; by rewrite Hperm).
  assert (Hnd : NoDup (p :: run' ++ waiting s ++ skipped_waiting s ++ extra)) by (by rewrite Hperm in C1).
  destruct (preempt_spec (s <| running := run' |>) (num_scheduled_tokens t) (num_scheduled_tokens t') extra p ts) as (s' & He & Hc' & Hr & Hst & Hp & Hf & Ho & Hres); try done.
  - by rewrite <-C0, Hperm.
  - apply (view_run s); [done|]. apply C2, Hsub. by left.
  - intros id Hid. apply (view_run s); [done|]. apply C2, Hsub. by right.
  - intros id Hid. apply (view_wait s); [done|]. by apply C3.
  - unfold len in *. simpl. rewrite Hperm in C6. simpl in C6. lia.
  - exists s'. split_and!; try done.
    + apply (step_static (s <| running := run' |>)); try done. intros id Hid. apply Ho. intros ->.
      apply (tk_in _ _ _ Ht) in Hid. apply NoDup_cons in Hnd as [[] _]. apply elem_of_app. by left.
    + intros id Hid. rewrite Ho; [done|]. intros ->. apply NoDup_cons in Hnd as [[] _]. apply elem_of_app. by left.
Qed.

Lemma step_run s t B run' :
  step_ok s t B → (∀ id, id ∈ (num_scheduled_tokens t).*1 → id ∈ run') →
  (∀ id, id ∈ scheduled_running_reqs t → id ∈ take (Z.to_nat (req_index t)) run') → step_ok (s <| running := run' |>) t B.
Proof. intros [] Hin. by constructor. Qed.
Lemma pick_victim_spec s t B ns extra id :
  core s ns extra → step_ok s t B → first_phase t → id ∈ take (S (Z.to_nat (req_index t))) (running s) →
  (policy cfg = FCFS → running s !! Z.to_nat (req_index t) = Some id) →
  ∃ p t' run', pick_victim cfg t s = (Ok (p, t'), s <| running := run' |>) ∧ running s ≡ₚ p :: run' ∧
    step_ok (s <| running := run' |>) t' B ∧ first_phase t' ∧
    (∀ id, id ≠ p → dict_get id (num_scheduled_tokens t') = dict_get id (num_scheduled_tokens t)) ∧
    preempted_reqs t' = preempted_reqs t ∧ len run' - req_index t' ≤ len (running s) - req_index t ∧
    token_budget t ≤ token_budget t' ∧
    (p ≠ id → id ∈ take (S (Z.to_nat (req_index t'))) run' ∧ (policy cfg = FCFS → run' !! Z.to_nat (req_index t') = Some id)).
Proof.
  intros Hc Ht Hf Hid0 Hfront. assert (Hid : id ∈ running s) by (rewrite <-(take_drop (S (Z.to_nat (req_index t))) (running s)); apply elem_of_app; by left).
  unfold pick_victim. rewrite run_get. destruct (policy cfg) eqn:Hpol.
  - specialize (Hfront eq_refl). destruct (last (running s)) as [p|] eqn:Hl.
    2: { apply last_None in Hl. rewrite Hl in Hid. by apply not_elem_of_nil in Hid. }
    pose proof (last_take _ _ Hl) as Hr. set (run' := take (length (running s) - 1) (running s)) in *.
    assert (Hlen : length (running s) = (length run' + 1)%nat) by (pose proof (f_equal length Hr) as HH; rewrite length_app in HH; simpl in HH; lia).
    pose proof (tk_index _ _ _ Ht) as Hix. pose proof (len_nonneg (scheduled_running_reqs t)).
    pose proof (lookup_lt_Some _ _ _ Hfront) as Hlt.
    assert (Htake : take (Z.to_nat (req_index t)) run' = take (Z.to_nat (req_index t)) (running s)).
    { transitivity (take (Z.to_nat (req_index t)) (run' ++ [p])); [by rewrite take_app_le by lia|by rewrite <-Hr]. }
    assert (Hin : ∀ i, i ∈ scheduled_running_reqs t → i ∈ take (Z.to_nat (req_index t)) run') by (intros i Hi; rewrite Htake; by apply (tk_front _ _ _ Ht)).
    eexists p, t, run'. split; [reflexivity|]. split; [transitivity (run' ++ [p]); [by rewrite <-Hr|symmetry; apply Permutation_cons_append]|].
    split.
    { destruct Ht as [T1 T2 T3 T4 T5 T6 T7 T8 TA TS T9 T10]. destruct Hf as [F1 F2]. constructor; simpl; try done.
      intros i. rewrite T2, F1, F2, app_nil_r. intros Hi. apply Hin in Hi. rewrite <-(take_drop (Z.to_nat (req_index t)) run'). apply elem_of_app. by left. }
    split_and!; try done; [unfold len; lia|]. intros Hne. assert (Hat : run' !! Z.to_nat (req_index t) = Some id).
    { rewrite Hr in Hfront. apply lookup_app_Some in Hfront as [?|[Hge Hlk]]; [done|]. apply list_lookup_singleton_Some in Hlk as [_ ?]. congruence. }
    split; [|done]. apply list_elem_of_lookup. exists (Z.to_nat (req_index t)). by rewrite lookup_take_lt by lia.
  - destruct (running s) as [|x l] eqn:Hrun; [by apply not_elem_of_nil in Hid|]. set (p := max_by (lower_priority s) x l).
    assert (Hp : p ∈ x :: l) by apply max_by_in. rewrite run_put. pose proof (remove_first_perm p (x :: l) Hp) as Hperm.
    set (run' := remove_first p (x :: l)) in *. pose proof (Permutation_length Hperm) as Hlen. simpl in Hlen.
    destruct (core_run_obj s ns extra p Hc) as (rp & Hrp & _); [by rewrite Hrun|].
    assert (Hrest : ∀ i, i ∈ x :: l → i ≠ p → i ∈ run') by (intros i; rewrite Hperm, elem_of_cons; tauto).
    case_bool_decide as Hs.
    + destruct (unschedule_spec s (s <| running := run' |>) t B p Ht Hf Hs) as (t' & He & Ht' & Hf' & Hns & _ & Hpre & Hidx & Hb & Hfr); [done|by eexists|by rewrite Hrun|].
      mstep He. exists p, t', run'. split_and!; try done; try (unfold len; simpl; lia). intros Hne. split; [|done]. apply Hfr; [done|by rewrite Hrun].
    + rewrite run_ret. exists p, t, run'. split; [reflexivity|]. split; [done|]. split.
      { apply step_run; try done.
        - intros i Hi. apply Hrest; [rewrite <-Hrun; by apply (tk_in _ _ _ Ht)|]. intros ->.
          rewrite (tk_sched _ _ _ Ht) in Hi. destruct Hf as [F1 F2]. rewrite F1, F2, app_nil_r in Hi. done.
        - intros i Hi. apply take_remove_after; [by intros ->|]. rewrite <-Hrun. by apply (tk_front _ _ _ Ht). }
      split_and!; try done; [unfold len; simpl; lia|]. intros Hne. split; [|done]. by apply take_remove_after.
Qed.

Lemma keeps_static_eq s s' : objs s' = objs s → keeps_static s s'.
Proof. intros H id. rewrite H. destruct (objs s !! id); by constructor. Qed.
Lemma core_unscheduled s ns extra id r :
  core s ns extra → id ∈ running s → objs s !! id = Some r → dict_get id ns = None →
  req_ok s id r ∧ 0 < num_computed_tokens r ∧ kl_covers (kv s) id (num_computed_tokens r).
Proof.
  intros Hc Hid Hr Hn. destruct (co_run _ _ _ Hc id Hid) as (r' & Hro & _ & _ & Hpos & Hcov & _). pose proof (ro_obj _ _ _ Hro).
  assert (r' = r) as -> by congruence. unfold sched_of in *. rewrite Hn in *. simpl in *. rewrite Z.add_0_r in *. split; [done|]. split; [lia|done].
Qed.
(** The KV manager changes the tables of one unscheduled request. *)
Lemma core_kv s ns extra id r k1 :
  core s ns extra → id ∈ running s → objs s !! id = Some r → dict_get id ns = None → kl_inv k1 →
  (∀ id' n, id' ≠ id → kl_covers (kv s) id' n → kl_covers k1 id' n) → kl_covers k1 id (num_computed_tokens r) →
  core (s <| kv := k1 |>) ns extra.
Proof.
  intros Hc Hid Hr Hn Hk Hoth Hcov. assert (Ho : only id s (s <| kv := k1 |>)) by (by constructor).
  pose proof Hc as [C0 C1 C2 C3 C4 C5 C6 C7]. constructor; try done; simpl.
  - intros id' Hid'. destruct (decide (id' = id)) as [->|Hne]; [|by eapply only_run; eauto].
    destruct (C2 id Hid) as (r' & Hro & H1 & H2 & H3 & _ & H5). pose proof (ro_obj _ _ _ Hro). assert (r' = r) as -> by congruence.
    exists r. unfold sched_of in *. rewrite Hn in *. simpl in *. rewrite Z.add_0_r in *. split_and!; try done; try lia.
    destruct Hro. by constructor.
  - intros id' Hid'. eapply only_wait; [done| |by apply C3]. intros ->.
    eapply (NoDup_app (running s)) in C1 as (_ & C1 & _). by apply (C1 id).
  - destruct (C2 id Hid) as (? & [] & _). exact (only_unknown id s _ Ho ro_known0 C7).
Qed.

Lemma allocate_loop_spec fuel s t B extra id r n ts :
  (length (running s) < fuel)%nat → core s (num_scheduled_tokens t) extra → step_ok s t B → first_phase t →
  id ∈ take (S (Z.to_nat (req_index t))) (running s) → objs s !! id = Some r → (id ∉ (num_scheduled_tokens t).*1) →
  (policy cfg = FCFS → running s !! Z.to_nat (req_index t) = Some id) →
  0 < n → num_computed_tokens r + n ≤ max_model_len cfg - 1 → 0 ≤ num_lookahead_tokens cfg →
  ∃ o t' s', allocate_loop cfg set_order fuel id n ts t s = (Ok (o, t'), s') ∧ core s' (num_scheduled_tokens t') extra ∧
    step_ok s' t' B ∧ first_phase t' ∧ keeps_static s s' ∧ pause_state s' = pause_state s ∧
    rest s' = rest s ∧ quiet s t s' t' ∧
    len (running s') - req_index t' ≤ len (running s) - req_index t ∧ token_budget t ≤ token_budget t' ∧
    (∀ q a b, el_resv (enc s) q a b → el_resv (enc s') q a b) ∧
    match o with
    | Some _ => id ∈ take (S (Z.to_nat (req_index t'))) (running s') ∧ objs s' !! id = Some r ∧ (id ∉ (num_scheduled_tokens t').*1) ∧
        kl_covers (kv s') id (num_computed_tokens r + n) ∧
        (policy cfg = FCFS → running s' !! Z.to_nat (req_index t') = Some id)
    | None => preempted_reqs t' ≠ []
    end.
Proof.
  revert s t. induction fuel as [|fuel IH]; intros s t Hfuel Hc Ht Hf Hid0 Hr Hnk Hfront Hn Hmax Hlook; [lia|]. cbn [allocate_loop].
  assert (Hid : id ∈ running s) by (rewrite <-(take_drop (S (Z.to_nat (req_index t))) (running s)); apply elem_of_app; by left).
  ostep Hr. destruct (core_unscheduled s _ extra id r Hc Hid Hr (proj2 (dict_get_none _ _) Hnk)) as (Hro & Hpos & Hcov). pose proof (ro_id _ _ _ Hro) as Hidr.
  destruct (kl_alloc_more (kv s) r n None (num_lookahead_tokens cfg) 0 false (co_kv _ _ _ Hc) (ro_kv _ _ _ Hro)) as (o & k1 & Hk & Hkv1 & Hoth & Hcov1); try done; [by rewrite Hidr|lia|by left|].
  kstep Hk. rewrite Hidr in Hoth, Hcov1. assert (Hc1 : core (s <| kv := k1 |>) (num_scheduled_tokens t) extra).
  { apply (core_kv s _ extra id r); try done; [by apply dict_get_none|]. destruct o; [|done]. by eapply kl_mono; [exact Hcov1|lia]. }
  assert (Ht1 : step_ok (s <| kv := k1 |>) t B) by (by destruct Ht; constructor).
  destruct o as [b|].
  { exists (Some b), t, (s <| kv := k1 |>). split_and!; try done; try lia; first [by apply keeps_static_eq|by apply quiet_same]. }
  destruct (pick_victim_spec (s <| kv := k1 |>) t B _ extra id Hc1 Ht1 Hf Hid0 Hfront) as (p & t1 & run' & He & Hperm & Ht2 & Hf2 & Hns & Hpre & Hgap & Hbud & Hfr).
  mstep He. destruct (take_and_preempt (s <| kv := k1 |>) t B extra p run' t1 ts Hc1 Hperm Hns Ht2) as (s2 & He2 & Hc2 & Ht3 & Hrun2 & Hst2 & Hps2 & Hfi2 & Hob2 & Hres2).
  mstep He2. set (t2 := t1 <| preempted_reqs ::= λ l, l ++ [p] |>). assert (Ht4 : step_ok s2 t2 B) by (by destruct Ht3; constructor).
  assert (Hq2 : quiet s t s2 t2).
  { split; [rewrite Hrun2; intros i Hi; change (running s) with (running (s <| kv := k1 |>)); rewrite Hperm; by right|].
    unfold t2. simpl. by intros [_ ?]%app_nil. }
  pose proof (Permutation_length Hperm) as Hlen. simpl in Hlen. destruct (decide (p = id)) as [->|Hne].
  - exists None, t2, s2. split_and!; try done; [by rewrite Hrun2|]. unfold t2. simpl. by destruct (preempted_reqs t1).
  - assert (Hid2 : id ∈ run') by (rewrite Hperm in Hid; by apply elem_of_cons in Hid as [?|?]).
    destruct (IH s2 t2) as (o & t' & s' & He3 & Hc3 & Ht5 & Hf3 & Hst3 & Hps3 & Hfi3 & Hq3 & Hgap3 & Hbud3 & Hres3 & Hm); try done.
    + rewrite Hrun2. lia.
    + rewrite Hrun2. by apply Hfr.
    + by rewrite Hob2.
    + rewrite <-dict_get_none in Hnk |- *. unfold t2. simpl. by rewrite Hns.
    + rewrite Hrun2. intros Hpol. by apply Hfr.
    + exists o, t', s'. split; [exact He3|]. rewrite Hrun2 in Hgap3. unfold t2 in Hgap3, Hbud3. simpl in Hgap, Hgap3, Hbud3, Hps2. change (rest s2 = rest s) in Hfi2.
      split_and!; try done; try lia; try congruence; auto.
      * by transitivity s2.
      * by eapply quiet_trans.
Qed.

Lemma core_enc s ns extra e : core s ns extra → el_inv e → core (s <| enc := e |>) ns extra.
Proof.
  intros [C0 C1 C2 C3 C4 C5 C6 C7] He. constructor; try done; simpl.
  - intros id Hid. apply (view_run s); [done|by apply C2].
  - intros id Hid. apply (view_wait s); [done|by apply C3].
Qed.
Lemma step_same s s' t B : step_ok s t B → running s' = running s → objs s' = objs s → step_ok s' t B.
Proof. intros Ht Hr Ho. apply (step_static s); [done|done|apply keeps_static_eq; by symmetry|by rewrite Ho]. Qed.
Lemma enc_id s : s <| enc := enc s |> = s.
Proof. by destruct s. Qed.

(** The chosen encoder inputs can be reserved. *)
Definition can_reserve (e : E) (r : Request) (a b : list Z) : Prop := (a = [] ∧ b = []) ∨ el_resv e r a b.
Lemma choose_spec s id r computed n budget :
  req_ok s id r → el_inv (enc s) → 0 ≤ n →
  ∃ a n' b ext e, choose_encoder_inputs cfg hci r computed n budget s = (Ok (a, n', b, ext), s <| enc := e |>) ∧
    el_inv e ∧ 0 ≤ n' ≤ n ∧ can_reserve e r a ext.
Proof.
  intros Hr He Hn. unfold choose_encoder_inputs. destruct (has_encoder_inputs r).
  - destruct (el_try (enc s) r computed n budget (if use_eagle cfg then 1 else 0) He (ro_enc _ _ _ Hr) Hn) as (a & n' & b & ext & e & Ht & He' & Hn' & Hres).
    { destruct (use_eagle cfg); lia. }
    exists a, n', b, ext, e. split; [by apply on_enc_ok|]. split_and!; try done; try lia. by right.
  - exists [], n, budget, [], (enc s). rewrite enc_id. split_and!; try done; try lia. by left.
Qed.
Lemma aligned_split_spec s r n local :
  0 ≤ n → (need_mamba_block_aligned_split cfg = true → 0 < cache_block_size cfg) →
  ∃ n', aligned_split cfg r n local 0 s = (Ok n', s) ∧ 0 ≤ n' ≤ n.
Proof.
  intros Hn Hbs. unfold aligned_split. destruct (need_mamba_block_aligned_split cfg); [|by exists n]. specialize (Hbs eq_refl).
  unfold _mamba_block_aligned_split. cbn [negb Z.eqb]. case_bool; [|by exists n]. cbv zeta. case_bool.
  { eexists. split; [reflexivity|]. pose proof (Z.div_mod n (cache_block_size cfg) ltac:(lia)). pose proof (Z.mod_pos_bound n (cache_block_size cfg) Hbs).
    pose proof (Z.div_pos n (cache_block_size cfg) Hn Hbs). nia. }
  case_bool; [|by exists n]. bool_to_prop. eexists. split; [reflexivity|]. lia.
Qed.
Lemma running_num_bounds s ns id r budget :
  run_ok s ns id → objs s !! id = Some r → dict_get id ns = None → 0 < budget →
  0 ≤ running_num_new_tokens cfg r budget ≤ budget ∧ num_computed_tokens r + running_num_new_tokens cfg r budget ≤ max_model_len cfg - 1 ∧
  num_computed_tokens r + running_num_new_tokens cfg r budget ≤ num_tokens_with_spec r + num_output_placeholders r.
Proof.
  intros (r' & Hro & _ & H0 & H1 & _ & H2) Hr Hn Hb. pose proof (ro_obj _ _ _ Hro). assert (r' = r) as -> by congruence.
  specialize (H2 Hn). unfold sched_of in H1. rewrite Hn in H1. simpl in H1. unfold running_num_new_tokens. cbv zeta.
  assert (num_tokens r ≤ num_tokens_with_spec r) by (unfold num_tokens_with_spec, num_tokens; pose proof (len_nonneg (spec_token_ids r)); lia).
  destruct (_ && _) eqn:Hth; bool_to_prop; lia.
Qed.

Lemma reserve_spec s id r a b :
  objs s !! id = Some r → el_inv (enc s) → can_reserve (enc s) r a b →
  ∃ e, reserve_encoder_inputs id a b s = (Ok tt, s <| enc := e |>) ∧ el_inv e.
Proof.
  intros Hr He Hc. unfold reserve_encoder_inputs. ostep Hr. destruct Hc as [[-> ->]|Hres].
  - exists (enc s). split; [|done]. by destruct s.
  - destruct (el_alloc (enc s) r a b He Hres) as (e1 & e2 & H1 & H2 & H3). exists e2. split; [|done].
    estep H1. unfold on_enc, zoom. simpl. by rewrite H2.
Qed.

(** Adding an entry to the step. *)
Lemma step_add s s' t t' B id n b a :
  step_ok s t B → running s' = running s → keeps_static s s' → (id ∉ (num_scheduled_tokens t).*1) →
  id ∈ take (S (Z.to_nat (req_index t))) (running s) → 0 < n ≤ token_budget t →
  num_scheduled_tokens t' = dict_set id n (num_scheduled_tokens t) →
  scheduled_running_reqs t' = scheduled_running_reqs t ++ [id] → scheduled_new_reqs t' = scheduled_new_reqs t →
  scheduled_resumed_reqs t' = scheduled_resumed_reqs t → req_to_new_blocks t' = dict_set id b (req_to_new_blocks t) →
  token_budget t' = token_budget t - n → req_index t' = 1 + req_index t →
  (∀ x, x ∈ scheduled_encoder_inputs t' → x ∈ scheduled_encoder_inputs t ∨ x = (id, a)) →
  (∀ r i, objs s' !! id = Some r → i ∈ a → ∃ m, get_num_encoder_embeds r i = Ok m) →
  (∀ i, i ≠ id → objs s' !! i = objs s !! i) →
  (scheduled_spec_decode_tokens t' = scheduled_spec_decode_tokens t ∨ ∃ d, scheduled_spec_decode_tokens t' = dict_set id d (scheduled_spec_decode_tokens t)) →
  (∀ r, objs s' !! id = Some r → ahead (scheduled_spec_decode_tokens t') id n r) → step_ok s' t' B.
Proof.
  intros Ht Hrun Hst Hnew Hid Hn E1 E2 E3 E4 E5 E6 E7 E8 E9 E10 E11 E12.
  assert (Hin : ∀ i m, (i, m) ∈ num_scheduled_tokens t → i ≠ id) by (intros i m Him ->; by apply Hnew, (list_elem_of_fmap_2 fst _ (id, m))).
  apply (step_static s s') in Ht; [|done|by symmetry|intros i [[i' m] [-> Him]]%list_elem_of_fmap_1; eapply E10, Hin; exact Him].
  destruct Ht as [T1 T2 T3 T4 T5 T6 T7 T8 TA TS T9 T10]. rewrite (dict_set_new _ _ _ Hnew) in E1. rewrite <-Hrun in Hid.
  constructor; rewrite ?E1, ?E2, ?E3, ?E4, ?E5, ?E6, ?E7.
  - rewrite fmap_app. apply NoDup_app. split_and!; [done| |apply NoDup_singleton]. intros i Hi ->%list_elem_of_singleton. done.
  - rewrite fmap_app, T2. simpl. solve_Permutation.
  - intros i. rewrite fmap_app, elem_of_app. simpl. rewrite list_elem_of_singleton. intros [?| ->]; [auto|].
    rewrite <-(take_drop (S (Z.to_nat (req_index t))) (running s')). apply elem_of_app. by left.
  - intros i m. rewrite elem_of_app, list_elem_of_singleton. intros [?|[= -> ->]]; [eauto|lia].
  - rewrite dict_sum_app. change (dict_sum [(id, n)]) with (n + 0). lia.
  - lia.
  - intros i. rewrite fmap_app, elem_of_app, dict_get_set. simpl. rewrite list_elem_of_singleton. case_decide; [by eexists|]. intros [?|?]; [auto|done].
  - intros i ids q j Hx. apply E8 in Hx as [Hx|[= -> ->]]; [by apply (T8 i ids)|apply E9].
  - intros i m q. rewrite elem_of_app, list_elem_of_singleton. intros [Hm|[= -> ->]] Hq; [|by apply E12].
    specialize (TA i m q Hm Hq). unfold ahead in *. destruct E11 as [->|[d ->]]; [done|]. rewrite dict_get_set, decide_False by (by eapply Hin). done.
  - destruct TS as [TS1 TS2]. rewrite fmap_app. destruct E11 as [->|[d ->]]; [split; [done|]; intros i Hi; apply elem_of_app; auto|].
    destruct (dict_set_keys id d _ TS1) as [N1 N2]. split; [done|]. intros i Hi. apply elem_of_app. apply N2 in Hi as [->|Hi]; [right; by left|auto].
  - rewrite len_app. unfold len at 2. simpl. lia.
  - pose proof (len_nonneg (scheduled_running_reqs t)). replace (Z.to_nat (1 + req_index t)) with (S (Z.to_nat (req_index t))) by lia.
    intros i. rewrite elem_of_app, list_elem_of_singleton. intros [Hi| ->]; [|done]. apply (take_le_in i (Z.to_nat (req_index t))); [lia|auto].
Qed.

(** The drafts kept for the tokens beyond those of the request. *)
Lemma spec_kept (spec : list Z) k : 0 < k ≤ len spec → len (if k <? len spec then slice_to spec k else spec) = k.
Proof.
  intros Hk. case_bool; bool_to_prop; [|lia]. unfold slice_to, slice_bound, len in *. rewrite length_take. destruct (Z.ltb_spec k 0); lia.
Qed.
(** Recording a running request that has its blocks. *)
Lemma schedule_running_spec s t B extra id r n b a budget ext :
  core s (num_scheduled_tokens t) extra → step_ok s t B → first_phase t → id ∈ take (S (Z.to_nat (req_index t))) (running s) →
  objs s !! id = Some r → (id ∉ (num_scheduled_tokens t).*1) → kl_covers (kv s) id (num_computed_tokens r + n) →
  0 < n ≤ token_budget t → num_computed_tokens r + n ≤ max_model_len cfg - 1 → can_reserve (enc s) r a ext →
  num_computed_tokens r + n ≤ num_tokens_with_spec r + num_output_placeholders r →
  ∃ t' s', schedule_running_request id n b a budget ext t s = (Ok t', s') ∧ core s' (num_scheduled_tokens t') extra ∧
    step_ok s' t' B ∧ first_phase t' ∧ running s' = running s ∧ req_index t' = req_index t + 1 ∧
    preempted_reqs t' = preempted_reqs t ∧ keeps_static s s' ∧ pause_state s' = pause_state s ∧ rest s' = rest s ∧ quiet s t s' t'.
Proof.
  intros Hc Ht Hf Hid Hr Hnk Hcov Hn Hmax Hres Hspec. assert (Hin : id ∈ running s) by (rewrite <-(take_drop (S (Z.to_nat (req_index t))) (running s)); apply elem_of_app; by left).
  unfold schedule_running_request. ostep Hr. cbv zeta.
  set (f := λ r : Request, r <| spec_token_ids := [] |>). set (s1 := s <| objs ::= alter f id |>).
  assert (Hr1 : objs s1 !! id = Some (f r)) by (unfold s1; simpl; by rewrite lookup_alter_eq, Hr).
  assert (Hst : same_static r (f r)) by done.
  assert (Ho : only id s s1) by (constructor; try done; simpl; intros i Hi; by rewrite lookup_alter_ne).
  assert (Hres1 : can_reserve (enc s1) (f r) a ext) by (destruct Hres as [?|?]; [by left|right; by eapply el_resv_static]).
  unfold upd. rewrite run_modify. change (λ r0 : Request, _) with f. fold s1.
  destruct (reserve_spec s1 id (f r) a ext Hr1 (co_enc _ _ _ Hc) Hres1) as (e & He & Hei). mstep He.
  pose proof (only_static id s s1 r (f r) Ho Hr Hr1 Hst) as Hks.
  eexists _, (s1 <| enc := e |>). split; [reflexivity|].
  match goal with |- context [core _ (num_scheduled_tokens ?x) _] => set (t' := x) end.
  assert (Hfields : num_scheduled_tokens t' = dict_set id n (num_scheduled_tokens t) ∧ scheduled_running_reqs t' = scheduled_running_reqs t ++ [id] ∧
    scheduled_new_reqs t' = scheduled_new_reqs t ∧ scheduled_resumed_reqs t' = scheduled_resumed_reqs t ∧
    req_to_new_blocks t' = dict_set id b (req_to_new_blocks t) ∧ token_budget t' = token_budget t - n ∧ req_index t' = 1 + req_index t ∧
    preempted_reqs t' = preempted_reqs t ∧ (∀ x, x ∈ scheduled_encoder_inputs t' → x ∈ scheduled_encoder_inputs t ∨ x = (id, a))).
  { unfold t'. destruct a; (case_bool; simpl; split_and!; try done; intros x); try (by left); intros [?|?]%dict_set_sub; [by right|by left|by right|by left]. }
  assert (Hsp : (scheduled_spec_decode_tokens t' = scheduled_spec_decode_tokens t ∨
      ∃ d, scheduled_spec_decode_tokens t' = dict_set id d (scheduled_spec_decode_tokens t)) ∧ ahead (scheduled_spec_decode_tokens t') id n r).
  { pose proof (spec_kept (spec_token_ids r) (n + num_computed_tokens r - num_tokens r - num_output_placeholders r)) as Hk.
    assert (Hnone : dict_get id (scheduled_spec_decode_tokens t) = None) by (apply dict_get_none; by intros Hi%(proj2 (tk_specs _ _ _ Ht))).
    unfold num_tokens_with_spec, num_tokens in *. unfold ahead, num_tokens in *. unfold t'. clear Hfields t'.
    destruct ((0 <? len (spec_token_ids r)) && _) eqn:Hb; destruct a; simpl; (split; [first [by left|right; by eexists]|]);
      rewrite ?dict_get_set, ?(decide_True (P := id = id)), ?Hnone by done;
      [bool_to_prop; rewrite Hk; lia..|apply andb_false_iff in Hb as [Hb|Hb]; bool_to_prop; lia|apply andb_false_iff in Hb as [Hb|Hb]; bool_to_prop; lia]. }
  destruct Hsp as [E10 E11]. destruct Hfields as (E1 & E2 & E3 & E4 & E5 & E6 & E7 & E8 & E9).
  split_and!; try done; [| |unfold first_phase; by rewrite E3, E4|lia|].
  3: { apply quiet_same; try done. intros i Hi. apply (on_objs _ _ _ Ho). by intros ->. }
  - apply core_enc; [|done]. rewrite E1. pose proof Hc as [C0 C1 C2 C3 C4 C5 C6 C7]. constructor; try done.
    + intros i Hi. destruct (decide (i = id)) as [->|Hne].
      * destruct (C2 id Hi) as (r' & Hro & H1 & H2 & _). pose proof (ro_obj _ _ _ Hro). assert (r' = r) as -> by congruence.
        exists (f r). unfold sched_of. rewrite dict_get_set, decide_True by done. simpl. split_and!; try done; try lia.
        apply (req_static s s1 id r); try done. apply (ro_placeholders _ _ _ Hro).
      * apply (only_run id s s1 (num_scheduled_tokens t)); try done; [|by apply C2]. by rewrite dict_get_set, decide_False.
    + intros i Hi. apply (only_wait id s s1); [done| |by apply C3]. intros ->. eapply (NoDup_app (running s)) in C1 as (_ & C1 & _). by apply (C1 id).
  - apply (step_add s (s1 <| enc := e |>) t t' B id n b a); try done.
    + intros q i Hq Hi. simpl in Hq. rewrite lookup_alter_eq, Hr in Hq. simpl in Hq. injection Hq as <-.
    destruct Hres1 as [[-> _]|Hres1]; [by apply not_elem_of_nil in Hi|]. by eapply el_valid.
    + apply (on_objs _ _ _ Ho).
    + intros q Hq. simpl in Hq. rewrite lookup_alter_eq, Hr in Hq. simpl in Hq. injection Hq as <-. exact E11.
Qed.

Lemma step_next s t B : step_ok s t B → step_ok s (t <| req_index ::= Z.add 1 |>) B.
Proof.
  intros [T1 T2 T3 T4 T5 T6 T7 T8 TA TS T9 T10]. constructor; simpl; try done; [lia|]. intros i Hi.
  apply (take_le_in i (Z.to_nat (req_index t))); [lia|auto].
Qed.
Lemma unscheduled_at s t B ns extra id :
  core s ns extra → step_ok s t B → first_phase t → running s !! Z.to_nat (req_index t) = Some id → (id ∉ (num_scheduled_tokens t).*1).
Proof.
  intros Hc Ht [F1 F2] Hid Hin. rewrite (tk_sched _ _ _ Ht), F1, F2, app_nil_r in Hin. apply (tk_front _ _ _ Ht) in Hin.
  apply list_elem_of_lookup in Hin as [j Hj]. apply lookup_take_Some in Hj as [Hj Hlt].
  pose proof (co_nodup _ _ _ Hc) as Hnd. apply NoDup_app in Hnd as [Hnd _]. pose proof (NoDup_lookup _ _ _ _ Hnd Hj Hid). lia.
Qed.

Lemma running_loop_spec fuel s t B extra ts :
  Z.max 0 (len (running s) - req_index t) < Z.of_nat fuel → core s (num_scheduled_tokens t) extra → step_ok s t B → first_phase t →
  0 ≤ num_lookahead_tokens cfg → (need_mamba_block_aligned_split cfg = true → 0 < cache_block_size cfg) →
  ∃ t' s', running_loop cfg hci set_order fuel ts t s = (Ok t', s') ∧ core s' (num_scheduled_tokens t') extra ∧
    step_ok s' t' B ∧ first_phase t' ∧ keeps_static s s' ∧ pause_state s' = pause_state s ∧ rest s' = rest s ∧ quiet s t s' t'.
Proof.
  intros Hfuel Hc Ht Hf Hlook Hbs. revert s t Hfuel Hc Ht Hf. induction fuel as [|fuel IH]; intros s t Hfuel Hc Ht Hf; [lia|].
  cbn [running_loop]. rewrite run_get. case_bool; [|exists t, s; split_and!; try done; by apply quiet_same]. bool_to_prop.
  pose proof (tk_index _ _ _ Ht) as Hix. pose proof (len_nonneg (scheduled_running_reqs t)).
  destruct (lookup_lt_is_Some_2 (running s) (Z.to_nat (req_index t))) as [id Hid]; [unfold len in *; lia|].
  rewrite run_of_option, py_nth_nonneg, Hid by lia. pose proof (list_elem_of_lookup_2 _ _ _ Hid) as Hin.
  destruct (core_run_obj s _ extra id Hc Hin) as (r & Hr & Hrid). ostep Hr.
  assert (Hskip : ∀ s1, core s1 (num_scheduled_tokens t) extra → step_ok s1 t B → running s1 = running s → keeps_static s s1 →
     pause_state s1 = pause_state s → rest s1 = rest s → quiet s t s1 t →
     ∃ t' s', running_loop cfg hci set_order fuel ts (t <| req_index ::= Z.add 1 |>) s1 = (Ok t', s') ∧ core s' (num_scheduled_tokens t') extra ∧
       step_ok s' t' B ∧ first_phase t' ∧ keeps_static s s' ∧ pause_state s' = pause_state s ∧ rest s' = rest s ∧ quiet s t s' t').
  { intros s1 Hc1 Ht1 Hr1 Hs1 Hp1 Hf1 Hq1. destruct (IH s1 (t <| req_index ::= Z.add 1 |>)) as (t' & s' & He & G1 & G2 & G3 & G4 & G5 & G6 & G7); try done.
    - rewrite Hr1. simpl. lia.
    - by apply step_next.
    - exists t', s'. split_and!; try done; try congruence; [by transitivity s1|].
      eapply quiet_trans; [exact Hq1|]. exact G7. }
  destruct (awaits_last_token r); [by apply Hskip; try apply quiet_same|].
  assert (Hnk : id ∉ (num_scheduled_tokens t).*1) by (by eapply unscheduled_at).
  pose proof (proj2 (dict_get_none _ _) Hnk) as Hnone. pose proof (co_run _ _ _ Hc id Hin) as Hrun.
  destruct (running_num_bounds s _ id r (token_budget t) Hrun Hr Hnone) as (Hn1 & Hn2 & Hn5); [lia|].
  destruct (core_unscheduled s _ extra id r Hc Hin Hr Hnone) as (Hro & _ & _).
  destruct (choose_spec s id r (num_computed_tokens r) (running_num_new_tokens cfg r (token_budget t)) (encoder_compute_budget t) Hro (co_enc _ _ _ Hc)) as (a & n1 & bud & ext & e & Hch & He & Hn3 & Hres); [lia|].
  mstep Hch. destruct (aligned_split_spec (s <| enc := e |>) r n1 0) as (n2 & Hal & Hn4); [lia|done|]. mstep Hal.
  assert (Hc1 : core (s <| enc := e |>) (num_scheduled_tokens t) extra) by (by apply core_enc).
  assert (Ht1 : step_ok (s <| enc := e |>) t B) by (by apply (step_same s)).
  case_bool; bool_to_prop; [by apply Hskip; try apply keeps_static_eq; try apply quiet_same|]. rewrite run_get.
  assert (Hfr : id ∈ take (S (Z.to_nat (req_index t))) (running s)).
  { apply list_elem_of_lookup. exists (Z.to_nat (req_index t)). by rewrite lookup_take_lt by lia. }
  destruct (allocate_loop_spec (S (length (running (s <| enc := e |>)))) (s <| enc := e |>) t B extra id r n2 ts) as (o & t1 & s1 & Hal1 & Hc2 & Ht2 & Hf2 & Hst2 & Hp2 & Hfi2 & Hq2 & Hgap & Hbud & Hres2 & Hm); try done; [simpl; lia|lia|lia|].
  simpl in Hal1. mstep Hal1. simpl in Hgap, Hp2. change (rest s1 = rest s) in Hfi2. change (quiet s t s1 t1) in Hq2. destruct o as [b|].
  2: { exists t1, s1. split_and!; try done. }
  destruct Hm as (Hid1 & Hr1 & Hnk1 & Hcov1 & _).
  destruct (schedule_running_spec s1 t1 B extra id r n2 b a bud ext Hc2 Ht2 Hf2 Hid1 Hr1 Hnk1 Hcov1) as (t2 & s2 & Hs2 & Hc3 & Ht3 & Hf3 & Hrun3 & Hidx3 & _ & Hst3 & Hp3 & Hfi3 & Hq3); [lia|lia| |lia|].
  { destruct Hres as [?|?]; [by left|right; by apply Hres2]. }
  mstep Hs2. destruct (IH s2 t2) as (t' & s' & He' & G1 & G2 & G3 & G4 & G5 & G6 & G7); try done; [rewrite Hrun3; lia|].
  exists t', s'. split_and!; try done; try congruence; [transitivity s2; [|done]; by transitivity s1|].
  eapply quiet_trans; [exact Hq2|]. by eapply quiet_trans.
Qed.

(* --------------------------------------------------------------------- *)
(** *** The loop over the waiting requests                                *)

Lemma core_queues s s' ns extra extra' :
  core s ns extra → same_view s s' → running s' = running s → enc s' = enc s →
  waiting s' ++ skipped_waiting s' ++ extra' ≡ₚ waiting s ++ skipped_waiting s ++ extra → core s' ns extra'.
Proof.
  intros [C0 C1 C2 C3 C4 C5 C6 C7] Hv Hr He Hp. constructor; rewrite ?Hr, ?He; try done.
  - by rewrite Hp.
  - by rewrite Hp.
  - intros id Hid. apply (view_run s); auto.
  - intros id. rewrite Hp. intros Hid. apply (view_wait s); auto.
  - destruct Hv as (_ & _ & _ & ->). done.
  - destruct Hv as (_ & -> & _ & ->). done.
Qed.

Lemma select_spec s ns extra :
  core s ns extra → 0 < len (waiting s) ∨ 0 < len (skipped_waiting s) →
  ∃ w id ids, _select_waiting_queue_for_scheduling cfg s = Ok (Some w) ∧ ids_of w s = id :: ids.
Proof.
  intros Hc Hne. assert (Hkw : known s (waiting s)) by (apply wait_known; intros i Hi; apply (co_wait _ _ _ Hc), elem_of_app; by left).
  assert (Hks : known s (skipped_waiting s)) by (apply wait_known; intros i Hi; apply (co_wait _ _ _ Hc), elem_of_app; right; apply elem_of_app; by left).
  unfold _select_waiting_queue_for_scheduling. unfold len in Hne. destruct (policy cfg).
  - destruct (skipped_waiting s) as [|y k] eqn:Ek; [|by exists QSkipped, y, k].
    destruct (waiting s) as [|x l] eqn:El; [simpl in Hne; lia|by exists QWaiting, x, l].
  - destruct (waiting s) as [|x l] eqn:El, (skipped_waiting s) as [|y k] eqn:Ek.
    + simpl in Hne. lia.
    + by exists QSkipped, y, k.
    + by exists QWaiting, x, l.
    + destruct (q_pop s x l Hkw) as (rx & _ & _ & _ & _ & -> & _). destruct (q_pop s y k Hks) as (ry & _ & _ & _ & _ & -> & _).
      destruct (request_lt rx ry); [by exists QWaiting, x, l|by exists QSkipped, y, k].
Qed.
Lemma ids_known s ns extra w : core s ns extra → known s (ids_of w s).
Proof.
  intros Hc. apply wait_known. intros i Hi. apply (co_wait _ _ _ Hc). rewrite !elem_of_app. destruct w; simpl in Hi; tauto.
Qed.
Lemma queue_peek_spec s ns extra w id ids : core s ns extra → ids_of w s = id :: ids → queue_peek cfg w s = (Ok id, s).
Proof.
  intros Hc Hw. pose proof (ids_known _ _ _ w Hc) as Hk. rewrite Hw in Hk. unfold queue_peek. rewrite run_get, Hw.
  destruct (q_pop s id ids Hk) as (r & q & _ & Hid & _ & -> & _). rewrite run_of_res. unfold ret. by rewrite Hid.
Qed.
(** Popping the head of a queue. *)
Lemma queue_pop_spec s w id ids :
  known s (ids_of w s) → ids_of w s = id :: ids →
  ∃ ids', queue_pop cfg w s = (Ok id, set_ids w ids' s) ∧ ids' ≡ₚ ids.
Proof.
  intros Hk Hw. rewrite Hw in Hk. unfold queue_pop. rewrite run_get, Hw.
  destruct (q_pop s id ids Hk) as (r & q & -> & Hid & Hp & _). rewrite run_of_res. simpl. exists (q_ids q). unfold bind, put, ret. simpl. by rewrite Hid.
Qed.
Lemma set_ids_perm w ids' s id ids extra :
  ids_of w s = id :: ids → ids' ≡ₚ ids →
  id :: waiting (set_ids w ids' s) ++ skipped_waiting (set_ids w ids' s) ++ extra ≡ₚ waiting s ++ skipped_waiting s ++ extra.
Proof.
  intros Hw Hp. destruct w; simpl in *; rewrite Hp, Hw; [done|]. rewrite !app_assoc. simpl. solve_Permutation.
Qed.
Lemma set_ids_view w ids s : same_view s (set_ids w ids s) ∧ running (set_ids w ids s) = running s ∧ enc (set_ids w ids s) = enc s ∧
  pause_state (set_ids w ids s) = pause_state s ∧ rest (set_ids w ids s) = rest s.
Proof. by destruct w. Qed.
Lemma set_ids_len w ids' s id ids : ids_of w s = id :: ids → ids' ≡ₚ ids →
  (length (waiting (set_ids w ids' s)) + length (skipped_waiting (set_ids w ids' s)) + 1 = length (waiting s) + length (skipped_waiting s))%nat.
Proof. intros Hw Hp%Permutation_length. destruct w; simpl in *; rewrite Hw; simpl; lia. Qed.

Lemma set_ids_sub w ids' s id ids i : ids_of w s = id :: ids → ids' ≡ₚ ids →
  i ∈ waiting (set_ids w ids' s) ++ skipped_waiting (set_ids w ids' s) → i ∈ waiting s ++ skipped_waiting s.
Proof.
  intros Hw Hp Hi. pose proof (set_ids_perm w ids' s id ids [] Hw Hp) as HP. rewrite !app_nil_r in HP. rewrite <-HP. by right.
Qed.

Lemma head_wait s ns extra w id ids : core s ns extra → ids_of w s = id :: ids → id ∈ waiting s ++ skipped_waiting s ++ extra.
Proof. intros Hc Hw. rewrite !elem_of_app. destruct w; simpl in Hw; rewrite Hw; [left; by left|right; left; by left]. Qed.

(** Setting a request aside for this step. *)
Lemma skip_spec s a ns w id ids :
  core s ns (step_skipped_waiting a) → ids_of w s = id :: ids →
  ∃ a' s', skip_request cfg w id a s = (Ok a', s') ∧ core s' ns (step_skipped_waiting a') ∧ a_step a' = a_step a ∧
    scheduled_loras a' = scheduled_loras a ∧ same_view s s' ∧ running s' = running s ∧
    pause_state s' = pause_state s ∧ rest s' = rest s ∧
    (∀ i, i ∈ waiting s' ++ skipped_waiting s' → i ∈ waiting s ++ skipped_waiting s) ∧
    (length (waiting s') + length (skipped_waiting s') + 1 = length (waiting s) + length (skipped_waiting s))%nat.
Proof.
  intros Hc Hw. destruct (queue_pop_spec s w id ids (ids_known _ _ _ w Hc) Hw) as (ids' & He & Hp). unfold skip_request. mstep He. rewrite run_get.
  destruct (co_wait _ _ _ Hc id (head_wait _ _ _ _ _ _ Hc Hw)) as (r & Hr & _). destruct (set_ids_view w ids' s) as (Hv & Hrun & Hen & Hps & Hfi).
  assert (Hr' : objs (set_ids w ids' s) !! id = Some r) by (destruct Hv as [-> _]; apply (ro_obj _ _ _ Hr)). ostep Hr'.
  eexists _, _. split; [reflexivity|]. simpl. split_and!; try done; [|intros i; by eapply set_ids_sub|by eapply set_ids_len].
  apply (core_queues s _ ns (step_skipped_waiting a)); try done. rewrite q_prepend_perm.
  - rewrite (ro_id _ _ _ Hr). rewrite <-(set_ids_perm w ids' s id ids _ Hw Hp). rewrite !app_assoc. symmetry. apply Permutation_middle.
  - intros i Hi. destruct (co_wait _ _ _ Hc i) as (q & Hq & _); [rewrite !elem_of_app; tauto|]. exists q. destruct Hv as [-> _].
    split; [apply (ro_obj _ _ _ Hq)|apply (ro_id _ _ _ Hq)].
Qed.

(** A waiting request changes, nothing else. *)
Lemma core_wait_upd s s' ns extra id :
  core s ns extra → only id s s' → id ∈ waiting s ++ skipped_waiting s ++ extra → wait_ok s' id →
  running s' = running s → waiting s' = waiting s → skipped_waiting s' = skipped_waiting s → kl_inv (kv s') → el_inv (enc s') →
  core s' ns extra.
Proof.
  intros [C0 C1 C2 C3 C4 C5 C6 C7] Ho Hid Hw Hr H1 H2 Hk He. constructor; rewrite ?Hr, ?H1, ?H2; try done.
  - intros i Hi. apply (only_run id s s' ns); auto. intros ->. apply NoDup_app in C1 as (_ & C1 & _). by apply (C1 id).
  - intros i Hi. destruct (decide (i = id)) as [->|Hne]; [done|]. apply (only_wait id s s'); auto.
  - apply (only_unknown id s s'); try done. destruct (C3 id Hid) as (? & [] & _). done.
Qed.

(** A request that may have left its blocked state. *)
Definition schedulable (r : Request) : Prop := status r = WAITING ∨ status r = PREEMPTED.
Definition blocked_check (r : Request) (id : string) : M ST bool :=
  if _is_blocked_waiting_status (status r)
  then ok <- _try_promote_blocked_waiting_request no_connector grammar_ready id ;; ret (negb ok) else ret false.
Lemma promote_spec s ns extra id r :
  core s ns extra → id ∈ waiting s ++ skipped_waiting s ++ extra → objs s !! id = Some r →
  ∃ b s' r', blocked_check r id s = (Ok b, s') ∧ core s' ns extra ∧ running s' = running s ∧ waiting s' = waiting s ∧
    skipped_waiting s' = skipped_waiting s ∧ keeps_static s s' ∧ pause_state s' = pause_state s ∧
    rest s' = rest s ∧ objs s' !! id = Some r' ∧ same_static r r' ∧ enc s' = enc s ∧ (b = false → schedulable r') ∧
    (∀ i, i ≠ id → objs s' !! i = objs s !! i) ∧ (status r' = PREEMPTED → r' = r).
Proof.
  intros Hc Hid Hr. destruct (co_wait _ _ _ Hc id Hid) as (r0 & Hro & Hst & Hcomp & Hcov & Hpark). pose proof (ro_obj _ _ _ Hro). assert (r0 = r) as -> by congruence.
  unfold blocked_check, waiting_status, schedulable in *. destruct (status r) eqn:Hs; simpl; try done.
  - exists false, s, r. split_and!; try done. by left.
  - unfold _try_promote_blocked_waiting_request. rewrite bind_assoc, run_get, bind_assoc. ostep Hr. rewrite Hs. destruct (use_structured_output r && grammar_ready r); simpl.
    + unfold upd. rewrite bind_assoc, run_modify, run_ret. set (f := λ r : Request, r <| status := WAITING |>). set (s1 := s <| objs ::= alter f id |>).
      assert (Hr1 : objs s1 !! id = Some (f r)) by (unfold s1; simpl; by rewrite lookup_alter_eq, Hr).
      assert (Ho : only id s s1) by (constructor; try done; simpl; intros i Hi; by rewrite lookup_alter_ne).
      exists false, s1, (f r). split_and!; try done; [|by apply (only_static id s s1 r (f r))|by left|apply (on_objs _ _ _ Ho)].
      apply (core_wait_upd s s1 ns extra id); try done; [|apply (co_kv _ _ _ Hc)|apply (co_enc _ _ _ Hc)]. exists (f r). split_and!; try done; [|apply Hcomp..].
      apply (req_static s s1 id r); try done. apply (ro_placeholders _ _ _ Hro).
    + exists true, s, r. by split_and!.
  - unfold _try_promote_blocked_waiting_request. rewrite bind_assoc, run_get, bind_assoc. ostep Hr. rewrite Hs.
    exists true, s, r. split_and!; try done. destruct (streaming_queue r) as [[|]|]; try done.
  - exists false, s, r. split_and!; try done. by right.
Qed.

(** The result of the lookup: the request can be given blocks for it. *)
Definition hit_ok s id (r : Request) (h : Hit) : Prop :=
  h_external h = 0 ∧ h_async h = false ∧ 0 ≤ h_computed h < num_tokens r ∧ h_computed h = num_computed_tokens r + h_local h ∧
  ((num_computed_tokens r = 0 ∧ kl_hit (kv s) r (h_blocks h) (h_local h) ∧ kl_covers (kv s) id 0) ∨
   (0 < num_computed_tokens r ∧ h_local h = 0 ∧ h_blocks h = EmptyKVCacheBlocks ∧ kl_covers (kv s) id (num_computed_tokens r))).
Lemma lookup_spec s ns extra id r :
  core s ns extra → id ∈ waiting s ++ skipped_waiting s ++ extra → objs s !! id = Some r →
  ∃ h s', lookup_computed no_connector id s = (Ok (Some h), s') ∧ core s' ns extra ∧ running s' = running s ∧ waiting s' = waiting s ∧
    skipped_waiting s' = skipped_waiting s ∧ objs s' = objs s ∧ pause_state s' = pause_state s ∧
    rest s' = rest s ∧ enc s' = enc s ∧ hit_ok s' id r h.
Proof.
  intros Hc Hid Hr. destruct (co_wait _ _ _ Hc id Hid) as (r0 & Hro & Hst & Hcomp & Hcov & Hpark). pose proof (ro_obj _ _ _ Hro). assert (r0 = r) as -> by congruence.
  pose proof (ro_id _ _ _ Hro) as Hidr. unfold lookup_computed. ostep Hr. case_bool; bool_to_prop.
  2: { eexists _, s. split; [reflexivity|]. split_and!; try done. unfold hit_ok. simpl. split_and!; try done; try lia. right. split_and!; try done. lia. }
  rewrite E0 in Hcov, Hpark. destruct (kl_lookup (kv s) r (co_kv _ _ _ Hc) (ro_kv _ _ _ Hro) E0) as (b & n & k & Hk & Hkv & Hn & Hhit & Hkeep); [by rewrite Hidr|lia|].
  kstep Hk. cbv beta iota. rewrite run_ret, run_assert. rewrite (proj2 (Z.leb_le (n + 0) (num_tokens r))) by lia. rewrite run_get.
  assert (Hgo : ∃ s', (match prefill_stats (s <| kv := k |>) !! id with
         | Some _ => assert_ (n + 0 <=? num_prompt_tokens r) ;;
             ps <- of_res (PrefillStats_set (num_prompt_tokens r) n 0) ;;
             put (s <| kv := k |> <| prefill_stats ::= insert id ps |>)
         | None => ret tt end) (s <| kv := k |>) = (Ok tt, s') ∧
     (s' = s <| kv := k |> ∨ (is_Some (prefill_stats s !! id) ∧ ∃ ps, s' = s <| kv := k |> <| prefill_stats ::= insert id ps |>))).
  { simpl. destruct (prefill_stats s !! id) as [p|] eqn:Hp; [|eexists; split; [done|by left]].
    pose proof (ro_prefill _ _ _ Hro ltac:(rewrite Hp; by eexists)). rewrite run_assert, (proj2 (Z.leb_le _ _)) by lia. rewrite run_of_res.
    unfold PrefillStats_set. cbv zeta. rewrite (proj2 (Z.leb_le _ _)) by lia. eexists. split; [reflexivity|]. right. split; [by eexists|by eexists]. }
  destruct Hgo as (s1 & Hgo & Hs1). mstep Hgo. eexists _, s1. split; [reflexivity|].
  assert (Hob : objs s1 = objs s ∧ running s1 = running s ∧ waiting s1 = waiting s ∧ skipped_waiting s1 = skipped_waiting s ∧ kv s1 = k ∧ enc s1 = enc s ∧ s_requests s1 = s_requests s ∧ pause_state s1 = pause_state s ∧ rest s1 = rest s)
    by (destruct Hs1 as [->|[_ [ps ->]]]; done).
  destruct Hob as (B1 & B2 & B3 & B4 & B5 & B6 & B7 & B8 & B9).
  assert (Hpre : ∀ i, is_Some (prefill_stats s1 !! i) → is_Some (prefill_stats s !! i)).
  { destruct Hs1 as [->|[Hp [ps ->]]]; [done|]. intros i. simpl. destruct (decide (i = id)) as [->|Hne]; [done|]. by rewrite lookup_insert_ne. }
  assert (Hcov1 : kl_covers (kv s1) id 0) by (rewrite B5; by apply Hkeep). split_and!; try done.
  - apply (core_wait_upd s s1 ns extra id); try done; [| |by rewrite B5|rewrite B6; apply (co_enc _ _ _ Hc)].
    + constructor; [by rewrite B1|done| |intros i m _; rewrite B5; apply Hkeep].
      destruct Hs1 as [->|[Hp [ps ->]]]; [done|]. intros i Hi. simpl. by rewrite lookup_insert_ne.
    + exists r. rewrite E0. split_and!; try done; try lia. destruct Hro. constructor; try done; [by rewrite B1|by rewrite B7|auto].
  - unfold hit_ok. simpl. rewrite B5 in *. split_and!; try done; try lia. by left.
Qed.

Lemma plan_spec s id r h t :
  req_ok s id r → el_inv (enc s) → h_external h = 0 → h_async h = false → 0 ≤ h_computed h < num_tokens r → 0 < token_budget t →
  (need_mamba_block_aligned_split cfg = true → 0 < cache_block_size cfg) →
  ∃ o e, plan_waiting cfg hci r h t s = (Ok o, s <| enc := e |>) ∧ el_inv e ∧
    match o with
    | None => True
    | Some (a, n, b, ext) => 0 < n ≤ token_budget t ∧ h_computed h + n ≤ num_tokens r ∧ can_reserve e r a ext
    end.
Proof.
  intros Hr He Hx Ha Hc Hb Hbs. unfold plan_waiting. rewrite Ha, bind_assoc. unfold waiting_num_new_tokens. cbv zeta.
  set (m := if (0 <? long_prefill_token_threshold cfg) && (long_prefill_token_threshold cfg <? num_tokens r - h_computed h)
            then long_prefill_token_threshold cfg else num_tokens r - h_computed h).
  assert (Hm : 0 < m ≤ num_tokens r - h_computed h) by (unfold m; case_bool; bool_to_prop; lia).
  destruct (negb (enable_chunked_prefill cfg) && (token_budget t <? m)).
  { exists None, (enc s). rewrite enc_id. by split_and!. }
  rewrite bind_assoc, run_assert, (proj2 (Z.ltb_lt _ _)) by lia. rewrite run_ret.
  destruct (choose_spec s id r (h_computed h) (Z.min m (token_budget t)) (encoder_compute_budget t) Hr He) as (a & n & b & ext & e & Hch & He' & Hn & Hres); [lia|].
  rewrite bind_assoc. mstep Hch. simpl. destruct (has_encoder_inputs r && (n =? 0)) eqn:Hz.
  { exists None, e. by split_and!. }
  rewrite run_ret, Hx. destruct (aligned_split_spec (s <| enc := e |>) r n (h_local h)) as (n' & Hal & Hn'); [lia|done|]. mstep Hal.
  assert (Hpos : has_encoder_inputs r = false → n = Z.min m (token_budget t)).
  { intros Hno. unfold choose_encoder_inputs in Hch. rewrite Hno in Hch. by injection Hch. }
  destruct (need_mamba_block_aligned_split cfg && (n' =? 0)) eqn:Hz'.
  { exists None, e. by split_and!. }
  eexists _, e. split; [reflexivity|]. split; [done|]. split_and!; try done; try lia.
  assert (0 < n) by (destruct (has_encoder_inputs r); [simpl in Hz; bool_to_prop; lia|rewrite Hpos by done; lia]).
  unfold aligned_split in Hal. destruct (need_mamba_block_aligned_split cfg); [simpl in Hz'; bool_to_prop; lia|]. injection Hal. lia.
Qed.

Lemma step_start s s' t t' B id n b a :
  step_ok s t B → running s' = running s ++ [id] → keeps_static s s' → (id ∉ (num_scheduled_tokens t).*1) → 0 < n ≤ token_budget t →
  num_scheduled_tokens t' = dict_set id n (num_scheduled_tokens t) → scheduled_running_reqs t' = scheduled_running_reqs t →
  scheduled_new_reqs t' ++ scheduled_resumed_reqs t' ≡ₚ id :: scheduled_new_reqs t ++ scheduled_resumed_reqs t →
  req_to_new_blocks t' = dict_set id b (req_to_new_blocks t) → token_budget t' = token_budget t - n → req_index t' = req_index t →
  (∀ x, x ∈ scheduled_encoder_inputs t' → x ∈ scheduled_encoder_inputs t ∨ x = (id, a)) →
  (∀ r i, objs s' !! id = Some r → i ∈ a → ∃ m, get_num_encoder_embeds r i = Ok m) →
  (∀ i, i ≠ id → objs s' !! i = objs s !! i) → scheduled_spec_decode_tokens t' = scheduled_spec_decode_tokens t →
  (∀ r, objs s' !! id = Some r → num_computed_tokens r + n ≤ num_tokens r + num_output_placeholders r) → step_ok s' t' B.
Proof.
  intros Ht Hrun Hst Hnew Hn E1 E2 E3 E5 E6 E7 E8 E9 E10 E11 E12.
  assert (Hin : ∀ i m, (i, m) ∈ num_scheduled_tokens t → i ≠ id) by (intros i m Him ->; by apply Hnew, (list_elem_of_fmap_2 fst _ (id, m))).
  apply (step_static s (s' <| running := running s |>)) in Ht; [|done|by symmetry|intros i [[i' m] [-> Him]]%list_elem_of_fmap_1; eapply E10, Hin; exact Him].
  destruct Ht as [T1 T2 T3 T4 T5 T6 T7 T8 TA TS T9 T10]. rewrite (dict_set_new _ _ _ Hnew) in E1. simpl in *.
  constructor; rewrite ?E1, ?E2, ?E5, ?E6, ?E7, ?E11, ?Hrun; try done; try lia.
  - rewrite fmap_app. apply NoDup_app. split_and!; [done| |apply NoDup_singleton]. intros i Hi ->%list_elem_of_singleton. done.
  - rewrite fmap_app, T2, E3. simpl. solve_Permutation.
  - intros i. rewrite fmap_app, !elem_of_app. simpl. rewrite list_elem_of_singleton. rewrite ?list_elem_of_singleton. intros [?| ->]; [left; auto|by right].
  - intros i m. rewrite elem_of_app, list_elem_of_singleton. intros [?|[= -> ->]]; [eauto|lia].
  - rewrite dict_sum_app. change (dict_sum [(id, n)]) with (n + 0). lia.
  - intros i. rewrite fmap_app, elem_of_app, dict_get_set. simpl. rewrite list_elem_of_singleton. case_decide; [by eexists|]. intros [?|?]; [auto|done].
  - intros i ids q j Hx. apply E8 in Hx as [Hx|[= -> ->]]; [by apply (T8 i ids)|apply E9].
  - intros i m q. rewrite elem_of_app, list_elem_of_singleton. intros [Hm|[= -> ->]] Hq; [by apply TA|].
    unfold ahead. rewrite (proj2 (dict_get_none _ _)); [auto|]. by intros Hi%(proj2 TS).
  - destruct TS as [TS1 TS2]. split; [done|]. intros i Hi. rewrite fmap_app. apply elem_of_app. auto.
  - intros i Hi. rewrite take_app. apply elem_of_app. left. auto.
Qed.

(** A waiting request is moved to the end of the running list. *)
Lemma core_start s s' ns ns' extra id :
  core s ns extra → only id s s' → running s' = running s ++ [id] →
  id :: waiting s' ++ skipped_waiting s' ++ extra ≡ₚ waiting s ++ skipped_waiting s ++ extra → run_ok s' ns' id →
  (∀ i, i ≠ id → dict_get i ns' = dict_get i ns) → kl_inv (kv s') → el_inv (enc s') → len (running s) < max_num_running_reqs cfg →
  core s' ns' extra.
Proof.
  intros [C0 C1 C2 C3 C4 C5 C6 C7] Ho Hrun Hp Hr Hns Hk He Hlt. rewrite <-Hp in C0, C1. rewrite <-Permutation_middle in C1. apply NoDup_cons in C1 as [N1 N2].
  rewrite elem_of_app in N1. constructor; rewrite ?Hrun; try done.
  - by rewrite <-app_assoc.
  - rewrite <-app_assoc. simpl. rewrite <-Permutation_middle. apply NoDup_cons. rewrite elem_of_app. done.
  - intros i [Hi| ->%list_elem_of_singleton]%elem_of_app; [|done]. assert (i ≠ id) by (intros ->; tauto). apply (only_run id s s' ns); auto.
  - intros i Hi. apply (only_wait id s s'); [done|intros ->; tauto|]. apply C3. rewrite <-Hp. by right.
  - rewrite len_app. unfold len at 2. simpl. lia.
  - apply (only_unknown id s s'); try done. destruct (C3 id) as (? & [] & _); [rewrite <-Hp; by left|done].
Qed.

Lemma alter_same id (m : gmap string Request) : alter (λ r, r) id m = m.
Proof.
  apply map_eq. intros j. destruct (decide (j = id)) as [->|]; [rewrite lookup_alter_eq; by destruct (m !! id)|by rewrite lookup_alter_ne].
Qed.
(** The entry of an admitted request in the step. *)
Record admitted (t t' : Step) (id : string) (r : Request) (n : Z) (inputs : list Z) : Prop := {
  ad_tokens : num_scheduled_tokens t' = dict_set id n (num_scheduled_tokens t);
  ad_running : scheduled_running_reqs t' = scheduled_running_reqs t;
  ad_lists : scheduled_new_reqs t' ++ scheduled_resumed_reqs t' ≡ₚ id :: scheduled_new_reqs t ++ scheduled_resumed_reqs t;
  ad_resumed : ∀ i, i ∈ scheduled_resumed_reqs t' → i ∈ scheduled_resumed_reqs t ∨ (i = id ∧ status r = PREEMPTED);
  ad_blocks : ∃ b, req_to_new_blocks t' = dict_set id b (req_to_new_blocks t);
  ad_budget : token_budget t' = token_budget t - n;
  ad_index : req_index t' = req_index t;
  ad_inputs : ∀ x, x ∈ scheduled_encoder_inputs t' → x ∈ scheduled_encoder_inputs t ∨ x = (id, inputs);
  ad_spec : scheduled_spec_decode_tokens t' = scheduled_spec_decode_tokens t;
}.
Lemma start_spec s id r h a inputs n bud ext ts :
  objs s !! id = Some r → schedulable r → el_inv (enc s) → can_reserve (enc s) r inputs ext →
  ∃ f e a', start_request cfg id ts h (inputs, n, bud, ext) a s =
      (Ok a', s <| running ::= λ l, l ++ [id] |> <| objs ::= alter f id |> <| enc := e |>) ∧
    same_static r (f r) ∧ status (f r) = RUNNING ∧ num_computed_tokens (f r) = h_computed h ∧
    num_output_placeholders (f r) = num_output_placeholders r ∧ el_inv e ∧
    step_skipped_waiting a' = step_skipped_waiting a ∧ admitted (a_step a) (a_step a') id r n inputs.
Proof.
  intros Hr Hs He Hres. set (g := λ r : Request, if sched_log_stats cfg then r <| events ::= λ l, l ++ [(EvScheduled, ts)] |> else r).
  set (f := λ r : Request, g r <| status := RUNNING |> <| num_computed_tokens := h_computed h |>).
  set (s1 := s <| running ::= λ l, l ++ [id] |> <| objs ::= alter g id |>).
  set (s2 := s <| running ::= λ l, l ++ [id] |> <| objs ::= alter f id |>).
  assert (Hf : same_static r (f r) ∧ num_output_placeholders (f r) = num_output_placeholders r ∧ status (g r) = status r)
    by (unfold f, g; by destruct (sched_log_stats cfg)).
  destruct Hf as (Hf1 & Hf2 & Hg). assert (Hr1 : objs s1 !! id = Some (g r)) by (unfold s1; simpl; by rewrite lookup_alter_eq, Hr).
  assert (Hr2 : objs s2 !! id = Some (f r)) by (unfold s2; simpl; by rewrite lookup_alter_eq, Hr).
  destruct (reserve_spec s2 id (f r) inputs ext Hr2 He) as (e & Hre & Hei).
  { destruct Hres as [?|?]; [by left|right; by eapply el_resv_static]. }
  assert (Hlog : (when (sched_log_stats cfg) do upd id (λ r, r <| events ::= λ l, l ++ [(EvScheduled, ts)] |>))
                   (s <| running ::= λ l, l ++ [id] |>) = (Ok tt, s1)).
  { unfold s1, g, upd. destruct (sched_log_stats cfg); [done|]. unfold ret. do 2 f_equal. cbv [setter set_objs]. simpl.
    rewrite alter_same. by destruct s. }
  exists f, e. unfold start_request. rewrite run_modify. mstep Hlog. ostep Hr1. rewrite Hg.
  assert (Hupd : ∀ {B} (k : unit → M ST B), bind (upd id (λ r, r <| status := RUNNING |> <| num_computed_tokens := h_computed h |>)) k s1 = k tt s2).
  { intros B k. unfold upd. rewrite run_modify. f_equal. unfold s1, s2. cbv [setter set_objs]. simpl.
    by rewrite alter_twice. }
  destruct Hs as [Hs|Hs]; rewrite Hs, run_ret, run_get, Hupd; mstep Hre; eexists; (split; [reflexivity|]); split_and!; try done;
    destruct inputs; constructor; simpl; try done; try (by eexists); try (intros x; by left); try (intros ? [?|?]%dict_set_sub; tauto).
  all: first [solve_Permutation|intros i; rewrite elem_of_app, list_elem_of_singleton; tauto].
Qed.

(** Requests resumed in a step were not part of the previous one. *)
Definition prev_ok s (ids : list string) : Prop := ∀ id r, id ∈ ids → objs s !! id = Some r → status r = PREEMPTED →
  (id ∉ prev_step_scheduled_req_ids s).
Record loop_ok s (a : Admission) (B : Z) : Prop := {
  lo_core : core s (num_scheduled_tokens (a_step a)) (step_skipped_waiting a);
  lo_step : step_ok s (a_step a) B;
  lo_prev : prev_ok s (waiting s ++ skipped_waiting s);
  lo_resumed : ∀ id, id ∈ scheduled_resumed_reqs (a_step a) → (id ∉ prev_step_scheduled_req_ids s);
}.
Lemma embeds_ok s r a ext : can_reserve (enc s) r a ext → ∃ z, sum_embeds (K := K) (C := unit) r a s = (Ok z, s).
Proof.
  intros Hres. unfold sum_embeds. destruct (map_m_embeds r a s) as [l Hl]; [|mstep Hl; by eexists].
  intros i Hi. destruct Hres as [[-> _]|Hres]; [by apply not_elem_of_nil in Hi|]. by eapply el_valid.
Qed.
Lemma alloc_waiting s id r h n look z fit :
  req_ok s id r → kl_inv (kv s) → hit_ok s id r h → 0 < n → h_computed h + n ≤ num_tokens r → 0 ≤ look →
  ∃ o k, kv_allocate_slots r n (h_local h) (Some (h_blocks h)) look (h_external h) (h_async h) z fit (kv s) = (Ok o, k) ∧ kl_inv k ∧
    (∀ i m, i ≠ id → kl_covers (kv s) i m → kl_covers k i m) ∧
    kl_covers k id (match o with Some _ => h_computed h + n | None => num_computed_tokens r end).
Proof.
  intros Hr Hk (-> & -> & Hb & Hcomp & Hh) Hn Hmax Hlook. pose proof (ro_id _ _ _ Hr) as Hid. pose proof (ro_tokens _ _ _ Hr). destruct Hh as [(H0 & Hh & Hcov)|(Hpos & H0 & -> & Hcov)].
  - destruct (kl_alloc_hit (kv s) r n (h_blocks h) (h_local h) look z fit Hk (ro_kv _ _ _ Hr) H0) as (o & k & He & Hk' & Hoth & Hc); try done; try lia; [by rewrite Hid|].
    exists o, k. rewrite Hid in *. split_and!; try done. destruct o; [|by rewrite H0]. by replace (h_computed h) with (h_local h) by lia.
  - destruct (kl_alloc_more (kv s) r n (Some EmptyKVCacheBlocks) look z fit Hk (ro_kv _ _ _ Hr) Hpos) as (o & k & He & Hk' & Hoth & Hc); try done; try lia; [by rewrite Hid|by right|].
    exists o, k. rewrite Hid, H0 in *. split_and!; try done. destruct o; [|done]. by replace (h_computed h) with (num_computed_tokens r) by lia.
Qed.

Lemma loop_frame s s' a B :
  loop_ok s a B → core s' (num_scheduled_tokens (a_step a)) (step_skipped_waiting a) → running s' = running s → objs s' = objs s →
  waiting s' = waiting s → skipped_waiting s' = skipped_waiting s → rest s' = rest s → loop_ok s' a B.
Proof.
  intros [L1 L2 L3 L4] Hc H1 H2 H3 H4 [= _ H5 _]. constructor; [done|by apply (step_same s)|..].
  - intros id r. rewrite H2, H3, H4, H5. apply L3.
  - by rewrite H5.
Qed.
Lemma admit_spec s a B w id ids r h inputs n bud ext ts :
  loop_ok s a B → ids_of w s = id :: ids → objs s !! id = Some r → schedulable r → hit_ok s id r h →
  len (running s) < max_num_running_reqs cfg → 0 < n ≤ token_budget (a_step a) → h_computed h + n ≤ num_tokens r →
  can_reserve (enc s) r inputs ext → 0 ≤ num_lookahead_tokens cfg →
  ∃ a' b s', admit_request cfg no_connector set_order w id ts h (inputs, n, bud, ext) a s = (Ok (a', b), s') ∧ loop_ok s' a' B ∧
    keeps_static s s' ∧ pause_state s' = pause_state s ∧ rest s' = rest s ∧
    (b = true → (length (waiting s') + length (skipped_waiting s') + 1 = length (waiting s) + length (skipped_waiting s))%nat).
Proof.
  intros HL Hw Hr Hs Hh Hlt Hn Hmax Hres Hlook. pose proof (lo_core _ _ _ HL) as Hc. pose proof (head_wait _ _ _ _ _ _ Hc Hw) as Hin.
  destruct (co_wait _ _ _ Hc id Hin) as (r0 & Hro & Hst & Hcomp & Hcov & Hpark). pose proof (ro_obj _ _ _ Hro). assert (r0 = r) as -> by congruence.
  unfold admit_request. ostep Hr. cbv zeta. set (look := if num_computed_tokens r =? 0 then 0 else num_lookahead_tokens cfg).
  assert (Hz : ∃ z, (if is_encoder_decoder && has_encoder_inputs r then sum_embeds r inputs else ret 0) s = (Ok z, s)).
  { destruct (is_encoder_decoder && _); [by eapply embeds_ok|by eexists]. }
  destruct Hz as [z Hz]. mstep Hz.
  destruct (alloc_waiting s id r h n look z (reserve_full_isl cfg) Hro (co_kv _ _ _ Hc) Hh) as (o & k & Hk & Hkv & Hoth & Hc1); try done; [lia|unfold look; case_bool; lia|].
  kstep Hk. destruct o as [b|].
  2: { set (s1 := s <| kv := k |>). assert (Hfree : ∃ e, (when (has_encoder_inputs r) do on_enc (enc_free set_order r)) s1 = (Ok tt, s1 <| enc := e |>) ∧ el_inv e).
       { destruct (has_encoder_inputs r); [|exists (enc s); split; [by destruct s|apply (co_enc _ _ _ Hc)]].
         destruct (el_free (enc s) r (co_enc _ _ _ Hc) (ro_enc _ _ _ Hro)) as (e & He & Hei & _). exists e. split; [by apply on_enc_ok|done]. }
       destruct Hfree as (e & He & Hei). mstep He. eexists _, _, _. split; [reflexivity|]. split_and!; try done; [|by apply keeps_static_eq].
       apply (loop_frame s); try done. apply (core_wait_upd s _ _ _ id); try done. exists r. split_and!; try done; try lia. by destruct Hro. }
  unfold connector_after_alloc. rewrite run_ret. set (s1 := s <| kv := k |>).
  destruct (queue_pop_spec s1 w id ids) as (ids' & Hpop & Hperm); [apply (ids_known _ _ _ w Hc)|done|]. mstep Hpop.
  destruct (set_ids_view w ids' s1) as ((V1 & V2 & V3 & V4) & Hrun & Hen & Hps & Hrest). set (s2 := set_ids w ids' s1) in *.
  change (objs s2 = objs s) in V1. change (s_requests s2 = s_requests s) in V2. change (prefill_stats s2 = prefill_stats s) in V3.
  change (kv s2 = k) in V4. change (running s2 = running s) in Hrun. change (enc s2 = enc s) in Hen.
  destruct Hh as (Hx & Has & Hhc & _ & _). rewrite Has.
  destruct (start_spec s2 id r h a inputs n bud ext ts) as (f & e & a' & Hst1 & Hf1 & Hf2 & Hf3 & Hf4 & Hei & Hsk & Had); [by rewrite V1|done|rewrite Hen; apply (co_enc _ _ _ Hc)|by rewrite Hen|].
  mstep Hst1. eexists a', true, _. split; [reflexivity|]. set (s3 := s2 <| running ::= _ |> <| objs ::= _ |> <| enc := e |>).
  assert (Hr3 : objs s3 !! id = Some (f r)) by (unfold s3; simpl; by rewrite V1, lookup_alter_eq, Hr).
  assert (Hrun3 : running s3 = running s ++ [id]) by (unfold s3; simpl; by rewrite Hrun).
  assert (Hlists : waiting s3 = waiting s2 ∧ skipped_waiting s3 = skipped_waiting s2) by done. destruct Hlists as [W1 W2].
  assert (Ho : only id s s3).
  { constructor; unfold s3; simpl; [intros i Hi; by rewrite V1, lookup_alter_ne|by rewrite V2|by rewrite V3|rewrite V4; auto]. }
  assert (Hperm3 : id :: waiting s3 ++ skipped_waiting s3 ++ step_skipped_waiting a ≡ₚ waiting s ++ skipped_waiting s ++ step_skipped_waiting a).
  { rewrite W1, W2. apply (set_ids_perm w ids' s1 id ids); done. }
  pose proof (lo_step _ _ _ HL) as Hstep. assert (Hrest3 : rest s3 = rest s) by exact Hrest. injection Hrest3 as _ Hprev3 _.
  change (prev_step_scheduled_req_ids s3 = prev_step_scheduled_req_ids s) in Hprev3.
  assert (Hnk : id ∉ (num_scheduled_tokens (a_step a)).*1).
  { intros Hk'%(tk_in _ _ _ Hstep). pose proof (co_nodup _ _ _ Hc) as Hnd. apply NoDup_app in Hnd as (_ & Hnd & _). by apply (Hnd id). }
  pose proof (only_static id s s3 r (f r) Ho Hr Hr3 Hf1) as Hks.
  split_and!; try done; [|intros _; rewrite W1, W2; apply (set_ids_len w ids' s1 id ids); done].
  destruct Had as [A1 A2 A3 A4 [bb A5] A6 A7 A8 A9]. constructor.
  - rewrite Hsk. apply (core_start s s3 (num_scheduled_tokens (a_step a)) _ _ id); try done; rewrite ?A1.
    + exists (f r). unfold sched_of. rewrite dict_get_set, decide_True by done. simpl. pose proof (ro_tokens _ _ _ Hro). rewrite V4. split_and!; try done; try lia.
      * apply (req_static s s3 id r); try done; [unfold placeholders_ok; rewrite Hf4; apply (ro_placeholders _ _ _ Hro)|]. unfold s3. simpl. by rewrite V3.
      * by rewrite Hf3.
    + intros i Hi. by rewrite dict_get_set, decide_False.
    + unfold s3. simpl. by rewrite V4.
  - apply (step_start s s3 (a_step a) (a_step a') B id n bb inputs); try done.
    + intros q i Hq Hi. rewrite Hr3 in Hq. injection Hq as <-. rewrite (static_embeds r (f r)) by done.
      destruct Hres as [[-> _]|Hres]; [by apply not_elem_of_nil in Hi|]. by eapply el_valid.
    + apply (on_objs _ _ _ Ho).
    + intros q Hq. rewrite Hr3 in Hq. injection Hq as <-. rewrite Hf3, Hf4, (static_tokens r (f r)) by done. pose proof (proj1 (ro_placeholders _ _ _ Hro)). lia.
  - intros i q Hi Hq Hpre. rewrite Hprev3. assert (Hne : i ≠ id).
    { intros ->. rewrite Hr3 in Hq. injection Hq as <-. congruence. }
    rewrite (on_objs _ _ _ Ho) in Hq by done. apply (lo_prev _ _ _ HL i q); try done.
    rewrite W1, W2 in Hi. by apply (set_ids_sub w ids' s1 id ids).
  - intros i Hi. rewrite Hprev3. apply A4 in Hi as [Hi|[-> Hi]]; [by apply (lo_resumed _ _ _ HL)|].
    apply (lo_prev _ _ _ HL id r); try done. destruct w; simpl in Hw; rewrite Hw, !elem_of_app, elem_of_cons; tauto.
Qed.

Lemma loop_skip s a B w id ids :
  loop_ok s a B → ids_of w s = id :: ids →
  ∃ a' s', skip_request cfg w id a s = (Ok a', s') ∧ loop_ok s' a' B ∧ keeps_static s s' ∧ pause_state s' = pause_state s ∧ rest s' = rest s ∧
    (length (waiting s') + length (skipped_waiting s') + 1 = length (waiting s) + length (skipped_waiting s))%nat.
Proof.
  intros [L1 L2 L3 L4] Hw. destruct (skip_spec s a _ w id ids L1 Hw) as (a' & s' & He & Hc & Ha & _ & (V1 & _) & Hr & Hp & Hre & Hsub & Hlen).
  exists a', s'. split_and!; try done; [|by apply keeps_static_eq]. injection Hre as _ Hpv _. constructor; rewrite ?Ha, ?Hpv; try done.
  - by apply (step_same s).
  - intros i r Hi. rewrite V1, Hpv. apply L3. auto.
Qed.
Lemma loop_promote s a B w id ids r :
  loop_ok s a B → ids_of w s = id :: ids → objs s !! id = Some r →
  ∃ b s' r', blocked_check r id s = (Ok b, s') ∧ loop_ok s' a B ∧ running s' = running s ∧ ids_of w s' = id :: ids ∧
    waiting s' = waiting s ∧ skipped_waiting s' = skipped_waiting s ∧ keeps_static s s' ∧ pause_state s' = pause_state s ∧
    rest s' = rest s ∧ objs s' !! id = Some r' ∧ (b = false → schedulable r').
Proof.
  intros [L1 L2 L3 L4] Hw Hr. pose proof (head_wait _ _ _ _ _ _ L1 Hw) as Hin.
  destruct (promote_spec s _ _ id r L1 Hin Hr) as (b & s' & r' & He & Hc & Hrun & W1 & W2 & Hst & Hp & Hre & Hr' & _ & _ & Hb & Hoth & Hpre).
  exists b, s', r'. split_and!; try done; [|destruct w; simpl in *; congruence]. pose proof Hre as Hre'. injection Hre' as _ Hpv _. constructor; rewrite ?Hpv; try done.
  - apply (step_static s); try done. intros i Hi. apply Hoth. intros ->. apply (tk_in _ _ _ L2) in Hi.
    pose proof (co_nodup _ _ _ L1) as Hnd. apply NoDup_app in Hnd as (_ & Hnd & _). by apply (Hnd id).
  - intros i q. rewrite W1, W2, Hpv. intros Hi Hq Hs. destruct (decide (i = id)) as [->|Hne].
    + rewrite Hr' in Hq. injection Hq as <-. specialize (Hpre Hs). subst r'. by apply (L3 id r).
    + rewrite Hoth in Hq by done. by apply (L3 i q).
Qed.
Lemma loop_lookup s a B w id ids r :
  loop_ok s a B → ids_of w s = id :: ids → objs s !! id = Some r →
  ∃ h s', lookup_computed no_connector id s = (Ok (Some h), s') ∧ loop_ok s' a B ∧ running s' = running s ∧ waiting s' = waiting s ∧
    skipped_waiting s' = skipped_waiting s ∧ objs s' = objs s ∧ pause_state s' = pause_state s ∧ rest s' = rest s ∧ hit_ok s' id r h.
Proof.
  intros HL Hw Hr. pose proof (head_wait _ _ _ _ _ _ (lo_core _ _ _ HL) Hw) as Hin.
  destruct (lookup_spec s _ _ id r (lo_core _ _ _ HL) Hin Hr) as (h & s' & He & Hc & H1 & H2 & H3 & H4 & H5 & H6 & _ & H7).
  exists h, s'. split_and!; try done. by apply (loop_frame s).
Qed.

Lemma waiting_loop_spec fuel s a B ts :
  (length (waiting s) + length (skipped_waiting s) < fuel)%nat → loop_ok s a B →
  0 ≤ num_lookahead_tokens cfg → (need_mamba_block_aligned_split cfg = true → 0 < cache_block_size cfg) →
  ∃ a' s', waiting_loop cfg no_connector hci grammar_ready set_order fuel ts a s = (Ok a', s') ∧ loop_ok s' a' B ∧ keeps_static s s' ∧
    pause_state s' = pause_state s ∧ rest s' = rest s.
Proof.
  intros Hfuel HL Hlook Hbs. revert s a Hfuel HL. induction fuel as [|fuel IH]; intros s a Hfuel HL; [lia|]. cbn [waiting_loop]. rewrite run_get.
  case_bool; [|by exists a, s; split_and!]. bool_to_prop. case_bool; [by exists a, s; split_and!|]. bool_to_prop.
  pose proof (lo_core _ _ _ HL) as Hc. destruct (select_spec s _ _ Hc) as (w & id & ids & Hsel & Hw).
  { match goal with G : _ || _ = true |- _ => apply orb_true_iff in G as [?|?] end; bool_to_prop; lia. }
  rewrite Hsel, run_of_res, run_of_option. rewrite (bind_ok _ _ _ _ _ (queue_peek_spec s _ _ w id ids Hc Hw)).
  destruct (co_wait _ _ _ Hc id (head_wait _ _ _ _ _ _ Hc Hw)) as (r & Hro & _). pose proof (ro_obj _ _ _ Hro) as Hr. ostep Hr.
  assert (Hgo : ∀ s1 a1, loop_ok s1 a1 B → (length (waiting s1) + length (skipped_waiting s1) + 1 = length (waiting s) + length (skipped_waiting s))%nat →
    keeps_static s s1 → pause_state s1 = pause_state s → rest s1 = rest s →
    ∃ a' s', waiting_loop cfg no_connector hci grammar_ready set_order fuel ts a1 s1 = (Ok a', s') ∧ loop_ok s' a' B ∧ keeps_static s s' ∧
      pause_state s' = pause_state s ∧ rest s' = rest s).
  { intros s1 a1 HL1 Hlen1 Hst1 Hp1 Hre1. destruct (IH s1 a1) as (a' & s' & He & G1 & G2 & G3 & G4); [lia|done|].
    exists a', s'. split_and!; try done; try congruence. by transitivity s1. }
  destruct (loop_promote s a B w id ids r HL Hw Hr) as (b & s1 & r1 & Hb & HL1 & Hrun1 & Hw1 & W1 & W2 & Hst1 & Hp1 & Hre1 & Hr1 & Hsch).
  unfold blocked_check in Hb. mstep Hb.
  assert (Hskip : ∃ a' s', (a0 <- skip_request cfg w id a ;; waiting_loop cfg no_connector hci grammar_ready set_order fuel ts a0) s1 = (Ok a', s') ∧
    loop_ok s' a' B ∧ keeps_static s s' ∧ pause_state s' = pause_state s ∧ rest s' = rest s).
  { destruct (loop_skip s1 a B w id ids HL1 Hw1) as (a2 & s2 & He2 & HL2 & Hst2 & Hp2 & Hre2 & Hlen2). mstep He2.
    apply Hgo; try congruence. by transitivity s1. }
  destruct b; [done|]. specialize (Hsch eq_refl). destruct (exceeds_max_loras cfg r (scheduled_loras a)); [done|]. clear Hskip.
  destruct (loop_lookup s1 a B w id ids r1 HL1 Hw1 Hr1) as (h & s2 & Hh & HL2 & Hrun2 & W3 & W4 & Hob2 & Hp2 & Hre2 & Hhit). mstep Hh.
  assert (Hr2 : objs s2 !! id = Some r1) by congruence. ostep Hr2. assert (Hw2 : ids_of w s2 = id :: ids) by (destruct w; simpl in *; congruence).
  destruct (co_wait _ _ _ (lo_core _ _ _ HL2) id (head_wait _ _ _ _ _ _ (lo_core _ _ _ HL2) Hw2)) as (q & Hq & _).
  pose proof (ro_obj _ _ _ Hq). assert (q = r1) as -> by congruence. pose proof Hhit as (Hh1 & Hh2 & Hh3 & _).
  destruct (plan_spec s2 id r1 h (a_step a) Hq (co_enc _ _ _ (lo_core _ _ _ HL2)) Hh1 Hh2 Hh3) as (o & e & Hpl & Hei & Ho); [lia|done|]. mstep Hpl.
  assert (HL3 : loop_ok (s2 <| enc := e |>) a B) by (apply (loop_frame s2); try done; apply core_enc; [apply (lo_core _ _ _ HL2)|done]).
  assert (Hst3 : keeps_static s (s2 <| enc := e |>)) by (transitivity s1; [done|by apply keeps_static_eq]).
  assert (Hre3 : rest (s2 <| enc := e |>) = rest s) by (change (rest s2 = rest s); congruence).
  destruct o as [[[[inputs n] bud] ext]|].
  2: { eexists _, _. split; [reflexivity|]. split_and!; try done. simpl. congruence. }
  destruct Ho as (Hn & Hmax & Hres).
  destruct (admit_spec (s2 <| enc := e |>) a B w id ids r1 h inputs n bud ext ts HL3) as (a4 & b4 & s4 & He4 & HL4 & Hst4 & Hp4 & Hre4 & Hlen4); try done.
  { pose proof (co_count _ _ _ Hc). change (len (running s2) < max_num_running_reqs cfg). rewrite Hrun2, Hrun1. lia. }
  mstep He4. assert (Hst5 : keeps_static s s4) by (by transitivity (s2 <| enc := e |>)). simpl in Hp4. destruct b4; simpl.
  - apply Hgo; try done; try congruence. specialize (Hlen4 eq_refl). simpl in Hlen4. rewrite W3, W4, W1, W2 in Hlen4. lia.
  - exists a4, s4. split_and!; try done; congruence.
Qed.

(* --------------------------------------------------------------------- *)
(** *** The whole pass                                                    *)

(** The adapters of a list of requests. *)
Definition lora_of s id : option Z :=
  r ← objs s !! id; l ← lora_request r; if 0 <? lora_int_id l then Some (lora_int_id l) else None.
Definition lora_ids s (ids : list string) : gset Z := list_to_set (omap (lora_of s) ids).
Definition lora_ok s (ids : list string) : Prop := ∀ m, max_loras cfg = Some m → Z.of_nat (base.size (lora_ids s ids)) ≤ m.
Lemma running_loras_spec s ids : known s ids → running_loras ids s = (Ok (lora_ids s ids), s).
Proof.
  induction ids as [|id ids IH]; intros Hk; [done|]. cbn [running_loras]. destruct (Hk id) as (r & Hr & _); [by left|]. ostep Hr.
  assert (Hi : running_loras ids s = (Ok (lora_ids s ids), s)) by (apply IH; intros i Hi; apply Hk; by right). mstep Hi.
  assert (Hl : lora_of s id = l ← lora_request r; if 0 <? lora_int_id l then Some (lora_int_id l) else None) by (unfold lora_of; by rewrite Hr).
  unfold ret, lora_ids. simpl. rewrite Hl. destruct (lora_request r) as [l|]; simpl; [|done]. by destruct (0 <? lora_int_id l).
Qed.
Lemma lora_ids_mono s s' ids ids' : keeps_static s s' → (∀ id, id ∈ ids' → id ∈ ids) → lora_ids s' ids' ⊆ lora_ids s ids.
Proof.
  intros Hst Hsub z. unfold lora_ids. rewrite !elem_of_list_to_set, !list_elem_of_omap. intros (id & Hid & Hz). exists id. split; [auto|].
  unfold lora_of in *. specialize (Hst id). destruct Hst as [r r' Hr|]; [|done]. simpl in *.
  apply (f_equal lora_request) in Hr. change (lora_request r' = lora_request r) in Hr. by rewrite <-Hr.
Qed.
Lemma lora_ok_mono s s' ids ids' : keeps_static s s' → (∀ id, id ∈ ids' → id ∈ ids) → lora_ok s ids → lora_ok s' ids'.
Proof.
  intros Hst Hsub H m Hm. specialize (H m Hm). pose proof (subseteq_size _ _ (lora_ids_mono s s' ids ids' Hst Hsub)). lia.
Qed.

Lemma schedule_waiting_spec s t B ts :
  core s (num_scheduled_tokens t) [] → step_ok s t B → first_phase t → lora_ok s (running s) →
  (preempted_reqs t = [] → prev_ok s (waiting s ++ skipped_waiting s)) →
  0 ≤ num_lookahead_tokens cfg → (need_mamba_block_aligned_split cfg = true → 0 < cache_block_size cfg) →
  ∃ t' s', schedule_waiting cfg no_connector hci grammar_ready set_order ts t s = (Ok t', s') ∧ core s' (num_scheduled_tokens t') [] ∧
    step_ok s' t' B ∧ keeps_static s s' ∧ pause_state s' = pause_state s ∧ rest s' = rest s ∧
    (∀ id, id ∈ scheduled_resumed_reqs t' → (id ∉ prev_step_scheduled_req_ids s)).
Proof.
  intros Hc Ht Hf Hlo Hpv Hlook Hbs. unfold schedule_waiting.
  assert (Hsub : ∀ id, id ∈ scheduled_running_reqs t → id ∈ running s).
  { intros id Hid. apply (tk_front _ _ _ Ht) in Hid. rewrite <-(take_drop (Z.to_nat (req_index t)) (running s)). apply elem_of_app. by left. }
  assert (Hl : ∃ l, (match max_loras cfg with
            | Some m => l <- running_loras (scheduled_running_reqs t) ;; assert_ (Z.of_nat (base.size l) <=? m) ;; ret l
            | None => ret ∅ end) s = (Ok l, s)).
  { destruct (max_loras cfg) as [m|] eqn:Hm; [|by eexists]. rewrite (bind_ok _ _ _ _ _ (running_loras_spec s (scheduled_running_reqs t) (λ i Hi, core_run_obj s _ [] i Hc (Hsub i Hi)))).
    pose proof (lora_ok_mono s s (running s) (scheduled_running_reqs t) ltac:(done) Hsub Hlo m Hm) as Hsz. rewrite run_assert, (proj2 (Z.leb_le _ _)) by done. by eexists. }
  destruct Hl as [l Hl]. mstep Hl. rewrite run_get.
  assert (Hno : ∃ t' s', ret t s = (Ok t', s') ∧ core s' (num_scheduled_tokens t') [] ∧ step_ok s' t' B ∧ keeps_static s s' ∧
    pause_state s' = pause_state s ∧ rest s' = rest s ∧ (∀ id, id ∈ scheduled_resumed_reqs t' → (id ∉ prev_step_scheduled_req_ids s))).
  { exists t, s. split_and!; try done. destruct Hf as [_ ->]. by intros id ?%not_elem_of_nil. }
  destruct (preempted_reqs t); [|done]. destruct (pause_state s) eqn:Hps; [|done..]. specialize (Hpv eq_refl). clear Hno.
  destruct (waiting_loop_spec (S (length (waiting s) + length (skipped_waiting s))) s (mkAdmission t l []) B ts) as (a & s1 & He & [L1 L2 L3 L4] & Hst & Hp & Hre); try done; [lia| |].
  { constructor; try done. destruct Hf as [_ Hf]. simpl. rewrite Hf. by intros id ?%not_elem_of_nil. }
  mstep He. injection Hre as Hre1 Hre2 Hre3. rewrite Hre2 in L4. destruct (step_skipped_waiting a) as [|x k] eqn:Hsk.
  { rewrite run_ret. exists (a_step a), s1. split_and!; try done; [congruence|]. unfold rest. congruence. }
  rewrite run_modify. eexists _, _. split; [reflexivity|]. split_and!; try done; [| |simpl; congruence|unfold rest; simpl; congruence].
  - apply (core_queues s1 _ _ (x :: k)); try done. simpl. rewrite app_nil_r. apply Permutation_app_head.
    rewrite q_prepend_all_perm; [apply Permutation_app_comm|..]; apply wait_known; intros i Hi; apply (co_wait _ _ _ L1); rewrite !elem_of_app; tauto.
  - by apply (step_same s1).
Qed.

Lemma core_keep s ns extra k : core s ns extra → kl_inv k → (∀ id n, kl_covers (kv s) id n → kl_covers k id n) →
  core (s <| kv := k |>) ns extra.
Proof.
  intros [C0 C1 C2 C3 C4 C5 C6 C7] Hk Hkeep. constructor; try done; simpl.
  - intros id Hid. destruct (C2 id Hid) as (r & [] & H1 & H2 & H3 & H4 & H5). exists r. split_and!; try done; try lia; auto.
  - intros id Hid. destruct (C3 id Hid) as (r & [] & H1 & H2 & H3 & H4). exists r. split_and!; try done; try lia; auto.
  - intros id Hid. by apply Hkeep, C7.
Qed.
Lemma step_kv s t B k : step_ok s t B → step_ok (s <| kv := k |>) t B.
Proof. intros []. by constructor. Qed.

Lemma map_m_read {A X} (f : A → M ST X) l s : (∀ x, x ∈ l → ∃ y, f x s = (Ok y, s)) → ∃ ys, map_m f l s = (Ok ys, s).
Proof.
  induction l as [|x l IH]; intros Hl; simpl; [by exists []|]. destruct (Hl x) as [y Hy]; [by left|]. mstep Hy.
  destruct IH as [ys Hys]; [intros z Hz; apply Hl; by right|]. mstep Hys. by eexists.
Qed.
(** Every request of the step has an object, its tokens and its blocks. *)
Definition listed s (t : Step) id : Prop := is_Some (objs s !! id) ∧ is_Some (dict_get id (num_scheduled_tokens t)) ∧
  is_Some (dict_get id (req_to_new_blocks t)).
Lemma step_listed s t B id : core s (num_scheduled_tokens t) [] → step_ok s t B →
  id ∈ scheduled_running_reqs t ++ scheduled_new_reqs t ++ scheduled_resumed_reqs t → listed s t id.
Proof.
  intros Hc Ht Hid. rewrite <-(tk_sched _ _ _ Ht) in Hid. destruct (core_run_obj _ _ _ id Hc (tk_in _ _ _ Ht id Hid)) as (r & Hr & _).
  split_and!; [by eexists|by apply dict_get_in|by apply (tk_blocks _ _ _ Ht)].
Qed.
Lemma cached_loop_spec s t b ids d : (∀ id, id ∈ ids → listed s t id) → (b = true → ∀ id, id ∈ ids → (id ∉ prev_step_scheduled_req_ids s)) →
  ∃ d', cached_request_loop cfg t b ids d s = (Ok d', s).
Proof.
  revert d. induction ids as [|id ids IH]; intros d Hl Hp; simpl; [by eexists|]. destruct (Hl id) as ([r Hr] & [n Hn] & [bl Hbl]); [by left|].
  assert (Hrow : ∃ d', cached_request_row cfg t b id d s = (Ok d', s)).
  { unfold cached_request_row. rewrite run_get. ostep Hr.
    assert (Ht : ∃ x, (if use_pp cfg && negb (async_scheduling cfg) then
            n <- of_option KeyError (dict_get id (num_scheduled_tokens t)) ;;
            let n := n - len (default [] (dict_get id (scheduled_spec_decode_tokens t))) in
            ret [slice (_all_token_ids r) (num_computed_tokens r) (num_computed_tokens r + n)]
          else ret []) s = (Ok x, s)).
    { destruct (use_pp cfg && _); [|by eexists]. rewrite run_of_option, Hn. by eexists. }
    destruct Ht as [x Hx]. mstep Hx. cbv zeta. rewrite Hbl.
    assert (Ha : (when b do assert_ (negb (bool_decide (id ∈ prev_step_scheduled_req_ids s)))) s = (Ok tt, s)).
    { destruct b; [|done]. rewrite bool_decide_false; [done|]. apply Hp; [done|by left]. }
    mstep Ha. rewrite run_of_option. by eexists. }
  destruct Hrow as [d1 Hd1]. mstep Hd1. apply IH; [intros i Hi; apply Hl; by right|]. intros Hb i Hi. apply Hp; [done|by right].
Qed.
Lemma new_data_spec s t b id : listed s t id → ∃ x, new_request_data t b id s = (Ok x, s).
Proof.
  intros ([r Hr] & _ & [bl Hbl]). unfold new_request_data. rewrite run_get. ostep Hr. rewrite run_of_option, Hbl, run_of_option.
  pose proof (kl_ids (kv s) bl) as Hi. destruct (kv_block_ids (kv s) false bl); [by eexists|done].
Qed.

Lemma make_output_spec s t B :
  core s (num_scheduled_tokens t) [] → step_ok s t B → B ≤ max_num_scheduled_tokens cfg →
  (∀ id, id ∈ scheduled_resumed_reqs t → (id ∉ prev_step_scheduled_req_ids s)) →
  ∃ o s', make_output cfg t s = (Ok o, s') ∧ core s' (num_scheduled_tokens t) [] ∧ step_ok s' t B ∧ objs s' = objs s ∧
    pause_state s' = pause_state s ∧ prev_step_scheduled_req_ids s' = list_to_set (num_scheduled_tokens t).*1 ∧
    running s' = running s ∧ waiting s' = waiting s ∧ skipped_waiting s' = skipped_waiting s ∧ s_requests s' = s_requests s ∧
    so_num_scheduled_tokens o = num_scheduled_tokens t ∧
    so_total_num_scheduled_tokens o = dict_sum (num_scheduled_tokens t) ∧ so_spec_decode_tokens o = scheduled_spec_decode_tokens t ∧
    so_finished_req_ids o = finished_req_ids s ∧ so_preempted_req_ids o = list_to_set (preempted_reqs t).
Proof.
  intros Hc Ht HB Hres. unfold make_output. rewrite run_get. cbv zeta. pose proof (tk_sum _ _ _ Ht). pose proof (tk_budget _ _ _ Ht).
  pose proof (co_count _ _ _ Hc). rewrite !run_assert, !(proj2 (Z.leb_le _ _)) by lia. rewrite (proj2 (Z.leb_le _ _)).
  2: { pose proof (Permutation_length (tk_sched _ _ _ Ht)) as Hlen. rewrite !length_app in Hlen.
       pose proof (NoDup_incl_length (l := (num_scheduled_tokens t).*1) (l' := running s)) as Hle. unfold len.
       rewrite <-NoDup_ListNoDup in Hle. specialize (Hle (tk_keys _ _ _ Ht)). enough (length (num_scheduled_tokens t).*1 ≤ length (running s))%nat by lia.
       apply Hle. intros i Hi. apply list_elem_of_In, (tk_in _ _ _ Ht). by apply list_elem_of_In. }
  assert (Hcom : ∃ l k, (match running s with [] => ret (replicate (num_groups cfg) 0) | any :: _ => on_kv (kv_get_num_common_prefix_blocks any) end) s
      = (Ok l, s <| kv := k |>) ∧ kl_inv k ∧ (∀ id n, kl_covers (kv s) id n → kl_covers k id n)).
  { destruct (running s) as [|any run] eqn:Hrun; [eexists _, (kv s); split; [by destruct s|]; split; [apply (co_kv _ _ _ Hc)|done]|].
    destruct (co_run _ _ _ Hc any) as (r & _ & _ & _ & Hp & Hcov & _); [rewrite Hrun; by left|].
    destruct (kl_common (kv s) any _ (co_kv _ _ _ Hc) Hcov) as (l & k & He & Hk & Hkeep); [lia|]. exists l, k. split; [by apply on_kv_ok|done]. }
  destruct Hcom as (l & k & He & Hk & Hkeep). mstep He. clear He. set (s1 := s <| kv := k |>).
  assert (Hc1 : core s1 (num_scheduled_tokens t) []) by (by apply core_keep). assert (Ht1 : step_ok s1 t B) by (by apply step_kv).
  set (v2 := use_v2_model_runner cfg). assert (Hsplit : ∃ new res, (if v2 then (scheduled_new_reqs t ++ scheduled_resumed_reqs t, []) else (scheduled_new_reqs t, scheduled_resumed_reqs t)) = (new, res) ∧
    (∀ id, id ∈ new → id ∈ scheduled_new_reqs t ++ scheduled_resumed_reqs t) ∧ (∀ id, id ∈ res → id ∈ scheduled_resumed_reqs t)).
  { destruct v2; (eexists _, _; split; [reflexivity|]; split; try done); [by intros id ?%not_elem_of_nil|]. intros id ?. apply elem_of_app. by left. }
  destruct Hsplit as (new & res & -> & Hnew & Hres').
  destruct (map_m_read (new_request_data t v2) new s1) as [nd Hnd].
  { intros id Hid. apply new_data_spec, (step_listed s1 t B); [done..|]. apply elem_of_app. right. auto. }
  mstep Hnd. destruct (cached_loop_spec s1 t false (scheduled_running_reqs t) (mkCachedRequestData [] ∅ [] [] [] [] [])) as [d1 Hd1]; [|done|].
  { intros id Hid. apply (step_listed s1 t B); [done..|]. apply elem_of_app. by left. }
  destruct (cached_loop_spec s1 t true res d1) as [d2 Hd2].
  { intros id Hid. apply (step_listed s1 t B); [done..|]. rewrite !elem_of_app. right. right. auto. }
  { intros _ id Hid. apply Hres. auto. }
  unfold _make_cached_request_data. rewrite bind_assoc. mstep Hd1. mstep Hd2. rewrite run_modify. set (s2 := s1 <| prev_step_scheduled_req_ids := _ |>).
  assert (Hc2 : core s2 (num_scheduled_tokens t) []) by (apply (core_queues s1 _ _ []); done). assert (Ht2 : step_ok s2 t B) by (by apply (step_same s1)).
  assert (Hz : ∃ z k2, (if needs_kv_cache_zeroing cfg then ids <- on_kv kv_take_new_block_ids ;; ret (match ids with [] => None | _ => Some ids end) else ret None) s2
     = (Ok z, s2 <| kv := k2 |>) ∧ kl_inv k2 ∧ (∀ id n, kl_covers k id n → kl_covers k2 id n)).
  { destruct (needs_kv_cache_zeroing cfg); [|eexists _, k; split; [done|done]].
    destruct (kl_take k Hk) as (ids & k2 & Htk & Hk2 & Hkeep2). eexists _, k2. split; [|done]. erewrite bind_ok; [|apply on_kv_ok; exact Htk]. reflexivity. }
  destruct Hz as (z & k2 & Hz & Hk2 & Hkeep2). mstep Hz. assert (Hc3 : core (s2 <| kv := k2 |>) (num_scheduled_tokens t) []) by (by apply core_keep).
  destruct (el_freed (enc s) (co_enc _ _ _ Hc)) as (fr & e & Hfr & Hei). estep Hfr. rewrite run_get. eexists _, _. split; [reflexivity|].
  split_and!; try done; [by apply core_enc|]. apply (step_same (s2 <| kv := k2 |>)); try done. by apply step_kv.
Qed.

(** [_update_after_schedule] on one request. *)
Definition advance (n : Z) (r : Request) : Request :=
  r <| num_computed_tokens ::= λ c, c + n |>
    <| is_prefill_chunk := num_computed_tokens r + n <? num_tokens r + num_output_placeholders r |>.
Definition add_placeholders (drafts : list Z) (r : Request) : Request :=
  if is_prefill_chunk r then r
  else r <| num_output_placeholders ::= λ p, p + 1 + len drafts |> <| spec_token_ids := py_replicate (num_spec_tokens cfg) (-1) |>.
Lemma objs_id s : s <| objs := objs s |> = s.
Proof. by destruct s. Qed.
Lemma advance_loop_spec ns b s :
  NoDup ns.*1 → (∀ id, id ∈ ns.*1 → id ∈ s_requests s ∧ is_Some (objs s !! id)) →
  ∃ b' m, advance_loop ns b s = (Ok b', s <| objs := m |>) ∧
    ∀ id, m !! id = (match dict_get id ns with Some n => advance n | None => λ r, r end) <$> objs s !! id.
Proof.
  revert b s. induction ns as [|[id n] ns IH]; intros b s Hnd Hk.
  { exists b, (objs s). split; [by rewrite objs_id|]. intros id. simpl. by destruct (objs s !! id). }
  rewrite fmap_cons in Hnd. apply NoDup_cons in Hnd as [Hid Hnd]. simpl in Hid. destruct (Hk id) as [Hreq [r Hr]]; [by left|].
  cbn [advance_loop]. rewrite run_get, bool_decide_true, run_ret by done. unfold upd. rewrite !run_modify.
  set (s1 := s <| objs ::= alter (advance n) id |>).
  match goal with |- context [bind (obj id) _ ?x] => replace x with s1 by (unfold s1; cbv [setter set_objs]; simpl; by rewrite alter_twice) end.
  assert (Hr1 : objs s1 !! id = Some (advance n r)) by (unfold s1; simpl; by rewrite lookup_alter_eq, Hr). ostep Hr1.
  destruct (IH (b || (use_structured_output (advance n r) && negb (is_prefill_chunk (advance n r)))) s1 Hnd) as (b' & m & He & Hm).
  { intros i Hi. destruct (Hk i) as [Hi1 Hi2]; [by right|]. split; [done|]. unfold s1. simpl. rewrite lookup_alter_ne; [done|]. by intros <-. }
  exists b', m. split; [exact He|]. intros i. rewrite Hm. simpl. destruct (decide (id = i)) as [->|Hne].
  - rewrite (proj2 (dict_get_none _ _) Hid), lookup_alter_eq, Hr. done.
  - by rewrite lookup_alter_ne.
Qed.
Lemma placeholder_loop_spec specs ns b s :
  NoDup ns.*1 → (∀ id, id ∈ ns.*1 → is_Some (objs s !! id)) →
  ∃ b' m, placeholder_loop cfg specs ns b s = (Ok b', s <| objs := m |>) ∧
    ∀ id, m !! id = (if decide (id ∈ ns.*1) then add_placeholders (default [] (dict_get id specs)) else λ r, r) <$> objs s !! id.
Proof.
  revert b s. induction ns as [|[id n] ns IH]; intros b s Hnd Hk.
  { exists b, (objs s). split; [by rewrite objs_id|]. intros id. destruct (decide _) as [[]%not_elem_of_nil|_]. by destruct (objs s !! id). }
  rewrite fmap_cons in Hnd. apply NoDup_cons in Hnd as [Hid Hnd]. simpl in Hid. destruct (Hk id) as [r Hr]; [by left|].
  assert (Hgo : ∀ b1 s1, s1 = s <| objs ::= alter (add_placeholders (default [] (dict_get id specs))) id |> →
    ∃ b' m, placeholder_loop cfg specs ns b1 s1 = (Ok b', s <| objs := m |>) ∧
    ∀ i, m !! i = (if decide (i ∈ ((id, n) :: ns).*1) then add_placeholders (default [] (dict_get i specs)) else λ r, r) <$> objs s !! i).
  { intros b1 s1 ->. match goal with |- context [placeholder_loop _ _ _ _ ?x] => destruct (IH b1 x Hnd) as (b' & m & He & Hm) end.
    { intros i Hi. simpl. rewrite lookup_alter_ne; [apply Hk; by right|]. by intros <-. }
    exists b', m. split; [exact He|]. intros i. rewrite Hm. change (objs (_ <| objs ::= ?f |>)) with (f (objs s)). destruct (decide (id = i)) as [->|Hne].
    - rewrite lookup_alter_eq, Hr, decide_False, decide_True; [done|by left|done].
    - rewrite lookup_alter_ne by done. f_equal. apply decide_ext. rewrite fmap_cons, elem_of_cons. simpl. naive_solver. }
  cbn [placeholder_loop]. ostep Hr. destruct (is_prefill_chunk r) eqn:Hp.
  - apply Hgo. destruct s. cbv [setter set_objs]. simpl in *. f_equal. apply map_eq. intros i. destruct (decide (i = id)) as [->|Hne]; [|by rewrite lookup_alter_ne].
    rewrite lookup_alter_eq, Hr. simpl. unfold add_placeholders. by rewrite Hp.
  - cbv zeta. unfold upd. rewrite run_modify. apply Hgo. destruct s. cbv [setter set_objs]. simpl in *. f_equal.
    apply map_eq. intros i. destruct (decide (i = id)) as [->|Hne]; [|by rewrite !lookup_alter_ne].
    rewrite !lookup_alter_eq, Hr. simpl. unfold add_placeholders. by rewrite Hp.
Qed.

Lemma dict_get_elem {A} k (v : A) d : dict_get k d = Some v → (k, v) ∈ d.
Proof. induction d as [|[k1 v1] d IH]; simpl; [done|]. case_decide; [intros [= ->]; subst; by left|]. intros ?%IH. by right. Qed.
(** How far a request is ahead of its tokens between two steps, with [drafts]
    in flight. *)
Definition flying (drafts : list (string * list Z)) id (r : Request) : Prop :=
  match dict_get id drafts with
  | Some d => num_computed_tokens r = num_tokens r + num_output_placeholders r + len d
  | None => num_computed_tokens r ≤ num_tokens r + num_output_placeholders r
  end.
(** Between two steps, with [drafts] in flight. *)
Definition in_flight (drafts : list (string * list Z)) s id : Prop := ∃ r, req_ok s id r ∧ status r = RUNNING ∧
  0 < num_computed_tokens r ≤ max_model_len cfg - 1 ∧ kl_covers (kv s) id (num_computed_tokens r) ∧
  flying drafts id r.
Record sched_inv (drafts : list (string * list Z)) s : Prop := {
  si_nodup : NoDup (running s ++ waiting s ++ skipped_waiting s);
  si_run : ∀ id, id ∈ running s → in_flight drafts s id;
  si_wait : ∀ id, id ∈ waiting s ++ skipped_waiting s → wait_ok s id;
  si_kv : kl_inv (kv s);
  si_enc : el_inv (enc s);
  si_count : len (running s) ≤ max_num_running_reqs cfg;
  si_prev : prev_ok s (waiting s ++ skipped_waiting s);
  si_unknown : ∀ id, (id ∉ s_requests s) → kl_covers (kv s) id 0;
}.
Lemma inv_core s : sched_inv [] s → running s ++ waiting s ++ skipped_waiting s ≡ₚ all_ids → core s [] [].
Proof.
  intros [I1 I2 I3 I4 I5 I6 _ I8] Hall. constructor; rewrite ?app_nil_r; try done.
  intros id Hid. destruct (I2 id Hid) as (r & Hr & H1 & H2 & H3 & H4). exists r. unfold sched_of. simpl. rewrite Z.add_0_r.
  split_and!; try done; lia.
Qed.

(** Preempting every running request, as resetting the prefix cache does: all
    of them wait afterwards. *)
Lemma preempt_all_spec n s ts :
  (length (running s) < n)%nat → core s [] [] →
  ∃ s', preempt_all cfg set_order n ts s = (Ok tt, s') ∧ core s' [] [] ∧ running s' = [] ∧ keeps_static s s' ∧
    pause_state s' = pause_state s ∧ rest s' = rest s.
Proof.
  revert s. induction n as [|n IH]; intros s Hn Hc; [lia|]. simpl. rewrite run_get. destruct (last (running s)) as [p|] eqn:Hl.
  2: { apply last_None in Hl. by exists s. }
  pose proof (last_take _ _ Hl) as Hr. set (run' := take (length (running s) - 1) (running s)) in *. rewrite run_put.
  pose proof Hc as [C0 C1 C2 C3 C4 C5 C6 C7]. assert (Hperm : running s ≡ₚ p :: run') by (rewrite Hr; symmetry; apply Permutation_cons_append).
  assert (Hsub : ∀ id, id ∈ p :: run' → id ∈ running s) by (intros id; by rewrite Hperm).
  assert (Hnd : NoDup (p :: run' ++ waiting s ++ skipped_waiting s ++ [])) by (by rewrite Hperm in C1).
  assert (Hlen : length (running s) = S (length run')) by (by rewrite Hperm).
  destruct (preempt_spec (s <| running := run' |>) [] [] [] p ts) as (s1 & He & Hc1 & Hr1 & Hst1 & Hp1 & Hf1 & _); try done.
  - by rewrite <-C0, Hperm.
  - apply (view_run s); [done|]. apply C2, Hsub. by left.
  - intros id Hid. apply (view_run s); [done|]. apply C2, Hsub. by right.
  - intros id Hid. apply (view_wait s); [done|]. by apply C3.
  - unfold len in *. simpl. lia.
  - mstep He. change (running s1 = run') in Hr1. unfold upd. rewrite run_modify.
    set (f := λ r : Request, r <| num_output_placeholders := 0 |> <| discard_latest_async_tokens := true |>).
    set (s2 := s1 <| objs ::= alter f p |>).
    assert (Hin : p ∈ waiting s1 ++ skipped_waiting s1 ++ []).
    { assert (Hin : p ∈ running s1 ++ waiting s1 ++ skipped_waiting s1 ++ []) by (rewrite (co_all _ _ _ Hc1), <-C0, Hperm; by left).
      rewrite Hr1 in Hin. apply elem_of_app in Hin as [Hin|]; [|done]. apply NoDup_cons in Hnd as [[] _]. apply elem_of_app. by left. }
    destruct (co_wait _ _ _ Hc1 p Hin) as (r & Hro & W1 & W2 & W3 & W4). pose proof (ro_obj _ _ _ Hro) as Hobj.
    assert (Hobj2 : objs s2 !! p = Some (f r)) by (unfold s2; simpl; by rewrite lookup_alter_eq, Hobj).
    assert (Ho : only p s1 s2) by (constructor; try done; intros id Hne; simpl; by rewrite lookup_alter_ne).
    assert (Hc2 : core s2 [] []).
    { apply (core_wait_upd s1 s2 [] [] p); try done; [|apply (co_kv _ _ _ Hc1)|apply (co_enc _ _ _ Hc1)].
      exists (f r). split_and!; try done; [by apply (req_static s1 s2 p r)|apply W2..]. }
    destruct (IH s2) as (s3 & He3 & Hc3 & Hr3 & Hst3 & Hp3 & Hf3); [change (running s2) with (running s1); rewrite Hr1; lia|done|].
    exists s3. split; [done|]. split_and!; try done; [|by rewrite Hp3|by rewrite Hf3].
    transitivity s1; [done|]. transitivity s2; [|done]. by apply (only_static p s1 s2 r (f r)).
Qed.

(** What the end of a step does to a request. *)
Definition settle (t : Step) id (r : Request) : Request :=
  match dict_get id (num_scheduled_tokens t) with
  | Some n => (if async_scheduling cfg then add_placeholders (default [] (dict_get id (scheduled_spec_decode_tokens t))) else λ r, r) (advance n r)
  | None => r
  end.
Definition left_drafts (t : Step) : list (string * list Z) := if async_scheduling cfg then [] else scheduled_spec_decode_tokens t.
Lemma settle_spec t id r n :
  dict_get id (num_scheduled_tokens t) = Some n → ahead (scheduled_spec_decode_tokens t) id n r →
  same_static r (settle t id r) ∧ status (settle t id r) = status r ∧ num_computed_tokens (settle t id r) = num_computed_tokens r + n ∧
  num_output_placeholders r ≤ num_output_placeholders (settle t id r) ∧
  (async_scheduling cfg = false → num_output_placeholders (settle t id r) = num_output_placeholders r) ∧ flying (left_drafts t) id (settle t id r).
Proof.
  intros Hn Hle. unfold settle, left_drafts, flying, ahead in *. rewrite Hn. pose proof (len_nonneg (default [] (dict_get id (scheduled_spec_decode_tokens t)))) as Hd.
  pose proof (len_nonneg (spec_token_ids r)). pose proof (len_nonneg (py_replicate (num_spec_tokens cfg) (-1))).
  unfold num_tokens_with_spec, num_tokens in *. destruct (async_scheduling cfg).
  - unfold add_placeholders. change (is_prefill_chunk (advance n r)) with (num_computed_tokens r + n <? num_tokens r + num_output_placeholders r).
    unfold num_tokens. destruct (dict_get id (scheduled_spec_decode_tokens t)); simpl in *; destruct (_ <? _) eqn:Hp; bool_to_prop; split_and!; try done; simpl; unfold len in *; simpl; lia.
  - by split_and!.
Qed.
Lemma after_spec s o t B :
  core s (num_scheduled_tokens t) [] → step_ok s t B → prev_step_scheduled_req_ids s = list_to_set (num_scheduled_tokens t).*1 →
  so_num_scheduled_tokens o = num_scheduled_tokens t → so_spec_decode_tokens o = scheduled_spec_decode_tokens t →
  ∃ o' s', _update_after_schedule cfg o s = (Ok o', s') ∧ sched_inv (left_drafts t) s' ∧ (∀ id, objs s' !! id = settle t id <$> objs s !! id) ∧
    finished_req_ids s' = ∅ ∧ s_requests s' = s_requests s ∧ running s' = running s ∧ waiting s' = waiting s ∧
    skipped_waiting s' = skipped_waiting s ∧ so_num_scheduled_tokens o' = num_scheduled_tokens t ∧ so_total_num_scheduled_tokens o' = so_total_num_scheduled_tokens o ∧
    so_spec_decode_tokens o' = scheduled_spec_decode_tokens t ∧ so_finished_req_ids o' = so_finished_req_ids o ∧
    so_preempted_req_ids o' = so_preempted_req_ids o.
Proof.
  intros Hc Ht Hpv Ho1 Ho2. unfold _update_after_schedule. rewrite Ho1, Ho2.
  assert (Hobj : ∀ id, id ∈ (num_scheduled_tokens t).*1 → id ∈ s_requests s ∧ is_Some (objs s !! id)).
  { intros id Hid. destruct (co_run _ _ _ Hc id (tk_in _ _ _ Ht id Hid)) as (r & [] & _). eauto. }
  destruct (advance_loop_spec (num_scheduled_tokens t) (so_has_structured_output_requests o) s (tk_keys _ _ _ Ht) Hobj) as (b1 & m1 & He1 & Hm1).
  mstep He1. rewrite run_modify. set (s2 := s <| objs := m1 |> <| finished_req_ids := ∅ |>).
  assert (Hpl : ∃ b2 m2, (if async_scheduling cfg then placeholder_loop cfg (scheduled_spec_decode_tokens t) (num_scheduled_tokens t) (so_pending_structured_output_tokens o)
     else ret (so_pending_structured_output_tokens o)) s2 = (Ok b2, s2 <| objs := m2 |>) ∧ ∀ id, m2 !! id = settle t id <$> objs s !! id).
  { unfold settle. destruct (async_scheduling cfg).
    - destruct (placeholder_loop_spec (scheduled_spec_decode_tokens t) (num_scheduled_tokens t) (so_pending_structured_output_tokens o) s2 (tk_keys _ _ _ Ht)) as (b2 & m2 & He2 & Hm2).
      { intros id Hid. unfold s2. simpl. rewrite Hm1. destruct (Hobj id Hid) as [_ [r ->]]. by eexists. }
      exists b2, m2. split; [done|]. intros id. rewrite Hm2. change (objs s2) with m1. rewrite Hm1. destruct (objs s !! id) as [r|]; [|done]. simpl. f_equal.
      destruct (dict_get id (num_scheduled_tokens t)) as [n|] eqn:Hn; [rewrite decide_True; [done|apply dict_get_in; by eexists]|].
      rewrite decide_False; [done|]. by apply dict_get_none.
    - eexists _, m1. split; [done|]. intros id. rewrite Hm1. destruct (objs s !! id) as [r|]; [|done]. simpl. f_equal. by destruct (dict_get id _). }
  destruct Hpl as (b2 & m2 & He2 & Hm2). mstep He2. eexists _, _. split; [reflexivity|]. set (s3 := s2 <| objs := m2 |>).
  split; [|split_and!; done]. pose proof Hc as [C0 C1 C2 C3 C4 C5 C6 C7]. rewrite ?app_nil_r in *.
  assert (Hstay : ∀ id, id ∈ waiting s ++ skipped_waiting s → dict_get id (num_scheduled_tokens t) = None).
  { intros id Hid. apply dict_get_none. intros Hk%(tk_in _ _ _ Ht). apply NoDup_app in C1 as (_ & C1 & _). by apply (C1 id). }
  assert (no_left_drafts : ∀ id, (id ∉ (num_scheduled_tokens t).*1) → dict_get id (left_drafts t) = None).
  { intros id Hid. unfold left_drafts. destruct (async_scheduling cfg); [done|]. apply dict_get_none. by intros Hi%(proj2 (tk_specs _ _ _ Ht)). }
  constructor; try done.
  - intros id Hid. destruct (C2 id Hid) as (r & Hr & H1 & H2 & H3 & H4 & H5). exists (settle t id r). unfold sched_of in *.
    assert (Hr3 : objs s3 !! id = Some (settle t id r)) by (change (objs s3) with m2; by rewrite Hm2, (ro_obj _ _ _ Hr)).
    assert (Hset : same_static r (settle t id r) ∧ status (settle t id r) = status r ∧
      num_computed_tokens (settle t id r) = num_computed_tokens r + sched_of (num_scheduled_tokens t) id ∧
      num_output_placeholders r ≤ num_output_placeholders (settle t id r) ∧
      (async_scheduling cfg = false → num_output_placeholders (settle t id r) = num_output_placeholders r) ∧ flying (left_drafts t) id (settle t id r)).
    { unfold sched_of in *. destruct (dict_get id (num_scheduled_tokens t)) as [n|] eqn:Hn.
      - assert (Hin : (id, n) ∈ num_scheduled_tokens t) by (by apply dict_get_elem). apply (settle_spec t id r n Hn), (tk_ahead _ _ _ Ht id n r Hin (ro_obj _ _ _ Hr)).
      - unfold settle. rewrite Hn. simpl. split_and!; try done; try lia. unfold flying. rewrite no_left_drafts; [auto|]. by apply dict_get_none. }
    destruct Hset as (S1 & S2 & S3 & S4 & S5 & S6). unfold sched_of in S3. destruct (ro_placeholders _ _ _ Hr) as [P1 P2]. split_and!; try done; try congruence; try lia; [|by rewrite S3].
    apply (req_static s s3 id r); try done. split; [lia|]. intros Ha. rewrite S5, P2; done.
  - intros id Hid. destruct (C3 id Hid) as (r & Hr & H1 & H2 & H3 & H4). exists r. split_and!; try done; try lia.
    apply (req_static s s3 id r); try done; [|apply (ro_placeholders _ _ _ Hr)]. change (objs s3) with m2. rewrite Hm2, (ro_obj _ _ _ Hr). simpl.
    unfold settle. by rewrite Hstay.
  - intros id q Hid _ _. change (id ∉ prev_step_scheduled_req_ids s). rewrite Hpv, elem_of_list_to_set. apply dict_get_none. auto.
Qed.

Lemma dict_sum_pos d : (∀ k n, (k, n) ∈ d → 0 < n) → 0 ≤ dict_sum d ∧ (dict_sum d = 0 → d = []).
Proof.
  unfold dict_sum. induction d as [|[k n] d IH]; intros Hd; simpl; [done|]. destruct IH as [IH1 IH2]; [intros k' n' ?; apply (Hd k'); by right|].
  pose proof (Hd k n ltac:(by left)). split; [lia|]. intros. lia.
Qed.
Lemma schedule_spec s ts :
  running s ++ waiting s ++ skipped_waiting s ≡ₚ all_ids → sched_inv [] s → lora_ok s (running s) →
  0 ≤ max_num_scheduled_tokens cfg → 0 ≤ num_lookahead_tokens cfg →
  (need_mamba_block_aligned_split cfg = true → 0 < cache_block_size cfg) →
  ∃ o s', schedule cfg no_connector hci grammar_ready set_order ts s = (Ok o, s') ∧
    sched_inv (if async_scheduling cfg then [] else so_spec_decode_tokens o) s' ∧
    running s' ++ waiting s' ++ skipped_waiting s' ≡ₚ all_ids ∧
    so_total_num_scheduled_tokens o = dict_sum (so_num_scheduled_tokens o) ∧
    so_total_num_scheduled_tokens o ≤ match pause_state s with PAUSED_ALL => 0 | _ => max_num_scheduled_tokens cfg end ∧
    NoDup (so_num_scheduled_tokens o).*1 ∧
    (∀ id n, (id, n) ∈ so_num_scheduled_tokens o → 0 < n ∧ id ∈ running s') ∧
    NoDup (so_spec_decode_tokens o).*1 ∧ (∀ id, id ∈ (so_spec_decode_tokens o).*1 → id ∈ (so_num_scheduled_tokens o).*1) ∧
    so_finished_req_ids o = finished_req_ids s ∧ finished_req_ids s' = ∅ ∧ s_requests s' = s_requests s ∧ keeps_static s s'.
Proof.
  intros Hall Hi Hlo Hmax Hlook Hbs. unfold schedule. rewrite run_get. cbv zeta.
  set (B := match pause_state s with PAUSED_ALL => 0 | _ => max_num_scheduled_tokens cfg end).
  assert (HB : 0 ≤ B ≤ max_num_scheduled_tokens cfg) by (unfold B; destruct (pause_state s); lia).
  pose proof (inv_core s Hi Hall) as Hc. destruct (kl_new_step (kv s) (co_kv _ _ _ Hc)) as (k & Hk & Hkv & Hkeep). kstep Hk.
  set (s1 := s <| kv := k |>). set (t0 := mkStep [] [] [] [] [] [] B [] (max_num_encoder_input_tokens cfg) [] 0).
  assert (Hc1 : core s1 (num_scheduled_tokens t0) []) by (by apply core_keep).
  assert (Ht0 : step_ok s1 t0 B).
  { constructor; simpl; try done; try lia; try (constructor; fail); intros *; try (by intros ?%not_elem_of_nil). split; [constructor|done]. }
  destruct (running_loop_spec (S (length (running s))) s1 t0 B [] ts) as (t1 & s2 & He1 & Hc2 & Ht1 & Hf1 & Hst1 & Hp1 & Hre1 & [Hq1 Hq2]); try done.
  { unfold len. simpl. lia. }
  mstep He1. change (pause_state s2 = pause_state s) in Hp1. change (rest s2 = rest s) in Hre1. pose proof Hre1 as Hre1'. injection Hre1' as Hfin1 Hpv1 Hkn1.
  destruct (schedule_waiting_spec s2 t1 B ts Hc2 Ht1 Hf1) as (t2 & s3 & He2 & Hc3 & Ht2 & Hst2 & Hp2 & Hre2 & Hres2); try done.
  { by apply (lora_ok_mono s1 s2 (running s)). }
  { intros Hpre. destruct (Hq2 Hpre) as (_ & W1 & W2 & Hob). rewrite W1, W2. intros id r Hid. rewrite Hob.
    - intros Hr Hs. rewrite Hpv1. by apply (si_prev _ _ Hi id r).
    - intros Hid'. pose proof (si_nodup _ _ Hi) as Hnd. apply NoDup_app in Hnd as (_ & Hnd & _). by apply (Hnd id). }
  mstep He2. injection Hre2 as Hfin2 Hpv2 Hkn2.
  destruct (make_output_spec s3 t2 B Hc3 Ht2) as (o & s4 & He3 & Hc4 & Ht3 & Ob4 & _ & Hpv4 & R1 & W1 & W2 & Kn4 & O1 & O2 & O3 & O4 & O5); [lia|by rewrite Hpv2|].
  mstep He3. destruct (after_spec s4 o t2 B Hc4 Ht3 Hpv4 O1 O3) as (o' & s5 & He4 & Hi5 & Ob5 & Hfin5 & Kn5 & R5 & W5 & W6 & Q1 & Q2 & Q3 & Q4 & _).
  rewrite He4. exists o', s5. split; [done|]. rewrite Q1, Q2, Q3, Q4, O2, O4. pose proof (tk_sum _ _ _ Ht3). pose proof (tk_budget _ _ _ Ht3).
  split_and!; try done; try lia.
  - rewrite R5, W5, W6. pose proof (co_all _ _ _ Hc4) as Hall4. by rewrite app_nil_r in Hall4.
  - apply (tk_keys _ _ _ Ht3).
  - intros id n Hn. split; [by apply (tk_pos _ _ _ Ht3 id)|]. rewrite R5. apply (tk_in _ _ _ Ht3). by apply (list_elem_of_fmap_2 fst _ (id, n)).
  - apply (tk_specs _ _ _ Ht3).
  - apply (tk_specs _ _ _ Ht3).
  - congruence.
  - congruence.
  - transitivity s2; [done|]. transitivity s3; [done|]. intros id. rewrite Ob5, Ob4. destruct (objs s3 !! id) as [r|] eqn:Hr; [|constructor]. simpl. constructor.
    unfold settle. destruct (dict_get id (num_scheduled_tokens t2)) as [n|]; [|done]. destruct (async_scheduling cfg); [|done].
    unfold add_placeholders. by destruct (is_prefill_chunk _).
Qed.
End invariant.
