(* ===== verification/SchedulerKV.v ===== *)
(** * The KV-cache manager under the scheduler ([src/vllm/v1/core/kv_cache_manager.py])

    [KVCacheManager] keeps the laws the scheduler relies on: for models whose
    groups are attention groups without prefix caching, and with prefix caching
    for models with one group. *)
From S2P Require Import Prelude MathUtils FreeQueue Request BlockHash BlockPool KVSpec SingleType Accounting Coordinator CoordinatorInv HybridHit KVCacheManager KVManagerInv EncoderCache SchedUtils Scheduler SchedulerInv.
Local Open Scope Z_scope.

Section kv_laws.
Context `{env : KVEnv}.
Variables (max_len bs : Z) (caching : bool).
(** With prefix caching, [hash_ok] is kept by the scheduler's steps and gives a
    request the hashes of its full blocks, all different. *)
Variable hash_ok : Request → Prop.
Hypothesis hash_ok_static : ∀ r r', same_static r r' → hash_ok r → hash_ok r'.
Hypothesis hash_ok_use : ∀ r, hash_ok r → num_tokens r / bs ≤ len (block_hashes r) ∧ NoDup (block_hashes r) ∧ mm_wf (mm_features r) ∧ memo_ok env_sha256 r.

(** The lookup goes through one group, whose class honours the lookup
    interface. *)
Definition unitary_ok (k : KVCacheManager) : Prop :=
  let c := coordinator k in
  ∃ s m, kind c = UnitaryKVCacheCoordinator s bs 1 1 ∧ single_type_managers c = [m] ∧ block_size s = bs ∧ m_bs m = bs ∧ 0 < bs ∧
    hash_block_size (block_pool c) = bs ∧ hit_law (cls m) s bs (bool_decide (0 ∈ eagle_group_ids c)).
Record kvm_inv (k : KVCacheManager) : Prop := {
  kv_ok : km_ok k;
  kv_len : km_max_model_len k = max_len;
  kv_caching : km_enable_caching k = caching;
  kv_window : ∀ i m, single_type_managers (coordinator k) !! i = Some m → window_ok m;
  kv_unitary : caching = true → unitary_ok k;
}.
Definition kvm_ok (r : Request) : Prop := caching = true → hash_ok r.
Definition table_covers (m : Manager) (id : string) (n : Z) : Prop :=
  if n =? 0 then fresh_in m id else n ≤ len (blocks_of m id) * m_bs m.
Definition kvm_covers (k : KVCacheManager) (id : string) (n : Z) : Prop :=
  ∀ i m, single_type_managers (coordinator k) !! i = Some m → table_covers m id n.
Definition kvm_hit (k : KVCacheManager) (r : Request) (b : KVCacheBlocks) (n : Z) : Prop :=
  ∀ i m, single_type_managers (coordinator k) !! i = Some m → ∃ row, kb_blocks (num_kv_cache_groups k) b !! i = Some row ∧
    (if call_hit (Some b) then valid_hit (block_pool (coordinator k)) m (hit_kept m row n) else row = [] ∧ n = 0).

Lemma kvm_step k c free' :
  kvm_inv k → km_inv (k <| coordinator := c |>) free' → co_cfg c = co_cfg (coordinator k) →
  managers_rel (λ _ m m', mgr_cfg m' = mgr_cfg m) (single_type_managers (coordinator k)) (single_type_managers c) →
  kvm_inv (k <| coordinator := c |>).
Proof.
  intros [[_ H1] H2 H3 H4 H5] Hk Hc Hrel. split; try done.
  - split; [by exists free'|done].
  - intros i m' Hm'. destruct (managers_rel_inv _ _ _ _ _ Hrel Hm') as (m & Hm & Hmc). destruct (cfg_fields _ _ Hmc) as (_ & Hs & _).
    unfold window_ok. rewrite Hs. by apply (H4 i).
  - intros Hca. destruct (H5 Hca) as (s & m & K1 & K2 & K3 & K4 & K5 & K6 & K7). destruct Hrel as [Hl Hrel]. rewrite K2 in Hl, Hrel.
    destruct (Hrel 0%nat m eq_refl) as (m' & Hm' & Hmc). destruct (cfg_fields _ _ Hmc) as (Hcls & _ & Hbs & _). simpl in Hl.
    destruct (single_type_managers c) as [|m1 [|]] eqn:Hms; try done. simpl in Hm'. injection Hm' as ->. unfold co_cfg, pool_cfg in Hc.
    exists s, m'. simpl. rewrite Hms. split_and!; try done; try congruence. rewrite Hcls. replace (eagle_group_ids c) with (eagle_group_ids (coordinator k)) by congruence. done.
Qed.

Lemma covers_kept m m' id n : mgr_cfg m' = mgr_cfg m → blocks_of m' id = blocks_of m id → num_cached_block m' !! id = num_cached_block m !! id →
  table_covers m id n → table_covers m' id n.
Proof.
  intros Hm Hb Hn. destruct (cfg_fields _ _ Hm) as (_ & _ & Hbs & _). unfold table_covers, fresh_in. by rewrite Hb, Hn, Hbs.
Qed.
Lemma covers_tables k c id n :
  managers_rel (λ _, tables_kept) (single_type_managers (coordinator k)) (single_type_managers c) →
  kvm_covers k id n → kvm_covers (k <| coordinator := c |>) id n.
Proof.
  intros Hrel Hk i m' Hm'. destruct (managers_rel_inv _ _ _ _ _ Hrel Hm') as (m & Hm & Hmc & Hb & Hn).
  apply (covers_kept m); [done|done|by rewrite Hn|by apply (Hk i)].
Qed.
Lemma covers_others k c id id' n Q :
  managers_rel Q (single_type_managers (coordinator k)) (single_type_managers c) →
  (∀ i m m', Q i m m' → mgr_cfg m' = mgr_cfg m ∧ others_kept id m m') → id' ≠ id →
  kvm_covers k id' n → kvm_covers (k <| coordinator := c |>) id' n.
Proof.
  intros Hrel HQ Hne Hk i m' Hm'. destruct (managers_rel_inv _ _ _ _ _ Hrel Hm') as (m & Hm & Hq). destruct (HQ _ _ _ Hq) as (Hmc & Ho & Hn).
  apply (covers_kept m); [done|unfold blocks_of; by rewrite Ho|by rewrite Hn|by apply (Hk i)].
Qed.

(** The call of [allocate_slots] meets what the manager asks for. *)
Lemma kvm_slots_call k r n h nb look :
  kvm_inv k → kvm_ok r → 0 ≤ h → 0 ≤ num_computed_tokens r → 0 < n → num_computed_tokens r + h + n ≤ max_len → 0 ≤ look →
  (∀ i m, single_type_managers (coordinator k) !! i = Some m → ∃ row, call_rows k nb !! i = Some row ∧
     slot_case r (num_computed_tokens r + h) (call_hit nb) (block_pool (coordinator k)) m row) →
  slots_call k r n h nb look false.
Proof.
  intros [[[free Hk] _] Hlen Hca Hw Hun] Hr Hh Hc Hn Hmax Hlook Hrows. unfold call_cached, call_total, call_local. constructor; try done; unfold call_cached, call_total, call_local; try lia.
  - intros i m Hm. split; [by apply (Hw i)|]. by apply Hrows.
  - intros Hen _ i m Hm. rewrite Hca in Hen. destruct (Hun Hen) as (s & m0 & _ & K2 & _ & K4 & K5 & K6 & _). destruct (hash_ok_use r (Hr Hen)) as (R3 & R4 & R1 & R2).
    rewrite K2 in Hm. destruct i; [|done]. injection Hm as <-. exists (PlainHashes (block_hashes r)). split; try done.
    + unfold hashes_at. by rewrite K4, K6, Z.eqb_refl.
    + rewrite K4. simpl. assert (Hd : Z.min (Z.min (num_computed_tokens r + h) (km_max_model_len k) + n) (num_tokens r) / bs ≤ num_tokens r / bs) by (apply Z.div_le_mono; lia). lia.
Qed.
Lemma kvm_alloc k r n h nb look e fit :
  kvm_inv k → slots_call k r n h nb look false → 0 ≤ num_computed_tokens r → 0 ≤ h → 0 < n → num_computed_tokens r + h + n ≤ max_len → 0 ≤ look →
  ∃ o k', allocate_slots r n h nb look 0 false e fit k = (Ok o, k') ∧ kvm_inv k' ∧
    (∀ id m, id ≠ request_id r → kvm_covers k id m → kvm_covers k' id m) ∧
    match o with
    | Some _ => kvm_covers k' (request_id r) (num_computed_tokens r + h + n)
    | None => ∀ m, kvm_covers k (request_id r) m → kvm_covers k' (request_id r) m
    end.
Proof.
  intros Hi Hcall Hc Hh Hn Hmax Hlook. pose proof Hi as [[[free Hk] _] Hlen Hca Hw Hun].
  destruct (allocate_slots_spec k free r n h nb look false e fit Hk Hcall) as (o & k' & free' & He & Heq & Hk' & Hrel & _ & Hcfg).
  exists o, k'. split; [done|]. rewrite Heq in Hk' |- *. set (c := coordinator k') in *. split_and!.
  - apply (kvm_step k c free'); try done. by eapply managers_rel_weaken; [exact Hrel|intros i m m' []].
  - intros id m Hne. eapply covers_others; [exact Hrel|by intros i m1 m2 (? & ? & _)|done].
  - destruct o as [new|].
    + intros i m' Hm'. destruct (managers_rel_inv _ _ _ _ _ Hrel Hm') as (m & Hm & Hmc & _ & Hlen' & _). unfold table_covers.
      rewrite (proj2 (Z.eqb_neq _ _)) by lia. destruct (cfg_fields _ _ Hmc) as (_ & _ & -> & _).
      pose proof (mi_bs _ _ (ci_mgr _ _ _ (ki_co _ _ Hk) i m Hm)) as Hbs.
      pose proof (cdiv_bounds (call_slots k r n h look) (m_bs m)) as Hcd. unfold call_slots, call_total, call_local in *. rewrite Hlen in *. nia.
    + intros z Hz i m' Hm'. destruct (managers_rel_inv _ _ _ _ _ Hrel Hm') as (m & Hm & Hmc & _ & Hnc & Hln). specialize (Hz i m Hm).
      destruct (cfg_fields _ _ Hmc) as (_ & _ & Hbs & _). unfold table_covers, fresh_in in *. rewrite Hnc, Hbs. unfold len in *. rewrite Hln.
      destruct (z =? 0); [|done]. destruct Hz as [Hz1 Hz2]. rewrite Hz2 in Hln. split; [done|]. by destruct (blocks_of m' (request_id r)).
Qed.

Lemma nodup_filter_lookup (l : list Z) :
  (∀ i j b, l !! i = Some b → l !! j = Some b → b ≠ 0 → i = j) → NoDup (filter (λ b, b ≠ 0) l).
Proof.
  induction l as [|x l IH]; intros Hl; [constructor|]. assert (IH' : NoDup (filter (λ b, b ≠ 0) l)).
  { apply IH. intros i j b Hi Hj Hb. specialize (Hl (S i) (S j) b Hi Hj Hb). lia. }
  rewrite filter_cons. destruct (decide (x ≠ 0)) as [Hx|]; [|done]. apply NoDup_cons. split; [|done].
  intros [_ [j Hj]%list_elem_of_lookup]%list_elem_of_filter. specialize (Hl 0%nat (S j) x eq_refl Hj Hx). lia.
Qed.
(** A row found in the cache is a valid hit. *)
Lemma sound_row_valid p free m hs n row t :
  pool_inv p free → m_enable_caching m = true → NoDup hs → sound_row p (PlainHashes hs) n 0 row → valid_hit p m (hit_kept m row t).
Proof.
  intros Hp Hca Hnd [Hl Hs].
  assert (Hat : ∀ j b, row !! j = Some b → b = 0 ∨ ∃ h, hs !! j = Some h ∧ hit_at p 0 h b).
  { intros j b Hb. destruct (Hs j) as [Hz|(h & b' & Hh & Hb' & Hit)].
    - rewrite <-Hl. by eapply lookup_lt_Some.
    - left. rewrite <-(pi_null _ _ _ Hp). congruence.
    - right. exists h. assert (b' = b) as -> by congruence. split; [|done]. simpl in Hh. rewrite py_nth_nonneg, Nat2Z.id in Hh by lia.
      by destruct (hs !! j); simplify_eq. }
  assert (Hd : ∃ d, hit_kept m row t = drop d row).
  { unfold hit_kept. cbv zeta. destruct (Z.ltb_spec 0 (get_num_skipped_tokens m t / m_bs m)); [|by exists 0%nat].
    eexists. apply slice_from_nonneg. lia. }
  destruct Hd as [d ->]. pose proof (pi_num _ _ _ Hp). split; [..|congruence].
  - intros b [j Hj]%list_elem_of_lookup. rewrite lookup_drop in Hj. destruct (Hat _ b Hj) as [->|(h & _ & [? _])]; lia.
  - apply nodup_filter_lookup. intros i j b Hi Hj Hb. rewrite lookup_drop in Hi, Hj.
    destruct (Hat _ b Hi) as [?|(h & Hh & [_ Hb1])]; [done|]. destruct (Hat _ b Hj) as [?|(h' & Hh' & [_ Hb2])]; [done|].
    rewrite Hb1 in Hb2. injection Hb2 as Hb2. apply app_inv_tail in Hb2. subst h'. pose proof (NoDup_lookup _ _ _ _ Hnd Hh Hh'). lia.
  - intros b [j Hj]%list_elem_of_lookup Hb0. rewrite lookup_drop in Hj. destruct (Hat _ b Hj) as [?|(h & _ & [_ Hb1])]; [done|]. by rewrite Hb1.
Qed.

Lemma kvm_lookup k r :
  kvm_inv k → kvm_ok r → 0 < num_tokens r →
  ∃ b n k', get_computed_blocks r k = (Ok (b, n), k') ∧ kvm_inv k' ∧ 0 ≤ n < num_tokens r ∧ kvm_hit k' r b n ∧
    (∀ id z, kvm_covers k id z → kvm_covers k' id z).
Proof.
  intros Hi Hr Hpos. pose proof Hi as [[[free Hk] Hst] Hlen Hca Hw Hun]. unfold get_computed_blocks. rewrite run_get.
  assert (Hgr : ∀ i m, single_type_managers (coordinator k) !! i = Some m → replicate (num_kv_cache_groups k) ([] : list ref) !! i = Some []).
  { intros i m Hm. apply lookup_replicate_2. rewrite <-(ki_groups _ _ Hk). by eapply lookup_lt_Some. }
  destruct (negb (km_enable_caching k) || skip_reading_prefix_cache r) eqn:Hskip.
  { exists EmptyKVCacheBlocks, 0, k. split_and!; try done; try lia. intros i m Hm. exists []. split; [by eapply Hgr|done]. }
  apply orb_false_iff in Hskip as [Hen%negb_false_iff _]. rewrite Hca in Hen. destruct (Hun Hen) as (s & m & K1 & K2 & K3 & K4 & K5 & K6 & K7).
  destruct (hash_ok_use r (Hr Hen)) as (R3 & R4 & _). unfold co_find_longest_cache_hit. rewrite K1, K2.
  destruct (K7 (block_pool (coordinator k)) free [0] (PlainHashes (block_hashes r)) (num_tokens r - 1)) as (n & rows & He & HF & _ & Hn & _).
  - apply (ci_pool _ _ _ (ki_co _ _ Hk)).
  - split; [|done]. apply Forall_singleton. change (2 ^ 32) with 4294967296. lia.
  - lia.
  - simpl. rewrite K3. assert ((num_tokens r - 1) / bs ≤ num_tokens r / bs) by (apply Z.div_le_mono; lia). lia.
  - rewrite He, run_of_res. apply Forall2_cons_inv_l in HF as (row & rest & [Hrow _] & Hrest & ->). apply Forall2_nil_inv_l in Hrest as ->.
    assert (Hhit : hit_blocks [row] * bs = Z.of_nat n * bs) by (destruct Hrow as [Hl _]; unfold hit_blocks, len; by rewrite Hl).
    set (st' := (when (log_stats k) do match prefix_cache_stats k with
       | None => raise AssertionError
       | Some s => modify (λ k, k <| prefix_cache_stats := Some (record_stats (num_tokens r) ([row], hit_blocks [row] * bs).2 (0 <? num_preemptions r) s) |>) end) : M KVCacheManager unit).
    assert (Hgo : ∃ k', st' k = (Ok tt, k') ∧ (k' = k ∨ ∃ x, k' = k <| prefix_cache_stats := Some x |>)).
    { unfold st'. destruct (log_stats k) eqn:Hlg; [|exists k; split; [done|by left]]. destruct (Hst eq_refl) as [x Hx]. rewrite Hx. eexists. split; [reflexivity|]. right. by eexists. }
    destruct Hgo as (k' & Hgo & Hk'). unfold st' in Hgo. mstep Hgo. eexists _, _, k'. split; [reflexivity|]. cbn [fst snd]. rewrite ?Hhit.
    assert (Hsame : coordinator k' = coordinator k ∧ num_kv_cache_groups k' = num_kv_cache_groups k ∧ kvm_inv k').
    { destruct Hk' as [->|[x ->]]; [done|]. split_and!; try done. constructor; try done. apply km_ok_stats, (kv_ok _ Hi). }
    destruct Hsame as (S1 & S2 & S3). rewrite K3 in Hn. pose proof (Z.mul_div_le (num_tokens r - 1) bs K5).
    split_and!; try done; [nia|nia| |unfold kvm_covers; by rewrite S1].
    intros i m' Hm'. rewrite S1, K2 in Hm'. destruct i; [|done]. injection Hm' as <-. rewrite S1, S2. exists row. split.
    + rewrite create_blocks_rows; [done|]. rewrite <-(ki_groups _ _ Hk), K2. done.
    + simpl. unfold create_kv_cache_blocks. simpl. rewrite orb_false_r. destruct (Z.ltb_spec 0 (len row)) as [Hlt|Hge]; simpl.
      * eapply (sound_row_valid _ free); [apply (ci_pool _ _ _ (ki_co _ _ Hk))| |done|done].
        rewrite (mi_caching _ _ (ci_mgr _ _ _ (ki_co _ _ Hk) 0%nat m ltac:(by rewrite K2))), <-(ki_caching _ _ Hk). congruence.
      * destruct Hrow as [Hl _]. unfold len in Hge. split; [by destruct row; [|simpl in Hge; lia]|]. destruct n; [done|]. rewrite Hl in Hge. lia.
Qed.

(** How a request without a new hit stands with a manager. *)
Lemma no_hit_case k r n nb :
  kvm_inv k → nb = None ∨ nb = Some EmptyKVCacheBlocks → kvm_covers k (request_id r) n →
  ∀ i m, single_type_managers (coordinator k) !! i = Some m → ∃ row, call_rows k nb !! i = Some row ∧
    slot_case r n (call_hit nb) (block_pool (coordinator k)) m row.
Proof.
  intros Hi Hnb Hcov i m Hm. destruct (kv_ok _ Hi) as [[free Hk] _]. exists []. split.
  - destruct Hnb as [-> | ->]; apply lookup_replicate_2; rewrite <-(ki_groups _ _ Hk); by eapply lookup_lt_Some.
  - assert (Hh : call_hit nb = false) by (by destruct Hnb as [-> | ->]). unfold slot_case, running_in. specialize (Hcov i m Hm). unfold table_covers in Hcov.
    destruct (num_cached_block m !! request_id r) eqn:Hnc; [left; split; [by eexists|done]|]. right. left. split_and!; try done.
    destruct (Z.eqb_spec n 0) as [->|]; [|done]. destruct Hcov as [_ ->]. done.
Qed.

(** With every request out of the tables the prefix cache can be reset. *)
Lemma kvm_reset k :
  kvm_inv k → (∀ id, kvm_covers k id 0) → ∃ k', km_reset_prefix_cache k = (Ok true, k') ∧ kvm_inv k' ∧
    (∀ id n, kvm_covers k id n → kvm_covers k' id n).
Proof.
  intros Hi Hempty. destruct (kv_ok _ Hi) as [[free Hk] Hst].
  destruct (km_reset_spec k free Hk Hst) as (b & k' & He & Hk' & Hb & _ & Hst' & p' & st & Heq & Hp'). exists k'.
  assert (b = true) as ->.
  { apply Hb. intros x Hx. rewrite (ci_rc _ _ _ (ki_co _ _ Hk) x Hx). apply total_zero. intros i m id Hm.
    by destruct (Hempty id i m Hm). }
  split; [done|]. split; [|rewrite Heq; by intros id n Hc]. destruct Hi as [H1 H2 H3 H4 H5]. split; try (by rewrite Heq).
  - split; [by exists free|done].
  - intros Hca. destruct (H5 Hca) as (s & m & K1 & K2 & K3 & K4 & K5 & K6 & K7). exists s, m. rewrite Heq. split_and!; try done.
    simpl. rewrite <-K6. unfold pool_cfg in Hp'. congruence.
Qed.

#[export, program] Instance kvm_laws : KVLaws KVCacheManager max_len := {|
  kl_inv := kvm_inv; kl_ok := kvm_ok; kl_covers := kvm_covers; kl_hit := kvm_hit;
  kl_parked := λ n, n = 0 |}.
Next Obligation. done. Qed.
Next Obligation.
  intros r r' Hs Hr Hca. by apply (hash_ok_static r), Hr.
Qed.
Next Obligation.
  intros k id n m Hk Hm i mg Hmg. specialize (Hk i mg Hmg). unfold table_covers in *. rewrite (proj2 (Z.eqb_neq m 0)) by lia.
  rewrite (proj2 (Z.eqb_neq n 0)) in Hk by lia. lia.
Qed.
Next Obligation.
  intros k Hi. destruct (kv_ok _ Hi) as [[free Hk] _]. destruct (new_step_keeps k free Hk) as (c & free' & He & Hk' & Hcfg & Hrel).
  eexists. split; [exact He|]. split; [|intros id n; by apply covers_tables].
  apply (kvm_step k c free'); try done. by eapply managers_rel_weaken; [exact Hrel|intros ? ? ? []].
Qed.
Next Obligation. intros k r Hk Hr _ _ Hpos. by apply kvm_lookup. Qed.
Next Obligation.
  intros k r n nb look e fit Hk Hr Hpos Hcov Hn Hmax Hlook Hnb. simpl.
  assert (Hcall : slots_call k r n 0 nb look false).
  { apply kvm_slots_call; try done; try lia. rewrite Z.add_0_r. by apply no_hit_case. }
  destruct (kvm_alloc k r n 0 nb look e fit Hk Hcall) as (o & k' & He & Hk' & Hoth & Ho); try done; try lia.
  exists o, k'. split_and!; try done. rewrite Z.add_0_r in Ho. destruct o; auto.
Qed.
Next Obligation.
  intros k r n b h look e fit Hk Hr H0 Hcov Hhit Hh Hn Hmax Hlook. simpl.
  assert (Hcall : slots_call k r n h (Some b) look false).
  { apply kvm_slots_call; try done; try lia. intros i m Hm. destruct (Hhit i m Hm) as (row & Hrow & Hv). exists row. split; [done|]. rewrite H0, Z.add_0_l.
    specialize (Hcov i m Hm). change (table_covers m (request_id r) 0) with (fresh_in m (request_id r)) in Hcov. unfold slot_case.
    destruct (call_hit (Some b)); [right; right; by split_and!|]. destruct Hv as [-> ->]. right. left. destruct Hcov as [Hc1 Hc2]. rewrite Hc2. by split_and!. }
  destruct (kvm_alloc k r n h (Some b) look e fit Hk Hcall) as (o & k' & He & Hk' & Hoth & Ho); try done; try lia.
  exists o, k'. split_and!; try done. rewrite H0 in Ho. destruct o; auto.
Qed.
Next Obligation.
  intros k r Hi. destruct (kv_ok _ Hi) as [[free Hk] _]. destruct (km_free_spec k free r Hk) as (k' & free' & He & Hk' & Hrel & Hcfg & Heq).
  exists k'. split; [exact He|]. rewrite Heq in Hk' |- *. split_and!.
  - eapply kvm_step; try done. by eapply managers_rel_weaken; [exact Hrel|intros ? ? ? []].
  - intros i m' Hm'. destruct (managers_rel_inv _ _ _ _ _ Hrel Hm') as (m & Hm & Hmc & _ & Hd & Hn). split; [done|]. unfold blocks_of. by rewrite Hd, lookup_delete_eq.
  - intros id n Hne. eapply covers_others; [exact Hrel|by intros ? ? ? (? & ? & _)|done].
Qed.
Next Obligation.
  intros k id n Hi _ _. destruct (kv_ok _ Hi) as [[free Hk] _]. destruct (common_prefix_keeps k free id Hk) as (l & c & free' & He & Hk' & Hcfg & Hrel).
  eexists l, _. split; [exact He|]. split; [|intros i z; by apply covers_tables].
  apply (kvm_step k c free'); try done. by eapply managers_rel_weaken; [exact Hrel|intros ? ? ? []].
Qed.
Next Obligation.
  intros k Hi. destruct (kv_ok _ Hi) as [[free Hk] _]. destruct (take_new_ids_keeps k free Hk) as (l & c & free' & He & Hk' & Hcfg & Hrel).
  eexists l, _. split; [exact He|]. split; [|intros i z; by apply covers_tables].
  apply (kvm_step k c free'); try done. by eapply managers_rel_weaken; [exact Hrel|intros ? ? ? []].
Qed.
Next Obligation. done. Qed.
Next Obligation. intros k Hi Hempty. by apply kvm_reset. Qed.
End kv_laws.

(* ===================================================================== *)
(** ** The encoder-cache manager                                          *)
(* ===================================================================== *)

Section enc_laws.
Variables (size : mm_hash → Z) (set_order : list Z → list Z) (dc : bool) (hci : option (mm_hash → bool)).
Hypothesis size_nonneg : ∀ h, 0 ≤ size h.
Hypothesis set_order_perm : ∀ l, set_order l ≡ₚ l.

Definition can_hold (c : EncoderCacheManager) (r : Request) (a b : list Z) : Prop :=
  sized size r ∧ (∀ i, i ∈ a ++ b → input_of r i) ∧
  ∃ hs, item_hash r <$> (a ++ b) = Ok <$> hs ∧ NoDup hs ∧ (∀ h, h ∈ hs → cached c !! h = None) ∧ hash_sum size hs ≤ num_free_slots c.

Lemma for_split {St A} (f : A → M St unit) a b s s' :
  for_ (a ++ b) f s = (Ok tt, s') → ∃ s1, for_ a f s = (Ok tt, s1) ∧ for_ b f s1 = (Ok tt, s').
Proof.
  revert s. induction a as [|x a IH]; intros s; simpl; [by exists s|]. unfold bind. destruct (f x s) as [[[]|e] s1]; [apply IH|done].
Qed.

#[export, program] Instance enc_laws : EncLaws EncoderCacheManager set_order dc hci := {|
  el_inv := ec_ok size; el_ok := inputs_ok size; el_resv := can_hold |}.
Next Obligation.
  intros r r' Hs (H1 & H2 & H3). assert (Hm : mm_features r' = mm_features r) by (apply (f_equal mm_features) in Hs; exact Hs).
  unfold inputs_ok, sized. by rewrite Hm.
Qed.
Next Obligation.
  intros e r r' a b Hs (H1 & H2 & hs & H3 & H4). assert (Hm : mm_features r' = mm_features r) by (apply (f_equal mm_features) in Hs; exact Hs).
  assert (Hi : item_hash r' = item_hash r) by (unfold item_hash; by rewrite Hm).
  unfold can_hold, sized, input_of. rewrite Hi, Hm. split_and!; try done. by exists hs.
Qed.
Next Obligation.
  intros e r computed new budget shift He Hr Hn Hs.
  destruct (try_schedule_spec size size_nonneg dc hci r computed new budget shift e He Hr Hn Hs) as (a & n' & b' & ext & c' & Ht & Hc & Hn' & _ & _ & _ & Hres).
  exists a, n', b', ext, c'. split_and!; try done; try lia. destruct Hres as (Hids & hs & H1 & H2 & H3 & H4 & _). split_and!; [apply Hr|done|]. exists hs. by split_and!.
Qed.
Next Obligation.
  intros e r a b i (Hs & Hids & _) Hi. destruct (sized_item size r i Hs) as (h & _ & Hh); [apply Hids, elem_of_app; by left|by eexists].
Qed.
Next Obligation.
  intros e r a b He (Hs & Hids & hs & H1 & H2 & H3 & H4).
  destruct (allocate_all size size_nonneg r (a ++ b) hs e) as (c' & Hfor & Hc & _); try done.
  destruct (for_split _ _ _ _ _ Hfor) as (c1 & Ha & Hb). by exists c1, c'.
Qed.
Next Obligation.
  intros e q He Hq. destruct (ec_free_spec size size_nonneg set_order set_order_perm e q He) as (c' & Hf & Hc & Hn & _ & _ & Habs & _); [apply Hq|].
  exists c'. split_and!; try done. intros r a b (Hs & Hids & hs & H1 & H2 & H3 & H4). split_and!; try done. exists hs. split_and!; auto. lia.
Qed.
Next Obligation.
  intros e r He (Hs & _). destruct (ec_free_inputs_spec size size_nonneg set_order set_order_perm e r He Hs) as (c' & Hf & Hc & _). by exists c'.
Qed.
Next Obligation.
  intros e He. eexists. split; [reflexivity|]. apply new_manager_ok; try done.
  assert (0 ≤ used size (cached e)) by (by apply weight_nonneg). destruct He. lia.
Qed.
Next Obligation. intros e He. eexists _, _. split; [reflexivity|]. by destruct He. Qed.
End enc_laws.
