(* ===== verification/SchedulerLife.v ===== *)
(** * Requests come and go ([src/vllm/v1/core/sched/scheduler.py])

    The calls between two steps keep the scheduler's invariant: adding a
    request, aborting requests, resetting the prefix cache, and, for the synchronous scheduler, taking the
    tokens the model has sampled. *)
From S2P Require Import Prelude Request BlockHash BlockPool KVCacheManager HeapQ RequestQueue EncoderCache SchedUtils Scheduler SchedulerInv.
Local Open Scope Z_scope.

Section life.
Context {K E : Type} `{!KVManager K} `{!EncoderManager E}.
Variables (cfg : Config) (hci : option (mm_hash → bool)) (set_order : list Z → list Z).
Context `{!KVLaws K (max_model_len cfg)} `{!EncLaws E set_order (disable_chunked_mm cfg) hci}.
Abbreviation ST := (Scheduler K E unit).
Abbreviation no_connector := (None : option (KVConnector unit)).
Implicit Types (s : ST) (id : string).
Abbreviation sinv := (sched_inv cfg hci set_order).
Abbreviation rok := (req_ok cfg hci set_order).

Ltac kstep H := erewrite bind_ok; [|apply on_kv_ok; exact H].
Ltac estep H := erewrite bind_ok; [|apply on_enc_ok; exact H].
Ltac ostep H := erewrite bind_ok; [|apply obj_ok; exact H].

(** Requests that stay in the lists are not affected by what happens to others. *)
Record apart (ids : list string) s s' : Prop := {
  ap_objs : ∀ id, (id ∉ ids) → objs s' !! id = objs s !! id;
  ap_known : ∀ id, (id ∉ ids) → id ∈ s_requests s' ↔ id ∈ s_requests s;
  ap_prefill : ∀ id, (id ∉ ids) → prefill_stats s' !! id = prefill_stats s !! id;
  ap_covers : ∀ id n, (id ∉ ids) → kl_covers (kv s) id n → kl_covers (kv s') id n;
}.
Lemma apart_req ids s s' id r : apart ids s s' → (id ∉ ids) → rok s id r → rok s' id r.
Proof.
  intros [H1 H2 H3 _] Hid [R1 R2 R3 R4 R5 R6 R7 R8]. constructor; try done; [by rewrite H1|by apply H2|by rewrite H3].
Qed.
Lemma apart_flight ids d s s' id : apart ids s s' → (id ∉ ids) → in_flight cfg hci set_order d s id → in_flight cfg hci set_order d s' id.
Proof.
  intros Ha Hid (r & Hr & H1 & H2 & H3 & H4). exists r. split_and!; try done; try lia; [by eapply apart_req|by apply (ap_covers _ _ _ Ha)].
Qed.
Lemma apart_wait ids s s' id : apart ids s s' → (id ∉ ids) → wait_ok cfg hci set_order s id → wait_ok cfg hci set_order s' id.
Proof.
  intros Ha Hid (r & Hr & H1 & H2 & H3 & H4). exists r. split_and!; try done; try lia; [by eapply apart_req|by apply (ap_covers _ _ _ Ha)].
Qed.
Lemma apart_refl ids s : apart ids s s.
Proof. by constructor. Qed.
Lemma apart_trans ids s1 s2 s3 : apart ids s1 s2 → apart ids s2 s3 → apart ids s1 s3.
Proof.
  intros [A1 A2 A3 A4] [B1 B2 B3 B4]. constructor; intros id; intros.
  - by rewrite B1, A1.
  - by rewrite B2, A2.
  - by rewrite B3, A3.
  - auto.
Qed.
Lemma apart_more ids ids' s s' : (∀ id, id ∈ ids → id ∈ ids') → apart ids s s' → apart ids' s s'.
Proof. intros Hsub [A1 A2 A3 A4]. constructor; intros id; intros; [apply A1|apply A2|apply A3|apply A4]; auto. Qed.

(* ===================================================================== *)
(** ** Adding a request                                                   *)
(* ===================================================================== *)

(** A request as [EngineCore] passes it: new, with a prompt that leaves room
    for a token. *)
Record new_req (r : Request) : Prop := {
  nr_status : status r = WAITING ∨ status r = WAITING_FOR_STRUCTURED_OUTPUT_GRAMMAR;
  nr_computed : num_computed_tokens r = 0;
  nr_tokens : 0 < num_tokens r < max_model_len cfg;
  nr_prompt : num_tokens r ≤ num_prompt_tokens r;
  nr_placeholders : num_output_placeholders r = 0;
  nr_resumable : resumable r = false;
  nr_kv : kl_ok r;
  nr_enc : el_ok r;
}.
Lemma q_add_perm s ids r : known s ids → q_ids (add_request r (q_of cfg s ids)) ≡ₚ request_id r :: ids.
Proof.
  intros Hk. unfold q_of, q_ids. destruct (policy cfg); simpl.
  - rewrite fmap_app, deref_ids by done. simpl. by rewrite <-Permutation_cons_append.
  - rewrite heappush_perm. simpl. by rewrite deref_ids.
Qed.

Lemma inv_req d s id : sinv d s → id ∈ running s ++ waiting s ++ skipped_waiting s → ∃ r, rok s id r.
Proof.
  intros Hi [Hid|Hid]%elem_of_app; [destruct (si_run _ _ _ _ _ Hi id Hid) as (r & Hr & _)|destruct (si_wait _ _ _ _ _ Hi id Hid) as (r & Hr & _)]; by exists r.
Qed.
Lemma inv_known d s id : sinv d s → id ∈ running s ++ waiting s ++ skipped_waiting s → id ∈ s_requests s.
Proof. intros Hi Hid. destruct (inv_req d s id Hi Hid) as (r & []). done. Qed.

(** The invariant after changes to requests outside the lists, and to the
    lists themselves. *)
Lemma inv_apart d s s' ids :
  sinv d s → apart ids s s' → NoDup (running s' ++ waiting s' ++ skipped_waiting s') →
  (∀ id, id ∈ running s' → id ∈ running s ∧ (id ∉ ids)) →
  (∀ id, id ∈ waiting s' ++ skipped_waiting s' → (id ∈ waiting s ++ skipped_waiting s ∧ (id ∉ ids)) ∨
     (wait_ok cfg hci set_order s' id ∧ ∀ r, objs s' !! id = Some r → status r ≠ PREEMPTED)) →
  kl_inv (kv s') → el_inv (enc s') → len (running s') ≤ len (running s) → prev_step_scheduled_req_ids s' = prev_step_scheduled_req_ids s →
  (∀ id, id ∈ ids → (id ∉ s_requests s') → kl_covers (kv s') id 0) → sinv d s'.
Proof.
  intros Hi Ha Hnd Hrun Hwait Hk He Hlen Hpv Hunk. constructor; try done.
  - intros id Hid. destruct (Hrun id Hid) as [H1 H2]. apply (apart_flight ids d s s'); try done. by apply (si_run _ _ _ _ _ Hi).
  - intros id Hid. destruct (Hwait id Hid) as [[H1 H2]|[H1 _]]; [|done]. apply (apart_wait ids s s'); try done. by apply (si_wait _ _ _ _ _ Hi).
  - pose proof (si_count _ _ _ _ _ Hi). lia.
  - intros id r Hid Hr Hs. rewrite Hpv. destruct (Hwait id Hid) as [[H1 H2]|[_ H1]]; [|by destruct (H1 r Hr)].
    rewrite (ap_objs _ _ _ Ha) in Hr by done. by apply (si_prev _ _ _ _ _ Hi id r).
  - intros id Hid. destruct (decide (id ∈ ids)) as [?|Hn]; [auto|]. rewrite (ap_known _ _ _ Ha) in Hid by done.
    apply (ap_covers _ _ _ Ha); [done|]. by apply (si_unknown _ _ _ _ _ Hi).
Qed.

Lemma add_spec hasher s d r ts :
  sinv d s → new_req r → (request_id r ∉ s_requests s) →
  ∃ s', sched_add_request cfg no_connector set_order hasher r ts s = (Ok tt, s') ∧ sinv d s' ∧ running s' = running s ∧
    waiting s' ++ skipped_waiting s' ≡ₚ request_id r :: waiting s ++ skipped_waiting s ∧ s_requests s' = s_requests s ++ [request_id r] ∧
    (∀ i, i ≠ request_id r → objs s' !! i = objs s !! i) ∧ (∃ r', objs s' !! request_id r = Some r' ∧ same_static r r').
Proof.
  intros Hi Hr Hnew. set (id := request_id r) in *. unfold sched_add_request. rewrite run_get, bool_decide_false by done.
  rewrite (nr_resumable _ Hr). rewrite run_modify. cbv zeta. fold id. set (s1 := s <| objs ::= <[id := r]> |> <| prefill_stats ::= <[id := new_PrefillStats]> |>).
  assert (Hnot : id ∉ running s ++ waiting s ++ skipped_waiting s) by (by intros Hin%(inv_known d s id Hi)).
  rewrite !elem_of_app in Hnot. assert (Hr1 : objs s1 !! id = Some r) by (unfold s1; simpl; apply lookup_insert_eq).
  assert (Hkn : ∀ ids, (∀ i, i ∈ ids → i ∈ waiting s ++ skipped_waiting s) → known s1 ids).
  { intros ids Hsub i Hin. apply Hsub in Hin. destruct (si_wait _ _ _ _ _ Hi i Hin) as (q & [] & _). exists q. split; [|done]. unfold s1. simpl.
    rewrite lookup_insert_ne; [done|]. intros ->. rewrite elem_of_app in Hin. tauto. }
  assert (Hq : ∃ w k, _enqueue_waiting_request cfg id s1 = (Ok tt, s1 <| waiting := w |> <| skipped_waiting := k |>) ∧
    w ++ k ≡ₚ id :: waiting s ++ skipped_waiting s).
  { unfold _enqueue_waiting_request. rewrite run_get. ostep Hr1. destruct (_is_blocked_waiting_status (status r)).
    - exists (waiting s), (q_ids (add_request r (q_of cfg s1 (skipped_waiting s1)))). split; [reflexivity|].
      rewrite q_add_perm by (apply Hkn; intros i; rewrite elem_of_app; by right). symmetry. apply Permutation_middle.
    - exists (q_ids (add_request r (q_of cfg s1 (waiting s1)))), (skipped_waiting s). split; [reflexivity|].
      rewrite q_add_perm by (apply Hkn; intros i; rewrite elem_of_app; by left). done. }
  destruct Hq as (w & k & He & Hperm). mstep He. rewrite run_modify.
  set (g := λ r : Request, if sched_log_stats cfg then r <| events ::= λ l, l ++ [(EvQueued, ts)] |> else r).
  set (s2 := s1 <| waiting := w |> <| skipped_waiting := k |> <| s_requests ::= λ l, l ++ [id] |> <| objs ::= alter g id |>).
  exists s2. split.
  { unfold s2, g, upd. destruct (sched_log_stats cfg); [done|]. unfold ret. do 2 f_equal. cbv [setter set_objs]. simpl. by rewrite alter_same. }
  assert (Hg : same_static r (g r) ∧ status (g r) = status r ∧ num_computed_tokens (g r) = num_computed_tokens r ∧ num_output_placeholders (g r) = num_output_placeholders r)
    by (unfold g; by destruct (sched_log_stats cfg)).
  destruct Hg as (G1 & G2 & G3 & G4). assert (Hr2 : objs s2 !! id = Some (g r)) by (unfold s2; simpl; by rewrite lookup_alter_eq, lookup_insert_eq).
  assert (Hcov : kl_covers (kv s) id 0) by (by apply (si_unknown _ _ _ _ _ Hi)).
  split; [|split_and!; try done; [intros i Hne; unfold s2; simpl; by rewrite lookup_alter_ne, lookup_insert_ne|by exists (g r)]].
  apply (inv_apart d s s2 [id]); try done.
  - constructor; try done; intros i; rewrite list_elem_of_singleton; intros Hne; unfold s2; simpl.
    + by rewrite lookup_alter_ne, lookup_insert_ne.
    + rewrite elem_of_app, list_elem_of_singleton. tauto.
    + by rewrite lookup_insert_ne.
  - change (NoDup (running s ++ w ++ k)). rewrite Hperm, <-Permutation_middle. apply NoDup_cons. split; [rewrite !elem_of_app; tauto|apply (si_nodup _ _ _ _ _ Hi)].
  - intros i Hin. change (i ∈ running s) in Hin. split; [done|]. rewrite list_elem_of_singleton. intros ->. tauto.
  - intros i. change (waiting s2 ++ skipped_waiting s2) with (w ++ k). rewrite Hperm. intros [->|Hin]%elem_of_cons.
    + right. split.
      * exists (g r). pose proof (nr_tokens _ Hr). pose proof (nr_computed _ Hr). rewrite G3, (nr_computed _ Hr), (static_tokens r (g r)) by done. split_and!; try done; try lia; [|..|apply kl_parked_none].
        -- constructor; try done.
           ++ by rewrite (static_id r (g r)).
           ++ unfold s2. simpl. apply elem_of_app. right. by left.
           ++ eapply kl_ok_static; [exact G1|apply (nr_kv _ Hr)].
           ++ eapply el_ok_static; [exact G1|apply (nr_enc _ Hr)].
           ++ by rewrite (static_tokens r (g r)).
           ++ unfold placeholders_ok. rewrite G4, (nr_placeholders _ Hr). done.
           ++ intros _. rewrite (static_tokens r (g r)), (static_prompt r (g r)) by done. apply (nr_prompt _ Hr).
        -- unfold waiting_status. rewrite G2. by destruct (nr_status _ Hr) as [-> | ->].
      * intros q Hq. rewrite Hr2 in Hq. injection Hq as <-. rewrite G2. by destruct (nr_status _ Hr) as [-> | ->].
    + left. split; [done|]. rewrite list_elem_of_singleton. intros ->. rewrite elem_of_app in Hin. tauto.
  - apply (si_kv _ _ _ _ _ Hi).
  - apply (si_enc _ _ _ _ _ Hi).
  - by intros i ->%list_elem_of_singleton.
Qed.

(* ===================================================================== *)
(** ** Freeing a request                                                  *)
(* ===================================================================== *)

(** A finished request gives back its encoder inputs and its blocks and is
    forgotten. *)
Record freed_state (id : string) s s' : Prop := {
  fs_apart : apart [id] s s';
  fs_objs : objs s' = objs s;
  fs_running : running s' = running s;
  fs_waiting : waiting s' = waiting s;
  fs_skipped : skipped_waiting s' = skipped_waiting s;
  fs_known : s_requests s' = filter (λ i, i ≠ id) (s_requests s);
  fs_finished : finished_req_ids s' = {[id]} ∪ finished_req_ids s;
  fs_prev : prev_step_scheduled_req_ids s' = prev_step_scheduled_req_ids s;
  fs_prefill : prefill_stats s' = prefill_stats s;
  fs_kv : kl_inv (kv s');
  fs_enc : el_inv (enc s');
  fs_covers : kl_covers (kv s') id 0;
}.
Lemma free_spec s id r :
  objs s !! id = Some r → request_id r = id → id ∈ s_requests s → el_ok r → is_finished r = true → kl_inv (kv s) → el_inv (enc s) →
  ∃ s', _free_request no_connector set_order id false s = (Ok tt, s') ∧ freed_state id s s'.
Proof.
  intros Hr Hid Hkn Hel Hfin Hk He. unfold _free_request. ostep Hr. rewrite run_assert, Hfin. unfold _connector_finished. rewrite run_ret.
  destruct (el_free (enc s) r He Hel) as (e & Hfe & Hei & _). estep Hfe. rewrite run_modify. cbn [negb orb].
  set (s1 := setter finished_req_ids_dict _ _). unfold _free_blocks.
  assert (Hr1 : objs s1 !! id = Some r) by done. ostep Hr1. rewrite run_assert, Hfin.
  destruct (kl_free (kv s) r Hk) as (k & Hfk & Hki & Hc0 & Hoth). rewrite Hid in Hc0, Hoth.
  assert (Hfk1 : kv_free r (kv s1) = (Ok tt, k)) by done. kstep Hfk1. rewrite run_get.
  assert (Hkn1 : id ∈ s_requests (s1 <| kv := k |>)) by done. rewrite bool_decide_true by done. eexists. split; [reflexivity|].
  constructor; try done. constructor; try done; simpl.
  - intros i Hi. rewrite list_elem_of_singleton in Hi. rewrite list_elem_of_filter. tauto.
  - intros i n Hi. rewrite list_elem_of_singleton in Hi. by apply Hoth.
Qed.

(** Known requests are different objects. *)
Definition ident s : Prop := ∀ i j r q, i ∈ s_requests s → j ∈ s_requests s → objs s !! i = Some r → objs s !! j = Some q →
  py_id r = py_id q → i = j.
(** The store, the three lists and the invariant agree. *)
Record good (d : list (string * list Z)) s : Prop := {
  g_inv : sinv d s;
  g_all : s_requests s ≡ₚ running s ++ waiting s ++ skipped_waiting s;
  g_ident : ident s;
}.
Lemma good_req d s id : good d s → id ∈ s_requests s → ∃ r, rok s id r.
Proof. intros [H1 H2 _] Hid. rewrite H2 in Hid. by eapply inv_req. Qed.

(* ===================================================================== *)
(** ** Resetting the prefix cache                                         *)
(* ===================================================================== *)

(** Objects keep their identities. *)
Lemma ident_static s s' : keeps_static s s' → s_requests s' = s_requests s → ident s → ident s'.
Proof.
  intros Hst Hk Hid i j a b Hi Hj Ha Hb Hab. rewrite Hk in Hi, Hj.
  assert (Hback : ∀ i a, objs s' !! i = Some a → ∃ a0, objs s !! i = Some a0 ∧ py_id a0 = py_id a).
  { intros i0 a0 H0. specialize (Hst i0). rewrite H0 in Hst. inversion Hst as [a1 ? Hs Heq|]. exists a1. split; [done|].
    apply (f_equal py_id) in Hs. by symmetry. }
  destruct (Hback i a Ha) as (a0 & Ha0 & Hpa). destruct (Hback j b Hb) as (b0 & Hb0 & Hpb). apply (Hid i j a0 b0); try done. congruence.
Qed.
(** Resetting with the running requests preempts all of them and cannot fail:
    no request holds a block then. *)
Lemma reset_spec s ts :
  good [] s → (∀ n, kl_parked n → n = 0) →
  ∃ s', sched_reset_prefix_cache cfg no_connector set_order ts true false s = (Ok true, s') ∧ good [] s' ∧
    running s' = [] ∧ s_requests s' = s_requests s ∧ keeps_static s s'.
Proof.
  intros [Hi Hall Hid] Hpark. unfold sched_reset_prefix_cache. cbv match. rewrite bind_assoc, run_get, bind_assoc.
  set (ids := running s ++ waiting s ++ skipped_waiting s).
  destruct (preempt_all_spec cfg hci (λ _, true) set_order ids (S (length (running s))) s ts) as (s1 & He & Hc & Hr & Hst & _ & Hre); [lia|by apply inv_core|].
  mstep He. rewrite run_modify. set (s2 := s1 <| prev_step_scheduled_req_ids := ∅ |>). injection Hre as _ _ Hkn.
  pose proof Hc as [C0 C1 C2 C3 C4 C5 C6 C7]. rewrite Hr, app_nil_r in *. simpl in C0, C1.
  assert (Hcov : ∀ id, kl_covers (kv s1) id 0).
  { intros id. destruct (decide (id ∈ s_requests s1)) as [Hin|Hin]; [|by apply C7]. rewrite Hkn, Hall in Hin. fold ids in Hin. rewrite <-C0 in Hin.
    destruct (C3 id Hin) as (r & _ & _ & _ & Hk & Hp). apply Hpark in Hp. by rewrite Hp in Hk. }
  destruct (kl_reset (kv s1) C4 Hcov) as (k & Hk & Hkv & Hkeep). kstep Hk. cbn [negb andb]. rewrite run_ret.
  set (s3 := s2 <| kv := k |>). exists s3. split; [done|]. change (running s3) with (running s1).
  assert (Hw : ∀ id, id ∈ waiting s1 ++ skipped_waiting s1 → wait_ok cfg hci set_order s3 id).
  { intros id Hin. destruct (C3 id Hin) as (r & [] & H1 & H2 & H3 & H4). exists r. split_and!; try done; [..|by apply Hkeep]; apply H2. }
  split_and!; try done. constructor.
  - constructor; change (running s3) with (running s1); rewrite ?Hr; simpl; try done.
    + by intros id ?%not_elem_of_nil.
    + intros id Hin. by apply Hkeep, C7.
  - change (s_requests s1 ≡ₚ running s1 ++ waiting s1 ++ skipped_waiting s1). rewrite Hr, Hkn, Hall. simpl. by rewrite C0.
  - by apply (ident_static s s3).
Qed.
Lemma among_ids s rs i r :
  ident s → i ∈ s_requests s → objs s !! i = Some r → (∀ q, q ∈ rs → objs s !! request_id q = Some q ∧ request_id q ∈ s_requests s) →
  among rs r = true ↔ i ∈ request_id <$> rs.
Proof.
  intros Hid Hi Hr Hrs. unfold among, same. rewrite existsb_exists, list_elem_of_fmap. split.
  - intros (q & Hq & He). apply list_elem_of_In in Hq. destruct (Hrs q Hq) as [H1 H2]. apply Z.eqb_eq in He. exists q. split; [|done]. by apply (Hid i (request_id q) r q).
  - intros (q & -> & Hq). exists q. split; [by apply list_elem_of_In|]. destruct (Hrs q Hq) as [H1 _]. rewrite H1 in Hr. injection Hr as <-. apply Z.eqb_refl.
Qed.
Lemma q_remove_perm s ids rs :
  known s ids → ident s → (∀ i, i ∈ ids → i ∈ s_requests s) →
  (∀ q, q ∈ rs → objs s !! request_id q = Some q ∧ request_id q ∈ s_requests s) →
  q_ids (remove_requests rs (q_of cfg s ids)) ≡ₚ filter (λ i, i ∉ request_id <$> rs) ids.
Proof.
  intros Hk Hid Hin Hrs. assert (Hf : request_id <$> filter (λ r, negb (among rs r)) (omap (λ i, objs s !! i) ids) = filter (λ i, i ∉ request_id <$> rs) ids).
  { induction ids as [|i ids IH]; [done|]. destruct (Hk i) as (r & Hr & Hi); [by left|].
    specialize (IH (λ j Hj, Hk j (list_elem_of_further _ _ _ Hj)) (λ j Hj, Hin j (list_elem_of_further _ _ _ Hj))). simpl. rewrite Hr. simpl.
    rewrite !filter_cons. pose proof (among_ids s rs i r Hid (Hin i (list_elem_of_here _ _)) Hr Hrs) as Ham. destruct (among rs r); simpl.
    - rewrite decide_False by (intros Hn; apply Hn, Ham; done). exact IH.
    - rewrite decide_True by (intros Hn%Ham; done). simpl. rewrite Hi. f_equal. exact IH. }
  unfold q_of, q_ids. destruct (policy cfg); simpl; [by rewrite Hf|]. by rewrite heapify_perm, Hf.
Qed.

(* ===================================================================== *)
(** ** Aborting requests                                                  *)
(* ===================================================================== *)

(** A request that is in none of the lists any more. *)
Definition leaving s id : Prop := (id ∉ running s ++ waiting s ++ skipped_waiting s) ∧ ∃ r, objs s !! id = Some r ∧ request_id r = id ∧
  id ∈ s_requests s ∧ el_ok r ∧ status r ≠ WAITING_FOR_REMOTE_KVS.
Lemma leaving_apart ids s s' id : apart ids s s' → (id ∉ ids) → running s' = running s → waiting s' = waiting s →
  skipped_waiting s' = skipped_waiting s → leaving s id → leaving s' id.
Proof.
  intros Ha Hid H1 H2 H3 (Hl & r & Hr & Hi & Hk & Hrest). unfold leaving. rewrite H1, H2, H3. split; [done|]. exists r. split_and!; try done; try tauto.
  - by rewrite (ap_objs _ _ _ Ha).
  - by apply (ap_known _ _ _ Ha).
Qed.
Lemma finish_one_spec s d st id :
  sinv d s → status_is_finished st = true → leaving s id →
  ∃ s', finish_one no_connector set_order st id s = (Ok tt, s') ∧ sinv d s' ∧ apart [id] s s' ∧ running s' = running s ∧
    waiting s' = waiting s ∧ skipped_waiting s' = skipped_waiting s ∧ s_requests s' = filter (λ i, i ≠ id) (s_requests s) ∧
    finished_req_ids s' = {[id]} ∪ finished_req_ids s ∧ prev_step_scheduled_req_ids s' = prev_step_scheduled_req_ids s.
Proof.
  intros Hi Hst (Hl & r & Hr & Hid & Hk & Hel & Hrem). unfold finish_one. ostep Hr. rewrite run_get, bool_decide_false, run_ret by done.
  unfold upd. rewrite run_modify. set (f := λ r : Request, r <| status := st |>). set (s1 := s <| objs ::= alter f id |>).
  assert (Hr1 : objs s1 !! id = Some (f r)) by (unfold s1; simpl; by rewrite lookup_alter_eq, Hr).
  assert (Ha1 : apart [id] s s1) by (constructor; try done; intros i Hi1; rewrite list_elem_of_singleton in Hi1; unfold s1; simpl; by rewrite lookup_alter_ne).
  destruct (free_spec s1 id (f r) Hr1 Hid Hk) as (s' & He & [F1 F2 F3 F4 F5 F6 F7 F8 F9 F10 F11 F12]); try done.
  { eapply (el_ok_static r); [done|exact Hel]. }
  { apply (si_kv _ _ _ _ _ Hi). }
  { apply (si_enc _ _ _ _ _ Hi). }
  assert (Ha : apart [id] s s') by (by eapply apart_trans). exists s'. split; [exact He|]. split; [|by split_and!].
  change (running s1) with (running s) in F3. change (waiting s1) with (waiting s) in F4. change (skipped_waiting s1) with (skipped_waiting s) in F5.
  rewrite !elem_of_app in Hl. apply (inv_apart d s s' [id]); try done; rewrite ?F3, ?F4, ?F5; try done.
  - apply (si_nodup _ _ _ _ _ Hi).
  - intros i Hii. split; [done|]. rewrite list_elem_of_singleton. intros ->. tauto.
  - intros i Hii. left. split; [done|]. rewrite list_elem_of_singleton. intros ->. rewrite elem_of_app in Hii. tauto.
  - by intros i ->%list_elem_of_singleton.
Qed.
Lemma finish_loop s d st V :
  status_is_finished st = true → NoDup V → sinv d s → (∀ id, id ∈ V → leaving s id) →
  ∃ s', for_ V (finish_one no_connector set_order st) s = (Ok tt, s') ∧ sinv d s' ∧ apart V s s' ∧ running s' = running s ∧
    waiting s' = waiting s ∧ skipped_waiting s' = skipped_waiting s ∧ (∀ i, i ∈ s_requests s' ↔ i ∈ s_requests s ∧ (i ∉ V)) ∧
    (NoDup (s_requests s) → NoDup (s_requests s')) ∧ finished_req_ids s' = list_to_set V ∪ finished_req_ids s.
Proof.
  intros Hst. revert s. induction V as [|id V IH]; intros s Hnd Hi Hl.
  { exists s. split_and!; try done; try apply apart_refl; try set_solver. }
  apply NoDup_cons in Hnd as [Hid Hnd]. destruct (finish_one_spec s d st id Hi Hst) as (s1 & He & Hi1 & Ha1 & R1 & W1 & K1 & Q1 & F1 & _); [apply Hl; by left|].
  simpl. mstep He. destruct (IH s1 Hnd Hi1) as (s' & He' & Hi' & Ha' & R' & W' & K' & Q' & N' & F').
  { intros i Hin. apply (leaving_apart [id] s s1); try done; [|apply Hl; by right]. rewrite list_elem_of_singleton. by intros ->. }
  exists s'. split; [exact He'|]. split_and!; try done; try congruence.
  - eapply apart_trans; [eapply (apart_more [id]); [|exact Ha1]|eapply (apart_more V); [|exact Ha']]; intros i; [rewrite list_elem_of_singleton; intros ->; by left|by right].
  - intros i. rewrite Q', Q1, list_elem_of_filter, not_elem_of_cons. tauto.
  - intros Hn. apply N'. rewrite Q1. by apply NoDup_filter.
  - rewrite F', F1. set_solver.
Qed.

Lemma listed_status d s id r :
  sinv d s → objs s !! id = Some r → id ∈ running s ++ waiting s ++ skipped_waiting s →
  is_finished r = false ∧ status r ≠ WAITING_FOR_REMOTE_KVS ∧ (status r = RUNNING ↔ id ∈ running s).
Proof.
  intros Hi Hr Hid. pose proof (si_nodup _ _ _ _ _ Hi) as Hnd. apply NoDup_app in Hnd as (_ & Hnd & _). apply elem_of_app in Hid as [Hid|Hid].
  - destruct (si_run _ _ _ _ _ Hi id Hid) as (q & [] & Hs & _). assert (q = r) as -> by congruence. unfold is_finished. rewrite Hs. by split_and!.
  - destruct (si_wait _ _ _ _ _ Hi id Hid) as (q & [] & Hs & _). assert (q = r) as -> by congruence. unfold waiting_status, is_finished in *.
    destruct (status r); try done; split_and!; try done; (split; [done|]); intros Hrun; by destruct (Hnd id Hrun).
Qed.
Lemma live_spec d s ids :
  good d s → request_id <$> live_requests s ids = filter (λ i, i ∈ s_requests s) ids ∧
    (∀ q, q ∈ live_requests s ids → objs s !! request_id q = Some q ∧ request_id q ∈ s_requests s).
Proof.
  intros Hg. unfold live_requests. induction ids as [|id ids [IH1 IH2]]; [split; [done|by intros q ?%not_elem_of_nil]|].
  rewrite filter_cons. destruct (decide (id ∈ s_requests s)) as [Hk|Hk]; cbn [omap list_omap].
  - rewrite bool_decide_true by done. destruct (good_req d s id Hg Hk) as (r & Hr). rewrite (ro_obj _ _ _ _ _ _ Hr).
    destruct (listed_status d s id r (g_inv _ _ Hg) (ro_obj _ _ _ _ _ _ Hr)) as (-> & _); [by rewrite <-(g_all _ _ Hg)|].
    split; [rewrite fmap_cons, (ro_id _ _ _ _ _ _ Hr); by f_equal|]. intros q [->|Hq]%elem_of_cons; [|by apply IH2].
    rewrite (ro_id _ _ _ _ _ _ Hr). split; [apply (ro_obj _ _ _ _ _ _ Hr)|done].
  - rewrite bool_decide_false by done. done.
Qed.
Lemma ids_filter {P : Request → Prop} `{!∀ r, Decision (P r)} (l : list Request) i :
  i ∈ request_id <$> filter P l ↔ ∃ r, r ∈ l ∧ P r ∧ request_id r = i.
Proof.
  rewrite list_elem_of_fmap. split; [intros (r & -> & [H1 H2]%list_elem_of_filter); eauto|].
  intros (r & H1 & H2 & <-). exists r. split; [done|]. by apply list_elem_of_filter.
Qed.
Lemma filter_perm_ids {A} `{EqDecision A} (P Q : A → Prop) `{!∀ x, Decision (P x)} `{!∀ x, Decision (Q x)} (l l' : list A) :
  l' ≡ₚ filter P l → (∀ x, x ∈ l → P x ↔ Q x) → l' ≡ₚ filter Q l.
Proof.
  intros -> HPQ. assert (Heq : filter P l = filter Q l); [|by rewrite Heq]. induction l as [|x l IH]; [done|].
  rewrite !filter_cons, IH by (intros y Hy; apply HPQ; by right).
  pose proof (HPQ x (list_elem_of_here _ _)). destruct (decide (P x)), (decide (Q x)); first [done|tauto].
Qed.

(** [finish_requests] takes the known requests among [ids] out of the scheduler. *)
Lemma finish_spec s d ids st :
  good d s → NoDup ids → status_is_finished st = true →
  ∃ out s', finish_requests cfg no_connector set_order ids st s = (Ok out, s') ∧ good d s' ∧
    out.*1 = filter (λ i, i ∈ s_requests s) ids ∧ (∀ i, i ∈ s_requests s' ↔ i ∈ s_requests s ∧ (i ∉ ids)) ∧
    running s' ≡ₚ filter (λ i, i ∉ ids) (running s) ∧ (∀ i, (i ∉ ids) → objs s' !! i = objs s !! i) ∧
    finished_req_ids s' = list_to_set (filter (λ i, i ∈ s_requests s) ids) ∪ finished_req_ids s.
Proof.
  intros Hg Hnd Hst. pose proof (g_inv _ _ Hg) as Hi. destruct (live_spec d s ids Hg) as [Hlive Hobj]. unfold finish_requests. rewrite run_assert, Hst, run_get. cbv zeta.
  set (valid := live_requests s ids) in *. set (V := filter (λ i, i ∈ s_requests s) ids) in *.
  set (inw := filter (λ r, status r ≠ RUNNING) valid). rewrite run_put.
  match goal with |- context [bind _ _ ?x] => set (s1 := x) end.
  assert (HV : ∀ i, i ∈ s_requests s → i ∈ ids ↔ i ∈ V) by (intros i Hin; unfold V; rewrite list_elem_of_filter; tauto).
  assert (Hst' : ∀ q, q ∈ valid → status q = RUNNING ↔ request_id q ∈ running s).
  { intros q Hq. destruct (Hobj q Hq) as [H1 H2]. apply (listed_status d s (request_id q) q Hi H1). by rewrite <-(g_all _ _ Hg). }
  assert (Hin_V : ∀ i (b : bool), i ∈ s_requests s → (i ∈ running s ↔ b = true) →
    (i ∈ request_id <$> (if b then filter (λ r, status r = RUNNING) valid else inw)) ↔ i ∈ V).
  { intros i b Hk Hb. rewrite <-Hlive. destruct b; unfold inw; rewrite ids_filter, list_elem_of_fmap; (split; [intros (q & H1 & _ & <-); eauto|]);
      intros (q & -> & Hq); exists q; split_and!; try done; [apply Hst'; tauto|rewrite Hst' by done; intros ?%Hb; done]. }
  assert (Hkn : ∀ i, i ∈ running s ++ waiting s ++ skipped_waiting s → i ∈ s_requests s) by (intros i; by rewrite (g_all _ _ Hg)).
  assert (Hdisj : ∀ i, i ∈ waiting s ++ skipped_waiting s → (i ∉ running s)).
  { pose proof (si_nodup _ _ _ _ _ Hi) as Hn. apply NoDup_app in Hn as (_ & Hn & _). intros i H1 H2. by apply (Hn i). }
  assert (Hr1 : running s1 ≡ₚ filter (λ i, i ∉ V) (running s)).
  { unfold s1. simpl. rewrite remove_all_is_filter by (pose proof (si_nodup _ _ _ _ _ Hi) as Hn; by apply NoDup_app in Hn as [? _]).
    eapply filter_perm_ids; [done|]. intros i Hir. simpl. rewrite (Hin_V i true); [done|apply Hkn, elem_of_app; by left|done]. }
  assert (Hq1 : ∀ l, (∀ i, i ∈ l → i ∈ waiting s ++ skipped_waiting s) →
    (match inw with [] => l | _ => q_ids (remove_requests inw (q_of cfg s l)) end) ≡ₚ filter (λ i, i ∉ V) l).
  { intros l Hl. assert (Hrm : q_ids (remove_requests inw (q_of cfg s l)) ≡ₚ filter (λ i, i ∉ V) l).
    { eapply filter_perm_ids; [apply q_remove_perm|].
      - apply (wait_known cfg hci set_order). intros i Hil. apply (si_wait _ _ _ _ _ Hi), Hl, Hil.
      - apply (g_ident _ _ Hg).
      - intros i Hil. apply Hkn, elem_of_app. right. auto.
      - intros q [_ Hq]%list_elem_of_filter. by apply Hobj.
      - intros i Hil. simpl. rewrite (Hin_V i false); [done|apply Hkn, elem_of_app; right; auto|]. split; [intros ?; by destruct (Hdisj i (Hl i Hil))|done]. }
    destruct inw as [|x inw'] eqn:Hinw; [|exact Hrm]. rewrite filter_all; [done|]. intros i Hil HVi.
    apply (Hin_V i false) in HVi; [by apply not_elem_of_nil in HVi|apply Hkn, elem_of_app; right; auto|]. split; [intros ?; by destruct (Hdisj i (Hl i Hil))|done]. }
  assert (Hw1 : waiting s1 ≡ₚ filter (λ i, i ∉ V) (waiting s)) by (apply Hq1; intros i; rewrite elem_of_app; by left).
  assert (Hk1 : skipped_waiting s1 ≡ₚ filter (λ i, i ∉ V) (skipped_waiting s)) by (apply Hq1; intros i; rewrite elem_of_app; by right).
  assert (Hall1 : running s1 ++ waiting s1 ++ skipped_waiting s1 ≡ₚ filter (λ i, i ∉ V) (s_requests s)).
  { rewrite Hr1, Hw1, Hk1, <-!filter_app. by rewrite <-(g_all _ _ Hg). }
  assert (Hnk : NoDup (s_requests s)) by (rewrite (g_all _ _ Hg); apply (si_nodup _ _ _ _ _ Hi)).
  assert (Hi1 : sinv d s1).
  { apply (inv_apart d s s1 V); try done.
    - rewrite Hall1. by apply NoDup_filter.
    - intros i. rewrite Hr1, list_elem_of_filter. tauto.
    - intros i. rewrite Hw1, Hk1, <-filter_app, list_elem_of_filter. tauto.
    - apply (si_kv _ _ _ _ _ Hi).
    - apply (si_enc _ _ _ _ _ Hi).
    - unfold len. rewrite Hr1. pose proof (length_filter (λ i, i ∉ V) (running s)). lia.
    - intros i [HiV _]%list_elem_of_filter Hni. done. }
  assert (Hl : ∀ id, id ∈ V → leaving s1 id).
  { intros id HidV. split; [rewrite Hall1, list_elem_of_filter; tauto|]. pose proof HidV as [Hk _]%list_elem_of_filter.
    destruct (good_req d s id Hg Hk) as (r & Hr). destruct (listed_status d s id r Hi (ro_obj _ _ _ _ _ _ Hr)) as (_ & Hrem & _); [by rewrite <-(g_all _ _ Hg)|].
    exists r. destruct Hr. by split_and!. }
  destruct (finish_loop s1 d st V Hst) as (s' & He & Hi' & Ha' & R' & W' & K' & Q' & N' & F'); try done; [by apply NoDup_filter|].
  rewrite Hlive. mstep He. eexists _, s'. split; [reflexivity|].
  assert (Hmem : ∀ i, i ∈ s_requests s' ↔ i ∈ s_requests s ∧ (i ∉ ids)).
  { intros i. rewrite Q'. change (s_requests s1) with (s_requests s). split; intros [H1 H2]; (split; [done|]); by rewrite (HV i H1) in *. }
  split_and!; try done.
  - constructor; [done| |].
    + rewrite R', W', K', Hall1. apply NoDup_Permutation; [by apply N'|by apply NoDup_filter|]. intros i. rewrite Q', list_elem_of_filter. tauto.
    + intros i j r q Hii Hjj Hr Hq. apply Q' in Hii as [Hi1' HiV]. apply Q' in Hjj as [Hj1 HjV].
      rewrite (ap_objs _ _ _ Ha') in Hr, Hq by done. by apply (g_ident _ _ Hg i j r q).
  - rewrite <-Hlive. rewrite <-list_fmap_compose. done.
  - rewrite R', Hr1. eapply filter_perm_ids; [done|]. intros i Hir. simpl. rewrite (HV i); [done|]. apply Hkn, elem_of_app. by left.
  - intros i Hii. rewrite (ap_objs _ _ _ Ha'); [done|]. by intros [_ ?]%list_elem_of_filter.
Qed.

(** A new request enters with an object of its own. *)
Lemma add_good hasher s d r ts :
  good d s → new_req r → (request_id r ∉ s_requests s) → (∀ i q, i ∈ s_requests s → objs s !! i = Some q → py_id q ≠ py_id r) →
  ∃ s', sched_add_request cfg no_connector set_order hasher r ts s = (Ok tt, s') ∧ good d s' ∧ running s' = running s ∧
    waiting s' ++ skipped_waiting s' ≡ₚ request_id r :: waiting s ++ skipped_waiting s.
Proof.
  intros [Hi Hall Hid] Hr Hnew Hpy. destruct (add_spec hasher s d r ts Hi Hr Hnew) as (s' & He & Hi' & Hrun & Hw & Hk & Hob & r' & Hr' & Hst).
  exists s'. split_and!; try done. constructor; [done| |].
  - rewrite Hk, Hrun, Hw, Hall. rewrite <-Permutation_cons_append. apply Permutation_middle.
  - assert (Hpy' : py_id r' = py_id r) by (apply (f_equal py_id) in Hst; exact Hst).
    assert (Hold : ∀ i, i ∈ s_requests s → i ≠ request_id r) by (by intros i Hin ->).
    intros i j a b. rewrite Hk, !elem_of_app, !list_elem_of_singleton. intros [Hii| ->] [Hjj| ->] Ha Hb Hpp; try done.
    + rewrite Hob in Ha, Hb by auto. by apply (Hid i j a b).
    + rewrite Hob in Ha by auto. rewrite Hr' in Hb. injection Hb as <-. destruct (Hpy i a Hii Ha). congruence.
    + rewrite Hob in Hb by auto. rewrite Hr' in Ha. injection Ha as <-. destruct (Hpy j b Hjj Hb). congruence.
Qed.
End life.
