(* ===== verification/SchedulerStep.v ===== *)
(** * A full step of the synchronous scheduler ([src/vllm/v1/core/sched/scheduler.py])

    [update_from_output] appends the tokens the model has sampled, gives back
    the computed tokens of rejected drafts, and frees the requests that stop.
    Together with [schedule], [add_request] and [finish_requests] it keeps the
    scheduler's invariant, so that the engine's loop runs for ever without a
    failing assertion, whatever the model samples. *)
From S2P Require Import Prelude Request BlockHash BlockPool KVCacheManager HeapQ RequestQueue EncoderCache SchedUtils Scheduler SchedulerInv SchedulerLife.
Local Open Scope Z_scope.

(** What the scheduler relies on when a token is appended: the block hasher
    returns and only extends the hashes, and the request stays one the two
    managers can serve. *)
Definition grown_by (t : Z) (hs : list bytes) memo (r : Request) : Request :=
  appended r [t] <| block_hashes := hs |> <| _prompt_embeds_per_block_hashes := memo |>.
Class AppendLaws {K E : Type} `{!KVManager K} `{!EncoderManager E} (max_len : Z) (set_order : list Z → list Z) (dc : bool)
    (hci : option (mm_hash → bool)) `{!KVLaws K max_len} `{!EncLaws E set_order dc hci} (hasher : option BlockHasher) :=
  append_ok : ∀ r t, kl_ok r → el_ok r → ∃ hs memo, append_output_token_ids hasher [t] r = (Ok tt, grown_by t hs memo r) ∧
    kl_ok (grown_by t hs memo r) ∧ el_ok (grown_by t hs memo r).

Section step.
Context {K E : Type} `{!KVManager K} `{!EncoderManager E}.
Variables (cfg : Config) (hci : option (mm_hash → bool)) (grammar_ready : Request → bool) (set_order : list Z → list Z).
Context `{!KVLaws K (max_model_len cfg)} `{!EncLaws E set_order (disable_chunked_mm cfg) hci}.
Variables (hasher : option BlockHasher) (should_advance : Request → bool) (accept_tokens : string → list Z → bool).
Context `{!AppendLaws (max_model_len cfg) set_order (disable_chunked_mm cfg) hci hasher}.
(** The grammar of a request advances only if it has one. *)
Hypothesis advance_structured : ∀ r, should_advance r = true → is_some (structured_output_request r) = true.
Abbreviation ST := (Scheduler K E unit).
Abbreviation no_connector := (None : option (KVConnector unit)).
Implicit Types (s : ST) (id : string).
Abbreviation sinv := (sched_inv cfg hci set_order).
Abbreviation rok := (req_ok cfg hci set_order).

Ltac kstep H := erewrite bind_ok; [|apply on_kv_ok; exact H].
Ltac estep H := erewrite bind_ok; [|apply on_enc_ok; exact H].
Ltac ostep H := erewrite bind_ok; [|apply obj_ok; exact H].

(* ===================================================================== *)
(** ** Appending tokens                                                   *)
(* ===================================================================== *)

(** A request that generates text and stops before the model length: the least
    number of tokens asked for is not above the greatest. *)
Record generates (r : Request) : Prop := {
  ge_pooling : pooling_params r = None;
  ge_sampling : ∃ sp, sampling_params r = Some sp ∧ min_tokens sp ≤ max_tokens r;
  ge_length : num_prompt_tokens r + max_tokens r ≤ max_model_len cfg;
  ge_tokens : num_tokens r = num_prompt_tokens r + num_output_tokens r;
  ge_session : resumable r = false;
}.
(** What appending tokens leaves alone. *)
Definition kept_key (r : Request) :=
  (request_id r, py_id r, num_computed_tokens r, num_output_placeholders r, (resumable r, max_tokens r, sampling_params r),
   (pooling_params r, num_prompt_tokens r, lora_request r, spec_token_ids r)).
Lemma generates_key r r' : kept_key r' = kept_key r → num_tokens r' = num_prompt_tokens r' + num_output_tokens r' → generates r → generates r'.
Proof.
  unfold kept_key. intros [= H1 H2 H3 H4 H5 H6 H7 H8 H9 H10 H11] Ht [G1 G2 G3 G4 G5]. constructor; try congruence.
  destruct G2 as (sp & Hsp & Hm). exists sp. split; [congruence|by rewrite H6].
Qed.

Lemma append_loop todo r kept :
  kl_ok r → el_ok r → generates r → num_tokens r < max_model_len cfg →
  ∃ kept' stopped r', update_loop hasher (max_model_len cfg) kept todo r = (Ok (kept', stopped), r') ∧ kept_key r' = kept_key r ∧
    kl_ok r' ∧ el_ok r' ∧
    (if (stopped : bool) then is_finished r' = true
     else status r' = status r ∧ kept' = kept ++ todo ∧ num_tokens r' = num_tokens r + len todo ∧ num_tokens r' < max_model_len cfg ∧ generates r').
Proof.
  revert r kept. induction todo as [|t todo IH]; intros r kept Hk He Hg Hlt; simpl.
  { exists kept, false, r. split_and!; try done; try (by rewrite app_nil_r); unfold len; simpl; lia. }
  destruct (append_ok r t Hk He) as (hs & memo & Ha & Hk1 & He1). mstep Ha. set (r1 := grown_by t hs memo r) in *.
  destruct (ge_sampling _ Hg) as (sp & Hsp & Hmin).
  assert (Ho1 : _output_token_ids r1 = _output_token_ids r ++ [t]) by done. assert (Ha1 : _all_token_ids r1 = _all_token_ids r ++ [t]) by done.
  assert (Hn1 : num_tokens r1 = num_tokens r + 1) by (unfold num_tokens; by rewrite Ha1, len_app).
  assert (Hn2 : num_output_tokens r1 = num_output_tokens r + 1) by (unfold num_output_tokens; by rewrite Ho1, len_app).
  assert (Hg1 : generates r1).
  { apply (generates_key r); [done| |done]. change (num_prompt_tokens r1) with (num_prompt_tokens r). rewrite Hn1, Hn2, (ge_tokens _ Hg). lia. }
  destruct (check_stop_exact (max_model_len cfg) r1 sp) as (b & r2 & Hcs & Hb & Hf & Ht); [apply (ge_pooling _ Hg)|done|rewrite Ho1; by destruct (_output_token_ids r)|].
  mstep Hcs. destruct b.
  - destruct (Ht eq_refl) as (Hfin & Hr2 & _). eexists _, true, r2. split; [reflexivity|]. rewrite Hr2 in Hfin |- *.
    split_and!; try done; [by eapply (kl_ok_static r1)|by eapply (el_ok_static r1)].
  - rewrite (Hf eq_refl). assert (Hlt1 : num_tokens r1 < max_model_len cfg).
    { destruct (decide (num_tokens r1 < max_model_len cfg)) as [|Hge]; [done|]. exfalso. assert (Hno : false = true); [|done]. apply Hb.
      split; [|right; left; left; lia]. pose proof (ge_length _ Hg1). pose proof (ge_tokens _ Hg1). change (max_tokens r1) with (max_tokens r) in *. lia. }
    destruct (IH r1 (kept ++ [t]) Hk1 He1 Hg1 Hlt1) as (kept' & stopped & r' & Hu & Hkey & Hk' & He' & Hres).
    exists kept', stopped, r'. split_and!; try done. destruct stopped; [done|]. destruct Hres as (R1 & -> & R3 & R4 & R5).
    split_and!; try done; [by rewrite <-app_assoc|]. rewrite R3, Hn1, len_cons. lia.
Qed.

(* ===================================================================== *)
(** ** One request                                                        *)
(* ===================================================================== *)

(** The state with request [id] replaced. *)
Definition put_obj id (r : Request) s : ST := s <| objs := <[id := r]> (objs s) |>.
Lemma run_upd {B} id r f (k : unit → M ST B) s : objs s !! id = Some r → bind (upd id f) k s = k tt (put_obj id (f r) s).
Proof.
  intros Hr. unfold upd. rewrite run_modify. f_equal. unfold put_obj. destruct s. cbv [setter set_objs]. simpl in *. f_equal.
  apply map_eq. intros i. destruct (decide (i = id)) as [->|Hne]; [by rewrite lookup_alter_eq, Hr, lookup_insert_eq|by rewrite lookup_alter_ne, lookup_insert_ne].
Qed.
Lemma upd_end id r f s : objs s !! id = Some r → upd id f s = (Ok tt, put_obj id (f r) s).
Proof. intros Hr. pose proof (run_upd id r f ret s Hr) as H. unfold bind in H. destruct (upd id f s) as [[[]|] s'] eqn:He; [done|done]. Qed.
Lemma put_twice id a b s : put_obj id a (put_obj id b s) = put_obj id a s.
Proof. unfold put_obj. destruct s. cbv [setter set_objs]. simpl. by rewrite insert_insert_eq. Qed.
Lemma put_same id r s : objs s !! id = Some r → put_obj id r s = s.
Proof. intros Hr. unfold put_obj. destruct s. cbv [setter set_objs]. simpl in *. by rewrite insert_id. Qed.
Lemma put_lookup id r s : objs (put_obj id r s) !! id = Some r.
Proof. unfold put_obj. simpl. apply lookup_insert_eq. Qed.
Lemma run_on_obj {A B} id r r' (m : M Request A) a (k : A → M ST B) s :
  objs s !! id = Some r → m r = (Ok a, r') → bind (on_obj id m) k s = k a (put_obj id r' s).
Proof.
  intros Hr Hm. unfold on_obj. rewrite bind_assoc. ostep Hr. rewrite Hm, bind_assoc, (run_upd id r) by done. by rewrite run_ret.
Qed.
(** The computed tokens once the rejected drafts are given back. *)
Definition settled_computed (r : Request) (drafts g : list Z) : Z :=
  match drafts, g with
  | _ :: _, _ :: _ => if 0 <? num_computed_tokens r then num_computed_tokens r - (len drafts - (len g - 1)) else num_computed_tokens r
  | _, _ => num_computed_tokens r
  end.
Lemma computed_id r : r <| num_computed_tokens := num_computed_tokens r |> = r.
Proof. by destruct r. Qed.
Lemma settle_run id r drafts g s :
  objs s !! id = Some r → num_output_placeholders r = 0 →
  settle_drafts id drafts g s = (Ok tt, put_obj id (r <| num_computed_tokens := settled_computed r drafts g |>) s).
Proof.
  intros Hr Hp. unfold settle_drafts, settled_computed. destruct drafts as [|d drafts]; [by rewrite computed_id, put_same|].
  destruct g as [|t g]; [by rewrite computed_id, put_same|]. cbv zeta. rewrite (run_upd id r) by done. set (x := len (d :: drafts) - _).
  set (r1 := if 0 <? num_computed_tokens r then r <| num_computed_tokens ::= λ n, n - x |> else r).
  rewrite (upd_end id r1) by apply put_lookup. rewrite put_twice. do 2 f_equal.
  assert (Hp1 : num_output_placeholders r1 = 0) by (unfold r1; by destruct (0 <? num_computed_tokens r)).
  rewrite Hp1. simpl. unfold r1. destruct (0 <? num_computed_tokens r); [by destruct r|by rewrite computed_id].
Qed.

(** The tokens of one request are appended, and checked against its grammar. *)
Definition take_tokens (id : string) (g : list Z) (pooled : bool) : M ST (list Z * bool) :=
  r <- obj id ;;
  x <- (match g with
        | _ :: _ => update_request cfg hasher id g
        | [] => if is_some (pooling_params r) && pooled
                then upd id (λ r, r <| status := FINISHED_STOPPED |>) ;; ret ([], true)
                else ret ([], false)
        end) ;;
  let '(new_token_ids, stopped) := x in
  r <- obj id ;;
  stopped <- (if (0 <? len new_token_ids) && should_advance r then
                assert_ (is_some (structured_output_request r)) ;;
                if accept_tokens id new_token_ids then ret stopped
                else upd id (λ r, r <| status := FINISHED_ERROR |> <| resumable := false |>) ;; ret true
              else ret stopped) ;;
  ret (new_token_ids, stopped).
Lemma take_tokens_spec id r g pooled s :
  objs s !! id = Some r → async_scheduling cfg = false → kl_ok r → el_ok r → generates r → num_tokens r < max_model_len cfg →
  ∃ kept stopped r', take_tokens id g pooled s = (Ok (kept, stopped), put_obj id r' s) ∧ kept_key r' = kept_key r ∧ kl_ok r' ∧ el_ok r' ∧
    (if (stopped : bool) then is_finished r' = true
     else status r' = status r ∧ kept = g ∧ num_tokens r' = num_tokens r + len g ∧ num_tokens r' < max_model_len cfg ∧ generates r').
Proof.
  intros Hr Hsync Hk He Hg Hlt. unfold take_tokens. ostep Hr.
  assert (Hx : ∃ kept stopped r', (match g with
        | _ :: _ => update_request cfg hasher id g
        | [] => if is_some (pooling_params r) && pooled
                then upd id (λ r, r <| status := FINISHED_STOPPED |>) ;; ret ([], true) else ret ([], false) end) s = (Ok (kept, stopped), put_obj id r' s) ∧
     kept_key r' = kept_key r ∧ kl_ok r' ∧ el_ok r' ∧
     (if (stopped : bool) then is_finished r' = true
      else status r' = status r ∧ kept = g ∧ num_tokens r' = num_tokens r + len g ∧ num_tokens r' < max_model_len cfg ∧ generates r')).
  { destruct g as [|t g].
    - rewrite (ge_pooling _ Hg). exists [], false, r. rewrite put_same by done. split_and!; try done. unfold len. simpl. lia.
    - destruct (append_loop (t :: g) r [] Hk He Hg Hlt) as (kept & stopped & r' & Hu & Hkey & Hk' & He' & Hres).
      exists kept, stopped, r'. split_and!; try done. unfold update_request. ostep Hr. rewrite Hsync.
      pose proof (run_on_obj id r r' _ (kept, stopped) ret s Hr Hu) as Hrun. unfold bind in Hrun. unfold _update_request_with_output.
      destruct (on_obj id _ s) as [[a|e] s']; [exact Hrun|done]. }
  destruct Hx as (kept & stopped & r' & Hx & Hkey & Hk' & He' & Hres). mstep Hx. pose proof (put_lookup id r' s) as Hr'. ostep Hr'.
  destruct ((0 <? len kept) && should_advance r') eqn:Hadv.
  2: { rewrite run_ret. by exists kept, stopped, r'. }
  apply andb_true_iff in Hadv as [_ Hadv]. rewrite bind_assoc, run_assert, (advance_structured _ Hadv). destruct (accept_tokens id kept).
  { rewrite run_ret. by exists kept, stopped, r'. }
  rewrite bind_assoc, (run_upd id r') by done. rewrite !run_ret, put_twice. eexists kept, true, _. split; [reflexivity|].
  assert (Hres' : resumable r' = false).
  { pose proof (ge_session _ Hg) as Hs. injection Hkey as _ _ _ _ K5 _ _ _ _ _ _. by rewrite K5. }
  assert (Hst : same_static r' (r' <| status := FINISHED_ERROR |> <| resumable := false |>)) by (clear -Hres'; destruct r'; simpl in *; by subst).
  split_and!; try done; [|by apply (kl_ok_static r')|by apply (el_ok_static r')].
  etrans; [|exact Hkey]. unfold kept_key. simpl. by rewrite Hres'.
Qed.

(** The invariant after a change to one running request. *)
Lemma inv_drafts d d' s : sinv d s → (∀ i, i ∈ running s → dict_get i d' = dict_get i d) → sinv d' s.
Proof.
  intros [I1 I2 I3 I4 I5 I6 I7 I8] Hd. constructor; try done. intros id Hid. destruct (I2 id Hid) as (r & Hr & H1 & H2 & H3 & H4).
  exists r. split_and!; try done; try lia. unfold flying. by rewrite Hd.
Qed.
Lemma inv_run d d' s s' id :
  sinv d s → apart cfg [id] s s' → running s' = running s → waiting s' = waiting s → skipped_waiting s' = skipped_waiting s →
  prev_step_scheduled_req_ids s' = prev_step_scheduled_req_ids s → kl_inv (kv s') → el_inv (enc s') → id ∈ running s →
  in_flight cfg hci set_order d' s' id → (∀ i, i ≠ id → dict_get i d' = dict_get i d) → sinv d' s'.
Proof.
  intros Hi Ha Hr Hw Hk Hpv Hkv Hen Hid Hfl Hd. pose proof Hi as [I1 I2 I3 I4 I5 I6 I7 I8].
  assert (Hne : ∀ i, i ∈ waiting s ++ skipped_waiting s → (i ∉ [id])).
  { intros i Hin ->%list_elem_of_singleton. apply NoDup_app in I1 as (_ & I1 & _). by apply (I1 id). }
  constructor; rewrite ?Hr, ?Hw, ?Hk; try done.
  - intros i Hin. destruct (decide (i = id)) as [->|Hn]; [done|]. destruct (I2 i Hin) as (r & Hro & H1 & H2 & H3 & H4).
    apply (apart_flight cfg hci set_order [id] d' s s' i Ha); [by rewrite list_elem_of_singleton|]. exists r. split_and!; try done; try lia. unfold flying. by rewrite Hd.
  - intros i Hin. eapply apart_wait; [exact Ha|by apply Hne|by apply I3].
  - intros i r Hin. rewrite Hpv, (ap_objs _ _ _ _ Ha) by (by apply Hne). by apply I7.
  - intros i Hin. destruct (decide (i = id)) as [->|Hn]; [destruct Hfl as (r & [] & _); done|].
    apply (ap_covers _ _ _ _ Ha); [by rewrite list_elem_of_singleton|]. apply I8. rewrite (ap_known _ _ _ _ Ha) in Hin; [done|by rewrite list_elem_of_singleton].
Qed.

Lemma bind_ext {S A B} (m : M S A) (k k' : A → M S B) x : (∀ a y, k a y = k' a y) → bind m k x = bind m k' x.
Proof. intros Hk. unfold bind. destruct (m x) as [[a|e] s1]; [apply Hk|done]. Qed.
(** The middle of the loop's body is [take_tokens]. *)
Lemma take_tokens_bind {B} id g pooled r (k : list Z → bool → M ST B) s :
  objs s !! id = Some r →
  bind (match g with
        | _ :: _ => update_request cfg hasher id g
        | [] => if is_some (pooling_params r) && pooled
                then upd id (λ r, r <| status := FINISHED_STOPPED |>) ;; ret ([], true)
                else ret ([], false)
        end) (λ x, let '(new_token_ids, stopped) := x in
    r <- obj id ;;
    stopped <- (if (0 <? len new_token_ids) && should_advance r then
                assert_ (is_some (structured_output_request r)) ;;
                if accept_tokens id new_token_ids then ret stopped
                else upd id (λ r, r <| status := FINISHED_ERROR |> <| resumable := false |>) ;; ret true
              else ret stopped) ;;
    k new_token_ids stopped) s = bind (take_tokens id g pooled) (λ x, k x.1 x.2) s.
Proof.
  intros Hr. symmetry. unfold take_tokens. rewrite bind_assoc. ostep Hr. rewrite bind_assoc. apply bind_ext. intros [nt st] s1.
  rewrite bind_assoc. apply bind_ext. intros q s2. rewrite bind_assoc. apply bind_ext. intros b s3. by rewrite run_ret.
Qed.

(* ===================================================================== *)
(** ** The end of a turn                                                  *)
(* ===================================================================== *)

(** The request is reported: only its record and its prefill statistics change. *)
Definition turn_key (r : Request) := (status r, kept_key r).
Lemma take_events_run r : ∃ evs r', take_events r = (Ok evs, r') ∧ same_static r r' ∧ turn_key r' = turn_key r.
Proof. unfold take_events. rewrite run_get. destruct (events r); [by eexists _, _|]. rewrite run_put. by eexists _, _. Qed.
Lemma emit_run mo id r nt fr u s :
  objs s !! id = Some r →
  ∃ u' r', emit mo id nt fr u s = (Ok u', put_obj id r' s <| prefill_stats ::= delete id |>) ∧ same_static r r' ∧ turn_key r' = turn_key r ∧
    stopped_running_reqs u' = stopped_running_reqs u ∧ stopped_preempted_reqs u' = stopped_preempted_reqs u.
Proof.
  intros Hr. unfold emit. ostep Hr. destruct (take_events_run r) as (evs & r' & He & Hs & Hk). rewrite (run_on_obj id r r' _ evs) by done.
  rewrite run_get, run_put. by eexists _, r'.
Qed.
Definition report (mo : ModelRunnerOutput) (id : string) (nt : list Z) (pooled stopped : bool) fr (u : Update) : M ST Update :=
  (match dict_get id (mo_num_nans_in_logits mo) with
   | Some n => upd id (λ r, r <| num_nans_in_logits := n |>)
   | None => ret tt
   end) ;;
  if (0 <? len nt) || pooled || stopped then emit mo id nt fr u else ret u.
Lemma report_run mo id r nt pooled stopped fr u s :
  objs s !! id = Some r →
  ∃ u' r' p, report mo id nt pooled stopped fr u s = (Ok u', put_obj id r' s <| prefill_stats := p |>) ∧ same_static r r' ∧ turn_key r' = turn_key r ∧
    stopped_running_reqs u' = stopped_running_reqs u ∧ stopped_preempted_reqs u' = stopped_preempted_reqs u ∧
    (p = prefill_stats s ∨ p = delete id (prefill_stats s)) ∧ (0 < len nt → p = delete id (prefill_stats s)).
Proof.
  intros Hr. unfold report.
  assert (Hn : ∃ q, (match dict_get id (mo_num_nans_in_logits mo) with Some n => upd id (λ r, r <| num_nans_in_logits := n |>) | None => ret tt end) s
    = (Ok tt, put_obj id q s) ∧ same_static r q ∧ turn_key q = turn_key r).
  { destruct (dict_get id (mo_num_nans_in_logits mo)); [|exists r; by rewrite put_same]. eexists. rewrite (upd_end id r) by done. by split_and!. }
  destruct Hn as (q & Hn & Hs & Hk). mstep Hn. destruct ((0 <? len nt) || pooled || stopped) eqn:Hb.
  - destruct (emit_run mo id q nt fr u (put_obj id q s) (put_lookup _ _ _)) as (u' & r' & He & Hs' & Hk' & H1 & H2).
    exists u', r', (delete id (prefill_stats s)). rewrite He, put_twice. split_and!; try done; [by etrans|congruence|by right].
  - exists u, q, (prefill_stats s). split_and!; try done; [by left|]. intros Hlt. apply Z.ltb_lt in Hlt. by rewrite Hlt in Hb.
Qed.

(** The state without the running requests of [S], which have been freed. *)
Definition hide (S : list string) s : ST := s <| running ::= filter (λ i, i ∉ S) |>.
Lemma put_apart id r s p : (∀ i, i ≠ id → p !! i = prefill_stats s !! i) → apart cfg [id] s (put_obj id r s <| prefill_stats := p |>).
Proof.
  intros Hp. constructor; try done; intros i; rewrite list_elem_of_singleton; intros Hne; simpl; [by rewrite lookup_insert_ne|by apply Hp].
Qed.

(** Between two turns: the freed requests are hidden, and the known requests
    generate text. *)
Record loop_inv (d : list (string * list Z)) (S : list string) s : Prop := {
  li_good : good cfg hci set_order d (hide S s);
  li_gen : ∀ id r, id ∈ s_requests s → objs s !! id = Some r → generates r;
}.
Lemma hide_apart ids S S' s s' : apart cfg ids s s' → apart cfg ids (hide S s) (hide S' s').
Proof. intros [A1 A2 A3 A4]. by constructor. Qed.
Lemma good_known d s id : good cfg hci set_order d s → id ∈ running s ++ waiting s ++ skipped_waiting s → id ∈ s_requests s.
Proof. intros [_ Hall _]. by rewrite Hall. Qed.

(** A request that goes on. *)
Lemma turn_continues d S s id r r' e p :
  loop_inv d S s → NoDup d.*1 → id ∈ running (hide S s) → objs s !! id = Some r → el_inv e →
  status r' = RUNNING → request_id r' = id → py_id r' = py_id r → kl_ok r' → el_ok r' →
  num_tokens r ≤ num_tokens r' < max_model_len cfg → num_prompt_tokens r' = num_prompt_tokens r → num_output_placeholders r' = 0 → generates r' →
  0 < num_computed_tokens r' ≤ num_computed_tokens r → num_computed_tokens r' ≤ num_tokens r' →
  (∀ i, i ≠ id → p !! i = prefill_stats s !! i) → (is_Some (p !! id) → is_Some (prefill_stats s !! id) ∧ num_tokens r' = num_tokens r) →
  loop_inv (dict_pop id d).2 S (put_obj id r' s <| enc := e |> <| prefill_stats := p |>).
Proof.
  intros [[Hi Hall Hident] Hgen] Hnd Hid Hr Hei Hs Hrid Hpy Hk He Ht Hpr Hph Hg Hc Hle Hp Hpid. set (s' := setter prefill_stats _ _).
  destruct (dict_pop_nodup id d Hnd) as (_ & Hnone & _). destruct (dict_pop_spec id d) as [_ Hother].
  assert (Hr' : objs s' !! id = Some r') by apply put_lookup.
  assert (Hob : ∀ i, i ≠ id → objs s' !! i = objs s !! i) by (intros i Hne; unfold s'; simpl; by rewrite lookup_insert_ne).
  destruct (si_run _ _ _ _ _ Hi id Hid) as (q & [Q1 Q2 Q3 Q4 Q5 Q6 Q7 Q8] & _ & H1 & H2 & _). assert (q = r) as -> by (change (objs s !! id = Some q) in Q1; congruence).
  constructor.
  - constructor; [|done|].
    + apply (inv_run d _ (hide S s) (hide S s') id Hi); try done.
      * apply hide_apart. constructor; try done; intros i; rewrite list_elem_of_singleton; intros Hne; [by apply Hob|by apply Hp].
      * apply (si_kv _ _ _ _ _ Hi).
      * exists r'. split_and!; try done; try lia.
        -- constructor; try done; [lia|split; [lia|done]|]. intros Hsome. destruct (Hpid Hsome) as [Hold ->]. rewrite Hpr. by apply Q8.
        -- apply (kl_mono _ _ _ _ H2). lia.
        -- unfold flying. rewrite (proj2 (dict_get_none _ _)) by done. lia.
    + intros i j a b Hii Hjj Ha Hb Hab. change (objs s' !! i = Some a) in Ha. change (objs s' !! j = Some b) in Hb.
      assert (Hback : ∀ i a, objs s' !! i = Some a → ∃ a0, objs s !! i = Some a0 ∧ py_id a0 = py_id a).
      { intros i0 a0 H0. destruct (decide (i0 = id)) as [->|Hne]; [exists r; split; [done|congruence]|exists a0; rewrite <-Hob; done]. }
      destruct (Hback i a Ha) as (a0 & Ha0 & Hpa). destruct (Hback j b Hb) as (b0 & Hb0 & Hpb). apply (Hident i j a0 b0); try done. congruence.
  - intros i a Hin Ha. destruct (decide (i = id)) as [->|Hne]; [congruence|]. rewrite Hob in Ha by done. by apply (Hgen i a).
Qed.

(** A request that stops. *)
Lemma turn_stops d S s s' id :
  loop_inv d S s → NoDup d.*1 → id ∈ running (hide S s) → apart cfg [id] s s' → running s' = running s → waiting s' = waiting s →
  skipped_waiting s' = skipped_waiting s → s_requests s' = filter (λ i, i ≠ id) (s_requests s) →
  prev_step_scheduled_req_ids s' = prev_step_scheduled_req_ids s → kl_inv (kv s') → el_inv (enc s') → kl_covers (kv s') id 0 →
  loop_inv (dict_pop id d).2 (id :: S) s'.
Proof.
  intros [[Hi Hall Hident] Hgen] Hnd Hid Ha HR HW HK HQ HP Hk He Hc. destruct (dict_pop_spec id d) as [_ Hother].
  assert (Hrun : running (hide (id :: S) s') = filter (λ i, i ≠ id) (running (hide S s))).
  { unfold hide. simpl. rewrite HR, list_filter_filter. apply list_filter_iff. intros i. rewrite not_elem_of_cons. tauto. }
  assert (Hw : waiting (hide (id :: S) s') ++ skipped_waiting (hide (id :: S) s') = waiting (hide S s) ++ skipped_waiting (hide S s)) by (simpl; by rewrite HW, HK).
  pose proof (si_nodup _ _ _ _ _ Hi) as Hn. pose proof Hn as (_ & Hdis & _)%NoDup_app.
  assert (Hall' : running (hide (id :: S) s') ++ waiting (hide (id :: S) s') ++ skipped_waiting (hide (id :: S) s') =
    filter (λ i, i ≠ id) (running (hide S s) ++ waiting (hide S s) ++ skipped_waiting (hide S s))).
  { rewrite Hrun, Hw, filter_app. f_equal. symmetry. apply filter_all. intros i Hin ->. by apply (Hdis id). }
  constructor; [constructor|].
  - apply (inv_drafts d); [|intros i; rewrite Hrun, list_elem_of_filter; intros [Hne _]; by apply Hother].
    apply (inv_apart cfg hci set_order d (hide S s) (hide (id :: S) s') [id] Hi); try done.
    + by apply hide_apart.
    + rewrite Hall'. by apply NoDup_filter.
    + intros i. rewrite Hrun, list_elem_of_filter, list_elem_of_singleton. tauto.
    + intros i. rewrite Hw, list_elem_of_singleton. intros Hin. left. split; [done|]. intros ->. by apply (Hdis id).
    + rewrite Hrun. unfold len. pose proof (length_filter (λ i, i ≠ id) (running (hide S s))). lia.
    + by intros i ->%list_elem_of_singleton.
  - rewrite Hall', <-Hall. simpl. by rewrite HQ.
  - intros i j a b. change (s_requests (hide (id :: S) s')) with (s_requests s'). change (objs (hide (id :: S) s')) with (objs s').
    rewrite HQ, !list_elem_of_filter. intros [Hne1 H1] [Hne2 H2]. rewrite !(ap_objs _ _ _ _ Ha) by (by rewrite list_elem_of_singleton). by apply Hident.
  - intros i a. rewrite HQ, list_elem_of_filter. intros [Hne H1]. rewrite (ap_objs _ _ _ _ Ha) by (by rewrite list_elem_of_singleton). by apply Hgen.
Qed.

Lemma settled_bounds d id r g :
  0 < num_tokens r → 0 < num_computed_tokens r → num_output_placeholders r = 0 → flying d id r →
  (∀ dr, dict_get id d = Some dr → 1 ≤ len g ≤ 1 + len dr) →
  0 < settled_computed r (default [] (dict_get id d)) g ≤ num_computed_tokens r ∧
  settled_computed r (default [] (dict_get id d)) g ≤ num_tokens r + len g.
Proof.
  intros Ht Hc Hp Hf Hg. unfold flying in Hf. pose proof (len_nonneg g). destruct (dict_get id d) as [dr|] eqn:Hd; simpl; [|lia].
  specialize (Hg dr eq_refl). destruct dr as [|x dr]; simpl; [unfold len in *; simpl in *; lia|].
  destruct g as [|t g]; [unfold len in *; simpl in *; lia|]. assert ((0 <? num_computed_tokens r) = true) as -> by (by apply Z.ltb_lt).
  rewrite !len_cons in *. lia.
Qed.
Lemma stop_spec id r ts u s :
  objs s !! id = Some r → request_id r = id → id ∈ s_requests s → el_ok r → is_finished r = true → resumable r = false →
  kl_inv (kv s) → el_inv (enc s) →
  ∃ fr s', end_request cfg no_connector set_order hasher id ts RUNNING u s =
      (Ok (fr, mkUpdate (u_outputs u) (id :: stopped_running_reqs u) (stopped_preempted_reqs u)), s') ∧ freed_state cfg hci set_order id s s'.
Proof.
  intros Hr Hid Hk He Hf Hres Hki Hei. unfold end_request. ostep Hr. cbv zeta.
  assert (Hh : _handle_stopped_request cfg hasher id ts s = (Ok true, s)) by (unfold _handle_stopped_request; ostep Hr; by rewrite Hres).
  mstep Hh. destruct (free_spec cfg hci set_order s id r) as (s' & Hfree & Hst); try done. simpl. mstep Hfree. by eexists _, s'.
Qed.
(** The encoder inputs that have been consumed are freed. *)
Lemma free_inputs_run r s :
  el_inv (enc s) → el_ok r → ∃ e, el_inv e ∧ (when (has_encoder_inputs r) do (on_enc (_free_encoder_inputs set_order r))) s = (Ok tt, s <| enc := e |>).
Proof.
  intros Hi Hr. destruct (has_encoder_inputs r); simpl.
  - destruct (el_free_inputs (enc s) r Hi Hr) as (e & He & Hei). exists e. split; [done|]. by apply on_enc_ok.
  - exists (enc s). split; [done|]. by destruct s.
Qed.

(** What the model runner promises for a scheduled request: tokens, at least
    one and at most one more than the drafts if it had drafts to verify. *)
Definition sampled_ok (d : list (string * list Z)) (mo : ModelRunnerOutput) id : Prop :=
  ∃ g, dict_get id (mo_sampled_token_ids mo) = Some g ∧ ∀ dr, dict_get id d = Some dr → 1 ≤ len g ≤ 1 + len dr.
Lemma update_one_spec o mo ts id n u d s :
  async_scheduling cfg = false → loop_inv d (stopped_running_reqs u) s → NoDup d.*1 → stopped_preempted_reqs u = [] → 0 < n →
  dict_get id (so_spec_decode_tokens o) = dict_get id d → (id ∉ waiting s ++ skipped_waiting s) → (id ∈ s_requests s → sampled_ok d mo id) →
  ∃ u' s', update_one cfg no_connector set_order hasher should_advance accept_tokens o mo [] ts id n u s = (Ok u', s') ∧
    loop_inv (dict_pop id d).2 (stopped_running_reqs u') s' ∧ stopped_preempted_reqs u' = [] ∧ waiting s' = waiting s ∧
    skipped_waiting s' = skipped_waiting s ∧ running s' = running s ∧ (∀ i, i ∈ s_requests s' → i ∈ s_requests s).
Proof.
  intros Hsync Hl Hnd Hpre Hn Hspec Hnw Hmo. unfold update_one. rewrite run_assert, (proj2 (Z.ltb_lt 0 n) Hn), run_get. rewrite bool_decide_false by apply not_elem_of_nil.
  destruct (decide (id ∈ s_requests s)) as [Hk|Hk]; [rewrite bool_decide_true by done|rewrite bool_decide_false by done]; cbn [negb].
  2: { exists u, s. split; [done|]. split_and!; try done. destruct Hl as [[Hi Hall Hid] Hgen]. constructor; [constructor|]; try done.
    apply (inv_drafts d); [done|]. intros i Hin. apply (dict_pop_spec id d). intros ->. apply Hk. change (id ∈ s_requests (hide (stopped_running_reqs u) s)).
    rewrite Hall, elem_of_app. by left. }
  pose proof Hl as [[Hi Hall Hident] Hgen].
  assert (Hrun : id ∈ running (hide (stopped_running_reqs u) s)).
  { assert (Hin : id ∈ s_requests (hide (stopped_running_reqs u) s)) by done. rewrite Hall in Hin. by apply elem_of_app in Hin as [?|?]. }
  destruct (si_run _ _ _ _ _ Hi id Hrun) as (r & [Q1 Q2 Q3 Q4 Q5 Q6 Q7 Q8] & Hst & H1 & H2 & Hfl). change (objs s !! id = Some r) in Q1.
  pose proof (proj2 Q7 Hsync) as Hph. pose proof (Hgen id r Hk Q1) as Hg. ostep Q1. assert (Hnf : is_finished r = false) by (unfold is_finished; by rewrite Hst). rewrite Hnf.
  destruct (Hmo Hk) as (g & Hsam & Hgd). rewrite run_of_option, Hsam. cbv iota beta.
  destruct (settled_bounds d id r g) as [Hc1 Hc2]; [lia|lia|done|done|done|].
  pose proof (settle_run id r (default [] (dict_get id (so_spec_decode_tokens o))) g s Q1 Hph) as Hset. mstep Hset. rewrite Hspec.
  set (r1 := r <| num_computed_tokens := _ |>). set (s1 := put_obj id r1 s). pose proof (put_lookup id r1 s) as Hr1. fold s1 in Hr1. ostep Hr1.
  assert (Hel1 : el_ok r1) by (by apply (el_ok_static r)). assert (Hkl1 : kl_ok r1) by (by apply (kl_ok_static r)).
  assert (Hg1 : generates r1) by (destruct Hg; by constructor). assert (Hei : el_inv (enc s1)) by apply (si_enc _ _ _ _ _ Hi).
  destruct (free_inputs_run r1 s1 Hei Hel1) as (e & Hee & He). mstep He. cbv zeta. set (s2 := s1 <| enc := e |>). assert (Hr2 : objs s2 !! id = Some r1) by done.
  rewrite (take_tokens_bind id g (bool_decide (id ∈ mo_pooler_output mo)) r1) by done.
  destruct (take_tokens_spec id r1 g (bool_decide (id ∈ mo_pooler_output mo)) s2) as (kept & stopped & r2 & Htk & Hkey & Hk2 & He2 & Hres); try done; [apply Q6|].
  mstep Htk. cbn [fst snd]. set (s3 := put_obj id r2 s2). pose proof (put_lookup id r2 s2) as Hr3. fold s3 in Hr3.
  change (status r1) with (status r). rewrite Hst. injection Hkey as K1 K2 K3 K4 K5 K6 K7 K8 K9 K10 K11. change (request_id r1) with (request_id r) in K1.
  destruct stopped.
  - destruct (stop_spec id r2 ts u s3) as (fr & s4 & Hstop & [F1 F2 F3 F4 F5 F6 F7 F8 F9 F10 F11 F12]); try done; [congruence|by rewrite K5; apply (ge_session _ Hg)|apply (si_kv _ _ _ _ _ Hi)|].
    mstep Hstop. cbv iota beta. assert (Hr4 : objs s4 !! id = Some r2) by (by rewrite F2).
    destruct (report_run mo id r2 kept (bool_decide (id ∈ mo_pooler_output mo)) true fr (mkUpdate (u_outputs u) (id :: stopped_running_reqs u) (stopped_preempted_reqs u)) s4 Hr4)
      as (u' & r5 & p & Hrep & _ & _ & U1 & U2 & Hp & _).
    exists u'. eexists. split; [exact Hrep|]. rewrite U1, U2. cbn [stopped_running_reqs stopped_preempted_reqs]. split_and!; try done.
    + apply (turn_stops d (stopped_running_reqs u) s); try done.
      eapply apart_trans; [|eapply apart_trans; [exact F1|apply put_apart; intros i Hne; by destruct Hp as [->| ->]; rewrite ?lookup_delete_ne]].
      constructor; try done; intros i; rewrite list_elem_of_singleton; intros Hne. simpl. by rewrite !lookup_insert_ne.
    + intros i. change (i ∈ s_requests s4 → i ∈ s_requests s). rewrite F6, list_elem_of_filter. by intros [_ ?].
  - rewrite run_ret. destruct Hres as (R1 & -> & R3 & R4 & R5).
    destruct (report_run mo id r2 g (bool_decide (id ∈ mo_pooler_output mo)) false None u s3 Hr3) as (u' & r5 & p & Hrep & Hs5 & Hk5 & U1 & U2 & Hp & Hp').
    exists u'. eexists. split; [exact Hrep|]. rewrite U1, U2. split_and!; try done.
    assert (Heq : put_obj id r5 s3 <| prefill_stats := p |> = put_obj id r5 s <| enc := e |> <| prefill_stats := p |>).
    { unfold s3, s2, s1, put_obj. clear. destruct s. cbv [setter]. simpl. by rewrite !insert_insert_eq. }
    rewrite Heq. unfold turn_key in Hk5. injection Hk5 as T0 T1 T2 T3 T4 T5 T6 T7 T8 T9 T10 T11.
    pose proof (static_tokens _ _ Hs5) as Htok. change (num_tokens r1) with (num_tokens r) in R3. change (num_computed_tokens r1) with (settled_computed r (default [] (dict_get id d)) g) in K3.
    change (num_prompt_tokens r1) with (num_prompt_tokens r) in K9. change (py_id r1) with (py_id r) in K2. change (status r1) with (status r) in R1. change (num_output_placeholders r1) with (num_output_placeholders r) in K4. pose proof (len_nonneg g).
    apply (turn_continues d (stopped_running_reqs u) s id r); try done; try lia; try congruence.
    + by apply (kl_ok_static r2).
    + by apply (el_ok_static r2).

    + apply (generates_key r2); [unfold kept_key; congruence| |done]. rewrite Htok, T9. unfold num_output_tokens.
      apply (f_equal _output_token_ids) in Hs5. change (_output_token_ids r5 = _output_token_ids r2) in Hs5. rewrite Hs5. apply (ge_tokens _ R5).
    + intros i Hne. destruct Hp as [-> | ->]; [done|]. by rewrite lookup_delete_ne.
    + intros Hsome. destruct (decide (0 < len g)) as [Hlt|Hge].
      * rewrite (Hp' Hlt), lookup_delete_eq in Hsome. by destruct Hsome.
      * split; [|lia]. destruct Hp as [-> | ->]; [done|]. rewrite lookup_delete_eq in Hsome. by destruct Hsome.
Qed.

(* ===================================================================== *)
(** ** The whole update                                                   *)
(* ===================================================================== *)

Lemma update_outputs_spec o mo ts ns u d s :
  async_scheduling cfg = false → loop_inv d (stopped_running_reqs u) s → NoDup d.*1 → stopped_preempted_reqs u = [] → NoDup ns.*1 →
  (∀ id n, (id, n) ∈ ns → 0 < n ∧ dict_get id (so_spec_decode_tokens o) = dict_get id d ∧ (id ∉ waiting s ++ skipped_waiting s) ∧
     (id ∈ s_requests s → sampled_ok (so_spec_decode_tokens o) mo id)) →
  ∃ u' d' s', update_outputs cfg no_connector set_order hasher should_advance accept_tokens o mo [] ts ns u s = (Ok u', s') ∧
    loop_inv d' (stopped_running_reqs u') s' ∧ stopped_preempted_reqs u' = [] ∧ waiting s' = waiting s ∧
    skipped_waiting s' = skipped_waiting s ∧ running s' = running s ∧ (∀ i, i ∈ s_requests s' → i ∈ s_requests s) ∧
    (∀ i, dict_get i d' = if decide (i ∈ ns.*1) then None else dict_get i d).
Proof.
  intros Hsync. revert u d s. induction ns as [|[id n] ns IH]; intros u d s Hl Hnd Hpre Hnn Hns; simpl.
  { exists u, d, s. split_and!; try done. }
  destruct (Hns id n ltac:(by left)) as (Hn & Hsp & Hw & Hmo). apply NoDup_cons in Hnn as [Hid Hnn].
  destruct (update_one_spec o mo ts id n u d s) as (u1 & s1 & He & Hl1 & Hpre1 & W1 & K1 & R1 & Q1); try done.
  { intros Hk. destruct (Hmo Hk) as (g & Hg & Hdr). exists g. split; [done|]. by rewrite <-Hsp. }
  mstep He. destruct (dict_pop_nodup id d Hnd) as (Hnd1 & Hnone & _). destruct (dict_pop_spec id d) as [_ Hother].
  destruct (IH u1 (dict_pop id d).2 s1) as (u' & d' & s' & He' & Hl' & Hpre' & W' & K' & R' & Q' & Hd'); try done.
  { intros i m Him. assert (Hin : i ∈ ns.*1) by (by apply (list_elem_of_fmap_2 fst _ (i, m))). assert (Hne : i ≠ id) by (by intros ->).
    destruct (Hns i m ltac:(by right)) as (Hm & Hsp' & Hw' & Hmo'). rewrite W1, K1, Hother by done. split_and!; try done. intros Hk. by apply Hmo', Q1. }
  exists u', d', s'. split_and!; try done; try congruence; [intros i Hi; by apply Q1, Q'|]. intros i. rewrite Hd'.
  destruct (decide (i ∈ ns.*1)) as [Hi|Hi]; [rewrite decide_True; [done|by right]|].
  destruct (decide (i = id)) as [->|Hne]; [rewrite decide_True by (by left); by apply dict_get_none|].
  rewrite Hother, decide_False; [done| |done]. by intros [?|?]%elem_of_cons.
Qed.

(** A state that differs from [s] only in the finished requests it reports. *)
Lemma good_dict d s f : good cfg hci set_order d s → good cfg hci set_order d (s <| finished_req_ids_dict := f |>).
Proof.
  intros [Hi Hall Hid]. constructor; try done. pose proof Hi as [I1 I2 I3 I4 I5 I6 I7 I8]. apply (inv_apart cfg hci set_order d s _ [] Hi); try done.
  - intros i Hin. split; [done|]. apply not_elem_of_nil.
  - intros i Hin. left. split; [done|]. apply not_elem_of_nil.
  - by intros i ?%not_elem_of_nil.
Qed.
Lemma hide_nil s : hide [] s = s.
Proof. unfold hide. destruct s. cbv [setter set_running]. simpl. f_equal. apply filter_all. intros i _. apply not_elem_of_nil. Qed.

(** What [update_from_output] needs of the step it completes. *)
Record step_done (o : SchedulerOutput) (mo : ModelRunnerOutput) s : Prop := {
  sd_keys : NoDup (so_num_scheduled_tokens o).*1;
  sd_pos : ∀ id n, (id, n) ∈ so_num_scheduled_tokens o → 0 < n;
  sd_running : ∀ id, id ∈ (so_num_scheduled_tokens o).*1 → (id ∉ waiting s ++ skipped_waiting s);
  sd_specs : NoDup (so_spec_decode_tokens o).*1;
  sd_specs_in : ∀ id, id ∈ (so_spec_decode_tokens o).*1 → id ∈ (so_num_scheduled_tokens o).*1;
  sd_sampled : ∀ id, id ∈ (so_num_scheduled_tokens o).*1 → id ∈ s_requests s → sampled_ok (so_spec_decode_tokens o) mo id;
  sd_invalid : mo_invalid_block_ids mo = [];
  sd_recving : mo_finished_recving mo = [];
  sd_sending : mo_finished_sending mo = [];
}.
Lemma update_spec bs recompute o mo ts s :
  async_scheduling cfg = false → good cfg hci set_order (so_spec_decode_tokens o) s →
  (∀ id r, id ∈ s_requests s → objs s !! id = Some r → generates r) → step_done o mo s →
  ∃ outs s', update_from_output cfg no_connector set_order hasher should_advance accept_tokens bs recompute o mo ts s = (Ok outs, s') ∧
    good cfg hci set_order [] s' ∧ (∀ id r, id ∈ s_requests s' → objs s' !! id = Some r → generates r) ∧
    (∀ i, i ∈ s_requests s' → i ∈ s_requests s) ∧ waiting s' = waiting s ∧ skipped_waiting s' = skipped_waiting s ∧
    (∀ i, i ∈ running s' → i ∈ running s).
Proof.
  intros Hsync Hg Hgen [D1 D2 D3 D4 D5 D6 D7 D8 D9]. unfold update_from_output. rewrite D7, run_ret, D8, D9.
  destruct (update_outputs_spec o mo ts (so_num_scheduled_tokens o) (mkUpdate [] [] []) (so_spec_decode_tokens o) s) as (u & d & s1 & He & [Hl Hgen1] & Hpre & W1 & K1 & R1 & Q1 & Hd); try done.
  { constructor; [by rewrite hide_nil|done]. }
  { intros id n Hn. assert (Hin : id ∈ (so_num_scheduled_tokens o).*1) by (by apply (list_elem_of_fmap_2 fst _ (id, n))). split_and!; try done; [by apply (D2 id)|by apply D3|by apply D6]. }
  mstep He. rewrite run_get, run_put, run_get, Hpre, !run_ret. simpl for_. unfold _update_from_kv_xfer_finished. simpl. rewrite bind_assoc, !run_ret, run_modify.
  assert (Hrm : s1 <| running ::= λ l, remove_all l (stopped_running_reqs u) |> = hide (stopped_running_reqs u) s1).
  { unfold hide. destruct s1. cbv [setter set_running]. simpl in *. f_equal. apply remove_all_is_filter.
    pose proof (si_nodup _ _ _ _ _ (g_inv _ _ _ _ _ Hg)) as Hn. rewrite <-R1 in Hn. by apply NoDup_app in Hn as [? _]. }
  rewrite Hrm. eexists _, _. split; [reflexivity|]. split_and!; try done.
  - apply good_dict. destruct Hl as [Hi Hall Hid]. constructor; try done. apply (inv_drafts d); [done|]. intros i _. simpl. rewrite Hd.
    destruct (decide (i ∈ (so_num_scheduled_tokens o).*1)) as [|Hn]; [done|]. symmetry. apply dict_get_none. intros Hs. by apply Hn, D5.
  - intros i. unfold hide. simpl. rewrite R1, list_elem_of_filter. tauto.
Qed.

(* ===================================================================== *)
(** ** New draft tokens                                                   *)
(* ===================================================================== *)

Lemma good_tweak d s id r r' :
  good cfg hci set_order d s → objs s !! id = Some r → same_static r r' → status r' = status r →
  num_computed_tokens r' = num_computed_tokens r → num_output_placeholders r' = num_output_placeholders r →
  good cfg hci set_order d (put_obj id r' s).
Proof.
  intros [Hi Hall Hid] Hr Hs Hst Hc Hp. set (s' := put_obj id r' s).
  assert (Hob : ∀ i q, objs s !! i = Some q → ∃ q', objs s' !! i = Some q' ∧ same_static q q' ∧ status q' = status q ∧
    num_computed_tokens q' = num_computed_tokens q ∧ num_output_placeholders q' = num_output_placeholders q).
  { intros i q Hq. destruct (decide (i = id)) as [->|Hne]; [assert (q = r) as -> by congruence; exists r'; by split_and!; [apply put_lookup|..]|].
    exists q. unfold s', put_obj. simpl. by rewrite lookup_insert_ne. }
  assert (Hrk : ∀ i q, rok s i q → ∃ q', rok s' i q' ∧ same_static q q' ∧ status q' = status q ∧
    num_computed_tokens q' = num_computed_tokens q ∧ num_output_placeholders q' = num_output_placeholders q).
  { intros i q Hq. destruct (Hob i q (ro_obj _ _ _ _ _ _ Hq)) as (q' & H1 & H2 & H3 & H4 & H5). exists q'. split_and!; try done.
    apply (req_static cfg hci set_order s s' i q); try done. destruct (ro_placeholders _ _ _ _ _ _ Hq) as [P1 P2]. unfold placeholders_ok. by rewrite H5. }
  pose proof Hi as [I1 I2 I3 I4 I5 I6 I7 I8]. constructor; [constructor; try done| done|].
  - intros i Hin. destruct (I2 i Hin) as (q & Hq & H1 & H2 & H3 & H4). destruct (Hrk i q Hq) as (q' & Hq' & S1 & S2 & S3 & S4).
    exists q'. rewrite S2, S3. split_and!; try done; try lia. unfold flying in *. by rewrite S3, S4, (static_tokens q q').
  - intros i Hin. destruct (I3 i Hin) as (q & Hq & H1 & H2 & H3 & H4). destruct (Hrk i q Hq) as (q' & Hq' & S1 & S2 & S3 & S4).
    exists q'. rewrite S3, (static_tokens q q') by done. split_and!; try done; try lia. unfold waiting_status in *. by rewrite S2, (static_streaming q q').
  - intros i q' Hin Hq' Hpre. destruct (I3 i Hin) as (q & Hq & _). destruct (Hob i q (ro_obj _ _ _ _ _ _ Hq)) as (q2 & H1 & _ & H3 & _).
    assert (q2 = q') as -> by congruence. apply (I7 i q Hin); [apply (ro_obj _ _ _ _ _ _ Hq)|congruence].
  - apply (ident_static s s'); try done. intros i. destruct (decide (i = id)) as [->|Hne].
    + unfold s'. rewrite put_lookup, Hr. by constructor.
    + unfold s', put_obj. simpl. rewrite lookup_insert_ne by done. destruct (objs s !! i); by constructor.
Qed.
Lemma generates_static r r' : same_static r r' → generates r → generates r'.
Proof.
  intros Hs [G1 G2 G3 G4 G5]. unfold same_static in Hs.
  assert (Hf : ∀ {A} (f : Request → A), (∀ q, f (erase q) = f q) → f r' = f r) by (intros A f Hf; by rewrite <-(Hf r'), Hs).
  assert (Hm : max_tokens r' = max_tokens r) by (by apply (Hf _ max_tokens)). assert (Hsp : sampling_params r' = sampling_params r) by (by apply (Hf _ sampling_params)).
  assert (Hpp : num_prompt_tokens r' = num_prompt_tokens r) by (by apply (Hf _ num_prompt_tokens)). constructor.
  - by rewrite (Hf _ pooling_params).
  - by rewrite Hm, Hsp.
  - by rewrite Hm, Hpp.
  - by rewrite (Hf _ num_tokens), (Hf _ num_output_tokens), Hpp.
  - by rewrite (Hf _ resumable).
Qed.
Lemma drafts_spec validate drafts s :
  good cfg hci set_order [] s → (∀ id r, id ∈ s_requests s → objs s !! id = Some r → generates r) →
  ∃ s', update_draft_token_ids should_advance validate drafts s = (Ok tt, s') ∧ good cfg hci set_order [] s' ∧
    (∀ id r, id ∈ s_requests s' → objs s' !! id = Some r → generates r) ∧ s_requests s' = s_requests s.
Proof.
  unfold update_draft_token_ids. revert s. induction drafts as [|[id spec] drafts IH]; intros s Hg Hgen; simpl; [by exists s|].
  assert (Hbody : ∃ s1, (s0 <- get ;; if negb (bool_decide (id ∈ s_requests s0)) then ret tt else
      r <- obj id ;; if is_finished r then ret tt
      else if is_prefill_chunk r then upd id (λ r, r <| spec_token_ids := [] |>)
      else upd id (λ r, r <| spec_token_ids := if should_advance r then validate id spec else spec |>)) s = (Ok tt, s1) ∧
      good cfg hci set_order [] s1 ∧ (∀ id r, id ∈ s_requests s1 → objs s1 !! id = Some r → generates r) ∧ s_requests s1 = s_requests s).
  { rewrite run_get. destruct (decide (id ∈ s_requests s)) as [Hk|Hk]; [rewrite bool_decide_true by done|rewrite bool_decide_false by done; by exists s]. cbn [negb].
    destruct (good_req _ _ _ _ _ _ Hg Hk) as (r & Hr). pose proof (ro_obj _ _ _ _ _ _ Hr) as Ho. ostep Ho. destruct (is_finished r); [by exists s|].
    assert (Hany : ∀ l, good cfg hci set_order [] (put_obj id (r <| spec_token_ids := l |>) s) ∧
      (∀ i q, i ∈ s_requests s → objs (put_obj id (r <| spec_token_ids := l |>) s) !! i = Some q → generates q)).
    { intros l. split; [by apply (good_tweak [] s id r)|]. intros i q Hi Hq. destruct (decide (i = id)) as [->|Hne].
      - rewrite put_lookup in Hq. injection Hq as <-. apply (generates_static r); [done|]. by apply (Hgen id).
      - unfold put_obj in Hq. simpl in Hq. rewrite lookup_insert_ne in Hq by done. by apply (Hgen i). }
    destruct (is_prefill_chunk r); rewrite (upd_end id r) by done; eexists; (split; [reflexivity|]); by split_and!; try apply Hany. }
  destruct Hbody as (s1 & He & Hg1 & Hgen1 & Hk1). mstep He. destruct (IH s1 Hg1 Hgen1) as (s' & He' & Hg' & Hgen' & Hk'). exists s'. split_and!; try done. congruence.
Qed.
End step.
