(* ===== verification/EngineCore.v ===== *)
(** * The engine core ([src/vllm/v1/engine/core.py])

    [EngineCore] drives the scheduler: requests are added and aborted, and a
    step schedules, lets the executor run the model, processes the aborts that
    arrived meanwhile and hands the sampled tokens back.  The executor is a
    parameter of a step; the theorems state what they ask of it.  The busy loop
    around the steps, with its sockets and threads, is not modelled: a run is a
    sequence of calls. *)
From S2P Require Import Prelude Request BlockHash BlockPool KVCacheManager HeapQ RequestQueue EncoderCache SchedUtils Scheduler SchedulerInv SchedulerLife SchedulerStep.
Local Open Scope Z_scope.

Inductive PauseMode := pause_abort | pause_wait | pause_keep.

Section engine_core.
Context {K E C : Type} `{!KVManager K} `{!EncoderManager E}.
Variables (cfg : Config) (connector : option (KVConnector C)) (hci : option (mm_hash → bool)) (grammar_ready : Request → bool)
  (set_order : list Z → list Z) (hasher : option BlockHasher) (should_advance : Request → bool) (accept_tokens : string → list Z → bool)
  (validate_tokens : string → list Z → list Z).
(** The order in which Python iterates over a set of request ids, the pooling
    tasks the executor supports, and the engine's configuration. *)
Variables (id_order : list string → list string) (task_supported : PoolingParams → bool) (use_spec_decode : bool)
  (block_size : Z) (recompute : bool).
Abbreviation S := (M (Scheduler K E C)).

(** The state of a new scheduler. *)
Definition new_Scheduler (include_finished_set : bool) (k : K) (e : E) (c : C) : Scheduler K E C :=
  mkScheduler ∅ [] [] [] [] ∅ (if include_finished_set then Some ∅ else None) ∅ 0 ∅ ∅ ∅
    (if is_some connector && sched_log_stats cfg then Some new_PrefixCacheStats else None) UNPAUSED k e c.

(** [has_unfinished_requests] and [has_requests] of the scheduler's interface. *)
Definition has_unfinished_requests (s : Scheduler K E C) : bool := 0 <? get_num_unfinished_requests s.
Definition has_requests (s : Scheduler K E C) : bool := has_unfinished_requests s || has_finished_requests s.

Definition abort_requests (request_ids : list string) : S unit :=
  finish_requests cfg connector set_order (id_order request_ids) FINISHED_ABORTED ;; ret tt.
Definition engine_add_request (request : Request) (timestamp : Z) : S unit :=
  (match pooling_params request with
   | Some p => if task_supported p then ret tt else raise ValueError
   | None => ret tt
   end) ;;
  sched_add_request cfg connector set_order hasher request timestamp ;;
  when (abort_immediately request) do abort_requests [request_id request].

(** [_process_aborts_queue]: all the queued ids in one batch. *)
Definition _process_aborts_queue (aborts_queue : list (list string)) : S unit :=
  match aborts_queue with [] => ret tt | _ => abort_requests (concat aborts_queue) end.

(** The requests whose rows [get_grammar_bitmask] fills, in order. *)
Definition needs_bitmask (s : Scheduler K E C) (id : string) : bool :=
  match (if bool_decide (id ∈ s_requests s) then objs s !! id else None) with
  | Some r => use_structured_output r && negb (is_prefill_chunk r)
  | None => false
  end.
Definition grammar_request_ids (o : SchedulerOutput) (s : Scheduler K E C) : option (list string) :=
  if negb (so_has_structured_output_requests o) then None
  else
    match filter (λ id, needs_bitmask s id = true) (so_num_scheduled_tokens o).*1 with
    | [] => None
    | ids => Some ids
    end.

(** [step]; [execute] is the executor, which sees the scheduler's output and
    the grammar's rows. *)
Definition step (schedule_time update_time : Z) (execute : SchedulerOutput → option (list string) → ModelRunnerOutput)
    (aborts_queue : list (list string)) : S (list EngineCoreOutput * bool) :=
  s <- get ;;
  if negb (has_requests s) then ret ([], false)
  else
    o <- schedule cfg connector hci grammar_ready set_order schedule_time ;;
    rows <- gets (grammar_request_ids o) ;;
    let model_output := execute o rows in
    _process_aborts_queue aborts_queue ;;
    outs <- update_from_output cfg connector set_order hasher should_advance accept_tokens block_size recompute o model_output update_time ;;
    ret (outs, 0 <? so_total_num_scheduled_tokens o).
(** [post_step]; [drafts] is what the executor has drafted. *)
Definition post_step (drafts : option (list (string * list Z))) (model_executed : bool) : S unit :=
  if negb (async_scheduling cfg) && use_spec_decode && model_executed then
    match drafts with
    | Some d => update_draft_token_ids should_advance validate_tokens d
    | None => ret tt
    end
  else ret tt.
Definition _process_engine_step (schedule_time update_time : Z) (execute : SchedulerOutput → option (list string) → ModelRunnerOutput)
    (aborts_queue : list (list string)) (drafts : option (list (string * list Z))) : S (list EngineCoreOutput * bool) :=
  x <- step schedule_time update_time execute aborts_queue ;;
  post_step drafts x.2 ;;
  ret x.

(** [pause_scheduler] of the in-process engine, [resume_scheduler], and what
    [sleep] and [wake_up] do to the scheduler. *)
Definition _reset_caches (timestamp : Z) (reset_running_requests : bool) : S unit :=
  sched_reset_prefix_cache cfg connector set_order timestamp reset_running_requests false ;;
  reset_encoder_cache.
Definition pause_scheduler (mode : PauseMode) (clear_cache : bool) (timestamp : Z) : S unit :=
  match mode with
  | pause_wait => raise ValueError
  | _ =>
      (match mode with
       | pause_abort => s <- get ;; finish_requests cfg connector set_order (s_requests s) FINISHED_ABORTED ;; ret tt
       | _ => ret tt
       end) ;;
      set_pause (match mode with pause_keep => PAUSED_ALL | _ => PAUSED_NEW end) ;;
      when clear_cache do _reset_caches timestamp true
  end.
Definition resume_scheduler : S unit := set_pause UNPAUSED.
Definition is_scheduler_paused (s : Scheduler K E C) : bool := bool_decide (pause_state s ≠ UNPAUSED).
Definition sleep (level : Z) (mode : PauseMode) (timestamp : Z) : S unit := pause_scheduler mode (1 <=? level) timestamp.
Definition wake_up : S unit := resume_scheduler.
End engine_core.

(* ===================================================================== *)
(** ** Safety of the engine's calls                                       *)
(* ===================================================================== *)

Section engine_safety.
Context {K E : Type} `{!KVManager K} `{!EncoderManager E}.
Variables (cfg : Config) (hci : option (mm_hash → bool)) (grammar_ready : Request → bool) (set_order : list Z → list Z).
Context `{!KVLaws K (max_model_len cfg)} `{!EncLaws E set_order (disable_chunked_mm cfg) hci}.
Variables (hasher : option BlockHasher) (should_advance : Request → bool) (accept_tokens : string → list Z → bool)
  (validate_tokens : string → list Z → list Z) (id_order : list string → list string) (task_supported : PoolingParams → bool)
  (use_spec_decode : bool) (block_size : Z) (recompute : bool).
Context `{!AppendLaws (max_model_len cfg) set_order (disable_chunked_mm cfg) hci hasher}.
Hypothesis advance_structured : ∀ r, should_advance r = true → is_some (structured_output_request r) = true.
Hypothesis id_order_set : ∀ l, id_order l ≡ₚ remove_dups l.
(** Without a KV connector a waiting request has no computed tokens. *)
Hypothesis parked_none : ∀ n, kl_parked n → n = 0.
Abbreviation ST := (Scheduler K E unit).
Abbreviation no_connector := (None : option (KVConnector unit)).
Implicit Types (s : ST) (id : string).

(** The synchronous scheduler without LoRA adapters. *)
Record sync_config : Prop := {
  sc_sync : async_scheduling cfg = false;
  sc_lora : max_loras cfg = None;
  sc_budget : 0 ≤ max_num_scheduled_tokens cfg;
  sc_lookahead : 0 ≤ num_lookahead_tokens cfg;
  sc_running : 0 ≤ max_num_running_reqs cfg;
  sc_align : need_mamba_block_aligned_split cfg = true → 0 < cache_block_size cfg;
}.

(** The calls of the engine's clients, with the executor's answers. *)
Inductive engine_call :=
  | CallAdd (r : Request) (timestamp : Z)
  | CallAbort (ids : list string)
  | CallPause (mode : PauseMode) (clear_cache : bool) (timestamp : Z)
  | CallResume
  | CallStep (schedule_time update_time : Z) (execute : SchedulerOutput → option (list string) → ModelRunnerOutput)
      (aborts_queue : list (list string)) (drafts : option (list (string * list Z))).
Definition run_engine_call (c : engine_call) : M ST (list EngineCoreOutput) :=
  match c with
  | CallAdd r ts => engine_add_request cfg no_connector set_order hasher id_order task_supported r ts ;; ret []
  | CallAbort ids => abort_requests cfg no_connector set_order id_order ids ;; ret []
  | CallPause mode clear_cache ts => pause_scheduler cfg no_connector set_order mode clear_cache ts ;; ret []
  | CallResume => resume_scheduler ;; ret []
  | CallStep t1 t2 execute aborts drafts =>
      x <- _process_engine_step cfg no_connector hci grammar_ready set_order hasher should_advance accept_tokens validate_tokens id_order
             use_spec_decode block_size recompute t1 t2 execute aborts drafts ;;
      ret x.1
  end.
(** What the executor promises, whatever is scheduled. *)
Definition executor_ok (o : SchedulerOutput) (mo : ModelRunnerOutput) : Prop :=
  (∀ id, id ∈ (so_num_scheduled_tokens o).*1 → sampled_ok (so_spec_decode_tokens o) mo id) ∧
  mo_invalid_block_ids mo = [] ∧ mo_finished_recving mo = [] ∧ mo_finished_sending mo = [].
(** What the callers promise. *)
Definition call_ok (c : engine_call) s : Prop :=
  match c with
  | CallAdd r _ => new_req cfg hci set_order r ∧ generates cfg r ∧ (request_id r ∉ s_requests s) ∧
      (∀ i q, i ∈ s_requests s → objs s !! i = Some q → py_id q ≠ py_id r)
  | CallPause mode _ _ => mode ≠ pause_wait
  | CallStep _ _ execute _ _ => ∀ o rows, executor_ok o (execute o rows)
  | CallAbort _ | CallResume => True
  end.

(** The invariant between two calls. *)
Record engine_inv (d : list (string * list Z)) s : Prop := {
  en_good : good cfg hci set_order d s;
  en_gen : ∀ id r, id ∈ s_requests s → objs s !! id = Some r → generates cfg r;
}.
Lemma pause_keeps d s p : engine_inv d s → engine_inv d (s <| pause_state := p |>).
Proof.
  intros [[Hi Hall Hid] Hgen]. constructor; [|done]. constructor; try done. pose proof Hi as [I1 I2 I3 I4 I5 I6 I7 I8].
  apply (inv_apart cfg hci set_order d s _ [] Hi); try done.
  - intros i Hin. split; [done|]. apply not_elem_of_nil.
  - intros i Hin. left. split; [done|]. apply not_elem_of_nil.
  - by intros i ?%not_elem_of_nil.
Qed.
Lemma finish_keeps d s ids st :
  engine_inv d s → NoDup ids → status_is_finished st = true →
  ∃ out s', finish_requests cfg no_connector set_order ids st s = (Ok out, s') ∧ engine_inv d s' ∧
    (∀ i, i ∈ s_requests s' ↔ i ∈ s_requests s ∧ (i ∉ ids)) ∧ (∀ i, i ∈ running s → (i ∉ ids) → i ∈ running s').
Proof.
  intros [Hg Hgen] Hnd Hst. destruct (finish_spec cfg hci set_order s d ids st Hg Hnd Hst) as (out & s' & He & Hg' & _ & Hk & Hr & Hob & _).
  exists out, s'. split_and!; try done.
  - constructor; [done|]. intros i r [H1 H2]%Hk Hi. rewrite Hob in Hi by done. by apply (Hgen i).
  - intros i H1 H2. rewrite Hr, list_elem_of_filter. done.
Qed.
Lemma abort_keeps d s ids :
  engine_inv d s → ∃ s', abort_requests cfg no_connector set_order id_order ids s = (Ok tt, s') ∧ engine_inv d s' ∧
    (∀ i, i ∈ s_requests s' → i ∈ s_requests s ∧ (i ∉ ids)) ∧ (∀ i, i ∈ running s → (i ∉ ids) → i ∈ running s').
Proof.
  intros Hi. assert (Hin : ∀ i, i ∈ id_order ids ↔ i ∈ ids) by (intros i; by rewrite id_order_set, elem_of_remove_dups).
  destruct (finish_keeps d s (id_order ids) FINISHED_ABORTED Hi) as (out & s' & He & Hi' & Hk & Hr); [rewrite id_order_set; apply NoDup_remove_dups|done|].
  exists s'. unfold abort_requests. mstep He. split_and!; try done; intros i; [rewrite Hk, Hin; done|]. intros H1 H2. apply Hr; [done|by rewrite Hin].
Qed.
Lemma aborts_keep d s q :
  engine_inv d s → ∃ s', _process_aborts_queue cfg no_connector set_order id_order q s = (Ok tt, s') ∧ engine_inv d s' ∧
    (∀ i, i ∈ s_requests s' → i ∈ s_requests s ∧ (i ∈ running s → i ∈ running s')).
Proof.
  intros Hi. unfold _process_aborts_queue. destruct q as [|ids q]; [by exists s; split_and!|].
  destruct (abort_keeps d s (concat (ids :: q)) Hi) as (s' & He & Hi' & Hk & Hr). exists s'. split_and!; try done.
  intros i [H1 H2]%Hk. split; [done|]. intros H3. by apply Hr.
Qed.

(** A step of the engine. *)
Lemma schedule_keeps s ts :
  sync_config → engine_inv [] s →
  ∃ o s', schedule cfg no_connector hci grammar_ready set_order ts s = (Ok o, s') ∧ engine_inv (so_spec_decode_tokens o) s' ∧
    s_requests s' = s_requests s ∧ NoDup (so_num_scheduled_tokens o).*1 ∧ NoDup (so_spec_decode_tokens o).*1 ∧
    (∀ id, id ∈ (so_spec_decode_tokens o).*1 → id ∈ (so_num_scheduled_tokens o).*1) ∧
    (∀ id n, (id, n) ∈ so_num_scheduled_tokens o → 0 < n ∧ id ∈ running s').
Proof.
  intros [S1 S2 S3 S4 S5 S6] [[Hi Hall Hid] Hgen].
  destruct (schedule_spec cfg hci grammar_ready set_order (running s ++ waiting s ++ skipped_waiting s) s ts) as
    (o & s' & He & Hi' & Hp & _ & _ & O1 & O2 & O3 & O4 & _ & _ & Hk & Hst); try done.
  { intros m Hm. congruence. }
  rewrite S1 in Hi'. exists o, s'. split_and!; try done. constructor; [constructor|]; try done.
  - by rewrite Hk, Hp, Hall.
  - by apply (ident_static s s').
  - intros i r Hin Hr. rewrite Hk in Hin. specialize (Hst i). rewrite Hr in Hst. inversion Hst as [r0 ? Hs Heq|]. apply (generates_static cfg r0); [done|]. by apply (Hgen i).
Qed.
Lemma engine_step_ok s t1 t2 execute aborts :
  sync_config → (∀ o rows, executor_ok o (execute o rows)) → engine_inv [] s →
  ∃ x s', step cfg no_connector hci grammar_ready set_order hasher should_advance accept_tokens id_order block_size recompute t1 t2 execute aborts s = (Ok x, s') ∧
    engine_inv [] s' ∧ (∀ i, i ∈ s_requests s' → i ∈ s_requests s).
Proof.
  intros Hc Hex Hi. unfold step. rewrite run_get. destruct (has_requests s); cbn [negb]; [|by eexists _, s].
  destruct (schedule_keeps s t1 Hc Hi) as (o & s1 & He1 & Hi1 & K1 & O1 & O2 & O3 & O4). mstep He1. rewrite run_gets. cbv zeta.
  destruct (Hex o (grammar_request_ids o s1)) as (M1 & M2 & M3 & M4).
  destruct (aborts_keep _ s1 aborts Hi1) as (s2 & He2 & [Hg2 Hgen2] & Hk2). mstep He2.
  destruct (update_spec cfg hci set_order hasher should_advance accept_tokens advance_structured block_size recompute o (execute o (grammar_request_ids o s1)) t2 s2)
    as (outs & s3 & He3 & Hg3 & Hgen3 & Hk3 & _); try done; [apply (sc_sync Hc)| |].
  { constructor; try done.
    - intros id n Hn. by apply (O4 id).
    - intros id [[i n] [-> Hn]]%list_elem_of_fmap. destruct (O4 i n Hn) as [_ Hrun]. simpl. intros Hw.
      assert (Hin : i ∈ s_requests s2) by (rewrite (g_all _ _ _ _ _ Hg2), elem_of_app; by right).
      destruct (Hk2 i Hin) as [_ Hr2]. pose proof (si_nodup _ _ _ _ _ (g_inv _ _ _ _ _ Hg2)) as Hnd. apply NoDup_app in Hnd as (_ & Hnd & _). apply (Hnd i); auto.
    - intros id Hid _. by apply M1. }
  mstep He3. eexists _, s3. split; [reflexivity|]. split; [by constructor|]. intros i H3. rewrite <-K1. by apply Hk2, Hk3.
Qed.
Lemma engine_step_keeps s t1 t2 execute aborts drafts :
  sync_config → (∀ o rows, executor_ok o (execute o rows)) → engine_inv [] s →
  ∃ x s', _process_engine_step cfg no_connector hci grammar_ready set_order hasher should_advance accept_tokens validate_tokens id_order
      use_spec_decode block_size recompute t1 t2 execute aborts drafts s = (Ok x, s') ∧ engine_inv [] s'.
Proof.
  intros Hc Hex Hi. unfold _process_engine_step. destruct (engine_step_ok s t1 t2 execute aborts Hc Hex Hi) as (x & s1 & He & Hi1 & _). mstep He.
  assert (Hp : ∃ s2, post_step cfg should_advance validate_tokens use_spec_decode drafts x.2 s1 = (Ok tt, s2) ∧ engine_inv [] s2).
  { unfold post_step. destruct (_ && _); [|by exists s1]. destruct drafts as [d|]; [|by exists s1]. destruct Hi1 as [Hg Hgen].
    destruct (drafts_spec cfg hci set_order should_advance validate_tokens d s1 Hg Hgen) as (s2 & He2 & Hg2 & Hgen2 & _). exists s2. split; [done|]. by constructor. }
  destruct Hp as (s2 & Hp & Hi2). mstep Hp. by eexists _, s2.
Qed.
Lemma add_keeps s r ts :
  engine_inv [] s → call_ok (CallAdd r ts) s →
  ∃ s', engine_add_request cfg no_connector set_order hasher id_order task_supported r ts s = (Ok tt, s') ∧ engine_inv [] s'.
Proof.
  intros [Hg Hgen] (Hn & Hgr & Hfresh & Hpy). unfold engine_add_request. rewrite (ge_pooling _ _ Hgr), run_ret.
  destruct (add_spec cfg hci set_order hasher s [] r ts (g_inv _ _ _ _ _ Hg) Hn Hfresh) as (s0 & He0 & _ & _ & _ & Hk & Hob & r' & Hr' & Hs').
  destruct (add_good cfg hci set_order hasher s [] r ts Hg Hn Hfresh Hpy) as (s1 & He & Hg1 & _). assert (s0 = s1) as -> by congruence. mstep He.
  assert (Hi1 : engine_inv [] s1).
  { constructor; [done|]. intros i q. rewrite Hk, elem_of_app, list_elem_of_singleton. intros [Hin| ->] Hq.
    - rewrite Hob in Hq; [by apply (Hgen i)|]. by intros ->.
    - assert (q = r') as -> by congruence. by apply (generates_static cfg r). }
  destruct (abort_immediately r); simpl; [|by exists s1]. destruct (abort_keeps [] s1 [request_id r] Hi1) as (s2 & He2 & Hi2 & _). by exists s2.
Qed.
(** Clearing the caches moves every running request to the waiting ones and
    cannot fail: no block and no encoder output is in use then. *)
Lemma reset_caches_keep s ts : engine_inv [] s →
  ∃ s', _reset_caches cfg no_connector set_order ts true s = (Ok tt, s') ∧ engine_inv [] s'.
Proof.
  intros [Hg Hgen]. destruct (reset_spec cfg hci set_order s ts Hg parked_none) as (s1 & He & [Hi Hall Hid] & _ & Hk & Hst).
  destruct (el_reset (enc s1) (si_enc _ _ _ _ _ Hi)) as (e & He' & Henc). unfold _reset_caches. mstep He.
  exists (s1 <| enc := e |>). split; [by apply on_enc_ok|]. constructor.
  - constructor; [|done|done]. apply (inv_apart cfg hci set_order [] s1 _ [] Hi); try done.
    + apply (si_nodup _ _ _ _ _ Hi).
    + intros i Hin. split; [done|]. apply not_elem_of_nil.
    + intros i Hin. left. split; [done|]. apply not_elem_of_nil.
    + apply (si_kv _ _ _ _ _ Hi).
    + by intros i ?%not_elem_of_nil.
  - intros i r Hin Hr. change (i ∈ s_requests s1) in Hin. rewrite Hk in Hin. specialize (Hst i). change (objs s1 !! i = Some r) in Hr.
    rewrite Hr in Hst. inversion Hst as [r0 ? Hs Heq|]. apply (generates_static cfg r0); [done|]. by apply (Hgen i).
Qed.
Lemma pause_scheduler_keeps s mode clear ts : engine_inv [] s → mode ≠ pause_wait →
  ∃ s', pause_scheduler cfg no_connector set_order mode clear ts s = (Ok tt, s') ∧ engine_inv [] s'.
Proof.
  intros Hi Hmode. assert (Hp : ∃ s1, (match mode with
    | pause_abort => s <- get ;; finish_requests cfg no_connector set_order (s_requests s) FINISHED_ABORTED ;; ret tt
    | _ => ret tt end : M ST unit) s = (Ok tt, s1) ∧ engine_inv [] s1).
  { destruct mode; [|done|by exists s]. rewrite run_get.
    destruct (finish_keeps [] s (s_requests s) FINISHED_ABORTED Hi) as (out & s1 & He & Hi1 & _); [|done|].
    { rewrite (g_all _ _ _ _ _ (en_good _ _ Hi)). apply (si_nodup _ _ _ _ _ (g_inv _ _ _ _ _ (en_good _ _ Hi))). }
    mstep He. by exists s1. }
  destruct Hp as (s1 & He & Hi1). set (p := match mode with pause_keep => PAUSED_ALL | _ => PAUSED_NEW end).
  pose proof (pause_keeps [] s1 p Hi1) as Hi2.
  assert (Hrun : pause_scheduler cfg no_connector set_order mode clear ts s =
    (if clear then _reset_caches cfg no_connector set_order ts true else ret tt) (s1 <| pause_state := p |>)).
  { unfold pause_scheduler. destruct mode; [|done|]; mstep He; done. }
  rewrite Hrun. destruct clear; [by apply reset_caches_keep|by eexists].
Qed.
Lemma call_keeps c s :
  sync_config → engine_inv [] s → call_ok c s → ∃ out s', run_engine_call c s = (Ok out, s') ∧ engine_inv [] s'.
Proof.
  intros Hc Hi Hok. destruct c as [r ts|ids|mode clear ts| |t1 t2 execute aborts drafts]; simpl run_engine_call.
  - destruct (add_keeps s r ts Hi Hok) as (s' & He & Hi'). mstep He. by eexists _, s'.
  - destruct (abort_keeps [] s ids Hi) as (s' & He & Hi' & _). mstep He. by eexists _, s'.
  - destruct (pause_scheduler_keeps s mode clear ts Hi Hok) as (s' & He & Hi'). mstep He. by eexists _, s'.
  - eexists _, _. split; [reflexivity|]. by apply pause_keeps.
  - destruct (engine_step_keeps s t1 t2 execute aborts drafts Hc Hok Hi) as (x & s' & He & Hi'). mstep He. by eexists _, s'.
Qed.

(** The states the calls reach from a new engine. *)
Inductive reached (s0 : ST) : ST → Prop :=
  | reached_init : reached s0 s0
  | reached_call s c out s' : reached s0 s → call_ok c s → run_engine_call c s = (Ok out, s') → reached s0 s'.
Lemma init_inv inc k e : sync_config → kl_inv k → el_inv e → (∀ id, kl_covers k id 0) → engine_inv [] (new_Scheduler cfg no_connector inc k e tt).
Proof.
  intros Hc Hk He Hcov. constructor; [constructor; [constructor|..]|]; try done; simpl.
  - constructor.
  - by intros id ?%not_elem_of_nil.
  - by intros id ?%not_elem_of_nil.
  - apply (sc_running Hc).
Qed.
Lemma reached_inv s0 s : sync_config → engine_inv [] s0 → reached s0 s → engine_inv [] s.
Proof.
  intros Hc H0. induction 1 as [|s c out s' _ IH Hok He]; [done|]. destruct (call_keeps c s Hc IH Hok) as (out' & s2 & He' & Hi). congruence.
Qed.
End engine_safety.
