(* ===== verification/EngineSafety.v ===== *)
(** * The engine with its managers: no call ever raises

    The engine core, the synchronous scheduler, the request queues, the KV-cache
    manager with its coordinators and block pool, the encoder cache and the
    block hasher, put together: whatever generation requests clients add, and
    whatever they abort, pause (clearing the caches or not) or resume, and
    whatever tokens the executor samples or drafts, no call raises, and the
    requests, their queues and their blocks stay consistent. *)
From S2P Require Import Prelude MathUtils FreeQueue Request BlockHash BlockPool KVSpec SingleType Accounting Coordinator CoordinatorInv HybridHit KVCacheManager KVManagerInv HeapQ RequestQueue EncoderCache SchedUtils Scheduler SchedulerInv SchedulerKV SchedulerLife SchedulerStep EngineCore.
Local Open Scope Z_scope.

(* ===================================================================== *)
(** ** The block hashes of a request under the scheduler                  *)
(* ===================================================================== *)

Section hashes.
Context `{env : KVEnv}.
Variables (hash_function : bytes * list Z * option (list extra_key) → bytes) (NONE_HASH : bytes) (bs : Z).
Hypothesis bs_pos : 0 < bs.
Hypothesis hash_inj : ∀ x y, hash_function x = hash_function y → x = y.
Hypothesis hash_nonempty : ∀ x, hash_function x ≠ [].
Hypothesis hash_not_seed : ∀ x, hash_function x ≠ NONE_HASH.
Abbreviation hashed' := (hashed env_sha256 hash_function NONE_HASH bs).

(** A request with at most one multi-modal item and the hashes of all its full
    blocks. *)
Definition fully_hashed (r : Request) : Prop := singly_hashed env_sha256 hash_function NONE_HASH bs r.
Lemma fully_hashed_static r r' : same_static r r' → fully_hashed r → fully_hashed r'.
Proof.
  intros Hs (H1 & H2 & H3 & H4 & H5). assert (Hf : ∀ {A} (f : Request → A), (∀ q, f (erase q) = f q) → f r' = f r) by (intros A f Hf; by rewrite <-(Hf r'), Hs).
  assert (Hm : mm_features r' = mm_features r) by (by apply (Hf _ mm_features)). assert (Ht : _all_token_ids r' = _all_token_ids r) by (by apply (Hf _ _all_token_ids)).
  assert (Hn : full_blocks bs r' = full_blocks bs r) by (unfold full_blocks, num_tokens; by rewrite Ht).
  unfold fully_hashed, singly_hashed, hashed. rewrite Hm, Hn, (static_tokens r r') by done. split_and!; try done.
  - rewrite (Hf _ block_hashes), H3 by done. symmetry. apply ref_hashes_ext; [done|]. intros s e.
    apply (Hf _ (λ q, ref_extra env_sha256 q s e)). done.
  - by rewrite (Hf _ (λ q, memo_ok env_sha256 q)).
Qed.
Lemma fully_hashed_use r :
  fully_hashed r → num_tokens r / bs ≤ len (block_hashes r) ∧ NoDup (block_hashes r) ∧ mm_wf (mm_features r) ∧ memo_ok env_sha256 r.
Proof.
  intros (H1 & H2 & Hh). pose proof Hh as (H3 & H4 & H5). split_and!; try done.
  - unfold len. rewrite H3, length_ref_hashes. unfold full_blocks. assert (0 ≤ num_tokens r) by apply len_nonneg.
    pose proof (Z.div_pos (num_tokens r) bs). lia.
  - apply NoDup_alt. intros i j h Hi Hj. destruct (hashed_lookup env_sha256 hash_function NONE_HASH bs bs_pos r _ i h Hh Hi) as [-> _].
    destruct (hashed_lookup env_sha256 hash_function NONE_HASH bs bs_pos r _ j _ Hh Hj) as [Heq _].
    by destruct (hash_at_inj env_sha256 hash_function NONE_HASH bs hash_inj hash_nonempty hash_not_seed r r i j Heq).
Qed.
(** The hasher extends the chain when a token is appended. *)
Lemma fully_hashed_append r t :
  fully_hashed r → ∃ hs memo, append_output_token_ids (Some (request_block_hasher env_sha256 hash_function NONE_HASH bs)) [t] r = (Ok tt, grown_by t hs memo r) ∧
    fully_hashed (grown_by t hs memo r).
Proof. apply (singly_hashed_append env_sha256 hash_function NONE_HASH bs bs_pos). Qed.
End hashes.

(* ===================================================================== *)
(** ** A new manager for one full-attention group                         *)
(* ===================================================================== *)

(** The layers of the model form one group of full attention. *)
Record full_attention_config (kvcfg : KVCacheConfig) (bs : Z) : Prop := {
  fa_bs : 0 < bs;
  fa_blocks : 0 < num_blocks kvcfg;
  fa_group : ∃ g s, kv_cache_groups kvcfg = [g] ∧ kv_cache_spec g = LayerSpec s ∧ spec_manager_map s = Ok FullAttentionManager ∧
    isa_FullAttentionSpec s = true ∧ block_size s = bs;
}.
Lemma new_full_manager `{env : KVEnv} kvcfg bs ml mb caching eagle log ev k :
  full_attention_config kvcfg bs → KVCacheManager_init kvcfg ml bs mb caching eagle log ev 1 1 = Ok k →
  kvm_inv ml bs caching k ∧ ∀ id, kvm_covers k id 0.
Proof.
  intros [Hbs Hn (g & s & Hg & Hs & Hc & Hf & Hb)] Hk.
  destruct (KVCacheManager_init_inv kvcfg ml bs mb caching eagle log ev 1 1 k) as (Hinv & Hst & _ & Hempty); try done; try (rewrite Hg; done).
  { rewrite Hg. apply Forall_singleton. unfold attention_group_ok. by rewrite Hs, Hc, Hb. }
  unfold KVCacheManager_init, get_kv_cache_coordinator in Hk. destruct (BlockPool_init_spec (num_blocks kvcfg) caching bs ev Hn) as (p & Hp & _ & Hpc & _).
  rewrite Hp, Hg in Hk. cbn [build_managers] in Hk. rewrite Hs in Hk. set (m := SingleTypeKVCacheManager_init FullAttentionManager s p caching 0 1 1
    (max_admission_blocks_per_request s (default ml mb) ml)).
  assert (Hm : get_manager_for_kv_cache_spec s (default ml mb) ml caching 0 1 1 p = (Ok m, p)) by (unfold get_manager_for_kv_cache_spec; rewrite Hc; by destruct s).
  rewrite (bind_ok _ _ _ _ _ Hm), run_ret in Hk. unfold ret in Hk. unfold choose_kind in Hk. rewrite Hs in Hk. cbv zeta in Hk. simpl in Hk. rewrite Hb, Z.eqb_refl in Hk.
  unfold pool_cfg in Hpc.
  assert (Hms : ∃ kd, (caching = true → kd = UnitaryKVCacheCoordinator s bs 1 1) ∧ k = mkKVCacheManager ml caching log (if log then Some new_PrefixCacheStats else None)
    (mkCoordinator [g] ml caching p (eagle_groups [g] eagle) [m] kd) 1).
  { destruct caching; simpl in Hk; injection Hk as <-; eexists; (split; [|reflexivity]); done. }
  destruct Hms as (kd & Hkd & ->). assert (Hmb : m_bs m = bs) by exact Hb. split.
  - constructor; try done; simpl.
    + split; [by exists (seqZ 1 (num_blocks kvcfg - 1))|done].
    + intros i m' Hm'. destruct i; [|done]. injection Hm' as <-. unfold window_ok. change (spec m) with s. by destruct s.
    + intros Hca. exists s, m. split_and!; try done; [by apply Hkd|simpl; congruence|]. apply full_hit_law; [done|lia|done].
  - intros id i m' Hm'. simpl in Hm'. destruct i; [|done]. injection Hm' as <-. unfold table_covers, fresh_in, blocks_of. simpl. by rewrite !lookup_empty.
Qed.

(* ===================================================================== *)
(** ** The whole engine                                                   *)
(* ===================================================================== *)

Section engine.
Context `{env : KVEnv}.
Variables (cfg : Config) (kvcfg : KVCacheConfig) (bs : Z) (caching : bool) (size : mm_hash → Z).
Variables (hash_function : bytes * list Z * option (list extra_key) → bytes) (NONE_HASH : bytes).
Variables (hci : option (mm_hash → bool)) (grammar_ready : Request → bool) (set_order : list Z → list Z) (should_advance : Request → bool)
  (accept_tokens : string → list Z → bool) (validate_tokens : string → list Z → list Z) (id_order : list string → list string)
  (task_supported : PoolingParams → bool) (use_spec_decode : bool) (block_size : Z) (recompute : bool).
(** Documented behaviour of the parameters: a collision-free hash, sets iterated
    in some order, sizes of encoder outputs, and a structured-output manager
    that advances the grammar of requests that have one. *)
Record parameters_ok : Prop := {
  po_inj : ∀ x y, hash_function x = hash_function y → x = y;
  po_nonempty : ∀ x, hash_function x ≠ [];
  po_not_seed : ∀ x, hash_function x ≠ NONE_HASH;
  po_set_order : ∀ l, set_order l ≡ₚ l;
  po_id_order : ∀ l, id_order l ≡ₚ remove_dups l;
  po_size : ∀ h, 0 ≤ size h;
  po_advance : ∀ r, should_advance r = true → is_some (structured_output_request r) = true;
  po_bs : 0 < bs;
}.
Hypothesis params : parameters_ok.
Abbreviation hash_ok := (fully_hashed hash_function NONE_HASH bs).
#[local] Instance engine_kv_laws : KVLaws KVCacheManager (max_model_len cfg) :=
  kvm_laws (max_model_len cfg) bs caching hash_ok (fully_hashed_static hash_function NONE_HASH bs)
    (fully_hashed_use hash_function NONE_HASH bs (po_bs params) (po_inj params) (po_nonempty params) (po_not_seed params)).
#[local] Instance engine_enc_laws : EncLaws EncoderCacheManager set_order (disable_chunked_mm cfg) hci :=
  enc_laws size set_order (disable_chunked_mm cfg) hci (po_size params) (po_set_order params).
(** Requests are hashed when prefix caching is on. *)
Definition engine_hasher : option BlockHasher := if caching then Some (request_block_hasher env_sha256 hash_function NONE_HASH bs) else None.
#[local] Instance engine_append_laws : AppendLaws (max_model_len cfg) set_order (disable_chunked_mm cfg) hci engine_hasher.
Proof.
  intros r t Hk He. unfold engine_hasher. change (caching = true → hash_ok r) in Hk. destruct caching eqn:Hca.
  - destruct (fully_hashed_append hash_function NONE_HASH bs (po_bs params) r t (Hk eq_refl)) as (hs & memo & Ha & Hh). exists hs, memo. split_and!; try done.
    by intros _.
  - exists (block_hashes r), (_prompt_embeds_per_block_hashes r). split_and!; try done. intros Hx. congruence.
Qed.
Lemma engine_parked n : kl_parked n → n = 0.
Proof. by intros H. Qed.
Abbreviation ST := (Scheduler KVCacheManager EncoderCacheManager unit).
Abbreviation engine_run := (run_engine_call cfg hci grammar_ready set_order engine_hasher should_advance accept_tokens validate_tokens id_order task_supported
  use_spec_decode block_size recompute).
Abbreviation engine_reached := (reached cfg hci grammar_ready set_order engine_hasher should_advance accept_tokens validate_tokens id_order task_supported
  use_spec_decode block_size recompute).

(** What holds between two calls. *)
Record consistent (s : ST) : Prop := {
  cs_lists : NoDup (running s ++ waiting s ++ skipped_waiting s);
  cs_requests : s_requests s ≡ₚ running s ++ waiting s ++ skipped_waiting s;
  cs_bound : len (running s) ≤ max_num_running_reqs cfg;
  cs_running : ∀ id, id ∈ running s → ∃ r, objs s !! id = Some r ∧ status r = RUNNING ∧ 0 < num_computed_tokens r ≤ num_tokens r ∧
    num_tokens r < max_model_len cfg ∧ kvm_covers (kv s) id (num_computed_tokens r);
  cs_waiting : ∀ id, id ∈ waiting s ++ skipped_waiting s → ∃ r, objs s !! id = Some r ∧ is_finished r = false ∧ num_computed_tokens r < num_tokens r;
  cs_forgotten : ∀ id, (id ∉ s_requests s) → kvm_covers (kv s) id 0;
  cs_kv : km_ok (kv s);
  cs_enc : ec_ok size (enc s);
}.
Lemma engine_consistent s : sync_config cfg → engine_inv cfg hci set_order [] s → consistent s.
Proof.
  intros Hc [[[I1 I2 I3 I4 I5 I6 I7 I8] Hall _] _]. constructor; try done.
  - intros id Hid. destruct (I2 id Hid) as (r & [] & H1 & H2 & H3 & H4). exists r. unfold flying in H4. simpl in H4.
    rewrite (proj2 ro_placeholders (sc_sync _ Hc)) in H4. split_and!; try done; lia.
  - intros id Hid. destruct (I3 id Hid) as (r & [] & H1 & H2 & _). exists r. split_and!; try done; [|lia].
    unfold waiting_status, is_finished in *. by destruct (status r).
  - by destruct I4.
Qed.

(** C1.  The engine never raises, for the synchronous scheduler of a model whose
    layers form one full-attention group, with or without prefix caching, and
    without a KV connector and LoRA adapters.  Make any sequence of calls: add
    generation requests (not pooling ones, not resumable ones, with new ids, a
    prompt and [max_tokens] that together fit the model's length, [min_tokens] at
    most [max_tokens], and with prefix caching at most one multi-modal item), abort requests, pause in the
    modes abort and keep, with or without clearing the caches, resume, and step,
    with aborts arriving during a step and with whatever tokens the executor
    samples and whatever drafts it proposes.  Then the next call returns without
    an exception or a failed assertion, and afterwards every request is in
    exactly one of the running list and the two queues, the limit on running
    requests is kept, the blocks of every running request hold its computed
    tokens, forgotten requests hold no blocks, and the KV-cache manager and the
    encoder cache keep their own invariants. *)
Theorem engine_calls_never_raise include_finished_set mb eagle log ev n k s c :
  sync_config cfg → full_attention_config kvcfg bs → 0 ≤ n →
  KVCacheManager_init kvcfg (max_model_len cfg) bs mb caching eagle log ev 1 1 = Ok k →
  engine_reached (new_Scheduler cfg None include_finished_set k (new_EncoderCacheManager n) tt) s →
  call_ok cfg hci set_order c s →
  ∃ outs s', engine_run c s = (Ok outs, s') ∧ consistent s'.
Proof.
  intros Hc Hfa Hn Hk Hs Hok. destruct (new_full_manager kvcfg bs _ mb caching eagle log ev k Hfa Hk) as [Hki Hcov].
  assert (H0 : engine_inv cfg hci set_order [] (new_Scheduler cfg None include_finished_set k (new_EncoderCacheManager n) tt)).
  { apply (init_inv cfg hci set_order); try done. by apply (EncoderCache.new_manager_ok size). }
  pose proof (reached_inv cfg hci grammar_ready set_order engine_hasher should_advance accept_tokens validate_tokens id_order task_supported use_spec_decode
    block_size recompute (po_advance params) (po_id_order params) engine_parked _ s Hc H0 Hs) as Hi.
  destruct (call_keeps cfg hci grammar_ready set_order engine_hasher should_advance accept_tokens validate_tokens id_order task_supported use_spec_decode
    block_size recompute (po_advance params) (po_id_order params) engine_parked c s Hc Hi Hok) as (outs & s' & He & Hi').
  exists outs, s'. split; [done|]. by apply engine_consistent.
Qed.
End engine.

(* ===================================================================== *)
(** ** Witnesses                                                          *)
(* ===================================================================== *)

Definition demo_request (id : string) (py : Z) (toks : list Z) : Request :=
  match new_Request (Some (request_block_hasher (λ b, b) enc_hash [0] 2)) (mkRequestArgs id py (Some toks) (Some (sampling 16)) None 0 0 None None None None 0 false false) with
  | Ok r => r
  | Raise _ => test_r1
  end.
Definition demo_cfg : Config :=
  mkConfig FCFS 2 8 0 true false 64 None 0 false 0 0 false false 2 false false false false true 1.
Definition demo_kv : KVCacheConfig := mkKVCacheConfig 9 [] [mkKVCacheGroupSpec ["a"%string] (LayerSpec test_full_spec) false].
Definition demo_manager : KVCacheManager :=
  match KVCacheManager_init demo_kv 64 2 None true false true false 1 1 with Ok k => k | Raise _ => no_manager end.
Definition demo_state : Scheduler KVCacheManager EncoderCacheManager unit :=
  new_Scheduler demo_cfg None true demo_manager (new_EncoderCacheManager 4) tt.

(** An executor that samples the token 7 for every scheduled request. *)
Definition demo_execute (o : SchedulerOutput) (_ : option (list string)) : ModelRunnerOutput :=
  mkModelRunnerOutput ((λ x : string * Z, (x.1, [7])) <$> so_num_scheduled_tokens o) [] [] [] [] [].
Lemma demo_execute_ok o rows : executor_ok o (demo_execute o rows).
Proof.
  split_and!; try done. intros id Hid. exists [7]. split; [|intros dr _; pose proof (len_nonneg dr); change (len [7]) with 1; lia].
  simpl. induction (so_num_scheduled_tokens o) as [|[i n] ns IH]; [by apply not_elem_of_nil in Hid|]. simpl in *. case_decide as Hi; [done|].
  apply IH. apply elem_of_cons in Hid as [?|?]; [congruence|done].
Qed.
Lemma demo_params : parameters_ok 2 (λ _, 1) enc_hash [0] id (λ _, false) remove_dups.
Proof. split; try done. intros x y. apply enc_hash_inj. Qed.
Lemma demo_sync : sync_config demo_cfg.
Proof. by split. Qed.
Lemma demo_full : full_attention_config demo_kv 2.
Proof. split; [done|done|]. by eexists _, _. Qed.

Abbreviation demo_run := (@run_engine_call KVCacheManager EncoderCacheManager (@km_manager test_env) _ demo_cfg None (λ _, true) id
  (@engine_hasher test_env 2 true enc_hash [0]) (λ _, false) (λ _ _, true) (λ _ l, l) remove_dups (λ _, true) false 2 true).
Definition demo_r : Request := demo_request "r" 1 [5; 6; 7; 8; 9].
Definition demo_q : Request := demo_request "q" 2 [5; 6; 7; 8; 1; 2; 3].
Definition demo_step : engine_call := CallStep 10 20 demo_execute [["zz"%string]] None.
Definition demo_state1 := (demo_run (CallAdd demo_r 0) demo_state).2.
Definition demo_state2 := (demo_run (CallAdd demo_q 1) demo_state1).2.
(** Pausing in the middle of a generation, with the caches cleared. *)
Definition demo_pause : engine_call := CallPause pause_keep true 30.

(** The laws of the two managers in the demonstration. *)
Abbreviation demo_kv_laws := (@engine_kv_laws test_env demo_cfg 2 true (λ _, 1) enc_hash [0] id (λ _, false) remove_dups demo_params).
Abbreviation demo_enc_laws := (@engine_enc_laws demo_cfg 2 (λ _, 1) enc_hash [0] None id (λ _, false) remove_dups demo_params).
Abbreviation demo_call_ok := (@call_ok _ _ (@km_manager test_env) _ demo_cfg None id demo_kv_laws demo_enc_laws).
Lemma demo_hashed r : r = demo_r ∨ r = demo_q → @fully_hashed test_env enc_hash [0] 2 r.
Proof.
  intros [-> | ->]; (split; [vm_compute; lia|]; split; [done|]; split_and!; [vm_compute; reflexivity|vm_compute; discriminate|apply memo_empty; vm_compute; reflexivity]).
Qed.
Lemma demo_add_ok r ts (s : Scheduler KVCacheManager EncoderCacheManager unit) :
  r = demo_r ∨ r = demo_q → (request_id r ∉ s_requests s) → (∀ i q, i ∈ s_requests s → objs s !! i = Some q → py_id q ≠ py_id r) →
  demo_call_ok (CallAdd r ts) s.
Proof.
  intros Hr H1 H2. pose proof (demo_hashed r Hr) as Hh. split; [|split; [|done]].
  - destruct Hr as [-> | ->]; (constructor; [by left|vm_compute; reflexivity|vm_compute; done|vm_compute; done|vm_compute; reflexivity|vm_compute; reflexivity|by intros _|]);
      (split; [intros f Hf; by apply not_elem_of_nil in Hf|split; [apply Forall_nil_2|vm_compute; constructor]]).
  - destruct Hr as [-> | ->]; (constructor; [vm_compute; reflexivity|eexists; split; [vm_compute; reflexivity|vm_compute; done]|vm_compute; done|vm_compute; reflexivity|vm_compute; reflexivity]).
Qed.
Lemma demo_reached : @reached _ _ (@km_manager test_env) _ demo_cfg None (λ _, true) id demo_kv_laws demo_enc_laws
  (@engine_hasher test_env 2 true enc_hash [0]) (λ _, false) (λ _ _, true) (λ _ l, l) remove_dups (λ _, true) false 2 true demo_state demo_state2.
Proof.
  apply (reached_call _ _ _ _ _ _ _ _ _ _ _ _ _ _ demo_state1 (CallAdd demo_q 1) []); [|apply demo_add_ok; [by right| |]|vm_compute; reflexivity].
  - apply (reached_call _ _ _ _ _ _ _ _ _ _ _ _ _ _ demo_state (CallAdd demo_r 0) []); [apply reached_init|apply demo_add_ok; [by left|by intros ?%not_elem_of_nil|by intros i q ?%not_elem_of_nil]|vm_compute; reflexivity].
  - vm_compute. intros Hin. inversion Hin as [|? ? ? Hin']; inversion Hin'.
  - intros i q Hin Hq. assert (i = "r"%string) as ->. { vm_compute in Hin. inversion Hin as [|? ? ? Hin']; [done|inversion Hin']. }
    vm_compute in Hq. injection Hq as <-. done.
Qed.
(** A step, and a pause after it, in the middle of both generations. *)
Lemma engine_calls_never_raise_witness :
  ∃ outs s', demo_run demo_step demo_state2 = (Ok outs, s') ∧ consistent demo_cfg (λ _, 1) s' ∧
  ∃ outs' s'', demo_run demo_pause s' = (Ok outs', s'') ∧ consistent demo_cfg (λ _, 1) s''.
Proof.
  assert (Hgo : ∀ s c, @reached _ _ (@km_manager test_env) _ demo_cfg None (λ _, true) id demo_kv_laws demo_enc_laws
      (@engine_hasher test_env 2 true enc_hash [0]) (λ _, false) (λ _ _, true) (λ _ l, l) remove_dups (λ _, true) false 2 true demo_state s →
    demo_call_ok c s → ∃ outs s', demo_run c s = (Ok outs, s') ∧ consistent demo_cfg (λ _, 1) s').
  { intros s c. apply (@engine_calls_never_raise test_env demo_cfg demo_kv 2 true (λ _, 1) enc_hash [0] None (λ _, true) id (λ _, false) (λ _ _, true) (λ _ l, l)
      remove_dups (λ _, true) false 2 true demo_params true None false true false 4 demo_manager s c demo_sync demo_full); [lia|vm_compute; reflexivity]. }
  destruct (Hgo demo_state2 demo_step demo_reached demo_execute_ok) as (outs & s' & He & Hs'). exists outs, s'. split; [exact He|]. split; [exact Hs'|].
  apply Hgo; [|discriminate]. exact (reached_call _ _ _ _ _ _ _ _ _ _ _ _ _ _ demo_state2 demo_step _ _ demo_reached demo_execute_ok He).
Defined.

(* ===================================================================== *)
(** ** One step of the scheduler                                          *)
(* ===================================================================== *)

Lemma demo_inv : @engine_inv _ _ (@km_manager test_env) _ demo_cfg None id demo_kv_laws demo_enc_laws [] demo_state2.
Proof.
  destruct (@new_full_manager test_env demo_kv 2 64 None true false true false demo_manager demo_full ltac:(vm_compute; reflexivity)) as [Hki Hcov].
  eapply (reached_inv demo_cfg None (λ _, true) id (@engine_hasher test_env 2 true enc_hash [0]) (λ _, false) (λ _ _, true) (λ _ l, l) remove_dups (λ _, true) false 2 true);
    [done|done|done|apply demo_sync| |apply demo_reached].
  apply init_inv; [apply demo_sync|exact Hki|by apply (EncoderCache.new_manager_ok (λ _, 1))|exact Hcov].
  Unshelve. apply (@engine_append_laws test_env).
Qed.

