(* ===== verification/EngineLimits.v ===== *)
(** * Where the engine goes wrong

    Concrete runs of the scheduler's model, with the real managers, that end in
    a failed assertion, a request that stalls and a request that is lost: each
    shows that a hypothesis of the safety theorems is needed. *)
From S2P Require Import Prelude MathUtils FreeQueue Request BlockHash BlockPool KVSpec SingleType Accounting Coordinator CoordinatorInv HybridHit KVCacheManager KVManagerInv HeapQ RequestQueue EncoderCache SchedUtils Scheduler SchedulerInv SchedulerKV SchedulerLife SchedulerStep EngineCore EngineSafety.
Local Open Scope Z_scope.

(** The calls of these runs. *)
Abbreviation demo_schedule cfg ts := (schedule (KVManager0 := @km_manager test_env) (E := EncoderCacheManager) (C := unit) cfg None None (λ _, true) id ts).
Abbreviation demo_update cfg o := (update_from_output (KVManager0 := @km_manager test_env) (E := EncoderCacheManager) (C := unit) cfg None id None
  (λ _, false) (λ _ _, true) 2 true o (demo_execute o None) 0).
Abbreviation demo_add cfg r := (sched_add_request (KVManager0 := @km_manager test_env) (E := EncoderCacheManager) (C := unit) cfg None id None r 0).
(** A manager without prefix caching. *)
Definition plain_manager : KVCacheManager :=
  match KVCacheManager_init demo_kv 64 2 None false false true false 1 1 with Ok k => k | Raise _ => no_manager end.

(** Two requests with different adapters, one adapter at a time. *)
Definition lora_cfg : Config :=
  mkConfig FCFS 2 8 0 true false 64 (Some 1) 0 false 0 0 false false 2 false false true false true 1.
Definition lora_request_of (id : string) (py l : Z) : Request :=
  match new_Request None
          (mkRequestArgs id py (Some [5; 6; 7]) (Some (sampling 16)) None 0 0 None None (Some (mkLoRARequest id l)) None 0 false false) with
  | Ok r => r
  | Raise _ => test_r1
  end.
Definition lora_state : Scheduler KVCacheManager EncoderCacheManager unit := new_Scheduler lora_cfg None true plain_manager (new_EncoderCacheManager 4) tt.
Definition lora_start : M (Scheduler KVCacheManager EncoderCacheManager unit) (SchedulerOutput * SchedulerOutput) :=
  demo_add lora_cfg (lora_request_of "a" 1 1) ;;
  demo_add lora_cfg (lora_request_of "b" 2 2) ;;
  o1 <- demo_schedule lora_cfg 1 ;;
  o2 <- demo_schedule lora_cfg 2 ;;
  demo_update lora_cfg o1 ;;
  demo_update lora_cfg o2 ;;
  ret (o1, o2).

(** With LoRA, two steps in flight at once (pipeline parallelism) break the
    scheduler.  The adapters in use are counted over the running requests that
    are scheduled in this step; a running request whose tokens are all in
    flight is not scheduled, so a waiting request with another adapter is
    admitted beyond [max_loras].  Once the outputs are back, both run in one
    step and the assertion on the number of adapters fails. *)
Theorem max_loras_assertion_fails :
  ∃ o1 o2 s', lora_start lora_state = (Ok (o1, o2), s') ∧ (so_num_scheduled_tokens o1).*1 = ["a"%string] ∧
    (so_num_scheduled_tokens o2).*1 = ["b"%string] ∧ (demo_schedule lora_cfg 3 s').1 = Raise AssertionError.
Proof.
  eexists _, _, _. split; [vm_compute; reflexivity|]. split_and!; vm_compute; reflexivity.
Qed.

(** A request that asks for more tokens than the model's length allows. *)
Definition stall_cfg : Config :=
  mkConfig FCFS 2 8 0 true false 8 None 0 false 0 0 false false 2 false false false false true 1.
Definition stall_request : Request :=
  match new_Request None
          (mkRequestArgs "a" 1 (Some [5; 6; 7; 8; 9]) (Some (mkSamplingParams (Some 3) 16 None None None None None None)) None 0 0 None None None None 0 false false) with
  | Ok r => r
  | Raise _ => test_r1
  end.
Definition stall_step : M (Scheduler KVCacheManager EncoderCacheManager unit) Z :=
  o <- demo_schedule stall_cfg 1 ;; demo_update stall_cfg o ;; ret (so_total_num_scheduled_tokens o).
Definition stall_state : Scheduler KVCacheManager EncoderCacheManager unit :=
  let s := (demo_add stall_cfg stall_request (new_Scheduler stall_cfg None true plain_manager (new_EncoderCacheManager 4) tt)).2 in
  (stall_step (stall_step (stall_step (stall_step s).2).2).2).2.
(** The steps after these change nothing. *)
Lemma stall_fixed : stall_step stall_state = (Ok 0, stall_state).
Proof. vm_compute. reflexivity. Qed.
Fixpoint stall_steps (n : nat) : M (Scheduler KVCacheManager EncoderCacheManager unit) Z :=
  match n with O => ret 0 | S n' => t <- stall_step ;; u <- stall_steps n' ;; ret (t + u) end.

(** A request can stall for ever.  [check_stop] looks at [min_tokens] before
    the model's length, and [min_tokens] is only compared with [max_tokens] when
    the client sets the latter; the default, the rest of the model's length, is
    filled in later.  With a larger [min_tokens] the request reaches the model's
    length without stopping: it stays in the running list, and no number of
    further steps schedules a token or finishes it. *)
Theorem min_tokens_beyond_model_length_stalls n :
  ∃ s', stall_steps n stall_state = (Ok 0, s') ∧ running s' = ["a"%string] ∧
    num_tokens <$> objs s' !! "a"%string = Some (max_model_len stall_cfg) ∧ status <$> objs s' !! "a"%string = Some RUNNING.
Proof.
  exists stall_state. split; [|split_and!; vm_compute; reflexivity]. induction n as [|n IH]; [done|].
  cbn [stall_steps]. by rewrite (bind_ok _ _ _ _ _ stall_fixed), (bind_ok _ _ _ _ _ IH).
Qed.

(** Streaming input with asynchronous scheduling on a full cache. *)
Definition stream_cfg : Config :=
  mkConfig FCFS 2 16 0 true false 64 None 0 false 0 0 false false 2 false false false true true 1.
Definition stream_request (id : string) (py : Z) (resumable : bool) : Request :=
  match new_Request None (mkRequestArgs id py (Some [1; 2; 3; 4; 5; 6; 7]) (Some (mkSamplingParams (Some 16) 0 None (Some [9]) None None None None)) None 0 0 None None None None 0 resumable false) with
  | Ok r => r
  | Raise _ => test_r1
  end.
Definition stream_output (o : SchedulerOutput) (token : Z) : ModelRunnerOutput :=
  mkModelRunnerOutput ((λ x : string * Z, (x.1, [if decide (x.1 = "a"%string) then token else 1])) <$> so_num_scheduled_tokens o) [] [] [] [] [].
Abbreviation stream_update o token := (update_from_output (KVManager0 := @km_manager test_env) (E := EncoderCacheManager) (C := unit) stream_cfg None id None
  (λ _, false) (λ _ _, true) 2 true o (stream_output o token) 0).
Definition stream_run : M (Scheduler KVCacheManager EncoderCacheManager unit) (list string * list string * list EngineCoreOutput) :=
  demo_add stream_cfg (stream_request "b" 1 false) ;;
  demo_add stream_cfg (stream_request "a" 2 true) ;;
  demo_add stream_cfg (stream_request "a" 3 true) ;;
  o1 <- demo_schedule stream_cfg 1 ;;
  o2 <- demo_schedule stream_cfg 2 ;;
  stream_update o1 1 ;;
  o3 <- demo_schedule stream_cfg 3 ;;
  s <- get ;;
  outs <- stream_update o2 9 ;;
  ret (elements (so_preempted_req_ids o3), waiting s, outs).
Definition stream_state := new_Scheduler stream_cfg None true plain_manager (new_EncoderCacheManager 4) tt.

(** A streaming request can be lost.  With asynchronous scheduling a request
    may be preempted while its last step is in flight; if that step then ends
    its turn and more input is queued, it is put back into the waiting queue,
    in which it already is, and afterwards removed from it as a stopped
    preempted request.  The request is still known and waits for its next turn,
    but it is in no queue and is never scheduled again. *)
Theorem preempted_streaming_request_is_lost :
  ∃ preempted queue outs s', stream_run stream_state = (Ok (preempted, queue, outs), s') ∧ preempted = ["a"%string] ∧ queue = ["a"%string] ∧
    "a"%string ∈ s_requests s' ∧ status <$> objs s' !! "a"%string = Some WAITING ∧
    ("a"%string ∉ running s' ++ waiting s' ++ skipped_waiting s').
Proof.
  eexists _, _, _, _. split; [vm_compute; reflexivity|]. split_and!; try (vm_compute; reflexivity); apply (bool_decide_unpack _); vm_compute; exact I.
Qed.
