(* ===== verification/Outcome.v ===== *)
(** * Computations that may raise

    Code that reads but does not change state returns an outcome [res A]: the
    exception monad, Python's integer division, [max], [min] and [sum], and the
    lemmas and the tactic [ok_steps] that open a computation that returned. *)
From S2P Require Import Prelude MathUtils.
Local Open Scope Z_scope.

#[export] Instance res_ret : MRet res := @Ok.
#[export] Instance res_bind : MBind res := λ A B f m,
  match m with Ok a => f a | Raise e => Raise e end.

Definition assert_r (b : bool) : res unit := if b then Ok tt else Raise AssertionError.
Definition some_or {A} (e : exc) (o : option A) : res A :=
  match o with Some a => Ok a | None => Raise e end.

(** [a // b], [a % b] and [cdiv(a, b)] of Python integers. *)
Definition py_div (a b : Z) : res Z := if b =? 0 then Raise ZeroDivisionError else Ok (a / b).
Definition py_mod (a b : Z) : res Z := if b =? 0 then Raise ZeroDivisionError else Ok (a mod b).
Definition py_cdiv (a b : Z) : res Z := if b =? 0 then Raise ZeroDivisionError else Ok (cdiv a b).

(** [max(l)], [min(l)] and [sum(l)]. *)
Definition py_max (l : list Z) : res Z :=
  match l with [] => Raise ValueError | x :: l' => Ok (foldl Z.max x l') end.
Definition py_min (l : list Z) : res Z :=
  match l with [] => Raise ValueError | x :: l' => Ok (foldl Z.min x l') end.
Definition py_sum (l : list Z) : Z := foldr Z.add 0 l.

(* ===================================================================== *)
(** ** Computations that may raise                                        *)
(* ===================================================================== *)

Lemma bind_Ok {A B} (m : res A) (k : A → res B) b : m ≫= k = Ok b ↔ ∃ a, m = Ok a ∧ k a = Ok b.
Proof.
  split; [|by intros (a & -> & H)]. destruct m as [a|e]; [intros H; by exists a|discriminate].
Qed.

Lemma mapM_Ok {A B} (f : A → res B) l k : mapM f l = Ok k ↔ Forall2 (λ x y, f x = Ok y) l k.
Proof.
  revert k. induction l as [|x l IH]; intros k; simpl.
  - split; [intros [= <-]; constructor|by intros ->%Forall2_nil_inv_l].
  - split.
    + intros (y & Hy & (k' & Hk & [= <-])%bind_Ok)%bind_Ok. constructor; [done|by apply IH].
    + intros (y & k' & Hy & Hk & ->)%Forall2_cons_inv_l. apply bind_Ok. exists y. split; [done|].
      apply bind_Ok. exists k'. by split; [apply IH|].
Qed.

Lemma assert_Ok b u : assert_r b = Ok u ↔ b = true.
Proof. destruct b, u; by split. Qed.
Lemma some_or_Ok {A} e (o : option A) a : some_or e o = Ok a ↔ o = Some a.
Proof. destruct o; simpl; split; intros; simplify_eq; done. Qed.
Lemma py_div_Ok a b q : py_div a b = Ok q ↔ b ≠ 0 ∧ q = a / b.
Proof. unfold py_div. destruct (Z.eqb_spec b 0); split; intros; destruct_and?; simplify_eq; done. Qed.
Lemma py_mod_Ok a b q : py_mod a b = Ok q ↔ b ≠ 0 ∧ q = a mod b.
Proof. unfold py_mod. destruct (Z.eqb_spec b 0); split; intros; destruct_and?; simplify_eq; done. Qed.
Lemma py_cdiv_Ok a b q : py_cdiv a b = Ok q ↔ b ≠ 0 ∧ q = cdiv a b.
Proof. unfold py_cdiv. destruct (Z.eqb_spec b 0); split; intros; destruct_and?; simplify_eq; done. Qed.

(** Open every step of a computation that returned. *)
Ltac ok_steps :=
  repeat match goal with
  | H : _ ≫= _ = Ok _ |- _ => apply bind_Ok in H as (? & ? & ?)
  | H : assert_r _ = Ok _ |- _ => apply assert_Ok in H
  | H : some_or _ _ = Ok _ |- _ => apply some_or_Ok in H
  | H : py_div _ _ = Ok _ |- _ => apply py_div_Ok in H as (? & ?)
  | H : py_mod _ _ = Ok _ |- _ => apply py_mod_Ok in H as (? & ?)
  | H : py_cdiv _ _ = Ok _ |- _ => apply py_cdiv_Ok in H as (? & ?)
  | H : mapM _ _ = Ok _ |- _ => apply mapM_Ok in H
  | H : Ok _ = Ok _ |- _ => injection H as H
  | H : Raise _ = Ok _ |- _ => discriminate H
  end.

Lemma foldl_max_spec l x : x ≤ foldl Z.max x l ∧ (∀ y, y ∈ l → y ≤ foldl Z.max x l) ∧
  (foldl Z.max x l = x ∨ foldl Z.max x l ∈ l).
Proof.
  revert x. induction l as [|z l IH]; intros x; simpl.
  { split; [lia|]. split; [by intros y ?%not_elem_of_nil|by left]. }
  destruct (IH (Z.max x z)) as (H1 & H2 & H3). split; [lia|]. split.
  - intros y [->|Hy]%elem_of_cons; [lia|by apply H2].
  - rewrite elem_of_cons. destruct H3 as [->|H3]; [|auto]. destruct (Z.max_spec x z) as [[_ ->]|[_ ->]]; auto.
Qed.
Lemma py_max_Ok l m : py_max l = Ok m → m ∈ l ∧ ∀ y, y ∈ l → y ≤ m.
Proof.
  destruct l as [|x l]; [done|]. simpl. intros [= <-]. destruct (foldl_max_spec l x) as (H1 & H2 & H3).
  split; [rewrite elem_of_cons; tauto|]. intros y [->|Hy]%elem_of_cons; auto.
Qed.
Lemma foldl_min_spec l x : foldl Z.min x l ≤ x ∧ (∀ y, y ∈ l → foldl Z.min x l ≤ y) ∧
  (foldl Z.min x l = x ∨ foldl Z.min x l ∈ l).
Proof.
  revert x. induction l as [|z l IH]; intros x; simpl.
  { split; [lia|]. split; [by intros y ?%not_elem_of_nil|by left]. }
  destruct (IH (Z.min x z)) as (H1 & H2 & H3). split; [lia|]. split.
  - intros y [->|Hy]%elem_of_cons; [lia|by apply H2].
  - rewrite elem_of_cons. destruct H3 as [->|H3]; [|auto]. destruct (Z.min_spec x z) as [[_ ->]|[_ ->]]; auto.
Qed.
Lemma py_min_Ok l m : py_min l = Ok m → m ∈ l ∧ ∀ y, y ∈ l → m ≤ y.
Proof.
  destruct l as [|x l]; [done|]. simpl. intros [= <-]. destruct (foldl_min_spec l x) as (H1 & H2 & H3).
  split; [rewrite elem_of_cons; tauto|]. intros y [->|Hy]%elem_of_cons; auto.
Qed.
Lemma py_max_total l : l ≠ [] → ∃ m, py_max l = Ok m.
Proof. destruct l; [done|]. intros _. by eexists. Qed.
Lemma py_min_total l : l ≠ [] → ∃ m, py_min l = Ok m.
Proof. destruct l; [done|]. intros _. by eexists. Qed.

(** Two outcomes that raise alike, or return related values. *)
Definition res_rel {A B} (R : A → B → Prop) (r : res A) (r' : res B) : Prop :=
  match r, r' with
  | Ok a, Ok b => R a b
  | Raise e, Raise e' => e = e'
  | _, _ => False
  end.

Lemma res_rel_refl {A} (R : A → A → Prop) r : Reflexive R → res_rel R r r.
Proof. destruct r; simpl; auto. Qed.
Lemma res_rel_self {A} (P : A → Prop) r : (∀ a, r = Ok a → P a) → res_rel (λ a b, a = b ∧ P a) r r.
Proof. destruct r; simpl; auto. Qed.
Lemma res_rel_bind {A A' B B'} (R : A → A' → Prop) (S : B → B' → Prop) m m' k k' :
  res_rel R m m' → (∀ a a', R a a' → res_rel S (k a) (k' a')) → res_rel S (m ≫= k) (m' ≫= k').
Proof. destruct m, m'; simpl; [auto|done..]. Qed.
Lemma res_rel_mapM {A B} (R : B → B → Prop) (f g : A → res B) l :
  (∀ x, x ∈ l → res_rel R (f x) (g x)) → res_rel (Forall2 R) (mapM f l) (mapM g l).
Proof.
  induction l as [|x l IH]; intros H; simpl; [constructor|].
  eapply res_rel_bind; [apply H; left|]. intros y y' Hy.
  eapply res_rel_bind; [apply IH; intros; apply H; by right|]. intros ys ys' Hys. by constructor.
Qed.
Lemma res_rel_Ok {A B} (R : A → B → Prop) r r' a : res_rel R r r' → r' = Ok a → ∃ b, r = Ok b ∧ R b a.
Proof. intros H ->. destruct r; [by eexists|done]. Qed.

Lemma py_sum_mono l l' : Forall2 Z.le l l' → py_sum l ≤ py_sum l'.
Proof. unfold py_sum. induction 1; simpl; lia. Qed.
Lemma py_sum_nonneg l : Forall (Z.le 0) l → 0 ≤ py_sum l.
Proof. unfold py_sum. induction 1; simpl; lia. Qed.
Lemma foldl_max_mono l l' x x' : x ≤ x' → Forall2 Z.le l l' → foldl Z.max x l ≤ foldl Z.max x' l'.
Proof. intros Hx H. revert x x' Hx. induction H; intros; simpl; [done|]. apply IHForall2. lia. Qed.
Lemma py_max_mono l l' : Forall2 Z.le l l' → res_rel Z.le (py_max l) (py_max l').
Proof. destruct 1; simpl; [done|]. by apply foldl_max_mono. Qed.
Lemma py_cdiv_mono a a' b : 0 ≤ b → a ≤ a' → res_rel Z.le (py_cdiv a b) (py_cdiv a' b).
Proof. intros Hb Ha. unfold py_cdiv. destruct (Z.eqb_spec b 0); simpl; [done|]. apply cdiv_mono; lia. Qed.
