(* ===== verification/KVPlan.v ===== *)
(** * Planning the KV cache ([src/vllm/v1/core/kv_cache_utils.py])

    From the specs of the layers to the memory of the workers: the layers are
    split into groups ([get_kv_cache_groups]), the groups are projected to the
    layers each worker owns, the model length is fitted to the memory, and every
    worker gets a number of blocks and a list of tensors
    ([get_kv_cache_configs]).  Code that reads specs and returns or raises is in
    the [res] monad; [vllm_config.model_config.max_model_len], the one field that
    is assigned, is passed on explicitly.  Dicts are association lists in
    insertion order; a set of integers is a list without duplicates, since no
    caller depends on its order.  Log messages are left out, but the arithmetic
    in their arguments is kept where it can raise. *)
From stdpp Require Import sorting.
From S2P Require Import Prelude MathUtils Outcome KVSpec.
Local Open Scope Z_scope.

(* ===================================================================== *)
(** ** Python pieces                                                      *)
(* ===================================================================== *)

(** [range(n)], as indices. *)
Definition range (n : Z) : list nat := seq 0 (Z.to_nat n).

(** [l[k::n]]: [k] elements are skipped, then one in [n] is taken. *)
Fixpoint stride {A} (n k : nat) (l : list A) : list A :=
  match l with
  | [] => []
  | x :: l' => match k with O => x :: stride n (n - 1) l' | S k' => stride n k' l' end
  end.

(** The rows of [zip] over all the lists of [ls]. *)
Fixpoint zip_rows {A} (n : nat) (ls : list (list A)) : list (list A) :=
  match n with
  | O => []
  | S n' => match mapM head ls with
            | Some row => row :: zip_rows n' (tail <$> ls)
            | None => []
            end
  end.
Definition zip_star {A} (ls : list (list A)) : list (list A) :=
  match ls with [] => [] | l :: _ => zip_rows (length l) ls end.

(** [d[k]] of a dict, and [d[k].append(x)] of a [defaultdict(list)]. *)
Fixpoint assoc_get {K V} `{EqDecision K} (k : K) (d : list (K * V)) : option V :=
  match d with
  | [] => None
  | (k', v) :: d' => if decide (k = k') then Some v else assoc_get k d'
  end.
Fixpoint dict_append {K A} `{EqDecision K} (k : K) (x : A) (d : list (K * list A)) : list (K * list A) :=
  match d with
  | [] => [(k, [x])]
  | (k', l) :: d' => if decide (k = k') then (k', l ++ [x]) :: d' else (k', l) :: dict_append k x d'
  end.
(** A [defaultdict(list)] filled with the values of pairs, in order. *)
Definition collect {K A} `{EqDecision K} (l : list (K * A)) : list (K * list A) :=
  foldl (λ d kx, dict_append kx.1 kx.2 d) [] l.

(* ===================================================================== *)
(** ** Configuration                                                      *)
(* ===================================================================== *)

(** The values of [vllm_config] read by the planner beside those of
    [KVSpec.VllmConfig]; [kv_transfer_config] and [speculative_config] are read
    only for being set, and for [use_eagle()]. *)
Record PlanConfig := mkPlanConfig {
  sizes_config : VllmConfig;
  original_max_model_len : Z;
  cache_block_size : Z;
  enable_prefix_caching : bool;
  requested_hash_block_size : option Z;
  num_gpu_blocks_override : option Z;
  has_kv_transfer_config : bool;
  disable_hybrid_kv_cache_manager : bool;
  use_eagle : bool;
}.
(** [vllm_config.model_config.max_model_len = n]. *)
Definition sizes_with_len (c : VllmConfig) (n : Z) : VllmConfig :=
  mkVllmConfig n (decode_context_parallel_size c) (prefill_context_parallel_size c)
    (max_num_batched_tokens c) (max_num_encoder_input_tokens c) (cfg_mamba_cache_mode c).
Definition with_max_model_len (c : PlanConfig) (n : Z) : PlanConfig :=
  mkPlanConfig (sizes_with_len (sizes_config c) n) (original_max_model_len c) (cache_block_size c)
    (enable_prefix_caching c) (requested_hash_block_size c) (num_gpu_blocks_override c)
    (has_kv_transfer_config c) (disable_hybrid_kv_cache_manager c) (use_eagle c).
Definition plan_max_model_len (c : PlanConfig) : Z := max_model_len (sizes_config c).

Definition isa_UniformType (g : GroupSpec) : bool :=
  match g with UniformSpec _ => true | LayerSpec _ => false end.
Definition isa_MambaGroup (g : GroupSpec) : bool :=
  match g with LayerSpec s => isa_MambaSpec s | UniformSpec _ => false end.

(** [resolve_kv_cache_block_sizes]: the granularity of the scheduler and that of
    the block hashes. *)
Definition resolve_kv_cache_block_sizes (kv_cache_config : KVCacheConfig) (c : PlanConfig) : res (Z * Z) :=
  let dcp := decode_context_parallel_size (sizes_config c) in
  let pcp := prefill_context_parallel_size (sizes_config c) in
  let groups := kv_cache_groups kv_cache_config in
  if len groups <=? 1 then
    let bs := cache_block_size c * dcp * pcp in Ok (bs, bs)
  else if negb (dcp =? 1) || negb (pcp =? 1) then Raise ValueError
  else
    let group_block_sizes := (λ g, group_block_size (kv_cache_spec g)) <$> groups in
    let scheduler_block_size := foldr Z.lcm 1 group_block_sizes in
    if negb (enable_prefix_caching c || has_kv_transfer_config c)
    then Ok (scheduler_block_size, scheduler_block_size)
    else if existsb (λ g, isa_MambaGroup (kv_cache_spec g)
                          && negb (group_block_size (kv_cache_spec g) =? cache_block_size c)) groups
    then Ok (scheduler_block_size, scheduler_block_size)
    else
      let hash_block_size :=
        match requested_hash_block_size c with
        | Some requested => requested
        | None => foldr Z.gcd 0 group_block_sizes
        end in
      if hash_block_size =? 0 then Raise ZeroDivisionError
      else if existsb (λ bs, negb (bs mod hash_block_size =? 0)) group_block_sizes then Raise ValueError
      else Ok (scheduler_block_size, hash_block_size).

(* ===================================================================== *)
(** ** Splitting the layers into groups                                   *)
(* ===================================================================== *)

Section plan.
Variable element_size : string → Z.
Variable int8kv_aligned_head_stride : bool.

Abbreviation layer_page_size := (page_size_bytes element_size int8kv_aligned_head_stride).
Abbreviation layer_max_memory := (max_memory_usage_bytes element_size int8kv_aligned_head_stride).

(** [KVCacheSpec.page_size_bytes] and [max_memory_usage_bytes] of a group's spec. *)
Definition group_page_size (g : GroupSpec) : res Z :=
  match g with
  | LayerSpec s => layer_page_size s
  | UniformSpec u => uniform_page_size_bytes element_size int8kv_aligned_head_stride u
  end.
Definition group_max_memory (c : VllmConfig) (g : GroupSpec) : res Z :=
  match g with
  | LayerSpec s => layer_max_memory s c
  | UniformSpec u => uniform_max_memory_usage_bytes element_size int8kv_aligned_head_stride u c
  end.

(** [UniformTypeKVCacheSpecs.get_page_sizes] and [get_num_layer_tuples]. *)
Definition uniform_layer_sizes (u : UniformTypeKVCacheSpecs) : res (list Z) :=
  mapM (λ ns, layer_page_size ns.2) (kv_cache_specs u).
Definition get_page_sizes (u : UniformTypeKVCacheSpecs) : res (list Z) :=
  sizes ← uniform_layer_sizes u; Ok (remove_dups sizes).
Definition occurrences (l : list Z) (x : Z) : Z := len (filter (λ y, y = x) l).
Definition get_num_layer_tuples (u : UniformTypeKVCacheSpecs) : res Z :=
  sizes ← uniform_layer_sizes u;
  match remove_dups sizes with
  | [] => Raise IndexError
  | x :: l => Ok (foldl Z.max (occurrences sizes x) (occurrences sizes <$> l))
  end.

(** [create_kv_cache_group_specs]. *)
Definition create_kv_cache_group_specs (kv_cache_spec : list (string * KVCacheSpec))
    (grouped_layer_names : list (list string)) : res (list KVCacheGroupSpec) :=
  mapM (λ names,
    layer_specs ← mapM (λ n, some_or KeyError (assoc_get n kv_cache_spec)) names;
    merged ← merge layer_specs;
    Ok (mkKVCacheGroupSpec names (LayerSpec merged) false)) grouped_layer_names.

(** [is_kv_cache_spec_uniform]: only an [AssertionError] of [merge] is caught. *)
Definition is_kv_cache_spec_uniform (kv_cache_spec : list (string * KVCacheSpec)) : res bool :=
  match kv_cache_spec with
  | [] => Ok true
  | _ => match merge kv_cache_spec.*2 with
         | Ok _ => Ok true
         | Raise AssertionError => Ok false
         | Raise e => Raise e
         end
  end.

Definition get_uniform_page_size (specs : list GroupSpec) : res Z :=
  sizes ← mapM group_page_size specs;
  match remove_dups sizes with [p] => Ok p | _ => Raise AssertionError end.

Definition is_kv_cache_page_size_uniform (kv_cache_spec : list (string * KVCacheSpec)) : res bool :=
  sizes ← mapM (λ ns, layer_page_size ns.2) kv_cache_spec;
  Ok (len (remove_dups sizes) =? 1).

Definition is_kv_cache_type_attention_free (kv_cache_spec : list (string * KVCacheSpec)) : bool :=
  match kv_cache_spec with [] => true | _ => false end.

Definition _get_kv_cache_groups_uniform_spec (kv_cache_specs : list (string * KVCacheSpec)) :
    res (list KVCacheGroupSpec) :=
  create_kv_cache_group_specs kv_cache_specs [kv_cache_specs.*1].

Definition _get_kv_cache_groups_uniform_type (spec : UniformTypeKVCacheSpecs) : list KVCacheGroupSpec :=
  [mkKVCacheGroupSpec (kv_cache_specs spec).*1 (UniformSpec spec) false].

(** [dataclasses.replace(spec, block_size=n)], which runs [__post_init__]. *)
Definition replace_block_size (s : KVCacheSpec) (n : Z) : res KVCacheSpec :=
  match s with
  | FullAttentionSpec a v sw ch => Ok (FullAttentionSpec (a <| a_block_size := n |>) v sw ch)
  | TQFullAttentionSpec a v sw ch t => Ok (TQFullAttentionSpec (a <| a_block_size := n |>) v sw ch t)
  | MLAAttentionSpec a v sw ch m =>
      Ok (new_MLAAttentionSpec element_size (a <| a_block_size := n |>) (Some v) sw ch m)
  | SinkFullAttentionSpec a v sw ch k => Ok (SinkFullAttentionSpec (a <| a_block_size := n |>) v sw ch k)
  | ChunkedLocalAttentionSpec a c => Ok (ChunkedLocalAttentionSpec (a <| a_block_size := n |>) c)
  | SlidingWindowSpec a sw v => Ok (SlidingWindowSpec (a <| a_block_size := n |>) sw v)
  | SlidingWindowMLASpec a sw v m => new_SlidingWindowMLASpec element_size (a <| a_block_size := n |>) sw v m
  | MambaSpec m =>
      Ok (MambaSpec (mkMambaFields n (shapes m) (dtypes m) (m_page_size_padded m) (mamba_type m)
                       (mamba_cache_mode m) (num_speculative_blocks m)))
  | EncoderOnlyAttentionSpec a => Ok (EncoderOnlyAttentionSpec (a <| a_block_size := n |>))
  | CrossAttentionSpec a => Ok (CrossAttentionSpec (a <| a_block_size := n |>))
  end.

(** One layer of the loop of [unify_kv_cache_spec_page_size]. *)
Definition unify_layer (max_page_size : Z) (layer_spec : KVCacheSpec) : res KVCacheSpec :=
  layer_page_size_ ← layer_page_size layer_spec;
  if layer_page_size_ =? max_page_size then Ok layer_spec
  else
    rest ← py_mod max_page_size layer_page_size_;
    if negb (rest =? 0) then Raise NotImplementedError
    else
      let ratio := max_page_size / layer_page_size_ in
      new_spec ← replace_block_size layer_spec (block_size layer_spec * ratio);
      new_page_size ← layer_page_size new_spec;
      _ ← assert_r (new_page_size =? max_page_size);
      Ok new_spec.

Definition unify_kv_cache_spec_page_size (kv_cache_spec : list (string * KVCacheSpec)) :
    res (list (string * KVCacheSpec)) :=
  sizes ← mapM (λ ns, layer_page_size ns.2) kv_cache_spec;
  if len (remove_dups sizes) <=? 1 then Ok kv_cache_spec
  else
    max_page_size ← py_max sizes;
    mapM (λ ns, s ← unify_layer max_page_size ns.2; Ok (ns.1, s)) kv_cache_spec.

(** [same_type_layers] of [_get_kv_cache_groups_uniform_page_size]. *)
Definition same_type_layers (kv_cache_spec : list (string * KVCacheSpec)) : list (KVCacheSpec * list string) :=
  collect ((λ ns, (ns.2, ns.1)) <$> kv_cache_spec).

(** Its [group_size]; [max < min * 1.5] is decided on integers. *)
Definition choose_group_size (min_num_layers max_num_layers : Z) : Z :=
  if 2 * max_num_layers <? 3 * min_num_layers then max_num_layers else min_num_layers.

(** The sub-groups [layers[i::num_groups]] of the layers of one type. *)
Definition split_layers {A} (group_size : Z) (layers : list A) : list (list A) :=
  let num_groups := cdiv (len layers) group_size in
  (λ i, stride (Z.to_nat num_groups) i layers) <$> range num_groups.

Definition _get_kv_cache_groups_uniform_page_size (kv_cache_spec : list (string * KVCacheSpec)) :
    res (list KVCacheGroupSpec) :=
  let types := (same_type_layers kv_cache_spec).*2 in
  min_num_layers ← py_min (len <$> types);
  max_num_layers ← py_max (len <$> types);
  let group_size := choose_group_size min_num_layers max_num_layers in
  create_kv_cache_group_specs kv_cache_spec (concat (split_layers group_size <$> types)).

(** One entry of the loop of [unify_hybrid_kv_cache_specs].  The quantization
    mode is not passed on by the branches for MLA and chunked layers. *)
Definition to_full_attention (uniform_block_size : option Z) (spec : KVCacheSpec) : KVCacheSpec :=
  match spec with
  | SlidingWindowMLASpec a _ _ m =>
      new_MLAAttentionSpec element_size
        (mkAttentionSpec (default (a_block_size a) uniform_block_size) (num_kv_heads a) (head_size a)
           (a_dtype a) KV_NONE (page_size_padded a)) None None None m
  | SlidingWindowSpec a sw v => new_FullAttentionSpec a (Some v) (Some sw) None
  | ChunkedLocalAttentionSpec a ch =>
      new_FullAttentionSpec
        (mkAttentionSpec (a_block_size a) (num_kv_heads a) (head_size a) (a_dtype a) KV_NONE
           (page_size_padded a)) None None (Some ch)
  | s => s
  end.

(** [is_kv_cache_spec_uniform(d) or UniformTypeKVCacheSpecs.is_uniform_type(d)]. *)
Definition is_one_type (kv_cache_spec : list (string * KVCacheSpec)) : res bool :=
  uniform ← is_kv_cache_spec_uniform kv_cache_spec;
  if uniform : bool then Ok true else is_uniform_type kv_cache_spec.

(** [unify_hybrid_kv_cache_specs], as the dict after the call. *)
Definition unify_hybrid_kv_cache_specs (kv_cache_spec : list (string * KVCacheSpec)) :
    res (list (string * KVCacheSpec)) :=
  one ← is_one_type kv_cache_spec;
  if one : bool then Ok kv_cache_spec
  else
    let specs := kv_cache_spec.*2 in
    let has_full_attention := existsb isa_FullAttentionSpec specs in
    let has_sliding_window := existsb isa_SlidingWindowSpec specs in
    let has_chunked_local_attention := existsb isa_ChunkedLocalAttentionSpec specs in
    let has_swa_mla := existsb isa_SlidingWindowMLASpec specs in
    _ ← assert_r (negb has_swa_mla || has_full_attention);
    let uniform_block_size :=
      if has_swa_mla
      then block_size <$> head (filter (λ s, isa_FullAttentionSpec s = true) specs)
      else None in
    let unified :=
      if has_full_attention && (has_sliding_window || has_chunked_local_attention)
      then (λ ns, (ns.1, to_full_attention uniform_block_size ns.2)) <$> kv_cache_spec
      else kv_cache_spec in
    one' ← is_one_type unified;
    if one' : bool then Ok unified else Raise ValueError.

(** [UniformTypeKVCacheSpecs.from_specs(d)] asserted to be there. *)
Definition from_specs_or_fail (specs : list (string * KVCacheSpec)) : res UniformTypeKVCacheSpecs :=
  u ← from_specs specs; some_or AssertionError u.

(** The key of [grouped_swa_mla_specs], and the layers that have one. *)
Definition swa_mla_entry (ns : string * KVCacheSpec) : option (Z * Z * (string * KVCacheSpec)) :=
  match ns.2 with
  | SlidingWindowMLASpec a sw _ _ => Some (a_block_size a, sw, ns)
  | _ => None
  end.

Definition group_and_unify_kv_cache_specs (kv_cache_spec : list (string * KVCacheSpec)) :
    res (option (list UniformTypeKVCacheSpecs)) :=
  if negb (existsb isa_SlidingWindowMLASpec kv_cache_spec.*2) then Ok None
  else
    let mla_specs := filter (λ ns, isa_MLAAttentionSpec ns.2 = true) kv_cache_spec in
    let grouped_swa_mla_specs := collect (omap swa_mla_entry kv_cache_spec) in
    _ ← assert_r (0 <? len mla_specs);
    mla_uniform_spec ← from_specs_or_fail mla_specs;
    swa_uniform_specs ← mapM from_specs_or_fail grouped_swa_mla_specs.*2;
    Ok (Some (mla_uniform_spec :: swa_uniform_specs)).

(** The loop of [_approximate_gcd]. *)
Definition padding (values : list Z) (d : Z) : Z := py_sum ((λ x, (d - x mod d) mod d) <$> values).
Fixpoint best_chunk (values : list Z) (best_d : Z) (best_pad : option Z) (ds : list Z) : Z :=
  match ds with
  | [] => best_d
  | d :: ds' =>
      let pad := padding values d in
      let better := match best_pad with
                    | None => true
                    | Some bp => (pad <? bp) || ((pad =? bp) && (best_d <? d))
                    end in
      if better then best_chunk values d (Some pad) ds' else best_chunk values best_d best_pad ds'
  end.
Definition _approximate_gcd (values : list Z) (lower_bound : option Z) : res Z :=
  if match values with [] => true | _ => false end then Raise ValueError
  else if existsb (λ x, x <=? 0) values then Raise ValueError
  else
    let min_d := Z.max 1 (default 1 lower_bound) in
    max_d ← py_max values;
    if max_d <? min_d then Ok min_d
    else Ok (best_chunk values min_d None (seqZ min_d (max_d + 1 - min_d))).

(** [object.__setattr__(layer_spec, "page_size_padded", p)], for the class that
    [_get_kv_cache_groups_uniform_groups] has asserted. *)
Definition pad_page_size (s : KVCacheSpec) (p : Z) : KVCacheSpec :=
  match s with
  | SlidingWindowMLASpec a sw v m => SlidingWindowMLASpec (a <| page_size_padded := Some p |>) sw v m
  | _ => s
  end.

(** The body of the loop over [swa_mla_specs]: pad the pages of the layers to
    the page sizes of the full-MLA group and split the layer tuples. *)
Definition split_swa_group (all_page_sizes : list Z) (num_layer_tuples : Z) (sm_spec : UniformTypeKVCacheSpecs) :
    res (list KVCacheGroupSpec) :=
  sm_page_sizes ← get_page_sizes sm_spec;
  largest ← py_max sm_page_sizes;
  largest_mla ← py_max all_page_sizes;
  _ ← assert_r (largest <=? largest_mla);
  size_to_candidate ← mapM (λ ps, c ← py_min (filter (λ x, ps ≤ x) all_page_sizes); Ok (ps, c)) sm_page_sizes;
  padded ← mapM (λ ns, current_size ← layer_page_size ns.2;
                       candidate ← some_or KeyError (assoc_get current_size size_to_candidate);
                       Ok (candidate, (ns.1, if current_size <? candidate then pad_page_size ns.2 candidate
                                             else ns.2))) (kv_cache_specs sm_spec);
  let layers_per_size := collect ((λ r, (r.1, r.2.1)) <$> padded) in
  _ ← assert_r (len (remove_dups (len <$> layers_per_size.*2)) =? 1);
  first ← some_or StopIteration (head layers_per_size.*2);
  num_tuple_groups ← py_cdiv (len first) num_layer_tuples;
  let layer_tuples := zip_star layers_per_size.*2 in
  mapM (λ i,
    let group_layer_names := concat (stride (Z.to_nat num_tuple_groups) i layer_tuples) in
    group_layer_specs ← mapM (λ n, s ← some_or KeyError (assoc_get n padded.*2); Ok (n, s)) group_layer_names;
    sub_sm_spec ← from_specs_or_fail group_layer_specs;
    Ok (mkKVCacheGroupSpec group_layer_names (UniformSpec sub_sm_spec) false)) (range num_tuple_groups).

Definition _get_kv_cache_groups_uniform_groups (grouped_specs : list UniformTypeKVCacheSpecs) :
    res (list KVCacheGroupSpec) :=
  match grouped_specs with
  | [] => Raise AssertionError
  | full_mla_spec :: swa_mla_specs =>
      _ ← assert_r (forallb isa_MLAAttentionSpec (kv_cache_specs full_mla_spec).*2);
      let full_mla_group :=
        mkKVCacheGroupSpec (kv_cache_specs full_mla_spec).*1 (UniformSpec full_mla_spec) false in
      num_layer_tuples_per_group ← mapM get_num_layer_tuples grouped_specs;
      num_layer_tuples ← _approximate_gcd num_layer_tuples_per_group (head num_layer_tuples_per_group);
      _ ← assert_r (forallb (λ g, forallb isa_SlidingWindowMLASpec (kv_cache_specs g).*2) swa_mla_specs);
      all_page_sizes ← get_page_sizes full_mla_spec;
      swa_mla_groups ← mapM (split_swa_group all_page_sizes num_layer_tuples) swa_mla_specs;
      Ok (full_mla_group :: concat swa_mla_groups)
  end.

(** [getattr(spec, "model_version", None)]. *)
Definition spec_model_version (s : KVCacheSpec) : option string :=
  match s with
  | MLAAttentionSpec _ _ _ _ m | SlidingWindowMLASpec _ _ _ m => model_version m
  | _ => None
  end.
(** Flag the first group that holds the layer. *)
Fixpoint flag_group (last_layer : string) (groups : list KVCacheGroupSpec) : list KVCacheGroupSpec :=
  match groups with
  | [] => []
  | g :: gs => if decide (last_layer ∈ layer_names g)
               then mkKVCacheGroupSpec (layer_names g) (kv_cache_spec g) true :: gs
               else g :: flag_group last_layer gs
  end.
Definition _annotate_eagle_groups_deepseek_v4 (c : PlanConfig) (kv_cache_spec : list (string * KVCacheSpec))
    (groups : list KVCacheGroupSpec) : list KVCacheGroupSpec :=
  if negb (use_eagle c) then groups
  else if negb (existsb (λ s, bool_decide (spec_model_version s = Some "deepseek_v4"%string)) kv_cache_spec.*2)
  then groups
  else match last kv_cache_spec with
       | Some (last_layer, _) => flag_group last_layer groups
       | None => groups
       end.

Definition get_kv_cache_groups (c : PlanConfig) (kv_cache_spec : list (string * KVCacheSpec)) :
    res (list KVCacheGroupSpec) :=
  kv_cache_spec ← (if disable_hybrid_kv_cache_manager c then unify_hybrid_kv_cache_specs kv_cache_spec
                   else Ok kv_cache_spec);
  if is_kv_cache_type_attention_free kv_cache_spec then Ok []
  else
    uniform ← is_kv_cache_spec_uniform kv_cache_spec;
    if uniform : bool then _get_kv_cache_groups_uniform_spec kv_cache_spec
    else
      uniform_spec ← from_specs kv_cache_spec;
      match uniform_spec with
      | Some u => Ok (_get_kv_cache_groups_uniform_type u)
      | None =>
          grouped_specs ← group_and_unify_kv_cache_specs kv_cache_spec;
          match grouped_specs with
          | Some us =>
              groups ← _get_kv_cache_groups_uniform_groups us;
              Ok (_annotate_eagle_groups_deepseek_v4 c kv_cache_spec groups)
          | None =>
              kv_cache_spec ← unify_kv_cache_spec_page_size kv_cache_spec;
              _get_kv_cache_groups_uniform_page_size kv_cache_spec
          end
      end.

(* ===================================================================== *)
(** ** Memory and the length of the model                                 *)
(* ===================================================================== *)

(** The specs of the groups when all of them are [UniformTypeKVCacheSpecs]. *)
Definition uniform_specs (groups : list KVCacheGroupSpec) : option (list UniformTypeKVCacheSpecs) :=
  mapM (λ g, match kv_cache_spec g with UniformSpec u => Some u | LayerSpec _ => None end) groups.

(** The three layouts that the planner tells apart: one group of layers of one
    type; several such groups (DeepseekV4); layers with one page size. *)
Inductive Layout : Type :=
  | PerLayer (g : KVCacheGroupSpec) (u : UniformTypeKVCacheSpecs)
  | LayerTuples (u0 : UniformTypeKVCacheSpecs) (us : list UniformTypeKVCacheSpecs)
  | SharedPools.
Definition layout_of (groups : list KVCacheGroupSpec) : res Layout :=
  match groups with
  | [g] => match kv_cache_spec g with UniformSpec u => Ok (PerLayer g u) | LayerSpec _ => Ok SharedPools end
  | _ => match uniform_specs groups with
         | None => Ok SharedPools
         | Some [] => Raise IndexError
         | Some (u0 :: us) => Ok (LayerTuples u0 us)
         end
  end.
Definition max_group_len (groups : list KVCacheGroupSpec) : res Z :=
  py_max ((λ g, len (layer_names g)) <$> groups).

(** The bytes of one layer tuple and the number of tuples of the DeepseekV4 layout. *)
Definition tuple_layout (u0 : UniformTypeKVCacheSpecs) (us : list UniformTypeKVCacheSpecs) : res (Z * Z) :=
  page_sizes ← get_page_sizes u0;
  counts ← mapM get_num_layer_tuples (u0 :: us);
  num_layer_tuples ← py_max counts;
  Ok (py_sum page_sizes, num_layer_tuples).

Definition _pool_bytes_per_block (groups : list KVCacheGroupSpec) : res Z :=
  layout ← layout_of groups;
  match layout with
  | PerLayer _ u => group_page_size (UniformSpec u)
  | LayerTuples u0 us => bn ← tuple_layout u0 us; Ok (bn.1 * bn.2)
  | SharedPools =>
      group_size ← max_group_len groups;
      page_size ← get_uniform_page_size (kv_cache_spec <$> groups);
      Ok (page_size * group_size)
  end.

(** [max_memory_usage_bytes] of [kv_cache_utils]. *)
Definition total_max_memory (c : VllmConfig) (specs : list GroupSpec) : res Z :=
  usages ← mapM (group_max_memory c) specs; Ok (py_sum usages).

Definition _max_memory_usage_bytes_from_groups (c : VllmConfig) (groups : list KVCacheGroupSpec) : res Z :=
  match groups with
  | [] => Ok 0
  | _ =>
      layout ← layout_of groups;
      match layout with
      | PerLayer _ u =>
          usages ← mapM (λ ns, layer_max_memory ns.2 c) (kv_cache_specs u); Ok (py_sum usages)
      | LayerTuples u0 us =>
          bn ← tuple_layout u0 us;
          usages ← mapM (λ u, pages ← max_memory_usage_pages element_size int8kv_aligned_head_stride u c;
                              Ok (bn.2 * pages * bn.1)) (u0 :: us);
          Ok (py_sum usages)
      | SharedPools =>
          group_size ← max_group_len groups;
          page_size ← get_uniform_page_size (kv_cache_spec <$> groups);
          blocks ← mapM (λ g, m ← group_max_memory c (kv_cache_spec g); py_cdiv m page_size) groups;
          Ok (group_size * page_size * py_sum blocks)
      end
  end.

(** The loop [while left <= right] of the two estimates; [fits] computes the
    memory of a model length.  The interval halves, so [log2] rounds suffice. *)
Fixpoint search_loop (fits : Z → res bool) (fuel : nat) (left right result : Z) : res Z :=
  match fuel with
  | O => Raise OutOfFuel
  | S fuel' =>
      if left <=? right then
        let mid := (left + right) / 2 in
        ok ← fits mid;
        if ok : bool then search_loop fits fuel' (mid + 1) right mid
        else search_loop fits fuel' left (mid - 1) result
      else Ok result
  end.
Definition search_max_len (fits : Z → res bool) (original_max : Z) : res Z :=
  ok ← fits 1;
  if negb ok then Ok 0
  else search_loop fits (S (S (Z.to_nat (Z.log2 original_max)))) 1 original_max 1.

Definition estimate_max_model_len (c : VllmConfig) (specs : list (string * KVCacheSpec)) (available_memory : Z) :
    res Z :=
  search_max_len (λ model_len,
    needed ← total_max_memory (sizes_with_len c model_len) (LayerSpec <$> specs.*2);
    Ok (needed <=? available_memory)) (max_model_len c).

Definition _estimate_max_model_len_from_groups (c : VllmConfig) (groups : list KVCacheGroupSpec)
    (available_memory : Z) : res Z :=
  search_max_len (λ model_len,
    needed ← _max_memory_usage_bytes_from_groups (sizes_with_len c model_len) groups;
    Ok (needed <=? available_memory)) (max_model_len c).

Definition _check_enough_kv_cache_memory (available_memory : Z) (get_needed_memory : res Z)
    (estimate : Z → res Z) : res unit :=
  if available_memory <=? 0 then Raise ValueError
  else
    needed_memory ← get_needed_memory;
    if available_memory <? needed_memory then _ ← estimate available_memory; Raise ValueError else Ok tt.

Definition check_enough_kv_cache_memory (c : VllmConfig) (specs : list (string * KVCacheSpec))
    (available_memory : Z) : res unit :=
  match specs with
  | [] => Ok tt
  | _ => _check_enough_kv_cache_memory available_memory (total_max_memory c (LayerSpec <$> specs.*2))
           (estimate_max_model_len c specs)
  end.

(** The smallest of the lengths the workers can hold, from [auto_fit_max]. *)
Fixpoint fit_workers (c : VllmConfig) (auto_fit_max : Z) (workers : list (list KVCacheGroupSpec * Z)) : res Z :=
  match workers with
  | [] => Ok auto_fit_max
  | ([], _) :: ws => fit_workers c auto_fit_max ws
  | (groups, avail_mem) :: ws =>
      worker_max ← _estimate_max_model_len_from_groups c groups avail_mem;
      fit_workers c (if worker_max <? auto_fit_max then worker_max else auto_fit_max) ws
  end.
Definition no_groups {A} (l : list A) : bool := match l with [] => true | _ => false end.
(** [_auto_fit_max_model_len], as the config after the call. *)
Definition _auto_fit_max_model_len (c : PlanConfig) (projected_groups_per_worker : list (list KVCacheGroupSpec))
    (available_memory : list Z) : res PlanConfig :=
  if forallb no_groups projected_groups_per_worker then Ok c
  else
    _ ← some_or IndexError (head available_memory);
    auto_fit_max ← fit_workers (sizes_config c) (plan_max_model_len c)
                     (zip projected_groups_per_worker available_memory);
    if auto_fit_max <=? 0 then Raise ValueError
    else if plan_max_model_len c <=? auto_fit_max then Ok c
    else Ok (with_max_model_len c auto_fit_max).

(* ===================================================================== *)
(** ** Blocks and tensors of a worker                                     *)
(* ===================================================================== *)

Definition may_override_num_blocks (c : PlanConfig) (num_blocks : Z) : Z :=
  default num_blocks (num_gpu_blocks_override c).

Definition get_num_blocks (c : PlanConfig) (num_layers available_memory page_size : Z) : res Z :=
  pages ← py_div available_memory page_size;
  num_blocks ← py_div pages num_layers;
  Ok (may_override_num_blocks c (Z.max num_blocks 0)).

(** The layers of a group by page size: [bucketed] of [_get_kv_cache_config_deepseek_v4]. *)
Definition bucket_group (group : KVCacheGroupSpec) : res (list (Z * list string)) :=
  match kv_cache_spec group with
  | LayerSpec _ => Raise AssertionError
  | UniformSpec u =>
      sized ← mapM (λ name, s ← some_or KeyError (assoc_get name (kv_cache_specs u));
                            p ← layer_page_size s; Ok (p, name)) (layer_names group);
      Ok (collect sized)
  end.

(** The layers at position [i] of the bucket of [ps], one per group. *)
Definition tuple_slot (bucketed : list (list (Z * list string))) (i : nat) (ps : Z) : list string :=
  omap (λ b, assoc_get ps b ≫= λ bucket, bucket !! i) bucketed.

Definition _get_kv_cache_config_deepseek_v4 (c : PlanConfig) (groups : list KVCacheGroupSpec)
    (available_memory : Z) : res (Z * list KVCacheTensor) :=
  first ← some_or IndexError (head groups);
  match kv_cache_spec first with
  | LayerSpec _ => Raise AssertionError
  | UniformSpec full_mla_spec =>
      sizes ← get_page_sizes full_mla_spec;
      let page_sizes := merge_sort Z.le sizes in
      let layer_tuple_page_bytes := py_sum page_sizes in
      bucketed ← mapM bucket_group groups;
      num_layer_tuples ← py_max (len <$> (concat bucketed).*2);
      blocks ← py_div available_memory (layer_tuple_page_bytes * num_layer_tuples);
      let num_blocks := may_override_num_blocks c blocks in
      Ok (num_blocks,
          i ← range num_layer_tuples;
          ps ← page_sizes;
          [mkKVCacheTensor (ps * num_blocks) (tuple_slot bucketed i ps)])
  end.

(** The layers at position [i] of every group. *)
Definition pool_slot (groups : list KVCacheGroupSpec) (i : nat) : list string :=
  omap (λ g, layer_names g !! i) groups.

Definition get_kv_cache_config_from_groups (c : PlanConfig) (groups : list KVCacheGroupSpec)
    (available_memory : Z) : res KVCacheConfig :=
  match groups with
  | [] => Ok (mkKVCacheConfig 1 [] [])
  | _ =>
      layout ← layout_of groups;
      match layout with
      | PerLayer g u =>
          page_size ← group_page_size (UniformSpec u);
          blocks ← py_div available_memory page_size;
          let num_blocks := may_override_num_blocks c blocks in
          tensors ← mapM (λ n, s ← some_or KeyError (assoc_get n (kv_cache_specs u));
                               p ← layer_page_size s;
                               Ok (mkKVCacheTensor (p * num_blocks) [n])) (layer_names g);
          Ok (mkKVCacheConfig num_blocks tensors groups)
      | LayerTuples _ _ =>
          nt ← _get_kv_cache_config_deepseek_v4 c groups available_memory;
          Ok (mkKVCacheConfig nt.1 nt.2 groups)
      | SharedPools =>
          group_size ← max_group_len groups;
          page_size ← get_uniform_page_size (kv_cache_spec <$> groups);
          _ ← assert_r (0 <? group_size);
          num_blocks ← get_num_blocks c group_size available_memory page_size;
          Ok (mkKVCacheConfig num_blocks
                ((λ i, mkKVCacheTensor (page_size * num_blocks) (pool_slot groups i)) <$> range group_size)
                groups)
      end
  end.

(** [get_max_concurrency_for_kv_cache_config]: the numerator and denominator of
    the returned quotient. *)
Definition get_max_concurrency_for_kv_cache_config (c : VllmConfig) (kv_cache_config : KVCacheConfig) :
    res (Z * Z) :=
  let groups := kv_cache_groups kv_cache_config in
  num_layer_per_group ← max_group_len groups;
  usage ← total_max_memory c (kv_cache_spec <$> groups);
  first ← some_or IndexError (head groups);
  page_size ← group_page_size (kv_cache_spec first);
  num_block_per_request ← py_cdiv (num_layer_per_group * usage) (page_size * num_layer_per_group);
  if num_block_per_request =? 0 then Raise ZeroDivisionError
  else Ok (num_blocks kv_cache_config, num_block_per_request).

(* ===================================================================== *)
(** ** All workers                                                        *)
(* ===================================================================== *)

(** [_project_kv_cache_groups_to_worker]. *)
Definition project_group (worker_spec : list (string * KVCacheSpec)) (group : KVCacheGroupSpec) :
    res KVCacheGroupSpec :=
  let worker_layer_names := filter (λ n, n ∈ worker_spec.*1) (layer_names group) in
  group_spec ←
    match kv_cache_spec group with
    | UniformSpec u =>
        if no_groups worker_layer_names then Ok (kv_cache_spec group)
        else
          specs ← mapM (λ n, s ← some_or KeyError (assoc_get n (kv_cache_specs u)); Ok (n, s))
                    worker_layer_names;
          Ok (UniformSpec (mkUniform (u_block_size u) specs))
    | LayerSpec s => Ok (LayerSpec s)
    end;
  Ok (mkKVCacheGroupSpec worker_layer_names group_spec
        (is_eagle_group group && negb (no_groups worker_layer_names))).
Definition _project_kv_cache_groups_to_worker (global_kv_cache_groups : list KVCacheGroupSpec)
    (worker_spec : list (string * KVCacheSpec)) : res (list KVCacheGroupSpec) :=
  mapM (project_group worker_spec) global_kv_cache_groups.

(** The merged specs of all workers. *)
Fixpoint merge_layers (merged : list (string * KVCacheSpec)) (layers : list (string * KVCacheSpec)) :
    res (list (string * KVCacheSpec)) :=
  match layers with
  | [] => Ok merged
  | (n, s) :: ls =>
      match assoc_get n merged with
      | None => merge_layers (merged ++ [(n, s)]) ls
      | Some s' => if decide (s' = s) then merge_layers merged ls else Raise AssertionError
      end
  end.

(** [available_memory] under [num_gpu_blocks_override]: what the override takes. *)
Definition effective_memory (c : PlanConfig) (projected : list (list KVCacheGroupSpec))
    (available_memory : list Z) : res (list Z) :=
  match num_gpu_blocks_override c with
  | None => Ok available_memory
  | Some override =>
      mapM (λ w, if no_groups w.1 then Ok w.2
                 else
                   bytes_per_block ← _pool_bytes_per_block w.1;
                   _ ← py_div w.2 bytes_per_block;
                   Ok (override * bytes_per_block)) (zip projected available_memory)
  end.

(** [num_blocks] set to the smallest and the tensors shrunk with it; the report
    that follows only logs, but divides. *)
Definition shrink_tensor (num_blocks_old min_num_blocks : Z) (t : KVCacheTensor) : res KVCacheTensor :=
  rest ← py_mod (t_size t) num_blocks_old;
  _ ← assert_r (rest =? 0);
  Ok (mkKVCacheTensor (t_size t / num_blocks_old * min_num_blocks) (shared_by t)).
Definition shrink_config (c : PlanConfig) (min_num_blocks : Z) (cfg : KVCacheConfig) : res KVCacheConfig :=
  tensors ← mapM (shrink_tensor (num_blocks cfg) min_num_blocks) (kv_cache_tensors cfg);
  let cfg' := mkKVCacheConfig min_num_blocks tensors (kv_cache_groups cfg) in
  if no_groups (kv_cache_groups cfg) then Ok cfg'
  else _ ← get_max_concurrency_for_kv_cache_config (sizes_config c) cfg'; Ok cfg'.

(** The loops of [get_kv_cache_configs] over the workers. *)
Definition check_worker (c : PlanConfig) (w : list KVCacheGroupSpec * Z) : res unit :=
  if no_groups w.1 then Ok tt
  else _check_enough_kv_cache_memory w.2 (_max_memory_usage_bytes_from_groups (sizes_config c) w.1)
         (_estimate_max_model_len_from_groups (sizes_config c) w.1).
Definition configure_worker (c : PlanConfig)
    (w : list KVCacheGroupSpec * list (string * KVCacheSpec) * Z) : res KVCacheConfig :=
  let '(groups, worker_spec, memory) := w in
  _ ← assert_r (py_sum ((λ g, len (layer_names g)) <$> groups) =? len worker_spec);
  get_kv_cache_config_from_groups c groups memory.

(** The configs, and [vllm_config] with the length that was fitted. *)
Definition get_kv_cache_configs (c : PlanConfig) (specs : list (list (string * KVCacheSpec)))
    (available_memory : list Z) : res (list KVCacheConfig * PlanConfig) :=
  merged ← foldl (λ r layers, m ← r; merge_layers m layers) (Ok []) specs;
  global_kv_cache_groups ← get_kv_cache_groups c merged;
  projected ← mapM (_project_kv_cache_groups_to_worker global_kv_cache_groups) specs;
  available_memory ← effective_memory c projected available_memory;
  c ← (if original_max_model_len c =? -1 then _auto_fit_max_model_len c projected available_memory else Ok c);
  _ ← mapM (check_worker c) (zip projected available_memory);
  configs ← mapM (configure_worker c) (zip (zip projected specs) available_memory);
  min_num_blocks ← py_min (num_blocks <$> configs);
  shrunk ← mapM (shrink_config c min_num_blocks) configs;
  Ok (shrunk, c).

(** [generate_scheduler_kv_cache_config]. *)
Definition scheduler_group (g : KVCacheGroupSpec) : res KVCacheGroupSpec :=
  match kv_cache_spec g with
  | LayerSpec _ => Ok g
  | UniformSpec u =>
      s ← some_or StopIteration (head (kv_cache_specs u).*2);
      Ok (mkKVCacheGroupSpec (layer_names g) (LayerSpec s) (is_eagle_group g))
  end.
Definition generate_scheduler_kv_cache_config (configs : list KVCacheConfig) : res KVCacheConfig :=
  match configs with
  | [] => Raise IndexError
  | cfg0 :: _ =>
      _ ← assert_r (forallb (λ cfg, num_blocks cfg =? num_blocks cfg0) configs);
      groups ← mapM scheduler_group (kv_cache_groups cfg0);
      Ok (mkKVCacheConfig (num_blocks cfg0) (kv_cache_tensors cfg0) groups)
  end.
End plan.
