(* ===== verification/KVPlanInv.v ===== *)
(** * The KV-cache plan is sound ([src/vllm/v1/core/kv_cache_utils.py])

    Theorems on [KVPlan]: the binary search finds the longest model that fits,
    no layer is in two groups, all workers get the same number of blocks, and, each
    under the conditions its theorem states, no layer is left out, the tensors of
    a worker hold each of its layers once and stay within its memory, and one
    request of the maximal length fits. *)
From stdpp Require Import sorting.
From S2P Require Import Prelude MathUtils Outcome KVSpec KVPlan.
Local Open Scope Z_scope.

(* ===================================================================== *)
(** ** The search for the model length                                    *)
(* ===================================================================== *)

Section search.
Context (fits : Z → res bool) (F : Z → bool) (hi : Z).
Hypothesis (fits_F : ∀ n, 1 ≤ n ≤ Z.max 1 hi → fits n = Ok (F n)).
Hypothesis (F_mono : ∀ a b, 1 ≤ a ≤ b → F b = true → F a = true).

Lemma search_loop_S fuel left right result :
  search_loop fits (S fuel) left right result =
  if left <=? right then
    ok ← fits ((left + right) / 2);
    if ok : bool then search_loop fits fuel ((left + right) / 2 + 1) right ((left + right) / 2)
    else search_loop fits fuel left ((left + right) / 2 - 1) result
  else Ok result.
Proof. done. Qed.

Lemma search_loop_spec fuel left right result :
  1 ≤ left → right ≤ hi → right - left + 1 < 2 ^ Z.of_nat fuel →
  1 ≤ result ≤ Z.max 1 hi → left ≤ result + 1 → F result = true → (∀ n, right < n ≤ hi → F n = false) →
  ∃ m, search_loop fits (S fuel) left right result = Ok m ∧ 1 ≤ m ≤ Z.max 1 hi ∧ F m = true ∧
    ∀ n, 1 ≤ n ≤ hi → F n = true → n ≤ m.
Proof.
  revert left right result. induction fuel as [|fuel IH]; intros left right result Hl Hr Hsz Hr1 Hlr HF Hhi.
  all: rewrite search_loop_S; destruct (Z.leb_spec left right) as [Hle|Hgt].
  1: exfalso; change (2 ^ Z.of_nat 0) with 1 in Hsz; lia.
  1, 3: exists result; repeat split; [lia..|done|]; intros n Hn HFn; destruct (Z.le_gt_cases n right);
    [lia|]; rewrite Hhi in HFn by lia; discriminate.
  rewrite Nat2Z.inj_succ, Z.pow_succ_r in Hsz by lia.
  assert (Hm : left ≤ (left + right) / 2 ≤ right) by (split; [apply Z.div_le_lower_bound|apply Z.div_le_upper_bound]; lia).
  pose proof (Z.mul_div_le (left + right) 2 ltac:(lia)). pose proof (Z.mul_succ_div_gt (left + right) 2 ltac:(lia)).
  rewrite fits_F by lia. cbn [mbind res_bind]. destruct (F ((left + right) / 2)) eqn:HFm.
  - apply IH; [lia..|done|done].
  - apply IH; [lia..|done|]. intros n Hn. destruct (F n) eqn:HFn; [|done].
    destruct (Z.le_gt_cases n right); [|by rewrite Hhi in HFn by lia].
    rewrite (F_mono ((left + right) / 2) n) in HFm by (lia || done). discriminate.
Qed.

Lemma search_max_len_spec :
  1 ≤ hi →
  ∃ m, search_max_len fits hi = Ok m ∧ 0 ≤ m ≤ hi ∧ (0 < m → F m = true) ∧
    ∀ n, 1 ≤ n ≤ hi → F n = true → n ≤ m.
Proof.
  intros Hhi. unfold search_max_len. rewrite fits_F by lia. cbn [mbind res_bind].
  destruct (F 1) eqn:H1; simpl negb; cbv iota.
  - destruct (search_loop_spec (S (Z.to_nat (Z.log2 hi))) 1 hi 1) as (m & -> & Hm & HF & Hmax);
      [lia|lia| |lia|lia|done|lia|].
    + pose proof (Z.log2_spec hi ltac:(lia)). pose proof (Z.log2_nonneg hi). replace (Z.of_nat (S _)) with (Z.succ (Z.log2 hi)) by lia. lia.
    + exists m. repeat split; [lia..|done|done].
  - exists 0. repeat split; [lia..|]. intros n Hn HF. rewrite (F_mono 1 n) in H1 by (lia || done). discriminate.
Qed.
End search.

(* ===================================================================== *)
(** ** Memory grows with the model length                                 *)
(* ===================================================================== *)

Section memory.
Context (element_size : string → Z) (aligned : bool).
Abbreviation page_size := (page_size_bytes element_size aligned).

(** A layer with a positive block size and no negative page size. *)
Definition spec_ok (s : KVCacheSpec) : Prop := 0 < block_size s ∧ ∀ p, page_size s = Ok p → 0 ≤ p.
Definition group_ok (g : KVCacheGroupSpec) : Prop :=
  match kv_cache_spec g with
  | LayerSpec s => spec_ok s
  | UniformSpec u => Forall (λ ns, spec_ok ns.2) (kv_cache_specs u)
  end.

Lemma max_pages_mono s c n n' :
  0 < block_size s → n ≤ n' →
  res_rel (option_relation Z.le (λ _, False) (λ _, False))
    (max_pages s (sizes_with_len c n)) (max_pages s (sizes_with_len c n')).
Proof.
  intros Hb Hn.
  assert (Hworld : ∀ w, (if 1 <? w then cdiv n w else n) ≤ (if 1 <? w then cdiv n' w else n')).
  { intros w. destruct (Z.ltb_spec 1 w); [apply cdiv_mono; lia|done]. }
  destruct s; cbn in Hb |- *; unfold swa_max_admission_blocks, chunked_max_admission_blocks;
    try (apply cdiv_mono; by auto); repeat case_match; cbn; try done; try (apply cdiv_mono; lia).
  all: apply Z.add_le_mono_r, cdiv_mono; lia.
Qed.

Lemma layer_max_memory_mono s c n n' :
  spec_ok s → n ≤ n' →
  res_rel Z.le (max_memory_usage_bytes element_size aligned s (sizes_with_len c n))
    (max_memory_usage_bytes element_size aligned s (sizes_with_len c n')).
Proof.
  intros [Hb Hp] Hn. pose proof (max_pages_mono s c n n' Hb Hn) as H. unfold max_memory_usage_bytes.
  destruct (max_pages s (sizes_with_len c n)) as [[a|]|], (max_pages s (sizes_with_len c n')) as [[b|]|];
    cbn in H; try done.
  destruct (page_size s) as [p|] eqn:E; cbn; [|done]. specialize (Hp p eq_refl). nia.
Qed.

Lemma map_specs_mapM {A} (f : KVCacheSpec → res A) l : map_specs f l = mapM (λ ns, f ns.2) l.
Proof. induction l as [|[n s] l IH]; simpl; [done|]. rewrite IH. by destruct (f s), (mapM _ l). Qed.

Lemma max_pages_of_uniform_mono u c n n' :
  Forall (λ ns, spec_ok ns.2) (kv_cache_specs u) → n ≤ n' →
  res_rel Z.le (max_memory_usage_pages element_size aligned u (sizes_with_len c n))
    (max_memory_usage_pages element_size aligned u (sizes_with_len c n')).
Proof.
  intros Hu Hn. unfold max_memory_usage_pages. rewrite !map_specs_mapM.
  match goal with |- res_rel _ (match mapM ?f _ with _ => _ end) (match mapM ?g _ with _ => _ end) =>
    assert (H : res_rel (Forall2 Z.le) (mapM f (kv_cache_specs u)) (mapM g (kv_cache_specs u))) end.
  { apply res_rel_mapM. intros [name s] Hs. cbn. rewrite Forall_forall in Hu. specialize (Hu _ Hs). cbn in Hu.
    pose proof (layer_max_memory_mono s c n n' Hu Hn) as Hm. destruct Hu as [_ Hp].
    destruct (max_memory_usage_bytes _ _ s _), (max_memory_usage_bytes _ _ s _); cbn in Hm; try done.
    destruct (page_size s) as [p|]; cbn; [|done]. specialize (Hp p eq_refl). by apply py_cdiv_mono. }
  revert H. destruct (mapM _ _) as [l|], (mapM _ _) as [l'|]; cbn; try done.
  destruct 1; cbn; [done|]. by apply foldl_max_mono.
Qed.

Lemma sizes_nonneg (specs : list (string * KVCacheSpec)) ps :
  Forall (λ ns, spec_ok ns.2) specs → mapM (λ ns, page_size ns.2) specs = Ok ps → Forall (Z.le 0) ps.
Proof.
  intros Hs E%mapM_Ok. apply Forall_forall. intros p (i & Hi)%list_elem_of_lookup.
  destruct (Forall2_lookup_r _ _ _ _ _ E Hi) as (ns & Hns & Hp).
  rewrite Forall_forall in Hs. by eapply Hs; [eapply list_elem_of_lookup_2|].
Qed.

Lemma group_max_memory_mono g c n n' :
  group_ok g → n ≤ n' →
  res_rel Z.le (group_max_memory element_size aligned (sizes_with_len c n) (kv_cache_spec g))
    (group_max_memory element_size aligned (sizes_with_len c n') (kv_cache_spec g)).
Proof.
  unfold group_ok, group_max_memory. destruct (kv_cache_spec g) as [s|u]; intros Hg Hn.
  { by apply layer_max_memory_mono. }
  unfold uniform_max_memory_usage_bytes, uniform_page_size_bytes. rewrite map_specs_mapM.
  pose proof (max_pages_of_uniform_mono u c n n' Hg Hn) as H. revert H.
  destruct (max_memory_usage_pages _ _ _ _) as [a|], (max_memory_usage_pages _ _ _ _) as [b|]; cbn; try done.
  intros Hab. destruct (mapM _ _) as [ps|] eqn:E; cbn; [|done].
  pose proof (py_sum_nonneg _ (sizes_nonneg _ _ Hg E)). unfold py_sum in *. nia.
Qed.

Lemma get_num_layer_tuples_nonneg u n : get_num_layer_tuples element_size aligned u = Ok n → 0 ≤ n.
Proof.
  unfold get_num_layer_tuples. intros H. ok_steps. case_match; simplify_eq.
  transitivity (occurrences x z); [apply len_nonneg|].
  by destruct (foldl_max_spec (occurrences x <$> l) (occurrences x z)).
Qed.
Lemma tuple_layout_nonneg u0 us bn :
  Forall (λ ns, spec_ok ns.2) (kv_cache_specs u0) → tuple_layout element_size aligned u0 us = Ok bn →
  0 ≤ bn.1 ∧ 0 ≤ bn.2.
Proof.
  intros Hu H. unfold tuple_layout, get_page_sizes, uniform_layer_sizes in H.
  apply bind_Ok in H as (ps & Hps & H). apply bind_Ok in Hps as (sz & Hsz & [= <-]).
  apply bind_Ok in H as (ns & Hns & H). apply bind_Ok in H as (m & Hm & [= <-]). cbn. split.
  - apply py_sum_nonneg. pose proof (sizes_nonneg _ _ Hu Hsz) as Hz. rewrite Forall_forall in Hz |- *.
    intros p Hp. apply Hz. by apply elem_of_remove_dups.
  - apply py_max_Ok in Hm as [(i & Hi)%list_elem_of_lookup _]. apply mapM_Ok in Hns.
    destruct (Forall2_lookup_r _ _ _ _ _ Hns Hi) as (u & _ & Hn). by apply get_num_layer_tuples_nonneg in Hn.
Qed.

Lemma group_page_size_nonneg g p :
  group_ok g → group_page_size element_size aligned (kv_cache_spec g) = Ok p → 0 ≤ p.
Proof.
  unfold group_ok, group_page_size. destruct (kv_cache_spec g) as [s|u]; intros Hg H; [by apply Hg|].
  unfold uniform_page_size_bytes in H. rewrite map_specs_mapM in H. destruct (mapM _ _) as [ps|] eqn:E; [|done].
  injection H as <-. by apply py_sum_nonneg, (sizes_nonneg (kv_cache_specs u)).
Qed.
Lemma uniform_page_size_spec groups p :
  get_uniform_page_size element_size aligned (kv_cache_spec <$> groups) = Ok p →
  groups ≠ [] ∧ ∀ g, g ∈ groups → group_page_size element_size aligned (kv_cache_spec g) = Ok p.
Proof.
  unfold get_uniform_page_size. intros H. ok_steps. case_match eqn:E; [done|]. case_match; [|done]. injection H0 as ->.
  assert (Hx : ∀ y, y ∈ x ↔ y = p) by (intros y; rewrite <-elem_of_remove_dups, E; set_solver).
  split.
  - intros ->. apply Forall2_nil_inv_l in H as ->. by destruct (not_elem_of_nil p); apply Hx.
  - intros g (i & Hi)%list_elem_of_lookup.
    destruct (Forall2_lookup_l _ _ _ i (kv_cache_spec g) H) as (y & Hy & ->); [by rewrite list_lookup_fmap, Hi|].
    f_equal. apply Hx. by eapply list_elem_of_lookup_2.
Qed.
Lemma uniform_page_size_nonneg groups p :
  Forall group_ok groups → get_uniform_page_size element_size aligned (kv_cache_spec <$> groups) = Ok p → 0 ≤ p.
Proof.
  intros Hg [Hne Hp]%uniform_page_size_spec. destruct groups as [|g gs]; [done|].
  apply Forall_cons in Hg as [Hg _]. by apply (group_page_size_nonneg g); [|apply Hp; left].
Qed.
Lemma max_group_len_nonneg groups n : max_group_len groups = Ok n → 0 ≤ n.
Proof. intros [(g & -> & _)%list_elem_of_fmap _]%py_max_Ok. apply len_nonneg. Qed.

Lemma memory_from_groups_mono groups c n n' :
  Forall group_ok groups → n ≤ n' →
  res_rel Z.le (_max_memory_usage_bytes_from_groups element_size aligned (sizes_with_len c n) groups)
    (_max_memory_usage_bytes_from_groups element_size aligned (sizes_with_len c n') groups).
Proof.
  intros Hg Hn. unfold _max_memory_usage_bytes_from_groups. destruct groups as [|g0 gs]; [by cbn|].
  eapply res_rel_bind; [apply (res_rel_self (λ l, layout_of (g0 :: gs) = Ok l)); by intros|].
  intros layout ? [<- Hl]. destruct layout as [g u|u0 us|].
  - assert (Hu : Forall (λ ns, spec_ok ns.2) (kv_cache_specs u)).
    { unfold layout_of in Hl. apply Forall_cons in Hg as [Hg _]. unfold group_ok in Hg.
      destruct gs; repeat case_match; by simplify_eq. }
    eapply res_rel_bind; [|intros l l'; apply py_sum_mono]. apply res_rel_mapM. intros ns Hns.
    rewrite Forall_forall in Hu. by apply layer_max_memory_mono; [apply Hu|].
  - assert (Hu : Forall (λ u, Forall (λ ns, spec_ok ns.2) (kv_cache_specs u)) (u0 :: us)).
    { assert (Hus : uniform_specs (g0 :: gs) = Some (u0 :: us)).
      { unfold layout_of in Hl. destruct gs; repeat case_match; simplify_eq; done. }
      apply mapM_Some in Hus. clear Hl. induction Hus as [|g u gs' us' Hgu _ IH]; [constructor|].
      apply Forall_cons in Hg as [Hg Hgs]. constructor; [|by apply IH]. unfold group_ok in Hg.
      by destruct (kv_cache_spec g); simplify_eq. }
    eapply res_rel_bind; [apply (res_rel_self (λ bn, 0 ≤ bn.1 ∧ 0 ≤ bn.2))|].
    { intros bn. apply tuple_layout_nonneg. by apply Forall_cons in Hu as [? _]. }
    intros bn ? [<- [H1 H2]]. eapply res_rel_bind; [|intros l l'; apply py_sum_mono]. apply res_rel_mapM.
    intros u Hin. rewrite Forall_forall in Hu.
    eapply res_rel_bind; [by apply max_pages_of_uniform_mono; [apply Hu|]|]. intros a b Hab. cbn.
    by apply Z.mul_le_mono_nonneg_r, Z.mul_le_mono_nonneg_l.
  - eapply res_rel_bind; [apply (res_rel_self (Z.le 0)), max_group_len_nonneg|]. intros sz ? [<- Hsz].
    eapply res_rel_bind; [apply (res_rel_self (Z.le 0)); intros p; by apply uniform_page_size_nonneg|]. intros p ? [<- Hp].
    eapply res_rel_bind.
    + apply res_rel_mapM. intros g Hin. rewrite Forall_forall in Hg.
      eapply res_rel_bind; [by apply group_max_memory_mono; [apply Hg|]|]. intros a b Hab. by apply py_cdiv_mono.
    + intros l l' Hl'%py_sum_mono. cbn. apply Z.mul_le_mono_nonneg_l; [by apply Z.mul_nonneg_nonneg|done].
Qed.

(** A model of length [n] needs at most [available] bytes on a worker. *)
Definition fits_len (c : VllmConfig) (groups : list KVCacheGroupSpec) (available n : Z) : Prop :=
  ∃ m, _max_memory_usage_bytes_from_groups element_size aligned (sizes_with_len c n) groups = Ok m ∧ m ≤ available.

Lemma memory_total groups c n n' m :
  Forall group_ok groups →
  _max_memory_usage_bytes_from_groups element_size aligned (sizes_with_len c n) groups = Ok m →
  ∃ m', _max_memory_usage_bytes_from_groups element_size aligned (sizes_with_len c n') groups = Ok m'.
Proof.
  intros Hg Hm. destruct (Z.le_ge_cases n n') as [Hn|Hn].
  - pose proof (memory_from_groups_mono groups c n n' Hg Hn) as H. rewrite Hm in H. clear Hm.
    destruct (_max_memory_usage_bytes_from_groups _ _ _ _); [by eexists|done].
  - pose proof (memory_from_groups_mono groups c n' n Hg Hn) as H.
    destruct (res_rel_Ok _ _ _ _ H Hm) as (m' & -> & _). by eexists.
Qed.

Lemma fits_len_mono groups c available n n' :
  Forall group_ok groups → n ≤ n' → fits_len c groups available n' → fits_len c groups available n.
Proof.
  intros Hg Hn (m & Hm & Hle). pose proof (memory_from_groups_mono groups c n n' Hg Hn) as H.
  destruct (res_rel_Ok _ _ _ _ H Hm) as (m' & Hm' & Hle'). exists m'. split; [done|lia].
Qed.

Lemma estimate_spec c groups available m :
  Forall group_ok groups → 1 ≤ max_model_len c →
  _max_memory_usage_bytes_from_groups element_size aligned c groups = Ok m →
  ∃ r, _estimate_max_model_len_from_groups element_size aligned c groups available = Ok r ∧
    0 ≤ r ≤ max_model_len c ∧ (0 < r → fits_len c groups available r) ∧
    ∀ n, 1 ≤ n ≤ max_model_len c → fits_len c groups available n → n ≤ r.
Proof.
  intros Hg Hmax Hm.
  assert (Hc : sizes_with_len c (max_model_len c) = c) by (by destruct c). rewrite <-Hc in Hm.
  pose (F n := match _max_memory_usage_bytes_from_groups element_size aligned (sizes_with_len c n) groups with
               | Ok k => k <=? available | Raise _ => false end).
  assert (HF : ∀ n, F n = true ↔ fits_len c groups available n).
  { intros n. unfold F, fits_len. case_match; [|split; [done|intros (? & ? & _); congruence]].
    rewrite Z.leb_le. split; [by eexists|by intros (? & [= <-] & ?)]. }
  unfold _estimate_max_model_len_from_groups.
  match goal with |- context [search_max_len ?f _] =>
    destruct (search_max_len_spec f F (max_model_len c)) as (r & -> & Hr & Hfit & Hbest); [| |done|] end.
  - intros n _. unfold F. destruct (memory_total groups c _ n m Hg Hm) as (k & ->). done.
  - intros a b Hab. rewrite !HF. apply fits_len_mono; [done|lia].
  - exists r. repeat split; [lia..| |]; intros; [by apply HF, Hfit|by apply Hbest, HF].
Qed.

(** A worker whose groups are well formed and whose memory can be computed. *)
Definition worker_ok (c : VllmConfig) (groups : list KVCacheGroupSpec) : Prop :=
  Forall group_ok groups ∧ ∃ m, _max_memory_usage_bytes_from_groups element_size aligned c groups = Ok m.
(** A model of length [n] fits on every worker that has groups. *)
Definition fits_all (c : VllmConfig) (workers : list (list KVCacheGroupSpec * Z)) (n : Z) : Prop :=
  ∀ groups available, (groups, available) ∈ workers → groups ≠ [] → fits_len c groups available n.

Lemma fit_workers_spec c workers lim :
  1 ≤ max_model_len c → 0 ≤ lim ≤ max_model_len c → Forall (λ w, worker_ok c w.1) workers →
  ∃ r, fit_workers element_size aligned c lim workers = Ok r ∧ 0 ≤ r ≤ lim ∧
    (0 < r → fits_all c workers r) ∧ ∀ n, 1 ≤ n ≤ lim → fits_all c workers n → n ≤ r.
Proof.
  intros Hmax Hlim Hw. revert lim Hlim. induction Hw as [|[groups available] ws [Hg (m & Hm)] Hws IH]; intros lim Hlim.
  { exists lim. cbn. repeat split; [lia..| |lia]. by intros _ g a ?%not_elem_of_nil. }
  cbn in Hg, Hm. destruct groups as [|g gs].
  { destruct (IH lim Hlim) as (r & Hr & Hr1 & Hfit & Hbest). exists r. repeat split; [done|lia..| |].
    - intros Hr0 g a [[= -> ->]|Hin]%elem_of_cons; [done|by apply Hfit].
    - intros n Hn Ha. apply Hbest; [done|]. intros g a Hin. apply Ha. by right. }
  destruct (estimate_spec c _ available m Hg Hmax Hm) as (e & He & He1 & Hefit & Hebest).
  cbn [fit_workers]. rewrite He. cbn [mbind res_bind].
  assert (Hlt : (if e <? lim then e else lim) = Z.min e lim) by (destruct (Z.ltb_spec e lim); lia). rewrite Hlt.
  destruct (IH (Z.min e lim) ltac:(lia)) as (r & Hr & Hr1 & Hfit & Hbest). exists r. repeat split; [done|lia..| |].
  - intros Hr0 g' a [[= -> ->]|Hin]%elem_of_cons Hne; [|by apply Hfit].
    apply fits_len_mono with e; [done|lia|apply Hefit; lia].
  - intros n Hn Ha. apply Hbest; [|intros g' a Hin; apply Ha; by right].
    assert (n ≤ e) by (apply Hebest; [lia|by apply Ha; [left|]]). lia.
Qed.
End memory.

(** C9.  Auto-fitting [max_model_len] gives the longest model that fits on all
    workers: the config is returned with a length between 1 and the derived one
    for which every worker that has groups has the memory of one request, and no
    greater length fits on all of them; [ValueError] is raised exactly when not
    even one token fits.  The binary search of every worker ends. *)
Theorem auto_fit_finds_the_longest_model element_size aligned c projected memory :
  1 ≤ plan_max_model_len c → length memory = length projected →
  Forall (worker_ok element_size aligned (sizes_config c)) projected →
  let fits n := fits_all element_size aligned (sizes_config c) (zip projected memory) n in
  let result := _auto_fit_max_model_len element_size aligned c projected memory in
  (∃ n, 1 ≤ n ≤ plan_max_model_len c ∧ fits n ∧ result = Ok (with_max_model_len c n) ∧
     ∀ n', n < n' ≤ plan_max_model_len c → ¬ fits n') ∨
  ((∀ n, 1 ≤ n ≤ plan_max_model_len c → ¬ fits n) ∧ result = Raise ValueError).
Proof.
  intros Hmax Hlen Hw fits result. subst result. unfold _auto_fit_max_model_len.
  assert (Hid : with_max_model_len c (plan_max_model_len c) = c) by (by destruct c as [[] ]).
  destruct (forallb no_groups projected) eqn:Hall.
  { left. exists (plan_max_model_len c). rewrite Hid. repeat split; [lia..| |lia].
    intros g a Hin Hne. apply elem_of_zip_l in Hin. apply (forallb_In _ _ _ Hall) in Hin. by destruct g. }
  destruct memory as [|m0 ms]; [destruct projected; [|]; done|]. cbn [head some_or mbind res_bind].
  destruct (fit_workers_spec element_size aligned (sizes_config c) (zip projected (m0 :: ms)) (plan_max_model_len c))
    as (r & -> & Hr & Hfit & Hbest); [done|unfold plan_max_model_len in *; lia| |].
  { apply Forall_forall. intros [g a] Hin%elem_of_zip_l. rewrite Forall_forall in Hw. by apply Hw. }
  cbn [mbind res_bind]. destruct (Z.leb_spec r 0) as [H0|H0].
  { right. split; [|done]. intros n Hn Ha. pose proof (Hbest n Hn Ha). lia. }
  left. exists r. split; [lia|]. split; [by apply Hfit|]. split.
  - destruct (Z.leb_spec (plan_max_model_len c) r) as [Hge|Hlt]; [|done].
    by replace r with (plan_max_model_len c) by lia; rewrite Hid.
  - intros n Hn Ha. pose proof (Hbest n ltac:(lia) Ha). lia.
Qed.

(* ===================================================================== *)
(** ** Splitting lists                                                    *)
(* ===================================================================== *)

Lemma stride_partition {A} (n : nat) (l : list A) :
  (0 < n)%nat → concat ((λ i, stride n i l) <$> seq 0 n) ≡ₚ l.
Proof.
  intros Hn. induction l as [|x l IH].
  { clear Hn. induction (seq 0 n); [done|]. cbn. by rewrite IHl. }
  destruct n as [|n]; [lia|]. cbn [seq fmap list_fmap concat stride app].
  replace (S n - 1)%nat with n by lia. apply perm_skip. rewrite <-IH at 2.
  rewrite seq_S, fmap_app, concat_app, <-fmap_S_seq, <-list_fmap_compose. cbn. rewrite app_nil_r.
  by rewrite Permutation_app_comm.
Qed.
Lemma length_stride {A} (n i : nat) (l : list A) :
  (i < n)%nat → length (stride n i l) = ((length l + n - 1 - i) / n)%nat.
Proof.
  revert i. induction l as [|x l IH]; intros i Hi; cbn [stride length].
  { symmetry. apply Nat.div_small. lia. }
  destruct i as [|i]; cbn [length]; rewrite IH by lia.
  - replace (S (length l) + n - 1 - 0)%nat with (length l + 1 * n)%nat by lia.
    rewrite Nat.div_add by lia. replace (length l + n - 1 - (n - 1))%nat with (length l) by lia. lia.
  - f_equal. lia.
Qed.
Lemma elem_of_stride {A} n i (l : list A) x : x ∈ stride n i l → x ∈ l.
Proof.
  revert i. induction l as [|y l IH]; intros i; cbn; [done|].
  destruct i; [rewrite !elem_of_cons|]; intros; [|right]; naive_solver.
Qed.

(** Splitting in groups of at most [gs]: nothing is lost or repeated, and no
    group is empty. *)
Lemma split_layers_spec {A} gs (l : list A) :
  0 < gs → l ≠ [] →
  concat (split_layers gs l) ≡ₚ l ∧ ∀ g, g ∈ split_layers gs l → 1 ≤ len g ≤ gs ∧ ∀ x, x ∈ g → x ∈ l.
Proof.
  intros Hgs Hl. unfold split_layers, range. set (n := cdiv (len l) gs).
  assert (0 < len l) by (destruct l; [done|rewrite len_cons; pose proof (len_nonneg l); lia]).
  pose proof (cdiv_bounds (len l) gs Hgs) as Hb. fold n in Hb.
  assert (Hn : 0 < n ≤ len l) by (split; [apply cdiv_gt; lia|apply cdiv_le; nia]).
  split; [apply stride_partition; lia|].
  intros g (i & -> & Hi%elem_of_seq)%list_elem_of_fmap. split; [|by apply elem_of_stride].
  unfold len in *. rewrite length_stride by lia. rewrite Nat2Z.inj_div. split.
  - apply Z.div_le_lower_bound; lia.
  - apply Z.lt_succ_r, Z.div_lt_upper_bound; [lia|]. nia.
Qed.

Section collect.
Context {K A : Type} `{EqDecision K}.
Implicit Types (l : list (K * A)) (d : list (K * list A)).

Lemma collect_snoc l k x : collect (l ++ [(k, x)]) = dict_append k x (collect l).
Proof. unfold collect. by rewrite foldl_app. Qed.
Lemma dict_append_keys k x d : ∀ k', k' ∈ (dict_append k x d).*1 ↔ k' = k ∨ k' ∈ d.*1.
Proof.
  intros k'. induction d as [|[k0 l] d IH]; cbn; [set_solver|].
  case_decide; subst; cbn; rewrite !elem_of_cons, ?IH; naive_solver.
Qed.
Lemma dict_append_nodup k x d : NoDup d.*1 → NoDup (dict_append k x d).*1.
Proof.
  induction d as [|[k0 l] d IH]; cbn; [intros; apply NoDup_singleton|].
  intros [H0 Hd]%NoDup_cons. case_decide; subst; cbn; constructor; auto.
  rewrite dict_append_keys. naive_solver.
Qed.
Lemma dict_append_elem k x d k' xs :
  NoDup d.*1 →
  (k', xs) ∈ dict_append k x d ↔
  (k' = k ∧ ((∃ ys, (k, ys) ∈ d ∧ xs = ys ++ [x]) ∨ (k ∉ d.*1 ∧ xs = [x]))) ∨ (k' ≠ k ∧ (k', xs) ∈ d).
Proof.
  induction d as [|[k0 l] d IH]; cbn.
  { intros _. rewrite list_elem_of_singleton. split; [intros [= -> ->]; left; split; [done|right]; split; [apply not_elem_of_nil|done]|].
    intros [[-> [(? & []%not_elem_of_nil & _)|[_ ->]]]|[_ []%not_elem_of_nil]]. done. }
  intros [H0 Hd]%NoDup_cons. assert (Hk : ∀ ys, (k0, ys) ∈ d → False).
  { intros ys Hy. apply H0. apply list_elem_of_fmap. by exists (k0, ys). }
  specialize (IH Hd). case_decide as Hkk.
  - subst k0. rewrite elem_of_cons. split.
    + intros [[= -> ->]|Hin]; [left; split; [done|left]; exists l; split; [left|done]|].
      right. split; [|by right]. intros ->. by eapply Hk.
    + intros [[-> [(ys & [[= ->]|Hin]%elem_of_cons & ->)|[Hn _]]]|[Hne [[= -> _]|Hin]%elem_of_cons]].
      * by left.
      * by apply Hk in Hin.
      * destruct Hn. by left.
      * done.
      * by right.
  - rewrite elem_of_cons, IH, not_elem_of_cons. split.
    + intros [[= -> ->]|[[-> [(ys & Hin & ->)|[Hn ->]]]|[Hne Hin]]].
      * right. split; [done|left].
      * left. split; [done|]. left. exists ys. split; [by right|done].
      * left. auto.
      * right. split; [done|by right].
    + intros [[-> [(ys & [[= ? ->]|Hin]%elem_of_cons & ->)|[[_ Hn] ->]]]|[Hne [[= -> ->]|Hin]%elem_of_cons]].
      * done.
      * right. left. split; [done|left]. by exists ys.
      * right. left. auto.
      * by left.
      * right. right. auto.
Qed.

(** Every key has its values, in order; every value is under one key. *)
Lemma collect_spec l :
  NoDup (collect l).*1 ∧
  ∀ k xs, (k, xs) ∈ collect l ↔ xs ≠ [] ∧ xs = (filter (λ kx, kx.1 = k) l).*2.
Proof.
  induction l as [|[k0 x] l [IHn IH]] using rev_ind.
  { split; [constructor|]. intros k xs. cbn. split; [intros ?%not_elem_of_nil; done|by intros [? ->]]. }
  rewrite collect_snoc. split; [by apply dict_append_nodup|]. intros k xs.
  rewrite dict_append_elem by done. rewrite filter_app, fmap_app, filter_cons, filter_nil. cbn.
  assert (Hno : k0 ∉ (collect l).*1 ↔ (filter (λ kx, kx.1 = k0) l).*2 = []).
  { split.
    - intros Hk. destruct ((filter (λ kx, kx.1 = k0) l).*2) as [|y ys] eqn:E; [done|]. destruct Hk.
      apply list_elem_of_fmap. exists (k0, y :: ys). split; [done|]. apply IH. by rewrite E.
    - intros E ([k' ys] & -> & [Hne ->]%IH)%list_elem_of_fmap. done. }
  case_decide as Hk; cbn.
  - subst k0. split.
    + intros [[_ [(ys & [Hne ->]%IH & ->)|[->%Hno ->]]]|[? _]]; [|done..]. split; [by destruct (_.*2)|done].
    + intros [_ ->]. left. split; [done|]. destruct ((filter (λ kx, kx.1 = k) l).*2) as [|y ys] eqn:E; [right|left].
      * split; [by apply Hno|done].
      * exists (y :: ys). split; [apply IH; by rewrite E|done].
  - rewrite app_nil_r, IH. naive_solver.
Qed.
Lemma collect_perm l : concat (collect l).*2 ≡ₚ l.*2.
Proof.
  induction l as [|[k x] l IH] using rev_ind; [done|]. rewrite collect_snoc, fmap_app, <-IH. cbn. clear IH.
  induction (collect l) as [|[k' xs] d IHd]; cbn; [done|]. case_decide; cbn; [|by rewrite IHd, app_assoc].
  rewrite <-!app_assoc. f_equiv. apply Permutation_app_comm.
Qed.
End collect.

(** Reading the lists of [ls] by rows loses nothing. *)
Lemma zip_rows_perm {A} n (ls : list (list A)) :
  Forall (λ l, length l = n) ls → ls ≠ [] → concat (zip_rows n ls) ≡ₚ concat ls.
Proof.
  revert ls. induction n as [|n IH]; intros ls Hls Hne; cbn.
  { clear Hne. induction Hls as [|l ls Hl _ IHl]; [done|]. destruct l; [by rewrite <-IHl|done]. }
  assert (∃ row, mapM head ls = Some row ∧ concat ls ≡ₚ row ++ concat (tail <$> ls) ∧
                 Forall (λ l, length l = n) (tail <$> ls)) as (row & -> & Hp & Ht).
  { clear Hne. induction Hls as [|l ls Hl _ (row & Hrow & Hp & Ht)]; [by exists []|].
    destruct l as [|x l]; [done|]. exists (x :: row). cbn. rewrite Hrow. split; [done|]. split.
    - rewrite Hp. apply perm_skip. rewrite !app_assoc. f_equiv. apply Permutation_app_comm.
    - constructor; [by injection Hl|done]. }
  cbn. rewrite Hp. f_equiv. apply IH; [done|]. by destruct ls.
Qed.
Lemma zip_star_perm {A} n (ls : list (list A)) :
  Forall (λ l, length l = n) ls → concat (zip_star ls) ≡ₚ concat ls.
Proof.
  intros Hls. destruct ls as [|l ls]; [done|]. unfold zip_star. pose proof (Forall_inv Hls) as ->.
  by apply zip_rows_perm.
Qed.

(* ===================================================================== *)
(** ** Groups of layers with one page size                                *)
(* ===================================================================== *)

Lemma forallb_replicate {A} (f : A → bool) n x : f x = true → forallb f (replicate n x) = true.
Proof. intros H. induction n; cbn; [done|]. by rewrite H. Qed.
Lemma existsb_replicate {A} (f : A → bool) n x : f x = false → existsb f (replicate n x) = false.
Proof. intros H. induction n; cbn; [done|]. by rewrite H. Qed.
Lemma remove_dups_replicate {A} `{EqDecision A} n (x : A) : remove_dups (replicate (S n) x) = [x].
Proof. induction n as [|n IH]; [done|]. cbn in *. rewrite IH.
  destruct (decide_rel _ x (x :: _)) as [|Hn]; [done|]. destruct Hn. left. Qed.
Lemma omap_replicate {A B} (f : A → option B) n x :
  omap f (replicate n x) = match f x with Some y => replicate n y | None => [] end.
Proof. induction n as [|n IH]; cbn; [by destruct (f x)|]. destruct (f x); cbn; [by f_equal|done]. Qed.
Lemma mapM_replicate {A B} (f : A → option B) n x y : f x = Some y → mapM f (replicate n x) = Some (replicate n y).
Proof. intros H. induction n as [|n IH]; cbn; [done|]. rewrite H. cbn. by rewrite IH. Qed.
Lemma merge_windows_replicate n (o : option Z) :
  merge_window_sizes (match o with Some w => replicate (S n) w | None => [] end) = Ok o.
Proof. unfold merge_window_sizes. destruct o; [by rewrite remove_dups_replicate|done]. Qed.

(** Layers with one and the same spec merge as one of them does. *)
Lemma merge_full_replicate mk n s m : merge_full mk [s] = Ok m → merge_full mk (replicate (S n) s) = Ok m.
Proof.
  unfold merge_full. change (replicate (S n) s) with (s :: replicate n s).
  destruct (isa_FullAttentionSpec s) eqn:Hf; cbn [forallb existsb andb negb orb]; rewrite ?Hf; [|done].
  rewrite forallb_replicate by done. cbn [andb negb].
  destruct (isa_MLAAttentionSpec s) eqn:Hm; [done|]. cbn [orb]. rewrite existsb_replicate by done.
  destruct (full_fields s) as [[[[a v] sw] ch]|] eqn:E; [|by repeat case_match].
  assert (Ho : ∀ k, omap full_fields (replicate k s) = replicate k (a, v, sw, ch)) by (intros k; by rewrite omap_replicate, E).
  change [s] with (replicate 1 s). change (s :: replicate n s) with (replicate (S n) s). rewrite !Ho, !omap_replicate.
  cbn [fst snd]. rewrite !merge_windows_replicate. rewrite !forallb_replicate by (by apply bool_decide_eq_true). done.
Qed.
Lemma merge_replicate n s m : merge [s] = Ok m → merge (replicate (S n) s) = Ok m.
Proof.
  unfold merge. change (replicate (S n) s) with (s :: replicate n s). destruct s; try by apply merge_full_replicate.
  all: rewrite ?forallb_replicate by (by apply bool_decide_eq_true); try done.
  - unfold merge_tq. destruct (merge_full _ [_]) as [x|] eqn:E; [|done].
    apply (merge_full_replicate _ n) in E. cbn [replicate] in E. rewrite E.
    assert (H : ∀ k, all_slots tq_slot_size (replicate k (TQFullAttentionSpec a head_size_v sliding_window attention_chunk_size tq_slot_size)) = Ok true).
    { induction k; cbn; [done|]. by rewrite Z.eqb_refl. }
    pose proof (H 1%nat) as H1. pose proof (H (S n)) as HS. cbn [replicate] in H1, HS. by rewrite H1, HS.
  - unfold merge_mla. cbn [mapM]. rewrite (mapM_replicate _ _ _ (a, m0)) by done. cbn.
    rewrite forallb_replicate by (by apply bool_decide_eq_true). done.
  - unfold merge_swa_mla. cbn [mapM]. rewrite (mapM_replicate _ _ _ (a, sliding_window, m0)) by done. cbn.
    rewrite forallb_replicate; [done|]. cbn. rewrite Z.eqb_refl. by rewrite bool_decide_true.
Qed.

Lemma assoc_get_elem {K V} `{EqDecision K} (k : K) (v : V) d : assoc_get k d = Some v → (k, v) ∈ d.
Proof.
  induction d as [|[k' v'] d IH]; cbn; [done|]. case_decide; subst; [intros [= ->]; left|right; auto].
Qed.
Lemma assoc_get_nodup {K V} `{EqDecision K} (k : K) (v : V) d :
  NoDup d.*1 → (k, v) ∈ d → assoc_get k d = Some v.
Proof.
  induction d as [|[k' v'] d IH]; cbn; [by intros _ ?%not_elem_of_nil|].
  intros [Hk Hd]%NoDup_cons [[= -> ->]|Hin]%elem_of_cons; [by rewrite decide_True|].
  rewrite decide_False; [auto|]. intros ->. destruct Hk. apply list_elem_of_fmap. by exists (k', v).
Qed.

(** A group of layers that all have the spec [s], which merges to the group's. *)
Definition group_of (specs : list (string * KVCacheSpec)) (g : KVCacheGroupSpec) : Prop :=
  ∃ s m, merge [s] = Ok m ∧ kv_cache_spec g = LayerSpec m ∧ ∀ n, n ∈ layer_names g → (n, s) ∈ specs.

Lemma mapM_same {A} (f : A → res KVCacheSpec) l s :
  (∀ x, x ∈ l → f x = Ok s) → mapM f l = Ok (replicate (length l) s).
Proof. intros H. apply mapM_Ok. induction l; constructor; [apply H; left|apply IHl; intros; apply H; by right]. Qed.

Lemma create_groups_total specs names :
  NoDup specs.*1 →
  Forall (λ ns, ns ≠ [] ∧ ∃ s m, merge [s] = Ok m ∧ ∀ n, n ∈ ns → (n, s) ∈ specs) names →
  ∃ groups, create_kv_cache_group_specs specs names = Ok groups ∧ layer_names <$> groups = names ∧
    Forall (group_of specs) groups.
Proof.
  intros Hnd Hns. unfold create_kv_cache_group_specs.
  induction Hns as [|ns names (Hne & s & m & Hm & Hin) _ (groups & HG & Hl & Hgo)]; [by exists []|].
  exists (mkKVCacheGroupSpec ns (LayerSpec m) false :: groups). cbn [mapM]. rewrite HG.
  rewrite (mapM_same _ _ s) by (intros n Hn; rewrite (assoc_get_nodup n s); auto). cbn [mbind res_bind].
  destruct ns as [|n0 ns]; [done|]. cbn [length]. rewrite (merge_replicate _ _ m) by done. cbn. rewrite Hl.
  split; [done|]. split; [done|]. constructor; [|done]. by exists s, m.
Qed.

Lemma same_type_spec specs :
  concat (same_type_layers specs).*2 ≡ₚ specs.*1 ∧
  ∀ s ls, (s, ls) ∈ same_type_layers specs ↔ ls ≠ [] ∧ ls = (filter (λ ns, ns.2 = s) specs).*1.
Proof.
  unfold same_type_layers. split.
  - rewrite collect_perm. by rewrite <-list_fmap_compose.
  - intros s ls. destruct (collect_spec ((λ ns : string * KVCacheSpec, (ns.2, ns.1)) <$> specs)) as [_ ->].
    f_equiv. enough ((filter (λ kx : KVCacheSpec * string, kx.1 = s) ((λ ns, (ns.2, ns.1)) <$> specs)).*2
                     = (filter (λ ns, ns.2 = s) specs).*1) as ->; [done|].
    induction specs as [|[n s'] specs IH]; [done|]. rewrite fmap_cons, !filter_cons. cbn [fst snd].
    case_decide; rewrite ?fmap_cons; [by f_equal|done].
Qed.

Lemma elem_of_concat {A} (x : A) ls : x ∈ concat ls ↔ ∃ l, l ∈ ls ∧ x ∈ l.
Proof. rewrite list_elem_of_In, in_concat. by setoid_rewrite list_elem_of_In. Qed.
Lemma concat_perm {A} (ls ls' : list (list A)) : Forall2 Permutation ls ls' → concat ls ≡ₚ concat ls'.
Proof. induction 1; cbn; [done|]. by f_equiv. Qed.
Lemma concat_concat_perm {A} (f : list A → list (list A)) ls :
  (∀ l, l ∈ ls → concat (f l) ≡ₚ l) → concat (concat (f <$> ls)) ≡ₚ concat ls.
Proof.
  intros H. induction ls as [|l ls IH]; [done|]. cbn. rewrite concat_app, H by left. f_equiv. apply IH.
  intros; apply H; by right.
Qed.

(** The number of layers with the spec [s]. *)
Definition type_size (specs : list (string * KVCacheSpec)) (s : KVCacheSpec) : Z :=
  len (filter (λ ns, ns.2 = s) specs).

(** The group size is positive and at most one and a half times any type. *)
Lemma choose_group_size_spec (types : list (list string)) mn mx :
  (∀ ls, ls ∈ types → ls ≠ []) → py_min (len <$> types) = Ok mn → py_max (len <$> types) = Ok mx →
  0 < choose_group_size mn mx ∧ ∀ ls, ls ∈ types → 2 * choose_group_size mn mx < 3 * len ls.
Proof.
  intros Hne [Hmn1 Hmn2]%py_min_Ok [Hmx1 Hmx2]%py_max_Ok.
  assert (Hpos : ∀ ls, ls ∈ types → 1 ≤ len ls).
  { intros ls Hn%Hne. destruct ls; [done|]. rewrite len_cons. pose proof (len_nonneg ls). lia. }
  apply list_elem_of_fmap in Hmn1 as (l1 & -> & H1). apply list_elem_of_fmap in Hmx1 as (l2 & -> & H2).
  pose proof (Hpos _ H1). pose proof (Hpos _ H2). unfold choose_group_size.
  split; [by case_match; lia|]. intros ls Hls. pose proof (Hmn2 (len ls) (list_elem_of_fmap_2 _ _ _ Hls)).
  destruct (Z.ltb_spec (2 * len l2) (3 * len l1)); lia.
Qed.

Lemma page_size_groups_spec specs :
  NoDup specs.*1 → specs ≠ [] → (∀ n s, (n, s) ∈ specs → ∃ m, merge [s] = Ok m) →
  ∃ groups gs, _get_kv_cache_groups_uniform_page_size specs = Ok groups ∧
    concat (layer_names <$> groups) ≡ₚ specs.*1 ∧ Forall (group_of specs) groups ∧
    (∀ g, g ∈ groups → 1 ≤ len (layer_names g) ≤ gs) ∧
    ∀ n s, (n, s) ∈ specs → 2 * gs < 3 * type_size specs s.
Proof.
  intros Hnd Hne Hmerge. destruct (same_type_spec specs) as [Hperm Hty].
  unfold _get_kv_cache_groups_uniform_page_size. set (types := (same_type_layers specs).*2) in *.
  assert (Hl : ∀ ls, ls ∈ types → ls ≠ [] ∧ ∃ s, (s, ls) ∈ same_type_layers specs ∧ len ls = type_size specs s).
  { intros ls ([s ls'] & -> & Hin)%list_elem_of_fmap. pose proof Hin as [Hn ->]%Hty. cbn. split; [done|].
    exists s. split; [done|]. unfold len, type_size, len. by rewrite length_fmap. }
  assert (Htne : len <$> types ≠ []).
  { intros E%fmap_nil_inv. rewrite E in Hperm. cbn in Hperm. apply Permutation_nil_l in Hperm. by destruct specs. }
  destruct (py_min_total _ Htne) as (mn & Hmn). destruct (py_max_total _ Htne) as (mx & Hmx).
  destruct (choose_group_size_spec types mn mx) as [Hgs Hpad]; [by intros ls [? _]%Hl|done..|].
  rewrite Hmn, Hmx. cbn [mbind res_bind]. set (gs := choose_group_size mn mx) in *.
  destruct (create_groups_total specs (concat (split_layers gs <$> types)) Hnd) as (groups & HG & Hnames & Hgo).
  { apply Forall_forall. intros ns (sub & (ls & -> & Hls)%list_elem_of_fmap & Hns)%elem_of_concat.
    pose proof (Hl _ Hls) as (Hln & s & Hs & _). destruct (split_layers_spec gs ls Hgs Hln) as [_ Hsub].
    destruct (Hsub _ Hns) as [Hlen Hin]. split; [intros ->; rewrite len_nil in Hlen; lia|].
    assert (Hall : ∀ n, n ∈ ls → (n, s) ∈ specs).
    { intros n Hn. apply Hty in Hs as [_ ->]. apply list_elem_of_fmap in Hn as ([n' s'] & -> & [Hs' Hn]%list_elem_of_filter).
      cbn in *. by subst s'. }
    destruct ls as [|n0 ls]; [done|]. destruct (Hmerge n0 s) as (m & Hm); [by apply Hall; left|]. exists s, m.
    repeat split; [done|]. intros n Hn. by apply Hall, Hin. }
  exists groups, gs. split; [done|]. split; [|split; [done|split]].
  - rewrite Hnames, concat_concat_perm; [done|]. intros ls Hls. apply split_layers_spec; [done|by apply Hl].
  - intros g Hg. assert (Hin : layer_names g ∈ concat (split_layers gs <$> types)) by (rewrite <-Hnames; by apply list_elem_of_fmap_2).
    apply elem_of_concat in Hin as (sub & (ls & -> & Hls)%list_elem_of_fmap & Hns).
    apply (split_layers_spec gs ls); [done|by apply Hl|done].
  - intros n s Hns. assert (Hin : (filter (λ ns, ns.2 = s) specs).*1 ∈ types).
    { apply list_elem_of_fmap. exists (s, (filter (λ ns, ns.2 = s) specs).*1). split; [done|]. apply Hty. split; [|done].
      intros E%fmap_nil_inv. apply (not_elem_of_nil (n, s)). rewrite <-E. by apply list_elem_of_filter. }
    specialize (Hpad _ Hin). unfold len in Hpad. by rewrite length_fmap in Hpad.
Qed.

(* ===================================================================== *)
(** ** The groups partition the layers                                    *)
(* ===================================================================== *)

Lemma Forall2_fmap_eq {A B C} (P : A → B → Prop) (f : A → C) (g : B → C) l k :
  (∀ x y, P x y → f x = g y) → Forall2 P l k → f <$> l = g <$> k.
Proof. intros H. induction 1; cbn; [done|]. f_equal; auto. Qed.

Lemma create_groups_names specs names groups :
  create_kv_cache_group_specs specs names = Ok groups → layer_names <$> groups = names.
Proof.
  intros H%mapM_Ok. rewrite <-(list_fmap_id names). symmetry. revert H. apply Forall2_fmap_eq.
  intros ns g H. ok_steps. by subst.
Qed.

Lemma page_size_groups_names specs groups :
  _get_kv_cache_groups_uniform_page_size specs = Ok groups → concat (layer_names <$> groups) ≡ₚ specs.*1.
Proof.
  unfold _get_kv_cache_groups_uniform_page_size. intros H. apply bind_Ok in H as (mn & Hmn & H).
  apply bind_Ok in H as (mx & Hmx & H). apply create_groups_names in H. rewrite H.
  destruct (same_type_spec specs) as [Hperm Hty].
  assert (Hne : ∀ ls, ls ∈ (same_type_layers specs).*2 → ls ≠ []).
  { intros ls ([s ls'] & -> & [Hn _]%Hty)%list_elem_of_fmap. done. }
  destruct (choose_group_size_spec _ mn mx Hne Hmn Hmx) as [Hgs _]. rewrite concat_concat_perm; [done|].
  intros ls Hls. by apply split_layers_spec; [|apply Hne].
Qed.

Section partition.
Context (element_size : string → Z) (aligned : bool).

Lemma unify_page_size_names specs specs' :
  unify_kv_cache_spec_page_size element_size aligned specs = Ok specs' → specs'.*1 = specs.*1.
Proof.
  unfold unify_kv_cache_spec_page_size. intros H. apply bind_Ok in H as (sizes & _ & H).
  case_match; [by injection H as <-|]. apply bind_Ok in H as (mx & _ & H%mapM_Ok). symmetry. revert H.
  apply Forall2_fmap_eq. intros ns ns' H. ok_steps. by subst.
Qed.

Lemma from_specs_keeps specs u : from_specs specs = Ok (Some u) → kv_cache_specs u = specs.
Proof. unfold from_specs. intros H. repeat case_match; simplify_eq; done. Qed.
Lemma from_specs_or_fail_keeps specs u : from_specs_or_fail specs = Ok u → kv_cache_specs u = specs.
Proof. unfold from_specs_or_fail. intros H. ok_steps. subst. by apply from_specs_keeps. Qed.

Lemma unify_hybrid_spec specs specs' :
  unify_hybrid_kv_cache_specs element_size specs = Ok specs' → specs'.*1 = specs.*1 ∧ is_one_type specs' = Ok true.
Proof.
  unfold unify_hybrid_kv_cache_specs. intros H. apply bind_Ok in H as ([] & Hone & H); [by injection H as <-|].
  apply bind_Ok in H as (_ & _ & H). apply bind_Ok in H as ([] & Hone' & H); [|done]. injection H as <-.
  split; [|done]. case_match; [|done]. by rewrite <-list_fmap_compose.
Qed.

Lemma best_chunk_pos values d o ds : 0 < d → Forall (Z.lt 0) ds → 0 < best_chunk values d o ds.
Proof.
  intros Hd Hds. revert d o Hd. induction Hds as [|x ds Hx _ IH]; intros d o Hd; cbn; [done|].
  destruct (match o with None => _ | Some _ => _ end); by apply IH.
Qed.
Lemma approximate_gcd_pos values lb d : _approximate_gcd values lb = Ok d → 0 < d.
Proof.
  unfold _approximate_gcd. intros H. do 2 (case_match; [done|]). apply bind_Ok in H as (mx & _ & H).
  case_match; injection H as <-; [lia|]. apply best_chunk_pos; [lia|].
  apply Forall_forall. intros x Hx%elem_of_seqZ. lia.
Qed.

Lemma same_lengths {A} (ls : list (list A)) :
  len (remove_dups (len <$> ls)) = 1 → ∃ n, Forall (λ l, length l = n) ls.
Proof.
  intros H. destruct (remove_dups (len <$> ls)) as [|n [|? ?]] eqn:E; rewrite ?len_cons, ?len_nil in H;
    [done| |by pose proof (len_nonneg l); lia].
  exists (Z.to_nat n). apply Forall_forall. intros l Hl.
  assert (Hin : len l ∈ remove_dups (len <$> ls)) by (apply elem_of_remove_dups; by apply list_elem_of_fmap_2).
  rewrite E, list_elem_of_singleton in Hin. unfold len in Hin. lia.
Qed.

Lemma split_swa_names sizes n sm groups :
  0 < n → split_swa_group element_size aligned sizes n sm = Ok groups →
  concat (layer_names <$> groups) ≡ₚ (kv_cache_specs sm).*1.
Proof.
  intros Hn H. unfold split_swa_group in H. do 5 (apply bind_Ok in H as (? & _ & H)).
  apply bind_Ok in H as (padded & Hpad%mapM_Ok & H). apply bind_Ok in H as (_ & Hlen%assert_Ok & H).
  apply bind_Ok in H as (first & Hfirst%some_or_Ok & H).
  apply bind_Ok in H as (ng & (_ & ->)%py_cdiv_Ok & H%mapM_Ok).
  set (per_size := collect ((λ r : Z * (string * KVCacheSpec), (r.1, r.2.1)) <$> padded)) in *.
  assert (Hnames : layer_names <$> groups
    = (λ i, concat (stride (Z.to_nat (cdiv (len first) n)) i (zip_star per_size.*2))) <$> range (cdiv (len first) n)).
  { symmetry. revert H. apply Forall2_fmap_eq. intros i g Hi. ok_steps. by subst g. }
  apply Z.eqb_eq in Hlen. destruct (same_lengths _ Hlen) as (k & Hk).
  assert (Hf : first ≠ []).
  { destruct (collect_spec ((λ r : Z * (string * KVCacheSpec), (r.1, r.2.1)) <$> padded)) as [_ Hc].
    fold per_size in Hc. destruct per_size as [|[p l] per_size'] eqn:E; [done|]. injection Hfirst as ->.
    by destruct (Hc p first) as [[Hne _] _]; [left|]. }
  assert (0 < cdiv (len first) n).
  { apply cdiv_gt; [done|]. destruct first; [done|]. rewrite len_cons. pose proof (len_nonneg first). lia. }
  assert (Hcc : ∀ is_, concat ((λ i, concat (stride (Z.to_nat (cdiv (len first) n)) i (zip_star per_size.*2))) <$> is_)
            = concat (concat ((λ i, stride (Z.to_nat (cdiv (len first) n)) i (zip_star per_size.*2)) <$> is_))).
  { induction is_ as [|i is_ IH]; [done|]. cbn. by rewrite concat_app, IH. }
  rewrite Hnames, Hcc. unfold range. rewrite stride_partition by lia. rewrite (zip_star_perm k) by done.
  unfold per_size. rewrite collect_perm, <-list_fmap_compose.
  replace ((kv_cache_specs sm).*1) with ((λ r : Z * (string * KVCacheSpec), r.2.1) <$> padded); [done|].
  symmetry. revert Hpad. apply Forall2_fmap_eq. intros ns r Hr. ok_steps. by subst r.
Qed.

Lemma uniform_groups_names us groups :
  _get_kv_cache_groups_uniform_groups element_size aligned us = Ok groups →
  concat (layer_names <$> groups) ≡ₚ concat ((λ u, (kv_cache_specs u).*1) <$> us).
Proof.
  unfold _get_kv_cache_groups_uniform_groups. destruct us as [|mla swa]; [done|]. intros H.
  apply bind_Ok in H as (_ & _ & H). apply bind_Ok in H as (counts & _ & H).
  apply bind_Ok in H as (n & Hn%approximate_gcd_pos & H). apply bind_Ok in H as (_ & _ & H).
  apply bind_Ok in H as (sizes & _ & H). apply bind_Ok in H as (gss & Hg%mapM_Ok & [= <-]).
  cbn. f_equiv. induction Hg as [|u gs swa gss Hu _ IH]; [done|]. cbn.
  by rewrite fmap_app, concat_app, (split_swa_names _ _ _ _ Hn Hu), IH.
Qed.

(** The layers that the DeepseekV4 grouping places. *)
Definition mla_layers (specs : list (string * KVCacheSpec)) : list string :=
  (filter (λ ns, isa_MLAAttentionSpec ns.2 || isa_SlidingWindowMLASpec ns.2 = true) specs).*1.
Lemma mla_or_swa_perm (specs : list (string * KVCacheSpec)) :
  (filter (λ ns, isa_MLAAttentionSpec ns.2 = true) specs).*1 ++ (omap swa_mla_entry specs).*2.*1
  ≡ₚ mla_layers specs.
Proof.
  unfold mla_layers. induction specs as [|[n s] specs IH]; [done|]. rewrite !filter_cons. cbn in *.
  destruct s; cbn in *; try exact IH.
  - by apply perm_skip.
  - etrans; [symmetry; apply Permutation_middle|by apply perm_skip].
Qed.
Lemma group_and_unify_names specs us :
  group_and_unify_kv_cache_specs specs = Ok (Some us) →
  concat ((λ u, (kv_cache_specs u).*1) <$> us) ≡ₚ mla_layers specs.
Proof.
  unfold group_and_unify_kv_cache_specs. intros H. case_match; [done|].
  apply bind_Ok in H as (_ & _ & H). apply bind_Ok in H as (mla & Hmla%from_specs_or_fail_keeps & H).
  apply bind_Ok in H as (swa & Hswa%mapM_Ok & [= <-]). cbn. rewrite Hmla.
  set (entries := omap swa_mla_entry specs) in *.
  replace ((λ u, (kv_cache_specs u).*1) <$> swa) with ((λ l : list (string * KVCacheSpec), l.*1) <$> (collect entries).*2).
  - rewrite <-(mla_or_swa_perm specs). f_equiv. fold entries.
    rewrite <-(collect_perm entries). apply reflexive_eq. clear Hswa.
    induction ((collect entries).*2); [done|]. cbn. by rewrite fmap_app, IHl.
  - revert Hswa. apply Forall2_fmap_eq. intros l u Hu%from_specs_or_fail_keeps. by rewrite Hu.
Qed.

Lemma flag_group_names n groups : layer_names <$> flag_group n groups = layer_names <$> groups.
Proof. induction groups as [|g gs IH]; [done|]. cbn. case_decide; cbn; [done|by f_equal]. Qed.
Lemma annotate_names c specs groups :
  layer_names <$> _annotate_eagle_groups_deepseek_v4 c specs groups = layer_names <$> groups.
Proof.
  unfold _annotate_eagle_groups_deepseek_v4. repeat case_match; try done. apply flag_group_names.
Qed.

(** The specs that are split, once the hybrid manager was found disabled or not. *)
Definition no_layer_is_left_out (c : PlanConfig) (specs : list (string * KVCacheSpec)) : bool :=
  disable_hybrid_kv_cache_manager c || negb (existsb isa_SlidingWindowMLASpec specs.*2) ||
  forallb (λ s, isa_MLAAttentionSpec s || isa_SlidingWindowMLASpec s) specs.*2.

Lemma mla_layers_all specs :
  forallb (λ s, isa_MLAAttentionSpec s || isa_SlidingWindowMLASpec s) specs.*2 = true → mla_layers specs = specs.*1.
Proof.
  intros H. unfold mla_layers. rewrite filter_all; [done|]. intros ns Hin.
  eapply (forallb_In _ _ _ H). by apply list_elem_of_fmap_2.
Qed.

Lemma groups_names c specs groups :
  get_kv_cache_groups element_size aligned c specs = Ok groups →
  concat (layer_names <$> groups) ⊆+ specs.*1 ∧
  (no_layer_is_left_out c specs = true → concat (layer_names <$> groups) ≡ₚ specs.*1).
Proof.
  unfold get_kv_cache_groups, no_layer_is_left_out. intros H. apply bind_Ok in H as (specs' & Hh & H).
  assert (Hs : specs'.*1 = specs.*1 ∧ (is_one_type specs' = Ok true ∨ (specs' = specs ∧ disable_hybrid_kv_cache_manager c = false))).
  { destruct (disable_hybrid_kv_cache_manager c); [|injection Hh as <-; auto]. apply unify_hybrid_spec in Hh. naive_solver. }
  destruct Hs as [Hnames Hone]. rewrite <-Hnames. clear Hh.
  enough (Hor : concat (layer_names <$> groups) ≡ₚ specs'.*1 ∨
                (specs' = specs ∧ disable_hybrid_kv_cache_manager c = false ∧
                 existsb isa_SlidingWindowMLASpec specs.*2 = true ∧
                 concat (layer_names <$> groups) ≡ₚ mla_layers specs)).
  { destruct Hor as [Hp|(-> & Hd & Hex & Hp)]; [rewrite Hp; by split|]. rewrite Hp. split.
    - apply fmap_submseteq, sublist_submseteq, sublist_filter.
    - rewrite Hd, Hex. intros Hl. by rewrite mla_layers_all. }
  case_match eqn:Hfree.
  { injection H as <-. left. by destruct specs'. }
  apply bind_Ok in H as ([] & Huni & H).
  { left. apply create_groups_names in H. rewrite H. cbn. by rewrite app_nil_r. }
  apply bind_Ok in H as ([u|] & Hu & H).
  { left. injection H as <-. apply from_specs_keeps in Hu. cbn. by rewrite app_nil_r, Hu. }
  destruct Hone as [Hone|[-> Hdis]].
  { unfold is_one_type in Hone. rewrite Huni in Hone. cbn in Hone. unfold from_specs in Hu. rewrite Hone in Hu.
    destruct specs' as [|[] ]; discriminate Hu. }
  apply bind_Ok in H as ([us|] & Hus & H).
  - right. apply bind_Ok in H as (gs & Hgs & [= <-]). rewrite annotate_names, (uniform_groups_names _ _ Hgs).
    split; [done|]. split; [done|]. split; [|by apply group_and_unify_names].
    unfold group_and_unify_kv_cache_specs in Hus. by destruct (existsb _ _).
  - left. apply bind_Ok in H as (specs' & Hsp%unify_page_size_names & H%page_size_groups_names). by rewrite H, Hsp.
Qed.
End partition.

(* ===================================================================== *)
(** ** The tensors of a worker                                            *)
(* ===================================================================== *)

Lemma concat_fmap_app {A I} (g h : I → list A) is_ :
  concat ((λ i, g i ++ h i) <$> is_) ≡ₚ concat (g <$> is_) ++ concat (h <$> is_).
Proof.
  induction is_ as [|i is_ IH]; [done|]. cbn. rewrite IH, <-!app_assoc. f_equiv.
  rewrite !app_assoc. f_equiv. apply Permutation_app_comm.
Qed.
Lemma concat_fmap_nil {A I} (is_ : list I) : concat ((λ _, @nil A) <$> is_) = [].
Proof. by induction is_. Qed.

(** Two nested loops that collect what they find can be exchanged. *)
Lemma exchange_loops {A B I} (f : B → I → option A) (is_ : list I) (bs : list B) :
  concat ((λ i, omap (λ b, f b i) bs) <$> is_) ≡ₚ concat ((λ b, omap (f b) is_) <$> bs).
Proof.
  induction bs as [|b bs IH]; [cbn; by rewrite concat_fmap_nil|]. cbn [fmap list_fmap concat]. rewrite <-IH.
  assert (H : omap (f b) is_ = concat ((λ i, option_list (f b i)) <$> is_)).
  { clear. induction is_ as [|i is_ IH]; [done|]. cbn. by destruct (f b i); cbn; rewrite IH. }
  rewrite H, <-concat_fmap_app. apply reflexive_eq. f_equal. apply list_fmap_ext. intros _ i _. cbn.
  by destruct (f b i).
Qed.
Lemma omap_of_fmap {A B C} (f : B → option C) (g : A → B) (l : list A) : omap f (g <$> l) = omap (λ x, f (g x)) l.
Proof. induction l as [|x l IH]; [done|]. cbn. by destruct (f (g x)); rewrite IH. Qed.
Lemma omap_lookup_seq {A} (l : list A) n : (length l ≤ n)%nat → omap (λ i, l !! i) (seq 0 n) = l.
Proof.
  revert n. induction l as [|x l IH]; intros n Hn; [by induction (seq 0 n)|].
  destruct n as [|n]; [cbn in Hn; lia|]. cbn [seq]. rewrite <-fmap_S_seq. cbn. f_equal.
  rewrite omap_of_fmap. apply IH. cbn in Hn. lia.
Qed.
Lemma slots_perm {A} (ls : list (list A)) n :
  Forall (λ l, (length l ≤ n)%nat) ls → concat ((λ i, omap (λ l, l !! i) ls) <$> seq 0 n) ≡ₚ concat ls.
Proof.
  intros H. rewrite (exchange_loops (λ l i, l !! i)). apply reflexive_eq. f_equal.
  rewrite <-(list_fmap_id ls) at 2. apply list_fmap_ext. intros i l Hl. rewrite Forall_lookup in H.
  cbn. apply omap_lookup_seq. eauto.
Qed.

(** The values of a dict, read through a list of keys that holds all of its. *)
Lemma buckets_perm {A} (b : list (Z * list A)) sizes :
  NoDup b.*1 → NoDup sizes → (∀ k, k ∈ b.*1 → k ∈ sizes) →
  concat ((λ ps, default [] (assoc_get ps b)) <$> sizes) ≡ₚ concat b.*2.
Proof.
  revert sizes. induction b as [|[k l] b IH]; intros sizes Hb Hs Hin.
  { cbn. by rewrite concat_fmap_nil. }
  apply NoDup_cons in Hb as [Hk Hb]. cbn in Hk.
  destruct (elem_of_Permutation sizes k) as [[sizes' Hp] _]; [apply Hin; left|].
  rewrite Hp in Hs. apply NoDup_cons in Hs as [Hk' Hs].
  assert (Hin' : ∀ k', k' ∈ b.*1 → k' ∈ sizes').
  { intros k' Hk1. assert (k' ∈ sizes) as Hk2 by (apply Hin; by right). rewrite Hp in Hk2.
    apply elem_of_cons in Hk2 as [->|]; done. }
  rewrite Hp. cbn. rewrite decide_True by done. cbn. f_equiv. rewrite <-(IH sizes' Hb Hs Hin').
  apply reflexive_eq. f_equal. apply list_fmap_ext. intros i ps Hps. rewrite decide_False; [done|].
  intros ->. by eapply Hk', list_elem_of_lookup_2.
Qed.

Lemma omap_app_ {A B} (f : A → option B) (l k : list A) : omap f (l ++ k) = omap f l ++ omap f k.
Proof. induction l as [|x l IH]; [done|]. cbn. by destruct (f x); rewrite IH. Qed.
Lemma omap_concat {A B} (f : A → option B) (ls : list (list A)) : omap f (concat ls) = concat ((λ l : list A, omap f l) <$> ls).
Proof. induction ls as [|l ls IH]; [done|]. cbn. by rewrite omap_app_, IH. Qed.

(** The slots of the layer tuples: position in the bucket, page size. *)
Definition tuple_slots (n : nat) (sizes : list Z) : list (nat * Z) :=
  concat ((λ i, (λ ps, (i, ps)) <$> sizes) <$> seq 0 n).
Lemma tuple_slots_perm (bucketed : list (list (Z * list string))) n sizes :
  NoDup sizes →
  Forall (λ b, NoDup b.*1 ∧ (∀ k, k ∈ b.*1 → k ∈ sizes) ∧ ∀ k l, (k, l) ∈ b → (length l ≤ n)%nat) bucketed →
  concat ((λ ip, tuple_slot bucketed ip.1 ip.2) <$> tuple_slots n sizes) ≡ₚ concat (concat bucketed).*2.
Proof.
  intros Hs Hb. unfold tuple_slot.
  rewrite (exchange_loops (λ b ip, assoc_get ip.2 b ≫= λ bucket, bucket !! ip.1)).
  induction Hb as [|b bucketed (Hnd & Hin & Hlen) _ IH]; [done|]. cbn. rewrite fmap_app, concat_app, IH. f_equiv.
  rewrite <-(buckets_perm b sizes) by done. clear IH. unfold tuple_slots.
  rewrite omap_concat, <-list_fmap_compose.
  assert (Hx : concat ((λ i, omap (λ ps, assoc_get ps b ≫= λ bucket, bucket !! i) sizes) <$> seq 0 n)
          ≡ₚ concat ((λ ps, default [] (assoc_get ps b)) <$> sizes)).
  { rewrite (exchange_loops (λ ps i, assoc_get ps b ≫= λ bucket, bucket !! i)). apply reflexive_eq. f_equal.
    apply list_fmap_ext. intros j ps _. destruct (assoc_get ps b) as [l|] eqn:E; cbn; [|by induction (seq 0 n)].
    by eapply omap_lookup_seq, Hlen, assoc_get_elem. }
  rewrite <-Hx. apply reflexive_eq. f_equal. apply list_fmap_ext. intros j i _. cbn. by rewrite omap_of_fmap.
Qed.

Lemma py_sum_mul {A} (f : A → Z) k l : py_sum ((λ x, f x * k) <$> l) = py_sum (f <$> l) * k.
Proof. unfold py_sum. induction l; cbn in *; lia. Qed.
Lemma py_sum_const {A} k (l : list A) : py_sum ((λ _, k) <$> l) = len l * k.
Proof. unfold py_sum. induction l as [|x l IH]; [done|]. rewrite len_cons. cbn in *. lia. Qed.
Lemma py_sum_app l k : py_sum (l ++ k) = py_sum l + py_sum k.
Proof. unfold py_sum. induction l; cbn in *; lia. Qed.
Lemma py_sum_perm l k : l ≡ₚ k → py_sum l = py_sum k.
Proof. unfold py_sum. induction 1; cbn in *; lia. Qed.

Lemma list_loops {A B C} (f : A → B → C) (is_ : list A) (js : list B) :
  (i ← is_; j ← js; [f i j]) = (λ ij, f ij.1 ij.2) <$> concat ((λ i, (λ j, (i, j)) <$> js) <$> is_).
Proof.
  assert (H : ∀ i, (j ← js; [f i j]) = f i <$> js) by (intros i; induction js; cbn in *; [done|by f_equal]).
  induction is_ as [|i is_ IH]; [done|]. cbn. rewrite H, fmap_app, <-list_fmap_compose. f_equal. apply IH.
Qed.

(** What is promised of the tensors of a worker that holds [groups]: they hold
    every layer once when [placed] holds, have whole blocks, and stay within the
    memory when the page sizes of the groups make sense. *)
Record tensors_ok (placed sized : Prop) (c : PlanConfig) (groups : list KVCacheGroupSpec) (available : Z)
    (cfg : KVCacheConfig) : Prop := {
  to_groups : kv_cache_groups cfg = groups;
  to_layers : placed → concat (shared_by <$> kv_cache_tensors cfg) ≡ₚ concat (layer_names <$> groups);
  to_whole : ∀ t, t ∈ kv_cache_tensors cfg → (num_blocks cfg | t_size t);
  to_fit : sized → num_gpu_blocks_override c = None → 0 ≤ available →
    0 ≤ num_blocks cfg ∧ Forall (λ t, 0 ≤ t_size t) (kv_cache_tensors cfg) ∧
    py_sum (t_size <$> kv_cache_tensors cfg) ≤ available;
}.

Section tensors.
Context (element_size : string → Z) (aligned : bool) (c : PlanConfig).
Abbreviation page_size := (page_size_bytes element_size aligned).

Lemma no_override n : num_gpu_blocks_override c = None → may_override_num_blocks c n = n.
Proof. unfold may_override_num_blocks. by intros ->. Qed.

(** A group of layers of one type lists the layers of its spec, or has none on
    this worker. *)
Definition names_match (g : KVCacheGroupSpec) : Prop :=
  match kv_cache_spec g with
  | UniformSpec u => layer_names g = (kv_cache_specs u).*1 ∨ layer_names g = []
  | LayerSpec _ => True
  end.

Lemma shared_pools_ok (placed sized : Prop) groups available n p nb :
  (sized → 0 ≤ p) → max_group_len groups = Ok n → 0 < n →
  get_num_blocks c n available p = Ok nb →
  tensors_ok placed sized c groups available
    (mkKVCacheConfig nb ((λ i, mkKVCacheTensor (p * nb) (pool_slot groups i)) <$> range n) groups).
Proof.
  intros Hp Hn Hn0 Hnb. unfold get_num_blocks in Hnb. ok_steps. subst. split; cbn; [done|..].
  - intros _. rewrite <-list_fmap_compose. unfold range.
    rewrite <-(slots_perm (layer_names <$> groups) (Z.to_nat n)).
    + apply reflexive_eq. f_equal. apply list_fmap_ext. intros _ i _. cbn. unfold pool_slot.
      by rewrite omap_of_fmap.
    + apply Forall_fmap, Forall_forall. intros g Hg. apply py_max_Ok in Hn as [_ Hn].
      specialize (Hn (len (layer_names g)) (list_elem_of_fmap_2 (λ g, len (layer_names g)) _ _ Hg)). unfold len in Hn. cbn. lia.
  - intros t (i & -> & _)%list_elem_of_fmap. cbn. apply Z.divide_factor_r.
  - intros Hsz Ho Ha. specialize (Hp Hsz). rewrite !no_override by done. rewrite <-list_fmap_compose.
    rewrite (py_sum_const (p * Z.max (available / p / n) 0)). unfold range, len. rewrite length_seq, Z2Nat.id by lia.
    assert (0 ≤ available / p) by (apply Z.div_pos; lia). assert (0 ≤ available / p / n) by (apply Z.div_pos; lia).
    rewrite Z.max_l by done. split; [done|]. split; [apply Forall_fmap, Forall_forall; intros; cbn; nia|]. pose proof (Z.mul_div_le available p ltac:(lia)).
    pose proof (Z.mul_div_le (available / p) n ltac:(lia)). nia.
Qed.

Lemma per_layer_sizes (all l : list (string * KVCacheSpec)) ps nb tensors :
  (∀ ns, ns ∈ l → assoc_get ns.1 all = Some ns.2) → Forall2 (λ ns p, page_size ns.2 = Ok p) l ps →
  Forall2 (λ n t, (s ← some_or KeyError (assoc_get n all); p ← page_size s;
                   Ok (mkKVCacheTensor (p * nb) [n])) = Ok t) l.*1 tensors →
  t_size <$> tensors = (λ p, p * nb) <$> ps.
Proof.
  intros Hall Hps. revert tensors. induction Hps as [|ns p l ps Hp _ IH]; intros tensors Ht.
  { by apply Forall2_nil_inv_l in Ht as ->. }
  cbn in Ht. apply Forall2_cons_inv_l in Ht as (t & ts & H & Ht & ->).
  rewrite Hall in H by left. cbn in H. rewrite Hp in H. injection H as <-. cbn. f_equal.
  apply IH; [|done]. intros; apply Hall; by right.
Qed.

Lemma per_layer_ok (placed sized : Prop) g u available total :
  (sized → Forall (λ ns, spec_ok element_size aligned ns.2) (kv_cache_specs u)) →
  names_match g → kv_cache_spec g = UniformSpec u → NoDup (layer_names g) →
  group_page_size element_size aligned (UniformSpec u) = Ok total → total ≠ 0 →
  ∀ tensors,
  let nb := may_override_num_blocks c (available / total) in
  Forall2 (λ n t, (s ← some_or KeyError (assoc_get n (kv_cache_specs u)); p ← page_size s;
                   Ok (mkKVCacheTensor (p * nb) [n])) = Ok t) (layer_names g) tensors →
  tensors_ok placed sized c [g] available (mkKVCacheConfig nb tensors [g]).
Proof.
  intros Hok Hm Hg Hnd Htot Hne tensors nb Ht. unfold names_match in Hm. rewrite Hg in Hm.
  split; cbn; [done|..].
  - intros _. rewrite app_nil_r. clear -Ht. induction Ht as [|n t ns ts H _ IH]; [done|]. ok_steps. subst t. cbn. by rewrite IH.
  - intros t (i & Hi)%list_elem_of_lookup. destruct (Forall2_lookup_r _ _ _ _ _ Ht Hi) as (n & _ & H).
    ok_steps. subst t. apply Z.divide_factor_r.
  - intros Hsz Ho Ha. specialize (Hok Hsz). unfold nb. rewrite no_override by done. unfold group_page_size, uniform_page_size_bytes in Htot.
    rewrite map_specs_mapM in Htot. destruct (mapM _ _) as [ps|] eqn:E; [|done]. injection Htot as <-.
    pose proof (py_sum_nonneg _ (sizes_nonneg _ _ _ _ Hok E)) as Hps. unfold py_sum in Hps.
    assert (0 ≤ available / foldr Z.add 0 ps) by (apply Z.div_pos; lia). split; [done|].
    destruct Hm as [Hm|Hm]; rewrite Hm in Ht; [|apply Forall2_nil_inv_l in Ht as ->; by split; [constructor|]].
    assert (Hts : t_size <$> tensors = (λ p, p * nb) <$> ps).
    { apply (per_layer_sizes (kv_cache_specs u) (kv_cache_specs u)); [|by apply mapM_Ok|done].
      intros [n s] Hin. apply assoc_get_nodup; [by rewrite <-Hm|done]. }
    split.
    { apply (Forall_fmap t_size (Z.le 0)). rewrite Hts. apply Forall_fmap, Forall_forall. intros p Hp. cbn.
      pose proof (sizes_nonneg _ _ _ _ Hok E) as Hz. rewrite Forall_forall in Hz. specialize (Hz _ Hp).
      unfold nb. rewrite no_override by done. nia. }
    rewrite Hts, (py_sum_mul (λ p, p)), list_fmap_id. unfold nb, py_sum. rewrite no_override by done.
    apply Z.mul_div_le. lia.
Qed.

(** Every layer of a DeepseekV4 worker has one of the page sizes of the worker's
    first group, as the layout presupposes. *)
Definition pages_match (groups : list KVCacheGroupSpec) : Prop :=
  ∀ g0 u0 sizes g b p, head groups = Some g0 → kv_cache_spec g0 = UniformSpec u0 →
    get_page_sizes element_size aligned u0 = Ok sizes → g ∈ groups →
    bucket_group element_size aligned g = Ok b → p ∈ b.*1 → p ∈ sizes.

Lemma bucket_group_spec g b :
  bucket_group element_size aligned g = Ok b → NoDup b.*1 ∧ concat b.*2 ≡ₚ layer_names g.
Proof.
  unfold bucket_group. destruct (kv_cache_spec g) as [|u]; [done|]. intros H.
  apply bind_Ok in H as (sized & Hs%mapM_Ok & [= <-]). split; [apply collect_spec|]. rewrite collect_perm.
  apply reflexive_eq. rewrite <-(list_fmap_id (layer_names g)). symmetry. revert Hs. apply Forall2_fmap_eq.
  intros n r H. ok_steps. by subst r.
Qed.

Lemma tuple_slots_sum n sizes k :
  py_sum ((λ ip : nat * Z, ip.2 * k) <$> tuple_slots n sizes) = Z.of_nat n * (py_sum sizes * k).
Proof.
  rewrite (py_sum_mul snd). unfold tuple_slots. rewrite <-(length_seq n 0) at 2.
  enough (H : py_sum (concat ((λ i : nat, (λ ps, (i, ps)) <$> sizes) <$> seq 0 n)).*2
              = Z.of_nat (length (seq 0 n)) * py_sum sizes) by (rewrite H; lia).
  induction (seq 0 n) as [|i is_ IH]; [done|]. cbn [fmap list_fmap concat length].
  rewrite fmap_app, py_sum_app, IH, <-list_fmap_compose.
  assert (Hid : snd ∘ (λ ps : Z, (i, ps)) <$> sizes = sizes) by apply list_fmap_id. rewrite Hid. lia.
Qed.

Lemma page_sizes_nodup g u sizes :
  kv_cache_spec g = UniformSpec u → get_page_sizes element_size aligned u = Ok sizes →
  NoDup sizes ∧ (group_ok element_size aligned g → Forall (Z.le 0) sizes).
Proof.
  unfold group_ok, get_page_sizes, uniform_layer_sizes. intros Hu H.
  apply bind_Ok in H as (sz & Hsz & [= <-]). split; [apply NoDup_remove_dups|]. intros Hok. rewrite Hu in Hok.
  pose proof (sizes_nonneg _ _ _ _ Hok Hsz) as Hz. rewrite Forall_forall in Hz |- *.
  intros p Hp. apply Hz. by apply elem_of_remove_dups.
Qed.

(** The buckets of a worker fit the slots of the layout. *)
Lemma buckets_fit groups bucketed g0 u0 sizes n :
  pages_match groups → head groups = Some g0 → kv_cache_spec g0 = UniformSpec u0 →
  get_page_sizes element_size aligned u0 = Ok sizes → mapM (bucket_group element_size aligned) groups = Ok bucketed →
  (∀ y, y ∈ len <$> (concat bucketed).*2 → y ≤ n) →
  Forall (λ b, NoDup b.*1 ∧ (∀ k, k ∈ b.*1 → k ∈ merge_sort Z.le sizes) ∧
               ∀ k l, (k, l) ∈ b → (length l ≤ Z.to_nat n)%nat) bucketed.
Proof.
  intros Hpm Hg0 Hu0 Hsz Hb%mapM_Ok Hn. apply Forall_forall. intros b (i & Hi)%list_elem_of_lookup.
  destruct (Forall2_lookup_r _ _ _ _ _ Hb Hi) as (g & Hg & Hbg).
  split; [by apply bucket_group_spec in Hbg as [? _]|]. split.
  - intros k Hk. rewrite merge_sort_Permutation. eapply (Hpm g0 u0 sizes g b); eauto using list_elem_of_lookup_2.
  - intros k l Hl. assert (Hin : len l ∈ len <$> (concat bucketed).*2); [|apply Hn in Hin; unfold len in Hin; lia].
    apply list_elem_of_fmap. exists l. split; [done|]. apply list_elem_of_fmap. exists (k, l). split; [done|].
    apply elem_of_concat. eauto using list_elem_of_lookup_2.
Qed.

Lemma elem_of_tuple_slots ip n sizes : ip ∈ tuple_slots n sizes → ip.2 ∈ sizes.
Proof.
  intros (l & (i & -> & _)%list_elem_of_fmap & (ps & -> & H)%list_elem_of_fmap)%elem_of_concat. done.
Qed.

Lemma layer_tuples_ok groups available nt :
  _get_kv_cache_config_deepseek_v4 element_size aligned c groups available = Ok nt →
  tensors_ok (pages_match groups) (Forall (group_ok element_size aligned) groups) c groups available
    (mkKVCacheConfig nt.1 nt.2 groups).
Proof.
  intros H. unfold _get_kv_cache_config_deepseek_v4 in H.
  apply bind_Ok in H as (g0 & Hg0%some_or_Ok & H). destruct (kv_cache_spec g0) as [|u0] eqn:Hu0; [done|].
  apply bind_Ok in H as (sizes & Hsz & H). apply bind_Ok in H as (bucketed & Hb & H).
  apply bind_Ok in H as (n & [Hn1 Hn2]%py_max_Ok & H). apply bind_Ok in H as (nb & (Hne & ->)%py_div_Ok & [= <-]).
  assert (Hperm : merge_sort Z.le sizes ≡ₚ sizes) by apply merge_sort_Permutation.
  destruct (page_sizes_nodup g0 u0 sizes) as [Hnd Hnn]; [done..|].
  assert (0 ≤ n).
  { apply list_elem_of_fmap in Hn1 as (l & -> & _). apply len_nonneg. }
  rewrite list_loops. set (slots := tuple_slots (Z.to_nat n) (merge_sort Z.le sizes)).
  match goal with |- context [concat ?x] => change (concat x) with slots end.
  split; cbn [kv_cache_groups kv_cache_tensors num_blocks fst snd]; [done|..].
  - intros Hpm. rewrite <-list_fmap_compose. unfold slots. etrans; [apply tuple_slots_perm|].
    + by rewrite Hperm.
    + by eapply buckets_fit.
    + apply mapM_Ok in Hb. clear -Hb. induction Hb as [|g b gs bs H _ IH]; [done|]. cbn.
      apply bucket_group_spec in H as [_ H]. by rewrite fmap_app, concat_app, H, IH.
  - intros t (ip & -> & _)%list_elem_of_fmap. cbn. apply Z.divide_factor_r.
  - intros Hok Ho Ha. rewrite no_override by done. rewrite <-list_fmap_compose.
    assert (Hz : Forall (Z.le 0) sizes).
    { apply Hnn. destruct groups; [done|]. injection Hg0 as ->. by apply Forall_cons in Hok as [? _]. }
    rewrite (py_sum_perm _ _ Hperm). set (nb := available / _).
    change (t_size ∘ _) with (λ ip : nat * Z, ip.2 * nb). unfold slots. rewrite tuple_slots_sum.
    rewrite (py_sum_perm _ _ Hperm) in Hne |- *. rewrite Z2Nat.id by done.
    pose proof (py_sum_nonneg _ Hz). assert (0 < py_sum sizes * n) by nia.
    assert (0 ≤ nb) by (apply Z.div_pos; lia). split; [done|]. split.
    { apply Forall_fmap, Forall_forall. intros ip Hip%elem_of_tuple_slots. cbn. rewrite Hperm in Hip.
      rewrite Forall_forall in Hz. specialize (Hz _ Hip). nia. } pose proof (Z.mul_div_le available (py_sum sizes * n) ltac:(lia)). unfold nb. lia.
Qed.

Lemma config_from_groups_ok groups available cfg :
  Forall names_match groups → NoDup (concat (layer_names <$> groups)) →
  get_kv_cache_config_from_groups element_size aligned c groups available = Ok cfg →
  tensors_ok (pages_match groups) (Forall (group_ok element_size aligned) groups) c groups available cfg.
Proof.
  intros Hnm Hnd H. unfold get_kv_cache_config_from_groups in H. destruct groups as [|g gs].
  { injection H as <-. split; cbn; [done..|by intros t ?%not_elem_of_nil|by intros; split_and!; [|constructor|]]. }
  apply bind_Ok in H as (layout & Hl & H). destruct layout as [g' u|u0 us|].
  - assert (gs = [] ∧ g' = g ∧ kv_cache_spec g = UniformSpec u) as (-> & -> & Hu).
    { unfold layout_of in Hl. destruct gs; repeat case_match; by simplify_eq. }
    apply bind_Ok in H as (total & Htot & H). apply bind_Ok in H as (nb & (Hne' & ->)%py_div_Ok & H).
    apply bind_Ok in H as (ts & Hts%mapM_Ok & [= <-]). apply Forall_cons in Hnm as [Hnm _]. cbn in Hnd. rewrite app_nil_r in Hnd.
    apply (per_layer_ok _ _ g u available total); try done. intros Hok. apply Forall_cons in Hok as [Hok _].
    unfold group_ok in Hok. by rewrite Hu in Hok.
  - apply bind_Ok in H as (nt & Hnt & [= <-]). by apply layer_tuples_ok.
  - apply bind_Ok in H as (n & Hn & H). apply bind_Ok in H as (p & Hp & H).
    apply bind_Ok in H as (_ & Hpos%assert_Ok & H). apply bind_Ok in H as (nb & Hnb & [= <-]).
    apply shared_pools_ok; [intros Hok; by eapply uniform_page_size_nonneg|done|lia|done].
Qed.
End tensors.

(* ===================================================================== *)
(** ** All workers                                                        *)
(* ===================================================================== *)

Lemma assoc_get_None {K V} `{EqDecision K} (k : K) (d : list (K * V)) : assoc_get k d = None → k ∉ d.*1.
Proof.
  induction d as [|[k' v] d IH]; cbn; [intros _; apply not_elem_of_nil|]. case_decide; [done|].
  intros Hd%IH. by rewrite not_elem_of_cons.
Qed.
Lemma merge_layers_nodup m layers m' : merge_layers m layers = Ok m' → NoDup m.*1 → NoDup m'.*1.
Proof.
  revert m. induction layers as [|[n s] layers IH]; intros m H Hm; cbn in H; [by injection H as <-|].
  destruct (assoc_get n m) as [s'|] eqn:E; [case_decide; [by eapply IH|done]|].
  eapply IH; [done|]. rewrite fmap_app. apply NoDup_app. split; [done|]. apply assoc_get_None in E.
  split; [|apply NoDup_singleton]. intros x Hx Hx'. apply list_elem_of_singleton in Hx'. by subst.
Qed.
Lemma merge_workers_nodup specs m merged :
  foldl (λ r layers, m ← r; merge_layers m layers) m specs = Ok merged →
  (∀ m0, m = Ok m0 → NoDup m0.*1) → NoDup merged.*1.
Proof.
  revert m. induction specs as [|layers specs IH]; intros m H Hm; cbn in H; [by apply Hm|].
  eapply IH; [done|]. intros m0 H0. apply bind_Ok in H0 as (m1 & -> & H0). eapply merge_layers_nodup; [done|by apply Hm].
Qed.

Lemma project_group_spec spec g g' :
  project_group spec g = Ok g' →
  layer_names g' = filter (λ n, n ∈ spec.*1) (layer_names g) ∧ names_match g' ∧
  isa_UniformType (kv_cache_spec g') = isa_UniformType (kv_cache_spec g) ∧
  (isa_UniformType (kv_cache_spec g) = false → kv_cache_spec g' = kv_cache_spec g).
Proof.
  unfold project_group. intros H. apply bind_Ok in H as (gsp & Hg & [= <-]). unfold names_match. cbn.
  split; [done|]. destruct (kv_cache_spec g) as [s|u]; [by injection Hg as <-|].
  destruct (no_groups _) eqn:E; [injection Hg as <-; split; [right; by destruct (filter _ _)|done]|].
  apply bind_Ok in Hg as (sp & Hsp%mapM_Ok & [= <-]). split; [|done]. left. cbn.
  rewrite <-(list_fmap_id (filter _ _)). revert Hsp. apply Forall2_fmap_eq. intros n ns H. ok_steps. by subst ns.
Qed.
Lemma project_spec groups spec gs :
  _project_kv_cache_groups_to_worker groups spec = Ok gs →
  concat (layer_names <$> gs) = filter (λ n, n ∈ spec.*1) (concat (layer_names <$> groups)) ∧
  Forall names_match gs ∧
  (Forall (λ g, isa_UniformType (kv_cache_spec g) = false) gs ↔
   Forall (λ g, isa_UniformType (kv_cache_spec g) = false) groups) ∧
  (Forall (λ g, isa_UniformType (kv_cache_spec g) = false) groups → kv_cache_spec <$> gs = kv_cache_spec <$> groups).
Proof.
  unfold _project_kv_cache_groups_to_worker. intros H%mapM_Ok.
  induction H as [|g g' groups gs (Hn & Hm & Hu & Hs)%project_group_spec _ (IHn & IHm & IHu & IHs)]; [done|].
  split; [cbn; by rewrite filter_app, <-Hn, IHn|]. split; [by constructor|].
  rewrite !Forall_cons, Hu, IHu. split; [done|]. intros [H1 H2]. cbn. f_equal; auto.
Qed.

Lemma py_sum_len (groups : list KVCacheGroupSpec) :
  py_sum ((λ g, len (layer_names g)) <$> groups) = len (concat (layer_names <$> groups)).
Proof. unfold py_sum. induction groups as [|g gs IH]; [done|]. cbn in *. by rewrite len_app, IH. Qed.

(** A worker whose groups count as many layers as it has holds them all. *)
Lemma worker_layers groups spec gs :
  NoDup (concat (layer_names <$> groups)) → NoDup spec.*1 →
  _project_kv_cache_groups_to_worker groups spec = Ok gs →
  py_sum ((λ g, len (layer_names g)) <$> gs) = len spec →
  NoDup (concat (layer_names <$> gs)) ∧ concat (layer_names <$> gs) ≡ₚ spec.*1.
Proof.
  intros Hnd Hs (Hn & _)%project_spec Hlen. rewrite py_sum_len in Hlen.
  assert (Hnd' : NoDup (concat (layer_names <$> gs))) by (rewrite Hn; by apply NoDup_filter).
  split; [done|]. apply submseteq_length_Permutation.
  - apply NoDup_submseteq; [done|]. intros n. rewrite Hn. by intros [? _]%list_elem_of_filter.
  - rewrite length_fmap. unfold len in Hlen. lia.
Qed.

Section workers.
Context (element_size : string → Z) (aligned : bool).

Lemma auto_fit_keeps_override c projected memory c' :
  _auto_fit_max_model_len element_size aligned c projected memory = Ok c' →
  num_gpu_blocks_override c' = num_gpu_blocks_override c.
Proof.
  unfold _auto_fit_max_model_len. intros H. case_match; [by injection H as <-|].
  apply bind_Ok in H as (_ & _ & H). apply bind_Ok in H as (r & _ & H). do 2 (case_match; [by simplify_eq|]).
  by injection H as <-.
Qed.

(** The memory a worker is planned against. *)
Definition planned_memory (c : PlanConfig) (groups : list KVCacheGroupSpec) (memory planned : Z) : Prop :=
  match num_gpu_blocks_override c with
  | None => planned = memory
  | Some override =>
      groups = [] ∨ ∃ b, _pool_bytes_per_block element_size aligned groups = Ok b ∧ planned = override * b
  end.
Lemma effective_memory_spec c projected memory planned :
  effective_memory element_size aligned c projected memory = Ok planned → length memory = length projected →
  length planned = length projected ∧
  ∀ i gs m p, projected !! i = Some gs → memory !! i = Some m → planned !! i = Some p → planned_memory c gs m p.
Proof.
  unfold effective_memory, planned_memory. intros H Hlen. destruct (num_gpu_blocks_override c) as [o|].
  - apply mapM_Ok in H. pose proof (Forall2_length _ _ _ H) as Hl. rewrite length_zip_with in Hl. split; [lia|].
    intros i gs m p Hg Hm Hp. destruct (Forall2_lookup_r _ _ _ _ _ H Hp) as (w & Hw & Hr).
    apply lookup_zip_with_Some in Hw as (gs' & m' & -> & Hg' & Hm'). simplify_eq. cbn [fst snd] in Hr.
    destruct gs; [by left|]. right. cbn [no_groups] in Hr. apply bind_Ok in Hr as (b & Hb & Hr).
    apply bind_Ok in Hr as (_ & _ & [= <-]). eauto.
  - injection H as <-. split; [done|]. intros. by simplify_eq.
Qed.

(** What [get_kv_cache_configs] did for the worker [i]. *)
Definition worker_run (c : PlanConfig) groups n (configs0 configs : list KVCacheConfig) i spec memory : Prop :=
  ∃ gs planned cfg0 cfg,
    _project_kv_cache_groups_to_worker groups spec = Ok gs ∧ planned_memory c gs memory planned ∧
    check_worker element_size aligned c (gs, planned) = Ok tt ∧
    configure_worker element_size aligned c (gs, spec, planned) = Ok cfg0 ∧ configs0 !! i = Some cfg0 ∧
    shrink_config element_size aligned c n cfg0 = Ok cfg ∧ configs !! i = Some cfg.

Lemma configs_steps c specs memory configs c' :
  length memory = length specs →
  get_kv_cache_configs element_size aligned c specs memory = Ok (configs, c') →
  ∃ groups n configs0,
    NoDup (concat (layer_names <$> groups)) ∧ num_gpu_blocks_override c' = num_gpu_blocks_override c ∧
    length configs0 = length specs ∧ length configs = length specs ∧
    py_min (num_blocks <$> configs0) = Ok n ∧
    ∀ i spec m, specs !! i = Some spec → memory !! i = Some m → worker_run c' groups n configs0 configs i spec m.
Proof.
  intros Hlen H. unfold get_kv_cache_configs in H. apply bind_Ok in H as (merged & Hmerged & H).
  apply bind_Ok in H as (groups & [Hsub _]%groups_names & H). apply bind_Ok in H as (projected & Hproj%mapM_Ok & H).
  apply bind_Ok in H as (planned & Hpl & H). apply bind_Ok in H as (c1 & Hc1 & H).
  apply bind_Ok in H as (us & Hcheck%mapM_Ok & H). apply bind_Ok in H as (configs0 & Hconf%mapM_Ok & H).
  apply bind_Ok in H as (n & Hn & H). apply bind_Ok in H as (shrunk & Hshrink%mapM_Ok & [= -> ->]).
  assert (Ho : num_gpu_blocks_override c' = num_gpu_blocks_override c).
  { case_match; [by eapply auto_fit_keeps_override|by injection Hc1 as ->]. }
  pose proof (Forall2_length _ _ _ Hproj) as Hlp.
  destruct (effective_memory_spec _ _ _ _ Hpl ltac:(lia)) as [Hlpl Hpm].
  pose proof (Forall2_length _ _ _ Hconf) as Hlc. rewrite !length_zip_with in Hlc.
  pose proof (Forall2_length _ _ _ Hshrink) as Hls.
  exists groups, n, configs0. split; [|split; [done|split; [lia|split; [lia|split; [done|]]]]].
  { assert (Hm : NoDup merged.*1) by (eapply merge_workers_nodup; [done|]; intros m0 [= <-]; constructor).
    apply submseteq_Permutation in Hsub as (k & Hk). rewrite Hk in Hm. by apply NoDup_app in Hm as [? _]. }
  intros i spec m Hs Hm. destruct (Forall2_lookup_l _ _ _ _ _ Hproj Hs) as (gs & Hgs & Hp).
  destruct (lookup_lt_is_Some_2 planned i) as (p & Hpi); [apply lookup_lt_Some in Hgs; lia|].
  destruct (Forall2_lookup_l _ _ _ i ((gs, spec), p) Hconf) as (cfg0 & Hc0 & Hcf).
  { apply lookup_zip_with_Some. eexists _, _. split; [done|]. split; [|done]. apply lookup_zip_with_Some. eauto. }
  destruct (Forall2_lookup_l _ _ _ i (gs, p) Hcheck) as (u & _ & Hck).
  { apply lookup_zip_with_Some. eauto. }
  destruct (Forall2_lookup_l _ _ _ _ _ Hshrink Hc0) as (cfg & Hcfg & Hsh). destruct u.
  exists gs, p, cfg0, cfg. repeat split; try done. specialize (Hpm i gs m p Hgs Hm Hpi).
  unfold planned_memory in *. by rewrite Ho.
Qed.

Lemma shrink_spec c n cfg0 cfg :
  shrink_config element_size aligned c n cfg0 = Ok cfg →
  num_blocks cfg = n ∧ kv_cache_groups cfg = kv_cache_groups cfg0 ∧
  shared_by <$> kv_cache_tensors cfg = shared_by <$> kv_cache_tensors cfg0 ∧
  (∀ t, t ∈ kv_cache_tensors cfg → (n | t_size t)) ∧
  (0 ≤ num_blocks cfg0 → n ≤ num_blocks cfg0 → Forall (λ t, 0 ≤ t_size t) (kv_cache_tensors cfg0) →
   py_sum (t_size <$> kv_cache_tensors cfg) ≤ py_sum (t_size <$> kv_cache_tensors cfg0)).
Proof.
  unfold shrink_config. intros H. apply bind_Ok in H as (ts & Hts%mapM_Ok & H).
  assert (Hcfg : cfg = mkKVCacheConfig n ts (kv_cache_groups cfg0)).
  { case_match; [by injection H as <-|]. by apply bind_Ok in H as (_ & _ & [= <-]). }
  subst cfg. cbn [num_blocks kv_cache_groups kv_cache_tensors]. split; [done|]. split; [done|]. clear H.
  assert (Hone : ∀ t t', shrink_tensor (num_blocks cfg0) n t = Ok t' →
            shared_by t' = shared_by t ∧ num_blocks cfg0 ≠ 0 ∧ t_size t' = t_size t / num_blocks cfg0 * n).
  { unfold shrink_tensor. intros t t' H. ok_steps. by subst t'. }
  split; [|split].
  - symmetry. revert Hts. apply Forall2_fmap_eq. by intros t t' [-> _]%Hone.
  - intros t (i & Hi)%list_elem_of_lookup. destruct (Forall2_lookup_r _ _ _ _ _ Hts Hi) as (t0 & _ & (_ & _ & ->)%Hone).
    apply Z.divide_factor_r.
  - intros H0 Hn Hnn. apply py_sum_mono, Forall2_fmap. clear -Hts Hone H0 Hn Hnn.
    induction Hts as [|t t' ts0 ts (_ & Hne & Hsz)%Hone _ IH]; [constructor|].
    apply Forall_cons in Hnn as [Ht Hnn]. constructor; [|by apply IH]. rewrite Hsz.
    pose proof (Z.mul_div_le (t_size t) (num_blocks cfg0) ltac:(lia)).
    pose proof (Z.div_pos (t_size t) (num_blocks cfg0) Ht ltac:(lia)). nia.
Qed.

Lemma worker_tensors c groups n configs0 configs i spec m :
  NoDup (concat (layer_names <$> groups)) → NoDup spec.*1 → py_min (num_blocks <$> configs0) = Ok n →
  worker_run c groups n configs0 configs i spec m →
  ∃ cfg, configs !! i = Some cfg ∧ num_blocks cfg = n ∧
    concat (layer_names <$> kv_cache_groups cfg) ≡ₚ spec.*1 ∧
    (pages_match element_size aligned (kv_cache_groups cfg) →
     concat (shared_by <$> kv_cache_tensors cfg) ≡ₚ spec.*1) ∧
    (∀ t, t ∈ kv_cache_tensors cfg → (n | t_size t)) ∧
    (num_gpu_blocks_override c = None → Forall (group_ok element_size aligned) (kv_cache_groups cfg) → 0 ≤ m →
     py_sum (t_size <$> kv_cache_tensors cfg) ≤ m).
Proof.
  intros Hnd Hs [_ Hmin]%py_min_Ok (gs & p & cfg0 & cfg & Hproj & Hpl & _ & Hconf & Hc0 & Hsh & Hcfg).
  exists cfg. split; [done|]. apply shrink_spec in Hsh as (-> & Hg & Hsb & Hdiv & Hsum). split; [done|].
  unfold configure_worker in Hconf. apply bind_Ok in Hconf as (_ & Hlen%assert_Ok%Z.eqb_eq & Hcfg0).
  destruct (worker_layers _ _ _ Hnd Hs Hproj Hlen) as [Hnd' Hperm].
  apply project_spec in Hproj as (_ & Hnm & _). apply config_from_groups_ok in Hcfg0 as [Hg0 Hl _ Hfit]; [|done..].
  rewrite Hg, Hg0, Hsb. split; [done|]. split; [by intros Hp; rewrite Hl|]. split; [done|].
  intros Ho Hok Hm. unfold planned_memory in Hpl. rewrite Ho in Hpl. subst p.
  destruct (Hfit Hok Ho Hm) as (H0 & Hnn & Hle). etrans; [|apply Hle]. apply Hsum; [done| |done].
  apply Hmin. by eapply list_elem_of_fmap_2, list_elem_of_lookup_2.
Qed.
End workers.

(** C7.  When the KV cache is planned for all workers, every worker gets the same
    number of blocks, as the scheduler asserts; the groups of a worker hold
    exactly its layers; and every tensor consists of whole blocks.  Under
    conditions: the tensors hold each layer of the worker once if its layers have
    the page sizes the layout presupposes ([pages_match]: always but for the
    DeepseekV4 layout, which a pipeline stage can break); and the tensors of a
    worker take no more than its memory if the number of blocks is not
    overridden and every layer has a positive block size and no negative page
    size ([group_ok]). *)
Theorem workers_get_consistent_configs element_size aligned c specs memory configs c' :
  Forall (λ d : list (string * KVCacheSpec), NoDup d.*1) specs → length memory = length specs →
  get_kv_cache_configs element_size aligned c specs memory = Ok (configs, c') →
  length configs = length specs ∧ ∃ n,
  ∀ i spec m, specs !! i = Some spec → memory !! i = Some m →
  ∃ cfg, configs !! i = Some cfg ∧ num_blocks cfg = n ∧
    concat (layer_names <$> kv_cache_groups cfg) ≡ₚ spec.*1 ∧
    (pages_match element_size aligned (kv_cache_groups cfg) →
     concat (shared_by <$> kv_cache_tensors cfg) ≡ₚ spec.*1) ∧
    (∀ t, t ∈ kv_cache_tensors cfg → (n | t_size t)) ∧
    (num_gpu_blocks_override c = None → Forall (group_ok element_size aligned) (kv_cache_groups cfg) → 0 ≤ m →
     py_sum (t_size <$> kv_cache_tensors cfg) ≤ m).
Proof.
  intros Hnd Hlen (groups & n & configs0 & Hg & Ho & _ & Hl & Hmin & Hrun)%configs_steps; [|done].
  split; [done|]. exists n. intros i spec m Hs Hm. rewrite <-Ho.
  eapply worker_tensors; [done| |done|by apply Hrun]. rewrite Forall_lookup in Hnd. eauto.
Qed.

(* ===================================================================== *)
(** ** One request of the maximal length fits                             *)
(* ===================================================================== *)

(** The blocks that a request of the maximal length may hold in all groups. *)
Definition blocks_per_request (element_size : string → Z) (aligned : bool) (c : VllmConfig) (specs : list GroupSpec) :
    res Z :=
  p ← get_uniform_page_size element_size aligned specs;
  blocks ← mapM (λ s, m ← group_max_memory element_size aligned c s; py_cdiv m p) specs;
  Ok (py_sum blocks).

Section request.
Context (element_size : string → Z) (aligned : bool) (c : PlanConfig).
Abbreviation plain groups := (Forall (λ g, isa_UniformType (kv_cache_spec g) = false) groups).

Lemma plain_layout groups : plain groups → groups ≠ [] → layout_of groups = Ok SharedPools.
Proof.
  intros Hp Hne. destruct groups as [|g gs]; [done|]. apply Forall_cons in Hp as [Hg _]. unfold layout_of, uniform_specs.
  cbn. destruct (kv_cache_spec g) eqn:E; [|done]. by destruct gs.
Qed.

Lemma mapM_fmap_res {A B C} (f : B → res C) (g : A → B) l : mapM f (g <$> l) = mapM (λ x, f (g x)) l.
Proof. induction l as [|x l IH]; [done|]. cbn. by rewrite IH. Qed.

Lemma group_ok_specs groups groups' :
  kv_cache_spec <$> groups = kv_cache_spec <$> groups' →
  Forall (group_ok element_size aligned) groups ↔ Forall (group_ok element_size aligned) groups'.
Proof.
  pose (ok s := match s with
                | LayerSpec s => spec_ok element_size aligned s
                | UniformSpec u => Forall (λ ns, spec_ok element_size aligned ns.2) (kv_cache_specs u)
                end).
  assert (H : ∀ gs, Forall (group_ok element_size aligned) gs ↔ Forall ok (kv_cache_spec <$> gs))
    by (intros gs; by rewrite Forall_fmap).
  intros E. by rewrite !H, E.
Qed.
Lemma config_groups groups available cfg :
  get_kv_cache_config_from_groups element_size aligned c groups available = Ok cfg → kv_cache_groups cfg = groups.
Proof.
  unfold get_kv_cache_config_from_groups. intros H. destruct groups as [|g gs]; [by injection H as <-|].
  apply bind_Ok in H as (l & _ & H). destruct l; ok_steps; by subst cfg.
Qed.

Lemma worker_holds_request gs spec planned memory cfg0 b :
  plain gs → Forall (group_ok element_size aligned) gs → gs ≠ [] →
  planned_memory element_size aligned c gs memory planned →
  check_worker element_size aligned c (gs, planned) = Ok tt →
  configure_worker element_size aligned c (gs, spec, planned) = Ok cfg0 →
  blocks_per_request element_size aligned (sizes_config c) (kv_cache_spec <$> gs) = Ok b →
  b ≤ num_blocks cfg0.
Proof.
  intros Hplain Hok Hne Hpl Hck Hcf Hb. unfold blocks_per_request in Hb.
  apply bind_Ok in Hb as (p & Hp & Hb). apply bind_Ok in Hb as (bl & Hbl & [= <-]). rewrite mapM_fmap_res in Hbl.
  unfold configure_worker in Hcf. apply bind_Ok in Hcf as (_ & _ & Hcf).
  unfold get_kv_cache_config_from_groups in Hcf. destruct gs as [|g gs]; [done|].
  rewrite plain_layout in Hcf by done. cbn [mbind res_bind] in Hcf. apply bind_Ok in Hcf as (n & Hn & Hcf).
  rewrite Hp in Hcf. cbn [mbind res_bind] in Hcf. apply bind_Ok in Hcf as (_ & Hn0%assert_Ok%Z.ltb_lt & Hcf).
  apply bind_Ok in Hcf as (nb & Hnb & [= <-]). cbn [num_blocks].
  assert (Hneed : n * p * py_sum bl ≤ planned).
  { unfold check_worker, _check_enough_kv_cache_memory in Hck. cbn [no_groups fst snd] in Hck. case_match; [done|].
    apply bind_Ok in Hck as (m & Hm & Hck). destruct (Z.ltb_spec planned m); [by apply bind_Ok in Hck as (? & _ & ?)|].
    unfold _max_memory_usage_bytes_from_groups in Hm. rewrite plain_layout in Hm by done.
    cbn [mbind res_bind] in Hm. rewrite Hn, Hp in Hm. cbn [mbind res_bind] in Hm. rewrite Hbl in Hm. by injection Hm as <-. }
  assert (Hp0 : 0 ≤ p) by (by eapply uniform_page_size_nonneg).
  unfold get_num_blocks in Hnb. apply bind_Ok in Hnb as (q & (Hpne & ->)%py_div_Ok & Hnb).
  apply bind_Ok in Hnb as (q' & (_ & ->)%py_div_Ok & [= <-]). unfold planned_memory in Hpl. unfold may_override_num_blocks.
  destruct (num_gpu_blocks_override c) as [o|]; cbn [default].
  - destruct Hpl as [|(x & Hx & ->)]; [done|]. unfold _pool_bytes_per_block in Hx.
    rewrite plain_layout in Hx by done. cbn [mbind res_bind] in Hx. rewrite Hn, Hp in Hx. injection Hx as <-.
    apply Z.mul_le_mono_pos_l with (p * n); [nia|]. unfold id. lia.
  - etrans; [|apply Z.le_max_l]. rewrite Z.div_div by lia. apply Z.div_le_lower_bound; nia.
Qed.
End request.

(** C8.  Where every group has one spec for its layers (so neither the layout of
    one UniformType group nor the DeepseekV4 layout), with positive block sizes
    and no negative page sizes, the plan admits every request the model allows:
    after the KV cache was planned (with the model length possibly reduced), a
    request of the maximal length needs no more blocks, over all the groups,
    than each worker has, with or without an override of the number of blocks. *)
Theorem planned_cache_holds_one_request element_size aligned c specs memory configs c' i cfg b :
  length memory = length specs →
  get_kv_cache_configs element_size aligned c specs memory = Ok (configs, c') → configs !! i = Some cfg →
  kv_cache_groups cfg ≠ [] →
  Forall (λ g, isa_UniformType (kv_cache_spec g) = false) (kv_cache_groups cfg) →
  Forall (group_ok element_size aligned) (kv_cache_groups cfg) →
  blocks_per_request element_size aligned (sizes_config c') (kv_cache_spec <$> kv_cache_groups cfg) = Ok b →
  b ≤ num_blocks cfg.
Proof.
  intros Hlen (groups & n & configs0 & _ & _ & Hl0 & Hl & [Hmin _]%py_min_Ok & Hrun)%configs_steps Hi Hne Hplain Hok Hb; [|done].
  assert (Hworker : ∀ j, (j < length specs)%nat → ∃ spec m, worker_run element_size aligned c' groups n configs0 configs j spec m).
  { intros j Hj. destruct (lookup_lt_is_Some_2 specs j Hj) as (spec & Hs).
    destruct (lookup_lt_is_Some_2 memory j) as (m & Hm); [lia|]. eauto. }
  apply list_elem_of_fmap in Hmin as (cfgj & -> & (j & Hj)%list_elem_of_lookup).
  destruct (Hworker i) as (si & mi & gi & pi & ci0 & ci & Hpi & _ & _ & Hcf & Hci0 & Hsh & Hci); [apply lookup_lt_Some in Hi; lia|].
  destruct (Hworker j) as (sj & mj & gj & pj & cj0 & cj & Hpj & Hplj & Hckj & Hcfj & Hcj0 & _ & _); [apply lookup_lt_Some in Hj; lia|].
  simplify_eq. destruct (shrink_spec _ _ _ _ _ _ Hsh) as (-> & Hg & _). rewrite Hg in *.
  assert (Hgi : kv_cache_groups ci0 = gi).
  { unfold configure_worker in Hcf. apply bind_Ok in Hcf as (_ & _ & Hcf). by eapply config_groups. }
  rewrite Hgi in *. apply project_spec in Hpi as (_ & _ & Hui & Hsi). apply project_spec in Hpj as (_ & _ & Huj & Hsj).
  pose proof (proj1 Hui Hplain) as Hglob. specialize (Hsi Hglob). specialize (Hsj Hglob).
  rewrite Hsi, <-Hsj in Hb. eapply worker_holds_request; [by apply Huj| | |done..].
  - rewrite (group_ok_specs _ _ gj gi); [done|]. by rewrite Hsi, Hsj.
  - intros ->. cbn in Hsj. by rewrite <-Hsj in Hsi; apply fmap_nil_inv in Hsi.
Qed.

(* ===================================================================== *)
(** ** Grouping, padding and block sizes                                  *)
(* ===================================================================== *)

(** C10.  Splitting the layers of a model repeats none of them: when
    [get_kv_cache_groups] returns, no layer is in two groups.  It loses none
    unless the DeepseekV4 grouping is taken and meets a layer that is not an MLA
    one ([no_layer_is_left_out] is false): then that layer is in no group. *)
Theorem groups_partition_layers element_size aligned c specs groups :
  NoDup specs.*1 → get_kv_cache_groups element_size aligned c specs = Ok groups →
  NoDup (concat (layer_names <$> groups)) ∧
  (no_layer_is_left_out c specs = true → concat (layer_names <$> groups) ≡ₚ specs.*1).
Proof.
  intros Hnd [Hsub Hall]%groups_names. split; [|done].
  apply submseteq_Permutation in Hsub as (k & Hk). rewrite Hk in Hnd. by apply NoDup_app in Hnd as [? _].
Qed.

(** C11.  For layers of several types with one page size, the grouping returns
    whenever every layer's spec is acceptable to [merge]: each group has between
    one layer and the group size, all of one and the same spec, whose merge is
    the group's; the groups hold every layer once; and the group size is less
    than one and a half times the number of layers of any type, which bounds the
    padding. *)
Theorem hybrid_groups_share_one_spec specs :
  NoDup specs.*1 → specs ≠ [] → (∀ n s, (n, s) ∈ specs → ∃ m, merge [s] = Ok m) →
  ∃ groups gs, _get_kv_cache_groups_uniform_page_size specs = Ok groups ∧
    concat (layer_names <$> groups) ≡ₚ specs.*1 ∧ Forall (group_of specs) groups ∧
    (∀ g, g ∈ groups → 1 ≤ len (layer_names g) ≤ gs) ∧
    ∀ n s, (n, s) ∈ specs → 2 * gs < 3 * type_size specs s.
Proof. apply page_size_groups_spec. Qed.

Lemma best_chunk_spec values ds d :
  let r := best_chunk values d (Some (padding values d)) ds in
  r ∈ d :: ds ∧ ∀ x, x ∈ d :: ds → padding values r ≤ padding values x ∧ (padding values x = padding values r → x ≤ r).
Proof.
  revert d. induction ds as [|y ds IH]; intros d; cbn [best_chunk].
  { split; [left|]. intros x ->%list_elem_of_singleton. split; [done|lia]. }
  cbv zeta.
  destruct ((padding values y <? padding values d) || (padding values y =? padding values d) && (d <? y)) eqn:Hb.
  - destruct (IH y) as [Hin Hbest]. split; [by right|].
    assert (Hy : padding values y ≤ padding values d ∧ (padding values y = padding values d → d ≤ y)) by (bool_to_prop; lia).
    destruct (Hbest y ltac:(left)) as [H1 H2]. intros x [->|Hx]%elem_of_cons; [|by apply Hbest].
    split; [lia|]. intros E. assert (padding values y = padding values d) as Ey by lia. lia.
  - destruct (IH d) as [Hin Hbest]. split; [rewrite !elem_of_cons in *; tauto|].
    assert (Hy : padding values d ≤ padding values y ∧ (padding values y = padding values d → y ≤ d)) by (bool_to_prop; lia).
    destruct (Hbest d ltac:(left)) as [H1 H2]. intros x [->|[->|Hx]%elem_of_cons]%elem_of_cons.
    + by apply Hbest; left.
    + split; [lia|]. intros E. assert (padding values y = padding values d) as Ey by lia. lia.
    + apply Hbest. by right.
Qed.

(** The padding of a value is the distance to the next multiple. *)
Lemma padding_round_up x d : 0 < d → (d - x mod d) mod d = round_up x d - x.
Proof.
  intros Hd. destruct (round_up_spec x d Hd) as ((k & Hk) & Hr). symmetry.
  apply Z.mod_unique_pos with (1 + x / d - k); [lia|]. pose proof (Z.div_mod x d ltac:(lia)). lia.
Qed.

(** [_approximate_gcd] returns for every non-empty list of positive values,
    and its result is the best chunk size as documented: among the candidates
    from the lower bound to the largest value it has the least total padding up
    to a multiple, and it is the largest of those with that padding. *)
Theorem approximate_gcd_minimises_padding values lower_bound m :
  py_max values = Ok m → Forall (Z.lt 0) values →
  let lo := Z.max 1 (default 1 lower_bound) in
  let total d := py_sum ((λ x, round_up x d - x) <$> values) in
  ∃ d, _approximate_gcd values lower_bound = Ok d ∧ lo ≤ d ∧
    ∀ d', lo ≤ d' ≤ m → total d ≤ total d' ∧ (total d' = total d → d' ≤ d).
Proof.
  intros Hm Hpos lo total. unfold _approximate_gcd.
  assert (Hpad : ∀ d, 0 < d → padding values d = total d).
  { intros d Hd. unfold padding, total. f_equal. apply list_fmap_ext. intros _ x _. by apply padding_round_up. }
  destruct values as [|v values]; [done|].
  assert (Hex : existsb (λ x, x <=? 0) (v :: values) = false).
  { apply Bool.not_true_iff_false. intros (x & Hx & H0)%existsb_exists. apply list_elem_of_In in Hx.
    rewrite Forall_forall in Hpos. specialize (Hpos x Hx). lia. }
  rewrite Hex, Hm. cbn [mbind res_bind]. fold lo. destruct (Z.ltb_spec m lo) as [Hlt|Hge].
  { exists lo. split; [done|]. split; [lia|]. intros d' Hd'. lia. }
  eexists. split; [done|]. replace (m + 1 - lo) with (Z.succ (m - lo)) by lia.
  rewrite seqZ_cons by lia. cbn [best_chunk]. cbv zeta.
  destruct (best_chunk_spec (v :: values) (seqZ (Z.succ lo) (Z.pred (Z.succ (m - lo)))) lo) as [Hin Hbest].
  assert (Hall : ∀ x, x ∈ lo :: seqZ (Z.succ lo) (Z.pred (Z.succ (m - lo))) ↔ lo ≤ x ≤ m).
  { intros x. rewrite elem_of_cons, elem_of_seqZ. lia. }
  apply Hall in Hin. split; [lia|]. intros d' Hd'. rewrite <-!Hpad by lia. apply Hbest. by apply Hall.
Qed.

(** The block sizes the scheduler works with fit all groups: with several
    groups, the scheduler's block size is a multiple of the block size of each,
    and of the size at which blocks are hashed, which itself divides the block
    size of every group unless hashing is left at the scheduler's block size. *)
Theorem resolved_block_sizes_divide cfg c s h :
  resolve_kv_cache_block_sizes cfg c = Ok (s, h) →
  (h | s) ∧
  (1 < len (kv_cache_groups cfg) →
   ∀ g, g ∈ kv_cache_groups cfg →
     (group_block_size (kv_cache_spec g) | s) ∧ (h = s ∨ (h | group_block_size (kv_cache_spec g)))).
Proof.
  unfold resolve_kv_cache_block_sizes. set (sizes := (λ g, group_block_size (kv_cache_spec g)) <$> kv_cache_groups cfg).
  intros H. destruct (Z.leb_spec (len (kv_cache_groups cfg)) 1) as [Hle|Hgt].
  { injection H as <- <-. split; [done|lia]. }
  assert (Hlcm : ∀ x l, x ∈ l → (x | foldr Z.lcm 1 l)).
  { intros x l. induction l as [|y l IH]; [by intros ?%not_elem_of_nil|]. cbn.
    intros [->|Hx]%elem_of_cons; [apply Z.divide_lcm_l|]. etrans; [by apply IH|apply Z.divide_lcm_r]. }
  assert (Hs : ∀ g, g ∈ kv_cache_groups cfg → group_block_size (kv_cache_spec g) ∈ sizes).
  { intros g Hg. by apply (list_elem_of_fmap_2 (λ g, group_block_size (kv_cache_spec g))). }
  case_match; [done|]. case_match; [injection H as <- <-; split; [done|]; auto|].
  case_match; [injection H as <- <-; split; [done|]; auto|]. set (h0 := match requested_hash_block_size c with Some r => r | None => _ end) in H.
  destruct (Z.eqb_spec h0 0) as [|Hh0]; [done|]. destruct (existsb _ sizes) eqn:Hex; [done|]. injection H as <- <-.
  assert (Hdiv : ∀ x, x ∈ sizes → (h0 | x)).
  { intros x Hx. apply Z.mod_divide; [done|]. apply Bool.not_true_iff_false in Hex.
    destruct (Z.eqb_spec (x mod h0) 0) as [|Hne]; [done|]. destruct Hex. apply existsb_exists. exists x.
    split; [by apply list_elem_of_In|]. apply negb_true_iff. by apply Z.eqb_neq. }
  split; [|auto]. destruct sizes as [|x l] eqn:E; [subst sizes; apply fmap_nil_inv in E; rewrite E in Hgt; by rewrite len_nil in Hgt|].
  etrans; [apply (Hdiv x); left|]. apply Hlcm. left.
Qed.

(** Unifying the page sizes keeps the layers and their order and leaves them
    with one page size; a layer that is changed has its block size multiplied by
    the ratio of the page sizes, so that the bytes per token stay the same. *)
Theorem unified_layers_have_one_page_size element_size aligned specs specs' :
  unify_kv_cache_spec_page_size element_size aligned specs = Ok specs' →
  ∃ p, Forall2 (λ ns ns', ns'.1 = ns.1 ∧ page_size_bytes element_size aligned ns'.2 = Ok p ∧
        ∃ q, page_size_bytes element_size aligned ns.2 = Ok q ∧
          (ns'.2 = ns.2 ∨ ∃ k, p = q * k ∧ replace_block_size element_size ns.2 (block_size ns.2 * k) = Ok ns'.2))
      specs specs'.
Proof.
  unfold unify_kv_cache_spec_page_size. intros H. apply bind_Ok in H as (sizes & Hs%mapM_Ok & H).
  destruct (Z.leb_spec (len (remove_dups sizes)) 1) as [Hle|Hgt].
  - injection H as <-. destruct (remove_dups sizes) as [|p [|]] eqn:E; rewrite ?len_cons, ?len_nil in Hle.
    3: pose proof (len_nonneg l); lia.
    + exists 0. destruct sizes as [|x sizes]; [by apply Forall2_nil_inv_r in Hs as ->|].
      exfalso. apply (not_elem_of_nil x). rewrite <-E. apply elem_of_remove_dups. left.
    + exists p. assert (Hp : ∀ q, q ∈ sizes → q = p).
      { intros q Hq. apply elem_of_remove_dups in Hq. rewrite E in Hq. by apply list_elem_of_singleton in Hq. }
      clear E Hle. induction Hs as [|ns q l sizes Hq _ IH]; constructor.
      * rewrite Hq, (Hp q) by left. split; [done|]. split; [done|]. exists p. auto.
      * apply IH. intros x Hx. apply Hp. by right.
  - apply bind_Ok in H as (p & _ & H%mapM_Ok). exists p. eapply Forall2_impl; [apply H|]. cbn. intros [n s] ns' Hns.
    apply bind_Ok in Hns as (s' & Hu & [= <-]). cbn in *. split; [done|]. unfold unify_layer in Hu.
    apply bind_Ok in Hu as (q & Hq & Hu). rewrite Hq. destruct (Z.eqb_spec q p) as [->|Hne].
    { injection Hu as <-. split; [done|]. eauto. }
    apply bind_Ok in Hu as (r & (Hq0 & ->)%py_mod_Ok & Hu). case_match eqn:Hr; [done|].
    apply bind_Ok in Hu as (new & Hnew & Hu). apply bind_Ok in Hu as (p' & Hp' & Hu).
    apply bind_Ok in Hu as (_ & Hpp%assert_Ok%Z.eqb_eq & [= <-]). subst p'. split; [done|]. exists q. split; [done|]. right.
    exists (p / q). split; [|done]. bool_to_prop. pose proof (Z.div_mod p q Hq0). lia.
Qed.

(* ===================================================================== *)
(** ** A model on two pipeline stages                                     *)
(* ===================================================================== *)

Definition demo_element_size (dtype : string) : Z :=
  if bool_decide (dtype = "torch.float32"%string) then 4
  else if bool_decide (dtype = "torch.int8"%string) then 1 else 2.
Definition demo_full : KVCacheSpec := FullAttentionSpec (test_attention 16) 128 None None.
Definition demo_window : KVCacheSpec := SlidingWindowSpec (test_attention 16) 1024 128.
(** A length of 8192 to be fitted, as [max_model_len=-1] asks for. *)
Definition demo_config : PlanConfig :=
  mkPlanConfig (mkVllmConfig 8192 1 1 2048 0 "none") (-1) 16 true None None false false false.
Definition demo_stage0 : list (string * KVCacheSpec) :=
  [("full.0", demo_full); ("sw.0", demo_window); ("sw.1", demo_window)]%string.
Definition demo_stage1 : list (string * KVCacheSpec) :=
  [("full.1", demo_full); ("sw.2", demo_window); ("sw.3", demo_window)]%string.
Definition demo_memory : list Z := [300000000; 20000000].
Definition demo_plan : list KVCacheConfig * PlanConfig :=
  match get_kv_cache_configs demo_element_size false demo_config [demo_stage0; demo_stage1] demo_memory with
  | Ok r => r
  | Raise _ => ([], demo_config)
  end.
Definition demo_group (s : KVCacheSpec) (n : string) : KVCacheGroupSpec := mkKVCacheGroupSpec [n] (LayerSpec s) false.
Definition demo_projected : list (list KVCacheGroupSpec) :=
  [[demo_group demo_full "full.0"; demo_group demo_window "sw.0"; demo_group demo_window "sw.1"];
   [demo_group demo_full "full.1"; demo_group demo_window "sw.2"; demo_group demo_window "sw.3"]]%string.

Lemma demo_group_ok s n :
  s = demo_full ∨ s = demo_window → group_ok demo_element_size false (demo_group s n).
Proof. intros [-> | ->]; (split; [reflexivity|]); intros p Hp; vm_compute in Hp; injection Hp as <-; lia. Qed.
Lemma demo_workers_ok : Forall (worker_ok demo_element_size false (sizes_config demo_config)) demo_projected.
Proof.
  repeat apply Forall_cons_2; [..|by apply Forall_nil_2]; (split; [|eexists; vm_compute; reflexivity]);
    repeat apply Forall_cons_2; try apply Forall_nil_2; apply demo_group_ok; auto.
Qed.
Lemma demo_plan_eq :
  get_kv_cache_configs demo_element_size false demo_config [demo_stage0; demo_stage1] demo_memory = Ok demo_plan.
Proof. vm_compute. reflexivity. Qed.

Lemma auto_fit_finds_the_longest_model_witness :
  _auto_fit_max_model_len demo_element_size false demo_config demo_projected demo_memory
    = Ok (with_max_model_len demo_config 1616) ∧
  ((∃ n, 1 ≤ n ≤ 8192 ∧
     fits_all demo_element_size false (sizes_config demo_config) (zip demo_projected demo_memory) n ∧
     _auto_fit_max_model_len demo_element_size false demo_config demo_projected demo_memory
       = Ok (with_max_model_len demo_config n) ∧
     ∀ n', n < n' ≤ 8192 →
       ¬ fits_all demo_element_size false (sizes_config demo_config) (zip demo_projected demo_memory) n') ∨
   ((∀ n, 1 ≤ n ≤ 8192 →
       ¬ fits_all demo_element_size false (sizes_config demo_config) (zip demo_projected demo_memory) n) ∧
    _auto_fit_max_model_len demo_element_size false demo_config demo_projected demo_memory = Raise ValueError)).
Proof.
  split; [vm_compute; reflexivity|].
  apply (auto_fit_finds_the_longest_model demo_element_size false demo_config demo_projected demo_memory);
    [vm_compute; discriminate|reflexivity|exact demo_workers_ok].
Defined.

Lemma demo_nodup (specs : list (list (string * KVCacheSpec))) :
  forallb (λ d, bool_decide (NoDup d.*1)) specs = true → Forall (λ d : list (string * KVCacheSpec), NoDup d.*1) specs.
Proof. intros H. apply Forall_forall. intros d Hd. by eapply bool_decide_eq_true, (forallb_In _ _ _ H). Qed.

Lemma workers_get_consistent_configs_witness :
  length demo_plan.1 = 2%nat ∧ ∃ n cfg, demo_plan.1 !! 1%nat = Some cfg ∧ num_blocks cfg = n ∧
    concat (layer_names <$> kv_cache_groups cfg) ≡ₚ demo_stage1.*1.
Proof.
  destruct (workers_get_consistent_configs demo_element_size false demo_config [demo_stage0; demo_stage1] demo_memory
              demo_plan.1 demo_plan.2) as (Hl & n & H);
    [apply demo_nodup; vm_compute; reflexivity|reflexivity|rewrite demo_plan_eq; by destruct demo_plan|].
  split; [exact Hl|]. destruct (H 1%nat demo_stage1 20000000 eq_refl eq_refl) as (cfg & H1 & H2 & H3 & _).
  exists n, cfg. auto.
Defined.

Lemma planned_cache_holds_one_request_witness :
  match demo_plan.1 with
  | cfg :: _ =>
      blocks_per_request demo_element_size false (sizes_config demo_plan.2) (kv_cache_spec <$> kv_cache_groups cfg) = Ok 305
      ∧ 305 ≤ num_blocks cfg
  | [] => False
  end.
Proof.
  destruct (demo_plan.1) as [|cfg cfgs] eqn:E; [vm_compute in E; discriminate|].
  assert (Hg : kv_cache_groups cfg = [demo_group demo_full "full.0"; demo_group demo_window "sw.0";
                                      demo_group demo_window "sw.1"]%string).
  { vm_compute in E. injection E as <- _. vm_compute. reflexivity. }
  assert (Hb : blocks_per_request demo_element_size false (sizes_config demo_plan.2)
                 (kv_cache_spec <$> kv_cache_groups cfg) = Ok 305) by (rewrite Hg; vm_compute; reflexivity).
  split; [exact Hb|].
  apply (planned_cache_holds_one_request demo_element_size false demo_config [demo_stage0; demo_stage1] demo_memory
           demo_plan.1 demo_plan.2 0 cfg 305);
    [reflexivity|rewrite demo_plan_eq; by destruct demo_plan|by rewrite E|by rewrite Hg| | |exact Hb]; rewrite Hg.
  - repeat constructor.
  - repeat apply Forall_cons_2; [by apply demo_group_ok; auto..|apply Forall_nil_2].
Defined.

Definition demo_model : list (string * KVCacheSpec) := demo_stage0 ++ demo_stage1.
Definition demo_groups : list KVCacheGroupSpec :=
  match get_kv_cache_groups demo_element_size false demo_config demo_model with Ok gs => gs | Raise _ => [] end.

Lemma groups_partition_layers_witness :
  (layer_names <$> demo_groups = [["full.0"; "full.1"]; ["sw.0"; "sw.2"]; ["sw.1"; "sw.3"]])%string ∧
  concat (layer_names <$> demo_groups) ≡ₚ demo_model.*1.
Proof.
  split; [vm_compute; reflexivity|].
  apply (groups_partition_layers demo_element_size false demo_config demo_model demo_groups);
    [by apply (bool_decide_eq_true (NoDup _)); vm_compute|vm_compute; reflexivity|vm_compute; reflexivity].
Defined.

Lemma hybrid_groups_share_one_spec_witness :
  ∃ groups gs, _get_kv_cache_groups_uniform_page_size demo_model = Ok groups ∧ 2 * gs < 3 * type_size demo_model demo_full.
Proof.
  destruct (hybrid_groups_share_one_spec demo_model) as (groups & gs & Hg & _ & _ & _ & Hpad);
    [by apply (bool_decide_eq_true (NoDup _)); vm_compute|discriminate| |].
  - intros n s Hs. unfold demo_model, demo_stage0, demo_stage1 in Hs. cbn [app] in Hs.
    assert (s = demo_full ∨ s = demo_window) as [-> | ->];
      [|eexists; vm_compute; reflexivity|eexists; vm_compute; reflexivity].
    repeat (apply elem_of_cons in Hs as [[= _ ->]|Hs]; [auto|]). by apply not_elem_of_nil in Hs.
  - exists groups, gs. split; [exact Hg|]. apply (Hpad "full.0"%string). left.
Defined.

Lemma approximate_gcd_minimises_padding_witness :
  _approximate_gcd [11; 21; 10] (Some 11) = Ok 11 ∧
  ∃ d, _approximate_gcd [11; 21; 10] (Some 11) = Ok d ∧ 11 ≤ d ∧
    ∀ d', 11 ≤ d' ≤ 21 → py_sum ((λ x, round_up x d - x) <$> [11; 21; 10]) ≤ py_sum ((λ x, round_up x d' - x) <$> [11; 21; 10])
                         ∧ (py_sum ((λ x, round_up x d' - x) <$> [11; 21; 10]) = py_sum ((λ x, round_up x d - x) <$> [11; 21; 10]) → d' ≤ d).
Proof.
  split; [vm_compute; reflexivity|].
  apply (approximate_gcd_minimises_padding [11; 21; 10] (Some 11) 21); [reflexivity|].
  repeat (apply Forall_cons_2; [lia|]). apply Forall_nil_2.
Defined.

Definition demo_sizes_config : KVCacheConfig :=
  mkKVCacheConfig 10 [] [mkKVCacheGroupSpec ["a"%string] (LayerSpec (FullAttentionSpec (test_attention 48) 128 None None)) false;
                         mkKVCacheGroupSpec ["b"%string] (LayerSpec (SlidingWindowSpec (test_attention 32) 1024 128)) false].
Lemma resolved_block_sizes_divide_witness :
  resolve_kv_cache_block_sizes demo_sizes_config demo_config = Ok (96, 16) ∧ (16 | 96).
Proof.
  split; [vm_compute; reflexivity|].
  apply (resolved_block_sizes_divide demo_sizes_config demo_config 96 16). vm_compute. reflexivity.
Defined.

(** A layer with half the heads gets blocks of twice the tokens. *)
Definition demo_half_heads : AttentionSpec := mkAttentionSpec 16 4 128 "torch.float16" KV_NONE None.
Definition demo_mixed : list (string * KVCacheSpec) :=
  [("full"%string, demo_full); ("sw"%string, SlidingWindowSpec demo_half_heads 1024 128)].
Definition demo_unified : list (string * KVCacheSpec) :=
  [("full"%string, demo_full); ("sw"%string, SlidingWindowSpec (demo_half_heads <| a_block_size := 32 |>) 1024 128)].
Lemma unified_layers_have_one_page_size_witness :
  unify_kv_cache_spec_page_size demo_element_size false demo_mixed = Ok demo_unified ∧
  ∃ p, Forall2 (λ ns ns', ns'.1 = ns.1 ∧ page_size_bytes demo_element_size false ns'.2 = Ok p ∧
        ∃ q, page_size_bytes demo_element_size false ns.2 = Ok q ∧
          (ns'.2 = ns.2 ∨ ∃ k, p = q * k ∧ replace_block_size demo_element_size ns.2 (block_size ns.2 * k) = Ok ns'.2))
      demo_mixed demo_unified.
Proof.
  split; [vm_compute; reflexivity|].
  apply (unified_layers_have_one_page_size demo_element_size false demo_mixed demo_unified). vm_compute. reflexivity.
Defined.
