(* ===== verification/KVPlanLimits.v ===== *)
(** * Where the KV-cache plan falls short

    Concrete runs of [KVPlan] in which the planner breaks a promise of
    [src/vllm/v1/core/kv_cache_utils.py]. *)
From S2P Require Import Prelude MathUtils Outcome KVSpec KVPlan KVPlanInv.
Local Open Scope Z_scope.

(* ===================================================================== *)
(** ** Quantized chunked attention without the hybrid manager             *)
(* ===================================================================== *)

Definition quantized_attention : AttentionSpec := mkAttentionSpec 16 8 128 "torch.int8" INT8_PER_TOKEN_HEAD None.
Definition quantized_full : KVCacheSpec := FullAttentionSpec quantized_attention 128 None None.
Definition quantized_chunked : KVCacheSpec := ChunkedLocalAttentionSpec quantized_attention 8192.
Definition quantized_model : list (string * KVCacheSpec) :=
  [("full"%string, quantized_full); ("chunked"%string, quantized_chunked)].
Definition no_hybrid_config : PlanConfig :=
  mkPlanConfig (mkVllmConfig 8192 1 1 2048 0 "none") 8192 16 true None None false true false.

(** With the hybrid manager disabled, a chunked-attention layer whose cache
    is quantized per token and head loses its quantization mode when it is
    turned into a full-attention layer: its blocks are planned without room for
    the scales (32768 bytes instead of 36864), while the full-attention layer of
    the same shape keeps them; the plan is accepted and the tensor of the chunked
    layer is too small for its blocks. *)
Theorem disabled_hybrid_manager_drops_quantization :
  page_size_bytes demo_element_size false quantized_chunked = Ok 36864 ∧
  page_size_bytes demo_element_size false quantized_full = Ok 36864 ∧
  page_size_bytes demo_element_size false (to_full_attention demo_element_size None quantized_chunked) = Ok 32768 ∧
  match get_kv_cache_configs demo_element_size false no_hybrid_config [quantized_model] [100000000] with
  | Ok ([cfg], _) =>
      kv_cache_tensors cfg = [mkKVCacheTensor (num_blocks cfg * 36864) ["full"%string];
                              mkKVCacheTensor (num_blocks cfg * 32768) ["chunked"%string]] ∧ 0 < num_blocks cfg
  | _ => False
  end.
Proof. vm_compute. repeat split; done. Qed.

(* ===================================================================== *)
(** ** A pipeline stage without one of the page sizes                     *)
(* ===================================================================== *)

Definition deepseek_mla (compress_ratio : Z) : KVCacheSpec :=
  MLAAttentionSpec (mkAttentionSpec 256 1 512 "torch.uint8" KV_NONE None) 512 None None
    (mkMLAFields (Some "fp8_ds_mla"%string) None compress_ratio (Some "deepseek_v4"%string)).
Definition deepseek_window : KVCacheSpec :=
  SlidingWindowMLASpec (mkAttentionSpec 64 1 512 "torch.uint8" KV_NONE None) 128 None
    (mkMLAFields (Some "fp8_ds_mla"%string) None 1 (Some "deepseek_v4"%string)).
Definition deepseek_stage0 : list (string * KVCacheSpec) :=
  [("c4.0", deepseek_mla 4); ("swa.0", deepseek_window)]%string.
Definition deepseek_stage1 : list (string * KVCacheSpec) :=
  [("c128.1", deepseek_mla 128); ("swa.1", deepseek_window)]%string.
Definition deepseek_config : PlanConfig :=
  mkPlanConfig (mkVllmConfig 8192 1 1 2048 0 "none") 8192 256 true None None false false false.

(** The DeepseekV4 layout takes its page sizes from the full-MLA layers that
    the worker owns.  When a pipeline stage has none of the page size to which
    its sliding-window layers were padded, the plan is accepted but no tensor of
    the stage holds those layers, though its groups list them. *)
Theorem pipeline_stage_loses_layers :
  match get_kv_cache_configs demo_element_size false deepseek_config [deepseek_stage0; deepseek_stage1]
          [1000000000; 1000000000] with
  | Ok ([cfg0; cfg1], _) =>
      concat (shared_by <$> kv_cache_tensors cfg0) = ["c4.0"; "swa.0"]%string ∧
      concat (layer_names <$> kv_cache_groups cfg1) = ["c128.1"; "swa.1"]%string ∧
      concat (shared_by <$> kv_cache_tensors cfg1) = ["c128.1"]%string ∧
      num_blocks cfg0 = num_blocks cfg1
  | _ => False
  end.
Proof. vm_compute. repeat split; done. Qed.

(* ===================================================================== *)
(** ** Layers whose page size does not depend on the block size           *)
(* ===================================================================== *)

Definition small_mamba : KVCacheSpec :=
  MambaSpec (mkMambaFields 16 [[1024]] ["torch.float16"%string] None "mamba2" "none" 0).

Lemma mamba_page_size_fixed element_size aligned m n s :
  replace_block_size element_size (MambaSpec m) n = Ok s →
  page_size_bytes element_size aligned s = page_size_bytes element_size aligned (MambaSpec m).
Proof. by intros [= <-]. Qed.

(** [unify_kv_cache_spec_page_size] documents [NotImplementedError] for
    layers it cannot unify.  A Mamba layer with a page size that divides the
    largest one and is smaller always ends in an [AssertionError] instead: its
    page size does not grow with the block size. *)
Theorem smaller_mamba_layer_fails_the_assertion element_size aligned m p q :
  page_size_bytes element_size aligned (MambaSpec m) = Ok q → q ≠ 0 → q ≠ p → p mod q = 0 →
  unify_layer element_size aligned p (MambaSpec m) = Raise AssertionError.
Proof.
  intros Hq Hq0 Hqp Hmod. unfold unify_layer. rewrite Hq. cbn [mbind res_bind].
  destruct (Z.eqb_spec q p); [done|]. unfold py_mod. destruct (Z.eqb_spec q 0); [done|]. cbn [mbind res_bind].
  rewrite Hmod. cbn [negb]. destruct (replace_block_size _ _ _) as [s|] eqn:Hs; [|done]. cbn [mbind res_bind].
  rewrite (mamba_page_size_fixed _ _ _ _ _ Hs), Hq. cbn [mbind res_bind]. by destruct (Z.eqb_spec q p).
Qed.
Lemma smaller_mamba_layer_fails_the_assertion_witness :
  unify_kv_cache_spec_page_size demo_element_size false [("full"%string, demo_full); ("mamba"%string, small_mamba)]
    = Raise AssertionError ∧
  unify_layer demo_element_size false 65536 small_mamba = Raise AssertionError.
Proof.
  split; [vm_compute; reflexivity|].
  apply (smaller_mamba_layer_fails_the_assertion demo_element_size false
           (mkMambaFields 16 [[1024]] ["torch.float16"%string] None "mamba2" "none" 0) 65536 2048);
    [vm_compute; reflexivity|lia|lia|reflexivity].
Defined.
