(* ===== verification/NGram.v ===== *)
(** * The n-gram proposer ([src/vllm/v1/spec_decode/ngram_proposer.py])

    Draft tokens are taken from behind an earlier occurrence of the last tokens.
    [_find_longest_matched_ngram_and_propose_tokens] finds the occurrence with
    the failure function of Knuth, Morris and Pratt on the reversed tokens, kept
    for the first [max_ngram] prefixes only; it is shown equal to a search that
    compares slices.  [propose] runs it for a batch over numpy buffers that are
    kept between calls; a numpy array of two dimensions is a list of rows, and
    the parallel loop, whose turns write distinct rows, runs in order. *)
From S2P Require Import Prelude MathUtils Outcome.

(* ===================================================================== *)
(** ** The search                                                         *)
(* ===================================================================== *)

(** [a[i]] of an array. *)
Definition at_ {A} (l : list A) (i : nat) : res A := some_or IndexError (l !! i).

(** The loop [while i < total_token]; [tokens] are reversed.  The sum of twice
    the tokens left and the matched prefix falls in every turn. *)
Fixpoint kmp_loop (fuel : nat) (tokens : list Z) (max_ngram : nat) (lps : list nat)
    (longest_ngram position prev_lps i : nat) : res (nat * nat) :=
  match fuel with
  | O => Raise OutOfFuel
  | S fuel' =>
      if i <? length tokens then
        a ← at_ tokens prev_lps;
        b ← at_ tokens i;
        if (a =? b)%Z then
          let prev_lps := prev_lps + 1 in
          let longer := longest_ngram <=? prev_lps in
          let longest_ngram' := if longer then prev_lps else longest_ngram in
          let position' := if longer then i else position in
          let lps := if i <? max_ngram then <[i := prev_lps]> lps else lps in
          next ← (if prev_lps =? max_ngram then at_ lps (max_ngram - 1) else Ok prev_lps);
          kmp_loop fuel' tokens max_ngram lps longest_ngram' position' next (i + 1)
        else if negb (prev_lps =? 0) then
          shorter ← at_ lps (prev_lps - 1);
          kmp_loop fuel' tokens max_ngram lps longest_ngram position shorter i
        else kmp_loop fuel' tokens max_ngram lps longest_ngram position prev_lps (i + 1)
      else Ok (longest_ngram, position)
  end.

Definition _find_longest_matched_ngram_and_propose_tokens (origin_tokens : list Z) (min_ngram max_ngram : nat)
    (max_model_len k : Z) : res (list Z) :=
  let total_token := length origin_tokens in
  if total_token <? min_ngram then Ok []
  else
    let k := Z.min k (max_model_len - Z.of_nat total_token) in
    if (k <=? 0)%Z then Ok []
    else
      let tokens := reverse origin_tokens in
      let lps := replicate max_ngram 0 in
      lp ← kmp_loop (2 * total_token + 1) tokens max_ngram lps 0 0 0 1;
      let longest_ngram := lp.1 in
      let position := lp.2 in
      if longest_ngram <? min_ngram then Ok []
      else
        let start_position := (Z.of_nat total_token - 1 - Z.of_nat position + Z.of_nat longest_ngram)%Z in
        let k := Z.min k (Z.of_nat total_token - start_position) in
        Ok (slice origin_tokens start_position (start_position + k)).

(* ===================================================================== *)
(** ** The proposer                                                       *)
(* ===================================================================== *)

Record NgramProposer := mkNgramProposer {
  min_n : nat;
  max_n : nat;
  k_tokens : nat;
  proposer_max_model_len : Z;
  valid_ngram_draft : list (list Z);
  valid_ngram_num_drafts : list Z;
}.
#[export] Instance eta_NgramProposer : Eta NgramProposer := λ p,
  mkNgramProposer (min_n p) (max_n p) (k_tokens p) (proposer_max_model_len p) (valid_ngram_draft p)
    (valid_ngram_num_drafts p).
#[export] Instance set_valid_ngram_draft : Setter valid_ngram_draft.
Proof. build_setter. Defined.
#[export] Instance set_valid_ngram_num_drafts : Setter valid_ngram_num_drafts.
Proof. build_setter. Defined.

(** [NgramProposer.__init__]: buffers of zeros; the call of [propose] at its end,
    for requests that sampled nothing, leaves them as they are. *)
Definition new_NgramProposer (min_n max_n k : nat) (max_model_len : Z) (max_num_seqs : nat) : NgramProposer :=
  mkNgramProposer min_n max_n k max_model_len (replicate max_num_seqs (replicate k 0%Z)) (replicate max_num_seqs 0%Z).

(** [a[idx] = x] of an array. *)
Definition set_at {A} (l : list A) (i : nat) (x : A) : res (list A) :=
  if i <? length l then Ok (<[i := x]> l) else Raise IndexError.

(** One turn of [batch_propose_numba]. *)
Definition batch_propose_one (num_tokens_no_spec : list Z) (token_ids_cpu : list (list Z)) (idx : nat) :
    M NgramProposer unit :=
  p <- get ;;
  num_tokens <- of_res (at_ num_tokens_no_spec idx) ;;
  row <- of_res (at_ token_ids_cpu idx) ;;
  let context_token_ids := slice_to row num_tokens in
  drafter_output <- of_res (_find_longest_matched_ngram_and_propose_tokens context_token_ids (min_n p) (max_n p)
                              (proposer_max_model_len p) (Z.of_nat (k_tokens p))) ;;
  counts <- of_res (set_at (valid_ngram_num_drafts p) idx (len drafter_output)) ;;
  modify (λ p, p <| valid_ngram_num_drafts := counts |>) ;;
  when (negb (bool_decide (drafter_output = []))) do (
    draft <- of_res (at_ (valid_ngram_draft p) idx) ;;
    when (length draft <? length drafter_output) do raise ValueError ;;
    rows <- of_res (set_at (valid_ngram_draft p) idx (drafter_output ++ drop (length drafter_output) draft)) ;;
    modify (λ p, p <| valid_ngram_draft := rows |>)).
Definition batch_propose_numba (valid_ngram_requests : list nat) (num_tokens_no_spec : list Z)
    (token_ids_cpu : list (list Z)) : M NgramProposer unit :=
  for_ valid_ngram_requests (batch_propose_one num_tokens_no_spec token_ids_cpu).

(** The drafts read back from the buffers. *)
Definition read_draft (valid_ngram_requests : list nat) (i : nat) : M NgramProposer (list Z) :=
  if bool_decide (i ∈ valid_ngram_requests) then
    p <- get ;;
    num_drafts <- of_res (at_ (valid_ngram_num_drafts p) i) ;;
    if (0 <? num_drafts)%Z then
      draft <- of_res (at_ (valid_ngram_draft p) i) ;;
      ret (slice_to draft num_drafts)
    else ret []
  else ret [].
Definition batch_propose (num_requests : nat) (valid_ngram_requests : list nat) (num_tokens_no_spec : list Z)
    (token_ids_cpu : list (list Z)) : M NgramProposer (list (list Z)) :=
  when (negb (bool_decide (valid_ngram_requests = []))) do
    batch_propose_numba valid_ngram_requests num_tokens_no_spec token_ids_cpu ;;
  map_m (read_draft valid_ngram_requests) (seq 0 num_requests).

(** [valid_ngram_requests] of [propose], from request [i] on. *)
Fixpoint needs_proposal (max_model_len : Z) (num_tokens_no_spec : list Z) (i : nat) (sampled : list (list Z)) :
    res (list nat) :=
  match sampled with
  | [] => Ok []
  | ids :: sampled' =>
      if bool_decide (ids = []) then needs_proposal max_model_len num_tokens_no_spec (S i) sampled'
      else
        num_tokens ← at_ num_tokens_no_spec i;
        rest ← needs_proposal max_model_len num_tokens_no_spec (S i) sampled';
        Ok (if (max_model_len <=? num_tokens)%Z then rest else i :: rest)
  end.
Definition propose (sampled_token_ids : list (list Z)) (num_tokens_no_spec : list Z) (token_ids_cpu : list (list Z)) :
    M NgramProposer (list (list Z)) :=
  p <- get ;;
  valid_ngram_requests <- of_res (needs_proposal (proposer_max_model_len p) num_tokens_no_spec 0 sampled_token_ids) ;;
  batch_propose (length sampled_token_ids) valid_ngram_requests num_tokens_no_spec token_ids_cpu.

(* ===================================================================== *)
(** ** Reference search                                                   *)
(* ===================================================================== *)

(** The [v] tokens at [p] are the last [v] ones. *)
Definition matches_at (s : list Z) (v p : nat) : bool :=
  bool_decide (take v (drop p s) = drop (length s - v) s).
(** The earliest place before the end where the last [v] tokens occur. *)
Definition earliest_match (s : list Z) (v : nat) : option nat :=
  head (filter (λ p, matches_at s v p = true) (seq 0 (length s - v))).
(** The longest n-gram of [min_ngram] to [v] tokens, with its earliest place. *)
Fixpoint longest_match (s : list Z) (min_ngram v : nat) : option (nat * nat) :=
  match v with
  | O => None
  | S v' =>
      if v <? min_ngram then None
      else match earliest_match s v with
           | Some p => Some (v, p)
           | None => longest_match s min_ngram v'
           end
  end.
(** At most [k] tokens from behind the match, and none past the model length. *)
Definition reference_proposal (s : list Z) (min_ngram max_ngram : nat) (max_model_len k : Z) : list Z :=
  match longest_match s min_ngram max_ngram with
  | Some (v, p) => take (Z.to_nat (Z.min k (max_model_len - len s))) (drop (p + v) s)
  | None => []
  end.

(* ===================================================================== *)
(** ** Prefixes that are suffixes                                         *)
(* ===================================================================== *)

Section borders.
Context (t : list Z).

(** The first [v] tokens are the last [v] of the first [m]. *)
Definition border (m v : nat) : Prop := v ≤ m ∧ ∀ j, j < v → t !! j = t !! (m - v + j).

Lemma border_0 m : border m 0.
Proof. split; [lia|]. intros j Hj. lia. Qed.
Lemma border_trans m v u : border m v → border v u → border m u.
Proof.
  intros [Hv Hm] [Hu Hvu]. split; [lia|]. intros j Hj. rewrite Hvu by done. rewrite Hm by lia. f_equal. lia.
Qed.
Lemma border_sub m v u : border m v → border m u → u ≤ v → border v u.
Proof.
  intros [Hv Hm] [Hu Hmu] Huv. split; [done|]. intros j Hj. rewrite Hmu by done. rewrite (Hm (v - u + j)) by lia.
  f_equal. lia.
Qed.
Lemma border_S m v : border (S m) (S v) ↔ border m v ∧ t !! v = t !! m.
Proof.
  split.
  - intros [Hv Hm]. split; [split; [lia|]; intros j Hj; rewrite Hm by lia; f_equal; lia|].
    rewrite Hm by lia. f_equal. lia.
  - intros [[Hv Hm] He]. split; [lia|]. intros j Hj. destruct (decide (j = v)) as [->|].
    + rewrite He. f_equal. lia.
    + rewrite Hm by lia. f_equal; lia.
Qed.

(** [v] is the longest border of the first [m] tokens among those up to [b]. *)
Definition longest_border (m b v : nat) : Prop := v ≤ b ∧ border m v ∧ ∀ u, u ≤ b → border m u → u ≤ v.

Context (mx : nat) (Hmx : 0 < mx).

(** The state of the loop before position [i]. *)
Record kmp_inv (lps : list nat) (longest position prev i : nat) : Prop := {
  ki_pos : 0 < i;
  ki_prev : prev < i ∧ prev < mx ∧ border i prev;
  ki_cand : ∀ v, v < i → v < mx → border i v → t !! v = t !! i → v ≤ prev;
  ki_len : length lps = mx;
  ki_lps : ∀ j, j < i → j < mx → ∃ v, lps !! j = Some v ∧ longest_border (S j) j v;
  ki_zero : ∀ j, i ≤ j → j < mx → lps !! j = Some 0;
  ki_longest : longest ≤ mx;
  ki_best : ∀ i' v, 0 < i' < i → v ≤ mx → v ≤ i' → border (S i') v → v ≤ longest;
  ki_place : longest = 0 ∨
    (longest ≤ position < i ∧ border (S position) longest ∧ ∀ i', position < i' < i → ¬ border (S i') longest);
}.

(** The candidates at the next position, once the longest border up to the cap
    is known. *)
Lemma next_cand i new :
  longest_border (S i) (i `min` mx) new → ∀ v, v < S i → v < mx → border (S i) v → v ≤ new.
Proof. intros (_ & _ & H) v Hv Hv' Hb. apply H; [lia|done]. Qed.

Lemma match_longest lps longest position prev i :
  kmp_inv lps longest position prev i → t !! prev = t !! i → longest_border (S i) (i `min` mx) (S prev).
Proof.
  intros I He. destruct (ki_prev _ _ _ _ _ I) as (H1 & H2 & H3). split; [lia|]. split; [by apply border_S|].
  intros [|u] Hu Hb; [lia|]. apply border_S in Hb as [Hb Hu']. assert (u ≤ prev); [|lia].
  apply (ki_cand _ _ _ _ _ I); [lia|lia|done|done].
Qed.
Lemma mismatch_longest lps longest position i :
  kmp_inv lps longest position 0 i → t !! 0 ≠ t !! i → longest_border (S i) (i `min` mx) 0.
Proof.
  intros I He. split; [lia|]. split; [apply border_0|]. intros [|u] Hu Hb; [lia|].
  apply border_S in Hb as [Hb Hu']. assert (u ≤ 0) as Hu0; [|assert (u = 0) by lia; by subst].
  apply (ki_cand _ _ _ _ _ I); [lia|lia|done|done].
Qed.

(** Moving on to the next position, with [new] the longest border found and
    [next] the prefix that is matched there. *)
Lemma kmp_next lps lps' longest position prev i new next :
  kmp_inv lps longest position prev i → longest_border (S i) (i `min` mx) new →
  length lps' = mx → (∀ j, j ≠ i → lps' !! j = lps !! j) → (i < mx → lps' !! i = Some new) →
  next < S i → next < mx → border (S i) next → (∀ v, v < S i → v < mx → border (S i) v → v ≤ next) →
  kmp_inv lps' (if longest <=? new then new else longest) (if longest <=? new then i else position) next (S i).
Proof.
  intros I Hnew Hlen Hsame Hst Hn1 Hn2 Hn3 Hn4. pose proof Hnew as (Hb & Hbd & Hmax).
  assert (Hle : (longest ≤ new ∧ (longest <=? new) = true) ∨ (new < longest ∧ (longest <=? new) = false)).
  { destruct (Nat.leb_spec longest new); auto. }
  split; try done; try lia.
  - intros v Hv1 Hv2 Hv _. by apply Hn4.
  - intros j Hj Hjm. destruct (decide (j = i)) as [->|Hne].
    + exists new. split; [auto|]. split; [lia|]. split; [done|]. intros u Hu Hub. apply Hmax; [lia|done].
    + rewrite Hsame by done. apply (ki_lps _ _ _ _ _ I); lia.
  - intros j Hj Hjm. rewrite Hsame by lia. apply (ki_zero _ _ _ _ _ I); lia.
  - pose proof (ki_longest _ _ _ _ _ I). destruct Hle as [[_ ->]|[_ ->]]; lia.
  - intros i' v Hi' Hv Hvi Hbv. destruct (decide (i' = i)) as [->|Hne].
    + assert (v ≤ new) by (apply Hmax; [lia|done]). destruct Hle as [[? ->]|[? ->]]; lia.
    + assert (v ≤ longest) by (apply (ki_best _ _ _ _ _ I i'); [lia|lia|lia|done]). destruct Hle as [[? ->]|[? ->]]; lia.
  - destruct Hle as [[Hl ->]|[Hl ->]].
    + right. split; [lia|]. split; [done|]. intros i' Hi'. lia.
    + right. destruct (ki_place _ _ _ _ _ I) as [H0|(H1 & H2 & H3)]; [lia|]. split; [lia|]. split; [done|].
      intros i' Hi' Hb'. destruct (decide (i' = i)) as [->|Hne]; [|by apply (H3 i'); [lia|]].
      assert (longest ≤ new); [|lia]. apply Hmax; [|done]. pose proof (ki_longest _ _ _ _ _ I). lia.
Qed.

Lemma at_Ok {A} (l : list A) i x : l !! i = Some x → at_ l i = Ok x.
Proof. unfold at_. by intros ->. Qed.

Lemma place_any lps position position' prev i : kmp_inv lps 0 position prev i → kmp_inv lps 0 position' prev i.
Proof. intros [H1 H2 H3 H4 H5 H6 H7 H8 _]. split; auto. Qed.

(** On a mismatch the next shorter border of the matched prefix is tried. *)
Lemma kmp_shorter lps longest position prev i :
  kmp_inv lps longest position prev i → t !! prev ≠ t !! i → prev ≠ 0 →
  ∃ v, lps !! (prev - 1) = Some v ∧ v < prev ∧ kmp_inv lps longest position v i.
Proof.
  intros I Hne H0. destruct (ki_prev _ _ _ _ _ I) as (H1 & H2 & H3).
  destruct (ki_lps _ _ _ _ _ I (prev - 1)) as (v & Hv & Hle & Hb & Hmax); [lia..|].
  replace (S (prev - 1)) with prev in Hb, Hmax by lia. exists v. split; [done|]. split; [lia|].
  destruct I as [I1 I2 I3 I4 I5 I6 I7 I8 I9]. split; try done.
  - split; [lia|]. split; [lia|]. by eapply border_trans.
  - intros u Hu Hum Hub Hut. assert (u ≤ prev) by auto. assert (u ≠ prev) by (by intros ->).
    apply Hmax; [lia|]. by apply (border_sub i); [| |lia].
Qed.

Lemma kmp_match lps longest position prev i :
  kmp_inv lps longest position prev i → t !! prev = t !! i →
  let lps' := if i <? mx then <[i := prev + 1]> lps else lps in
  ∃ next, (if prev + 1 =? mx then at_ lps' (mx - 1) else Ok (prev + 1)) = Ok next ∧ next ≤ prev + 1 ∧
    kmp_inv lps' (if longest <=? prev + 1 then prev + 1 else longest) (if longest <=? prev + 1 then i else position)
      next (S i).
Proof.
  intros I He lps'. pose proof (match_longest _ _ _ _ _ I He) as Hnew. replace (S prev) with (prev + 1) in Hnew by lia.
  destruct (ki_prev _ _ _ _ _ I) as (H1 & H2 & H3). pose proof Hnew as (Hn1 & Hn2 & Hn3).
  assert (Hlen : length lps' = mx) by (unfold lps'; case_match; rewrite ?length_insert; apply (ki_len _ _ _ _ _ I)).
  assert (Hsame : ∀ j, j ≠ i → lps' !! j = lps !! j).
  { intros j Hj. unfold lps'. case_match; [|done]. by rewrite list_lookup_insert_ne. }
  assert (Hst : i < mx → lps' !! i = Some (prev + 1)).
  { intros Hi. unfold lps'. destruct (Nat.ltb_spec i mx); [|lia]. rewrite list_lookup_insert_eq; [done|].
    by rewrite (ki_len _ _ _ _ _ I). }
  destruct (Nat.eqb_spec (prev + 1) mx) as [Heq|Hneq].
  - destruct (ki_lps _ _ _ _ _ I (mx - 1)) as (v & Hv & Hle & Hb & Hmax); [lia..|].
    replace (S (mx - 1)) with mx in Hb, Hmax by lia. exists v. rewrite (at_Ok _ _ v) by (rewrite Hsame by lia; done).
    split; [done|]. split; [lia|]. rewrite Heq in Hn2.
    eapply kmp_next; [done|done|done|done|done|lia|lia|by eapply border_trans|].
    intros u Hu Hum Hub. apply Hmax; [lia|]. by apply (border_sub (S i)); [| |lia].
  - exists (prev + 1). split; [done|]. split; [lia|].
    eapply kmp_next; [done|done|done|done|done|lia|lia|done|]. by apply next_cand.
Qed.

Lemma kmp_mismatch lps longest position i :
  kmp_inv lps longest position 0 i → t !! 0 ≠ t !! i → kmp_inv lps longest position 0 (S i).
Proof.
  intros I He. pose proof (mismatch_longest _ _ _ _ I He) as Hnew.
  assert (I' : kmp_inv lps (if longest <=? 0 then 0 else longest) (if longest <=? 0 then i else position) 0 (S i)).
  { eapply kmp_next; [done|done|by apply (ki_len _ _ _ _ _ I)|done| |lia|done|apply border_0|by apply next_cand].
    intros Hi. by apply (ki_zero _ _ _ _ _ I). }
  destruct longest as [|longest]; [by eapply place_any|exact I'].
Qed.

Lemma kmp_loop_S fuel lps longest position prev i :
  kmp_loop (S fuel) t mx lps longest position prev i =
  if i <? length t then
    a ← at_ t prev; b ← at_ t i;
    if (a =? b)%Z then
      next ← (if prev + 1 =? mx then at_ (if i <? mx then <[i := prev + 1]> lps else lps) (mx - 1) else Ok (prev + 1));
      kmp_loop fuel t mx (if i <? mx then <[i := prev + 1]> lps else lps)
        (if longest <=? prev + 1 then prev + 1 else longest) (if longest <=? prev + 1 then i else position) next (i + 1)
    else if negb (prev =? 0) then
      shorter ← at_ lps (prev - 1); kmp_loop fuel t mx lps longest position shorter i
    else kmp_loop fuel t mx lps longest position prev (i + 1)
  else Ok (longest, position).
Proof. done. Qed.

Lemma kmp_loop_spec fuel lps longest position prev i :
  kmp_inv lps longest position prev i → i ≤ length t → 2 * (length t - i) + prev < fuel →
  ∃ L P lps' prev', kmp_loop fuel t mx lps longest position prev i = Ok (L, P) ∧ kmp_inv lps' L P prev' (length t).
Proof.
  revert lps longest position prev i. induction fuel as [|fuel IH]; intros lps longest position prev i I Hi Hf; [lia|].
  rewrite kmp_loop_S. destruct (Nat.ltb_spec i (length t)) as [Hlt|Hge].
  2: { assert (i = length t) as -> by lia. by exists longest, position, lps, prev. }
  destruct (ki_prev _ _ _ _ _ I) as (H1 & H2 & H3).
  destruct (lookup_lt_is_Some_2 t prev) as (a & Ha); [lia|]. destruct (lookup_lt_is_Some_2 t i Hlt) as (b & Hb).
  rewrite (at_Ok _ _ _ Ha), (at_Ok _ _ _ Hb). cbn [mbind res_bind]. destruct (Z.eqb_spec a b) as [->|Hne].
  - destruct (kmp_match _ _ _ _ _ I) as (next & -> & Hle & I'); [by rewrite Ha, Hb|]. cbn [mbind res_bind].
    replace (i + 1) with (S i) by lia. apply IH; [done|lia|lia].
  - assert (Hne' : t !! prev ≠ t !! i) by (rewrite Ha, Hb; congruence).
    destruct (Nat.eqb_spec prev 0) as [->|H0]; cbn [negb].
    + replace (i + 1) with (S i) by lia. apply IH; [by apply kmp_mismatch|lia|lia].
    + destruct (kmp_shorter _ _ _ _ _ I Hne' H0) as (v & Hv & Hlt' & I'). rewrite (at_Ok _ _ _ Hv).
      cbn [mbind res_bind]. apply IH; [done|lia|lia].
Qed.

Lemma kmp_init : kmp_inv (replicate mx 0) 0 0 0 1.
Proof.
  split; try lia; try (rewrite ?length_replicate; done).
  - split; [lia|]. split; [lia|apply border_0].
  - intros j Hj Hjm. exists 0. assert (j = 0) as -> by lia. rewrite lookup_replicate_2 by done. split; [done|].
    split; [lia|]. split; [apply border_0|]. intros. lia.
  - intros j _ Hj. by rewrite lookup_replicate_2.
Qed.
End borders.

(* ===================================================================== *)
(** ** The search finds the longest, earliest n-gram                      *)
(* ===================================================================== *)

Lemma matches_at_spec s v p :
  p + v ≤ length s → matches_at s v p = true ↔ ∀ j, j < v → s !! (p + j) = s !! (length s - v + j).
Proof.
  intros Hp. unfold matches_at. rewrite bool_decide_eq_true. split.
  - intros E j Hj. apply (f_equal (lookup j)) in E. rewrite lookup_take_lt, !lookup_drop in E by done. done.
  - intros H. apply (list_eq_same_length _ _ v); [rewrite length_drop; lia|rewrite length_take, length_drop; lia|].
    intros j x y Hj. rewrite lookup_take_lt, !lookup_drop by done. rewrite H by done. congruence.
Qed.

(** An occurrence at [p] in the tokens is a border in the reversed tokens. *)
Lemma matches_border s v i :
  v ≤ i → i < length s → border (reverse s) (S i) v ↔ matches_at s v (length s - 1 - i) = true.
Proof.
  intros Hv Hi. rewrite matches_at_spec by lia. unfold border. split.
  - intros [_ H] j Hj. specialize (H (v - 1 - j) ltac:(lia)). rewrite !reverse_lookup in H by lia.
    replace (length s - S (v - 1 - j)) with (length s - v + j) in H by lia.
    replace (length s - S (S i - v + (v - 1 - j))) with (length s - 1 - i + j) in H by lia. done.
  - intros H. split; [lia|]. intros j Hj. rewrite !reverse_lookup by lia. specialize (H (v - 1 - j) ltac:(lia)).
    replace (length s - v + (v - 1 - j)) with (length s - S j) in H by lia.
    replace (length s - 1 - i + (v - 1 - j)) with (length s - S (S i - v + j)) in H by lia. done.
Qed.

Lemma filter_none {A} (P : A → Prop) `{!∀ x, Decision (P x)} (l : list A) : (∀ x, x ∈ l → ¬ P x) → filter P l = [].
Proof.
  induction l as [|x l IH]; intros HP; [done|]. rewrite filter_cons_False by (apply HP; left).
  apply IH. intros y Hy. apply HP. by right.
Qed.
Lemma earliest_match_Some s v p :
  p < length s - v → matches_at s v p = true → (∀ p', p' < p → matches_at s v p' = false) → earliest_match s v = Some p.
Proof.
  intros Hp Hm Hmin. unfold earliest_match.
  replace (length s - v) with (p + (length s - v - p)) by lia. rewrite seq_app, filter_app.
  assert (Hn : filter (λ q, matches_at s v q = true) (seq 0 p) = []).
  { apply filter_none. intros q Hq%elem_of_seq. rewrite Hmin by lia. done. }
  rewrite Hn. destruct (length s - v - p) as [|k] eqn:Hk; [lia|]. cbn [seq app plus].
  rewrite filter_cons_True by done. done.
Qed.
Lemma earliest_match_None s v : (∀ p, p < length s - v → matches_at s v p = false) → earliest_match s v = None.
Proof.
  intros H. unfold earliest_match.
  assert (Hn : filter (λ q, matches_at s v q = true) (seq 0 (length s - v)) = []); [|by rewrite Hn].
  apply filter_none. intros q Hq%elem_of_seq. rewrite H by lia. done.
Qed.
Lemma longest_match_Some s mn mx v p :
  0 < v → mn ≤ v ≤ mx → earliest_match s v = Some p → (∀ u, v < u ≤ mx → earliest_match s u = None) →
  longest_match s mn mx = Some (v, p).
Proof.
  intros H0 Hv He Hnone. induction mx as [|mx IH]; [lia|]. cbn [longest_match].
  destruct (Nat.ltb_spec (S mx) mn); [lia|]. destruct (decide (v = S mx)) as [->|Hne]; [by rewrite He|].
  rewrite Hnone by lia. apply IH; [lia|]. intros u Hu. apply Hnone. lia.
Qed.
Lemma longest_match_None s mn mx :
  (∀ u, mn ≤ u ≤ mx → 0 < u → earliest_match s u = None) → longest_match s mn mx = None.
Proof.
  intros H. induction mx as [|mx IH]; [done|]. cbn [longest_match]. destruct (Nat.ltb_spec (S mx) mn); [done|].
  rewrite H by lia. apply IH. intros u Hu. apply H. lia.
Qed.

Lemma no_match s u :
  0 < u → (∀ i, 0 < i < length s → u ≤ i → ¬ border (reverse s) (S i) u) → earliest_match s u = None.
Proof.
  intros Hu H. apply earliest_match_None. intros p Hp. apply Bool.not_true_iff_false. intros Hm.
  apply (H (length s - 1 - p)); [lia|lia|]. apply matches_border; [lia|lia|].
  by replace (length s - 1 - (length s - 1 - p)) with p by lia.
Qed.

Lemma kmp_finds s mn mx :
  0 < mn → 0 < mx → 0 < length s →
  ∃ L P, kmp_loop (2 * length s + 1) (reverse s) mx (replicate mx 0) 0 0 0 1 = Ok (L, P) ∧
    longest_match s mn mx = (if L <? mn then None else Some (L, length s - 1 - P)) ∧ (mn ≤ L → L ≤ P < length s).
Proof.
  intros Hmn Hmx Hs.
  destruct (kmp_loop_spec (reverse s) mx Hmx (2 * length s + 1) _ _ _ _ _ (kmp_init _ _ Hmx))
    as (L & P & lps & prev & Hk & I); [rewrite length_reverse; lia..|].
  rewrite length_reverse in I. exists L, P. split; [done|]. pose proof (ki_longest _ _ _ _ _ _ _ I) as HL.
  assert (Hnone : ∀ u, L < u ≤ mx → earliest_match s u = None).
  { intros u Hu. apply no_match; [lia|]. intros i Hi Hui Hb.
    pose proof (ki_best _ _ _ _ _ _ _ I i u Hi ltac:(lia) Hui Hb). lia. }
  destruct (Nat.ltb_spec L mn) as [Hlt|Hge].
  { split; [|lia]. apply longest_match_None. intros u Hu _. apply Hnone. lia. }
  destruct (ki_place _ _ _ _ _ _ _ I) as [|(HP & Hb & Hlast)]; [lia|]. split; [|done].
  apply longest_match_Some; [lia|lia| |done]. apply earliest_match_Some; [lia|by apply matches_border; [lia|lia|]|].
  intros p' Hp'. apply Bool.not_true_iff_false. intros Hm. apply (Hlast (length s - 1 - p')); [lia|].
  apply matches_border; [lia|lia|]. by replace (length s - 1 - (length s - 1 - p')) with p' by lia.
Qed.

Lemma find_is_reference s mn mx max_model_len k :
  0 < mn → 0 < mx →
  _find_longest_matched_ngram_and_propose_tokens s mn mx max_model_len k = Ok (reference_proposal s mn mx max_model_len k).
Proof.
  intros Hmn Hmx. unfold _find_longest_matched_ngram_and_propose_tokens, reference_proposal. cbv zeta.
  destruct (Nat.ltb_spec (length s) mn) as [Hlt|Hge].
  { rewrite longest_match_None; [done|]. intros u Hu Hu0. apply no_match; [done|]. intros i Hi Hui. lia. }
  destruct (Z.leb_spec (Z.min k (max_model_len - Z.of_nat (length s))) 0) as [Hk|Hk].
  { destruct (longest_match s mn mx) as [[v p]|]; [|done]. unfold len.
    by replace (Z.to_nat (Z.min k (max_model_len - Z.of_nat (length s)))) with 0 by lia. }
  destruct (kmp_finds s mn mx) as (L & P & -> & -> & HP); [lia..|]. cbn [mbind res_bind fst snd].
  destruct (Nat.ltb_spec L mn) as [|HL]; [done|]. specialize (HP HL). f_equal. fold (len s).
  set (k0 := Z.min k (max_model_len - len s)). unfold len in *.
  rewrite slice_in_range by (unfold len; lia).
  replace (Z.to_nat (Z.of_nat (length s) - 1 - Z.of_nat P + Z.of_nat L)) with (length s - 1 - P + L) by lia.
  destruct (Z.le_ge_cases k0 (Z.of_nat (length s - (length s - 1 - P + L)))) as [Hle|Hle]; [f_equal; lia|].
  rewrite !take_ge; [done|rewrite length_drop; lia..].
Qed.

(** C12.  The proposer's search, which keeps the failure function of the reversed
    tokens for the first [max_ngram] prefixes only, returns without raising and
    gives what comparing slices gives: at most [k] tokens, and none past the
    model length, from behind the earliest occurrence of the longest n-gram of
    [min_ngram] to [max_ngram] tokens that ends the context; none when there is
    no such occurrence. *)
Theorem ngram_search_equals_reference s min_ngram max_ngram max_model_len k :
  0 < min_ngram → 0 < max_ngram →
  _find_longest_matched_ngram_and_propose_tokens s min_ngram max_ngram max_model_len k =
  Ok (reference_proposal s min_ngram max_ngram max_model_len k).
Proof. apply find_is_reference. Qed.
Lemma ngram_search_equals_reference_witness :
  _find_longest_matched_ngram_and_propose_tokens [1; 2; 3; 9; 1; 2; 3; 4; 1; 2; 3]%Z 1 2 100 3 = Ok [9; 1; 2]%Z.
Proof.
  rewrite (ngram_search_equals_reference [1; 2; 3; 9; 1; 2; 3; 4; 1; 2; 3]%Z 1 2 100 3) by lia.
  vm_compute. reflexivity.
Defined.

(* ===================================================================== *)
(** ** Proposals of a batch                                               *)
(* ===================================================================== *)

(** The buffers have a row of [k] places for every request. *)
Record proposer_ok (p : NgramProposer) (n : nat) : Prop := {
  po_min : 0 < min_n p;
  po_max : 0 < max_n p;
  po_rows : n ≤ length (valid_ngram_draft p);
  po_counts : length (valid_ngram_num_drafts p) = length (valid_ngram_draft p);
  po_width : Forall (λ row, length row = k_tokens p) (valid_ngram_draft p);
}.

(** The proposal for a context. *)
Definition proposal (p : NgramProposer) (context : list Z) : list Z :=
  reference_proposal context (min_n p) (max_n p) (proposer_max_model_len p) (Z.of_nat (k_tokens p)).
Lemma proposal_bounds p context :
  length (proposal p context) ≤ k_tokens p ∧
  (len context ≤ proposer_max_model_len p → len context + len (proposal p context) ≤ proposer_max_model_len p)%Z.
Proof.
  unfold proposal, reference_proposal. destruct (longest_match _ _ _) as [[v q]|]; [|by rewrite len_nil; cbn; lia].
  unfold len. rewrite length_take. lia.
Qed.

Definition same_setup (p p' : NgramProposer) : Prop :=
  min_n p' = min_n p ∧ max_n p' = max_n p ∧ k_tokens p' = k_tokens p ∧
  proposer_max_model_len p' = proposer_max_model_len p.
(** The buffers hold the proposal for request [idx]. *)
Definition holds_draft (p : NgramProposer) (idx : nat) (draft : list Z) : Prop :=
  valid_ngram_num_drafts p !! idx = Some (len draft) ∧
  ∃ row, valid_ngram_draft p !! idx = Some row ∧ take (length draft) row = draft.

Lemma set_at_Ok {A} (l : list A) i x : i < length l → set_at l i x = Ok (<[i := x]> l).
Proof. unfold set_at. by destruct (Nat.ltb_spec i (length l)); [|lia]. Qed.

Lemma batch_propose_one_spec nums ids p n idx num row :
  proposer_ok p n → idx < n → nums !! idx = Some num → ids !! idx = Some row →
  ∃ p', batch_propose_one nums ids idx p = (Ok tt, p') ∧ proposer_ok p' n ∧ same_setup p p' ∧
    holds_draft p' idx (proposal p (slice_to row num)) ∧
    ∀ j d, j ≠ idx → holds_draft p j d → holds_draft p' j d.
Proof.
  intros [H1 H2 H3 H4 H5] Hidx Hnum Hrow. unfold batch_propose_one. rewrite run_get.
  rewrite run_of_res, (at_Ok _ _ _ Hnum). cbv beta iota. rewrite run_of_res, (at_Ok _ _ _ Hrow). cbv beta iota zeta.
  rewrite run_of_res, find_is_reference by done. cbv beta iota.
  fold (proposal p (slice_to row num)). set (out := proposal p (slice_to row num)).
  rewrite run_of_res, set_at_Ok by lia. cbv beta iota. rewrite run_modify.
  destruct (lookup_lt_is_Some_2 (valid_ngram_draft p) idx) as (d & Hd); [lia|].
  assert (Hld : length d = k_tokens p) by (rewrite Forall_lookup in H5; eauto).
  destruct (proposal_bounds p (slice_to row num)) as [Hb _]. fold out in Hb.
  assert (Hc1 : <[idx := len out]> (valid_ngram_num_drafts p) !! idx = Some (len out))
    by (by rewrite list_lookup_insert_eq by lia).
  assert (Hc2 : ∀ j x, j ≠ idx → valid_ngram_num_drafts p !! j = Some x →
            <[idx := len out]> (valid_ngram_num_drafts p) !! j = Some x)
    by (intros j x Hj Hx; by rewrite list_lookup_insert_ne).
  case_bool_decide as Hout; cbn [negb].
  - eexists. split; [done|]. split; [split; cbn; rewrite ?length_insert; done|]. split; [done|]. split.
    + split; [done|]. exists d. cbn. rewrite Hout. done.
    + intros j x Hj [Hx (r & Hr & Ht)]. split; [by apply Hc2|]. by exists r.
  - rewrite run_of_res, (at_Ok _ _ _ Hd). cbv beta iota. destruct (Nat.ltb_spec (length d) (length out)); [lia|].
    rewrite run_ret, run_of_res, set_at_Ok by lia. cbv beta iota. eexists. split; [done|].
    set (new := out ++ drop (length out) d).
    assert (Hnew : length new = k_tokens p) by (unfold new; rewrite length_app, length_drop; lia).
    split; [split; cbn; rewrite ?length_insert; try done; by apply Forall_insert|]. split; [done|]. split.
    + split; [done|]. exists new. cbn. rewrite list_lookup_insert_eq by lia. split; [done|]. unfold new. by rewrite take_app_length.
    + intros j x Hj [Hx (r & Hr & Ht)]. split; [by apply Hc2|]. exists r. cbn. by rewrite list_lookup_insert_ne.
Qed.

Lemma same_setup_proposal p p' context : same_setup p p' → proposal p' context = proposal p context.
Proof. intros (H1 & H2 & H3 & H4). unfold proposal. by rewrite H1, H2, H3, H4. Qed.
Lemma same_setup_trans p p' p'' : same_setup p p' → same_setup p' p'' → same_setup p p''.
Proof. unfold same_setup. intros (? & ? & ? & ?) (? & ? & ? & ?). repeat split; congruence. Qed.

Lemma batch_propose_numba_spec valid nums ids p n :
  proposer_ok p n → NoDup valid → (∀ i, i ∈ valid → i < n ∧ is_Some (nums !! i) ∧ is_Some (ids !! i)) →
  ∃ p', batch_propose_numba valid nums ids p = (Ok tt, p') ∧ proposer_ok p' n ∧ same_setup p p' ∧
    (∀ i num row, i ∈ valid → nums !! i = Some num → ids !! i = Some row →
       holds_draft p' i (proposal p (slice_to row num))) ∧
    (∀ j d, j ∉ valid → holds_draft p j d → holds_draft p' j d).
Proof.
  unfold batch_propose_numba. revert p. induction valid as [|i valid IH]; intros p Hok Hnd Hin.
  { exists p. cbn. split; [done|]. split; [done|]. split; [done|]. split; [by intros i num row ?%not_elem_of_nil|done]. }
  apply NoDup_cons in Hnd as [Hi Hnd]. destruct (Hin i ltac:(left)) as (Hn & [num Hnum] & [row Hrow]).
  destruct (batch_propose_one_spec nums ids p n i num row Hok Hn Hnum Hrow) as (p1 & H1 & Hok1 & Hs1 & Hd1 & Hk1).
  destruct (IH p1 Hok1 Hnd) as (p2 & H2 & Hok2 & Hs2 & Hd2 & Hk2); [intros j Hj; apply Hin; by right|].
  exists p2. cbn [for_]. mstep H1. split; [done|]. split; [done|]. split; [by eapply same_setup_trans|]. split.
  - intros j num' row' [->|Hj]%elem_of_cons Hn' Hr'; simplify_eq; [by apply Hk2|].
    rewrite <-(same_setup_proposal p p1) by done. by apply Hd2.
  - intros j d [Hj1 Hj2]%not_elem_of_cons Hd. apply Hk2; [done|]. by apply Hk1.
Qed.

Lemma needs_proposal_spec max_len nums i sampled :
  (∀ j, i ≤ j < i + length sampled → is_Some (nums !! j)) →
  ∃ valid, needs_proposal max_len nums i sampled = Ok valid ∧ NoDup valid ∧
    ∀ j, j ∈ valid ↔ i ≤ j ∧ ∃ ids num, sampled !! (j - i) = Some ids ∧ ids ≠ [] ∧ nums !! j = Some num ∧ (num < max_len)%Z.
Proof.
  revert i. induction sampled as [|ids sampled IH]; intros i Hn.
  { exists []. split; [done|]. split; [constructor|]. intros j. rewrite elem_of_nil, lookup_nil. naive_solver. }
  destruct (IH (S i)) as (valid & Hv & Hnd & Hin); [intros j Hj; apply Hn; cbn; lia|].
  assert (Hlater : ∀ j, j ∈ valid ↔ i < j ∧ ∃ ids' num, (ids :: sampled) !! (j - i) = Some ids' ∧ ids' ≠ [] ∧
                                     nums !! j = Some num ∧ (num < max_len)%Z).
  { intros j. rewrite Hin. split; intros (Hj & x & y & Hx & Hr); (split; [lia|]); exists x, y; split; try done.
    - by replace (j - i) with (S (j - S i)) by lia.
    - by replace (j - i) with (S (j - S i)) in Hx by lia. }
  cbn [needs_proposal]. case_bool_decide as Hids.
  { exists valid. split; [done|]. split; [done|]. intros j. rewrite Hlater.
    split; intros (Hj & x & y & Hx & Hne & Hr); (split; [|by exists x, y]); [lia|].
    destruct (decide (j = i)) as [->|]; [|lia]. rewrite Nat.sub_diag in Hx. cbn in Hx. by simplify_eq. }
  destruct (Hn i) as [num Hnum]; [cbn; lia|]. rewrite (at_Ok _ _ _ Hnum), Hv. cbn [mbind res_bind].
  destruct (Z.leb_spec max_len num) as [Hle|Hlt].
  - exists valid. split; [done|]. split; [done|]. intros j. rewrite Hlater.
    split; intros (Hj & x & y & Hx & Hne & Hy & Hr); (split; [|by exists x, y]); [lia|].
    destruct (decide (j = i)) as [->|]; [|lia]. simplify_eq. lia.
  - exists (i :: valid). split; [done|]. split; [constructor; [rewrite Hlater; lia|done]|]. intros j.
    rewrite elem_of_cons, Hlater. split.
    + intros [->|(Hj & H)]; [|split; [lia|done]]. split; [lia|]. exists ids, num. by rewrite Nat.sub_diag.
    + intros (Hj & H). destruct (decide (j = i)) as [->|]; [by left|]. right. split; [lia|done].
Qed.

Lemma read_draft_spec valid p i d :
  (i ∈ valid → holds_draft p i d) → read_draft valid i p = (Ok (if bool_decide (i ∈ valid) then d else []), p).
Proof.
  intros H. unfold read_draft. case_bool_decide as Hi; [|done]. destruct (H Hi) as (Hc & row & Hr & Ht).
  rewrite run_get, run_of_res, (at_Ok _ _ _ Hc). cbv beta iota. destruct (Z.ltb_spec 0 (len d)) as [Hp|Hp].
  - rewrite run_of_res, (at_Ok _ _ _ Hr). unfold ret. cbv beta iota. f_equal. f_equal.
    assert (length d ≤ length row) by (rewrite <-Ht, length_take; lia).
    unfold slice_to, slice_bound. destruct (Z.ltb_spec (len d) 0); [lia|].
    replace (Z.to_nat (Z.min (len d) (len row))) with (length d) by (unfold len in *; lia). exact Ht.
  - destruct d; [done|]. rewrite len_cons in Hp. pose proof (len_nonneg d). lia.
Qed.
Lemma map_m_pure {S A B} (f : A → M S B) (g : A → B) l s :
  (∀ x, x ∈ l → f x s = (Ok (g x), s)) → map_m f l s = (Ok (g <$> l), s).
Proof.
  induction l as [|x l IH]; intros H; [done|]. cbn [map_m]. mstep (H x ltac:(left)).
  mstep (IH (λ y Hy, H y (list_elem_of_further y x l Hy))). done.
Qed.

(** What the buffers say for request [i] after the batch. *)
Definition batch_draft (p : NgramProposer) (valid : list nat) (nums : list Z) (ids : list (list Z)) (i : nat) : list Z :=
  match nums !! i, ids !! i with
  | Some num, Some row => if bool_decide (i ∈ valid) then proposal p (slice_to row num) else []
  | _, _ => []
  end.
Lemma batch_propose_spec valid nums ids p n :
  proposer_ok p n → NoDup valid → (∀ i, i ∈ valid → i < n ∧ is_Some (nums !! i) ∧ is_Some (ids !! i)) →
  ∃ p', batch_propose n valid nums ids p = (Ok (batch_draft p valid nums ids <$> seq 0 n), p') ∧
    proposer_ok p' n ∧ same_setup p p'.
Proof.
  intros Hok Hnd Hv. unfold batch_propose.
  assert (Hread : ∀ q, (∀ i, i ∈ valid → holds_draft q i (batch_draft p valid nums ids i)) →
    map_m (read_draft valid) (seq 0 n) q = (Ok (batch_draft p valid nums ids <$> seq 0 n), q)).
  { intros q Hq. apply map_m_pure. intros i _. rewrite (read_draft_spec valid q i (batch_draft p valid nums ids i)) by auto.
    f_equal. f_equal. case_bool_decide as Hi; [done|]. unfold batch_draft. rewrite bool_decide_false by done. by repeat case_match. }
  case_bool_decide as He; cbn [negb].
  { subst valid. rewrite run_ret. exists p. split; [|done]. apply Hread. by intros i ?%not_elem_of_nil. }
  destruct (batch_propose_numba_spec valid nums ids p n Hok Hnd Hv) as (p' & Hb & Hok' & Hs & Hd & _).
  mstep Hb. exists p'. split; [|done]. apply Hread. intros i Hi. destruct (Hv i Hi) as (_ & [num Hnum] & [row Hrow]).
  unfold batch_draft. rewrite Hnum, Hrow, bool_decide_true by done. by apply Hd.
Qed.

(** [propose] returns for every batch and depends only on the requests, not on
    what earlier batches left in the buffers: a request without sampled tokens or
    at the model length gets no draft, every other one the proposal for its
    tokens, which is no longer than [k] and stays within the model length. *)
Theorem batch_proposals_are_per_request p sampled nums ids :
  proposer_ok p (length sampled) → length nums = length sampled → length ids = length sampled →
  ∃ drafts p', propose sampled nums ids p = (Ok drafts, p') ∧ proposer_ok p' (length sampled) ∧ same_setup p p' ∧
    length drafts = length sampled ∧
    ∀ i tokens num row, sampled !! i = Some tokens → nums !! i = Some num → ids !! i = Some row →
      drafts !! i = Some (if bool_decide (tokens = []) || (proposer_max_model_len p <=? num)%Z then []
                          else proposal p (slice_to row num)) ∧
      length (proposal p (slice_to row num)) ≤ k_tokens p ∧
      (len (slice_to row num) ≤ proposer_max_model_len p →
       len (slice_to row num) + len (proposal p (slice_to row num)) ≤ proposer_max_model_len p)%Z.
Proof.
  intros Hok Hn Hi. unfold propose. rewrite run_get, run_of_res.
  destruct (needs_proposal_spec (proposer_max_model_len p) nums 0 sampled) as (valid & -> & Hnd & Hin).
  { intros j Hj. apply lookup_lt_is_Some_2. lia. }
  destruct (batch_propose_spec valid nums ids p (length sampled) Hok Hnd) as (q & Hq & Hq1 & Hq2).
  { intros i (_ & x & num & Hx & _)%Hin. rewrite Nat.sub_0_r in Hx. apply lookup_lt_Some in Hx.
    split; [done|]. split; apply lookup_lt_is_Some_2; lia. }
  cbv beta iota. rewrite Hq. eexists _, q. split; [done|]. split; [done|]. split; [done|].
  split; [by rewrite length_fmap, length_seq|]. intros i tokens num row Ht Hnum Hrow.
  split; [|apply proposal_bounds]. rewrite list_lookup_fmap, lookup_seq_lt by (by eapply lookup_lt_Some). cbn.
  f_equal. unfold batch_draft. rewrite Hnum, Hrow.
  destruct (bool_decide_reflect (tokens = [])) as [->|Hne]; cbn [orb].
  - rewrite bool_decide_false; [done|]. intros (_ & x & y & Hx & Hx' & _)%Hin. rewrite Nat.sub_0_r in Hx. by simplify_eq.
  - destruct (Z.leb_spec (proposer_max_model_len p) num).
    + rewrite bool_decide_false; [done|]. intros (_ & x & y & _ & _ & Hy & Hlt)%Hin. simplify_eq. lia.
    + rewrite bool_decide_true; [done|]. apply Hin. split; [lia|]. exists tokens, num. by rewrite Nat.sub_0_r.
Qed.

Definition demo_proposer : NgramProposer := new_NgramProposer 1 3 2 100 4.
Lemma batch_proposals_are_per_request_witness :
  (propose [[7]; []]%Z [5; 3]%Z [[1; 7; 8; 1; 7; 0]; [1; 1; 1; 0; 0; 0]]%Z demo_proposer).1 = Ok [[8; 1]; []]%Z ∧
  ∃ drafts p', propose [[7]; []]%Z [5; 3]%Z [[1; 7; 8; 1; 7; 0]; [1; 1; 1; 0; 0; 0]]%Z demo_proposer = (Ok drafts, p') ∧
    length drafts = 2.
Proof.
  split; [vm_compute; reflexivity|].
  destruct (batch_proposals_are_per_request demo_proposer [[7]; []]%Z [5; 3]%Z [[1; 7; 8; 1; 7; 0]; [1; 1; 1; 0; 0; 0]]%Z)
    as (drafts & p' & H & _ & _ & Hl & _); [|reflexivity|reflexivity|exists drafts, p'; split; [exact H|exact Hl]].
  split; cbn; [lia|lia|lia|reflexivity|repeat constructor].
Defined.
