(* ===== verification/Offload.v ===== *)
(** * KV-cache offloading to the CPU ([src/vllm/v1/kv_offload])

    [CPUOffloadingManager] keeps track of the blocks that were copied to CPU
    memory; which of them are evicted is decided by a [CachePolicy], LRU or ARC.
    The policy is a type class here as it is an abstract class there: the manager
    is defined over any policy, and its theorems rest on the laws a policy obeys,
    which are proved for both.  [FilterReusedOffloadingManager] stores only blocks
    that were looked up often enough.

    An [OrderedDict] is an association list in its order.  A [BlockStatus] object
    is in one dict of the policy at a time, so the assignments of the manager to
    its [ref_cnt] are updates of the entry; [ref_cnt] is a C int of 32 bits.
    [target_t1_size] of ARC is a float, in the standard library's model of IEEE
    binary64 arithmetic. *)
From Stdlib Require Import Floats.SpecFloat.
From S2P Require Import Prelude MathUtils Outcome.
Local Open Scope Z_scope.

(** [OffloadKey]: the bytes of a block hash and a group index. *)
Abbreviation OffloadKey := bytes.

(** [int.to_bytes(4, "big")] and [int.from_bytes]. *)
Definition to_bytes4 (n : Z) : res bytes :=
  if (n <? 0) || (2 ^ 32 <=? n) then Raise OverflowError
  else Ok [n / 2 ^ 24 mod 256; n / 2 ^ 16 mod 256; n / 2 ^ 8 mod 256; n mod 256].
Definition int_from_bytes (b : bytes) : Z := foldl (λ acc x, acc * 256 + x) 0 b.
Definition make_offload_key (block_hash : bytes) (group_idx : Z) : res OffloadKey :=
  tail ← to_bytes4 group_idx; Ok (block_hash ++ tail).
Definition get_offload_block_hash (key : OffloadKey) : bytes := slice_to key (-4).
Definition get_offload_group_idx (key : OffloadKey) : Z := int_from_bytes (slice_from key (-4)).

(* ===================================================================== *)
(** ** Blocks and ordered dicts                                           *)
(* ===================================================================== *)

(** Storing in a field of type [c_int32]. *)
Definition to_int32 (z : Z) : Z := (z + 2 ^ 31) mod 2 ^ 32 - 2 ^ 31.
Record BlockStatus := mkBlockStatus { ref_cnt : Z; block_id : Z }.
Definition new_BlockStatus (block_id : Z) : BlockStatus := mkBlockStatus (-1) block_id.
Definition is_ready (b : BlockStatus) : bool := 0 <=? ref_cnt b.
Definition with_ref_cnt (b : BlockStatus) (r : Z) : BlockStatus := mkBlockStatus (to_int32 r) (block_id b).

Section ordered_dict.
Context {V : Type}.
(** [d.get(k)], [d[k] = v], [d.pop(k, None)] and [d.move_to_end(k)]. *)
Fixpoint dget (k : OffloadKey) (d : list (OffloadKey * V)) : option V :=
  match d with
  | [] => None
  | (k', v) :: d' => if decide (k = k') then Some v else dget k d'
  end.
Fixpoint dset (k : OffloadKey) (v : V) (d : list (OffloadKey * V)) : list (OffloadKey * V) :=
  match d with
  | [] => [(k, v)]
  | (k', v') :: d' => if decide (k = k') then (k', v) :: d' else (k', v') :: dset k v d'
  end.
Fixpoint ddel (k : OffloadKey) (d : list (OffloadKey * V)) : list (OffloadKey * V) :=
  match d with
  | [] => []
  | (k', v) :: d' => if decide (k = k') then d' else (k', v) :: ddel k d'
  end.
Definition dmove_to_end (k : OffloadKey) (d : list (OffloadKey * V)) : list (OffloadKey * V) :=
  match dget k d with Some v => ddel k d ++ [(k, v)] | None => d end.
Definition dmem (k : OffloadKey) (d : list (OffloadKey * V)) : bool := is_some (dget k d).
End ordered_dict.

(* ===================================================================== *)
(** ** Cache policies                                                     *)
(* ===================================================================== *)

(** [CachePolicy]; [pol_put] is the assignment to the object behind a key. *)
Class CachePolicy (P : Type) := {
  pol_get : OffloadKey → P → option BlockStatus;
  pol_put : OffloadKey → BlockStatus → P → P;
  pol_insert : OffloadKey → BlockStatus → P → P;
  pol_remove : OffloadKey → P → res P;
  pol_touch : list OffloadKey → P → P;
  pol_evict : nat → list OffloadKey → P → option (list (OffloadKey * BlockStatus) * P);
}.

(** May be evicted. *)
Definition evictable (protected : list OffloadKey) (kb : OffloadKey * BlockStatus) : bool :=
  (ref_cnt kb.2 =? 0) && negb (bool_decide (kb.1 ∈ protected)).

(** [LRUCachePolicy]. *)
Record LRUCachePolicy := mkLRU { blocks : list (OffloadKey * BlockStatus) }.
Definition new_LRU (cache_capacity : Z) : LRUCachePolicy := mkLRU [].
Definition lru_remove (key : OffloadKey) (p : LRUCachePolicy) : res LRUCachePolicy :=
  if dmem key (blocks p) then Ok (mkLRU (ddel key (blocks p))) else Raise KeyError.
Definition lru_touch (keys : list OffloadKey) (p : LRUCachePolicy) : LRUCachePolicy :=
  mkLRU (foldl (λ d key, if dmem key d then dmove_to_end key d else d) (blocks p) (reverse keys)).
Definition lru_evict (n : nat) (protected : list OffloadKey) (p : LRUCachePolicy) :
    option (list (OffloadKey * BlockStatus) * LRUCachePolicy) :=
  if bool_decide (n = 0%nat) then Some ([], p)
  else
    let candidates := take n (filter (λ kb, evictable protected kb = true) (blocks p)) in
    if (length candidates <? n)%nat then None
    else Some (candidates, mkLRU (foldl (λ d kb, ddel kb.1 d) (blocks p) candidates)).
#[export] Instance lru_policy : CachePolicy LRUCachePolicy := {
  pol_get key p := dget key (blocks p);
  pol_put key b p := mkLRU (dset key b (blocks p));
  pol_insert key b p := mkLRU (dset key b (blocks p));
  pol_remove := lru_remove;
  pol_touch := lru_touch;
  pol_evict := lru_evict;
}.

(** Python floats; an [int] in an expression with floats is converted. *)
Abbreviation float := spec_float.
Definition of_int (n : Z) : float := binary_normalize 53 1024 n 0 false.
Definition fadd : float → float → float := SFadd 53 1024.
Definition fsub : float → float → float := SFsub 53 1024.
Definition fdiv : float → float → float := SFdiv 53 1024.
(** [int(x)] of a finite float. *)
Definition to_int (x : float) : Z :=
  match x with
  | S754_finite s m e =>
      let z := if 0 <=? e then Zpos m * 2 ^ e else Zpos m / 2 ^ (- e) in if s then - z else z
  | _ => 0
  end.
(** [max(a, b)] and [min(a, b)] keep the first argument on a tie. *)
Definition fmax (a b : float) : float := if SFltb a b then b else a.
Definition fmin (a b : float) : float := if SFltb b a then b else a.

(** [ARCCachePolicy]; the ghost lists hold keys only. *)
Record ARCCachePolicy := mkARC {
  cache_capacity : Z;
  target_t1_size : float;
  t1 : list (OffloadKey * BlockStatus);
  t2 : list (OffloadKey * BlockStatus);
  b1 : list (OffloadKey * unit);
  b2 : list (OffloadKey * unit);
}.
Definition new_ARC (cache_capacity : Z) : ARCCachePolicy := mkARC cache_capacity (S754_zero false) [] [] [] [].
Definition arc_get (key : OffloadKey) (p : ARCCachePolicy) : option BlockStatus :=
  match dget key (t1 p) with Some b => Some b | None => dget key (t2 p) end.
Definition arc_put (key : OffloadKey) (b : BlockStatus) (p : ARCCachePolicy) : ARCCachePolicy :=
  if dmem key (t1 p) then mkARC (cache_capacity p) (target_t1_size p) (dset key b (t1 p)) (t2 p) (b1 p) (b2 p)
  else mkARC (cache_capacity p) (target_t1_size p) (t1 p) (dset key b (t2 p)) (b1 p) (b2 p).
Definition arc_insert (key : OffloadKey) (b : BlockStatus) (p : ARCCachePolicy) : ARCCachePolicy :=
  mkARC (cache_capacity p) (target_t1_size p) (dset key b (t1 p)) (t2 p) (ddel key (b1 p)) (ddel key (b2 p)).
Definition arc_remove (key : OffloadKey) (p : ARCCachePolicy) : res ARCCachePolicy :=
  Ok (if dmem key (t1 p)
      then mkARC (cache_capacity p) (target_t1_size p) (ddel key (t1 p)) (t2 p) (b1 p) (b2 p)
      else mkARC (cache_capacity p) (target_t1_size p) (t1 p) (ddel key (t2 p)) (b1 p) (b2 p)).

(** One key of [touch]. *)
Definition arc_touch_one (p : ARCCachePolicy) (key : OffloadKey) : ARCCachePolicy :=
  let '(mkARC cap target t1 t2 b1 b2) := p in
  match dget key t1 with
  | Some block =>
      if negb (is_ready block) then mkARC cap target (dset key block (ddel key t1)) t2 b1 b2
      else mkARC cap target (ddel key t1) (dset key block t2) b1 b2
  | None =>
      if dmem key t2 then mkARC cap target t1 (dmove_to_end key t2) b1 b2
      else if dmem key b1 then
        let delta := fmax (of_int 1) (fdiv (of_int (len b2)) (of_int (len b1))) in
        mkARC cap (fmin (fadd target delta) (of_int cap)) t1 t2 (dmove_to_end key b1) b2
      else if dmem key b2 then
        let delta := fmax (of_int 1) (fdiv (of_int (len b1)) (of_int (len b2))) in
        mkARC cap (fmax (fsub target delta) (of_int 0)) t1 t2 b1 (dmove_to_end key b2)
      else p
  end.
Definition arc_touch (keys : list OffloadKey) (p : ARCCachePolicy) : ARCCachePolicy :=
  foldl arc_touch_one p (reverse keys).

(** The first block of a list that may be evicted and was not selected. *)
Definition first_candidate (protected selected : list OffloadKey) (d : list (OffloadKey * BlockStatus)) :
    option (OffloadKey * BlockStatus) :=
  head (filter (λ kb, evictable (protected ++ selected) kb = true) d).
(** The selection loop of [evict]: key, block and whether it is from T1. *)
Fixpoint arc_select (n : nat) (protected selected : list OffloadKey) (virtual_t1_size : Z) (p : ARCCachePolicy) :
    option (list (OffloadKey * BlockStatus * bool)) :=
  match n with
  | O => Some []
  | S n' =>
      let from_t1 := if to_int (target_t1_size p) <=? virtual_t1_size
                     then first_candidate protected selected (t1 p) else None in
      match from_t1 with
      | Some kb => cons (kb, true) <$> arc_select n' protected (kb.1 :: selected) (virtual_t1_size - 1) p
      | None =>
          match first_candidate protected selected (t2 p) with
          | Some kb => cons (kb, false) <$> arc_select n' protected (kb.1 :: selected) virtual_t1_size p
          | None => None
          end
      end
  end.
(** One eviction applied. *)
Definition arc_apply (p : ARCCachePolicy) (c : OffloadKey * BlockStatus * bool) : ARCCachePolicy :=
  let key := c.1.1 in
  if c.2 then mkARC (cache_capacity p) (target_t1_size p) (ddel key (t1 p)) (t2 p) (dset key tt (b1 p)) (b2 p)
  else mkARC (cache_capacity p) (target_t1_size p) (t1 p) (ddel key (t2 p)) (b1 p) (dset key tt (b2 p)).
Definition trim (capacity : Z) (ghost : list (OffloadKey * unit)) : list (OffloadKey * unit) :=
  drop (Z.to_nat (len ghost - capacity)) ghost.
Definition arc_evict (n : nat) (protected : list OffloadKey) (p : ARCCachePolicy) :
    option (list (OffloadKey * BlockStatus) * ARCCachePolicy) :=
  if bool_decide (n = 0%nat) then Some ([], p)
  else
    candidates ← arc_select n protected [] (len (t1 p)) p;
    let p' := foldl arc_apply p candidates in
    Some (candidates.*1, mkARC (cache_capacity p') (target_t1_size p') (t1 p') (t2 p')
                           (trim (cache_capacity p') (b1 p')) (trim (cache_capacity p') (b2 p'))).
#[export] Instance arc_policy : CachePolicy ARCCachePolicy := {
  pol_get := arc_get;
  pol_put := arc_put;
  pol_insert := arc_insert;
  pol_remove := arc_remove;
  pol_touch := arc_touch;
  pol_evict := arc_evict;
}.

(* ===================================================================== *)
(** ** The manager                                                        *)
(* ===================================================================== *)

Record OffloadingEvent := mkOffloadingEvent { ev_keys : list OffloadKey; removed : bool }.
Record PrepareStoreOutput := mkPrepareStoreOutput {
  keys_to_store : list OffloadKey;
  store_spec : list Z;
  evicted_keys : list OffloadKey;
}.
Record CPUOffloadingManager (P : Type) := mkManager {
  num_blocks : Z;
  num_allocated_blocks : Z;
  free_list : list Z;
  events : option (list OffloadingEvent);
  policy : P;
}.
Arguments mkManager {P}.
Arguments num_blocks {P}.
Arguments num_allocated_blocks {P}.
Arguments free_list {P}.
Arguments events {P}.
Arguments policy {P}.
#[export] Instance eta_Manager {P} : Eta (CPUOffloadingManager P) := λ m,
  mkManager (num_blocks m) (num_allocated_blocks m) (free_list m) (events m) (policy m).
#[export] Instance set_num_allocated_blocks {P} : Setter (@num_allocated_blocks P).
Proof. build_setter. Defined.
#[export] Instance set_free_list {P} : Setter (@free_list P).
Proof. build_setter. Defined.
#[export] Instance set_events {P} : Setter (@events P).
Proof. build_setter. Defined.
#[export] Instance set_policy {P} : Setter (@policy P).
Proof. build_setter. Defined.

(** [CPUOffloadingManager.__init__], with the policy object that the name selects. *)
Definition new_manager {P} (num_blocks : Z) (policy : P) (enable_events : bool) : CPUOffloadingManager P :=
  mkManager num_blocks 0 [] (if enable_events then Some [] else None) policy.

Section manager.
Context {P : Type} `{!CachePolicy P}.
Abbreviation M := (M (CPUOffloadingManager P)).

Definition _get_num_free_blocks (m : CPUOffloadingManager P) : Z :=
  len (free_list m) + num_blocks m - num_allocated_blocks m.

(** The two loops of [_allocate_blocks]. *)
Fixpoint allocate_fresh (n : nat) : M (list BlockStatus) :=
  match n with
  | O => ret []
  | S n' =>
      id <- gets num_allocated_blocks ;;
      modify (λ m, m <| num_allocated_blocks ::= Z.succ |>) ;;
      bs <- allocate_fresh n' ;;
      ret (new_BlockStatus id :: bs)
  end.
Fixpoint allocate_reused (n : nat) : M (list BlockStatus) :=
  match n with
  | O => ret []
  | S n' =>
      free <- gets free_list ;;
      id <- of_option IndexError (last free) ;;
      modify (λ m, m <| free_list ::= λ l, take (length l - 1) l |>) ;;
      bs <- allocate_reused n' ;;
      ret (new_BlockStatus id :: bs)
  end.
Definition _allocate_blocks (keys : list OffloadKey) : M (list BlockStatus) :=
  m <- get ;;
  let num_fresh := Z.min (len keys) (num_blocks m - num_allocated_blocks m) in
  let num_reused := len keys - num_fresh in
  assert_ (num_reused <=? len (free_list m)) ;;
  fresh <- allocate_fresh (Z.to_nat num_fresh) ;;
  reused <- allocate_reused (Z.to_nat num_reused) ;;
  ret (fresh ++ reused).
Definition _free_block (b : BlockStatus) : M unit := modify (λ m, m <| free_list ::= λ l, l ++ [block_id b] |>).
Definition emit_event (keys : list OffloadKey) (removed : bool) : M unit :=
  when (negb (bool_decide (keys = []))) do
    modify (λ m, m <| events ::= option_map (λ es, es ++ [mkOffloadingEvent keys removed]) |>).

(** [lookup]: [None] while the block is being written. *)
Definition manager_lookup (key : OffloadKey) : M (option bool) :=
  m <- get ;;
  match pol_get key (policy m) with
  | None => ret (Some false)
  | Some b => ret (if negb (is_ready b) then None else Some true)
  end.
Definition prepare_load_one (key : OffloadKey) : M Z :=
  m <- get ;;
  match pol_get key (policy m) with
  | None => raise AssertionError
  | Some b =>
      assert_ (is_ready b) ;;
      modify (λ m, m <| policy ::= pol_put key (with_ref_cnt b (ref_cnt b + 1)) |>) ;;
      ret (block_id b)
  end.
Definition prepare_load (keys : list OffloadKey) : M (list Z) := map_m prepare_load_one keys.
Definition manager_touch (keys : list OffloadKey) : M unit := modify (λ m, m <| policy ::= pol_touch keys |>).
Definition complete_load_one (key : OffloadKey) : M unit :=
  m <- get ;;
  match pol_get key (policy m) with
  | None => raise AssertionError
  | Some b =>
      assert_ (0 <? ref_cnt b) ;;
      modify (λ m, m <| policy ::= pol_put key (with_ref_cnt b (ref_cnt b - 1)) |>)
  end.
Definition complete_load (keys : list OffloadKey) : M unit := for_ keys complete_load_one.

(** Eviction in [prepare_store]; [None] when not enough blocks can go. *)
Definition make_room (n : Z) (keys : list OffloadKey) : M (option (list OffloadKey)) :=
  if n <=? 0 then ret (Some [])
  else
    m <- get ;;
    match pol_evict (Z.to_nat n) keys (policy m) with
    | None => ret None
    | Some (evicted, p) =>
        modify (λ m, m <| policy := p |>) ;;
        for_ evicted (λ kb, _free_block kb.2) ;;
        ret (Some evicted.*1)
    end.
Definition prepare_store (keys : list OffloadKey) : M (option PrepareStoreOutput) :=
  m <- get ;;
  let to_store := filter (λ k, is_none (pol_get k (policy m)) = true) keys in
  if bool_decide (to_store = []) then ret (Some (mkPrepareStoreOutput [] [] []))
  else
    evicted <- make_room (len to_store - _get_num_free_blocks m) keys ;;
    match evicted with
    | None => ret None
    | Some to_evict =>
        emit_event to_evict true ;;
        blocks <- _allocate_blocks to_store ;;
        assert_ (len blocks =? len to_store) ;;
        for_ (zip to_store blocks) (λ kb, modify (λ m, m <| policy ::= pol_insert kb.1 kb.2 |>)) ;;
        ret (Some (mkPrepareStoreOutput to_store (block_id <$> blocks) to_evict))
    end.

(** One key of [complete_store]; whether it was stored now. *)
Definition complete_store_one (success : bool) (key : OffloadKey) : M (list OffloadKey) :=
  m <- get ;;
  match pol_get key (policy m) with
  | None => ret []
  | Some b =>
      if is_ready b then ret []
      else if success then
        modify (λ m, m <| policy ::= pol_put key (with_ref_cnt b 0) |>) ;;
        ret [key]
      else
        p <- of_res (pol_remove key (policy m)) ;;
        modify (λ m, m <| policy := p |>) ;;
        _free_block b ;;
        ret []
  end.
Definition complete_store (keys : list OffloadKey) (success : bool) : M unit :=
  stored <- map_m (complete_store_one success) keys ;;
  emit_event (concat stored) false.
Definition manager_take_events : M (list OffloadingEvent) :=
  es <- gets events ;;
  modify (λ m, m <| events ::= option_map (λ _, []) |>) ;;
  ret (default [] es).
End manager.

(* ===================================================================== *)
(** ** Storing only what is reused                                        *)
(* ===================================================================== *)

Record FilterReusedOffloadingManager (P : Type) := mkFilter {
  backing : CPUOffloadingManager P;
  store_threshold : Z;
  max_tracker_size : Z;
  counts : list (OffloadKey * Z);
}.
Arguments mkFilter {P}.
Arguments backing {P}.
Arguments store_threshold {P}.
Arguments max_tracker_size {P}.
Arguments counts {P}.
Definition new_filter {P} (backing : CPUOffloadingManager P) (store_threshold max_tracker_size : Z) :
    res (FilterReusedOffloadingManager P) :=
  if store_threshold <? 2 then Raise ValueError
  else if max_tracker_size <? 1 then Raise ValueError
  else Ok (mkFilter backing store_threshold max_tracker_size []).
(** The tracker after a lookup of [key]. *)
Definition track (max_tracker_size : Z) (key : OffloadKey) (counts : list (OffloadKey * Z)) : list (OffloadKey * Z) :=
  match dget key counts with
  | Some n => dset key (n + 1) (dmove_to_end key counts)
  | None => (if max_tracker_size <=? len counts then tail counts else counts) ++ [(key, 1)]
  end.
Section filter.
Context {P : Type} `{!CachePolicy P}.
Definition on_backing {A} (op : M (CPUOffloadingManager P) A) : M (FilterReusedOffloadingManager P) A :=
  zoom backing (λ b f, mkFilter b (store_threshold f) (max_tracker_size f) (counts f)) op.
Definition filter_lookup (key : OffloadKey) : M (FilterReusedOffloadingManager P) (option bool) :=
  modify (λ f, mkFilter (backing f) (store_threshold f) (max_tracker_size f)
                 (track (max_tracker_size f) key (counts f))) ;;
  on_backing (manager_lookup key).
Definition filter_prepare_store (keys : list OffloadKey) : M (FilterReusedOffloadingManager P) (option PrepareStoreOutput) :=
  f <- get ;;
  on_backing (prepare_store (filter (λ k, store_threshold f ≤ default 0 (dget k (counts f))) keys)).
(** The other methods go to the backing manager. *)
Definition filter_prepare_load (keys : list OffloadKey) : M (FilterReusedOffloadingManager P) (list Z) :=
  on_backing (prepare_load keys).
Definition filter_touch (keys : list OffloadKey) : M (FilterReusedOffloadingManager P) unit := on_backing (manager_touch keys).
Definition filter_complete_load (keys : list OffloadKey) : M (FilterReusedOffloadingManager P) unit :=
  on_backing (complete_load keys).
Definition filter_complete_store (keys : list OffloadKey) (success : bool) : M (FilterReusedOffloadingManager P) unit :=
  on_backing (complete_store keys success).
Definition filter_take_events : M (FilterReusedOffloadingManager P) (list OffloadingEvent) := on_backing manager_take_events.
End filter.
