(* ===== verification/OffloadPolicy.v ===== *)
(** * What a cache policy promises

    [PolicyLaws] is the contract of [CachePolicy]: a policy is a finite map from
    keys to blocks, [touch] changes the order only and [evict] removes exactly [n]
    idle, unprotected blocks or nothing.  LRU and ARC are instances; for ARC the
    contract rests on the four lists never sharing a key. *)
From S2P Require Import Prelude MathUtils Outcome Offload.
Local Open Scope Z_scope.

(* ===================================================================== *)
(** ** Ordered dicts as finite maps                                       *)
(* ===================================================================== *)

Section dicts.
Context {V : Type}.
Implicit Types d : list (OffloadKey * V).
Definition dmap d : gmap OffloadKey V := list_to_map d.

Lemma dget_map k d : dget k d = dmap d !! k.
Proof.
  unfold dmap. induction d as [|[k' v] d IH]; simpl; [by rewrite lookup_empty|].
  case_decide as E; [subst; by rewrite lookup_insert_eq|by rewrite lookup_insert_ne].
Qed.
Lemma dmem_map k d : dmem k d = is_some (dmap d !! k).
Proof. unfold dmem. by rewrite dget_map. Qed.
Lemma dmap_none k d : dmap d !! k = None ↔ k ∉ d.*1.
Proof. unfold dmap. symmetry. apply not_elem_of_list_to_map. Qed.
Lemma dmap_app d d' : dmap (d ++ d') = dmap d ∪ dmap d'.
Proof. apply list_to_map_app. Qed.

Lemma dset_map k v d : dmap (dset k v d) = <[k:=v]> (dmap d).
Proof.
  unfold dmap. induction d as [|[k' v'] d IH]; simpl; [done|]. case_decide as E; simpl.
  - subst. by rewrite insert_insert_eq.
  - rewrite IH. by rewrite insert_insert_ne by done.
Qed.
Lemma dset_keys k v x d : x ∈ (dset k v d).*1 ↔ x = k ∨ x ∈ d.*1.
Proof.
  induction d as [|[k' v'] d IH]; simpl; [set_solver|]. case_decide as E; simpl; [subst; set_solver|].
  rewrite !elem_of_cons, IH. tauto.
Qed.
Lemma dset_nodup k v d : NoDup d.*1 → NoDup (dset k v d).*1.
Proof.
  induction d as [|[k' v'] d IH]; simpl; [intros _; apply NoDup_singleton|]. case_decide as E; simpl; [done|].
  intros [H1 H2]%NoDup_cons. apply NoDup_cons. rewrite dset_keys. split; [naive_solver|auto].
Qed.

Lemma ddel_absent k d : k ∉ d.*1 → ddel k d = d.
Proof.
  induction d as [|[k' v] d IH]; simpl; [done|]. rewrite not_elem_of_cons. intros [H1 H2].
  rewrite decide_False by done. by rewrite IH.
Qed.
Lemma ddel_filter k d : NoDup d.*1 → ddel k d = filter (λ kv, kv.1 ≠ k) d.
Proof.
  induction d as [|[k' v] d IH]; simpl; [done|]. intros [H1 H2]%NoDup_cons. case_decide as E.
  - subst. rewrite filter_cons_False by (simpl; auto). rewrite <-IH by done. by rewrite ddel_absent.
  - rewrite filter_cons_True by (simpl; auto). by rewrite IH.
Qed.
Lemma ddel_nodup k d : NoDup d.*1 → NoDup (ddel k d).*1.
Proof.
  intros Hd. rewrite ddel_filter by done. eapply sublist_NoDup; [exact Hd|]. apply fmap_sublist, sublist_filter.
Qed.
Lemma ddel_map k d : NoDup d.*1 → dmap (ddel k d) = delete k (dmap d).
Proof.
  unfold dmap. induction d as [|[k' v] d IH]; simpl; [intros _; by rewrite delete_empty|].
  intros [H1 H2]%NoDup_cons. case_decide as E; simpl.
  - subst. rewrite delete_insert_id by (by apply not_elem_of_list_to_map). done.
  - rewrite IH by done. by rewrite delete_insert_ne by done.
Qed.
Lemma ddel_keys k x d : NoDup d.*1 → x ∈ (ddel k d).*1 ↔ x ≠ k ∧ x ∈ d.*1.
Proof.
  intros Hd. rewrite ddel_filter by done. rewrite !list_elem_of_fmap. split.
  - intros (kv & -> & [H1 H2]%list_elem_of_filter). split; [done|]. by exists kv.
  - intros (H1 & kv & -> & H2). exists kv. split; [done|]. by apply list_elem_of_filter.
Qed.
Lemma dmove_map k d : NoDup d.*1 → dmap (dmove_to_end k d) = dmap d.
Proof.
  intros Hd. unfold dmove_to_end. rewrite dget_map. destruct (dmap d !! k) as [v|] eqn:E; [|done].
  rewrite dmap_app, ddel_map by done. unfold dmap at 2. simpl. apply map_eq. intros x.
  destruct (decide (x = k)) as [->|Hx].
  - rewrite lookup_union_r by apply lookup_delete_eq. by rewrite lookup_insert_eq.
  - rewrite lookup_union_l by (by rewrite lookup_insert_ne). by rewrite lookup_delete_ne.
Qed.
Lemma dmove_nodup k d : NoDup d.*1 → NoDup (dmove_to_end k d).*1.
Proof.
  intros Hd. unfold dmove_to_end. destruct (dget k d) as [v|]; [|done]. rewrite fmap_app. simpl.
  apply NoDup_app. split_and!; [by apply ddel_nodup| |apply NoDup_singleton].
  intros x Hx%ddel_keys; [set_solver|done].
Qed.
Lemma dmap_elem k v d : NoDup d.*1 → (k, v) ∈ d ↔ dmap d !! k = Some v.
Proof. intros Hd. unfold dmap. by apply elem_of_list_to_map. Qed.
End dicts.

Section perms.
Context {V : Type}.
Implicit Types d : list (OffloadKey * V).
Lemma dset_keys_absent k v d : k ∉ d.*1 → (dset k v d).*1 ≡ₚ k :: d.*1.
Proof.
  induction d as [|[k' v'] d IH]; simpl; [done|]. rewrite not_elem_of_cons. intros [H1 H2].
  rewrite decide_False by done. simpl. rewrite IH by done. apply perm_swap.
Qed.
Lemma dset_keys_present k v d : k ∈ d.*1 → (dset k v d).*1 = d.*1.
Proof.
  induction d as [|[k' v'] d IH]; simpl; [by intros ?%not_elem_of_nil|]. intros H.
  case_decide as E; simpl; [done|]. f_equal. apply IH. apply elem_of_cons in H as [|]; done.
Qed.
Lemma ddel_keys_perm k d : k ∈ d.*1 → d.*1 ≡ₚ k :: (ddel k d).*1.
Proof.
  induction d as [|[k' v'] d IH]; simpl; [by intros ?%not_elem_of_nil|]. intros H.
  case_decide as E; simpl; [by subst|]. apply elem_of_cons in H as [|H]; [done|]. rewrite IH by done. apply perm_swap.
Qed.
Lemma ddel_keys_sub k d : ∃ l, d.*1 ≡ₚ l ++ (ddel k d).*1.
Proof.
  destruct (decide (k ∈ d.*1)) as [H|H]; [exists [k]; by apply ddel_keys_perm|exists []; by rewrite ddel_absent].
Qed.
Lemma dmove_keys_perm k d : (dmove_to_end k d).*1 ≡ₚ d.*1.
Proof.
  unfold dmove_to_end. destruct (dget k d) as [v|] eqn:E; [|done]. rewrite fmap_app. simpl.
  rewrite <-Permutation_cons_append. symmetry. apply ddel_keys_perm. rewrite dget_map in E.
  apply dec_stable. intros H. apply dmap_none in H. congruence.
Qed.
Lemma dmem_keys k d : dmem k d = true ↔ k ∈ d.*1.
Proof.
  rewrite dmem_map. destruct (dmap d !! k) eqn:E; simpl.
  - split; [intros _|done]. apply dec_stable. intros H%dmap_none. congruence.
  - apply dmap_none in E. split; done.
Qed.
End perms.

(* ===================================================================== *)
(** ** The contract of a cache policy                                     *)
(* ===================================================================== *)

(** The map without the listed entries. *)
Definition without {V} (m : gmap OffloadKey V) (l : list (OffloadKey * V)) : gmap OffloadKey V :=
  foldl (λ m kb, delete kb.1 m) m l.

Class PolicyLaws (P : Type) `{!CachePolicy P} := {
  pol_ok : P → Prop;
  pol_map : P → gmap OffloadKey BlockStatus;
  get_law p k : pol_ok p → pol_get k p = pol_map p !! k;
  put_law p k b : pol_ok p → is_Some (pol_map p !! k) →
    pol_ok (pol_put k b p) ∧ pol_map (pol_put k b p) = <[k:=b]> (pol_map p);
  insert_law p k b : pol_ok p → pol_map p !! k = None →
    pol_ok (pol_insert k b p) ∧ pol_map (pol_insert k b p) = <[k:=b]> (pol_map p);
  remove_law p k : pol_ok p → is_Some (pol_map p !! k) →
    ∃ p', pol_remove k p = Ok p' ∧ pol_ok p' ∧ pol_map p' = delete k (pol_map p);
  touch_law p ks : pol_ok p → pol_ok (pol_touch ks p) ∧ pol_map (pol_touch ks p) = pol_map p;
  evict_law p n prot ev p' : pol_ok p → pol_evict n prot p = Some (ev, p') →
    length ev = n ∧ NoDup ev.*1 ∧ pol_ok p' ∧ pol_map p' = without (pol_map p) ev ∧
    ∀ k b, (k, b) ∈ ev → pol_map p !! k = Some b ∧ ref_cnt b = 0 ∧ k ∉ prot;
}.

Lemma evictable_spec prot kb : evictable prot kb = true ↔ ref_cnt kb.2 = 0 ∧ kb.1 ∉ prot.
Proof. unfold evictable. rewrite andb_true_iff, negb_true_iff, Z.eqb_eq, bool_decide_eq_false. done. Qed.

(** *** LRU *)
Definition lru_ok (p : LRUCachePolicy) : Prop := NoDup (blocks p).*1.
Definition lru_map (p : LRUCachePolicy) : gmap OffloadKey BlockStatus := dmap (blocks p).

Lemma lru_touch_law ks p : lru_ok p → lru_ok (lru_touch ks p) ∧ lru_map (lru_touch ks p) = lru_map p.
Proof.
  unfold lru_ok, lru_map, lru_touch. destruct p as [d]. simpl. generalize (reverse ks). intros l. revert d.
  induction l as [|k l IH]; intros d Hd; simpl; [done|].
  destruct (dmem k d); [|by apply IH]. destruct (IH (dmove_to_end k d)) as [H1 H2]; [by apply dmove_nodup|].
  rewrite H2, dmove_map by done. done.
Qed.
Lemma foldl_ddel_law {V} (ev : list (OffloadKey * V)) d :
  NoDup d.*1 → NoDup (foldl (λ d kb, ddel kb.1 d) d ev).*1 ∧ dmap (foldl (λ d kb, ddel kb.1 d) d ev) = without (dmap d) ev.
Proof.
  revert d. induction ev as [|[k b] ev IH]; intros d Hd; simpl; [done|].
  destruct (IH (ddel k d)) as [H1 H2]; [by apply ddel_nodup|]. split; [done|]. rewrite H2, ddel_map by done. done.
Qed.
Lemma lru_evict_law p n prot ev p' : lru_ok p → lru_evict n prot p = Some (ev, p') →
  length ev = n ∧ NoDup ev.*1 ∧ lru_ok p' ∧ lru_map p' = without (lru_map p) ev ∧
  ∀ k b, (k, b) ∈ ev → lru_map p !! k = Some b ∧ ref_cnt b = 0 ∧ k ∉ prot.
Proof.
  unfold lru_ok, lru_map, lru_evict. intros Hp. case_bool_decide as En; [intros [= <- <-]; subst|].
  { split_and!; try done; [apply NoDup_nil_2|by intros k b ?%not_elem_of_nil]. }
  set (c := take n _). destruct (Nat.ltb_spec (length c) n) as [|Hn]; [done|]. intros [= <- <-]. simpl.
  assert (Hc : c `sublist_of` blocks p).
  { etrans; [apply sublist_take|apply sublist_filter]. }
  destruct (foldl_ddel_law c (blocks p) Hp) as [H1 H2].
  split; [subst c; rewrite length_take in *; lia|]. split; [eapply sublist_NoDup; [exact Hp|by apply fmap_sublist]|].
  split; [done|]. split; [done|]. intros k b Hk. apply elem_of_take in Hk as (i & Hk & _).
  apply list_elem_of_lookup_2, list_elem_of_filter in Hk as [Hk Hin]. apply evictable_spec in Hk.
  split; [by apply dmap_elem|done].
Qed.
#[export] Program Instance lru_laws : PolicyLaws LRUCachePolicy := {
  pol_ok := lru_ok; pol_map := lru_map;
}.
Next Obligation. intros p k _. apply dget_map. Qed.
Next Obligation. intros p k b Hp _. split; [by apply dset_nodup|apply dset_map]. Qed.
Next Obligation. intros p k b Hp _. split; [by apply dset_nodup|apply dset_map]. Qed.
Next Obligation.
  intros p k Hp [b Hb]. simpl. unfold lru_remove. rewrite dmem_map. unfold lru_map in *. rewrite Hb. simpl.
  eexists. split; [done|]. split; [by apply ddel_nodup|by apply ddel_map].
Qed.
Next Obligation. intros p ks. apply lru_touch_law. Qed.
Next Obligation. exact lru_evict_law. Qed.

(** *** ARC *)

(** The four lists have no key twice, and the ghost lists are bounded. *)
Definition arc_keys (p : ARCCachePolicy) : list OffloadKey := (t1 p).*1 ++ (t2 p).*1 ++ (b1 p).*1 ++ (b2 p).*1.
Record arc_ok (p : ARCCachePolicy) : Prop := {
  arc_nodup : NoDup (arc_keys p);
  arc_b1 : len (b1 p) ≤ Z.max 0 (cache_capacity p);
  arc_b2 : len (b2 p) ≤ Z.max 0 (cache_capacity p);
}.
Definition arc_map (p : ARCCachePolicy) : gmap OffloadKey BlockStatus := dmap (t1 p) ∪ dmap (t2 p).

Lemma arc_t1 p : NoDup (arc_keys p) → NoDup (t1 p).*1.
Proof. unfold arc_keys. by intros (? & ? & ?)%NoDup_app. Qed.
Lemma arc_t2 p : NoDup (arc_keys p) → NoDup (t2 p).*1.
Proof. unfold arc_keys. by intros (? & ? & (? & ? & ?)%NoDup_app)%NoDup_app. Qed.
Lemma arc_apart p k : NoDup (arc_keys p) → k ∈ (t1 p).*1 → k ∉ (t2 p).*1 ∧ k ∉ (b1 p).*1 ∧ k ∉ (b2 p).*1.
Proof. unfold arc_keys. intros (_ & H & _)%NoDup_app Hk. specialize (H k Hk). set_solver. Qed.
Lemma arc_apart2 p k : NoDup (arc_keys p) → k ∈ (t2 p).*1 → k ∉ (t1 p).*1 ∧ k ∉ (b1 p).*1 ∧ k ∉ (b2 p).*1.
Proof.
  unfold arc_keys. intros (_ & H1 & (_ & H & _)%NoDup_app)%NoDup_app Hk. specialize (H k Hk).
  split; [intros H'; apply H1 in H'|]; set_solver.
Qed.
Lemma arc_disjoint p : NoDup (arc_keys p) → dmap (t1 p) ##ₘ dmap (t2 p).
Proof.
  intros Hp. apply map_disjoint_spec. intros k x y Hx Hy.
  apply dmap_elem, (list_elem_of_fmap_2 fst) in Hx; [|by apply arc_t1].
  apply dmap_elem, (list_elem_of_fmap_2 fst) in Hy; [|by apply arc_t2]. simpl in *.
  by destruct (arc_apart p k Hp Hx).
Qed.
Lemma in_map {V} k (d : list (OffloadKey * V)) : is_Some (dmap d !! k) ↔ k ∈ d.*1.
Proof. rewrite <-not_eq_None_Some, dmap_none. split; [apply dec_stable|auto]. Qed.

(** Fewer keys in each list. *)
Lemma NoDup_part {A} (l k k' : list A) : k ≡ₚ l ++ k' → NoDup k → NoDup k'.
Proof. intros -> (_ & _ & H)%NoDup_app. done. Qed.
Lemma arc_keys_sub p p' l : arc_keys p ≡ₚ l ++ arc_keys p' → NoDup (arc_keys p) → NoDup (arc_keys p').
Proof. apply NoDup_part. Qed.

Lemma arc_get_law p k : arc_get k p = arc_map p !! k.
Proof.
  unfold arc_get, arc_map. rewrite !dget_map. destruct (dmap (t1 p) !! k) eqn:E.
  - symmetry. by apply lookup_union_Some_l.
  - by rewrite lookup_union_r.
Qed.
Lemma arc_put_law p k b : arc_ok p → is_Some (arc_map p !! k) →
  arc_ok (arc_put k b p) ∧ arc_map (arc_put k b p) = <[k:=b]> (arc_map p).
Proof.
  intros [Hp Hb1 Hb2] Hk. unfold arc_put, arc_map in *. rewrite dmem_map.
  destruct (dmap (t1 p) !! k) as [b'|] eqn:E; simpl; rewrite dset_map.
  - rewrite insert_union_l. split; [|done]. split; try done. unfold arc_keys in *. simpl.
    by rewrite dset_keys_present by (by apply in_map).
  - rewrite insert_union_r by done. split; [|done]. rewrite lookup_union_r in Hk by done.
    split; try done. unfold arc_keys in *. simpl. by rewrite dset_keys_present by (by apply in_map).
Qed.
Lemma arc_insert_law p k b : arc_ok p → arc_map p !! k = None →
  arc_ok (arc_insert k b p) ∧ arc_map (arc_insert k b p) = <[k:=b]> (arc_map p).
Proof.
  intros [Hp Hb1 Hb2] Hk. unfold arc_insert, arc_map in *. simpl. rewrite dset_map, insert_union_l. split; [|done].
  apply lookup_union_None in Hk as [Hk1%dmap_none Hk2%dmap_none].
  destruct (ddel_keys_sub k (b1 p)) as [l1 Hl1]. destruct (ddel_keys_sub k (b2 p)) as [l2 Hl2].
  assert (Hlen : ∀ d : list (OffloadKey * unit), len (ddel k d) ≤ len d).
  { intros d. destruct (ddel_keys_sub k d) as [l Hl%Permutation_length]. rewrite length_app, !length_fmap in Hl. unfold len. lia. }
  split; simpl; [|etrans; [apply Hlen|done]..]. unfold arc_keys in *. simpl. rewrite dset_keys_absent by done.
  assert (Hn : k ∉ (ddel k (b1 p)).*1 ∧ k ∉ (ddel k (b2 p)).*1).
  { apply NoDup_app in Hp as (_ & _ & (_ & _ & (H1 & _ & H2)%NoDup_app)%NoDup_app). rewrite !ddel_keys by done. tauto. }
  assert (Hd : NoDup ((t1 p).*1 ++ (t2 p).*1 ++ (ddel k (b1 p)).*1 ++ (ddel k (b2 p)).*1)).
  { rewrite Hl1, Hl2 in Hp. eapply (NoDup_part (l1 ++ l2)); [|exact Hp]. solve_Permutation. }
  apply NoDup_cons. split; [|done]. rewrite !elem_of_app. tauto.
Qed.
Lemma arc_remove_law p k : arc_ok p → is_Some (arc_map p !! k) →
  ∃ p', arc_remove k p = Ok p' ∧ arc_ok p' ∧ arc_map p' = delete k (arc_map p).
Proof.
  intros [Hp Hb1 Hb2] Hk. unfold arc_remove, arc_map in *. rewrite dmem_map. eexists. split; [done|].
  destruct (dmap (t1 p) !! k) as [b'|] eqn:E; simpl; rewrite delete_union, ddel_map by (by first [apply arc_t1|apply arc_t2]).
  - assert (Hin : k ∈ (t1 p).*1) by (by apply in_map). destruct (arc_apart p k Hp Hin) as (H2 & _).
    rewrite (delete_id (dmap (t2 p))) by (by apply dmap_none). split; [|done]. split; try done.
    eapply (arc_keys_sub p _ [k]); [|done]. unfold arc_keys. simpl. rewrite (ddel_keys_perm k (t1 p)) by done. done.
  - rewrite (delete_id (dmap (t1 p))) by done. split; [|done]. rewrite lookup_union_r in Hk by done.
    split; try done. eapply (arc_keys_sub p _ [k]); [|done]. unfold arc_keys. simpl.
    rewrite (ddel_keys_perm k (t2 p)) by (by apply in_map). solve_Permutation.
Qed.

Lemma dmove_len {V} k (d : list (OffloadKey * V)) : len (dmove_to_end k d) = len d.
Proof. unfold len. rewrite <-!(length_fmap fst). f_equal. apply Permutation_length, dmove_keys_perm. Qed.
Lemma arc_touch_one_law p k : arc_ok p → arc_ok (arc_touch_one p k) ∧ arc_map (arc_touch_one p k) = arc_map p.
Proof.
  intros [Hp Hb1 Hb2]. pose proof (arc_t1 p Hp) as Ht1. pose proof (arc_t2 p Hp) as Ht2.
  pose proof (arc_apart p k Hp) as Hap. destruct p as [cap tg t1 t2 b1 b2]. simpl in *.
  unfold arc_map, arc_keys in *; simpl in *. rewrite dget_map. destruct (dmap t1 !! k) as [b|] eqn:E.
  - assert (Hin : k ∈ t1.*1) by (by apply in_map). destruct (Hap Hin) as (H2 & _). destruct (is_ready b); simpl.
    + rewrite dset_map, ddel_map, union_delete_insert by done. split; [|done]. split; try done. unfold arc_keys; simpl.
      rewrite dset_keys_absent by done. eapply (NoDup_part []); [|exact Hp]. rewrite (ddel_keys_perm k t1) by done. solve_Permutation.
    + rewrite dset_map, ddel_map, insert_delete_id by done. split; [|done]. split; try done. unfold arc_keys; simpl.
      rewrite dset_keys_absent by (by rewrite ddel_keys; [intros []|]). by rewrite <-ddel_keys_perm.
  - destruct (dmem k t2); simpl; [|destruct (dmem k b1); simpl; [|destruct (dmem k b2); simpl]].
    + rewrite dmove_map by done. split; [|done]. split; try done. unfold arc_keys; simpl. by rewrite dmove_keys_perm.
    + split; [|done]. split; simpl; [|by rewrite dmove_len|done]. unfold arc_keys; simpl. by rewrite dmove_keys_perm.
    + split; [|done]. split; simpl; [|done|by rewrite dmove_len]. unfold arc_keys; simpl. by rewrite dmove_keys_perm.
    + split; [|done]. by split.
Qed.
Lemma arc_touch_law ks p : arc_ok p → arc_ok (arc_touch ks p) ∧ arc_map (arc_touch ks p) = arc_map p.
Proof.
  unfold arc_touch. generalize (reverse ks). intros l. revert p. induction l as [|k l IH]; intros p Hp; simpl; [done|].
  destruct (arc_touch_one_law p k Hp) as [H1 H2]. destruct (IH _ H1) as [H3 H4]. split; [done|]. by rewrite H4.
Qed.

(** What the selection loop returns. *)
Definition side (from_t1 : bool) (p : ARCCachePolicy) : list (OffloadKey * BlockStatus) := if from_t1 then t1 p else t2 p.
Lemma first_candidate_spec prot sel d kb : first_candidate prot sel d = Some kb →
  kb ∈ d ∧ ref_cnt kb.2 = 0 ∧ kb.1 ∉ prot ∧ kb.1 ∉ sel.
Proof.
  unfold first_candidate. intros H%head_Some_elem_of. apply list_elem_of_filter in H as [[H1 H2]%evictable_spec H3].
  set_solver.
Qed.
Lemma arc_select_spec n prot sel v p cs : arc_select n prot sel v p = Some cs →
  length cs = n ∧ NoDup cs.*1.*1 ∧
  Forall (λ c, c.1 ∈ side c.2 p ∧ ref_cnt c.1.2 = 0 ∧ c.1.1 ∉ prot ∧ c.1.1 ∉ sel) cs.
Proof.
  revert sel v cs. induction n as [|n IH]; intros sel v cs; simpl.
  { intros [= <-]. split_and!; [done|apply NoDup_nil_2|constructor]. }
  assert (Hcase : ∀ kb f v', first_candidate prot sel (side f p) = Some kb →
    (cons (kb, f) <$> arc_select n prot (kb.1 :: sel) v' p) = Some cs →
    length cs = S n ∧ NoDup cs.*1.*1 ∧
    Forall (λ c, c.1 ∈ side c.2 p ∧ ref_cnt c.1.2 = 0 ∧ c.1.1 ∉ prot ∧ c.1.1 ∉ sel) cs).
  { intros kb f v' Hkb%first_candidate_spec (cs' & H & ->)%fmap_Some.
    apply IH in H as (H1 & H2 & H3). split; [simpl; congruence|]. simpl. rewrite NoDup_cons. split_and!; [|done|].
    - intros (c & Hc & Hin)%list_elem_of_fmap. apply list_elem_of_fmap in Hin as (c' & -> & Hin).
      rewrite Forall_forall in H3. destruct (H3 _ Hin) as (_ & _ & _ & H). rewrite <-Hc in H. set_solver.
    - constructor; [done|]. eapply Forall_impl; [exact H3|]. intros c (? & ? & ? & ?). set_solver. }
  intros H. case_match eqn:E1.
  - case_match; [|done]. by apply (Hcase p0 true (v - 1)).
  - case_match eqn:E2; [|done]. by apply (Hcase p0 false v).
Qed.

Lemma arc_apply_law p c : NoDup (arc_keys p) → c.1 ∈ side c.2 p →
  NoDup (arc_keys (arc_apply p c)) ∧ arc_map (arc_apply p c) = delete c.1.1 (arc_map p) ∧
  cache_capacity (arc_apply p c) = cache_capacity p ∧
  ∀ f kb, kb.1 ≠ c.1.1 → kb ∈ side f p → kb ∈ side f (arc_apply p c).
Proof.
  destruct c as [[k b] f]. simpl. intros Hp Hin. pose proof (arc_t1 p Hp) as Ht1. pose proof (arc_t2 p Hp) as Ht2.
  apply (list_elem_of_fmap_2 fst) in Hin as Hk. simpl in Hk. unfold arc_apply, arc_map. simpl.
  rewrite delete_union. destruct f; simpl in *; (split_and!; [| |done|]).
  - destruct (arc_apart p k Hp Hk) as (? & ? & ?). eapply (NoDup_part []); [|exact Hp]. unfold arc_keys. simpl.
    rewrite dset_keys_absent, (ddel_keys_perm k (t1 p)) by done. solve_Permutation.
  - destruct (arc_apart p k Hp Hk) as (? & ? & ?). rewrite ddel_map by done. by rewrite (delete_id (dmap (t2 p))) by (by apply dmap_none).
  - intros f kb Hne. destruct f; simpl; [|done]. rewrite ddel_filter, list_elem_of_filter by done. auto.
  - destruct (arc_apart2 p k Hp Hk) as (? & ? & ?). eapply (NoDup_part []); [|exact Hp]. unfold arc_keys. simpl.
    rewrite dset_keys_absent, (ddel_keys_perm k (t2 p)) by done. solve_Permutation.
  - destruct (arc_apart2 p k Hp Hk) as (? & ? & ?). rewrite ddel_map by done. by rewrite (delete_id (dmap (t1 p))) by (by apply dmap_none).
  - intros f kb Hne. destruct f; simpl; [done|]. rewrite ddel_filter, list_elem_of_filter by done. auto.
Qed.
Lemma arc_apply_all cs p : NoDup (arc_keys p) → NoDup cs.*1.*1 → Forall (λ c, c.1 ∈ side c.2 p) cs →
  NoDup (arc_keys (foldl arc_apply p cs)) ∧ arc_map (foldl arc_apply p cs) = without (arc_map p) cs.*1.
Proof.
  revert p. induction cs as [|c cs IH]; intros p Hp; simpl; [done|].
  intros [Hc Hcs]%NoDup_cons [Hin Hall]%Forall_cons. destruct (arc_apply_law p c Hp Hin) as (H1 & H2 & _ & H4).
  destruct (IH (arc_apply p c)) as [H5 H6]; [done|done| |split; [done|]; by rewrite H6, H2].
  rewrite Forall_forall in *. intros c' Hc'. apply H4; [|by apply Hall]. intros Heq. apply Hc. rewrite <-Heq.
  by do 2 apply list_elem_of_fmap_2.
Qed.
Lemma len_trim cap g : len (trim cap g) ≤ Z.max 0 cap.
Proof. unfold trim, len. rewrite length_drop. lia. Qed.
Lemma arc_evict_law p n prot ev p' : arc_ok p → arc_evict n prot p = Some (ev, p') →
  length ev = n ∧ NoDup ev.*1 ∧ arc_ok p' ∧ arc_map p' = without (arc_map p) ev ∧
  ∀ k b, (k, b) ∈ ev → arc_map p !! k = Some b ∧ ref_cnt b = 0 ∧ k ∉ prot.
Proof.
  intros Hok. pose proof (arc_nodup p Hok) as Hp. unfold arc_evict. case_bool_decide as En.
  { intros [= <- <-]. subst. split_and!; try done; [apply NoDup_nil_2|by intros k b ?%not_elem_of_nil]. }
  intros (cs & Hcs & [= <- <-])%bind_Some. apply arc_select_spec in Hcs as (H1 & H2 & H3).
  destruct (arc_apply_all cs p Hp H2) as [H4 H5]; [eapply Forall_impl; [exact H3|]; naive_solver|].
  split_and!; [by rewrite length_fmap|done| |done|].
  - split; simpl; [|apply len_trim..]. set (q := foldl _ _ _) in *. unfold arc_keys in *. simpl.
    eapply (NoDup_part ((take (Z.to_nat (len (b1 q) - cache_capacity q)) (b1 q)).*1 ++
      (take (Z.to_nat (len (b2 q) - cache_capacity q)) (b2 q)).*1)); [|exact H4].
    rewrite <-(take_drop (Z.to_nat (len (b1 q) - cache_capacity q)) (b1 q)) at 1.
    rewrite <-(take_drop (Z.to_nat (len (b2 q) - cache_capacity q)) (b2 q)) at 1. rewrite !fmap_app. unfold trim. solve_Permutation.
  - intros k b (c & Heq & Hin)%list_elem_of_fmap. rewrite Forall_forall in H3. destruct (H3 c Hin) as (Hs & Hr & Hn & _).
    destruct c as [kb f]. simpl in *. subst kb. split; [|done]. unfold arc_map.
    apply lookup_union_Some; [by apply arc_disjoint|].
    destruct f; simpl in Hs; [left|right]; (apply dmap_elem; [|done]); [by apply arc_t1|by apply arc_t2].
Qed.
#[export] Program Instance arc_laws : PolicyLaws ARCCachePolicy := {
  pol_ok := arc_ok; pol_map := arc_map;
}.
Next Obligation. intros p k _. apply arc_get_law. Qed.
Next Obligation. exact arc_put_law. Qed.
Next Obligation. exact arc_insert_law. Qed.
Next Obligation. exact arc_remove_law. Qed.
Next Obligation. intros p ks. apply arc_touch_law. Qed.
Next Obligation. exact arc_evict_law. Qed.

Lemma new_LRU_ok cap : pol_ok (new_LRU cap) ∧ pol_map (new_LRU cap) = ∅.
Proof. split; [apply NoDup_nil_2|done]. Qed.
Lemma new_ARC_ok cap : pol_ok (new_ARC cap) ∧ pol_map (new_ARC cap) = ∅.
Proof. split; [|done]. split; simpl; [apply NoDup_nil_2|rewrite len_nil; lia..]. Qed.
