(* ===== verification/OffloadInv.v ===== *)
(** * The offloading manager on top of a cache policy

    Proved against [PolicyLaws], so for LRU and for ARC: the blocks of the pool are
    partitioned into stored and free ones whatever is called, a store takes
    distinct blocks that nothing reads, what is being read stays where it is, and
    a completed store can be read. *)
From S2P Require Import Prelude MathUtils Outcome Offload OffloadPolicy.
Local Open Scope Z_scope.

(* ===================================================================== *)
(** ** The pool of blocks                                                 *)
(* ===================================================================== *)

(** The blocks of a map of entries. *)
Definition ids (e : gmap OffloadKey BlockStatus) : list Z := block_id <$> (map_to_list e).*2.

Lemma ids_insert e k b : e !! k = None → ids (<[k:=b]> e) ≡ₚ block_id b :: ids e.
Proof. intros H. unfold ids. by rewrite map_to_list_insert. Qed.
Lemma ids_delete e k b : e !! k = Some b → ids e ≡ₚ block_id b :: ids (delete k e).
Proof. intros H. unfold ids. by rewrite <-(map_to_list_delete e k b). Qed.
Lemma ids_update e k b b' : e !! k = Some b → block_id b' = block_id b → ids (<[k:=b']> e) ≡ₚ ids e.
Proof.
  intros H Hb. rewrite (ids_delete e k b) by done. rewrite <-insert_delete_eq, ids_insert by apply lookup_delete_eq. by rewrite Hb.
Qed.
Lemma length_ids e : length (ids e) = size e.
Proof. unfold ids. by rewrite !length_fmap, length_map_to_list. Qed.
Lemma ids_lookup e k b : e !! k = Some b → block_id b ∈ ids e.
Proof. intros H. rewrite ids_delete by done. by left. Qed.

Lemma without_lookup {V} (ev : list (OffloadKey * V)) m k :
  without m ev !! k = if decide (k ∈ ev.*1) then None else m !! k.
Proof.
  revert m. induction ev as [|[k' b] ev IH]; intros m.
  { simpl fmap. by rewrite decide_False by apply not_elem_of_nil. }
  unfold without in *. cbn [foldl]. rewrite IH. cbn [fst fmap list_fmap]. destruct (decide (k ∈ ev.*1)) as [H|H].
  - by rewrite decide_True by (by right).
  - destruct (decide (k = k')) as [->|Hne]; [by rewrite lookup_delete_eq, decide_True by left|].
    rewrite lookup_delete_ne, decide_False by (by rewrite ?elem_of_cons; naive_solver). done.
Qed.
Lemma ids_without ev e : NoDup ev.*1 → (∀ k b, (k, b) ∈ ev → e !! k = Some b) →
  ids e ≡ₚ (block_id <$> ev.*2) ++ ids (without e ev).
Proof.
  revert e. induction ev as [|[k b] ev IH]; intros e; simpl; [done|]. intros [Hk Hev]%NoDup_cons Hin.
  rewrite (ids_delete e k b) by (apply Hin; by left). apply perm_skip. apply IH; [done|]. intros k' b' H'.
  rewrite lookup_delete_ne; [apply Hin; by right|]. intros ->. apply Hk. by apply (list_elem_of_fmap_2 fst) in H'.
Qed.
Lemma ids_union l e : NoDup l.*1 → (∀ k, k ∈ l.*1 → e !! k = None) →
  ids (list_to_map l ∪ e) ≡ₚ (block_id <$> l.*2) ++ ids e.
Proof.
  induction l as [|[k b] l IH]; simpl; [intros _ _; by rewrite (left_id_L ∅ (∪))|]. intros [Hk Hl]%NoDup_cons Hno.
  rewrite <-insert_union_l. rewrite ids_insert; [by rewrite IH by (done || (intros; apply Hno; by right))|].
  apply lookup_union_None. split; [by apply not_elem_of_list_to_map|apply Hno; by left].
Qed.

(** Unfold the assignments to the manager. *)
Local Arguments setter _ _ _ _ _ /.
Local Arguments set_num_allocated_blocks _ _ _ /.
Local Arguments set_free_list _ _ _ /.
Local Arguments set_events _ _ _ /.
Local Arguments set_policy _ _ _ /.

Section manager.
Context {P : Type} `{!CachePolicy P, !PolicyLaws P} (pool : Z).
Implicit Types m : CPUOffloadingManager P.

Definition entries m : gmap OffloadKey BlockStatus := pol_map (policy m).

(** Every block of the [pool] handed out so far is either of one entry or free, once. *)
Record man_ok m : Prop := {
  ok_policy : pol_ok (policy m);
  ok_num : num_blocks m = pool;
  ok_count : 0 ≤ num_allocated_blocks m ≤ num_blocks m;
  ok_part : ids (entries m) ++ free_list m ≡ₚ seqZ 0 (num_allocated_blocks m);
}.

Lemma free_count m : man_ok m → _get_num_free_blocks m = num_blocks m - Z.of_nat (size (entries m)).
Proof.
  intros [_ _ Hc Hp%Permutation_length]. rewrite length_app, length_ids, length_seqZ in Hp. unfold _get_num_free_blocks, len. lia.
Qed.

Lemma allocate_fresh_spec n nb al fr ev p :
  allocate_fresh n (mkManager nb al fr ev p) =
    (Ok (new_BlockStatus <$> seqZ al (Z.of_nat n)), mkManager (P := P) nb (al + Z.of_nat n) fr ev p).
Proof.
  revert al. induction n as [|n IH]; intros al; simpl.
  { by rewrite Z.add_0_r. }
  unfold bind, gets, modify. cbn. rewrite IH. unfold ret. cbn -[seqZ Z.of_nat].
  rewrite (seqZ_cons al) by lia. replace (Z.pred (Z.of_nat (S n))) with (Z.of_nat n) by lia.
  by replace (Z.succ al + Z.of_nat n) with (al + Z.of_nat (S n)) by lia.
Qed.
Lemma allocate_reused_spec n nb al fr ev p : (n ≤ length fr)%nat →
  allocate_reused n (mkManager nb al fr ev p) =
    (Ok (new_BlockStatus <$> take n (reverse fr)), mkManager (P := P) nb al (take (length fr - n) fr) ev p).
Proof.
  revert fr. induction n as [|n IH]; intros fr Hn; simpl.
  { rewrite Nat.sub_0_r. by rewrite take_ge by lia. }
  destruct fr as [|x fr _] using rev_ind; [simpl in Hn; lia|]. rewrite length_app in Hn. simpl in Hn.
  unfold bind, gets, modify, of_option. cbn. rewrite last_snoc. cbn.
  rewrite length_app. simpl. replace (length fr + 1 - 1)%nat with (length fr) by lia.
  rewrite take_app_length. rewrite IH by lia. rewrite reverse_snoc, firstn_cons. cbn.
  by rewrite take_app_le by lia; replace (length fr + 1 - S n)%nat with (length fr - n)%nat by lia.
Qed.
Lemma allocate_blocks_spec ks nb al fr ev p : al ≤ nb → len ks ≤ len fr + nb - al →
  ∃ l fr', _allocate_blocks ks (mkManager nb al fr ev p) =
    (Ok (new_BlockStatus <$> l), mkManager (P := P) nb (al + Z.min (len ks) (nb - al)) fr' ev p) ∧
    length l = length ks ∧ l ++ fr' ≡ₚ fr ++ seqZ al (Z.min (len ks) (nb - al)).
Proof.
  intros Hal Hlen. pose proof (len_nonneg fr). unfold _allocate_blocks. rewrite run_get. simpl. rewrite run_assert.
  rewrite (proj2 (Z.leb_le _ _)) by lia. set (f := Z.min _ _).
  assert (Hf : 0 ≤ f ≤ len ks) by (pose proof (len_nonneg ks); lia).
  exists (seqZ al f ++ take (Z.to_nat (len ks - f)) (reverse fr)), (take (length fr - Z.to_nat (len ks - f)) fr).
  unfold bind. rewrite allocate_fresh_spec, Z2Nat.id by lia. rewrite allocate_reused_spec by (unfold len in *; lia).
  split; [unfold ret; by rewrite fmap_app|]. split.
  { rewrite length_app, length_take, length_reverse, length_seqZ. unfold len in *. lia. }
  set (n := Z.to_nat _). rewrite take_reverse, reverse_Permutation. trans (seqZ al f ++ (take (length fr - n) fr ++ drop (length fr - n) fr));
    [solve_Permutation|]. rewrite take_drop. solve_Permutation.
Qed.

(* ===================================================================== *)
(** ** The operations                                                     *)
(* ===================================================================== *)

Lemma pol_get_entries m k : man_ok m → pol_get k (policy m) = entries m !! k.
Proof. intros [Hp _ _ _]. by apply get_law. Qed.

(** An assignment to the count of an entry. *)
Lemma put_ok m k b r : man_ok m → entries m !! k = Some b →
  man_ok (m <| policy ::= pol_put k (with_ref_cnt b r) |>) ∧
  entries (m <| policy ::= pol_put k (with_ref_cnt b r) |>) = <[k:=with_ref_cnt b r]> (entries m).
Proof.
  intros [Hp Hn0 Hc Hpart] Hk. destruct m as [nb al fr ev p]. unfold entries in *. simpl in *.
  destruct (put_law p k (with_ref_cnt b r) Hp) as [H1 H2]; [by eexists|]. split; [|done]. split; try done. unfold entries. simpl.
  by rewrite H2, ids_update.
Qed.

(** The count of one entry may change, never its block: what [prepare_load],
    [complete_load] and a successful [complete_store] do to the entries. *)
Definition same_blocks (e e' : gmap OffloadKey BlockStatus) : Prop :=
  ∀ k, block_id <$> e !! k = block_id <$> e' !! k.
#[export] Instance same_blocks_preorder : PreOrder same_blocks.
Proof. split; [done|]. intros x y z H1 H2 k. by rewrite H1. Qed.
Lemma same_blocks_put e k b r : e !! k = Some b → same_blocks e (<[k:=with_ref_cnt b r]> e).
Proof. intros H k'. destruct (decide (k = k')) as [<-|Hne]; [by rewrite lookup_insert_eq, H|by rewrite lookup_insert_ne]. Qed.

Lemma prepare_load_one_ok m k : man_ok m →
  let '(r, m') := prepare_load_one k m in
  man_ok m' ∧
  match r with
  | Ok id => ∃ b, entries m !! k = Some b ∧ is_ready b = true ∧ id = block_id b ∧
      entries m' = <[k:=with_ref_cnt b (ref_cnt b + 1)]> (entries m)
  | Raise _ => m' = m
  end.
Proof.
  intros Hm. unfold prepare_load_one. rewrite run_get, pol_get_entries by done.
  destruct (entries m !! k) as [b|] eqn:E; [|done]. rewrite run_assert. destruct (is_ready b) eqn:Er; [|done].
  rewrite run_modify. unfold ret. destruct (put_ok m k b (ref_cnt b + 1) Hm E) as [H1 H2]. split; [done|]. by exists b.
Qed.
Lemma complete_load_one_ok m k : man_ok m →
  let '(r, m') := complete_load_one k m in
  man_ok m' ∧
  match r with
  | Ok _ => ∃ b, entries m !! k = Some b ∧ 0 < ref_cnt b ∧ entries m' = <[k:=with_ref_cnt b (ref_cnt b - 1)]> (entries m)
  | Raise _ => m' = m
  end.
Proof.
  intros Hm. unfold complete_load_one. rewrite run_get, pol_get_entries by done.
  destruct (entries m !! k) as [b|] eqn:E; [|done]. rewrite run_assert. destruct (Z.ltb_spec 0 (ref_cnt b)); [|done].
  unfold modify. destruct (put_ok m k b (ref_cnt b - 1) Hm E) as [H1 H2]. split; [done|]. by exists b.
Qed.

(** The entry of a key that is being written, completed or given up. *)
Lemma complete_store_one_ok m k success : man_ok m →
  ∃ stored m', complete_store_one success k m = (Ok stored, m') ∧ man_ok m' ∧
  entries m' = match entries m !! k with
               | Some b => if is_ready b then entries m
                           else if success then <[k:=with_ref_cnt b 0]> (entries m) else delete k (entries m)
               | None => entries m
               end ∧
  num_blocks m' = num_blocks m ∧ num_allocated_blocks m' = num_allocated_blocks m.
Proof.
  intros Hm. unfold complete_store_one. rewrite run_get, pol_get_entries by done.
  destruct (entries m !! k) as [b|] eqn:E; [|by exists [], m]. destruct (is_ready b) eqn:Er; [by exists [], m|].
  destruct success.
  - rewrite run_modify. destruct (put_ok m k b 0 Hm E) as [H1 H2]. eexists _, _. by split_and!.
  - rewrite run_of_res. destruct Hm as [Hp Hn0 Hc Hpart]. destruct m as [nb al fr ev p]. unfold entries in *. simpl in *.
    destruct (remove_law p k Hp) as (p' & -> & H1 & H2); [by eexists|]. rewrite run_modify. cbn.
    eexists _, _. split; [done|]. split; [|done]. split; try done. unfold entries. simpl. rewrite H2.
    rewrite (ids_delete _ k b) in Hpart by done. rewrite <-Hpart. solve_Permutation.
Qed.

(** Loops: a property of the state that every turn keeps, whatever its outcome. *)
Lemma for_keeps {A} (R : CPUOffloadingManager P → Prop) (f : A → M (CPUOffloadingManager P) unit) l m :
  (∀ x m, x ∈ l → R m → R (f x m).2) → R m → R (for_ l f m).2.
Proof.
  revert m. induction l as [|x l IH]; intros m Hf Hm; simpl; [done|]. unfold bind.
  pose proof (Hf x m ltac:(by left) Hm) as Hx. destruct (f x m) as [[u|e] m']; [|done]. apply IH; [|done].
  intros y s Hy. apply Hf. by right.
Qed.
Lemma map_keeps {A B} (R : CPUOffloadingManager P → Prop) (f : A → M (CPUOffloadingManager P) B) l m :
  (∀ x m, x ∈ l → R m → R (f x m).2) → R m → R (map_m f l m).2.
Proof.
  revert m. induction l as [|x l IH]; intros m Hf Hm; simpl; [done|]. unfold bind.
  pose proof (Hf x m ltac:(by left) Hm) as Hx. destruct (f x m) as [[u|e] m']; [|done].
  assert (H : R (map_m f l m').2) by (apply IH; [intros y s Hy; apply Hf; by right|done]).
  destruct (map_m f l m') as [[ys|e] m'']; done.
Qed.

Lemma emit_ok ks r nb al fr ev p : ∃ ev', emit_event ks r (mkManager nb al fr ev p) = (Ok tt, mkManager (P := P) nb al fr ev' p).
Proof. unfold emit_event. case_bool_decide; by eexists. Qed.
Lemma free_loop (evd : list (OffloadKey * BlockStatus)) nb al fr ev p :
  for_ evd (λ kb, _free_block kb.2) (mkManager nb al fr ev p) =
    (Ok tt, mkManager (P := P) nb al (fr ++ (block_id <$> evd.*2)) ev p).
Proof.
  revert fr. induction evd as [|[k b] evd IH]; intros fr; simpl; [by rewrite app_nil_r|].
  unfold bind, _free_block, modify. cbn. rewrite IH. by rewrite <-app_assoc.
Qed.
Lemma insert_loop kbs nb al fr ev p : pol_ok p → NoDup kbs.*1 → (∀ k, k ∈ kbs.*1 → pol_map p !! k = None) →
  ∃ p', for_ kbs (λ kb, modify (λ m, m <| policy ::= pol_insert kb.1 kb.2 |>)) (mkManager nb al fr ev p) =
      (Ok tt, mkManager nb al fr ev p') ∧
    pol_ok p' ∧ pol_map p' = list_to_map kbs ∪ pol_map p.
Proof.
  revert p. induction kbs as [|[k b] kbs IH]; intros p Hp Hnd Hno; simpl.
  { exists p. by rewrite (left_id_L ∅ (∪)). }
  apply NoDup_cons in Hnd as [Hk Hnd]. destruct (insert_law p k b Hp) as [H1 H2]; [apply Hno; by left|].
  destruct (IH (pol_insert k b p)) as (p' & Hp' & H3 & H4); [done|done| |].
  { intros k' Hk'. rewrite H2, lookup_insert_ne by (intros ->; done). apply Hno. by right. }
  exists p'. split; [exact Hp'|]. split; [done|]. rewrite H4, H2. simpl.
  by rewrite <-insert_union_l, <-insert_union_r by (by apply not_elem_of_list_to_map).
Qed.

(** What [prepare_store] stores: the absent keys, in blocks of which those that
    were in use are taken from entries that are idle and not asked for. *)
Definition absent m (keys : list OffloadKey) : list OffloadKey := filter (λ k, entries m !! k = None) keys.
Record stored m keys (o : PrepareStoreOutput) m' : Prop := {
  st_keys : keys_to_store o = absent m keys;
  st_length : length (store_spec o) = length (keys_to_store o);
  st_evicted : ∃ evd : list (OffloadKey * BlockStatus), evicted_keys o = evd.*1 ∧ NoDup evd.*1 ∧
    Z.of_nat (length evd) = Z.max 0 (len (absent m keys) - _get_num_free_blocks m) ∧
    (∀ k b, (k, b) ∈ evd → entries m !! k = Some b ∧ ref_cnt b = 0 ∧ k ∉ keys) ∧
    entries m' = list_to_map (zip (keys_to_store o) (new_BlockStatus <$> store_spec o)) ∪ without (entries m) evd;
}.

(** Room is made, or the policy found none and nothing changed. *)
Lemma make_room_ok n keys m : man_ok m →
  let '(r, m') := make_room n keys m in
  match r with
  | Ok None => m' = m ∧ 0 < n ∧ pol_evict (Z.to_nat n) keys (policy m) = None
  | Ok (Some l) => ∃ evd, l = evd.*1 ∧ NoDup evd.*1 ∧ Z.of_nat (length evd) = Z.max 0 n ∧
      (∀ k b, (k, b) ∈ evd → entries m !! k = Some b ∧ ref_cnt b = 0 ∧ k ∉ keys) ∧
      entries m' = without (entries m) evd ∧ man_ok m' ∧
      num_blocks m' = num_blocks m ∧ num_allocated_blocks m' = num_allocated_blocks m
  | Raise _ => False
  end.
Proof.
  intros Hm. unfold make_room. destruct (Z.leb_spec n 0) as [Hn|Hn].
  { exists []. split_and!; try done; [apply NoDup_nil_2|simpl; lia|by intros k b ?%not_elem_of_nil]. }
  rewrite run_get. destruct (pol_evict (Z.to_nat n) keys (policy m)) as [[evd p']|] eqn:E; [|done].
  destruct Hm as [Hp Hn0 Hc Hpart]. destruct (evict_law _ _ _ _ _ Hp E) as (H1 & H2 & H3 & H4 & H5).
  destruct m as [nb al fr ev p]. unfold entries in *. simpl in *. rewrite run_modify. cbn. unfold bind. rewrite free_loop.
  exists evd. split_and!; try done; [lia|]. split; try done. unfold entries. simpl. rewrite H4.
  rewrite (ids_without evd) in Hpart by (try done; intros k b Hk; by apply H5). rewrite <-Hpart. solve_Permutation.
Qed.
Lemma new_ids (l : list Z) : block_id <$> (new_BlockStatus <$> l) = l.
Proof. rewrite <-list_fmap_compose. apply list_fmap_id. Qed.
Lemma fst_zip_new (ks : list OffloadKey) (l : list Z) :
  length l = length ks → (zip ks (new_BlockStatus <$> l)).*1 = ks.
Proof. intros H. apply fst_zip. rewrite length_fmap. lia. Qed.

(** Entering the allocated blocks. *)
Lemma enter_ok ks l nb al fr ev p : pol_ok p → NoDup ks → length l = length ks →
  (∀ k, k ∈ ks → pol_map p !! k = None) → nb = pool → 0 ≤ al ≤ nb → l ++ ids (pol_map p) ++ fr ≡ₚ seqZ 0 al →
  ∃ m', for_ (zip ks (new_BlockStatus <$> l)) (λ kb, modify (λ m, m <| policy ::= pol_insert kb.1 kb.2 |>))
      (mkManager nb al fr ev p) = (Ok tt, m') ∧ man_ok m' ∧
    entries m' = list_to_map (zip ks (new_BlockStatus <$> l)) ∪ pol_map p.
Proof.
  intros Hp Hks Hl Hno Hnb Hal Hpart. pose proof (fst_zip_new ks l Hl) as Hf.
  destruct (insert_loop (zip ks (new_BlockStatus <$> l)) nb al fr ev p) as (p' & Hp' & H1 & H2); rewrite ?Hf; [done..|].
  eexists. split; [exact Hp'|]. split; [|exact H2]. split; try done. unfold entries. simpl. rewrite H2.
  rewrite ids_union by (by rewrite Hf). rewrite snd_zip by (rewrite length_fmap; lia). rewrite new_ids. by rewrite <-app_assoc.
Qed.

Lemma prepare_store_ok m keys : man_ok m → NoDup keys →
  let '(r, m') := prepare_store keys m in
  let n := len (absent m keys) - _get_num_free_blocks m in
  match r with
  | Ok None => m' = m ∧ 0 < n ∧ pol_evict (Z.to_nat n) keys (policy m) = None
  | Ok (Some o) => man_ok m' ∧ stored m keys o m'
  | Raise _ => False
  end.
Proof.
  intros Hm Hnd. unfold prepare_store. rewrite run_get.
  assert (Hts : filter (λ k, is_none (pol_get k (policy m)) = true) keys = absent m keys).
  { apply filter_ext_in. intros k _. rewrite pol_get_entries by done. by destruct (entries m !! k). }
  rewrite Hts. assert (Hfree : 0 ≤ _get_num_free_blocks m).
  { destruct Hm as [_ _ ? _]. unfold _get_num_free_blocks. pose proof (len_nonneg (free_list m)). lia. }
  case_bool_decide as E.
  { split; [done|]. split; simpl; [done|done|]. exists []. rewrite E. split_and!; try done; [apply NoDup_nil_2|rewrite (@len_nil OffloadKey); simpl length; lia| |].
    - by intros k b ?%not_elem_of_nil.
    - simpl. by rewrite (left_id_L ∅ (∪)). }
  pose proof (make_room_ok (len (absent m keys) - _get_num_free_blocks m) keys m Hm) as Hroom. unfold bind at 1.
  destruct (make_room _ keys m) as [[[l|]|e] m1]; [|done|done].
  destruct Hroom as (evd & -> & He1 & He2 & He3 & He4 & Hm1 & Hnb & Hal).
  pose proof (free_count m1 Hm1) as Hf1. pose proof (free_count m Hm) as Hf.
  assert (Hsz : Z.of_nat (size (entries m)) = Z.of_nat (length evd) + Z.of_nat (size (entries m1))).
  { rewrite He4, <-!length_ids. rewrite (ids_without evd (entries m)) by (try done; intros k b Hk; by apply He3).
    rewrite length_app, !length_fmap. lia. }
  destruct m1 as [nb al fr ev p]. destruct Hm1 as [Hp Hn0 Hc Hpart]. unfold entries, _get_num_free_blocks in *. simpl in *.
  destruct (emit_ok evd.*1 true nb al fr ev p) as [ev' Hev]. mstep Hev.
  destruct (allocate_blocks_spec (absent m keys) nb al fr ev' p) as (ls & fr' & Ha & Hl & Hperm); [lia|lia|]. mstep Ha.
  rewrite run_assert. unfold len at 1. rewrite length_fmap, Hl, Z.eqb_refl.
  set (f := Z.min _ _) in *. assert (Hf0 : 0 ≤ f) by (unfold f; pose proof (len_nonneg (absent m keys)); lia).
  destruct (enter_ok (absent m keys) ls nb (al + f) fr' ev' p) as (m' & Hm' & Hok & Hent); try done.
  - by apply NoDup_filter.
  - intros k [Hk _]%list_elem_of_filter. rewrite He4, without_lookup. case_decide; [done|exact Hk].
  - lia.
  - rewrite seqZ_app, <-Hpart by lia. trans (ids (pol_map p) ++ (ls ++ fr')); [solve_Permutation|]. rewrite Hperm, Z.add_0_l. solve_Permutation.
  - mstep Hm'. split; [done|]. split; simpl; [done|by rewrite new_ids|]. exists evd. rewrite new_ids.
    split_and!; try done. by rewrite Hent, He4.
Qed.

(* ===================================================================== *)
(** ** Sequences of calls                                                 *)
(* ===================================================================== *)

(** The calls of the scheduler on the manager; [run_call] is the state after a
    call, whether it returned or raised. *)
Inductive call :=
  | CLookup (key : OffloadKey)
  | CPrepareLoad (keys : list OffloadKey)
  | CTouch (keys : list OffloadKey)
  | CCompleteLoad (keys : list OffloadKey)
  | CPrepareStore (keys : list OffloadKey)
  | CCompleteStore (keys : list OffloadKey) (success : bool)
  | CTakeEvents.
Definition run_call m (c : call) : CPUOffloadingManager P :=
  match c with
  | CLookup k => (manager_lookup k m).2
  | CPrepareLoad ks => (prepare_load ks m).2
  | CTouch ks => (manager_touch ks m).2
  | CCompleteLoad ks => (complete_load ks m).2
  | CPrepareStore ks => (prepare_store ks m).2
  | CCompleteStore ks success => (complete_store ks success m).2
  | CTakeEvents => (manager_take_events m).2
  end.
(** The keys of one [prepare_store] are distinct. *)
Definition call_ok (c : call) : Prop := match c with CPrepareStore ks => NoDup ks | _ => True end.

Lemma lookup_same m k : (manager_lookup k m).2 = m.
Proof. unfold manager_lookup. rewrite run_get. by destruct (pol_get k (policy m)). Qed.
Lemma touch_entries m ks : man_ok m → man_ok (manager_touch ks m).2 ∧ entries (manager_touch ks m).2 = entries m.
Proof.
  intros [Hp Hn0 Hc Hpart]. destruct m as [nb al fr ev p]. unfold manager_touch, modify, entries in *. simpl in *.
  destruct (touch_law p ks Hp) as [H1 H2]. split; [|done]. split; try done. unfold entries. simpl. by rewrite H2.
Qed.
Lemma emit_keeps m ks r : man_ok m → man_ok (emit_event ks r m).2 ∧ entries (emit_event ks r m).2 = entries m.
Proof. destruct m as [nb al fr ev p]. destruct (emit_ok ks r nb al fr ev p) as [ev' ->]. intros [Hp Hn0 Hc Hpart]; by split. Qed.
Lemma take_events_keeps m : man_ok m → man_ok (manager_take_events m).2 ∧ entries (manager_take_events m).2 = entries m.
Proof. destruct m as [nb al fr ev p]. intros [Hp Hn0 Hc Hpart]; by split. Qed.

(** A property of the entries that every completed key keeps. *)
Lemma complete_store_keeps (R : gmap OffloadKey BlockStatus → Prop) ks (success : bool) m :
  man_ok m → R (entries m) →
  (∀ k e b, k ∈ ks → R e → e !! k = Some b → is_ready b = false →
     R (if success then <[k:=with_ref_cnt b 0]> e else delete k e)) →
  man_ok (complete_store ks success m).2 ∧ R (entries (complete_store ks success m).2).
Proof.
  intros Hm HR Hstep. unfold complete_store. unfold bind.
  assert (H : man_ok (map_m (complete_store_one success) ks m).2 ∧ R (entries (map_m (complete_store_one success) ks m).2)).
  { apply (map_keeps (λ m, man_ok m ∧ R (entries m))); [|done]. intros k m1 Hk [H1 H2].
    destruct (complete_store_one_ok m1 k success H1) as (st & m2 & -> & H3 & H4 & _). simpl. split; [done|]. rewrite H4.
    destruct (entries m1 !! k) as [b|] eqn:E; [|done]. destruct (is_ready b) eqn:Er; [done|].
    pose proof (Hstep k _ b Hk H2 E Er). by destruct success. }
  destruct (map_m _ ks m) as [[st|e] m1]; [|done]. simpl in H. destruct H as [H1 H2].
  destruct (emit_keeps m1 (concat st) false H1) as [H3 H4]. by rewrite H4.
Qed.
(** The same for the keys of a load, whose counts change by [d]. *)
Lemma loads_keep (R : gmap OffloadKey BlockStatus → Prop) ks m :
  man_ok m → R (entries m) →
  (∀ k e b, k ∈ ks → R e → e !! k = Some b → is_ready b = true → R (<[k:=with_ref_cnt b (ref_cnt b + 1)]> e)) →
  man_ok (prepare_load ks m).2 ∧ R (entries (prepare_load ks m).2).
Proof.
  intros Hm HR Hstep. apply (map_keeps (λ m, man_ok m ∧ R (entries m))); [|done]. intros k m1 Hk [H1 H2].
  pose proof (prepare_load_one_ok m1 k H1) as H. destruct (prepare_load_one k m1) as [[id|e] m2]; simpl.
  - destruct H as (Hm2 & b & H3 & H4 & _ & ->). eauto.
  - by destruct H as [_ ->].
Qed.
Lemma completes_keep (R : gmap OffloadKey BlockStatus → Prop) ks m :
  man_ok m → R (entries m) →
  (∀ k e b, k ∈ ks → R e → e !! k = Some b → 0 < ref_cnt b → R (<[k:=with_ref_cnt b (ref_cnt b - 1)]> e)) →
  man_ok (complete_load ks m).2 ∧ R (entries (complete_load ks m).2).
Proof.
  intros Hm HR Hstep. apply (for_keeps (λ m, man_ok m ∧ R (entries m))); [|done]. intros k m1 Hk [H1 H2].
  pose proof (complete_load_one_ok m1 k H1) as H. destruct (complete_load_one k m1) as [[id|e] m2]; simpl.
  - destruct H as (Hm2 & b & H3 & H4 & ->). eauto.
  - by destruct H as [_ ->].
Qed.

Lemma run_call_ok m c : man_ok m → call_ok c → man_ok (run_call m c).
Proof.
  intros Hm Hc. destruct c as [k|ks|ks|ks|ks|ks s|]; simpl.
  - by rewrite lookup_same.
  - by apply (loads_keep (λ _, True)).
  - by apply touch_entries.
  - by apply (completes_keep (λ _, True)).
  - pose proof (prepare_store_ok m ks Hm Hc) as H. destruct (prepare_store ks m) as [[[o|]|e] m']; simpl; [|by destruct H as [-> _]|done].
    by destruct H.
  - by apply (complete_store_keeps (λ _, True)).
  - by apply take_events_keeps.
Qed.
Lemma run_calls_ok cs m : man_ok m → Forall call_ok cs → man_ok (foldl run_call m cs).
Proof.
  revert m. induction cs as [|c cs IH]; intros m Hm; simpl; [done|]. intros [Hc Hcs]%Forall_cons.
  apply IH; [by apply run_call_ok|done].
Qed.
Lemma new_offload_ok p enable : pol_ok p → pol_map p = ∅ → 0 ≤ pool → man_ok (new_manager pool p enable).
Proof.
  intros H1 H2 H3. split; simpl; [done|done|lia|]. unfold entries, ids. simpl. by rewrite H2, map_to_list_empty.
Qed.

(** *** What is being read stays *)

(** The entry of [k] has block [id] and between 1 and [hi] readers. *)
Definition held (k : OffloadKey) (id hi : Z) (e : gmap OffloadKey BlockStatus) : Prop :=
  ∃ b, e !! k = Some b ∧ block_id b = id ∧ 0 < ref_cnt b ≤ hi.
(** How often a call starts a load of [k]; whether it ends one. *)
Definition loads (k : OffloadKey) (c : call) : Z :=
  match c with CPrepareLoad ks => len (filter (λ x, x = k) ks) | _ => 0 end.
Definition ends_load (k : OffloadKey) (c : call) : Prop :=
  match c with CCompleteLoad ks => k ∈ ks | _ => False end.

Lemma loads_nonneg k cs : 0 ≤ foldr Z.add 0 (loads k <$> cs).
Proof.
  induction cs as [|c cs IH]; [done|]. rewrite fmap_cons. cbn [foldr].
  assert (0 ≤ loads k c) by (destruct c; cbn [loads]; try apply len_nonneg; lia). lia.
Qed.
Lemma held_other k id hi e k' b : k' ≠ k → held k id hi e → held k id hi (<[k':=b]> e).
Proof. intros Hne (b' & H1 & H2). exists b'. by rewrite lookup_insert_ne. Qed.
Lemma to_int32_id z : - 2 ^ 31 ≤ z < 2 ^ 31 → to_int32 z = z.
Proof. intros H. unfold to_int32. rewrite Z.mod_small; lia. Qed.

Lemma prepare_load_held k id ks m hi : man_ok m → held k id hi (entries m) →
  hi + len (filter (λ x, x = k) ks) < 2 ^ 31 →
  held k id (hi + len (filter (λ x, x = k) ks)) (entries (prepare_load ks m).2).
Proof.
  unfold prepare_load. revert m hi. induction ks as [|x ks IH]; intros m hi Hm Hk; [by rewrite filter_nil, (@len_nil OffloadKey), Z.add_0_r|].
  cbn [map_m]. unfold bind. pose proof (prepare_load_one_ok m x Hm) as H. pose proof (len_nonneg (filter (λ x, x = k) ks)) as Hge.
  assert (Hmono : ∀ e hi hi', hi ≤ hi' → held k id hi e → held k id hi' e).
  { intros e h h' Hh (b & ? & ? & ?). exists b. split_and!; try done; lia. }
  destruct (prepare_load_one x m) as [[id'|e] m1].
  2:{ destruct H as [_ ->]. intros _. eapply Hmono; [|exact Hk]. pose proof (len_nonneg (filter (λ y, y = k) (x :: ks))). simpl in *. lia. }
  destruct H as (Hm1 & b & Hb & _ & _ & He). intros Hlt.
  set (hi1 := if decide (x = k) then hi + 1 else hi).
  assert (Heq : hi + len (filter (λ y, y = k) (x :: ks)) = hi1 + len (filter (λ y, y = k) ks)).
  { unfold hi1. rewrite filter_cons. case_decide; [rewrite len_cons|]; lia. }
  rewrite Heq in *. assert (Hk1 : held k id hi1 (entries m1)).
  { unfold hi1 in *. rewrite He. case_decide as Hx; [|by apply held_other]. subst x.
    destruct Hk as (b' & Hb' & Hid & Hr). assert (b' = b) as -> by congruence.
    exists (with_ref_cnt b (ref_cnt b + 1)). rewrite lookup_insert_eq. simpl. rewrite to_int32_id by lia. split_and!; try done; lia. }
  specialize (IH m1 hi1 Hm1 Hk1 Hlt). destruct (map_m _ ks m1) as [[l|e] m2]; done.
Qed.

Lemma zip_new (ks : list OffloadKey) (l : list Z) :
  zip ks (new_BlockStatus <$> l) = prod_map id new_BlockStatus <$> zip ks l.
Proof. revert l. induction ks as [|k ks IH]; intros [|x l]; try done. simpl. by rewrite <-IH. Qed.
Lemma stored_lookup m keys o m' k : stored m keys o m' →
  entries m' !! k =
    match list_to_map (M := gmap OffloadKey Z) (zip (keys_to_store o) (store_spec o)) !! k with
    | Some id => Some (new_BlockStatus id)
    | None => if decide (k ∈ evicted_keys o) then None else entries m !! k
    end.
Proof.
  intros [H1 H2 (evd & He1 & _ & _ & _ & He)]. rewrite He, He1, zip_new, list_to_map_fmap.
  rewrite lookup_union, lookup_fmap, without_lookup. destruct (list_to_map _ !! k); simpl; [by destruct (decide _), (entries m !! k)|].
  by rewrite (left_id_L None _).
Qed.

Lemma run_call_held k id hi m c : man_ok m → call_ok c → held k id hi (entries m) → ~ ends_load k c →
  hi + loads k c < 2 ^ 31 → held k id (hi + loads k c) (entries (run_call m c)).
Proof.
  intros Hm Hc Hk Hend Hlt. destruct c as [x|ks|ks|ks|ks|ks s|]; cbn [run_call loads ends_load call_ok] in *; rewrite ?Z.add_0_r.
  - by rewrite lookup_same.
  - by apply prepare_load_held.
  - by rewrite (proj2 (touch_entries m ks Hm)).
  - apply (completes_keep (held k id hi)); [done..|]. intros x e b Hx He _ _. apply held_other; [by intros ->|done].
  - pose proof (prepare_store_ok m ks Hm Hc) as H. destruct (prepare_store ks m) as [[[o|]|e] m']; simpl; [|by destruct H as [-> _]|done].
    destruct H as [_ H]. destruct Hk as (b & Hb & Hid & Hr). exists b. split; [|done]. rewrite (stored_lookup m ks o m' k H).
    destruct H as [H1 H2 (evd & He1 & _ & _ & He & _)].
    rewrite not_elem_of_list_to_map_1, decide_False; [done| |].
    + rewrite He1. intros ((k' & b') & -> & Hin)%list_elem_of_fmap. destruct (He _ _ Hin) as (Hb' & Hr' & _). simpl in *.
      rewrite Hb in Hb'. injection Hb' as ->. lia.
    + rewrite fst_zip by lia. rewrite H1. intros [Hn _]%list_elem_of_filter. congruence.
  - apply (complete_store_keeps (held k id hi)); [done..|]. intros x e b Hx (b' & Hb' & Hid & Hr) Hb Hready.
    assert (x ≠ k) as Hne. { intros ->. assert (b' = b) as -> by congruence. unfold is_ready in Hready. bool_to_prop. lia. }
    destruct s; exists b'; by rewrite ?lookup_insert_ne, ?lookup_delete_ne.
  - by rewrite (proj2 (take_events_keeps m Hm)).
Qed.
Lemma run_calls_held k id hi m cs : man_ok m → Forall call_ok cs → Forall (λ c, ~ ends_load k c) cs → held k id hi (entries m) →
  hi + foldr Z.add 0 (loads k <$> cs) < 2 ^ 31 → ∃ hi', held k id hi' (entries (foldl run_call m cs)).
Proof.
  revert m hi. induction cs as [|c cs IH]; intros m hi Hm; [by exists hi|]. rewrite fmap_cons. cbn [foldr foldl].
  intros [Hc Hcs]%Forall_cons [He Hes]%Forall_cons Hk Hlt.
  pose proof (loads_nonneg k cs).
  eapply (IH _ (hi + loads k c)); [by apply run_call_ok|done..| |lia]. apply run_call_held; try done; lia.
Qed.

(** *** Whole calls *)
Lemma complete_store_spec ks (success : bool) m : man_ok m →
  ∃ m', complete_store ks success m = (Ok tt, m') ∧ man_ok m' ∧
  ∀ k, entries m' !! k =
    if decide (k ∈ ks) then
      match entries m !! k with
      | Some b => if is_ready b then Some b else if success then Some (with_ref_cnt b 0) else None
      | None => None
      end
    else entries m !! k.
Proof.
  intros Hm. cut (∃ st m', map_m (complete_store_one success) ks m = (Ok st, m') ∧ man_ok m' ∧ ∀ k, entries m' !! k =
    if decide (k ∈ ks) then
      match entries m !! k with
      | Some b => if is_ready b then Some b else if success then Some (with_ref_cnt b 0) else None
      | None => None
      end
    else entries m !! k).
  { intros (st & m' & Heq & Hm' & He). unfold complete_store. mstep Heq.
    pose proof (emit_keeps m' (concat st) false Hm') as [H1 H2]. destruct m' as [nb al fr ev p].
    destruct (emit_ok (concat st) false nb al fr ev p) as [ev' Hev]. rewrite Hev in *. eexists. split; [done|].
    split; [done|]. intros k. simpl in H2. by rewrite H2, He. }
  revert m Hm. induction ks as [|x ks IH]; intros m Hm.
  { exists [], m. split; [done|]. split; [done|]. intros k. by rewrite decide_False by apply not_elem_of_nil. }
  cbn [map_m]. destruct (complete_store_one_ok m x success Hm) as (st & m1 & Heq & Hm1 & He1 & _). mstep Heq.
  destruct (IH m1 Hm1) as (sts & m2 & Heq2 & Hm2 & He2). mstep Heq2. eexists _, m2. split; [done|]. split; [done|].
  intros k. rewrite He2. clear He2 IH. destruct (decide (k = x)) as [->|Hne].
  - rewrite (decide_True (P := x ∈ x :: ks)) by left. rewrite He1. destruct (entries m !! x) as [b|] eqn:E.
    + destruct (is_ready b) eqn:Er; [rewrite E, Er; by case_decide|]. destruct success.
      * rewrite lookup_insert_eq. simpl. by case_decide.
      * rewrite lookup_delete_eq. by case_decide.
    + rewrite E. by case_decide.
  - assert (Hsame : entries m1 !! k = entries m !! k).
    { rewrite He1. destruct (entries m !! x) as [b|]; [|done]. destruct (is_ready b); [done|].
      destruct success; by rewrite ?lookup_insert_ne, ?lookup_delete_ne. }
    rewrite Hsame. destruct (decide (k ∈ ks)) as [Hin|Hin].
    + by rewrite decide_True by (by right).
    + by rewrite decide_False by (by rewrite elem_of_cons; intros [|]).
Qed.

Lemma prepare_load_spec ks m l m1 : man_ok m → prepare_load ks m = (Ok l, m1) →
  man_ok m1 ∧ Forall2 (λ k id, block_id <$> entries m !! k = Some id) ks l.
Proof.
  unfold prepare_load. revert m l. induction ks as [|x ks IH]; intros m l Hm; [intros [= <- <-]; by split; [|constructor]|].
  cbn [map_m]. unfold bind. pose proof (prepare_load_one_ok m x Hm) as H.
  destruct (prepare_load_one x m) as [[id|e] m2]; [|done]. destruct H as (Hm2 & b & Hb & _ & -> & He).
  destruct (map_m _ ks m2) as [[l'|e] m3] eqn:E; [|done]. intros [= <- <-]. destruct (IH m2 l' Hm2 E) as [H1 H2].
  split; [done|]. constructor; [by rewrite Hb|]. eapply Forall2_impl; [exact H2|]. intros k id' <-.
  rewrite He. by apply same_blocks_put.
Qed.
(** A load that returned holds the entries it was given. *)
Lemma prepare_load_holds k id ks m l m1 hi : man_ok m → prepare_load ks m = (Ok l, m1) → k ∈ ks →
  (∃ b, entries m !! k = Some b ∧ block_id b = id ∧ ref_cnt b ≤ hi) → hi + len (filter (λ x, x = k) ks) < 2 ^ 31 →
  held k id (hi + len (filter (λ x, x = k) ks)) (entries m1).
Proof.
  unfold prepare_load. revert m l. induction ks as [|x ks IH]; intros m l Hm; [by intros _ ?%not_elem_of_nil|].
  cbn [map_m]. unfold bind. pose proof (prepare_load_one_ok m x Hm) as H.
  destruct (prepare_load_one x m) as [[id'|e] m2]; [|done]. destruct H as (Hm2 & b & Hb & Hr & _ & He).
  destruct (map_m _ ks m2) as [[l'|e] m3] eqn:E; [|done]. intros [= <- <-] Hk (b' & Hb' & Hid & Hhi).
  rewrite filter_cons. case_decide as Hx.
  - subst x. rewrite len_cons. assert (b' = b) as -> by congruence. unfold is_ready in Hr. bool_to_prop. intros Hlt.
    pose proof (len_nonneg (filter (λ x, x = k) ks)).
    assert (Hh : held k id (hi + 1) (entries m2)).
    { exists (with_ref_cnt b (ref_cnt b + 1)). rewrite He, lookup_insert_eq. simpl. rewrite to_int32_id by lia. split_and!; try done; lia. }
    pose proof (prepare_load_held k id ks m2 (hi + 1) Hm2 Hh) as Hfin. unfold prepare_load in Hfin. rewrite E in Hfin.
    rewrite Z.add_assoc. apply Hfin. lia.
  - intros Hlt. eapply (IH m2 l'); [done|done| | |done]; [apply elem_of_cons in Hk as [|]; [congruence|done]|].
    exists b'. by rewrite He, lookup_insert_ne.
Qed.

(** The blocks of a store are distinct and of no other entry. *)
Lemma stored_blocks m keys o m' : NoDup keys → man_ok m' → stored m keys o m' →
  NoDup (store_spec o) ∧ (∀ k b, entries m' !! k = Some b → k ∉ keys_to_store o → block_id b ∉ store_spec o).
Proof.
  intros Hnd [_ _ _ Hpart] Hst.
  destruct Hst as [H1 H2 (evd & He1 & He2 & He3 & He4 & He)].
  assert (Hids : ids (entries m') ≡ₚ store_spec o ++ ids (without (entries m) evd)).
  { rewrite He, ids_union.
    - rewrite snd_zip by (rewrite length_fmap; lia). by rewrite new_ids.
    - rewrite fst_zip_new by done. rewrite H1. by apply NoDup_filter.
    - rewrite fst_zip_new by done. rewrite H1. intros k [Hk _]%list_elem_of_filter. rewrite without_lookup. by case_decide. }
  assert (Hall : NoDup (store_spec o ++ ids (without (entries m) evd))).
  { pose proof (NoDup_seqZ 0 (num_allocated_blocks m')) as Hs. rewrite <-Hpart, Hids in Hs. by apply NoDup_app in Hs as (? & _). }
  apply NoDup_app in Hall as (Hn & Hdis & _). split; [done|]. intros k b Hb Hk Hin. apply (Hdis _ Hin).
  apply (ids_lookup _ k). rewrite He in Hb. rewrite lookup_union_r in Hb; [done|].
  apply not_elem_of_list_to_map_1. by rewrite fst_zip_new.
Qed.
Lemma stored_present m keys o m' k : stored m keys o m' → k ∈ keys → is_Some (entries m' !! k).
Proof.
  intros Hst Hk. rewrite (stored_lookup m keys o m' k Hst). destruct (list_to_map _ !! k) as [id|] eqn:E; [by eexists|].
  destruct Hst as [H1 H2 (evd & He1 & He2 & He3 & He4 & He)]. apply not_elem_of_list_to_map_2 in E.
  rewrite fst_zip in E by lia. rewrite decide_False.
  - apply not_eq_None_Some. intros Hno. apply E. rewrite H1. by apply list_elem_of_filter.
  - rewrite He1. intros ((k' & b) & -> & Hin)%list_elem_of_fmap. by destruct (He4 _ _ Hin) as (_ & _ & ?).
Qed.

(** What the absent keys look like after [prepare_store]. *)
Lemma manager_lookup_spec m k : man_ok m →
  manager_lookup k m = (Ok (match entries m !! k with Some b => if is_ready b then Some true else None | None => Some false end), m).
Proof. intros Hm. unfold manager_lookup. rewrite run_get, pol_get_entries by done. destruct (entries m !! k) as [b|]; [|done]. by destruct (is_ready b). Qed.
Lemma stored_new m keys o m' k : stored m keys o m' → k ∈ keys_to_store o →
  ∃ b, entries m' !! k = Some b ∧ is_ready b = false ∧ b = new_BlockStatus (block_id b).
Proof.
  intros Hst Hk. rewrite (stored_lookup m keys o m' k Hst). destruct (list_to_map _ !! k) as [id|] eqn:E; [by eexists|].
  apply not_elem_of_list_to_map_2 in E. rewrite fst_zip in E; [done|]. destruct Hst as [_ -> _]. done.
Qed.
(** Loading distinct entries that are ready returns their blocks. *)
Lemma prepare_load_ready ks l m : man_ok m → NoDup ks →
  Forall2 (λ k id, ∃ b, entries m !! k = Some b ∧ is_ready b = true ∧ block_id b = id) ks l →
  (prepare_load ks m).1 = Ok l.
Proof.
  unfold prepare_load. revert l m. induction ks as [|k ks IH]; intros l m Hm.
  { by intros _ ->%Forall2_nil_inv_l. }
  intros [Hk Hnd]%NoDup_cons (id & l' & (b & Hb & Hr & Hid) & Hl & ->)%Forall2_cons_inv_l. cbn [map_m]. unfold bind.
  unfold prepare_load_one at 1. rewrite run_get, pol_get_entries, Hb, run_assert, Hr, run_modify by done. unfold ret at 1.
  destruct (put_ok m k b (ref_cnt b + 1) Hm Hb) as [H1 H2].
  assert (Hrest : (map_m prepare_load_one ks (m <| policy ::= pol_put k (with_ref_cnt b (ref_cnt b + 1)) |>)).1 = Ok l').
  { apply IH; [done|done|]. rewrite H2. apply Forall2_same_length_lookup in Hl as [Hlen Hl].
    apply Forall2_same_length_lookup. split; [done|]. intros i k' id' Hk' Hid'. destruct (Hl i k' id' Hk' Hid') as (b' & Hb' & ?).
    exists b'. rewrite lookup_insert_ne; [done|]. intros <-. apply Hk. by eapply list_elem_of_lookup_2. }
  destruct (map_m _ ks _) as [r m2]. simpl in Hrest. subst r. simpl. by rewrite Hid.
Qed.
Lemma store_loads m keys o m1 m2 : NoDup keys → stored m keys o m1 → man_ok m2 →
  (∀ k, entries m2 !! k =
    if decide (k ∈ keys_to_store o) then
      match entries m1 !! k with
      | Some b => if is_ready b then Some b else Some (with_ref_cnt b 0)
      | None => None
      end
    else entries m1 !! k) →
  (prepare_load (keys_to_store o) m2).1 = Ok (store_spec o).
Proof.
  intros Hnd Hst Hm2 He2. assert (Hks : NoDup (keys_to_store o)) by (destruct Hst as [-> _ _]; by apply NoDup_filter).
  apply prepare_load_ready; [done|done|]. apply Forall2_same_length_lookup. split; [by destruct Hst as [_ -> _]|].
  intros i k id Hk Hid. rewrite He2, decide_True by (by eapply list_elem_of_lookup_2).
  rewrite (stored_lookup m keys o m1 k Hst).
  assert (E : list_to_map (M := gmap OffloadKey Z) (zip (keys_to_store o) (store_spec o)) !! k = Some id).
  { apply elem_of_list_to_map_1; [rewrite fst_zip; [done|destruct Hst as [_ -> _]; done]|].
    eapply (list_elem_of_lookup_2 _ i). apply lookup_zip_with_Some. by exists k, id. }
  rewrite E. by eexists.
Qed.
Lemma failed_store_frees m keys o m1 m2 : man_ok m → man_ok m2 → stored m keys o m1 →
  (∀ k, entries m2 !! k =
    if decide (k ∈ keys_to_store o) then
      match entries m1 !! k with Some b => if is_ready b then Some b else None | None => None end
    else entries m1 !! k) →
  _get_num_free_blocks m2 = _get_num_free_blocks m + len (evicted_keys o).
Proof.
  intros Hm Hm2 Hst He2. pose proof (λ k, stored_new m keys o m1 k Hst) as Hnew. pose proof (λ k, stored_lookup m keys o m1 k Hst) as Hlk.
  destruct Hst as [H1 H2 (evd & He1 & Hn & _ & Hev & _)].
  assert (He : entries m2 = without (entries m) evd).
  { apply map_eq. intros k. rewrite He2, without_lookup, <-He1. case_decide as Hk.
    - destruct (Hnew k Hk) as (b & -> & -> & _). rewrite H1 in Hk. apply list_elem_of_filter in Hk as [-> _]. by case_decide.
    - rewrite Hlk, not_elem_of_list_to_map_1; [done|]. by rewrite fst_zip by lia. }
  rewrite !free_count by done. rewrite He, He1. rewrite <-!length_ids.
  rewrite (ids_without evd (entries m)) by (try done; intros k b Hk; by apply Hev).
  destruct Hm as [_ -> _ _], Hm2 as [_ -> _ _]. unfold len. rewrite length_app, !length_fmap. lia.
Qed.
End manager.

(** C13.  Whatever is called on the manager, in whatever order and whether the
    calls return or raise, and with either policy: the blocks handed out so far
    are those of the stored entries and the free ones, each once, and never more
    than the pool has.  So no two keys share a block and no block is lost. *)
Theorem offload_pool_is_partitioned (pool : Z) (enable_events : bool) (calls : list call) :
  0 ≤ pool → Forall call_ok calls →
  man_ok pool (foldl run_call (new_manager pool (new_LRU pool) enable_events) calls) ∧
  man_ok pool (foldl run_call (new_manager pool (new_ARC pool) enable_events) calls).
Proof.
  intros Hpool Hc. split; (apply run_calls_ok; [|done]); apply new_offload_ok; try done; [apply new_LRU_ok|apply new_ARC_ok].
Qed.

Lemma offload_pool_is_partitioned_witness :
  let calls := [CPrepareStore [[1]; [2]]; CCompleteStore [[1]; [2]] true; CPrepareLoad [[1]]; CPrepareStore [[3]; [4]]] in
  man_ok 2 (foldl run_call (new_manager 2 (new_LRU 2) true) calls) ∧
  man_ok 2 (foldl run_call (new_manager 2 (new_ARC 2) true) calls).
Proof.
  apply offload_pool_is_partitioned; [lia|].
  repeat (apply Forall_cons; split); cbn [call_ok]; first [exact I|apply Forall_nil_2|apply (bool_decide_unpack _); by vm_compute].
Defined.

(** C14.  [prepare_store] never raises.  It returns [None] only when the policy
    finds too few blocks to evict, and then changes nothing.  Otherwise it stores
    the keys that were absent, each in a block of its own that no entry it keeps
    uses; what it evicts was idle and not among the keys, and all keys are present
    afterwards. *)
Theorem prepare_store_correct {P} `{!CachePolicy P, !PolicyLaws P} (pool : Z) (m : CPUOffloadingManager P) keys :
  man_ok pool m → NoDup keys →
  let '(r, m') := prepare_store keys m in
  let n := len (absent m keys) - _get_num_free_blocks m in
  match r with
  | Ok None => m' = m ∧ 0 < n ∧ pol_evict (Z.to_nat n) keys (policy m) = None
  | Ok (Some o) =>
      man_ok pool m' ∧ stored m keys o m' ∧ NoDup (store_spec o) ∧
      (∀ k, k ∈ keys → is_Some (entries m' !! k)) ∧
      (∀ k b, entries m' !! k = Some b → k ∉ keys_to_store o → block_id b ∉ store_spec o)
  | Raise _ => False
  end.
Proof.
  intros Hm Hnd. pose proof (prepare_store_ok pool m keys Hm Hnd) as H.
  destruct (prepare_store keys m) as [[[o|]|e] m']; [|done|done]. destruct H as [Hm' Hst].
  destruct (stored_blocks pool m keys o m' Hnd Hm' Hst) as [H1 H2]. split_and!; try done.
  intros k Hk. by eapply stored_present.
Qed.

Lemma prepare_store_correct_witness :
  let m := new_manager 1 (new_LRU 1) false in
  stored m [[7]] (mkPrepareStoreOutput [[7]] [0] []) (prepare_store [[7]] m).2.
Proof.
  intros m. pose proof (prepare_store_correct 1 m [[7]]) as H.
  specialize (H (new_offload_ok 1 (new_LRU 1) false (proj1 (new_LRU_ok 1)) (proj2 (new_LRU_ok 1)) ltac:(lia)) (NoDup_singleton _)).
  destruct (prepare_store [[7]] m) as [r m'] eqn:E. assert (r = Ok (Some (mkPrepareStoreOutput [[7]] [0] []))) as ->.
  { vm_compute in E. by injection E as <- _. }
  by destruct H as (_ & H & _).
Defined.

(** C15.  A block that is being read stays: after [prepare_load] returned, and as
    long as the load of the key is not completed, every sequence of other calls
    leaves the key present, with the block that was returned for it and a
    positive reader count.  The counts are C ints; the loads started meanwhile
    must not overflow one. *)
Theorem loaded_blocks_stay {P} `{!CachePolicy P, !PolicyLaws P} (pool : Z) (m m1 : CPUOffloadingManager P)
    (keys : list OffloadKey) (l : list Z) (i : nat) k id (calls : list call) :
  man_ok pool m → prepare_load keys m = (Ok l, m1) → keys !! i = Some k → l !! i = Some id →
  Forall call_ok calls → Forall (λ c, ~ ends_load k c) calls →
  (∀ b, entries m !! k = Some b →
     ref_cnt b + len (filter (λ x, x = k) keys) + foldr Z.add 0 (loads k <$> calls) < 2 ^ 31) →
  ∃ b, entries (foldl run_call m1 calls) !! k = Some b ∧ block_id b = id ∧ 0 < ref_cnt b.
Proof.
  intros Hm Hload Hk Hl Hok Hend Hlt. destruct (prepare_load_spec pool keys m l m1 Hm Hload) as [Hm1 Hids].
  pose proof (Forall2_lookup_lr _ _ _ _ _ _ Hids Hk Hl) as Hid. simpl in Hid.
  apply fmap_Some in Hid as (b & Hb & ->). specialize (Hlt b Hb).
  assert (Hnn : 0 ≤ foldr Z.add 0 (loads k <$> calls)) by apply loads_nonneg.
  destruct (run_calls_held pool k (block_id b) (ref_cnt b + len (filter (λ x, x = k) keys)) m1 calls) as (hi & b' & H1 & H2 & H3 & _);
    [done..| |done|by exists b'].
  eapply (prepare_load_holds pool k (block_id b) keys m l); [done|done|by eapply list_elem_of_lookup_2|by exists b|lia].
Qed.

(** One block, stored and completed. *)
Definition stored_one : CPUOffloadingManager LRUCachePolicy :=
  foldl run_call (new_manager 1 (new_LRU 1) false) [CPrepareStore [[7]]; CCompleteStore [[7]] true].
Lemma loaded_blocks_stay_witness :
  ∃ b, entries (foldl run_call (prepare_load [[7]] stored_one).2 [CPrepareStore [[8]]; CTouch [[7]]]) !! [7] = Some b ∧
       block_id b = 0 ∧ 0 < ref_cnt b.
Proof.
  apply (loaded_blocks_stay 1 stored_one _ [[7]] [0] 0); try done.
  - apply run_calls_ok; [by apply new_offload_ok; [apply new_LRU_ok|..]|].
    repeat (apply Forall_cons; split); cbn [call_ok]; first [exact I|apply Forall_nil_2|apply NoDup_singleton].
  - repeat (apply Forall_cons; split); cbn [call_ok]; first [exact I|apply Forall_nil_2|apply NoDup_singleton].
  - repeat (apply Forall_cons; split); cbn [ends_load]; first [apply Forall_nil_2|by intros []].
  - intros b Hb. vm_compute in Hb. injection Hb as <-. done.
Defined.

(** C16.  A store and its outcome: while the blocks are written, [lookup] tells the
    caller to retry; after a successful [complete_store] they are hits and can be
    loaded from the blocks the store was given, and after a failed one they are
    misses and their blocks are free again. *)
Theorem store_completes {P} `{!CachePolicy P, !PolicyLaws P} (pool : Z) (m m1 : CPUOffloadingManager P) keys o :
  man_ok pool m → NoDup keys → prepare_store keys m = (Ok (Some o), m1) →
  (∀ k, k ∈ keys_to_store o → manager_lookup k m1 = (Ok None, m1)) ∧
  (∃ m2, complete_store (keys_to_store o) true m1 = (Ok tt, m2) ∧ man_ok pool m2 ∧
     (∀ k, k ∈ keys_to_store o → manager_lookup k m2 = (Ok (Some true), m2)) ∧
     (prepare_load (keys_to_store o) m2).1 = Ok (store_spec o)) ∧
  (∃ m2, complete_store (keys_to_store o) false m1 = (Ok tt, m2) ∧ man_ok pool m2 ∧
     (∀ k, k ∈ keys_to_store o → manager_lookup k m2 = (Ok (Some false), m2)) ∧
     _get_num_free_blocks m2 = _get_num_free_blocks m + len (evicted_keys o)).
Proof.
  intros Hm Hnd Heq. pose proof (prepare_store_ok pool m keys Hm Hnd) as H. rewrite Heq in H. destruct H as [Hm1 Hst].
  split; [|split].
  - intros k (b & Hb & Hr & _)%(stored_new m keys o m1 _ Hst). by rewrite (manager_lookup_spec pool), Hb, Hr.
  - destruct (complete_store_spec pool (keys_to_store o) true m1 Hm1) as (m2 & H2 & Hm2 & He2). exists m2. split_and!; try done.
    + intros k Hk. destruct (stored_new m keys o m1 k Hst Hk) as (b & Hb & Hr & _).
      by rewrite (manager_lookup_spec pool), He2, decide_True, Hb, Hr.
    + by eapply store_loads.
  - destruct (complete_store_spec pool (keys_to_store o) false m1 Hm1) as (m2 & H2 & Hm2 & He2). exists m2. split_and!; try done.
    + intros k Hk. destruct (stored_new m keys o m1 k Hst Hk) as (b & Hb & Hr & _).
      by rewrite (manager_lookup_spec pool), He2, decide_True, Hb, Hr.
    + by eapply failed_store_frees.
Qed.

Lemma store_completes_witness :
  let m := new_manager 1 (new_LRU 1) false in
  ∃ m2, complete_store [[7]] true (prepare_store [[7]] m).2 = (Ok tt, m2) ∧ manager_lookup [7] m2 = (Ok (Some true), m2).
Proof.
  intros m. destruct (store_completes 1 m (prepare_store [[7]] m).2 [[7]] (mkPrepareStoreOutput [[7]] [0] [])) as (_ & (m2 & H1 & _ & H2 & _) & _).
  - by apply new_offload_ok; [apply new_LRU_ok|..].
  - apply NoDup_singleton.
  - by vm_compute.
  - exists m2. split; [exact H1|]. apply H2. by left.
Defined.
