(* ===== verification/OffloadReuse.v ===== *)
(** * Offload keys, the reuse filter and ARC's refusals

    The filter in front of the manager counts lookups in a bounded tracker; a block
    is stored only if it was looked up often enough.  Also the round trip of the
    keys, and when exactly ARC finds nothing to evict. *)
From S2P Require Import Prelude MathUtils Outcome Offload OffloadPolicy OffloadInv.
Local Open Scope Z_scope.

(* ===================================================================== *)
(** ** The reuse filter                                                   *)
(* ===================================================================== *)

Definition count (k : OffloadKey) (ks : list OffloadKey) : Z := len (filter (λ x, x = k) ks).
Lemma count_snoc k ks x : count k (ks ++ [x]) = count k ks + if decide (x = k) then 1 else 0.
Proof.
  unfold count. rewrite filter_app, len_app. f_equal. rewrite filter_cons. case_decide; rewrite ?filter_nil; [by rewrite len_cons|done].
Qed.
Lemma count_zero k ks : count k ks = 0 → k ∉ ks.
Proof.
  unfold count, len. intros H Hk. assert (Hin : k ∈ filter (λ x, x = k) ks) by (by apply list_elem_of_filter).
  destruct (filter _ ks); [by apply not_elem_of_nil in Hin|simpl in H; lia].
Qed.

(** The tracker after the lookups [ks]. *)
Record tracker_ok (size_ : Z) (ks : list OffloadKey) (c : list (OffloadKey * Z)) : Prop := {
  tr_nodup : NoDup c.*1;
  tr_len : len c ≤ size_;
  tr_keys : ∀ k, k ∈ c.*1 → k ∈ ks;
  tr_le : ∀ k, default 0 (dget k c) ≤ count k ks;
  tr_exact : Z.of_nat (size (list_to_set ks : gset OffloadKey)) ≤ size_ → ∀ k, default 0 (dget k c) = count k ks;
}.
Lemma dget_app_one k k' v (c : list (OffloadKey * Z)) :
  k' ∉ c.*1 → dget k (c ++ [(k', v)]) = if decide (k = k') then Some v else dget k c.
Proof.
  intros Hk'. rewrite !dget_map, dmap_app. unfold dmap at 2. simpl. destruct (decide (k = k')) as [->|Hne].
  - rewrite lookup_union_r by (by apply dmap_none). by rewrite lookup_insert_eq.
  - rewrite lookup_union_l by (by rewrite lookup_insert_ne). done.
Qed.
Lemma dget_tail k (c : list (OffloadKey * Z)) : NoDup c.*1 → dget k (tail c) = dget k c ∨ dget k (tail c) = None.
Proof.
  destruct c as [|[k' v] c]; simpl; [by left|]. intros [Hk' _]%NoDup_cons. case_decide; [|by left]. subst. right.
  rewrite dget_map. by apply dmap_none.
Qed.
Lemma dget_track_hit k n x (c : list (OffloadKey * Z)) : NoDup c.*1 → dget k c = Some n →
  dget x (dset k (n + 1) (dmove_to_end k c)) = if decide (k = x) then Some (n + 1) else dget x c.
Proof.
  intros Hc Hk. rewrite !dget_map, dset_map, dmove_map by done.
  case_decide; [subst; by rewrite lookup_insert_eq|by rewrite lookup_insert_ne].
Qed.
Lemma track_hit size_ ks c k n : tracker_ok size_ ks c → dget k c = Some n →
  tracker_ok size_ (ks ++ [k]) (dset k (n + 1) (dmove_to_end k c)).
Proof.
  intros [H1 H2 H3 H4 H5] Hk. assert (Hin : k ∈ c.*1) by (apply in_map; rewrite <-dget_map; by eexists).
  assert (Hin' : k ∈ (dmove_to_end k c).*1) by (by rewrite dmove_keys_perm).
  split.
  - by apply dset_nodup, dmove_nodup.
  - rewrite <-(dmove_len k c) in H2. unfold len in *. by rewrite <-(length_fmap fst), dset_keys_present, length_fmap by done.
  - intros x. rewrite dset_keys_present, dmove_keys_perm by done. intros Hx. apply elem_of_app. left. by apply H3.
  - intros x. rewrite dget_track_hit, count_snoc by done. specialize (H4 x). case_decide; [subst; rewrite Hk in H4; simpl in *; lia|lia].
  - intros Hsz x. rewrite dget_track_hit, count_snoc by done. rewrite list_to_set_app_L in Hsz.
    assert (Hs : list_to_set ks ∪ list_to_set [k] = (list_to_set ks : gset OffloadKey)) by set_solver.
    rewrite Hs in Hsz. specialize (H5 Hsz x). case_decide; [subst; rewrite Hk in H5; simpl in *; lia|lia].
Qed.
Lemma track_miss size_ ks c k : 1 ≤ size_ → tracker_ok size_ ks c → dget k c = None →
  tracker_ok size_ (ks ++ [k]) ((if size_ <=? len c then tail c else c) ++ [(k, 1)]).
Proof.
  intros Hsize [H1 H2 H3 H4 H5] Hk. rewrite dget_map in Hk. apply dmap_none in Hk.
  set (d := if size_ <=? len c then tail c else c).
  assert (Hsub : d = c ∨ d = tail c) by (unfold d; case_bool; auto).
  assert (Hd : NoDup d.*1 ∧ (∀ x, x ∈ d.*1 → x ∈ c.*1) ∧ ∀ x, default 0 (dget x d) ≤ default 0 (dget x c) ∨ dget x d = None).
  { destruct Hsub as [->| ->]; [by split_and!; [| |left]|]. destruct c as [|[k' v] c]; [by split_and!; [| |left]|]. simpl tail.
    split_and!; [by apply NoDup_cons in H1 as [_ ?]|by right|].
    intros x. destruct (dget_tail x ((k', v) :: c) H1) as [E|E]; [left|right; done]. simpl tail in E. by rewrite E. }
  destruct Hd as (Hnd & Hin & Hle). assert (Hkd : k ∉ d.*1) by auto.
  split.
  - rewrite fmap_app. apply NoDup_app. split_and!; [done|set_solver|apply NoDup_singleton].
  - rewrite len_app. unfold d. unfold len in *. destruct (Z.leb_spec size_ (Z.of_nat (length c))); [|simpl; lia].
    destruct c; simpl in *; lia.
  - intros x. rewrite fmap_app, !elem_of_app. simpl. intros [Hx|Hx]; [left; auto|by right].
  - intros x. rewrite dget_app_one, count_snoc by done. specialize (H4 x). pose proof (len_nonneg (filter (λ y, y = x) ks)).
    unfold count in *. destruct (decide (x = k)) as [->|Hne]; [rewrite decide_True by done; simpl; lia|].
    rewrite decide_False by done. destruct (Hle x) as [| ->]; simpl; lia.
  - intros Hsz x. rewrite list_to_set_app_L in Hsz. simpl in Hsz. rewrite (right_id_L ∅ (∪)) in Hsz.
    assert (Hmono : (size (list_to_set ks : gset OffloadKey) ≤ size (list_to_set ks ∪ {[k]} : gset OffloadKey))%nat) by (apply subseteq_size; set_solver).
    specialize (H5 ltac:(lia)). assert (Hk0 : k ∉ ks).
    { apply count_zero. rewrite <-H5. rewrite dget_map. by rewrite (proj2 (dmap_none k c)). }
    assert (Hlen : (length c ≤ size (list_to_set ks : gset OffloadKey))%nat).
    { rewrite <-(length_fmap fst), <-(size_list_to_set (C := gset OffloadKey)) by done. apply subseteq_size. intros y. rewrite !elem_of_list_to_set. apply H3. }
    rewrite size_union in Hsz by set_solver. rewrite size_singleton in Hsz.
    assert (d = c) as ->. { unfold d. rewrite (proj2 (Z.leb_gt _ _)); [done|]. unfold len. lia. }
    rewrite dget_app_one, count_snoc by done. rewrite <-H5. destruct (decide (x = k)) as [->|Hne].
    + rewrite decide_True by done. rewrite dget_map, (proj2 (dmap_none k c)) by done. done.
    + rewrite decide_False by done. lia.
Qed.
Lemma track_ok size_ ks c k : 1 ≤ size_ → tracker_ok size_ ks c → tracker_ok size_ (ks ++ [k]) (track size_ k c).
Proof.
  intros Hs Hc. unfold track. destruct (dget k c) as [n|] eqn:E; [by apply track_hit|by apply track_miss].
Qed.

Section filter.
Context {P : Type} `{!CachePolicy P, !PolicyLaws P}.
(** The filter after a sequence of lookups. *)
Definition lookups (f : FilterReusedOffloadingManager P) (ks : list OffloadKey) : FilterReusedOffloadingManager P :=
  foldl (λ f k, (filter_lookup k f).2) f ks.
Lemma filter_lookup_state k (f : FilterReusedOffloadingManager P) :
  (filter_lookup k f).2 = mkFilter (backing f) (store_threshold f) (max_tracker_size f)
                            (track (max_tracker_size f) k (counts f)).
Proof.
  unfold filter_lookup. rewrite run_modify. unfold on_backing, zoom. simpl.
  pose proof (lookup_same (backing f) k) as H. destruct (manager_lookup k (backing f)) as [r b]. simpl in *. by rewrite H.
Qed.
Lemma lookups_spec m thr size_ ks : 1 ≤ size_ →
  ∃ c, lookups (mkFilter m thr size_ []) ks = mkFilter m thr size_ c ∧ tracker_ok size_ ks c.
Proof.
  intros Hs. unfold lookups. induction ks as [|k ks IH] using rev_ind.
  - exists []. split; [done|]. split; simpl; [apply NoDup_nil_2|rewrite (@len_nil (OffloadKey * Z)); lia|by intros k ?%not_elem_of_nil|done..].
  - destruct IH as (c & H1 & H2). rewrite foldl_snoc, H1, filter_lookup_state. simpl. eexists. split; [done|]. by apply track_ok.
Qed.
End filter.

(** The tracker keeps at most [max_tracker_size] keys, and only keys that were
    looked up at least [store_threshold] times are stored; when the distinct keys
    looked up fit in the tracker, every absent key that was looked up that often
    and is asked for is stored. *)
Theorem only_reused_blocks_are_stored {P} `{!CachePolicy P, !PolicyLaws P} (pool : Z) (m : CPUOffloadingManager P)
    (thr size_ : Z) f seen keys o f' :
  man_ok pool m → new_filter m thr size_ = Ok f → NoDup keys →
  filter_prepare_store keys (lookups f seen) = (Ok (Some o), f') →
  len (counts f') ≤ size_ ∧
  (∀ k, k ∈ keys_to_store o → k ∈ keys ∧ thr ≤ count k seen) ∧
  (Z.of_nat (size (list_to_set seen : gset OffloadKey)) ≤ size_ →
   ∀ k, k ∈ keys → thr ≤ count k seen → entries m !! k = None → k ∈ keys_to_store o).
Proof.
  intros Hm Hf Hnd. unfold new_filter in Hf. destruct (Z.ltb_spec thr 2); [done|]. destruct (Z.ltb_spec size_ 1); [done|].
  injection Hf as <-. destruct (lookups_spec m thr size_ seen) as (c & -> & [_ H2 _ H4 H5]); [lia|].
  unfold filter_prepare_store. rewrite run_get. unfold on_backing, zoom. simpl.
  set (el := filter _ keys). pose proof (prepare_store_ok pool m el Hm (NoDup_filter _ _ Hnd)) as Hp.
  destruct (prepare_store el m) as [r m']. intros [= -> <-]. destruct Hp as [_ [H6 _ _]]. simpl. rewrite H6. split; [done|].
  split.
  - intros k [_ [Hk Hin]%list_elem_of_filter]%list_elem_of_filter. split; [done|]. specialize (H4 k). lia.
  - intros Hsz k Hin Hk Hno. apply list_elem_of_filter. split; [done|]. apply list_elem_of_filter. split; [|done]. by rewrite H5.
Qed.
Lemma only_reused_blocks_are_stored_witness :
  let f := mkFilter (new_manager 1 (new_LRU 1) false) 2 1 [] in
  let r := filter_prepare_store [[7]] (lookups f [[7]; [7]]) in
  len (counts r.2) ≤ 1 ∧ 2 ≤ count [7] [[7]; [7]].
Proof.
  destruct (only_reused_blocks_are_stored 1 (new_manager 1 (new_LRU 1) false) 2 1
    (mkFilter (new_manager 1 (new_LRU 1) false) 2 1 []) [[7]; [7]] [[7]] (mkPrepareStoreOutput [[7]] [0] [])
    (filter_prepare_store [[7]] (lookups (mkFilter (new_manager 1 (new_LRU 1) false) 2 1 []) [[7]; [7]])).2) as (H1 & H2 & _).
  - by apply new_offload_ok; [apply new_LRU_ok|..].
  - done.
  - apply NoDup_singleton.
  - by vm_compute.
  - split; [exact H1|]. apply (H2 [7]). by left.
Defined.

(* ===================================================================== *)
(** ** Keys                                                               *)
(* ===================================================================== *)

(** A key holds its block hash and its group index: for a group index of 32
    bits [make_offload_key] succeeds and both parts are read back; any other index
    raises. *)
Theorem offload_key_roundtrip (h : bytes) (g : Z) :
  if decide (0 ≤ g < 2 ^ 32) then
    ∃ key, make_offload_key h g = Ok key ∧ get_offload_block_hash key = h ∧ get_offload_group_idx key = g
  else make_offload_key h g = Raise OverflowError.
Proof.
  unfold make_offload_key, to_bytes4. case_decide as Hg.
  - rewrite (proj2 (Z.ltb_ge _ _)), (proj2 (Z.leb_gt _ _)) by lia. eexists. split; [done|].
    unfold get_offload_block_hash, get_offload_group_idx, slice_to, slice_from.
    assert (Hb : ∀ t : bytes, length t = 4%nat → slice_bound (len (h ++ t)) (-4) = length h).
    { intros t Ht. unfold slice_bound. simpl. rewrite len_app. unfold len. rewrite Ht. lia. }
    rewrite !Hb by done. rewrite take_app_length, drop_app_length. split; [done|]. unfold int_from_bytes. simpl.
    Z.div_mod_to_equations. lia.
  - destruct (Z.ltb_spec g 0); [done|]. destruct (Z.leb_spec (2 ^ 32) g); [done|lia].
Qed.

(* ===================================================================== *)
(** ** When ARC finds nothing to evict                                    *)
(* ===================================================================== *)

Lemma arc_evict_one prot p : arc_evict 1 prot p = None ↔
  first_candidate prot [] (t2 p) = None ∧
  (len (t1 p) < to_int (target_t1_size p) ∨ first_candidate prot [] (t1 p) = None).
Proof.
  unfold arc_evict. rewrite bool_decide_false by done. simpl.
  destruct (Z.leb_spec (to_int (target_t1_size p)) (len (t1 p))); destruct (first_candidate prot [] (t1 p)), (first_candidate prot [] (t2 p));
    simpl; split; intros; destruct_and?; try done; naive_solver lia.
Qed.

(** ARC refuses one eviction exactly when T2 has no candidate and T1 has none
    either or is below its target.  The latter can happen with an idle block in
    T1: there is a sequence of calls after which a store is refused although an
    unprotected block is idle. *)
Theorem arc_refuses_with_an_idle_block :
  (∀ prot p, arc_evict 1 prot p = None ↔
     first_candidate prot [] (t2 p) = None ∧
     (len (t1 p) < to_int (target_t1_size p) ∨ first_candidate prot [] (t1 p) = None)) ∧
  ∃ calls, Forall call_ok calls ∧
    let m := foldl run_call (new_manager 2 (new_ARC 2) false) calls in
    prepare_store [[4]] m = (Ok None, m) ∧ entries m !! [3] = Some (mkBlockStatus 0 0).
Proof.
  split; [exact arc_evict_one|].
  exists [CPrepareStore [[1]; [2]]; CCompleteStore [[1]; [2]] true; CPrepareStore [[3]]; CCompleteStore [[3]] true;
          CTouch [[1]]; CTouch [[1]]; CTouch [[2]]; CPrepareLoad [[2]]].
  split; [repeat (apply Forall_cons; split); cbn [call_ok]; first [exact I|apply Forall_nil_2|apply (bool_decide_unpack _); by vm_compute]|].
  by vm_compute.
Qed.
