(* ===== verification/NumPy.v ===== *)
(** * Arrays

    What the worker's code uses of [numpy] and [torch] on CPU arrays: cells and
    rows by index, assignment to a slice of a row (with the broadcast of a single
    value, and [ValueError] when the shapes differ), fills and copies of prefixes.
    Values are unbounded: token and block ids fit the arrays' 32 bits. *)
From S2P Require Import Prelude.
Local Open Scope Z_scope.

(** [a[i]] and [a[i] = x]; [IndexError] out of range, negative indices from the end. *)
Definition np_get {A} (a : list A) (i : Z) : res A :=
  match py_nth a i with Some x => Ok x | None => Raise IndexError end.
Definition list_set {A} (l : list A) (i : Z) (x : A) : res (list A) :=
  let j := if i <? 0 then i + len l else i in
  if (0 <=? j) && (j <? len l) then Ok (py_set l j x) else Raise IndexError.

(** [row[lo:hi] = vals] and [row[lo:hi] = x]. *)
Definition slice_len {A} (row : list A) (lo hi : Z) : nat :=
  (slice_bound (len row) hi - slice_bound (len row) lo)%nat.
Definition np_fill {A} (row : list A) (lo hi : Z) (x : A) : list A :=
  let lo' := slice_bound (len row) lo in
  let n := slice_len row lo hi in
  take lo' row ++ replicate n x ++ drop (lo' + n) row.
Definition np_assign {A} (row : list A) (lo hi : Z) (vals : list A) : res (list A) :=
  let lo' := slice_bound (len row) lo in
  let n := slice_len row lo hi in
  if (length vals =? n)%nat then Ok (take lo' row ++ vals ++ drop (lo' + n) row)
  else match vals with
       | [x] => Ok (np_fill row lo hi x)
       | _ => Raise ValueError
       end.

(** [a[i, lo:hi] = vals] and [a[i, lo:hi] = x] on an array of rows. *)
Definition np_assign_row {A} (a : list (list A)) (i lo hi : Z) (vals : list A) : res (list (list A)) :=
  match np_get a i with
  | Raise e => Raise e
  | Ok row => match np_assign row lo hi vals with
              | Ok row' => list_set a i row'
              | Raise e => Raise e
              end
  end.
Definition np_fill_row {A} (a : list (list A)) (i lo hi : Z) (x : A) : res (list (list A)) :=
  match np_get a i with
  | Raise e => Raise e
  | Ok row => list_set a i (np_fill row lo hi x)
  end.
(** [a[[i, j]] = a[[j, i]]], and the simultaneous assignment [a[i], a[j] = a[j], a[i]]
    of cells. *)
Definition np_swap {A} (a : list A) (i j : Z) : res (list A) :=
  match np_get a i, np_get a j with
  | Ok x, Ok y => match list_set a i y with
                  | Ok a' => list_set a' j x
                  | Raise e => Raise e
                  end
  | Raise e, _ | _, Raise e => Raise e
  end.

(* ===================================================================== *)
(** ** Indices in range                                                   *)
(* ===================================================================== *)

Lemma np_get_ok {A} (a : list A) i x : 0 ≤ i → np_get a i = Ok x ↔ a !! Z.to_nat i = Some x.
Proof. intros Hi. unfold np_get. rewrite py_nth_nonneg by done. destruct (a !! Z.to_nat i); naive_solver. Qed.
Lemma np_get_some {A} (a : list A) i : 0 ≤ i < len a → ∃ x, np_get a i = Ok x ∧ a !! Z.to_nat i = Some x.
Proof.
  intros Hi. destruct (lookup_lt_is_Some_2 a (Z.to_nat i)) as [x Hx]; [unfold len in Hi; lia|]. exists x.
  split; [apply np_get_ok; [lia|done]|done].
Qed.
Lemma list_set_ok {A} (l : list A) i x : 0 ≤ i < len l → list_set l i x = Ok (py_set l i x).
Proof.
  intros Hi. unfold list_set. destruct (Z.ltb_spec i 0); [lia|]. by rewrite (proj2 (Z.leb_le 0 i)), (proj2 (Z.ltb_lt i _)) by lia.
Qed.
Lemma len_py_set {A} (l : list A) i x : len (py_set l i x) = len l.
Proof. unfold len, py_set. by rewrite length_insert. Qed.
Lemma py_set_eq {A} (l : list A) i x : 0 ≤ i < len l → py_set l i x !! Z.to_nat i = Some x.
Proof. intros Hi. apply list_lookup_insert_eq. unfold len in Hi. lia. Qed.
Lemma py_set_ne {A} (l : list A) i j x : 0 ≤ i → 0 ≤ j → i ≠ j → py_set l i x !! Z.to_nat j = l !! Z.to_nat j.
Proof. intros. apply list_lookup_insert_ne. lia. Qed.

Lemma slice_bound_in n i : 0 ≤ i → 0 ≤ n → slice_bound n i = Z.to_nat (Z.min i n).
Proof. intros. unfold slice_bound. by rewrite (proj2 (Z.ltb_ge i 0)) by lia. Qed.
Lemma np_assign_ok {A} (row : list A) lo vals : 0 ≤ lo → lo + len vals ≤ len row →
  np_assign row lo (lo + len vals) vals = Ok (take (Z.to_nat lo) row ++ vals ++ drop (Z.to_nat (lo + len vals)) row).
Proof.
  intros Hlo Hhi. pose proof (len_nonneg vals). unfold np_assign, slice_len. rewrite !slice_bound_in, !Z.min_l by lia.
  rewrite (proj2 (Nat.eqb_eq _ _)) by (unfold len in *; lia). do 4 f_equal. lia.
Qed.
Lemma np_assign_prefix {A} (row vals : list A) n : n = len vals → n ≤ len row →
  np_assign row 0 n vals = Ok (vals ++ drop (length vals) row).
Proof.
  intros -> Hn. rewrite <-(Z.add_0_l (len vals)) at 1. rewrite np_assign_ok by lia. simpl.
  do 3 f_equal. unfold len. lia.
Qed.
Lemma np_fill_ok {A} (row : list A) lo hi x : 0 ≤ lo ≤ hi → hi ≤ len row →
  np_fill row lo hi x = take (Z.to_nat lo) row ++ replicate (Z.to_nat (hi - lo)) x ++ drop (Z.to_nat hi) row.
Proof.
  intros. unfold np_fill, slice_len. rewrite !slice_bound_in, !Z.min_l by lia.
  replace (Z.to_nat hi - Z.to_nat lo)%nat with (Z.to_nat (hi - lo)) by lia. by replace (Z.to_nat lo + Z.to_nat (hi - lo))%nat with (Z.to_nat hi) by lia.
Qed.
Lemma len_np_fill {A} (row : list A) lo hi x : 0 ≤ lo ≤ hi → hi ≤ len row → len (np_fill row lo hi x) = len row.
Proof.
  intros. rewrite np_fill_ok by done. unfold len in *. rewrite !length_app, length_take, length_replicate, length_drop. lia.
Qed.
Lemma slice_to_nonneg {A} (l : list A) i : 0 ≤ i → slice_to l i = take (Z.to_nat i) l.
Proof.
  intros Hi. unfold slice_to, slice_bound. rewrite (proj2 (Z.ltb_ge _ _)) by done. unfold len.
  destruct (decide (i ≤ Z.of_nat (length l))); [by rewrite Z.min_l by done|].
  rewrite Z.min_r, Nat2Z.id by lia. rewrite !take_ge by lia. done.
Qed.
