(* ===== verification/Detok.v ===== *)
(** * Detokenization and stop strings ([src/vllm/v1/engine/detokenizer.py])

    The sampled tokens of a request become text one token at a time; the text is
    searched for stop strings, cut there, and streamed with as many characters
    held back as a stop string that is not complete yet may have.  A Python [str]
    is its list of code points.  The decoders ([decode_next]) are the slow one of
    [src/vllm/tokenizers/detokenizer_utils.py] and the fast one over the
    [DecodeStream] of the tokenizers library; the tokenizer and the stream are
    parameters. *)
From S2P Require Import Prelude MathUtils Outcome.
Local Open Scope Z_scope.

Abbreviation text := (list Z).

(* ===================================================================== *)
(** ** Stop strings                                                       *)
(* ===================================================================== *)

(** [sub] is at the start of [s]. *)
Fixpoint starts_with (sub s : text) : bool :=
  match sub, s with
  | [], _ => true
  | x :: sub', y :: s' => (x =? y) && starts_with sub' s'
  | _ :: _, [] => false
  end.
(** The first place from [i] on where [sub] is found; [s] is the text from [i]. *)
Fixpoint find_from (sub s : text) (i : Z) : Z :=
  if starts_with sub s then i
  else match s with
       | [] => -1
       | _ :: s' => find_from sub s' (i + 1)
       end.
(** [s.find(sub, start)]. *)
Definition py_find (s sub : text) (start : Z) : Z :=
  let start := if start <? 0 then Z.max 0 (start + len s) else start in
  if len s <? start then -1 else find_from sub (drop (Z.to_nat start) s) start.

(** The loop over the stop strings. *)
Fixpoint stop_loop (output_text : text) (new_char_count : Z) (stop : list text) (include_in_output : bool) :
    option (text * Z) :=
  match stop with
  | [] => None
  | stop_str :: stop' =>
      let stop_string_len := len stop_str in
      let stop_index := py_find output_text stop_str (1 - new_char_count - stop_string_len) in
      if stop_index =? -1 then stop_loop output_text new_char_count stop' include_in_output
      else if include_in_output then
        let stop_index := stop_index + stop_string_len in
        if len output_text <=? stop_index then Some (stop_str, -1) else Some (stop_str, stop_index)
      else Some (stop_str, stop_index)
  end.
Definition check_stop_strings (output_text : text) (new_char_count : Z) (stop : list text) (include_in_output : bool) :
    option (text * Z) :=
  if (new_char_count =? 0) || bool_decide (stop = []) then None
  else stop_loop output_text new_char_count stop include_in_output.

(* ===================================================================== *)
(** ** The detokenizer                                                    *)
(* ===================================================================== *)

(** A subclass of [BaseIncrementalDetokenizer]: the text of the token that was
    just appended to the token ids, and how many of these are of the prompt. *)
Class Decoder (D : Type) := {
  decode_next : list Z → Z → D → res text * D;
  prompt_len : D → Z;
}.

Record Detokenizer (D : Type) := mkDetokenizer {
  token_ids : list Z;
  stop : list text;
  min_tokens : Z;
  include_stop_str_in_output : bool;
  stop_buffer_length : Z;
  _last_output_text_offset : Z;
  output_text : text;
  decoder : D;
}.
Arguments mkDetokenizer {D}.
Arguments token_ids {D}.
Arguments stop {D}.
Arguments min_tokens {D}.
Arguments include_stop_str_in_output {D}.
Arguments stop_buffer_length {D}.
Arguments _last_output_text_offset {D}.
Arguments output_text {D}.
Arguments decoder {D}.
#[export] Instance eta_Detokenizer {D} : Eta (Detokenizer D) := λ d,
  mkDetokenizer (token_ids d) (stop d) (min_tokens d) (include_stop_str_in_output d) (stop_buffer_length d)
    (_last_output_text_offset d) (output_text d) (decoder d).
#[export] Instance set_token_ids {D} : Setter (@token_ids D).
Proof. build_setter. Defined.
#[export] Instance set_last_output_text_offset {D} : Setter (@_last_output_text_offset D).
Proof. build_setter. Defined.
#[export] Instance set_output_text {D} : Setter (@output_text D).
Proof. build_setter. Defined.
#[export] Instance set_decoder {D} : Setter (@decoder D).
Proof. build_setter. Defined.

(** [params.stop]. *)
Inductive StopParam := StopNone | StopOne (s : text) | StopMany (l : list text).
Definition stop_strings (s : StopParam) : list text :=
  match s with StopNone => [] | StopOne s => [s] | StopMany l => l end.
(** [BaseIncrementalDetokenizer.__init__]; [ids] and [dec] are the subclass's. *)
Definition new_Detokenizer {D} (stop_param : StopParam) (min_tokens : Z) (include : bool) (ids : list Z) (dec : D) :
    res (Detokenizer D) :=
  let stop := stop_strings stop_param in
  buffer ← (if negb (bool_decide (stop = [])) && negb include
            then longest ← py_max (len <$> stop); Ok (longest - 1)
            else Ok 0);
  Ok (mkDetokenizer ids stop min_tokens include buffer 0 [] dec).

Section detokenizer.
Context {D : Type} `{!Decoder D}.
Abbreviation M := (M (Detokenizer D)).

Definition num_output_tokens (d : Detokenizer D) : Z := len (token_ids d) - prompt_len (decoder d).
Definition output_token_ids (d : Detokenizer D) : list Z :=
  if prompt_len (decoder d) =? 0 then token_ids d else slice_from (token_ids d) (prompt_len (decoder d)).
Definition call_decode_next (new_token_id : Z) : M text := λ d,
  let '(r, dec) := decode_next (token_ids d) new_token_id (decoder d) in (r, d <| decoder := dec |>).

(** The loop of [update] over the new tokens; the stop check offset it ends with. *)
Fixpoint detokenize_loop (new_token_ids : list Z) (stop_check_offset : Z) : M Z :=
  match new_token_ids with
  | [] => ret stop_check_offset
  | new_token_id :: rest =>
      modify (λ d, d <| token_ids ::= λ l, l ++ [new_token_id] |>) ;;
      s <- call_decode_next new_token_id ;;
      modify (λ d, d <| output_text ::= λ t, t ++ s |>) ;;
      d <- get ;;
      let stop_check_offset :=
        if negb (min_tokens d =? 0) && (num_output_tokens d <=? min_tokens d) then len (output_text d) else stop_check_offset in
      detokenize_loop rest stop_check_offset
  end.
Definition update (new_token_ids : list Z) (stop_terminated : bool) : M (option text) :=
  if bool_decide (new_token_ids = []) then ret None
  else
    d <- get ;;
    let skip := stop_terminated && negb (include_stop_str_in_output d) in
    let skipped_stop_token_id := if skip then last new_token_ids else None in
    let new_token_ids := if skip then slice_to new_token_ids (-1) else new_token_ids in
    stop_check_offset <- detokenize_loop new_token_ids (len (output_text d)) ;;
    match skipped_stop_token_id with
    | Some id => modify (λ d, d <| token_ids ::= λ l, l ++ [id] |>)
    | None => ret tt
    end ;;
    d <- get ;;
    if negb (bool_decide (stop d = [])) && (min_tokens d <? num_output_tokens d) then
      match check_stop_strings (output_text d) (len (output_text d) - stop_check_offset) (stop d)
              (include_stop_str_in_output d) with
      | None => ret None
      | Some (stop_string, truncate_to) =>
          when (negb (truncate_to =? -1)) do modify (λ d, d <| output_text ::= λ t, slice_to t truncate_to |>) ;;
          ret (Some stop_string)
      end
    else ret None.

Definition get_next_output_text (finished delta : bool) : M text :=
  d <- get ;;
  let buffer_length := if finished then 0 else stop_buffer_length d in
  if negb delta then
    if buffer_length =? 0 then ret (output_text d) else ret (slice_to (output_text d) (- buffer_length))
  else
    let length := len (output_text d) - buffer_length in
    let last_offset := _last_output_text_offset d in
    if last_offset <? length then
      modify (λ d, d <| _last_output_text_offset := length |>) ;;
      ret (slice (output_text d) last_offset length)
    else ret [].
End detokenizer.

(* ===================================================================== *)
(** ** The decoders                                                       *)
(* ===================================================================== *)

(** What the slow decoder uses of a tokenizer; a list of ids is converted to a
    list of tokens. *)
Record Tokenizer := mkTokenizer {
  tokenizer_len : Z;
  is_fast : bool;
  added_vocab : list text;
  all_special_tokens : list text;
  convert_ids_to_tokens : list Z → bool → list (option text);
  convert_tokens_to_string : list text → text;
}.
Definition _replace_none_with_empty (tokens : list (option text)) : list text := default [] <$> tokens.

(** The loop over [output_tokens]: the finished pieces and the current one. *)
Fixpoint sub_texts_loop (t : Tokenizer) (special output_tokens : list text) (sub_texts current_sub_text : list text) :
    list text :=
  match output_tokens with
  | [] => if bool_decide (current_sub_text = []) then sub_texts
          else sub_texts ++ [convert_tokens_to_string t current_sub_text]
  | token :: rest =>
      if bool_decide (token ∈ special) then sub_texts_loop t special rest sub_texts current_sub_text
      else if bool_decide (token ∈ added_vocab t) then
        let sub_texts := if bool_decide (current_sub_text = []) then sub_texts
                         else sub_texts ++ [convert_tokens_to_string t current_sub_text] in
        sub_texts_loop t special rest (sub_texts ++ [token]) []
      else sub_texts_loop t special rest sub_texts (current_sub_text ++ [token])
  end.
(** [sep.join(l)]. *)
Fixpoint join (sep : text) (l : list text) : text :=
  match l with [] => [] | [s] => s | s :: l' => s ++ sep ++ join sep l' end.
Definition _convert_tokens_to_string_with_added_encoders (t : Tokenizer) (output_tokens : list text)
    (skip_special_tokens spaces_between_special_tokens : bool) : text :=
  let special := if skip_special_tokens then all_special_tokens t else [] in
  join (if spaces_between_special_tokens then [32] else []) (sub_texts_loop t special output_tokens [] []).

Definition INITIAL_INCREMENTAL_DETOKENIZATION_OFFSET : Z := 5.
Definition convert_prompt_ids_to_tokens (t : Tokenizer) (prompt_ids : list Z) (skip_special_tokens : bool) :
    list text * Z * Z :=
  let new_tokens := convert_ids_to_tokens t (slice_from prompt_ids (- INITIAL_INCREMENTAL_DETOKENIZATION_OFFSET - 2))
                      skip_special_tokens in
  let read_offset := len new_tokens in
  let prefix_offset := Z.max (read_offset - INITIAL_INCREMENTAL_DETOKENIZATION_OFFSET) 0 in
  (_replace_none_with_empty new_tokens, prefix_offset, read_offset).

(** [s.endswith(c)] for one character. *)
Definition ends_with_char (s : text) (c : Z) : bool := bool_decide (last s = Some c).
Definition detokenize_incrementally (t : Tokenizer) (all_input_ids : list Z) (prev_tokens : option (list text))
    (prefix_offset read_offset : Z) (skip_special_tokens spaces_between_special_tokens : bool) :
    res (list text * text * Z * Z) :=
  new_token_id ← some_or IndexError (py_nth all_input_ids (-1));
  let '(tokens, prefix_offset, read_offset) :=
    match prev_tokens with
    | None => convert_prompt_ids_to_tokens t (slice_to all_input_ids (-1)) skip_special_tokens
    | Some l => (l, prefix_offset, read_offset)
    end in
  let new_tokens :=
    if (0 <=? new_token_id) && (new_token_id <? tokenizer_len t)
    then _replace_none_with_empty (convert_ids_to_tokens t [new_token_id] skip_special_tokens)
    else [[]] in
  let output_tokens := tokens ++ new_tokens in
  let new_tokens := if is_none prev_tokens then output_tokens else new_tokens in
  let to_string (l : list text) :=
    if is_fast t || bool_decide (added_vocab t = []) then convert_tokens_to_string t l
    else _convert_tokens_to_string_with_added_encoders t l skip_special_tokens spaces_between_special_tokens in
  let prefix_text := to_string (slice output_tokens prefix_offset read_offset) in
  let new_text := to_string (slice_from output_tokens prefix_offset) in
  if (len new_text <=? len prefix_text) || ends_with_char new_text 65533
  then Ok (new_tokens, [], prefix_offset, read_offset)
  else Ok (new_tokens, slice_from new_text (len prefix_text), read_offset, len output_tokens).

(** [SlowIncrementalDetokenizer]. *)
Record SlowDecoder := mkSlowDecoder {
  tokens : list text;
  prefix_offset : Z;
  read_offset : Z;
  skip_special_tokens : bool;
  spaces_between_special_tokens : bool;
  slow_prompt_len : Z;
}.
Definition slow_decode_next (t : Tokenizer) (ids : list Z) (next_token_id : Z) (d : SlowDecoder) : res text * SlowDecoder :=
  match detokenize_incrementally t ids (Some (tokens d)) (prefix_offset d) (read_offset d) (skip_special_tokens d)
          (spaces_between_special_tokens d) with
  | Raise e => (Raise e, d)
  | Ok (new_tokens, decoded_text, prefix_offset, read_offset) =>
      (Ok decoded_text, mkSlowDecoder (tokens d ++ new_tokens) prefix_offset read_offset (skip_special_tokens d)
                          (spaces_between_special_tokens d) (slow_prompt_len d))
  end.
Definition slow_decoder (t : Tokenizer) : Decoder SlowDecoder := {|
  decode_next := slow_decode_next t;
  prompt_len := slow_prompt_len;
|}.
(** [SlowIncrementalDetokenizer.__init__] for a prompt of token ids, or of [n] embeddings. *)
Definition new_SlowDetokenizer (t : Tokenizer) (prompt : list Z + nat) (stop_param : StopParam) (min_tokens : Z)
    (include skip_special_tokens spaces_between_special_tokens : bool) : res (Detokenizer SlowDecoder) :=
  match prompt with
  | inl ids =>
      let '(tokens, prefix_offset, read_offset) := convert_prompt_ids_to_tokens t ids skip_special_tokens in
      new_Detokenizer stop_param min_tokens include ids
        (mkSlowDecoder tokens prefix_offset read_offset skip_special_tokens spaces_between_special_tokens (len ids))
  | inr n =>
      new_Detokenizer stop_param min_tokens include (replicate n 0)
        (mkSlowDecoder (replicate n []) 0 0 skip_special_tokens spaces_between_special_tokens (Z.of_nat n))
  end.

(** [FastIncrementalDetokenizer]: the [DecodeStream] of the tokenizers library is
    a state with a step; [invalid_prefix] recognises the message of an error. *)
Section fast.
Context {S : Type} (stream_step : Z → S → res (option text) * S) (new_stream : bool → S) (invalid_prefix : exc → bool).
Record FastDecoder := mkFastDecoder {
  stream : S;
  fast_skip_special_tokens : bool;
  fast_spaces_between_special_tokens : bool;
  last_special : bool;
  added_token_ids : gmap Z text;
}.
(** The spaces between special tokens are dropped only when there are any. *)
Definition new_FastDecoder (stream : S) (skip spaces : bool) (added : gmap Z text) : FastDecoder :=
  mkFastDecoder stream skip (skip || spaces || bool_decide (added = ∅)) false added.
Definition _protected_step (next_token_id : Z) (stream : S) (skip : bool) : res (option text) * S :=
  match stream_step next_token_id stream with
  | (Raise OverflowError, stream) | (Raise TypeError, stream) => (Ok None, stream)
  | (Raise e, stream) => if negb (invalid_prefix e) then (Raise e, stream) else stream_step next_token_id (new_stream skip)
  | (Ok token, stream) => (Ok token, stream)
  end.
Definition fast_decode_next (ids : list Z) (next_token_id : Z) (d : FastDecoder) : res text * FastDecoder :=
  let '(r, stream) := _protected_step next_token_id (stream d) (fast_skip_special_tokens d) in
  let d := mkFastDecoder stream (fast_skip_special_tokens d) (fast_spaces_between_special_tokens d) (last_special d)
             (added_token_ids d) in
  match r with
  | Raise e => (Raise e, d)
  | Ok token =>
      if negb (fast_spaces_between_special_tokens d) then
        let special_token := added_token_ids d !! next_token_id in
        let is_special := is_some special_token in
        let token := if is_special && last_special d then special_token else token in
        (Ok (default [] token), mkFastDecoder stream (fast_skip_special_tokens d) (fast_spaces_between_special_tokens d)
                                  is_special (added_token_ids d))
      else (Ok (default [] token), d)
  end.
Definition fast_decoder : Decoder FastDecoder := {|
  decode_next := fast_decode_next;
  prompt_len := λ _, 0;
|}.
End fast.
