(* ===== verification/DetokInv.v ===== *)
(** * Stop strings are found and never streamed

    [check_stop_strings] finds exactly the stop strings that the new text completes;
    the text that is streamed piece by piece is, in the end, the output text,
    whatever the decoder; with one stop string and no minimum of tokens the output
    never contains it. *)
From S2P Require Import Prelude MathUtils Outcome NumPy Detok.
Local Open Scope Z_scope.

(* ===================================================================== *)
(** ** Searching                                                          *)
(* ===================================================================== *)

(** [sub] is in [s] at [i]. *)
Definition occurs (sub s : text) (i : Z) : Prop := ∃ a b, s = a ++ sub ++ b ∧ len a = i.

Lemma starts_with_spec sub s : starts_with sub s = true ↔ ∃ b, s = sub ++ b.
Proof.
  revert s. induction sub as [|x sub IH]; intros s; simpl.
  - split; [intros _; by exists s|done].
  - destruct s as [|y s]; [split; [done|by intros (b & ?)]|].
    rewrite andb_true_iff, Z.eqb_eq, IH. split.
    + intros (-> & b & ->). by exists b.
    + intros (b & [= -> ->]). split; [done|by exists b].
Qed.
Lemma occurs_drop sub s i : occurs sub s i ↔ 0 ≤ i ≤ len s ∧ starts_with sub (drop (Z.to_nat i) s) = true.
Proof.
  unfold occurs, len. split.
  - intros (a & b & -> & <-). rewrite !length_app, Nat2Z.id, drop_app_length. split; [lia|]. apply starts_with_spec. by exists b.
  - intros (Hi & (b & Hb)%starts_with_spec). exists (take (Z.to_nat i) s), b. rewrite <-Hb, take_drop, length_take. split; [done|lia].
Qed.
Lemma occurs_bounds sub s i : occurs sub s i → 0 ≤ i ∧ i + len sub ≤ len s.
Proof. intros (a & b & -> & <-). unfold len. rewrite !length_app. lia. Qed.

Lemma find_from_spec sub s i : 0 ≤ i →
  (find_from sub s i = -1 ∧ ∀ j, ~ occurs sub s j) ∨
  (∃ j, find_from sub s i = i + j ∧ occurs sub s j ∧ ∀ j', occurs sub s j' → j ≤ j').
Proof.
  revert i. induction s as [|x s IH]; intros i Hi; simpl.
  - destruct (starts_with sub []) eqn:E.
    + right. exists 0. split; [lia|]. split; [apply occurs_drop; unfold len; simpl; split; [lia|done]|]. intros j' Hj%occurs_bounds. lia.
    + left. split; [done|]. intros j (Hj & H)%occurs_drop. unfold len in Hj. simpl in Hj. assert (j = 0) as -> by lia. simpl in H. congruence.
  - destruct (starts_with sub (x :: s)) eqn:E.
    { right. exists 0. split; [lia|]. split; [apply occurs_drop; unfold len; simpl; split; [lia|done]|]. intros j' Hj%occurs_bounds. lia. }
    assert (Hstep : ∀ j, occurs sub (x :: s) j ↔ 1 ≤ j ∧ occurs sub s (j - 1)).
    { intros j. rewrite !occurs_drop. unfold len. simpl length. split.
      - intros (Hj & H). destruct (decide (j = 0)) as [->|]; [simpl in H; congruence|]. split; [lia|].
        split; [lia|]. by replace (Z.to_nat j) with (S (Z.to_nat (j - 1))) in H by lia.
      - intros (Hj1 & Hj & H). split; [lia|]. by replace (Z.to_nat j) with (S (Z.to_nat (j - 1))) by lia. }
    destruct (IH (i + 1) ltac:(lia)) as [(H1 & H2)|(j & H1 & H2 & H3)].
    + left. split; [done|]. intros j (_ & H)%Hstep. by eapply H2.
    + right. exists (j + 1). split; [lia|]. split; [apply Hstep; apply occurs_bounds in H2 as ?|].
      * split; [lia|]. by replace (j + 1 - 1) with j by lia.
      * intros j' (? & Hj'%H3)%Hstep. lia.
Qed.
Lemma occurs_drop_shift sub s st j : 0 ≤ st ≤ len s → occurs sub (drop (Z.to_nat st) s) j ↔ 0 ≤ j ∧ occurs sub s (st + j).
Proof.
  intros Hst. rewrite !occurs_drop. unfold len in *. rewrite length_drop, drop_drop. split.
  - intros (Hj & H). split; [lia|]. split; [lia|]. by replace (Z.to_nat (st + j)) with (Z.to_nat st + Z.to_nat j)%nat by lia.
  - intros (Hj & Hj' & H). split; [lia|]. by replace (Z.to_nat st + Z.to_nat j)%nat with (Z.to_nat (st + j)) by lia.
Qed.
Lemma py_find_spec s sub start : start < 0 → 
  let st := Z.max 0 (start + len s) in
  (py_find s sub start = -1 ∧ ∀ i, st ≤ i → ~ occurs sub s i) ∨
  (∃ i, py_find s sub start = i ∧ 0 ≤ i ∧ st ≤ i ∧ occurs sub s i ∧ ∀ i', st ≤ i' → occurs sub s i' → i ≤ i').
Proof.
  intros Hs st. unfold py_find. rewrite (proj2 (Z.ltb_lt start 0)) by done. pose proof (len_nonneg s) as Hls.
  rewrite (proj2 (Z.ltb_ge _ _)) by lia. fold st. assert (Hst : 0 ≤ st ≤ len s) by lia.
  destruct (find_from_spec sub (drop (Z.to_nat st) s) st ltac:(lia)) as [(-> & H)|(j & -> & H1 & H2)].
  - left. split; [done|]. intros i Hi Ho. apply (H (i - st)). apply occurs_drop_shift; [done|]. split; [lia|].
    by replace (st + (i - st)) with i by lia.
  - right. exists (st + j). apply occurs_drop_shift in H1 as [H3 H4]; [|done]. split; [done|]. split; [lia|]. split; [lia|]. split; [done|].
    intros i' Hi' Ho. enough (j ≤ i' - st) by lia. apply H2, occurs_drop_shift; [done|]. split; [lia|].
    by replace (st + (i' - st)) with i' by lia.
Qed.

(* ===================================================================== *)
(** ** Stop strings                                                       *)
(* ===================================================================== *)

(** The stop string is in the text at [i] and ends in its last [new] characters. *)
Definition completes (output_text : text) (new : Z) (s : text) (i : Z) : Prop :=
  occurs s output_text i ∧ len output_text - new < i + len s.

Lemma stop_search t new s : s ≠ [] → 0 < new →
  (py_find t s (1 - new - len s) = -1 ∧ ∀ i, ~ completes t new s i) ∨
  (∃ i, py_find t s (1 - new - len s) = i ∧ 0 ≤ i ∧ completes t new s i ∧ ∀ i', completes t new s i' → i ≤ i').
Proof.
  intros Hs Hnew. assert (Hls : 0 < len s) by (destruct s; [done|unfold len; simpl; lia]).
  destruct (py_find_spec t s (1 - new - len s)) as [(H1 & H2)|(i & H1 & H2 & H3 & H4 & H5)]; [lia| |].
  - left. split; [done|]. intros i [Ho Hi]. apply (H2 i); [|done]. apply occurs_bounds in Ho. lia.
  - right. exists i. split; [done|]. split; [done|]. split; [split; [done|lia]|].
    intros i' [Ho Hi']. apply H5; [|done]. apply occurs_bounds in Ho. lia.
Qed.

(** The text after the cut that [check_stop_strings] asks for. *)
Definition cut_text (t : text) (truncate_to : Z) : text := if truncate_to =? -1 then t else slice_to t truncate_to.

Lemma stop_loop_spec t new stop include : Forall (λ s, s ≠ []) stop → 0 < new →
  match stop_loop t new stop include with
  | None => ∀ s i, s ∈ stop → ~ completes t new s i
  | Some (s, cut) => ∃ before after i, stop = before ++ s :: after ∧
      (∀ s' i', s' ∈ before → ~ completes t new s' i') ∧
      completes t new s i ∧ (∀ i', completes t new s i' → i ≤ i') ∧
      cut_text t cut = take (Z.to_nat (if include then i + len s else i)) t
  end.
Proof.
  intros Hall Hnew. induction stop as [|s stop IH]; simpl; [by intros s i ?%not_elem_of_nil|].
  apply Forall_cons in Hall as [Hs Hall]. specialize (IH Hall).
  destruct (stop_search t new s Hs Hnew) as [(-> & H)|(i & -> & Hi & Hc & Hmin)]; simpl.
  - destruct (stop_loop t new stop include) as [[s' cut]|].
    + destruct IH as (before & after & i & -> & H2 & H3). exists (s :: before), after, i. split; [done|]. split; [|done].
      intros s'' i'' [->|Hin]%elem_of_cons; [apply H|by apply H2].
    + intros s' i [->|Hin]%elem_of_cons; [apply H|by apply IH].
  - rewrite (proj2 (Z.eqb_neq _ _)) by lia. pose proof (len_nonneg s).
    assert (Hres : ∀ cut, cut_text t cut = take (Z.to_nat (if include then i + len s else i)) t →
      ∃ before after i, s :: stop = before ++ s :: after ∧ (∀ s' i', s' ∈ before → ~ completes t new s' i') ∧
        completes t new s i ∧ (∀ i', completes t new s i' → i ≤ i') ∧
        cut_text t cut = take (Z.to_nat (if include then i + len s else i)) t).
    { intros cut Hcut. exists [], stop, i. split; [done|]. split; [by intros ? ? ?%not_elem_of_nil|]. done. }
    destruct include.
    + destruct (Z.leb_spec (len t) (i + len s)) as [Hge|Hlt]; apply Hres; unfold cut_text; simpl.
      * rewrite take_ge by (unfold len in *; lia). done.
      * rewrite (proj2 (Z.eqb_neq _ _)) by lia. by rewrite slice_to_nonneg by lia.
    + apply Hres. unfold cut_text. rewrite (proj2 (Z.eqb_neq _ _)) by lia. by rewrite slice_to_nonneg by lia.
Qed.

(** C23.  [check_stop_strings] finds a stop string exactly when the last
    [new_char_count] characters complete one.  It reports the first of the list that
    they complete, at its first such place, and cuts the text there: before the stop
    string, or after it when it is to be included. *)
Theorem check_stop_strings_is_exact (t : text) (new : Z) (stop : list text) (include : bool) :
  Forall (λ s, s ≠ []) stop → 0 ≤ new →
  match check_stop_strings t new stop include with
  | None => ∀ s i, s ∈ stop → ~ completes t new s i
  | Some (s, cut) => ∃ before after i, stop = before ++ s :: after ∧
      (∀ s' i', s' ∈ before → ~ completes t new s' i') ∧
      completes t new s i ∧ (∀ i', completes t new s i' → i ≤ i') ∧
      cut_text t cut = take (Z.to_nat (if include then i + len s else i)) t
  end.
Proof.
  intros Hall Hnew. unfold check_stop_strings. destruct (Z.eqb_spec new 0) as [->|Hne]; simpl.
  { intros s i _ [Ho%occurs_bounds Hi]. lia. }
  case_bool_decide as E; [subst; by intros s i ?%not_elem_of_nil|]. apply stop_loop_spec; [done|lia].
Qed.
Lemma check_stop_strings_is_exact_witness :
  ∃ before after i, [[7]; [2; 3]] = before ++ [2; 3] :: after ∧
    (∀ s' i', s' ∈ before → ~ completes [1; 2; 3; 4] 2 s' i') ∧
    completes [1; 2; 3; 4] 2 [2; 3] i ∧ (∀ i', completes [1; 2; 3; 4] 2 [2; 3] i' → i ≤ i') ∧
    cut_text [1; 2; 3; 4] 1 = take (Z.to_nat i) [1; 2; 3; 4].
Proof.
  apply (check_stop_strings_is_exact [1; 2; 3; 4] 2 [[7]; [2; 3]] false); [|lia].
  repeat (apply Forall_cons; split); [done|done|apply Forall_nil_2].
Defined.

(* ===================================================================== *)
(** ** Streaming                                                          *)
(* ===================================================================== *)

Section streaming.
Context {D : Type} `{!Decoder D}.
Implicit Types d : Detokenizer D.

(** Only the text and the tokens grow. *)
Record grows d d' (t : text) (ids : list Z) : Prop := {
  gr_text : output_text d' = output_text d ++ t;
  gr_ids : token_ids d' = token_ids d ++ ids;
  gr_stop : stop d' = stop d;
  gr_min : min_tokens d' = min_tokens d;
  gr_include : include_stop_str_in_output d' = include_stop_str_in_output d;
  gr_buffer : stop_buffer_length d' = stop_buffer_length d;
  gr_offset : _last_output_text_offset d' = _last_output_text_offset d;
}.
Lemma grows_refl d : grows d d [] [].
Proof. split; rewrite ?app_nil_r; done. Qed.
Lemma grows_trans d1 d2 d3 t1 t2 l1 l2 : grows d1 d2 t1 l1 → grows d2 d3 t2 l2 → grows d1 d3 (t1 ++ t2) (l1 ++ l2).
Proof. intros [] []. split; try congruence; rewrite app_assoc; congruence. Qed.

Lemma detokenize_loop_spec ids off d off' d' : detokenize_loop ids off d = (Ok off', d') →
  ∃ t, grows d d' t ids ∧ (min_tokens d = 0 → off' = off) ∧ (off ≤ len (output_text d) → off ≤ off' ≤ len (output_text d')).
Proof.
  revert off d. induction ids as [|id ids IH]; intros off d; simpl.
  { intros [= <- <-]. exists []. split; [apply grows_refl|]. split; [done|lia]. }
  rewrite run_modify. unfold bind at 1. unfold call_decode_next.
  destruct (decode_next _ id _) as [[s|e] dec]; [|done]. rewrite run_modify, run_get.
  set (d1 := _ <| output_text ::= _ |>). set (off1 := if _ && _ then _ else _). intros (t & H1 & H2 & H3)%IH.
  assert (Hg : grows d d1 s [id]) by (by destruct d). exists (s ++ t). split; [by eapply (grows_trans d d1 d' s t [id])|].
  assert (Hl : len (output_text d1) = len (output_text d) + len s) by (destruct d; apply len_app). pose proof (len_nonneg s).
  split.
  { intros Hmin. rewrite H2 by (by rewrite (gr_min _ _ _ _ Hg)). unfold off1. rewrite (gr_min _ _ _ _ Hg), Hmin. done. }
  intros Hoff. assert (Hoff1 : off ≤ off1 ≤ len (output_text d1)) by (unfold off1; case_bool; lia). lia.
Qed.

(** The buffer holds back what a stop string needs. *)
Record buffer_ok d : Prop := {
  bo_nonempty : Forall (λ s, s ≠ []) (stop d);
  bo_nonneg : 0 ≤ stop_buffer_length d;
  bo_length : include_stop_str_in_output d = false → ∀ s, s ∈ stop d → len s ≤ stop_buffer_length d + 1;
}.
Lemma new_buffer_ok sp mt include ids dec d : Forall (λ s, s ≠ []) (stop_strings sp) →
  new_Detokenizer (D := D) sp mt include ids dec = Ok d →
  buffer_ok d ∧ token_ids d = ids ∧ output_text d = [] ∧ _last_output_text_offset d = 0 ∧ stop d = stop_strings sp ∧
  include_stop_str_in_output d = include ∧ min_tokens d = mt ∧ decoder d = dec.
Proof.
  unfold new_Detokenizer. intros Hne H. apply bind_Ok in H as (b & Hb & [= <-]). split; [|done].
  destruct (negb (bool_decide (stop_strings sp = [])) && negb include) eqn:E; ok_steps; subst.
  - bool_to_prop. apply py_max_Ok in H as [Hin Hmax].
    assert (Hall : ∀ s, s ∈ stop_strings sp → 1 ≤ len s).
    { intros s Hs. rewrite Forall_forall in Hne. specialize (Hne s Hs). destruct s; [done|unfold len; simpl; lia]. }
    split; simpl; [done| |].
    + apply list_elem_of_fmap in Hin as (s & -> & Hs). specialize (Hall s Hs). lia.
    + intros _ s Hs. pose proof (Hmax (len s) ltac:(by apply list_elem_of_fmap_2)). lia.
  - split; simpl; [done|lia|]. intros -> s Hs. apply andb_false_iff in E as [E|E]; [|done]. bool_to_prop. rewrite E in Hs.
    by apply not_elem_of_nil in Hs.
Qed.

Definition same_settings d d' : Prop :=
  stop d' = stop d ∧ min_tokens d' = min_tokens d ∧ include_stop_str_in_output d' = include_stop_str_in_output d ∧
  stop_buffer_length d' = stop_buffer_length d.

(** The stop check at the end of [update]. *)
Definition stop_check (stop_check_offset : Z) : M (Detokenizer D) (option text) :=
  d <- get ;;
  if negb (bool_decide (stop d = [])) && (min_tokens d <? num_output_tokens d) then
    match check_stop_strings (output_text d) (len (output_text d) - stop_check_offset) (stop d)
            (include_stop_str_in_output d) with
    | None => ret None
    | Some (stop_string, truncate_to) =>
        when (negb (truncate_to =? -1)) do modify (λ d, d <| output_text ::= λ t, slice_to t truncate_to |>) ;;
        ret (Some stop_string)
    end
  else ret None.
Lemma slice_to_snoc {A} (l : list A) x : slice_to (l ++ [x]) (-1) = l.
Proof.
  unfold slice_to, slice_bound. simpl. rewrite len_app. unfold len. simpl.
  replace (Z.to_nat _) with (length l) by lia. apply take_app_length.
Qed.
Lemma update_parts ids st d r d' : ids ≠ [] → update ids st d = (Ok r, d') →
  ∃ off t d1, grows d d1 t ids ∧ len (output_text d) ≤ off ≤ len (output_text d1) ∧
    (min_tokens d = 0 → off = len (output_text d)) ∧ stop_check off d1 = (Ok r, d').
Proof.
  intros Hids. unfold update. rewrite bool_decide_false by done. rewrite run_get. set (skip := st && _). unfold bind at 1.
  destruct (detokenize_loop _ _ d) as [[off|e] d1] eqn:Eloop; [|done].
  apply detokenize_loop_spec in Eloop as (t & Hg & Hoff0 & Hoff). specialize (Hoff ltac:(lia)). destruct skip.
  - destruct ids as [|x ids _] using rev_ind; [done|]. rewrite last_snoc. rewrite slice_to_snoc in Hg. rewrite run_modify.
    intros H. exists off, t, (d1 <| token_ids ::= λ l, l ++ [x] |>). split; [|split; [done|split; [done|exact H]]].
    rewrite <-(app_nil_r t). eapply grows_trans; [exact Hg|]. destruct d1. split; simpl; rewrite ?app_nil_r; done.
  - intros H. exists off, t, d1. done.
Qed.
Lemma stop_check_spec off d r d' : Forall (λ s, s ≠ []) (stop d) → off ≤ len (output_text d) →
  stop_check off d = (Ok r, d') →
  ∃ n, d' = d <| output_text ::= take (Z.to_nat n) |> ∧
    match r with
    | None => n = len (output_text d) ∧ (min_tokens d < num_output_tokens d →
        ∀ s i, s ∈ stop d → ~ completes (output_text d) (len (output_text d) - off) s i)
    | Some s => ∃ i, s ∈ stop d ∧ completes (output_text d) (len (output_text d) - off) s i ∧
        (∀ i', completes (output_text d) (len (output_text d) - off) s i' → i ≤ i') ∧
        n = (if include_stop_str_in_output d then i + len s else i)
    end.
Proof.
  intros Hne Hoff. unfold stop_check. rewrite run_get.
  assert (Hid : d = d <| output_text ::= take (Z.to_nat (len (output_text d))) |>).
  { destruct d. unfold setter, set_output_text. simpl. by rewrite take_ge by (unfold len; lia). }
  case_bool.
  - pose proof (check_stop_strings_is_exact (output_text d) (len (output_text d) - off) (stop d)
      (include_stop_str_in_output d) Hne ltac:(lia)) as H.
    destruct (check_stop_strings _ _ _ _) as [[s cut]|].
    + destruct H as (before & after & i & Hst & _ & Hc & Hmin & Hcut). intros Heq.
      exists (if include_stop_str_in_output d then i + len s else i).
      assert (Hr : r = Some s ∧ d' = d <| output_text := cut_text (output_text d) cut |>).
      { unfold cut_text. destruct (cut =? -1); simpl in Heq; [|by injection Heq as <- <-]. injection Heq as <- <-.
        by destruct d. }
      destruct Hr as [-> ->]. split; [by rewrite Hcut; destruct d|]. exists i. split; [rewrite Hst; set_solver|done].
    + intros [= <- <-]. exists (len (output_text d)). split; [done|]. split; [done|]. intros _. exact H.
  - intros [= <- <-]. exists (len (output_text d)). split; [done|]. split; [done|]. intros Hmin s i Hs.
    apply andb_false_iff in E as [E|E]; bool_to_prop; [rewrite E in Hs; by apply not_elem_of_nil in Hs|lia].
Qed.

(** What [update] does to the text: it appends, and cuts at a stop string at most
    what was held back. *)
Lemma detok_update_spec ids st d r d' : buffer_ok d → update ids st d = (Ok r, d') →
  ∃ t n, same_settings d d' ∧ _last_output_text_offset d' = _last_output_text_offset d ∧
    token_ids d' = token_ids d ++ ids ∧
    output_text d' = take (Z.to_nat n) (output_text d ++ t) ∧
    Z.max 0 (len (output_text d) - stop_buffer_length d) ≤ n ≤ len (output_text d ++ t) ∧
    (ids = [] → t = [] ∧ r = None) ∧
    match r with
    | None => n = len (output_text d ++ t) ∧ (ids ≠ [] → min_tokens d < num_output_tokens d' → min_tokens d = 0 →
        ∀ s i, s ∈ stop d → ~ completes (output_text d ++ t) (len t) s i)
    | Some s => ∃ i, s ∈ stop d ∧ completes (output_text d ++ t) (len t) s i ∧
        (min_tokens d = 0 → ∀ i', completes (output_text d ++ t) (len t) s i' → i ≤ i') ∧
        n = (if include_stop_str_in_output d then i + len s else i)
    end.
Proof.
  intros [Hne Hnn Hlen]. destruct (decide (ids = [])) as [->|Hids].
  { intros [= <- <-]. exists [], (len (output_text d)). rewrite !app_nil_r. pose proof (len_nonneg (output_text d)).
    split_and!; try done; try lia. by rewrite take_ge by (unfold len; lia). }
  intros (off & t & d1 & [G1 G2 G3 G4 G5 G6 G7] & Hoff & Hoff0 & H)%update_parts; [|done].
  apply stop_check_spec in H as (n & -> & Hr); [|by rewrite G3|lia].
  rewrite G1, G3, G4, G5 in Hr. rewrite G1 in Hoff. rewrite len_app in *. pose proof (len_nonneg (output_text d)). pose proof (len_nonneg t).
  exists t, n. assert (Hnum : num_output_tokens (d1 <| output_text ::= take (Z.to_nat n) |>) = num_output_tokens d1) by (by destruct d1).
  destruct d1 as [ids1 stop1 mt1 inc1 buf1 last1 out1 dec1]. simpl in *. subst. rewrite Hnum.
  split; [done|]. split; [done|]. split; [done|]. split; [done|]. destruct r as [s|].
  - destruct Hr as (i & Hs & [Ho Hc] & Hmin & ->). pose proof (occurs_bounds _ _ _ Ho) as [Hi1 Hi2]. rewrite len_app in *. pose proof (len_nonneg s).
    split; [|split; [done|]].
    + destruct (include_stop_str_in_output d) eqn:Einc; [lia|]. specialize (Hlen eq_refl s Hs). lia.
    + exists i. split; [done|]. split; [split; [done|rewrite len_app; lia]|]. split; [|done]. intros Hm i' [Ho' Hc'].
      apply Hmin. split; [done|]. specialize (Hoff0 Hm). rewrite len_app in *. lia.
  - destruct Hr as [-> Hr]. rewrite ?len_app. split; [lia|]. split; [done|]. split; [done|]. intros _ Hnt Hm s i Hs [Ho Hc]. apply (Hr Hnt s i Hs).
    split; [done|]. specialize (Hoff0 Hm). rewrite len_app in *. lia.
Qed.

(** What was sent so far: the text up to the offset, which leaves the buffer. *)
Record sent d (e : text) : Prop := {
  se_buffer : buffer_ok d;
  se_text : e = take (Z.to_nat (_last_output_text_offset d)) (output_text d);
  se_nonneg : 0 ≤ _last_output_text_offset d;
  se_offset : _last_output_text_offset d ≤ Z.max 0 (len (output_text d) - stop_buffer_length d);
}.
(** The same when a stop string has cut the text. *)
Definition sent_all_but d (e : text) : Prop :=
  e = take (Z.to_nat (_last_output_text_offset d)) (output_text d) ∧ 0 ≤ _last_output_text_offset d ≤ len (output_text d).
Lemma sent_weaken d e : sent d e → sent_all_but d e.
Proof. intros [[_ H _] H1 H2 H3]. split; [done|]. pose proof (len_nonneg (output_text d)). lia. Qed.

Lemma buffer_ok_same d d' : same_settings d d' → buffer_ok d → buffer_ok d'.
Proof. intros (H1 & H2 & H3 & H4) [B1 B2 B3]. split; rewrite ?H1, ?H3, ?H4; done. Qed.
Lemma update_sent ids st d r d' e : sent d e → update ids st d = (Ok r, d') →
  if r then sent_all_but d' e else sent d' e.
Proof.
  intros [Hb He Hnn Hoff] Hu. destruct (detok_update_spec ids st d r d' Hb Hu) as (t & n & Hs & Ho & Hi & Ht & Hn & Hn0 & Hr).
  assert (Hlen : len (output_text d') = n). { rewrite Ht. unfold len in *. rewrite length_take. lia. }
  assert (Hpre : e = take (Z.to_nat (_last_output_text_offset d')) (output_text d')).
  { rewrite He, Ho, Ht, take_take. rewrite Nat.min_l by lia. rewrite take_app_le; [done|]. pose proof (len_nonneg (output_text d)).
    destruct Hb as [_ Hb _]. unfold len in *. lia. }
  destruct r as [s|].
  - split; [done|]. lia.
  - destruct Hr as [Hn' _]. split; [by eapply buffer_ok_same|done|lia|]. destruct Hs as (_ & _ & _ & ->).
    rewrite Hlen, Ho, Hn', len_app. pose proof (len_nonneg t). lia.
Qed.
Lemma get_next_text finished d : ∃ s d', get_next_output_text finished true d = (Ok s, d') ∧
  same_settings d d' ∧ output_text d' = output_text d ∧ token_ids d' = token_ids d ∧ decoder d' = decoder d ∧
  (finished = false → ∀ e, sent d e → sent d' (e ++ s)) ∧ (finished = true → ∀ e, sent_all_but d e → e ++ s = output_text d).
Proof.
  unfold get_next_output_text. rewrite run_get. simpl.
  set (buf := if finished then 0 else stop_buffer_length d).
  destruct (Z.ltb_spec (_last_output_text_offset d) (len (output_text d) - buf)) as [Hlt|Hge].
  - rewrite run_modify. eexists _, _. split; [done|]. split; [by destruct d|]. split; [by destruct d|]. split; [by destruct d|].
    split; [by destruct d|].
    assert (Hcat : ∀ e, 0 ≤ buf → e = take (Z.to_nat (_last_output_text_offset d)) (output_text d) → 0 ≤ _last_output_text_offset d →
      e ++ slice (output_text d) (_last_output_text_offset d) (len (output_text d) - buf) =
      take (Z.to_nat (len (output_text d) - buf)) (output_text d)).
    { intros e Hbuf -> Hoff. rewrite slice_in_range by lia. rewrite take_take_drop. f_equal. lia. }
    split.
    + intros -> e [Hb He Hnn Hoff]. assert (Hbuf : 0 ≤ buf) by (destruct Hb; unfold buf; lia).
      split; [by eapply buffer_ok_same; [|exact Hb]; destruct d| | |].
      * rewrite Hcat by done. by destruct d.
      * destruct d; simpl in *. lia.
      * unfold buf in *. destruct d; simpl in *. lia.
    + intros -> e [He Hoff]. rewrite Hcat by (done || lia). unfold buf. rewrite take_ge by (unfold len; lia). done.
  - eexists _, d. split; [done|]. split_and!; try done.
    + intros _ e He. by rewrite app_nil_r.
    + intros -> e [-> Hoff]. rewrite app_nil_r. unfold buf in *. by rewrite take_ge by (unfold len in *; lia).
Qed.

(* ===================================================================== *)
(** ** The stop string is not in the output                               *)
(* ===================================================================== *)

Lemma occurs_app_old s t t' i : occurs s (t ++ t') i → i + len s ≤ len t → occurs s t i.
Proof.
  intros (Hi & (b & Hb)%starts_with_spec)%occurs_drop Hle. apply occurs_drop. pose proof (len_nonneg s). split; [lia|].
  apply starts_with_spec. rewrite drop_app_le in Hb by (unfold len in *; lia).
  apply (f_equal (take (length s))) in Hb. rewrite take_app_length, take_app_le in Hb by (rewrite length_drop; unfold len in *; lia).
  exists (drop (length s) (drop (Z.to_nat i) t)). rewrite <-(take_drop (length s) (drop (Z.to_nat i) t)) at 1. by rewrite Hb.
Qed.
Lemma occurs_take s t n i : occurs s (take n t) i → occurs s t i ∧ i + len s ≤ Z.of_nat n.
Proof.
  intros (a & b & Hab & <-). split.
  - exists a, (b ++ drop n t). split; [|done]. rewrite <-(take_drop n t) at 1. by rewrite Hab, <-!app_assoc.
  - apply (f_equal length) in Hab. rewrite length_take, !length_app in Hab. unfold len. lia.
Qed.

(** The decoder does not change where the prompt ends. *)
Class DecoderLaws := prompt_len_kept : ∀ ids id dec, prompt_len (decode_next ids id dec).2 = prompt_len dec.
Context `{!DecoderLaws}.

Lemma loop_prompt_len ids off d off' d' : detokenize_loop ids off d = (Ok off', d') → prompt_len (decoder d') = prompt_len (decoder d).
Proof.
  revert off d. induction ids as [|id ids IH]; intros off d; simpl; [by intros [= <- <-]|].
  rewrite run_modify. unfold bind at 1. unfold call_decode_next.
  pose proof (prompt_len_kept (token_ids (d <| token_ids ::= λ l, l ++ [id] |>)) id (decoder (d <| token_ids ::= λ l, l ++ [id] |>))) as Hp.
  destruct (decode_next _ id _) as [[s|e] dec]; [|done]. rewrite run_modify, run_get. intros ->%IH. by destruct d.
Qed.
Lemma update_prompt_len ids st d r d' : update ids st d = (Ok r, d') → prompt_len (decoder d') = prompt_len (decoder d).
Proof.
  unfold update. case_bool_decide; [by intros [= <- <-]|]. rewrite run_get. unfold bind at 1.
  destruct (detokenize_loop _ _ d) as [[off|e] d1] eqn:Eloop; [|done]. apply loop_prompt_len in Eloop. rewrite <-Eloop.
  assert (Hc : ∀ d2, stop_check off d2 = (Ok r, d') → decoder d' = decoder d2).
  { intros d2. unfold stop_check. rewrite run_get. destruct (_ && _); [|by intros [= <- <-]].
    destruct (check_stop_strings _ _ _ _) as [[s cut]|]; [|by intros [= <- <-]].
    destruct (negb (cut =? -1)); intros [= <- <-]; by destruct d2. }
  destruct (if st && _ then last ids else None) as [x|]; intros Hx.
  - rewrite (Hc (d1 <| token_ids ::= λ l, l ++ [x] |>)); [by destruct d1|exact Hx].
  - by rewrite (Hc d1).
Qed.

(** Updates that found no stop string. *)
Inductive updates : Detokenizer D → Detokenizer D → Prop :=
  | updates_none d : updates d d
  | updates_more d d1 d2 ids st : updates d d1 → update ids st d1 = (Ok None, d2) → updates d d2.

(** One stop string, not included in the output and checked from the start. *)
Record one_stop (s : text) d : Prop := {
  os_buffer : buffer_ok d;
  os_stop : stop d = [s];
  os_include : include_stop_str_in_output d = false;
  os_min : min_tokens d = 0;
  os_tokens : 0 ≤ num_output_tokens d;
  os_absent : ∀ i, ~ occurs s (output_text d) i;
}.
Lemma one_stop_update s ids st d r d' : one_stop s d → update ids st d = (Ok r, d') → one_stop s d'.
Proof.
  intros [Hb Hst Hinc Hmin Htok Habs] Hu. pose proof (update_prompt_len ids st d r d' Hu) as Hpl.
  destruct (detok_update_spec ids st d r d' Hb Hu) as (t & n & Hs & _ & Hi & Ht & Hn & Hn0 & Hr).
  pose proof Hs as (Hs1 & Hs2 & Hs3 & Hs4).
  assert (Hnum : num_output_tokens d' = num_output_tokens d + len ids).
  { unfold num_output_tokens. rewrite Hpl, Hi, len_app. lia. }
  assert (Hnew : ∀ i, occurs s (output_text d ++ t) i → completes (output_text d ++ t) (len t) s i).
  { intros i Ho. split; [done|]. rewrite len_app. destruct (decide (i + len s ≤ len (output_text d))); [|lia].
    exfalso. by eapply Habs, occurs_app_old. }
  pose proof (len_nonneg ids). split; [by eapply buffer_ok_same|congruence|congruence|congruence|lia|].
  intros i Ho. rewrite Ht in Ho. apply occurs_take in Ho as [Ho Hle]. rewrite Hst in Hr. destruct r as [s'|].
  - destruct Hr as (i0 & ->%list_elem_of_singleton & Hc & Hmin0 & ->). rewrite Hinc in *.
    assert (Hs0 : s ≠ []) by (destruct Hb as [Hne _ _]; rewrite Hst in Hne; by apply Forall_cons in Hne as [? _]).
    assert (0 < len s) by (destruct s; [done|unfold len; simpl; lia]). specialize (Hmin0 Hmin i (Hnew i Ho)). lia.
  - destruct Hr as [-> Hr]. destruct (decide (ids = [])) as [->|Hids].
    + destruct (Hn0 eq_refl) as [-> _]. rewrite app_nil_r in Ho. by eapply Habs.
    + eapply (Hr Hids); [|done|by apply list_elem_of_singleton|by apply Hnew]. rewrite Hnum, Hmin.
      destruct ids; [done|]. rewrite len_cons. pose proof (len_nonneg ids). lia.
Qed.
Lemma one_stop_updates s d d' : one_stop s d → updates d d' → one_stop s d'.
Proof. intros Hd. induction 1 as [|d d1 d2 ids st _ IH Hu]; [done|]. eapply one_stop_update; [by apply IH|done]. Qed.
End streaming.

(** *** The two decoders *)
#[export] Instance slow_decoder_laws t : @DecoderLaws SlowDecoder (slow_decoder t).
Proof.
  intros ids id dec. simpl. unfold slow_decode_next. destruct (detokenize_incrementally _ _ _ _ _ _ _) as [[[[] ] ]|]; done.
Qed.
#[export] Instance fast_decoder_laws {S} (stream_step : Z → S → res (option text) * S) new_stream invalid_prefix :
  @DecoderLaws (FastDecoder (S := S)) (fast_decoder stream_step new_stream invalid_prefix).
Proof. done. Qed.

(** C24.  A request with one stop string that is not to be included in the output,
    and without a minimum of tokens ([min_tokens] is 0), never has it in its output
    text: not while it is detokenized, not when the stop string is found, for any
    tokens and any decoder.  (With several stop strings one of them may remain:
    [output_may_contain_a_stop_string].) *)
Theorem stop_string_is_not_in_the_output {D} `{!Decoder D, !DecoderLaws} (s : text) (prompt : list Z) (dec : D)
    (d0 d1 d2 : Detokenizer D) new_token_ids stop_terminated r :
  s ≠ [] → prompt_len dec = len prompt → new_Detokenizer (StopOne s) 0 false prompt dec = Ok d0 →
  updates d0 d1 → update new_token_ids stop_terminated d1 = (Ok r, d2) →
  ∀ i, ~ occurs s (output_text d2) i.
Proof.
  intros Hs Hpl Hnew Hup Hu. destruct (new_buffer_ok (StopOne s) 0 false prompt dec d0) as (Hb & Hids & Hout & _ & Hst & Hinc & Hmin & Hdec);
    [by apply Forall_singleton|done|].
  assert (Hd0 : one_stop s d0).
  { split; try done.
    - unfold num_output_tokens. rewrite Hids, Hdec, Hpl. lia.
    - intros i Ho%occurs_bounds. rewrite Hout, (@len_nil Z) in Ho. assert (0 < len s) by (destruct s; [done|unfold len; simpl; lia]). lia. }
  apply (one_stop_update s new_token_ids stop_terminated d1 r d2); [by eapply one_stop_updates|done].
Qed.

(** A tokenizer whose tokens are characters. *)
Definition char_tokenizer : Tokenizer :=
  mkTokenizer 1000 true [] [] (λ ids _, (λ id, Some [id]) <$> ids) (@concat Z).
Definition char_detokenizer (stop_param : StopParam) : res (Detokenizer SlowDecoder) :=
  new_SlowDetokenizer char_tokenizer (inl [5; 6]) stop_param 0 false false true.
Definition char_update (d : Detokenizer SlowDecoder) (ids : list Z) : res (option text) * Detokenizer SlowDecoder :=
  @update SlowDecoder (slow_decoder char_tokenizer) ids false d.
Lemma stop_string_is_not_in_the_output_witness :
  match char_detokenizer (StopOne [98; 99]) with
  | Ok d0 => ~ occurs [98; 99] (output_text (char_update (char_update d0 [97; 98]).2 [99; 100]).2) 1
  | Raise _ => False
  end.
Proof.
  destruct (char_detokenizer (StopOne [98; 99])) as [d0|e] eqn:E; [|by vm_compute in E].
  eapply (stop_string_is_not_in_the_output (Decoder0 := slow_decoder char_tokenizer) [98; 99] [5; 6] (decoder d0) d0
    (char_update d0 [97; 98]).2 _ [99; 100] false (Some [98; 99])); vm_compute in E; injection E as <-.
  - done.
  - done.
  - done.
  - eapply (updates_more _ _ _ [97; 98] false); [apply updates_none|by vm_compute].
  - by vm_compute.
Defined.

(** With two stop strings the output may contain one: when one update completes
    both, the text is cut at the one that comes first in the list, even if the other
    comes first in the text. *)
Theorem output_may_contain_a_stop_string :
  match char_detokenizer (StopMany [[98]; [97]]) with
  | Ok d => let '(r, d') := char_update d [120; 97; 98] in
      r = Ok (Some [98]) ∧ output_text d' = [120; 97] ∧ occurs [97] (output_text d') 1
  | Raise _ => False
  end.
Proof.
  destruct (char_detokenizer _) as [d|e] eqn:E; vm_compute in E; [|done]. injection E as <-.
  destruct (char_update _ _) as [r d'] eqn:E. vm_compute in E. injection E as <- <-. split; [done|]. split; [done|].
  by exists [120], [].
Qed.
