(* ===== verification/OutputProcessor.v ===== *)
(** * Output processing ([src/vllm/v1/engine/output_processor.py],
    [src/vllm/v1/engine/parallel_sampling.py], [src/vllm/outputs.py])

    The engine core's outputs become text and are handed to the clients: whole at
    the end, cumulatively, or as deltas, possibly only every [stream_interval]
    tokens.  A request for several samples is a parent with one child request per
    sample.  [RequestOutputCollector] hands outputs to a consumer that may be slower
    than the engine.  Parents and collectors are shared objects, so they are in a
    store and passed by name.  Requests have a tokenizer and no streaming input;
    pooling outputs, log-probabilities, routed experts, statistics and tracing are
    left out. *)
From stdpp Require Import pretty.
From S2P Require Import Prelude MathUtils Outcome Request NumPy Scheduler Detok.
Local Open Scope Z_scope.

Inductive RequestOutputKind := CUMULATIVE | DELTA | FINAL_ONLY.
#[export] Instance RequestOutputKind_eq_dec : EqDecision RequestOutputKind.
Proof. solve_decision. Defined.

Record CompletionOutput := mkCompletionOutput {
  co_index : Z;
  co_text : text;
  co_token_ids : list Z;
  co_finish_reason : option FinishReason;
  co_stop_reason : option (StopReason + text);
}.
Definition co_finished (c : CompletionOutput) : bool := is_some (co_finish_reason c).
(** An entry of [outputs] may be the [None] that the aggregator starts with. *)
Record RequestOutput := mkRequestOutput {
  ro_request_id : string;
  ro_outputs : list (option CompletionOutput);
  ro_finished : bool;
}.

(* ===================================================================== *)
(** ** Merging outputs                                                    *)
(* ===================================================================== *)

(** One completion of [next_output] merged into [outputs]. *)
Fixpoint merge_completion (aggregate : bool) (next : CompletionOutput) (outputs : list (option CompletionOutput)) :
    res (list (option CompletionOutput)) :=
  match outputs with
  | [] => Ok [Some next]
  | None :: _ => Raise AttributeError
  | Some completion :: rest =>
      if co_index completion =? co_index next then
        Ok (Some (if aggregate
                  then mkCompletionOutput (co_index completion) (co_text completion ++ co_text next)
                         (co_token_ids completion ++ co_token_ids next) (co_finish_reason next) (co_stop_reason next)
                  else next) :: rest)
      else rest' ← merge_completion aggregate next rest; Ok (Some completion :: rest')
  end.
Fixpoint merge_completions (aggregate : bool) (nexts outputs : list (option CompletionOutput)) :
    res (list (option CompletionOutput)) :=
  match nexts with
  | [] => Ok outputs
  | None :: nexts' => match outputs with
                      | [] => merge_completions aggregate nexts' [None]
                      | _ :: _ => Raise AttributeError
                      end
  | Some next :: nexts' => outputs' ← merge_completion aggregate next outputs; merge_completions aggregate nexts' outputs'
  end.
(** [RequestOutput.add]. *)
Definition ro_add (o next_output : RequestOutput) (aggregate : bool) : res RequestOutput :=
  outputs ← merge_completions aggregate (ro_outputs next_output) (ro_outputs o);
  Ok (mkRequestOutput (ro_request_id o) outputs (ro_finished o || ro_finished next_output)).

Definition STREAM_FINISHED : RequestOutput := mkRequestOutput ""%string [] true.

(** [RequestOutputCollector]. *)
Record RequestOutputCollector := mkCollector {
  aggregate : bool;
  collected : option (RequestOutput + exc);
}.
Definition new_Collector (output_kind : RequestOutputKind) : RequestOutputCollector :=
  mkCollector (bool_decide (output_kind = DELTA)) None.
Definition put (output : RequestOutput + exc) : M RequestOutputCollector unit :=
  c <- get ;;
  match collected c, output with
  | None, _ | _, inr _ => Prelude.put (mkCollector (aggregate c) (Some output))
  | Some (inl o), inl next =>
      o' <- of_res (ro_add o next (aggregate c)) ;;
      Prelude.put (mkCollector (aggregate c) (Some (inl o')))
  | Some (inr _), inl _ => ret tt
  end.
Definition get_nowait : M RequestOutputCollector (option RequestOutput) :=
  c <- get ;;
  Prelude.put (mkCollector (aggregate c) None) ;;
  match collected c with
  | Some (inr e) => raise e
  | Some (inl o) => ret (Some o)
  | None => ret None
  end.

(* ===================================================================== *)
(** ** Parallel sampling                                                  *)
(* ===================================================================== *)

(** The sampling parameters a child differs in, and the output kind. *)
Record SampleParams := mkSampleParams { n_param : Z; seed : option Z; params_output_kind : RequestOutputKind }.
Record ParentRequest := mkParentRequest {
  pr_request_id : string;
  pr_external_req_id : string;
  pr_sampling_params : SampleParams;
  child_requests : gset string;
  output_aggregator : list (option CompletionOutput);
  cached_child_sampling_params : option SampleParams;
}.
#[export] Instance eta_ParentRequest : Eta ParentRequest := λ p,
  mkParentRequest (pr_request_id p) (pr_external_req_id p) (pr_sampling_params p) (child_requests p)
    (output_aggregator p) (cached_child_sampling_params p).
#[export] Instance set_child_requests : Setter child_requests.
Proof. build_setter. Defined.
#[export] Instance set_output_aggregator : Setter output_aggregator.
Proof. build_setter. Defined.
#[export] Instance set_cached_child_sampling_params : Setter cached_child_sampling_params.
Proof. build_setter. Defined.

Definition new_ParentRequest (request_id external_req_id : string) (params : SampleParams) : ParentRequest :=
  mkParentRequest request_id external_req_id params ∅
    (if bool_decide (params_output_kind params = FINAL_ONLY) then py_replicate (n_param params) None else []) None.
Definition _get_child_sampling_params (index : Z) : M ParentRequest SampleParams :=
  p <- get ;;
  match cached_child_sampling_params p with
  | Some c => ret c
  | None =>
      let params := pr_sampling_params p in
      match seed params with
      | None =>
          let child := mkSampleParams 1 None (params_output_kind params) in
          modify (λ p, p <| cached_child_sampling_params := Some child |>) ;;
          ret child
      | Some s => ret (mkSampleParams 1 (Some (s + index)) (params_output_kind params))
      end
  end.
Definition child_id (index : Z) (request_id : string) : string := pretty index +:+ "_" +:+ request_id.
Definition get_child_info (index : Z) : M ParentRequest (string * SampleParams) :=
  p <- get ;;
  let child_req_id := child_id index (pr_request_id p) in
  modify (λ p, p <| child_requests ::= λ s, {[child_req_id]} ∪ s |>) ;;
  params <- _get_child_sampling_params index ;;
  ret (child_req_id, params).
Definition get_outputs (child_request_id : string) (completion_output : CompletionOutput) :
    M ParentRequest (list (option CompletionOutput) * bool) :=
  p <- get ;;
  let known := bool_decide (child_request_id ∈ child_requests p) in
  let already_finished_and_returned := co_finished completion_output && negb known in
  when (co_finished completion_output && known) do
    modify (λ p, p <| child_requests ::= λ s, s ∖ {[child_request_id]} |>) ;;
  p <- get ;;
  outputs <- (if negb (bool_decide (params_output_kind (pr_sampling_params p) = FINAL_ONLY))
              then ret (if already_finished_and_returned then [] else [Some completion_output])
              else
                agg <- of_res (list_set (output_aggregator p) (co_index completion_output) (Some completion_output)) ;;
                modify (λ p, p <| output_aggregator := agg |>) ;;
                ret (if bool_decide (child_requests p = ∅) then agg else [])) ;;
  ret (outputs, bool_decide (child_requests p = ∅)).

(* ===================================================================== *)
(** ** Requests                                                           *)
(* ===================================================================== *)

Record RequestState (D : Type) := mkRequestState {
  rs_request_id : string;
  rs_external_req_id : string;
  parent_req : option string;
  request_index : Z;
  output_kind : RequestOutputKind;
  detokenizer : Detokenizer D;
  is_prefilling : bool;
  rs_num_cached_tokens : Z;
  rs_stream_interval : Z;
  sent_tokens_offset : Z;
  rs_queue : option string;
}.
Arguments mkRequestState {D}.
Arguments rs_request_id {D}.
Arguments rs_external_req_id {D}.
Arguments parent_req {D}.
Arguments request_index {D}.
Arguments output_kind {D}.
Arguments detokenizer {D}.
Arguments is_prefilling {D}.
Arguments rs_num_cached_tokens {D}.
Arguments rs_stream_interval {D}.
Arguments sent_tokens_offset {D}.
Arguments rs_queue {D}.
#[export] Instance eta_RequestState {D} : Eta (RequestState D) := λ r,
  mkRequestState (rs_request_id r) (rs_external_req_id r) (parent_req r) (request_index r) (output_kind r)
    (detokenizer r) (is_prefilling r) (rs_num_cached_tokens r) (rs_stream_interval r) (sent_tokens_offset r) (rs_queue r).
#[export] Instance set_detokenizer {D} : Setter (@detokenizer D).
Proof. build_setter. Defined.
#[export] Instance set_is_prefilling {D} : Setter (@is_prefilling D).
Proof. build_setter. Defined.
#[export] Instance set_rs_num_cached_tokens {D} : Setter (@rs_num_cached_tokens D).
Proof. build_setter. Defined.
#[export] Instance set_sent_tokens_offset {D} : Setter (@sent_tokens_offset D).
Proof. build_setter. Defined.

Section request_state.
Context {D : Type} `{!Decoder D}.
(** Parents by their id, and a request. *)
Abbreviation PM := (M (gmap string ParentRequest * RequestState D)).

(** A call on the request's detokenizer, and on its parent. *)
Definition on_detok {A} (m : M (Detokenizer D) A) : PM A :=
  zoom (λ s, detokenizer s.2) (λ d s, (s.1, s.2 <| detokenizer := d |>)) m.
Definition on_parent {A} (pid : string) (m : M ParentRequest A) : PM A := λ s,
  match s.1 !! pid with
  | None => (Raise KeyError, s)
  | Some p => let '(r, p') := m p in (r, (<[pid := p']> s.1, s.2))
  end.

Definition _new_completion_output (token_ids : list Z) (finish_reason : option FinishReason)
    (stop_reason : option (StopReason + text)) : PM CompletionOutput :=
  s <- gets snd ;;
  let finished := is_some finish_reason in
  let delta := bool_decide (output_kind s = DELTA) in
  text <- on_detok (get_next_output_text finished delta) ;;
  let token_ids := if negb delta then output_token_ids (detokenizer s) else token_ids in
  ret (mkCompletionOutput (request_index s) text token_ids finish_reason (if finished then stop_reason else None)).

(** Whether an output is due ([stream_interval]). *)
Definition output_due (s : RequestState D) (finished : bool) : bool :=
  negb (1 <? rs_stream_interval s) || finished || (sent_tokens_offset s =? 0) ||
  (rs_stream_interval s <=? num_output_tokens (detokenizer s) - sent_tokens_offset s).
Definition make_request_output (new_token_ids : list Z) (finish_reason : option FinishReason)
    (stop_reason : option (StopReason + text)) : PM (option RequestOutput) :=
  s <- gets snd ;;
  let finished := is_some finish_reason in
  if negb finished && bool_decide (output_kind s = FINAL_ONLY) then ret None
  else if negb (output_due s finished) then ret None
  else
    let from_offset := (1 <? rs_stream_interval s) && bool_decide (output_kind s = DELTA) in
    let new_token_ids := if from_offset then slice_from (output_token_ids (detokenizer s)) (sent_tokens_offset s)
                         else new_token_ids in
    when from_offset do
      modify (λ ps, (ps.1, ps.2 <| sent_tokens_offset := num_output_tokens (detokenizer ps.2) |>)) ;;
    output <- _new_completion_output new_token_ids finish_reason stop_reason ;;
    match parent_req s with
    | None => ret (Some (mkRequestOutput (rs_external_req_id s) [Some output] finished))
    | Some pid =>
        r <- on_parent pid (get_outputs (rs_request_id s) output) ;;
        if bool_decide (r.1 = []) then ret None
        else
          ext <- on_parent pid (gets pr_external_req_id) ;;
          ret (Some (mkRequestOutput ext r.1 r.2))
    end.

(** Steps 2 and 4 of [process_outputs] for one output: the request's output, and
    its finish reason after the stop strings were checked. *)
Definition process_tokens (new_token_ids : list Z) (finish_reason : option FinishReason) (stop_reason : option StopReason) :
    PM (option RequestOutput * option FinishReason) :=
  stop_string <- on_detok (update new_token_ids (bool_decide (finish_reason = Some STOP))) ;;
  let stopped := match stop_string with Some s => negb (bool_decide (s = [])) | None => false end in
  let finish_reason := if stopped then Some STOP else finish_reason in
  let stop_reason := if stopped then inr <$> stop_string else inl <$> stop_reason in
  o <- make_request_output new_token_ids finish_reason stop_reason ;;
  ret (o, finish_reason).
End request_state.

(* ===================================================================== *)
(** ** The output processor                                               *)
(* ===================================================================== *)

(** [parents] and [queues] are the shared objects; [parent_requests] is the
    dict of the parents that are registered. *)
Record OutputProcessor (D : Type) := mkOutputProcessor {
  op_stream_interval : Z;
  request_states : gmap string (RequestState D);
  parent_requests : gset string;
  external_req_ids : gmap string (list string);
  parents : gmap string ParentRequest;
  queues : gmap string RequestOutputCollector;
}.
Arguments mkOutputProcessor {D}.
Arguments op_stream_interval {D}.
Arguments request_states {D}.
Arguments parent_requests {D}.
Arguments external_req_ids {D}.
Arguments parents {D}.
Arguments queues {D}.
#[export] Instance eta_OutputProcessor {D} : Eta (OutputProcessor D) := λ p,
  mkOutputProcessor (op_stream_interval p) (request_states p) (parent_requests p) (external_req_ids p) (parents p) (queues p).
#[export] Instance set_request_states {D} : Setter (@request_states D).
Proof. build_setter. Defined.
#[export] Instance set_parent_requests {D} : Setter (@parent_requests D).
Proof. build_setter. Defined.
#[export] Instance set_external_req_ids {D} : Setter (@external_req_ids D).
Proof. build_setter. Defined.
#[export] Instance set_parents {D} : Setter (@parents D).
Proof. build_setter. Defined.
#[export] Instance set_queues {D} : Setter (@queues D).
Proof. build_setter. Defined.
Definition new_OutputProcessor {D} (stream_interval : Z) : OutputProcessor D :=
  mkOutputProcessor stream_interval ∅ ∅ ∅ ∅ ∅.

Section output_processor.
Context {D : Type} `{!Decoder D}.
Abbreviation OM := (M (OutputProcessor D)).

(** A call on the state of a request; [registered] when it is in [request_states]. *)
Definition with_state {A} (registered : bool) (s : RequestState D)
    (m : M (gmap string ParentRequest * RequestState D) A) : OM (A * RequestState D) := λ p,
  let '(r, (ps, s')) := m (parents p, s) in
  let p := p <| parents := ps |> in
  (match r with Ok a => Ok (a, s') | Raise e => Raise e end,
   if registered then p <| request_states ::= insert (rs_request_id s) s' |> else p).
Definition queue_put (q : string) (o : RequestOutput) : OM unit := λ p,
  match queues p !! q with
  | None => (Raise KeyError, p)
  | Some c => let '(r, c') := put (inl o) c in (r, p <| queues ::= insert q c' |>)
  end.

(** [list.remove], and the entry dropped when it becomes empty. *)
Fixpoint list_remove (x : string) (l : list string) : res (list string) :=
  match l with
  | [] => Raise ValueError
  | y :: l' => if bool_decide (y = x) then Ok l' else l'' ← list_remove x l'; Ok (y :: l'')
  end.
Definition drop_internal_id (external_req_id request_id : string) : OM unit :=
  modify (λ p, p <| external_req_ids ::= λ m, <[external_req_id := default [] (m !! external_req_id)]> m |>) ;;
  ids <- gets external_req_ids ;;
  internal_ids <- of_res (list_remove request_id (default [] (ids !! external_req_id))) ;;
  modify (λ p, p <| external_req_ids ::=
                   if bool_decide (internal_ids = []) then delete external_req_id else insert external_req_id internal_ids |>).

Definition _finish_request (s : RequestState D) : OM unit :=
  p <- get ;;
  match request_states p !! rs_request_id s with
  | None => raise KeyError
  | Some _ =>
      modify (λ p, p <| request_states ::= delete (rs_request_id s) |>) ;;
      drop_internal_id (rs_external_req_id s) (rs_request_id s) ;;
      match parent_req s with
      | None => ret tt
      | Some pid =>
          p <- get ;;
          pr <- of_option KeyError (parents p !! pid) ;;
          when (bool_decide (child_requests pr = ∅)) do
            modify (λ p, p <| parent_requests ::= λ s, s ∖ {[pid]} |>)
      end
  end.

(** [add_request] for a request that is not resumable; [parent] is the parent object
    when there is one.  A request whose id is known ends the one that has it. *)
Definition op_add_request (request_id external_req_id : string) (dec : Detokenizer D) (kind : RequestOutputKind)
    (parent : option ParentRequest) (index : Z) (q : option string) : OM unit :=
  p <- get ;;
  match request_states p !! request_id with
  | Some s =>
      _finish_request s ;;
      match rs_queue s with
      | Some q => queue_put q STREAM_FINISHED
      | None => ret tt
      end
  | None =>
      let s := mkRequestState request_id external_req_id (pr_request_id <$> parent) index kind dec true 0
                 (op_stream_interval p) 0 q in
      modify (λ p, p <| request_states ::= insert request_id s |>) ;;
      match parent with
      | Some pr => modify (λ p, p <| parents ::= insert (pr_request_id pr) pr |>
                                  <| parent_requests ::= λ s, {[pr_request_id pr]} ∪ s |>)
      | None => ret tt
      end ;;
      modify (λ p, p <| external_req_ids ::= λ m, <[external_req_id := default [] (m !! external_req_id) ++ [request_id]]> m |>)
  end.

(** One output of [process_outputs]: what is returned and what is to be aborted. *)
Definition process_output (o : EngineCoreOutput) : OM (list RequestOutput * list string) :=
  p <- get ;;
  match request_states p !! eo_request_id o with
  | None => ret ([], [])
  | Some s =>
      let s := if is_prefilling s
               then (match eo_prefill_stats o with
                     | Some st => s <| rs_num_cached_tokens := ps_num_cached_tokens st |>
                     | None => s
                     end) <| is_prefilling := false |>
               else s in
      r <- with_state true s (process_tokens (eo_new_token_ids o) (eo_finish_reason o) (eo_stop_reason o)) ;;
      let '((out, finish_reason), s) := r in
      returned <- match out, rs_queue s with
                  | None, _ => ret []
                  | Some out, Some q => queue_put q out ;; ret []
                  | Some out, None => ret [out]
                  end ;;
      if is_some finish_reason then
        _finish_request s ;;
        ret (returned, if is_some (eo_finish_reason o) then [] else [eo_request_id o])
      else ret (returned, [])
  end.
Definition process_outputs (outputs : list EngineCoreOutput) : OM (list RequestOutput * list string) :=
  rs <- map_m process_output outputs ;;
  ret (concat rs.*1, concat rs.*2).

(** The first loop of [abort_requests]: the internal ids of one id. *)
Definition internal_ids_of (internal : bool) (request_id : string) : OM (list string) :=
  p <- get ;;
  if internal then
    match request_states p !! request_id with
    | Some s => drop_internal_id (rs_external_req_id s) request_id ;; ret [request_id]
    | None => ret [request_id]
    end
  else
    modify (λ p, p <| external_req_ids ::= delete request_id |>) ;;
    ret (default [] (external_req_ids p !! request_id)).
(** [abort_requests] calls itself for the children of a parent; [set_order] is the
    order in which they are listed. *)
Fixpoint abort_requests (set_order : gset string → list string) (fuel : nat) (request_ids : list string) (internal : bool) :
    OM (list string) :=
  match fuel with
  | O => raise OutOfFuel
  | S fuel' =>
      internal_req_ids <- map_m (internal_ids_of internal) request_ids ;;
      aborted <- map_m (λ request_id,
        p <- get ;;
        match request_states p !! request_id with
        | Some s =>
            modify (λ p, p <| request_states ::= delete request_id |>) ;;
            match rs_queue s with
            | None => ret tt
            | Some q =>
                r <- with_state false s (make_request_output [] (Some ABORT) None) ;;
                match r.1 with Some out => queue_put q out | None => ret tt end
            end ;;
            ret [request_id]
        | None =>
            if bool_decide (request_id ∈ parent_requests p) then
              pr <- of_option KeyError (parents p !! request_id) ;;
              children <- (if bool_decide (child_requests pr = ∅) then ret []
                           else abort_requests set_order fuel' (set_order (child_requests pr)) true) ;;
              modify (λ p, p <| parent_requests ::= λ s, s ∖ {[request_id]} |>) ;;
              ret children
            else ret []
        end) (concat internal_req_ids) ;;
      ret (concat aborted)
  end.
End output_processor.
