(* ===== verification/OutputInv.v ===== *)
(** * What clients receive

    In delta mode the pieces a client receives are, put together, the output text
    and all tokens, whatever the stream interval and however slowly the client
    takes them; a request for several samples returns all of them, once, when the
    last is finished; and aborts that leave a parent behind. *)
From stdpp Require Import pretty.
From S2P Require Import Prelude MathUtils Outcome Request NumPy Scheduler Detok DetokInv OutputProcessor.
Local Open Scope Z_scope.

(** Text and tokens of the outputs for one sample. *)
Definition text_of (i : Z) (l : list (option CompletionOutput)) : text :=
  concat ((λ o, match o with Some c => if co_index c =? i then co_text c else [] | None => [] end) <$> l).
Definition tokens_of (i : Z) (l : list (option CompletionOutput)) : list Z :=
  concat ((λ o, match o with Some c => if co_index c =? i then co_token_ids c else [] | None => [] end) <$> l).
Definition outputs_of (o : option RequestOutput) : list (option CompletionOutput) :=
  match o with Some r => ro_outputs r | None => [] end.
Lemma text_of_app i l k : text_of i (l ++ k) = text_of i l ++ text_of i k.
Proof. unfold text_of. by rewrite fmap_app, concat_app. Qed.
Lemma tokens_of_app i l k : tokens_of i (l ++ k) = tokens_of i l ++ tokens_of i k.
Proof. unfold tokens_of. by rewrite fmap_app, concat_app. Qed.

(* ===================================================================== *)
(** ** Streaming deltas                                                   *)
(* ===================================================================== *)

Section deltas.
Context {D : Type} `{!Decoder D, !DecoderLaws}.
Implicit Types s : RequestState D.

(** The request's outputs up to the one that finishes it. *)
Fixpoint serve (outs : list (list Z * option FinishReason * option StopReason)) :
    M (gmap string ParentRequest * RequestState D) (list (option CompletionOutput) * bool) :=
  match outs with
  | [] => ret ([], false)
  | (ids, finish_reason, stop_reason) :: rest =>
      r <- process_tokens ids finish_reason stop_reason ;;
      if is_some r.2 then ret (outputs_of r.1, true)
      else
        q <- serve rest ;;
        ret (outputs_of r.1 ++ q.1, q.2)
  end.

(** The tokens generated: those after the prompt. *)
Record tokens_ok (d : Detokenizer D) (generated : list Z) : Prop := {
  to_nonneg : 0 ≤ prompt_len (decoder d);
  to_prompt : prompt_len (decoder d) + len generated = len (token_ids d);
  to_tokens : drop (Z.to_nat (prompt_len (decoder d))) (token_ids d) = generated;
}.
Lemma tokens_ok_output d g : tokens_ok d g → output_token_ids d = g ∧ num_output_tokens d = len g.
Proof.
  intros [H1 H2 H3]. split; [|unfold num_output_tokens; lia]. unfold output_token_ids. destruct (Z.eqb_spec (prompt_len (decoder d)) 0) as [E|E].
  - rewrite <-H3, E. done.
  - by rewrite slice_from_nonneg.
Qed.

(** A request without a parent in delta mode: what it was sent so far. *)
Record delta_inv s (e : text) (t : list Z) (generated : list Z) : Prop := {
  di_kind : output_kind s = DELTA;
  di_parent : parent_req s = None;
  di_sent : sent (detokenizer s) e;
  di_generated : tokens_ok (detokenizer s) generated;
  di_offset : 0 ≤ sent_tokens_offset s ≤ len generated;
  di_tokens : t = if 1 <? rs_stream_interval s then take (Z.to_nat (sent_tokens_offset s)) generated else generated;
}.

Lemma update_tokens ids st d r d' g : buffer_ok d → tokens_ok d g → update ids st d = (Ok r, d') → tokens_ok d' (g ++ ids).
Proof.
  intros Hb [H1 H2 H3] Hu. pose proof (update_prompt_len ids st d r d' Hu) as Hp.
  destruct (detok_update_spec ids st d r d' Hb Hu) as (t & n & _ & _ & Hi & _). pose proof (len_nonneg g).
  split; rewrite Hp, ?Hi; [done|rewrite !len_app; lia|]. rewrite drop_app_le by (unfold len in *; lia). by rewrite H3.
Qed.

(** The completion that is sent in delta mode. *)
Lemma new_completion_delta toks fr sr ps s : output_kind s = DELTA →
  ∃ piece d', _new_completion_output toks fr sr (ps, s) =
      (Ok (mkCompletionOutput (request_index s) piece toks fr (if is_some fr then sr else None)),
       (ps, s <| detokenizer := d' |>)) ∧
    get_next_output_text (is_some fr) true (detokenizer s) = (Ok piece, d').
Proof.
  intros Hk. unfold _new_completion_output. rewrite run_gets. simpl. rewrite Hk. simpl.
  destruct (get_next_text (is_some fr) (detokenizer s)) as (piece & d' & Hg & _). exists piece, d'. split; [|done].
  unfold bind, on_detok, zoom. simpl. by rewrite Hg.
Qed.

(** An output that is due: the next piece of the text and the tokens not sent. *)
Lemma delta_output s ps ids e t g fr sr :
  output_kind s = DELTA → parent_req s = None → tokens_ok (detokenizer s) (g ++ ids) →
  0 ≤ sent_tokens_offset s ≤ len g → t = (if 1 <? rs_stream_interval s then take (Z.to_nat (sent_tokens_offset s)) g else g) →
  (if is_some fr : bool then sent_all_but (detokenizer s) e else sent (detokenizer s) e) →
  ∃ o s', make_request_output ids fr sr (ps, s) = (Ok o, (ps, s')) ∧
    output_text (detokenizer s') = output_text (detokenizer s) ∧ token_ids (detokenizer s') = token_ids (detokenizer s) ∧
    request_index s' = request_index s ∧
    let te := text_of (request_index s) (outputs_of o) in
    let tk := tokens_of (request_index s) (outputs_of o) in
    if is_some fr : bool then e ++ te = output_text (detokenizer s) ∧ t ++ tk = g ++ ids
    else delta_inv s' (e ++ te) (t ++ tk) (g ++ ids).
Proof.
  intros Hk Hpar Htok Hoff Ht Hsent. destruct (tokens_ok_output _ _ Htok) as [Hout Hnum].
  pose proof (len_nonneg ids) as Hids. unfold make_request_output. rewrite run_gets. simpl. rewrite Hk.
  rewrite (bool_decide_false (DELTA = FINAL_ONLY)), andb_false_r by done.
  destruct (output_due s (is_some fr)) eqn:Edue; simpl.
  2:{ destruct fr; [unfold output_due in Edue; by rewrite ?orb_true_r in Edue|]. exists None, s. split; [done|]. split_and!; try done.
      simpl. rewrite !app_nil_r. simpl in Hsent. assert (Hint : 1 <? rs_stream_interval s = true).
      { unfold output_due in Edue. by destruct (1 <? rs_stream_interval s). }
      split; try done; [rewrite len_app; lia|]. rewrite Hint in *. rewrite Ht. rewrite take_app_le by (unfold len in *; lia). done. }
  rewrite ?andb_true_r. set (long := 1 <? rs_stream_interval s) in *.
  set (toks := if long then slice_from (output_token_ids (detokenizer s)) (sent_tokens_offset s) else ids).
  assert (Htoks : t ++ toks = g ++ ids).
  { rewrite Ht. unfold toks. destruct long; [|done]. rewrite Hout, slice_from_nonneg by lia.
    rewrite <-(take_app_le g ids) by (unfold len in *; lia). apply take_drop. }
  set (s1 := if long then s <| sent_tokens_offset := len (g ++ ids) |> else s).
  assert (Hs1 : output_kind s1 = DELTA ∧ detokenizer s1 = detokenizer s ∧ request_index s1 = request_index s ∧
    rs_stream_interval s1 = rs_stream_interval s ∧ parent_req s1 = None ∧
    sent_tokens_offset s1 = (if long then len (g ++ ids) else sent_tokens_offset s)).
  { unfold s1. destruct long, s; done. }
  destruct Hs1 as (Hk1 & Hd1 & Hi1 & Hl1 & Hp1 & Ho1).
  destruct (new_completion_delta toks fr sr ps s1 Hk1) as (piece & d' & Hc & Hg). rewrite Hd1 in Hg.
  destruct (get_next_text (is_some fr) (detokenizer s)) as (piece' & d'' & Hg' & Hset & G1 & G2 & G3 & G4 & G5).
  assert (piece' = piece) as -> by congruence. assert (d'' = d') as -> by congruence. clear Hg'.
  exists (Some (mkRequestOutput (rs_external_req_id s)
    [Some (mkCompletionOutput (request_index s) piece toks fr (if is_some fr then sr else None))] (is_some fr))),
    (s1 <| detokenizer := d' |>).
  split.
  { assert (Hmod : (when long do modify (λ ps0 : gmap string ParentRequest * RequestState D,
        (ps0.1, ps0.2 <| sent_tokens_offset := num_output_tokens (detokenizer ps0.2) |>))) (ps, s) = (Ok tt, (ps, s1))).
    { unfold s1. destruct long; [|done]. unfold modify. simpl. by rewrite Hnum. }
    mstep Hmod. mstep Hc. rewrite Hpar, Hi1. done. }
  simpl. unfold text_of, tokens_of. simpl. rewrite Z.eqb_refl, !app_nil_r.
  split; [by destruct s1|]. split; [by destruct s1|]. split; [by destruct s1|].
  destruct fr as [f|]; simpl in *.
  - split; [by apply G5|done].
  - split.
    + by destruct s1.
    + by destruct s1.
    + destruct s1; simpl. by apply G4.
    + destruct Htok as [T1 T2 T3]. destruct s1; simpl. split; by rewrite ?G2, ?G3.
    + destruct s1; simpl in *. rewrite Ho1. destruct long; rewrite len_app; pose proof (len_nonneg g); lia.
    + destruct s1; simpl in *. rewrite Hl1, Ho1. fold long. rewrite Htoks. destruct long; [|done].
      by rewrite take_ge by (unfold len; lia).
Qed.

Lemma process_tokens_delta ids fr sr ps s e t g o fr' ps' s' :
  delta_inv s e t g → process_tokens ids fr sr (ps, s) = (Ok (o, fr'), (ps', s')) →
  ps' = ps ∧ request_index s' = request_index s ∧
  let te := text_of (request_index s) (outputs_of o) in
  let tk := tokens_of (request_index s) (outputs_of o) in
  if is_some fr' : bool
  then e ++ te = output_text (detokenizer s') ∧ t ++ tk = g ++ ids
  else delta_inv s' (e ++ te) (t ++ tk) (g ++ ids).
Proof.
  intros [Hk Hpar Hsent Htok Hoff Ht] Hp. unfold process_tokens, on_detok, zoom in Hp. unfold bind at 1 in Hp. simpl in Hp.
  destruct (update ids _ (detokenizer s)) as [[r|ex] d'] eqn:Eu; [|done].
  pose proof (update_sent _ _ _ _ _ _ Hsent Eu) as Hsent'.
  pose proof (update_tokens _ _ _ _ _ _ (se_buffer _ _ Hsent) Htok Eu) as Htok'.
  assert (Hr : ∀ x, r = Some x → x ≠ []).
  { intros x ->. destruct (detok_update_spec _ _ _ _ _ (se_buffer _ _ Hsent) Eu) as (? & ? & _ & _ & _ & _ & _ & _ & (i & Hin & _)).
    pose proof (bo_nonempty _ (se_buffer _ _ Hsent)) as Hne. rewrite Forall_forall in Hne. by apply Hne. }
  set (fr1 := if match r with Some _ => _ | None => false end then Some STOP else fr) in Hp. set (sr1 := if match r with Some _ => _ | None => false end then inr <$> r else inl <$> sr) in Hp.
  assert (Hsent1 : if is_some fr1 : bool then sent_all_but d' e else sent d' e).
  { destruct r as [x|]; [specialize (Hr x eq_refl)|]; unfold fr1; simpl.
    - rewrite bool_decide_false by done. exact Hsent'.
    - destruct fr; simpl; [by apply sent_weaken|done]. }
  destruct (delta_output (s <| detokenizer := d' |>) ps ids e t g fr1 sr1) as (o1 & s1 & Hm & M1 & M2 & M3 & M4);
    try (destruct s; exact Hk || exact Hpar || exact Hoff || exact Ht || exact Hsent1 || exact Htok').
  unfold bind in Hp. rewrite Hm in Hp. injection Hp as <- <- <- <-. split; [done|]. split; [by rewrite M3; destruct s|].
  simpl in M4. replace (request_index (s <| detokenizer := d' |>)) with (request_index s) in M4 by (by destruct s).
  destruct (is_some fr1); [|done]. by rewrite M1.
Qed.
Lemma serve_delta outs ps s e t g l fin ps' s' :
  delta_inv s e t g → serve outs (ps, s) = (Ok (l, fin), (ps', s')) →
  ∃ g', (fin = true → e ++ text_of (request_index s) l = output_text (detokenizer s') ∧ t ++ tokens_of (request_index s) l = g') ∧
        (fin = false → delta_inv s' (e ++ text_of (request_index s) l) (t ++ tokens_of (request_index s) l) g') ∧
        ∃ served, served `prefix_of` outs ∧ (fin = false → served = outs) ∧ g' = g ++ concat served.*1.*1.
Proof.
  revert s e t g l. induction outs as [|[[ids fr] sr] outs IH]; intros s e t g l Hinv; simpl.
  { intros [= <- <- <- <-]. exists g. split; [done|]. split; [intros _; unfold text_of, tokens_of; simpl; by rewrite !app_nil_r|].
    exists []. split; [apply prefix_nil|]. split; [done|]. by rewrite app_nil_r. }
  unfold bind at 1. destruct (process_tokens ids fr sr (ps, s)) as [[[o fr']|ex] [ps1 s1]] eqn:E; [|done].
  destruct (process_tokens_delta _ _ _ _ _ _ _ _ _ _ _ _ Hinv E) as (-> & Hi & Hres). simpl.
  destruct (is_some fr').
  - intros [= <- <- <- <-]. exists (g ++ ids). split; [intros _; exact Hres|]. split; [done|].
    exists [(ids, fr, sr)]. split; [by apply (prefix_app_r [(ids, fr, sr)] [(ids, fr, sr)] outs)|]. split; [done|]. simpl. by rewrite app_nil_r.
  - unfold bind. destruct (serve outs (ps, s1)) as [[[l1 fin1]|ex] [ps2 s2]] eqn:E2; [|done]. intros [= <- <- <- <-].
    destruct (IH _ _ _ _ _ Hres E2) as (g' & H1 & H2 & served & H3 & H4 & H5). rewrite Hi in *.
    exists g'. rewrite text_of_app, tokens_of_app, !app_assoc. split; [done|]. split; [done|].
    exists ((ids, fr, sr) :: served). split; [by apply prefix_cons|]. split; [intros Hf; by rewrite H4|]. simpl. by rewrite H5, app_assoc.
Qed.
End deltas.

(** C25.  In delta mode a client receives everything, once: when the request has
    finished, the texts it was sent make up the output text (cut at a stop string
    or not), and the tokens it was sent are all tokens of the outputs processed, for
    every stream interval and every decoder. *)
Theorem deltas_make_up_the_output {D} `{!Decoder D, !DecoderLaws} (stop_param : StopParam) min_tokens include (prompt : list Z) (dec : D)
    d id ext index interval q ps outs l ps' s' :
  Forall (λ s, s ≠ []) (stop_strings stop_param) → prompt_len dec = len prompt →
  new_Detokenizer stop_param min_tokens include prompt dec = Ok d →
  serve outs (ps, mkRequestState id ext None index DELTA d true 0 interval 0 q) = (Ok (l, true), (ps', s')) →
  text_of index l = output_text (detokenizer s') ∧
  ∃ served, served `prefix_of` outs ∧ tokens_of index l = concat served.*1.*1.
Proof.
  intros Hne Hpl Hnew Hserve.
  destruct (new_buffer_ok stop_param min_tokens include prompt dec d Hne Hnew) as (Hb & Hids & Hout & Hoff & _ & _ & _ & Hdec).
  pose proof (len_nonneg prompt) as Hlp.
  destruct (serve_delta outs ps (mkRequestState id ext None index DELTA d true 0 interval 0 q) [] [] [] l true ps' s') as (g' & H1 & _ & served & H2 & _ & H3).
  - split; simpl; try done.
    + split; [done|by rewrite Hoff|by rewrite Hoff|]. rewrite Hoff. lia.
    + split; rewrite ?Hdec, ?Hpl, ?Hids; [done|rewrite (@len_nil Z); lia|]. rewrite drop_ge by (unfold len; lia). done.
    + by destruct (1 <? interval).
  - done.
  - destruct (H1 eq_refl) as [H4 H5]. split; [done|]. exists served. split; [done|]. simpl in *. congruence.
Qed.

(** Two letters, then two more that complete the stop string "bc". *)
Lemma deltas_make_up_the_output_witness :
  match char_detokenizer (StopOne [98; 99]) with
  | Ok d =>
      let r := @serve SlowDecoder (slow_decoder char_tokenizer) [([97; 98], None, None); ([99; 100], None, None)]
                 (∅, mkRequestState "a" "x" None 0 DELTA d true 0 2 0 None) in
      text_of 0 [Some (mkCompletionOutput 0 [97] [97; 98] None None);
                 Some (mkCompletionOutput 0 [] [99; 100] (Some STOP) (Some (inr [98; 99])))] = output_text (detokenizer r.2.2)
  | Raise _ => False
  end.
Proof.
  destruct (char_detokenizer (StopOne [98; 99])) as [d|e] eqn:E; [|by vm_compute in E].
  eapply (deltas_make_up_the_output (Decoder0 := slow_decoder char_tokenizer) (StopOne [98; 99]) 0 false [5; 6] (decoder d) d
    "a" "x" 0 2 None ∅ [([97; 98], None, None); ([99; 100], None, None)]); vm_compute in E; injection E as <-.
  - repeat (apply Forall_cons; split); [done|apply Forall_nil_2].
  - done.
  - done.
  - by vm_compute.
Defined.

(* ===================================================================== *)
(** ** The collector                                                      *)
(* ===================================================================== *)

(** Completions of distinct samples. *)
Definition distinct_samples (l : list (option CompletionOutput)) (cs : list CompletionOutput) : Prop :=
  l = Some <$> cs ∧ NoDup (co_index <$> cs).
Lemma text_of_cons i (c : CompletionOutput) l : text_of i (Some c :: l) = (if co_index c =? i then co_text c else []) ++ text_of i l.
Proof. done. Qed.
Lemma tokens_of_cons i (c : CompletionOutput) l : tokens_of i (Some c :: l) = (if co_index c =? i then co_token_ids c else []) ++ tokens_of i l.
Proof. done. Qed.
Lemma sample_absent i cs : i ∉ co_index <$> cs → text_of i (Some <$> cs) = [] ∧ tokens_of i (Some <$> cs) = [].
Proof.
  induction cs as [|c cs IH]; [done|]. rewrite !fmap_cons, not_elem_of_cons, text_of_cons, tokens_of_cons. intros [Hne [-> ->]%IH].
  by rewrite (proj2 (Z.eqb_neq _ _)) by done.
Qed.
Lemma merge_one next cs : NoDup (co_index <$> cs) →
  ∃ cs', merge_completion true next (Some <$> cs) = Ok (Some <$> cs') ∧ NoDup (co_index <$> cs') ∧
    (∀ x, x ∈ co_index <$> cs' ↔ x = co_index next ∨ x ∈ co_index <$> cs) ∧
    ∀ i, text_of i (Some <$> cs') = text_of i (Some <$> cs) ++ text_of i [Some next] ∧
         tokens_of i (Some <$> cs') = tokens_of i (Some <$> cs) ++ tokens_of i [Some next].
Proof.
  induction cs as [|c cs IH]; [|rewrite !fmap_cons].
  { intros _. exists [next]. split; [done|]. split; [apply NoDup_singleton|]. split; [set_solver|done]. }
  intros [Hc Hnd]%NoDup_cons. cbn [merge_completion]. destruct (Z.eqb_spec (co_index c) (co_index next)) as [Heq|Hne].
  - set (c' := mkCompletionOutput _ _ _ _ _). exists (c' :: cs). split; [done|]. split; [by apply NoDup_cons|].
    split; [intros x; simpl; rewrite !elem_of_cons; naive_solver|]. intros i. rewrite !fmap_cons, !text_of_cons, !tokens_of_cons. unfold c'. simpl. rewrite Heq.
    destruct (Z.eqb_spec (co_index next) i) as [<-|Hi]; [|by rewrite !app_nil_r].
    rewrite Heq in Hc. destruct (sample_absent (co_index next) cs Hc) as [-> ->]. by rewrite !app_nil_r.
  - destruct (IH Hnd) as (cs' & H1 & H2 & H3 & H4). rewrite H1. exists (c :: cs'). split; [done|].
    split; [simpl; apply NoDup_cons; split; [rewrite H3; naive_solver|done]|].
    split; [intros x; simpl; rewrite !elem_of_cons, H3; naive_solver|]. intros i. destruct (H4 i) as [H5 H6].
    rewrite !(fmap_cons Some), !(text_of_cons i c), !(tokens_of_cons i c). by rewrite H5, H6, !app_assoc.
Qed.
Lemma merge_all nexts cs : NoDup (co_index <$> cs) →
  ∃ cs', merge_completions true (Some <$> nexts) (Some <$> cs) = Ok (Some <$> cs') ∧ NoDup (co_index <$> cs') ∧
    ∀ i, text_of i (Some <$> cs') = text_of i (Some <$> cs) ++ text_of i (Some <$> nexts) ∧
         tokens_of i (Some <$> cs') = tokens_of i (Some <$> cs) ++ tokens_of i (Some <$> nexts).
Proof.
  revert cs. induction nexts as [|next nexts IH]; intros cs Hnd; rewrite ?fmap_cons; cbn [merge_completions].
  { exists cs. split; [done|]. split; [done|]. intros i. unfold text_of at 3, tokens_of at 3. simpl. by rewrite !app_nil_r. }
  destruct (merge_one next cs Hnd) as (cs1 & -> & H1 & _ & H2). simpl.
  destruct (IH cs1 H1) as (cs2 & H3 & H4 & H5). exists cs2. split; [done|]. split; [done|]. intros i.
  destruct (H2 i) as [A1 A2], (H5 i) as [B1 B2]. rewrite B1, B2, A1, A2.
  change (Some next :: (Some <$> nexts)) with ([Some next] ++ (Some <$> nexts)). by rewrite !(text_of_app i [_]), !(tokens_of_app i [_]), <-!app_assoc.
Qed.

(** The engine puts outputs ([Some]), the consumer takes what there is ([None]). *)
Fixpoint exchange (ops : list (option RequestOutput)) : M RequestOutputCollector (list (option CompletionOutput)) :=
  match ops with
  | [] => ret []
  | Some o :: ops' => put (inl o) ;; exchange ops'
  | None :: ops' => got <- get_nowait ;; rest <- exchange ops' ;; ret (outputs_of got ++ rest)
  end.
Definition pending (c : RequestOutputCollector) : list (option CompletionOutput) :=
  match collected c with Some (inl o) => ro_outputs o | _ => [] end.
Definition put_outputs (ops : list (option RequestOutput)) : list (option CompletionOutput) := concat (outputs_of <$> ops).
Record collector_ok (c : RequestOutputCollector) : Prop := {
  cl_aggregate : aggregate c = true;
  cl_output : match collected c with Some (inr _) => False | _ => True end;
  cl_pending : ∃ cs, distinct_samples (pending c) cs;
}.
Lemma get_nowait_spec c : collector_ok c →
  ∃ o, get_nowait c = (Ok o, mkCollector (aggregate c) None) ∧ collector_ok (mkCollector (aggregate c) None) ∧ outputs_of o = pending c.
Proof.
  intros [Ha Ho _]. assert (Hc : collector_ok (mkCollector (aggregate c) None)).
  { split; [done|done|]. exists []. split; [done|apply NoDup_nil_2]. }
  destruct c as [agg [[o|e]|]]; simpl in *; [exists (Some o)|done|exists None]; done.
Qed.
Lemma exchange_spec ops c : collector_ok c → (∀ o, Some o ∈ ops → ∃ cs, distinct_samples (ro_outputs o) cs) →
  ∃ got c', exchange ops c = (Ok got, c') ∧ collector_ok c' ∧
    ∀ i, text_of i (got ++ pending c') = text_of i (pending c ++ put_outputs ops) ∧
         tokens_of i (got ++ pending c') = tokens_of i (pending c ++ put_outputs ops).
Proof.
  revert c. induction ops as [|[o|] ops IH]; intros c Hc Hops; simpl.
  - exists [], c. split; [done|]. split; [done|]. intros i. unfold put_outputs. simpl. by rewrite app_nil_r.
  - destruct (Hops o ltac:(by left)) as (next & Hnext & Hnd). destruct Hc as [Ha Ho (cs & Hcs & Hcnd)].
    assert (Hput : ∃ c1, put (inl o) c = (Ok tt, c1) ∧ collector_ok c1 ∧
      ∀ i, text_of i (pending c1) = text_of i (pending c ++ ro_outputs o) ∧ tokens_of i (pending c1) = tokens_of i (pending c ++ ro_outputs o)).
    { unfold put. rewrite run_get. destruct c as [agg [[old|ex]|]]; simpl in *; [|done|].
      - unfold pending in *. simpl in *. unfold ro_add. destruct (merge_all next cs Hcnd) as (cs' & H1 & H2 & H3). rewrite Hcs, Hnext, Ha, H1. eexists. split; [done|].
        split; [split; [done|done|by exists cs']|]. intros i. unfold pending. simpl. rewrite text_of_app, tokens_of_app. apply H3.
      - eexists. split; [done|]. split; [split; [done|done|by exists next]|]. intros i. unfold pending. simpl. done. }
    destruct Hput as (c1 & Hp & Hc1 & Heq). mstep Hp. destruct (IH c1 Hc1) as (got & c' & He & Hc' & Hi).
    { intros o' Ho'. apply Hops. by right. }
    exists got, c'. split; [done|]. split; [done|]. intros i. destruct (Hi i) as [-> ->], (Heq i) as [E1 E2].
    unfold put_outputs. simpl. rewrite !app_assoc. rewrite !(text_of_app _ (_ ++ _)), !(tokens_of_app _ (_ ++ _)), <-E1, <-E2.
    by rewrite !text_of_app, !tokens_of_app.
  - destruct (get_nowait_spec c Hc) as (o & Hg & Hc1 & Ho). mstep Hg.
    destruct (IH _ Hc1) as (got & c' & He & Hc' & Hi). { intros o' Ho'. apply Hops. by right. }
    mstep He. exists (outputs_of o ++ got), c'. split; [done|]. split; [done|]. intros i. destruct (Hi i) as [H1 H2].
    rewrite <-!app_assoc, Ho, !(text_of_app i (pending c)), !(tokens_of_app i (pending c)), H1, H2. done.
Qed.

(** C26.  Nothing is lost or repeated between engine and client when the client
    wants deltas: however the outputs put into a delta collector, none of them an
    exception, and the reads of the client interleave, for every sample the texts and
    tokens read, followed by those waiting, are those put. *)
Theorem collector_loses_nothing (ops : list (option RequestOutput)) :
  (∀ o, Some o ∈ ops → ∃ cs, distinct_samples (ro_outputs o) cs) →
  ∃ got c', exchange ops (new_Collector DELTA) = (Ok got, c') ∧
    ∀ i, text_of i (got ++ pending c') = text_of i (put_outputs ops) ∧
         tokens_of i (got ++ pending c') = tokens_of i (put_outputs ops).
Proof.
  intros Hops. destruct (exchange_spec ops (new_Collector DELTA)) as (got & c' & H1 & _ & H2); [|done|by exists got, c'].
  split; [done|done|]. exists []. split; [done|apply NoDup_nil_2].
Qed.
Lemma collector_loses_nothing_witness :
  let o1 := mkRequestOutput "x" [Some (mkCompletionOutput 0 [97] [1] None None)] false in
  let o2 := mkRequestOutput "x" [Some (mkCompletionOutput 0 [98] [2] None None)] false in
  ∃ got c', exchange [Some o1; Some o2; None] (new_Collector DELTA) = (Ok got, c') ∧ text_of 0 (got ++ pending c') = [97; 98].
Proof.
  intros o1 o2. destruct (collector_loses_nothing [Some o1; Some o2; None]) as (got & c' & H1 & H2).
  - intros o Ho. assert (o = o1 ∨ o = o2) as [-> | ->] by (rewrite !elem_of_cons, elem_of_nil in Ho; destruct Ho as [[= ->]|[[= ->]|[?|?]]]; by auto);
      (eexists [_]; split; [done|apply NoDup_singleton]).
  - exists got, c'. split; [done|]. by rewrite (proj1 (H2 0)).
Defined.

(* ===================================================================== *)
(** ** Parallel sampling                                                  *)
(* ===================================================================== *)

Lemma string_app_length s t : String.length (s +:+ t) = (String.length s + String.length t)%nat.
Proof. induction s as [|a s IH]; [done|]. simpl. by rewrite <-IH. Qed.
Lemma string_app_inj_r s1 s2 t : s1 +:+ t = s2 +:+ t → s1 = s2.
Proof.
  revert s2. induction s1 as [|a s1 IH]; intros [|b s2] H; [done|..|].
  1,2: exfalso; apply (f_equal String.length) in H; rewrite !string_app_length in H; simpl in H; lia.
  injection H as -> H. f_equal. by apply IH.
Qed.
#[local] Instance child_id_inj id : Inj (=) (=) (λ i, child_id i id).
Proof. intros i j H. apply (inj pretty). by eapply string_app_inj_r. Qed.

(** The children as [AsyncLLM.add_request] makes them. *)
Definition make_children (n : Z) : M ParentRequest (list (string * SampleParams)) := map_m get_child_info (seqZ 0 n).
Definition children_of (id : string) (ix : list Z) : gset string := list_to_set ((λ i, child_id i id) <$> ix).

Lemma get_child_info_spec i p : ∃ params p', get_child_info i p = (Ok (child_id i (pr_request_id p), params), p') ∧
  child_requests p' = {[child_id i (pr_request_id p)]} ∪ child_requests p ∧ pr_request_id p' = pr_request_id p ∧
  pr_sampling_params p' = pr_sampling_params p ∧ output_aggregator p' = output_aggregator p.
Proof.
  destruct p as [id ext sp ch agg [c|]]; unfold get_child_info, _get_child_sampling_params, bind; simpl.
  - by eexists _, _.
  - destruct (seed sp); by eexists _, _.
Qed.
Lemma make_children_spec (ix : list Z) p : ∃ infos p', map_m get_child_info ix p = (Ok infos, p') ∧
  child_requests p' = children_of (pr_request_id p) ix ∪ child_requests p ∧ pr_request_id p' = pr_request_id p ∧
  pr_sampling_params p' = pr_sampling_params p ∧ output_aggregator p' = output_aggregator p ∧
  infos.*1 = (λ i, child_id i (pr_request_id p)) <$> ix.
Proof.
  revert p. induction ix as [|i ix IH]; intros p; cbn [map_m].
  { exists [], p. split; [done|]. split_and!; [|done..]. unfold children_of. simpl. set_solver. }
  destruct (get_child_info_spec i p) as (sp & p1 & H1 & H2 & H3 & H4 & H5).
  destruct (IH p1) as (infos & p2 & E1 & E2 & E3 & E4 & E5 & E6). mstep H1. mstep E1.
  eexists _, p2. split; [done|]. rewrite E2, E3, E4, E5, H2, H3, H4, H5. split_and!; [|done..|].
  - unfold children_of. simpl. set_solver.
  - rewrite fmap_cons, E6, H3. done.
Qed.

(** A finished sample of a parent that is not streamed. *)
Lemma get_outputs_finished p c ix : params_output_kind (pr_sampling_params p) = FINAL_ONLY → co_finished c = true →
  child_requests p = children_of (pr_request_id p) (co_index c :: ix) → co_index c ∉ ix →
  0 ≤ co_index c < len (output_aggregator p) →
  let agg := <[Z.to_nat (co_index c) := Some c]> (output_aggregator p) in
  get_outputs (child_id (co_index c) (pr_request_id p)) c p =
    (Ok (if bool_decide (ix = []) then agg else [], bool_decide (ix = [])),
     p <| child_requests := children_of (pr_request_id p) ix |> <| output_aggregator := agg |>).
Proof.
  intros Hk Hf Hch Hni Hidx agg. unfold get_outputs. rewrite run_get.
  rewrite (bool_decide_true (child_id (co_index c) _ ∈ _)) by (rewrite Hch; unfold children_of; simpl; set_solver). rewrite Hf. simpl.
  assert (Hdiff : child_requests p ∖ {[child_id (co_index c) (pr_request_id p)]} = children_of (pr_request_id p) ix).
  { rewrite Hch. apply set_eq. intros x. unfold children_of. simpl. rewrite elem_of_difference, elem_of_union, elem_of_singleton, !elem_of_list_to_set, !list_elem_of_fmap.
    split; [intros [[?|?] ?]; done|]. intros (i & -> & Hi). split; [right; by exists i|]. intros Heq. apply (inj (λ i, child_id i (pr_request_id p))) in Heq as ->. done. }
  assert (Hempty : bool_decide (children_of (pr_request_id p) ix = ∅) = bool_decide (ix = [])).
  { apply bool_decide_ext. unfold children_of. destruct ix; [done|]. split; [|done]. simpl. set_solver. }
  unfold bind, modify. destruct p as [id ext sp ch ag ca]. simpl in *. rewrite Hdiff, Hk, Hempty. simpl. unfold list_set.
  destruct (Z.ltb_spec (co_index c) 0); [lia|]. rewrite (proj2 (Z.leb_le 0 _)), (proj2 (Z.ltb_lt _ (len ag))) by lia. simpl. unfold setter, set_child_requests, set_output_aggregator. simpl. by rewrite Hdiff.
Qed.

Lemma finish_samples cs p : params_output_kind (pr_sampling_params p) = FINAL_ONLY → Forall co_finished cs → cs ≠ [] →
  NoDup (co_index <$> cs) → child_requests p = children_of (pr_request_id p) (co_index <$> cs) →
  Forall (λ c, 0 ≤ co_index c < len (output_aggregator p)) cs →
  ∃ outs p', map_m (λ c, get_outputs (child_id (co_index c) (pr_request_id p)) c) cs p =
      (Ok (replicate (length cs - 1) ([], false) ++ [(outs, true)]), p') ∧
    length outs = length (output_aggregator p) ∧ (∀ c, c ∈ cs → outs !! Z.to_nat (co_index c) = Some (Some c)) ∧
    ∀ j, Z.of_nat j ∉ co_index <$> cs → outs !! j = output_aggregator p !! j.
Proof.
  revert p. induction cs as [|c cs IH]; intros p Hk Hf Hne Hnd Hch Hidx; [done|].
  apply Forall_cons in Hf as [Hfc Hf]. apply Forall_cons in Hidx as [Hc Hidx]. rewrite fmap_cons in *. apply NoDup_cons in Hnd as [Hni Hnd].
  cbn [map_m]. pose proof (get_outputs_finished p c _ Hk ltac:(by destruct (co_finished c)) Hch Hni Hc) as Hget. simpl in Hget. mstep Hget. clear Hget Hne.
  destruct (decide (cs = [])) as [->|Hcs].
  { simpl. eexists _, _. split; [done|]. split; [apply length_insert|]. split.
    - intros c' ->%list_elem_of_singleton. apply list_lookup_insert_eq. unfold len in Hc. lia.
    - intros j Hj. rewrite list_lookup_insert_ne; [done|]. intros <-. apply Hj. rewrite Z2Nat.id by lia. by left. }
  set (agg := <[_ := _]> _). set (p1 := p <| child_requests := _ |> <| output_aggregator := agg |>).
  assert (Hp1 : pr_request_id p1 = pr_request_id p ∧ pr_sampling_params p1 = pr_sampling_params p ∧
    child_requests p1 = children_of (pr_request_id p) (co_index <$> cs) ∧ output_aggregator p1 = agg) by (by destruct p).
  destruct Hp1 as (P1 & P2 & P3 & P4). assert (Hlen : length agg = length (output_aggregator p)) by apply length_insert.
  destruct (IH p1) as (outs & p' & E1 & E2 & E3 & E4); try (rewrite ?P1, ?P2; done).
  { rewrite P4. unfold len in *. by rewrite Hlen. }
  rewrite P1 in E1. mstep E1. rewrite (bool_decide_false (_ <$> cs = [])) by (by destruct cs). exists outs, p'. split.
  { destruct cs; [done|]. simpl. by rewrite Nat.sub_0_r. }
  split; [by rewrite E2, P4|]. split.
  - intros c' [->|Hc']%elem_of_cons; [|by apply E3]. rewrite E4 by (by rewrite Z2Nat.id by lia). rewrite P4.
    apply list_lookup_insert_eq. unfold len in Hc. lia.
  - intros j Hj. apply not_elem_of_cons in Hj as [Hj1 Hj2]. rewrite E4, P4 by done. apply list_lookup_insert_ne. lia.
Qed.

(** C27.  A request for n samples that is not streamed returns them once and
    complete: in whatever order its children finish, all calls but the last return
    nothing, and the last returns the n completions, each at its index, and
    reports the request finished. *)
Theorem all_samples_are_returned_at_the_end id ext n sd cs :
  0 < n → Forall co_finished cs → co_index <$> cs ≡ₚ seqZ 0 n →
  ∃ infos p, make_children n (new_ParentRequest id ext (mkSampleParams n sd FINAL_ONLY)) = (Ok infos, p) ∧
  ∃ outs p', map_m (λ c, get_outputs (child_id (co_index c) id) c) cs p =
      (Ok (replicate (Z.to_nat n - 1) ([], false) ++ [(outs, true)]), p') ∧
    len outs = n ∧ ∀ c, c ∈ cs → outs !! Z.to_nat (co_index c) = Some (Some c).
Proof.
  intros Hn Hf Hperm.
  destruct (make_children_spec (seqZ 0 n) (new_ParentRequest id ext (mkSampleParams n sd FINAL_ONLY))) as (infos & p & H1 & H2 & H3 & H4 & H5 & _).
  exists infos, p. split; [done|]. simpl in *.
  assert (Hlen : length cs = Z.to_nat n). { rewrite <-(length_fmap co_index), Hperm. by rewrite length_seqZ. }
  assert (Hagg : len (output_aggregator p) = n). { rewrite H5. unfold len, py_replicate. rewrite length_replicate. lia. }
  destruct (finish_samples cs p) as (outs & p' & E1 & E2 & E3 & _).
  - by rewrite H4.
  - done.
  - intros ->. simpl in Hlen. lia.
  - rewrite Hperm. apply NoDup_seqZ.
  - rewrite H2, H3. unfold children_of. rewrite Hperm. set_solver.
  - apply Forall_forall. intros c Hc. rewrite Hagg. assert (Hin : co_index c ∈ seqZ 0 n) by (rewrite <-Hperm; by apply list_elem_of_fmap_2).
    apply elem_of_seqZ in Hin. lia.
  - rewrite H3, Hlen in E1. exists outs, p'. split; [done|]. split; [unfold len in *; lia|done].
Qed.
(** Two samples, the second finishes first. *)
Lemma all_samples_are_returned_at_the_end_witness :
  let c i := mkCompletionOutput i [] [7] (Some STOP) None in
  ∃ infos p, make_children 2 (new_ParentRequest "r" "x" (mkSampleParams 2 (Some 5) FINAL_ONLY)) = (Ok infos, p) ∧
  ∃ outs p', map_m (λ c, get_outputs (child_id (co_index c) "r") c) [c 1; c 0] p = (Ok [([], false); (outs, true)], p') ∧ len outs = 2.
Proof.
  intros c. destruct (all_samples_are_returned_at_the_end "r" "x" 2 (Some 5) [c 1; c 0]) as (infos & p & H1 & outs & p' & H2 & H3 & _).
  - lia.
  - repeat (apply Forall_cons; split); [done|done|apply Forall_nil_2].
  - simpl. change (seqZ 0 2) with [0; 1]. apply Permutation_swap.
  - exists infos, p. split; [done|]. exists outs, p'. done.
Defined.

(* ===================================================================== *)
(** ** Aborts                                                             *)
(* ===================================================================== *)

(** A request "x" for two samples, with internal id "r", and its abort by the
    client's id: what the engine is told to abort, the requests, external ids and
    parents left, and the ids of the children that the parent waits for. *)
Definition two_samples (abort_id : string) (internal : bool) :
    res (list string * gset string * gset string * gset string * option (gset string)) :=
  d ← char_detokenizer StopNone;
  let params := mkSampleParams 2 None FINAL_ONLY in
  let '(_, p) := make_children 2 (new_ParentRequest "r" "x" params) in
  let add i := op_add_request (child_id i "r") "x" d FINAL_ONLY (Some p) i (Some "q") in
  let run := (modify (λ o, o <| queues := {["q" := new_Collector FINAL_ONLY]} |>) ;;
              add 0 ;; add 1 ;;
              abort_requests (Decoder0 := slow_decoder char_tokenizer) elements 2 [abort_id] internal) in
  match run (new_OutputProcessor 1) with
  | (Ok l, o) => Ok (l, dom (request_states o), dom (external_req_ids o), parent_requests o,
                     child_requests <$> parents o !! "r")
  | (Raise e, _) => Raise e
  end.

(** An abort by the client's id leaves the parent behind: both children of a
    request for two samples are aborted and forgotten, and the parent, which no
    child is left to finish, stays registered; the abort by the internal id of the
    parent removes it as well. *)
Theorem abort_leaves_the_parent_registered :
  two_samples "x" false = Ok (["0_r"; "1_r"], ∅, ∅, {["r"]}, Some ∅) ∧
  two_samples "r" true = Ok (["1_r"; "0_r"], ∅, ∅, ∅, Some ∅).
Proof. by vm_compute. Qed.
