(* ===== verification/BlockTable.v ===== *)
(** * Block tables of the worker ([src/vllm/v1/worker/block_table.py])

    Per KV cache group a table with the blocks of every request of the batch, its
    copy on the device, and the slots (places in the KV cache) of the tokens of a
    step.  A block of the KV cache manager may be several blocks of the attention
    kernel; with context parallelism each rank stores a part of every block.  The
    Triton kernel's programs run one after the other here: they write disjoint
    slots.  A read outside the device table is an [IndexError]. *)
From S2P Require Import Prelude MathUtils Outcome NumPy.
Local Open Scope Z_scope.

Definition PAD_SLOT_ID : Z := -1.

(** The process groups of context parallelism. *)
Record CPGroups := mkCPGroups { pcp_world_size : Z; pcp_rank : Z; dcp_world_size : Z; dcp_rank : Z }.
Definition get_total_cp_world_size (g : CPGroups) : Z := dcp_world_size g * pcp_world_size g.

Record BlockTable := mkBlockTable {
  block_size : Z;
  blocks_per_kv_block : Z;
  use_hybrid_blocks : bool;
  max_num_blocks_per_req : Z;
  block_table : list (list Z);
  block_table_gpu : list (list Z);
  num_blocks_per_row : list Z;
  max_num_batched_tokens : Z;
  slot_mapping : list Z;
  cp_groups : CPGroups;
  cp_kv_cache_interleave_size : Z;
}.
#[export] Instance eta_BlockTable : Eta BlockTable := λ b,
  mkBlockTable (block_size b) (blocks_per_kv_block b) (use_hybrid_blocks b) (max_num_blocks_per_req b) (block_table b)
    (block_table_gpu b) (num_blocks_per_row b) (max_num_batched_tokens b) (slot_mapping b) (cp_groups b)
    (cp_kv_cache_interleave_size b).
#[export] Instance set_block_table : Setter block_table.
Proof. build_setter. Defined.
#[export] Instance set_block_table_gpu : Setter block_table_gpu.
Proof. build_setter. Defined.
#[export] Instance set_num_blocks_per_row : Setter num_blocks_per_row.
Proof. build_setter. Defined.
#[export] Instance set_slot_mapping : Setter slot_mapping.
Proof. build_setter. Defined.

(** [BlockTable.__init__]: the table of zeros for the sizes chosen, and the choice. *)
Definition zero_table (max_num_reqs max_blocks max_tokens interleave : Z) (g : CPGroups) (size per : Z) (hybrid : bool) : BlockTable :=
  let table := py_replicate max_num_reqs (py_replicate (max_blocks * per) 0) in
  mkBlockTable size per hybrid (max_blocks * per) table table (py_replicate max_num_reqs 0) max_tokens
    (py_replicate max_tokens 0) g interleave.
Definition new_BlockTable (bs max_num_reqs max_blocks max_tokens kernel_block_size interleave : Z) (g : CPGroups) : res BlockTable :=
  let make := zero_table max_num_reqs max_blocks max_tokens interleave g in
  if kernel_block_size =? bs then Ok (make bs 1 false)
  else
    m ← py_mod bs kernel_block_size;
    if negb (m =? 0) then Raise ValueError
    else
      per ← py_div bs kernel_block_size;
      Ok (make kernel_block_size per true).

Definition map_to_kernel_blocks (kv_manager_block_ids : list Z) (blocks_per_kv_block : Z) : list Z :=
  if blocks_per_kv_block =? 1 then kv_manager_block_ids
  else concat ((λ id, (λ k, id * blocks_per_kv_block + k) <$> seqZ 0 blocks_per_kv_block) <$> kv_manager_block_ids).

Definition append_row (block_ids : list Z) (row_idx : Z) : M BlockTable unit :=
  if bool_decide (block_ids = []) then ret tt
  else
    t <- get ;;
    let block_ids := if use_hybrid_blocks t then map_to_kernel_blocks block_ids (blocks_per_kv_block t) else block_ids in
    let num_blocks := len block_ids in
    start <- of_res (np_get (num_blocks_per_row t) row_idx) ;;
    rows <- of_res (list_set (num_blocks_per_row t) row_idx (start + num_blocks)) ;;
    modify (λ t, t <| num_blocks_per_row := rows |>) ;;
    table <- of_res (np_assign_row (block_table t) row_idx start (start + num_blocks) block_ids) ;;
    modify (λ t, t <| block_table := table |>).
Definition add_row (block_ids : list Z) (row_idx : Z) : M BlockTable unit :=
  t <- get ;;
  rows <- of_res (list_set (num_blocks_per_row t) row_idx 0) ;;
  modify (λ t, t <| num_blocks_per_row := rows |>) ;;
  append_row block_ids row_idx.
Definition clear_row (row_idx : Z) : M BlockTable unit :=
  t <- get ;;
  num_blocks <- of_res (np_get (num_blocks_per_row t) row_idx) ;;
  (if 0 <? num_blocks then
     table <- of_res (np_fill_row (block_table t) row_idx 0 num_blocks 0) ;;
     modify (λ t, t <| block_table := table |>)
   else ret tt) ;;
  rows <- of_res (list_set (num_blocks_per_row t) row_idx 0) ;;
  modify (λ t, t <| num_blocks_per_row := rows |>).
Definition move_row (src tgt : Z) : M BlockTable unit :=
  t <- get ;;
  num_blocks <- of_res (np_get (num_blocks_per_row t) src) ;;
  src_row <- of_res (np_get (block_table t) src) ;;
  table <- of_res (np_assign_row (block_table t) tgt 0 num_blocks (slice_to src_row num_blocks)) ;;
  modify (λ t, t <| block_table := table |>) ;;
  rows <- of_res (list_set (num_blocks_per_row t) tgt num_blocks) ;;
  modify (λ t, t <| num_blocks_per_row := rows |>).
Definition swap_row (src tgt : Z) : M BlockTable unit :=
  t <- get ;;
  rows <- of_res (np_swap (num_blocks_per_row t) src tgt) ;;
  modify (λ t, t <| num_blocks_per_row := rows |>) ;;
  table <- of_res (np_swap (block_table t) src tgt) ;;
  modify (λ t, t <| block_table := table |>).
Definition commit_block_table (num_reqs : Z) (t : BlockTable) : BlockTable :=
  t <| block_table_gpu := slice_to (block_table t) num_reqs ++ slice_from (block_table_gpu t) num_reqs |>.
Definition clear (t : BlockTable) : BlockTable :=
  let zero := (λ row : list Z, replicate (length row) 0) in
  t <| block_table ::= fmap zero |> <| block_table_gpu ::= fmap zero |>.

(* ===================================================================== *)
(** ** Slots                                                              *)
(* ===================================================================== *)

(** The kernel's arithmetic for one token. *)
Definition block_index (bs world pos : Z) : Z := pos / (bs * world).
Definition is_local (bs world rank interleave pos : Z) : bool :=
  let virtual_block_offset := pos - block_index bs world pos * (bs * world) in
  (virtual_block_offset / interleave) mod world =? rank.
Definition local_block_offset (bs world interleave pos : Z) : Z :=
  let virtual_block_offset := pos - block_index bs world pos * (bs * world) in
  virtual_block_offset / (world * interleave) * interleave + virtual_block_offset mod interleave.
Definition slot_id (bs world rank interleave block_number pos : Z) : Z :=
  if is_local bs world rank interleave pos
  then block_number * bs + local_block_offset bs world interleave pos
  else PAD_SLOT_ID.

Section slots.
Variable t : BlockTable.
Let world := pcp_world_size (cp_groups t) * dcp_world_size (cp_groups t).
Let rank := pcp_rank (cp_groups t) * dcp_world_size (cp_groups t) + dcp_rank (cp_groups t).
(** The slot of one token of request [req_idx], with the load from the flat table. *)
Definition token_slot (req_idx : Z) (positions : list Z) (offset : Z) : res Z :=
  pos ← np_get positions offset;
  block_number ← np_get (concat (block_table_gpu t)) (req_idx * max_num_blocks_per_req t + block_index (block_size t) world pos);
  Ok (slot_id (block_size t) world rank (cp_kv_cache_interleave_size t) block_number pos).
Fixpoint store_slots (req_idx : Z) (positions : list Z) (offsets : list Z) (slots : list Z) : res (list Z) :=
  match offsets with
  | [] => Ok slots
  | o :: offsets' =>
      slot ← token_slot req_idx positions o;
      slots' ← list_set slots o slot;
      store_slots req_idx positions offsets' slots'
  end.
Fixpoint slot_programs (query_start_loc positions : list Z) (reqs : list Z) (slots : list Z) : res (list Z) :=
  match reqs with
  | [] => Ok slots
  | r :: reqs' =>
      start_idx ← np_get query_start_loc r;
      end_idx ← np_get query_start_loc (r + 1);
      slots' ← store_slots r positions (seqZ start_idx (end_idx - start_idx)) slots;
      slot_programs query_start_loc positions reqs' slots'
  end.
End slots.
Definition compute_slot_mapping (num_reqs : Z) (query_start_loc positions : list Z) : M BlockTable unit :=
  t <- get ;;
  slots <- of_res (slot_programs t query_start_loc positions (seqZ 0 num_reqs) (slot_mapping t)) ;;
  modify (λ t, t <| slot_mapping := np_fill slots (len positions) (max_num_batched_tokens t) PAD_SLOT_ID |>).

(* ===================================================================== *)
(** ** All groups                                                         *)
(* ===================================================================== *)

Fixpoint new_block_tables (max_num_reqs max_tokens interleave : Z) (g : CPGroups) (sizes : list (Z * Z * Z)) : res (list BlockTable) :=
  match sizes with
  | [] => Ok []
  | (bs, kernel_bs, max_blocks) :: sizes' =>
      t ← new_BlockTable bs max_num_reqs max_blocks max_tokens kernel_bs interleave g;
      ts ← new_block_tables max_num_reqs max_tokens interleave g sizes';
      Ok (t :: ts)
  end.
(** The columns of a row, a multiple of 128 tokens' blocks. *)
Definition aligned_num_blocks (n bs : Z) : res Z :=
  if bs <=? 128 then k ← py_div 128 bs; c ← py_cdiv n k; Ok (c * k) else Ok n.
Fixpoint map_res {A B} (f : A → res B) (l : list A) : res (list B) :=
  match l with [] => Ok [] | x :: l' => y ← f x; ys ← map_res f l'; Ok (y :: ys) end.
(** [MultiGroupBlockTable.__init__]. *)
Definition new_MultiGroupBlockTable (max_num_reqs max_model_len max_tokens : Z) (block_sizes kernel_block_sizes : list Z)
    (max_num_blocks : option (list Z)) (interleave : Z) (g : CPGroups) : res (list BlockTable) :=
  if negb (len kernel_block_sizes =? len block_sizes) then Raise ValueError
  else
    max_num_blocks ← match max_num_blocks with
                     | Some l => Ok l
                     | None => map_res (λ bs, py_cdiv max_model_len (bs * get_total_cp_world_size g)) block_sizes
                     end;
    if negb (len max_num_blocks =? len block_sizes) then Raise ValueError
    else
      cols ← map_res (λ p, aligned_num_blocks p.1 p.2) (zip max_num_blocks block_sizes);
      new_block_tables max_num_reqs max_tokens interleave g (zip (zip block_sizes kernel_block_sizes) cols).

(** [for i, block_table in enumerate(self.block_tables): f(i)]; the tables that
    were updated before an exception stay updated. *)
Fixpoint each_from (f : Z → M BlockTable unit) (i : Z) (ts : list BlockTable) : res unit * list BlockTable :=
  match ts with
  | [] => (Ok tt, [])
  | t :: ts' =>
      match f i t with
      | (Ok _, t') => let '(r, ts'') := each_from f (i + 1) ts' in (r, t' :: ts'')
      | (Raise e, t') => (Raise e, t' :: ts')
      end
  end.
Definition each_table (f : Z → M BlockTable unit) : M (list BlockTable) unit := each_from f 0.
Definition block_ids_at (block_ids : list (list Z)) (i : Z) : M BlockTable (list Z) := of_option IndexError (py_nth block_ids i).
Definition multi_append_row (block_ids : list (list Z)) (row_idx : Z) : M (list BlockTable) unit :=
  each_table (λ i, ids <- block_ids_at block_ids i ;; append_row ids row_idx).
Definition multi_add_row (block_ids : list (list Z)) (row_idx : Z) : M (list BlockTable) unit :=
  each_table (λ i, ids <- block_ids_at block_ids i ;; add_row ids row_idx).
Definition multi_clear_row (row_idx : Z) : M (list BlockTable) unit := each_table (λ _, clear_row row_idx).
Definition multi_move_row (src tgt : Z) : M (list BlockTable) unit := each_table (λ _, move_row src tgt).
Definition multi_swap_row (src tgt : Z) : M (list BlockTable) unit := each_table (λ _, swap_row src tgt).
Definition multi_compute_slot_mapping (num_reqs : Z) (query_start_loc positions : list Z) : M (list BlockTable) unit :=
  each_table (λ _, compute_slot_mapping num_reqs query_start_loc positions).
Definition multi_commit_block_table (num_reqs : Z) : list BlockTable → list BlockTable := fmap (commit_block_table num_reqs).
Definition multi_clear : list BlockTable → list BlockTable := fmap clear.
