(* ===== verification/BlockTableInv.v ===== *)
(** * Rows and slots

    What the rows of a block table hold after each operation; the slots of a step
    are those of the manager's blocks, whatever the kernel's block size; and with
    context parallelism every token has one place. *)
From S2P Require Import Prelude MathUtils Outcome NumPy BlockTable.
Local Open Scope Z_scope.

(* ===================================================================== *)
(** ** Places of tokens                                                   *)
(* ===================================================================== *)

Section places.
Context (bs world interleave : Z).
Hypothesis Hbs : 0 < bs.
Hypothesis Hworld : 0 < world.
Hypothesis Hint : 0 < interleave.
Hypothesis Hdiv : (interleave | bs).

Lemma virtual_offset pos : pos - block_index bs world pos * (bs * world) = pos mod (bs * world).
Proof. unfold block_index. rewrite Z.mod_eq by nia. lia. Qed.

(** The owner of a position, and the position from block, owner and offset. *)
Definition owner (pos : Z) : Z := (pos mod (bs * world) / interleave) mod world.
Definition position_of (bi rank offset : Z) : Z :=
  bi * (bs * world) + offset / interleave * (world * interleave) + rank * interleave + offset mod interleave.

Lemma is_local_owner rank pos : is_local bs world rank interleave pos = true ↔ rank = owner pos.
Proof. unfold is_local, owner. cbv zeta. rewrite virtual_offset, Z.eqb_eq. done. Qed.
Lemma owner_bounds pos : 0 ≤ owner pos < world.
Proof. apply Z.mod_pos_bound. lia. Qed.

Lemma offset_parts pos : let v := pos mod (bs * world) in
  local_block_offset bs world interleave pos = v / interleave / world * interleave + v mod interleave.
Proof. simpl. unfold local_block_offset. cbv zeta. rewrite virtual_offset, (Z.mul_comm world), Z.div_div by lia. done. Qed.
Lemma local_block_offset_bounds pos : 0 ≤ local_block_offset bs world interleave pos < bs.
Proof.
  rewrite offset_parts. cbv zeta. destruct Hdiv as [k ->].
  pose proof (Z.mod_pos_bound pos (k * interleave * world) ltac:(nia)) as Hv. set (v := pos mod _) in *.
  pose proof (Z.mod_pos_bound v interleave Hint) as Hm. pose proof (Z.div_mod v interleave ltac:(lia)) as Hd.
  set (u := v / interleave) in *. assert (Hu : 0 ≤ u < k * world) by nia.
  assert (Hq : 0 ≤ u / world < k). { split; [apply Z.div_pos; lia|apply Z.div_lt_upper_bound; nia]. }
  set (q := u / world) in *. nia.
Qed.
Lemma position_of_parts pos :
  position_of (block_index bs world pos) (owner pos) (local_block_offset bs world interleave pos) = pos.
Proof.
  rewrite offset_parts. cbv zeta. unfold position_of, owner, block_index. set (v := pos mod (bs * world)).
  pose proof (Z.mod_pos_bound v interleave Hint) as Hm. set (m := v mod interleave) in *.
  rewrite Z.div_add_l, (Z.div_small m), Z.add_0_r by lia.
  rewrite (Z.add_comm _ m), Z_mod_plus_full, (Z.mod_small m) by lia.
  pose proof (Z.div_mod pos (bs * world) ltac:(nia)) as H1. pose proof (Z.div_mod v interleave ltac:(lia)) as H2.
  pose proof (Z.div_mod (v / interleave) world ltac:(lia)) as H3. fold v in H1. fold m in H2. nia.
Qed.
End places.

(** C21.  Every token has one place in the KV cache: exactly one rank stores a
    position, inside the block of its index, and on a rank no two positions of a
    request share a slot, nor two positions of different blocks. *)
Theorem every_token_has_its_own_slot bs world interleave rank block1 block2 pos1 pos2 :
  0 < bs → 0 < world → 0 < interleave → (interleave | bs) → 0 ≤ block1 → 0 ≤ block2 →
  (block1 = block2 → block_index bs world pos1 = block_index bs world pos2) →
  let slot := slot_id bs world rank interleave in
  (slot block1 pos1 ≠ PAD_SLOT_ID ↔ rank = owner bs world interleave pos1) ∧
  0 ≤ owner bs world interleave pos1 < world ∧
  (slot block1 pos1 ≠ PAD_SLOT_ID → block1 * bs ≤ slot block1 pos1 < (block1 + 1) * bs) ∧
  (slot block1 pos1 ≠ PAD_SLOT_ID → slot block1 pos1 = slot block2 pos2 → block1 = block2 ∧ pos1 = pos2).
Proof.
  intros Hbs Hw Hi Hdiv Hb1 Hb2 Hblk slot. unfold slot, slot_id.
  pose proof (is_local_owner bs world interleave Hbs Hw rank pos1) as L1. pose proof (is_local_owner bs world interleave Hbs Hw rank pos2) as L2.
  pose proof (local_block_offset_bounds bs world interleave Hbs Hw Hi Hdiv pos1) as O1.
  pose proof (local_block_offset_bounds bs world interleave Hbs Hw Hi Hdiv pos2) as O2.
  pose proof (position_of_parts bs world interleave Hbs Hw Hi pos1) as P1. pose proof (position_of_parts bs world interleave Hbs Hw Hi pos2) as P2.
  set (o1 := local_block_offset _ _ _ pos1) in *. set (o2 := local_block_offset _ _ _ pos2) in *. unfold PAD_SLOT_ID.
  destruct (is_local _ _ _ _ pos1); split_and!; try (apply owner_bounds; done); try done.
  - split; [intros _; by apply L1|nia].
  - nia.
  - destruct (is_local _ _ _ _ pos2); [|nia]. intros _ Heq. assert (Hb : block1 = block2).
    { apply (f_equal (λ x, x / bs)) in Heq. rewrite !Z.div_add_l, !Z.div_small, !Z.add_0_r in Heq by lia. done. }
    assert (Ho : o1 = o2) by nia.
    split; [done|]. rewrite <-P1, <-P2, (Hblk Hb), Ho, <-(proj1 L1 eq_refl), <-(proj1 L2 eq_refl). done.
  - split; [done|]. intros H. by apply L1 in H.
Qed.
Lemma every_token_has_its_own_slot_witness :
  slot_id 4 2 1 2 7 10 = 28 ∧ 1 = owner 4 2 2 10 ∧ slot_id 4 2 1 2 7 10 ≠ slot_id 4 2 1 2 7 11.
Proof.
  destruct (every_token_has_its_own_slot 4 2 2 1 7 7 10 11) as (H1 & _ & _ & H2); [lia|lia|lia|by exists 2|lia|lia|done|].
  split; [done|]. split; [by apply H1|]. intros H. by destruct (H2 ltac:(done) H) as [_ ?].
Defined.

(* ===================================================================== *)
(** ** Rows                                                               *)
(* ===================================================================== *)

(** The shape of a table for [n] requests. *)
Record table_ok (n : Z) (t : BlockTable) : Prop := {
  ta_table : len (block_table t) = n;
  ta_rows : len (num_blocks_per_row t) = n;
  ta_cols : Forall (λ row, len row = max_num_blocks_per_req t) (block_table t);
  ta_num : Forall (λ k, 0 ≤ k ≤ max_num_blocks_per_req t) (num_blocks_per_row t);
}.
(** The blocks of a row. *)
Definition row_blocks (t : BlockTable) (i : Z) : list Z :=
  match block_table t !! Z.to_nat i, num_blocks_per_row t !! Z.to_nat i with
  | Some row, Some k => take (Z.to_nat k) row
  | _, _ => []
  end.
(** The kernel's blocks of the manager's blocks. *)
Definition kernel_ids (t : BlockTable) (ids : list Z) : list Z :=
  if use_hybrid_blocks t then map_to_kernel_blocks ids (blocks_per_kv_block t) else ids.
(** Two tables that differ in their rows only. *)
Definition same_table (t t' : BlockTable) : Prop :=
  t' = t <| block_table := block_table t' |> <| num_blocks_per_row := num_blocks_per_row t' |>.
(** [t'] is [t] with row [i] holding [bs]. *)
Record row_set (n i : Z) (bs : list Z) (t t' : BlockTable) : Prop := {
  rw_ok : table_ok n t';
  rw_same : same_table t t';
  rw_row : row_blocks t' i = bs;
  rw_other j : 0 ≤ j → j ≠ i → row_blocks t' j = row_blocks t j;
}.

Lemma table_row n t i : table_ok n t → 0 ≤ i < n → ∃ row k,
  block_table t !! Z.to_nat i = Some row ∧ num_blocks_per_row t !! Z.to_nat i = Some k ∧
  len row = max_num_blocks_per_req t ∧ 0 ≤ k ≤ max_num_blocks_per_req t ∧ row_blocks t i = take (Z.to_nat k) row.
Proof.
  intros [H1 H2 H3 H4] Hi. destruct (np_get_some (block_table t) i ltac:(lia)) as (row & _ & Hr).
  destruct (np_get_some (num_blocks_per_row t) i ltac:(lia)) as (k & _ & Hk). exists row, k. split; [done|]. split; [done|].
  split; [by eapply (Forall_lookup_1 _ _ _ _ H3)|]. split; [by eapply (Forall_lookup_1 _ _ _ _ H4)|].
  unfold row_blocks. by rewrite Hr, Hk.
Qed.
(** Writing one row and its number of blocks. *)
Lemma write_row n t i row k : table_ok n t → 0 ≤ i < n → len row = max_num_blocks_per_req t →
  0 ≤ k ≤ max_num_blocks_per_req t →
  row_set n i (take (Z.to_nat k) row) t
    (t <| block_table ::= λ a, py_set a i row |> <| num_blocks_per_row ::= λ a, py_set a i k |>).
Proof.
  intros [H1 H2 H3 H4] Hi Hrow Hk. destruct t as [a b c d table gpu rows e f g h]. simpl in *. split.
  - split; simpl; rewrite ?len_py_set; [done|done|by apply Forall_insert|by apply Forall_insert].
  - done.
  - unfold row_blocks. simpl. by rewrite !py_set_eq by lia.
  - intros j Hj Hne. unfold row_blocks. simpl. by rewrite !py_set_ne by lia.
Qed.

Lemma add_zero_row n t i : table_ok n t → 0 ≤ i < n →
  row_set n i [] t (t <| num_blocks_per_row ::= λ a, py_set a i 0 |>).
Proof.
  intros Ht Hi. destruct (table_row n t i Ht Hi) as (row & k & Hr & _ & Hl & Hk & _).
  pose proof (write_row n t i row 0 Ht Hi Hl ltac:(lia)) as H.
  replace (t <| block_table ::= λ a, py_set a i row |> <| num_blocks_per_row ::= λ a, py_set a i 0 |>)
    with (t <| num_blocks_per_row ::= λ a, py_set a i 0 |>) in H; [done|].
  unfold setter, set_block_table, set_num_blocks_per_row, py_set. simpl. by rewrite (list_insert_id (block_table t)).
Qed.

Lemma append_row_spec n t i ids : table_ok n t → 0 ≤ i < n →
  len (row_blocks t i) + len (kernel_ids t ids) ≤ max_num_blocks_per_req t →
  ∃ t', append_row ids i t = (Ok tt, t') ∧ row_set n i (row_blocks t i ++ kernel_ids t ids) t t'.
Proof.
  intros Ht Hi Hfit. destruct (table_row n t i Ht Hi) as (row & k & Hr & Hk & Hl & Hkb & Hrow). rewrite Hrow in *.
  assert (Hlen : len (take (Z.to_nat k) row) = k). { unfold len in *. rewrite length_take. lia. } rewrite Hlen in Hfit.
  unfold append_row. destruct (bool_decide_reflect (ids = [])) as [->|Hne].
  - assert (kernel_ids t [] = []) as ->. { unfold kernel_ids, map_to_kernel_blocks. by destruct (use_hybrid_blocks t), (blocks_per_kv_block t =? 1). }
    rewrite app_nil_r. exists t. split; [done|]. split; [done|by destruct t|by rewrite <-Hrow|done].
  - fold (kernel_ids t ids). set (bs := kernel_ids t ids) in *. rewrite run_get.
    pose proof (len_nonneg bs). assert (Hgk : np_get (num_blocks_per_row t) i = Ok k) by (apply np_get_ok; [lia|done]).
    assert (Hgr : np_get (block_table t) i = Ok row) by (apply np_get_ok; [lia|done]).
    rewrite run_of_res. fold (kernel_ids t ids). fold bs. rewrite Hgk, run_of_res, list_set_ok by (rewrite (ta_rows _ _ Ht); lia).
    rewrite run_modify, run_of_res. unfold np_assign_row. rewrite Hgr, np_assign_ok, list_set_ok by (rewrite ?(ta_table _ _ Ht); lia).
    eexists. split; [reflexivity|].
    set (row' := take _ row ++ bs ++ _).
    assert (Hl' : len row' = max_num_blocks_per_req t).
    { unfold row'. rewrite !len_app, Hlen. unfold len in *. rewrite length_drop. lia. }
    pose proof (write_row n t i row' (k + len bs) Ht Hi Hl' ltac:(lia)) as H'.
    replace (take (Z.to_nat (k + len bs)) row') with (take (Z.to_nat k) row ++ bs) in H'.
    2:{ unfold row'. rewrite app_assoc, take_app_length' by (rewrite length_app; unfold len in *; lia). done. }
    by destruct t.
Qed.
Lemma add_row_spec n t i ids : table_ok n t → 0 ≤ i < n → len (kernel_ids t ids) ≤ max_num_blocks_per_req t →
  ∃ t', add_row ids i t = (Ok tt, t') ∧ row_set n i (kernel_ids t ids) t t'.
Proof.
  intros Ht Hi Hfit. unfold add_row. rewrite run_get, run_of_res, list_set_ok by (rewrite (ta_rows _ _ Ht); lia). rewrite run_modify.
  pose proof (add_zero_row n t i Ht Hi) as [Z1 Z2 Z3 Z4]. set (t0 := t <| num_blocks_per_row := _ |>).
  change (t <| num_blocks_per_row ::= λ a, py_set a i 0 |>) with t0 in Z1, Z2, Z3, Z4.
  destruct (append_row_spec n t0 i ids Z1 Hi) as (t' & H1 & [A1 A2 A3 A4]).
  { rewrite Z3. by destruct t. }
  exists t'. split; [done|]. rewrite Z3 in A3. split; [done| |by destruct t|].
  - unfold same_table in *. rewrite A2. by destruct t.
  - intros j Hj Hne. by rewrite A4, Z4.
Qed.
Lemma clear_row_spec n t i : table_ok n t → 0 ≤ i < n → ∃ t', clear_row i t = (Ok tt, t') ∧ row_set n i [] t t'.
Proof.
  intros Ht Hi. destruct (table_row n t i Ht Hi) as (row & k & Hr & Hk & Hl & Hkb & Hrow).
  assert (Hgk : np_get (num_blocks_per_row t) i = Ok k) by (apply np_get_ok; [lia|done]).
  assert (Hgr : np_get (block_table t) i = Ok row) by (apply np_get_ok; [lia|done]).
  unfold clear_row. rewrite run_get, run_of_res, Hgk. destruct (Z.ltb_spec 0 k).
  - rewrite bind_assoc, run_of_res. unfold np_fill_row. rewrite Hgr, list_set_ok by (rewrite (ta_table _ _ Ht); lia).
    rewrite run_modify, run_of_res, list_set_ok by (rewrite (ta_rows _ _ Ht); lia). eexists. split; [reflexivity|].
    pose proof (write_row n t i (np_fill row 0 k 0) 0 Ht Hi ltac:(rewrite len_np_fill by lia; done) ltac:(lia)) as H'. by destruct t.
  - rewrite run_ret, run_of_res, list_set_ok by (rewrite (ta_rows _ _ Ht); lia). eexists. split; [reflexivity|].
    pose proof (add_zero_row n t i Ht Hi) as H'. by destruct t.
Qed.
Lemma move_row_spec n t src tgt : table_ok n t → 0 ≤ src < n → 0 ≤ tgt < n →
  ∃ t', move_row src tgt t = (Ok tt, t') ∧ row_set n tgt (row_blocks t src) t t'.
Proof.
  intros Ht Hs Hi. destruct (table_row n t src Ht Hs) as (row & k & Hr & Hk & Hl & Hkb & Hrow).
  destruct (table_row n t tgt Ht Hi) as (row2 & k2 & Hr2 & Hk2 & Hl2 & _).
  assert (Hgk : np_get (num_blocks_per_row t) src = Ok k) by (apply np_get_ok; [lia|done]).
  assert (Hgr : np_get (block_table t) src = Ok row) by (apply np_get_ok; [lia|done]).
  assert (Hgr2 : np_get (block_table t) tgt = Ok row2) by (apply np_get_ok; [lia|done]).
  assert (Hsl : slice_to row k = row_blocks t src). { rewrite Hrow. unfold slice_to. rewrite slice_bound_in, Z.min_l by lia. done. }
  assert (Hlen : len (row_blocks t src) = k). { rewrite Hrow. unfold len in *. rewrite length_take. lia. }
  unfold move_row. rewrite run_get, run_of_res, Hgk, run_of_res, Hgr, run_of_res. unfold np_assign_row.
  rewrite Hgr2, Hsl, np_assign_prefix, list_set_ok by (rewrite ?(ta_table _ _ Ht); lia).
  rewrite run_modify, run_of_res, list_set_ok by (rewrite (ta_rows _ _ Ht); lia). eexists. split; [reflexivity|].
  set (row' := row_blocks t src ++ _).
  assert (Hl' : len row' = max_num_blocks_per_req t).
  { unfold row'. rewrite len_app, Hlen. unfold len in *. rewrite length_drop. lia. }
  pose proof (write_row n t tgt row' k Ht Hi Hl' ltac:(lia)) as H'.
  replace (take (Z.to_nat k) row') with (row_blocks t src) in H'.
  2:{ unfold row'. rewrite take_app_length' by (unfold len in *; lia). done. }
  by destruct t.
Qed.
Lemma np_swap_ok {A} (a : list A) i j x y : 0 ≤ i → 0 ≤ j → a !! Z.to_nat i = Some x → a !! Z.to_nat j = Some y →
  np_swap a i j = Ok (py_set (py_set a i y) j x).
Proof.
  intros Hi Hj Hx Hy. assert (Hl : 0 ≤ i < len a ∧ 0 ≤ j < len a).
  { unfold len. apply lookup_lt_Some in Hx, Hy. lia. }
  unfold np_swap. rewrite (proj2 (np_get_ok a i x Hi) Hx), (proj2 (np_get_ok a j y Hj) Hy).
  rewrite !list_set_ok by (rewrite ?len_py_set; lia). done.
Qed.
Lemma swap_row_spec n t i j : table_ok n t → 0 ≤ i < n → 0 ≤ j < n →
  ∃ t', swap_row i j t = (Ok tt, t') ∧ table_ok n t' ∧ same_table t t' ∧
    row_blocks t' i = row_blocks t j ∧ row_blocks t' j = row_blocks t i ∧
    ∀ k, 0 ≤ k → k ≠ i → k ≠ j → row_blocks t' k = row_blocks t k.
Proof.
  intros Ht Hi Hj. destruct (table_row n t i Ht Hi) as (r1 & k1 & Hr1 & Hk1 & Hl1 & Hb1 & Hrow1).
  destruct (table_row n t j Ht Hj) as (r2 & k2 & Hr2 & Hk2 & Hl2 & Hb2 & Hrow2).
  unfold swap_row. rewrite run_get, run_of_res, (np_swap_ok _ _ _ k1 k2), run_modify, run_of_res, (np_swap_ok _ _ _ r1 r2) by (done || lia).
  eexists. split; [reflexivity|].
  destruct (write_row n t i r2 k2 Ht Hi Hl2 Hb2) as [A1 A2 A3 A4]. set (t1 := t <| block_table ::= _ |> <| num_blocks_per_row ::= _ |>) in *.
  destruct (write_row n t1 j r1 k1 A1 Hj) as [B1 B2 B3 B4]; [by destruct t|by destruct t|].
  set (t2 := t1 <| block_table ::= _ |> <| num_blocks_per_row ::= _ |>) in *.
  match goal with |- context [table_ok n ?s] => change s with t2 || (assert (s = t2) as -> by (by destruct t)) end.
  split; [done|]. split; [unfold same_table; by destruct t|]. rewrite Hrow1, Hrow2. split; [|split; [done|]].
  - destruct (decide (i = j)) as [<-|Hne]; [congruence|]. by rewrite B4, A3 by lia.
  - intros k Hk H1 H2. by rewrite B4, A4 by lia.
Qed.

(* ===================================================================== *)
(** ** Slots of a step                                                    *)
(* ===================================================================== *)

Lemma lookup_concat_rows {A} (ls : list (list A)) (w i j : nat) : Forall (λ l, length l = w) ls → (j < w)%nat →
  concat ls !! (i * w + j)%nat = ls !! i ≫= λ l, l !! j.
Proof.
  intros Hw Hj. revert i. induction Hw as [|l ls Hl Hw IH]; intros i; [done|]. simpl. destruct i as [|i]; simpl.
  - by rewrite lookup_app_l by lia.
  - rewrite lookup_app_r by lia. rewrite <-IH. f_equal. lia.
Qed.
Lemma kernel_block_lookup ids per ki b : 0 < per → 0 ≤ ki → ids !! Z.to_nat (ki / per) = Some b →
  map_to_kernel_blocks ids per !! Z.to_nat ki = Some (b * per + ki mod per).
Proof.
  intros Hper Hki Hb. unfold map_to_kernel_blocks. destruct (Z.eqb_spec per 1) as [->|Hne].
  { rewrite Z.mod_1_r, Z.div_1_r in *. rewrite Hb. f_equal. lia. }
  pose proof (Z.mod_pos_bound ki per Hper). pose proof (Z.div_mod ki per ltac:(lia)) as Hd. pose proof (Z.div_pos ki per Hki Hper).
  replace (Z.to_nat ki) with (Z.to_nat (ki / per) * Z.to_nat per + Z.to_nat (ki mod per))%nat by nia.
  rewrite lookup_concat_rows; [|apply Forall_fmap, Forall_true; intros x; simpl; by rewrite length_fmap, length_seqZ|lia].
  rewrite list_lookup_fmap, Hb. simpl. rewrite list_lookup_fmap, lookup_seqZ_lt by lia. simpl. f_equal. lia.
Qed.

(** A slot computed with the kernel's blocks. *)
Lemma kernel_slot bs kbs per world rank interleave b pos : 0 < kbs → 0 < per → 0 < world → 0 < interleave → (interleave | kbs) → bs = kbs * per →
  let ki := block_index kbs world pos in
  block_index bs world pos = ki / per ∧
  slot_id kbs world rank interleave (b * per + ki mod per) pos = slot_id bs world rank interleave b pos.
Proof.
  intros Hk Hp Hw Hi [c Hc] -> ki. assert (Hbi : block_index (kbs * per) world pos = ki / per).
  { unfold ki, block_index. rewrite Z.div_div by nia. f_equal. lia. }
  split; [done|]. unfold slot_id, is_local, local_block_offset. cbv zeta. rewrite Hbi. fold ki.
  pose proof (Z.div_mod ki per ltac:(lia)) as Hd. pose proof (Z.mod_pos_bound ki per Hp) as Hm. set (m := ki mod per) in *. set (q := ki / per) in *.
  set (v := pos - ki * (kbs * world)). assert (Hv : pos - q * (kbs * per * world) = v + m * kbs * world) by (unfold v; nia). rewrite Hv.
  assert (E1 : (v + m * kbs * world) / interleave = v / interleave + m * c * world).
  { rewrite Hc. replace (v + m * (c * interleave) * world) with (v + m * c * world * interleave) by ring. by rewrite Z.div_add by lia. }
  assert (E2 : (v + m * kbs * world) mod interleave = v mod interleave).
  { rewrite Hc. replace (v + m * (c * interleave) * world) with (v + m * c * world * interleave) by ring. by rewrite Z_mod_plus_full. }
  assert (E3 : (v + m * kbs * world) / (world * interleave) = v / (world * interleave) + m * c).
  { rewrite Hc. replace (v + m * (c * interleave) * world) with (v + m * c * (world * interleave)) by ring. by rewrite Z.div_add by nia. }
  rewrite E1, E2, E3, Z_mod_plus_full. destruct (_ =? rank); [|done]. rewrite Hc. ring.
Qed.

Section mapping.
Variable t : BlockTable.
Variable slot_at : Z → Z → Z.
Variable positions : list Z.

(** The tokens of one request, then those of all requests. *)
Lemma store_slots_spec r (a k : Z) slots : 0 ≤ a → 0 ≤ k → a + k ≤ len slots →
  (∀ o, a ≤ o < a + k → token_slot t r positions o = Ok (slot_at r o)) →
  ∃ slots', store_slots t r positions (seqZ a k) slots = Ok slots' ∧ len slots' = len slots ∧
    (∀ o, a ≤ o < a + k → slots' !! Z.to_nat o = Some (slot_at r o)) ∧
    ∀ o, 0 ≤ o → ¬ a ≤ o < a + k → slots' !! Z.to_nat o = slots !! Z.to_nat o.
Proof.
  intros Ha Hk. revert a Ha slots. pattern k. apply natlike_ind; [| |done]; clear k Hk.
  { intros a Ha slots _ _. rewrite seqZ_nil by lia. exists slots. split_and!; [done|done|lia|done]. }
  intros k Hk IH a Ha slots Hl Ht. rewrite seqZ_cons by lia. rewrite Z.pred_succ. cbn [store_slots]. rewrite Ht by lia. simpl.
  rewrite list_set_ok by lia. simpl. destruct (IH (Z.succ a) ltac:(lia) (py_set slots a (slot_at r a))) as (s' & H1 & H2 & H3 & H4).
  { rewrite len_py_set. lia. }
  { intros o Ho. apply Ht. lia. }
  exists s'. rewrite H1, H2, len_py_set. split_and!; [done|done|..].
  - intros o Ho. destruct (decide (o = a)) as [->|]; [|apply H3; lia]. rewrite H4 by lia. apply py_set_eq. lia.
  - intros o Ho Hno. rewrite H4 by lia. apply py_set_ne; lia.
Qed.
Lemma slot_programs_spec (start : Z → Z) qsl (k m : Z) slots : 0 ≤ k → 0 ≤ m →
  (∀ r, k ≤ r ≤ k + m → qsl !! Z.to_nat r = Some (start r)) → (∀ r, k ≤ r < k + m → 0 ≤ start r ≤ start (r + 1)) →
  0 ≤ start k → start (k + m) ≤ len slots →
  (∀ r o, k ≤ r < k + m → start r ≤ o < start (r + 1) → token_slot t r positions o = Ok (slot_at r o)) →
  ∃ slots', slot_programs t qsl positions (seqZ k m) slots = Ok slots' ∧ len slots' = len slots ∧ start k ≤ start (k + m) ∧
    (∀ r o, k ≤ r < k + m → start r ≤ o < start (r + 1) → slots' !! Z.to_nat o = Some (slot_at r o)) ∧
    ∀ o, 0 ≤ o → ¬ start k ≤ o < start (k + m) → slots' !! Z.to_nat o = slots !! Z.to_nat o.
Proof.
  intros Hk Hm. revert k Hk slots. pattern m. apply natlike_ind; [| |done]; clear m Hm.
  { intros k Hk slots. rewrite Z.add_0_r. intros. rewrite seqZ_nil by lia. exists slots. split_and!; [done|done|lia|lia|done]. }
  intros m Hm IH k Hk slots Hq Hmono H0 Hl Ht. rewrite seqZ_cons by lia. rewrite Z.pred_succ. cbn [slot_programs].
  rewrite (proj2 (np_get_ok qsl k (start k) Hk)), (proj2 (np_get_ok qsl (k + 1) (start (k + 1)) ltac:(lia))) by (apply Hq; lia). simpl.
  assert (Hnext : ∀ r, k + 1 ≤ r ≤ k + Z.succ m → start (k + 1) ≤ start r).
  { intros r Hr. replace r with (k + 1 + (r - (k + 1))) by lia. set (d := r - (k + 1)). assert (Hd : 0 ≤ d ≤ m) by (unfold d; lia). clearbody d. clear Hr r.
    destruct Hd as [Hd0 Hd]. revert Hd. pattern d. apply natlike_ind; [intros; rewrite Z.add_0_r; lia| |done]. clear d Hd0.
    intros d Hd IHd Hle. pose proof (Hmono (k + 1 + d) ltac:(lia)). replace (k + 1 + Z.succ d) with (k + 1 + d + 1) by lia. lia. }
  pose proof (Hmono k ltac:(lia)) as Hk1. pose proof (Hnext (k + Z.succ m) ltac:(lia)) as Hend.
  destruct (store_slots_spec k (start k) (start (k + 1) - start k) slots) as (s1 & A1 & A2 & A3 & A4); [lia|lia|lia|intros o Ho; apply Ht; lia|].
  rewrite A1. simpl. destruct (IH (k + 1) ltac:(lia) s1) as (s2 & B1 & B2 & B3 & B4 & B5).
  { intros r Hr. apply Hq. lia. } { intros r Hr. apply Hmono. lia. } { lia. } { rewrite A2. by replace (k + 1 + m) with (k + Z.succ m) by lia. }
  { intros r o Hr. apply Ht. lia. }
  replace (Z.succ k) with (k + 1) by lia. replace (k + 1 + m) with (k + Z.succ m) in * by lia.
  exists s2. split_and!; [done|lia|lia|..].
  - intros r o Hr Ho. destruct (decide (r = k)) as [->|]; [|apply B4; lia]. rewrite B5 by lia. apply A3. lia.
  - intros o Ho Hno. rewrite B5, A4 by lia. done.
Qed.
End mapping.

(** A table whose manager's block size is [bs]. *)
Record sizes_ok (bs : Z) (t : BlockTable) : Prop := {
  sz_kernel : 0 < block_size t;
  sz_per : 0 < blocks_per_kv_block t;
  sz_bs : bs = block_size t * blocks_per_kv_block t;
  sz_plain : use_hybrid_blocks t = false → blocks_per_kv_block t = 1;
  sz_interleave : 0 < cp_kv_cache_interleave_size t;
  sz_divides : (cp_kv_cache_interleave_size t | block_size t);
}.
(** The device copy has the table's shape. *)
Record gpu_ok (n : Z) (t : BlockTable) : Prop := {
  gp_rows : len (block_table_gpu t) = n;
  gp_cols : Forall (λ row, len row = max_num_blocks_per_req t) (block_table_gpu t);
  gp_slots : len (slot_mapping t) = max_num_batched_tokens t;
}.
Lemma new_table_ok bs n cols toks kbs interleave g t : 0 < bs → 0 < kbs → 0 ≤ toks → 0 ≤ n → 0 ≤ cols → 0 < interleave → (interleave | kbs) →
  new_BlockTable bs n cols toks kbs interleave g = Ok t → table_ok n t ∧ sizes_ok bs t ∧ gpu_ok n t.
Proof.
  intros Hbs Hk Htk Hn Hc Hi Hd. unfold new_BlockTable. set (mk := zero_table n cols toks interleave g). cbv zeta.
  assert (Hmk : ∀ size per hyb, 0 < size → 0 < per → bs = size * per → (hyb = false → per = 1) → (interleave | size) →
    table_ok n (mk size per hyb) ∧ sizes_ok bs (mk size per hyb) ∧ gpu_ok n (mk size per hyb)).
  { intros size per hyb H1 H2 H3 H4 H5. unfold mk, zero_table, py_replicate. split; [split; simpl|split; [by split|split; simpl]]; rewrite ?len_replicate; try lia.
    - apply Forall_replicate. rewrite len_replicate. nia.
    - apply Forall_replicate. nia.
    - apply Forall_replicate. rewrite len_replicate. nia. }
  destruct (Z.eqb_spec kbs bs) as [->|Hne]; [intros [= <-]; apply Hmk; (lia || done)|].
  unfold py_mod, py_div. rewrite (proj2 (Z.eqb_neq kbs 0)) by lia. simpl. destruct (Z.eqb_spec (bs mod kbs) 0) as [E|]; [|done]. intros [= <-].
  apply Z.mod_divide in E as [c Hcc]; [|lia]. assert (bs / kbs = c) as -> by (rewrite Hcc; apply Z.div_mul; lia).
  apply Hmk; try done; nia.
Qed.

Lemma committed_row n num_reqs t r : table_ok n t → gpu_ok n t → 0 ≤ num_reqs ≤ n → 0 ≤ r < num_reqs →
  block_table_gpu (commit_block_table num_reqs t) !! Z.to_nat r = block_table t !! Z.to_nat r ∧
  Forall (λ row, length row = Z.to_nat (max_num_blocks_per_req t)) (block_table_gpu (commit_block_table num_reqs t)).
Proof.
  intros [Hl _ Hc _] [Hg Hgc _] Hn Hr. unfold commit_block_table, slice_to, slice_from. destruct t. simpl in *.
  rewrite !slice_bound_in, !Z.min_l by lia. split.
  - rewrite lookup_app_l by (rewrite length_take; unfold len in *; lia). apply lookup_take_lt. lia.
  - apply Forall_app_2; [apply Forall_take|apply Forall_drop]; (eapply Forall_impl; [done|]; unfold len; intros row; simpl; lia).
Qed.

(** The slot of a token whose request's row holds the manager's blocks [ids]. *)
Lemma token_slot_spec n bs t num_reqs r ids positions o pos b :
  let world := pcp_world_size (cp_groups t) * dcp_world_size (cp_groups t) in
  let rank := pcp_rank (cp_groups t) * dcp_world_size (cp_groups t) + dcp_rank (cp_groups t) in
  table_ok n t → gpu_ok n t → sizes_ok bs t → 0 < world → 0 ≤ num_reqs ≤ n → 0 ≤ r < num_reqs →
  row_blocks t r = kernel_ids t ids → 0 ≤ o → positions !! Z.to_nat o = Some pos → 0 ≤ pos →
  ids !! Z.to_nat (block_index bs world pos) = Some b →
  token_slot (commit_block_table num_reqs t) r positions o = Ok (slot_id bs world rank (cp_kv_cache_interleave_size t) b pos).
Proof.
  intros world rank Ht Hg [S1 S2 S3 S4 S5 S6] Hw Hn Hr Hrow Ho Hpos Hp Hb.
  destruct (committed_row n num_reqs t r Ht Hg Hn Hr) as [Hgr Hgc].
  destruct (table_row n t r Ht ltac:(lia)) as (row & k & Hr1 & _ & Hl1 & Hkb & Hrow1).
  destruct (kernel_slot bs (block_size t) (blocks_per_kv_block t) world rank (cp_kv_cache_interleave_size t) b pos S1 S2 Hw S5 S6 S3) as [K1 K2].
  set (ki := block_index (block_size t) world pos) in *.
  assert (Hki : 0 ≤ ki). { unfold ki, block_index. apply Z.div_pos; nia. }
  rewrite K1 in Hb. pose proof (kernel_block_lookup ids _ ki b S2 Hki Hb) as Hkb2.
  assert (Hlk : kernel_ids t ids !! Z.to_nat ki = Some (b * blocks_per_kv_block t + ki mod blocks_per_kv_block t)).
  { unfold kernel_ids. destruct (use_hybrid_blocks t); [done|]. unfold map_to_kernel_blocks in Hkb2. by rewrite (S4 eq_refl) in *. }
  rewrite <-Hrow, Hrow1 in Hlk. pose proof (lookup_lt_Some _ _ _ Hlk) as Hlt. rewrite length_take in Hlt.
  rewrite lookup_take_lt in Hlk by lia. unfold token_slot.
  assert (Hf : cp_groups (commit_block_table num_reqs t) = cp_groups t ∧ block_size (commit_block_table num_reqs t) = block_size t ∧
    max_num_blocks_per_req (commit_block_table num_reqs t) = max_num_blocks_per_req t ∧
    cp_kv_cache_interleave_size (commit_block_table num_reqs t) = cp_kv_cache_interleave_size t) by (by destruct t).
  set (t1 := commit_block_table num_reqs t) in *. clearbody t1. destruct Hf as (-> & -> & -> & ->).
  rewrite (proj2 (np_get_ok positions o pos Ho) Hpos). simpl.
  fold world. fold rank. fold ki.
  assert (Hidx : 0 ≤ r * max_num_blocks_per_req t + ki) by (pose proof (Z.mul_nonneg_nonneg r (max_num_blocks_per_req t)); lia).
  rewrite (proj2 (np_get_ok (concat (block_table_gpu t1)) _ (b * blocks_per_kv_block t + ki mod blocks_per_kv_block t) Hidx)).
  - simpl. by rewrite K2.
  - replace (Z.to_nat (r * max_num_blocks_per_req t + ki)) with (Z.to_nat r * Z.to_nat (max_num_blocks_per_req t) + Z.to_nat ki)%nat by (rewrite Z2Nat.inj_add, Z2Nat.inj_mul by nia; done).
    rewrite lookup_concat_rows by (done || unfold len in Hl1; lia). by rewrite Hgr, Hr1.
Qed.

(** C22.  The slots of a step are those of the KV cache manager's blocks, whatever
    the block size of the attention kernel: when the rows of the requests hold the
    kernel's blocks of their blocks, the mapping gives every token the slot that the
    manager's block size and its block give it, and pads the slots after the tokens. *)
Theorem slots_are_those_of_the_managers_blocks n bs t num_reqs ids (start : Z → Z) positions :
  let world := pcp_world_size (cp_groups t) * dcp_world_size (cp_groups t) in
  let rank := pcp_rank (cp_groups t) * dcp_world_size (cp_groups t) + dcp_rank (cp_groups t) in
  table_ok n t → gpu_ok n t → sizes_ok bs t → 0 < world → 0 ≤ num_reqs ≤ n →
  (∀ r, 0 ≤ r < num_reqs → row_blocks t r = kernel_ids t (ids r)) →
  start 0 = 0 → start num_reqs = len positions → len positions ≤ max_num_batched_tokens t →
  (∀ r, 0 ≤ r < num_reqs → 0 ≤ start r ≤ start (r + 1)) →
  (∀ r o, 0 ≤ r < num_reqs → start r ≤ o < start (r + 1) → ∃ pos b, positions !! Z.to_nat o = Some pos ∧ 0 ≤ pos ∧
     ids r !! Z.to_nat (block_index bs world pos) = Some b) →
  ∃ t', compute_slot_mapping num_reqs (start <$> seqZ 0 (num_reqs + 1)) positions (commit_block_table num_reqs t) = (Ok tt, t') ∧
    len (slot_mapping t') = max_num_batched_tokens t ∧
    (∀ r o pos b, 0 ≤ r < num_reqs → start r ≤ o < start (r + 1) → positions !! Z.to_nat o = Some pos →
       ids r !! Z.to_nat (block_index bs world pos) = Some b →
       slot_mapping t' !! Z.to_nat o = Some (slot_id bs world rank (cp_kv_cache_interleave_size t) b pos)) ∧
    ∀ o, len positions ≤ o < max_num_batched_tokens t → slot_mapping t' !! Z.to_nat o = Some PAD_SLOT_ID.
Proof.
  intros world rank Ht Hg Hs Hw Hn Hrows H0 Hend Hmax Hmono Htok.
  set (slot r o := match positions !! Z.to_nat o with
     | Some pos => match ids r !! Z.to_nat (block_index bs world pos) with
                   | Some b => slot_id bs world rank (cp_kv_cache_interleave_size t) b pos | None => 0 end
     | None => 0 end).
  set (t1 := commit_block_table num_reqs t). assert (Hsm : slot_mapping t1 = slot_mapping t) by (by destruct t).
  destruct (slot_programs_spec t1 slot positions start (start <$> seqZ 0 (num_reqs + 1)) 0 num_reqs (slot_mapping t1)) as (s & A1 & A2 & _ & A3 & _).
  - lia.
  - lia.
  - intros r Hr. rewrite list_lookup_fmap, lookup_seqZ_lt by lia. simpl. f_equal. f_equal. lia.
  - intros r Hr. apply Hmono. lia.
  - lia.
  - rewrite Hsm, (gp_slots _ _ Hg), Z.add_0_l. lia.
  - intros r o Hr Ho. destruct (Htok r o ltac:(lia) Ho) as (pos & b & P1 & P2 & P3). pose proof (Hmono r ltac:(lia)).
    unfold slot. rewrite P1, P3. eapply token_slot_spec; first [done | lia | apply Hrows; lia].
  - unfold compute_slot_mapping. rewrite run_get, run_of_res, A1. unfold modify. eexists. split; [reflexivity|].
    assert (Hm1 : max_num_batched_tokens t1 = max_num_batched_tokens t) by (by destruct t). pose proof (gp_slots _ _ Hg) as Hgs.
    pose proof (len_nonneg positions) as Hlp. rewrite Hsm, Hgs in A2.
    replace (slot_mapping (t1 <| slot_mapping := _ |>)) with (np_fill s (len positions) (max_num_batched_tokens t1) PAD_SLOT_ID) by (by destruct t1).
    rewrite Hm1. split; [rewrite len_np_fill; lia|]. rewrite np_fill_ok by lia. split.
    + intros r o pos b Hr Ho Hpos Hb. assert (Hlt : 0 ≤ o < len positions).
      { pose proof (Hmono r Hr). apply lookup_lt_Some in Hpos. unfold len. lia. }
      rewrite lookup_app_l by (rewrite length_take; unfold len in *; lia). rewrite lookup_take_lt by lia.
      rewrite (A3 r o) by lia. unfold slot. by rewrite Hpos, Hb.
    + intros o Ho. rewrite lookup_app_r by (rewrite length_take; unfold len in *; lia).
      rewrite lookup_app_l by (rewrite length_take, length_replicate; unfold len in *; lia).
      apply lookup_replicate_2. rewrite length_take. unfold len in *. lia.
Qed.

(** Blocks of 32 tokens, 16 for the kernel: request 0 has blocks 3 and 5, request 1 has block 7. *)
Definition test_table : res BlockTable :=
  t ← new_BlockTable 32 2 4 8 16 1 (mkCPGroups 1 0 1 0);
  match (add_row [3; 5] 0 ;; add_row [7] 1) t with
  | (Ok _, t') => Ok t'
  | (Raise e, _) => Raise e
  end.
Definition test_ids (r : Z) : list Z := if r =? 0 then [3; 5] else [7].
Definition test_start (r : Z) : Z := if r =? 0 then 0 else if r =? 1 then 3 else 4.
Lemma slots_are_those_of_the_managers_blocks_witness :
  match test_table with
  | Ok t => ∃ t', compute_slot_mapping 2 [0; 3; 4] [0; 33; 40; 5] (commit_block_table 2 t) = (Ok tt, t') ∧
                  slot_mapping t' !! 1%nat = Some (5 * 32 + 1)
  | Raise _ => False
  end.
Proof.
  destruct test_table as [t|e] eqn:E; [|by vm_compute in E]. vm_compute in E. injection E as <-.
  match goal with |- context [commit_block_table 2 ?t] => set (tt0 := t);
    destruct (slots_are_those_of_the_managers_blocks 2 32 t 2 test_ids test_start [0; 33; 40; 5]) as (t' & H1 & _ & H2 & _) end.
  - split; simpl; [done|done|by repeat constructor|]. repeat constructor; simpl; lia.
  - split; simpl; [done|by repeat constructor|done].
  - split; simpl; try lia. by exists 16.
  - simpl. lia.
  - lia.
  - intros r Hr. assert (r = 0 ∨ r = 1) as [-> | ->] by lia; done.
  - done.
  - done.
  - done.
  - intros r Hr. assert (r = 0 ∨ r = 1) as [-> | ->] by lia; unfold test_start; simpl; lia.
  - intros r o Hr Ho. assert (r = 0 ∨ r = 1) as [-> | ->] by lia; unfold test_start in Ho; simpl in Ho.
    + assert (o = 0 ∨ o = 1 ∨ o = 2) as [->|[->| ->]] by lia; eexists _, _; (split; [reflexivity|split; [lia|reflexivity]]).
    + assert (o = 3) as -> by lia. eexists _, _; (split; [reflexivity|split; [lia|reflexivity]]).
  - exists t'. split; [done|]. apply (H2 0 1 33 5); [lia|by vm_compute|done|done].
Defined.
