(* ===== verification/BatchUpdate.v ===== *)
(** * Changes of the batch ([src/vllm/v1/sample/logits_processor/state.py],
    [interface.py])

    Within a step the input batch records which indices became empty, which
    requests were added where and which were moved; the logits processors get the
    record when the step's changes are complete.  [P] is the type of what is
    recorded of an added request. *)
From stdpp Require Import sorting.
From S2P Require Import Prelude.
Local Open Scope Z_scope.

Inductive MoveDirectionality := UNIDIRECTIONAL | SWAP.
#[export] Instance MoveDirectionality_eq_dec : EqDecision MoveDirectionality.
Proof. solve_decision. Defined.
Definition MovedRequest : Type := Z * Z * MoveDirectionality.

Record BatchUpdate (P : Type) := mkBatchUpdate {
  bu_batch_size : Z;
  bu_removed : list Z;
  bu_added : list (Z * P);
  bu_moved : list MovedRequest;
}.
Arguments mkBatchUpdate {P}.
Arguments bu_batch_size {P}.
Arguments bu_removed {P}.
Arguments bu_added {P}.
Arguments bu_moved {P}.

Record BatchUpdateBuilder (P : Type) := mkBuilder {
  _removed : list Z;
  _is_removed_sorted : bool;
  added : list (Z * P);
  moved : list MovedRequest;
  batch_changed : bool;
}.
Arguments mkBuilder {P}.
Arguments _removed {P}.
Arguments _is_removed_sorted {P}.
Arguments added {P}.
Arguments moved {P}.
Arguments batch_changed {P}.
#[export] Instance eta_Builder {P} : Eta (BatchUpdateBuilder P) := λ b,
  mkBuilder (_removed b) (_is_removed_sorted b) (added b) (moved b) (batch_changed b).
#[export] Instance set_removed {P} : Setter (@_removed P).
Proof. build_setter. Defined.
#[export] Instance set_is_removed_sorted {P} : Setter (@_is_removed_sorted P).
Proof. build_setter. Defined.
#[export] Instance set_added {P} : Setter (@added P).
Proof. build_setter. Defined.
#[export] Instance set_moved {P} : Setter (@moved P).
Proof. build_setter. Defined.
#[export] Instance set_batch_changed {P} : Setter (@batch_changed P).
Proof. build_setter. Defined.

Section builder.
Context {P : Type}.
Abbreviation UM := (M (BatchUpdateBuilder P)).

Definition new_Builder : BatchUpdateBuilder P := mkBuilder [] false [] [] false.
(** [list.sort(reverse=True)] on indices. *)
Definition sort_descending (l : list Z) : list Z := merge_sort Z.ge l.
Definition _ensure_removed_sorted : UM unit :=
  b <- get ;;
  when (negb (_is_removed_sorted b)) do
    put (b <| _removed ::= sort_descending |> <| _is_removed_sorted := true |>).
Definition removed : UM (list Z) := _ensure_removed_sorted ;; gets _removed.
Definition removed_append (index : Z) : UM unit :=
  b <- get ;;
  if _is_removed_sorted b then raise RuntimeError
  else put (b <| _removed ::= λ l, l ++ [index] |> <| batch_changed := true |>).
Definition has_removed (b : BatchUpdateBuilder P) : bool := negb (bool_decide (_removed b = [])).
Definition peek_removed : UM (option Z) :=
  b <- get ;;
  if has_removed b then _ensure_removed_sorted ;; gets (λ b, last (_removed b)) else ret None.
(** [list.pop()]. *)
Definition pop_removed : UM (option Z) :=
  b <- get ;;
  if has_removed b then
    _ensure_removed_sorted ;;
    l <- gets _removed ;;
    modify (λ b, b <| _removed := take (length l - 1) l |>) ;;
    ret (last l)
  else ret None.
Definition reset : UM bool :=
  changed <- gets batch_changed ;;
  put new_Builder ;;
  ret changed.
Definition get_and_reset (batch_size : Z) : UM (option (BatchUpdate P)) :=
  modify (λ b, b <| _is_removed_sorted := false |> <| batch_changed := false |>) ;;
  b <- get ;;
  match _removed b, moved b, added b with
  | [], [], [] => ret None
  | _, _, _ =>
      put (b <| _removed := [] |> <| moved := [] |> <| added := [] |>) ;;
      ret (Some (mkBatchUpdate batch_size (_removed b) (added b) (moved b)))
  end.

(* ===================================================================== *)
(** ** The lowest removed index                                           *)
(* ===================================================================== *)

(** What the class promises of [_removed]. *)
Record builder_ok (b : BatchUpdateBuilder P) : Prop := {
  bk_nodup : NoDup (_removed b);
  bk_sorted : _is_removed_sorted b = true → StronglySorted Z.ge (_removed b);
}.
#[local] Instance Zge_trans : Transitive Z.ge.
Proof. intros x y z. lia. Qed.
#[local] Instance Zge_total : Total Z.ge.
Proof. intros x y. lia. Qed.

Lemma ensure_sorted_spec b : builder_ok b →
  ∃ l, _ensure_removed_sorted b = (Ok tt, b <| _removed := l |> <| _is_removed_sorted := true |>) ∧
    l ≡ₚ _removed b ∧ StronglySorted Z.ge l.
Proof.
  intros [H1 H2]. unfold _ensure_removed_sorted. rewrite run_get. destruct (_is_removed_sorted b) eqn:E; simpl.
  - exists (_removed b). split; [|by split; [|apply H2]]. destruct b. simpl in *. by subst.
  - exists (sort_descending (_removed b)). split; [done|]. unfold sort_descending. split; [apply merge_sort_Permutation|].
    apply (StronglySorted_merge_sort Z.ge).
Qed.
Lemma sorted_last_least l (e x : Z) : StronglySorted Z.ge (l ++ [e]) → x ∈ l → e ≤ x.
Proof.
  intros Hs Hx. induction l as [|y l IH]; [by apply elem_of_nil in Hx|]. apply StronglySorted_cons in Hs as [Hy Hs].
  apply elem_of_cons in Hx as [->|Hx]; [|by apply IH]. rewrite Forall_forall in Hy. pose proof (Hy e ltac:(set_solver)). lia.
Qed.
(** [pop_removed] takes the lowest removed index. *)
Lemma pop_removed_spec b : builder_ok b → _removed b ≠ [] → ∃ l e,
  pop_removed b = (Ok (Some e), b <| _removed := l |> <| _is_removed_sorted := true |>) ∧
  l ++ [e] ≡ₚ _removed b ∧ StronglySorted Z.ge (l ++ [e]) ∧ (∀ x, x ∈ l → e ≤ x).
Proof.
  intros Hb Hne. unfold pop_removed. rewrite run_get. unfold has_removed. rewrite bool_decide_false by done. simpl.
  destruct (ensure_sorted_spec b Hb) as (l & He & Hp & Hs). mstep He. clear He.
  destruct l as [|e l _] using rev_ind; [by apply Permutation_nil_l in Hp|]. exists l, e. split_and!; [|done|done|].
  - rewrite run_gets, run_modify. destruct b. simpl. rewrite last_snoc, length_app. simpl.
    rewrite Nat.add_sub, take_app_length. done.
  - intros x. by apply sorted_last_least.
Qed.
Lemma pop_removed_none b : _removed b = [] → pop_removed b = (Ok None, b).
Proof. intros H. unfold pop_removed, has_removed. rewrite run_get, H. done. Qed.
End builder.
