(* ===== verification/LogitsProcs.v ===== *)
(** * Logits processors ([src/vllm/v1/sample/logits_processor/builtin.py])

    The state that the built-in processors keep per index of the batch and how a
    [BatchUpdate] changes it: min-p in an array with the count of its non-zero
    entries, logit bias and min-tokens in dictionaries.  What the processors do to
    the logits is not modelled, nor are the copies of their state on the device.
    Floats are values of a type [F] without NaN; the parameters are values of the
    arrays' type.  A request's output tokens are a list shared with the model
    runner, so they are passed by reference and [outputs] is the store. *)
From S2P Require Import Prelude Outcome NumPy BatchUpdate.
Local Open Scope Z_scope.

(** Floats: equality, order, and the constants the code compares with. *)
Class PyFloat (F : Type) := {
  float_eq_dec :: EqDecision F;
  float_zero : F;
  float_one : F;
  float_ltb : F → F → bool;
}.

Inductive SamplingType := GREEDY | RANDOM | RANDOM_SEED.
#[export] Instance SamplingType_eq_dec : EqDecision SamplingType.
Proof. solve_decision. Defined.

(** The sampling parameters that the batch and the processors read. *)
Record SamplingParams (F : Type) := mkSamplingParams {
  sampling_type : SamplingType;
  temperature : F;
  top_p : F;
  top_k : Z;
  min_p : F;
  frequency_penalty : F;
  presence_penalty : F;
  repetition_penalty : F;
  logprobs : option Z;
  sp_logprob_token_ids : option (list Z);
  allowed_token_ids : option (list Z);
  sp_bad_words_token_ids : option (list (list Z));
  logit_bias : option (gmap Z F);
  min_tokens : Z;
  all_stop_token_ids : gset Z;
}.
Arguments mkSamplingParams {F}.
Arguments sampling_type {F}.
Arguments temperature {F}.
Arguments top_p {F}.
Arguments top_k {F}.
Arguments min_p {F}.
Arguments frequency_penalty {F}.
Arguments presence_penalty {F}.
Arguments repetition_penalty {F}.
Arguments logprobs {F}.
Arguments sp_logprob_token_ids {F}.
Arguments allowed_token_ids {F}.
Arguments sp_bad_words_token_ids {F}.
Arguments logit_bias {F}.
Arguments min_tokens {F}.
Arguments all_stop_token_ids {F}.

(** The name of a list of output tokens. *)
Definition Ref : Type := Z.
(** What a processor is told of an added request. *)
Record Added (F : Type) := mkAdded {
  ad_params : SamplingParams F;
  ad_prompt : option (list Z);
  ad_output : Ref;
}.
Arguments mkAdded {F}.
Arguments ad_params {F}.
Arguments ad_prompt {F}.
Arguments ad_output {F}.

(* ===================================================================== *)
(** ** Dictionaries                                                       *)
(* ===================================================================== *)

Section dict.
Context {P T : Type}.
Variable new_state : P → option T.
(** Whether a state counts as true. *)
Variable truthy : T → bool.

Definition dict_add (s : gmap Z T * bool) (a : Z * P) : gmap Z T * bool :=
  match new_state a.2 with
  | Some state => (<[a.1 := state]> s.1, true)
  | None => (delete a.1 s.1, if is_some (s.1 !! a.1) then true else s.2)
  end.
Definition dict_remove (s : gmap Z T * bool) (index : Z) : gmap Z T * bool :=
  (delete index s.1, if match s.1 !! index with Some x => truthy x | None => false end then true else s.2).
Definition dict_move (s : gmap Z T * bool) (m : MovedRequest) : gmap Z T * bool :=
  let '(a_index, b_index, direct) := m in
  let a_entry := s.1 !! a_index in
  let entries := delete a_index s.1 in
  let b_entry := entries !! b_index in
  let entries := delete b_index entries in
  let entries := match a_entry with Some x => <[b_index := x]> entries | None => entries end in
  let updated := if is_some a_entry then true else s.2 in
  match b_entry with
  | Some y => (if bool_decide (direct = SWAP) then <[a_index := y]> entries else entries, true)
  | None => (entries, updated)
  end.
Definition process_dict_updates (req_entries : gmap Z T) (batch_update : option (BatchUpdate P)) : gmap Z T * bool :=
  match batch_update with
  | None => (req_entries, false)
  | Some u =>
      let s := foldl dict_add (req_entries, false) (bu_added u) in
      if bool_decide (s.1 = ∅) then s
      else foldl dict_move (foldl dict_remove s (bu_removed u)) (bu_moved u)
  end.
End dict.

Section processors.
Context {F : Type} `{!PyFloat F}.
Abbreviation Update := (BatchUpdate (Added F)).

(** [LogitBiasLogitsProcessor]: [biases], and the cells of the logits with what is
    added to them.  The cells are distinct, so their order does not matter; here it
    is that of the map. *)
Record LogitBias := mkLogitBias { biases : gmap Z (gmap Z F); bias_slice : list (Z * Z * F) }.
Definition new_LogitBias : LogitBias := mkLogitBias ∅ [].
Definition logit_bias_state (a : Added F) : option (gmap Z F) :=
  match logit_bias (ad_params a) with
  | Some b => if bool_decide (b = ∅) then None else Some b
  | None => None
  end.
Definition bias_truthy (b : gmap Z F) : bool := negb (bool_decide (b = ∅)).
Definition bias_cells (biases : gmap Z (gmap Z F)) : list (Z * Z * F) :=
  flat_map (λ e : Z * gmap Z F, (λ c : Z * F, (e.1, c.1, c.2)) <$> map_to_list e.2) (map_to_list biases).
Definition logit_bias_update_state (p : LogitBias) (u : option Update) : LogitBias :=
  let s := process_dict_updates logit_bias_state bias_truthy (biases p) u in
  mkLogitBias s.1 (if s.2 then bias_cells s.1 else bias_slice p).

(** [MinTokensLogitsProcessor]: [min_toks], and the cells of the logits that are set
    to minus infinity. *)
Abbreviation MinToks := (gmap Z (Z * Ref * gset Z)).
Record MinTokens := mkMinTokens { min_toks : MinToks; stop_slice : list (Z * Z) }.
Definition new_MinTokens : MinTokens := mkMinTokens ∅ [].
Section min_tokens.
Variable outputs : Ref → list Z.
Definition min_tokens_state (a : Added F) : option (Z * Ref * gset Z) :=
  let m := min_tokens (ad_params a) in
  if (m =? 0) || (m <=? len (outputs (ad_output a))) then None
  else Some (m, ad_output a, all_stop_token_ids (ad_params a)).
Definition stop_cells (min_toks : MinToks) : list (Z * Z) :=
  flat_map (λ e : Z * (Z * Ref * gset Z), (λ t, (e.1, t)) <$> elements e.2.2) (map_to_list min_toks).
Definition min_tokens_update_state (p : MinTokens) (u : option Update) : MinTokens :=
  let s := process_dict_updates min_tokens_state (λ _, true) (min_toks p) u in
  let left := filter (λ e, len (outputs e.2.1.2) < e.2.1.1) s.1 in
  let needs_update := if bool_decide (left = s.1) then s.2 else true in
  mkMinTokens left (if needs_update then stop_cells left else stop_slice p).

(** [apply_with_spec_decode]: the cells that are set to minus infinity when request [i]
    has [num_draft_tokens[i]] consecutive rows. *)
Fixpoint draft_cumsum (acc : Z) (l : list Z) : list Z :=
  match l with
  | [] => [acc]
  | x :: l' => acc :: draft_cumsum (acc + x) l'
  end.
Definition spec_cells (num_draft_tokens : list Z) (e : Z * (Z * Ref * gset Z)) : res (list (Z * Z)) :=
  let '(req_idx, (min_tok, out, stops)) := e in
  if bool_decide (stops = ∅) then Ok []
  else
    num_draft ← np_get num_draft_tokens req_idx;
    let n_mask := Z.min (Z.max (min_tok - len (outputs out)) 0) num_draft in
    if 0 <? n_mask then
      offset ← np_get (draft_cumsum 0 num_draft_tokens) req_idx;
      Ok (flat_map (λ row, (λ t, (row, t)) <$> elements stops) (seqZ offset n_mask))
    else Ok [].
Definition apply_with_spec_decode (p : MinTokens) (num_draft_tokens : list Z) : res (list (Z * Z)) :=
  cells ← mapM (spec_cells num_draft_tokens) (map_to_list (min_toks p));
  Ok (concat cells).
End min_tokens.

(** [MinPLogitsProcessor]: [min_p_cpu] and [min_p_count], and whether the copy on
    the device is to be updated. *)
Record MinP := mkMinP { min_p_cpu : list F; min_p_count : Z; needs_update : bool }.
Definition nonzero (x : F) : bool := negb (bool_decide (x = float_zero)).
Definition min_p_add (s : MinP) (a : Z * Added F) : res MinP :=
  let x := min_p (ad_params a.2) in
  before ← np_get (min_p_cpu s) a.1;
  if bool_decide (before = x) then Ok s
  else
    cpu ← list_set (min_p_cpu s) a.1 x;
    Ok (mkMinP cpu
          (if nonzero x && negb (nonzero before) then min_p_count s + 1
           else if negb (nonzero x) && nonzero before then min_p_count s - 1
           else min_p_count s) true).
Definition min_p_remove (s : MinP) (index : Z) : res MinP :=
  x ← np_get (min_p_cpu s) index;
  if nonzero x then
    cpu ← list_set (min_p_cpu s) index float_zero;
    Ok (mkMinP cpu (min_p_count s - 1) (needs_update s))
  else Ok s.
Definition min_p_move (s : MinP) (m : MovedRequest) : res MinP :=
  let '(adx, bdx, direct) := m in
  min_p_a ← np_get (min_p_cpu s) adx;
  min_p_b ← np_get (min_p_cpu s) bdx;
  s ← (if bool_decide (min_p_a = min_p_b) then Ok s
       else
         cpu ← list_set (min_p_cpu s) bdx min_p_a;
         cpu ← (if bool_decide (direct = SWAP) then list_set cpu adx min_p_b else Ok cpu);
         Ok (mkMinP cpu (min_p_count s) true));
  if bool_decide (direct = UNIDIRECTIONAL) then
    cpu ← (if nonzero min_p_a then list_set (min_p_cpu s) adx float_zero else Ok (min_p_cpu s));
    Ok (mkMinP cpu (if nonzero min_p_b then min_p_count s - 1 else min_p_count s) (needs_update s))
  else Ok s.
Fixpoint fold_res {A B} (f : A → B → res A) (a : A) (l : list B) : res A :=
  match l with
  | [] => Ok a
  | x :: l' => a' ← f a x; fold_res f a' l'
  end.
Definition min_p_update_state (cpu : list F) (count : Z) (u : option Update) : res MinP :=
  match u with
  | None => Ok (mkMinP cpu count false)
  | Some u =>
      s ← fold_res min_p_add (mkMinP cpu count false) (bu_added u);
      if min_p_count s =? 0 then Ok s
      else
        let s := match bu_removed u with [] => s | _ => mkMinP (min_p_cpu s) (min_p_count s) true end in
        s ← fold_res min_p_remove s (bu_removed u);
        fold_res min_p_move s (bu_moved u)
  end.
(** The tensor [min_p] that [apply] uses, a slice of a tensor on the device that is
    copied when needed.  (On a CPU it is a slice of the array itself.) *)
Definition min_p_slice (s : MinP) (size : Z) (slice : list F) : list F :=
  if negb (min_p_count s =? 0) && (needs_update s || negb (len slice =? size)) then take (Z.to_nat size) (min_p_cpu s) else slice.
Definition min_p_step (cpu : list F) (count : Z) (slice : list F) (u : option Update) : res (MinP * list F) :=
  s ← min_p_update_state cpu count u;
  Ok (s, match u with None => slice | Some u => min_p_slice s (bu_batch_size u) slice end).
End processors.
Arguments mkLogitBias {F}.
Arguments biases {F}.
Arguments bias_slice {F}.
Arguments mkMinP {F}.
Arguments min_p_cpu {F}.
Arguments min_p_count {F}.
Arguments needs_update {F}.
