(* ===== verification/InputBatch.v ===== *)
(** * The input batch of the worker ([src/vllm/v1/worker/gpu_input_batch.py])

    The requests of the running batch as rows of arrays that persist from step to
    step: tokens, counts, blocks, sampling parameters.  A removed request leaves an
    empty row, an added one takes the lowest empty row or the next one, [condense]
    moves the last requests into the empty rows that are left, and [swap_states]
    exchanges two rows.  Dictionaries and sets by request and by row hold what few
    requests have.

    The arrays all have [max_num_reqs] rows, so an index that is out of range is
    out of range at the first array that is accessed.  Arrays that are grouped here
    in a record are attributes of [InputBatch] in the code.  The device copies of
    the arrays, the thinking budget and log-probability tensors are left out.  A
    generator, embeddings and pooling states are objects: an integer names them. *)
From S2P Require Import Prelude MathUtils Outcome Request NumPy BlockTable BatchUpdate LogitsProcs.
Local Open Scope Z_scope.

(* ===================================================================== *)
(** ** Requests and arrays                                                *)
(* ===================================================================== *)

(** [torch.Tensor] of prompt embeddings: the object and its number of rows. *)
Record Embeds := mkEmbeds { em_object : Z; em_len : Z }.
#[export] Instance Embeds_eq_dec : EqDecision Embeds.
Proof. solve_decision. Defined.
Record PoolingParams := mkPoolingParams { requires_token_ids : bool }.
(** [output_ref] names the list whose value is [output_token_ids]. *)
Record CachedRequestState (F : Type) := mkCachedRequestState {
  req_id : string;
  prompt_token_ids : option (list Z);
  sampling_params : option (SamplingParams F);
  generator : option Z;
  block_ids : list (list Z);
  num_computed_tokens : Z;
  output_token_ids : list Z;
  output_ref : Ref;
  lora_request : option LoRARequest;
  prompt_embeds : option Embeds;
  prompt_is_token_ids : option (list bool);
  prev_num_draft_len : Z;
  pooling_params : option PoolingParams;
  pooling_states : option Z;
}.
Arguments mkCachedRequestState {F}.
Arguments req_id {F}.
Arguments prompt_token_ids {F}.
Arguments sampling_params {F}.
Arguments generator {F}.
Arguments block_ids {F}.
Arguments num_computed_tokens {F}.
Arguments output_token_ids {F}.
Arguments output_ref {F}.
Arguments lora_request {F}.
Arguments prompt_embeds {F}.
Arguments prompt_is_token_ids {F}.
Arguments prev_num_draft_len {F}.
Arguments pooling_params {F}.
Arguments pooling_states {F}.
#[export] Instance eta_CachedRequestState {F} : Eta (CachedRequestState F) := λ r,
  mkCachedRequestState (req_id r) (prompt_token_ids r) (sampling_params r) (generator r) (block_ids r)
    (num_computed_tokens r) (output_token_ids r) (output_ref r) (lora_request r) (prompt_embeds r)
    (prompt_is_token_ids r) (prev_num_draft_len r) (pooling_params r) (pooling_states r).
#[export] Instance set_block_ids {F} : Setter (@block_ids F).
Proof. build_setter. Defined.
#[export] Instance set_num_computed_tokens {F} : Setter (@num_computed_tokens F).
Proof. build_setter. Defined.
#[export] Instance set_output_token_ids {F} : Setter (@output_token_ids F).
Proof. build_setter. Defined.
#[export] Instance set_output_ref {F} : Setter (@output_ref F).
Proof. build_setter. Defined.
#[export] Instance set_prev_num_draft_len {F} : Setter (@prev_num_draft_len F).
Proof. build_setter. Defined.

(** Tokens and token counts. *)
Record TokenRows := mkTokenRows {
  token_ids_cpu : list (list Z);
  is_token_ids : list (list bool);
  num_tokens_no_spec : list Z;
  num_prompt_tokens : list Z;
  num_computed_tokens_cpu : list Z;
}.
#[export] Instance eta_TokenRows : Eta TokenRows := λ r,
  mkTokenRows (token_ids_cpu r) (is_token_ids r) (num_tokens_no_spec r) (num_prompt_tokens r)
    (num_computed_tokens_cpu r).
#[export] Instance set_token_ids_cpu : Setter token_ids_cpu.
Proof. build_setter. Defined.
#[export] Instance set_is_token_ids : Setter is_token_ids.
Proof. build_setter. Defined.
#[export] Instance set_num_tokens_no_spec : Setter num_tokens_no_spec.
Proof. build_setter. Defined.
#[export] Instance set_num_prompt_tokens : Setter num_prompt_tokens.
Proof. build_setter. Defined.
#[export] Instance set_num_computed_tokens_cpu : Setter num_computed_tokens_cpu.
Proof. build_setter. Defined.

Record LoRAState := mkLoRAState {
  request_lora_mapping : list Z;
  lora_id_to_request_ids : gmap Z (gset string);
  lora_id_to_lora_request : gmap Z LoRARequest;
}.
#[export] Instance eta_LoRAState : Eta LoRAState := λ r,
  mkLoRAState (request_lora_mapping r) (lora_id_to_request_ids r) (lora_id_to_lora_request r).
#[export] Instance set_request_lora_mapping : Setter request_lora_mapping.
Proof. build_setter. Defined.

(** Sampling parameters by row. *)
Record SamplingRows (F : Type) := mkSamplingRows {
  temperature_cpu : list F;
  top_p_cpu : list F;
  top_k_cpu : list Z;
  frequency_penalties_cpu : list F;
  presence_penalties_cpu : list F;
  repetition_penalties_cpu : list F;
  num_accepted_tokens_cpu : list Z;
  generators : gmap Z Z;
  bad_words_token_ids : gmap Z (list (list Z));
}.
Arguments mkSamplingRows {F}.
Arguments temperature_cpu {F}.
Arguments top_p_cpu {F}.
Arguments top_k_cpu {F}.
Arguments frequency_penalties_cpu {F}.
Arguments presence_penalties_cpu {F}.
Arguments repetition_penalties_cpu {F}.
Arguments num_accepted_tokens_cpu {F}.
Arguments generators {F}.
Arguments bad_words_token_ids {F}.
#[export] Instance eta_SamplingRows {F} : Eta (SamplingRows F) := λ r,
  mkSamplingRows (temperature_cpu r) (top_p_cpu r) (top_k_cpu r) (frequency_penalties_cpu r)
    (presence_penalties_cpu r) (repetition_penalties_cpu r) (num_accepted_tokens_cpu r) (generators r)
    (bad_words_token_ids r).
#[export] Instance set_num_accepted_tokens_cpu {F} : Setter (@num_accepted_tokens_cpu F).
Proof. build_setter. Defined.
#[export] Instance set_generators {F} : Setter (@generators F).
Proof. build_setter. Defined.
#[export] Instance set_bad_words_token_ids {F} : Setter (@bad_words_token_ids F).
Proof. build_setter. Defined.

(** Requests by what their parameters ask for. *)
Record SamplingSets := mkSamplingSets {
  greedy_reqs : gset string;
  random_reqs : gset string;
  top_p_reqs : gset string;
  top_k_reqs : gset string;
  frequency_penalties_reqs : gset string;
  presence_penalties_reqs : gset string;
  repetition_penalties_reqs : gset string;
  has_allowed_token_ids : gset string;
  num_logprobs : gmap string Z;
  logprob_token_ids : gmap string (list Z);
}.

Record InputBatch (F : Type) := mkInputBatch {
  is_pooling_model : bool;
  max_num_reqs : Z;
  max_model_len : Z;
  vocab_size : Z;
  _req_ids : list (option string);
  req_id_to_index : gmap string Z;
  req_output_token_ids : list (option Ref);
  spec_token_ids : list (list Z);
  tokens : TokenRows;
  req_prompt_embeds : gmap Z Embeds;
  block_tables : list BlockTable;
  lora : LoRAState;
  sampling : SamplingRows F;
  sets : SamplingSets;
  allowed_token_ids_mask : option (list (list bool));
  batch_update_builder : BatchUpdateBuilder (Added F);
  logits_processing_needs_token_ids : list bool;
  batch_pooling_params : gmap string PoolingParams;
  batch_pooling_states : gmap string Z;
  prev_req_id_to_index : option (gmap string Z);
}.
Arguments mkInputBatch {F}.
Arguments is_pooling_model {F}.
Arguments max_num_reqs {F}.
Arguments max_model_len {F}.
Arguments vocab_size {F}.
Arguments _req_ids {F}.
Arguments req_id_to_index {F}.
Arguments req_output_token_ids {F}.
Arguments spec_token_ids {F}.
Arguments tokens {F}.
Arguments req_prompt_embeds {F}.
Arguments block_tables {F}.
Arguments lora {F}.
Arguments sampling {F}.
Arguments sets {F}.
Arguments allowed_token_ids_mask {F}.
Arguments batch_update_builder {F}.
Arguments logits_processing_needs_token_ids {F}.
Arguments batch_pooling_params {F}.
Arguments batch_pooling_states {F}.
Arguments prev_req_id_to_index {F}.
#[export] Instance eta_InputBatch {F} : Eta (InputBatch F) := λ r,
  mkInputBatch (is_pooling_model r) (max_num_reqs r) (max_model_len r) (vocab_size r) (_req_ids r)
    (req_id_to_index r) (req_output_token_ids r) (spec_token_ids r) (tokens r) (req_prompt_embeds r)
    (block_tables r) (lora r) (sampling r) (sets r) (allowed_token_ids_mask r) (batch_update_builder r)
    (logits_processing_needs_token_ids r) (batch_pooling_params r) (batch_pooling_states r)
    (prev_req_id_to_index r).
#[export] Instance set__req_ids {F} : Setter (@_req_ids F).
Proof. build_setter. Defined.
#[export] Instance set_req_id_to_index {F} : Setter (@req_id_to_index F).
Proof. build_setter. Defined.
#[export] Instance set_req_output_token_ids {F} : Setter (@req_output_token_ids F).
Proof. build_setter. Defined.
#[export] Instance set_spec_token_ids {F} : Setter (@spec_token_ids F).
Proof. build_setter. Defined.
#[export] Instance set_tokens {F} : Setter (@tokens F).
Proof. build_setter. Defined.
#[export] Instance set_req_prompt_embeds {F} : Setter (@req_prompt_embeds F).
Proof. build_setter. Defined.
#[export] Instance set_block_tables {F} : Setter (@block_tables F).
Proof. build_setter. Defined.
#[export] Instance set_lora {F} : Setter (@lora F).
Proof. build_setter. Defined.
#[export] Instance set_sampling {F} : Setter (@sampling F).
Proof. build_setter. Defined.
#[export] Instance set_sets {F} : Setter (@sets F).
Proof. build_setter. Defined.
#[export] Instance set_allowed_token_ids_mask {F} : Setter (@allowed_token_ids_mask F).
Proof. build_setter. Defined.
#[export] Instance set_batch_update_builder {F} : Setter (@batch_update_builder F).
Proof. build_setter. Defined.
#[export] Instance set_logits_processing_needs_token_ids {F} : Setter (@logits_processing_needs_token_ids F).
Proof. build_setter. Defined.
#[export] Instance set_batch_pooling_params {F} : Setter (@batch_pooling_params F).
Proof. build_setter. Defined.
#[export] Instance set_batch_pooling_states {F} : Setter (@batch_pooling_states F).
Proof. build_setter. Defined.
#[export] Instance set_prev_req_id_to_index {F} : Setter (@prev_req_id_to_index F).
Proof. build_setter. Defined.

Definition length_from_prompt_token_ids_or_embeds (ids : option (list Z)) (embeds : option Embeds) : res Z :=
  match ids, embeds with
  | None, None => Raise ValueError
  | None, Some e => Ok (em_len e)
  | Some l, None => Ok (len l)
  | Some l, Some e => if em_len e =? len l then Ok (len l) else Raise ValueError
  end.
Definition swap_dict_values {V} (obj : gmap Z V) (key1 key2 : Z) : gmap Z V :=
  let v1 := obj !! key1 in
  let v2 := obj !! key2 in
  let obj := match v1 with Some x => <[key2 := x]> obj | None => delete key2 obj end in
  match v2 with Some y => <[key1 := y]> obj | None => delete key1 obj end.
(** [a[tgt] = a[src]]. *)
Definition np_move {A} (a : list A) (src tgt : Z) : res (list A) := x ← np_get a src; list_set a tgt x.
(** [a[tgt, :n] = a[src, :n]]. *)
Definition np_move_row {A} (a : list (list A)) (src tgt n : Z) : res (list (list A)) :=
  row ← np_get a src; np_assign_row a tgt 0 n (slice_to row n).

(** The part of [add_request] on tokens. *)
Definition tokens_add {F} (r : CachedRequestState F) (i num_prompt : Z) (t : TokenRows) : res TokenRows :=
  np ← list_set (num_prompt_tokens t) i num_prompt;
  let start_idx := num_prompt in
  let end_idx := start_idx + len (output_token_ids r) in
  ids_is ← match prompt_token_ids r with
           | Some prompt =>
               ids ← np_assign_row (token_ids_cpu t) i 0 num_prompt prompt;
               is_ids ← match prompt_is_token_ids r with
                        | Some mask => np_assign_row (is_token_ids t) i 0 num_prompt mask
                        | None => np_fill_row (is_token_ids t) i 0 num_prompt true
                        end;
               Ok (ids, is_ids)
           | None =>
               is_ids ← np_fill_row (is_token_ids t) i 0 num_prompt false;
               Ok (token_ids_cpu t, is_ids)
           end;
  ids ← np_assign_row ids_is.1 i start_idx end_idx (output_token_ids r);
  is_ids ← np_fill_row ids_is.2 i start_idx end_idx true;
  no_spec ← list_set (num_tokens_no_spec t) i (num_prompt + len (output_token_ids r));
  computed ← list_set (num_computed_tokens_cpu t) i (num_computed_tokens r);
  Ok (mkTokenRows ids is_ids no_spec np computed).
(** The parts of [condense] and [swap_states] on tokens. *)
Definition tokens_move (src tgt num_tokens : Z) (t : TokenRows) : res TokenRows :=
  ids ← np_move_row (token_ids_cpu t) src tgt num_tokens;
  is_ids ← np_move_row (is_token_ids t) src tgt num_tokens;
  no_spec ← np_move (num_tokens_no_spec t) src tgt;
  np ← np_move (num_prompt_tokens t) src tgt;
  computed ← np_move (num_computed_tokens_cpu t) src tgt;
  Ok (mkTokenRows ids is_ids no_spec np computed).
Definition np_swap_rows {A} (a : list (list A)) (i1 i2 n : Z) : res (list (list A)) :=
  r1 ← np_get a i1;
  a ← np_move_row a i2 i1 n;
  np_assign_row a i2 0 n (slice_to r1 n).
Definition tokens_swap (i1 i2 n : Z) (t : TokenRows) : res TokenRows :=
  no_spec ← np_swap (num_tokens_no_spec t) i1 i2;
  np ← np_swap (num_prompt_tokens t) i1 i2;
  computed ← np_swap (num_computed_tokens_cpu t) i1 i2;
  ids ← np_swap_rows (token_ids_cpu t) i1 i2 n;
  is_ids ← np_swap_rows (is_token_ids t) i1 i2 n;
  Ok (mkTokenRows ids is_ids no_spec np computed).

(** LoRA: a request is added, removed. *)
Definition lora_add (i : Z) (id : string) (r : option LoRARequest) (l : LoRAState) : res LoRAState :=
  match r with
  | Some lr =>
      let lora_id := lora_int_id lr in
      mapping ← list_set (request_lora_mapping l) i lora_id;
      Ok (mkLoRAState mapping
            (<[lora_id := {[id]} ∪ default ∅ (lora_id_to_request_ids l !! lora_id)]> (lora_id_to_request_ids l))
            (<[lora_id := lr]> (lora_id_to_lora_request l)))
  | None =>
      mapping ← list_set (request_lora_mapping l) i 0;
      Ok (mkLoRAState mapping (lora_id_to_request_ids l) (lora_id_to_lora_request l))
  end.
Definition lora_remove (i : Z) (id : string) (l : LoRAState) : res LoRAState :=
  lora_id ← np_get (request_lora_mapping l) i;
  if lora_id =? 0 then Ok l
  else match lora_id_to_request_ids l !! lora_id with
       | None => Raise KeyError
       | Some ids =>
           let ids := ids ∖ {[id]} in
           mapping ← list_set (request_lora_mapping l) i 0;
           if bool_decide (ids = ∅) then
             match lora_id_to_lora_request l !! lora_id with
             | None => Raise KeyError
             | Some _ => Ok (mkLoRAState mapping (delete lora_id (lora_id_to_request_ids l)) (delete lora_id (lora_id_to_lora_request l)))
             end
           else Ok (mkLoRAState mapping (<[lora_id := ids]> (lora_id_to_request_ids l)) (lora_id_to_lora_request l))
       end.

Section sampling.
Context {F : Type} `{!PyFloat F}.

(** [top_k] as stored, and whether it restricts. *)
Definition top_k_restricts (vocab : Z) (p : SamplingParams F) : bool := (0 <? top_k p) && (top_k p <? vocab).
Definition stored_top_k (vocab : Z) (p : SamplingParams F) : Z := if top_k_restricts vocab p then top_k p else vocab.
Definition is_greedy (p : SamplingParams F) : bool := bool_decide (sampling_type p = GREEDY).
(** The parts of [add_request] on sampling parameters. *)
Definition sampling_add (vocab i : Z) (p : SamplingParams F) (gen : option Z) (s : SamplingRows F) : res (SamplingRows F) :=
  temp ← list_set (temperature_cpu s) i (if is_greedy p then float_zero else temperature p);
  tp ← list_set (top_p_cpu s) i (top_p p);
  tk ← list_set (top_k_cpu s) i (stored_top_k vocab p);
  freq ← list_set (frequency_penalties_cpu s) i (frequency_penalty p);
  pres ← list_set (presence_penalties_cpu s) i (presence_penalty p);
  rep ← list_set (repetition_penalties_cpu s) i (repetition_penalty p);
  Ok (mkSamplingRows temp tp tk freq pres rep (num_accepted_tokens_cpu s)
        (match gen with Some g => <[i := g]> (generators s) | None => generators s end)
        (match sp_bad_words_token_ids p with
         | Some (w :: ws) => <[i := w :: ws]> (bad_words_token_ids s)
         | _ => bad_words_token_ids s
         end)).
Definition set_accepted (i x : Z) (s : SamplingRows F) : res (SamplingRows F) :=
  acc ← list_set (num_accepted_tokens_cpu s) i x; Ok (s <| num_accepted_tokens_cpu := acc |>).
Definition add_if (b : bool) (id : string) (s : gset string) : gset string := if b then {[id]} ∪ s else s.
Definition has_allowed (p : SamplingParams F) : bool := match allowed_token_ids p with Some (_ :: _) => true | _ => false end.
Definition sets_add (vocab : Z) (id : string) (p : SamplingParams F) (s : SamplingSets) : SamplingSets :=
  mkSamplingSets
    (add_if (is_greedy p) id (greedy_reqs s))
    (add_if (negb (is_greedy p)) id (random_reqs s))
    (add_if (float_ltb (top_p p) float_one) id (top_p_reqs s))
    (add_if (top_k_restricts vocab p) id (top_k_reqs s))
    (add_if (negb (bool_decide (frequency_penalty p = float_zero))) id (frequency_penalties_reqs s))
    (add_if (negb (bool_decide (presence_penalty p = float_zero))) id (presence_penalties_reqs s))
    (add_if (negb (bool_decide (repetition_penalty p = float_one))) id (repetition_penalties_reqs s))
    (add_if (has_allowed p) id (has_allowed_token_ids s))
    (match logprobs p with
     | Some n => <[id := if n =? -1 then vocab else n]> (num_logprobs s)
     | None => num_logprobs s
     end)
    (match sp_logprob_token_ids p with Some l => <[id := l]> (logprob_token_ids s) | None => logprob_token_ids s end).
Definition sets_remove (id : string) (s : SamplingSets) : SamplingSets :=
  mkSamplingSets (greedy_reqs s ∖ {[id]}) (random_reqs s ∖ {[id]}) (top_p_reqs s ∖ {[id]}) (top_k_reqs s ∖ {[id]})
    (frequency_penalties_reqs s ∖ {[id]}) (presence_penalties_reqs s ∖ {[id]}) (repetition_penalties_reqs s ∖ {[id]})
    (has_allowed_token_ids s ∖ {[id]}) (delete id (num_logprobs s)) (delete id (logprob_token_ids s)).

(** The mask of the allowed tokens: [True] is not allowed.  It is allocated when
    the first request with allowed tokens is added. *)
Fixpoint mask_clear (row : list bool) (ids : list Z) : res (list bool) :=
  match ids with
  | [] => Ok row
  | t :: ids' => row' ← list_set row t false; mask_clear row' ids'
  end.
Definition mask_add (n_reqs vocab i : Z) (p : SamplingParams F) (m : option (list (list bool))) : res (option (list (list bool))) :=
  match allowed_token_ids p with
  | Some (t :: ts) =>
      let mask := default (py_replicate n_reqs (py_replicate vocab false)) m in
      row ← mask_clear (py_replicate vocab true) (t :: ts);
      mask ← list_set mask i row;
      Ok (Some mask)
  | _ => Ok m
  end.
Definition mask_remove (i : Z) (m : option (list (list bool))) : res (option (list (list bool))) :=
  match m with
  | None => Ok None
  | Some mask => row ← np_get mask i; mask ← list_set mask i (replicate (length row) false); Ok (Some mask)
  end.
Definition mask_move (src tgt : Z) (m : option (list (list bool))) : res (option (list (list bool))) :=
  match m with
  | None => Ok None
  | Some mask => mask ← np_move mask src tgt; Ok (Some mask)
  end.
(** [mask[i1], mask[i2] = mask[i2], mask[i1]] on a tensor: the right-hand side is
    two views, so the second assignment reads the row that the first one wrote. *)
Definition mask_swap (i1 i2 : Z) (m : option (list (list bool))) : res (option (list (list bool))) :=
  match m with
  | None => Ok None
  | Some mask =>
      _ ← np_get mask i1;
      mask ← np_move mask i2 i1;
      mask ← np_move mask i1 i2;
      Ok (Some mask)
  end.

(** The parts of [remove_request], [condense] and [swap_states] on sampling parameters. *)
Definition sampling_remove (i : Z) (s : SamplingRows F) : SamplingRows F :=
  s <| generators ::= delete i |> <| bad_words_token_ids ::= delete i |>.
Definition move_key {V} (src tgt : Z) (m : gmap Z V) : gmap Z V :=
  match m !! src with Some x => <[tgt := x]> (delete src m) | None => delete src m end.
Definition sampling_move (src tgt : Z) (s : SamplingRows F) : res (SamplingRows F) :=
  temp ← np_move (temperature_cpu s) src tgt;
  tp ← np_move (top_p_cpu s) src tgt;
  tk ← np_move (top_k_cpu s) src tgt;
  freq ← np_move (frequency_penalties_cpu s) src tgt;
  pres ← np_move (presence_penalties_cpu s) src tgt;
  rep ← np_move (repetition_penalties_cpu s) src tgt;
  acc ← np_move (num_accepted_tokens_cpu s) src tgt;
  Ok (mkSamplingRows temp tp tk freq pres rep acc (move_key src tgt (generators s)) (move_key src tgt (bad_words_token_ids s))).
Definition sampling_swap (i1 i2 : Z) (s : SamplingRows F) : res (SamplingRows F) :=
  temp ← np_swap (temperature_cpu s) i1 i2;
  tp ← np_swap (top_p_cpu s) i1 i2;
  tk ← np_swap (top_k_cpu s) i1 i2;
  freq ← np_swap (frequency_penalties_cpu s) i1 i2;
  pres ← np_swap (presence_penalties_cpu s) i1 i2;
  rep ← np_swap (repetition_penalties_cpu s) i1 i2;
  acc ← np_swap (num_accepted_tokens_cpu s) i1 i2;
  Ok (mkSamplingRows temp tp tk freq pres rep acc
        (swap_dict_values (generators s) i1 i2) (swap_dict_values (bad_words_token_ids s) i1 i2)).
End sampling.

(* ===================================================================== *)
(** ** Operations                                                         *)
(* ===================================================================== *)

Section batch.
Context {F : Type} `{!PyFloat F}.
Abbreviation BM := (M (InputBatch F)).

Definition num_reqs (b : InputBatch F) : Z := Z.of_nat (size (req_id_to_index b)).

(** [InputBatch.__init__]; [uninit k i] is what cell [i] of the [k]th array made by
    [torch.empty] holds. *)
Definition new_InputBatch (pooling : bool) (n_reqs model_len vocab : Z) (tables : list BlockTable) (uninit : nat → Z → F)
    (uninit_top_k : Z → Z) : InputBatch F :=
  let empty k := uninit k <$> seqZ 0 n_reqs in
  let zeros := py_replicate n_reqs 0 in
  mkInputBatch pooling n_reqs model_len vocab [] ∅ [] (py_replicate n_reqs [])
    (mkTokenRows (py_replicate n_reqs (py_replicate model_len 0)) (py_replicate n_reqs (py_replicate model_len false)) zeros zeros zeros)
    ∅ tables (mkLoRAState zeros ∅ ∅)
    (mkSamplingRows (empty 0%nat) (empty 1%nat) (uninit_top_k <$> seqZ 0 n_reqs) (empty 2%nat) (empty 3%nat) (empty 4%nat)
       (py_replicate n_reqs 1) ∅ ∅)
    (mkSamplingSets ∅ ∅ ∅ ∅ ∅ ∅ ∅ ∅ ∅ ∅) None new_Builder (py_replicate n_reqs false) ∅ ∅ None.

(** Calls on the parts. *)
Definition on_builder {A} (m : M (BatchUpdateBuilder (Added F)) A) : BM A :=
  zoom batch_update_builder (λ u b, b <| batch_update_builder := u |>) m.
Definition on_tables (m : M (list BlockTable) unit) : BM unit := zoom block_tables (λ t b, b <| block_tables := t |>) m.
Definition on_part {T} (gt : InputBatch F → T) (st : T → InputBatch F → InputBatch F) (f : T → res T) : BM unit := λ b,
  match f (gt b) with Ok t => (Ok tt, st t b) | Raise e => (Raise e, b) end.
Definition on_tokens := on_part tokens (λ t b, b <| tokens := t |>).
Definition on_lora := on_part lora (λ t b, b <| lora := t |>).
Definition on_sampling := on_part sampling (λ t b, b <| sampling := t |>).
Definition on_mask := on_part allowed_token_ids_mask (λ t b, b <| allowed_token_ids_mask := t |>).
Definition on_ids := on_part _req_ids (λ t b, b <| _req_ids := t |>).
Definition on_outputs := on_part req_output_token_ids (λ t b, b <| req_output_token_ids := t |>).
Definition on_spec := on_part spec_token_ids (λ t b, b <| spec_token_ids := t |>).

Definition _register_add_request (r : CachedRequestState F) : BM Z :=
  popped <- on_builder pop_removed ;;
  b <- get ;;
  let new_req_index := default (num_reqs b) popped in
  assert_ (new_req_index <? max_num_reqs b) ;;
  on_builder (modify (λ u, u <| batch_changed := true |>)) ;;
  match sampling_params r with
  | Some p => on_builder (modify (λ u, u <| added ::= λ l, l ++ [(new_req_index, mkAdded p (prompt_token_ids r) (output_ref r))] |>))
  | None => ret tt
  end ;;
  ret new_req_index.

(** The branch on the kind of request. *)
Definition add_params (r : CachedRequestState F) (i : Z) : BM unit :=
  b <- get ;;
  match sampling_params r, pooling_params r with
  | Some p, _ =>
      on_sampling (sampling_add (vocab_size b) i p (generator r)) ;;
      modify (λ b, b <| sets ::= sets_add (vocab_size b) (req_id r) p |>) ;;
      on_mask (mask_add (max_num_reqs b) (vocab_size b) i p)
  | None, Some p =>
      match pooling_states r with
      | None => raise AssertionError
      | Some st =>
          modify (λ b, b <| batch_pooling_params ::= insert (req_id r) p |> <| batch_pooling_states ::= insert (req_id r) st |>) ;;
          needs <- of_res (list_set (logits_processing_needs_token_ids b) i (requires_token_ids p)) ;;
          modify (λ b, b <| logits_processing_needs_token_ids := needs |>)
      end
  | None, None => raise NotImplementedError
  end.
(** The lists by row: the id, the outputs and the drafts of the new request. *)
Definition place (i : Z) (r : CachedRequestState F) : BM unit :=
  b <- get ;;
  if i =? len (_req_ids b) then
    modify (λ b, b <| _req_ids ::= λ l, l ++ [Some (req_id r)] |> <| req_output_token_ids ::= λ l, l ++ [Some (output_ref r)] |>
                   <| spec_token_ids ::= λ l, l ++ [[]] |>)
  else
    on_ids (λ l, list_set l i (Some (req_id r))) ;;
    on_outputs (λ l, list_set l i (Some (output_ref r))) ;;
    on_spec (λ l, list_set l i []).
Definition add_request (r : CachedRequestState F) : BM Z :=
  i <- _register_add_request r ;;
  place i r ;;
  modify (λ b, b <| req_id_to_index ::= insert (req_id r) i |>) ;;
  num_prompt <- of_res (length_from_prompt_token_ids_or_embeds (prompt_token_ids r) (prompt_embeds r)) ;;
  match prompt_embeds r with
  | Some e => modify (λ b, b <| req_prompt_embeds ::= insert i e |>)
  | None => ret tt
  end ;;
  on_tokens (tokens_add r i num_prompt) ;;
  on_tables (multi_add_row (block_ids r) i) ;;
  add_params r i ;;
  on_sampling (set_accepted i 1) ;;
  on_lora (lora_add i (req_id r) (lora_request r)) ;;
  ret i.

(** [update_req_spec_token_ids]; the request with its draft length is returned. *)
Definition update_req_spec_token_ids (r : CachedRequestState F) (scheduled_spec_tokens : gmap string (list Z)) :
    BM (CachedRequestState F) :=
  b <- get ;;
  i <- of_option KeyError (req_id_to_index b !! req_id r) ;;
  on_spec (λ l, list_set l i []) ;;
  let ids := default [] (scheduled_spec_tokens !! req_id r) in
  let r := r <| prev_num_draft_len := len ids |> in
  if bool_decide (ids = []) then ret r
  else
    on_tokens (λ t,
      start_index ← np_get (num_tokens_no_spec t) i;
      rows ← np_assign_row (token_ids_cpu t) i start_index (start_index + len ids) ids;
      is_rows ← np_fill_row (is_token_ids t) i start_index (start_index + len ids) true;
      Ok (t <| token_ids_cpu := rows |> <| is_token_ids := is_rows |>)) ;;
    on_spec (λ l, list_set l i ids) ;;
    ret r.

Definition remove_request (id : string) : BM (option Z) :=
  b <- get ;;
  match req_id_to_index b !! id with
  | None => ret None
  | Some i =>
      modify (λ b, b <| req_id_to_index ::= delete id |>) ;;
      on_builder (removed_append i) ;;
      on_ids (λ l, list_set l i None) ;;
      on_outputs (λ l, list_set l i None) ;;
      on_spec (λ l, list_set l i []) ;;
      on_tables (multi_clear_row i) ;;
      on_lora (lora_remove i id) ;;
      if is_pooling_model b then
        modify (λ b, b <| batch_pooling_params ::= delete id |> <| batch_pooling_states ::= delete id |>) ;;
        ret (Some i)
      else
        modify (λ b, b <| sets ::= sets_remove id |> <| sampling ::= sampling_remove i |>
                       <| prev_req_id_to_index ::= fmap (delete id) |>) ;;
        on_mask (mask_remove i) ;;
        ret (Some i)
  end.

Definition _get_active_token_count (b : InputBatch F) (i : Z) : res Z :=
  n ← np_get (num_tokens_no_spec (tokens b)) i;
  s ← np_get (spec_token_ids b) i;
  Ok (n + len s).

Definition swap_states (i1 i2 : Z) : BM unit :=
  b <- get ;;
  old_id_i1 <- of_res (np_get (_req_ids b) i1) ;;
  old_id_i2 <- of_res (np_get (_req_ids b) i2) ;;
  n1 <- of_res (_get_active_token_count b i1) ;;
  n2 <- of_res (_get_active_token_count b i2) ;;
  on_ids (λ l, np_swap l i1 i2) ;;
  on_outputs (λ l, np_swap l i1 i2) ;;
  on_spec (λ l, np_swap l i1 i2) ;;
  match old_id_i1, old_id_i2 with
  | Some id1, Some id2 =>
      x1 <- of_option KeyError (req_id_to_index b !! id2) ;;
      x2 <- of_option KeyError (req_id_to_index b !! id1) ;;
      modify (λ b, b <| req_id_to_index ::= λ m, <[id2 := x2]> (<[id1 := x1]> m) |>) ;;
      on_tokens (tokens_swap i1 i2 (Z.max n1 n2)) ;;
      modify (λ b, b <| req_prompt_embeds ::= λ m, swap_dict_values m i1 i2 |>) ;;
      on_tables (multi_swap_row i1 i2) ;;
      on_lora (λ l, m ← np_swap (request_lora_mapping l) i1 i2; Ok (l <| request_lora_mapping := m |>)) ;;
      if is_pooling_model b then ret tt
      else
        on_builder (modify (λ u, u <| moved ::= λ l, l ++ [(i1, i2, SWAP)] |>)) ;;
        on_sampling (sampling_swap i1 i2) ;;
        on_mask (mask_swap i1 i2)
  | _, _ => raise AssertionError
  end.

(** [while last_req_index in empty_req_indices: last_req_index -= 1]; [fuel] is the
    length of the list plus one. *)
Fixpoint skip_empty (fuel : nat) (last_req_index : Z) (empty_req_indices : list Z) : res Z :=
  match fuel with
  | O => Raise OutOfFuel
  | S fuel' => if bool_decide (last_req_index ∈ empty_req_indices)
               then skip_empty fuel' (last_req_index - 1) empty_req_indices
               else Ok last_req_index
  end.
(** The body of the loop for a row that is moved down. *)
Definition move_down (last_req_index empty_index : Z) : BM unit :=
  b <- get ;;
  id <- of_res (np_get (_req_ids b) last_req_index) ;;
  out <- of_res (np_get (req_output_token_ids b) last_req_index) ;;
  match id with
  | None => raise AssertionError
  | Some id =>
      on_ids (λ l, l ← list_set l empty_index (Some id); list_set l last_req_index None) ;;
      on_outputs (λ l, l ← list_set l empty_index out; list_set l last_req_index None) ;;
      modify (λ b, b <| req_id_to_index ::= insert id empty_index |>) ;;
      b <- get ;;
      num_tokens <- of_res (_get_active_token_count b last_req_index) ;;
      on_spec (λ l, l ← np_swap l last_req_index empty_index; list_set l last_req_index []) ;;
      on_tokens (tokens_move last_req_index empty_index num_tokens) ;;
      modify (λ b, b <| req_prompt_embeds ::= λ m,
                       match m !! last_req_index with
                       | Some e => <[empty_index := e]> (delete last_req_index m)
                       | None => m
                       end |>) ;;
      on_tables (multi_move_row last_req_index empty_index) ;;
      on_lora (λ l, m ← np_move (request_lora_mapping l) last_req_index empty_index; Ok (l <| request_lora_mapping := m |>)) ;;
      if is_pooling_model b then ret tt
      else
        on_builder (modify (λ u, u <| moved ::= λ l, l ++ [(last_req_index, empty_index, UNIDIRECTIONAL)] |>)) ;;
        on_sampling (sampling_move last_req_index empty_index) ;;
        on_mask (mask_move last_req_index empty_index)
  end.
(** [while empty_req_indices: ...]; every iteration but the last fills an index. *)
Fixpoint condense_loop (fuel : nat) (last_req_index : Z) : BM unit :=
  b <- get ;;
  let empty_req_indices := _removed (batch_update_builder b) in
  if bool_decide (empty_req_indices = []) then ret tt
  else
    match fuel with
    | O => raise OutOfFuel
    | S fuel' =>
        last_req_index <- of_res (skip_empty (S (length empty_req_indices)) last_req_index empty_req_indices) ;;
        e <- on_builder peek_removed ;;
        match e with
        | None => raise AssertionError
        | Some empty_index =>
            if last_req_index <=? empty_index then ret tt
            else
              on_builder pop_removed ;;
              move_down last_req_index empty_index ;;
              condense_loop fuel' (last_req_index - 1)
        end
    end.
Definition condense : BM unit :=
  n <- gets num_reqs ;;
  empty_req_indices <- on_builder removed ;;
  if bool_decide (empty_req_indices = []) then ret tt
  else if n =? 0 then
    modify (λ b, b <| _req_ids := [] |> <| req_output_token_ids := [] |> <| spec_token_ids := [] |>)
  else
    condense_loop (S (length empty_req_indices)) (n + len empty_req_indices - 1) ;;
    modify (λ b, b <| _req_ids ::= λ l, slice_to l n |> <| req_output_token_ids ::= λ l, slice_to l n |>
                   <| spec_token_ids ::= λ l, slice_to l n |>).

(** [refresh_metadata]: the update for the logits processors, and whether the
    sampling metadata is made anew. *)
Definition refresh_metadata : BM (option (BatchUpdate (Added F)) * bool) :=
  b <- get ;;
  if is_pooling_model b then
    changed <- on_builder reset ;;
    ret (None, changed)
  else
    u <- on_builder (get_and_reset (num_reqs b)) ;;
    ret (u, is_some u).

(* ===================================================================== *)
(** ** Sampling metadata                                                  *)
(* ===================================================================== *)

Definition no_penalties (s : SamplingSets) : bool :=
  bool_decide (presence_penalties_reqs s = ∅) && bool_decide (frequency_penalties_reqs s = ∅) &&
  bool_decide (repetition_penalties_reqs s = ∅).
(** [_make_prompt_token_ids_cpu_tensor]: the prompts, padded with [vocab_size]. *)
Definition _make_prompt_token_ids_cpu_tensor (b : InputBatch F) : res (list (list Z)) :=
  let n := num_reqs b in
  let lens := slice_to (num_prompt_tokens (tokens b)) n in
  max_prompt_len ← py_max lens;
  Ok (zip_with (λ row k, np_fill (slice_to row max_prompt_len) k max_prompt_len (vocab_size b))
        (slice_to (token_ids_cpu (tokens b)) n) lens).
(** The fields of [SamplingMetadata] that are taken from the batch; [None] where
    the device tensor is not refreshed. *)
Record SamplingMetadata := mkSamplingMetadata {
  md_temperature : option (list F);
  md_top_p : option (list F);
  md_top_k : option (list Z);
  md_penalties : option (list F * list F * list F);
  md_prompt_token_ids : option (list (list Z));
  md_allowed_token_ids_mask : option (list (list bool));
  md_generators : gmap Z Z;
  md_bad_words_token_ids : gmap Z (list (list Z));
  md_max_num_logprobs : option Z;
  md_logprob_token_ids : gmap Z (list Z);
}.
Definition _make_sampling_metadata (b : InputBatch F) : res SamplingMetadata :=
  let n := num_reqs b in
  let s := sets b in
  let rows := sampling b in
  let needs_prompt := negb (no_penalties s) || existsb id (slice_to (logits_processing_needs_token_ids b) n) in
  prompts ← (if needs_prompt then p ← _make_prompt_token_ids_cpu_tensor b; Ok (Some p) else Ok None);
  mask ← (if bool_decide (has_allowed_token_ids s = ∅) then Ok None
          else match allowed_token_ids_mask b with
               | None => Raise AssertionError
               | Some m => Ok (Some (slice_to m n))
               end);
  Ok (mkSamplingMetadata
        (if bool_decide (random_reqs s = ∅) then None else Some (slice_to (temperature_cpu rows) n))
        (if bool_decide (top_p_reqs s = ∅) then None else Some (slice_to (top_p_cpu rows) n))
        (if bool_decide (top_k_reqs s = ∅) then None else Some (slice_to (top_k_cpu rows) n))
        (if no_penalties s then None
         else Some (slice_to (frequency_penalties_cpu rows) n, slice_to (presence_penalties_cpu rows) n,
                    slice_to (repetition_penalties_cpu rows) n))
        prompts mask (generators rows) (bad_words_token_ids rows)
        (match py_max (map_to_list (num_logprobs s)).*2 with Ok m => Some m | Raise _ => None end)
        (list_to_map (omap (λ e, (λ i, (i, e.2)) <$> req_id_to_index b !! e.1) (map_to_list (logprob_token_ids s))))).

(** [make_lora_inputs]: the adapters of the sampled and of the scheduled tokens. *)
Definition np_repeat (a counts : list Z) : list Z := concat (zip_with (λ x k, py_replicate k x) a counts).
Definition make_lora_inputs (b : InputBatch F) (num_scheduled_tokens num_sampled_tokens : list Z) :
    list Z * list Z * list LoRARequest :=
  let mapping := slice_to (request_lora_mapping (lora b)) (num_reqs b) in
  (np_repeat mapping num_sampled_tokens, np_repeat mapping num_scheduled_tokens,
   (map_to_list (lora_id_to_lora_request (lora b))).*2).
(** [get_pooling_params]. *)
Fixpoint params_of (m : gmap string PoolingParams) (ids : list (option string)) : res (list PoolingParams) :=
  match ids with
  | [] => Ok []
  | id :: ids' =>
      match id ≫= λ i, m !! i with
      | None => Raise KeyError
      | Some p => ps ← params_of m ids'; Ok (p :: ps)
      end
  end.
Definition get_pooling_params (b : InputBatch F) : res (list PoolingParams) :=
  if negb (len (_req_ids b) =? Z.of_nat (size (batch_pooling_params b))) then Raise AssertionError
  else params_of (batch_pooling_params b) (_req_ids b).

(* ===================================================================== *)
(** ** Tokens that were sampled asynchronously                            *)
(* ===================================================================== *)

(** [l.index(x)]. *)
Fixpoint py_index (x : Z) (l : list Z) : res Z :=
  match l with
  | [] => Raise ValueError
  | y :: l' => if y =? x then Ok 0 else i ← py_index x l'; Ok (i + 1)
  end.
(** One request of [update_async_output_token_ids]: the placeholders [-1] at the end
    of its output become the tokens that were sampled, which end with [-1] when fewer
    were accepted. *)
Definition repair_output (out new_ids : list Z) : res (list Z) :=
  if negb (bool_decide (last out = Some (-1))) || bool_decide (new_ids = []) then Ok out
  else
    num_sampled_ids ← (if bool_decide (last new_ids = Some (-1)) then py_index (-1) new_ids else Ok (len new_ids));
    first_placeholder ← py_index (-1) out;
    let num_placeholders := len out - first_placeholder in
    Ok (slice_to out first_placeholder ++ slice_to new_ids (Z.min num_sampled_ids num_placeholders)).
(** The loop over the requests and their rows; [outputs] is the store of the lists. *)
Fixpoint repair_loop (prev : gmap string Z) (sampled : list (list Z)) (rows : list (option string * option Ref)) (outputs : gmap Ref (list Z)) :
    res (gmap Ref (list Z)) :=
  match rows with
  | [] => Ok outputs
  | (Some id, Some ref) :: rows' =>
      match prev !! id with
      | None => repair_loop prev sampled rows' outputs
      | Some prev_index =>
          out ← some_or KeyError (outputs !! ref);
          out' ← (if bool_decide (last out = Some (-1)) then new_ids ← np_get sampled prev_index; repair_output out new_ids else Ok out);
          repair_loop prev sampled rows' (<[ref := out']> outputs)
      end
  | _ :: _ => Raise TypeError
  end.
(** [md_outputs] is the metadata's list of outputs, [None] when it is empty because no
    processor needs them; [sampled] the tensor of the step before. *)
Definition update_async_output_token_ids (b : InputBatch F) (md_outputs : option (list (option Ref))) (sampled : option (list (list Z)))
    (outputs : gmap Ref (list Z)) : res (gmap Ref (list Z)) :=
  match sampled, md_outputs with
  | Some sampled, Some refs =>
      if bool_decide (refs = []) then Ok outputs
      else match prev_req_id_to_index b with
           | None => Raise AssertionError
           | Some prev => repair_loop prev sampled (zip (_req_ids b) refs) outputs
           end
  | _, _ => Ok outputs
  end.
End batch.

Lemma py_index_app x l r : x ∉ l → py_index x (l ++ x :: r) = Ok (len l).
Proof.
  induction l as [|y l IH]; simpl; [by rewrite Z.eqb_refl|]. intros Hx. apply not_elem_of_cons in Hx as [Hxy Hx]. rewrite (proj2 (Z.eqb_neq y x)) by done.
  rewrite IH by done. simpl. f_equal. unfold len. simpl. lia.
Qed.
(** The tokens that were really sampled replace the placeholders, no more of them than
    there were placeholders. *)
Lemma repair_output_spec out k ids m : -1 ∉ out → -1 ∉ ids → (0 < length ids + m)%nat →
  repair_output (out ++ replicate (S k) (-1)) (ids ++ replicate m (-1)) = Ok (out ++ take (S k) ids).
Proof.
  intros Ho Hi Hm. unfold repair_output. rewrite bool_decide_true by (rewrite replicate_S_end, app_assoc; apply last_snoc).
  rewrite bool_decide_false by (intros [-> E]%app_nil; apply (f_equal length) in E; rewrite length_replicate in E; simpl in *; lia). simpl.
  rewrite (py_index_app (-1) out (replicate k (-1))) by done.
  assert (Hn : (if bool_decide (last (ids ++ replicate m (-1)) = Some (-1)) then py_index (-1) (ids ++ replicate m (-1)) else Ok (len (ids ++ replicate m (-1)))) = Ok (len ids)).
  { destruct m as [|m].
    - simpl. rewrite app_nil_r. rewrite bool_decide_false; [done|]. intros (l & ->)%last_Some. set_solver.
    - rewrite bool_decide_true by (rewrite replicate_S_end, app_assoc; apply last_snoc). simpl. by rewrite py_index_app. }
  rewrite Hn. simpl. f_equal. pose proof (len_nonneg out). pose proof (len_nonneg ids). rewrite !slice_to_nonneg by (unfold len; rewrite ?length_app; lia). f_equal.
  - unfold len. rewrite Nat2Z.id. apply take_app_length.
  - rewrite take_app_le; [|unfold len in *; lia]. unfold len. rewrite length_app. simpl. rewrite length_replicate.
    destruct (decide (length ids ≤ S k)%nat); [rewrite !take_ge; [done|lia|lia]|]. f_equal. lia.
Qed.
