(* ===== verification/BatchRows.v ===== *)
(** * Rows of the input batch

    What the arrays of the batch hold for one row, and how adding, moving and
    swapping change the rows, per group of arrays. *)
From S2P Require Import Prelude MathUtils Outcome Request NumPy BlockTable BlockTableInv BatchUpdate LogitsProcs InputBatch.
Local Open Scope Z_scope.

(* ===================================================================== *)
(** ** Single arrays                                                      *)
(* ===================================================================== *)

(** [a'] is [a] with row [i] set to the one given, seen through [v]. *)
Record col_set {A B} (v : A → B) (n i : Z) (x : option B) (a a' : list A) : Prop := {
  cs_len : len a' = n;
  cs_row : v <$> a' !! Z.to_nat i = x;
  cs_other j : 0 ≤ j → j ≠ i → a' !! Z.to_nat j = a !! Z.to_nat j;
}.
Lemma list_set_col {A} (n : Z) (a : list A) i x : len a = n → 0 ≤ i < n →
  ∃ a', list_set a i x = Ok a' ∧ col_set id n i (Some x) a a'.
Proof.
  intros Hn Hi. rewrite list_set_ok by lia. eexists. split; [done|]. split; [by rewrite len_py_set|by rewrite py_set_eq by lia|].
  intros j Hj Hne. apply py_set_ne; lia.
Qed.
Lemma np_move_col {A} (n : Z) (a : list A) src tgt : len a = n → 0 ≤ src < n → 0 ≤ tgt < n →
  ∃ a', np_move a src tgt = Ok a' ∧ col_set id n tgt (a !! Z.to_nat src) a a'.
Proof.
  intros Hn Hs Ht. destruct (np_get_some a src ltac:(lia)) as (x & Hx & Hl). unfold np_move. rewrite Hx, Hl. simpl.
  by apply list_set_col.
Qed.
Lemma np_swap_col {A} (n : Z) (a : list A) i j : len a = n → 0 ≤ i < n → 0 ≤ j < n →
  ∃ a', np_swap a i j = Ok a' ∧ len a' = n ∧ a' !! Z.to_nat i = a !! Z.to_nat j ∧ a' !! Z.to_nat j = a !! Z.to_nat i ∧
    ∀ k, 0 ≤ k → k ≠ i → k ≠ j → a' !! Z.to_nat k = a !! Z.to_nat k.
Proof.
  intros Hn Hi Hj. destruct (np_get_some a i ltac:(lia)) as (x & _ & Hx), (np_get_some a j ltac:(lia)) as (y & _ & Hy).
  rewrite (np_swap_ok a i j x y) by (done || lia). eexists. split; [done|]. rewrite !len_py_set. split; [done|].
  rewrite py_set_eq by (rewrite len_py_set; lia). rewrite Hx, Hy. split_and!; [|done|].
  - destruct (decide (i = j)) as [<-|]; [rewrite py_set_eq by (rewrite len_py_set; lia); congruence|].
    rewrite py_set_ne, py_set_eq by lia. done.
  - intros k Hk H1 H2. by rewrite !py_set_ne by lia.
Qed.

(** Arrays of rows of width [w]. *)
Definition rows_ok {A} (n w : Z) (a : list (list A)) : Prop := len a = n ∧ Forall (λ r, len r = w) a.
Lemma rows_lookup {A} n w (a : list (list A)) i : rows_ok n w a → 0 ≤ i < n → ∃ r, np_get a i = Ok r ∧ a !! Z.to_nat i = Some r ∧ len r = w.
Proof.
  intros [H1 H2] Hi. destruct (np_get_some a i ltac:(lia)) as (r & Hg & Hr). exists r. split_and!; [done|done|].
  by eapply (Forall_lookup_1 _ _ _ _ H2).
Qed.
Lemma rows_set {A} n w (a : list (list A)) i r : rows_ok n w a → 0 ≤ i < n → len r = w →
  list_set a i r = Ok (py_set a i r) ∧ rows_ok n w (py_set a i r).
Proof.
  intros [H1 H2] Hi Hr. split; [apply list_set_ok; lia|]. split; [by rewrite len_py_set|by apply Forall_insert].
Qed.
Lemma np_assign_row_ok {A} n w (a : list (list A)) i lo vals r : rows_ok n w a → 0 ≤ i < n → a !! Z.to_nat i = Some r →
  0 ≤ lo → lo + len vals ≤ w →
  let r' := take (Z.to_nat lo) r ++ vals ++ drop (Z.to_nat (lo + len vals)) r in
  np_assign_row a i lo (lo + len vals) vals = Ok (py_set a i r') ∧ rows_ok n w (py_set a i r') ∧ len r' = w.
Proof.
  intros Ha Hi Hr Hlo Hhi r'. destruct (rows_lookup n w a i Ha Hi) as (r0 & Hg & Hr0 & Hl). assert (r0 = r) as -> by congruence.
  pose proof (len_nonneg vals) as Hv. assert (Hw : len r' = w).
  { unfold r'. rewrite !len_app. unfold len in *. rewrite length_take, length_drop. lia. }
  unfold np_assign_row. rewrite Hg, np_assign_ok by lia. fold r'. destruct (rows_set n w a i r' Ha Hi Hw) as [-> ?]. done.
Qed.
Lemma np_fill_row_ok {A} n w (a : list (list A)) i lo hi x r : rows_ok n w a → 0 ≤ i < n → a !! Z.to_nat i = Some r →
  0 ≤ lo ≤ hi → hi ≤ w →
  let r' := take (Z.to_nat lo) r ++ replicate (Z.to_nat (hi - lo)) x ++ drop (Z.to_nat hi) r in
  np_fill_row a i lo hi x = Ok (py_set a i r') ∧ rows_ok n w (py_set a i r') ∧ len r' = w.
Proof.
  intros Ha Hi Hr Hlo Hhi r'. destruct (rows_lookup n w a i Ha Hi) as (r0 & Hg & Hr0 & Hl). assert (r0 = r) as -> by congruence.
  unfold np_fill_row. rewrite Hg. assert (Hf : np_fill r lo hi x = r') by (apply np_fill_ok; lia).
  assert (Hw : len r' = w) by (rewrite <-Hf, len_np_fill; lia). rewrite Hf. destruct (rows_set n w a i r' Ha Hi Hw) as [-> ?]. done.
Qed.
Lemma slice_to_prefix {A} (r : list A) k : 0 ≤ k ≤ len r → slice_to r k = take (Z.to_nat k) r ∧ len (slice_to r k) = k.
Proof.
  intros Hk. unfold slice_to. rewrite slice_bound_in, Z.min_l by lia. split; [done|]. unfold len in *. rewrite length_take. lia.
Qed.
(** The first [k] entries of a row are moved. *)
Lemma np_move_row_col {A} n w (a : list (list A)) src tgt k : rows_ok n w a → 0 ≤ src < n → 0 ≤ tgt < n → 0 ≤ k ≤ w →
  ∃ a', np_move_row a src tgt k = Ok a' ∧ rows_ok n w a' ∧
    col_set (take (Z.to_nat k)) n tgt (take (Z.to_nat k) <$> a !! Z.to_nat src) a a'.
Proof.
  intros Ha Hs Ht Hk. destruct (rows_lookup n w a src Ha Hs) as (r & Hg & Hr & Hl).
  destruct (rows_lookup n w a tgt Ha Ht) as (r2 & _ & Hr2 & Hl2). unfold np_move_row. rewrite Hg. simpl.
  destruct (slice_to_prefix r k) as [Hsl Hlen]; [lia|].
  destruct (np_assign_row_ok n w a tgt 0 (slice_to r k) r2 Ha Ht Hr2 ltac:(lia) ltac:(lia)) as (H1 & H2 & _).
  rewrite Hlen, Z.add_0_l in H1, H2. eexists. split; [done|]. split; [done|]. destruct H2 as [H2 _]. split; [done| |].
  - destruct Ha as [Hn _]. rewrite py_set_eq, Hr by lia. simpl. f_equal. rewrite Hsl. apply take_app_length'. rewrite length_take. unfold len in *. lia.
  - intros j Hj Hne. apply py_set_ne; lia.
Qed.
Lemma take_prefix {A} k m (r r' : list A) : 0 ≤ k ≤ m → take (Z.to_nat m) r = take (Z.to_nat m) r' → take (Z.to_nat k) r = take (Z.to_nat k) r'.
Proof.
  intros Hk Heq. apply (f_equal (take (Z.to_nat k))) in Heq. by rewrite !take_take, !Nat.min_l in Heq by lia.
Qed.
Lemma np_swap_rows_col {A} n w (a : list (list A)) i1 i2 m : rows_ok n w a → 0 ≤ i1 < n → 0 ≤ i2 < n → 0 ≤ m ≤ w →
  ∃ a', np_swap_rows a i1 i2 m = Ok a' ∧ rows_ok n w a' ∧
    (∀ k, 0 ≤ k ≤ m → take (Z.to_nat k) <$> a' !! Z.to_nat i1 = take (Z.to_nat k) <$> a !! Z.to_nat i2 ∧
                      take (Z.to_nat k) <$> a' !! Z.to_nat i2 = take (Z.to_nat k) <$> a !! Z.to_nat i1) ∧
    ∀ j, 0 ≤ j → j ≠ i1 → j ≠ i2 → a' !! Z.to_nat j = a !! Z.to_nat j.
Proof.
  intros Ha H1 H2 Hm. destruct (rows_lookup n w a i1 Ha H1) as (r1 & Hg1 & Hr1 & Hl1).
  destruct (np_move_row_col n w a i2 i1 m Ha H2 H1 Hm) as (a1 & Hmv & Ha1 & [C1 C2 C3]). unfold np_swap_rows. rewrite Hg1. simpl. rewrite Hmv. simpl.
  destruct (rows_lookup n w a1 i2 Ha1 H2) as (r2 & _ & Hr2 & Hl2). destruct (slice_to_prefix r1 m) as [Hsl Hlen]; [lia|].
  destruct (np_assign_row_ok n w a1 i2 0 (slice_to r1 m) r2 Ha1 H2 Hr2 ltac:(lia) ltac:(lia)) as (E1 & E2 & _).
  rewrite Hlen, Z.add_0_l in E1, E2. eexists. split; [done|]. split; [done|]. simpl.
  destruct (rows_lookup n w a i2 Ha H2) as (s2 & _ & Hs2 & _). rewrite Hs2 in C2. simpl in C2. pose proof (proj1 Ha1) as Hn1. split.
  - intros k Hk. rewrite py_set_eq by lia. rewrite Hr1, Hs2, Hsl. simpl. rewrite take_app_le, take_take by (rewrite length_take; unfold len in *; lia).
    rewrite Nat.min_l by lia. split; [|done]. destruct (decide (i1 = i2)) as [<-|Hne].
    + rewrite py_set_eq by lia. simpl. rewrite take_app_le, take_take, Nat.min_l by (rewrite ?length_take; unfold len in *; lia). congruence.
    + rewrite py_set_ne by lia. destruct (a1 !! Z.to_nat i1) as [x|] eqn:Ex; [|done]. simpl in C2 |- *. injection C2 as C2.
      f_equal. by apply (take_prefix k m).
  - intros j Hj N1 N2. rewrite py_set_ne by lia. by apply C3.
Qed.

(* ===================================================================== *)
(** ** Tokens                                                             *)
(* ===================================================================== *)

Record tokens_shape (n w : Z) (t : TokenRows) : Prop := {
  ts_ids : rows_ok n w (token_ids_cpu t);
  ts_is : rows_ok n w (is_token_ids t);
  ts_no_spec : len (num_tokens_no_spec t) = n;
  ts_prompt : len (num_prompt_tokens t) = n;
  ts_computed : len (num_computed_tokens_cpu t) = n;
}.
(** The counts of a row, and its first [k] tokens. *)
Definition tok_row (t : TokenRows) (k i : Z) : option Z * option Z * option Z * option (list Z) * option (list bool) :=
  (num_tokens_no_spec t !! Z.to_nat i, num_prompt_tokens t !! Z.to_nat i, num_computed_tokens_cpu t !! Z.to_nat i,
   take (Z.to_nat k) <$> token_ids_cpu t !! Z.to_nat i, take (Z.to_nat k) <$> is_token_ids t !! Z.to_nat i).

Lemma tokens_move_spec n w t src tgt k : tokens_shape n w t → 0 ≤ src < n → 0 ≤ tgt < n → 0 ≤ k ≤ w →
  ∃ t', tokens_move src tgt k t = Ok t' ∧ tokens_shape n w t' ∧ tok_row t' k tgt = tok_row t k src ∧
    ∀ k' j, 0 ≤ j → j ≠ tgt → tok_row t' k' j = tok_row t k' j.
Proof.
  intros [H1 H2 H3 H4 H5] Hs Ht Hk. unfold tokens_move.
  destruct (np_move_row_col n w _ src tgt k H1 Hs Ht Hk) as (a1 & -> & A1 & [A2 A3 A4]).
  destruct (np_move_row_col n w _ src tgt k H2 Hs Ht Hk) as (a2 & -> & B1 & [B2 B3 B4]).
  destruct (np_move_col n _ src tgt H3 Hs Ht) as (a3 & -> & [C2 C3 C4]). destruct (np_move_col n _ src tgt H4 Hs Ht) as (a4 & -> & [D2 D3 D4]).
  destruct (np_move_col n _ src tgt H5 Hs Ht) as (a5 & -> & [E2 E3 E4]). simpl. rewrite ?option_fmap_id in *.
  eexists. split; [done|]. split; [by split|]. unfold tok_row. simpl. split; [by rewrite A3, B3, C3, D3, E3|].
  intros k' j Hj Hne. by rewrite A4, B4, C4, D4, E4.
Qed.
Lemma tokens_swap_spec n w t i1 i2 m : tokens_shape n w t → 0 ≤ i1 < n → 0 ≤ i2 < n → 0 ≤ m ≤ w →
  ∃ t', tokens_swap i1 i2 m t = Ok t' ∧ tokens_shape n w t' ∧
    (∀ k, 0 ≤ k ≤ m → tok_row t' k i1 = tok_row t k i2 ∧ tok_row t' k i2 = tok_row t k i1) ∧
    ∀ k j, 0 ≤ j → j ≠ i1 → j ≠ i2 → tok_row t' k j = tok_row t k j.
Proof.
  intros [H1 H2 H3 H4 H5] Hi Hj Hm. unfold tokens_swap.
  destruct (np_swap_col n _ i1 i2 H3 Hi Hj) as (a3 & -> & C1 & C2 & C3 & C4). destruct (np_swap_col n _ i1 i2 H4 Hi Hj) as (a4 & -> & D1 & D2 & D3 & D4).
  destruct (np_swap_col n _ i1 i2 H5 Hi Hj) as (a5 & -> & E1 & E2 & E3 & E4). simpl.
  destruct (np_swap_rows_col n w _ i1 i2 m H1 Hi Hj Hm) as (a1 & -> & A1 & A2 & A3).
  destruct (np_swap_rows_col n w _ i1 i2 m H2 Hi Hj Hm) as (a2 & -> & B1 & B2 & B3). simpl.
  eexists. split; [done|]. split; [by split|]. unfold tok_row. simpl. split.
  - intros k Hk. destruct (A2 k Hk) as [-> ->], (B2 k Hk) as [-> ->]. by rewrite C2, C3, D2, D3, E2, E3.
  - intros k j Hj0 N1 N2. by rewrite A3, B3, C4, D4, E4.
Qed.
(** The token mask of a request's prompt. *)
Definition prompt_mask {F} (r : CachedRequestState F) (num_prompt : Z) : list bool :=
  match prompt_token_ids r, prompt_is_token_ids r with
  | Some _, Some mask => mask
  | Some _, None => replicate (Z.to_nat num_prompt) true
  | None, _ => replicate (Z.to_nat num_prompt) false
  end.
Lemma overwrite_prefix {A} (r p o : list A) (a b : nat) : length p = a → length o = b → (a + b ≤ length r)%nat →
  take (a + b) (take a (p ++ drop a r) ++ o ++ drop (a + b) (p ++ drop a r)) = p ++ o.
Proof.
  intros Ha Hb Hl. rewrite (take_app_length' p) by done. rewrite app_assoc. apply take_app_length'. rewrite length_app. lia.
Qed.
(** Writing the first [a] cells of a row and then the next ones. *)
Lemma write_prompt_output {A} n w (rows : list (list A)) i (p o : list A) :
  rows_ok n w rows → 0 ≤ i < n → len p + len o ≤ w →
  ∃ rows1 rows2, np_assign_row rows i 0 (len p) p = Ok rows1 ∧ np_assign_row rows1 i (len p) (len p + len o) o = Ok rows2 ∧
    rows_ok n w rows1 ∧ rows_ok n w rows2 ∧ (take (Z.to_nat (len p + len o)) <$> rows2 !! Z.to_nat i = Some (p ++ o)) ∧
    ∀ j, 0 ≤ j → j ≠ i → rows2 !! Z.to_nat j = rows !! Z.to_nat j.
Proof.
  intros Hr Hi Hw. pose proof (len_nonneg p) as Hp. pose proof (len_nonneg o) as Ho.
  destruct (rows_lookup n w rows i Hr Hi) as (r & _ & Hl & Hrl).
  destruct (np_assign_row_ok n w rows i 0 p r Hr Hi Hl ltac:(lia) ltac:(lia)) as (E1 & E2 & E3). rewrite Z.add_0_l in *. simpl in *.
  set (r1 := p ++ drop _ r) in *. set (rows1 := py_set rows i r1) in *. pose proof (proj1 Hr) as Hn.
  assert (Hl1 : rows1 !! Z.to_nat i = Some r1) by (apply py_set_eq; lia).
  destruct (np_assign_row_ok n w rows1 i (len p) o r1 E2 Hi Hl1 ltac:(lia) Hw) as (G1 & G2 & G3).
  eexists _, _. split; [done|]. split; [done|]. split; [done|]. split; [done|]. split.
  - rewrite py_set_eq by (rewrite (proj1 E2); lia). simpl. f_equal. unfold r1, len in *.
    replace (Z.to_nat (Z.of_nat (length p) + Z.of_nat (length o))) with (length p + length o)%nat by lia. rewrite !Nat2Z.id.
    apply overwrite_prefix; lia.
  - intros j Hj Hne. unfold rows1. by rewrite !py_set_ne by lia.
Qed.
Lemma np_fill_row_assign {A} n w (rows : list (list A)) i lo k x : rows_ok n w rows → 0 ≤ i < n → 0 ≤ lo → 0 ≤ k → lo + k ≤ w →
  np_fill_row rows i lo (lo + k) x = np_assign_row rows i lo (lo + k) (replicate (Z.to_nat k) x).
Proof.
  intros Hr Hi Hlo Hk Hw. destruct (rows_lookup n w rows i Hr Hi) as (r & _ & Hl & Hrl).
  destruct (np_fill_row_ok n w rows i lo (lo + k) x r Hr Hi Hl ltac:(lia) ltac:(lia)) as (-> & _).
  pose proof (len_replicate (Z.to_nat k) x) as Hlr. rewrite Z2Nat.id in Hlr by lia.
  destruct (np_assign_row_ok n w rows i lo (replicate (Z.to_nat k) x) r Hr Hi Hl ltac:(lia) ltac:(lia)) as (E & _). rewrite Hlr in E. rewrite E.
  do 6 f_equal. lia.
Qed.
Lemma tokens_add_spec {F} n w (r : CachedRequestState F) i num_prompt t : tokens_shape n w t → 0 ≤ i < n →
  0 ≤ num_prompt → num_prompt + len (output_token_ids r) ≤ w →
  (∀ p, prompt_token_ids r = Some p → len p = num_prompt) → len (prompt_mask r num_prompt) = num_prompt →
  let k := num_prompt + len (output_token_ids r) in
  ∃ t' ids, tokens_add r i num_prompt t = Ok t' ∧ tokens_shape n w t' ∧
    tok_row t' k i = (Some k, Some num_prompt, Some (num_computed_tokens r), Some (ids ++ output_token_ids r),
                      Some (prompt_mask r num_prompt ++ replicate (length (output_token_ids r)) true)) ∧
    len ids = num_prompt ∧ (∀ p, prompt_token_ids r = Some p → ids = p) ∧
    ∀ k' j, 0 ≤ j → j ≠ i → tok_row t' k' j = tok_row t k' j.
Proof.
  intros [H1 H2 H3 H4 H5] Hi Hnp Hw Hprompt Hmask k. pose proof (len_nonneg (output_token_ids r)) as Hlo.
  set (o := output_token_ids r) in *. set (m := prompt_mask r num_prompt) in *.
  destruct (rows_lookup n w _ i H1 Hi) as (row & _ & Hl & Hrl).
  set (ids := match prompt_token_ids r with Some p => p | None => take (Z.to_nat num_prompt) row end).
  assert (Hids : len ids = num_prompt).
  { unfold ids. destruct (prompt_token_ids r); [by apply Hprompt|]. unfold len in *. rewrite length_take. lia. }
  destruct (write_prompt_output n w _ i ids o H1 Hi ltac:(lia)) as (a1 & a2 & A1 & A2 & A3 & A4 & A5 & A6).
  destruct (write_prompt_output n w _ i m (replicate (length o) true) H2 Hi) as (b1 & b2 & B1 & B2 & B3 & B4 & B5 & B6).
  { rewrite len_replicate. unfold len in *. lia. }
  rewrite Hids in *. rewrite Hmask, len_replicate in *. fold (len o) in *.
  assert (Hids1 : ∃ a1', (match prompt_token_ids r with
      | Some prompt => np_assign_row (token_ids_cpu t) i 0 num_prompt prompt | None => Ok (token_ids_cpu t) end) = Ok a1' ∧
      np_assign_row a1' i num_prompt k o = Ok a2).
  { destruct (prompt_token_ids r) as [p|] eqn:Ep; [by exists a1|]. exists (token_ids_cpu t). split; [done|]. rewrite <-A2. f_equal.
    destruct (np_assign_row_ok n w _ i 0 ids row H1 Hi Hl ltac:(lia) ltac:(lia)) as (E1 & _). rewrite Z.add_0_l, Hids in E1. rewrite E1 in A1. injection A1 as <-.
    unfold ids at 1. simpl. rewrite take_drop. unfold py_set. by rewrite list_insert_id. }
  destruct Hids1 as (a1' & Ha1' & Ha2).
  assert (His1 : (match prompt_token_ids r with
      | Some _ => match prompt_is_token_ids r with
                  | Some mask => np_assign_row (is_token_ids t) i 0 num_prompt mask
                  | None => np_fill_row (is_token_ids t) i 0 num_prompt true end
      | None => np_fill_row (is_token_ids t) i 0 num_prompt false end) = Ok b1).
  { rewrite <-B1. unfold m, prompt_mask. assert (Hfill : ∀ x, np_fill_row (is_token_ids t) i 0 num_prompt x =
      np_assign_row (is_token_ids t) i 0 num_prompt (replicate (Z.to_nat num_prompt) x)).
    { intros x. apply (np_fill_row_assign n w (is_token_ids t) i 0 num_prompt x); (done || lia). }
    destruct (prompt_token_ids r), (prompt_is_token_ids r); rewrite ?Hfill; done. }
  destruct (list_set_col n _ i k H3 Hi) as (c & C1 & [C2 C3 C4]). destruct (list_set_col n _ i num_prompt H4 Hi) as (d & D1 & [D2 D3 D4]).
  destruct (list_set_col n _ i (num_computed_tokens r) H5 Hi) as (e & E1 & [E2 E3 E4]). rewrite ?option_fmap_id in *.
  assert (Hfill2 : np_fill_row b1 i num_prompt k true = Ok b2).
  { unfold k. rewrite (np_fill_row_assign n w b1 i num_prompt (len o) true) by (done || lia). rewrite <-B2. do 2 f_equal. unfold len. lia. }
  exists (mkTokenRows a2 b2 c d e), ids. split.
  { unfold tokens_add. rewrite D1. simpl. fold o. fold k.

    destruct (prompt_token_ids r) as [p|]; simpl in *.
    - rewrite Ha1'. simpl. rewrite His1. simpl. rewrite Ha2. simpl.
      rewrite Hfill2. simpl. by rewrite C1, E1.
    - injection Ha1' as <-. rewrite His1. simpl. rewrite Ha2. simpl.
      rewrite Hfill2. simpl. by rewrite C1, E1. }
  split; [by split|]. split; [|split; [done|split]].
  - unfold tok_row. simpl. rewrite C3, D3, E3. fold k in A5, B5. by rewrite A5, B5.
  - intros p Hp. unfold ids. by rewrite Hp.
  - intros k' j Hj Hne. unfold tok_row. simpl. by rewrite A6, B6, C4, D4, E4.
Qed.

(* ===================================================================== *)
(** ** Sampling parameters                                                *)
(* ===================================================================== *)

Lemma move_key_other {V} src tgt j (m : gmap Z V) : j ≠ src → j ≠ tgt → move_key src tgt m !! j = m !! j.
Proof. intros. unfold move_key. destruct (m !! src); by rewrite ?lookup_insert_ne, ?lookup_delete_ne by done. Qed.
Lemma move_key_tgt {V} src tgt (m : gmap Z V) : m !! tgt = None → src ≠ tgt → move_key src tgt m !! tgt = m !! src.
Proof.
  intros Ht Hne. unfold move_key. destruct (m !! src); [apply lookup_insert_eq|]. by rewrite lookup_delete_ne.
Qed.
Lemma swap_dict_values_lookup {V} (m : gmap Z V) i1 i2 : swap_dict_values m i1 i2 !! i1 = m !! i2 ∧ swap_dict_values m i1 i2 !! i2 = m !! i1 ∧
  ∀ j, j ≠ i1 → j ≠ i2 → swap_dict_values m i1 i2 !! j = m !! j.
Proof.
  unfold swap_dict_values. destruct (m !! i1) eqn:E1, (m !! i2) eqn:E2; destruct (decide (i1 = i2)) as [<-|Hne]; try congruence;
    (split_and!; [..|intros j N1 N2]); by simplify_map_eq.
Qed.

Section rows.
Context {F : Type} `{!PyFloat F}.

Record sampling_shape (n : Z) (s : SamplingRows F) : Prop := {
  ss_temp : len (temperature_cpu s) = n;
  ss_top_p : len (top_p_cpu s) = n;
  ss_top_k : len (top_k_cpu s) = n;
  ss_freq : len (frequency_penalties_cpu s) = n;
  ss_pres : len (presence_penalties_cpu s) = n;
  ss_rep : len (repetition_penalties_cpu s) = n;
  ss_acc : len (num_accepted_tokens_cpu s) = n;
}.
Record SampRow := mkSampRow {
  sr_temperature : option F;
  sr_top_p : option F;
  sr_top_k : option Z;
  sr_frequency : option F;
  sr_presence : option F;
  sr_repetition : option F;
  sr_accepted : option Z;
  sr_generator : option Z;
  sr_bad_words : option (list (list Z));
}.
Definition samp_row (s : SamplingRows F) (i : Z) : SampRow :=
  mkSampRow (temperature_cpu s !! Z.to_nat i) (top_p_cpu s !! Z.to_nat i) (top_k_cpu s !! Z.to_nat i)
    (frequency_penalties_cpu s !! Z.to_nat i) (presence_penalties_cpu s !! Z.to_nat i) (repetition_penalties_cpu s !! Z.to_nat i)
    (num_accepted_tokens_cpu s !! Z.to_nat i) (generators s !! i) (bad_words_token_ids s !! i).
(** No generator and no bad words are kept for the row. *)
Definition samp_empty (s : SamplingRows F) (i : Z) : Prop := generators s !! i = None ∧ bad_words_token_ids s !! i = None.

(** The row of a request's parameters. *)
Definition params_row (vocab : Z) (p : SamplingParams F) (gen : option Z) : SampRow :=
  mkSampRow (Some (if is_greedy p then float_zero else temperature p)) (Some (top_p p)) (Some (stored_top_k vocab p))
    (Some (frequency_penalty p)) (Some (presence_penalty p)) (Some (repetition_penalty p)) (Some 1) gen
    (match sp_bad_words_token_ids p with Some (w :: ws) => Some (w :: ws) | _ => None end).

Lemma sampling_add_spec n vocab i p gen s : sampling_shape n s → 0 ≤ i < n → samp_empty s i →
  ∃ s1 s', sampling_add vocab i p gen s = Ok s1 ∧ set_accepted i 1 s1 = Ok s' ∧ sampling_shape n s' ∧
    samp_row s' i = params_row vocab p gen ∧
    (∀ j, 0 ≤ j → j ≠ i → samp_row s' j = samp_row s j).
Proof.
  intros [H1 H2 H3 H4 H5 H6 H7] Hi [Hg Hb]. unfold sampling_add.
  destruct (list_set_col n _ i (if is_greedy p then float_zero else temperature p) H1 Hi) as (a1 & -> & [A1 A2 A3]).
  destruct (list_set_col n _ i (top_p p) H2 Hi) as (a2 & -> & [B1 B2 B3]).
  destruct (list_set_col n _ i (stored_top_k vocab p) H3 Hi) as (a3 & -> & [C1 C2 C3]).
  destruct (list_set_col n _ i (frequency_penalty p) H4 Hi) as (a4 & -> & [D1 D2 D3]).
  destruct (list_set_col n _ i (presence_penalty p) H5 Hi) as (a5 & -> & [E1 E2 E3]).
  destruct (list_set_col n _ i (repetition_penalty p) H6 Hi) as (a6 & -> & [G1 G2 G3]).
  destruct (list_set_col n _ i 1 H7 Hi) as (a7 & K0 & [K1 K2 K3]). rewrite ?option_fmap_id in *.
  eexists _, _. split; [reflexivity|]. unfold set_accepted. simpl. rewrite K0. simpl. split; [reflexivity|]. split; [by split|]. split.
  - unfold samp_row, params_row. simpl. f_equal; try done.
    + destruct gen; [apply lookup_insert_eq|done].
    + destruct (sp_bad_words_token_ids p) as [[|x l]|]; [done|apply lookup_insert_eq|done].
  - intros j Hj Hne. unfold samp_row. simpl. rewrite A3, B3, C3, D3, E3, G3, K3 by done. f_equal.
    + destruct gen; [by apply lookup_insert_ne|done].
    + destruct (sp_bad_words_token_ids p) as [[|x l]|]; [done|by apply lookup_insert_ne|done].
Qed.
(** A pooling request: only the accepted tokens are written. *)
Lemma set_accepted_spec n i s : sampling_shape n s → 0 ≤ i < n → ∃ s', set_accepted i 1 s = Ok s' ∧ sampling_shape n s'.
Proof.
  intros [H1 H2 H3 H4 H5 H6 H7] Hi. unfold set_accepted. destruct (list_set_col n _ i 1 H7 Hi) as (a & -> & [A1 A2 A3]).
  eexists. split; [reflexivity|]. by split.
Qed.
Lemma sampling_move_spec n src tgt s : sampling_shape n s → 0 ≤ src < n → 0 ≤ tgt < n → src ≠ tgt → samp_empty s tgt →
  ∃ s', sampling_move src tgt s = Ok s' ∧ sampling_shape n s' ∧ samp_row s' tgt = samp_row s src ∧ samp_empty s' src ∧
    ∀ j, 0 ≤ j → j ≠ src → j ≠ tgt → samp_row s' j = samp_row s j.
Proof.
  intros [H1 H2 H3 H4 H5 H6 H7] Hs Ht Hne [Hg Hb]. unfold sampling_move.
  destruct (np_move_col n _ src tgt H1 Hs Ht) as (a1 & -> & [A1 A2 A3]). destruct (np_move_col n _ src tgt H2 Hs Ht) as (a2 & -> & [B1 B2 B3]).
  destruct (np_move_col n _ src tgt H3 Hs Ht) as (a3 & -> & [C1 C2 C3]). destruct (np_move_col n _ src tgt H4 Hs Ht) as (a4 & -> & [D1 D2 D3]).
  destruct (np_move_col n _ src tgt H5 Hs Ht) as (a5 & -> & [E1 E2 E3]). destruct (np_move_col n _ src tgt H6 Hs Ht) as (a6 & -> & [G1 G2 G3]).
  destruct (np_move_col n _ src tgt H7 Hs Ht) as (a7 & -> & [K1 K2 K3]). rewrite ?option_fmap_id in *. simpl.
  eexists. split; [reflexivity|]. split; [by split|]. split; [|split].
  - unfold samp_row. simpl. by rewrite A2, B2, C2, D2, E2, G2, K2, !move_key_tgt.
  - split; simpl; unfold move_key; [destruct (generators s !! src)|destruct (bad_words_token_ids s !! src)];
      rewrite ?lookup_insert_ne by done; apply lookup_delete_eq.
  - intros j Hj N1 N2. unfold samp_row. simpl. by rewrite A3, B3, C3, D3, E3, G3, K3, !move_key_other.
Qed.
Lemma sampling_swap_spec n i1 i2 s : sampling_shape n s → 0 ≤ i1 < n → 0 ≤ i2 < n →
  ∃ s', sampling_swap i1 i2 s = Ok s' ∧ sampling_shape n s' ∧ samp_row s' i1 = samp_row s i2 ∧ samp_row s' i2 = samp_row s i1 ∧
    ∀ j, 0 ≤ j → j ≠ i1 → j ≠ i2 → samp_row s' j = samp_row s j.
Proof.
  intros [H1 H2 H3 H4 H5 H6 H7] Hs Ht. unfold sampling_swap.
  destruct (np_swap_col n _ i1 i2 H1 Hs Ht) as (a1 & -> & A0 & A1 & A2 & A3). destruct (np_swap_col n _ i1 i2 H2 Hs Ht) as (a2 & -> & B0 & B1 & B2 & B3).
  destruct (np_swap_col n _ i1 i2 H3 Hs Ht) as (a3 & -> & C0 & C1 & C2 & C3). destruct (np_swap_col n _ i1 i2 H4 Hs Ht) as (a4 & -> & D0 & D1 & D2 & D3).
  destruct (np_swap_col n _ i1 i2 H5 Hs Ht) as (a5 & -> & E0 & E1 & E2 & E3). destruct (np_swap_col n _ i1 i2 H6 Hs Ht) as (a6 & -> & G0 & G1 & G2 & G3).
  destruct (np_swap_col n _ i1 i2 H7 Hs Ht) as (a7 & -> & K0 & K1 & K2 & K3). simpl.
  destruct (swap_dict_values_lookup (generators s) i1 i2) as (L1 & L2 & L3).
  destruct (swap_dict_values_lookup (bad_words_token_ids s) i1 i2) as (M1 & M2 & M3).
  eexists. split; [reflexivity|]. split; [by split|]. unfold samp_row. simpl. split_and!.
  - by rewrite A1, B1, C1, D1, E1, G1, K1, L1, M1.
  - by rewrite A2, B2, C2, D2, E2, G2, K2, L2, M2.
  - intros j Hj N1 N2. by rewrite A3, B3, C3, D3, E3, G3, K3, L3, M3.
Qed.
End rows.

(* ===================================================================== *)
(** ** Block tables of all groups                                         *)
(* ===================================================================== *)

Definition blocks_at (ts : list BlockTable) (i : Z) : list (list Z) := (λ t, row_blocks t i) <$> ts.
Lemma each_table_spec (P : BlockTable → Prop) (R : Z → BlockTable → BlockTable → Prop) f ts k : Forall P ts →
  (∀ i t, k ≤ i < k + len ts → P t → ts !! Z.to_nat (i - k) = Some t → ∃ t', f i t = (Ok tt, t') ∧ R i t t') →
  ∃ ts', each_from f k ts = (Ok tt, ts') ∧ length ts' = length ts ∧
    ∀ j t', ts' !! j = Some t' → ∃ t, ts !! j = Some t ∧ R (k + Z.of_nat j) t t'.
Proof.
  revert k. induction ts as [|t ts IH]; intros k HP Hf; simpl; [by exists []|]. apply Forall_cons in HP as [HPt HP].
  destruct (Hf k t) as (t' & -> & HR); [rewrite len_cons; pose proof (len_nonneg ts); lia|done|by rewrite Z.sub_diag|].
  destruct (IH (k + 1) HP) as (ts' & -> & Hl & Hall).
  { intros i u Hi Hu Hlk. apply Hf; [rewrite len_cons; lia|done|]. by replace (Z.to_nat (i - k)) with (S (Z.to_nat (i - (k + 1)))) by lia. }
  exists (t' :: ts'). split; [done|]. simpl. split; [by rewrite Hl|]. intros [|j] u; simpl.
  - intros [= ->]. exists t. split; [done|]. by rewrite Z.add_0_r.
  - intros Hu. destruct (Hall j u Hu) as (v & Hv & HRv). exists v. split; [done|]. by replace (k + Z.of_nat (S j)) with (k + 1 + Z.of_nat j) by lia.
Qed.
Definition tables_ok (n : Z) (ts : list BlockTable) : Prop := Forall (table_ok n) ts.
(** The tables of all groups differ in their rows only. *)
Definition same_tables (ts ts' : list BlockTable) : Prop := Forall2 same_table ts ts'.
Lemma same_table_ids t t' ids : same_table t t' → kernel_ids t' ids = kernel_ids t ids ∧ max_num_blocks_per_req t' = max_num_blocks_per_req t.
Proof. unfold same_table. intros ->. by destruct t. Qed.
Lemma same_table_trans t1 t2 t3 : same_table t1 t2 → same_table t2 t3 → same_table t1 t3.
Proof. unfold same_table. destruct t1, t2, t3. unfold setter. simpl. intros [= -> -> -> -> -> -> -> -> ->] [= -> -> -> -> -> -> -> -> ->]. done. Qed.

(** An operation that sets row [i] of every table. *)
Lemma tables_row_set n i ts f k (bs : Z → BlockTable → list Z) : tables_ok n ts → 0 ≤ i →
  (∀ j t, table_ok n t → ts !! Z.to_nat (j - k) = Some t → k ≤ j → ∃ t', f j t = (Ok tt, t') ∧ row_set n i (bs j t) t t') →
  ∃ ts', each_from f k ts = (Ok tt, ts') ∧ tables_ok n ts' ∧ same_tables ts ts' ∧
    blocks_at ts' i = imap (λ j t, bs (k + Z.of_nat j) t) ts ∧ ∀ j, 0 ≤ j → j ≠ i → blocks_at ts' j = blocks_at ts j.
Proof.
  intros Hok Hi Hf. destruct (each_table_spec (table_ok n) (λ j t t', row_set n i (bs j t) t t') f ts k Hok) as (ts' & He & Hl & Hall).
  { intros j t Hj Ht Hlk. apply (Hf j t Ht Hlk). lia. }
  assert (Hpair : ∀ j t, ts !! j = Some t → ∃ t', ts' !! j = Some t' ∧ row_set n i (bs (k + Z.of_nat j) t) t t').
  { intros j t Hj. destruct (lookup_lt_is_Some_2 ts' j) as [t' Ht']; [rewrite Hl; by eapply lookup_lt_Some|].
    destruct (Hall j t' Ht') as (t0 & Ht0 & HR). assert (t0 = t) as -> by congruence. by exists t'. }
  exists ts'. split; [done|]. split; [|split; [|split]].
  - apply Forall_lookup. intros j t' Hj. by destruct (Hall j t' Hj) as (t & _ & [? _ _ _]).
  - apply Forall2_same_length_lookup_2; [done|]. intros j t t' Hj Hj'. destruct (Hall j t' Hj') as (t0 & Ht0 & [_ ? _ _]).
    by assert (t0 = t) as -> by congruence.
  - apply list_eq. intros j. unfold blocks_at. rewrite list_lookup_fmap, list_lookup_imap. destruct (ts !! j) as [t|] eqn:Ej.
    + destruct (Hpair j t Ej) as (t' & -> & [_ _ Hr _]). simpl. by rewrite Hr.
    + rewrite lookup_ge_None_2; [done|]. rewrite Hl. by apply lookup_ge_None_1.
  - intros j Hj Hne. apply list_eq. intros x. unfold blocks_at. rewrite !list_lookup_fmap. destruct (ts !! x) as [t|] eqn:Ej.
    + destruct (Hpair x t Ej) as (t' & -> & [_ _ _ Hr]). simpl. by rewrite Hr.
    + rewrite lookup_ge_None_2; [done|]. rewrite Hl. by apply lookup_ge_None_1.
Qed.
(** The block ids of a request fit the tables. *)
Definition blocks_fit (ts : list BlockTable) (ids : list (list Z)) : Prop :=
  ∀ j t, ts !! j = Some t → ∃ l, ids !! j = Some l ∧ len (kernel_ids t l) ≤ max_num_blocks_per_req t.
Definition kernel_blocks (ts : list BlockTable) (ids : list (list Z)) : list (list Z) := zip_with kernel_ids ts ids.
Lemma multi_add_row_spec n ts ids i : tables_ok n ts → 0 ≤ i < n → blocks_fit ts ids →
  ∃ ts', multi_add_row ids i ts = (Ok tt, ts') ∧ tables_ok n ts' ∧ same_tables ts ts' ∧ blocks_at ts' i = kernel_blocks ts ids ∧
    ∀ j, 0 ≤ j → j ≠ i → blocks_at ts' j = blocks_at ts j.
Proof.
  intros Hok Hi Hfit. destruct (tables_row_set n i ts (λ j, ids0 <- block_ids_at ids j ;; add_row ids0 i) 0
    (λ j t, kernel_ids t (default [] (ids !! Z.to_nat j))) Hok ltac:(lia)) as (ts' & H1 & H2 & H3 & H4 & H5).
  - intros j t Ht Hlk Hj. rewrite Z.sub_0_r in Hlk. destruct (Hfit _ t Hlk) as (l & Hl & Hf).
    unfold block_ids_at. rewrite run_of_option, py_nth_nonneg, Hl by done. simpl. apply add_row_spec; done.
  - exists ts'. split_and!; try done. rewrite H4. unfold kernel_blocks. clear -Hfit. apply list_eq. intros j.
    rewrite list_lookup_imap, lookup_zip_with. destruct (ts !! j) as [t|] eqn:Ej; [|done]. simpl.
    destruct (Hfit j t Ej) as (l & Hl & _). rewrite Hl. simpl. do 2 f_equal. replace (Z.to_nat (0 + Z.of_nat j)) with j by lia. by rewrite Hl.
Qed.
Lemma multi_clear_row_spec n ts i : tables_ok n ts → 0 ≤ i < n →
  ∃ ts', multi_clear_row i ts = (Ok tt, ts') ∧ tables_ok n ts' ∧ same_tables ts ts' ∧ ∀ j, 0 ≤ j → j ≠ i → blocks_at ts' j = blocks_at ts j.
Proof.
  intros Hok Hi. destruct (tables_row_set n i ts (λ _, clear_row i) 0 (λ _ _, []) Hok ltac:(lia)) as (ts' & H1 & H2 & H3 & _ & H5); [|by exists ts'].
  intros j t Ht _ _. by apply clear_row_spec.
Qed.
Lemma multi_move_row_spec n ts src tgt : tables_ok n ts → 0 ≤ src < n → 0 ≤ tgt < n →
  ∃ ts', multi_move_row src tgt ts = (Ok tt, ts') ∧ tables_ok n ts' ∧ same_tables ts ts' ∧ blocks_at ts' tgt = blocks_at ts src ∧
    ∀ j, 0 ≤ j → j ≠ tgt → blocks_at ts' j = blocks_at ts j.
Proof.
  intros Hok Hs Ht. destruct (tables_row_set n tgt ts (λ _, move_row src tgt) 0 (λ _ t, row_blocks t src) Hok ltac:(lia)) as (ts' & H1 & H2 & H3 & H4 & H5).
  - intros j t Htt _ _. by apply move_row_spec.
  - exists ts'. split_and!; try done. rewrite H4. unfold blocks_at. clear. apply list_eq. intros j. rewrite list_lookup_imap, list_lookup_fmap. done.
Qed.
Lemma multi_swap_row_spec n ts i j : tables_ok n ts → 0 ≤ i < n → 0 ≤ j < n →
  ∃ ts', multi_swap_row i j ts = (Ok tt, ts') ∧ tables_ok n ts' ∧ same_tables ts ts' ∧ blocks_at ts' i = blocks_at ts j ∧ blocks_at ts' j = blocks_at ts i ∧
    ∀ k, 0 ≤ k → k ≠ i → k ≠ j → blocks_at ts' k = blocks_at ts k.
Proof.
  intros Hok Hi Hj. unfold multi_swap_row, each_table. generalize 0 at 1. revert Hok. induction ts as [|t ts IH]; intros Hok k; simpl.
  { exists []. split_and!; try done. constructor. }
  apply Forall_cons in Hok as [Ht Hok]. destruct (swap_row_spec n t i j Ht Hi Hj) as (t' & -> & A1 & A2 & A3 & A4 & A5).
  destruct (IH Hok (k + 1)) as (ts' & -> & B1 & B2 & B3 & B4 & B5). exists (t' :: ts'). split; [done|]. unfold blocks_at in *. rewrite !fmap_cons, A3, A4, B3, B4.
  split_and!; try done; [by apply Forall_cons|by apply Forall2_cons|]. intros k' H1 H2 H3. by rewrite !fmap_cons, A5, B5.
Qed.

(* ===================================================================== *)
(** ** LoRA                                                               *)
(* ===================================================================== *)

(** The adapters in use are those of the requests of the batch. *)
Record lora_ok (n : Z) (idx : gmap string Z) (l : LoRAState) : Prop := {
  lo_len : len (request_lora_mapping l) = n;
  lo_reqs x id : (∃ s, lora_id_to_request_ids l !! x = Some s ∧ id ∈ s) ↔
    x ≠ 0 ∧ ∃ i, idx !! id = Some i ∧ request_lora_mapping l !! Z.to_nat i = Some x;
  lo_used x s : lora_id_to_request_ids l !! x = Some s → s ≠ ∅;
  lo_dom : dom (lora_id_to_request_ids l) = dom (lora_id_to_lora_request l);
}.
Lemma lora_add_spec n idx l i id r : lora_ok n idx l → 0 ≤ i < n → idx !! id = None → (∀ id' j, idx !! id' = Some j → 0 ≤ j ∧ j ≠ i) →
  (∀ lr, r = Some lr → 0 < lora_int_id lr) →
  ∃ l', lora_add i id r l = Ok l' ∧ lora_ok n (<[id := i]> idx) l' ∧
    request_lora_mapping l' !! Z.to_nat i = Some (match r with Some lr => lora_int_id lr | None => 0 end) ∧
    ∀ j, 0 ≤ j → j ≠ i → request_lora_mapping l' !! Z.to_nat j = request_lora_mapping l !! Z.to_nat j.
Proof.
  intros [H1 H2 H3 H4] Hi Hid Hidx Hpos. unfold lora_add.
  set (x0 := match r with Some lr => lora_int_id lr | None => 0 end).
  destruct (list_set_col n _ i x0 H1 Hi) as (a & Ha & [A1 A2 A3]). rewrite option_fmap_id in A2.
  assert (Hold : ∀ x id', (∃ j, <[id := i]> idx !! id' = Some j ∧ a !! Z.to_nat j = Some x) ↔
    (id' = id ∧ x = x0) ∨ (∃ j, idx !! id' = Some j ∧ request_lora_mapping l !! Z.to_nat j = Some x)).
  { intros x id'. destruct (decide (id' = id)) as [->|Hne].
    - rewrite lookup_insert_eq, Hid. split; [intros (j & [= <-] & Hj); left; split; congruence|].
      intros [[_ ->]|(j & ? & _)]; [by exists i|done].
    - rewrite lookup_insert_ne by done. split.
      + intros (j & Hj & Hx). right. exists j. destruct (Hidx id' j Hj). by rewrite <-A3.
      + intros [[? _]|(j & Hj & Hx)]; [done|]. exists j. destruct (Hidx id' j Hj). by rewrite A3. }
  destruct r as [lr|]; simpl in *; fold x0; rewrite Ha; simpl; (eexists; split; [reflexivity|]); simpl; (split; [|by split]); split; simpl; try done.
  - intros x id'. rewrite Hold. specialize (Hpos lr eq_refl). destruct (decide (x = x0)) as [->|Hx].
    + rewrite lookup_insert_eq. split.
      * intros (s & [= <-] & [->%elem_of_singleton|Hs]%elem_of_union); (split; [unfold x0; lia|]); [by left; split|right].
        destruct (lora_id_to_request_ids l !! x0) as [s|] eqn:E; [|by apply elem_of_empty in Hs]. by destruct (proj1 (H2 x0 id')) as [_ ?]; [exists s|].
      * intros [_ [[-> _]|Hex]]; (eexists; split; [done|]); [set_solver|].
        destruct (proj2 (H2 x0 id')) as (s & Hs & Hin); [split; [unfold x0; lia|done]|]. rewrite Hs. set_solver.
    + rewrite lookup_insert_ne by done. rewrite H2. naive_solver.
  - intros x s. destruct (decide (x = x0)) as [->|Hx]; [rewrite lookup_insert_eq; intros [= <-]; set_solver|].
    rewrite lookup_insert_ne by done. apply H3.
  - rewrite !dom_insert_L, H4. done.
  - intros x id'. rewrite Hold, H2. unfold x0. naive_solver.
Qed.
Lemma lora_remove_spec n idx l i id : lora_ok n idx l → 0 ≤ i < n → idx !! id = Some i → (∀ id' j, idx !! id' = Some j → 0 ≤ j ∧ (j = i → id' = id)) →
  ∃ l', lora_remove i id l = Ok l' ∧ lora_ok n (delete id idx) l' ∧
    ∀ j, 0 ≤ j → j ≠ i → request_lora_mapping l' !! Z.to_nat j = request_lora_mapping l !! Z.to_nat j.
Proof.
  intros [H1 H2 H3 H4] Hi Hid Hidx. unfold lora_remove. destruct (np_get_some (request_lora_mapping l) i ltac:(lia)) as (x0 & -> & Hx0). simpl.
  assert (Hold : ∀ (a : list Z), (∀ j, 0 ≤ j → j ≠ i → a !! Z.to_nat j = request_lora_mapping l !! Z.to_nat j) → ∀ x id',
    (∃ j, delete id idx !! id' = Some j ∧ a !! Z.to_nat j = Some x) ↔ id' ≠ id ∧ ∃ j, idx !! id' = Some j ∧ request_lora_mapping l !! Z.to_nat j = Some x).
  { intros a Ha x id'. split.
    - intros (j & [Hne Hj]%lookup_delete_Some & Hx). split; [done|]. exists j. destruct (Hidx _ _ Hj) as [Hj0 Hji]. rewrite <-Ha by naive_solver. done.
    - intros (Hne & j & Hj & Hx). exists j. destruct (Hidx _ _ Hj) as [Hj0 Hji]. rewrite lookup_delete_ne by done. rewrite Ha by naive_solver. done. }
  destruct (Z.eqb_spec x0 0) as [->|Hx0n].
  { exists l. split; [done|]. split; [|done]. split; try done. intros x id'. rewrite (Hold _ ltac:(done)), H2. split; [|naive_solver].
    intros (Hx & j & Hj & Hm). split; [done|]. split; [|by exists j]. intros ->. assert (j = i) as -> by congruence. congruence. }
  destruct (proj2 (H2 x0 id)) as (s & Hs & Hin); [split; [done|by exists i]|]. rewrite Hs.
  destruct (list_set_col n _ i 0 H1 Hi) as (a & Ha & [A1 A2 A3]). rewrite Ha. simpl. specialize (Hold a A3).
  assert (Huniq : ∀ x, (∃ s, lora_id_to_request_ids l !! x = Some s ∧ id ∈ s) → x = x0).
  { intros x (_ & j & Hj & Hm)%H2. assert (j = i) as -> by congruence. congruence. }
  assert (Hother : ∀ x id', x ≠ x0 → (∃ s', lora_id_to_request_ids l !! x = Some s' ∧ id' ∈ s') ↔ x ≠ 0 ∧ ∃ j, delete id idx !! id' = Some j ∧ a !! Z.to_nat j = Some x).
  { intros x id' Hx. rewrite Hold, H2. split; [|naive_solver]. intros (Hn & Hex). split; [done|]. split; [|done]. intros ->. apply Hx, Huniq, H2. done. }
  assert (Hthis : ∀ id', id' ∈ s ∖ {[id]} ↔ x0 ≠ 0 ∧ ∃ j, delete id idx !! id' = Some j ∧ a !! Z.to_nat j = Some x0).
  { intros id'. rewrite Hold, elem_of_difference, elem_of_singleton. split.
    - intros [Hs' Hne]. destruct (proj1 (H2 x0 id')) as [? ?]; [by exists s|]. done.
    - intros (? & ? & Hex). split; [|done]. destruct (proj2 (H2 x0 id')) as (s' & Hs' & ?); [done|]. congruence. }
  destruct (bool_decide_reflect (s ∖ {[id]} = ∅)) as [He|He].
  - destruct (lora_id_to_lora_request l !! x0) as [lr|] eqn:El.
    2:{ exfalso. apply not_elem_of_dom in El. rewrite <-H4 in El. apply El, elem_of_dom. by exists s. }
    eexists. split; [reflexivity|]. simpl. split; [|done]. split; simpl; [done|..].
    + intros x id'. destruct (decide (x = x0)) as [->|Hx]; [|by rewrite lookup_delete_ne, Hother by done].
      rewrite lookup_delete_eq, <-Hthis, He. split; [naive_solver|set_solver].
    + intros x s' [_ ?]%lookup_delete_Some. by eapply H3.
    + by rewrite !dom_delete_L, H4.
  - eexists. split; [reflexivity|]. simpl. split; [|done]. split; simpl; [done|..].
    + intros x id'. destruct (decide (x = x0)) as [->|Hx]; [|by rewrite lookup_insert_ne, Hother by done].
      rewrite lookup_insert_eq, <-Hthis. naive_solver.
    + intros x s'. destruct (decide (x = x0)) as [->|Hx]; [rewrite lookup_insert_eq; by intros [= <-]|]. rewrite lookup_insert_ne by done. apply H3.
    + rewrite dom_insert_L, <-H4. assert (x0 ∈ dom (lora_id_to_request_ids l)) by (apply elem_of_dom; by exists s). set_solver.
Qed.
Lemma lora_reindex n idx idx' l a : lora_ok n idx l → len a = n →
  (∀ x id, (∃ i, idx' !! id = Some i ∧ a !! Z.to_nat i = Some x) ↔ (∃ i, idx !! id = Some i ∧ request_lora_mapping l !! Z.to_nat i = Some x)) →
  lora_ok n idx' (l <| request_lora_mapping := a |>).
Proof. intros [H1 H2 H3 H4] Ha Hre. destruct l as [m rq lr]. simpl in *. split; simpl; try done. intros x id. by rewrite H2, Hre. Qed.

(* ===================================================================== *)
(** ** The mask of allowed tokens                                         *)
(* ===================================================================== *)

Definition mask_ok (n vocab : Z) (m : option (list (list bool))) : Prop :=
  match m with Some mask => rows_ok n vocab mask | None => True end.
Lemma mask_clear_spec (row : list bool) ids : Forall (λ t, 0 ≤ t < len row) ids → ∃ row', mask_clear row ids = Ok row' ∧ len row' = len row ∧
  ∀ t, 0 ≤ t < len row → row' !! Z.to_nat t = if bool_decide (t ∈ ids) then Some false else row !! Z.to_nat t.
Proof.
  revert row. induction ids as [|x ids IH]; intros row Hall; simpl; [by exists row|]. apply Forall_cons in Hall as [Hx Hall].
  rewrite list_set_ok by done. simpl. destruct (IH (py_set row x false)) as (row' & H1 & H2 & H3).
  { eapply Forall_impl; [done|]. intros t Ht. simpl in *. by rewrite len_py_set. }
  rewrite len_py_set in *. exists row'. split; [done|]. split; [done|]. intros t Ht. rewrite H3 by done.
  destruct (decide (t = x)) as [->|Hne].
  - rewrite (bool_decide_true (x ∈ x :: ids)) by (by left). rewrite py_set_eq by done. by destruct (bool_decide _).
  - rewrite py_set_ne by lia. rewrite (bool_decide_ext (t ∈ x :: ids) (t ∈ ids)); [done|]. rewrite elem_of_cons. naive_solver.
Qed.
(** Row [i] of the mask; before the mask is allocated nothing is forbidden. *)
Definition mask_row (vocab : Z) (m : option (list (list bool))) (i : Z) : list bool :=
  match m with Some mask => default [] (mask !! Z.to_nat i) | None => py_replicate vocab false end.
(** The row of a request that may only sample [ids]. *)
Definition only_allowed (vocab : Z) (ids : list Z) : list bool := (λ t, negb (bool_decide (t ∈ ids))) <$> seqZ 0 vocab.
Definition rows_kept (n vocab i : Z) (m m' : option (list (list bool))) : Prop :=
  ∀ j, 0 ≤ j < n → j ≠ i → mask_row vocab m' j = mask_row vocab m j.
Lemma only_allowed_row vocab ids row : 0 ≤ vocab → len row = vocab →
  (∀ t, 0 ≤ t < vocab → row !! Z.to_nat t = if bool_decide (t ∈ ids) then Some false else Some true) → row = only_allowed vocab ids.
Proof.
  intros Hv Hl Hrow. apply list_eq. intros k. unfold only_allowed. rewrite list_lookup_fmap. destruct (decide (Z.of_nat k < vocab)) as [Hk|Hk].
  - rewrite lookup_seqZ_lt by lia. specialize (Hrow (Z.of_nat k) ltac:(lia)). rewrite Nat2Z.id in Hrow. rewrite Hrow. cbn [fmap option_fmap option_map]. rewrite Z.add_0_l. by case_bool_decide.
  - rewrite lookup_seqZ_ge by lia. apply lookup_ge_None. unfold len in Hl. lia.
Qed.
Lemma list_set_mask vocab n mask i row : len mask = n → 0 ≤ i < n → ∃ mask', list_set mask i row = Ok mask' ∧
  mask_row vocab (Some mask') i = row ∧ ∀ j, 0 ≤ j → j ≠ i → mask_row vocab (Some mask') j = mask_row vocab (Some mask) j.
Proof.
  intros Hn Hi. destruct (list_set_col n mask i row Hn Hi) as (a & -> & [_ H1 H2]). exists a. split; [done|]. rewrite option_fmap_id in H1. simpl. rewrite H1.
  split; [done|]. intros j Hj Hne. by rewrite H2.
Qed.
Lemma mask_add_ok {F} n vocab i (p : SamplingParams F) m : mask_ok n vocab m → 0 ≤ i < n → 0 ≤ vocab →
  (∀ l, allowed_token_ids p = Some l → Forall (λ t, 0 ≤ t < vocab) l) → ∃ m', mask_add n vocab i p m = Ok m' ∧ mask_ok n vocab m' ∧
    mask_row vocab m' i = (match allowed_token_ids p with Some (t :: ts) => only_allowed vocab (t :: ts) | _ => mask_row vocab m i end) ∧
    rows_kept n vocab i m m'.
Proof.
  intros Hm Hi Hv Hall. unfold mask_add. destruct (allowed_token_ids p) as [[|t ts]|]; [by exists m| |by exists m].
  specialize (Hall _ eq_refl). assert (Hfull : len (py_replicate vocab true) = vocab) by (unfold py_replicate; rewrite len_replicate; lia).
  destruct (mask_clear_spec (py_replicate vocab true) (t :: ts)) as (row & H1 & H2 & H3); [by rewrite Hfull|]. rewrite H1. cbn. rewrite Hfull in *.
  set (mask := default _ m). assert (Hmask : rows_ok n vocab mask ∧ ∀ j, 0 ≤ j < n → mask_row vocab (Some mask) j = mask_row vocab m j).
  { destruct m as [mm|]; simpl in *; [done|]. unfold mask, py_replicate. simpl. split; [split; [rewrite len_replicate; lia|apply Forall_replicate; rewrite len_replicate; lia]|].
    intros j Hj. by rewrite lookup_replicate_2 by lia. }
  destruct Hmask as [Hmask Hrows]. destruct (list_set_mask vocab n mask i row (proj1 Hmask) Hi) as (mask' & Hset & R1 & R2).
  destruct (rows_set n vocab mask i row Hmask Hi ltac:(lia)) as [Hset' Hok']. rewrite Hset in Hset'. injection Hset' as Heq. rewrite Hset. simpl. rewrite Heq in *.
  eexists. split; [done|]. split; [done|]. split; [|intros j Hj Hne; rewrite R2 by lia; by apply Hrows].
  simpl in R1 |- *. rewrite R1. apply only_allowed_row; [done|done|]. intros x Hx. rewrite H3 by done. unfold py_replicate. by rewrite lookup_replicate_2 by lia.
Qed.
Lemma mask_remove_ok n vocab i m : mask_ok n vocab m → 0 ≤ i < n → ∃ m', mask_remove i m = Ok m' ∧ mask_ok n vocab m' ∧ rows_kept n vocab i m m'.
Proof.
  intros Hm Hi. destruct m as [mask|]; simpl in *; [|by exists None]. destruct (rows_lookup n vocab mask i Hm Hi) as (row & -> & _ & Hl). simpl.
  destruct (list_set_mask vocab n mask i (replicate (length row) false) (proj1 Hm) Hi) as (mask' & Hset & _ & R2).
  destruct (rows_set n vocab mask i (replicate (length row) false) Hm Hi) as [Hset' ?]; [rewrite len_replicate; done|]. rewrite Hset in *. injection Hset' as ->.
  simpl. eexists. split; [done|]. split; [done|]. intros j Hj Hne. apply R2; [lia|done].
Qed.
Lemma np_move_mask n vocab (a : list (list bool)) src tgt : rows_ok n vocab a → 0 ≤ src < n → 0 ≤ tgt < n →
  ∃ a', np_move a src tgt = Ok a' ∧ rows_ok n vocab a' ∧ mask_row vocab (Some a') tgt = mask_row vocab (Some a) src ∧ rows_kept n vocab tgt (Some a) (Some a').
Proof.
  intros Ha Hs Ht. destruct (rows_lookup n vocab a src Ha Hs) as (row & Hg & Hlk & Hl). unfold np_move. rewrite Hg. simpl.
  destruct (list_set_mask vocab n a tgt row (proj1 Ha) Ht) as (a' & Hset & R1 & R2). destruct (rows_set n vocab a tgt row Ha Ht Hl) as [Hset' Hok].
  rewrite Hset in *. injection Hset' as ->. eexists. split; [done|]. split; [done|]. split; [simpl in *; by rewrite R1, Hlk|]. intros j Hj Hne. apply R2; [lia|done].
Qed.
Lemma mask_move_ok n vocab src tgt m : mask_ok n vocab m → 0 ≤ src < n → 0 ≤ tgt < n → ∃ m', mask_move src tgt m = Ok m' ∧ mask_ok n vocab m' ∧
  mask_row vocab m' tgt = mask_row vocab m src ∧ rows_kept n vocab tgt m m'.
Proof.
  intros Hm Hs Ht. destruct m as [mask|]; simpl in *; [|by exists None]. destruct (np_move_mask n vocab mask src tgt Hm Hs Ht) as (a & -> & ?). simpl. by eexists.
Qed.
(** The swap as it is: the first row gets the second, and the second keeps its own. *)
Lemma mask_swap_ok n vocab i1 i2 m : mask_ok n vocab m → 0 ≤ i1 < n → 0 ≤ i2 < n → ∃ m', mask_swap i1 i2 m = Ok m' ∧ mask_ok n vocab m' ∧
  mask_row vocab m' i1 = mask_row vocab m i2 ∧ rows_kept n vocab i1 m m'.
Proof.
  intros Hm Hs Ht. destruct m as [mask|]; simpl in *; [|by exists None]. destruct (rows_lookup n vocab mask i1 Hm Hs) as (row & -> & _). simpl.
  destruct (np_move_mask n vocab mask i2 i1 Hm Ht Hs) as (a & -> & Ha & A1 & A2). simpl.
  destruct (np_move_mask n vocab a i1 i2 Ha Hs Ht) as (a' & -> & Ha' & B1 & B2). simpl. exists (Some a'). split; [done|]. split; [done|]. simpl in *.
  assert (H2 : default [] (a' !! Z.to_nat i2) = default [] (mask !! Z.to_nat i2)) by (by rewrite B1, A1).
  split.
  - destruct (decide (i1 = i2)) as [->|Hne]; [done|]. pose proof (B2 i1 Hs Hne) as HB. simpl in HB. by rewrite HB, A1.
  - intros j Hj Hne. destruct (decide (j = i2)) as [->|Hj2]; [done|]. pose proof (B2 j Hj Hj2) as HB. pose proof (A2 j Hj Hne) as HA. simpl in *. by rewrite HB, HA.
Qed.
