(* ===== verification/InputBatchInv.v ===== *)
(** * The input batch as a map of requests

    The rows of the batch are a map from request ids to rows: adding inserts,
    removing deletes, and neither [condense] nor [swap_states] changes the map;
    after [condense] the requests are in the first rows, without gaps. *)
From stdpp Require Import sorting.
From S2P Require Import Prelude MathUtils Outcome Request NumPy BlockTable BlockTableInv BatchUpdate LogitsProcs InputBatch BatchRows.
Local Open Scope Z_scope.

(* ===================================================================== *)
(** ** Ids and rows                                                       *)
(* ===================================================================== *)

Lemma NoDup_omap_ids (l : list (option string)) :
  (∀ i j x, l !! i = Some (Some x) → l !! j = Some (Some x) → i = j) → NoDup (omap id l).
Proof.
  induction l as [|[x|] l IH]; intros Hu; simpl; [apply NoDup_nil_2| |].
  - apply NoDup_cons. split.
    + intros (y & Hy & [= ->])%list_elem_of_omap. apply list_elem_of_lookup in Hy as [i Hi]. by specialize (Hu 0%nat (S i) x eq_refl Hi).
    + apply IH. intros i j y Hi Hj. by specialize (Hu (S i) (S j) y Hi Hj) as [= ->].
  - apply IH. intros i j y Hi Hj. by specialize (Hu (S i) (S j) y Hi Hj) as [= ->].
Qed.
Lemma count_none (l : list (option string)) (e : list Z) : NoDup e → (∀ i, i ∈ e ↔ 0 ≤ i ∧ l !! Z.to_nat i = Some None) →
  len l = Z.of_nat (length (omap id l)) + len e.
Proof.
  revert e. induction l as [|o l IH] using rev_ind; intros e Hnd He.
  { destruct e as [|x e]; [done|]. destruct (proj1 (He x)) as [_ ?]; [by left|done]. }
  assert (Hlast : (l ++ [o]) !! Z.to_nat (len l) = Some o). { unfold len. by rewrite Nat2Z.id, lookup_app_r, Nat.sub_diag. }
  assert (Hpre : ∀ i, 0 ≤ i < len l → (l ++ [o]) !! Z.to_nat i = l !! Z.to_nat i). { intros i Hi. apply lookup_app_l. unfold len in Hi. lia. }
  assert (Hin : ∀ i, i ∈ e → 0 ≤ i ≤ len l). { intros i [H1 H2]%He. apply lookup_lt_Some in H2. rewrite length_app in H2. unfold len. simpl in H2. lia. }
  rewrite len_app, omap_app, length_app. destruct o as [x|]; simpl.
  - rewrite (IH e Hnd); [rewrite len_cons, (@len_nil (option string)); lia|]. intros i. rewrite He. split.
    + intros [H1 H2]. split; [done|]. assert (i ≠ len l) by (intros ->; congruence). pose proof (Hin i (proj2 (He i) (conj H1 H2))). by rewrite <-Hpre by lia.
    + intros [H1 H2]. split; [done|]. rewrite Hpre; [done|]. apply lookup_lt_Some in H2. unfold len. lia.
  - assert (len l ∈ e) as (e1 & e2 & ->)%elem_of_split by (apply He; split; [apply len_nonneg|done]).
    apply NoDup_app_remove_mid in Hnd as [Hnd Hni]. rewrite (IH (e1 ++ e2) Hnd).
    { rewrite !len_app, !len_cons, (@len_nil (option string)). lia. }
    intros i. assert (Hsub : i ∈ e1 ++ e2 ↔ i ∈ e1 ++ len l :: e2 ∧ i ≠ len l).
    { rewrite !elem_of_app, elem_of_cons in *. naive_solver. }
    rewrite Hsub, He. split.
    + intros [[H1 H2] Hne]. split; [done|]. pose proof (Hin i (proj2 (He i) (conj H1 H2))). by rewrite <-Hpre by lia.
    + intros [H1 H2]. assert (i < len l) by (apply lookup_lt_Some in H2; unfold len; lia). split; [|lia]. by rewrite Hpre by lia.
Qed.

Section inv.
Context {F : Type} `{!PyFloat F}.
Implicit Types b : InputBatch F.

(** Row [i] is free or taken by a request; [hi] bounds the rows that [condense] has
    not emptied yet. *)
Record ids_ok (hi : Z) (idx : gmap string Z) (ids : list (option string)) (rm : list Z) : Prop := {
  ix_live id i : idx !! id = Some i ↔ 0 ≤ i ∧ ids !! Z.to_nat i = Some (Some id);
  ix_removed i : i ∈ rm → 0 ≤ i ∧ ids !! Z.to_nat i = Some None;
  ix_none i : 0 ≤ i < hi → ids !! Z.to_nat i = Some None → i ∈ rm;
  ix_above i : hi ≤ i → ∀ id, ids !! Z.to_nat i ≠ Some (Some id);
  ix_hi : 0 ≤ hi ≤ len ids;
}.
Lemma ids_size hi idx ids rm : ids_ok hi idx ids rm → size idx = length (omap id ids).
Proof.
  intros [H1 _ _ _ _]. assert (Hnd : NoDup (omap id ids)).
  { apply NoDup_omap_ids. intros i j x Hi Hj.
    assert (Hx : ∀ k, ids !! k = Some (Some x) → idx !! x = Some (Z.of_nat k)). { intros k Hk. apply H1. split; [lia|]. by rewrite Nat2Z.id. }
    pose proof (Hx i Hi). pose proof (Hx j Hj). naive_solver lia. }
  rewrite <-(size_list_to_set (C := gset string)) by done. rewrite <-size_dom. f_equal. apply set_eq. intros x.
  rewrite elem_of_dom, elem_of_list_to_set, list_elem_of_omap. split.
  - intros [i [_ Hi]%H1]. exists (Some x). split; [by eapply list_elem_of_lookup_2|done].
  - intros ([y|] & Hy & [= ->]). apply list_elem_of_lookup in Hy as [i Hi]. exists (Z.of_nat i). apply H1. split; [lia|]. by rewrite Nat2Z.id.
Qed.
Lemma ids_total idx ids rm : ids_ok (len ids) idx ids rm → NoDup rm → len ids = Z.of_nat (size idx) + len rm.
Proof.
  intros Hok Hnd. rewrite (ids_size _ _ _ _ Hok). apply count_none; [done|]. destruct Hok as [_ H2 H3 _ _]. intros i. split; [apply H2|].
  intros [Hi Hn]. apply H3; [|done]. split; [done|]. apply lookup_lt_Some in Hn. unfold len. lia.
Qed.
(** Without gaps below [hi] there are [hi] requests. *)
Lemma ids_compact hi idx ids rm : ids_ok hi idx ids rm → (∀ i, 0 ≤ i < hi → ids !! Z.to_nat i ≠ Some None) → Z.of_nat (size idx) = hi.
Proof.
  intros Hok Hno. rewrite (ids_size _ _ _ _ Hok). destruct Hok as [_ _ _ H4 H5].
  rewrite <-(take_drop (Z.to_nat hi) ids), omap_app, length_app.
  assert (Hd : omap id (drop (Z.to_nat hi) ids) = []).
  { apply elem_of_nil_inv. intros x ([y|] & Hy & [= ->])%list_elem_of_omap. apply list_elem_of_lookup in Hy as [j Hj].
    rewrite lookup_drop in Hj. apply (H4 (hi + Z.of_nat j) ltac:(lia) x). by replace (Z.to_nat (hi + Z.of_nat j)) with (Z.to_nat hi + j)%nat by lia. }
  rewrite Hd. simpl. assert (Hall : ∀ l : list (option string), (∀ i, l !! i ≠ Some None) → length (omap id l) = length l).
  { induction l as [|[x|] l IH]; intros Hl; simpl; [done| |by specialize (Hl 0%nat)]. f_equal. apply IH. intros i. apply (Hl (S i)). }
  rewrite Hall; [rewrite length_take; unfold len in H5; lia|]. intros i Hi. apply lookup_take_Some in Hi as [Hi Hlt].
  apply (Hno (Z.of_nat i) ltac:(lia)). by rewrite Nat2Z.id.
Qed.

(* ===================================================================== *)
(** ** Views and the invariant                                            *)
(* ===================================================================== *)

(** The tokens of a row that count: its own and the drafts. *)
Definition active (t : TokenRows) (spec : list (list Z)) (i : Z) : Z :=
  match num_tokens_no_spec t !! Z.to_nat i, spec !! Z.to_nat i with Some n, Some s => n + len s | _, _ => 0 end.
(** What the batch holds of a request.  Embeddings count where a position is not
    a token; rows of a pooling model have no sampling parameters. *)
Record Row := mkRow {
  r_output : option (option Ref);
  r_spec : option (list Z);
  r_tokens : option Z * option Z * option Z * option (list Z) * option (list bool);
  r_embeds : option Embeds;
  r_blocks : list (list Z);
  r_lora : option Z;
  r_sampling : option (SampRow (F := F));
}.
Definition shown_embeds (mask : option (list bool)) (e : option Embeds) : option Embeds :=
  match mask with Some m => if forallb (λ x, x) m then None else e | None => None end.
Definition mask_at b (i : Z) : option (list bool) := (tok_row (tokens b) (active (tokens b) (spec_token_ids b) i) i).2.
Definition row_at b (i : Z) : Row :=
  let t := tok_row (tokens b) (active (tokens b) (spec_token_ids b) i) i in
  mkRow (req_output_token_ids b !! Z.to_nat i) (spec_token_ids b !! Z.to_nat i) t
    (shown_embeds (mask_at b i) (req_prompt_embeds b !! i)) (blocks_at (block_tables b) i)
    (request_lora_mapping (lora b) !! Z.to_nat i) (if is_pooling_model b then None else Some (samp_row (sampling b) i)).
Definition view b : gmap string Row := row_at b <$> req_id_to_index b.

Record parts_ok b : Prop := {
  pt_tokens : tokens_shape (max_num_reqs b) (max_model_len b) (tokens b);
  pt_sampling : sampling_shape (max_num_reqs b) (sampling b);
  pt_tables : tables_ok (max_num_reqs b) (block_tables b);
  pt_mask : mask_ok (max_num_reqs b) (vocab_size b) (allowed_token_ids_mask b);
  pt_vocab : 0 ≤ vocab_size b;
  pt_needs : len (logits_processing_needs_token_ids b) = max_num_reqs b;
  pt_lora : lora_ok (max_num_reqs b) (req_id_to_index b) (lora b);
  pt_ids : len (_req_ids b) ≤ max_num_reqs b;
  pt_outputs : len (req_output_token_ids b) = len (_req_ids b);
  pt_spec : len (_req_ids b) ≤ len (spec_token_ids b);
  pt_tail i s : len (_req_ids b) ≤ i → spec_token_ids b !! Z.to_nat i = Some s → s = [];
  pt_counts id i : req_id_to_index b !! id = Some i → ∃ n s, num_tokens_no_spec (tokens b) !! Z.to_nat i = Some n ∧
    spec_token_ids b !! Z.to_nat i = Some s ∧ 0 ≤ n ∧ n + len s ≤ max_model_len b;
  pt_free i : 0 ≤ i → is_pooling_model b = true ∨ (∀ id, req_id_to_index b !! id ≠ Some i) → samp_empty (sampling b) i;
  pt_embeds id i : req_id_to_index b !! id = Some i → is_Some (req_prompt_embeds b !! i) ∨ ∀ e, shown_embeds (mask_at b i) e = None;
}.
Record batch_inv (hi : Z) b : Prop := {
  bi_ids : ids_ok hi (req_id_to_index b) (_req_ids b) (_removed (batch_update_builder b));
  bi_builder : builder_ok (batch_update_builder b);
  bi_parts : parts_ok b;
}.
Definition batch_ok b : Prop := batch_inv (len (_req_ids b)) b.

(** Indices of requests are in range. *)
Lemma index_range hi b id i : batch_inv hi b → req_id_to_index b !! id = Some i → 0 ≤ i < hi ∧ i < len (_req_ids b) ∧ i < max_num_reqs b.
Proof.
  intros [[H1 _ _ H4 H5] _ Hp] Hi. apply H1 in Hi as [H0 Hi]. pose proof (lookup_lt_Some _ _ _ Hi). pose proof (pt_ids _ Hp).
  assert (i < hi). { destruct (decide (hi ≤ i)); [by destruct (H4 i ltac:(lia) id)|lia]. } unfold len in *. lia.
Qed.
Lemma index_inj hi b id id' i : batch_inv hi b → req_id_to_index b !! id = Some i → req_id_to_index b !! id' = Some i → id = id'.
Proof. intros [[H1 _ _ _ _] _ _] [_ Hi]%H1 [_ Hj]%H1. congruence. Qed.

(* ===================================================================== *)
(** ** Moving a row down                                                  *)
(* ===================================================================== *)

(** What no operation changes. *)
Record same_config b b' : Prop := {
  sc_pooling : is_pooling_model b' = is_pooling_model b;
  sc_reqs : max_num_reqs b' = max_num_reqs b;
  sc_len : max_model_len b' = max_model_len b;
  sc_vocab : vocab_size b' = vocab_size b;
  sc_tables : same_tables (block_tables b) (block_tables b');
}.

Lemma run_on_part {T A} (gt : InputBatch F → T) (st : T → InputBatch F → InputBatch F) f (k : unit → M (InputBatch F) A) b t :
  f (gt b) = Ok t → bind (on_part gt st f) k b = k tt (st t b).
Proof. intros H. unfold bind, on_part. by rewrite H. Qed.
Lemma run_on_builder {A B} (m : M (BatchUpdateBuilder (Added F)) A) (k : A → M (InputBatch F) B) b a u :
  m (batch_update_builder b) = (Ok a, u) → bind (on_builder m) k b = k a (b <| batch_update_builder := u |>).
Proof. intros H. unfold bind, on_builder, zoom. by rewrite H. Qed.
Lemma run_on_tables {B} m (k : unit → M (InputBatch F) B) b ts :
  m (block_tables b) = (Ok tt, ts) → bind (on_tables m) k b = k tt (b <| block_tables := ts |>).
Proof. intros H. unfold bind, on_tables, zoom. by rewrite H. Qed.

(** The ids when [id] moves from row [hi - 1] to the free row [e]. *)
Lemma ids_move idx ids rm e last id : ids_ok (last + 1) idx ids (rm ++ [e]) → NoDup (rm ++ [e]) → 0 ≤ e < last → idx !! id = Some last →
  ids_ok last (<[id := e]> idx) (py_set (py_set ids e (Some id)) last None) rm.
Proof.
  intros [H1 H2 H3 H4 H5] Hnd He Hid. pose proof (proj1 (H1 id last) Hid) as [_ Hl]. apply NoDup_app in Hnd as (_ & Hne & _).
  assert (Hset : ∀ i, 0 ≤ i → py_set (py_set ids e (Some id)) last None !! Z.to_nat i =
    if bool_decide (i = last) then Some None else if bool_decide (i = e) then Some (Some id) else ids !! Z.to_nat i).
  { intros i Hi. destruct (bool_decide_reflect (i = last)) as [->|N1]; [apply py_set_eq; rewrite len_py_set; lia|]. rewrite py_set_ne by lia.
    destruct (bool_decide_reflect (i = e)) as [->|N2]; [apply py_set_eq; lia|]. by rewrite py_set_ne by lia. }
  pose proof (proj2 (H2 e ltac:(set_solver))) as Hen. split.
  - intros id' i. destruct (decide (id' = id)) as [->|Hneq].
    + rewrite lookup_insert_eq. split; [intros [= <-]; split; [lia|]; rewrite Hset by lia; rewrite bool_decide_false, bool_decide_true by lia; done|].
      intros [Hi Hlk]. rewrite Hset in Hlk by done. case_bool_decide as E1; [done|]. case_bool_decide as E2; [by subst|].
      assert (idx !! id = Some i) by (by apply H1). congruence.
    + rewrite lookup_insert_ne by done. rewrite H1. split; intros [Hi Hlk]; (split; [done|]).
      * rewrite Hset by done. rewrite !bool_decide_false; [done|congruence|congruence].
      * rewrite Hset in Hlk by done. case_bool_decide; [done|]. case_bool_decide; [congruence|done].
  - intros i Hi. destruct (H2 i ltac:(set_solver)) as [H0 Hn]. split; [done|]. rewrite Hset by done. case_bool_decide; [done|].
    case_bool_decide; [subst; by destruct (Hne e Hi ltac:(by left))|done].
  - intros i Hi Hn. rewrite Hset in Hn by lia. case_bool_decide; [lia|]. case_bool_decide; [done|].
    specialize (H3 i ltac:(lia) Hn). set_solver.
  - intros i Hi id' Hn. rewrite Hset in Hn by lia. case_bool_decide; [done|]. case_bool_decide; [lia|]. by apply (H4 i ltac:(lia) id').
  - rewrite !len_py_set. lia.
Qed.
(** The map of rows when one id changes its row and the others keep theirs. *)
Lemma view_move b b' id i i' : req_id_to_index b !! id = Some i → req_id_to_index b' = <[id := i']> (req_id_to_index b) →
  row_at b' i' = row_at b i → (∀ id' j, id' ≠ id → req_id_to_index b !! id' = Some j → row_at b' j = row_at b j) → view b' = view b.
Proof.
  intros Hi Hidx Hrow Hother. apply map_eq. intros id'. unfold view. rewrite Hidx, !lookup_fmap.
  destruct (decide (id' = id)) as [->|Hne]; [by rewrite lookup_insert_eq, Hi; simpl; rewrite Hrow|].
  rewrite lookup_insert_ne by done. destruct (req_id_to_index b !! id') as [j|] eqn:Ej; [|done]. simpl. f_equal. by eapply Hother.
Qed.

(** A row is determined by the parts at its index. *)
Lemma row_at_ext b b' i i' : is_pooling_model b' = is_pooling_model b →
  req_output_token_ids b' !! Z.to_nat i' = req_output_token_ids b !! Z.to_nat i →
  spec_token_ids b' !! Z.to_nat i' = spec_token_ids b !! Z.to_nat i →
  (let k := active (tokens b) (spec_token_ids b) i in tok_row (tokens b') k i' = tok_row (tokens b) k i) →
  shown_embeds (mask_at b i) (req_prompt_embeds b' !! i') = shown_embeds (mask_at b i) (req_prompt_embeds b !! i) →
  blocks_at (block_tables b') i' = blocks_at (block_tables b) i →
  request_lora_mapping (lora b') !! Z.to_nat i' = request_lora_mapping (lora b) !! Z.to_nat i →
  (is_pooling_model b = false → samp_row (sampling b') i' = samp_row (sampling b) i) →
  row_at b' i' = row_at b i ∧ mask_at b' i' = mask_at b i.
Proof.
  intros H1 H2 H3 H4 H5 H6 H7 H8. assert (Ha : active (tokens b') (spec_token_ids b') i' = active (tokens b) (spec_token_ids b) i).
  { unfold active. rewrite H3. injection H4 as -> _ _ _ _. done. }
  assert (Hm : mask_at b' i' = mask_at b i) by (unfold mask_at; by rewrite Ha, H4). split; [|done].
  unfold row_at. rewrite Hm, Ha, H1, H2, H3, H4, H5, H6, H7. f_equal. destruct (is_pooling_model b); [done|]. by rewrite H8.
Qed.

(** What [move_down] does to the parts, from row [src] to row [tgt]. *)
Record row_moved (src tgt : Z) (id : string) b b' : Prop := {
  mv_config : same_config b b';
  mv_index : req_id_to_index b' = <[id := tgt]> (req_id_to_index b);
  mv_ids : _req_ids b' = py_set (py_set (_req_ids b) tgt (Some id)) src None;
  mv_outputs : len (req_output_token_ids b') = len (req_output_token_ids b) ∧
    req_output_token_ids b' !! Z.to_nat tgt = req_output_token_ids b !! Z.to_nat src ∧
    ∀ j, 0 ≤ j → j ≠ src → j ≠ tgt → req_output_token_ids b' !! Z.to_nat j = req_output_token_ids b !! Z.to_nat j;
  mv_spec : len (spec_token_ids b') = len (spec_token_ids b) ∧
    spec_token_ids b' !! Z.to_nat tgt = spec_token_ids b !! Z.to_nat src ∧
    ∀ j, 0 ≤ j → j ≠ src → j ≠ tgt → spec_token_ids b' !! Z.to_nat j = spec_token_ids b !! Z.to_nat j;
  mv_tokens : tokens_shape (max_num_reqs b) (max_model_len b) (tokens b') ∧
    (let k := active (tokens b) (spec_token_ids b) src in tok_row (tokens b') k tgt = tok_row (tokens b) k src) ∧
    ∀ k j, 0 ≤ j → j ≠ tgt → tok_row (tokens b') k j = tok_row (tokens b) k j;
  mv_embeds : (is_Some (req_prompt_embeds b !! src) → req_prompt_embeds b' !! tgt = req_prompt_embeds b !! src) ∧
    ∀ j, j ≠ src → j ≠ tgt → req_prompt_embeds b' !! j = req_prompt_embeds b !! j;
  mv_tables : tables_ok (max_num_reqs b) (block_tables b') ∧ blocks_at (block_tables b') tgt = blocks_at (block_tables b) src ∧
    ∀ j, 0 ≤ j → j ≠ tgt → blocks_at (block_tables b') j = blocks_at (block_tables b) j;
  mv_lora : ∃ lm, lora b' = lora b <| request_lora_mapping := lm |> ∧ len lm = max_num_reqs b ∧
    lm !! Z.to_nat tgt = request_lora_mapping (lora b) !! Z.to_nat src ∧
    ∀ j, 0 ≤ j → j ≠ tgt → lm !! Z.to_nat j = request_lora_mapping (lora b) !! Z.to_nat j;
  mv_sampling : sampling_shape (max_num_reqs b) (sampling b') ∧
    if is_pooling_model b then sampling b' = sampling b
    else samp_row (sampling b') tgt = samp_row (sampling b) src ∧ samp_empty (sampling b') src ∧
         ∀ j, 0 ≤ j → j ≠ src → j ≠ tgt → samp_row (sampling b') j = samp_row (sampling b) j;
  mv_mask : mask_ok (max_num_reqs b) (vocab_size b) (allowed_token_ids_mask b') ∧ (is_pooling_model b = false →
    mask_row (vocab_size b) (allowed_token_ids_mask b') tgt = mask_row (vocab_size b) (allowed_token_ids_mask b) src ∧
    rows_kept (max_num_reqs b) (vocab_size b) tgt (allowed_token_ids_mask b) (allowed_token_ids_mask b'));
  mv_needs : logits_processing_needs_token_ids b' = logits_processing_needs_token_ids b;
  mv_sets : sets b' = sets b;
  mv_builder : batch_update_builder b' = if is_pooling_model b then batch_update_builder b
                              else batch_update_builder b <| moved ::= λ l, l ++ [(src, tgt, UNIDIRECTIONAL)] |>;
}.
Lemma move_down_run b last e id : parts_ok b → 0 ≤ e < last → last < len (_req_ids b) → _req_ids b !! Z.to_nat last = Some (Some id) →
  req_id_to_index b !! id = Some last → (∀ id', req_id_to_index b !! id' ≠ Some e) →
  ∃ b', move_down last e b = (Ok tt, b') ∧ row_moved last e id b b'.
Proof.
  intros [P1 P2 P3 P4 P5 P6 P7 P8 P9 P10 P11 P12 P13 P14] He Hlast Hl Hid Hfree. set (n := max_num_reqs b) in *. set (w := max_model_len b) in *.
  destruct (P12 id last Hid) as (nt & sp & Hnt & Hsp & Hnt0 & Hact). pose proof (len_nonneg sp) as Hsp0.
  destruct (np_get_some (req_output_token_ids b) last ltac:(lia)) as (out & Hout & Houtl).
  destruct (tokens_move_spec n w (tokens b) last e (nt + len sp) P1 ltac:(lia) ltac:(lia) ltac:(lia)) as (t' & Ht & T1 & T2 & T3).
  destruct (multi_move_row_spec n (block_tables b) last e P3 ltac:(lia) ltac:(lia)) as (ts' & Hts & S1 & S2 & S3 & S4).
  destruct (np_move_col n (request_lora_mapping (lora b)) last e (lo_len _ _ _ P7) ltac:(lia) ltac:(lia)) as (lm & Hlm & [L1 L2 L3]). rewrite option_fmap_id in L2.
  destruct (np_swap_col (len (spec_token_ids b)) (spec_token_ids b) last e eq_refl ltac:(lia) ltac:(lia)) as (sw & Hsw & W1 & W2 & W3 & W4).
  destruct (sampling_move_spec n last e (sampling b) P2 ltac:(lia) ltac:(lia) ltac:(lia) (P13 e ltac:(lia) (or_intror Hfree))) as (sm & Hsm & M1 & M2 & M3 & M4).
  destruct (mask_move_ok n (vocab_size b) last e (allowed_token_ids_mask b) P4 ltac:(lia) ltac:(lia)) as (mk & Hmk & K1).
  assert (Hactive : active (tokens b) (spec_token_ids b) last = nt + len sp) by (unfold active; by rewrite Hnt, Hsp). rewrite <-Hactive in T2. clear Hactive.
  destruct b as [pool n0 w0 v ids idx outs spec tok emb ts lo sa st ma bu need pp ps prev]. simpl in *. subst n w.
  assert (Go : len (py_set (py_set outs e out) last None) = len outs ∧ py_set (py_set outs e out) last None !! Z.to_nat e = outs !! Z.to_nat last ∧
    ∀ j, 0 ≤ j → j ≠ last → j ≠ e → py_set (py_set outs e out) last None !! Z.to_nat j = outs !! Z.to_nat j).
  { rewrite !len_py_set, py_set_ne, py_set_eq by lia. split_and!; [done|done|]. intros j Hj N1 N2. by rewrite !py_set_ne by lia. }
  assert (Gs : len (py_set sw last []) = len spec ∧ py_set sw last [] !! Z.to_nat e = spec !! Z.to_nat last ∧
    ∀ j, 0 ≤ j → j ≠ last → j ≠ e → py_set sw last [] !! Z.to_nat j = spec !! Z.to_nat j).
  { rewrite len_py_set, py_set_ne by lia. split_and!; [done|done|]. intros j Hj N1 N2. rewrite py_set_ne by lia. by apply W4. }
  assert (Ge : let emb' := match emb !! last with Some x => <[e := x]> (delete last emb) | None => emb end in
    (is_Some (emb !! last) → emb' !! e = emb !! last) ∧ ∀ j, j ≠ last → j ≠ e → emb' !! j = emb !! j).
  { simpl. destruct (emb !! last); (split; [intros [x Hx]|intros j N1 N2]); by simplify_map_eq. }
  destruct pool; (eexists; split; [
    unfold move_down; rewrite run_get, run_of_res; cbn [_req_ids req_output_token_ids];
    rewrite (proj2 (np_get_ok _ last _ ltac:(lia)) Hl), run_of_res, Hout;
    unfold on_ids, on_outputs, on_spec, on_tokens, on_lora, on_sampling, on_mask;
    erewrite run_on_part by (simpl; rewrite list_set_ok by lia; cbn; apply list_set_ok; rewrite len_py_set; lia);
    erewrite run_on_part by (simpl; rewrite list_set_ok by lia; cbn; apply list_set_ok; rewrite len_py_set; lia);
    rewrite run_modify, run_get, run_of_res; unfold _get_active_token_count; simpl;
    rewrite (proj2 (np_get_ok _ last _ ltac:(lia)) Hnt); simpl; rewrite (proj2 (np_get_ok _ last _ ltac:(lia)) Hsp); simpl;
    erewrite run_on_part by (simpl; rewrite Hsw; simpl; apply list_set_ok; lia);
    erewrite run_on_part by (simpl; exact Ht); rewrite run_modify; erewrite run_on_tables by (simpl; exact Hts);
    erewrite run_on_part by (simpl; rewrite Hlm; reflexivity);
    first [reflexivity
          | erewrite run_on_builder by reflexivity; erewrite run_on_part by (simpl; exact Hsm); unfold on_part; simpl; rewrite Hmk; reflexivity] | ]);
  split; simpl; try done.
  all: try (split; [first [exact P4|apply K1]|intros Hpool; first [discriminate Hpool|apply K1]]).
  all: try (by split).
  all: try (by eexists).
Qed.

Lemma move_down_rows b b' last e id : parts_ok b → row_moved last e id b b' → 0 ≤ e < last → req_id_to_index b !! id = Some last →
  (row_at b' e = row_at b last ∧ mask_at b' e = mask_at b last ∧
     (is_Some (req_prompt_embeds b' !! e) ∨ ∀ x, shown_embeds (mask_at b last) x = None)) ∧
  ∀ j, 0 ≤ j → j ≠ e → j ≠ last → row_at b' j = row_at b j ∧ mask_at b' j = mask_at b j.
Proof.
  intros Hp Hmv He Hid. pose proof (pt_embeds _ Hp id last Hid) as Hemb.
  destruct Hmv as [[C1 C2 C3 C4 C5] _ _ (_ & O1 & O2) (_ & S1 & S2) (_ & T1 & T2) (E1 & E2) (_ & B1 & B2) (lm & L0 & _ & L1 & L2) (_ & SA) _ _ _ _].
  assert (Hlm : request_lora_mapping (lora b') = lm) by (rewrite L0; by destruct (lora b)). split.
  - destruct (row_at_ext b b' last e) as [R M]; rewrite ?Hlm; try done.
    + destruct Hemb as [Hs|Hn]; [by rewrite E1|by rewrite !Hn].
    + intros Hpool. rewrite Hpool in SA. by destruct SA.
    + split; [done|]. split; [done|]. destruct Hemb as [Hs|Hn]; [left; by rewrite E1|by right].
  - intros j Hj N1 N2. apply row_at_ext; rewrite ?Hlm; auto.
    + by rewrite E2.
    + intros Hpool. rewrite Hpool in SA. destruct SA as (_ & _ & SA). by apply SA.
Qed.
Lemma move_down_parts b b' last e id : parts_ok b → row_moved last e id b b' → 0 ≤ e < last → last < len (_req_ids b) → req_id_to_index b !! id = Some last →
  (∀ id' j, id' ≠ id → req_id_to_index b !! id' = Some j → 0 ≤ j ∧ j ≠ e ∧ j ≠ last) → parts_ok b'.
Proof.
  intros Hp Hmv He Hlast Hid Hrange. destruct (move_down_rows b b' last e id Hp Hmv He Hid) as [(Re & Me & Ee) Rj].
  destruct Hp as [P1 P2 P3 P4 P5 P6 P7 P8 P9 P10 P11 P12 P13 P14].
  destruct Hmv as [[C1 C2 C3 C4 C5] I1 I2 (O0 & O1 & O2) (S0 & S1 & S2) (T0 & T1 & T2) (E1 & E2) (B0 & B1 & B2) (lm & L0 & L00 & L1 & L2) (SA0 & SA) [MK _] ND _ _].
  assert (Hlen : len (_req_ids b') = len (_req_ids b)) by (rewrite I2; by rewrite !len_py_set).
  split; rewrite ?C1, ?C2, ?C3, ?C4, ?Hlen, ?O0, ?S0, ?ND, ?I1; try done.
  - rewrite L0. apply (lora_reindex _ (req_id_to_index b)); [done|done|]. intros x id'. destruct (decide (id' = id)) as [->|Hne].
    + rewrite lookup_insert_eq, Hid. split; intros (i & [= <-] & Hx); [exists last|exists e]; (split; [done|congruence]).
    + rewrite lookup_insert_ne by done. split; intros (i & Hi & Hx); exists i; (split; [done|]); destruct (Hrange id' i Hne Hi) as (? & ? & ?); [rewrite <-L2|rewrite L2]; done.
  - intros i s Hi Hs. rewrite S2 in Hs by lia. by eapply P11.
  - intros id' i. destruct (decide (id' = id)) as [->|Hne].
    + rewrite lookup_insert_eq. intros [= <-]. destruct (P12 id last Hid) as (n1 & s1 & ? & ? & ? & ?). exists n1, s1. rewrite S1.
      injection T1 as -> _ _ _ _. done.
    + rewrite lookup_insert_ne by done. intros Hi. destruct (Hrange id' i Hne Hi) as (? & ? & ?). destruct (P12 id' i Hi) as (n1 & s1 & ? & ? & ? & ?).
      exists n1, s1. rewrite S2 by done. specialize (T2 0 i ltac:(lia) ltac:(done)). injection T2 as -> _ _ _ _. done.
  - intros i Hi Hfr. destruct (is_pooling_model b) eqn:Epool; [rewrite SA; apply P13; [done|by left]|].
    destruct Hfr as [?|Hfr]; [done|]. destruct SA as (_ & SA1 & SA2). destruct (decide (i = last)) as [->|Hil]; [done|].
    assert (Hie : i ≠ e) by (intros ->; apply (Hfr id), lookup_insert_eq).
    assert (Hold : samp_empty (sampling b) i).
    { apply P13; [done|right]. intros id' Hi'. apply (Hfr id'). rewrite lookup_insert_ne; [done|]. intros ->. congruence. }
    specialize (SA2 i Hi Hil Hie). injection SA2 as _ _ _ _ _ _ _ G1 G2. unfold samp_empty in *. by rewrite G1, G2.
  - intros id' i. destruct (decide (id' = id)) as [->|Hne].
    + rewrite lookup_insert_eq. intros [= <-]. by rewrite Me.
    + rewrite lookup_insert_ne by done. intros Hi. destruct (Hrange id' i Hne Hi) as (? & ? & ?). destruct (Rj i) as [_ ->]; [done..|]. rewrite E2 by done. by eapply P14.
Qed.
Lemma move_down_spec b last e id rm : parts_ok b → builder_ok (batch_update_builder b) → _removed (batch_update_builder b) = rm →
  ids_ok (last + 1) (req_id_to_index b) (_req_ids b) (rm ++ [e]) → NoDup (rm ++ [e]) → 0 ≤ e < last → req_id_to_index b !! id = Some last →
  ∃ b', move_down last e b = (Ok tt, b') ∧ batch_inv last b' ∧ view b' = view b ∧ row_moved last e id b b'.
Proof.
  intros Hp Hb Hrm Hids Hnd He Hid. pose proof (ids_move _ _ _ _ _ _ Hids Hnd He Hid) as Hids'.
  destruct Hids as [H1 H2 H3 H4 H5]. pose proof (proj1 (H1 id last) Hid) as [_ Hl].
  assert (Hfree : ∀ id', req_id_to_index b !! id' ≠ Some e).
  { intros id' [_ Hx]%H1. destruct (H2 e ltac:(set_solver)) as [_ Hy]. congruence. }
  assert (Hrange : ∀ id' j, id' ≠ id → req_id_to_index b !! id' = Some j → 0 ≤ j ∧ j ≠ e ∧ j ≠ last).
  { intros id' j Hne Hj. pose proof (proj1 (H1 id' j) Hj) as [Hj0 Hjl]. split; [done|]. split; [intros ->; by apply (Hfree id')|]. intros ->. congruence. }
  destruct (move_down_run b last e id Hp He ltac:(lia) Hl Hid Hfree) as (b' & Hrun & Hmv). exists b'. split; [done|].
  destruct (move_down_rows b b' last e id Hp Hmv He Hid) as [(Re & _ & _) Rj].
  pose proof (move_down_parts b b' last e id Hp Hmv He ltac:(lia) Hid Hrange) as Hp'.
  pose proof (mv_index _ _ _ _ _ Hmv) as MI. pose proof (mv_ids _ _ _ _ _ Hmv) as MIDS. pose proof (mv_builder _ _ _ _ _ Hmv) as MBU.
  split; [|split; [|done]].
  - split; [|by rewrite MBU; destruct (is_pooling_model b), Hb as [B1 B2], (batch_update_builder b); split|done].
    rewrite MIDS, MI, MBU. destruct (is_pooling_model b), (batch_update_builder b); simpl in *; by subst.
  - apply (view_move b b' id last e Hid MI Re). intros id' j Hne Hj. destruct (Hrange id' j Hne Hj) as (? & ? & ?). by apply Rj.
Qed.

(* ===================================================================== *)
(** ** Condensing                                                         *)
(* ===================================================================== *)

Lemma skip_empty_spec fuel (k : Z) (rm : list Z) : (length (filter (λ x, (x ≤ k)%Z) rm) < fuel)%nat →
  ∃ k', skip_empty fuel k rm = Ok k' ∧ k' ≤ k ∧ k' ∉ rm ∧ ∀ i, k' < i ≤ k → i ∈ rm.
Proof.
  revert k. induction fuel as [|fuel IH]; intros k Hf; [lia|]. simpl. case_bool_decide as Hin.
  - destruct (IH (k - 1)) as (k' & H1 & H2 & H3 & H4).
    { apply elem_of_split in Hin as (l1 & l2 & ->). rewrite !filter_app, !filter_cons in *. rewrite decide_True in Hf by lia. rewrite decide_False by lia.
      rewrite !length_app in *. simpl in *. assert (Hle : ∀ l : list Z, (length (filter (λ x, (x ≤ k - 1)%Z) l) ≤ length (filter (λ x, (x ≤ k)%Z) l))%nat).
      { intros l. induction l as [|x l IHl]; [done|]. rewrite !filter_cons. destruct (decide (x ≤ k - 1)), (decide (x ≤ k)); simpl; lia. }
      pose proof (Hle l1). pose proof (Hle l2). lia. }
    exists k'. split_and!; [done|lia|done|]. intros i Hi. destruct (decide (i = k)) as [->|]; [done|]. apply H4. lia.
  - exists k. split_and!; [done|lia|done|lia].
Qed.
Lemma pop_sorted (u : BatchUpdateBuilder (Added F)) l e : _is_removed_sorted u = true → _removed u = l ++ [e] →
  peek_removed u = (Ok (Some e), u) ∧ pop_removed u = (Ok (Some e), u <| _removed := l |>).
Proof.
  intros Hs Hr. unfold peek_removed, pop_removed, has_removed, _ensure_removed_sorted. rewrite !run_get, Hr, bool_decide_false by (by destruct l). simpl.
  unfold bind, get. rewrite Hs. simpl. unfold gets, modify. rewrite Hr, last_snoc, length_app. simpl. by rewrite Nat.add_sub, take_app_length.
Qed.

(** One iteration that fills the lowest free row [e] with the last request. *)
Inductive condense_step b b' : Prop :=
  | CondenseStep last e id rm :
      batch_inv (last + 1) b → _is_removed_sorted (batch_update_builder b) = true →
      _removed (batch_update_builder b) = rm ++ [e] → 0 ≤ e < last → req_id_to_index b !! id = Some last →
      row_moved last e id (b <| batch_update_builder ::= λ u, u <| _removed := rm |> |>) b' →
      batch_inv last b' → view b' = view b → condense_step b b'.
Lemma ids_lower hi hi' idx ids rm : ids_ok hi idx ids rm → 0 ≤ hi' ≤ hi → (∀ i, hi' ≤ i < hi → i ∈ rm) → ids_ok hi' idx ids rm.
Proof.
  intros [H1 H2 H3 H4 H5] Hle Hin. split; [done|done|..].
  - intros i Hi. apply H3. lia.
  - intros i Hi id Hl. destruct (decide (i < hi)); [destruct (H2 i ltac:(apply Hin; lia)); congruence|by apply (H4 i ltac:(lia) id)].
  - lia.
Qed.
Lemma row_moved_removed last e id b b' : row_moved last e id b b' →
  _removed (batch_update_builder b') = _removed (batch_update_builder b) ∧
  _is_removed_sorted (batch_update_builder b') = _is_removed_sorted (batch_update_builder b).
Proof. intros H. rewrite (mv_builder _ _ _ _ _ H). by destruct (is_pooling_model b), (batch_update_builder b). Qed.

Lemma parts_builder b u : parts_ok b → parts_ok (b <| batch_update_builder := u |>).
Proof. intros [P1 P2 P3 P4 P5 P6 P7 P8 P9 P10 P11 P12 P13 P14]. destruct b. by split. Qed.
Lemma condense_loop_spec fuel last b id0 i0 : batch_inv (last + 1) b → _is_removed_sorted (batch_update_builder b) = true →
  (length (_removed (batch_update_builder b)) ≤ fuel)%nat → req_id_to_index b !! id0 = Some i0 →
  ∃ b' hi, condense_loop fuel last b = (Ok tt, b') ∧ rtc condense_step b b' ∧ batch_inv hi b' ∧
    ∀ i, 0 ≤ i < hi → _req_ids b' !! Z.to_nat i ≠ Some None.
Proof.
  revert b last id0 i0. induction fuel as [|fuel IH]; intros b last id0 i0 Hinv Hsort Hfuel Hid0; cbn [condense_loop]; rewrite run_get;
    destruct (bool_decide_reflect (_removed (batch_update_builder b) = [])) as [Hnil|Hne].
  1,3: exists b, (last + 1); (split; [done|]); (split; [apply rtc_refl|]); (split; [done|]); intros i Hi Hn;
    pose proof (ix_none _ _ _ _ (bi_ids _ _ Hinv) i Hi Hn) as Hin; rewrite Hnil in Hin; by apply elem_of_nil in Hin.
  { exfalso. destruct (_removed (batch_update_builder b)); simpl in *; [done|lia]. }
  destruct Hinv as [Hids Hbk Hp]. pose proof (bk_nodup _ Hbk) as Hnd. set (rm0 := _removed (batch_update_builder b)) in *.
  destruct (skip_empty_spec (S (length rm0)) last rm0) as (k & Hk & Hkl & Hkn & Hkr).
  { pose proof (length_filter (λ x, x ≤ last) rm0). lia. }
  rewrite run_of_res, Hk. pose proof (index_range (last + 1) b id0 i0 ltac:(by split) Hid0) as (Hi0 & _ & _).
  assert (Hki : i0 ≤ k). { destruct (decide (i0 ≤ k)); [done|]. destruct (ix_removed _ _ _ _ Hids i0) as [_ Hn]; [apply Hkr; lia|].
    pose proof (proj2 (proj1 (ix_live _ _ _ _ Hids id0 i0) Hid0)). congruence. }
  assert (Hids' : ids_ok (k + 1) (req_id_to_index b) (_req_ids b) rm0). { apply (ids_lower (last + 1)); [done|lia|]. intros i Hi. apply Hkr. lia. }
  destruct (exists_last Hne) as (rm & e & Hrm). destruct (pop_sorted _ rm e Hsort Hrm) as [Hpeek Hpop].
  erewrite run_on_builder by exact Hpeek. replace (b <| batch_update_builder := batch_update_builder b |>) with b by (by destruct b).
  assert (Hin : e ∈ rm0) by (rewrite Hrm; set_solver). destruct (ix_removed _ _ _ _ Hids e Hin) as [He0 _].
  assert (Hleast : ∀ x, x ∈ rm0 → e ≤ x).
  { intros x Hx. rewrite Hrm in Hx. apply elem_of_app in Hx as [Hx| ->%list_elem_of_singleton]; [|lia].
    pose proof (bk_sorted _ Hbk Hsort) as Hss. fold rm0 in Hss. rewrite Hrm in Hss. by eapply sorted_last_least. }
  destruct (Z.leb_spec k e) as [Hstop|Hgo].
  - exists b, (k + 1). split; [done|]. split; [apply rtc_refl|]. split; [by split|]. intros i Hi Hn.
    pose proof (ix_none _ _ _ _ Hids' i Hi Hn) as Hini. pose proof (Hleast i Hini). assert (i = k) as -> by lia. done.
  - erewrite run_on_builder by exact Hpop. set (b1 := b <| batch_update_builder := _ |>).
    assert (Hb1 : req_id_to_index b1 = req_id_to_index b ∧ _req_ids b1 = _req_ids b ∧ _removed (batch_update_builder b1) = rm ∧
      _is_removed_sorted (batch_update_builder b1) = true ∧ b1 = b <| batch_update_builder ::= λ u, u <| _removed := rm |> |>).
    { unfold b1. destruct b as [? ? ? ? ? ? ? ? ? ? ? ? ? ? ? [] ? ? ? ?]. simpl in *. by subst. }
    destruct Hb1 as (I1 & I2 & I3 & I4 & I5).
    assert (Hlive : ∃ id, req_id_to_index b !! id = Some k).
    { destruct (np_get_some (_req_ids b) k) as ([id|] & _ & Hlk); [pose proof (ix_hi _ _ _ _ Hids'); lia| |].
      - exists id. apply (ix_live _ _ _ _ Hids). split; [lia|done].
      - exfalso. apply Hkn. apply (ix_none _ _ _ _ Hids'); [lia|done]. }
    destruct Hlive as (id & Hid). unfold rm0 in *. rewrite Hrm in *.
    destruct (move_down_spec b1 k e id rm) as (b2 & Hrun & Hinv2 & Hview2 & Hmv); [by apply parts_builder| |done|by rewrite I1, I2|done|lia|by rewrite I1|].
    { destruct Hbk as [K1 K2]. rewrite Hrm in *. unfold b1. destruct b as [? ? ? ? ? ? ? ? ? ? ? ? ? ? ? [] ? ? ? ?]. simpl in *. split; simpl.
      - by apply NoDup_app in K1 as (? & _ & _).
      - intros Hs. specialize (K2 Hs). by apply StronglySorted_app_1_l in K2. }
    mstep Hrun. destruct (row_moved_removed _ _ _ _ _ Hmv) as [R1 R2]. rewrite I3 in R1. rewrite I4 in R2.
    destruct (IH b2 (k - 1) id e) as (b' & hi & Hl & Hsteps & Hinv' & Hno).
    + by replace (k - 1 + 1) with k by lia.
    + done.
    + rewrite R1. rewrite length_app in Hfuel. simpl in Hfuel. lia.
    + rewrite (mv_index _ _ _ _ _ Hmv). apply lookup_insert_eq.
    + exists b', hi. split; [done|]. split; [|done]. eapply rtc_l; [|done]. apply (CondenseStep _ _ k e id rm); try done.
      split; [by rewrite Hrm|done|done].
Qed.

(** Between [condense] and [refresh_metadata]: the requests are in the first rows. *)
Record compact b : Prop := {
  cp_live id i : req_id_to_index b !! id = Some i ↔ 0 ≤ i ∧ _req_ids b !! Z.to_nat i = Some (Some id);
  cp_full i : _req_ids b !! i ≠ Some None;
  cp_parts : parts_ok b;
}.
Lemma compact_size b : compact b → len (_req_ids b) = num_reqs b.
Proof.
  intros [H1 H2 _]. symmetry. unfold num_reqs. apply (ids_compact (len (_req_ids b)) _ (_req_ids b) []).
  - split; [done|by intros i ?%elem_of_nil|..].
    + intros i _ Hn. by destruct (H2 (Z.to_nat i)).
    + intros i Hi id Hl. apply lookup_lt_Some in Hl. unfold len in Hi. lia.
    + pose proof (len_nonneg (_req_ids b)). lia.
  - intros i _. apply H2.
Qed.
Lemma compact_range b id i : compact b → req_id_to_index b !! id = Some i → 0 ≤ i < len (_req_ids b) ∧ i < max_num_reqs b.
Proof.
  intros [H1 H2 Hp] [Hi Hl]%H1. apply lookup_lt_Some in Hl. pose proof (pt_ids _ Hp). unfold len in *. lia.
Qed.
#[export] Instance same_config_refl : Reflexive same_config.
Proof. intros b. split; try done. unfold same_tables. induction (block_tables b) as [|t ts IH]; constructor; [by destruct t|done]. Qed.
#[export] Instance same_config_trans : Transitive same_config.
Proof.
  intros b1 b2 b3 [A1 A2 A3 A4 A5] [B1 B2 B3 B4 B5]. split; try congruence. unfold same_tables in *.
  clear -A5 B5. revert B5. generalize (block_tables b3) as ts. induction A5; intros ts Hts; inversion Hts; subst; constructor; [by eapply same_table_trans|by apply IHA5].
Qed.
Lemma condense_steps b b' : rtc condense_step b b' → same_config b b' ∧ view b' = view b ∧ sets b' = sets b ∧
  len (_req_ids b') = len (_req_ids b) ∧ dom (req_id_to_index b') = dom (req_id_to_index b).
Proof.
  induction 1 as [b|b b1 b2 [last e id rm Hinv Hs Hrm He Hid Hmv _ Hv] _ (IH1 & IH2 & IH3 & IH4 & IH5)]; [done|].
  assert (Hc : same_config b b1). { destruct (mv_config _ _ _ _ _ Hmv) as [C1 C2 C3 C4 C5]. by destruct b. }
  split; [by etrans|]. split; [congruence|]. split; [rewrite IH3, (mv_sets _ _ _ _ _ Hmv); by destruct b|].
  split; [rewrite IH4, (mv_ids _ _ _ _ _ Hmv), !len_py_set; by destruct b|].
  rewrite IH5, (mv_index _ _ _ _ _ Hmv). replace (req_id_to_index (b <| batch_update_builder ::= _ |>)) with (req_id_to_index b) by (by destruct b).
  rewrite dom_insert_L. assert (id ∈ dom (req_id_to_index b)) by (apply elem_of_dom; by eexists). set_solver.
Qed.

(** The lists cut after the last request. *)
Definition trimmed (n : Z) b : InputBatch F :=
  b <| _req_ids ::= λ l, slice_to l n |> <| req_output_token_ids ::= λ l, slice_to l n |> <| spec_token_ids ::= λ l, slice_to l n |>.
Lemma trim_spec hi b : batch_inv hi b → (∀ i, 0 ≤ i < hi → _req_ids b !! Z.to_nat i ≠ Some None) → num_reqs b = hi →
  compact (trimmed hi b) ∧ view (trimmed hi b) = view b.
Proof.
  intros Hinv Hno _. pose proof (λ id i, index_range hi b id i Hinv) as Hrange. destruct Hinv as [[H1 H2 H3 H4 H5] _ Hp].
  destruct Hp as [P1 P2 P3 P4 P5 P6 P7 P8 P9 P10 P11 P12 P13 P14].
  assert (Hlk : ∀ {A} (l : list A) i, hi ≤ len l → 0 ≤ i < hi → slice_to l hi !! Z.to_nat i = l !! Z.to_nat i).
  { intros A l i Hl Hi. destruct (slice_to_prefix l hi ltac:(lia)) as [-> _]. apply lookup_take_lt. lia. }
  assert (Hl1 : len (slice_to (_req_ids b) hi) = hi) by (apply slice_to_prefix; lia).
  assert (Hl2 : len (slice_to (req_output_token_ids b) hi) = hi) by (apply slice_to_prefix; lia).
  assert (Hl3 : len (slice_to (spec_token_ids b) hi) = hi) by (apply slice_to_prefix; lia).
  assert (Hact : ∀ i, 0 ≤ i < hi → active (tokens b) (slice_to (spec_token_ids b) hi) i = active (tokens b) (spec_token_ids b) i).
  { intros i Hi. unfold active. by rewrite (Hlk _ (spec_token_ids b)) by lia. }
  assert (Hrow : ∀ i, 0 ≤ i < hi → row_at (trimmed hi b) i = row_at b i ∧ mask_at (trimmed hi b) i = mask_at b i).
  { intros i Hi. unfold trimmed, row_at, mask_at. destruct b. simpl in *. rewrite !Hact by done. rewrite !Hlk by lia. done. }
  split.
  - split; unfold trimmed in *; destruct b as [pool n0 w0 v ids idx outs spec tok emb ts lo sa st ma bu need pp ps prev]; simpl in *.
    + intros id i. rewrite H1. split; intros [Hi Hl]; (split; [done|]).
      * destruct (Hrange id i ltac:(by apply H1)) as (? & _). by rewrite Hlk by lia.
      * assert (i < hi). { apply lookup_lt_Some in Hl. unfold len in Hl1. lia. } by rewrite Hlk in Hl by lia.
    + intros i Hi. assert (Hlt : Z.of_nat i < hi). { apply lookup_lt_Some in Hi. unfold len in Hl1. lia. }
      apply (Hno (Z.of_nat i) ltac:(lia)). rewrite <-(Hlk _ ids) by lia. by rewrite Nat2Z.id.
    + split; simpl; try done; try lia.
      * intros i s Hi Hs. apply lookup_lt_Some in Hs. unfold len in Hi, Hl1, Hl3. lia.
      * intros id i Hi. destruct (Hrange id i Hi) as (? & _). destruct (P12 id i Hi) as (n1 & s1 & ? & ? & ? & ?). exists n1, s1. by rewrite Hlk by lia.
      * intros id i Hi. destruct (Hrange id i Hi) as (? & _). destruct (Hrow i ltac:(lia)) as [_ Hm]. rewrite Hm. by eapply P14.
  - unfold view. replace (req_id_to_index (trimmed hi b)) with (req_id_to_index b) by (by destruct b).
    apply map_fmap_ext. intros id i Hi. destruct (Hrange id i Hi) as (? & _). by apply Hrow.
Qed.
Lemma view_builder b u : view (b <| batch_update_builder := u |>) = view b.
Proof. by destruct b. Qed.
(** [condense]: with its moves, for what depends on them. *)
Lemma condense_run b : batch_ok b → ∃ b1 b', condense b = (Ok tt, b') ∧
  (∃ l, l ≡ₚ _removed (batch_update_builder b) ∧ b1 = b <| batch_update_builder ::= λ u, u <| _removed := l |> <| _is_removed_sorted := true |> |>) ∧
  batch_ok b1 ∧ compact b' ∧ view b' = view b ∧ ∃ b2, rtc condense_step b1 b2 ∧ batch_update_builder b' = batch_update_builder b2 ∧
    req_id_to_index b' = req_id_to_index b2 ∧ (sets b' = sets b ∧ allowed_token_ids_mask b' = allowed_token_ids_mask b2) ∧ same_config b b'.
Proof.
  intros [Hids Hbk Hp]. unfold condense. rewrite run_gets. destruct (ensure_sorted_spec (batch_update_builder b) Hbk) as (l & He & Hperm & Hss).
  set (u1 := batch_update_builder b <| _removed := l |> <| _is_removed_sorted := true |>) in *.
  assert (Hu1 : _removed u1 = l ∧ _is_removed_sorted u1 = true) by (unfold u1; by destruct (batch_update_builder b)). destruct Hu1 as [U1 U2].
  assert (Hrem : removed (batch_update_builder b) = (Ok l, u1)). { unfold removed. mstep He. unfold gets. by rewrite U1. }
  erewrite run_on_builder by exact Hrem. set (b1 := b <| batch_update_builder := u1 |>).
  assert (Hb1 : req_id_to_index b1 = req_id_to_index b ∧ _req_ids b1 = _req_ids b ∧ batch_update_builder b1 = u1 ∧ sets b1 = sets b) by (by destruct b).
  destruct Hb1 as (I1 & I2 & I3 & I4).
  assert (Hids1 : ids_ok (len (_req_ids b)) (req_id_to_index b) (_req_ids b) l).
  { destruct Hids as [H1 H2 H3 H4 H5]. split; try done; intros i; rewrite ?Hperm; auto. }
  assert (Hok1 : batch_ok b1).
  { split; [by rewrite I1, I2, I3, U1| |by apply parts_builder]. rewrite I3. split; rewrite U1; [|done]. rewrite Hperm. apply Hbk. }
  assert (Hnum : num_reqs b1 = num_reqs b) by (by destruct b).
  pose proof (view_builder b u1 : view b1 = view b) as Hv1.
  assert (Hcfg : same_config b b1) by (destruct (same_config_refl b) as [C1 C2 C3 C4 C5]; by destruct b).
  assert (Hwhich : b1 = b <| batch_update_builder ::= λ u, u <| _removed := l |> <| _is_removed_sorted := true |> |>) by (by destruct b).
  assert (Hnd : NoDup l) by (rewrite Hperm; apply Hbk).
  pose proof (ids_total _ _ _ Hids1 Hnd) as Htotal. fold (num_reqs b) in Htotal.
  destruct (bool_decide_reflect (l = [])) as [->|Hne].
  { exists b1, b1. split; [done|]. split; [by exists []|]. split; [done|]. split.
    - split; [by rewrite I1, I2; apply Hids1| |apply Hok1]. intros i Hn. rewrite I2 in Hn.
      pose proof (ix_none _ _ _ _ Hids1 (Z.of_nat i)) as Hin. rewrite Nat2Z.id in Hin. apply lookup_lt_Some in Hn as Hlt. unfold len in Hin.
      specialize (Hin ltac:(lia) Hn). by apply elem_of_nil in Hin.
    - split; [done|]. exists b1. split; [apply rtc_refl|]. done. }
  destruct (Z.eqb_spec (num_reqs b) 0) as [Hz|Hz].
  { exists b1. eexists. split; [reflexivity|]. split; [by exists l|]. split; [done|].
    assert (Hemp : req_id_to_index b = ∅). { apply map_size_empty_inv. unfold num_reqs in Hz. lia. }
    split; [|split; [|exists b1; split; [apply rtc_refl|]; by destruct b, Hcfg]].
    - split.
      + intros id i. assert (H0 : ∀ b0 : InputBatch F, req_id_to_index (b0 <| _req_ids := [] |> <| req_output_token_ids := [] |> <| spec_token_ids := [] |>) = req_id_to_index b0) by (by intros []).
        rewrite H0, I1, Hemp. split; [by rewrite lookup_empty|]. intros [_ Hx]. by destruct b.
      + intros i. by destruct b.
      + destruct (bi_parts _ _ Hok1) as [P1 P2 P3 P4 P5 P6 P7 P8 P9 P10 P11 P12 P13 P14]. clear -P1 P2 P3 P4 P5 P6 P7 P8 P12 P13 P14 Hemp I1.
        rewrite Hemp in I1. pose proof (len_nonneg (_req_ids b1)) as Hnn. destruct b1. simpl in *. subst. split; simpl; try done. rewrite len_nil. lia.
    - unfold view. replace (req_id_to_index (b1 <| _req_ids := [] |> <| req_output_token_ids := [] |> <| spec_token_ids := [] |>)) with (req_id_to_index b1) by (by destruct b1).
      by rewrite I1, Hemp. }
  destruct (map_choose (req_id_to_index b)) as (id0 & i0 & Hid0). { intros Hemp. apply Hz. unfold num_reqs. by rewrite Hemp, map_size_empty. }
  destruct (condense_loop_spec (S (length l)) (num_reqs b + len l - 1) b1 id0 i0) as (b2 & hi & Hrun & Hsteps & Hinv2 & Hno).
  { replace (num_reqs b + len l - 1 + 1) with (len (_req_ids b1)) by (rewrite I2; lia). done. } { by rewrite I3. } { rewrite I3, U1. lia. } { by rewrite I1. }
  mstep Hrun. pose proof (ids_compact _ _ _ _ (bi_ids _ _ Hinv2) Hno) as Hhi. destruct (condense_steps b1 b2 Hsteps) as (S1 & S2 & S3 & S4 & S5).
  assert (Hn2 : hi = num_reqs b). { rewrite <-Hhi. unfold num_reqs. by rewrite <-!size_dom, S5, I1. }
  destruct (trim_spec hi b2 Hinv2 Hno Hhi) as [Hc Hv]. rewrite Hn2 in Hc, Hv. exists b1. eexists. split; [reflexivity|].
  change (b2 <| _req_ids ::= _ |> <| req_output_token_ids ::= _ |> <| spec_token_ids ::= _ |>) with (trimmed (num_reqs b) b2).
  split; [by exists l|]. split; [done|]. split; [done|]. split; [by rewrite Hv, S2|]. exists b2. split; [done|].
  assert (Hcfg2 : same_config b b2) by (by etrans). split; [by destruct b2|]. split; [by destruct b2|]. split; [split; [rewrite <-I4, <-S3|]; by destruct b2|].
  destruct Hcfg2 as [C1 C2 C3 C4 C5]. by destruct b2.
Qed.

(* ===================================================================== *)
(** ** Swapping rows                                                      *)
(* ===================================================================== *)

Definition swapped (i1 i2 i : Z) : Z := if i =? i1 then i2 else if i =? i2 then i1 else i.
Lemma swapped_invol i1 i2 i : swapped i1 i2 (swapped i1 i2 i) = i.
Proof. unfold swapped. repeat case_match; bool_to_prop; lia. Qed.
Lemma swapped_range i1 i2 i n : 0 ≤ i1 < n → 0 ≤ i2 < n → 0 ≤ i → 0 ≤ swapped i1 i2 i ∧ (n ≤ i → swapped i1 i2 i = i).
Proof. unfold swapped. repeat case_match; bool_to_prop; lia. Qed.
Lemma swapped_nonneg i1 i2 i : 0 ≤ i1 → 0 ≤ i2 → 0 ≤ i → 0 ≤ swapped i1 i2 i.
Proof. unfold swapped. repeat case_match; lia. Qed.
(** The parts after a swap: row [i] is the former row [swapped i1 i2 i]. *)
Record rows_swapped (i1 i2 : Z) b b' : Prop := {
  sw_config : same_config b b';
  sw_index : req_id_to_index b' = swapped i1 i2 <$> req_id_to_index b;
  sw_ids : len (_req_ids b') = len (_req_ids b) ∧ ∀ i, 0 ≤ i → _req_ids b' !! Z.to_nat i = _req_ids b !! Z.to_nat (swapped i1 i2 i);
  sw_outputs : len (req_output_token_ids b') = len (req_output_token_ids b) ∧
    ∀ i, 0 ≤ i → req_output_token_ids b' !! Z.to_nat i = req_output_token_ids b !! Z.to_nat (swapped i1 i2 i);
  sw_spec : len (spec_token_ids b') = len (spec_token_ids b) ∧
    ∀ i, 0 ≤ i → spec_token_ids b' !! Z.to_nat i = spec_token_ids b !! Z.to_nat (swapped i1 i2 i);
  sw_tokens : tokens_shape (max_num_reqs b) (max_model_len b) (tokens b') ∧
    ∀ i, 0 ≤ i → let k := active (tokens b) (spec_token_ids b) (swapped i1 i2 i) in tok_row (tokens b') k i = tok_row (tokens b) k (swapped i1 i2 i);
  sw_embeds i : req_prompt_embeds b' !! i = req_prompt_embeds b !! swapped i1 i2 i;
  sw_tables : tables_ok (max_num_reqs b) (block_tables b') ∧
    ∀ i, 0 ≤ i → blocks_at (block_tables b') i = blocks_at (block_tables b) (swapped i1 i2 i);
  sw_lora : ∃ lm, lora b' = lora b <| request_lora_mapping := lm |> ∧ len lm = max_num_reqs b ∧
    ∀ i, 0 ≤ i → lm !! Z.to_nat i = request_lora_mapping (lora b) !! Z.to_nat (swapped i1 i2 i);
  sw_sampling : sampling_shape (max_num_reqs b) (sampling b') ∧
    if is_pooling_model b then sampling b' = sampling b
    else ∀ i, 0 ≤ i → samp_row (sampling b') i = samp_row (sampling b) (swapped i1 i2 i);
  sw_mask : mask_ok (max_num_reqs b) (vocab_size b) (allowed_token_ids_mask b') ∧ (is_pooling_model b = false →
    mask_row (vocab_size b) (allowed_token_ids_mask b') i1 = mask_row (vocab_size b) (allowed_token_ids_mask b) i2 ∧
    rows_kept (max_num_reqs b) (vocab_size b) i1 (allowed_token_ids_mask b) (allowed_token_ids_mask b'));
  sw_needs : logits_processing_needs_token_ids b' = logits_processing_needs_token_ids b;
  sw_sets : sets b' = sets b;
  sw_builder : batch_update_builder b' = if is_pooling_model b then batch_update_builder b
                              else batch_update_builder b <| moved ::= λ l, l ++ [(i1, i2, SWAP)] |>;
}.
(** From facts on the two rows and on the others. *)
Lemma swapped_fun {A} (f f' : Z → A) i1 i2 : f' i1 = f i2 → f' i2 = f i1 → (∀ j, 0 ≤ j → j ≠ i1 → j ≠ i2 → f' j = f j) →
  ∀ i, 0 ≤ i → f' i = f (swapped i1 i2 i).
Proof. intros H1 H2 H3 i Hi. unfold swapped. repeat case_match; bool_to_prop; subst; auto. Qed.
Lemma swapped_index (idx : gmap string Z) i1 i2 id1 id2 : idx !! id1 = Some i1 → idx !! id2 = Some i2 →
  (∀ id id' i, idx !! id = Some i → idx !! id' = Some i → id = id') → <[id2 := i1]> (<[id1 := i2]> idx) = swapped i1 i2 <$> idx.
Proof.
  intros H1 H2 Hinj. apply map_eq. intros id. rewrite lookup_fmap. unfold swapped. destruct (decide (id = id2)) as [->|N2].
  - rewrite lookup_insert_eq, H2. simpl. repeat case_match; bool_to_prop; subst; try done; lia.
  - rewrite lookup_insert_ne by done. destruct (decide (id = id1)) as [->|N1]; [rewrite lookup_insert_eq, H1; simpl; by rewrite Z.eqb_refl|].
    rewrite lookup_insert_ne by done. destruct (idx !! id) as [i|] eqn:E; [|done]. simpl. repeat case_match; bool_to_prop; subst; try done.
    + destruct N1. by eapply Hinj.
    + destruct N2. by eapply Hinj.
Qed.
Lemma swap_states_run b i1 i2 : compact b → 0 ≤ i1 < num_reqs b → 0 ≤ i2 < num_reqs b →
  ∃ b', swap_states i1 i2 b = (Ok tt, b') ∧ rows_swapped i1 i2 b b'.
Proof.
  intros Hc Hi1 Hi2. rewrite <-(compact_size b Hc) in *. destruct Hc as [Hlive Hfull [P1 P2 P3 P4 P5 P6 P7 P8 P9 P10 P11 P12 P13 P14]].
  assert (Hget : ∀ i, 0 ≤ i < len (_req_ids b) → ∃ id, np_get (_req_ids b) i = Ok (Some id) ∧ req_id_to_index b !! id = Some i).
  { intros i Hi. destruct (np_get_some (_req_ids b) i Hi) as ([id|] & Hg & Hl); [|by destruct (Hfull (Z.to_nat i))].
    exists id. split; [done|]. apply Hlive. split; [lia|done]. }
  destruct (Hget i1 Hi1) as (id1 & G1 & X1), (Hget i2 Hi2) as (id2 & G2 & X2).
  destruct (P12 id1 i1 X1) as (n1 & s1 & N1 & Q1 & N10 & N1w), (P12 id2 i2 X2) as (n2 & s2 & N2 & Q2 & N20 & N2w).
  pose proof (len_nonneg s1). pose proof (len_nonneg s2).
  assert (A1 : active (tokens b) (spec_token_ids b) i1 = n1 + len s1) by (unfold active; by rewrite N1, Q1).
  assert (A2 : active (tokens b) (spec_token_ids b) i2 = n2 + len s2) by (unfold active; by rewrite N2, Q2).
  set (m := Z.max (n1 + len s1) (n2 + len s2)). set (n := max_num_reqs b) in *. set (w := max_model_len b) in *.
  destruct (np_swap_col (len (_req_ids b)) (_req_ids b) i1 i2 eq_refl Hi1 Hi2) as (ids' & Hids & D1 & D2 & D3 & D4).
  destruct (np_swap_col (len (_req_ids b)) (req_output_token_ids b) i1 i2 P9 Hi1 Hi2) as (outs' & Houts & O1 & O2 & O3 & O4).
  destruct (np_swap_col (len (spec_token_ids b)) (spec_token_ids b) i1 i2 eq_refl ltac:(lia) ltac:(lia)) as (spec' & Hspec & S1 & S2 & S3 & S4).
  destruct (tokens_swap_spec n w (tokens b) i1 i2 m P1 ltac:(lia) ltac:(lia) ltac:(unfold m; lia)) as (t' & Ht & T1 & T2 & T3).
  destruct (multi_swap_row_spec n (block_tables b) i1 i2 P3 ltac:(lia) ltac:(lia)) as (ts' & Hts & B1 & B2 & B3 & B4 & B5).
  destruct (np_swap_col n (request_lora_mapping (lora b)) i1 i2 (lo_len _ _ _ P7) ltac:(lia) ltac:(lia)) as (lm & Hlm & L1 & L2 & L3 & L4).
  destruct (sampling_swap_spec n i1 i2 (sampling b) P2 ltac:(lia) ltac:(lia)) as (sm & Hsm & M1 & M2 & M3 & M4).
  destruct (mask_swap_ok n (vocab_size b) i1 i2 (allowed_token_ids_mask b) P4 ltac:(lia) ltac:(lia)) as (mk & Hmk & K1).
  destruct (swap_dict_values_lookup (req_prompt_embeds b) i1 i2) as (E1 & E2 & E3).
  assert (Hinj : ∀ id id' i, req_id_to_index b !! id = Some i → req_id_to_index b !! id' = Some i → id = id').
  { intros id id' i [_ ?]%Hlive [_ ?]%Hlive. congruence. }
  pose proof (swapped_index _ _ _ _ _ X1 X2 Hinj) as Hidx.
  assert (Htok : ∀ i, 0 ≤ i → let k := active (tokens b) (spec_token_ids b) (swapped i1 i2 i) in tok_row t' k i = tok_row (tokens b) k (swapped i1 i2 i)).
  { intros i Hi. cbv zeta. unfold swapped. repeat case_match; bool_to_prop; subst; [rewrite A2|rewrite A1|by apply T3]; (apply T2; unfold m; lia). }
  pose proof (swapped_fun (λ i, _req_ids b !! Z.to_nat i) (λ i, ids' !! Z.to_nat i) i1 i2 D2 D3 D4) as GD.
  pose proof (swapped_fun (λ i, req_output_token_ids b !! Z.to_nat i) (λ i, outs' !! Z.to_nat i) i1 i2 O2 O3 O4) as GO.
  pose proof (swapped_fun (λ i, spec_token_ids b !! Z.to_nat i) (λ i, spec' !! Z.to_nat i) i1 i2 S2 S3 S4) as GS.
  pose proof (swapped_fun (blocks_at (block_tables b)) (blocks_at ts') i1 i2 B3 B4 B5) as GB.
  pose proof (swapped_fun (λ i, request_lora_mapping (lora b) !! Z.to_nat i) (λ i, lm !! Z.to_nat i) i1 i2 L2 L3 L4) as GL.
  pose proof (swapped_fun (samp_row (sampling b)) (samp_row sm) i1 i2 M2 M3 M4) as GM.
  assert (GE : ∀ i, swap_dict_values (req_prompt_embeds b) i1 i2 !! i = req_prompt_embeds b !! swapped i1 i2 i).
  { intros i. unfold swapped. repeat case_match; bool_to_prop; subst; auto. }
  clear A1 A2 Hinj Hget Hlive Hfull. destruct b as [pool n0 w0 v ids idx outs spec tok emb ts lo sa st ma bu need pp ps prev]. simpl in *. subst n w.
  destruct pool; (eexists; split; [
    unfold swap_states; rewrite run_get; cbn [_req_ids]; rewrite run_of_res, G1, run_of_res, G2; unfold _get_active_token_count; cbn [tokens spec_token_ids];
    rewrite run_of_res, (proj2 (np_get_ok _ i1 _ ltac:(lia)) N1); simpl; rewrite (proj2 (np_get_ok _ i1 _ ltac:(lia)) Q1); simpl;
    rewrite run_of_res, (proj2 (np_get_ok _ i2 _ ltac:(lia)) N2); simpl; rewrite (proj2 (np_get_ok _ i2 _ ltac:(lia)) Q2); simpl;
    unfold on_ids, on_outputs, on_spec, on_tokens, on_lora, on_sampling, on_mask;
    erewrite run_on_part by exact Hids; erewrite run_on_part by exact Houts; erewrite run_on_part by exact Hspec;
    rewrite X1, X2; cbn [of_option]; rewrite !run_ret, run_modify; erewrite run_on_part by exact Ht; rewrite run_modify;
    erewrite run_on_tables by exact Hts; erewrite run_on_part by (simpl; rewrite Hlm; reflexivity);
    first [reflexivity
          | erewrite run_on_builder by reflexivity; erewrite run_on_part by (simpl; exact Hsm); unfold on_part; simpl; rewrite Hmk; reflexivity] | ]);
  split; simpl; try done.
  all: try (split; [first [exact P4|apply K1]|intros Hpool; first [discriminate Hpool|apply K1]]).
  all: try (by split).
  all: try (by eexists).
  all: split; [lia|done].
Qed.
Lemma swap_rows b b' i1 i2 : rows_swapped i1 i2 b b' → ∀ i, 0 ≤ i →
  row_at b' i = row_at b (swapped i1 i2 i) ∧ mask_at b' i = mask_at b (swapped i1 i2 i).
Proof.
  intros [[C1 C2 C3 C4 C5] _ _ (_ & O) (_ & S) (_ & T) E (_ & B) (lm & L0 & _ & L) (_ & SA) _ _ _ _] i Hi.
  assert (Hlm : request_lora_mapping (lora b') = lm) by (rewrite L0; by destruct (lora b)).
  apply row_at_ext; rewrite ?Hlm, ?E; auto; [by apply T|]. intros Hpool. rewrite Hpool in SA. by apply SA.
Qed.
Lemma swap_parts b b' i1 i2 : compact b → rows_swapped i1 i2 b b' → 0 ≤ i1 < len (_req_ids b) → 0 ≤ i2 < len (_req_ids b) → compact b'.
Proof.
  intros Hc Hsw Hi1 Hi2. pose proof (swap_rows b b' i1 i2 Hsw) as Hrows. pose proof (λ id i, compact_range b id i Hc) as Hrange.
  destruct Hc as [Hlive Hfull [P1 P2 P3 P4 P5 P6 P7 P8 P9 P10 P11 P12 P13 P14]].
  destruct Hsw as [[C1 C2 C3 C4 C5] I1 (D0 & D) (O0 & O) (S0 & S) (T0 & T) E (B0 & B) (lm & L0 & L00 & L) (SA0 & SA) [MK _] ND _ _].
  pose proof (swapped_range i1 i2) as Hs.
  assert (Hidx : ∀ id i, req_id_to_index b' !! id = Some i ↔ 0 ≤ i ∧ req_id_to_index b !! id = Some (swapped i1 i2 i)).
  { intros id i. rewrite I1, lookup_fmap_Some. split.
    - intros (j & <- & Hj). rewrite swapped_invol. destruct (Hrange id j Hj) as [? _]. split; [apply swapped_nonneg; lia|done].
    - intros [Hi Hx]. exists (swapped i1 i2 i). by rewrite swapped_invol. }
  split.
  - intros id i. rewrite Hidx, Hlive. split; intros [Hi Hx]; (split; [done|]); [destruct Hx as [_ Hx]; by rewrite D|].
    split; [apply swapped_nonneg; lia|]. by rewrite <-D.
  - intros i Hn. specialize (D (Z.of_nat i) ltac:(lia)). rewrite Nat2Z.id in D. rewrite D in Hn. by apply (Hfull _ Hn).
  - split; rewrite ?C1, ?C2, ?C3, ?C4, ?D0, ?O0, ?S0, ?ND; try done.
    + rewrite L0. apply (lora_reindex _ (req_id_to_index b)); [done|done|]. intros x id. split.
      * intros (i & [Hi Hx]%Hidx & Hl). exists (swapped i1 i2 i). by rewrite <-L.
      * intros (i & Hx & Hl). destruct (Hrange id i Hx) as [Hi _]. exists (swapped i1 i2 i). rewrite Hidx, swapped_invol.
        destruct (Hs i (len (_req_ids b)) Hi1 Hi2 ltac:(lia)) as [? _]. rewrite L, swapped_invol by done. done.
    + intros i s Hi Hl. rewrite S in Hl by lia. rewrite (proj2 (Hs i (len (_req_ids b)) Hi1 Hi2 ltac:(lia))) in Hl by done. by eapply P11.
    + intros id i [Hi Hx]%Hidx. destruct (P12 id _ Hx) as (n1 & s1 & ? & ? & ? & ?). exists n1, s1. rewrite S by done.
      specialize (T i Hi). cbv zeta in T. injection T as -> _ _ _ _. done.
    + intros i Hi Hfr. destruct (is_pooling_model b) eqn:Epool; [rewrite SA; apply P13; [done|by left]|].
      destruct Hfr as [?|Hfr]; [done|]. assert (Hold : samp_empty (sampling b) (swapped i1 i2 i)).
      { apply P13; [apply swapped_nonneg; lia|right]. intros id Hx. apply (Hfr id). by apply Hidx. }
      specialize (SA i Hi). injection SA as _ _ _ _ _ _ _ G1 G2. unfold samp_empty in *. by rewrite G1, G2.
    + intros id i [Hi Hx]%Hidx. rewrite E. destruct (Hrows i Hi) as [_ ->]. by eapply P14.
Qed.
Lemma swap_states_spec b i1 i2 : compact b → 0 ≤ i1 < num_reqs b → 0 ≤ i2 < num_reqs b →
  ∃ b', swap_states i1 i2 b = (Ok tt, b') ∧ compact b' ∧ view b' = view b ∧ rows_swapped i1 i2 b b'.
Proof.
  intros Hc Hi1 Hi2. destruct (swap_states_run b i1 i2 Hc Hi1 Hi2) as (b' & Hrun & Hsw). rewrite <-(compact_size b Hc) in *. exists b'. split; [done|].
  split; [by eapply swap_parts|]. split; [|done]. apply map_eq. intros id. unfold view. rewrite (sw_index _ _ _ _ Hsw), !lookup_fmap.
  destruct (req_id_to_index b !! id) as [i|] eqn:Ei; [|done]. simpl. f_equal. destruct (compact_range b id i Hc Ei) as [Hi _].
  destruct (swap_rows b b' i1 i2 Hsw (swapped i1 i2 i)) as [-> _]; [apply swapped_nonneg; lia|]. by rewrite swapped_invol.
Qed.

(* ===================================================================== *)
(** ** Removing a request                                                 *)
(* ===================================================================== *)

(** The parts after row [i] of request [id] was emptied. *)
Record row_removed (i : Z) (id : string) b b' : Prop := {
  rv_config : same_config b b';
  rv_index : req_id_to_index b' = delete id (req_id_to_index b);
  rv_ids : _req_ids b' = py_set (_req_ids b) i None;
  rv_outputs : len (req_output_token_ids b') = len (req_output_token_ids b) ∧
    ∀ j, 0 ≤ j → j ≠ i → req_output_token_ids b' !! Z.to_nat j = req_output_token_ids b !! Z.to_nat j;
  rv_spec : spec_token_ids b' = py_set (spec_token_ids b) i [];
  rv_tokens : tokens b' = tokens b;
  rv_embeds : req_prompt_embeds b' = req_prompt_embeds b;
  rv_tables : tables_ok (max_num_reqs b) (block_tables b') ∧ ∀ j, 0 ≤ j → j ≠ i → blocks_at (block_tables b') j = blocks_at (block_tables b) j;
  rv_lora : lora_ok (max_num_reqs b) (delete id (req_id_to_index b)) (lora b') ∧
    ∀ j, 0 ≤ j → j ≠ i → request_lora_mapping (lora b') !! Z.to_nat j = request_lora_mapping (lora b) !! Z.to_nat j;
  rv_sampling : sampling b' = if is_pooling_model b then sampling b else sampling_remove i (sampling b);
  rv_mask : mask_ok (max_num_reqs b) (vocab_size b) (allowed_token_ids_mask b') ∧ (is_pooling_model b = false →
    rows_kept (max_num_reqs b) (vocab_size b) i (allowed_token_ids_mask b) (allowed_token_ids_mask b'));
  rv_needs : logits_processing_needs_token_ids b' = logits_processing_needs_token_ids b;
  rv_sets : sets b' = if is_pooling_model b then sets b else sets_remove id (sets b);
  rv_builder : batch_update_builder b' = batch_update_builder b <| _removed ::= λ l, l ++ [i] |> <| batch_changed := true |>;
}.
Lemma remove_request_run b id i : batch_ok b → req_id_to_index b !! id = Some i → _is_removed_sorted (batch_update_builder b) = false →
  ∃ b', remove_request id b = (Ok (Some i), b') ∧ row_removed i id b b'.
Proof.
  intros Hok Hid Hs. destruct (index_range _ b id i Hok Hid) as (Hi & _ & Hin). pose proof (λ id' j, index_range _ b id' j Hok) as Hrange.
  pose proof (λ id' j, index_inj _ b id' id j Hok) as Hinj. destruct Hok as [Hids Hbk [P1 P2 P3 P4 P5 P6 P7 P8 P9 P10 P11 P12 P13 P14]].
  set (n := max_num_reqs b) in *. destruct (multi_clear_row_spec n (block_tables b) i P3 ltac:(lia)) as (ts' & Hts & T1 & T2 & T3).
  destruct (lora_remove_spec n (req_id_to_index b) (lora b) i id P7 ltac:(lia) Hid) as (lo' & Hlo & L1 & L2).
  { intros id' j Hj. destruct (Hrange id' j Hj) as (? & _). split; [lia|]. intros ->. by eapply Hinj. }
  destruct (mask_remove_ok n (vocab_size b) i (allowed_token_ids_mask b) P4 ltac:(lia)) as (mk & Hmk & K1).
  assert (Go : len (py_set (req_output_token_ids b) i None) = len (req_output_token_ids b) ∧
    ∀ j, 0 ≤ j → j ≠ i → py_set (req_output_token_ids b) i None !! Z.to_nat j = req_output_token_ids b !! Z.to_nat j).
  { rewrite len_py_set. split; [done|]. intros j Hj Hne. by rewrite py_set_ne by lia. }
  clear Hrange Hinj. destruct b as [pool n0 w0 v ids idx outs spec tok emb ts lo sa st ma bu need pp ps prev]. simpl in *. subst n.
  destruct pool; (eexists; split; [
    unfold remove_request; rewrite run_get; cbn [req_id_to_index]; rewrite Hid; unfold on_ids, on_outputs, on_spec, on_lora, on_mask; rewrite run_modify;
    erewrite run_on_builder by (unfold removed_append; rewrite run_get; simpl; rewrite Hs; reflexivity);
    erewrite run_on_part by (simpl; apply list_set_ok; lia); erewrite run_on_part by (simpl; apply list_set_ok; lia);
    erewrite run_on_part by (simpl; apply list_set_ok; lia); erewrite run_on_tables by exact Hts; erewrite run_on_part by exact Hlo;
    first [reflexivity | cbn [is_pooling_model]; rewrite run_modify; erewrite run_on_part by exact Hmk; reflexivity] | ]);
  split; simpl; try done.
  all: split; [first [exact P4|apply K1]|intros Hpool; first [discriminate Hpool|apply K1]].
Qed.
Lemma remove_request_spec b id i : batch_ok b → req_id_to_index b !! id = Some i → _is_removed_sorted (batch_update_builder b) = false →
  ∃ b', remove_request id b = (Ok (Some i), b') ∧ batch_ok b' ∧ view b' = delete id (view b) ∧ row_removed i id b b'.
Proof.
  intros Hok Hid Hs. destruct (remove_request_run b id i Hok Hid Hs) as (b' & Hrun & Hrv). exists b'. split; [done|].
  destruct (index_range _ b id i Hok Hid) as (Hi & _ & Hin). pose proof (λ id' j, index_range _ b id' j Hok) as Hrange.
  pose proof (λ id' j, index_inj _ b id' id j Hok) as Hinj.
  destruct Hok as [[H1 H2 H3 H4 H5] [K1 K2] [P1 P2 P3 P4 P5 P6 P7 P8 P9 P10 P11 P12 P13 P14]].
  pose proof Hrv as [[C1 C2 C3 C4 C5] I D (O0 & O) S T E (B0 & B) (L0 & L) SA [MK _] ND _ BU].
  assert (Hother : ∀ id' j, delete id (req_id_to_index b) !! id' = Some j → req_id_to_index b !! id' = Some j ∧ 0 ≤ j ∧ j ≠ i).
  { intros id' j [Hne Hj]%lookup_delete_Some. destruct (Hrange id' j Hj) as (? & _). split; [done|]. split; [lia|]. intros ->. apply Hne. symmetry. by apply (Hinj id' i). }
  assert (Hspec : ∀ j, 0 ≤ j → j ≠ i → spec_token_ids b' !! Z.to_nat j = spec_token_ids b !! Z.to_nat j) by (intros j Hj Hne; rewrite S; apply py_set_ne; lia).
  assert (Hrows : ∀ j, 0 ≤ j → j ≠ i → row_at b' j = row_at b j ∧ mask_at b' j = mask_at b j).
  { intros j Hj Hne. apply row_at_ext; auto; rewrite ?T, ?E; auto. intros Hpool. rewrite SA, Hpool. unfold samp_row, sampling_remove.
    destruct (sampling b). simpl. by rewrite !lookup_delete_ne. }
  split; [|split; [|done]].
  - assert (Hrm : _removed (batch_update_builder b') = _removed (batch_update_builder b) ++ [i]) by (rewrite BU; by destruct (batch_update_builder b)).
    pose proof (proj2 (proj1 (H1 id i) Hid)) as Hli. assert (Hset : ∀ j, 0 ≤ j → _req_ids b' !! Z.to_nat j = if bool_decide (j = i) then Some None else _req_ids b !! Z.to_nat j).
    { intros j Hj. rewrite D. case_bool_decide; [subst; apply py_set_eq; lia|by rewrite py_set_ne by lia]. }
    assert (Hlen : len (_req_ids b') = len (_req_ids b)) by (rewrite D; apply len_py_set). split.
    + rewrite Hlen, Hrm, I. split.
      * intros id' j. split.
        -- intros (Hj & ? & ?)%Hother. split; [done|]. rewrite Hset, bool_decide_false by done. by apply H1.
        -- intros [Hj Hx]. rewrite Hset in Hx by done. case_bool_decide; [done|]. rewrite lookup_delete_ne; [by apply H1|]. intros <-.
           assert (req_id_to_index b !! id = Some j) by (by apply H1). congruence.
      * intros j [Hj| ->%list_elem_of_singleton]%elem_of_app; [|split; [lia|]; by rewrite Hset, bool_decide_true by lia].
        destruct (H2 j Hj) as [? Hn]. split; [done|]. rewrite Hset by done. by case_bool_decide.
      * intros j Hj Hn. rewrite Hset in Hn by lia. case_bool_decide; [subst; set_solver|]. specialize (H3 j Hj Hn). set_solver.
      * intros j Hj id' Hx. rewrite Hset in Hx by lia. case_bool_decide; [done|]. by apply (H4 j Hj id').
      * rewrite Hlen. done.
    + split.
      * rewrite Hrm. apply NoDup_app. split; [done|]. split; [|apply NoDup_singleton]. intros x Hx ->%list_elem_of_singleton. destruct (H2 i Hx). congruence.
      * rewrite BU. destruct (batch_update_builder b). simpl in *. by rewrite Hs.
    + split; rewrite ?C1, ?C2, ?C3, ?C4, ?Hlen, ?O0, ?ND, ?T, ?I; try done.
      * rewrite SA. destruct (is_pooling_model b); [done|]. destruct P2, (sampling b). by split.
      * rewrite S, len_py_set. done.
      * intros j s Hj Hl. rewrite Hspec in Hl by lia. by eapply P11.
      * intros id' j (Hj & ? & ?)%Hother. rewrite Hspec by done. by eapply P12.
      * intros j Hj Hfr. rewrite SA. destruct (is_pooling_model b) eqn:Epool; [apply P13; [done|by left]|]. destruct Hfr as [?|Hfr]; [done|].
        unfold samp_empty, sampling_remove. destruct (decide (j = i)) as [->|Hne].
        -- destruct (sampling b). simpl. by rewrite !lookup_delete_eq.
        -- assert (Hold : samp_empty (sampling b) j).
           { apply P13; [done|right]. intros id' Hj'. apply (Hfr id'). rewrite lookup_delete_ne; [done|]. intros <-. congruence. }
           unfold samp_empty in Hold. destruct (sampling b). simpl in *. by rewrite !lookup_delete_ne by done.
      * intros id' j (Hj & ? & ?)%Hother. rewrite E. destruct (Hrows j) as [_ ->]; [done..|]. by eapply P14.
  - apply map_eq. intros id'. unfold view. rewrite I, lookup_fmap. destruct (decide (id' = id)) as [->|Hne]; [by rewrite !lookup_delete_eq|].
    rewrite !lookup_delete_ne, lookup_fmap by done. destruct (req_id_to_index b !! id') as [j|] eqn:Ej; [|done]. simpl. f_equal.
    destruct (Hother id' j) as (_ & ? & ?); [by rewrite lookup_delete_ne|]. by apply Hrows.
Qed.

(* ===================================================================== *)
(** ** Adding a request                                                   *)
(* ===================================================================== *)

(** A request that fits the batch; [np] is the length of its prompt. *)
Record request_ok b (r : CachedRequestState F) (np : Z) : Prop := {
  rq_prompt : length_from_prompt_token_ids_or_embeds (prompt_token_ids r) (prompt_embeds r) = Ok np;
  rq_nonneg : 0 ≤ np;
  rq_fits : np + len (output_token_ids r) ≤ max_model_len b;
  rq_mask : len (prompt_mask r np) = np;
  rq_embeds : forallb (λ x, x) (prompt_mask r np) = true ∨ is_Some (prompt_embeds r);
  rq_blocks : blocks_fit (block_tables b) (block_ids r);
  rq_lora lr : lora_request r = Some lr → 0 < lora_int_id lr;
  rq_kind : if is_pooling_model b
            then sampling_params r = None ∧ is_Some (pooling_params r) ∧ is_Some (pooling_states r)
            else ∃ p, sampling_params r = Some p ∧ ∀ l, allowed_token_ids p = Some l → Forall (λ t, 0 ≤ t < vocab_size b) l;
}.
(** The row of a request; [ids] are the tokens of its prompt. *)
Definition request_row b (r : CachedRequestState F) (np : Z) (ids : list Z) : Row :=
  let mask := prompt_mask r np ++ replicate (length (output_token_ids r)) true in
  mkRow (Some (Some (output_ref r))) (Some [])
    (Some (np + len (output_token_ids r)), Some np, Some (num_computed_tokens r), Some (ids ++ output_token_ids r), Some mask)
    (shown_embeds (Some mask) (prompt_embeds r)) (kernel_blocks (block_tables b) (block_ids r))
    (Some (match lora_request r with Some lr => lora_int_id lr | None => 0 end))
    (match sampling_params r with Some p => Some (params_row (vocab_size b) p (generator r)) | None => None end).
(** The builder after an index was taken for the request. *)
Definition builder_added (u : BatchUpdateBuilder (Added F)) (l : list Z) (s : bool) (i : Z) (r : CachedRequestState F) : BatchUpdateBuilder (Added F) :=
  mkBuilder l s (added u ++ match sampling_params r with Some p => [(i, mkAdded p (prompt_token_ids r) (output_ref r))] | None => [] end) (moved u) true.
(** The row that is taken: the lowest free one, or the next. *)
Definition index_taken b (i : Z) (l : list Z) (s : bool) : Prop :=
  let u := batch_update_builder b in
  if bool_decide (_removed u = []) then i = len (_req_ids b) ∧ l = [] ∧ s = _is_removed_sorted u
  else l ++ [i] ≡ₚ _removed u ∧ (∀ x, x ∈ l → i ≤ x) ∧ s = true ∧ (i ∈ _removed u).

(** The mask of the request in row [i]: that of its allowed tokens; without any, the
    row as it was found. *)
Definition request_mask b (r : CachedRequestState F) (i : Z) : list bool :=
  match sampling_params r with
  | Some p => match allowed_token_ids p with
              | Some (t :: ts) => only_allowed (vocab_size b) (t :: ts)
              | _ => mask_row (vocab_size b) (allowed_token_ids_mask b) i
              end
  | None => mask_row (vocab_size b) (allowed_token_ids_mask b) i
  end.
Record row_added (i : Z) (r : CachedRequestState F) (np : Z) (ids : list Z) b b' : Prop := {
  ra_config : same_config b b';
  ra_index : req_id_to_index b' = <[req_id r := i]> (req_id_to_index b);
  ra_ids : len (_req_ids b') = Z.max (len (_req_ids b)) (i + 1) ∧
    ∀ j, 0 ≤ j → _req_ids b' !! Z.to_nat j = if bool_decide (j = i) then Some (Some (req_id r)) else _req_ids b !! Z.to_nat j;
  ra_outputs : len (req_output_token_ids b') = Z.max (len (_req_ids b)) (i + 1) ∧
    ∀ j, 0 ≤ j → req_output_token_ids b' !! Z.to_nat j = if bool_decide (j = i) then Some (Some (output_ref r)) else req_output_token_ids b !! Z.to_nat j;
  ra_spec : Z.max (len (_req_ids b)) (i + 1) ≤ len (spec_token_ids b') ∧ spec_token_ids b' !! Z.to_nat i = Some [] ∧
    (∀ j, 0 ≤ j < len (_req_ids b) → j ≠ i → spec_token_ids b' !! Z.to_nat j = spec_token_ids b !! Z.to_nat j) ∧
    ∀ j s, len (_req_ids b) ≤ j → spec_token_ids b' !! Z.to_nat j = Some s → s = [];
  ra_tokens : tokens_shape (max_num_reqs b) (max_model_len b) (tokens b') ∧
    tok_row (tokens b') (np + len (output_token_ids r)) i = r_tokens (request_row b r np ids) ∧
    ∀ k j, 0 ≤ j → j ≠ i → tok_row (tokens b') k j = tok_row (tokens b) k j;
  ra_embeds : req_prompt_embeds b' = match prompt_embeds r with Some e => <[i := e]> (req_prompt_embeds b) | None => req_prompt_embeds b end;
  ra_tables : tables_ok (max_num_reqs b) (block_tables b') ∧ blocks_at (block_tables b') i = kernel_blocks (block_tables b) (block_ids r) ∧
    ∀ j, 0 ≤ j → j ≠ i → blocks_at (block_tables b') j = blocks_at (block_tables b) j;
  ra_lora : lora_ok (max_num_reqs b) (<[req_id r := i]> (req_id_to_index b)) (lora b') ∧
    request_lora_mapping (lora b') !! Z.to_nat i = r_lora (request_row b r np ids) ∧
    ∀ j, 0 ≤ j → j ≠ i → request_lora_mapping (lora b') !! Z.to_nat j = request_lora_mapping (lora b) !! Z.to_nat j;
  ra_sampling : sampling_shape (max_num_reqs b) (sampling b') ∧
    if is_pooling_model b then ∀ j, 0 ≤ j → samp_empty (sampling b) j → samp_empty (sampling b') j
    else Some (samp_row (sampling b') i) = r_sampling (request_row b r np ids) ∧
         ∀ j, 0 ≤ j → j ≠ i → samp_row (sampling b') j = samp_row (sampling b) j;
  ra_mask : mask_ok (max_num_reqs b) (vocab_size b) (allowed_token_ids_mask b') ∧ (is_pooling_model b = false →
    mask_row (vocab_size b) (allowed_token_ids_mask b') i = request_mask b r i ∧
    rows_kept (max_num_reqs b) (vocab_size b) i (allowed_token_ids_mask b) (allowed_token_ids_mask b'));
  ra_needs : len (logits_processing_needs_token_ids b') = len (logits_processing_needs_token_ids b);
  ra_sets : sets b' = match sampling_params r with Some p => sets_add (vocab_size b) (req_id r) p (sets b) | None => sets b end;
}.

(** The index and the builder. *)
Lemma register_spec b r : batch_ok b → num_reqs b < max_num_reqs b →
  ∃ i l s, _register_add_request r b = (Ok i, b <| batch_update_builder := builder_added (batch_update_builder b) l s i r |>) ∧
    index_taken b i l s ∧ builder_ok (builder_added (batch_update_builder b) l s i r) ∧ 0 ≤ i ≤ len (_req_ids b) ∧ i < max_num_reqs b ∧
    (∀ id', req_id_to_index b !! id' ≠ Some i).
Proof.
  intros [Hids Hbk Hp] Hroom. pose proof (ids_total _ _ _ Hids (bk_nodup _ Hbk)) as Htotal. fold (num_reqs b) in Htotal.
  unfold _register_add_request, index_taken. set (u := batch_update_builder b) in *. destruct (decide (_removed u = [])) as [Hnil|Hne].
  - rewrite bool_decide_true by done. rewrite Hnil, (@len_nil Z), Z.add_0_r in Htotal. assert (Hn0 : 0 ≤ num_reqs b) by (unfold num_reqs; lia).
    erewrite run_on_builder by (by apply pop_removed_none). fold u. replace (b <| batch_update_builder := u |>) with b by (by destruct b).
    rewrite run_get. cbn [default from_option id]. rewrite run_assert, (proj2 (Z.ltb_lt _ _)) by lia.
    exists (num_reqs b), [], (_is_removed_sorted u). split; [|split; [by rewrite Htotal|split; [|split; [lia|split; [lia|]]]]].
    + unfold u in *. destruct b as [pool n0 w0 v ids idx outs spec tok emb ts lo sa st ma [rm so ad mo ch] need pp ps prev]. simpl in *. subst rm.
      unfold builder_added. simpl. destruct (sampling_params r); simpl; rewrite ?app_nil_r; done.
    + split; simpl; [apply NoDup_nil_2|intros; constructor].
    + intros id' Hi. pose proof (index_range _ b id' _ ltac:(by split) Hi). lia.
  - rewrite bool_decide_false by done. destruct (pop_removed_spec u Hbk Hne) as (l & e & Hpop & Hperm & Hss & Hleast).
    erewrite run_on_builder by exact Hpop. rewrite run_get. cbn [default from_option id].
    assert (Hin : e ∈ _removed u) by (rewrite <-Hperm; set_solver). destruct (ix_removed _ _ _ _ Hids e Hin) as [He0 Hn].
    assert (Hlt : e < len (_req_ids b)). { apply lookup_lt_Some in Hn. unfold len. lia. } pose proof (pt_ids _ Hp) as Hmax.
    rewrite run_assert. replace (max_num_reqs (b <| batch_update_builder := _ |>)) with (max_num_reqs b) by (by destruct b).
    rewrite (proj2 (Z.ltb_lt e (max_num_reqs b))) by lia. exists e, l, true. split; [|split; [|split; [|split; [lia|split; [lia|]]]]].
    + unfold u in *. destruct b as [pool n0 w0 v ids idx outs spec tok emb ts lo sa st ma [rm so ad mo ch] need pp ps prev]. simpl in *.
      unfold builder_added. simpl. destruct (sampling_params r); simpl; rewrite ?app_nil_r; done.
    + done.
    + split; simpl; [|intros _; by eapply StronglySorted_app_1_l]. pose proof (bk_nodup _ Hbk) as Hnd. rewrite <-Hperm in Hnd. by apply NoDup_app in Hnd as (? & _ & _).
    + intros id' [_ Hx]%(ix_live _ _ _ _ Hids). congruence.
Qed.
Lemma snoc_lookup {A} (l : list A) x j : 0 ≤ j → (l ++ [x]) !! Z.to_nat j = if bool_decide (j = len l) then Some x else l !! Z.to_nat j.
Proof.
  intros Hj. unfold len. case_bool_decide as E.
  - subst. by rewrite Nat2Z.id, lookup_app_r, Nat.sub_diag.
  - destruct (decide (Z.to_nat j < length l)%nat); [by apply lookup_app_l|]. rewrite lookup_app_r, lookup_ge_None_2, lookup_ge_None_2 by (simpl; lia). done.
Qed.
Lemma py_set_lookup {A} (l : list A) i x j : 0 ≤ i < len l → 0 ≤ j → py_set l i x !! Z.to_nat j = if bool_decide (j = i) then Some x else l !! Z.to_nat j.
Proof. intros Hi Hj. case_bool_decide; [subst; by apply py_set_eq|apply py_set_ne; lia]. Qed.
Lemma place_spec b i r : 0 ≤ i ≤ len (_req_ids b) → len (req_output_token_ids b) = len (_req_ids b) → len (_req_ids b) ≤ len (spec_token_ids b) →
  (∀ j s, len (_req_ids b) ≤ j → spec_token_ids b !! Z.to_nat j = Some s → s = []) →
  ∃ ids outs spec, place i r b = (Ok tt, b <| _req_ids := ids |> <| req_output_token_ids := outs |> <| spec_token_ids := spec |>) ∧
    (len ids = Z.max (len (_req_ids b)) (i + 1) ∧
     ∀ j, 0 ≤ j → ids !! Z.to_nat j = if bool_decide (j = i) then Some (Some (req_id r)) else _req_ids b !! Z.to_nat j) ∧
    (len outs = Z.max (len (_req_ids b)) (i + 1) ∧
     ∀ j, 0 ≤ j → outs !! Z.to_nat j = if bool_decide (j = i) then Some (Some (output_ref r)) else req_output_token_ids b !! Z.to_nat j) ∧
    Z.max (len (_req_ids b)) (i + 1) ≤ len spec ∧ spec !! Z.to_nat i = Some [] ∧
    (∀ j, 0 ≤ j < len (_req_ids b) → j ≠ i → spec !! Z.to_nat j = spec_token_ids b !! Z.to_nat j) ∧
    ∀ j s, len (_req_ids b) ≤ j → spec !! Z.to_nat j = Some s → s = [].
Proof.
  intros Hi Ho Hs Htail. unfold place. rewrite run_get. pose proof (len_nonneg (_req_ids b)) as Hn0. destruct (Z.eqb_spec i (len (_req_ids b))) as [->|Hne].
  - exists (_req_ids b ++ [Some (req_id r)]), (req_output_token_ids b ++ [Some (output_ref r)]), (spec_token_ids b ++ [[]]).
    split; [by destruct b|]. split; [|split; [|split; [|split; [|split]]]].
    + split; [rewrite len_app, len_cons, len_nil; lia|]. intros j Hj. by apply snoc_lookup.
    + split; [rewrite len_app, len_cons, len_nil; lia|]. intros j Hj. rewrite snoc_lookup by done. by rewrite Ho.
    + rewrite len_app, len_cons, len_nil. lia.
    + rewrite snoc_lookup by done. case_bool_decide; [done|]. destruct (np_get_some (spec_token_ids b) (len (_req_ids b)) ltac:(lia)) as (s & _ & Hx).
      rewrite Hx. f_equal. by apply (Htail (len (_req_ids b)) s).
    + intros j Hj _. rewrite snoc_lookup, bool_decide_false by lia. done.
    + intros j s Hj. rewrite snoc_lookup by lia. case_bool_decide; [by intros [= <-]|]. by apply Htail.
  - unfold on_ids, on_outputs, on_spec. erewrite run_on_part by (apply list_set_ok; lia).
    exists (py_set (_req_ids b) i (Some (req_id r))), (py_set (req_output_token_ids b) i (Some (output_ref r))), (py_set (spec_token_ids b) i []).
    split.
    { destruct b as [pool n0 w0 v ids idx outs spec tok emb ts lo sa st ma bu need pp ps prev]. simpl in *.
      erewrite run_on_part by (simpl; apply list_set_ok; lia). unfold on_part. simpl. by rewrite list_set_ok by lia. }
    rewrite !len_py_set.
    split; [split; [lia|intros j Hj; apply py_set_lookup; lia]|]. split; [split; [lia|intros j Hj; apply py_set_lookup; lia]|].
    split; [lia|]. split; [apply py_set_eq; lia|]. split; [intros j Hj Hjn; apply py_set_ne; lia|].
    intros j s Hj. rewrite py_set_ne by lia. by apply Htail.
Qed.
Lemma params_step (b : InputBatch F) i r np : request_ok b r np → parts_ok b → 0 ≤ i < max_num_reqs b → samp_empty (sampling b) i →
  ∃ sa ma need pp ps sa', (∀ b0 : InputBatch F, vocab_size b0 = vocab_size b → max_num_reqs b0 = max_num_reqs b → sampling b0 = sampling b →
      allowed_token_ids_mask b0 = allowed_token_ids_mask b → logits_processing_needs_token_ids b0 = logits_processing_needs_token_ids b →
      sets b0 = sets b → batch_pooling_params b0 = batch_pooling_params b → batch_pooling_states b0 = batch_pooling_states b →
      add_params r i b0 = (Ok tt, b0 <| sampling := sa |> <| sets := match sampling_params r with Some p => sets_add (vocab_size b) (req_id r) p (sets b) | None => sets b end |>
        <| allowed_token_ids_mask := ma |> <| logits_processing_needs_token_ids := need |> <| batch_pooling_params := pp |> <| batch_pooling_states := ps |>)) ∧
    set_accepted i 1 sa = Ok sa' ∧ sampling_shape (max_num_reqs b) sa' ∧ (mask_ok (max_num_reqs b) (vocab_size b) ma ∧ (is_pooling_model b = false →
      mask_row (vocab_size b) ma i = request_mask b r i ∧ rows_kept (max_num_reqs b) (vocab_size b) i (allowed_token_ids_mask b) ma)) ∧
    len need = len (logits_processing_needs_token_ids b) ∧
    if is_pooling_model b then ∀ j, 0 ≤ j → samp_empty (sampling b) j → samp_empty sa' j
    else Some (samp_row sa' i) = match sampling_params r with Some p => Some (params_row (vocab_size b) p (generator r)) | None => None end ∧
         ∀ j, 0 ≤ j → j ≠ i → samp_row sa' j = samp_row (sampling b) j.
Proof.
  intros [_ _ _ _ _ _ _ Hkind] Hp Hi Hempty. destruct (is_pooling_model b) eqn:Epool.
  - destruct Hkind as (Hsp & [p Hpp] & [st Hst]). destruct (set_accepted_spec _ i (sampling b) (pt_sampling _ Hp) Hi) as (sa' & Hsa & Hshape).
    destruct (list_set_col _ (logits_processing_needs_token_ids b) i (requires_token_ids p) (pt_needs _ Hp) Hi) as (need & Hneed & [N1 _ _]).
    exists (sampling b), (allowed_token_ids_mask b), need, (<[req_id r := p]> (batch_pooling_params b)), (<[req_id r := st]> (batch_pooling_states b)), sa'.
    split; [|split; [done|split; [done|split; [split; [apply Hp|congruence]|split; [by rewrite N1, (pt_needs _ Hp)|]]]]].
    + intros b0 E1 E2 E3 E4 E5 E6 E7 E8. unfold add_params. rewrite run_get, Hsp, Hpp, Hst. rewrite run_modify, run_of_res, E5, Hneed.
      destruct b0. simpl in *. by subst.
    + intros j Hj [G1 G2]. unfold set_accepted in Hsa. destruct (list_set _ _ _) in Hsa; [|done]. injection Hsa as <-. by destruct (sampling b).
  - destruct Hkind as (p & Hsp & Hall). rewrite Hsp.
    destruct (sampling_add_spec _ (vocab_size b) i p (generator r) (sampling b) (pt_sampling _ Hp) Hi Hempty) as (sa & sa' & Hsa & Hacc & Hshape & Hrow & Hoth).
    destruct (mask_add_ok _ (vocab_size b) i p (allowed_token_ids_mask b) (pt_mask _ Hp) Hi (pt_vocab _ Hp) Hall) as (ma & Hma & Hmok & Hmrow).
    exists sa, ma, (logits_processing_needs_token_ids b), (batch_pooling_params b), (batch_pooling_states b), sa'.
    split; [|split; [done|split; [done|split; [split; [done|intros _; unfold request_mask; by rewrite Hsp]|split; [done|split; [by rewrite Hrow|done]]]]]].
    intros b0 E1 E2 E3 E4 E5 E6 E7 E8. unfold add_params. rewrite run_get, Hsp. unfold on_sampling, on_mask.
    erewrite run_on_part by (rewrite E1, E3; exact Hsa). rewrite run_modify. unfold on_part. destruct b0. simpl in *. subst. by rewrite Hma.
Qed.
Lemma add_request_run b r np : batch_ok b → request_ok b r np → num_reqs b < max_num_reqs b → req_id_to_index b !! req_id r = None →
  ∃ i l s ids b', add_request r b = (Ok i, b') ∧ index_taken b i l s ∧ 0 ≤ i ≤ len (_req_ids b) ∧ i < max_num_reqs b ∧
    (∀ id', req_id_to_index b !! id' ≠ Some i) ∧ row_added i r np ids b b' ∧
    batch_update_builder b' = builder_added (batch_update_builder b) l s i r ∧ builder_ok (batch_update_builder b') ∧
    len ids = np ∧ ∀ p, prompt_token_ids r = Some p → ids = p.
Proof.
  intros Hok Hrq Hroom Hnew. destruct (register_spec b r Hok Hroom) as (i & l & s & Hreg & Htaken & Hbk & Hi & Hmax & Hfree).
  pose proof (λ id j, index_range _ b id j Hok) as Hrange. destruct Hok as [Hids _ Hp]. pose proof Hrq as [Q1 Q2 Q3 Q4 Q5 Q6 Q7 Q8].
  pose proof Hp as [P1 P2 P3 P4 P5 P6 P7 P8 P9 P10 P11 P12 P13 P14].
  destruct (place_spec (b <| batch_update_builder := builder_added (batch_update_builder b) l s i r |>) i r) as (ids' & outs' & spec' & Hplace & D & O & S1 & S2 & S3 & S4);
    [by destruct b|by destruct b|by destruct b|by destruct b|].
  assert (Hprompt : ∀ p, prompt_token_ids r = Some p → len p = np).
  { intros p Hpp. unfold length_from_prompt_token_ids_or_embeds in Q1. rewrite Hpp in Q1. destruct (prompt_embeds r); [destruct (_ =? _)|]; congruence. }
  destruct (tokens_add_spec _ _ r i np (tokens b) P1 ltac:(lia) Q2 Q3 Hprompt Q4) as (t' & ids & Ht & T1 & T2 & T3 & T4 & T5).
  destruct (multi_add_row_spec _ (block_tables b) (block_ids r) i P3 ltac:(lia) Q6) as (ts' & Hts & B1 & B2 & B3 & B4).
  destruct (lora_add_spec _ (req_id_to_index b) (lora b) i (req_id r) (lora_request r) P7 ltac:(lia) Hnew) as (lo' & Hlo & L1 & L2 & L3); [|done|].
  { intros id' j Hj. destruct (Hrange id' j Hj) as (? & _). split; [lia|]. intros ->. by apply (Hfree id'). }
  destruct (params_step b i r np Hrq Hp ltac:(lia) (P13 i ltac:(lia) (or_intror Hfree))) as (sa & ma & need & pp & ps & sa' & Hparams & Hacc & A1 & A2 & A3 & A4).
  set (emb' := match prompt_embeds r with Some e => <[i := e]> (req_prompt_embeds b) | None => req_prompt_embeds b end).
  destruct b as [pool n0 w0 v ids0 idx outs spec tok emb ts lo sa0 st ma0 bu need0 pp0 ps0 prev]. simpl in *.
  exists i, l, s, ids. eexists. split.
  { unfold add_request. mstep Hreg. mstep Hplace. rewrite run_modify, run_of_res, Q1.
    match goal with |- bind (match prompt_embeds r with _ => _ end) ?k ?b1 = _ =>
      assert (Hemb : bind (match prompt_embeds r with Some e => modify (λ b : InputBatch F, b <| req_prompt_embeds ::= insert i e |>) | None => ret tt end) k b1 =
        k tt (b1 <| req_prompt_embeds := emb' |>)) by (unfold emb'; by destruct (prompt_embeds r)); rewrite Hemb; clear Hemb end.
    unfold on_tokens, on_lora. erewrite run_on_part by exact Ht. erewrite run_on_tables by exact Hts.
    erewrite bind_ok by (apply Hparams; reflexivity). unfold on_sampling. erewrite run_on_part by exact Hacc. erewrite run_on_part by exact Hlo. reflexivity. }
  clear Hparams. split; [done|]. split; [done|]. split; [done|]. split; [done|].
  split; [|split; [done|split; [done|split; done]]].
  split; simpl; try done.
Qed.
(** A request that is not in the batch: the map gets its row. *)
Lemma add_rows b b' i r np ids : row_added i r np ids b b' → request_ok b r np → parts_ok b → 0 ≤ i → 
  (row_at b' i = request_row b r np ids ∧ mask_at b' i = (r_tokens (request_row b r np ids)).2) ∧
  ∀ j, 0 ≤ j < len (_req_ids b) → j ≠ i → row_at b' j = row_at b j ∧ mask_at b' j = mask_at b j.
Proof.
  intros [[C1 C2 C3 C4 C5] _ _ (_ & O) (_ & S1 & S2 & _) (_ & T1 & T2) E (_ & B1 & B2) (_ & L1 & L2) (_ & SA) _ _ _] Hrq Hp Hi. split.
  - assert (Hact : active (tokens b') (spec_token_ids b') i = np + len (output_token_ids r)).
    { unfold active. rewrite S1. injection T1 as -> _ _ _ _. rewrite len_nil. lia. }
    assert (Hm : mask_at b' i = (r_tokens (request_row b r np ids)).2) by (unfold mask_at; by rewrite Hact, T1). split; [|done].
    unfold row_at. rewrite Hm, Hact, T1, S1, B1, L1, O, bool_decide_true, C1 by done. unfold request_row at 1 2 3 4. cbn [r_tokens r_lora snd].
    unfold request_row. f_equal.
    + rewrite E. destruct (prompt_embeds r) as [e|] eqn:Ee; [by rewrite lookup_insert_eq|]. unfold shown_embeds. rewrite forallb_app.
      destruct (rq_embeds _ _ _ Hrq) as [Hall|[e He]]; [|congruence]. rewrite Hall. clear. induction (length (output_token_ids r)); [done|]. done.
    + destruct (is_pooling_model b) eqn:Epool.
      * pose proof (rq_kind _ _ _ Hrq) as Hk. rewrite Epool in Hk. destruct Hk as (-> & _). done.
      * destruct SA as [SA _]. exact SA.
  - intros j Hj Hne. apply row_at_ext; auto.
    + by rewrite O, bool_decide_false by lia.
    + apply T2; lia.
    + rewrite E. destruct (prompt_embeds r); [by rewrite lookup_insert_ne by done|done].
    + apply B2; lia.
    + apply L2; lia.
    + intros Hpool. rewrite Hpool in SA. destruct SA as [_ SA]. apply SA; lia.
Qed.
Lemma add_ids b b' i l s r np ids : batch_ok b → index_taken b i l s → row_added i r np ids b b' → 0 ≤ i ≤ len (_req_ids b) →
  (∀ id', req_id_to_index b !! id' ≠ Some i) → req_id_to_index b !! req_id r = None → NoDup l →
  ids_ok (len (_req_ids b')) (req_id_to_index b') (_req_ids b') l.
Proof.
  intros [[H1 H2 H3 H4 H5] Hbk Hp] Htaken Hra Hi Hfree Hnew Hndl. destruct Hra as [_ I (D0 & D) _ _ _ _ _ _ _ _ _ _]. rewrite I, D0.
  assert (Hl : ∀ x, x ∈ l ↔ x ∈ _removed (batch_update_builder b) ∧ x ≠ i).
  { unfold index_taken in Htaken. destruct (bool_decide_reflect (_removed (batch_update_builder b) = [])) as [E|E].
    - destruct Htaken as (-> & -> & _). rewrite E. intros x. rewrite elem_of_nil. naive_solver.
    - destruct Htaken as (Hperm & _ & _ & Hin). intros x. rewrite <-Hperm, elem_of_app, list_elem_of_singleton. split; [|naive_solver].
      intros Hx. split; [by left|]. intros ->. pose proof (bk_nodup _ Hbk) as Hnd. rewrite <-Hperm in Hnd. apply NoDup_app in Hnd as (_ & Hd & _).
      apply (Hd i Hx). set_solver. }
  split.
  - intros id j. destruct (decide (id = req_id r)) as [->|Hne].
    + rewrite lookup_insert_eq. split; [intros [= <-]; split; [lia|]; by rewrite D, bool_decide_true by lia|].
      intros [Hj Hx]. rewrite D in Hx by done. case_bool_decide; [by subst|]. assert (req_id_to_index b !! req_id r = Some j) by (by apply H1). congruence.
    + rewrite lookup_insert_ne by done. rewrite H1. split; intros [Hj Hx]; (split; [done|]).
      * rewrite D by done. case_bool_decide; [|done]. subst. exfalso. apply (Hfree id). by apply H1.
      * rewrite D in Hx by done. case_bool_decide; [congruence|done].
  - intros j [Hj Hne]%Hl. destruct (H2 j Hj) as [? Hn]. split; [done|]. by rewrite D, bool_decide_false.
  - intros j Hj Hn. rewrite D in Hn by lia. case_bool_decide; [done|]. apply Hl. split; [|done]. apply H3; [|done].
    apply lookup_lt_Some in Hn. unfold len in *. lia.
  - intros j Hj id Hx. apply lookup_lt_Some in Hx. unfold len in *. lia.
  - lia.
Qed.
Lemma add_parts b b' i r np ids : batch_ok b → row_added i r np ids b b' → request_ok b r np → 0 ≤ i ≤ len (_req_ids b) → i < max_num_reqs b →
  (∀ id', req_id_to_index b !! id' ≠ Some i) → req_id_to_index b !! req_id r = None → parts_ok b'.
Proof.
  intros Hok Hra Hrq Hi Hmax Hfree Hnew. pose proof (λ id j, index_range _ b id j Hok) as Hrange. destruct Hok as [Hids _ Hp].
  destruct (add_rows b b' i r np ids Hra Hrq Hp ltac:(lia)) as [[Ri Mi] Rj]. destruct Hp as [P1 P2 P3 P4 P5 P6 P7 P8 P9 P10 P11 P12 P13 P14].
  destruct Hra as [[C1 C2 C3 C4 C5] I (D0 & D) (O0 & O) (S0 & S1 & S2 & S3) (T0 & T1 & T2) E (B0 & B1 & B2) (L0 & L1 & L2) (SA0 & SA) [MK _] ND _].
  pose proof (rq_nonneg _ _ _ Hrq) as Hnp. pose proof (rq_fits _ _ _ Hrq) as Hfits. pose proof (len_nonneg (output_token_ids r)) as Hout0.
  split; rewrite ?C1, ?C2, ?C3, ?C4, ?D0, ?O0, ?ND, ?I; try done; try lia.
  - intros j s Hj. apply S3. lia.
  - intros id j. destruct (decide (id = req_id r)) as [->|Hne].
    + rewrite lookup_insert_eq. intros [= <-]. exists (np + len (output_token_ids r)), []. rewrite S1. injection T1 as -> _ _ _ _. change (len (@nil Z)) with 0. split_and!; [done|done|lia|lia].
    + rewrite lookup_insert_ne by done. intros Hj. destruct (Hrange id j Hj) as (? & _). destruct (P12 id j Hj) as (n1 & s1 & ? & ? & ? & ?). exists n1, s1.
      assert (Hji : j ≠ i) by (intros ->; by apply (Hfree id)). rewrite S2 by (done || lia). specialize (T2 0 j ltac:(lia) Hji). injection T2 as -> _ _ _ _. done.
  - intros j Hj Hfr. destruct (is_pooling_model b) eqn:Epool; [apply SA; [done|]; apply P13; [done|by left]|].
    destruct Hfr as [?|Hfr]; [done|]. assert (Hne : j ≠ i) by (intros ->; apply (Hfr (req_id r)), lookup_insert_eq).
    destruct SA as [_ SA]. specialize (SA j Hj Hne). injection SA as _ _ _ _ _ _ _ G1 G2. unfold samp_empty. rewrite G1, G2. apply P13; [done|right].
    intros id Hid. apply (Hfr id). rewrite lookup_insert_ne; [done|]. intros <-. congruence.
  - intros id j. destruct (decide (id = req_id r)) as [->|Hne].
    + rewrite lookup_insert_eq. intros [= <-]. rewrite Mi, E. destruct (rq_embeds _ _ _ Hrq) as [Hall|[e He]].
      * right. intros e. simpl. rewrite forallb_app, Hall. clear. induction (length (output_token_ids r)); done.
      * left. rewrite He, lookup_insert_eq. by eexists.
    + rewrite lookup_insert_ne by done. intros Hj. destruct (Hrange id j Hj) as (? & _). assert (Hji : j ≠ i) by (intros ->; by apply (Hfree id)).
      destruct (Rj j) as [_ ->]; [lia|done|]. rewrite E. destruct (prompt_embeds r); [rewrite lookup_insert_ne by done|]; by eapply P14.
Qed.
Lemma add_request_spec b r np : batch_ok b → request_ok b r np → num_reqs b < max_num_reqs b → req_id_to_index b !! req_id r = None →
  ∃ i l s ids b', add_request r b = (Ok i, b') ∧ batch_ok b' ∧ view b' = <[req_id r := request_row b r np ids]> (view b) ∧
    len ids = np ∧ (∀ p, prompt_token_ids r = Some p → ids = p) ∧
    index_taken b i l s ∧ row_added i r np ids b b' ∧ batch_update_builder b' = builder_added (batch_update_builder b) l s i r.
Proof.
  intros Hok Hrq Hroom Hnew. destruct (add_request_run b r np Hok Hrq Hroom Hnew) as (i & l & s & ids & b' & Hrun & Htaken & Hi & Hmax & Hfree & Hra & Hbu & Hbk & Hlen & Hids).
  exists i, l, s, ids, b'. split; [done|]. split; [|split; [|done]].
  - split; [|done|by eapply add_parts]. rewrite Hbu. eapply add_ids; try done. rewrite Hbu in Hbk. apply Hbk.
  - destruct (add_rows b b' i r np ids Hra Hrq (bi_parts _ _ Hok) ltac:(lia)) as [[Ri _] Rj].
    apply map_eq. intros id. unfold view. rewrite (ra_index _ _ _ _ _ _ Hra), lookup_fmap. destruct (decide (id = req_id r)) as [->|Hne].
    + rewrite !lookup_insert_eq. simpl. by rewrite Ri.
    + rewrite !lookup_insert_ne, lookup_fmap by done. destruct (req_id_to_index b !! id) as [j|] eqn:Ej; [|done]. simpl. f_equal.
      destruct (index_range _ b id j Hok Ej) as (? & _). apply Rj; [lia|]. intros ->. by apply (Hfree id).
Qed.
End inv.
Arguments Row : clear implicits.
