(* ===== verification/InputBatchStep.v ===== *)
(** * Steps of the input batch

    A step of the model runner on the batch refines the removal and insertion of
    requests in a map, and without swaps each request keeps its mask of allowed
    tokens; what the arrays keep at rows that were left behind. *)
From S2P Require Import Prelude MathUtils Outcome Request NumPy BlockTable BlockTableInv BatchUpdate LogitsProcs InputBatch BatchRows InputBatchInv.
Local Open Scope Z_scope.

(* ===================================================================== *)
(** ** A step                                                             *)
(* ===================================================================== *)

Section step.
Context {F : Type} `{!PyFloat F}.
Implicit Types b : InputBatch F.

(** No change is pending. *)
Definition builder_fresh b : Prop :=
  let u := batch_update_builder b in _removed u = [] ∧ _is_removed_sorted u = false ∧ added u = [] ∧ moved u = [].
Lemma compact_ok b u : compact b → _removed u = [] → batch_ok (b <| batch_update_builder := u |>).
Proof.
  intros [H1 H2 Hp] Hu. assert (Hf : req_id_to_index (b <| batch_update_builder := u |>) = req_id_to_index b ∧
    _req_ids (b <| batch_update_builder := u |>) = _req_ids b ∧ batch_update_builder (b <| batch_update_builder := u |>) = u) by (by destruct b).
  destruct Hf as (F1 & F2 & F3). split; [|rewrite F3; split; rewrite Hu; [apply NoDup_nil_2|constructor]|by apply parts_builder].
  rewrite F1, F2, F3, Hu. pose proof (len_nonneg (_req_ids b)). split; [done|by intros i ?%elem_of_nil|..|lia].
  - intros i _ Hn. by destruct (H2 (Z.to_nat i)).
  - intros i Hi id Hl. apply lookup_lt_Some in Hl. unfold len in Hi. lia.
Qed.
Lemma refresh_spec b : compact b → ∃ u c b', refresh_metadata b = (Ok (u, c), b') ∧ batch_ok b' ∧ compact b' ∧ builder_fresh b' ∧ view b' = view b ∧
  same_config b b' ∧ req_id_to_index b' = req_id_to_index b ∧ (sets b' = sets b ∧ allowed_token_ids_mask b' = allowed_token_ids_mask b) ∧
  (is_pooling_model b = false → let w := batch_update_builder b in
    match u with
    | Some u => bu_batch_size u = num_reqs b ∧ bu_removed u = _removed w ∧ bu_added u = added w ∧ bu_moved u = moved w
    | None => _removed w = [] ∧ added w = [] ∧ moved w = []
    end).
Proof.
  intros Hc. unfold refresh_metadata. rewrite run_get. set (w := batch_update_builder b).
  assert (Hgen : ∀ u1, _removed u1 = [] → _is_removed_sorted u1 = false → added u1 = [] → moved u1 = [] →
    batch_ok (b <| batch_update_builder := u1 |>) ∧ compact (b <| batch_update_builder := u1 |>) ∧ builder_fresh (b <| batch_update_builder := u1 |>) ∧
    view (b <| batch_update_builder := u1 |>) = view b ∧ same_config b (b <| batch_update_builder := u1 |>) ∧
    req_id_to_index (b <| batch_update_builder := u1 |>) = req_id_to_index b ∧
    (sets (b <| batch_update_builder := u1 |>) = sets b ∧ allowed_token_ids_mask (b <| batch_update_builder := u1 |>) = allowed_token_ids_mask b)).
  { intros u1 U1 U2 U3 U4. split; [by apply compact_ok|]. destruct Hc as [H1 H2 Hp]. pose proof (same_config_refl b) as [C1 C2 C3 C4 C5].
    pose proof (parts_builder b u1 Hp) as Hp'. split; [by destruct b|]. split; [by destruct b|]. split; [apply view_builder|]. by destruct b. }
  destruct (is_pooling_model b).
  - erewrite run_on_builder by reflexivity. destruct (Hgen new_Builder) as (G1 & G2 & G3 & G4 & G5 & G6 & G7); [done..|].
    eexists _, _, _. split; [reflexivity|]. split_and!; done.
  - unfold on_builder, zoom, bind, get_and_reset. fold w. destruct w as [rm so ad mo ch] eqn:Ew. simpl.
    destruct rm as [|x rm], mo as [|y mo], ad as [|z ad]; simpl; (eexists _, _, _; (split; [reflexivity|])); simpl;
      match goal with |- context [b <| batch_update_builder := ?u1 |>] => destruct (Hgen u1) as (G1 & G2 & G3 & G4 & G5 & G6 & G7); [done..|] end; split_and!; done.
Qed.
Lemma same_config_request b b' r np : same_config b b' → request_ok b r np → request_ok b' r np ∧ ∀ ids, request_row b' r np ids = request_row b r np ids.
Proof.
  intros [C1 C2 C3 C4 C5] [Q1 Q2 Q3 Q4 Q5 Q6 Q7 Q8]. split.
  - split; rewrite ?C1, ?C3, ?C4; try done. intros j t' Hj. unfold same_tables in C5. destruct (Forall2_lookup_r _ _ _ _ _ C5 Hj) as (t & Ht & Hst).
    destruct (Q6 j t Ht) as (l & Hl & Hf). exists l. split; [done|]. destruct (same_table_ids t t' l Hst) as [-> ->]. done.
  - intros ids. unfold request_row. rewrite C4. f_equal. unfold kernel_blocks. clear -C5. unfold same_tables in C5. revert C5. generalize (block_ids r) as l.
    generalize (block_tables b') as ts'. induction (block_tables b) as [|t ts IH]; intros ts' l H; inversion H as [|? t' ? ts'' Hst Hts]; subst; [done|].
    destruct l as [|x l]; [done|]. simpl. destruct (same_table_ids t t' x Hst) as [-> _]. f_equal. by apply IH.
Qed.

(** The batch part of a step of the model runner: requests that finished or are not
    scheduled are removed, new and resumed ones are added, and the attention backend
    may reorder the batch. *)
Definition update_batch (gone : list string) (new : list (CachedRequestState F)) (swaps : list (Z * Z)) :
    M (InputBatch F) (option (BatchUpdate (Added F)) * bool) :=
  for_ gone (λ id, remove_request id ;; ret tt) ;;
  for_ new (λ r, add_request r ;; ret tt) ;;
  condense ;;
  for_ swaps (λ p, swap_states p.1 p.2) ;;
  refresh_metadata.

(** Every request has a row of its own, one of [n]. *)
Record own_rows (n : Z) (idx : gmap string Z) : Prop := {
  ro_injective id id' i : idx !! id = Some i → idx !! id' = Some i → id = id';
  ro_range id i : idx !! id = Some i → 0 ≤ i < n;
}.
(** Who follows the batch through its changes: what holds of a state [X], the rows of
    the requests and the changes that are recorded, and that every operation keeps it. *)
Record Observer (n : Z) (X : Type) := mkObserver {
  ob_inv : X → gmap string Z → BatchUpdateBuilder (Added F) → Prop;
  ob_add : CachedRequestState F → X → X;
  ob_removed_ok x idx u id i : ob_inv x idx u → moved u = [] → idx !! id = Some i → own_rows n idx →
    ob_inv x (delete id idx) (u <| _removed ::= λ l, l ++ [i] |> <| batch_changed := true |>);
  ob_added_ok x idx u r i l s : ob_inv x idx u → moved u = [] → is_Some (sampling_params r) → idx !! req_id r = None → (∀ id, idx !! id ≠ Some i) → 0 ≤ i < n →
    (∀ j, j ∈ l ↔ j ∈ _removed u ∧ j ≠ i) → ob_inv (ob_add r x) (<[req_id r := i]> idx) (builder_added u l s i r);
  ob_sorted_ok x idx u l : ob_inv x idx u → l ≡ₚ _removed u → ob_inv x idx (u <| _removed := l |> <| _is_removed_sorted := true |>);
  ob_moved_ok x idx u id last e rm : ob_inv x idx u → _removed u = rm ++ [e] → NoDup (rm ++ [e]) → last ∉ rm ++ [e] → idx !! id = Some last →
    (∀ id', idx !! id' ≠ Some e) → 0 ≤ e < last → (∀ id' i, idx !! id' = Some i → i ≤ last) → own_rows n idx →
    ob_inv x (<[id := e]> idx) (u <| _removed := rm |> <| moved ::= λ l, l ++ [(last, e, UNIDIRECTIONAL)] |>);
  ob_swapped_ok x idx u i1 i2 id1 id2 : ob_inv x idx u → idx !! id1 = Some i1 → idx !! id2 = Some i2 → own_rows n idx →
    ob_inv x (swapped i1 i2 <$> idx) (u <| moved ::= λ l, l ++ [(i1, i2, SWAP)] |>);
}.
Definition no_observer n : Observer n unit.
Proof. by refine (mkObserver n unit (λ _ _ _, True) (λ _ x, x) _ _ _ _ _). Defined.

Section observed.
Context {n : Z} {X : Type} (O : Observer n X).
Definition seen (x : X) b : Prop := is_pooling_model b = false → max_num_reqs b = n ∧ ob_inv n X O x (req_id_to_index b) (batch_update_builder b).
Lemma batch_rows hi b : batch_inv hi b → max_num_reqs b = n → own_rows n (req_id_to_index b).
Proof.
  intros H <-. split; [intros id id' i; by apply (index_inj hi b)|]. intros id i Hi. pose proof (index_range hi b id i H Hi). lia.
Qed.

Lemma remove_all_spec gone b x : batch_ok b → _is_removed_sorted (batch_update_builder b) = false → moved (batch_update_builder b) = [] → seen x b →
  ∃ b', for_ gone (λ id, remove_request id ;; ret tt) b = (Ok tt, b') ∧ batch_ok b' ∧ moved (batch_update_builder b') = [] ∧
    same_config b b' ∧ seen x b' ∧ ∀ id, view b' !! id = if bool_decide (id ∈ gone) then None else view b !! id.
Proof.
  revert b. induction gone as [|id gone IH]; intros b Hok Hs Hm Hx; cbn [for_].
  { exists b. by split_and!. }
  destruct (req_id_to_index b !! id) as [i|] eqn:Ei.
  - destruct (remove_request_spec b id i Hok Ei Hs) as (b1 & Hrun & Hok1 & Hv1 & Hrv). rewrite bind_assoc. mstep Hrun. rewrite run_ret.
    pose proof (rv_builder _ _ _ _ Hrv) as Hbu. pose proof (rv_config _ _ _ _ Hrv) as Hc1.
    destruct (IH b1 Hok1) as (b' & Hr & Hok' & Hm' & Hc' & Hx' & Hv'); [rewrite Hbu; by destruct (batch_update_builder b)..| |].
    { intros Hpool. rewrite (sc_pooling _ _ Hc1) in Hpool. destruct (Hx Hpool) as [Hn Hx0]. rewrite Hbu, (rv_index _ _ _ _ Hrv), (sc_reqs _ _ Hc1). split; [done|].
      apply ob_removed_ok; [done..|by eapply batch_rows]. }
    exists b'. split; [done|]. split; [done|]. split; [done|]. split; [by etrans|]. split; [done|]. intros y. rewrite Hv', Hv1.
    destruct (decide (y = id)) as [->|Hne]; [rewrite lookup_delete_eq, (bool_decide_true (id ∈ id :: gone)) by set_solver; by destruct (bool_decide _)|].
    rewrite lookup_delete_ne by done. by rewrite (bool_decide_ext (y ∈ id :: gone) (y ∈ gone)) by set_solver.
  - assert (Hrun : remove_request id b = (Ok None, b)) by (unfold remove_request; rewrite run_get; by rewrite Ei).
    rewrite bind_assoc. mstep Hrun. rewrite run_ret. destruct (IH b Hok Hs Hm Hx) as (b' & Hr & Hok' & Hm' & Hc' & Hx' & Hv'). exists b'. split_and!; try done. intros y. rewrite Hv'.
    destruct (decide (y = id)) as [->|Hne]; [|by rewrite (bool_decide_ext (y ∈ id :: gone) (y ∈ gone)) by set_solver].
    rewrite (bool_decide_true (id ∈ id :: gone)) by set_solver. unfold view. rewrite lookup_fmap, Ei. by destruct (bool_decide _).
Qed.
(** Row [row] is that of request [r]. *)
Definition is_row_of b (r : CachedRequestState F) (row : Row F) : Prop := ∃ np ids, request_ok b r np ∧ row = request_row b r np ids ∧ len ids = np ∧
  ∀ p, prompt_token_ids r = Some p → ids = p.
Lemma view_none b id : view b !! id = None ↔ req_id_to_index b !! id = None.
Proof. unfold view. rewrite lookup_fmap. by destruct (req_id_to_index b !! id). Qed.
Lemma num_reqs_view b : num_reqs b = Z.of_nat (size (view b)).
Proof. unfold num_reqs, view. by rewrite map_size_fmap. Qed.
Lemma is_row_of_config b b1 r row : same_config b b1 → (∃ np, request_ok b r np) → is_row_of b1 r row → is_row_of b r row.
Proof.
  intros Hc [np0 Hrq] (np & ids & G1 & -> & G3 & G4). destruct (same_config_request b b1 r np0 Hc Hrq) as [Hq' Hrow'].
  assert (np0 = np) as ->. { pose proof (rq_prompt _ _ _ Hq'). pose proof (rq_prompt _ _ _ G1). congruence. } exists np, ids. by rewrite Hrow'.
Qed.
Lemma taken_removed b i l s : batch_ok b → index_taken b i l s → ∀ j, j ∈ l ↔ j ∈ _removed (batch_update_builder b) ∧ j ≠ i.
Proof.
  intros [Hids Hbk Hp] Ht. unfold index_taken in Ht. destruct (bool_decide_reflect (_removed (batch_update_builder b) = [])) as [E|E].
  - destruct Ht as (-> & -> & _). rewrite E. intros j. rewrite elem_of_nil. naive_solver.
  - destruct Ht as (Hperm & _ & _ & Hin). intros j. rewrite <-Hperm, elem_of_app, list_elem_of_singleton. split; [|naive_solver].
    intros Hj. split; [by left|]. intros ->. pose proof (bk_nodup _ Hbk) as Hnd. rewrite <-Hperm in Hnd. apply NoDup_app in Hnd as (_ & Hd & _).
    apply (Hd i Hj). set_solver.
Qed.
Lemma add_requests_spec new b x : batch_ok b → Forall (λ r, ∃ np, request_ok b r np) new → NoDup (req_id <$> new) →
  (∀ r, r ∈ new → view b !! req_id r = None) → num_reqs b + len new ≤ max_num_reqs b → moved (batch_update_builder b) = [] → seen x b →
  ∃ b', for_ new (λ r, add_request r ;; ret tt) b = (Ok tt, b') ∧ batch_ok b' ∧ same_config b b' ∧ seen (foldl (λ x r, ob_add n X O r x) x new) b' ∧
    (∀ id, id ∉ req_id <$> new → view b' !! id = view b !! id) ∧
    (∀ r, r ∈ new → ∃ row, view b' !! req_id r = Some row ∧ is_row_of b r row) ∧ num_reqs b' = num_reqs b + len new.
Proof.
  revert b x. induction new as [|r new IH]; intros b x Hok Hrq Hnd Hnew Hroom Hm Hx; cbn [for_ foldl].
  { exists b. split_and!; try done; [by intros r ?%elem_of_nil|]. rewrite len_nil. lia. }
  apply Forall_cons in Hrq as [[np Hr] Hrq]. rewrite fmap_cons in Hnd. apply NoDup_cons in Hnd as [Hni Hnd]. rewrite len_cons in Hroom. pose proof (len_nonneg new) as Hl0.
  assert (Hnone : view b !! req_id r = None) by (apply Hnew; by left). assert (Hin : req_id_to_index b !! req_id r = None) by (by apply view_none).
  destruct (add_request_spec b r np Hok Hr ltac:(lia) Hin) as (i & l & s & ids & b1 & Hrun & Hok1 & Hv1 & Hlen & Hids & Htaken & Hra & Hbu).
  rewrite bind_assoc. mstep Hrun. rewrite run_ret. pose proof (ra_config _ _ _ _ _ _ Hra) as Hc1.
  assert (Hn1 : num_reqs b1 = num_reqs b + 1). { rewrite !num_reqs_view, Hv1, map_size_insert_None by done. lia. }
  destruct (IH b1 (ob_add n X O r x) Hok1) as (b' & Hrest & Hok' & Hc' & Hx' & Hother & Hrows & Hn').
  - eapply Forall_impl; [done|]. intros r' [np' Hr']. exists np'. by apply (same_config_request b b1).
  - done.
  - intros r' Hr'. rewrite Hv1, lookup_insert_ne; [apply Hnew; by right|]. intros Heq. apply Hni. rewrite Heq. by apply list_elem_of_fmap_2.
  - rewrite (sc_reqs _ _ Hc1). lia.
  - rewrite Hbu. done.
  - intros Hpool. rewrite (sc_pooling _ _ Hc1) in Hpool. destruct (Hx Hpool) as [Hn Hx0]. rewrite Hbu, (ra_index _ _ _ _ _ _ Hra), (sc_reqs _ _ Hc1). split; [done|].
    apply ob_added_ok; [done|done| |done| | |by eapply taken_removed].
    + pose proof (rq_kind _ _ _ Hr) as Hk. rewrite Hpool in Hk. destruct Hk as (p & -> & _). by eexists.
    + intros id Hid. assert (Hi : req_id_to_index b1 !! id = Some i ∧ req_id_to_index b1 !! req_id r = Some i).
      { rewrite (ra_index _ _ _ _ _ _ Hra), lookup_insert_eq, lookup_insert_ne; [done|]. intros <-. congruence. }
      destruct Hi as [Hi1 Hi2]. pose proof (index_inj _ b1 _ _ _ Hok1 Hi1 Hi2). congruence.
    + destruct (index_range _ b1 (req_id r) i Hok1) as (? & _ & ?); [by rewrite (ra_index _ _ _ _ _ _ Hra), lookup_insert_eq|]. rewrite (sc_reqs _ _ Hc1) in *. lia.
  - exists b'. split; [done|]. split; [done|]. split; [by etrans|]. split; [done|]. split; [|split; [|rewrite len_cons; lia]].
    + intros id Hid. rewrite fmap_cons in Hid. apply not_elem_of_cons in Hid as [H1 H2]. rewrite Hother, Hv1 by done. by rewrite lookup_insert_ne.
    + intros r' [->|Hr']%elem_of_cons.
      * rewrite Hother, Hv1, lookup_insert_eq by done. eexists. split; [done|]. by exists np, ids.
      * destruct (Hrows r' Hr') as (row & Hrow & Hrr). exists row. split; [done|]. apply (is_row_of_config b b1); [done| |done]. rewrite Forall_forall in Hrq. by apply Hrq.
Qed.
Lemma condense_seen b b' x : rtc condense_step b b' → seen x b → seen x b'.
Proof.
  induction 1 as [b|b b1 b2 [last e id rm Hinv Hs Hrm He Hid Hmv _ Hv] _ IH]; [done|]. intros Hx. apply IH. clear IH b2. intros Hpool.
  pose proof (mv_config _ _ _ _ _ Hmv) as Hc. pose proof (mv_index _ _ _ _ _ Hmv) as Hidx. pose proof (mv_builder _ _ _ _ _ Hmv) as Hbu.
  assert (Hf : is_pooling_model (b <| batch_update_builder ::= λ u, u <| _removed := rm |> |>) = is_pooling_model b ∧
    req_id_to_index (b <| batch_update_builder ::= λ u, u <| _removed := rm |> |>) = req_id_to_index b ∧
    batch_update_builder (b <| batch_update_builder ::= λ u, u <| _removed := rm |> |>) = batch_update_builder b <| _removed := rm |> ∧
    max_num_reqs (b <| batch_update_builder ::= λ u, u <| _removed := rm |> |>) = max_num_reqs b) by (by destruct b).
  destruct Hf as (F1 & F2 & F3 & F4). rewrite (sc_pooling _ _ Hc), F1 in Hpool. rewrite Hidx, Hbu, F1, F2, F3, Hpool, (sc_reqs _ _ Hc), F4.
  destruct (Hx Hpool) as [Hmax Hx0]. split; [done|]. pose proof (batch_rows _ _ Hinv Hmax) as Hinj. destruct Hinv as [[H1 H2 H3 H4 H5] Hbk Hp]. pose proof (bk_nodup _ Hbk) as Hnd. rewrite Hrm in *.
  apply ob_moved_ok; try done.
  - intros Hin. destruct (H2 last Hin) as [_ Hn]. pose proof (proj2 (proj1 (H1 id last) Hid)). congruence.
  - intros id' [_ Hx']%H1. destruct (H2 e ltac:(set_solver)) as [_ Hn]. congruence.
  - intros id' i [_ Hi]%H1. destruct (decide (i ≤ last)); [done|]. by destruct (H4 i ltac:(lia) id').
Qed.
Lemma compact_at b i : compact b → 0 ≤ i < num_reqs b → ∃ id, _req_ids b !! Z.to_nat i = Some (Some id) ∧ req_id_to_index b !! id = Some i.
Proof.
  intros Hc Hi. rewrite <-(compact_size b Hc) in Hi. destruct Hc as [H1 H2 _].
  destruct (np_get_some (_req_ids b) i Hi) as ([id|] & _ & Hl); [|by destruct (H2 (Z.to_nat i))]. exists id. split; [done|]. apply H1. split; [lia|done].
Qed.
Lemma swap_all_spec swaps b x : compact b → Forall (λ p, 0 ≤ p.1 < num_reqs b ∧ 0 ≤ p.2 < num_reqs b) swaps → seen x b →
  ∃ b', for_ swaps (λ p, swap_states p.1 p.2) b = (Ok tt, b') ∧ compact b' ∧ view b' = view b ∧ seen x b' ∧ same_config b b' ∧ sets b' = sets b ∧
    _removed (batch_update_builder b') = _removed (batch_update_builder b).
Proof.
  revert b. induction swaps as [|[i1 i2] swaps IH]; intros b Hc Hall Hx; cbn [for_]; [by exists b|].
  apply Forall_cons in Hall as [[H1 H2] Hall]. destruct (swap_states_spec b i1 i2 Hc H1 H2) as (b1 & Hrun & Hc1 & Hv1 & Hsw). simpl. mstep Hrun.
  destruct (IH b1 Hc1) as (b' & Hr & Hc' & Hv' & Hx' & Hcf' & Hs' & Hrm').
  - by rewrite num_reqs_view, Hv1, <-num_reqs_view.
  - intros Hpool. rewrite (sc_pooling _ _ (sw_config _ _ _ _ Hsw)) in Hpool. rewrite (sw_index _ _ _ _ Hsw), (sw_builder _ _ _ _ Hsw), Hpool.
    destruct (Hx Hpool) as [Hn Hx0], (compact_at b i1 Hc H1) as (id1 & _ & Hi1), (compact_at b i2 Hc H2) as (id2 & _ & Hi2).
    rewrite (sc_reqs _ _ (sw_config _ _ _ _ Hsw)). split; [done|]. apply (ob_swapped_ok n X O _ _ _ i1 i2 id1 id2); [done..|].
    apply (compact_ok b new_Builder) in Hc as Hb; [|done]. apply batch_rows in Hb; by destruct b.
  - exists b'. split; [done|]. split; [done|]. split; [by rewrite Hv', Hv1|]. split; [done|]. split; [etrans; [apply (sw_config _ _ _ _ Hsw)|done]|].
    split; [by rewrite Hs', (sw_sets _ _ _ _ Hsw)|]. rewrite Hrm', (sw_builder _ _ _ _ Hsw). by destruct (is_pooling_model b), (batch_update_builder b).
Qed.

(** The requests that stay, and those of the batch after the step. *)
Definition kept (gone : list string) b : gmap string (Row F) := filter (λ e, e.1 ∉ gone) (view b).
Record step_fits (gone : list string) (new : list (CachedRequestState F)) (swaps : list (Z * Z)) b : Prop := {
  sf_requests : Forall (λ r, ∃ np, request_ok b r np) new;
  sf_distinct : NoDup (req_id <$> new);
  sf_new r : r ∈ new → req_id r ∈ gone ∨ view b !! req_id r = None;
  sf_room : Z.of_nat (size (kept gone b)) + len new ≤ max_num_reqs b;
  sf_swaps : Forall (λ p, 0 ≤ p.1 < Z.of_nat (size (kept gone b)) + len new ∧ 0 ≤ p.2 < Z.of_nat (size (kept gone b)) + len new) swaps;
}.
Lemma update_batch_spec gone new swaps b x : batch_ok b → builder_fresh b → step_fits gone new swaps b → seen x b →
  ∃ u c b0 b', update_batch gone new swaps b = (Ok (u, c), b') ∧ batch_ok b' ∧ compact b' ∧ builder_fresh b' ∧ same_config b b' ∧
    (∀ id, id ∉ req_id <$> new → view b' !! id = if bool_decide (id ∈ gone) then None else view b !! id) ∧
    (∀ r, r ∈ new → ∃ row, view b' !! req_id r = Some row ∧ is_row_of b r row) ∧
    seen (foldl (λ x r, ob_add n X O r x) x new) b0 ∧ req_id_to_index b' = req_id_to_index b0 ∧ is_pooling_model b0 = is_pooling_model b ∧
    (is_pooling_model b = false → let w := batch_update_builder b0 in
      match u with
      | Some u => bu_batch_size u = num_reqs b' ∧ bu_removed u = _removed w ∧ bu_added u = added w ∧ bu_moved u = moved w
      | None => _removed w = [] ∧ added w = [] ∧ moved w = []
      end).
Proof.
  intros Hok (Fr1 & Fr2 & Fr3 & Fr4) [Hrq Hnd Hnew Hroom Hsw] Hx. unfold update_batch.
  destruct (remove_all_spec gone b x Hok Fr2 Fr4 Hx) as (b1 & Hr1 & Hok1 & Hm1 & Hc1 & Hx1 & Hv1). mstep Hr1.
  assert (Hkept : view b1 = kept gone b).
  { apply map_eq. intros id. unfold kept. rewrite Hv1, map_lookup_filter. destruct (view b !! id) as [row|]; simpl; [|by destruct (bool_decide _)].
    case_bool_decide; case_guard; done || naive_solver. }
  destruct (add_requests_spec new b1 x Hok1) as (b2 & Hr2 & Hok2 & Hc2 & Hx2 & Hother & Hrows & Hn2); [|done| | |done|done|].
  { eapply Forall_impl; [done|]. intros r [np Hr]. exists np. by apply (same_config_request b b1). }
  { intros r Hr. rewrite Hv1. case_bool_decide; [done|]. by destruct (Hnew r Hr). }
  { by rewrite (sc_reqs _ _ Hc1), num_reqs_view, Hkept. }
  mstep Hr2. destruct (condense_run b2 Hok2) as (b3 & b4 & Hr3 & (l & Hperm & Hb3) & Hok3 & Hc4 & Hv4 & b4' & Hsteps & Hbu4 & Hidx4 & Hsets4 & Hcf4). mstep Hr3.
  assert (Hx4 : seen (foldl (λ x r, ob_add n X O r x) x new) b4).
  { assert (Hx3 : seen (foldl (λ x r, ob_add n X O r x) x new) b3).
    { intros Hpool. assert (Hb3' : is_pooling_model b3 = is_pooling_model b2 ∧ max_num_reqs b3 = max_num_reqs b2 ∧ req_id_to_index b3 = req_id_to_index b2 ∧
        batch_update_builder b3 = batch_update_builder b2 <| _removed := l |> <| _is_removed_sorted := true |>) by (rewrite Hb3; by destruct b2).
      destruct Hb3' as (G1 & -> & -> & ->). rewrite G1 in Hpool. destruct (Hx2 Hpool). split; [done|]. by apply ob_sorted_ok. }
    pose proof (condense_seen _ _ _ Hsteps Hx3) as Hx4. destruct (condense_steps _ _ Hsteps) as ([Hpool' Hreqs' _ _ _] & _).
    intros Hpool. rewrite Hbu4, Hidx4, (sc_reqs _ _ Hcf4). assert (Hb3' : max_num_reqs b3 = max_num_reqs b2) by (rewrite Hb3; by destruct b2). rewrite <-Hb3', <-Hreqs'. apply Hx4. rewrite Hpool', Hb3. rewrite (sc_pooling _ _ Hcf4) in Hpool. by destruct b2. }
  assert (Hn4 : num_reqs b4 = Z.of_nat (size (kept gone b)) + len new). { rewrite num_reqs_view, Hv4, <-num_reqs_view, Hn2, num_reqs_view, Hkept. done. }
  destruct (swap_all_spec swaps b4 _ Hc4 ltac:(by rewrite Hn4) Hx4) as (b5 & Hr5 & Hc5 & Hv5 & Hx5 & Hcf5 & _ & _). mstep Hr5.
  destruct (refresh_spec b5 Hc5) as (u & c & b6 & Hr6 & Hok6 & Hcp6 & Hf6 & Hv6 & Hcf6 & Hidx6 & _ & Hu).
  assert (Hcfg : same_config b b5) by (etrans; [done|]; etrans; [done|]; by etrans).
  exists u, c, b5, b6. split; [done|]. split; [done|]. split; [done|]. split; [done|]. split; [by etrans|]. rewrite Hv6, Hv5, Hv4.
  split; [intros id Hid; by rewrite Hother, Hv1|]. split.
  { intros r Hr. destruct (Hrows r Hr) as (row & Hrow & Hrr). exists row. split; [done|]. apply (is_row_of_config b b1); [done| |done]. rewrite Forall_forall in Hrq. by apply Hrq. }
  split; [done|]. split; [done|]. split; [apply Hcfg|]. intros Hpool. rewrite (sc_pooling _ _ Hcfg) in Hu. specialize (Hu Hpool).
  assert (Hn6 : num_reqs b6 = num_reqs b5) by (unfold num_reqs; by rewrite Hidx6). by rewrite Hn6.
Qed.
End observed.
End step.

(** C17.  The worker's batch is a map of requests.  A step removes requests, adds
    requests, closes the gaps, may swap rows, and reports the change, without an error
    when the new requests fit; after it every request that was kept has the row it
    had (tokens, blocks, counts, adapter, sampling parameters), every new one has the
    row of its parameters, tokens and blocks, nothing else is in the batch, and the
    requests are in the first rows, one row each.  A row here leaves out two things
    that [condense] and [swap_states] do not carry along correctly: the mask of
    allowed tokens and the flag in [logits_processing_needs_token_ids]. *)
Theorem batch_step_refines_a_map {F} `{!PyFloat F} (b : InputBatch F) gone new swaps :
  batch_ok b → builder_fresh b → step_fits gone new swaps b →
  ∃ u b', update_batch gone new swaps b = (Ok u, b') ∧ batch_ok b' ∧ builder_fresh b' ∧
    (∀ id, id ∉ req_id <$> new → view b' !! id = if bool_decide (id ∈ gone) then None else view b !! id) ∧
    (∀ r, r ∈ new → ∃ row, view b' !! req_id r = Some row ∧ is_row_of b r row) ∧
    len (_req_ids b') = num_reqs b' ∧
    ∀ i, 0 ≤ i < num_reqs b' → ∃ id, _req_ids b' !! Z.to_nat i = Some (Some id) ∧ req_id_to_index b' !! id = Some i.
Proof.
  intros Hok Hfresh Hfits. destruct (update_batch_spec (no_observer (max_num_reqs b)) gone new swaps b tt Hok Hfresh Hfits) as (u & c & b0 & b' & Hr & Hok' & Hc' & Hf' & _ & Hv & Hrows & _); [done|].
  exists (u, c), b'. split_and!; try done; [by apply compact_size|]. intros i. by apply compact_at.
Qed.

(* ===================================================================== *)
(** ** Masks of allowed tokens                                            *)
(* ===================================================================== *)

Section masks.
Context {F : Type} `{!PyFloat F}.
Implicit Types b : InputBatch F.

(** The mask under which each request of the batch is sampled. *)
Definition masks b : gmap string (list bool) := mask_row (vocab_size b) (allowed_token_ids_mask b) <$> req_id_to_index b.

Lemma masks_removed hi b b' id i : batch_inv hi b → req_id_to_index b !! id = Some i → is_pooling_model b = false → row_removed i id b b' →
  masks b' = delete id (masks b).
Proof.
  intros Hinv Hid Hpool Hrv. destruct (rv_mask _ _ _ _ Hrv) as [_ Hrows]. specialize (Hrows Hpool). apply map_eq. intros x. unfold masks.
  rewrite (rv_index _ _ _ _ Hrv), (sc_vocab _ _ (rv_config _ _ _ _ Hrv)), lookup_fmap. destruct (decide (x = id)) as [->|Hne]; [by rewrite !lookup_delete_eq|].
  rewrite !lookup_delete_ne, lookup_fmap by done. destruct (req_id_to_index b !! x) as [j|] eqn:Ej; [|done]. simpl. f_equal.
  pose proof (index_range hi b x j Hinv Ej). apply Hrows; [lia|]. intros ->. by apply Hne, (index_inj hi b _ _ i).
Qed.
Lemma masks_added b b' r i np ids : batch_ok b → is_pooling_model b = false → row_added i r np ids b b' → req_id_to_index b !! req_id r = None →
  batch_ok b' → masks b' = <[req_id r := request_mask b r i]> (masks b).
Proof.
  intros Hok Hpool Hra Hnew Hok'. destruct (ra_mask _ _ _ _ _ _ Hra) as [_ Hrows]. destruct (Hrows Hpool) as [Hrow Hkept]. apply map_eq. intros x. unfold masks.
  pose proof (ra_index _ _ _ _ _ _ Hra) as Hidx. pose proof (ra_config _ _ _ _ _ _ Hra) as Hc.
  rewrite (sc_vocab _ _ Hc), lookup_fmap. destruct (decide (x = req_id r)) as [->|Hne]; [rewrite Hidx, !lookup_insert_eq; simpl; by rewrite Hrow|].
  rewrite lookup_insert_ne, lookup_fmap by done. assert (Hx : req_id_to_index b' !! x = req_id_to_index b !! x) by (by rewrite Hidx, lookup_insert_ne).
  destruct (req_id_to_index b !! x) as [j|] eqn:Ej; rewrite Hx; [|done]. simpl. f_equal. pose proof (index_range _ b x j Hok Ej). apply Hkept; [lia|].
  intros ->. apply Hne, (index_inj _ b' _ _ i Hok'); [done|]. by rewrite Hidx, lookup_insert_eq.
Qed.
Lemma masks_moved b b' : rtc condense_step b b' → is_pooling_model b = false → masks b' = masks b.
Proof.
  induction 1 as [b|b b1 b2 [last e id rm Hinv Hs Hrm He Hid Hmv _ _] _ IH]; [done|]. intros Hpool. set (b0 := b <| batch_update_builder ::= _ |>) in *.
  assert (Hb0 : is_pooling_model b0 = is_pooling_model b ∧ req_id_to_index b0 = req_id_to_index b ∧ vocab_size b0 = vocab_size b ∧
    allowed_token_ids_mask b0 = allowed_token_ids_mask b ∧ max_num_reqs b0 = max_num_reqs b) by (unfold b0; by destruct b).
  destruct Hb0 as (E1 & E2 & E3 & E4 & E5). pose proof (mv_config _ _ _ _ _ Hmv) as Hc. destruct (mv_mask _ _ _ _ _ Hmv) as [_ Hrows].
  rewrite IH by (rewrite (sc_pooling _ _ Hc); congruence). destruct (Hrows ltac:(congruence)) as [Hrow Hkept]. rewrite E3, E4 in Hrow. unfold rows_kept in Hkept.
  rewrite E3, E4, E5 in Hkept. apply map_eq. intros x. unfold masks. rewrite (mv_index _ _ _ _ _ Hmv), (sc_vocab _ _ Hc), E2, E3, !lookup_fmap.
  destruct (decide (x = id)) as [->|Hne]; [rewrite lookup_insert_eq, Hid; simpl; by rewrite Hrow|]. rewrite lookup_insert_ne by done.
  destruct (req_id_to_index b !! x) as [j|] eqn:Ej; [|done]. simpl. f_equal. pose proof (index_range _ b x j Hinv Ej). apply Hkept; [lia|].
  intros ->. destruct Hinv as [[H1 H2 _ _ _] _ _]. destruct (H2 e) as [_ Hn]; [rewrite Hrm; set_solver|]. apply H1 in Ej as [_ Ej]. congruence.
Qed.

Lemma masks_builder b u : masks (b <| batch_update_builder := u |>) = masks b.
Proof. by destruct b. Qed.
Lemma remove_all_masks gone b b' : batch_ok b → is_pooling_model b = false → _is_removed_sorted (batch_update_builder b) = false →
  for_ gone (λ id, remove_request id ;; ret tt) b = (Ok tt, b') → ∀ id, masks b' !! id = if bool_decide (id ∈ gone) then None else masks b !! id.
Proof.
  revert b. induction gone as [|id gone IH]; intros b Hok Hpool Hs; cbn [for_]; [by intros [= <-]|].
  destruct (req_id_to_index b !! id) as [i|] eqn:Ei.
  - destruct (remove_request_spec b id i Hok Ei Hs) as (b1 & Hrun & Hok1 & _ & Hrv). rewrite bind_assoc. mstep Hrun. rewrite run_ret.
    intros Hr x. rewrite (IH b1 Hok1); [|by rewrite (sc_pooling _ _ (rv_config _ _ _ _ Hrv))|by rewrite (rv_builder _ _ _ _ Hrv); destruct (batch_update_builder b)|done].
    rewrite (masks_removed _ _ _ _ _ Hok Ei Hpool Hrv). destruct (decide (x = id)) as [->|Hne].
    + rewrite lookup_delete_eq, (bool_decide_true (id ∈ id :: gone)) by set_solver. by destruct (bool_decide _).
    + rewrite lookup_delete_ne by done. by rewrite (bool_decide_ext (x ∈ id :: gone) (x ∈ gone)) by set_solver.
  - assert (Hrun : remove_request id b = (Ok None, b)) by (unfold remove_request; rewrite run_get; by rewrite Ei).
    rewrite bind_assoc. mstep Hrun. rewrite run_ret. intros Hr x. rewrite (IH b Hok Hpool Hs Hr).
    destruct (decide (x = id)) as [->|Hne]; [|by rewrite (bool_decide_ext (x ∈ id :: gone) (x ∈ gone)) by set_solver].
    rewrite (bool_decide_true (id ∈ id :: gone)) by set_solver. unfold masks. rewrite lookup_fmap, Ei. by destruct (bool_decide _).
Qed.
(** The allowed tokens of a request, if there are any. *)
Definition restricted_to (r : CachedRequestState F) (ids : list Z) : Prop :=
  ids ≠ [] ∧ ∃ p, sampling_params r = Some p ∧ allowed_token_ids p = Some ids.
Lemma request_mask_allowed b r i ids : restricted_to r ids → request_mask b r i = only_allowed (vocab_size b) ids.
Proof. intros (Hne & p & Hp & Ha). unfold request_mask. rewrite Hp, Ha. by destruct ids. Qed.
Lemma add_requests_masks new b b' : batch_ok b → is_pooling_model b = false → Forall (λ r, ∃ np, request_ok b r np) new → NoDup (req_id <$> new) →
  (∀ r, r ∈ new → req_id_to_index b !! req_id r = None) → num_reqs b + len new ≤ max_num_reqs b →
  for_ new (λ r, add_request r ;; ret tt) b = (Ok tt, b') →
  (∀ id, id ∉ req_id <$> new → masks b' !! id = masks b !! id) ∧
  ∀ r ids, r ∈ new → restricted_to r ids → masks b' !! req_id r = Some (only_allowed (vocab_size b) ids).
Proof.
  revert b. induction new as [|r new IH]; intros b Hok Hpool Hrq Hnd Hnew Hroom; cbn [for_]; [intros [= <-]; split; [done|by intros r ids ?%elem_of_nil]|].
  apply Forall_cons in Hrq as [[np Hr] Hrq]. rewrite fmap_cons in Hnd. apply NoDup_cons in Hnd as [Hni Hnd]. rewrite len_cons in Hroom. pose proof (len_nonneg new) as Hl0.
  assert (Hin : req_id_to_index b !! req_id r = None) by (apply Hnew; by left).
  destruct (add_request_spec b r np Hok Hr ltac:(lia) Hin) as (i & l & s & ids0 & b1 & Hrun & Hok1 & Hv1 & _ & _ & _ & Hra & _).
  rewrite bind_assoc. mstep Hrun. rewrite run_ret. intros Hrest. pose proof (ra_config _ _ _ _ _ _ Hra) as Hc1. pose proof (ra_index _ _ _ _ _ _ Hra) as Hidx.
  assert (Hn1 : num_reqs b1 = num_reqs b + 1). { unfold num_reqs. rewrite Hidx, map_size_insert_None by done. lia. }
  pose proof (masks_added _ _ _ _ _ _ Hok Hpool Hra Hin Hok1) as Hm1.
  destruct (IH b1 Hok1) as [Hother Hrows]; [by rewrite (sc_pooling _ _ Hc1)| |done| |rewrite (sc_reqs _ _ Hc1); lia|done|].
  - eapply Forall_impl; [done|]. intros r' [np' Hr']. exists np'. by apply (same_config_request b b1).
  - intros r' Hr'. rewrite Hidx, lookup_insert_ne; [apply Hnew; by right|]. intros Heq. apply Hni. rewrite Heq. by apply list_elem_of_fmap_2.
  - split.
    + intros id Hid. rewrite fmap_cons in Hid. apply not_elem_of_cons in Hid as [H1 H2]. rewrite Hother, Hm1 by done. by rewrite lookup_insert_ne.
    + intros r' ids [->|Hr']%elem_of_cons Hres; [|rewrite <-(sc_vocab _ _ Hc1); by apply Hrows].
      rewrite Hother, Hm1, lookup_insert_eq by done. by rewrite (request_mask_allowed b r i ids).
Qed.
(** A step that swaps no rows. *)
Lemma update_batch_masks gone new b : batch_ok b → builder_fresh b → is_pooling_model b = false → step_fits gone new [] b →
  ∃ u b', update_batch gone new [] b = (Ok u, b') ∧
    (∀ id, id ∉ req_id <$> new → masks b' !! id = if bool_decide (id ∈ gone) then None else masks b !! id) ∧
    ∀ r ids, r ∈ new → restricted_to r ids → masks b' !! req_id r = Some (only_allowed (vocab_size b) ids).
Proof.
  intros Hok (Fr1 & Fr2 & Fr3 & Fr4) Hpool [Hrq Hnd Hnew Hroom _]. unfold update_batch.
  destruct (remove_all_spec (no_observer (max_num_reqs b)) gone b tt Hok Fr2 Fr4) as (b1 & Hr1 & Hok1 & Hm1 & Hc1 & _ & Hv1); [done|]. mstep Hr1.
  pose proof (remove_all_masks gone b b1 Hok Hpool Fr2 Hr1) as Hmask1. rewrite <-(sc_pooling _ _ Hc1) in Hpool.
  assert (Hkept : view b1 = kept gone b).
  { apply map_eq. intros id. unfold kept. rewrite Hv1, map_lookup_filter. destruct (view b !! id) as [row|]; simpl; [|by destruct (bool_decide _)].
    case_bool_decide; case_guard; done || naive_solver. }
  assert (Hrq1 : Forall (λ r, ∃ np, request_ok b1 r np) new).
  { eapply Forall_impl; [done|]. intros r [np Hr]. exists np. by apply (same_config_request b b1). }
  assert (Hnone : ∀ r, r ∈ new → view b1 !! req_id r = None).
  { intros r Hr. rewrite Hv1. case_bool_decide; [done|]. by destruct (Hnew r Hr). }
  assert (Hroom1 : num_reqs b1 + len new ≤ max_num_reqs b1) by (by rewrite (sc_reqs _ _ Hc1), num_reqs_view, Hkept).
  destruct (add_requests_spec (no_observer (max_num_reqs b)) new b1 tt Hok1 Hrq1 Hnd Hnone Hroom1 Hm1) as (b2 & Hr2 & Hok2 & Hc2 & _); [intros _; split; [apply (sc_reqs _ _ Hc1)|done]|]. mstep Hr2.
  destruct (add_requests_masks new b1 b2 Hok1 Hpool Hrq1 Hnd) as [Hother Hrows]; [|done|done|]. { intros r Hr. apply view_none. by apply Hnone. }
  destruct (condense_run b2 Hok2) as (b3 & b4 & Hr3 & (l & _ & Hb3) & _ & Hc4 & _ & b4' & Hsteps & _ & Hidx4 & [_ Hmk4] & Hcf4). mstep Hr3.
  cbn [for_]. rewrite run_ret. destruct (refresh_spec b4 Hc4) as (u & c & b6 & Hr6 & _ & _ & _ & _ & Hcf6 & Hidx6 & [_ Hmk6] & _).
  exists (u, c), b6. split; [done|]. assert (Hb3m : masks b3 = masks b2 ∧ is_pooling_model b3 = is_pooling_model b2 ∧ vocab_size b3 = vocab_size b2) by (rewrite Hb3; by destruct b2).
  destruct Hb3m as (M3 & P3 & V3). rewrite <-(sc_pooling _ _ Hc2), <-P3 in Hpool. pose proof (masks_moved _ _ Hsteps Hpool) as M4.
  destruct (condense_steps _ _ Hsteps) as ([_ _ _ V4 _] & _).
  assert (M6 : masks b6 = masks b2).
  { rewrite <-M3, <-M4. unfold masks. rewrite Hidx6, Hidx4, Hmk6, Hmk4. by rewrite (sc_vocab _ _ Hcf6), (sc_vocab _ _ Hcf4), V4, V3. }
  rewrite M6. split; [intros id Hid; by rewrite Hother|]. intros r ids Hr Hres. rewrite <-(sc_vocab _ _ Hc1). by apply Hrows.
Qed.
End masks.

(* ===================================================================== *)
(** ** Batches for tests                                                  *)
(* ===================================================================== *)

Lemma new_batch_ok {F} `{!PyFloat F} pooling n w v ts (uninit : nat → Z → F) uninit_k : 0 ≤ n → 0 ≤ w → 0 ≤ v → tables_ok n ts →
  let b := new_InputBatch pooling n w v ts uninit uninit_k in batch_ok b ∧ builder_fresh b ∧ view b = ∅.
Proof.
  intros Hn Hw Hv Hts b. assert (Hrep : ∀ A (x : A), len (py_replicate n x) = n) by (intros A x; unfold py_replicate; rewrite len_replicate; lia).
  assert (Hrows : ∀ A (x : A), rows_ok n w (py_replicate n (py_replicate w x))).
  { intros A x. split; [apply Hrep|]. apply Forall_replicate. unfold py_replicate. rewrite len_replicate. lia. }
  assert (Hseq : ∀ A (f : Z → A), len (f <$> seqZ 0 n) = n) by (intros A f; unfold len; rewrite length_fmap, length_seqZ; lia).
  split; [|split; [done|by apply map_eq; intros id; unfold view; rewrite lookup_fmap, !lookup_empty]].
  split; simpl.
  - split; try done; [|by intros i ?%elem_of_nil]. intros id i. rewrite lookup_empty. split; [done|]. by intros [_ ?].
  - split; simpl; [apply NoDup_nil_2|done].
  - split; simpl; try done.
    + split; simpl; auto.
    + split; simpl; auto.
    + split; simpl; [auto| |done|done]. intros x id. split; [by intros (s & ? & _)|]. by intros (_ & i & ? & _).
    + rewrite Hrep. done.
    + intros i s _ Hs. unfold py_replicate in Hs. by apply lookup_replicate in Hs as [-> _].
Qed.

#[local] Instance test_float : PyFloat Z := {| float_eq_dec := _; float_zero := 0; float_one := 1; float_ltb := Z.ltb |}.
Definition test_params (allowed : option (list Z)) : SamplingParams Z :=
  mkSamplingParams GREEDY 0 1 0 5 0 0 1 None None allowed None None 0 ∅.
Definition test_request (id : string) (ref : Ref) (allowed : option (list Z)) : CachedRequestState Z :=
  mkCachedRequestState id (Some [1; 2]) (Some (test_params allowed)) None [] 0 [3] ref None None None 0 None None.
(** Four requests of up to eight tokens, a vocabulary of three. *)
Definition test_batch : InputBatch Z := new_InputBatch false 4 8 3 [] (λ _ _, 0) (λ _, 0).

Definition test_new : list (CachedRequestState Z) := [test_request "a" 1 None; test_request "b" 2 (Some [1])].
Lemma test_step_fits : batch_ok test_batch ∧ builder_fresh test_batch ∧ step_fits [] test_new [(0, 1)] test_batch.
Proof.
  destruct (new_batch_ok false 4 8 3 [] (λ _ _, 0) (λ _, 0)) as (H1 & H2 & H3); [lia|lia|lia|by constructor|]. split; [exact H1|]. split; [exact H2|]. split.
  - assert (Hq : ∀ id ref al, (∀ l, al = Some l → Forall (λ t, 0 ≤ t < 3) l) → request_ok test_batch (test_request id ref al) 2).
    { intros id ref al Hal. split; try done; [by left|]. by exists (test_params al). }
    apply Forall_cons. split; [exists 2; by apply Hq|]. apply Forall_cons. split; [exists 2; apply Hq|constructor].
    intros l [= <-]. repeat constructor; lia.
  - repeat constructor; set_solver.
  - intros r _. right. apply (f_equal (.!! req_id r)) in H3. by rewrite lookup_empty in H3.
  - by vm_compute.
  - repeat constructor; vm_compute; congruence.
Qed.
Lemma batch_step_refines_a_map_witness : ∃ u b', update_batch [] test_new [(0, 1)] test_batch = (Ok u, b') ∧ len (_req_ids b') = num_reqs b'.
Proof.
  destruct test_step_fits as (H1 & H2 & H3).
  destruct (batch_step_refines_a_map test_batch [] test_new [(0, 1)] H1 H2 H3) as (u & b' & Hr & _ & _ & _ & _ & Hl & _). exists u, b'. split; [exact Hr|exact Hl].
Defined.

(** C28.  As long as no rows are swapped, a request with allowed tokens is sampled
    under its own mask of them: a step of a generating model's batch that removes
    requests, adds requests and closes the gaps never raises when the new requests
    fit, gives every new request that has allowed tokens the mask that forbids exactly
    the others, and leaves every request that stays the mask it had, in whatever row
    it now is.  (A new request without allowed tokens may find a mask that was left
    behind in its row: [allowed_tokens_of_another_request].) *)
Theorem allowed_tokens_stay_with_their_requests {F} `{!PyFloat F} (b : InputBatch F) gone new :
  is_pooling_model b = false → batch_ok b → builder_fresh b → step_fits gone new [] b →
  ∃ u b', update_batch gone new [] b = (Ok u, b') ∧
    (∀ id, id ∉ req_id <$> new → masks b' !! id = if bool_decide (id ∈ gone) then None else masks b !! id) ∧
    ∀ r ids, r ∈ new → restricted_to r ids → masks b' !! req_id r = Some (only_allowed (vocab_size b) ids).
Proof. intros Hpool Hok Hfresh Hfits. by apply update_batch_masks. Qed.
Lemma allowed_tokens_stay_with_their_requests_witness :
  ∃ u b', update_batch [] test_new [] test_batch = (Ok u, b') ∧ masks b' !! "b"%string = Some [true; false; true].
Proof.
  destruct test_step_fits as (H1 & H2 & [G1 G2 G3 G4 _]).
  destruct (allowed_tokens_stay_with_their_requests test_batch [] test_new) as (u & b' & Hr & _ & Hm); [done|exact H1|exact H2|by split|].
  exists u, b'. split; [exact Hr|]. specialize (Hm (test_request "b" 2 (Some [1])) [1]). assert (Hin : test_request "b" 2 (Some [1]) ∈ test_new) by (right; left).
  assert (Hres : restricted_to (test_request "b" 2 (Some [1])) [1]) by (split; [intros [=]|exists (test_params (Some [1])); split; reflexivity]).
  exact (Hm Hin Hres).
Defined.

(** A swap gives the request of the first row the mask of the request of the second
    row, which keeps its own. *)
Lemma swapped_requests_share_a_mask {F} `{!PyFloat F} (b : InputBatch F) i1 i2 id1 id2 :
  compact b → is_pooling_model b = false → req_id_to_index b !! id1 = Some i1 → req_id_to_index b !! id2 = Some i2 →
  ∃ b', swap_states i1 i2 b = (Ok tt, b') ∧ masks b' !! id1 = masks b !! id2 ∧ masks b' !! id2 = masks b !! id2.
Proof.
  intros Hc Hpool H1 H2. destruct (compact_range b id1 i1 Hc H1) as [R1 M1], (compact_range b id2 i2 Hc H2) as [R2 M2].
  rewrite (compact_size b Hc) in R1, R2. destruct (swap_states_spec b i1 i2 Hc R1 R2) as (b' & Hrun & _ & _ & Hsw). exists b'. split; [done|].
  destruct (sw_mask _ _ _ _ Hsw) as [_ Hrows]. destruct (Hrows Hpool) as [Hrow Hkept]. unfold masks. rewrite (sw_index _ _ _ _ Hsw), (sc_vocab _ _ (sw_config _ _ _ _ Hsw)).
  rewrite !lookup_fmap, H1, H2. simpl. unfold swapped. rewrite !Z.eqb_refl.
  assert (Hsnd : mask_row (vocab_size b) (allowed_token_ids_mask b') i2 = mask_row (vocab_size b) (allowed_token_ids_mask b) i2).
  { destruct (decide (i2 = i1)) as [->|Hne]; [done|]. apply Hkept; [lia|done]. }
  rewrite Hsnd. split; [done|]. case_match; bool_to_prop; subst; by rewrite ?Hsnd, ?Hrow.
Qed.

(* ===================================================================== *)
(** ** State that stays behind                                            *)
(* ===================================================================== *)

(** The mask of allowed tokens that the sampler gets after the steps. *)
Definition mask_after (steps : M (InputBatch Z) unit) : res (option (list (list bool))) :=
  match steps test_batch with
  | (Ok _, b) => md ← _make_sampling_metadata b; Ok (md_allowed_token_ids_mask md)
  | (Raise e, _) => Raise e
  end.
Definition only_token (t : Z) : list bool := (λ i, negb (i =? t)) <$> seqZ 0 3.

(** Two ways in which a request gets another request's mask of allowed tokens.
    When [condense] moves a request with allowed tokens, its mask stays at the old
    row as well, and a request without allowed tokens that is added there later may
    then only sample that request's tokens.  And when two rows are swapped, both end
    up with the mask of the second one. *)
Theorem allowed_tokens_of_another_request :
  mask_after (update_batch [] test_new [] ;;
              update_batch ["a"] [] [] ;;
              update_batch [] [test_request "c" 3 None] [] ;; ret tt) = Ok (Some [only_token 1; only_token 1]) ∧
  mask_after (update_batch [] [test_request "a" 1 (Some [1]); test_request "b" 2 (Some [2])] [] ;;
              swap_states 0 1) = Ok (Some [only_token 2; only_token 2]).
Proof. by vm_compute. Qed.

Definition pooling_request (id : string) (needs : bool) : CachedRequestState Z :=
  mkCachedRequestState id (Some [1; 2]) None None [] 0 [] 0 None None None 0 (Some (mkPoolingParams needs)) (Some 0).
Definition pooling_after (steps : M (InputBatch Z) unit) : res (list PoolingParams * option (list (list Z))) :=
  match steps (new_InputBatch true 4 8 3 [] (λ _ _, 0) (λ _, 0)) with
  | (Ok _, b) => md ← _make_sampling_metadata b; ps ← get_pooling_params b; Ok (ps, md_prompt_token_ids md)
  | (Raise e, _) => Raise e
  end.
(** A pooling request that needs its prompt's tokens has them only while it
    stays in its row: after [condense] moved it, the flag is left at the old row and
    the metadata has no prompt tokens for the batch. *)
Theorem moved_pooling_request_has_no_prompt :
  pooling_after (update_batch [] [pooling_request "a" false; pooling_request "b" true] [] ;; ret tt) =
    Ok ([mkPoolingParams false; mkPoolingParams true], Some [[1; 2]; [1; 2]]) ∧
  pooling_after (update_batch [] [pooling_request "a" false; pooling_request "b" true] [] ;;
                 update_batch ["a"] [] [] ;; ret tt) =
    Ok ([mkPoolingParams true], None).
Proof. by vm_compute. Qed.
