(* ===== verification/LogitsProcsInv.v ===== *)
(** * The logits processors follow the batch

    A processor keeps one state per row and hears of the batch only through the
    updates.  It observes the batch ([Observer]): what the recorded changes will make
    of its states agrees, at every moment of a step, with the rows the requests have. *)
From S2P Require Import Prelude MathUtils Outcome Request NumPy BlockTable BlockTableInv BatchUpdate LogitsProcs InputBatch BatchRows InputBatchInv InputBatchStep.
Local Open Scope Z_scope.

(* ===================================================================== *)
(** ** Updates of a dictionary                                            *)
(* ===================================================================== *)

Section dict.
Context {P T : Type} (new_state : P → option T) (truthy : T → bool).
Implicit Types D : gmap Z T.

Definition m_add D (a : Z * P) : gmap Z T := partial_alter (λ _, new_state a.2) a.1 D.
Definition m_remove D (i : Z) : gmap Z T := delete i D.
Definition m_move D (m : MovedRequest) : gmap Z T := (dict_move (D, false) m).1.

Lemma dict_add_fst s a : (dict_add new_state s a).1 = m_add s.1 a.
Proof. unfold dict_add, m_add. by destruct (new_state a.2). Qed.
Lemma dict_move_fst (s : gmap Z T * bool) m : (dict_move s m).1 = m_move s.1 m.
Proof. unfold m_move. destruct m as [[a b] d], s as [D u]. unfold dict_move. simpl. by destruct (delete a D !! b). Qed.
Lemma foldl_fst {A} (f : gmap Z T * bool → A → gmap Z T * bool) g s l : (∀ s x, (f s x).1 = g s.1 x) → (foldl f s l).1 = foldl g s.1 l.
Proof. intros H. revert s. induction l as [|x l IH]; intros s; [done|]. simpl. by rewrite IH, H. Qed.
Lemma m_move_lookup D a b d i : m_move D (a, b, d) !! i =
  if bool_decide (i = b) then D !! a else if bool_decide (i = a) then (if bool_decide (d = SWAP) then D !! b else None) else D !! i.
Proof.
  unfold m_move, dict_move. simpl. destruct (decide (a = b)) as [<-|Hab].
  - rewrite lookup_delete_eq. simpl. destruct (D !! a) eqn:Ea; simpl; case_bool_decide; subst; simplify_map_eq; done.
  - rewrite lookup_delete_ne by done. destruct (D !! a) eqn:Ea, (D !! b) eqn:Eb; simpl; repeat case_bool_decide; subst; simplify_map_eq; done.
Qed.
Lemma m_move_delete D m i : i ≠ m.1.1 → i ≠ m.1.2 → m_move (delete i D) m = delete i (m_move D m).
Proof.
  destruct m as [[a b] d]. simpl. intros Ha Hb. apply map_eq. intros j. rewrite m_move_lookup.
  destruct (decide (j = i)) as [->|Hj]; [rewrite lookup_delete_eq, !bool_decide_false by done; by simplify_map_eq|].
  rewrite (lookup_delete_ne (m_move _ _)), m_move_lookup by done. by rewrite !(lookup_delete_ne D) by done.
Qed.
Lemma moves_delete D ms i : Forall (λ m : MovedRequest, i ≠ m.1.1 ∧ i ≠ m.1.2) ms → foldl m_move (delete i D) ms = delete i (foldl m_move D ms).
Proof. revert D. induction ms as [|m ms IH]; intros D Hms; [done|]. apply Forall_cons in Hms as [[Ha Hb] Hms]. simpl. rewrite m_move_delete by done. by apply IH. Qed.
Lemma removes_lookup D l i : foldl m_remove D l !! i = if bool_decide (i ∈ l) then None else D !! i.
Proof.
  revert D. induction l as [|j l IH]; intros D; [done|]. simpl. rewrite IH. unfold m_remove. destruct (decide (i = j)) as [->|Hij].
  - rewrite lookup_delete_eq, (bool_decide_true (j ∈ j :: l)) by set_solver. by case_bool_decide.
  - rewrite lookup_delete_ne by done. by rewrite (bool_decide_ext (i ∈ j :: l) (i ∈ l)) by set_solver.
Qed.
Lemma removes_perm D l l' : (∀ i, i ∈ l ↔ i ∈ l') → foldl m_remove D l = foldl m_remove D l'.
Proof. intros H. apply map_eq. intros i. rewrite !removes_lookup. by rewrite (bool_decide_ext _ _ (H i)). Qed.
(** What the recorded changes will make of the dictionary. *)
Definition replay D (u : BatchUpdateBuilder P) : gmap Z T := foldl m_move (foldl m_remove (foldl m_add D (added u)) (_removed u)) (moved u).
Lemma removes_empty l : foldl m_remove (∅ : gmap Z T) l = ∅.
Proof. induction l as [|i l IH]; [done|]. simpl. unfold m_remove at 2. by rewrite delete_empty. Qed.
Lemma moves_empty l : foldl m_move (∅ : gmap Z T) l = ∅.
Proof.
  induction l as [|[[a b] d] l IH]; [done|]. simpl. assert (m_move (∅ : gmap Z T) (a, b, d) = ∅) as ->; [|done].
  apply map_eq. intros i. rewrite m_move_lookup, !lookup_empty. by repeat case_bool_decide.
Qed.
(** The dictionary after an update: every change is applied, also when the code skips
    the removals and moves of an empty dictionary. *)
Lemma process_dict_replay D (w : BatchUpdateBuilder P) u :
  match u with
  | Some u => bu_removed u = _removed w ∧ bu_added u = added w ∧ bu_moved u = moved w
  | None => _removed w = [] ∧ added w = [] ∧ moved w = []
  end → (process_dict_updates new_state truthy D u).1 = replay D w.
Proof.
  unfold replay. destruct u as [u|]; [|by intros (-> & -> & ->)]. unfold process_dict_updates. intros (-> & -> & ->).
  pose proof (foldl_fst _ _ (D, false) (added w) dict_add_fst) as Ha. simpl in Ha. case_bool_decide as He.
  - rewrite <-Ha, He. by rewrite removes_empty, moves_empty.
  - rewrite (foldl_fst _ m_move) by (intros; apply dict_move_fst). rewrite (foldl_fst _ m_remove) by done. by rewrite Ha.
Qed.
End dict.

(* ===================================================================== *)
(** ** Following the batch                                                *)
(* ===================================================================== *)

Section follow.
Context {F : Type} `{!PyFloat F} {T : Type}.
Context (new_state : Added F → option T) (truthy : T → bool) (n : Z) (D0 : gmap Z T) (idx0 : gmap string Z).
Implicit Types (D : gmap Z T) (idx : gmap string Z) (S : string → option T) (u : BatchUpdateBuilder (Added F)).

(** The dictionary has the state [S id] at the row of every request [id], and nothing
    elsewhere. *)
Record follows idx S D : Prop := {
  fo_state id i : idx !! id = Some i → D !! i = S id;
  fo_only i : is_Some (D !! i) → ∃ id, idx !! id = Some i;
}.
(** The states when a request was added. *)
Definition added_state (r : CachedRequestState F) : option T :=
  match sampling_params r with Some p => new_state (mkAdded p (prompt_token_ids r) (output_ref r)) | None => None end.
Definition with_request S (r : CachedRequestState F) : string → option T := λ id, if bool_decide (id = req_id r) then added_state r else S id.

Definition in_rows (i : Z) : Prop := 0 ≤ i < n.
Record recorded idx u : Prop := {
  rc_removed : Forall in_rows (_removed u);
  rc_added : Forall (λ a, in_rows a.1) (added u);
  rc_moved : Forall (λ m, in_rows m.1.1 ∧ in_rows m.1.2 ∧ (m.2 = UNIDIRECTIONAL → m.1.1 ≠ m.1.2)) (moved u);
  rc_untouched i : i ∈ _removed u → Forall (λ m, i ≠ m.1.1 ∧ i ≠ m.1.2) (moved u);
  rc_free id i : idx !! id = Some i → i ∉ _removed u;
  rc_above : Forall (λ m, m.2 = UNIDIRECTIONAL → ∀ id i, idx !! id = Some i → i < m.1.1) (moved u);
  rc_none : added u = [] → _removed u = [] → moved u = [] → idx = idx0;
}.
Definition pending_ok S idx u : Prop := follows idx S (replay new_state D0 u) ∧ recorded idx u.

Lemma replay_removed u u' : added u' = added u → moved u' = moved u → (∀ i, i ∈ _removed u' ↔ i ∈ _removed u) → replay new_state D0 u' = replay new_state D0 u.
Proof. intros Ha Hm Hr. unfold replay. rewrite Ha, Hm. by rewrite (removes_perm _ _ _ Hr). Qed.
Lemma pending_removed S idx u id i : pending_ok S idx u → moved u = [] → idx !! id = Some i → own_rows n idx →
  pending_ok S (delete id idx) (u <| _removed ::= λ l, l ++ [i] |> <| batch_changed := true |>).
Proof.
  intros [[H1 H2] [R1 R2 R3 R4 R5 R6 R7]] Hm Hi [Hinj Hran]. destruct u as [rm so ad mo ch]. simpl in *. subst mo. unfold replay in *. simpl in *.
  assert (Hd : ∀ j, foldl m_remove (foldl (m_add new_state) D0 ad) (rm ++ [i]) !! j = if bool_decide (j = i) then None else foldl m_remove (foldl (m_add new_state) D0 ad) rm !! j).
  { intros j. rewrite foldl_app. simpl. unfold m_remove at 1. case_bool_decide; subst; by simplify_map_eq. }
  split; split; unfold replay; simpl.
  - intros id' j [Hne Hj]%lookup_delete_Some. rewrite Hd, bool_decide_false; [by apply H1|]. intros ->. by destruct Hne; eapply Hinj.
  - intros j. rewrite Hd. case_bool_decide as Hji; [by intros []|]. intros [id' Hj]%H2. exists id'. rewrite lookup_delete_ne; [done|]. congruence.
  - apply Forall_app. split; [done|]. constructor; [|done]. by eapply Hran.
  - done.
  - done.
  - constructor.
  - intros id' j [Hne Hj]%lookup_delete_Some. intros [?|Hji]%elem_of_app; [by eapply R5|]. apply list_elem_of_singleton in Hji as ->. by destruct Hne; eapply Hinj.
  - constructor.
  - by intros _ [_ ?]%app_nil.
Qed.
Lemma pending_added S idx u r i l s : pending_ok S idx u → moved u = [] → is_Some (sampling_params r) → idx !! req_id r = None → (∀ id, idx !! id ≠ Some i) → 0 ≤ i < n →
  (∀ j, j ∈ l ↔ j ∈ _removed u ∧ j ≠ i) → pending_ok (with_request S r) (<[req_id r := i]> idx) (builder_added u l s i r).
Proof.
  intros [[H1 H2] [R1 R2 R3 R4 R5 R6 R7]] Hm [p Hp] Hnone Hfree Hi Hl. destruct u as [rm so ad mo ch]. simpl in *. subst mo. unfold replay in *. simpl in *.
  assert (Hd : ∀ j, foldl m_remove (foldl (m_add new_state) D0 (ad ++ [(i, mkAdded p (prompt_token_ids r) (output_ref r))])) l !! j =
    if bool_decide (j = i) then added_state r else foldl m_remove (foldl (m_add new_state) D0 ad) rm !! j).
  { intros j. rewrite !removes_lookup, foldl_app. simpl. unfold m_add at 1. simpl. unfold added_state. rewrite Hp. case_bool_decide as Hj; case_bool_decide as Hji; subst.
    - naive_solver.
    - rewrite bool_decide_true by naive_solver. done.
    - by rewrite lookup_partial_alter_eq.
    - rewrite lookup_partial_alter_ne by done. rewrite bool_decide_false by naive_solver. done. }
  unfold builder_added. rewrite Hp. split; split; unfold replay, with_request; simpl.
  - intros id j [[<- <-]|[Hne Hj]]%lookup_insert_Some; rewrite Hd; [by rewrite !bool_decide_true|].
    rewrite !bool_decide_false; [by apply H1|done|]. intros ->. by eapply Hfree.
  - intros j. rewrite Hd. case_bool_decide as Hji; [subst; intros _; exists (req_id r); by simplify_map_eq|]. intros [id Hj]%H2. exists id.
    rewrite lookup_insert_ne; [done|]. congruence.
  - apply Forall_forall. intros j [Hj _]%Hl. rewrite Forall_forall in R1. by apply R1.
  - apply Forall_app. by split; [|constructor].
  - done.
  - constructor.
  - intros id j [[<- <-]|[Hne Hj]]%lookup_insert_Some; rewrite Hl; [naive_solver|]. intros [Hin _]. by eapply R5.
  - constructor.
  - by intros [_ ?]%app_nil.
Qed.
Lemma pending_sorted S idx u l : pending_ok S idx u → l ≡ₚ _removed u → pending_ok S idx (u <| _removed := l |> <| _is_removed_sorted := true |>).
Proof.
  intros [Hf [R1 R2 R3 R4 R5 R6 R7]] Hl. split; [rewrite (replay_removed u); [done|by destruct u..|intros i; rewrite <-Hl; by destruct u]|].
  destruct u as [rm so ad mo ch]. simpl in *. split; simpl; [by rewrite Hl|done|done|..]; [intros i; rewrite Hl; apply R4|intros id i Hi; rewrite Hl; by apply (R5 id)|done|]. intros Ha Hr. subst l. apply Permutation_nil_l in Hl. by apply R7.
Qed.
Lemma pending_moved S idx u id last e rm : pending_ok S idx u → _removed u = rm ++ [e] → NoDup (rm ++ [e]) → last ∉ rm ++ [e] → idx !! id = Some last →
  (∀ id', idx !! id' ≠ Some e) → 0 ≤ e < last → (∀ id' i, idx !! id' = Some i → i ≤ last) → own_rows n idx →
  pending_ok S (<[id := e]> idx) (u <| _removed := rm |> <| moved ::= λ l, l ++ [(last, e, UNIDIRECTIONAL)] |>).
Proof.
  intros [[H1 H2] [R1 R2 R3 R4 R5 R6 R7]] Hrm Hnd Hlast Hid Hfree He Hmax [Hinj Hran]. destruct u as [rm0 so ad mo ch]. simpl in *. subst rm0. unfold replay in *. simpl in *.
  pose proof (Hran _ _ Hid) as Hr. apply NoDup_app in Hnd as (_ & Hnd & _).
  set (X := foldl m_move (foldl m_remove (foldl (m_add new_state) D0 ad) rm) mo).
  assert (Hold : foldl m_move (foldl m_remove (foldl (m_add new_state) D0 ad) (rm ++ [e])) mo = delete e X).
  { rewrite foldl_app. simpl. unfold m_remove at 1. apply moves_delete. apply R4. set_solver. }
  rewrite Hold in *.
  assert (Hd : ∀ j, foldl m_move (foldl m_remove (foldl (m_add new_state) D0 ad) rm) (mo ++ [(last, e, UNIDIRECTIONAL)]) !! j =
    if bool_decide (j = e) then S id else if bool_decide (j = last) then None else X !! j).
  { intros j. rewrite foldl_app. fold X. simpl. rewrite m_move_lookup. rewrite (bool_decide_false (UNIDIRECTIONAL = SWAP)) by done.
    case_bool_decide; [|done]. rewrite <-(H1 id last Hid). rewrite lookup_delete_ne by lia. done. }
  split; split; unfold replay; simpl.
  - intros id' j [[<- <-]|[Hne Hj]]%lookup_insert_Some; rewrite Hd; [by rewrite bool_decide_true|].
    assert (j ≠ e) by (intros ->; by eapply Hfree). assert (j ≠ last) by (intros ->; by destruct Hne; eapply Hinj).
    rewrite !bool_decide_false by done. rewrite <-(H1 id' j Hj). by rewrite lookup_delete_ne by done.
  - intros j. rewrite Hd. case_bool_decide as Hje; [subst; intros _; exists id; by simplify_map_eq|]. case_bool_decide as Hjl; [by intros []|].
    intros Hj. destruct (H2 j) as [id' Hid']; [by rewrite lookup_delete_ne by done|]. exists id'. rewrite lookup_insert_ne; [done|]. congruence.
  - by apply Forall_app in R1 as [R1 _].
  - done.
  - apply Forall_app. split; [done|]. constructor; [|done]. simpl. unfold in_rows. split_and!; try lia.
  - intros i Hi. apply Forall_app. split; [apply R4; set_solver|]. constructor; [|done]. simpl. split; [set_solver|]. intros ->. by apply (Hnd e Hi); set_solver.
  - intros id' j [[<- <-]|[Hne Hj]]%lookup_insert_Some; [intros Hin; apply (Hnd e Hin); set_solver|]. pose proof (R5 id' j Hj). set_solver.
  - apply Forall_app. split.
    + eapply Forall_impl; [done|]. intros m Hm Hu id' j [[<- <-]|[Hne Hj]]%lookup_insert_Some; [pose proof (Hm Hu _ _ Hid); lia|by eapply Hm].
    + constructor; [|done]. intros _ id' j [[<- <-]|[Hne Hj]]%lookup_insert_Some; simpl; [lia|]. pose proof (Hmax _ _ Hj).
      assert (j ≠ last) by (intros ->; by destruct Hne; eapply Hinj). lia.
  - by intros _ _ [_ ?]%app_nil.
Qed.
Lemma pending_swapped S idx u i1 i2 id1 id2 : pending_ok S idx u → idx !! id1 = Some i1 → idx !! id2 = Some i2 → own_rows n idx →
  pending_ok S (swapped i1 i2 <$> idx) (u <| moved ::= λ l, l ++ [(i1, i2, SWAP)] |>).
Proof.
  intros [[H1 H2] [R1 R2 R3 R4 R5 R6 R7]] Hi1 Hi2 [Hinj Hran]. destruct u as [rm so ad mo ch]. simpl in *. unfold replay in *. simpl in *.
  set (X := foldl m_move (foldl m_remove (foldl (m_add new_state) D0 ad) rm) mo) in *.
  assert (Hd : ∀ j, foldl m_move (foldl m_remove (foldl (m_add new_state) D0 ad) rm) (mo ++ [(i1, i2, SWAP)]) !! swapped i1 i2 j = X !! j).
  { intros j. rewrite foldl_app. fold X. simpl. rewrite m_move_lookup. rewrite (bool_decide_true (SWAP = SWAP)) by done. unfold swapped.
    destruct (Z.eqb_spec j i1) as [->|?]; [by rewrite bool_decide_true|]. destruct (Z.eqb_spec j i2) as [->|?]; [rewrite (bool_decide_true (i1 = i1)) by done; case_bool_decide; by subst|].
    by rewrite !bool_decide_false. }
  assert (Hsw : ∀ id j, (swapped i1 i2 <$> idx) !! id = Some j → ∃ i, idx !! id = Some i ∧ j = swapped i1 i2 i).
  { intros id j. rewrite lookup_fmap. intros (i & -> & Hi)%fmap_Some. by exists i. }
  split; split; unfold replay; simpl.
  - intros id j (i & Hi & ->)%Hsw. rewrite Hd. by apply H1.
  - intros j. rewrite <-(swapped_invol i1 i2 j), Hd. intros [id Hi]%H2. exists id. by rewrite lookup_fmap, Hi.
  - done.
  - done.
  - apply Forall_app. split; [done|]. constructor; [|done]. simpl. unfold in_rows. split_and!; try done; by eapply Hran.
  - intros i Hi. apply Forall_app. split; [by apply R4|]. constructor; [|done]. simpl. split; intros ->; [by apply (R5 id1 i1)|by apply (R5 id2 i2)].
  - intros id j (i & Hi & ->)%Hsw. unfold swapped. repeat case_match; by eapply R5.
  - apply Forall_app. split; [|constructor; [done|constructor]]. eapply Forall_impl; [done|]. intros m Hm Hu id j (i & Hi & ->)%Hsw.
    unfold swapped. repeat case_match; by eapply Hm.
  - by intros _ _ [_ ?]%app_nil.
Qed.
Definition processor_observer : Observer n (string → option T) :=
  mkObserver n (string → option T) pending_ok (λ r S, with_request S r) pending_removed pending_added pending_sorted pending_moved pending_swapped.
End follow.

(** What [update_batch] leaves for a processor: the dictionary that the update makes
    follows the batch, and what the update tells. *)
Record update_for {F T} `{!PyFloat F} (new_state : Added F → option T) (idx0 : gmap string Z) (b' : InputBatch F) (S : string → option T) (D : gmap Z T) (u : option (BatchUpdate (Added F))) : Prop := {
  uf_follows truthy : follows (req_id_to_index b') S (process_dict_updates new_state truthy D u).1;
  uf_size v : u = Some v → bu_batch_size v = num_reqs b';
  uf_same : u = None → req_id_to_index b' = idx0;
  uf_removed v : u = Some v → Forall (in_rows (max_num_reqs b')) (bu_removed v);
  uf_added v : u = Some v → Forall (λ a, in_rows (max_num_reqs b') a.1) (bu_added v);
  uf_moved v : u = Some v → Forall (λ m : MovedRequest, in_rows (max_num_reqs b') m.1.1 ∧ in_rows (max_num_reqs b') m.1.2 ∧
    (m.2 = UNIDIRECTIONAL → m.1.1 ≠ m.1.2 ∧ num_reqs b' ≤ m.1.1)) (bu_moved v);
}.
Lemma update_batch_tells {F T} `{!PyFloat F} (new_state : Added F → option T) (b : InputBatch F) gone new swaps S D :
  batch_ok b → builder_fresh b → step_fits gone new swaps b → is_pooling_model b = false → follows (req_id_to_index b) S D →
  ∃ u c b', update_batch gone new swaps b = (Ok (u, c), b') ∧ compact b' ∧ same_config b b' ∧
    update_for new_state (req_id_to_index b) b' (foldl (with_request new_state) S new) D u.
Proof.
  intros Hok Hfresh Hfits Hpool Hf. set (O := processor_observer new_state (max_num_reqs b) D (req_id_to_index b)).
  destruct (update_batch_spec O gone new swaps b S Hok Hfresh Hfits) as (u & c & b0 & b' & Hr & _ & Hc' & _ & Hcf & _ & _ & Hseen & Hidx & Hp0 & Hu).
  { intros _. split; [done|]. destruct Hfresh as (F1 & _ & F3 & F4). split; [unfold replay; by rewrite F1, F3, F4|]. split; rewrite ?F1, ?F3, ?F4; [constructor..| | |constructor|done].
    - intros. constructor.
    - intros id i _. apply not_elem_of_nil. }
  exists u, c, b'. split; [done|]. split; [done|]. split; [done|]. specialize (Hu Hpool). rewrite <-Hp0 in Hpool. destruct (Hseen Hpool) as [_ [Hfo [R1 R2 R3 _ _ R6 R7]]].
  rewrite <-Hidx in Hfo, R6, R7. pose proof (sc_reqs _ _ Hcf) as Hmax. split.
  - intros truthy. rewrite (process_dict_replay new_state truthy D (batch_update_builder b0)); [done|]. by destruct u as [v|]; [destruct Hu as (_ & ?)|].
  - intros v ->. by destruct Hu.
  - intros ->. destruct Hu as (? & ? & ?). by apply R7.
  - intros v ->. destruct Hu as (_ & -> & _). by rewrite Hmax.
  - intros v ->. destruct Hu as (_ & _ & -> & _). by rewrite Hmax.
  - intros v ->. destruct Hu as (_ & _ & _ & ->). rewrite Hmax. apply Forall_forall. intros m Hm. rewrite Forall_forall in R3, R6.
    destruct (R3 m Hm) as (M1 & M2 & M3). split_and!; [done|done|]. intros Hun. split; [by apply M3|].
    destruct (decide (num_reqs b' ≤ m.1.1)); [done|]. destruct (compact_at b' m.1.1 Hc') as (id & _ & Hid); [unfold in_rows in M1; lia|].
    pose proof (R6 m Hm Hun _ _ Hid). lia.
Qed.

(** C18.  The processors that keep a dictionary follow the batch.  When a dictionary has
    the right state at the row of every request and nothing elsewhere, it does so
    again after a step of the batch and the update it leads to: kept requests have
    their state at their new row, new requests that of their parameters, and rows
    without a request have none. *)
Theorem dictionaries_follow_the_batch {F T} `{!PyFloat F} (new_state : Added F → option T) truthy (b : InputBatch F) gone new swaps S D :
  batch_ok b → builder_fresh b → step_fits gone new swaps b → is_pooling_model b = false → follows (req_id_to_index b) S D →
  ∃ u c b', update_batch gone new swaps b = (Ok (u, c), b') ∧
    follows (req_id_to_index b') (foldl (with_request new_state) S new) (process_dict_updates new_state truthy D u).1.
Proof.
  intros Hok Hfresh Hfits Hpool Hf. destruct (update_batch_tells new_state b gone new swaps S D Hok Hfresh Hfits Hpool Hf) as (u & c & b' & Hr & _ & _ & Hu).
  exists u, c, b'. split; [done|]. apply Hu.
Qed.

(* ===================================================================== *)
(** ** The cells of the sparse processors                                 *)
(* ===================================================================== *)

Section sparse.
Context {P T : Type} (new_state : P → option T) (truthy : T → bool).
Hypothesis new_truthy : ∀ a x, new_state a = Some x → truthy x = true.
(** Nothing changed, and every state counts as true. *)
Definition unchanged (D : gmap Z T) (s : gmap Z T * bool) : Prop := map_Forall (λ _ x, truthy x = true) s.1 ∧ (s.2 = false → s.1 = D).
Lemma unchanged_fold {A} D (f : gmap Z T * bool → A → gmap Z T * bool) s l : (∀ s x, unchanged D s → unchanged D (f s x)) → unchanged D s → unchanged D (foldl f s l).
Proof. intros H. revert s. induction l as [|x l IH]; intros s Hs; [done|]. apply IH, H, Hs. Qed.
Lemma add_unchanged D s a : unchanged D s → unchanged D (dict_add new_state s a).
Proof.
  intros [H1 H2]. unfold dict_add. destruct (new_state a.2) as [x|] eqn:E; split; simpl; try done.
  - apply map_Forall_insert_2; [by eapply new_truthy|done].
  - by apply map_Forall_delete.
  - destruct (s.1 !! a.1) as [y|] eqn:Ey; simpl; [done|]. intros. rewrite delete_id by done. by apply H2.
Qed.
Lemma remove_unchanged D s i : unchanged D s → unchanged D (dict_remove truthy s i).
Proof.
  intros [H1 H2]. split; simpl; [by apply map_Forall_delete|]. destruct (s.1 !! i) as [y|] eqn:Ey; [by rewrite (H1 i y Ey)|]. intros. rewrite delete_id by done. by apply H2.
Qed.
Lemma move_unchanged D s m : unchanged D s → unchanged D (dict_move s m).
Proof.
  intros [H1 H2]. split.
  - rewrite dict_move_fst. destruct m as [[a b] d]. intros i x. rewrite m_move_lookup. repeat case_bool_decide; try apply H1. done.
  - destruct m as [[a b] d]. unfold dict_move. destruct (s.1 !! a) as [x|] eqn:Ea; simpl; [by destruct (delete a s.1 !! b)|].
    rewrite (delete_id s.1) by done. destruct (s.1 !! b) as [y|] eqn:Eb; simpl; [done|]. intros. rewrite delete_id by done. by apply H2.
Qed.
(** [process_dict_updates] answers whether the dictionary changed. *)
Lemma dict_unchanged D u : map_Forall (λ _ x, truthy x = true) D → unchanged D (process_dict_updates new_state truthy D u).
Proof.
  intros HD. unfold process_dict_updates. destruct u as [u|]; [|done].
  assert (Ha : unchanged D (foldl (dict_add new_state) (D, false) (bu_added u))) by (apply unchanged_fold; [intros; by apply add_unchanged|done]).
  case_bool_decide; [done|]. apply unchanged_fold; [intros; by apply move_unchanged|]. apply unchanged_fold; [intros; by apply remove_unchanged|done].
Qed.
End sparse.

(* ===================================================================== *)
(** ** The array of min-p                                                 *)
(* ===================================================================== *)

Section min_p.
Context {F : Type} `{!PyFloat F} (n : Z).
Implicit Types (cpu : list F) (D : gmap Z F) (s : MinP (F := F)).

(** The array as a dictionary of its non-zero entries. *)
Definition cell (x : F) : option F := if nonzero x then Some x else None.
Definition min_p_state (a : Added F) : option F := cell (min_p (ad_params a)).
Lemma cell_zero : cell float_zero = None.
Proof. unfold cell, nonzero. by rewrite bool_decide_true. Qed.
Lemma cell_inj x y : cell x = cell y → x = y.
Proof. unfold cell, nonzero. repeat case_bool_decide; simpl; congruence. Qed.
Lemma cell_some x : is_some (cell x) = nonzero x.
Proof. unfold cell. by destruct (nonzero x). Qed.
Definition flag (t : bool) : Z := if t then 1 else 0.
Lemma size_alter D i o : Z.of_nat (size (partial_alter (λ _, o) i D)) = Z.of_nat (size D) - flag (is_some (D !! i)) + flag (is_some o).
Proof.
  destruct o as [x|].
  - change (partial_alter (λ _, Some x) i D) with (<[i := x]> D). rewrite map_size_insert. destruct (D !! i); unfold flag; simpl; lia.
  - change (partial_alter (λ _, None) i D) with (delete i D). rewrite map_size_delete. destruct (D !! i) eqn:E; unfold flag; simpl; [|lia].
    assert (size D ≠ 0%nat); [|lia]. rewrite map_size_ne_0_lookup. exists i. by rewrite E.
Qed.

Record array_ok cpu D : Prop := {
  ar_len : len cpu = n;
  ar_in i x : 0 ≤ i → cpu !! Z.to_nat i = Some x → D !! i = cell x;
  ar_out i : ¬ (0 ≤ i < n) → D !! i = None;
}.
Lemma array_get cpu D i : array_ok cpu D → in_rows n i → ∃ x, np_get cpu i = Ok x ∧ D !! i = cell x ∧ cpu !! Z.to_nat i = Some x.
Proof. intros [Hl Hin _] Hi. destruct (np_get_some cpu i) as (x & Hx & Hl'); [by rewrite Hl|]. exists x. split_and!; [done| |done]. apply Hin; [apply Hi|done]. Qed.
Lemma array_set cpu D i x : array_ok cpu D → in_rows n i → list_set cpu i x = Ok (py_set cpu i x) ∧ array_ok (py_set cpu i x) (partial_alter (λ _, cell x) i D).
Proof.
  intros [Hl Hin Hout] Hi. split; [apply list_set_ok; by rewrite Hl|]. unfold in_rows in Hi. split.
  - by rewrite len_py_set.
  - intros j y Hj Hy. destruct (decide (i = j)) as [<-|Hij].
    + rewrite py_set_eq in Hy by lia. injection Hy as <-. apply lookup_partial_alter_eq.
    + rewrite py_set_ne in Hy by lia. rewrite lookup_partial_alter_ne by done. by apply Hin.
  - intros j Hj. rewrite lookup_partial_alter_ne by (intros ->; lia). by apply Hout.
Qed.
Definition min_p_ok s D : Prop := array_ok (min_p_cpu s) D ∧ min_p_count s = Z.of_nat (size D).
(** As long as the tensor need not be copied, the first [k] entries are unchanged. *)
Definition copy_quiet (k : Z) cpu0 s : Prop := needs_update s = false → take (Z.to_nat k) (min_p_cpu s) = take (Z.to_nat k) cpu0.

Lemma min_p_add_ok k cpu0 s D a : min_p_ok s D → copy_quiet k cpu0 s → in_rows n a.1 →
  ∃ s', min_p_add s a = Ok s' ∧ min_p_ok s' (m_add min_p_state D a) ∧ copy_quiet k cpu0 s'.
Proof.
  intros [Ha Hc] Hq Hi. unfold min_p_add, m_add, min_p_state. destruct (array_get _ _ _ Ha Hi) as (y & Hy & Hd & _). rewrite Hy. simpl. set (x := min_p (ad_params a.2)).
  case_bool_decide as Hxy.
  - exists s. split; [done|]. by rewrite <-Hxy, <-Hd, partial_alter_self.
  - destruct (array_set _ _ _ x Ha Hi) as [Hs Ha']. rewrite Hs. simpl. eexists. split; [done|]. split; [split; [done|]|done]. simpl.
    rewrite size_alter, Hd, !cell_some, Hc. destruct (nonzero x), (nonzero y); unfold flag; simpl; lia.
Qed.
Lemma min_p_remove_ok k cpu0 s D i : min_p_ok s D → copy_quiet k cpu0 s ∧ needs_update s = true → in_rows n i →
  ∃ s', min_p_remove s i = Ok s' ∧ min_p_ok s' (m_remove D i) ∧ copy_quiet k cpu0 s' ∧ needs_update s' = true.
Proof.
  intros [Ha Hc] [Hq Hn] Hi. unfold min_p_remove, m_remove. destruct (array_get _ _ _ Ha Hi) as (y & Hy & Hd & _). rewrite Hy. simpl.
  destruct (nonzero y) eqn:Ey.
  - destruct (array_set _ _ _ float_zero Ha Hi) as [Hs Ha']. rewrite Hs. simpl. rewrite cell_zero in Ha'. eexists. split; [done|]. split; [split; [done|]|].
    + simpl. change (delete i D) with (partial_alter (λ _, None) i D). rewrite size_alter, Hd, cell_some, Ey, Hc. unfold flag. simpl. lia.
    + unfold copy_quiet. simpl. by rewrite Hn.
  - exists s. split; [done|]. rewrite delete_id; [done|]. rewrite Hd. unfold cell. by rewrite Ey.
Qed.
Lemma take_set k cpu i x : k ≤ i → take (Z.to_nat k) (py_set cpu i x) = take (Z.to_nat k) cpu.
Proof. intros Hi. unfold py_set. apply take_insert_ge. lia. Qed.
Lemma m_move_alter D a b d : a ≠ b → m_move D (a, b, d) =
  partial_alter (λ _, if bool_decide (d = SWAP) then D !! b else None) a (partial_alter (λ _, D !! a) b D).
Proof.
  intros Hab. apply map_eq. intros i. rewrite m_move_lookup. destruct (decide (i = a)) as [->|Hia].
  - rewrite bool_decide_false, bool_decide_true by done. by rewrite lookup_partial_alter_eq.
  - rewrite lookup_partial_alter_ne by done. destruct (decide (i = b)) as [->|Hib]; [by rewrite bool_decide_true, lookup_partial_alter_eq|].
    rewrite !bool_decide_false by done. by rewrite lookup_partial_alter_ne.
Qed.
Lemma array_clear cpu D i x : array_ok cpu D → in_rows n i → D !! i = cell x →
  ∃ cpu', (if nonzero x then list_set cpu i float_zero else Ok cpu) = Ok cpu' ∧ array_ok cpu' (partial_alter (λ _, None) i D) ∧
    ∀ k, k ≤ i → take (Z.to_nat k) cpu' = take (Z.to_nat k) cpu.
Proof.
  intros Ha Hi Hd. destruct (array_set _ _ _ float_zero Ha Hi) as [Hs Ha']. rewrite cell_zero in Ha'. destruct (nonzero x) eqn:E.
  - exists (py_set cpu i float_zero). split_and!; [done..|]. intros k. apply take_set.
  - exists cpu. split_and!; [done| |done]. rewrite partial_alter_id; [done|]. rewrite Hd. unfold cell. by rewrite E.
Qed.
Lemma min_p_move_ok k cpu0 s D m : min_p_ok s D → copy_quiet k cpu0 s → in_rows n m.1.1 ∧ in_rows n m.1.2 ∧ (m.2 = UNIDIRECTIONAL → m.1.1 ≠ m.1.2 ∧ k ≤ m.1.1) →
  ∃ s', min_p_move s m = Ok s' ∧ min_p_ok s' (m_move D m) ∧ copy_quiet k cpu0 s'.
Proof.
  intros [Ha Hc] Hq (Ra & Rb & Hu). destruct m as [[a b] d]. simpl in *. destruct (array_get _ _ _ Ha Ra) as (xa & Ga & Da & La), (array_get _ _ _ Ha Rb) as (xb & Gb & Db & Lb).
  unfold min_p_move. rewrite Ga, Gb. cbn -[bool_decide]. destruct d; cbn -[bool_decide].
  - destruct (Hu eq_refl) as [Hab Hk]. rewrite m_move_alter, Da by done. rewrite (bool_decide_false (UNIDIRECTIONAL = SWAP)), (bool_decide_true (UNIDIRECTIONAL = UNIDIRECTIONAL)) by done.
    set (D1 := partial_alter (λ _, cell xa) b D). assert (HDa : D1 !! a = cell xa) by (unfold D1; by rewrite lookup_partial_alter_ne).
    assert (Hsz : Z.of_nat (size (partial_alter (λ _, None) a D1)) = (if nonzero xb then min_p_count s - 1 else min_p_count s)).
    { rewrite size_alter, HDa. unfold D1. rewrite size_alter, Db, !cell_some, Hc. destruct (nonzero xa), (nonzero xb); unfold flag; simpl; lia. }
    case_bool_decide as Hx; cbn -[bool_decide].
    + assert (array_ok (min_p_cpu s) D1) as Ha1. { unfold D1. rewrite Hx, <-Db. by rewrite partial_alter_self. }
      destruct (array_clear _ _ a xa Ha1 Ra HDa) as (cpu' & -> & Ha' & Ht). eexists. split; [done|]. split; [by split|]. intros Hn. simpl. rewrite Ht by done. by apply Hq.
    + destruct (array_set _ _ _ xa Ha Rb) as [-> Ha1]. cbn -[bool_decide]. destruct (array_clear _ _ a xa Ha1 Ra HDa) as (cpu' & -> & Ha' & _).
      eexists. split; [done|]. by split.
  - rewrite (bool_decide_true (SWAP = SWAP)), (bool_decide_false (SWAP = UNIDIRECTIONAL)) by done. case_bool_decide as Hx; cbn.
    + exists s. split; [done|]. assert (m_move D (a, b, SWAP) = D) as ->; [|done]. apply map_eq. intros i. rewrite m_move_lookup, Da, Db, Hx.
      rewrite (bool_decide_true (SWAP = SWAP)) by done. repeat case_bool_decide; by subst.
    + assert (a ≠ b) by (intros ->; congruence). destruct (array_set _ _ _ xa Ha Rb) as [-> Ha1]. cbn. destruct (array_set _ _ _ xb Ha1 Ra) as [-> Ha2]. cbn.
      eexists. split; [done|]. rewrite m_move_alter, Da, Db by done. rewrite (bool_decide_true (SWAP = SWAP)) by done. split; [|done]. split; [done|]. simpl.
      rewrite size_alter, lookup_partial_alter_ne, Da, size_alter, Db, !cell_some, Hc by done. lia.
Qed.
Lemma fold_res_ok {A B C} (f : A → B → res A) (g : C → B → C) (R : A → C → Prop) (Q : B → Prop) l a c :
  (∀ a c x, R a c → Q x → ∃ a', f a x = Ok a' ∧ R a' (g c x)) → R a c → Forall Q l → ∃ a', fold_res f a l = Ok a' ∧ R a' (foldl g c l).
Proof.
  intros Hf. revert a c. induction l as [|x l IH]; intros a c HR HQ; [by exists a|]. apply Forall_cons in HQ as [Hx HQ].
  destruct (Hf a c x HR Hx) as (a' & Ha & HR'). simpl. rewrite Ha. by apply IH.
Qed.
(** The array after an update is that of the dictionary. *)
Lemma min_p_update_ok cpu D v : array_ok cpu D → Forall (in_rows n) (bu_removed v) → Forall (λ a : Z * Added F, in_rows n a.1) (bu_added v) →
  Forall (λ m : MovedRequest, in_rows n m.1.1 ∧ in_rows n m.1.2 ∧ (m.2 = UNIDIRECTIONAL → m.1.1 ≠ m.1.2 ∧ bu_batch_size v ≤ m.1.1)) (bu_moved v) →
  ∃ s, min_p_update_state cpu (Z.of_nat (size D)) (Some v) = Ok s ∧ min_p_ok s (process_dict_updates min_p_state (λ _, true) D (Some v)).1 ∧ copy_quiet (bu_batch_size v) cpu s.
Proof.
  intros Ha Hr Had Hm. set (k := bu_batch_size v). set (R := λ s D', min_p_ok s D' ∧ copy_quiet k cpu s).
  destruct (fold_res_ok min_p_add (m_add min_p_state) R (λ a, in_rows n a.1) (bu_added v) (mkMinP cpu (Z.of_nat (size D)) false) D) as (s1 & H1 & [Hok1 Hq1]); [|by split|done|].
  { intros s D' a [? ?] ?. by apply min_p_add_ok. }
  rewrite (process_dict_replay _ _ D (mkBuilder (bu_removed v) true (bu_added v) (bu_moved v) true)) by done. unfold replay. simpl. rewrite H1. cbn.
  set (D1 := foldl (m_add min_p_state) D (bu_added v)) in *. pose proof (proj2 Hok1) as Hc. destruct (Z.eqb_spec (min_p_count s1) 0) as [Hz|Hz].
  { exists s1. split; [done|]. assert (D1 = ∅) as HD. { apply map_size_empty_inv. lia. } rewrite HD in *. by rewrite removes_empty, moves_empty. }
  assert (∃ s2, fold_res min_p_remove (match bu_removed v with [] => s1 | _ => mkMinP (min_p_cpu s1) (min_p_count s1) true end) (bu_removed v) = Ok s2 ∧
    R s2 (foldl m_remove D1 (bu_removed v))) as (s2 & -> & [Hok2 Hq2]).
  { destruct (bu_removed v) as [|i l] eqn:E; [by exists s1|]. rewrite <-E in *.
    destruct (fold_res_ok min_p_remove m_remove (λ s D', min_p_ok s D' ∧ copy_quiet k cpu s ∧ needs_update s = true) (in_rows n) (bu_removed v)
      (mkMinP (min_p_cpu s1) (min_p_count s1) true) D1) as (s2 & H2 & Hok2 & Hq2 & _); [|by split_and!|done|by exists s2].
    intros s D' x [? ?] ?. by apply min_p_remove_ok. }
  cbn. destruct (fold_res_ok min_p_move m_move R (λ m, in_rows n m.1.1 ∧ in_rows n m.1.2 ∧ (m.2 = UNIDIRECTIONAL → m.1.1 ≠ m.1.2 ∧ k ≤ m.1.1)) (bu_moved v)
    s2 (foldl m_remove D1 (bu_removed v))) as (s3 & H3 & Hok3 & Hq3); [|by split|done|by exists s3].
  intros s D' m [? ?] ?. by apply min_p_move_ok.
Qed.
(** Arrays and dictionaries determine each other. *)
Definition dict_of cpu : gmap Z F := omap cell (map_seqZ 0 cpu : gmap Z F).
Lemma dict_of_ok cpu : len cpu = n → array_ok cpu (dict_of cpu).
Proof.
  intros Hl. split; [done|..].
  - intros i x Hi Hx. unfold dict_of. rewrite lookup_omap, lookup_map_seqZ. rewrite option_guard_True by lia. by rewrite Z.sub_0_r, Hx.
  - intros i Hi. unfold dict_of. rewrite lookup_omap, lookup_map_seqZ. case_guard; [|done]. rewrite Z.sub_0_r, lookup_ge_None_2; [done|]. unfold len in Hl. lia.
Qed.
Lemma array_dict cpu D : array_ok cpu D → D = dict_of cpu.
Proof.
  intros Ha. pose proof (dict_of_ok cpu (ar_len _ _ Ha)) as Hd. apply map_eq. intros i. destruct (decide (0 ≤ i < n)) as [Hi|Hi].
  - destruct (array_get _ _ i Ha Hi) as (x & _ & -> & Hx). symmetry. apply (ar_in _ _ Hd); [lia|done].
  - by rewrite (ar_out _ _ Ha), (ar_out _ _ Hd).
Qed.
Lemma size_dict_of cpu : Z.of_nat (size (dict_of cpu)) = len (filter (λ x, nonzero x) cpu).
Proof.
  unfold dict_of, len. f_equal. generalize 0. induction cpu as [|x cpu IH]; intros i; [done|]. simpl. rewrite omap_insert. unfold cell at 1.
  assert (Hn : omap cell (map_seqZ (Z.succ i) cpu : gmap Z F) !! i = None). { rewrite lookup_omap, lookup_map_seqZ. case_guard; [lia|done]. }
  rewrite filter_cons. destruct (nonzero x) eqn:E; simpl.
  - rewrite map_size_insert_None by done. by rewrite IH.
  - rewrite delete_id by done. by rewrite IH.
Qed.
End min_p.

Section min_p_batch.
Context {F : Type} `{!PyFloat F}.
Implicit Types b : InputBatch F.
(** The processor has the value [V id] of every request in its array, at its row, zero
    elsewhere, the number of values that are not zero, and, when there are any, the
    tensor of the values of the batch. *)
Record min_p_follows b (V : string → F) (cpu : list F) (count : Z) (slice : list F) : Prop := {
  mf_len : len cpu = max_num_reqs b;
  mf_value id i : req_id_to_index b !! id = Some i → cpu !! Z.to_nat i = Some (V id);
  mf_rest i x : cpu !! i = Some x → (∀ id, req_id_to_index b !! id ≠ Some (Z.of_nat i)) → x = float_zero;
  mf_count : count = len (filter (λ x, nonzero x) cpu);
  mf_slice : count ≠ 0 → slice = take (Z.to_nat (num_reqs b)) cpu;
}.
Definition with_min_p (V : string → F) (r : CachedRequestState F) : string → F :=
  λ id, if bool_decide (id = req_id r) then from_option min_p float_zero (sampling_params r) else V id.
Lemma with_min_p_cells new S V : (∀ id, S id = cell (V id)) → ∀ id, foldl (with_request min_p_state) S new id = cell (foldl with_min_p V new id).
Proof.
  revert S V. induction new as [|r new IH]; intros S V HS; [done|]. simpl. apply IH. intros id. unfold with_request, with_min_p, added_state.
  case_bool_decide; [|done]. destruct (sampling_params r) as [p|]; [done|]. simpl. by rewrite cell_zero.
Qed.
Lemma follows_of_min_p b V cpu count slice : batch_ok b → min_p_follows b V cpu count slice → follows (req_id_to_index b) (cell ∘ V) (dict_of cpu).
Proof.
  intros Hok [Hl Hv Hz _ _]. pose proof (dict_of_ok (max_num_reqs b) cpu Hl) as Hd. split.
  - intros id i Hi. pose proof (index_range _ b id i Hok Hi). apply (ar_in _ _ _ Hd); [lia|by apply Hv].
  - intros i Hs. destruct (decide (0 ≤ i < max_num_reqs b)) as [Hi|Hi]; [|rewrite (ar_out _ _ _ Hd) in Hs by done; by destruct Hs].
    destruct (array_get _ _ _ i Hd Hi) as (x & _ & Hx & Hl').
    destruct (decide (Exists (λ e, e.2 = i) (map_to_list (req_id_to_index b)))) as [(e & He & <-)%Exists_exists|Hn].
    + exists e.1. apply elem_of_map_to_list. by destruct e.
    + rewrite Hx, (Hz (Z.to_nat i) x Hl'), cell_zero in Hs; [by destruct Hs|]. intros id Hid. destruct Hn. apply Exists_exists. exists (id, i). rewrite elem_of_map_to_list. split; [|done].
      rewrite Hid. f_equal. lia.
Qed.
Lemma min_p_of_follows b V cpu D : compact b → array_ok (max_num_reqs b) cpu D → follows (req_id_to_index b) (cell ∘ V) D →
  (∀ id i, req_id_to_index b !! id = Some i → cpu !! Z.to_nat i = Some (V id)) ∧
  (∀ i x, cpu !! i = Some x → (∀ id, req_id_to_index b !! id ≠ Some (Z.of_nat i)) → x = float_zero) ∧
  Z.of_nat (size D) = len (filter (λ x, nonzero x) cpu).
Proof.
  intros Hc Ha [F1 F2]. pose proof (ar_len _ _ _ Ha) as Hl. split_and!.
  - intros id i Hi. pose proof (F1 id i Hi) as Hd. apply (cp_live _ Hc) in Hi as [H0 Hi]. apply lookup_lt_Some in Hi. pose proof (pt_ids _ (cp_parts _ Hc)) as Hp.
    destruct (array_get _ _ _ i Ha) as (x & _ & Hx & Hl'); [unfold in_rows, len in *; lia|]. rewrite Hl'. f_equal. apply cell_inj. by rewrite <-Hx.
  - intros i x Hx Hn. pose proof (ar_in _ _ _ Ha (Z.of_nat i) x ltac:(lia)) as Hd. rewrite Nat2Z.id in Hd. specialize (Hd Hx). apply cell_inj. rewrite <-Hd, cell_zero.
    destruct (D !! Z.of_nat i) as [y|] eqn:Ey; [|done]. destruct (F2 (Z.of_nat i)) as [id Hid]; [by rewrite Ey|]. by destruct (Hn id).
  - rewrite (array_dict _ _ _ Ha). apply size_dict_of.
Qed.
(** The tensor need not be copied when nothing asks for it. *)
Lemma slice_kept b b' cpu D s D' slice V : array_ok (max_num_reqs b) cpu D → min_p_ok (max_num_reqs b) s D' → copy_quiet (num_reqs b') cpu s →
  compact b' → follows (req_id_to_index b') V D' → num_reqs b ≤ max_num_reqs b → 0 ≤ num_reqs b' ≤ max_num_reqs b →
  (Z.of_nat (size D) ≠ 0 → slice = take (Z.to_nat (num_reqs b)) cpu) →
  min_p_count s ≠ 0 → min_p_slice s (num_reqs b') slice = take (Z.to_nat (num_reqs b')) (min_p_cpu s).
Proof.
  intros Ha [Ha' Hc'] Hq Hc [_ F2] Hb Hb' Hs Hn. unfold min_p_slice. rewrite (proj2 (Z.eqb_neq _ _) Hn). simpl.
  destruct (needs_update s) eqn:En; [done|]. simpl. destruct (Z.eqb_spec (len slice) (num_reqs b')) as [Hsz|]; [|done]. simpl. rewrite Hq by done.
  assert (Hne : Z.of_nat (size D) ≠ 0).
  { rewrite Hc' in Hn. assert (size D' ≠ 0%nat) as [i Hi]%map_size_ne_0_lookup by lia. destruct (F2 i Hi) as [id Hid].
    assert (Hr : 0 ≤ i < num_reqs b'). { apply (cp_live _ Hc) in Hid as [H0 Hx]. apply lookup_lt_Some in Hx. rewrite <-(compact_size b' Hc). unfold len. lia. }
    destruct (array_get _ _ _ i Ha') as (x & _ & Hx & Hl); [unfold in_rows; lia|]. assert (size D ≠ 0%nat); [|lia]. apply map_size_ne_0_lookup. exists i.
    rewrite (ar_in _ _ _ Ha i x); [by rewrite <-Hx|lia|]. rewrite <-(lookup_take_lt _ (Z.to_nat (num_reqs b'))) by lia. rewrite <-(Hq En), lookup_take_lt by lia. done. }
  rewrite (Hs Hne) in *. pose proof (ar_len _ _ _ Ha). unfold len in *. rewrite length_take in Hsz. f_equal. unfold num_reqs in *. lia.
Qed.
End min_p_batch.

Lemma num_reqs_max {F} (b : InputBatch F) : batch_ok b → num_reqs b ≤ max_num_reqs b.
Proof.
  intros [Hids _ Hp]. unfold num_reqs. rewrite (ids_size _ _ _ _ Hids). pose proof (pt_ids _ Hp). assert (∀ l : list (option string), length (omap id l) ≤ length l)%nat as Hle.
  { intros l. induction l as [|[x|] l IH]; [done|..]; simpl in *; unfold omap in IH; lia. } pose proof (Hle (_req_ids b)). unfold len in *. lia.
Qed.

(** C19.  The min-p processor follows the batch: after a step and the update it leads
    to, its array has the min-p of every request at its row and zero elsewhere, its
    counter is the number of entries that are not zero, and, when there are any, the
    tensor it applies has exactly the values of the batch, although it is copied only
    when the update asks for it.  No index is out of range on the way. *)
Theorem min_p_follows_the_batch {F} `{!PyFloat F} (b : InputBatch F) gone new swaps V cpu count slice :
  batch_ok b → builder_fresh b → step_fits gone new swaps b → is_pooling_model b = false →
  min_p_follows b V cpu count slice →
  ∃ u c b' s slice', update_batch gone new swaps b = (Ok (u, c), b') ∧ min_p_step cpu count slice u = Ok (s, slice') ∧
    min_p_follows b' (foldl with_min_p V new) (min_p_cpu s) (min_p_count s) slice'.
Proof.
  intros Hok Hfresh Hfits Hpool Hmf. pose proof (num_reqs_max b Hok) as Hroom. pose proof (follows_of_min_p _ _ _ _ _ Hok Hmf) as Hf. destruct Hmf as [Hl Hv Hz Hcnt Hsl].
  pose proof (dict_of_ok _ _ Hl) as Hd. rewrite Hcnt, <-size_dict_of in *. clear Hcnt Hv Hz.
  destruct (update_batch_tells min_p_state b gone new swaps _ _ Hok Hfresh Hfits Hpool Hf) as (u & c & b' & Hr & Hc' & Hcf & [U1 U2 U3 U4 U5 U6]).
  specialize (U1 (λ _, true)). assert (Hf' : follows (req_id_to_index b') (cell ∘ foldl with_min_p V new) (process_dict_updates min_p_state (λ _, true) (dict_of cpu) u).1).
  { destruct U1 as [G1 G2]. split; [|done]. intros id i Hi. rewrite (G1 id i Hi). by apply with_min_p_cells. }
  clear U1. pose proof (sc_reqs _ _ Hcf) as Hmax. pose proof (compact_size _ Hc') as Hsz. pose proof (pt_ids _ (cp_parts _ Hc')) as Hids. pose proof (len_nonneg (_req_ids b')).
  exists u, c, b'. destruct u as [v|].
  - rewrite Hmax in *. specialize (U2 v eq_refl). destruct (min_p_update_ok (max_num_reqs b) cpu (dict_of cpu) v Hd) as (s & Hs & Hok' & Hq); [by apply U4|by apply U5|rewrite U2; by apply U6|].
    destruct Hok' as [Ha' Hc'']. rewrite <-Hmax in Ha'. destruct (min_p_of_follows b' _ _ _ Hc' Ha' Hf') as (V1 & V2 & V3). rewrite Hmax in Ha'.
    exists s, (min_p_slice s (num_reqs b') slice). unfold min_p_step. rewrite Hs, <-U2. split; [done|]. split; [done|]. split; [by rewrite (ar_len _ _ _ Ha')|done|done|by rewrite Hc''|].
    rewrite U2 in *. apply (slice_kept b b' cpu (dict_of cpu) s _ slice _ Hd (conj Ha' Hc'') Hq Hc' Hf'); [done|lia|done].
  - specialize (U3 eq_refl). simpl in Hf'. exists (mkMinP cpu (Z.of_nat (size (dict_of cpu))) false), slice. split; [done|]. split; [done|]. rewrite <-Hmax in Hd.
    destruct (min_p_of_follows b' _ _ _ Hc' Hd Hf') as (V1 & V2 & V3). split; simpl; [by rewrite Hmax|done..|]. intros Hne. rewrite (Hsl Hne). unfold num_reqs. by rewrite U3.
Qed.

#[local] Existing Instance test_float.
Lemma dictionaries_follow_the_batch_witness : ∃ u c b', update_batch [] test_new [(0, 1)] test_batch = (Ok (u, c), b') ∧
  follows (req_id_to_index b') (foldl (with_request min_p_state) (λ _, None) test_new) (process_dict_updates min_p_state (λ _, true) ∅ u).1.
Proof.
  destruct test_step_fits as (H1 & H2 & H3). apply (dictionaries_follow_the_batch min_p_state (λ _, true) test_batch [] test_new [(0, 1)] (λ _, None) ∅ H1 H2 H3); [done|].
  split; [by intros id i ?|]. intros i. rewrite lookup_empty. by intros [].
Defined.
Lemma min_p_follows_the_batch_witness : ∃ u c b' s slice', update_batch [] test_new [(0, 1)] test_batch = (Ok (u, c), b') ∧
  min_p_step [0; 0; 0; 0] 0 [] u = Ok (s, slice') ∧ min_p_follows b' (foldl with_min_p (λ _, 0) test_new) (min_p_cpu s) (min_p_count s) slice'.
Proof.
  destruct test_step_fits as (H1 & H2 & H3). apply (min_p_follows_the_batch test_batch [] test_new [(0, 1)] (λ _, 0) [0; 0; 0; 0] 0 [] H1 H2 H3); [done|].
  split; try done. intros i x Hx _. apply list_elem_of_lookup_2 in Hx. set_solver.
Defined.

(* ===================================================================== *)
(** ** Cells of the logits                                                *)
(* ===================================================================== *)

Section cells.
Context {F : Type} `{!PyFloat F}.
Definition bias_ok (p : LogitBias (F := F)) : Prop := map_Forall (λ _ x, bias_truthy x = true) (biases p) ∧ bias_slice p = bias_cells (biases p).
Lemma bias_update_ok p u : bias_ok p → bias_ok (logit_bias_update_state p u).
Proof.
  intros [H1 H2]. destruct (dict_unchanged logit_bias_state bias_truthy) with (D := biases p) (u := u) as [G1 G2]; [|done|].
  { intros a x. unfold logit_bias_state, bias_truthy. destruct (logit_bias (ad_params a)) as [m|]; [|done]. case_bool_decide; [done|]. intros [= <-]. by rewrite bool_decide_false. }
  split; [done|]. unfold logit_bias_update_state. simpl. destruct (process_dict_updates _ _ _ _) as [D c]. simpl in *. destruct c; [done|]. by rewrite G2.
Qed.
Lemma stops_update_ok outputs (p : MinTokens) (u : option (BatchUpdate (Added F))) :
  stop_slice p = stop_cells (min_toks p) → let p' := min_tokens_update_state outputs p u in stop_slice p' = stop_cells (min_toks p').
Proof.
  intros Hp. unfold min_tokens_update_state. destruct (dict_unchanged (min_tokens_state (F := F) outputs) (λ _, true)) with (D := min_toks p) (u := u) as [_ G2]; [done|done|].
  destruct (process_dict_updates _ _ _ _) as [D c]. simpl in *. case_bool_decide as E; [|done]. destruct c; [done|]. by rewrite E, G2.
Qed.
End cells.

(** The sparse processors rebuild the cells they apply to the logits only when the
    update reports a change, and still, after any sequence of updates, the cells are
    those of their states: one per biased token of a request, and one per stop token
    of a request that is short of its minimum. *)
Theorem cells_are_those_of_the_states {F} `{!PyFloat F} (us : list ((Ref → list Z) * option (BatchUpdate (Added F)))) :
  let p := foldl (λ p u, logit_bias_update_state p u.2) new_LogitBias us in
  let q := foldl (λ q u, min_tokens_update_state u.1 q u.2) new_MinTokens us in
  bias_slice p = bias_cells (biases p) ∧ stop_slice q = stop_cells (min_toks q).
Proof.
  assert (H : ∀ p q, bias_ok p → stop_slice q = stop_cells (min_toks q) →
    bias_ok (foldl (λ p u, logit_bias_update_state p u.2) p us) ∧ stop_slice (foldl (λ q u, min_tokens_update_state u.1 q u.2) q us) = stop_cells (min_toks (foldl (λ q u, min_tokens_update_state u.1 q u.2) q us))).
  { induction us as [|[o u] us IH]; intros p q Hp Hq; [done|]. apply IH; [by apply bias_update_ok|by apply stops_update_ok]. }
  destruct (H new_LogitBias new_MinTokens) as [[_ Hb] Hs]; [done|done|by split].
Qed.

(** The rows of request [i] start after those of the requests before it. *)
Definition first_row (num_draft_tokens : list Z) (i : Z) : Z := foldr Z.add 0 (take (Z.to_nat i) num_draft_tokens).
Lemma draft_cumsum_lookup acc l i : (i ≤ length l)%nat → draft_cumsum acc l !! i = Some (acc + foldr Z.add 0 (take i l)).
Proof.
  revert acc i. induction l as [|x l IH]; intros acc [|i] Hi; simpl in *; [f_equal; lia|lia|f_equal; lia|]. rewrite IH by lia. f_equal. lia.
Qed.
Lemma mapM_cells {A B} (f : A → res (list B)) l : Forall (λ x, ∃ y, f x = Ok y) l →
  ∃ ys, mapM f l = Ok ys ∧ ∀ z, z ∈ concat ys ↔ ∃ x y, x ∈ l ∧ f x = Ok y ∧ z ∈ y.
Proof.
  induction l as [|x l IH]; intros Hl; [exists []; split; [done|]; intros z; set_solver|]. apply Forall_cons in Hl as [[y Hy] Hl]. destruct (IH Hl) as (ys & Hm & Hz).
  exists (y :: ys). split; [simpl; rewrite Hy; simpl; by rewrite Hm|]. intros z. simpl. rewrite elem_of_app, Hz. split.
  - intros [?|(x' & y' & ? & ? & ?)]; [exists x, y|exists x', y']; set_solver.
  - intros (x' & y' & [->|Hx]%elem_of_cons & Hf & Hz'); [left; congruence|right; by exists x', y'].
Qed.
(** C20.  With speculative decoding a stop token is ruled out exactly at the draft
    positions that come before a request has its minimum of tokens: position [k] of
    a request with [n] output tokens is masked when [n + k] is below the minimum, in
    that request's rows and in no others. *)
Theorem stop_tokens_are_masked_until_min_tokens outputs (p : MinTokens) num_draft_tokens :
  (∀ i e, min_toks p !! i = Some e → 0 ≤ i < len num_draft_tokens) →
  ∃ cells, apply_with_spec_decode outputs p num_draft_tokens = Ok cells ∧
    ∀ row tok, (row, tok) ∈ cells ↔ ∃ i m out stops n k, min_toks p !! i = Some (m, out, stops) ∧ tok ∈ stops ∧
      num_draft_tokens !! Z.to_nat i = Some n ∧ 0 ≤ k < n ∧ row = first_row num_draft_tokens i + k ∧ len (outputs out) + k < m.
Proof.
  intros Hin. unfold apply_with_spec_decode.
  assert (Hone : ∀ e, e ∈ map_to_list (min_toks p) → ∃ c n, spec_cells outputs num_draft_tokens e = Ok c ∧ num_draft_tokens !! Z.to_nat e.1 = Some n ∧
    ∀ row tok, (row, tok) ∈ c ↔ tok ∈ e.2.2 ∧ ∃ k, 0 ≤ k < n ∧ row = first_row num_draft_tokens e.1 + k ∧ len (outputs e.2.1.2) + k < e.2.1.1).
  { intros [i [[m out] stops]] He%elem_of_map_to_list. simpl. pose proof (Hin _ _ He) as Hi. destruct (np_get_some num_draft_tokens i Hi) as (n & Hn & Hl). unfold spec_cells.
    rewrite Hn. simpl. case_bool_decide as Hs; [exists [], n; subst; split_and!; [done|done|]; set_solver|].
    assert (Hcs : np_get (draft_cumsum 0 num_draft_tokens) i = Ok (first_row num_draft_tokens i)). { apply np_get_ok; [lia|]. rewrite draft_cumsum_lookup; [done|]. unfold len in Hi. lia. }
    rewrite Hcs. simpl. destruct (Z.ltb_spec 0 (Z.min (Z.max (m - len (outputs out)) 0) n)) as [Hm|Hm].
    - eexists _, n. split_and!; [done|done|]. intros row tok. rewrite list_elem_of_In, in_flat_map. setoid_rewrite <-list_elem_of_In.
      setoid_rewrite elem_of_seqZ. setoid_rewrite list_elem_of_fmap. setoid_rewrite elem_of_elements. split.
      + intros (r & Hr & t & [= -> ->] & Ht). split; [done|]. exists (r - first_row num_draft_tokens i). lia.
      + intros [Ht (k & Hk & -> & Hlt)]. exists (first_row num_draft_tokens i + k). split; [lia|]. by exists tok.
    - exists [], n. split_and!; [done|done|]. intros row tok. rewrite elem_of_nil. split; [done|]. intros [_ (k & ? & _ & ?)]. lia. }
  destruct (mapM_cells (spec_cells outputs num_draft_tokens) (map_to_list (min_toks p))) as (ys & -> & Hz).
  { apply Forall_forall. intros e He. destruct (Hone e He) as (c & n & Hc & _). by exists c. }
  eexists. split; [done|]. intros row tok. rewrite Hz. split.
  - intros ([i [[m out] stops]] & y & He & Hy & Hc). destruct (Hone _ He) as (c & n & Hc' & Hn & Hiff). assert (y = c) as -> by congruence.
    apply Hiff in Hc as (Ht & k & Hk & Hrow & Hlt). apply elem_of_map_to_list in He. by exists i, m, out, stops, n, k.
  - intros (i & m & out & stops & n & k & He & Ht & Hn & Hk & Hrow & Hlt). apply elem_of_map_to_list in He. destruct (Hone _ He) as (c & n' & Hc & Hn' & Hiff).
    exists (i, (m, out, stops)), c. split_and!; [done|done|]. apply Hiff. split; [done|]. exists k. simpl in Hn'. assert (n' = n) as -> by congruence. done.
Qed.
Lemma stop_tokens_are_masked_until_min_tokens_witness :
  let p := mkMinTokens {[ 1 := (3, 7, {[ 2 ]}) ]} [] in
  ∃ cells, apply_with_spec_decode (λ _, [5]) p [2; 4] = Ok cells ∧ ((3, 2) ∈ cells ↔ ∃ i m out stops n k, min_toks p !! i = Some (m, out, stops) ∧ 2 ∈ stops ∧
      [2; 4] !! Z.to_nat i = Some n ∧ 0 ≤ k < n ∧ 3 = first_row [2; 4] i + k ∧ len [5] + k < m).
Proof.
  destruct (stop_tokens_are_masked_until_min_tokens (λ _, [5]) (mkMinTokens {[ 1 := (3, 7, {[ 2 ]}) ]} []) [2; 4]) as (cells & Hc & Hiff).
  - intros i e. cbn [min_toks]. intros [<- _]%lookup_singleton_Some. unfold len. simpl. lia.
  - exists cells. split; [exact Hc|]. apply Hiff.
Defined.
